(* ===== verification/_CoqProject ===== *)
-Q . S2P
Prelude.v
GoStrings.v
Calendar.v
Base64.v
Decimals.v
DecimalText.v
Errors.v
Model.v
Venue.v
MarketCatalog.v
HttpErrors.v
Orders.v
OrderBook.v
RateLimit.v
Transport.v
SdkLimiter.v
Hub.v
Runtime.v
Store.v
InstrumentCatalog.v
FundingHistory.v
Trader.v
Derivative.v
DerivativeFeed.v
Feeds.v
Dispatch.v
Sockets.v
Streams.v
AccountFeed.v
Hyperliquid.v
ExactLookup.v
Credentials.v
Manager.v
Api.v
Websocket.v
Clients.v
HyperliquidMarkets.v
HyperliquidRest.v
VenueErrors.v
Commands.v
Placement.v
FundingLoaders.v
DerivativeLoaders.v
SingleFlight.v
OKXMarkets.v
OKXRest.v
OKXTradeMode.v
BinanceMarkets.v
BinanceRest.v
BinanceLookup.v
Lookups.v
BinanceFunding.v
Paging.v
BybitBitget.v
BybitBitgetRest.v
BitgetCandles.v
BybitFunding.v
GateMarkets.v
GateRest.v
