(* ===== verification/Prelude.v ===== *)
(** * BolterTrader: a verification library

    BolterTrader is a manual-trading system for nine crypto exchanges.  Two
    processes matter here.  The _gateway_ (src/gateway) holds the accounts and
    their credentials, talks to the exchanges through venue clients
    (src/exchange and src/sdk) and serves instruments, market data, positions
    and orders over HTTP and a websocket.  The _trader_ (src/trader) is the
    password-protected front door that forwards an operator's browser to the
    gateway.  This library models the parts that decide what is traded, what is
    shown and who may do it, and proves that they do what they promise.

    ** Files

    - [Prelude]: results and early returns, machine integers, Go's clock and
      durations, sorting, finite-map lemmas.
    - [GoStrings]: the functions of Go's [strings], [strconv] and
      [unicode/utf8] that the code calls, on byte strings.
    - [Calendar], [Base64]: RFC 3339 dates and the base64 alphabets of the
      standard library, with their round trips.
    - [Decimals], [DecimalText]: the interface of the decimal library
      ([Decimal], [DecimalLaws]) with whole numbers as an instance, and its text
      form ([DecimalTextLaws]) with fixed-point numbers as an instance.
    - [Errors]: exchange/errors.go, gateway/account/errors.go; error trees,
      [errors.Is] and [errors.As], [Classify].
    - [Model]: exchange/model.go, ack.go, account_events.go, websocket.go; the
      records exchanged and their [Validate] methods, one function per method.
    - [Venue]: gateway/venue/venue.go, routeprofile/registry.go; the sixteen
      markets, instrument ids, route profiles.
    - [MarketCatalog]: gateway/market/catalog.go, warmup.go; the gateway's
      instruments, refreshed market by market.
    - [HttpErrors]: internal/venuehttp/http.go and the error normalization of
      exchange/internal/factoryclient; what a failed request proves.
    - [Orders]: gateway/account/model.go and the pure part of orders.go;
      translation of an order and classification of its outcome.
    - [OrderBook]: order_book_contract.go and the book pump of
      gateway/market/feeds.go; the book a venue stream builds and the book the
      gateway publishes.
    - [RateLimit], [Transport]: gateway/ratelimit and the request policy of
      internal/venuehttp/policy.go; budgets and the round tripper.
    - [SdkLimiter]: sdk/binance/perp/rate_limiter.go and its spot twin; the
      sliding windows the Binance SDK waits for.
    - [Hub]: gateway/hub/hub.go; shared subscriptions.
    - [Runtime]: gateway/account/runtime.go, clients.go and the stateful part of
      orders.go; an account's positions, balances, streams and commands.
    - [Store]: gateway/store/store.go, secretstore/cipher.go; the encrypted
      account file.
    - [InstrumentCatalog]: exchange/catalog.go; the catalog the venue clients
      share.
    - [FundingHistory]: exchange/funding_history.go and the shared part of its
      loaders; settled funding rates as a series.
    - [Trader]: trader/auth.go, server.go; sessions, throttle and the gate to
      the gateway.
    - [Derivative], [DerivativeFeed]: exchange/market_data.go,
      native_derivative.go and funding_market_*.go; funding, mark and index
      facts, their patches and the projection of native patches.
    - [Feeds]: the rest of gateway/market/feeds.go; channels, candles, tickers.
    - [Dispatch]: internal/wsdispatch/ws.go; the pausable callback queue under a
      socket's reader and its reconnects.
    - [Sockets]: factoryclient/public_websocket.go; subscriptions that share one
      backend stream per key.
    - [Streams]: internal/wsstream/wsstream.go and backend_lifecycle.go; event
      channels and gap notices.
    - [AccountFeed]: private_websocket.go, account_websocket.go; account events
      per instrument and the socket's order commands.
    - [Clients]: clients.go, instrument.go; what every venue client shares:
      symbol resolution, history pages and bounds, signed cursors.
    - [Hyperliquid], [HyperliquidMarkets], [HyperliquidRest]: the Hyperliquid
      client (hyperliquid_rest.go, hyperliquid_rest_extended.go) with its dex
      directory and catalog loader: price rule and order ids, markets, and every
      query and command.
    - [VenueErrors], [Commands]: the error mapping of the other eight adapters
      (normalizers, the SDKs' lists of definitive rejections) and what each
      reports of an order command.
    - [Placement]: an order from the gateway's API through the adapters to the
      status it is answered with.
    - [FundingLoaders], [DerivativeLoaders]: the *_funding_loader.go files and
      funding_board.go; funding histories, with the page walks, and the
      derivative snapshots of all venues.
    - [SingleFlight]: the shared ticker and instrument requests of
      bybit_bitget_funding_loader.go.
    - [OKXMarkets], [OKXRest], [OKXTradeMode]: the OKX client (okx_rest.go,
      okx_rest_extended.go, okx_catalog_loader.go): contracts and their values,
      market data, orders and accounts, and the trade mode concurrent placements
      share.
    - [BinanceMarkets], [BinanceRest], [BinanceFunding]: the Binance spot and
      perpetual clients (binance_spot_rest.go, binance_perp_rest.go,
      binance_rest_extended.go, binance_catalog_loader.go): symbols and filters,
      market data, orders and accounts, and the funding-payment traversal.
    - [Paging]: the loops of sdk/bybit and sdk/bitget (order_rest.go,
      private_rest.go, public_rest.go) that follow a venue's page cursors.
    - [BybitBitget], [BybitBitgetRest], [BitgetCandles], [BybitFunding]: the Bybit
      and Bitget clients (bybit_bitget.go, bybit_bitget_catalog_loader.go): symbols
      and market data, orders and accounts, Bitget's walk over candle pages and
      Bybit's funding-payment traversal.
    - [GateMarkets], [GateRest]: the Gate clients (gate.go, gate_rest.go,
      gate_catalog_loader.go): instruments and market data, orders and accounts.
    - [ExactLookup], [BinanceLookup], [Lookups]: exchange/exact_order_lookup.go
      and exact_lookup*.go; what a client may answer about one order, and the
      contract all seven venues keep.
    - [Credentials]: credential/; credential bundles, their schemas and strict
      decoding, with the bundle builder of gateway/account/manager.go.
    - [Manager]: gateway/account/manager.go and buildClients; registration,
      activation, deletion and the delegated operations of an account.
    - [Api]: gateway/api/api.go; authentication, routes, handlers, statuses.
    - [Websocket]: gateway/api/websocket.go; connections, their queues and their
      subscriptions at the two hubs.

    ** How the code is modelled

    A component's state is a record, a Go method that changes it is a function
    from the state (and the clock reading it takes) to the new state and the
    result, and a returned [error] is the [Err] case of [result] or an [option
    error].  Mutex-protected sections are atomic; where several goroutines
    interleave, the section bodies are the steps of a transition relation ([Hub],
    [InstrumentCatalog], [Trader], [Dispatch], [Sockets], [Streams], [Manager],
    [Websocket], [SingleFlight], [OKXTradeMode]) or the order of completions is an
    argument ([MarketCatalog.Refresh]).  Maps are [gmap]s; where Go iterates over one, the
    result is sorted by the code and the theorems hold for every order.
    Integers that can wrap are wrapped ([wrap64], [wrapU64]); [time.Time] is a
    number of nanoseconds since the zero time and [Sub] saturates as Go's does.
    The one floating-point computation, the funding interval, is done in
    [SpecFloat]'s binary64.  Venue clients, loaders, the random source, file
    system faults, AEAD, SHA-256, URL and date parsing are arguments or classes
    with the laws relied on; each theorem that uses such a law has a concrete
    instance.

    ** What is proved

    - Orders.  Whatever a venue adapter sees of a failed command, the gateway
      reports a rejection only if the request never left, was throttled or an
      answer of the venue was decoded, and everything else as unknown; which
      inconclusive replies are nevertheless reported rejected is stated.  A server
      failure or timeout leaves a placement unknown, a locally throttled one is
      rejected, and the gateway's HTTP status says so; what is sent is what was asked for and
      satisfies the order specification, goes only to the client of its market,
      and validation accepts exactly the specified orders.
    - Market data.  The book contract refines a reference book, the published
      book agrees with it for every event stream and for late subscribers, each
      published side is the best fifty levels, each tick leaves the current book
      published.  Catalog refreshes replace a market or keep the last good
      instruments, in any completion order; symbols resolve to the right
      instrument or not at all.  Funding series are valid, complete and measured,
      and the page walks load their window completely; snapshot cells are sound,
      and what the snapshots fail to carry is stated.
    - Hyperliquid.  A limit price passes exactly when the venue can represent it,
      what is placed is what was asked for, every market loaded can be read back
      with its asset id, and a lost command is reported unknown.
    - OKX.  An order is sent in contracts worth exactly the ordered quantity and
      is listed back as it was asked for; the candle cursors walk the venue's
      candles without gap or repeat; concurrent placements load the trade mode
      once and agree on it; callers of a shared request are never stranded.
    - Binance.  Every valid order for a loaded instrument is sent and listed back
      as it was asked for; following the cursors of fills and of funding payments
      ends with every row once and in order; which replies are reported unknown
      although they are final is stated.
    - Bybit and Bitget.  A valid limit order for a loaded instrument is sent,
      acknowledged and listed back as it was asked for, on a hedged Bitget account
      without its reduce-only flag; the SDKs' cursor walks return exactly the
      venue's list or its first rows, or fail where they cap it; the newest candles of a
      window are found whatever the order of the pages; following the cursors of
      funding payments ends with every settlement of the window once; which order
      states make a listing fail is stated.
    - Gate.  Every valid limit order for a loaded instrument is sent, in whole
      contracts worth its quantity, and listed back as it was asked for; what the
      acknowledgement says of an order the venue canceled, and of a market buy, is
      stated.
    - Streams.  The dispatcher delivers without gaps or repeats whatever the
      interleaving of reader and recovery, ends every undisturbed resume with
      everything delivered after the recovery hook, and fails closed on overflow; a key has at most one
      backend stream; each subscriber receives the replay and then everything
      the topic passed on, so its book is the contract's; every event emitted
      on a channel is accepted in order, refused at the close or still with its
      emitter, and none is sent once it is closed; gap notices are well bracketed.
    - Account state.  Position and balance events refine reference updates per
      slot and per asset; listings survive partial outages; the store survives
      failed system calls, and a crash leaves it no older than the last operation
      whose directory was synced; a decoded credential bundle is what its envelope
      says it is; a sealed credential opens only for its own account.  Account events are valid for their route, position reports
      are split without loss, a cancel is forwarded exactly when it is well
      formed; an exact lookup answers about the requested order of the requested
      instrument only and denies it only when the venue did.
    - Shared resources.  Budgets are never overspent, acquisition is atomic and
      a reported delay is enough; every request is within its budget and
      sent once, or not sent; the Binance SDK paces its requests; hub topics never leak a source, close when idle and bring late
      joiners up to date.
    - The gateway's surface.  Without the token nothing changes and only the
      health summary is visible; the status of a placement says what became of
      the order; a created account's credentials decode to what was entered and
      survive a restart with the same clients; no venue client leaks in any
      interleaving of registrations, deletions and shutdown; a websocket
      connection is attached to exactly the topics it asked for and gets every
      payload in order or is cut off.
    - Access.  What reaches the gateway carries a live session obtained with the
      right password, from the right origin; password guesses per address and
      hour are bounded, in proportion to the logins in flight at once.

    ** Bounds and fuel

    String scanners recurse on a fuel equal to the length of the text, which
    every step shortens, and loops over arrays on their length, so no function
    returns early for lack of fuel.  Where a loop ends because of what it does, a
    theorem says that its fuel is enough whatever the venue answers
    ([bitget_candles_end], [bybit_funding_ends]).  The interval theorem covers gaps up to 720
    hours, the widest window that is requested.  The instrument catalog's
    generation is a uint64; its invariant is about executions of fewer than 2^64
    publications.

    ** Not modelled

    The venue SDKs (wire formats, signatures, sockets) and the per-venue
    adapters beyond the parts named above; HTTP headers and logging; process
    wiring, key files and the browser application. *)

From Stdlib Require Import Ascii String ZArith Lia Sorted Permutation.
From stdpp Require Import base gmap list strings sorting.

#[local] Open Scope Z_scope.

(** ** Results of fallible operations *)

(** A Go function that returns [(T, error)]. *)
Inductive result (E A : Type) : Type :=
| Ok (a : A)
| Err (e : E).
Arguments Ok {E A} _.
Arguments Err {E A} _.

Declare Scope go_scope.
Delimit Scope go_scope with go.

(** [x <-? c ;; k]: the [if err != nil { return err }] idiom. *)
Notation "x <-? c ;; k" :=
  (match c with Ok x => k | Err e => Err e end)
  (at level 60, c at next level, right associativity) : go_scope.
(** [guard b else e ;; k]: an early return of error [e] when [b] fails. *)
Notation "'check' b 'else' e ;; k" :=
  (if b then k else Err e)
  (at level 60, b at next level, e at next level, right associativity) : go_scope.

Definition is_ok {E A} (r : result E A) : bool :=
  match r with Ok _ => true | Err _ => false end.

Definition bind {E A B} (r : result E A) (f : A → result E B) : result E B :=
  match r with Ok a => f a | Err e => Err e end.

Lemma is_ok_Ok {E A} (r : result E A) : is_ok r = true ↔ ∃ a, r = Ok a.
Proof. destruct r; simpl; split; [eauto|done|done|by intros [a [=]]]. Qed.

(** An early return leaves success only to inputs that pass the guard. *)
Lemma check_Ok {E A} (b : bool) (e : E) (k : result E A) a :
  (if b then k else Err e) = Ok a ↔ b = true ∧ k = Ok a.
Proof. destruct b; naive_solver. Qed.

Lemma bind_Ok {E A B} (r : result E A) (f : A → result E B) b :
  match r with Ok x => f x | Err e => Err e end = Ok b ↔ ∃ a, r = Ok a ∧ f a = Ok b.
Proof. destruct r; naive_solver. Qed.

(** ** Booleans *)

(** Case analysis on the boolean guard at the head of the goal. *)
Ltac split_guard :=
  match goal with
  | |- context [if ?b then _ else _] => destruct b eqn:?
  end.

(** Turn boolean comparisons into propositions. *)
Ltac breflect :=
  repeat match goal with
  | H : context [negb _ = true] |- _ => rewrite negb_true_iff in H
  | H : context [negb _ = false] |- _ => rewrite negb_false_iff in H
  | H : context [_ && _ = true] |- _ => rewrite andb_true_iff in H
  | H : context [_ && _ = false] |- _ => rewrite andb_false_iff in H
  | H : context [_ || _ = true] |- _ => rewrite orb_true_iff in H
  | H : context [_ || _ = false] |- _ => rewrite orb_false_iff in H
  | H : context [(_ =? _)%Z = true] |- _ => rewrite Z.eqb_eq in H
  | H : context [(_ =? _)%Z = false] |- _ => rewrite Z.eqb_neq in H
  | H : context [(_ <? _)%Z = true] |- _ => rewrite Z.ltb_lt in H
  | H : context [(_ <? _)%Z = false] |- _ => rewrite Z.ltb_ge in H
  | H : context [(_ <=? _)%Z = true] |- _ => rewrite Z.leb_le in H
  | H : context [(_ <=? _)%Z = false] |- _ => rewrite Z.leb_gt in H
  | H : context [bool_decide _ = true] |- _ => rewrite bool_decide_eq_true in H
  | H : context [bool_decide _ = false] |- _ => rewrite bool_decide_eq_false in H
  end.

(** ** Machine integers *)

Definition int64_min : Z := - 2 ^ 63.
Definition int64_max : Z := 2 ^ 63 - 1.

(** Two's complement wrap-around of Go's [int] and [int64]. *)
Definition wrap64 (z : Z) : Z := (z + 2 ^ 63) mod 2 ^ 64 - 2 ^ 63.
(** Wrap-around of [uint64]. *)
Definition wrapU64 (z : Z) : Z := z mod 2 ^ 64.

Definition in_int64 (z : Z) : Prop := int64_min ≤ z ≤ int64_max.

Lemma wrap64_id z : in_int64 z → wrap64 z = z.
Proof.
  unfold in_int64, int64_min, int64_max, wrap64. intros H.
  rewrite Z.mod_small; lia.
Qed.

Lemma wrap64_range z : in_int64 (wrap64 z).
Proof.
  unfold in_int64, int64_min, int64_max, wrap64.
  pose proof (Z.mod_pos_bound (z + 2 ^ 63) (2 ^ 64)). lia.
Qed.

Lemma wrapU64_id z : 0 ≤ z < 2 ^ 64 → wrapU64 z = z.
Proof. apply Z.mod_small. Qed.

(** ** Time *)

(** [time.Time]: nanoseconds since the zero time (1 January of year 1, UTC).
    [time.Duration]: signed 64-bit nanoseconds. *)
Abbreviation time := Z (only parsing).
Abbreviation duration := Z (only parsing).

Definition zero_time : time := 0.
Definition IsZero (t : time) : bool := t =? 0.
Definition Before (a b : time) : bool := a <? b.
Definition After (a b : time) : bool := b <? a.

(** [Time.Sub] saturates at the bounds of [Duration]. *)
Definition Sub (a b : time) : duration := Z.max int64_min (Z.min int64_max (a - b)).
Definition Add (t : time) (d : duration) : time := t + d.

Definition Millisecond : duration := 1000000.
Definition Second : duration := 1000000000.
Definition Minute : duration := 60 * Second.
Definition Hour : duration := 60 * Minute.

(** Nanoseconds from the zero time to the Unix epoch. *)
Definition unix_epoch : time := 62135596800 * Second.
Definition UnixMilli (t : time) : Z := (t - unix_epoch) / Millisecond.

Lemma Sub_pos a b : 0 < Sub a b ↔ b < a.
Proof. unfold Sub, int64_min, int64_max. lia. Qed.

Lemma Sub_exact a b : in_int64 (a - b) → Sub a b = a - b.
Proof. unfold in_int64, Sub, int64_min, int64_max. lia. Qed.

(** ** Sorting *)

(** [sort.Slice(l, less)].  Go leaves the order of equal elements
    unspecified; the lemmas below, the only facts used of it, are that the
    result is a permutation of [l] and is sorted by [less]. *)
Fixpoint insert_by {A} (less : A → A → bool) (x : A) (l : list A) : list A :=
  match l with
  | [] => [x]
  | y :: l' => if less y x then y :: insert_by less x l' else x :: y :: l'
  end.

Fixpoint sort_slice {A} (less : A → A → bool) (l : list A) : list A :=
  match l with
  | [] => []
  | x :: l' => insert_by less x (sort_slice less l')
  end.

(** No later element is strictly below an earlier one. *)
Definition not_less {A} (less : A → A → bool) (a b : A) : Prop := less b a = false.

Section sorting.
Context {A : Type} (less : A → A → bool).

Lemma insert_by_perm x l : insert_by less x l ≡ₚ x :: l.
Proof.
  induction l as [|y l IH]; simpl; [done|].
  split_guard; [|done]. rewrite IH. apply perm_swap.
Qed.

Lemma sort_slice_perm l : sort_slice less l ≡ₚ l.
Proof.
  induction l as [|x l IH]; simpl; [done|]. by rewrite insert_by_perm, IH.
Qed.

Lemma sort_slice_elem_of x l : x ∈ sort_slice less l ↔ x ∈ l.
Proof. by rewrite sort_slice_perm. Qed.

Lemma sort_slice_length l : length (sort_slice less l) = length l.
Proof. by rewrite sort_slice_perm. Qed.

Lemma sort_slice_ext (less' : A → A → bool) l :
  (∀ a b, less a b = less' a b) → sort_slice less l = sort_slice less' l.
Proof.
  intros He. induction l as [|x l IH]; simpl; [done|]. rewrite IH.
  generalize (sort_slice less' l) as k. induction k as [|y k IHk]; simpl; [done|].
  rewrite He. by rewrite IHk.
Qed.

Hypothesis less_asym : ∀ a b, less a b = true → less b a = false.
Hypothesis not_less_trans : ∀ a b c,
  less b a = false → less c b = false → less c a = false.

Lemma insert_by_sorted x l :
  StronglySorted (not_less less) l → StronglySorted (not_less less) (insert_by less x l).
Proof.
  induction 1 as [|y l Hl IH Hy]; simpl; [repeat constructor|].
  split_guard; constructor; try done.
  - rewrite Forall_forall in *. intros z Hz.
    rewrite insert_by_perm in Hz.
    apply elem_of_cons in Hz as [->|Hz]; [by apply less_asym|by apply Hy].
  - by constructor.
  - constructor; [done|]. rewrite Forall_forall in *. intros z Hz.
    eapply not_less_trans; [done|]. by apply Hy.
Qed.

Lemma sort_slice_sorted l : StronglySorted (not_less less) (sort_slice less l).
Proof. induction l; simpl; [constructor|]. by apply insert_by_sorted. Qed.
End sorting.

(** Sorting by a key with a decidable total order on [Z]. *)
Section sort_key.
Context {A : Type} (key : A → Z).
Let less a b := key a <? key b.

Lemma sort_by_Z_sorted l :
  StronglySorted (λ a b, key a ≤ key b) (sort_slice less l).
Proof.
  assert (H : StronglySorted (not_less less) (sort_slice less l)).
  { apply sort_slice_sorted; unfold less; intros *;
      rewrite ?Z.ltb_lt, ?Z.ltb_ge; lia. }
  induction H as [|x l' Hl' IH Hx]; constructor; [done|].
  eapply Forall_impl; [exact Hx|]. unfold not_less, less.
  intros y. simpl. rewrite Z.ltb_ge. done.
Qed.
End sort_key.

(** ** Lists and maps *)

Lemma filter_and {A} (P Q : A → bool) l : List.filter P (List.filter Q l) = List.filter (λ x, Q x && P x) l.
Proof. induction l as [|x l IH]; [done|]. cbn [List.filter]. destruct (Q x); cbn [List.filter andb]; [by destruct (P x); rewrite IH|done]. Qed.
Lemma StronglySorted_Forall_filter {A} (R : relation A) (P : A → bool) l :
  StronglySorted R l → StronglySorted R (List.filter P l).
Proof.
  induction 1 as [|x l Hl IH Hx]; simpl; [constructor|].
  split_guard; [|done]. constructor; [done|].
  rewrite List.Forall_forall in *. intros y [Hy _]%List.filter_In. by apply Hx.
Qed.

(** Values of a Go map, in some iteration order. *)
Definition map_values {K V} `{Countable K} (m : gmap K V) : list V := (map_to_list m).*2.

Lemma elem_of_map_values {K V} `{Countable K} (m : gmap K V) v :
  v ∈ map_values m ↔ ∃ k, m !! k = Some v.
Proof.
  unfold map_values. rewrite list_elem_of_fmap. split.
  - intros ([k v'] & -> & Hk%elem_of_map_to_list). by exists k.
  - intros [k Hk]. exists (k, v). by rewrite elem_of_map_to_list.
Qed.

(** A map whose values know their keys is rebuilt by inserting them in any
    order. *)
Section rebuild.
Context {K V : Type} `{Countable K} (key : V → K).

Definition insert_keyed (acc : gmap K V) (v : V) : gmap K V := <[key v := v]> acc.

Lemma insert_keyed_other l acc k : k ∉ map key l → foldl insert_keyed acc l !! k = acc !! k.
Proof.
  revert acc. induction l as [|v l IH]; intros acc Hk; simpl; [done|].
  simpl in Hk. apply not_elem_of_cons in Hk as [Hne Hk]. rewrite IH by done. by apply lookup_insert_ne.
Qed.

Lemma insert_keyed_in l acc v : NoDup (map key l) → v ∈ l → foldl insert_keyed acc l !! key v = Some v.
Proof.
  revert acc. induction l as [|w l IH]; intros acc Hnd Hv; [by apply elem_of_nil in Hv|].
  simpl in *. apply NoDup_cons in Hnd as [Hni Hnd]. apply elem_of_cons in Hv as [->|Hv]; [|by apply IH].
  rewrite insert_keyed_other by done. apply lookup_insert_eq.
Qed.

Lemma keyed_NoDup (m : gmap K V) : (∀ k v, m !! k = Some v → key v = k) → NoDup (map key (map_values m)).
Proof.
  intros Hk. unfold map_values. change (map ?f ?l) with (f <$> l). rewrite <- list_fmap_compose.
  rewrite (list_fmap_ext _ fst); [apply NoDup_fst_map_to_list|].
  intros i [k v] Hi. simpl. apply Hk. by apply list_elem_of_lookup_2, elem_of_map_to_list in Hi.
Qed.

Lemma rebuild_map (m : gmap K V) l :
  (∀ k v, m !! k = Some v → key v = k) → l ≡ₚ map_values m → foldl insert_keyed ∅ l = m.
Proof.
  intros Hk Hp. assert (Hnd : NoDup (map key l)) by (rewrite Hp; by apply keyed_NoDup).
  apply map_eq. intros k. destruct (m !! k) as [v|] eqn:Hm.
  - rewrite <- (Hk k v Hm). apply insert_keyed_in; [done|]. rewrite Hp. apply elem_of_map_values. eauto.
  - rewrite insert_keyed_other; [apply lookup_empty|].
    intros (v & -> & Hv)%list_elem_of_fmap. rewrite Hp in Hv. apply elem_of_map_values in Hv as [k Hv].
    rewrite (Hk k v Hv) in Hm. congruence.
Qed.
End rebuild.

(** Index reads with Go's zero value for an absent key. *)
Definition lookup_bool {K} `{Countable K} (m : gmap K bool) (k : K) : bool := default false (m !! k).

Create HintDb go discriminated.
#[export] Hint Resolve wrap64_id wrap64_range sort_slice_perm : go.

(** ** Folds over steps that commute pairwise *)

Section commuting.
Context {A B : Type} (f : B → A → B) (P : A → A → Prop).
Hypothesis P_sym : ∀ x y, P x y → P y x.
Hypothesis f_comm : ∀ b x y, P x y → f (f b x) y = f (f b y) x.

Lemma ForallOrdPairs_perm l l' : l ≡ₚ l' → ForallOrdPairs P l → ForallOrdPairs P l'.
Proof.
  induction 1 as [|x l l' Hp IH|x y l|l1 l2 l3 _ IH1 _ IH2]; intros Hl; [done| | |auto].
  - inversion Hl as [|? ? Hx Hrest]; subst. constructor; [by rewrite <- Hp|auto].
  - inversion Hl as [|? ? Hy Hrest]; subst. inversion Hrest as [|? ? Hx Hrest']; subst.
    apply Forall_cons in Hy as [Hyx Hy]. constructor; [constructor; auto|]. by constructor.
Qed.

Lemma foldl_perm l l' b : l ≡ₚ l' → ForallOrdPairs P l → foldl f b l = foldl f b l'.
Proof.
  intros Hp. revert b. induction Hp as [|x l l' Hp IH|x y l|l1 l2 l3 H1 IH1 H2 IH2]; intros b Hl; simpl; [done| | |].
  - inversion Hl; subst. auto.
  - inversion Hl as [|? ? Hy _]; subst. apply Forall_cons in Hy as [Hyx _]. by rewrite f_comm.
  - rewrite IH1 by done. apply IH2. by eapply ForallOrdPairs_perm.
Qed.
End commuting.
