(* ===== verification/GoStrings.v ===== *)
(** * Go strings and numerals

    Go strings are byte strings: [String.string] is one too.  The file models
    the functions of packages [strings] and [strconv] that the repository
    calls, with the lemmas the components need.  [ToLower], [ToUpper] and
    [EqualFold] fold the ASCII letters and leave other bytes alone;
    [TrimSpace] removes every Unicode white space in its UTF-8 encoding. *)

From Stdlib Require Import Ascii String ZArith NArith Lia.
From Stdlib Require Import DecimalString DecimalN DecimalFacts OrdersEx Sorted Permutation RelationClasses.
From stdpp Require Import base gmap list strings.
From S2P Require Import Prelude.

#[local] Open Scope string_scope.
#[local] Open Scope list_scope.
#[local] Open Scope Z_scope.

(** ** Bytes *)

Definition code (c : ascii) : Z := Z.of_N (N_of_ascii c).
Definition in_range (lo hi c : ascii) : bool := (code lo <=? code c) && (code c <=? code hi).
Definition is_digit (c : ascii) : bool := in_range "0" "9" c.
Definition is_upper (c : ascii) : bool := in_range "A" "Z" c.
Definition is_lower (c : ascii) : bool := in_range "a" "z" c.

(** [c + 'a' - 'A'] and back, on one byte. *)
Definition lower_byte (c : ascii) : ascii :=
  if is_upper c then ascii_of_N (N_of_ascii c + 32) else c.
Definition upper_byte (c : ascii) : ascii :=
  if is_lower c then ascii_of_N (N_of_ascii c - 32) else c.

Fixpoint string_map (f : ascii → ascii) (s : string) : string :=
  match s with
  | EmptyString => EmptyString
  | String c s' => String (f c) (string_map f s')
  end.

Fixpoint string_forallb (f : ascii → bool) (s : string) : bool :=
  match s with
  | EmptyString => true
  | String c s' => f c && string_forallb f s'
  end.

Definition ToLower : string → string := string_map lower_byte.
Definition ToUpper : string → string := string_map upper_byte.
Definition EqualFold (a b : string) : bool := String.eqb (ToLower a) (ToLower b).

(** ** Searching *)

Definition HasPrefix (s p : string) : bool := String.prefix p s.

Fixpoint drop_string (n : nat) (s : string) : string :=
  match n, s with
  | O, _ => s
  | S n', String _ s' => drop_string n' s'
  | S _, EmptyString => EmptyString
  end.

Definition HasSuffix (s p : string) : bool :=
  (String.length p <=? String.length s)%nat &&
  String.eqb (drop_string (String.length s - String.length p) s) p.

(** [strings.Contains]: some suffix of [s] starts with [sub]. *)
Fixpoint Contains (s sub : string) : bool :=
  String.prefix sub s ||
  match s with
  | EmptyString => false
  | String _ s' => Contains s' sub
  end.

Definition TrimPrefix (s p : string) : string :=
  if HasPrefix s p then drop_string (String.length p) s else s.

(** Split at the first byte equal to [c]. *)
Fixpoint split_once (c : ascii) (s : string) : option (string * string) :=
  match s with
  | EmptyString => None
  | String b s' =>
      if Ascii.eqb b c then Some (EmptyString, s')
      else '(l, r) ← split_once c s'; Some (String b l, r)
  end.

(** [strings.SplitN(s, c, n)] for a one-byte separator and [n ≥ 1]. *)
Fixpoint SplitN (c : ascii) (s : string) (n : nat) : list string :=
  match n with
  | O | S O => [s]
  | S n' =>
      match split_once c s with
      | Some (l, r) => l :: SplitN c r n'
      | None => [s]
      end
  end.

Fixpoint no_byte (c : ascii) (s : string) : bool :=
  match s with
  | EmptyString => true
  | String b s' => negb (Ascii.eqb b c) && no_byte c s'
  end.

Lemma split_once_app c a b : no_byte c a = true → split_once c (a +:+ String c b) = Some (a, b).
Proof.
  induction a as [|x a IH]; simpl.
  - intros _. by rewrite Ascii.eqb_refl.
  - intros [Hx Ha]%andb_true_iff. apply negb_true_iff in Hx. by rewrite Hx, (IH Ha).
Qed.

Lemma split_once_sep c a b : no_byte c a = true → split_once c (a +:+ String c "" +:+ b) = Some (a, b).
Proof. exact (split_once_app c a b). Qed.

Lemma split_once_Some c s l r :
  split_once c s = Some (l, r) → s = l +:+ String c r ∧ no_byte c l = true.
Proof.
  revert l r. induction s as [|x s IH]; intros l r; simpl; [done|].
  destruct (Ascii.eqb_spec x c) as [->|Hne]; [by intros [= <- <-]|].
  destruct (split_once c s) as [[l' r']|]; simpl; [|done].
  intros [= <- <-]. destruct (IH _ _ eq_refl) as [-> Hl'].
  split; [done|]. simpl. by apply Ascii.eqb_neq in Hne as ->.
Qed.

(** ** Trimming *)

(** The UTF-8 encodings of the white space characters of [unicode.IsSpace]. *)
Definition byte (n : N) : ascii := ascii_of_N n.
Definition white_space : list string :=
  [ String (byte 9) ""; String (byte 10) ""; String (byte 11) ""; String (byte 12) "";
    String (byte 13) ""; String (byte 32) "";
    String (byte 194) (String (byte 133) ""); String (byte 194) (String (byte 160) "");
    String (byte 225) (String (byte 154) (String (byte 128) "")) ] ++
  map (λ n, String (byte 226) (String (byte 128) (String (byte n) "")))
    [128; 129; 130; 131; 132; 133; 134; 135; 136; 137; 138; 168; 169; 175]%N ++
  [ String (byte 226) (String (byte 129) (String (byte 159) ""));
    String (byte 227) (String (byte 128) (String (byte 128) "")) ].

(** Length of the white space at the head of [s], 0 if there is none. *)
Definition head_space (s : string) : nat :=
  match List.find (λ w, HasPrefix s w) white_space with
  | Some w => String.length w
  | None => O
  end.
Definition tail_space (s : string) : nat :=
  match List.find (λ w, HasSuffix s w) white_space with
  | Some w => String.length w
  | None => O
  end.

Fixpoint trim_left (fuel : nat) (s : string) : string :=
  match fuel with
  | O => s
  | S fuel' => match head_space s with O => s | n => trim_left fuel' (drop_string n s) end
  end.
Fixpoint trim_right (fuel : nat) (s : string) : string :=
  match fuel with
  | O => s
  | S fuel' =>
      match tail_space s with
      | O => s
      | n => trim_right fuel' (String.substring 0 (String.length s - n) s)
      end
  end.

(** Each round removes at least one byte, so [length s] rounds are enough. *)
Definition TrimSpace (s : string) : string :=
  let l := trim_left (String.length s) s in trim_right (String.length l) l.

Example TrimSpace_ex : TrimSpace "  a b " = "a b".
Proof. reflexivity. Qed.

(** [strings.TrimRight(s, "/")]. *)
Fixpoint TrimRightByte (c : ascii) (s : string) : string :=
  match s with
  | EmptyString => EmptyString
  | String b s' =>
      match TrimRightByte c s' with
      | EmptyString => if Ascii.eqb b c then EmptyString else String b EmptyString
      | t => String b t
      end
  end.

(** ** Numerals *)

(** [strconv.ParseUint(s, 10, bits)]: decimal digits only, [None] is an error. *)
Definition ParseUint (s : string) (bits : Z) : option Z :=
  match s with
  | EmptyString => None
  | _ =>
      d ← NilEmpty.uint_of_string s;
      let n := Z.of_N (N.of_uint d) in
      if n <? 2 ^ bits then Some n else None
  end.

(** [strconv.ParseInt(s, 10, 64)]: an optional sign and decimal digits. *)
Definition ParseInt (s : string) : option Z :=
  match s with
  | String "-" s' => n ← ParseUint s' 64; if n <=? 2 ^ 63 then Some (- n) else None
  | String "+" s' => n ← ParseUint s' 64; if n <? 2 ^ 63 then Some n else None
  | _ => n ← ParseUint s 64; if n <? 2 ^ 63 then Some n else None
  end.

(** [strconv.FormatUint(n, 10)]. *)
Definition FormatUint (n : Z) : string := NilEmpty.string_of_uint (N.to_uint (Z.to_N n)).
Definition FormatInt (n : Z) : string :=
  if n <? 0 then String "-" (FormatUint (- n)) else FormatUint n.

(** The first byte is not [c]. *)
Definition head_not (c : ascii) (s : string) : bool :=
  match s with EmptyString => true | String b _ => negb (Ascii.eqb b c) end.

Lemma FormatUint_nonempty n : FormatUint n ≠ "".
Proof.
  unfold FormatUint. intros H.
  pose proof (NilEmpty.usu (N.to_uint (Z.to_N n))) as Hu. rewrite H in Hu.
  injection Hu as Hu.
  pose proof (Unsigned.of_to (Z.to_N n)) as Ho.
  rewrite <- Hu in Ho. change (N.of_uint Decimal.Nil) with 0%N in Ho.
  by rewrite <- Ho in Hu.
Qed.

Lemma ParseUint_FormatUint n bits :
  0 ≤ n < 2 ^ bits → ParseUint (FormatUint n) bits = Some n.
Proof.
  intros Hn. unfold ParseUint.
  destruct (FormatUint n) as [|c s] eqn:Hf; [by apply FormatUint_nonempty in Hf|].
  rewrite <- Hf. unfold FormatUint. rewrite NilEmpty.usu. simpl.
  rewrite Unsigned.of_to, Z2N.id by lia.
  destruct (Z.ltb_spec n (2 ^ bits)); [done|lia].
Qed.

Lemma unorm_head_nonzero d s c :
  NilEmpty.string_of_uint d = String c s → c ≠ "0"%char →
  Decimal.unorm d = d ∧ N.of_uint d ≠ 0%N.
Proof.
  intros Hd Hc.
  assert (Hn : Decimal.unorm d = d) by (destruct d; try reflexivity; simpl in Hd; congruence).
  split; [done|]. intros H0. pose proof (Unsigned.to_of d) as Ht.
  rewrite H0, Hn in Ht. subst d. simpl in Hd. congruence.
Qed.

(** A numeral without leading zero is the one [FormatUint] prints. *)
Lemma ParseUint_canonical s bits n :
  ParseUint s bits = Some n → head_not "0" s = true →
  s = FormatUint n ∧ 0 < n < 2 ^ bits.
Proof.
  unfold ParseUint. destruct s as [|c s]; [done|]. intros H Hh.
  destruct (NilEmpty.uint_of_string (String c s)) as [d|] eqn:Hd; simpl in H; [|done].
  case_match eqn:Hlt; simplify_eq. apply Z.ltb_lt in Hlt.
  simpl in Hh. apply negb_true_iff, Ascii.eqb_neq in Hh.
  pose proof (NilEmpty.sus _ _ Hd) as Hs.
  destruct (unorm_head_nonzero _ _ _ Hs Hh) as [Hn Hz].
  split; [|lia].
  unfold FormatUint. by rewrite N2Z.id, Unsigned.to_of, Hn, Hs.
Qed.

Lemma head_not_false s : head_not "0" s = false → ∃ s', s = String "0" s'.
Proof.
  destruct s as [|c s]; simpl; [done|].
  intros ->%negb_false_iff%Ascii.eqb_eq. by eexists.
Qed.

Lemma to_uint_head_zero n s :
  NilEmpty.string_of_uint (N.to_uint n) = String "0" s → n = 0%N.
Proof.
  intros H. destruct (N.to_uint n) as [|d|d|d|d|d|d|d|d|d|d] eqn:Hn; try discriminate H.
  pose proof (Unsigned.to_of (N.to_uint n)) as Ht.
  rewrite Unsigned.of_to, Hn in Ht.
  assert (Hd : Decimal.nzhead d = Decimal.Nil).
  { unfold Decimal.unorm in Ht. simpl in Ht.
    destruct (Decimal.nzhead d) eqn:Hz; try discriminate Ht; [done|].
    exfalso. eapply nzhead_nonzero, Hz. }
  apply Unsigned.to_uint_inj. rewrite Hn.
  unfold Decimal.unorm in Ht. simpl in Ht. by rewrite Hd in Ht.
Qed.

Lemma FormatUint_head n : 0 < n → head_not "0" (FormatUint n) = true.
Proof.
  intros Hn. destruct (head_not "0" (FormatUint n)) eqn:H; [done|].
  apply head_not_false in H as [s Hs].
  apply to_uint_head_zero in Hs. lia.
Qed.

Lemma ParseUint_mono s b1 b2 n : b1 ≤ b2 → ParseUint s b1 = Some n → ParseUint s b2 = Some n.
Proof.
  unfold ParseUint. intros Hb. destruct s as [|c s]; [done|].
  destruct (NilEmpty.uint_of_string _); simpl; [|done].
  intros H. case_match eqn:Hlt; simplify_eq.
  apply Z.ltb_lt in Hlt. destruct (Z.ltb_spec (Z.of_N (N.of_uint u)) (2 ^ b2)); [done|].
  pose proof (Z.pow_le_mono_r 2 b1 b2). lia.
Qed.

Lemma ParseUint_restrict s b1 b2 n :
  ParseUint s b2 = Some n → n < 2 ^ b1 → ParseUint s b1 = Some n.
Proof.
  unfold ParseUint. destruct s as [|c s]; [done|].
  destruct (NilEmpty.uint_of_string _); simpl; [|done].
  intros H ?. case_match eqn:Hlt; simplify_eq.
  by destruct (Z.ltb_spec (Z.of_N (N.of_uint u)) (2 ^ b1)); [|lia].
Qed.

(** [ParseUint] only accepts digits. *)
Lemma uint_of_string_digits s d :
  NilEmpty.uint_of_string s = Some d → string_forallb is_digit s = true.
Proof.
  revert d. induction s as [|c s IH]; intros d; simpl; [done|].
  destruct (NilEmpty.uint_of_string s) as [d'|] eqn:Hd; [|by destruct c as [[] [] [] [] [] [] [] []]].
  intros H. rewrite (IH _ eq_refl), andb_true_r.
  destruct c as [[] [] [] [] [] [] [] []]; simpl in H; try discriminate H; reflexivity.
Qed.

Lemma ParseUint_digits s bits n : ParseUint s bits = Some n → string_forallb is_digit s = true.
Proof.
  unfold ParseUint. destruct s as [|c s]; [done|].
  destruct (NilEmpty.uint_of_string (String c s)) as [d|] eqn:Hd; [|done].
  intros _. by eapply uint_of_string_digits.
Qed.

(** ** UTF-8 *)

Definition cont (lo hi : Z) (c : ascii) : bool := (lo <=? code c) && (code c <=? hi).

(** Length of the valid encoding at the head of [s]; 0 when it is malformed. *)
Definition rune_width (s : string) : nat :=
  match s with
  | EmptyString => O
  | String a s1 =>
      let x := code a in
      if x <? 128 then 1%nat else
      match s1 with
      | EmptyString => O
      | String b s2 =>
          if (194 <=? x) && (x <=? 223) && cont 128 191 b then 2%nat else
          match s2 with
          | EmptyString => O
          | String c s3 =>
              let second :=
                if x =? 224 then cont 160 191 b
                else if x =? 237 then cont 128 159 b
                else (225 <=? x) && (x <=? 239) && cont 128 191 b in
              if second && cont 128 191 c then 3%nat else
              match s3 with
              | EmptyString => O
              | String d _ =>
                  let second4 :=
                    if x =? 240 then cont 144 191 b
                    else if x =? 244 then cont 128 143 b
                    else (241 <=? x) && (x <=? 243) && cont 128 191 b in
                  if second4 && cont 128 191 c && cont 128 191 d then 4%nat else O
              end
          end
      end
  end.

(** The runes of [s] as a [range] loop reads them: the encoding of a valid
    one, and U+FFFD for each byte of a malformed one. *)
Definition rune_error : string := String (byte 239) (String (byte 191) (String (byte 189) "")).
Fixpoint runes_fuel (fuel : nat) (s : string) : list string :=
  match fuel, s with
  | O, _ | _, EmptyString => []
  | S fuel', _ =>
      match rune_width s with
      | O => rune_error :: runes_fuel fuel' (drop_string 1 s)
      | n => String.substring 0 n s :: runes_fuel fuel' (drop_string n s)
      end
  end.
Definition runes (s : string) : list string := runes_fuel (String.length s) s.

(** [unicode.IsControl]: C0, DEL and C1. *)
Definition rune_is_control (r : string) : bool :=
  match r with
  | String a EmptyString => (code a <? 32) || (code a =? 127)
  | String a (String b EmptyString) => (code a =? 194) && cont 128 159 b
  | _ => false
  end.
Definition rune_is_space (r : string) : bool := existsb (String.eqb r) white_space.

(** [strings.Fields] over runes: maximal runs of non-space runes. *)
Fixpoint fields_aux (rs : list string) (cur : string) : list string :=
  match rs with
  | [] => if String.eqb cur "" then [] else [cur]
  | r :: rs' =>
      if rune_is_space r
      then (if String.eqb cur "" then fields_aux rs' "" else cur :: fields_aux rs' "")
      else fields_aux rs' (cur +:+ r)
  end.
Definition Fields (rs : list string) : list string := fields_aux rs "".

Fixpoint Join (sep : string) (l : list string) : string :=
  match l with
  | [] => ""
  | [x] => x
  | x :: l' => x +:+ sep +:+ Join sep l'
  end.

(** [strings.Split] with a separator of one byte *)
Fixpoint Split (sep : ascii) (s : string) : list string :=
  match s with
  | "" => [""]
  | String c rest =>
      if Ascii.eqb c sep then "" :: Split sep rest
      else match Split sep rest with part :: parts => String c part :: parts | [] => [String c ""] end
  end.
Lemma Split_Join sep s : Join (String sep "") (Split sep s) = s.
Proof.
  induction s as [|c s IH]; [done|]. cbn [Split]. destruct (Ascii.eqb_spec c sep) as [->|Hc].
  - destruct (Split sep s) as [|part parts] eqn:E; [by destruct s as [|c' s]; cbn [Split] in E; [|destruct (Ascii.eqb c' sep); [|destruct (Split sep s)]]|].
    change (Join (String sep "") ("" :: part :: parts)) with (String sep (Join (String sep "") (part :: parts))). by rewrite IH.
  - destruct (Split sep s) as [|part parts]; [by rewrite <- IH|]. rewrite <- IH. by destruct parts.
Qed.

Lemma Split_once sep s :
  Split sep s = match split_once sep s with Some (part, rest) => part :: Split sep rest | None => [s] end.
Proof.
  induction s as [|c s IH]; [done|]. cbn [Split split_once]. destruct (Ascii.eqb c sep); [done|].
  rewrite IH. by destruct (split_once sep s) as [[part rest]|].
Qed.

Lemma string_length_app a b : String.length (a +:+ b) = (String.length a + String.length b)%nat.
Proof. induction a; simpl; [done|]. by rewrite IHa. Qed.

Lemma substring_length n s : (String.length (String.substring 0 n s) ≤ n)%nat.
Proof. revert s. induction n; destruct s; simpl; try lia. specialize (IHn s). lia. Qed.

Lemma drop_string_length n s : (String.length (drop_string n s) ≤ String.length s)%nat.
Proof. revert s. induction n; destruct s; simpl; try lia. specialize (IHn s). lia. Qed.

Lemma trim_left_length f s : (String.length (trim_left f s) ≤ String.length s)%nat.
Proof.
  revert s. induction f as [|f IH]; intros s; simpl; [done|].
  destruct (head_space s) as [|n] eqn:E; [done|].
  etransitivity; [apply IH|]. apply (drop_string_length (S n)).
Qed.

Lemma substring_length_le n s : (String.length (String.substring 0 n s) ≤ String.length s)%nat.
Proof. revert s. induction n; destruct s; simpl; try lia. specialize (IHn s). lia. Qed.

Lemma trim_right_length f s : (String.length (trim_right f s) ≤ String.length s)%nat.
Proof.
  revert s. induction f as [|f IH]; intros s; cbn -[Nat.sub]; [done|].
  destruct (tail_space s) as [|n] eqn:E; [done|].
  etransitivity; [apply IH|]. apply substring_length_le.
Qed.

Lemma TrimSpace_length s : (String.length (TrimSpace s) ≤ String.length s)%nat.
Proof. etransitivity; [apply trim_right_length|apply trim_left_length]. Qed.

(** ** Ordering *)

(** Go's [<] on strings is the bytewise lexicographic order. *)
Definition str_lt (a b : string) : bool := String.ltb a b.

Lemma str_lt_iff a b : str_lt a b = true ↔ String_as_OT.lt a b.
Proof.
  unfold str_lt, String.ltb, String_as_OT.lt.
  change (String_as_OT.compare a b) with (String.compare a b). by destruct (String.compare a b).
Qed.

Lemma str_lt_trans a b c : str_lt a b = true → str_lt b c = true → str_lt a c = true.
Proof.
  rewrite !str_lt_iff. apply (@StrictOrder_Transitive _ _ String_as_OT.lt_strorder).
Qed.

Lemma str_lt_irrefl a : str_lt a a = false.
Proof.
  apply not_true_iff_false. rewrite str_lt_iff.
  apply (@StrictOrder_Irreflexive _ _ String_as_OT.lt_strorder).
Qed.

Lemma str_lt_asym a b : str_lt a b = true → str_lt b a = false.
Proof.
  intros Hab. apply not_true_iff_false. intros Hba.
  pose proof (str_lt_trans _ _ _ Hab Hba) as H. by rewrite str_lt_irrefl in H.
Qed.

Lemma str_lt_total a b : str_lt a b = false → str_lt b a = false → a = b.
Proof.
  unfold str_lt, String.ltb. rewrite (String.compare_antisym b a).
  destruct (String.compare a b) eqn:E; try done. intros _ _. by apply String.compare_eq_iff.
Qed.

Lemma str_not_lt_trans a b c : str_lt b a = false → str_lt c b = false → str_lt c a = false.
Proof.
  intros Hba Hcb. apply not_true_iff_false. intros Hca.
  destruct (str_lt a b) eqn:Hab.
  - by rewrite (str_lt_trans _ _ _ Hca Hab) in Hcb.
  - rewrite (str_lt_total _ _ Hab Hba) in Hca. congruence.
Qed.

(** Sorting strings, and sorting by a string key. *)
Lemma sort_by_string_sorted {A} (key : A → string) l :
  StronglySorted (λ a b, str_lt (key b) (key a) = false) (sort_slice (λ a b, str_lt (key a) (key b)) l).
Proof.
  apply sort_slice_sorted.
  - intros a b. apply str_lt_asym.
  - intros a b c. apply str_not_lt_trans.
Qed.

(** A sorted list without repeated keys is strictly sorted. *)
Lemma sort_by_string_strict {A} (key : A → string) l :
  NoDup (map key l) →
  StronglySorted (λ a b, str_lt (key a) (key b) = true) (sort_slice (λ a b, str_lt (key a) (key b)) l).
Proof.
  intros Hnd. pose proof (sort_by_string_sorted key l) as Hs.
  assert (Hnd' : NoDup (map key (sort_slice (λ a b, str_lt (key a) (key b)) l))).
  { by rewrite sort_slice_perm. }
  clear Hnd. induction Hs as [|x l' Hl IH Hx]; constructor.
  - apply IH. by inversion Hnd'.
  - apply NoDup_cons in Hnd' as [Hni _].
    rewrite Forall_forall in *. intros y Hy. specialize (Hx y Hy). simpl in Hx.
    destruct (str_lt (key x) (key y)) eqn:E; [done|].
    destruct Hni. rewrite (str_lt_total _ _ E Hx). by apply list_elem_of_fmap_2.
Qed.

(** ** Substrings *)

Lemma substring_split i n v :
  (i + n ≤ String.length v)%nat →
  ∃ a b, v = a +:+ String.substring i n v +:+ b ∧ String.length a = i.
Proof.
  revert i n. induction v as [|c v IH]; intros i n Hle; simpl in Hle.
  - assert (i = 0%nat ∧ n = 0%nat) as [-> ->] by lia. by exists "", "".
  - destruct i as [|i]; [destruct n as [|n]|].
    + by exists "", (String c v).
    + destruct (IH 0%nat n) as (a & b & Hv & Ha); [lia|].
      destruct a; [|done]. exists "", b. split; [|done].
      simpl. rewrite Hv at 1. done.
    + destruct (IH i n) as (a & b & Hv & Ha); [lia|].
      exists (String c a), b. split; [|simpl; congruence]. simpl. rewrite Hv at 1. done.
Qed.

Lemma substring_prefix f b : String.substring 0 (String.length f) (f +:+ b) = f.
Proof. induction f as [|c f IH]; simpl; [by destruct b|]. by f_equal. Qed.

Lemma substring_skip a n s : String.substring (String.length a) n (a +:+ s) = String.substring 0 n s.
Proof. induction a as [|c a IH]; simpl; [done|exact IH]. Qed.

Lemma drop_string_app a b : drop_string (String.length a) (a +:+ b) = b.
Proof. induction a as [|c a IH]; simpl; [by destruct b|exact IH]. Qed.

Lemma string_app_inj_l a b c : a +:+ b = a +:+ c → b = c.
Proof. induction a as [|x a IH]; simpl; [done|]. intros E. apply IH. by injection E. Qed.

Lemma prefix_drop a s : HasPrefix (a +:+ s) a = true ∧ TrimPrefix (a +:+ s) a = s.
Proof.
  assert (Hp : HasPrefix (a +:+ s) a = true).
  { unfold HasPrefix. induction a as [|c a IH]; [by destruct s|].
    change (String c a +:+ s) with (String c (a +:+ s)). cbn [String.prefix]. by destruct (ascii_dec c c). }
  split; [done|]. unfold TrimPrefix. rewrite Hp. clear Hp. induction a as [|c a IH]; [by destruct s|].
  change (String c a +:+ s) with (String c (a +:+ s)). exact IH.
Qed.

Lemma HasPrefix_split s p : HasPrefix s p = true → s = p +:+ drop_string (String.length p) s.
Proof.
  unfold HasPrefix. revert s. induction p as [|c p IH]; intros s; [by destruct s|]. destruct s as [|d s]; cbn; [done|].
  destruct (ascii_dec c d) as [->|]; [|done]. intros Hp. change (String d p +:+ ?x) with (String d (p +:+ x)). by rewrite <- (IH s Hp).
Qed.

Lemma HasPrefix_app s a b : HasPrefix s (a +:+ b) = true → HasPrefix s a = true.
Proof.
  unfold HasPrefix. revert s. induction a as [|c a IH]; intros s; simpl; [by destruct s|].
  change (String c a +:+ b) with (String c (a +:+ b)).
  destruct s as [|c' s]; [done|]. simpl. destruct (ascii_dec c c'); [apply IH|done].
Qed.

(** ** Graphic text is already trimmed *)

Definition graphic (c : ascii) : bool := in_range "!" "~" c.

Lemma string_forallb_app f a b : string_forallb f (a +:+ b) = string_forallb f a && string_forallb f b.
Proof. induction a as [|c a IH]; [done|]. simpl. by rewrite IH, andb_assoc. Qed.

Lemma string_forallb_drop f n s : string_forallb f s = true → string_forallb f (drop_string n s) = true.
Proof.
  revert s. induction n as [|n IH]; intros [|c s]; try done. simpl. intros [_ Hs]%andb_true_iff. by apply IH.
Qed.

Lemma string_forallb_impl (f g : ascii → bool) s :
  (∀ c, f c = true → g c = true) → string_forallb f s = true → string_forallb g s = true.
Proof.
  intros Hfg. induction s as [|c s IH]; [done|]. simpl. rewrite !andb_true_iff. intros [Hc Hs]. auto.
Qed.

Lemma white_space_head w : In w white_space → ∃ c w', w = String c w' ∧ graphic c = false.
Proof.
  intros Hw. cbn in Hw. repeat (destruct Hw as [<-|Hw]; [eexists _, _; split; reflexivity|]). destruct Hw.
Qed.

Lemma graphic_no_head s : string_forallb graphic s = true → head_space s = O.
Proof.
  intros Hs. unfold head_space. destruct (List.find _ _) as [w|] eqn:E; [|done]. exfalso.
  apply List.find_some in E as [Hw Hp]. destruct (white_space_head w Hw) as (c & w' & -> & Hc).
  unfold HasPrefix in Hp. destruct s as [|c' s]; [done|]. simpl in Hp, Hs.
  destruct (ascii_dec c c') as [<-|]; [|done]. rewrite Hc in Hs. done.
Qed.

Lemma graphic_no_tail s : string_forallb graphic s = true → tail_space s = O.
Proof.
  intros Hs. unfold tail_space. destruct (List.find _ _) as [w|] eqn:E; [|done]. exfalso.
  apply List.find_some in E as [Hw Hp]. destruct (white_space_head w Hw) as (c & w' & -> & Hc).
  unfold HasSuffix in Hp. apply andb_true_iff in Hp as [_ Hp]. apply String.eqb_eq in Hp.
  pose proof (string_forallb_drop graphic (String.length s - String.length (String c w')) s Hs) as Hd.
  rewrite Hp in Hd. simpl in Hd. rewrite Hc in Hd. done.
Qed.

Lemma TrimSpace_graphic s : string_forallb graphic s = true → TrimSpace s = s.
Proof.
  intros Hs. unfold TrimSpace.
  assert (Hl : trim_left (String.length s) s = s).
  { destruct (String.length s); [done|]. simpl. by rewrite graphic_no_head. }
  rewrite Hl. destruct (String.length s); [done|]. simpl. by rewrite graphic_no_tail.
Qed.

(** ** Signed numbers *)

Lemma ParseInt_FormatUint n : 0 ≤ n < 2 ^ 63 → ParseInt (FormatUint n) = Some n.
Proof.
  intros Hn. pose proof (ParseUint_FormatUint n 64 ltac:(lia)) as Hp. pose proof (ParseUint_digits _ _ _ Hp) as Hd.
  unfold ParseInt. destruct (FormatUint n) as [|c s] eqn:Ef; [by apply FormatUint_nonempty in Ef|].
  simpl in Hd. apply andb_true_iff in Hd as [Hc _].
  assert (Hsgn : c ≠ "-"%char ∧ c ≠ "+"%char) by (split; intros ->; vm_compute in Hc; discriminate).
  assert (Hr : (m ← ParseUint (String c s) 64; if m <? 2 ^ 63 then Some m else None) = Some n).
  { rewrite Hp. simpl. by rewrite (proj2 (Z.ltb_lt n (2 ^ 63))) by lia. }
  destruct c as [[] [] [] [] [] [] [] []]; try exact Hr; destruct Hsgn; done.
Qed.

Lemma ParseUint_nonneg s bits n : ParseUint s bits = Some n → 0 ≤ n.
Proof.
  unfold ParseUint. destruct s as [|c s]; [done|]. destruct (NilEmpty.uint_of_string _) as [d|]; simpl; [|done].
  case_match; [|done]. intros [= <-]. apply N2Z.is_nonneg.
Qed.

Lemma ParseInt_range s n : ParseInt s = Some n → int64_min ≤ n ≤ int64_max.
Proof.
  unfold ParseInt, int64_min, int64_max. intros E.
  assert (Hpos : ∀ s, (m ← ParseUint s 64; if m <? 2 ^ 63 then Some m else None) = Some n → - 2 ^ 63 ≤ n ≤ 2 ^ 63 - 1).
  { intros s' Hs. destruct (ParseUint s' 64) as [m|] eqn:Em; simpl in Hs; [|done]. apply ParseUint_nonneg in Em.
    destruct (Z.ltb_spec m (2 ^ 63)); [|done]. simplify_eq. lia. }
  repeat case_match; try (by eapply Hpos). destruct (ParseUint _ 64) as [m|] eqn:Em; simpl in E; [|done].
  apply ParseUint_nonneg in Em. destruct (Z.leb_spec m (2 ^ 63)); [|done]. simplify_eq. lia.
Qed.

Lemma FormatInt_nonneg n : 0 ≤ n → FormatInt n = FormatUint n.
Proof. intros Hn. unfold FormatInt. by rewrite (proj2 (Z.ltb_ge n 0)). Qed.
Lemma ParseInt_FormatInt n : int64_min ≤ n ≤ int64_max → ParseInt (FormatInt n) = Some n.
Proof.
  unfold int64_min, int64_max. intros Hn. destruct (Z.ltb_spec n 0) as [Hneg|Hpos].
  - unfold FormatInt. rewrite (proj2 (Z.ltb_lt n 0)) by lia. cbn [ParseInt].
    rewrite ParseUint_FormatUint by lia. cbn [mbind option_bind]. rewrite (proj2 (Z.leb_le (- n) (2 ^ 63))) by lia. f_equal. lia.
  - rewrite FormatInt_nonneg, ParseInt_FormatUint by lia. done.
Qed.

(** ** Hexadecimal digits *)

Definition hex_digit (c : ascii) : option Z :=
  if is_digit c then Some (code c - code "0")
  else if in_range "a" "f" c then Some (code c - code "a" + 10)
  else if in_range "A" "F" c then Some (code c - code "A" + 10)
  else None.

(** ** Trimming twice *)

Lemma prefix_trans a b c : String.prefix a b = true → String.prefix b c = true → String.prefix a c = true.
Proof.
  revert b c. induction a as [|x a IH]; intros [|y b] [|z c]; simpl; try done.
  destruct (ascii_dec x y) as [->|]; [|done]. destruct (ascii_dec y z) as [->|]; [|done].
  destruct (ascii_dec z z); [|done]. apply IH.
Qed.
Lemma substring_is_prefix n s : String.prefix (String.substring 0 n s) s = true.
Proof. revert s. induction n as [|n IH]; intros [|c s]; simpl; try done. destruct (ascii_dec c c); [apply IH|done]. Qed.
Lemma prefix_refl s : String.prefix s s = true.
Proof. induction s as [|c s IH]; simpl; [done|]. by destruct (ascii_dec c c). Qed.

Lemma white_space_nonempty w : In w white_space → (1 ≤ String.length w)%nat.
Proof.
  assert (Hall : forallb (λ w, (1 <=? String.length w)%nat) white_space = true) by (vm_compute; reflexivity).
  intros Hw. apply Nat.leb_le. by apply (proj1 (forallb_forall _ _) Hall).
Qed.
Lemma head_space_zero s : head_space s = O ↔ ∀ w, In w white_space → HasPrefix s w = false.
Proof.
  unfold head_space. destruct (List.find _ _) as [w|] eqn:E.
  - apply List.find_some in E as [Hw Hp]. pose proof (white_space_nonempty w Hw). split; [lia|].
    intros Hn. specialize (Hn w Hw). congruence.
  - split; [|done]. intros _ w Hw. exact (List.find_none _ _ E w Hw).
Qed.
Lemma head_space_prefix t s : String.prefix t s = true → head_space s = O → head_space t = O.
Proof.
  rewrite !head_space_zero. intros Ht Hs w Hw. specialize (Hs w Hw). unfold HasPrefix in *.
  destruct (String.prefix w t) eqn:E; [|done]. by rewrite (prefix_trans w t s E Ht) in Hs.
Qed.
Lemma drop_string_shorter n s : (1 ≤ n)%nat → s ≠ "" → (String.length (drop_string n s) < String.length s)%nat.
Proof.
  intros Hn Hs. destruct n as [|n]; [lia|]. destruct s as [|c s]; [done|]. simpl. pose proof (drop_string_length n s). lia.
Qed.
Lemma trim_left_head fuel s : (String.length s ≤ fuel)%nat → head_space (trim_left fuel s) = O.
Proof.
  revert s. induction fuel as [|fuel IH]; intros s Hl; [destruct s; [done|simpl in Hl; lia]|]. cbn [trim_left].
  destruct (head_space s) as [|n] eqn:E; [done|]. apply IH.
  assert (Hs : s ≠ "") by (intros ->; done). pose proof (drop_string_shorter (S n) s ltac:(lia) Hs). lia.
Qed.
Lemma trim_right_prefix fuel s : String.prefix (trim_right fuel s) s = true.
Proof.
  revert s. induction fuel as [|fuel IH]; intros s; cbn [trim_right]; [apply prefix_refl|]. destruct (tail_space s); [apply prefix_refl|].
  eapply prefix_trans; [apply IH|apply substring_is_prefix].
Qed.
Lemma substring_shorter n s : (n < String.length s)%nat → (String.length (String.substring 0 n s) < String.length s)%nat.
Proof. revert s. induction n as [|n IH]; intros [|c s]; simpl; try lia. intros Hn. specialize (IH s). lia. Qed.
Lemma trim_right_tail fuel s : (String.length s ≤ fuel)%nat → tail_space (trim_right fuel s) = O.
Proof.
  revert s. induction fuel as [|fuel IH]; intros s Hl; [destruct s; [done|simpl in Hl; lia]|]. cbn [trim_right].
  destruct (tail_space s) as [|n] eqn:E; [done|]. apply IH.
  assert (Hs : (0 < String.length s)%nat) by (destruct s; [done|simpl; lia]).
  pose proof (substring_shorter (String.length s - S n) s). lia.
Qed.
Lemma TrimSpace_idem s : TrimSpace (TrimSpace s) = TrimSpace s.
Proof.
  unfold TrimSpace at 2 3. set (l := trim_left (String.length s) s). set (r := trim_right (String.length l) l).
  assert (Hh : head_space r = O).
  { apply (head_space_prefix r l); [apply trim_right_prefix|]. by apply trim_left_head. }
  assert (Ht : tail_space r = O) by (by apply trim_right_tail).
  assert (Hl : ∀ n, trim_left n r = r) by (intros [|n]; cbn [trim_left]; [done|by rewrite Hh]).
  unfold TrimSpace. rewrite Hl. destruct (String.length r); cbn [trim_right]; [done|]. by rewrite Ht.
Qed.

Lemma tail_space_zero s : tail_space s = O ↔ ∀ w, In w white_space → HasSuffix s w = false.
Proof.
  unfold tail_space. destruct (List.find _ _) as [w|] eqn:E.
  - apply List.find_some in E as [Hw Hp]. pose proof (white_space_nonempty w Hw). split; [lia|].
    intros Hn. specialize (Hn w Hw). congruence.
  - split; [|done]. intros _ w Hw. exact (List.find_none _ _ E w Hw).
Qed.
Lemma TrimSpace_fixed s : TrimSpace s = s ↔ head_space s = O ∧ tail_space s = O.
Proof.
  split.
  - intros <-. unfold TrimSpace. set (l := trim_left (String.length s) s). split; [|by apply trim_right_tail].
    apply (head_space_prefix _ l); [apply trim_right_prefix|]. by apply trim_left_head.
  - intros [Hh Ht]. unfold TrimSpace. assert (Hl : ∀ n, trim_left n s = s) by (intros [|n]; cbn [trim_left]; [done|by rewrite Hh]).
    rewrite Hl. destruct (String.length s); cbn [trim_right]; [done|]. by rewrite Ht.
Qed.
Lemma white_space_bytes w : In w white_space → string_forallb (λ c, negb (graphic c)) w = true.
Proof.
  assert (Hall : forallb (string_forallb (λ c, negb (graphic c))) white_space = true) by (vm_compute; reflexivity).
  intros Hw. by apply (proj1 (forallb_forall _ _) Hall).
Qed.
Lemma drop_string_plus n a b : drop_string (String.length a + n) (a +:+ b) = drop_string n b.
Proof. induction a as [|c a IH]; [done|]. exact IH. Qed.
Lemma drop_string_within n a b : (n ≤ String.length a)%nat → drop_string n (a +:+ b) = drop_string n a +:+ b.
Proof.
  revert a. induction n as [|n IH]; intros a Hn; [by destruct a|]. destruct a as [|c a]; [cbn in Hn; lia|].
  change (drop_string n (a +:+ b) = drop_string n a +:+ b). apply IH. cbn in Hn. lia.
Qed.

(** Two trimmed texts joined by a graphic byte are trimmed. *)
Lemma prefix_before_graphic w a c b :
  string_forallb (λ x, negb (graphic x)) w = true → graphic c = true → String.prefix w (a +:+ String c b) = true → String.prefix w a = true.
Proof.
  revert a. induction w as [|x w IH]; intros a Hw Hc; [by destruct a|]. cbn [string_forallb] in Hw. apply andb_prop in Hw as [Hx Hw].
  destruct a as [|y a].
  - change ("" +:+ String c b) with (String c b). cbn [String.prefix]. destruct (ascii_dec x c) as [->|]; [|done]. by rewrite Hc in Hx.
  - change (String y a +:+ String c b) with (String y (a +:+ String c b)). cbn [String.prefix]. destruct (ascii_dec x y); [|done]. by apply IH.
Qed.
Lemma joined_head a c b : graphic c = true → head_space a = O → head_space (a +:+ String c b) = O.
Proof.
  rewrite !head_space_zero. intros Hc Ha w Hw. unfold HasPrefix in *. destruct (String.prefix w (a +:+ String c b)) eqn:E; [|done].
  apply prefix_before_graphic in E; [|by apply white_space_bytes|done]. by rewrite (Ha w Hw) in E.
Qed.
Lemma joined_tail a c b : graphic c = true → tail_space b = O → tail_space (a +:+ String c b) = O.
Proof.
  rewrite !tail_space_zero. intros Hc Hb w Hw. destruct (HasSuffix (a +:+ String c b) w) eqn:E; [|done]. exfalso.
  unfold HasSuffix in E. apply andb_prop in E as [_ E%String.eqb_eq]. rewrite string_length_app in E. cbn [String.length] in E.
  pose proof (white_space_bytes w Hw) as Hg. destruct (decide (String.length w ≤ String.length b)%nat) as [Hle|Hgt].
  - replace (String.length a + S (String.length b) - String.length w)%nat with (String.length a + S (String.length b - String.length w))%nat in E by lia.
    rewrite drop_string_plus in E. cbn [drop_string] in E. specialize (Hb w Hw). unfold HasSuffix in Hb.
    rewrite (proj2 (Nat.leb_le _ _) Hle) in Hb. cbn [andb] in Hb. apply String.eqb_neq in Hb. done.
  - rewrite drop_string_within in E by lia. rewrite <- E, string_forallb_app in Hg. cbn [string_forallb] in Hg. rewrite Hc in Hg.
    by destruct (string_forallb _ (drop_string _ a)).
Qed.
Lemma joined_trimmed a c b : graphic c = true → TrimSpace a = a → TrimSpace b = b → TrimSpace (a +:+ String c b) = a +:+ String c b.
Proof. rewrite !TrimSpace_fixed. intros Hc [Ha _] [_ Hb]. split; [by apply joined_head|by apply joined_tail]. Qed.
