(* ===== verification/Calendar.v ===== *)
(** * Go's calendar

    [Time.Date], [Time.Clock] and [time.Date] in UTC, on the proleptic
    Gregorian calendar, with the date a day count stands for and back.  Days
    are counted from 1 January of year 1, the zero time. *)

From Stdlib Require Import ZArith Lia Bool.
From stdpp Require Import base list.
From S2P Require Import Prelude.

#[local] Open Scope Z_scope.

(** ** Dates and days *)

Record date := mkDate { dt_year : Z; dt_month : Z; dt_day : Z }.

Definition leap (y : Z) : bool := (y mod 4 =? 0) && (negb (y mod 100 =? 0) || (y mod 400 =? 0)).
Definition month_days (y m : Z) : Z :=
  if m =? 2 then if leap y then 29 else 28
  else if (m =? 4) || (m =? 6) || (m =? 9) || (m =? 11) then 30 else 31.
Definition valid_date (d : date) : Prop := 1 ≤ dt_month d ≤ 12 ∧ 1 ≤ dt_day d ≤ month_days (dt_year d) (dt_month d).
(** The calendar's successor. *)
Definition next_date (d : date) : date :=
  if dt_day d <? month_days (dt_year d) (dt_month d) then mkDate (dt_year d) (dt_month d) (dt_day d + 1)
  else if dt_month d <? 12 then mkDate (dt_year d) (dt_month d + 1) 1
  else mkDate (dt_year d + 1) 1 1.

(** Days before 1 January of a year, and before the first of a month. *)
Definition days_before_year (y : Z) : Z := 365 * (y - 1) + (y - 1) / 4 - (y - 1) / 100 + (y - 1) / 400.
Definition days_before_month (is_leap : bool) (m : Z) : Z :=
  let shift := if is_leap then 1 else 0 in
  match m with
  | 1 => 0 | 2 => 31 | 3 => 59 + shift | 4 => 90 + shift | 5 => 120 + shift | 6 => 151 + shift | 7 => 181 + shift
  | 8 => 212 + shift | 9 => 243 + shift | 10 => 273 + shift | 11 => 304 + shift | 12 => 334 + shift | _ => 365 + shift
  end.

(** The year of a day: whole cycles of 400, 100, 4 and 1 years; a century or a
    year that the leap day at the end of its cycle would overflow is the last. *)
Definition year_of (n : Z) : Z :=
  let cycles := n / 146097 in
  let n := n mod 146097 in
  let centuries := Z.min 3 (n / 36524) in
  let n := n - 36524 * centuries in
  let fours := n / 1461 in
  let n := n mod 1461 in
  let years := Z.min 3 (n / 365) in
  400 * cycles + 100 * centuries + 4 * fours + years + 1.
Definition month_of (is_leap : bool) (yday : Z) : Z :=
  1 + Z.of_nat (length (List.filter (λ m, days_before_month is_leap m <=? yday) [2; 3; 4; 5; 6; 7; 8; 9; 10; 11; 12])).
(** The date of a day. *)
Definition civil (n : Z) : date :=
  let y := year_of n in
  let yday := n - days_before_year y in
  let m := month_of (leap y) yday in
  mkDate y m (yday - days_before_month (leap y) m + 1).
(** The day of a date; [m] is taken into 1..12 by whole years and [d] counts on
    from the first of the month, as [time.Date] normalizes them. *)
Definition day_of (y m d : Z) : Z :=
  let y' := y + (m - 1) / 12 in
  let m' := (m - 1) mod 12 + 1 in
  days_before_year y' + days_before_month (leap y') m' + d - 1.

(** ** Times *)

Definition Day : duration := 24 * Hour.
(** [t.Date()], the time of day, and [time.Date] *)
Definition Time_Date (t : time) : date := civil (t / Day).
Definition time_of_day (t : time) : duration := t mod Day.
Definition MakeDate (y m d : Z) (clock : duration) : time := day_of y m d * Day + clock.

(** ** The calendar is right *)

Lemma leap_spec y : leap y = true ↔ days_before_year (y + 1) - days_before_year y = 366.
Proof.
  unfold leap, days_before_year. replace (y + 1 - 1) with y by lia.
  rewrite andb_true_iff, orb_true_iff, negb_true_iff, !Z.eqb_eq, Z.eqb_neq. Z.to_euclidean_division_equations. lia.
Qed.
Lemma year_length y : days_before_year (y + 1) = days_before_year y + (if leap y then 366 else 365).
Proof.
  pose proof (leap_spec y) as Hl. destruct (leap y); [destruct Hl as [Hl _]; specialize (Hl eq_refl); lia|].
  assert (Hne : days_before_year (y + 1) - days_before_year y ≠ 366) by (intros Hx; by apply Hl in Hx).
  revert Hne. clear Hl. unfold days_before_year. Z.to_euclidean_division_equations. lia.
Qed.
Lemma days_before_year_mono a b : a ≤ b → days_before_year a ≤ days_before_year b.
Proof. intros Hab. unfold days_before_year. Z.to_euclidean_division_equations. lia. Qed.

(** The year of a day is the one that holds it. *)
Lemma year_of_bounds n : days_before_year (year_of n) ≤ n < days_before_year (year_of n + 1).
Proof.
  unfold year_of. set (e := n / 146097). set (a := n mod 146097). assert (Ha : n = 146097 * e + a ∧ 0 ≤ a < 146097).
  { unfold e, a. pose proof (Z.div_mod n 146097). pose proof (Z.mod_pos_bound n 146097). lia. }
  clearbody e a. set (c := Z.min 3 (a / 36524)). assert (Hc : 0 ≤ c ≤ 3 ∧ 36524 * c ≤ a ∧ (a < 36524 * (c + 1) ∨ c = 3)).
  { unfold c. Z.to_euclidean_division_equations. lia. }
  clearbody c. set (b := a - 36524 * c). assert (Hb : 0 ≤ b ≤ 36524) by lia.
  set (q := b / 1461). set (f := b mod 1461). assert (Hq : b = 1461 * q + f ∧ 0 ≤ f < 1461 ∧ 0 ≤ q ≤ 24).
  { unfold q, f. Z.to_euclidean_division_equations. lia. }
  clearbody q f. set (r := Z.min 3 (f / 365)). assert (Hr : 0 ≤ r ≤ 3 ∧ 365 * r ≤ f ∧ (f < 365 * (r + 1) ∨ r = 3)).
  { unfold r. Z.to_euclidean_division_equations. lia. }
  clearbody r. unfold days_before_year.
  replace (400 * e + 100 * c + 4 * q + r + 1 - 1) with (400 * e + 100 * c + 4 * q + r) by lia.
  replace (400 * e + 100 * c + 4 * q + r + 1 + 1 - 1) with (400 * e + 100 * c + 4 * q + r + 1) by lia.
  assert (H4 : (400 * e + 100 * c + 4 * q + r) / 4 = 100 * e + 25 * c + q) by (Z.to_euclidean_division_equations; lia).
  assert (H100 : (400 * e + 100 * c + 4 * q + r) / 100 = 4 * e + c) by (Z.to_euclidean_division_equations; lia).
  assert (H400 : (400 * e + 100 * c + 4 * q + r) / 400 = e) by (Z.to_euclidean_division_equations; lia).
  rewrite H4, H100, H400. split; [lia|].
  destruct (decide (r = 3)) as [->|Hr3].
  2:{ assert (H4' : 100 * e + 25 * c + q ≤ (400 * e + 100 * c + 4 * q + r + 1) / 4) by (Z.to_euclidean_division_equations; lia).
      assert (H100' : (400 * e + 100 * c + 4 * q + r + 1) / 100 = 4 * e + c) by (Z.to_euclidean_division_equations; lia).
      assert (H400' : (400 * e + 100 * c + 4 * q + r + 1) / 400 = e) by (Z.to_euclidean_division_equations; lia).
      rewrite H100', H400'. lia. }
  replace (400 * e + 100 * c + 4 * q + 3 + 1) with (400 * e + 100 * c + 4 * (q + 1)) by lia.
  assert (H4' : (400 * e + 100 * c + 4 * (q + 1)) / 4 = 100 * e + 25 * c + q + 1) by (Z.to_euclidean_division_equations; lia).
  rewrite H4'. Z.to_euclidean_division_equations. lia.
Qed.
Lemma year_of_unique n y : days_before_year y ≤ n < days_before_year (y + 1) → year_of n = y.
Proof.
  intros Hy. pose proof (year_of_bounds n) as Hn. destruct (Z.lt_trichotomy (year_of n) y) as [Hlt|[Heq|Hlt]]; [|done|].
  - pose proof (days_before_year_mono (year_of n + 1) y). lia.
  - pose proof (days_before_year_mono (y + 1) (year_of n)). lia.
Qed.

Lemma month_cases (P : Z → Prop) m :
  1 ≤ m ≤ 12 → P 1 → P 2 → P 3 → P 4 → P 5 → P 6 → P 7 → P 8 → P 9 → P 10 → P 11 → P 12 → P m.
Proof.
  intros Hm. assert (m = 1 ∨ m = 2 ∨ m = 3 ∨ m = 4 ∨ m = 5 ∨ m = 6 ∨ m = 7 ∨ m = 8 ∨ m = 9 ∨ m = 10 ∨ m = 11 ∨ m = 12) by lia.
  destruct_or?; by subst.
Qed.
Lemma month_length y m : 1 ≤ m ≤ 12 → days_before_month (leap y) (m + 1) = days_before_month (leap y) m + month_days y m.
Proof. intros Hm. pattern m. apply month_cases; [done|..]; unfold month_days; by destruct (leap y). Qed.
Lemma months_fill y : days_before_month (leap y) 13 = if leap y then 366 else 365.
Proof. by destruct (leap y). Qed.
Lemma month_days_pos y m : 1 ≤ m ≤ 12 → 28 ≤ month_days y m ≤ 31.
Proof. intros Hm. pattern m. apply month_cases; [done|..]; unfold month_days; destruct (leap y); simpl; lia. Qed.
Lemma days_before_month_mono b m m' : 1 ≤ m ≤ 12 → m < m' ≤ 13 → days_before_month b (m + 1) ≤ days_before_month b m'.
Proof.
  intros Hm Hm'. assert (Hs : ∀ k, 1 ≤ k ≤ 12 → days_before_month b k ≤ days_before_month b (k + 1)).
  { intros k Hk. pattern k. by apply month_cases; [done|..]; destruct b. }
  replace m' with (m + 1 + Z.of_nat (Z.to_nat (m' - m - 1))) in * by lia.
  induction (Z.to_nat (m' - m - 1)) as [|k IH]; [replace (m + 1 + Z.of_nat 0) with (m + 1) by lia; lia|].
  etrans; [apply IH; lia|]. replace (m + 1 + Z.of_nat (S k)) with (m + 1 + Z.of_nat k + 1) by lia. apply Hs. lia.
Qed.

(** The month of a day of the year is the one that holds it. *)
Lemma month_of_bounds b yday :
  0 ≤ yday < days_before_month b 13 →
  1 ≤ month_of b yday ≤ 12 ∧ days_before_month b (month_of b yday) ≤ yday < days_before_month b (month_of b yday + 1).
Proof.
  intros Hy. unfold month_of.
  assert (Hstep : ∀ k l, Sorted.StronglySorted (λ a c, days_before_month b a ≤ days_before_month b c) (k :: l) →
    yday < days_before_month b k → List.filter (λ m, days_before_month b m <=? yday) (k :: l) = []).
  { intros k l Hs Hk. apply Sorted.StronglySorted_inv in Hs as [_ Hl]. cbn [List.filter].
    destruct (Z.leb_spec (days_before_month b k) yday); [lia|].
    induction Hl as [|x l Hx Hl IH]; [done|]. cbn [List.filter]. destruct (Z.leb_spec (days_before_month b x) yday); [lia|done]. }
  assert (Hs : Sorted.StronglySorted (λ a c, days_before_month b a ≤ days_before_month b c) [2; 3; 4; 5; 6; 7; 8; 9; 10; 11; 12]).
  { destruct b; repeat constructor; vm_compute; discriminate. }
  assert (Hcons : ∀ k l, days_before_month b k ≤ yday →
    List.filter (λ m, days_before_month b m <=? yday) (k :: l) = k :: List.filter (λ m, days_before_month b m <=? yday) l).
  { intros k l Hk. cbn [List.filter]. by rewrite (proj2 (Z.leb_le _ _) Hk). }
  revert Hs.
  do 11 (match goal with |- Sorted.StronglySorted _ (?k :: ?l) → _ =>
    let Hk := fresh "Hk" in intros Hs; destruct (Z.ltb_spec yday (days_before_month b k)) as [Hk|Hk];
      [rewrite (Hstep k l Hs Hk); clear Hstep Hs; destruct b; simpl in *; lia|];
    apply Sorted.StronglySorted_inv in Hs as [Hs _]; rewrite (Hcons k l Hk); cbn [length]; revert Hs end).
  intros _. clear Hstep. destruct b; simpl in *; lia.
Qed.
Lemma month_of_unique b yday m :
  1 ≤ m ≤ 12 → days_before_month b m ≤ yday < days_before_month b (m + 1) → month_of b yday = m.
Proof.
  intros Hm Hy. assert (Hr : 0 ≤ yday < days_before_month b 13).
  { pose proof (days_before_month_mono b m 13 Hm). split; [|lia]. etrans; [|apply Hy].
    destruct (decide (m = 1)) as [->|]; [done|]. pose proof (days_before_month_mono b 1 m). simpl in *. lia. }
  destruct (month_of_bounds b yday Hr) as [Hm2 Hy2].
  destruct (Z.lt_trichotomy (month_of b yday) m) as [Hlt|[Heq|Hlt]]; [|done|].
  - pose proof (days_before_month_mono b (month_of b yday) m Hm2). lia.
  - pose proof (days_before_month_mono b m (month_of b yday) Hm). lia.
Qed.

Lemma day_of_valid y m d : 1 ≤ m ≤ 12 → day_of y m d = days_before_year y + days_before_month (leap y) m + d - 1.
Proof. intros Hm. unfold day_of. rewrite Z.div_small, Z.mod_small by lia. by rewrite Z.add_0_r, Z.sub_add. Qed.

(** A date's day has that date. *)
Lemma civil_day_of y m d : valid_date (mkDate y m d) → civil (day_of y m d) = mkDate y m d.
Proof.
  intros [Hm Hd]. cbn in Hm, Hd. rewrite day_of_valid by done. unfold civil.
  pose proof (month_length y m Hm) as Hl. pose proof (year_length y) as Hy. rewrite <- months_fill in Hy.
  assert (Hup : days_before_month (leap y) (m + 1) ≤ days_before_month (leap y) 13).
  { apply days_before_month_mono; lia. }
  assert (Hlo : 0 ≤ days_before_month (leap y) m) by (pattern m; apply month_cases; [done|..]; by destruct (leap y)).
  rewrite (year_of_unique _ y) by lia. rewrite (month_of_unique _ _ m) by lia. f_equal. lia.
Qed.
(** Every day has a valid date, and that date's day is it. *)
Lemma civil_valid n : valid_date (civil n) ∧ day_of (dt_year (civil n)) (dt_month (civil n)) (dt_day (civil n)) = n.
Proof.
  pose proof (year_of_bounds n) as Hn. pose proof (year_length (year_of n)) as Hy. rewrite <- months_fill in Hy.
  destruct (month_of_bounds (leap (year_of n)) (n - days_before_year (year_of n))) as [Hm Hd]; [lia|].
  unfold civil. cbn [dt_year dt_month dt_day]. pose proof (month_length (year_of n) _ Hm) as Hl. split.
  - split; cbn [dt_year dt_month dt_day]; lia.
  - rewrite day_of_valid by done. lia.
Qed.
(** The next day has the next date. *)
Lemma civil_next n : civil (n + 1) = next_date (civil n).
Proof.
  destruct (civil_valid n) as [Hv Hn]. destruct (civil n) as [y m d]. cbn [dt_year dt_month dt_day] in Hn. destruct Hv as [Hm Hd].
  cbn [dt_year dt_month dt_day] in Hm, Hd. rewrite <- Hn. rewrite day_of_valid by done. unfold next_date. cbn [dt_year dt_month dt_day].
  pose proof (month_length y m Hm) as Hl. pose proof (year_length y) as Hy. rewrite <- months_fill in Hy.
  destruct (Z.ltb_spec d (month_days y m)).
  { rewrite <- (civil_day_of y m (d + 1)) by (split; cbn; lia). f_equal. rewrite day_of_valid by done. lia. }
  destruct (Z.ltb_spec m 12).
  { pose proof (month_days_pos y (m + 1)).
    rewrite <- (civil_day_of y (m + 1) 1) by (split; cbn; lia). f_equal. rewrite day_of_valid by lia. lia. }
  assert (m = 12) as -> by lia. change (12 + 1) with 13 in Hl.
  rewrite <- (civil_day_of (y + 1) 1 1) by (split; cbn; lia). f_equal. rewrite day_of_valid by lia.
  change (days_before_month (leap (y + 1)) 1) with 0. lia.
Qed.
Lemma civil_epoch : civil 0 = mkDate 1 1 1 ∧ civil (unix_epoch / Day) = mkDate 1970 1 1.
Proof. split; vm_compute; reflexivity. Qed.

(** ** Times *)

(** A time of a valid date and a clock has that date and that clock. *)
Lemma MakeDate_Date y m d clock :
  valid_date (mkDate y m d) → 0 ≤ clock < Day → Time_Date (MakeDate y m d clock) = mkDate y m d ∧ time_of_day (MakeDate y m d clock) = clock.
Proof.
  intros Hv Hc. unfold Time_Date, time_of_day, MakeDate. rewrite Z.div_add_l, Z.div_small, Z.add_0_r by lia.
  rewrite Z.add_comm, Z.mod_add, Z.mod_small by lia. split; [by apply civil_day_of|done].
Qed.
Lemma Date_MakeDate t : let d := Time_Date t in MakeDate (dt_year d) (dt_month d) (dt_day d) (time_of_day t) = t.
Proof.
  cbv zeta. unfold MakeDate, Time_Date, time_of_day. destruct (civil_valid (t / Day)) as [_ ->].
  pose proof (Z.div_mod t Day). unfold Day, Hour, Minute, Second in *. lia.
Qed.
Lemma day_of_first y m : day_of y m 1 = day_of (y + (m - 1) / 12) ((m - 1) mod 12 + 1) 1.
Proof.
  pose proof (Z.mod_pos_bound (m - 1) 12) as Hk. unfold day_of. replace ((m - 1) mod 12 + 1 - 1) with ((m - 1) mod 12) by lia.
  by rewrite (Z.div_small ((m - 1) mod 12)), (Z.mod_small ((m - 1) mod 12)), Z.add_0_r by lia.
Qed.
(** Day 0 of the next month is the last day of this one. *)
Lemma civil_day_zero y m : 1 ≤ m ≤ 12 → civil (day_of y (m + 1) 0) = mkDate y m (month_days y m).
Proof.
  intros Hm. pose proof (month_days_pos y m Hm). rewrite <- (civil_day_of y m (month_days y m)) by (split; cbn; lia). f_equal.
  rewrite (day_of_valid y m) by done. pose proof (month_length y m Hm) as Hl. destruct (decide (m = 12)) as [->|Hne].
  - pose proof (year_length y) as Hy. rewrite <- months_fill in Hy. unfold day_of. change ((12 + 1 - 1) / 12) with 1.
    change ((12 + 1 - 1) mod 12 + 1) with 1. change (days_before_month (leap (y + 1)) 1) with 0. change (12 + 1) with 13 in Hl. lia.
  - rewrite day_of_valid by lia. lia.
Qed.

(** ** Months *)

(** The first day of the [k]-th month of the calendar, January of year 0 being
    month 1. *)
Definition month_start (k : Z) : Z := day_of 0 k 1.
Lemma day_of_start y m d : day_of y m d = month_start (12 * y + m) + d - 1.
Proof.
  unfold month_start, day_of. replace (12 * y + m - 1) with (m - 1 + y * 12) by lia.
  rewrite Z.div_add, Z.mod_add by lia. rewrite Z.add_0_l, (Z.add_comm ((m - 1) / 12)). lia.
Qed.
Lemma month_start_next k : month_start k + 28 ≤ month_start (k + 1) ≤ month_start k + 31.
Proof.
  set (y := (k - 1) / 12). set (m := (k - 1) mod 12 + 1).
  assert (Hk : k = 12 * y + m ∧ 1 ≤ m ≤ 12).
  { unfold y, m. pose proof (Z.div_mod (k - 1) 12). pose proof (Z.mod_pos_bound (k - 1) 12). lia. }
  clearbody y m. destruct Hk as [-> Hm]. pose proof (month_days_pos y m Hm) as Hl.
  assert (Hd : day_of y (m + 1) 0 = day_of y m (month_days y m)).
  { pose proof (civil_day_zero y m Hm) as Hz. destruct (civil_valid (day_of y (m + 1) 0)) as [_ He]. rewrite Hz in He. symmetry. exact He. }
  rewrite !day_of_start in Hd. replace (12 * y + (m + 1)) with (12 * y + m + 1) in Hd by lia. lia.
Qed.
Lemma month_start_mono a b : a ≤ b → month_start a ≤ month_start b.
Proof.
  intros Hab. replace b with (a + Z.of_nat (Z.to_nat (b - a))) by lia. induction (Z.to_nat (b - a)) as [|n IH].
  - by rewrite Z.add_0_r.
  - replace (a + Z.of_nat (S n)) with (a + Z.of_nat n + 1) by lia. pose proof (month_start_next (a + Z.of_nat n)). lia.
Qed.
