(* ===== verification/Base64.v ===== *)
(** * Unpadded URL-safe base64

    [base64.RawURLEncoding] of Go's standard library: three bytes become four
    characters; decoding skips line breaks and ignores the unused low bits of a
    last, partial group. *)

From Stdlib Require Import Ascii String ZArith Lia Bool.
From stdpp Require Import base list strings.
From S2P Require Import Prelude GoStrings.

#[local] Open Scope string_scope.
#[local] Open Scope Z_scope.

Definition alphabet : string := "ABCDEFGHIJKLMNOPQRSTUVWXYZabcdefghijklmnopqrstuvwxyz0123456789-_".
Definition letter (n : Z) : ascii := default "A"%char (String.get (Z.to_nat n) alphabet).
Definition sextet (c : ascii) : option Z :=
  if in_range "A" "Z" c then Some (code c - 65)
  else if in_range "a" "z" c then Some (code c - 97 + 26)
  else if is_digit c then Some (code c - 48 + 52)
  else if Ascii.eqb c "-" then Some 62
  else if Ascii.eqb c "_" then Some 63 else None.
Definition byte_of (n : Z) : ascii := ascii_of_N (Z.to_N n).

(** The characters of a byte string, three bytes at a time. *)
Fixpoint EncodeToString (s : string) : string :=
  match s with
  | "" => ""
  | String x "" => String (letter (code x / 4)) (String (letter (code x mod 4 * 16)) "")
  | String x (String y "") =>
      String (letter (code x / 4)) (String (letter (code x mod 4 * 16 + code y / 16)) (String (letter (code y mod 16 * 4)) ""))
  | String x (String y (String z rest)) =>
      String (letter (code x / 4)) (String (letter (code x mod 4 * 16 + code y / 16))
        (String (letter (code y mod 16 * 4 + code z / 64)) (String (letter (code z mod 64)) (EncodeToString rest))))
  end.

Definition line_break (c : ascii) : bool := Ascii.eqb c (byte 10) || Ascii.eqb c (byte 13).
Fixpoint sextets (s : string) : option (list Z) :=
  match s with
  | "" => Some []
  | String c rest => if line_break c then sextets rest else (n ← sextet c; l ← sextets rest; Some (n :: l))
  end.
Fixpoint decode_groups (l : list Z) : option string :=
  match l with
  | [] => Some ""
  | [_] => None
  | [a; b] => Some (String (byte_of (a * 4 + b / 16)) "")
  | [a; b; c] => Some (String (byte_of (a * 4 + b / 16)) (String (byte_of (b mod 16 * 16 + c / 4)) ""))
  | a :: b :: c :: d :: rest =>
      tail ← decode_groups rest;
      Some (String (byte_of (a * 4 + b / 16)) (String (byte_of (b mod 16 * 16 + c / 4)) (String (byte_of (c mod 4 * 64 + d)) tail)))
  end.
Definition DecodeString (s : string) : option string := l ← sextets s; decode_groups l.

(** ** Round trip *)

Lemma code_range c : 0 ≤ code c < 256.
Proof. unfold code. pose proof (N_ascii_bounded c). lia. Qed.
Lemma byte_of_code c n : n = code c → byte_of n = c.
Proof. intros ->. unfold byte_of, code. by rewrite N2Z.id, ascii_N_embedding. Qed.

Definition letter_ok (n : Z) : bool :=
  match sextet (letter n) with Some m => (m =? n) && negb (line_break (letter n)) && graphic (letter n) | None => false end.
Lemma letters_ok : forallb letter_ok (map Z.of_nat (seq 0 64)) = true.
Proof. vm_compute. reflexivity. Qed.
Lemma letter_spec n : 0 ≤ n < 64 → sextet (letter n) = Some n ∧ line_break (letter n) = false ∧ graphic (letter n) = true.
Proof.
  intros Hn. pose proof (proj1 (forallb_forall letter_ok _) letters_ok n) as Hl.
  assert (Hin : In n (map Z.of_nat (seq 0 64))).
  { apply in_map_iff. exists (Z.to_nat n). split; [lia|]. apply in_seq. lia. }
  specialize (Hl Hin). unfold letter_ok in Hl. destruct (sextet (letter n)) as [m|]; [|done].
  rewrite !andb_true_iff, negb_true_iff, Z.eqb_eq in Hl. by destruct Hl as [[-> ->] ->].
Qed.
Lemma sextets_letter n s l : 0 ≤ n < 64 → sextets s = Some l → sextets (String (letter n) s) = Some (n :: l).
Proof. intros Hn Hs. destruct (letter_spec n Hn) as (Hx & Hb & _). cbn [sextets]. by rewrite Hb, Hx, Hs. Qed.

Lemma three_ind (P : string → Prop) :
  P "" → (∀ x, P (String x "")) → (∀ x y, P (String x (String y ""))) →
  (∀ x y z s, P s → P (String x (String y (String z s)))) → ∀ s, P s.
Proof.
  intros P0 P1 P2 P3. assert (Hn : ∀ n s, (String.length s ≤ n)%nat → P s).
  { induction n as [n IH] using lt_wf_ind. intros [|x [|y [|z s]]] Hl; [done..|]. cbn [String.length] in Hl. apply P3, (IH (n - 3)%nat); lia. }
  intros s. by apply (Hn (String.length s)).
Qed.

Ltac byte_bounds :=
  repeat match goal with c : ascii |- _ => lazymatch goal with H : 0 ≤ code c < 256 |- _ => fail | _ => pose proof (code_range c) end end.
(** Side conditions on quotients and remainders of bytes. *)
Ltac byte_arith := byte_bounds; Z.to_euclidean_division_equations; lia.

Lemma DecodeString_EncodeToString s : DecodeString (EncodeToString s) = Some s.
Proof.
  unfold DecodeString. induction s as [|x|x y|x y z s IH] using three_ind.
  - done.
  - cbn [EncodeToString]. erewrite sextets_letter; [|byte_arith|apply sextets_letter; [byte_arith|done]].
    cbn. do 2 f_equal. apply byte_of_code. byte_arith.
  - cbn [EncodeToString]. erewrite sextets_letter;
      [|byte_arith|apply sextets_letter; [byte_arith|apply sextets_letter; [byte_arith|done]]].
    cbn. do 2 f_equal; [|f_equal]; apply byte_of_code; byte_arith.
  - cbn [EncodeToString]. destruct (sextets (EncodeToString s)) as [l|] eqn:Es; [|done]. cbn [mbind option_bind] in IH.
    erewrite sextets_letter; [|byte_arith|apply sextets_letter; [byte_arith|apply sextets_letter; [byte_arith|apply sextets_letter; [byte_arith|exact Es]]]].
    cbn [mbind option_bind decode_groups]. rewrite IH. cbn [mbind option_bind].
    do 2 f_equal; [|f_equal; [|f_equal]]; apply byte_of_code; byte_arith.
Qed.
Lemma EncodeToString_graphic s : string_forallb graphic (EncodeToString s) = true.
Proof.
  induction s as [|x|x y|x y z s IH] using three_ind; cbn [EncodeToString string_forallb]; [done|..];
    rewrite ?IH, ?andb_true_r, ?andb_true_iff; repeat split; apply letter_spec; byte_arith.
Qed.
