(* ===== verification/Decimals.v ===== *)
(** * Decimal numbers

    Prices and quantities are values of [github.com/shopspring/decimal], which
    is not part of the repository.  [Decimal D] lists the operations the
    repository calls and [DecimalLaws D] what it relies on: every operation is
    exact on the rational value of its arguments, and [String] is canonical,
    that is, equal values and only equal values print alike.  The instance on
    [Z] (whole numbers) shows that the laws can hold and is what the examples
    compute with. *)

From Stdlib Require Import Ascii String DecimalString ZArith QArith Qcanon Lia.
From stdpp Require Import base list strings pretty.
From S2P Require Import Prelude GoStrings.

#[local] Open Scope Z_scope.

Class Decimal (D : Type) := {
  d_zero : D;
  d_cmp : D → D → comparison;
  d_add : D → D → D;
  d_sub : D → D → D;
  (** the quotient, rounded to the package's precision *)
  d_div : D → D → D;
  (** [Truncate(0)] *)
  d_truncate : D → D;
  d_mul : D → D → D;
  d_mod : D → D → D;
  d_abs : D → D;
  d_string : D → string;
  d_new_from_string : string → option D;
  (** the number a decimal denotes; used in specifications only *)
  d_value : D → Qc;
}.

Section ops.
Context `{Decimal D}.
Definition d_is_zero (d : D) : bool := match d_cmp d d_zero with Eq => true | _ => false end.
Definition d_is_positive (d : D) : bool := match d_cmp d d_zero with Gt => true | _ => false end.
Definition d_is_negative (d : D) : bool := match d_cmp d d_zero with Lt => true | _ => false end.
Definition d_less_than (a b : D) : bool := match d_cmp a b with Lt => true | _ => false end.
Definition d_greater_than (a b : D) : bool := match d_cmp a b with Gt => true | _ => false end.
Definition d_max (a b : D) : D := if d_less_than a b then b else a.
Definition d_min (a b : D) : D := if d_less_than b a then b else a.
End ops.

Class DecimalLaws (D : Type) `{Decimal D} : Prop := {
  d_value_zero : d_value d_zero = 0%Qc;
  d_cmp_value : ∀ a b : D, d_cmp a b = (d_value a ?= d_value b)%Qc;
  d_value_add : ∀ a b : D, d_value (d_add a b) = (d_value a + d_value b)%Qc;
  d_value_sub : ∀ a b : D, d_value (d_sub a b) = (d_value a - d_value b)%Qc;
  d_value_mul : ∀ a b : D, d_value (d_mul a b) = (d_value a * d_value b)%Qc;
  (** [a % b] is zero exactly when [a] is a whole multiple of [b] *)
  d_mod_zero : ∀ a b : D, d_value b ≠ 0%Qc →
    d_value (d_mod a b) = 0%Qc ↔ ∃ k : Z, d_value a = (Q2Qc (inject_Z k) * d_value b)%Qc;
  (** truncation leaves exactly the whole numbers alone *)
  d_truncate_fixed : ∀ a : D, d_value (d_truncate a) = d_value a ↔ ∃ k : Z, d_value a = Q2Qc (inject_Z k);
  d_string_inj : ∀ a b : D, d_string a = d_string b ↔ d_value a = d_value b;
}.

Section laws.
Context `{DecimalLaws D}.

Lemma d_is_zero_spec (d : D) : d_is_zero d = true ↔ d_value d = 0%Qc.
Proof.
  unfold d_is_zero. rewrite d_cmp_value, d_value_zero.
  destruct (d_value d ?= 0)%Qc eqn:E.
  - by apply Qceq_alt in E.
  - split; [done|]. intros E'. rewrite E' in E. by apply Qclt_alt, Qclt_not_eq in E.
  - split; [done|]. intros E'. rewrite E' in E. by apply Qcgt_alt, Qclt_not_eq in E.
Qed.

Lemma d_is_positive_spec (d : D) : d_is_positive d = true ↔ (0 < d_value d)%Qc.
Proof.
  unfold d_is_positive. rewrite d_cmp_value, d_value_zero.
  change (0 < d_value d)%Qc with (this 0 < this (d_value d))%Q. rewrite Qcgt_alt.
  destruct (d_value d ?= 0)%Qc; naive_solver.
Qed.

Lemma d_is_negative_spec (d : D) : d_is_negative d = true ↔ (d_value d < 0)%Qc.
Proof.
  unfold d_is_negative. rewrite d_cmp_value, d_value_zero, Qclt_alt.
  destruct (d_value d ?= 0)%Qc; naive_solver.
Qed.

Lemma d_less_than_spec (a b : D) : d_less_than a b = true ↔ (d_value a < d_value b)%Qc.
Proof.
  unfold d_less_than. rewrite d_cmp_value, Qclt_alt.
  destruct (d_value a ?= d_value b)%Qc; naive_solver.
Qed.

Lemma d_less_than_false (a b : D) : d_less_than a b = false ↔ (d_value b <= d_value a)%Qc.
Proof.
  rewrite <- not_true_iff_false, d_less_than_spec. split.
  - apply Qcnot_lt_le.
  - apply Qcle_not_lt.
Qed.

Lemma d_greater_than_less (a b : D) : d_greater_than a b = d_less_than b a.
Proof.
  unfold d_greater_than, d_less_than. rewrite !d_cmp_value.
  unfold Qccompare. rewrite <- Qcompare_antisym. by destruct (this (d_value b) ?= _)%Q.
Qed.

Lemma d_positive_not_zero (d : D) : d_is_positive d = true → d_value d ≠ 0%Qc.
Proof. rewrite d_is_positive_spec. intros Hp E. rewrite E in Hp. by apply Qclt_not_eq in Hp. Qed.

(** The three sign tests partition the decimals. *)
Lemma d_sign_cases (d : D) :
  d_is_zero d = true ∨ d_is_positive d = true ∨ d_is_negative d = true.
Proof. unfold d_is_zero, d_is_positive, d_is_negative. destruct (d_cmp d d_zero); auto. Qed.
End laws.

(** ** Whole numbers *)

#[export] Instance decimal_Z : Decimal Z := {|
  d_zero := 0;
  d_cmp := Z.compare;
  d_add := Z.add;
  d_sub := Z.sub;
  d_div := Z.quot;
  d_truncate z := z;
  d_mul := Z.mul;
  d_mod := Z.rem;
  d_abs := Z.abs;
  d_string := FormatInt;
  d_new_from_string := ParseInt;
  d_value z := Q2Qc (inject_Z z);
|}.

Lemma Q2Qc_inject_eq a b : Q2Qc (inject_Z a) = Q2Qc (inject_Z b) ↔ a = b.
Proof.
  rewrite Q2Qc_eq_iff. unfold Qeq, inject_Z. simpl. lia.
Qed.

Lemma FormatUint_inj a b : 0 ≤ a → 0 ≤ b → FormatUint a = FormatUint b → a = b.
Proof.
  intros Ha Hb E.
  pose proof (Z.log2_nonneg (a + b)).
  assert (Hp : a < 2 ^ (Z.log2 (a + b) + 1) ∧ b < 2 ^ (Z.log2 (a + b) + 1)).
  { destruct (Z.eq_dec (a + b) 0) as [E0|]; [rewrite E0; simpl; lia|].
    pose proof (Z.log2_spec (a + b)). replace (Z.log2 (a + b) + 1) with (Z.succ (Z.log2 (a + b))) by lia.
    lia. }
  pose proof (ParseUint_FormatUint a (Z.log2 (a + b) + 1)) as Pa.
  pose proof (ParseUint_FormatUint b (Z.log2 (a + b) + 1)) as Pb.
  rewrite E in Pa. rewrite Pb in Pa by lia. injection Pa; lia.
Qed.

Lemma FormatUint_no_sign n s : FormatUint n ≠ String "-"%char s.
Proof.
  intros E.
  pose proof (NilEmpty.usu (N.to_uint (Z.to_N n))) as Hu.
  apply uint_of_string_digits in Hu. unfold FormatUint in E. by rewrite E in Hu.
Qed.

Lemma FormatInt_inj a b : FormatInt a = FormatInt b → a = b.
Proof.
  unfold FormatInt. destruct (Z.ltb_spec a 0), (Z.ltb_spec b 0); intros E.
  - injection E as E. apply FormatUint_inj in E; lia.
  - symmetry in E. by apply FormatUint_no_sign in E.
  - by apply FormatUint_no_sign in E.
  - apply FormatUint_inj in E; lia.
Qed.

#[export] Instance decimal_Z_laws : DecimalLaws Z.
Proof.
  split; simpl.
  - reflexivity.
  - intros a b. unfold Qccompare. simpl. rewrite !Qred_correct.
    unfold Qcompare, inject_Z. simpl. by rewrite !Z.mul_1_r.
  - intros a b. apply Qc_is_canon. simpl. rewrite !Qred_correct. by rewrite inject_Z_plus.
  - intros a b. apply Qc_is_canon. simpl. unfold Z.sub. rewrite !Qred_correct. by rewrite inject_Z_plus, inject_Z_opp.
  - intros a b. apply Qc_is_canon. simpl. rewrite !Qred_correct. by rewrite inject_Z_mult.
  - intros a b Hb.
    assert (b ≠ 0) by (intros ->; done).
    transitivity (Z.rem a b = 0).
    { change 0%Qc with (Q2Qc (inject_Z 0)). apply Q2Qc_inject_eq. }
    rewrite Z.rem_divide by done. split; intros [k Hk]; exists k.
    + rewrite Hk. apply Qc_is_canon. simpl. rewrite !Qred_correct. by rewrite inject_Z_mult.
    + apply Q2Qc_inject_eq. rewrite Hk. apply Qc_is_canon. simpl.
      rewrite !Qred_correct. by rewrite inject_Z_mult.
  - intros a. split; [by exists a|done].
  - intros a b. rewrite Q2Qc_inject_eq. split; [apply FormatInt_inj|by intros ->].
Qed.
