(* ===== verification/DecimalText.v ===== *)
(** * The text of decimal numbers

    Some venue rules are stated on the digits of a price.  [DecimalText D] adds
    to [Decimal D] the constructor [decimal.New] and [DecimalTextLaws D] what
    [String] is documented to print: an optional sign, the whole part and, only
    where there is a fraction, a point and the fraction without trailing zeros.
    The instance [fixed] (a coefficient and a number of decimal places) meets
    these laws and those of [Decimals], and is what examples with fractions
    compute with. *)

From Stdlib Require Import Ascii String ZArith QArith Qcanon Lia.
From stdpp Require Import base list strings.
From S2P Require Import Prelude GoStrings Decimals.

#[local] Open Scope string_scope.
#[local] Open Scope Z_scope.

Definition pow10 (p : nat) : Z := 10 ^ Z.of_nat p.
Lemma pow10_pos p : 0 < pow10 p.
Proof. apply Z.pow_pos_nonneg; lia. Qed.
Lemma pow10_S p : pow10 (S p) = 10 * pow10 p.
Proof. unfold pow10. rewrite Nat2Z.inj_succ, Z.pow_succ_r by lia. done. Qed.
Lemma pow10_add p q : pow10 (p + q) = pow10 p * pow10 q.
Proof. unfold pow10. rewrite Nat2Z.inj_add, Z.pow_add_r by lia. done. Qed.
#[export] Hint Resolve pow10_pos : core.

(** The number [k / 10^p] *)
Definition scaled (k : Z) (p : nat) : Qc := Q2Qc (Qmake k (Z.to_pos (pow10 p))).

Lemma scaled_pos p : Z.pos (Z.to_pos (pow10 p)) = pow10 p.
Proof. apply Z2Pos.id, pow10_pos. Qed.
Lemma scaled_eq a p b q : scaled a p = scaled b q ↔ a * pow10 q = b * pow10 p.
Proof. unfold scaled. rewrite Q2Qc_eq_iff. unfold Qeq. cbn. by rewrite !scaled_pos. Qed.
Lemma scaled_0 k : scaled k 0 = Q2Qc (inject_Z k).
Proof. done. Qed.
Lemma scaled_lift k p q : scaled k p = scaled (k * pow10 q) (p + q).
Proof. apply scaled_eq. rewrite pow10_add. lia. Qed.
Lemma scaled_cmp a p b q : (scaled a p ?= scaled b q)%Qc = (a * pow10 q ?= b * pow10 p).
Proof. unfold scaled, Qccompare. cbn. rewrite !Qred_correct. unfold Qcompare. cbn. by rewrite !scaled_pos. Qed.
Lemma scaled_positive k p : (0 < scaled k p)%Qc ↔ 0 < k.
Proof.
  change 0%Qc with (scaled 0 0). rewrite Qclt_alt, scaled_cmp. change (pow10 0) with 1. rewrite Z.compare_lt_iff.
  pose proof (pow10_pos p). nia.
Qed.
Lemma scaled_nonneg k p : (0 <= scaled k p)%Qc ↔ 0 ≤ k.
Proof.
  change 0%Qc with (scaled 0 0). rewrite Qcle_alt, scaled_cmp. change (pow10 0) with 1. rewrite Z.compare_le_iff. pose proof (pow10_pos p). nia.
Qed.
Lemma scaled_nonpos k p : (scaled k p <= 0)%Qc ↔ k ≤ 0.
Proof.
  change 0%Qc with (scaled 0 0). rewrite Qcle_alt, scaled_cmp. change (pow10 0) with 1. rewrite Z.compare_le_iff. pose proof (pow10_pos p). nia.
Qed.
Lemma scaled_opp k p : scaled (- k) p = (- scaled k p)%Qc.
Proof. apply Qc_is_canon. cbn. rewrite !Qred_correct. done. Qed.
Lemma scaled_add a b p : scaled (a + b) p = (scaled a p + scaled b p)%Qc.
Proof. apply Qc_is_canon. cbn. rewrite !Qred_correct. unfold Qeq, Qplus. cbn. rewrite !Pos2Z.inj_mul. lia. Qed.
Lemma scaled_sub a b p : scaled (a - b) p = (scaled a p - scaled b p)%Qc.
Proof. apply Qc_is_canon. cbn. rewrite !Qred_correct. unfold Qeq, Qplus, Qopp. cbn. rewrite !Pos2Z.inj_mul. lia. Qed.
Lemma scaled_mul a p b q : scaled (a * b) (p + q) = (scaled a p * scaled b q)%Qc.
Proof.
  apply Qc_is_canon. cbn. rewrite !Qred_correct. unfold Qeq, Qmult. cbn. rewrite !Pos2Z.inj_mul, !scaled_pos, pow10_add. lia.
Qed.

(** ** Digits *)

(** The lowest [p] decimal digits of [n] *)
Fixpoint digits_of (p : nat) (n : Z) : string :=
  match p with
  | O => ""
  | S p' => digits_of p' (n / 10) +:+ String (byte (Z.to_N (48 + n mod 10))) ""
  end.
Definition render (k : Z) (p : nat) : string :=
  (if k <? 0 then "-" else "") +:+ FormatUint (Z.abs k / pow10 p) +:+
  (if (p =? 0)%nat then "" else "." +:+ digits_of p (Z.abs k mod pow10 p)).
(** No trailing zero after the point *)
Definition canonical (k : Z) (p : nat) : Prop := p = O ∨ k mod 10 ≠ 0.

Lemma digit_byte n : 0 ≤ n < 10 → is_digit (byte (Z.to_N (48 + n))) = true ∧ code (byte (Z.to_N (48 + n))) = 48 + n.
Proof.
  intros Hn. assert (Hc : code (byte (Z.to_N (48 + n))) = 48 + n).
  { unfold code, byte. rewrite N_ascii_embedding by lia. lia. }
  split; [|done]. unfold is_digit, in_range. rewrite Hc. change (code "0") with 48. change (code "9") with 57.
  apply andb_true_intro. split; apply Z.leb_le; lia.
Qed.
Lemma digits_of_length p n : String.length (digits_of p n) = p.
Proof. revert n. induction p as [|p IH]; intros n; [done|]. cbn [digits_of]. rewrite string_length_app, IH. cbn. lia. Qed.
Lemma digits_of_digit p n : 0 ≤ n → string_forallb is_digit (digits_of p n) = true.
Proof.
  revert n. induction p as [|p IH]; intros n Hn; [done|]. cbn [digits_of]. rewrite string_forallb_app, IH by (apply Z.div_pos; lia).
  cbn. destruct (digit_byte (n mod 10)) as [-> _]; [by apply Z.mod_pos_bound|done].
Qed.

Class DecimalText (D : Type) := {
  (** [decimal.New(value, exp)] *)
  d_new : Z → Z → D;
}.
Class DecimalTextLaws (D : Type) `{DecimalLaws D} `{DecimalText D} : Prop := {
  d_new_fraction : ∀ k p, d_value (d_new k (- Z.of_nat p)) = scaled k p;
  d_new_whole : ∀ k p, d_value (d_new k (Z.of_nat p)) = scaled (k * pow10 p) 0;
  d_string_canonical : ∀ d : D, ∃ k p, canonical k p ∧ d_value d = scaled k p ∧ d_string d = render k p;
  d_abs_value : ∀ d : D, ((0 <= d_value d)%Qc → d_value (d_abs d) = d_value d) ∧ ((d_value d <= 0)%Qc → d_value (d_abs d) = (- d_value d)%Qc);
}.

(** Two canonical forms of one number are the same. *)
Lemma canonical_le k p j q : canonical j q → k * pow10 q = j * pow10 p → (p ≤ q)%nat → k = j ∧ p = q.
Proof.
  intros Hj E Hle. destruct (Nat.eq_dec p q) as [->|Hne].
  - split; [|done]. pose proof (pow10_pos q). nia.
  - exfalso. destruct Hj as [->|Hj]; [lia|]. apply Hj.
    replace q with (p + S (q - p - 1))%nat in E by lia. rewrite pow10_add, pow10_S in E.
    pose proof (pow10_pos p). assert (j = 10 * (k * pow10 (q - p - 1))) as -> by nia.
    by rewrite Z.mul_comm, Z.mod_mul.
Qed.
Lemma canonical_unique k p j q : canonical k p → canonical j q → scaled k p = scaled j q → k = j ∧ p = q.
Proof.
  intros Hk Hj E%scaled_eq. destruct (decide (p ≤ q)%nat) as [Hle|Hgt].
  - by apply canonical_le.
  - destruct (canonical_le j q k p Hk) as [-> ->]; [lia..|done].
Qed.

(** ** The number a text of digits denotes *)

Fixpoint digits_value (acc : Z) (s : string) : Z :=
  match s with "" => acc | String c rest => digits_value (10 * acc + (code c - 48)) rest end.

Lemma digits_value_app acc a b : digits_value acc (a +:+ b) = digits_value (digits_value acc a) b.
Proof. revert acc. induction a as [|c a IH]; intros acc; [done|]. apply IH. Qed.
Lemma digits_value_of p n acc : 0 ≤ n → digits_value acc (digits_of p n) = acc * pow10 p + n mod pow10 p.
Proof.
  revert n acc. induction p as [|p IH]; intros n acc Hn; [change (pow10 0) with 1; cbn; rewrite Z.mod_1_r; lia|].
  cbn [digits_of]. rewrite digits_value_app, IH by (apply Z.div_pos; lia). cbn [digits_value].
  destruct (digit_byte (n mod 10)) as [_ ->]; [by apply Z.mod_pos_bound|]. rewrite pow10_S.
  rewrite (Z.rem_mul_r n 10 (pow10 p)) by (pose proof (pow10_pos p); lia). lia.
Qed.
Lemma digits_value_uint d acc :
  digits_value (Z.pos acc) (DecimalString.NilEmpty.string_of_uint d) = Z.pos (Pos.of_uint_acc d acc).
Proof.
  revert acc. induction d as [|d IH|d IH|d IH|d IH|d IH|d IH|d IH|d IH|d IH|d IH]; intros acc; [done|..];
    cbn [DecimalString.NilEmpty.string_of_uint digits_value Pos.of_uint_acc]; rewrite <- IH; f_equal;
    unfold code; cbn [N_of_ascii N_of_digits]; cbn; lia.
Qed.
Lemma digits_value_N d : digits_value 0 (DecimalString.NilEmpty.string_of_uint d) = Z.of_N (N.of_uint d).
Proof. induction d; [done|exact IHd|..]; apply digits_value_uint. Qed.
Lemma digits_value_FormatUint n : 0 ≤ n → digits_value 0 (FormatUint n) = n.
Proof. intros Hn. unfold FormatUint. rewrite digits_value_N, DecimalN.Unsigned.of_to. lia. Qed.
Lemma FormatUint_digits n : string_forallb is_digit (FormatUint n) = true.
Proof. unfold FormatUint. eapply uint_of_string_digits, DecimalString.NilEmpty.usu. Qed.

Lemma digit_code c : is_digit c = true → 0 ≤ code c - 48 ≤ 9.
Proof.
  unfold is_digit, in_range. change (code "0") with 48. change (code "9") with 57. intros [H1%Z.leb_le H2%Z.leb_le]%andb_prop. lia.
Qed.
Lemma digits_value_bounds s acc : string_forallb is_digit s = true →
  acc * pow10 (String.length s) ≤ digits_value acc s < (acc + 1) * pow10 (String.length s).
Proof.
  revert acc. induction s as [|c s IH]; intros acc Hd; [change (pow10 (String.length "")) with 1; cbn; lia|].
  cbn [string_forallb] in Hd. apply andb_prop in Hd as [Hc Hd]. apply digit_code in Hc. cbn [String.length digits_value]. rewrite pow10_S.
  destruct (IH (10 * acc + (code c - 48)) Hd) as [Hlo Hhi]. pose proof (pow10_pos (String.length s)). nia.
Qed.
(** A numeral without leading zero has as many digits as its number. *)
Lemma digits_count s n : string_forallb is_digit s = true → head_not "0" s = true → s ≠ "" →
  (String.length s ≤ n)%nat ↔ digits_value 0 s < pow10 n.
Proof.
  intros Hd Hh Hne. destruct s as [|c s]; [done|]. cbn [string_forallb head_not] in Hd, Hh. apply andb_prop in Hd as [Hc Hd].
  apply negb_true_iff, Ascii.eqb_neq in Hh. pose proof (digit_code c Hc) as Hv.
  assert (1 ≤ code c - 48).
  { destruct (Z.eq_dec (code c) 48) as [E|]; [|lia]. exfalso. apply Hh. rewrite <- (ascii_N_embedding c), <- (ascii_N_embedding "0").
    f_equal. unfold code in E. change (N_of_ascii "0") with 48%N. lia. }
  cbn [String.length digits_value]. change (10 * 0 + (code c - 48)) with (code c - 48).
  destruct (digits_value_bounds s (code c - 48) Hd) as [Hlo Hhi].
  set (L := String.length s) in *. split.
  - intros Hle. replace n with (S L + (n - S L))%nat by lia. rewrite pow10_add, pow10_S.
    pose proof (pow10_pos L). pose proof (pow10_pos (n - S L)). nia.
  - intros Hlt. destruct (decide (S L ≤ n)%nat) as [|Hgt]; [done|]. exfalso.
    replace L with (n + (L - n))%nat in Hlo by lia. rewrite pow10_add in Hlo.
    pose proof (pow10_pos n). pose proof (pow10_pos (L - n)). nia.
Qed.

Fixpoint TrimLeftByte (c : ascii) (s : string) : string :=
  match s with "" => "" | String b rest => if Ascii.eqb b c then TrimLeftByte c rest else s end.
Lemma TrimLeft_zeros s : string_forallb is_digit s = true →
  string_forallb is_digit (TrimLeftByte "0" s) = true ∧ head_not "0" (TrimLeftByte "0" s) = true ∧
  digits_value 0 (TrimLeftByte "0" s) = digits_value 0 s.
Proof.
  induction s as [|c s IH]; intros Hd; [done|]. cbn [TrimLeftByte]. destruct (Ascii.eqb_spec c "0") as [->|Hne].
  - cbn [string_forallb] in Hd. apply andb_prop in Hd as [_ Hd]. apply (IH Hd).
  - split_and!; [done| |done]. cbn. by apply negb_true_iff, Ascii.eqb_neq.
Qed.
Lemma trimmed_count s n : string_forallb is_digit s = true → 0 < digits_value 0 s →
  (String.length (TrimLeftByte "0" s) ≤ n)%nat ↔ digits_value 0 s < pow10 n.
Proof.
  intros Hd Hv. destruct (TrimLeft_zeros s Hd) as (Hd' & Hh & E). rewrite <- E. apply digits_count; [done..|].
  intros E'. rewrite E' in E. cbn in E. lia.
Qed.

(** ** Decimals as a coefficient and a number of places *)

Record fixed := mkFixed { fx_coef : Z; fx_places : nat }.
(** [c / 10^p] without trailing zeros *)
Fixpoint strip (p : nat) (c : Z) : fixed :=
  match p with
  | O => mkFixed c 0
  | S p' => if c mod 10 =? 0 then strip p' (c / 10) else mkFixed c p
  end.
Definition fx_value (d : fixed) : Qc := scaled (fx_coef d) (fx_places d).

Lemma strip_value p c : fx_value (strip p c) = scaled c p.
Proof.
  revert c. induction p as [|p IH]; intros c; [done|]. cbn [strip]. destruct (Z.eqb_spec (c mod 10) 0) as [E|]; [|done].
  rewrite IH. apply scaled_eq. rewrite pow10_S. pose proof (Z.div_mod c 10 ltac:(lia)). nia.
Qed.
Lemma strip_canonical p c : canonical (fx_coef (strip p c)) (fx_places (strip p c)).
Proof.
  revert c. induction p as [|p IH]; intros c; [by left|]. cbn [strip]. destruct (Z.eqb_spec (c mod 10) 0) as [E|]; [apply IH|by right].
Qed.

Definition sign_text (s : string) : bool * string :=
  match s with String "-" rest => (true, rest) | String "+" rest => (false, rest) | _ => (false, s) end.
Definition fx_parse (s : string) : option fixed :=
  let '(negative, body) := sign_text s in
  let '(whole, fraction) := default (body, "") (split_once "." body) in
  let digits := whole +:+ fraction in
  if String.eqb digits "" || negb (string_forallb is_digit digits) then None
  else let n := digits_value 0 digits in
       Some (strip (String.length fraction) (if negative then - n else n)).
Definition on_common (f : Z → Z → Z) (a b : fixed) : fixed :=
  strip (fx_places a + fx_places b) (f (fx_coef a * pow10 (fx_places b)) (fx_coef b * pow10 (fx_places a))).
Definition round_quot (n d : Z) : Z :=
  if Z.abs d <=? 2 * Z.abs (Z.rem n d) then Z.quot n d + Z.sgn n * Z.sgn d else Z.quot n d.

#[export] Instance decimal_fixed : Decimal fixed := {|
  d_zero := mkFixed 0 0;
  d_cmp a b := (fx_coef a * pow10 (fx_places b) ?= fx_coef b * pow10 (fx_places a));
  d_add := on_common Z.add;
  d_sub := on_common Z.sub;
  d_div a b := strip 16 (round_quot (fx_coef a * pow10 (fx_places b + 16)) (fx_coef b * pow10 (fx_places a)));
  d_truncate a := mkFixed (Z.quot (fx_coef a) (pow10 (fx_places a))) 0;
  d_mul a b := strip (fx_places a + fx_places b) (fx_coef a * fx_coef b);
  d_mod := on_common Z.rem;
  d_abs a := mkFixed (Z.abs (fx_coef a)) (fx_places a);
  d_string a := let r := strip (fx_places a) (fx_coef a) in render (fx_coef r) (fx_places r);
  d_new_from_string := fx_parse;
  d_value := fx_value;
|}.
#[export] Instance text_fixed : DecimalText fixed := {|
  d_new k e := if e <? 0 then strip (Z.to_nat (- e)) k else mkFixed (k * 10 ^ e) 0;
|}.

Lemma common_l a b : fx_value a = scaled (fx_coef a * pow10 (fx_places b)) (fx_places a + fx_places b).
Proof. apply scaled_lift. Qed.
Lemma common_r a b : fx_value b = scaled (fx_coef b * pow10 (fx_places a)) (fx_places a + fx_places b).
Proof. rewrite Nat.add_comm. apply scaled_lift. Qed.

Lemma fixed_mod_zero a b : fx_value b ≠ 0%Qc →
  fx_value (on_common Z.rem a b) = 0%Qc ↔ ∃ k : Z, fx_value a = (Q2Qc (inject_Z k) * fx_value b)%Qc.
Proof.
  intros Hb. unfold on_common. rewrite strip_value. rewrite (common_l a b), (common_r a b).
  set (x := fx_coef a * _). set (y := fx_coef b * _). set (p := (fx_places a + fx_places b)%nat).
  assert (Hy : y ≠ 0).
  { intros Hy. apply Hb. rewrite (common_r a b). fold p y. rewrite Hy. change 0%Qc with (scaled 0 0). by apply scaled_eq. }
  transitivity (Z.rem x y = 0).
  { change 0%Qc with (scaled 0 0). rewrite scaled_eq. change (pow10 0) with 1. lia. }
  rewrite Z.rem_divide by done. pose proof (pow10_pos p).
  split; intros [k Hk]; exists k; rewrite <- ?scaled_0 in *.
  - rewrite <- scaled_mul. apply scaled_eq. rewrite Hk. cbn [Nat.add]. lia.
  - rewrite <- scaled_mul in Hk. apply scaled_eq in Hk. cbn [Nat.add] in Hk. nia.
Qed.
Lemma fixed_truncate a : fx_value (mkFixed (Z.quot (fx_coef a) (pow10 (fx_places a))) 0) = fx_value a ↔
  ∃ k : Z, fx_value a = Q2Qc (inject_Z k).
Proof.
  unfold fx_value. cbn [fx_coef fx_places]. pose proof (pow10_pos (fx_places a)). split.
  - intros <-. by eexists.
  - intros [k Hk]. rewrite <- scaled_0 in Hk. apply scaled_eq in Hk. change (pow10 0) with 1 in Hk. apply scaled_eq. change (pow10 0) with 1.
    rewrite Z.mul_1_r in *. rewrite Hk, Z.quot_mul by lia. done.
Qed.

Lemma string_app_nil s : s +:+ "" = s.
Proof. induction s as [|c s IH]; [done|]. change (String c s +:+ "") with (String c (s +:+ "")). by rewrite IH. Qed.
Lemma digits_no_byte c s : is_digit c = false → string_forallb is_digit s = true → no_byte c s = true.
Proof.
  intros Hc. induction s as [|b s IH]; [done|]. cbn [string_forallb no_byte]. intros [Hb Hs]%andb_prop.
  rewrite (IH Hs). destruct (Ascii.eqb_spec b c) as [->|]; [congruence|done].
Qed.
Lemma split_once_none c s : no_byte c s = true → split_once c s = None.
Proof. induction s as [|b s IH]; [done|]. cbn. destruct (Ascii.eqb b c); [done|]. intros Hs. by rewrite (IH Hs). Qed.
Lemma sign_text_digits s : string_forallb is_digit s = true → ∀ rest, s ≠ "" → sign_text (s +:+ rest) = (false, s +:+ rest).
Proof.
  destruct s as [|c s]; [done|]. cbn [string_forallb]. intros [Hc _]%andb_prop rest _.
  change (String c s +:+ rest) with (String c (s +:+ rest)). by destruct c as [[] [] [] [] [] [] [] []].
Qed.

Definition whole_part (k : Z) (p : nat) : string := FormatUint (Z.abs k / pow10 p).
Definition fraction_part (k : Z) (p : nat) : string := digits_of p (Z.abs k mod pow10 p).
Lemma parts_value k p : digits_value 0 (whole_part k p +:+ fraction_part k p) = Z.abs k.
Proof.
  unfold whole_part, fraction_part. pose proof (pow10_pos p). pose proof (Z.mod_pos_bound (Z.abs k) (pow10 p)).
  rewrite digits_value_app, digits_value_FormatUint, digits_value_of by (try apply Z.div_pos; lia).
  rewrite Z.mod_mod by lia. pose proof (Z.div_mod (Z.abs k) (pow10 p)). lia.
Qed.
Lemma whole_digits k p : string_forallb is_digit (whole_part k p) = true.
Proof. apply FormatUint_digits. Qed.
Lemma fraction_digits k p : string_forallb is_digit (fraction_part k p) = true.
Proof. apply digits_of_digit, Z.mod_pos_bound, pow10_pos. Qed.
Lemma render_parts k p :
  render k p = (if k <? 0 then "-" else "") +:+ whole_part k p +:+ (if (p =? 0)%nat then "" else "." +:+ fraction_part k p).
Proof. done. Qed.

Lemma fx_parse_render k p : fx_parse (render k p) = Some (strip p k).
Proof.
  unfold fx_parse. rewrite render_parts. set (body := whole_part k p +:+ _).
  assert (Hs : sign_text ((if k <? 0 then "-" else "") +:+ body) = (k <? 0, body)).
  { destruct (k <? 0); [done|]. apply (sign_text_digits _ (whole_digits k p)). apply FormatUint_nonempty. }
  rewrite Hs. assert (Hb : default (body, "") (split_once "." body) = (whole_part k p, fraction_part k p)).
  { unfold body. destruct p as [|p]; cbn [Nat.eqb].
    - rewrite string_app_nil. rewrite split_once_none by (apply digits_no_byte; [done|apply whole_digits]). done.
    - rewrite split_once_sep by (apply digits_no_byte; [done|apply whole_digits]). done. }
  rewrite Hb. rewrite string_forallb_app, whole_digits, fraction_digits, parts_value. unfold fraction_part at 2. rewrite digits_of_length.
  destruct (String.eqb_spec (whole_part k p +:+ fraction_part k p) "") as [E|_].
  { exfalso. apply (FormatUint_nonempty (Z.abs k / pow10 p)). unfold whole_part in E. by destruct (FormatUint _). }
  cbn. do 2 f_equal. destruct (Z.ltb_spec k 0); lia.
Qed.
Lemma strip_id k p : canonical k p → strip p k = mkFixed k p.
Proof. intros [->|H]; [done|]. destruct p; [done|]. cbn [strip]. by rewrite (proj2 (Z.eqb_neq _ _) H). Qed.
Lemma render_inj k p j q : canonical k p → canonical j q → render k p = render j q → k = j ∧ p = q.
Proof.
  intros Hk Hj E. pose proof (fx_parse_render k p) as H1. rewrite E, fx_parse_render, !strip_id in H1 by done. by injection H1 as -> ->.
Qed.

#[export] Instance decimal_fixed_laws : DecimalLaws fixed.
Proof.
  split; cbn [d_zero d_cmp d_add d_sub d_mul d_mod d_truncate d_string d_value decimal_fixed].
  - reflexivity.
  - intros a b. unfold fx_value. by rewrite scaled_cmp.
  - intros a b. unfold on_common. by rewrite strip_value, scaled_add, <- common_l, <- common_r.
  - intros a b. unfold on_common. by rewrite strip_value, scaled_sub, <- common_l, <- common_r.
  - intros a b. by rewrite strip_value, scaled_mul.
  - apply fixed_mod_zero.
  - apply fixed_truncate.
  - intros a b. pose proof (strip_value (fx_places a) (fx_coef a)) as Ha. pose proof (strip_value (fx_places b) (fx_coef b)) as Hb.
    unfold fx_value in *. rewrite <- Ha, <- Hb. split.
    + intros [-> ->]%render_inj; [done|apply strip_canonical..].
    + intros [-> ->]%canonical_unique; [done|apply strip_canonical..].
Qed.
#[export] Instance text_fixed_laws : DecimalTextLaws fixed.
Proof.
  split; cbn [d_new d_value d_string d_abs text_fixed decimal_fixed].
  - intros k p. destruct (Z.ltb_spec (- Z.of_nat p) 0).
    + rewrite Z.opp_involutive, Nat2Z.id. apply strip_value.
    + assert (p = O) as -> by lia. unfold fx_value. cbn [fx_coef fx_places]. apply scaled_eq. cbn. lia.
  - intros k p. by rewrite (proj2 (Z.ltb_ge _ _)) by lia.
  - intros d. exists (fx_coef (strip (fx_places d) (fx_coef d))), (fx_places (strip (fx_places d) (fx_coef d))).
    split_and!; [apply strip_canonical| |done]. pose proof (strip_value (fx_places d) (fx_coef d)) as Hv. unfold fx_value in *. congruence.
  - intros d. unfold fx_value. cbn [fx_coef fx_places]. split.
    + intros Hd%scaled_nonneg. by rewrite Z.abs_eq.
    + intros Hd%scaled_nonpos. by rewrite <- scaled_opp, Z.abs_neq.
Qed.

(** Two more laws of the package, for the venues that count in contracts:
    [NewFromString] of a [String] is the number printed, and [Div] is exact when
    the quotient has at most [DivisionPrecision] places. *)
Class DecimalQuotientLaws (D : Type) `{DecimalLaws D} : Prop := {
  d_parse_print : ∀ d : D, ∃ d', d_new_from_string (d_string d) = Some d' ∧ d_value d' = d_value d;
  d_div_exact : ∀ (a b : D) k p, (p ≤ 16)%nat → d_value b ≠ 0%Qc → d_value a = (scaled k p * d_value b)%Qc → d_value (d_div a b) = scaled k p;
}.
Lemma round_quot_exact k d : d ≠ 0 → round_quot (k * d) d = k.
Proof.
  intros Hd. unfold round_quot. rewrite Z.rem_mul, Z.quot_mul by done. rewrite (proj2 (Z.leb_gt _ _)); [done|]. simpl. lia.
Qed.
#[export] Instance quotient_fixed_laws : DecimalQuotientLaws fixed.
Proof.
  split.
  - intros d. eexists. split; [apply fx_parse_render|]. cbn [d_value decimal_fixed]. rewrite strip_value.
    pose proof (strip_value (fx_places d) (fx_coef d)) as Hv. unfold fx_value in Hv |- *. exact Hv.
  - intros [ca pa] [cb pb] k p Hp Hb E. cbn [d_value d_div decimal_fixed fx_coef fx_places] in *. unfold fx_value in *. cbn [fx_coef fx_places] in *.
    rewrite <- scaled_mul in E. apply scaled_eq in E. assert (cb ≠ 0) by (intros ->; apply Hb; change 0%Qc with (scaled 0 0); by apply scaled_eq).
    assert (Hn : ca * pow10 (pb + 16) = k * pow10 (16 - p) * (cb * pow10 pa)).
    { replace (pb + 16)%nat with (p + pb + (16 - p))%nat by lia. rewrite (pow10_add (p + pb)), Z.mul_assoc, E. ring. }
    rewrite Hn, round_quot_exact by (apply Z.neq_mul_0; pose proof (pow10_pos pa); lia).
    transitivity (scaled (k * pow10 (16 - p)) 16); [apply (strip_value 16)|]. apply scaled_eq.
    rewrite <- Z.mul_assoc, <- pow10_add. do 2 f_equal. lia.
Qed.
Example fixed_text : d_string (d_div (mkFixed 1 0) (mkFixed (-8) 0)) = "-0.125" ∧ d_new_from_string "00.1250" = Some (mkFixed 125 3).
Proof. vm_compute. split; reflexivity. Qed.
