(* ===== verification/Errors.v ===== *)
(** * Errors

    [exchange/errors.go]: normalized error kinds and details, the sentinels
    and [errors.Is].  [gateway/account/errors.go]: the caller-facing classes
    and [Classify].  [internal/venuehttp/http.go]: the transport errors.  Go
    error values are trees (a wrapper unwraps to one cause or to several);
    [errors.Is] and [errors.As] walk them in preorder. *)

From Stdlib Require Import Ascii String ZArith Lia.
From stdpp Require Import base list strings.
From S2P Require Import Prelude GoStrings.

#[local] Open Scope string_scope.
#[local] Open Scope Z_scope.

(** ** Kinds and details *)

Inductive ErrorKind :=
| KindInvalidConfig | KindInvalidRequest | KindAuthentication | KindPermission
| KindRateLimit | KindNotFound | KindUnsupported | KindVenueRejected
| KindTransport | KindAmbiguousOutcome | KindMalformedResponse | KindMetadataResolution
| KindCanceled | KindDeadlineExceeded | KindSubscriptionGap | KindSubscriptionClosed.

#[export] Instance ErrorKind_eq_dec : EqDecision ErrorKind.
Proof. solve_decision. Defined.

Definition kind_string (k : ErrorKind) : string :=
  match k with
  | KindInvalidConfig => "invalid_config" | KindInvalidRequest => "invalid_request"
  | KindAuthentication => "authentication" | KindPermission => "permission"
  | KindRateLimit => "rate_limit" | KindNotFound => "not_found"
  | KindUnsupported => "unsupported" | KindVenueRejected => "venue_rejected"
  | KindTransport => "transport" | KindAmbiguousOutcome => "ambiguous_outcome"
  | KindMalformedResponse => "malformed_response" | KindMetadataResolution => "metadata_resolution"
  | KindCanceled => "canceled" | KindDeadlineExceeded => "deadline_exceeded"
  | KindSubscriptionGap => "subscription_gap" | KindSubscriptionClosed => "subscription_closed"
  end.

Record ErrorDetails := mkDetails {
  det_Venue : string;
  det_Product : string;
  det_Operation : string;
  det_Code : string;
  det_SafeMessage : string;
  det_RetryAfter : duration;
  det_HTTPStatus : Z;
  det_VenueMessage : string;
  det_CommandNotSent : bool;
}.
Definition no_details : ErrorDetails := mkDetails "" "" "" "" "" 0 0 "" false.

(** Details that carry only an operation and a safe message. *)
Definition op_details (operation message : string) : ErrorDetails :=
  mkDetails "" "" operation "" message 0 0 "" false.
Definition scoped_details (venue product operation message : string) : ErrorDetails :=
  mkDetails venue product operation "" message 0 0 "" false.

(** ** Caller-facing failures *)

Inductive Category :=
| CategoryNetwork | CategoryRejected | CategoryCredentials | CategoryRateLimited
| CategoryInvalid | CategoryUnsupported | CategoryVenue.

#[export] Instance Category_eq_dec : EqDecision Category.
Proof. solve_decision. Defined.

Definition category_string (c : Category) : string :=
  match c with
  | CategoryNetwork => "network" | CategoryRejected => "rejected"
  | CategoryCredentials => "credentials" | CategoryRateLimited => "rate_limited"
  | CategoryInvalid => "invalid" | CategoryUnsupported => "unsupported"
  | CategoryVenue => "venue_error"
  end.

Record VenueFailure := mkFailure {
  vf_Category : Category;
  vf_Venue : string;
  vf_Code : string;
  vf_VenueMessage : string;
  vf_Retryable : bool;
}.

(** ** Error trees *)

(** Package-level [errors.New] values, compared by identity. *)
Inductive sentinel :=
| ContextCanceled | ContextDeadlineExceeded
| ErrRateLimited | HTTPMalformedResponse
| AccountNotFound | CredentialFailed | AccountInvalidRequest | AccountUnsupported
| UnknownInstrument | StoreNotFound | StoreExists | InvalidBudget | InvalidBundle
| StoreIntegrity | StoreUnavailable | StoreIO.

#[export] Instance sentinel_eq_dec : EqDecision sentinel.
Proof. solve_decision. Defined.

(** The venue SDKs' typed application errors. *)
Inductive venue_api :=
| BinancePerpAPI | BinanceSpotAPI | OKXAPI | BybitResponse | BitgetResponse | GateAPI
| HyperliquidRejected | HyperliquidAPI | HyperliquidAPIPointer | LighterAPI | NadoApplication
| AsterVenue.

#[export] Instance venue_api_eq_dec : EqDecision venue_api.
Proof. solve_decision. Defined.

Record HTTPError := mkHTTPError {
  he_StatusCode : Z;
  he_Method : string;
  he_Path : string;
  he_Code : string;
  he_RetryAfter : duration;
}.

Inductive error :=
| EExchange (kind : ErrorKind) (details : ErrorDetails)
| EVenueFailure (failure : VenueFailure)
| EHTTP (fields : HTTPError) (cause : error)
| ELocalRateLimit (retry_after : duration) (action : string)
| ESentinel (s : sentinel)
| ENet (causes : list error)
| EJSONSyntax
| EJSONUnmarshalType
| EAPI (api : venue_api) (messages : list string)
| EText (text : string)
| EWrap (text : string) (causes : list error).

(** [NewError] *)
Definition NewError : ErrorKind → ErrorDetails → error := EExchange.

(** ** Texts *)

(** [time.Duration]'s [String]: hours, minutes and seconds, or a smaller unit
    below a second, without trailing zeros after the point.  [decimal_fraction n p]
    is the fraction [n / 10^p]. *)
Fixpoint decimal_fraction (p : nat) (n : Z) : string :=
  match p with
  | O => ""
  | S p' =>
      if n mod 10 =? 0 then decimal_fraction p' (n / 10)
      else "." +:+ (fix digits (p : nat) (n : Z) : string :=
                      match p with O => "" | S p' => digits p' (n / 10) +:+ FormatUint (n mod 10) end) p n
  end.
Definition Duration_magnitude (u : Z) : string :=
  if u =? 0 then "0s"
  else if u <? 1000 then FormatUint u +:+ "ns"
  else if u <? 1000000 then FormatUint (u / 1000) +:+ decimal_fraction 3 (u mod 1000) +:+ String "194" (String "181" "s")
  else if u <? Second then FormatUint (u / 1000000) +:+ decimal_fraction 6 (u mod 1000000) +:+ "ms"
  else
    let seconds := u / Second in
    let text := FormatUint (seconds mod 60) +:+ decimal_fraction 9 (u mod Second) +:+ "s" in
    let minutes := seconds / 60 in
    if minutes =? 0 then text
    else let text := FormatUint (minutes mod 60) +:+ "m" +:+ text in
         let hours := minutes / 60 in
         if hours =? 0 then text else FormatUint hours +:+ "h" +:+ text.
Definition Duration_String (d : duration) : string :=
  if d <? 0 then "-" +:+ Duration_magnitude (- d) else Duration_magnitude d.
Example duration_texts :
  map Duration_String [0; 1500; 2 * Millisecond; 90 * Second; 3600 * Second + 500 * Millisecond] = ["0s"; "1.5" +:+ String "194" (String "181" "s"); "2ms"; "1m30s"; "1h0m0.5s"].
Proof. reflexivity. Qed.

(** [Error.Error] *)
Definition Error_Error (kind : ErrorKind) (details : ErrorDetails) : string :=
  let part := λ text, if String.eqb text "" then [] else [text] in
  Join ": " (kind_string kind :: part (det_Venue details) ++ part (det_Product details) ++ part (det_Operation details) ++
    part (det_Code details) ++ part (det_SafeMessage details) ++
    (if 0 <? det_RetryAfter details then ["retry_after=" +:+ Duration_String (det_RetryAfter details)] else [])).

(** Preorder walk through [Unwrap]. *)
Fixpoint subtree (e : error) : list error :=
  e :: match e with
       | EHTTP _ c => subtree c
       | ENet cs | EWrap _ cs => flat_map subtree cs
       | _ => []
       end.

(** What [errors.Is] is asked for. *)
Inductive target := TKind (k : ErrorKind) | TSentinel (s : sentinel).

(** Identity with the target, or the node's own [Is] method. *)
Definition is_at (t : target) (e : error) : bool :=
  match e, t with
  | EExchange k _, TKind k' => bool_decide (k = k')
  | EExchange k _, TSentinel ContextCanceled => bool_decide (k = KindCanceled)
  | EExchange k _, TSentinel ContextDeadlineExceeded => bool_decide (k = KindDeadlineExceeded)
  | EHTTP h _, TSentinel ErrRateLimited => (he_StatusCode h =? 429) || (he_StatusCode h =? 418)
  | ELocalRateLimit _ _, TSentinel ErrRateLimited => true
  | ESentinel s, TSentinel s' => bool_decide (s = s')
  | _, _ => false
  end.

Definition errors_is (t : target) (e : option error) : bool :=
  match e with Some e => existsb (is_at t) (subtree e) | None => false end.

(** The first node of the walk that [f] recognizes. *)
Fixpoint first_some {A B} (f : A → option B) (l : list A) : option B :=
  match l with
  | [] => None
  | x :: l' => match f x with Some y => Some y | None => first_some f l' end
  end.
Definition errors_as {B} (f : error → option B) (e : option error) : option B :=
  e ← e; first_some f (subtree e).

Definition as_exchange (e : error) : option (ErrorKind * ErrorDetails) :=
  match e with EExchange k d => Some (k, d) | _ => None end.
Definition as_venue_failure (e : error) : option VenueFailure :=
  match e with EVenueFailure f => Some f | _ => None end.
Definition as_http (e : error) : option HTTPError :=
  match e with EHTTP h _ => Some h | _ => None end.
Definition as_local (e : error) : option (duration * string) :=
  match e with ELocalRateLimit r a => Some (r, a) | _ => None end.
(** [net.Error]; [context.DeadlineExceeded] implements it too. *)
Definition as_net (e : error) : option unit :=
  match e with ENet _ | ESentinel ContextDeadlineExceeded => Some tt | _ => None end.
Definition as_json (e : error) : option unit :=
  match e with EJSONSyntax | EJSONUnmarshalType => Some tt | _ => None end.
Definition as_api (api : venue_api) (e : error) : option (list string) :=
  match e with EAPI a m => if decide (a = api) then Some m else None | _ => None end.

(** ** [Classify] *)

Definition venueNames : list (string * string) :=
  [("binance", "Binance"); ("okx", "OKX"); ("bybit", "Bybit"); ("bitget", "Bitget");
   ("gate", "Gate"); ("hyperliquid", "Hyperliquid"); ("lighter", "Lighter");
   ("aster", "Aster"); ("nado", "Nado")].

Definition venueName (venue : string) : string :=
  match List.find (λ p, String.eqb p.1 venue) venueNames with
  | Some (_, name) => name
  | None => venue
  end.

(** The class of a normalized error before its HTTP status is considered. *)
Definition kind_class (k : ErrorKind) : Category * bool :=
  match k with
  | KindTransport | KindDeadlineExceeded | KindCanceled
  | KindSubscriptionClosed | KindSubscriptionGap => (CategoryNetwork, true)
  | KindVenueRejected | KindNotFound => (CategoryRejected, false)
  | KindAuthentication | KindPermission => (CategoryCredentials, false)
  | KindRateLimit => (CategoryRateLimited, true)
  | KindInvalidRequest | KindInvalidConfig => (CategoryInvalid, false)
  | KindUnsupported => (CategoryUnsupported, false)
  | _ => (CategoryVenue, true)
  end.

Definition server_failure (status : Z) : bool := (500 <=? status) || (status =? 408).

Definition Classify (err : option error) : option VenueFailure :=
  match err with
  | None => None
  | Some _ =>
      match errors_as as_venue_failure err with
      | Some existing => Some existing
      | None =>
          match errors_as as_exchange err with
          | Some (kind, d) =>
              let '(category, retryable) :=
                if server_failure (det_HTTPStatus d) then (CategoryNetwork, true)
                else kind_class kind in
              Some (mkFailure category (venueName (det_Venue d)) (det_Code d)
                      (det_VenueMessage d) retryable)
          | None =>
              let network :=
                errors_is (TSentinel ContextDeadlineExceeded) err ||
                errors_is (TSentinel ContextCanceled) err ||
                match errors_as as_net err with Some _ => true | None => false end in
              Some (if network then mkFailure CategoryNetwork "" "" "" true
                    else mkFailure CategoryVenue "" "" "" false)
          end
      end
  end.

(** [VenueFailure.Message] *)
Definition Message (f : VenueFailure) : string :=
  let venue := if String.eqb (vf_Venue f) "" then "the exchange" else vf_Venue f in
  let own := vf_VenueMessage f in
  match vf_Category f with
  | CategoryNetwork =>
      "Cannot reach " +:+ venue +:+ " right now. Check the network or proxy and try again."
  | CategoryRejected =>
      if negb (String.eqb own "") then own else venue +:+ " rejected the request."
  | CategoryCredentials =>
      if negb (String.eqb own "") then venue +:+ " rejected the API key: " +:+ own
      else venue +:+ " rejected the API key or its permissions."
  | CategoryRateLimited => venue +:+ " rate limit reached. Wait a moment and try again."
  | CategoryInvalid =>
      if negb (String.eqb own "") then own else "The request is invalid."
  | CategoryUnsupported => venue +:+ " does not support this operation."
  | CategoryVenue => venue +:+ " returned an unexpected response. Try again."
  end.

(** [VenueFailure.Error] *)
Definition failure_text (f : VenueFailure) : string :=
  let text := Message f in
  if negb (String.eqb (vf_Code f) "") then text +:+ " (" +:+ vf_Code f +:+ ")" else text.

(** [safeMessage] of gateway/account/orders.go *)
Definition safeMessage (err : option error) : string :=
  match errors_as as_exchange err with
  | Some (kind, d) =>
      if negb (String.eqb (det_SafeMessage d) "") then det_SafeMessage d else kind_string kind
  | None => "request failed"
  end.
