(* ===== verification/Model.v ===== *)
(** * The exchange data model

    [exchange/model.go], [exchange/ack.go], [exchange/websocket.go] and
    [exchange/account_events.go]: the normalized types every venue adapter
    produces and the gateway consumes, with their [Validate] methods.  Go's
    string-based enumerations stay strings, so that a value outside the
    constants is representable, as it is in the code. *)

From Stdlib Require Import Ascii String ZArith Lia QArith Qcanon.
From stdpp Require Import base list strings gmap.
From S2P Require Import Prelude GoStrings Decimals Errors.

#[local] Open Scope string_scope.
#[local] Open Scope Z_scope.
#[local] Open Scope go_scope.
#[local] Set Implicit Arguments.

(** ** Constants *)

Definition VenueBinance := "binance".
Definition VenueOKX := "okx".
Definition VenueLighter := "lighter".
Definition VenueHyperliquid := "hyperliquid".
Definition VenueBybit := "bybit".
Definition VenueBitget := "bitget".
Definition VenueGate := "gate".
Definition VenueAster := "aster".
Definition VenueNado := "nado".
Definition ProductSpot := "spot".
Definition ProductPerp := "perp".
Definition SideBuy := "buy".
Definition SideSell := "sell".
Definition OrderTypeMarket := "market".
Definition OrderTypeLimit := "limit".
Definition LimitPolicyResting := "resting".
Definition LimitPolicyIOC := "ioc".
Definition LimitPolicyPostOnly := "post_only".
Definition EnvironmentLive := "live".
Definition MarketFamilySpot := "spot".
Definition MarketFamilyVenuePerpetual := "venue_perpetual".
Definition MarketFamilyBuilderPerpetual := "builder_perpetual".
Definition AssetClassUnknown := "unknown".
Definition PositionSlotNet := "net".
Definition PositionSlotLong := "long".
Definition PositionSlotShort := "short".

Definition one_of (s : string) (l : list string) : bool := existsb (String.eqb s) l.

Lemma one_of_In s l : one_of s l = true ↔ In s l.
Proof.
  unfold one_of. rewrite existsb_exists. split.
  - intros (x & Hx & ->%String.eqb_eq). done.
  - intros H. exists s. by rewrite String.eqb_refl.
Qed.

(** ** Data *)

Record OptionalDecimal (D : Type) := mkOptDec { od_Value : D; od_Valid : bool }.
Record OptionalInt := mkOptInt { oi_Value : Z; oi_Valid : bool }.

(** The JSON text of a category list, represented by what it decodes to. *)
Inductive InstrumentCategories :=
| CategoriesEmpty
| CategoriesJSON (values : list string)
| CategoriesMalformed.

Record InstrumentMetadata := mkMetadata {
  im_MarketFamily : string;
  im_AssetClass : string;
  im_ClassificationSource : string;
  im_RawAssetType : string;
  im_RawCategories : InstrumentCategories;
}.

Record InstrumentIdentity := mkIdentity {
  id_Venue : string;
  id_Product : string;
  id_Symbol : string;
  id_BaseAsset : string;
  id_QuoteAsset : string;
  id_SettleAsset : string;
  id_NativeSymbol : string;
  id_NativeID : string;
}.

Record InstrumentRules (D : Type) := mkRules {
  ru_PriceIncrement : D;
  ru_QuantityIncrement : D;
  ru_MinQuantity : D;
  ru_MinNotional : OptionalDecimal D;
}.

Record InstrumentEncoding (D : Type) := mkEncoding {
  en_ContractMultiplier : OptionalDecimal D;
  en_PriceScale : OptionalInt;
  en_QuantityScale : OptionalInt;
  en_QuoteScale : OptionalInt;
}.

Record Instrument (D : Type) := mkInstrument {
  in_Identity : InstrumentIdentity;
  in_Rules : InstrumentRules D;
  in_Encoding : InstrumentEncoding D;
  in_Metadata : InstrumentMetadata;
  in_Revision : string;
}.

Record BookLevel (D : Type) := mkLevel { bl_Price : D; bl_Quantity : D }.

Record Candle (D : Type) := mkCandle {
  ca_OpenTime : time; ca_CloseTime : time;
  ca_Open : D; ca_High : D; ca_Low : D; ca_Close : D; ca_Volume : D;
  ca_Complete : bool;
}.

Record PlaceOrderRequest (D : Type) := mkPlaceOrder {
  po_Instrument : Instrument D;
  po_ClientOrderID : string;
  po_Side : string;
  po_Type : string;
  po_Quantity : D;
  po_LimitPrice : D;
  po_LimitPolicy : string;
  po_ReduceOnly : bool;
}.

Record Order (D : Type) := mkOrder {
  or_NativeSymbol : string; or_NativeID : string;
  or_OrderID : string; or_ClientOrderID : string;
  or_Side : string; or_Type : string;
  or_Quantity : D; or_LimitPrice : D; or_LimitPolicy : string; or_ReduceOnly : bool;
  or_Filled : D; or_AverageFillPrice : OptionalDecimal D;
  or_Status : string; or_CreatedAt : time; or_UpdatedAt : time;
}.

Record Fill (D : Type) := mkFill {
  fi_NativeSymbol : string; fi_NativeID : string;
  fi_OrderID : string; fi_ClientOrderID : string; fi_FillID : string;
  fi_Side : string; fi_Price : D; fi_Quantity : D; fi_Fee : D;
  fi_FeeAsset : string; fi_Liquidity : string; fi_Time : time;
}.

Record Balance (D : Type) := mkBalance {
  ba_Asset : string; ba_Available : D; ba_Locked : D; ba_Total : D;
}.

Record Position (D : Type) := mkPosition {
  ps_NativeSymbol : string; ps_NativeID : string;
  ps_PositionSlot : string; ps_Side : string;
  ps_Quantity : D; ps_EntryPrice : D; ps_MarkPrice : D; ps_UnrealizedPnL : D;
  ps_LiquidationPrice : OptionalDecimal D; ps_Leverage : OptionalDecimal D;
  ps_MarginUsed : OptionalDecimal D;
}.

(** [PositionSlot.Valid] *)
Definition slot_Valid (slot : string) : bool :=
  one_of slot [PositionSlotNet; PositionSlotLong; PositionSlotShort].

(** [exchange/ack.go] *)
Definition AckAcceptedPending := "accepted_pending".
Definition AckResting := "resting".
Definition AckPartiallyFilled := "partially_filled".
Definition AckImmediatelyFilled := "immediately_filled".
Definition AckCanceled := "canceled".
Definition AckRejected := "rejected".
Definition AckAmbiguous := "ambiguous".
Definition OrderOperationPlace : string := "place".
Definition OrderOperationCancel : string := "cancel".

Record OrderAcknowledgement (D : Type) := mkAck {
  ack_Venue : string; ack_Product : string; ack_Operation : string; ack_State : string;
  ack_NativeSymbol : string; ack_NativeID : string; ack_OrderType : string;
  ack_OrderID : string; ack_ClientOrderID : string; ack_TransactionHash : string;
  ack_FilledQuantity : D; ack_AverageFillPrice : OptionalDecimal D;
  ack_VenueCode : string; ack_VenueMessage : string;
}.

(** [exchange/websocket.go] *)
Definition EventSnapshot := "snapshot".
Definition EventDelta := "delta".
Definition EventFull := "full".
Definition SubscriptionConnecting := "connecting".
Definition SubscriptionActive := "active".
Definition SubscriptionGap := "gap".
Definition SubscriptionResyncing := "resyncing".
Definition SubscriptionClosed := "closed".

Record BookEvent (D : Type) := mkBookEvent {
  be_Kind : string; be_Instrument : Instrument D;
  be_Sequence : string; be_Previous : string; be_Resync : bool;
  be_Bids : list (BookLevel D); be_Asks : list (BookLevel D); be_Time : time;
}.
Record OrderEvent (D : Type) := mkOrderEvent { oe_Kind : string; oe_Order : Order D }.
Record FillEvent (D : Type) := mkFillEvent { fe_Kind : string; fe_Fill : Fill D }.
Record BalanceEvent (D : Type) := mkBalanceEvent {
  bev_Kind : string; bev_Balances : list (Balance D); bev_Time : time;
}.
Record PositionEvent (D : Type) := mkPositionEvent {
  pev_Kind : string; pev_Positions : list (Position D); pev_Time : time;
}.

(** [exchange/account_events.go] *)
Definition AccountEventOrder := "order".
Definition AccountEventFill := "fill".
Definition AccountEventBalance := "balance".
Definition AccountEventPosition := "position".

Record AccountRoute := mkRoute {
  rt_AccountID : string; rt_RouteID : string; rt_Venue : string; rt_Environment : string;
  rt_Product : string; rt_Settlement : string; rt_NativeFamily : string;
}.
Record AccountEvent (D : Type) := mkAccountEvent {
  ae_Kind : string; ae_Route : AccountRoute; ae_InstrumentID : string; ae_ObservedAt : time;
  ae_Order : option (OrderEvent D); ae_Fill : option (FillEvent D);
  ae_Balance : option (BalanceEvent D); ae_Position : option (PositionEvent D);
}.

(** ** Helpers of model.go *)

Definition invalidRequest (message : string) : error :=
  NewError KindInvalidRequest (op_details "PlaceOrderRequest.Validate" message).

Definition knownMarketFamily (family : string) : bool :=
  one_of family [MarketFamilySpot; MarketFamilyVenuePerpetual; MarketFamilyBuilderPerpetual].
Definition knownAssetClass (class : string) : bool :=
  one_of class ["unknown"; "crypto"; "equity"; "commodity"; "index"; "fx"; "rates"; "pre_ipo"; "rwa_other"].
Definition knownVenue (venue : string) : bool :=
  one_of venue [VenueBinance; VenueOKX; VenueLighter; VenueHyperliquid; VenueBybit; VenueBitget;
                VenueGate; VenueAster; VenueNado].

Definition isPortableClientOrderID (value : string) : bool :=
  match value with
  | EmptyString => false
  | String c _ =>
      if Ascii.eqb c "0" then false
      else if negb (string_forallb is_digit value) then false
      else match ParseUint value 48 with
           | Some parsed => 0 <? parsed
           | None => false
           end
  end.

Definition NewInstrumentCategories (values : list string) : InstrumentCategories :=
  match values with [] => CategoriesEmpty | _ => CategoriesJSON values end.

Definition categories_values (c : InstrumentCategories) : result error (list string) :=
  match c with
  | CategoriesEmpty => Ok []
  | CategoriesJSON values => Ok values
  | CategoriesMalformed => Err (invalidRequest "instrument categories are malformed")
  end.

Definition is_empty (s : string) : bool := String.eqb s "".
Definition blank (s : string) : bool := is_empty (TrimSpace s).
Definition trimmed (s : string) : bool := String.eqb (TrimSpace s) s.

Fixpoint validate_categories (seen : list string) (categories : list string) : result error unit :=
  match categories with
  | [] => Ok tt
  | category :: rest =>
      check negb (is_empty category || negb (trimmed category))
        else invalidRequest "instrument category must be non-empty and trimmed" ;;
      check negb (one_of category seen)
        else invalidRequest "instrument categories must be unique" ;;
      validate_categories (category :: seen) rest
  end.

Section validation.
Context `{Decimal D}.

(** Go's zero values of [OptionalDecimal] and [OrderAcknowledgement]. *)
Definition no_decimal : OptionalDecimal D := mkOptDec d_zero false.
Definition no_ack : OrderAcknowledgement D := mkAck "" "" "" "" "" "" "" "" "" "" d_zero no_decimal "" "".

Definition decimalAligned (value increment : D) : bool :=
  if negb (d_is_positive increment) then false else d_is_zero (d_mod value increment).

(** [Instrument.Validate] *)
Definition Instrument_Validate (instrument : Instrument D) : result error unit :=
  let identity := in_Identity instrument in
  let rules := in_Rules instrument in
  let encoding := in_Encoding instrument in
  let metadata := in_Metadata instrument in
  check negb (is_empty (id_Venue identity) || is_empty (id_Product identity) ||
              blank (id_Symbol identity) || blank (id_NativeSymbol identity) ||
              blank (id_BaseAsset identity) || blank (id_QuoteAsset identity))
    else invalidRequest "instrument identity is incomplete" ;;
  check knownVenue (id_Venue identity) else invalidRequest "instrument venue is unknown" ;;
  check trimmed (id_Symbol identity) && trimmed (id_NativeSymbol identity) &&
        trimmed (id_NativeID identity) && trimmed (id_BaseAsset identity) &&
        trimmed (id_QuoteAsset identity) && trimmed (id_SettleAsset identity)
    else invalidRequest "instrument identity must be trimmed" ;;
  check one_of (id_Product identity) [ProductSpot; ProductPerp]
    else invalidRequest "instrument product is unknown" ;;
  check d_is_positive (ru_PriceIncrement rules)
    else invalidRequest "instrument price increment must be positive" ;;
  check d_is_positive (ru_QuantityIncrement rules)
    else invalidRequest "instrument quantity increment must be positive" ;;
  check negb (d_is_negative (ru_MinQuantity rules))
    else invalidRequest "instrument min quantity must not be negative" ;;
  check negb (od_Valid (ru_MinNotional rules) && d_is_negative (od_Value (ru_MinNotional rules)))
    else invalidRequest "instrument min notional must not be negative" ;;
  check negb (od_Valid (en_ContractMultiplier encoding) &&
              negb (d_is_positive (od_Value (en_ContractMultiplier encoding))))
    else invalidRequest "instrument contract multiplier must be positive" ;;
  check negb (oi_Valid (en_PriceScale encoding) && (oi_Value (en_PriceScale encoding) <=? 0))
    else invalidRequest "instrument price scale must be positive" ;;
  check negb (oi_Valid (en_QuantityScale encoding) && (oi_Value (en_QuantityScale encoding) <=? 0))
    else invalidRequest "instrument quantity scale must be positive" ;;
  check negb (oi_Valid (en_QuoteScale encoding) && (oi_Value (en_QuoteScale encoding) <=? 0))
    else invalidRequest "instrument quote scale must be positive" ;;
  let family := im_MarketFamily metadata in
  check negb (negb (is_empty family) && negb (knownMarketFamily family))
    else invalidRequest "instrument market family is unknown" ;;
  check negb (negb (is_empty family) && (String.eqb (id_Product identity) ProductSpot &&
              negb (String.eqb family MarketFamilySpot)))
    else invalidRequest "spot instrument market family is inconsistent" ;;
  check negb (negb (is_empty family) && (String.eqb (id_Product identity) ProductPerp &&
              String.eqb family MarketFamilySpot))
    else invalidRequest "perp instrument market family is inconsistent" ;;
  check negb (negb (is_empty (im_AssetClass metadata)) && negb (knownAssetClass (im_AssetClass metadata)))
    else invalidRequest "instrument asset class is unknown" ;;
  check trimmed (im_ClassificationSource metadata) && trimmed (im_RawAssetType metadata)
    else invalidRequest "instrument metadata must be trimmed" ;;
  categories <-? categories_values (im_RawCategories metadata) ;;
  validate_categories [] categories.

(** [Instrument.EffectiveMetadata] *)
Definition EffectiveMetadata (instrument : Instrument D) : InstrumentMetadata :=
  let m := in_Metadata instrument in
  let product := id_Product (in_Identity instrument) in
  let family :=
    if is_empty (im_MarketFamily m)
    then if String.eqb product ProductSpot then MarketFamilySpot
         else if String.eqb product ProductPerp then MarketFamilyVenuePerpetual
         else im_MarketFamily m
    else im_MarketFamily m in
  let class := if is_empty (im_AssetClass m) then AssetClassUnknown else im_AssetClass m in
  mkMetadata family class (im_ClassificationSource m) (im_RawAssetType m) (im_RawCategories m).

(** [PlaceOrderRequest.Validate] *)
Definition PlaceOrder_Validate (request : PlaceOrderRequest D) (product : string) : result error unit :=
  let instrument := po_Instrument request in
  let rules := in_Rules instrument in
  check one_of product [ProductSpot; ProductPerp] else invalidRequest "unknown product" ;;
  _ <-? Instrument_Validate instrument ;;
  check String.eqb (id_Product (in_Identity instrument)) product
    else invalidRequest "instrument product does not match request product" ;;
  check one_of (po_Side request) [SideBuy; SideSell]
    else invalidRequest "side must be buy or sell" ;;
  check d_is_positive (po_Quantity request) else invalidRequest "quantity must be positive" ;;
  check decimalAligned (po_Quantity request) (ru_QuantityIncrement rules)
    else invalidRequest "quantity is not aligned to instrument quantity increment" ;;
  check negb (d_less_than (po_Quantity request) (ru_MinQuantity rules))
    else invalidRequest "quantity is below instrument minimum quantity" ;;
  check negb (od_Valid (ru_MinNotional rules) && d_is_positive (po_LimitPrice request) &&
              d_less_than (d_mul (po_Quantity request) (po_LimitPrice request))
                          (od_Value (ru_MinNotional rules)))
    else invalidRequest "order notional is below instrument minimum notional" ;;
  check isPortableClientOrderID (po_ClientOrderID request)
    else invalidRequest "client order id must be a positive decimal uint48" ;;
  check negb (String.eqb product ProductSpot && po_ReduceOnly request)
    else invalidRequest "reduce-only is available only for perpetual products" ;;
  if String.eqb (po_Type request) OrderTypeMarket then
    check d_is_zero (po_LimitPrice request)
      else invalidRequest "market order must not include a limit price" ;;
    check is_empty (po_LimitPolicy request)
      else invalidRequest "market order must not include a limit policy" ;;
    Ok tt
  else if String.eqb (po_Type request) OrderTypeLimit then
    check d_is_positive (po_LimitPrice request)
      else invalidRequest "limit order price must be positive" ;;
    check decimalAligned (po_LimitPrice request) (ru_PriceIncrement rules)
      else invalidRequest "limit order price is not aligned to instrument price increment" ;;
    check one_of (po_LimitPolicy request) [LimitPolicyResting; LimitPolicyIOC; LimitPolicyPostOnly]
      else invalidRequest "limit order policy must be resting, ioc, or post_only" ;;
    Ok tt
  else Err (invalidRequest "order type must be market or limit").

Definition ackMalformed (message : string) : error :=
  NewError KindMalformedResponse (op_details "OrderAcknowledgement.Validate" message).

(** [OrderAcknowledgement.Validate] *)
Definition Ack_Validate (ack : OrderAcknowledgement D) : result error unit :=
  let state := ack_State ack in
  let no_reference :=
    is_empty (ack_OrderID ack) && is_empty (ack_ClientOrderID ack) && is_empty (ack_TransactionHash ack) in
  check negb (is_empty (ack_Venue ack) || is_empty (ack_Product ack) || is_empty (ack_Operation ack) ||
              is_empty state || is_empty (ack_NativeSymbol ack))
    else ackMalformed "missing acknowledgement metadata" ;;
  if String.eqb state AckAcceptedPending then
    check negb no_reference
      else ackMalformed "accepted-pending acknowledgement has no order reference" ;; Ok tt
  else if String.eqb state AckResting then
    check negb (String.eqb (ack_OrderType ack) OrderTypeMarket)
      else ackMalformed "market order acknowledgement cannot be resting" ;;
    check negb (is_empty (ack_OrderID ack))
      else ackMalformed "final exchange acknowledgement has no order id" ;; Ok tt
  else if String.eqb state AckPartiallyFilled then
    check negb (is_empty (ack_OrderID ack))
      else ackMalformed "partial-fill acknowledgement has no order id" ;;
    check d_is_positive (ack_FilledQuantity ack)
      else ackMalformed "partial-fill acknowledgement has no positive filled quantity" ;; Ok tt
  else if String.eqb state AckImmediatelyFilled then
    check negb (is_empty (ack_OrderID ack))
      else ackMalformed "final exchange acknowledgement has no order id" ;; Ok tt
  else if String.eqb state AckCanceled then
    check negb no_reference
      else ackMalformed "canceled acknowledgement has no order reference" ;; Ok tt
  else if String.eqb state AckRejected then
    check negb (is_empty (ack_VenueCode ack) && is_empty (ack_VenueMessage ack))
      else ackMalformed "rejected acknowledgement has no venue rejection details" ;; Ok tt
  else if String.eqb state AckAmbiguous then
    check negb no_reference
      else ackMalformed "ambiguous acknowledgement has no correlation reference" ;; Ok tt
  else Err (ackMalformed "unknown acknowledgement state").

Definition fmt_error (text : string) : error := EText text.

(** [AccountRoute.Validate] *)
Definition Route_Validate (route : AccountRoute) : result error unit :=
  check negb (blank (rt_AccountID route) || blank (rt_RouteID route) || negb (knownVenue (rt_Venue route)) ||
              negb (String.eqb (rt_Environment route) EnvironmentLive) ||
              negb (one_of (rt_Product route) [ProductSpot; ProductPerp]) || blank (rt_NativeFamily route))
    else fmt_error "account route is invalid" ;;
  Ok tt.

Definition is_present {A} (o : option A) : bool := match o with Some _ => true | None => false end.

(** [AccountEvent.Validate] *)
Definition AccountEvent_Validate (event : AccountEvent D) : result error unit :=
  check is_ok (Route_Validate (ae_Route event)) && negb (IsZero (ae_ObservedAt event))
    else fmt_error "account event identity is invalid" ;;
  let payloads :=
    length (List.filter id [is_present (ae_Order event); is_present (ae_Fill event);
                            is_present (ae_Balance event); is_present (ae_Position event)]) in
  let only {A} (payload : option A) := is_present payload && (payloads =? 1)%nat in
  if String.eqb (ae_Kind event) AccountEventOrder then
    check only (ae_Order event) else fmt_error "account order event is invalid" ;; Ok tt
  else if String.eqb (ae_Kind event) AccountEventFill then
    check only (ae_Fill event) else fmt_error "account fill event is invalid" ;; Ok tt
  else if String.eqb (ae_Kind event) AccountEventBalance then
    check only (ae_Balance event) else fmt_error "account balance event is invalid" ;; Ok tt
  else if String.eqb (ae_Kind event) AccountEventPosition then
    check only (ae_Position event) else fmt_error "account position event is invalid" ;; Ok tt
  else Err (fmt_error "account event kind is invalid").
End validation.

(** ** Validation accepts exactly the well-formed values *)

(** The textual form of a client order id: the decimal of a number in
    [1, 2^48). *)
Definition portable_id (value : string) : Prop :=
  ∃ n, value = FormatUint n ∧ 1 ≤ n < 2 ^ 48.

Lemma isPortable_iff value : isPortableClientOrderID value = true ↔ portable_id value.
Proof.
  unfold portable_id. split.
  - unfold isPortableClientOrderID. destruct value as [|c s]; [done|].
    destruct (Ascii.eqb c "0") eqn:Hc; [done|].
    destruct (string_forallb is_digit (String c s)); simpl negb; cbv iota; [|done].
    destruct (ParseUint (String c s) 48) as [n|] eqn:Hp; [|done]. intros _.
    apply ParseUint_canonical in Hp as [-> Hn]; [|simpl; by rewrite Hc].
    exists n. split; [done|lia].
  - intros (n & -> & Hn).
    pose proof (ParseUint_FormatUint n 48) as Hp.
    pose proof (FormatUint_head n) as Hh.
    unfold isPortableClientOrderID.
    destruct (FormatUint n) as [|c s] eqn:Hf; [by apply FormatUint_nonempty in Hf|].
    simpl in Hh. destruct (Ascii.eqb c "0"); [simpl in Hh; lia|].
    rewrite (ParseUint_digits _ 48 n) by (apply Hp; lia).
    simpl negb. cbv iota. rewrite Hp by lia. apply Z.ltb_lt. lia.
Qed.

Section order_spec.
Context `{DecimalLaws D}.

(** [value] is a whole number of [increment]s. *)
Definition multiple_of (value increment : D) : Prop :=
  ∃ k : Z, d_value value = (Q2Qc (inject_Z k) * d_value increment)%Qc.

Lemma decimalAligned_spec (value increment : D) :
  decimalAligned value increment = true ↔
  (0 < d_value increment)%Qc ∧ multiple_of value increment.
Proof.
  unfold decimalAligned, multiple_of. rewrite <- d_is_positive_spec.
  destruct (d_is_positive increment) eqn:Hp; simpl; [|naive_solver].
  rewrite d_is_zero_spec, d_mod_zero by (by apply d_positive_not_zero). naive_solver.
Qed.

(** What a venue-neutral order must satisfy. *)
Record order_spec (r : PlaceOrderRequest D) (product : string) : Prop := {
  os_product : In product [ProductSpot; ProductPerp];
  os_instrument : Instrument_Validate (po_Instrument r) = Ok tt;
  os_match : id_Product (in_Identity (po_Instrument r)) = product;
  os_side : In (po_Side r) [SideBuy; SideSell];
  os_positive : (0 < d_value (po_Quantity r))%Qc;
  os_step : multiple_of (po_Quantity r) (ru_QuantityIncrement (in_Rules (po_Instrument r)));
  os_min : (d_value (ru_MinQuantity (in_Rules (po_Instrument r))) <= d_value (po_Quantity r))%Qc;
  os_notional : od_Valid (ru_MinNotional (in_Rules (po_Instrument r))) = true →
    (0 < d_value (po_LimitPrice r))%Qc →
    (d_value (od_Value (ru_MinNotional (in_Rules (po_Instrument r)))) <=
       d_value (po_Quantity r) * d_value (po_LimitPrice r))%Qc;
  os_client_id : portable_id (po_ClientOrderID r);
  os_reduce_only : po_ReduceOnly r = true → product ≠ ProductSpot;
  os_type :
    (po_Type r = OrderTypeMarket ∧ d_value (po_LimitPrice r) = 0%Qc ∧ po_LimitPolicy r = "") ∨
    (po_Type r = OrderTypeLimit ∧ (0 < d_value (po_LimitPrice r))%Qc ∧
     multiple_of (po_LimitPrice r) (ru_PriceIncrement (in_Rules (po_Instrument r))) ∧
     In (po_LimitPolicy r) [LimitPolicyResting; LimitPolicyIOC; LimitPolicyPostOnly]);
}.

(** The instrument rules a validated instrument carries. *)
Lemma Instrument_Validate_increments (i : Instrument D) :
  Instrument_Validate i = Ok tt →
  (0 < d_value (ru_PriceIncrement (in_Rules i)))%Qc ∧
  (0 < d_value (ru_QuantityIncrement (in_Rules i)))%Qc.
Proof.
  unfold Instrument_Validate. rewrite !check_Ok. intros Hv.
  rewrite <- !d_is_positive_spec. naive_solver.
Qed.

Lemma Instrument_Validate_identity (i : Instrument D) :
  Instrument_Validate i = Ok tt →
  let identity := in_Identity i in
  trimmed (id_Symbol identity) = true ∧ trimmed (id_NativeSymbol identity) = true ∧
  trimmed (id_NativeID identity) = true ∧
  blank (id_Symbol identity) = false ∧ blank (id_NativeSymbol identity) = false ∧
  knownVenue (id_Venue identity) = true.
Proof.
  unfold Instrument_Validate. rewrite !check_Ok. intros (H1 & H2 & H3 & _). simpl.
  breflect. naive_solver.
Qed.

Lemma notional_guard (r : PlaceOrderRequest D) (min : OptionalDecimal D) :
  negb (od_Valid min && d_is_positive (po_LimitPrice r) &&
        d_less_than (d_mul (po_Quantity r) (po_LimitPrice r)) (od_Value min)) = true ↔
  (od_Valid min = true → (0 < d_value (po_LimitPrice r))%Qc →
   (d_value (od_Value min) <= d_value (po_Quantity r) * d_value (po_LimitPrice r))%Qc).
Proof.
  rewrite negb_true_iff, <- d_value_mul, <- d_less_than_false, <- d_is_positive_spec.
  destruct (od_Valid min), (d_is_positive _), (d_less_than _ _); simpl; naive_solver.
Qed.

Lemma order_type_guard (r : PlaceOrderRequest D) (increment : D) :
  (0 < d_value increment)%Qc →
  (if String.eqb (po_Type r) OrderTypeMarket then
    check d_is_zero (po_LimitPrice r)
      else invalidRequest "market order must not include a limit price" ;;
    check is_empty (po_LimitPolicy r)
      else invalidRequest "market order must not include a limit policy" ;;
    Ok tt
  else if String.eqb (po_Type r) OrderTypeLimit then
    check d_is_positive (po_LimitPrice r)
      else invalidRequest "limit order price must be positive" ;;
    check decimalAligned (po_LimitPrice r) increment
      else invalidRequest "limit order price is not aligned to instrument price increment" ;;
    check one_of (po_LimitPolicy r) [LimitPolicyResting; LimitPolicyIOC; LimitPolicyPostOnly]
      else invalidRequest "limit order policy must be resting, ioc, or post_only" ;;
    Ok tt
  else Err (invalidRequest "order type must be market or limit")) = Ok tt ↔
  (po_Type r = OrderTypeMarket ∧ d_value (po_LimitPrice r) = 0%Qc ∧ po_LimitPolicy r = "") ∨
  (po_Type r = OrderTypeLimit ∧ (0 < d_value (po_LimitPrice r))%Qc ∧
   multiple_of (po_LimitPrice r) increment ∧
   In (po_LimitPolicy r) [LimitPolicyResting; LimitPolicyIOC; LimitPolicyPostOnly]).
Proof.
  intros Hinc. unfold is_empty.
  destruct (String.eqb_spec (po_Type r) OrderTypeMarket) as [->|Hm].
  - rewrite !check_Ok, d_is_zero_spec, String.eqb_eq. naive_solver.
  - destruct (String.eqb_spec (po_Type r) OrderTypeLimit) as [->|Hl]; [|naive_solver].
    rewrite !check_Ok, d_is_positive_spec, decimalAligned_spec, one_of_In. naive_solver.
Qed.

Lemma PlaceOrder_Validate_spec (r : PlaceOrderRequest D) (product : string) :
  PlaceOrder_Validate r product = Ok tt ↔ order_spec r product.
Proof.
  unfold PlaceOrder_Validate. rewrite check_Ok, bind_Ok, one_of_In.
  split.
  - intros (Hp & [] & Hv & Hrest).
    pose proof (Instrument_Validate_increments _ Hv) as [Hpi Hqi].
    rewrite !check_Ok, (order_type_guard _ _ Hpi), notional_guard, isPortable_iff, !one_of_In,
      !String.eqb_eq, d_is_positive_spec, decimalAligned_spec, !negb_true_iff,
      d_less_than_false in Hrest.
    destruct Hrest as (?&?&?&[? ?]&?&?&?&Hro&?). split; try done.
    intros Hr ->. by rewrite Hr in Hro.
  - intros []. split; [done|]. exists tt. split; [done|].
    pose proof (Instrument_Validate_increments _ os_instrument0) as [Hpi Hqi].
    rewrite !check_Ok, (order_type_guard _ _ Hpi), notional_guard, isPortable_iff, !one_of_In,
      !String.eqb_eq, d_is_positive_spec, decimalAligned_spec, !negb_true_iff,
      d_less_than_false.
    repeat split; try done.
    destruct (po_ReduceOnly r) eqn:Hr; [|by rewrite andb_false_r].
    rewrite andb_true_r. apply String.eqb_neq. auto.
Qed.

(** [PlaceOrderRequest.Validate] accepts exactly the orders that satisfy
    [order_spec]: known product and side, positive quantity on the
    instrument's step and at least its minimum, minimum notional for priced
    orders, a portable uint48 client id, reduce-only only on perpetuals, and
    a price on the tick exactly for limit orders. *)
Theorem PlaceOrder_Validate_iff (r : PlaceOrderRequest D) (product : string) :
  PlaceOrder_Validate r product = Ok tt ↔ order_spec r product.
Proof. apply PlaceOrder_Validate_spec. Qed.
End order_spec.

(** ** Concrete inputs *)

(** Perpetuals with integer rules, over the integer instance of decimals. *)
Definition sample_perp (venue base quote : string) : Instrument Z :=
  {| in_Identity := mkIdentity venue ProductPerp (base +:+ "-" +:+ quote) base quote quote
                      (base +:+ quote) "";
     in_Rules := mkRules 5 2 4 (mkOptDec 100 true);
     in_Encoding := mkEncoding (mkOptDec 0 false) (mkOptInt 0 false) (mkOptInt 0 false) (mkOptInt 0 false);
     in_Metadata := mkMetadata "" "" "" "" CategoriesEmpty;
     in_Revision := "" |}.

Definition sample_limit_order : PlaceOrderRequest Z :=
  mkPlaceOrder (sample_perp VenueBinance "BTC" "USDT") "1001" SideBuy OrderTypeLimit 6 50 LimitPolicyIOC true.

Lemma PlaceOrder_Validate_iff_witness :
  PlaceOrder_Validate sample_limit_order ProductPerp = Ok tt ∧ order_spec sample_limit_order ProductPerp.
Proof.
  assert (Hv : PlaceOrder_Validate sample_limit_order ProductPerp = Ok tt) by (vm_compute; reflexivity).
  exact (conj Hv (proj1 (PlaceOrder_Validate_iff sample_limit_order ProductPerp) Hv)).
Defined.
