(* ===== verification/Venue.v ===== *)
(** * Served markets and route profiles

    [gateway/venue/venue.go]: the (venue, product, settlement) routes the
    gateway serves and its public instrument ids.  [routeprofile]: the
    catalog of route profiles the exchange layer knows. *)

From Stdlib Require Import Ascii String ZArith Lia.
From stdpp Require Import base list strings gmap.
From S2P Require Import Prelude GoStrings Decimals Errors Model.

#[local] Open Scope string_scope.
#[local] Open Scope list_scope.
#[local] Open Scope Z_scope.

(** ** Markets *)

Record Market := mkMarket { mk_Venue : string; mk_Product : string; mk_Settlement : string }.

#[export] Instance Market_eq_dec : EqDecision Market.
Proof. solve_decision. Defined.
#[export] Instance Market_countable : Countable Market.
Proof.
  refine (inj_countable' (λ m, (mk_Venue m, mk_Product m, mk_Settlement m))
    (λ '(v, p, s), mkMarket v p s) _). by intros [].
Defined.

(** [Market.String] *)
Definition Market_String (m : Market) : string :=
  if is_empty (mk_Settlement m) then mk_Venue m +:+ ":" +:+ mk_Product m
  else mk_Venue m +:+ ":" +:+ mk_Product m +:+ ":" +:+ mk_Settlement m.

Definition Markets : list Market :=
  [ mkMarket VenueBinance ProductPerp "USDT"; mkMarket VenueBinance ProductSpot "";
    mkMarket VenueOKX ProductPerp "USDT"; mkMarket VenueOKX ProductSpot "";
    mkMarket VenueBybit ProductPerp "USDT"; mkMarket VenueBybit ProductPerp "USDC";
    mkMarket VenueBybit ProductSpot "";
    mkMarket VenueBitget ProductPerp "USDT"; mkMarket VenueBitget ProductPerp "USDC";
    mkMarket VenueBitget ProductSpot "";
    mkMarket VenueGate ProductPerp "USDT"; mkMarket VenueGate ProductSpot "";
    mkMarket VenueHyperliquid ProductPerp "USDC"; mkMarket VenueHyperliquid ProductSpot "";
    mkMarket VenueLighter ProductPerp "USDC"; mkMarket VenueLighter ProductSpot "" ].

Fixpoint venues_of (seen : list string) (markets : list Market) : list string :=
  match markets with
  | [] => []
  | m :: rest =>
      if one_of (mk_Venue m) seen then venues_of seen rest
      else mk_Venue m :: venues_of (mk_Venue m :: seen) rest
  end.
Definition Venues : list string := venues_of [] Markets.

Definition MarketsOf (venue : string) : list Market :=
  List.filter (λ m, String.eqb (mk_Venue m) venue) Markets.

Definition Supported (venue : string) : bool := (0 <? Z.of_nat (length (MarketsOf venue))).

(** ** Instrument ids *)

Definition NewInstrumentID (venue product symbol : string) : string :=
  venue +:+ ":" +:+ product +:+ ":" +:+ symbol.

(** [InstrumentID.Parse] *)
Definition Parse (id : string) : result string (string * string * string) :=
  match SplitN ":" id 3 with
  | [venue; product; symbol] =>
      if is_empty venue || is_empty symbol
      then Err "instrument id must be venue:product:symbol"
      else if negb (String.eqb product ProductSpot) && negb (String.eqb product ProductPerp)
      then Err "instrument id product must be spot or perp"
      else Ok (venue, product, symbol)
  | _ => Err "instrument id must be venue:product:symbol"
  end.

(** The settlement [MarketOf] looks a route up with. *)
Definition settlement_of (identity : InstrumentIdentity) : string :=
  if String.eqb (id_Product identity) ProductPerp then
    let settlement := ToUpper (id_SettleAsset identity) in
    if is_empty settlement then ToUpper (id_QuoteAsset identity) else settlement
  else "".

Definition MarketOf {D} (instrument : Instrument D) : option Market :=
  let identity := in_Identity instrument in
  List.find (λ m, String.eqb (mk_Venue m) (id_Venue identity) &&
                  String.eqb (mk_Product m) (id_Product identity) &&
                  String.eqb (mk_Settlement m) (settlement_of identity)) Markets.

(** ** Route profiles *)

Record Profile := mkProfile {
  pr_ID : string; pr_Venue : string; pr_Product : string; pr_SettlementAsset : string;
}.

Definition defaultRows : list (string * string * string) :=
  [ ("binance", "spot", ""); ("binance", "perp", "USDT"); ("okx", "spot", ""); ("okx", "perp", "USDT");
    ("lighter", "spot", ""); ("lighter", "perp", "USDC");
    ("hyperliquid", "spot", ""); ("hyperliquid", "perp", "USDC");
    ("bybit", "spot", ""); ("bybit", "perp", "USDT"); ("bybit", "perp", "USDC");
    ("bitget", "spot", ""); ("bitget", "perp", "USDT"); ("bitget", "perp", "USDC");
    ("gate", "spot", ""); ("gate", "perp", "USDT"); ("aster", "spot", ""); ("aster", "perp", "USDT");
    ("nado", "spot", "USDT0"); ("nado", "perp", "USDT0") ].

Definition profileID (venue product settlement : string) : string :=
  let parts := [venue; product] ++ (if is_empty settlement then [] else [ToLower settlement]) in
  Join "." parts +:+ ".v1".

Definition DefaultProfiles : list Profile :=
  map (λ '(v, p, s), mkProfile (profileID v p s) v p s) defaultRows.

(** The registry: a map from (venue, profile id) to its profile. *)
Definition DefaultRegistry : gmap (string * string) Profile :=
  foldl (λ m p, <[(pr_Venue p, pr_ID p) := p]> m) ∅ DefaultProfiles.

Definition Resolve (registry : gmap (string * string) Profile) (venue routeProfileID : string) : option Profile :=
  if negb (String.eqb venue (ToLower (TrimSpace venue))) ||
     negb (String.eqb routeProfileID (TrimSpace routeProfileID)) then None
  else registry !! (venue, routeProfileID).

Definition ResolveLegacy (registry : gmap (string * string) Profile) (venue product settlement : string)
  : option Profile :=
  profile ← Resolve registry venue (profileID venue product settlement);
  if negb (String.eqb (pr_Product profile) product) || negb (String.eqb (pr_SettlementAsset profile) settlement)
  then None else Some profile.

(** [NativeMarketFamily] of exchange/market_support.go *)
Definition NativeMarketFamily (venue product settlement : string) : string :=
  match ResolveLegacy DefaultRegistry venue product settlement with
  | None => ""
  | Some _ =>
      if String.eqb product ProductSpot then "spot"
      else if String.eqb venue VenueBybit then "linear"
      else if String.eqb venue VenueBitget then
        if EqualFold (TrimSpace settlement) "USDC" then "usdc-futures" else "usdt-futures"
      else if String.eqb venue VenueOKX then "swap"
      else if String.eqb venue VenueNado then "usdt0-perpetual"
      else "perpetual"
  end.

(** ** Properties *)

Lemma Markets_NoDup : NoDup Markets.
Proof. apply (bool_decide_unpack _). by vm_compute. Qed.

Lemma MarketOf_Some {D} (i : Instrument D) m :
  MarketOf i = Some m →
  m ∈ Markets ∧ mk_Venue m = id_Venue (in_Identity i) ∧
  mk_Product m = id_Product (in_Identity i) ∧ mk_Settlement m = settlement_of (in_Identity i).
Proof.
  unfold MarketOf. intros [Hin Hm]%List.find_some. breflect.
  rewrite !String.eqb_eq in Hm. rewrite list_elem_of_In. naive_solver.
Qed.

(** A gateway instrument id round-trips through [Parse]: a venue without a
    colon, a known product and a non-empty symbol, which may itself contain
    colons, are recovered exactly. *)
Theorem Parse_NewInstrumentID venue product symbol :
  no_byte ":" venue = true → venue ≠ "" → symbol ≠ "" → In product [ProductSpot; ProductPerp] →
  Parse (NewInstrumentID venue product symbol) = Ok (venue, product, symbol).
Proof.
  intros Hv Hve Hs Hp.
  assert (Hpb : no_byte ":" product = true) by (destruct Hp as [<-|[<-|[]]]; reflexivity).
  unfold Parse, NewInstrumentID, SplitN.
  rewrite (split_once_sep ":" venue) by done.
  rewrite (split_once_sep ":" product) by done.
  unfold is_empty. apply String.eqb_neq in Hve, Hs. rewrite Hve, Hs. simpl.
  destruct Hp as [<-|[<-|[]]]; reflexivity.
Qed.

Lemma Parse_NewInstrumentID_witness :
  no_byte ":" "hyperliquid" = true ∧ "hyperliquid" ≠ "" ∧ "xyz:TSLA-USDC" ≠ "" ∧
  In "perp" [ProductSpot; ProductPerp] ∧
  Parse (NewInstrumentID "hyperliquid" "perp" "xyz:TSLA-USDC") = Ok ("hyperliquid", "perp", "xyz:TSLA-USDC").
Proof.
  refine (conj eq_refl (conj _ (conj _ (conj _ _)))); [discriminate|discriminate|simpl; auto|].
  apply Parse_NewInstrumentID; [reflexivity|discriminate|discriminate|simpl; auto].
Defined.

(** Conversely, [Parse] succeeds only on ids [NewInstrumentID] builds. *)
Lemma Parse_Ok id venue product symbol :
  Parse id = Ok (venue, product, symbol) →
  id = NewInstrumentID venue product symbol ∧ no_byte ":" venue = true ∧ venue ≠ "" ∧ symbol ≠ "" ∧
  In product [ProductSpot; ProductPerp].
Proof.
  unfold Parse, SplitN.
  destruct (split_once ":" id) as [[v r]|] eqn:E1; [|done].
  destruct (split_once ":" r) as [[p s]|] eqn:E2; [|done].
  apply split_once_Some in E1 as [-> Hv]. apply split_once_Some in E2 as [-> Hp].
  unfold is_empty. destruct (String.eqb_spec v ""); [done|]. destruct (String.eqb_spec s ""); [done|].
  simpl. destruct (String.eqb_spec p ProductSpot), (String.eqb_spec p ProductPerp); simpl;
    intros [= <- <- <-]; repeat split; auto.
Qed.

(** Registered keys determine the route: two default rows with the same venue
    and profile id are the same row. *)
Lemma profile_ids_distinct : NoDup (map (λ p, (pr_Venue p, pr_ID p)) DefaultProfiles).
Proof. apply (bool_decide_unpack _). by vm_compute. Qed.

Lemma Registry_lookup p :
  In p DefaultProfiles → DefaultRegistry !! (pr_Venue p, pr_ID p) = Some p.
Proof.
  intros Hp. repeat (destruct Hp as [<-|Hp]; [by vm_compute|]). destruct Hp.
Qed.

Lemma Markets_native_family :
  Forall (λ m, NativeMarketFamily (mk_Venue m) (mk_Product m) (mk_Settlement m) ≠ "") Markets.
Proof. apply (bool_decide_unpack _). by vm_compute. Qed.

(** Every market the gateway serves is a route profile of the exchange
    layer, so a private stream on it always gets a native family. *)
Theorem Markets_have_profiles :
  Forall (λ m, ∃ p, ResolveLegacy DefaultRegistry (mk_Venue m) (mk_Product m) (mk_Settlement m) = Some p ∧
                    NativeMarketFamily (mk_Venue m) (mk_Product m) (mk_Settlement m) ≠ "") Markets.
Proof.
  pose proof Markets_native_family as H. rewrite Forall_forall in *.
  intros m Hm. specialize (H m Hm).
  destruct (ResolveLegacy _ _ _ _) as [p|] eqn:E; [by exists p|].
  unfold NativeMarketFamily in H. by rewrite E in H.
Qed.
