(* ===== verification/MarketCatalog.v ===== *)
(** * The gateway's instrument catalog

    [gateway/market/catalog.go] and [gateway/market/warmup.go]: the merged
    instrument directory, refreshed one market at a time.  The markets of a
    refresh load concurrently; each takes the catalog lock once, when its load
    completes, so a refresh is the sequence of those completions in any order. *)

From Stdlib Require Import Ascii String ZArith Lia Sorted.
From stdpp Require Import base list strings gmap.
From S2P Require Import Prelude GoStrings Decimals Errors Model Venue.

#[local] Open Scope string_scope.
#[local] Open Scope list_scope.
#[local] Open Scope Z_scope.

(** ** Data *)

(** [market.Instrument] *)
Record MInstrument (D : Type) := mkMInstrument {
  mi_ID : string; mi_Venue : string; mi_Product : string; mi_Symbol : string;
  mi_Base : string; mi_Quote : string; mi_Settle : string;
  mi_TickSize : string; mi_StepSize : string; mi_MinQty : string; mi_MinNotional : string;
  mi_MarketFamily : string; mi_native : Instrument D;
}.
Arguments mkMInstrument {D}.
Arguments mi_ID {D}. Arguments mi_Venue {D}. Arguments mi_Product {D}. Arguments mi_Symbol {D}.
Arguments mi_Base {D}. Arguments mi_Quote {D}. Arguments mi_Settle {D}. Arguments mi_TickSize {D}.
Arguments mi_StepSize {D}. Arguments mi_MinQty {D}. Arguments mi_MinNotional {D}.
Arguments mi_MarketFamily {D}. Arguments mi_native {D}.

(** The fields of [Catalog] behind its lock; every served market has a
    connector after [NewCatalog]. *)
Record Catalog (D : Type) := mkCatalog {
  ct_connectors : gset Market;
  ct_instruments : gmap string (MInstrument D);
  ct_byMarket : gmap Market (list string);
  ct_loadErrors : gmap Market string;
}.
Arguments mkCatalog {D}.
Arguments ct_connectors {D}. Arguments ct_instruments {D}.
Arguments ct_byMarket {D}. Arguments ct_loadErrors {D}.

Record MarketStatus := mkMarketStatus { ms_Market : string; ms_Instruments : Z; ms_Error : string }.

Section catalog.
Context `{Decimal D}.
Implicit Types (c : Catalog D) (m : Market) (native : Instrument D).

(** ** Operations *)

Definition NewCatalog : Catalog D := mkCatalog (list_to_set Markets) ∅ ∅ ∅.

Definition project native : MInstrument D :=
  let identity := in_Identity native in
  let rules := in_Rules native in
  mkMInstrument
    (NewInstrumentID (id_Venue identity) (id_Product identity) (id_Symbol identity))
    (id_Venue identity) (id_Product identity) (id_Symbol identity)
    (id_BaseAsset identity) (id_QuoteAsset identity) (id_SettleAsset identity)
    (d_string (ru_PriceIncrement rules)) (d_string (ru_QuantityIncrement rules))
    (d_string (ru_MinQuantity rules))
    (if od_Valid (ru_MinNotional rules) then d_string (od_Value (ru_MinNotional rules)) else "")
    (im_MarketFamily (in_Metadata native)) native.

Definition market_ids c m : list string := default [] (ct_byMarket c !! m).

(** The projection loop of [publish]: foreign instruments and repeated ids
    are skipped. *)
Definition collect_step m (acc : list string * gmap string (MInstrument D)) native :=
  match MarketOf native with
  | Some owner =>
      if decide (owner = m) then
        let instrument := project native in
        match acc.2 !! mi_ID instrument with
        | Some _ => acc
        | None => (acc.1 ++ [mi_ID instrument], <[mi_ID instrument := instrument]> acc.2)
        end
      else acc
  | None => acc
  end.
Definition collect m natives := foldl (collect_step m) ([], ∅) natives.

Definition publish c m (natives : list (Instrument D)) : Catalog D :=
  let '(ids, projected) := collect m natives in
  let ids := sort_slice str_lt ids in
  let remaining := foldl (λ instruments old, delete old instruments) (ct_instruments c) (market_ids c m) in
  mkCatalog (ct_connectors c) (projected ∪ remaining)
    (<[m := ids]> (ct_byMarket c)) (delete m (ct_loadErrors c)).

(** One market's load completes, with the venue's answer. *)
Definition complete_load c m (outcome : result string (list (Instrument D))) : Catalog D :=
  match outcome with
  | Err text => mkCatalog (ct_connectors c) (ct_instruments c) (ct_byMarket c) (<[m := text]> (ct_loadErrors c))
  | Ok natives => publish c m natives
  end.

(** [refreshMarkets]: [markets] lists the markets in the order their loads
    complete; a market without a connector is skipped. *)
Definition refreshMarkets c (load : Market → result string (list (Instrument D))) (markets : list Market)
  : Catalog D :=
  foldl (λ c m, if decide (m ∈ ct_connectors c) then complete_load c m (load m) else c) c markets.

(** [Refresh] loads every market with a connector. *)
Definition Refresh c load : Catalog D := refreshMarkets c load (elements (ct_connectors c)).

Definition unloadedMarkets c : list Market :=
  List.filter (λ m, match market_ids c m with [] => true | _ => false end) Markets.

(** One iteration of [Run]: how long it waits at [now], and what it does
    when it wakes at [woke] (the next full refresh is due at [next]); a full
    refresh that ends at [finished] schedules the next one. *)
Definition Run_wait c (next : time) (retry : duration) (now : time) : duration :=
  let wait := Sub next now in
  if (0 <? Z.of_nat (length (unloadedMarkets c))) && (retry <? wait) then retry else wait.
Definition Run_wake c load (next : time) (interval : duration) (woke finished : time) : Catalog D * time :=
  if Before woke next then (refreshMarkets c load (unloadedMarkets c), next)
  else (Refresh c load, Add finished interval).

Definition Get c (id : string) : result error (MInstrument D) :=
  match ct_instruments c !! id with
  | Some instrument => Ok instrument
  | None => Err (EWrap ("unknown instrument: " +:+ id) [ESentinel UnknownInstrument])
  end.

(** Go's zero value, read from the map for an absent id. *)
Definition zero_Instrument : Instrument D :=
  mkInstrument (mkIdentity "" "" "" "" "" "" "" "")
    (mkRules d_zero d_zero d_zero (mkOptDec d_zero false))
    (mkEncoding (mkOptDec d_zero false) (mkOptInt 0 false) (mkOptInt 0 false) (mkOptInt 0 false))
    (mkMetadata "" "" "" "" CategoriesEmpty) "".
Definition zero_MInstrument : MInstrument D :=
  mkMInstrument "" "" "" "" "" "" "" "" "" "" "" "" zero_Instrument.

Definition read_instrument c (id : string) : MInstrument D :=
  default zero_MInstrument (ct_instruments c !! id).
Definition MarketInstruments c m : list (MInstrument D) := map (read_instrument c) (market_ids c m).

Definition List_instruments c (filterVenue filterProduct : string) : list (MInstrument D) :=
  flat_map (λ m,
    if (negb (is_empty filterVenue) && negb (String.eqb (mk_Venue m) filterVenue)) ||
       (negb (is_empty filterProduct) && negb (String.eqb (mk_Product m) filterProduct))
    then [] else MarketInstruments c m) Markets.

Definition native_matches (nativeSymbol nativeID : string) (i : MInstrument D) : bool :=
  let identity := in_Identity (mi_native i) in
  (negb (is_empty nativeID) && String.eqb (id_NativeID identity) nativeID) ||
  (negb (is_empty nativeSymbol) && String.eqb (id_NativeSymbol identity) nativeSymbol).
Definition ResolveNative c m (nativeSymbol nativeID : string) : option (MInstrument D) :=
  List.find (native_matches nativeSymbol nativeID) (MarketInstruments c m).

Definition Status c : list MarketStatus :=
  map (λ m, mkMarketStatus (Market_String m) (Z.of_nat (length (market_ids c m)))
              (default "" (ct_loadErrors c !! m))) Markets.

(** [Catalog.connector]: the instrument and the market whose connector
    serves it. *)
Definition connector_of c (id : string) : result error (MInstrument D * option Market) :=
  match Get c id with
  | Err e => Err e
  | Ok instrument => Ok (instrument, MarketOf (mi_native instrument))
  end.

(** [NewStaticCatalog]: natives grouped by market, each group published. *)
Definition NewStaticCatalog (natives : list (Instrument D)) : Catalog D :=
  foldl (λ c m,
    match List.filter (λ n, bool_decide (MarketOf n = Some m)) natives with
    | [] => c
    | group => publish c m group
    end) (mkCatalog ∅ ∅ ∅ ∅) Markets.

(** [warmInstrument] of warmup.go *)
Definition warmInstrument c m : option string :=
  let instruments := MarketInstruments c m in
  let liquid base := List.find (λ i, EqualFold (mi_Base i) base && negb (Contains (mi_Symbol i) ":")) instruments in
  match first_some liquid ["BTC"; "UBTC"; "ETH"] with
  | Some i => Some (mi_ID i)
  | None => match instruments with i :: _ => Some (mi_ID i) | [] => None end
  end.

(** ** Invariant *)

(** Ids of one market are strictly sorted and resolve to that market's own
    instruments; every stored instrument is listed by its market. *)
Record catalog_ok c : Prop := {
  ok_sorted : ∀ m, StronglySorted (λ a b, str_lt a b = true) (market_ids c m);
  ok_listed : ∀ m id, id ∈ market_ids c m →
    ∃ i, ct_instruments c !! id = Some i ∧ mi_ID i = id ∧ MarketOf (mi_native i) = Some m;
  ok_stored : ∀ id i, ct_instruments c !! id = Some i → ∃ m, id ∈ market_ids c m;
}.

(** No other market lists an id of this batch: the precondition under which
    markets do not overwrite each other's instruments. *)
Definition batch_disjoint c m (natives : list (Instrument D)) : Prop :=
  ∀ n : Instrument D, n ∈ natives → MarketOf n = Some m →
  ∀ m', m' ≠ m → mi_ID (project n) ∉ market_ids c m'.

Lemma lookup_foldl_delete (l : list string) (im : gmap string (MInstrument D)) id :
  foldl (λ im old, delete old im) im l !! id = if decide (id ∈ l) then None else im !! id.
Proof.
  revert im. induction l as [|x l IH]; intros im; cbn [foldl].
  - case_decide as Hn; [by apply elem_of_nil in Hn|done].
  - rewrite IH. destruct (decide (id ∈ l)) as [Hl|Hl].
    + by rewrite decide_True by (by right).
    + destruct (decide (id = x)) as [->|Hx].
      * by rewrite lookup_delete_eq, decide_True by (by left).
      * rewrite lookup_delete_ne by done.
        rewrite decide_False; [done|]. by rewrite not_elem_of_cons.
Qed.

(** What the projection loop has collected after any prefix. *)
Record collected m (natives : list (Instrument D)) (acc : list string * gmap string (MInstrument D)) : Prop := {
  co_nodup : NoDup acc.1;
  co_dom : ∀ id, id ∈ acc.1 ↔ is_Some (acc.2 !! id);
  co_sound : ∀ id i, acc.2 !! id = Some i →
    ∃ n, n ∈ natives ∧ MarketOf n = Some m ∧ i = project n ∧ id = mi_ID i;
  co_complete : ∀ n, n ∈ natives → MarketOf n = Some m → mi_ID (project n) ∈ acc.1;
}.

Lemma collect_step_collected m natives acc n :
  collected m natives acc → collected m (natives ++ [n]) (collect_step m acc n).
Proof.
  intros [Hnd Hdom Hs Hc].
  assert (Hskip : (MarketOf n = Some m → mi_ID (project n) ∈ acc.1) →
                  collected m (natives ++ [n]) acc).
  { intros Hn. split; [done..| |].
    - intros id i Hi. destruct (Hs id i Hi) as (n' & ? & ? & ?).
      exists n'. rewrite elem_of_app. naive_solver.
    - intros n' [?| ->%list_elem_of_singleton]%elem_of_app; auto. }
  unfold collect_step. destruct (MarketOf n) as [owner|] eqn:Ho; [|by apply Hskip].
  case_decide as Hm; [subst owner|apply Hskip; congruence].
  destruct (acc.2 !! mi_ID (project n)) eqn:Hl.
  { apply Hskip. intros _. rewrite Hdom, Hl. by eexists. }
  split; cbn [fst snd].
  - apply NoDup_app. split; [done|]. split; [|apply NoDup_singleton].
    intros id Hid ->%list_elem_of_singleton. apply Hdom in Hid. rewrite Hl in Hid. by destruct Hid.
  - intros id. rewrite elem_of_app, list_elem_of_singleton, Hdom.
    destruct (decide (id = mi_ID (project n))) as [->|Hne].
    + rewrite lookup_insert_eq. naive_solver.
    + rewrite lookup_insert_ne by done. naive_solver.
  - intros id i. destruct (decide (id = mi_ID (project n))) as [->|Hne].
    + rewrite lookup_insert_eq. intros [= <-]. exists n. rewrite elem_of_app, list_elem_of_singleton. auto.
    + rewrite lookup_insert_ne by done. intros Hi. destruct (Hs id i Hi) as (n' & ? & ? & ?).
      exists n'. rewrite elem_of_app. naive_solver.
  - intros n' Hn' Hm. apply elem_of_app in Hn' as [Hn'| ->%list_elem_of_singleton];
      rewrite elem_of_app, list_elem_of_singleton; auto.
Qed.

Lemma collect_collected m natives : collected m natives (collect m natives).
Proof.
  unfold collect. induction natives as [|n natives IH] using rev_ind; simpl.
  - split; simpl; [apply NoDup_nil_2| | |]; intros *; rewrite ?lookup_empty, ?elem_of_nil.
    + split; [done|by intros []].
    + done.
    + done.
  - rewrite foldl_app. simpl. by apply collect_step_collected.
Qed.

Lemma market_ids_publish c m natives m' :
  market_ids (publish c m natives) m' =
  if decide (m' = m) then sort_slice str_lt (collect m natives).1 else market_ids c m'.
Proof.
  unfold market_ids, publish. destruct (collect m natives) as [ids projected]. simpl.
  case_decide as Hm; [subst; by rewrite lookup_insert_eq|by rewrite lookup_insert_ne].
Qed.

(** [publish] replaces exactly the market's own instruments. *)
Lemma lookup_publish c m natives id :
  ct_instruments (publish c m natives) !! id =
  match (collect m natives).2 !! id with
  | Some i => Some i
  | None => if decide (id ∈ market_ids c m) then None else ct_instruments c !! id
  end.
Proof.
  unfold publish. destruct (collect m natives) as [ids projected]. simpl.
  rewrite lookup_union, lookup_foldl_delete.
  destruct (projected !! id); simpl; by destruct (if decide _ then _ else _).
Qed.

Lemma publish_ok c m natives :
  catalog_ok c → batch_disjoint c m natives → catalog_ok (publish c m natives).
Proof.
  intros [Hsort Hlisted Hstored] Hdisj.
  destruct (collect_collected m natives) as [Hnd Hdom Hs Hc].
  split.
  - intros m'. rewrite market_ids_publish. case_decide; [|done].
    apply (sort_by_string_strict id). by rewrite map_id.
  - intros m' id. rewrite market_ids_publish, lookup_publish.
    case_decide as Hm; [subst m'|].
    + rewrite sort_slice_elem_of. intros [i Hi]%Hdom. rewrite Hi.
      destruct (Hs id i Hi) as (n & ? & ? & -> & ->). by exists (project n).
    + intros Hid. destruct (Hlisted m' id Hid) as (i & Hi & Hii & Hm').
      destruct ((collect m natives).2 !! id) as [j|] eqn:Hj.
      { destruct (Hs id j Hj) as (n & Hn & Hnm & -> & ->). by destruct (Hdisj n Hn Hnm m' Hm). }
      rewrite decide_False; [eauto|]. intros Hin.
      destruct (Hlisted m id Hin) as (i' & Hi' & _ & Hm''). congruence.
  - intros id i. rewrite lookup_publish.
    destruct ((collect m natives).2 !! id) as [j|] eqn:Hj.
    + intros _. exists m. rewrite market_ids_publish, decide_True by done.
      rewrite sort_slice_elem_of, Hdom, Hj. by eexists.
    + case_decide as Hin; [done|]. intros Hi. destruct (Hstored id i Hi) as [m' Hm'].
      exists m'. rewrite market_ids_publish, decide_False; [done|]. by intros ->.
Qed.

(** ** Refresh *)

Section owners.
(** Each id belongs to one market: markets of the same venue and product
    (Bybit's and Bitget's USDT and USDC perpetuals) use distinct symbols. *)
Context (owner : string → Market).
Context (load : Market → result string (list (Instrument D))).

Definition catalog_owned c : Prop := ∀ m id, id ∈ market_ids c m → owner id = m.
Definition load_owned : Prop := ∀ m natives n,
  load m = Ok natives → n ∈ natives → MarketOf n = Some m → owner (mi_ID (project n)) = m.

Hypothesis Hload : load_owned.

Lemma collect_owner m natives id :
  load m = Ok natives → is_Some ((collect m natives).2 !! id) → owner id = m.
Proof.
  intros Hl [i Hi]. destruct (co_sound _ _ _ (collect_collected m natives) id i Hi)
    as (n & Hn & Hm & -> & ->). by eapply Hload.
Qed.

Lemma complete_load_owned c m : catalog_owned c → catalog_owned (complete_load c m (load m)).
Proof.
  intros Hc m' id. destruct (load m) as [natives|text] eqn:Hl; [|apply Hc].
  cbn [complete_load]. rewrite market_ids_publish. case_decide as Hm; [|apply Hc].
  subst m'. rewrite sort_slice_elem_of, (co_dom _ _ _ (collect_collected m natives)).
  by apply collect_owner.
Qed.

Lemma complete_load_ok c m : catalog_owned c → catalog_ok c → catalog_ok (complete_load c m (load m)).
Proof.
  intros Hown Hok. destruct (load m) as [natives|text] eqn:Hl; cbn [complete_load].
  - apply publish_ok; [done|]. intros n Hn Hm m' Hne Hin. apply Hne.
    by rewrite <- (Hown m' _ Hin), <- (Hload m natives n).
  - by destruct Hok.
Qed.

(** Completions of two markets commute. *)
Lemma complete_load_comm c m1 m2 :
  m1 ≠ m2 → catalog_owned c →
  complete_load (complete_load c m1 (load m1)) m2 (load m2) =
  complete_load (complete_load c m2 (load m2)) m1 (load m1).
Proof.
  intros Hne Hc.
  assert (Hm : ∀ a b l, a ≠ b → market_ids (publish c a l) b = market_ids c b).
  { intros a b l Hab. by rewrite market_ids_publish, decide_False. }
  assert (Hm' : ∀ a b l, a ≠ b → ct_byMarket (publish c a l) !! b = ct_byMarket c !! b).
  { intros a b l Hab. unfold publish. destruct (collect a l). simpl. by rewrite lookup_insert_ne. }
  destruct (load m1) as [l1|t1] eqn:E1, (load m2) as [l2|t2] eqn:E2; cbn [complete_load].
  - assert (Hi : ct_instruments (publish (publish c m1 l1) m2 l2) =
                 ct_instruments (publish (publish c m2 l2) m1 l1)).
    { apply map_eq. intros id. rewrite !lookup_publish, !Hm by done.
      pose proof (collect_owner m1 l1 id E1) as O1. pose proof (collect_owner m2 l2 id E2) as O2.
      destruct ((collect m1 l1).2 !! id) as [i1|], ((collect m2 l2).2 !! id) as [i2|];
        try specialize (O1 (mk_is_Some _ _ eq_refl)); try specialize (O2 (mk_is_Some _ _ eq_refl));
        repeat case_decide;
        repeat match goal with Hx : id ∈ market_ids c _ |- _ => apply Hc in Hx end; congruence. }
    revert Hi. unfold publish. destruct (collect m1 l1), (collect m2 l2); simpl. intros ->.
    f_equal; [by apply insert_insert_ne|by apply delete_delete].
  - unfold publish. destruct (collect m1 l1). simpl. f_equal. symmetry. by apply delete_insert_ne.
  - unfold publish. destruct (collect m2 l2). simpl. f_equal. by apply delete_insert_ne.
  - unfold complete_load. simpl. f_equal. by apply insert_insert_ne.
Qed.

Lemma complete_load_connectors c m o : ct_connectors (complete_load c m o) = ct_connectors c.
Proof. destruct o; simpl; [|done]. unfold publish. by destruct (collect m a). Qed.

(** One step of the refresh fold. *)
Definition refresh_step c m : Catalog D :=
  if decide (m ∈ ct_connectors c) then complete_load c m (load m) else c.

Lemma refresh_step_connectors c m : ct_connectors (refresh_step c m) = ct_connectors c.
Proof. unfold refresh_step. case_decide; [apply complete_load_connectors|done]. Qed.

Lemma refresh_step_owned c m : catalog_owned c → catalog_owned (refresh_step c m).
Proof. unfold refresh_step. case_decide; [apply complete_load_owned|done]. Qed.

Lemma refresh_step_comm c m1 m2 :
  m1 ≠ m2 → catalog_owned c →
  refresh_step (refresh_step c m1) m2 = refresh_step (refresh_step c m2) m1.
Proof.
  intros Hne Hc. pose proof (complete_load_comm c m1 m2 Hne Hc) as Hcomm.
  unfold refresh_step.
  destruct (decide (m1 ∈ ct_connectors c)) as [H1|H1], (decide (m2 ∈ ct_connectors c)) as [H2|H2];
    rewrite ?complete_load_connectors, ?(decide_True _ _ H1), ?(decide_True _ _ H2),
      ?(decide_False _ _ H1), ?(decide_False _ _ H2); done.
Qed.

Lemma refreshMarkets_steps c ms : refreshMarkets c load ms = foldl refresh_step c ms.
Proof. done. Qed.

Lemma refreshMarkets_inv (P : Catalog D → Prop) c ms :
  (∀ c m, P c → P (refresh_step c m)) → P c → P (refreshMarkets c load ms).
Proof.
  intros HP. rewrite refreshMarkets_steps. revert c.
  induction ms as [|m ms IH]; intros c Hc; simpl; auto.
Qed.

Lemma refreshMarkets_perm c ms ms' :
  ms ≡ₚ ms' → NoDup ms → catalog_owned c → refreshMarkets c load ms = refreshMarkets c load ms'.
Proof.
  rewrite !refreshMarkets_steps. intros Hp. revert c.
  induction Hp as [|m ms ms' Hp IH|a b ms|ms1 ms2 ms3 Hp1 IH1 Hp2 IH2]; intros c Hnd Hc; simpl.
  - done.
  - apply NoDup_cons in Hnd as [_ Hnd]. apply IH; [done|]. by apply refresh_step_owned.
  - apply NoDup_cons in Hnd as [Hab _]. rewrite refresh_step_comm; [done| |done].
    intros ->. apply Hab. by left.
  - rewrite IH1 by done. apply IH2; [|done]. by rewrite <- Hp1.
Qed.

(** Loading one market leaves every other market as it was. *)
Lemma refresh_step_frame c m m' :
  m ≠ m' → catalog_owned c →
  market_ids (refresh_step c m) m' = market_ids c m' ∧
  (∀ id, id ∈ market_ids c m' → ct_instruments (refresh_step c m) !! id = ct_instruments c !! id).
Proof.
  intros Hne Hc. unfold refresh_step. case_decide; [|done].
  destruct (load m) as [l|t] eqn:E; [|done]. cbn [complete_load].
  rewrite market_ids_publish, decide_False by done. split; [done|].
  intros id Hid. rewrite lookup_publish.
  destruct ((collect m l).2 !! id) as [i|] eqn:Hi.
  - destruct Hne. rewrite <- (collect_owner m l id E) by (rewrite Hi; by eexists). by apply Hc.
  - rewrite decide_False; [done|]. intros Hx. destruct Hne.
    by rewrite <- (Hc m' id Hid), <- (Hc m id Hx).
Qed.

Lemma refreshMarkets_frame c ms m :
  m ∉ ms → catalog_owned c →
  market_ids (refreshMarkets c load ms) m = market_ids c m ∧
  (∀ id, id ∈ market_ids c m →
         ct_instruments (refreshMarkets c load ms) !! id = ct_instruments c !! id).
Proof.
  rewrite refreshMarkets_steps. revert c. induction ms as [|a ms IH]; intros c Hm Hc; simpl; [done|].
  apply not_elem_of_cons in Hm as [Ha Hm].
  destruct (refresh_step_frame c a m (not_eq_sym Ha) Hc) as [Hids Hinst].
  destruct (IH (refresh_step c a) Hm (refresh_step_owned _ _ Hc)) as [Hids' Hinst'].
  rewrite Hids in Hids', Hinst'. split; [done|].
  intros id Hid. rewrite Hinst' by done. by apply Hinst.
Qed.

(** Concurrent loads of a refresh may complete in any order: the
    resulting catalog is the same. *)
Theorem Refresh_order_independent c ms :
  ms ≡ₚ elements (ct_connectors c) → catalog_owned c →
  refreshMarkets c load ms = Refresh c load.
Proof.
  intros Hp Hc. apply refreshMarkets_perm; [done| |done].
  rewrite Hp. apply NoDup_elements.
Qed.

Lemma complete_load_refreshed c m ms :
  catalog_owned c → NoDup ms → m ∈ ms → m ∈ ct_connectors c →
  ∃ rest, m ∉ rest ∧
    refreshMarkets c load ms = complete_load (refreshMarkets c load rest) m (load m).
Proof.
  intros Hc Hnd Hm Hcon.
  apply elem_of_Permutation in Hm as [rest Hp].
  assert (Hp' : ms ≡ₚ rest ++ [m]) by (rewrite Hp; apply Permutation_cons_append).
  assert (Hnd' : NoDup (rest ++ [m])) by (by rewrite <- Hp').
  exists rest. split.
  - rewrite Hp in Hnd. by apply NoDup_cons in Hnd as [? _].
  - rewrite (refreshMarkets_perm c ms (rest ++ [m]) Hp' Hnd Hc).
    rewrite !refreshMarkets_steps, foldl_app. simpl. unfold refresh_step at 1.
    rewrite decide_True; [done|].
    assert (Hk : ∀ l c, ct_connectors (foldl refresh_step c l) = ct_connectors c).
    { induction l as [|x l IH]; intros c'; simpl; [done|]. by rewrite IH, refresh_step_connectors. }
    by rewrite Hk.
Qed.

(** What one refresh does to a market [m] it loads. *)
Definition refreshed c c' m : Prop :=
  match load m with
  | Err text =>
      MarketInstruments c' m = MarketInstruments c m ∧ ct_loadErrors c' !! m = Some text
  | Ok natives =>
      ct_loadErrors c' !! m = None ∧
      (∀ n, n ∈ natives → MarketOf n = Some m →
         ∃ n', n' ∈ natives ∧ mi_ID (project n') = mi_ID (project n) ∧
               Get c' (mi_ID (project n)) = Ok (project n')) ∧
      (∀ i, i ∈ MarketInstruments c' m → ∃ n, n ∈ natives ∧ MarketOf n = Some m ∧ i = project n)
  end.

(** A refresh replaces a market's instruments by what its venue
    returned and clears its error; a market whose load failed keeps its
    last good instruments and records the error; the directory stays
    consistent. *)
Theorem Refresh_replaces_or_keeps c ms m :
  catalog_ok c → catalog_owned c → NoDup ms → m ∈ ms → m ∈ ct_connectors c →
  catalog_ok (refreshMarkets c load ms) ∧ refreshed c (refreshMarkets c load ms) m.
Proof.
  intros Hok Hown Hnd Hm Hcon.
  assert (Hinv : catalog_ok (refreshMarkets c load ms) ∧ catalog_owned (refreshMarkets c load ms)).
  { apply (refreshMarkets_inv (λ c, catalog_ok c ∧ catalog_owned c)); [|done].
    intros c' m' [Hok' Hown']. split; [|by apply refresh_step_owned].
    unfold refresh_step. case_decide; [by apply complete_load_ok|done]. }
  split; [by destruct Hinv|].
  destruct (complete_load_refreshed c m ms Hown Hnd Hm Hcon) as (rest & Hrest & Heq).
  destruct (refreshMarkets_frame c rest m Hrest Hown) as [Hids Hinst].
  rewrite Heq in Hinv |- *. unfold refreshed.
  destruct (load m) as [natives|text] eqn:El; cbn [complete_load] in *.
  - destruct Hinv as [Hok' _]. destruct (collect_collected m natives) as [_ Hdom Hs Hc].
    split; [|split].
    + unfold publish. destruct (collect m natives). simpl. apply lookup_delete_eq.
    + intros n Hn Hnm. destruct (proj1 (Hdom _) (Hc n Hn Hnm)) as [i Hi].
      destruct (Hs _ _ Hi) as (n' & ? & ? & -> & Hid). exists n'.
      unfold Get. by rewrite lookup_publish, Hi.
    + intros i (id & -> & Hid)%list_elem_of_fmap. unfold read_instrument.
      rewrite market_ids_publish, decide_True, sort_slice_elem_of in Hid by done.
      apply Hdom in Hid as [i Hi]. rewrite lookup_publish, Hi. simpl.
      destruct (Hs _ _ Hi) as (n & ? & ? & -> & _). by exists n.
  - split; [|apply lookup_insert_eq].
    unfold MarketInstruments, read_instrument. cbn [ct_instruments].
    change (market_ids _ m) with (market_ids (refreshMarkets c load rest) m) at 1. rewrite Hids.
    apply map_ext_in. intros id Hid%list_elem_of_In. by rewrite Hinst.
Qed.
End owners.

(** Resolving a venue-native symbol or id returns an instrument of that
    market that the directory also resolves by id and that carries the
    native name; it fails only if no instrument of the market does. *)
Theorem ResolveNative_correct c m nativeSymbol nativeID :
  catalog_ok c →
  match ResolveNative c m nativeSymbol nativeID with
  | Some i => MarketOf (mi_native i) = Some m ∧ Get c (mi_ID i) = Ok i ∧
              native_matches nativeSymbol nativeID i = true
  | None => ∀ i, i ∈ MarketInstruments c m → native_matches nativeSymbol nativeID i = false
  end.
Proof.
  intros Hok. unfold ResolveNative. destruct (List.find _ _) as [i|] eqn:E.
  - apply List.find_some in E as [Hin Hmatch].
    apply list_elem_of_In, list_elem_of_fmap in Hin as (id & -> & Hid).
    destruct (ok_listed c Hok m id Hid) as (i & Hi & Hii & Hm).
    unfold read_instrument, Get in *. rewrite Hi in *. simpl in *. subst id. by rewrite Hi.
  - intros i Hi%list_elem_of_In. by eapply List.find_none in E.
Qed.

Lemma empty_catalog_ok : catalog_ok NewCatalog.
Proof.
  split; intros m *; unfold market_ids; simpl; rewrite lookup_empty; simpl; [constructor|by intros ?%elem_of_nil|done].
Qed.
End catalog.

(** ** Concrete inputs *)

Definition binance_perp : Market := mkMarket VenueBinance ProductPerp "USDT".
Definition sample_natives : list (Instrument Z) :=
  [sample_perp VenueBinance "ETH" "USDT"; sample_perp VenueBinance "BTC" "USDT";
   sample_perp VenueOKX "BTC" "USDT"; sample_perp VenueBinance "ETH" "USDT"].
(** Only Binance answers. *)
Definition sample_load (m : Market) : result string (list (Instrument Z)) :=
  if decide (m = binance_perp) then Ok sample_natives else Err "timeout".

Lemma sample_load_owned : load_owned (λ _, binance_perp) sample_load.
Proof. intros m natives n. unfold sample_load. case_decide; [by subst|done]. Qed.

Lemma empty_catalog_owned : catalog_owned (λ _, binance_perp) (NewCatalog (D:=Z)).
Proof. intros m id. unfold market_ids. simpl. rewrite lookup_empty. by intros ?%elem_of_nil. Qed.

Lemma Refresh_order_independent_witness :
  refreshMarkets NewCatalog sample_load (reverse (elements (ct_connectors (NewCatalog (D:=Z))))) =
  Refresh NewCatalog sample_load.
Proof.
  apply (Refresh_order_independent (λ _, binance_perp) sample_load sample_load_owned).
  - apply reverse_Permutation.
  - apply empty_catalog_owned.
Defined.

Lemma Refresh_replaces_or_keeps_witness :
  let c := refreshMarkets NewCatalog sample_load Markets in
  catalog_ok c ∧ refreshed sample_load NewCatalog c binance_perp.
Proof.
  apply (Refresh_replaces_or_keeps (λ _, binance_perp) sample_load sample_load_owned).
  - apply empty_catalog_ok.
  - apply empty_catalog_owned.
  - apply Markets_NoDup.
  - unfold Markets. left.
  - apply elem_of_list_to_set. left.
Defined.

Definition sample_catalog : Catalog Z := publish NewCatalog binance_perp sample_natives.

Lemma sample_catalog_ok : catalog_ok sample_catalog.
Proof.
  apply publish_ok; [apply empty_catalog_ok|].
  intros n _ _ m' _. unfold market_ids. simpl. rewrite lookup_empty. apply not_elem_of_nil.
Qed.

Lemma ResolveNative_correct_witness :
  option_map mi_ID (ResolveNative sample_catalog binance_perp "BTCUSDT" "") = Some "binance:perp:BTC-USDT" ∧
  match ResolveNative sample_catalog binance_perp "BTCUSDT" "" with
  | Some i => MarketOf (mi_native i) = Some binance_perp ∧ Get sample_catalog (mi_ID i) = Ok i ∧
              native_matches "BTCUSDT" "" i = true
  | None => ∀ i, i ∈ MarketInstruments sample_catalog binance_perp → native_matches "BTCUSDT" "" i = false
  end.
Proof.
  split; [vm_compute; reflexivity|].
  apply ResolveNative_correct. apply sample_catalog_ok.
Defined.
