(* ===== verification/HttpErrors.v ===== *)
(** * Errors at the adapter boundary

    [exchange/internal/factoryclient/http_errors.go] and [venue_message.go]:
    how a native transport or venue error becomes a normalized one, and when
    an order command's outcome is declared ambiguous.
    [internal/venuehttp/http.go]: [WithHTTPResponse], [RetryAfter],
    [responseCode] and [CheckHTTPStatus]. *)

From Stdlib Require Import Ascii String ZArith Lia.
From stdpp Require Import base list strings gmap.
From S2P Require Import Prelude GoStrings Decimals Errors Model.

#[local] Open Scope string_scope.
#[local] Open Scope list_scope.
#[local] Open Scope Z_scope.

(** ** Venue rejection text *)

Definition maxVenueMessage : nat := 240.
Definition ellipsis : string := String (byte 226) (String (byte 128) (String (byte 166) "")).

Definition cleanVenueMessage (message : string) : string :=
  let mapped := map (λ r, if rune_is_control r then " " else r) (runes message) in
  let message := Join " " (Fields mapped) in
  if (maxVenueMessage <? String.length message)%nat
  then TrimSpace (String.substring 0 maxVenueMessage message) +:+ ellipsis
  else message.

(** The order [venueMessage] asks for typed venue errors in. *)
Definition message_sources : list venue_api :=
  [BinancePerpAPI; BinanceSpotAPI; OKXAPI; BybitResponse; BitgetResponse; GateAPI;
   HyperliquidRejected; HyperliquidAPI; HyperliquidAPIPointer; LighterAPI; NadoApplication; AsterVenue].

Definition venueMessage (err : option error) : string :=
  match err with
  | None => ""
  | Some _ =>
      let candidates := flat_map (λ api, default [] (errors_as (as_api api) err)) message_sources in
      default "" (first_some (λ c, let cleaned := cleanVenueMessage c in
                                   if is_empty cleaned then None else Some cleaned) candidates)
  end.

Definition definitive (kind : ErrorKind) : bool :=
  match kind with
  | KindVenueRejected | KindInvalidRequest | KindPermission | KindAuthentication | KindNotFound => true
  | _ => false
  end.

(** Statuses a proxy or an overloaded server may answer with. *)
Definition inconclusive_status (status : Z) : bool :=
  (500 <=? status) || (status =? 429) || (status =? 418) || (status =? 408).

Section ack.
Context {D : Type}.
Implicit Types (ack : OrderAcknowledgement D).

Definition set_ack_message ack (message : string) : OrderAcknowledgement D :=
  mkAck (ack_Venue ack) (ack_Product ack) (ack_Operation ack) (ack_State ack)
    (ack_NativeSymbol ack) (ack_NativeID ack) (ack_OrderType ack) (ack_OrderID ack)
    (ack_ClientOrderID ack) (ack_TransactionHash ack) (ack_FilledQuantity ack)
    (ack_AverageFillPrice ack) (ack_VenueCode ack) message.
Definition set_ack_state ack (state : string) : OrderAcknowledgement D :=
  mkAck (ack_Venue ack) (ack_Product ack) (ack_Operation ack) state
    (ack_NativeSymbol ack) (ack_NativeID ack) (ack_OrderType ack) (ack_OrderID ack)
    (ack_ClientOrderID ack) (ack_TransactionHash ack) (ack_FilledQuantity ack)
    (ack_AverageFillPrice ack) (ack_VenueCode ack) (ack_VenueMessage ack).

Definition set_venue_message (d : ErrorDetails) (message : string) : ErrorDetails :=
  mkDetails (det_Venue d) (det_Product d) (det_Operation d) (det_Code d) (det_SafeMessage d)
    (det_RetryAfter d) (det_HTTPStatus d) message (det_CommandNotSent d).

(** [withVenueMessage]: the mapped error and the acknowledgement the pointer
    designates, if any, after the call. *)
Definition withVenueMessage (mapped : option error) (ack : option (OrderAcknowledgement D))
    (original : option error) : option error * option (OrderAcknowledgement D) :=
  let message := venueMessage original in
  if is_empty message then (mapped, ack) else
  match errors_as as_exchange mapped with
  | None => (mapped, ack)
  | Some (kind, details) =>
      if negb (definitive kind) then (mapped, ack)
      else if inconclusive_status (det_HTTPStatus details) then (mapped, ack)
      else
        let ack' :=
          match ack with
          | Some a => if String.eqb (ack_State a) AckRejected then Some (set_ack_message a message) else ack
          | None => None
          end in
        (Some (NewError kind (set_venue_message details message)), ack')
  end.

(** ** Normalization *)

Definition malformed_original (original : option error) : bool :=
  errors_is (TSentinel HTTPMalformedResponse) original || is_present (errors_as as_json original).

(** [strings.ToLower(strings.ReplaceAll(operation, "_", ""))] *)
Fixpoint without_byte (c : ascii) (s : string) : string :=
  match s with
  | EmptyString => ""
  | String b s' => if Ascii.eqb b c then without_byte c s' else String b (without_byte c s')
  end.
Definition command_not_sent (action operation : string) : bool :=
  let op := ToLower (without_byte "_" operation) in
  (String.eqb action "place" && one_of op ["place"; "placeorder"]) ||
  (String.eqb action "cancel" && one_of op ["cancel"; "cancelorder"]).

Definition unless_ambiguous (kind replacement : ErrorKind) : ErrorKind :=
  if decide (kind = KindAmbiguousOutcome) then kind else replacement.

(** Each [if] of [normalizeHTTPError] in turn, on the pair it updates. *)
Definition malformed_pass (original : option error) (kd : ErrorKind * ErrorDetails) :=
  let '(kind, d) := kd in
  if malformed_original original then
    (unless_ambiguous kind KindMalformedResponse,
     mkDetails (det_Venue d) (det_Product d) (det_Operation d) (det_Code d) "malformed venue response"
       (det_RetryAfter d) (det_HTTPStatus d) (det_VenueMessage d) (det_CommandNotSent d))
  else kd.

Definition http_pass (original : option error) (kd : ErrorKind * ErrorDetails) :=
  let '(kind, d) := kd in
  match errors_as as_http original with
  | None => kd
  | Some h =>
      let status := he_StatusCode h in
      let update kind message :=
        (kind, mkDetails (det_Venue d) (det_Product d) (det_Operation d)
           (if is_empty (det_Code d) then he_Code h else det_Code d) message
           (Z.max (det_RetryAfter d) (he_RetryAfter h)) status (det_VenueMessage d) (det_CommandNotSent d)) in
      if server_failure status then
        update (unless_ambiguous kind KindTransport) "venue server or timeout response"
      else if (status =? 429) || (status =? 418) then
        update (unless_ambiguous kind KindRateLimit) "venue rate limit"
      else update kind (det_SafeMessage d)
  end.

Definition rate_limit_pass (original : option error) (kd : ErrorKind * ErrorDetails) :=
  let '(kind, d) := kd in
  if errors_is (TSentinel ErrRateLimited) original &&
     negb (bool_decide (kind = KindAmbiguousOutcome)) && (det_HTTPStatus d <? 500) then
    (KindRateLimit,
     mkDetails (det_Venue d) (det_Product d) (det_Operation d) (det_Code d) "request rate limited"
       (det_RetryAfter d) (det_HTTPStatus d) (det_VenueMessage d) (det_CommandNotSent d))
  else kd.

Definition local_pass (operation : string) (original : option error) (kd : ErrorKind * ErrorDetails) :=
  let '(kind, d) := kd in
  match errors_as as_local original with
  | None => kd
  | Some (retry_after, action) =>
      (KindRateLimit,
       mkDetails (det_Venue d) (det_Product d) (det_Operation d) "LOCAL_RATE_LIMIT"
         "HTTP request was not sent: local budget exhausted" retry_after
         (det_HTTPStatus d) (det_VenueMessage d) (command_not_sent action operation))
  end.

Definition normalizeHTTPError (mapped original : option error) (venue product operation : string)
  : option error :=
  match mapped with
  | None => None
  | Some _ =>
      match errors_as as_exchange mapped with
      | None => mapped
      | Some kd =>
          let '(kind, d) :=
            local_pass operation original
              (rate_limit_pass original (http_pass original (malformed_pass original kd))) in
          let d := mkDetails venue product operation (det_Code d) (det_SafeMessage d) (det_RetryAfter d)
                     (det_HTTPStatus d) (det_VenueMessage d) (det_CommandNotSent d) in
          (withVenueMessage (Some (NewError kind d)) None original).1
      end
  end.

Definition unknown_outcome : string := "order command outcome is unknown after possible send".

Definition normalizeHTTPCommand ack (mapped original : option error) (venue product operation : string)
  : OrderAcknowledgement D * option error :=
  let '(ack, mapped) :=
    match errors_as as_http original with
    | Some h =>
        if server_failure (he_StatusCode h) || (he_StatusCode h =? 429) || (he_StatusCode h =? 418) then
          (set_ack_message (set_ack_state ack AckAmbiguous) unknown_outcome,
           Some (NewError KindAmbiguousOutcome
             (mkDetails venue product operation (ack_VenueCode ack) unknown_outcome 0 0 "" false)))
        else (ack, mapped)
    | None => (ack, mapped)
    end in
  let mapped := normalizeHTTPError mapped original venue product operation in
  let '(mapped, ack') := withVenueMessage mapped (Some ack) original in
  (default ack ack', mapped).
End ack.

(** ** HTTP responses *)

(** [RetryAfter]: the header value, and [http.ParseTime] as a parameter. *)
Definition RetryAfter (ParseTime : string → option time) (value : string) (now : time) : duration :=
  let value := TrimSpace value in
  match ParseInt value with
  | Some seconds =>
      if seconds <=? 0 then 0
      else if int64_max / Second <? seconds then int64_max
      else seconds * Second
  | None =>
      match ParseTime value with
      | Some until => if After until now then Sub until now else 0
      | None => 0
      end
  end.

(** What [WithHTTPResponse] and [CheckHTTPStatus] read of a response. *)
Record Response := mkResponse {
  rs_StatusCode : Z; rs_Method : string; rs_Path : string; rs_RetryAfter : string;
}.

Definition WithHTTPResponse (ParseTime : string → option time) (now : time)
    (err : option error) (response : option Response) : option error :=
  match err, response with
  | Some e, Some r =>
      match errors_as as_http err with
      | Some _ => err
      | None => Some (EHTTP (mkHTTPError (rs_StatusCode r) (rs_Method r) (rs_Path r) ""
                              (RetryAfter ParseTime (rs_RetryAfter r) now)) e)
      end
  | _, _ => err
  end.

(** The body's top-level JSON members: a string member by its value, any other
    by its raw text; a [null] member leaves Go's zero value. *)
Inductive raw_member := RawString (value : string) | RawNull | RawOther (text : string).

Definition member_code (m : raw_member) : string :=
  match m with RawString v => v | RawNull => "" | RawOther t => t end.
Definition code_byte (c : ascii) : bool :=
  is_digit c || is_upper c || is_lower c || Ascii.eqb c "_" || Ascii.eqb c "-".

Definition responseCode (fields : option (gmap string raw_member)) : string :=
  match fields with
  | None => ""
  | Some fields =>
      default "" (first_some (λ key,
        m ← fields !! key;
        let value := member_code m in
        if is_empty value || (64 <? String.length value)%nat || String.eqb value "0" then None
        else if string_forallb code_byte value then Some value else None)
        ["retCode"; "code"; "error_code"; "label"])
  end.

Definition CheckHTTPStatus (ParseTime : string → option time) (now : time) (response : Response)
    (fields : option (gmap string raw_member)) : option error :=
  if rs_StatusCode response <? 400 then None
  else Some (EHTTP (mkHTTPError (rs_StatusCode response) (rs_Method response) (rs_Path response)
                     (responseCode fields) (RetryAfter ParseTime (rs_RetryAfter response) now))
               (EText "venue HTTP request failed")).

(** [DoHTTP]: one call of the client, whose transport failures are wrapped. *)
Definition DoHTTP (outcome : result error Response) : result error Response :=
  match outcome with
  | Ok r => Ok r
  | Err e => Err (EWrap "venue HTTP transport failure" [e])
  end.

(** ** Properties *)

Lemma withVenueMessage_indefinite {D} kind d (ack : option (OrderAcknowledgement D)) original :
  definitive kind = false →
  withVenueMessage (Some (NewError kind d)) ack original = (Some (NewError kind d), ack).
Proof. intros Hk. unfold withVenueMessage. simpl. rewrite Hk. simpl. by destruct (is_empty _). Qed.

(** Statuses after which a command may have been executed. *)
Definition may_have_executed (status : Z) : bool :=
  server_failure status || (status =? 429) || (status =? 418).

Lemma unless_ambiguous_same k : unless_ambiguous KindAmbiguousOutcome k = KindAmbiguousOutcome.
Proof. done. Qed.

Lemma rate_limit_pass_ambiguous original d :
  rate_limit_pass original (KindAmbiguousOutcome, d) = (KindAmbiguousOutcome, d).
Proof. unfold rate_limit_pass. simpl. by rewrite andb_false_r. Qed.

(** Passes before the local one keep an ambiguous outcome ambiguous. *)
Lemma ambiguous_preserved original d :
  ∃ d', rate_limit_pass original (http_pass original (malformed_pass original (KindAmbiguousOutcome, d))) =
          (KindAmbiguousOutcome, d') ∧
        det_CommandNotSent d' = det_CommandNotSent d ∧
        det_HTTPStatus d' = match errors_as as_http original with
                            | Some h => he_StatusCode h | None => det_HTTPStatus d end.
Proof.
  unfold malformed_pass, http_pass.
  destruct (malformed_original original), (errors_as as_http original) as [h|];
    cbv zeta; rewrite ?unless_ambiguous_same;
    repeat match goal with |- context [if ?b then (KindAmbiguousOutcome, _) else _] => destruct b end;
    rewrite rate_limit_pass_ambiguous; eauto.
Qed.

(** After a server failure, timeout or rate-limit answer the command is
    ambiguous: the acknowledgement and the error say so whatever the response
    body claimed. *)
Lemma normalizeHTTPCommand_ambiguous {D} (ack : OrderAcknowledgement D) mapped original h venue product operation :
  errors_as as_http original = Some h → may_have_executed (he_StatusCode h) = true →
  errors_as as_local original = None →
  ∃ d, (normalizeHTTPCommand ack mapped original venue product operation).2 =
         Some (NewError KindAmbiguousOutcome d) ∧
       det_CommandNotSent d = false ∧ det_HTTPStatus d = he_StatusCode h ∧
       ack_State (normalizeHTTPCommand ack mapped original venue product operation).1 = AckAmbiguous.
Proof.
  intros Hh Hs Hl. unfold normalizeHTTPCommand, normalizeHTTPError. rewrite Hh.
  unfold may_have_executed in Hs. rewrite Hs. simpl errors_as. cbv beta iota zeta.
  match goal with |- context [malformed_pass original (_, ?d)] =>
    destruct (ambiguous_preserved original d) as (d' & -> & Hn & Hst) end.
  unfold local_pass. rewrite Hl, Hh in *. cbv iota.
  rewrite withVenueMessage_indefinite by done. cbn [fst].
  rewrite withVenueMessage_indefinite by done. cbn [fst snd default].
  eexists. split; [done|]. by repeat split.
Qed.

(** A request the local budget refused was not sent: a placement (or
    cancellation) refused that way is proven not to have happened. *)
Lemma normalizeHTTPError_local {D} kind d original retry action venue product operation :
  errors_as as_local original = Some (retry, action) →
  ∃ d', normalizeHTTPError (D:=D) (Some (NewError kind d)) original venue product operation =
          Some (NewError KindRateLimit d') ∧
        det_CommandNotSent d' = command_not_sent action operation ∧ det_Code d' = "LOCAL_RATE_LIMIT".
Proof.
  intros Hl. unfold normalizeHTTPError. simpl errors_as. unfold local_pass.
  change (errors_as as_exchange (Some (NewError kind d))) with (Some (kind, d)).
  destruct (rate_limit_pass _ _) as [k' d0]. rewrite Hl.
  rewrite withVenueMessage_indefinite by done. eexists. by repeat split.
Qed.

(** Venue rejection text shown to callers is bounded: 240 bytes and an
    ellipsis. *)
Theorem cleanVenueMessage_bounded message :
  (String.length (cleanVenueMessage message) ≤ maxVenueMessage + 3)%nat.
Proof.
  unfold cleanVenueMessage. split_guard; [|apply Nat.ltb_ge in Heqb; lia].
  rewrite string_length_app. pose proof (TrimSpace_length (String.substring 0 maxVenueMessage
    (Join " " (Fields (map (λ r, if rune_is_control r then " " else r) (runes message)))))) as H1.
  pose proof (substring_length maxVenueMessage
    (Join " " (Fields (map (λ r, if rune_is_control r then " " else r) (runes message))))) as H2.
  change (String.length ellipsis) with 3%nat. lia.
Qed.

(** [RetryAfter] never overflows and is never negative: every header value
    and clock give a duration of 0 or more that fits 64 bits. *)
Theorem RetryAfter_bounded ParseTime value now :
  0 ≤ RetryAfter ParseTime value now ≤ int64_max.
Proof.
  unfold RetryAfter, int64_max, Second.
  destruct (ParseInt _) as [seconds|].
  - repeat split_guard; breflect; [lia|lia|].
    pose proof (Z.mul_div_le (2 ^ 63 - 1) 1000000000 ltac:(lia)). lia.
  - destruct (ParseTime _) as [until|]; [|lia]. unfold After, Sub, int64_min, int64_max.
    split_guard; breflect; lia.
Qed.
