(* ===== verification/Orders.v ===== *)
(** * Orders at the gateway

    [gateway/account/model.go]: the public projections of venue data.
    [gateway/account/orders.go]: translation of a public order request
    ([native]) and the three-valued outcome of a placement ([classify]). *)

From Stdlib Require Import Ascii String ZArith Lia QArith Qcanon.
From stdpp Require Import base list strings gmap.
From S2P Require Import Prelude GoStrings Decimals Errors Model Venue MarketCatalog HttpErrors.

#[local] Open Scope string_scope.
#[local] Open Scope list_scope.
#[local] Open Scope Z_scope.
#[local] Open Scope go_scope.

(** ** Public data *)

(** [account.Position] *)
Record GPosition := mkGPosition {
  gp_Instrument : string; gp_Side : string; gp_Size : string; gp_EntryPrice : string;
  gp_MarkPrice : string; gp_UnrealizedPnL : string; gp_LiquidationPrice : string;
  gp_Leverage : string; gp_Margin : string; gp_slot : string;
}.
(** [account.Balance] *)
Record GBalance := mkGBalance {
  gb_Market : string; gb_Asset : string; gb_Total : string; gb_Available : string; gb_Locked : string;
}.
(** [account.Order] *)
Record GOrder := mkGOrder {
  go_Instrument : string; go_OrderID : string; go_ClientOrderID : string; go_Side : string;
  go_Type : string; go_Price : string; go_Quantity : string; go_Filled : string; go_AvgPrice : string;
  go_TimeInForce : string; go_ReduceOnly : bool; go_Status : string; go_CreatedAt : Z; go_UpdatedAt : Z;
}.
(** [account.Fill] *)
Record GFill := mkGFill {
  gf_Instrument : string; gf_FillID : string; gf_OrderID : string; gf_ClientOrderID : string;
  gf_Side : string; gf_Price : string; gf_Quantity : string; gf_Fee : string; gf_FeeAsset : string;
  gf_Liquidity : string; gf_Time : Z;
}.

Record PlaceRequest := mkPlaceRequest {
  pq_Instrument : string; pq_Side : string; pq_Type : string; pq_Quantity : string; pq_Price : string;
  pq_TimeInForce : string; pq_ReduceOnly : bool; pq_ClientOrderID : string;
}.
Definition OutcomeAccepted := "accepted".
Definition OutcomeRejected := "rejected".
Definition OutcomeUnknown := "unknown".
Record PlaceResult := mkPlaceResult {
  pl_Status : string; pl_Order : option GOrder; pl_Category : option Category;
  pl_VenueCode : string; pl_VenueMessage : string; pl_Message : string;
}.

(** ** Status words *)

Definition normalize_byte (c : ascii) : ascii :=
  if is_upper c then ascii_of_N (Z.to_N (code c + code "a" - code "A"))
  else if Ascii.eqb c "-" || Ascii.eqb c " " then "_" else c.
Definition normalizeWord (value : string) : string := string_map normalize_byte value.

(** The loop over [value[i:i+len(fragment)]] for [i] from 0. *)
Fixpoint containsWord_from (fuel i : nat) (value fragment : string) : bool :=
  match fuel with
  | O => false
  | S fuel' =>
      if (i + String.length fragment <=? String.length value)%nat
      then if String.eqb (String.substring i (String.length fragment) value) fragment then true
           else containsWord_from fuel' (S i) value fragment
      else false
  end.
Definition containsWord (value fragment : string) : bool :=
  containsWord_from (S (String.length value)) 0 value fragment.

Definition NormalizeStatus (raw : string) : string :=
  let status := normalizeWord raw in
  if one_of status ["new"; "live"; "open"; "resting"; "untriggered"; "created"] then "open"
  else if one_of status ["partially_filled"; "partiallyfilled"; "partial"; "partially_filled_canceled"] then
    if String.eqb status "partially_filled_canceled" then "canceled" else "partially_filled"
  else if one_of status ["filled"; "closed"; "finished"] then "filled"
  else if one_of status ["rejected"; "failed"] then "rejected"
  else if one_of status ["accepted"; "accepted_pending"; "pending"; "in_progress"; "pending_new"] then "pending"
  else if containsWord status "cancel" || String.eqb status "expired" then "canceled"
  else if containsWord status "reject" then "rejected"
  else if is_empty status then "open"
  else status.

Definition tifFromPolicy (policy : string) : string :=
  if String.eqb policy LimitPolicyIOC then "ioc"
  else if String.eqb policy LimitPolicyPostOnly then "post_only"
  else if String.eqb policy LimitPolicyResting then "gtc"
  else "".

Definition unixMilli (t : time) : Z := if IsZero t then 0 else UnixMilli t.

Section orders.
Context `{Decimal D}.

(** ** Projections *)

Definition optional_positive (v : OptionalDecimal D) : string :=
  if od_Valid v && d_is_positive (od_Value v) then d_string (od_Value v) else "".
Definition positive_string (v : D) : string := if d_is_positive v then d_string v else "".

Definition position_side (position : Position D) : string :=
  if String.eqb (ps_PositionSlot position) PositionSlotShort then "short"
  else if String.eqb (ps_PositionSlot position) PositionSlotLong then "long"
  else if d_is_negative (ps_Quantity position) || String.eqb (ps_Side position) SideSell then "short"
  else "long".

Definition projectPosition (id : string) (position : Position D) : option GPosition :=
  if d_is_zero (ps_Quantity position) then None
  else Some (mkGPosition id (position_side position)
    (d_string (d_abs (ps_Quantity position))) (d_string (ps_EntryPrice position))
    (positive_string (ps_MarkPrice position)) (d_string (ps_UnrealizedPnL position))
    (optional_positive (ps_LiquidationPrice position)) (optional_positive (ps_Leverage position))
    (if od_Valid (ps_MarginUsed position) then d_string (od_Value (ps_MarginUsed position)) else "")
    (ps_PositionSlot position)).

Definition projectOrder (id : string) (order : Order D) : GOrder :=
  mkGOrder id (or_OrderID order) (or_ClientOrderID order) (or_Side order) (or_Type order)
    (positive_string (or_LimitPrice order)) (d_string (or_Quantity order)) (d_string (or_Filled order))
    (optional_positive (or_AverageFillPrice order)) (tifFromPolicy (or_LimitPolicy order))
    (or_ReduceOnly order) (NormalizeStatus (or_Status order))
    (unixMilli (or_CreatedAt order)) (unixMilli (or_UpdatedAt order)).

Definition projectFill (id : string) (fill : Fill D) : GFill :=
  mkGFill id (fi_FillID fill) (fi_OrderID fill) (fi_ClientOrderID fill) (fi_Side fill)
    (d_string (fi_Price fill)) (d_string (fi_Quantity fill)) (d_string (fi_Fee fill))
    (fi_FeeAsset fill) (fi_Liquidity fill) (unixMilli (fi_Time fill)).

(** ** [PlaceRequest.native] *)

Definition maxClientOrderID : Z := 2 ^ 48 - 1.

Definition account_invalid (text : string) : error :=
  EWrap ("invalid request: " +:+ text) [ESentinel AccountInvalidRequest].

Definition clientOrderID_ok (text : string) : bool :=
  match ParseUint text 64 with
  | None => false
  | Some id => negb ((id =? 0) || (maxClientOrderID <? id) || HasPrefix text "0")
  end.

(** [decimal.NewFromString] followed by the positivity test. *)
Definition positive_decimal (text : string) : option D :=
  v ← d_new_from_string text; if d_is_positive v then Some v else None.

Definition native_side (side : string) : option string :=
  if String.eqb side "buy" then Some SideBuy
  else if String.eqb side "sell" then Some SideSell else None.

Definition native_policy (tif : string) : option string :=
  if one_of tif [""; "gtc"] then Some LimitPolicyResting
  else if String.eqb tif "ioc" then Some LimitPolicyIOC
  else if String.eqb tif "post_only" then Some LimitPolicyPostOnly else None.

(** The [switch request.Type]: order type, limit price and policy. *)
Definition native_type (request : PlaceRequest) : result error (string * D * string) :=
  if String.eqb (pq_Type request) "market" then
    check is_empty (pq_Price request) else account_invalid "market orders take no price" ;;
    Ok (OrderTypeMarket, d_zero, "")
  else if String.eqb (pq_Type request) "limit" then
    match positive_decimal (pq_Price request) with
    | None => Err (account_invalid "limit orders need a positive price")
    | Some price =>
        match native_policy (pq_TimeInForce request) with
        | None => Err (account_invalid "tif must be gtc, ioc or post_only")
        | Some policy => Ok (OrderTypeLimit, price, policy)
        end
    end
  else Err (account_invalid "type must be market or limit").

Definition native (request : PlaceRequest) (instrument : MInstrument D)
  : result error (PlaceOrderRequest D) :=
  check clientOrderID_ok (pq_ClientOrderID request)
    else account_invalid "clientOrderId must be a decimal integer in [1, 2^48)" ;;
  match positive_decimal (pq_Quantity request) with
  | None => Err (account_invalid "qty must be a positive decimal")
  | Some quantity =>
      match native_side (pq_Side request) with
      | None => Err (account_invalid "side must be buy or sell")
      | Some side =>
          typed <-? native_type request ;;
          check negb (pq_ReduceOnly request && negb (String.eqb (mi_Product instrument) ProductPerp))
            else account_invalid "reduceOnly applies to perpetuals only" ;;
          let '(type, price, policy) := typed in
          let order := mkPlaceOrder (mi_native instrument) (pq_ClientOrderID request) side type
                         quantity price policy (pq_ReduceOnly request) in
          match PlaceOrder_Validate order (mi_Product instrument) with
          | Err e => Err (account_invalid (safeMessage (Some e)))
          | Ok _ => Ok order
          end
      end
  end.

(** ** [classify] *)

Definition rejected_result (ack : OrderAcknowledgement D) (failure : VenueFailure) : PlaceResult :=
  let message :=
    if is_empty (vf_VenueMessage failure) && String.eqb (ack_State ack) AckRejected
    then ack_VenueMessage ack else vf_VenueMessage failure in
  let code := if negb (is_empty (ack_VenueCode ack)) then ack_VenueCode ack else vf_Code failure in
  mkPlaceResult OutcomeRejected None (Some (vf_Category failure)) code message (Message failure).

(** The [switch] on a failed call: does it prove non-execution? *)
Definition proves_refusal (ack : OrderAcknowledgement D) (err : option error) : bool :=
  let details := option_map snd (errors_as as_exchange err) in
  let status_zero := match details with Some d => det_HTTPStatus d =? 0 | None => false end in
  match details with Some d => det_CommandNotSent d | None => false end ||
  (String.eqb (ack_State ack) AckRejected || errors_is (TKind KindVenueRejected) err ||
   errors_is (TKind KindAuthentication) err || errors_is (TKind KindPermission) err) ||
  (status_zero && (errors_is (TKind KindInvalidRequest) err || errors_is (TKind KindUnsupported) err ||
                   errors_is (TKind KindInvalidConfig) err)) ||
  (errors_is (TKind KindRateLimit) err && status_zero).

Definition zero_failure : VenueFailure := mkFailure CategoryVenue "" "" "" false.

Definition accepted_status (state : string) : option string :=
  if String.eqb state AckAcceptedPending then Some "pending"
  else if String.eqb state AckResting then Some "open"
  else if String.eqb state AckPartiallyFilled then Some "partially_filled"
  else if String.eqb state AckImmediatelyFilled then Some "filled"
  else if String.eqb state AckCanceled then Some "canceled"
  else None.

(** [now] is the clock read for the accepted order's timestamp. *)
Definition classify (now : time) (id : string) (request : PlaceOrderRequest D)
    (ack : OrderAcknowledgement D) (err : option error) : PlaceResult :=
  match err with
  | Some _ =>
      let failure := default zero_failure (Classify err) in
      if proves_refusal ack err then rejected_result ack failure
      else mkPlaceResult OutcomeUnknown None (Some (vf_Category failure)) "" ""
             "Order outcome unknown — checking with the exchange before anything else."
  | None =>
      match accepted_status (ack_State ack) with
      | Some status =>
          mkPlaceResult OutcomeAccepted
            (Some (mkGOrder id (ack_OrderID ack) (po_ClientOrderID request) (po_Side request) (po_Type request)
              (positive_string (po_LimitPrice request)) (d_string (po_Quantity request))
              (d_string (ack_FilledQuantity ack)) (optional_positive (ack_AverageFillPrice ack))
              (tifFromPolicy (po_LimitPolicy request)) (po_ReduceOnly request) status 0 (UnixMilli now)))
            None "" "" ""
      | None =>
          if String.eqb (ack_State ack) AckRejected
          then mkPlaceResult OutcomeRejected None None (ack_VenueCode ack) (ack_VenueMessage ack) ""
          else mkPlaceResult OutcomeUnknown None None "" ""
                 "order outcome unknown; look it up by clientOrderId before retrying"
      end
  end.
End orders.

(** ** Status words are stable *)

Lemma normalizeWord_idem s : normalizeWord (normalizeWord s) = normalizeWord s.
Proof.
  unfold normalizeWord. induction s as [|c s IH]; simpl; [done|]. f_equal; [|done].
  destruct c as [[] [] [] [] [] [] [] []]; reflexivity.
Qed.

(** Normalizing a status twice changes nothing, so an order re-projected
    from its public form keeps its status. *)
Theorem NormalizeStatus_idempotent raw : NormalizeStatus (NormalizeStatus raw) = NormalizeStatus raw.
Proof.
  unfold NormalizeStatus at 2 3. cbv zeta.
  repeat (split_guard; [repeat split_guard; vm_compute; reflexivity|]).
  unfold NormalizeStatus. rewrite normalizeWord_idem. cbv zeta. rewrite Heqb, Heqb0, Heqb1, Heqb2, Heqb3.
  cbv iota. by rewrite Heqb4, Heqb5, Heqb6.
Qed.

Lemma containsWord_from_iff fuel i v f :
  (String.length v < fuel + i)%nat →
  containsWord_from fuel i v f = true ↔ ∃ a b, v = a +:+ f +:+ b ∧ (i ≤ String.length a)%nat.
Proof.
  revert i. induction fuel as [|fuel IH]; intros i Hf; simpl.
  - split; [done|]. intros (a & b & -> & Ha). rewrite !string_length_app in Hf. lia.
  - destruct (Nat.leb_spec (i + String.length f) (String.length v)) as [Hle|Hgt].
    + destruct (String.eqb_spec (String.substring i (String.length f) v) f) as [He|Hne].
      * split; [intros _|done]. destruct (substring_split i _ v Hle) as (a & b & Hv & Ha).
        rewrite He in Hv. exists a, b. split; [done|lia].
      * rewrite IH by lia. split; intros (a & b & -> & Ha); exists a, b; (split; [done|]); [lia|].
        destruct (decide (i = String.length a)) as [->|]; [|lia].
        by rewrite substring_skip, substring_prefix in Hne.
    + split; [done|]. intros (a & b & -> & Ha). rewrite !string_length_app in Hgt. lia.
Qed.

(** The scan finds exactly the substrings. *)
Lemma containsWord_iff v f : containsWord v f = true ↔ ∃ a b, v = a +:+ f +:+ b.
Proof.
  unfold containsWord. rewrite containsWord_from_iff by lia. split.
  - intros (a & b & Hv & _). eauto.
  - intros (a & b & Hv). exists a, b. split; [done|lia].
Qed.

(** ** Order requests *)

Lemma HasPrefix_zero s : HasPrefix s "0" = negb (head_not "0" s).
Proof.
  destruct s as [|[[] [] [] [] [] [] [] []] s]; try reflexivity. by destruct s.
Qed.

(** The gateway's own check of the client id is the exchange layer's. *)
Lemma clientOrderID_ok_portable text : clientOrderID_ok text = isPortableClientOrderID text.
Proof.
  apply eq_iff_eq_true. rewrite isPortable_iff. unfold clientOrderID_ok, maxClientOrderID. split.
  - destruct (ParseUint text 64) as [n|] eqn:Hp; [|done].
    rewrite HasPrefix_zero. intros Hc. breflect. destruct Hc as [[H0 Hmax] Hhead].
    apply ParseUint_canonical in Hp as [-> Hn]; [|done]. exists n. split; [done|lia].
  - intros (n & -> & Hn). rewrite ParseUint_FormatUint by lia.
    rewrite HasPrefix_zero, FormatUint_head by lia. simpl.
    apply negb_true_iff. rewrite orb_false_r. apply orb_false_iff. rewrite Z.eqb_neq, Z.ltb_ge. lia.
Qed.

(** ** Placement *)

Section placement.
Context `{DecimalLaws D}.
Implicit Types (ack : OrderAcknowledgement D) (order : PlaceOrderRequest D).

(** How the fields of a public request appear in the order sent. *)
Record translates (request : PlaceRequest) (instrument : MInstrument D) order : Prop := {
  tr_instrument : po_Instrument order = mi_native instrument;
  tr_client_id : po_ClientOrderID order = pq_ClientOrderID request;
  tr_quantity : d_new_from_string (pq_Quantity request) = Some (po_Quantity order);
  tr_side : po_Side order = pq_Side request;
  tr_type : po_Type order = pq_Type request;
  tr_reduce : po_ReduceOnly order = pq_ReduceOnly request;
  tr_limit : pq_Type request = "limit" →
    d_new_from_string (pq_Price request) = Some (po_LimitPrice order) ∧
    native_policy (pq_TimeInForce request) = Some (po_LimitPolicy order);
}.

Lemma positive_decimal_Some text (v : D) :
  positive_decimal text = Some v → d_new_from_string text = Some v ∧ (0 < d_value v)%Qc.
Proof.
  unfold positive_decimal. destruct (d_new_from_string text) as [w|]; simpl; [|done].
  destruct (d_is_positive w) eqn:Hp; [|done]. intros [= ->]. by apply d_is_positive_spec in Hp.
Qed.

Lemma native_side_Some side s : native_side side = Some s → s = side.
Proof.
  unfold native_side. destruct (String.eqb_spec side "buy") as [->|]; [by intros [= <-]|].
  destruct (String.eqb_spec side "sell") as [->|]; [by intros [= <-]|done].
Qed.

Lemma native_type_Ok request type (price : D) policy :
  native_type request = Ok (type, price, policy) →
  type = pq_Type request ∧
  (pq_Type request = "limit" → d_new_from_string (pq_Price request) = Some price ∧
                               native_policy (pq_TimeInForce request) = Some policy).
Proof.
  unfold native_type. destruct (String.eqb_spec (pq_Type request) "market") as [->|].
  - rewrite check_Ok. intros [_ [= <- _ _]]. split; [done|discriminate].
  - destruct (String.eqb_spec (pq_Type request) "limit") as [Ht|]; [|done].
    destruct (positive_decimal _) as [p|] eqn:Hp; [|done].
    destruct (native_policy _) as [q|]; [|done]. intros [= <- <- <-].
    apply positive_decimal_Some in Hp as [? _]. by rewrite Ht.
Qed.

Lemma native_translates request (instrument : MInstrument D) order :
  native request instrument = Ok order →
  translates request instrument order ∧ order_spec order (mi_Product instrument).
Proof.
  unfold native. rewrite check_Ok. intros [Hid Hn].
  destruct (positive_decimal _) as [quantity|] eqn:Hq; [|done].
  destruct (native_side _) as [side|] eqn:Hs; [|done].
  apply bind_Ok in Hn as ([[type price] policy] & Ht & Hn).
  rewrite check_Ok in Hn. destruct Hn as [_ Hn].
  destruct (PlaceOrder_Validate _ _) as [[]|] eqn:Hv; [|done]. injection Hn as <-.
  split; [|by apply PlaceOrder_Validate_spec].
  apply positive_decimal_Some in Hq as [Hq _]. apply native_side_Some in Hs.
  apply native_type_Ok in Ht as [Ht Hl]. by split.
Qed.

(** An order the gateway sends to a venue is the request's own, field by
    field, and satisfies the venue-neutral specification: the exchange layer
    will not refuse it. *)
Theorem native_sound request (instrument : MInstrument D) order :
  native request instrument = Ok order →
  translates request instrument order ∧ order_spec order (mi_Product instrument).
Proof. apply native_translates. Qed.

(** Evidence that an order was not executed. *)
Inductive refused ack : option error → Prop :=
| never_sent e k d :
    errors_as as_exchange (Some e) = Some (k, d) → det_CommandNotSent d = true → refused ack (Some e)
| refused_by_ack err : ack_State ack = AckRejected → refused ack err
| refused_by_venue e k :
    In k [KindVenueRejected; KindAuthentication; KindPermission] →
    errors_is (TKind k) (Some e) = true → refused ack (Some e)
| refused_locally e k k' d :
    errors_as as_exchange (Some e) = Some (k, d) → det_HTTPStatus d = 0 →
    In k' [KindInvalidRequest; KindUnsupported; KindInvalidConfig; KindRateLimit] →
    errors_is (TKind k') (Some e) = true → refused ack (Some e).

Lemma proves_refusal_iff ack e : proves_refusal ack (Some e) = true ↔ refused ack (Some e).
Proof.
  unfold proves_refusal. split.
  - rewrite !orb_true_iff, !andb_true_iff, String.eqb_eq.
    destruct (errors_as as_exchange (Some e)) as [[k d]|] eqn:E; simpl; rewrite ?Z.eqb_eq, ?orb_true_iff;
      intros Hp; destruct_or?; destruct_and?; destruct_or?; try done;
      try (by eapply never_sent); try (by apply refused_by_ack);
      try (eapply refused_by_venue; [|eassumption]; simpl; tauto);
      try (eapply refused_locally; [eassumption..| |eassumption]; simpl; tauto).
  - inversion 1 as [e' k d E Hn|err Ha|e' k Hk He|e' k k' d E Hz Hk He]; subst.
    + rewrite E. cbn [option_map snd]. by rewrite Hn.
    + rewrite Ha, String.eqb_refl. cbn [orb]. by rewrite orb_true_r.
    + simpl in Hk. destruct_or?; subst; try done; rewrite He; by rewrite ?orb_true_r.
    + rewrite E. cbn [option_map snd]. rewrite Hz. simpl in Hk.
      destruct_or?; subst; try done; rewrite He; by rewrite ?orb_true_r.
Qed.

Lemma classify_refused now id order ack err :
  pl_Status (classify now id order ack err) = OutcomeRejected ↔ refused ack err.
Proof.
  unfold classify. destruct err as [e|].
  - rewrite <- proves_refusal_iff. destruct (proves_refusal ack (Some e)); simpl; naive_solver.
  - unfold accepted_status. split.
    + repeat (split_guard; [done|]). split_guard; [|done].
      apply String.eqb_eq in Heqb4. intros _. by apply refused_by_ack.
    + inversion 1 as [|err Ha| |]; subst. by rewrite Ha.
Qed.

(** Accepted only on an acknowledgement without an error. *)
Lemma classify_accepted now id order ack err :
  pl_Status (classify now id order ack err) = OutcomeAccepted ↔ err = None ∧ is_Some (accepted_status (ack_State ack)).
Proof.
  unfold classify. destruct err as [e|].
  - destruct (proves_refusal _ _); simpl; naive_solver.
  - destruct (accepted_status _); simpl; [naive_solver|]. split_guard; simpl; split; try done; by intros [_ []].
Qed.

Lemma errors_is_kind k k' d : errors_is (TKind k) (Some (NewError k' d)) = bool_decide (k' = k).
Proof. simpl. by rewrite orb_false_r. Qed.

(** When the venue's HTTP answer is a server failure, a timeout or a rate
    limit, the caller is told the outcome is unknown, whatever the body or
    the adapter claimed. *)
Theorem server_failure_is_unknown now id order ack mapped original h venue product operation :
  errors_as as_http original = Some h → may_have_executed (he_StatusCode h) = true →
  errors_as as_local original = None →
  let '(ack', err) := normalizeHTTPCommand ack mapped original venue product operation in
  pl_Status (classify now id order ack' err) = OutcomeUnknown.
Proof.
  intros Hh Hs Hl.
  destruct (normalizeHTTPCommand_ambiguous ack mapped original h venue product operation Hh Hs Hl)
    as (d & Herr & Hn & Hst & Hack).
  destruct (normalizeHTTPCommand _ _ _ _ _ _) as [ack' err]. simpl in Herr, Hack. subst err.
  unfold classify, proves_refusal. rewrite !errors_is_kind. simpl. rewrite Hn, Hack, Hst.
  destruct (Z.eqb_spec (he_StatusCode h) 0) as [E|]; [|done].
  by rewrite E in Hs.
Qed.

(** An order the local request budget refused is reported rejected: it
    never left the process. *)
Theorem local_throttle_is_rejected now id order ack kind d original retry venue product :
  errors_as as_http original = None → errors_as as_local original = Some (retry, "place") →
  let '(ack', err) :=
    normalizeHTTPCommand ack (Some (NewError kind d)) original venue product "place_order" in
  pl_Status (classify now id order ack' err) = OutcomeRejected.
Proof.
  intros Hh Hl. unfold normalizeHTTPCommand. rewrite Hh.
  destruct (normalizeHTTPError_local (D:=D) kind d original retry "place" venue product "place_order" Hl)
    as (d' & -> & Hn & _).
  rewrite withVenueMessage_indefinite by done. unfold classify.
  assert (Hp : proves_refusal (default ack (Some ack)) (Some (NewError KindRateLimit d')) = true).
  { apply proves_refusal_iff. eapply never_sent; [reflexivity|]. by rewrite Hn. }
  by rewrite Hp.
Qed.
End placement.

(** ** Concrete inputs *)

Definition sample_request : PlaceRequest :=
  mkPlaceRequest "binance:perp:BTC-USDT" "buy" "limit" "6" "50" "ioc" true "1001".
Definition sample_instrument : MInstrument Z := project (sample_perp VenueBinance "BTC" "USDT").

Lemma native_sound_witness :
  native sample_request sample_instrument = Ok sample_limit_order ∧
  translates sample_request sample_instrument sample_limit_order ∧
  order_spec sample_limit_order (mi_Product sample_instrument).
Proof.
  assert (Hn : native sample_request sample_instrument = Ok sample_limit_order) by (vm_compute; reflexivity).
  exact (conj Hn (native_sound sample_request sample_instrument sample_limit_order Hn)).
Defined.

Definition rejected_ack : OrderAcknowledgement Z :=
  mkAck VenueBinance ProductPerp "place_order" AckRejected "BTCUSDT" "" OrderTypeLimit "" "1001" "" 0
    (mkOptDec 0 false) "-2019" "Margin is insufficient.".
Definition bad_gateway : option error :=
  Some (EHTTP (mkHTTPError 502 "POST" "/fapi/v1/order" "" 0) (EAPI BinancePerpAPI ["Margin is insufficient."])).

Lemma server_failure_is_unknown_witness :
  let '(ack', err) :=
    normalizeHTTPCommand rejected_ack (Some (NewError KindVenueRejected no_details)) bad_gateway
      VenueBinance ProductPerp "place_order" in
  pl_Status (classify 0 "binance:perp:BTC-USDT" sample_limit_order ack' err) = OutcomeUnknown.
Proof.
  apply (server_failure_is_unknown 0 "binance:perp:BTC-USDT" sample_limit_order rejected_ack
           (Some (NewError KindVenueRejected no_details)) bad_gateway
           (mkHTTPError 502 "POST" "/fapi/v1/order" "" 0)); vm_compute; reflexivity.
Defined.

Definition throttled : option error :=
  Some (EWrap "venue HTTP transport failure" [ELocalRateLimit Second "place"]).

Lemma local_throttle_is_rejected_witness :
  let '(ack', err) :=
    normalizeHTTPCommand (set_ack_state rejected_ack AckAmbiguous) (Some (NewError KindTransport no_details))
      throttled VenueBinance ProductPerp "place_order" in
  pl_Status (classify 0 "binance:perp:BTC-USDT" sample_limit_order ack' err) = OutcomeRejected.
Proof.
  apply (local_throttle_is_rejected 0 "binance:perp:BTC-USDT" sample_limit_order
           (set_ack_state rejected_ack AckAmbiguous) KindTransport no_details throttled Second);
    vm_compute; reflexivity.
Defined.
