(* ===== verification/OrderBook.v ===== *)
(** * Order books

    [exchange/internal/factoryclient/order_book_contract.go]: the guard every
    venue's book stream passes at the exchange boundary.
    [gateway/market/feeds.go] ([pumpBook], [patchSide], [topLevels]): the
    gateway's own book, kept from the events the guard let through.  Both keep
    a side as a map from the price's text to its level. *)

From Stdlib Require Import Ascii String ZArith Lia QArith Qcanon Sorted.
From stdpp Require Import base list strings gmap sorting.
From S2P Require Import Prelude GoStrings Decimals Errors Model.

#[local] Open Scope string_scope.
#[local] Open Scope list_scope.
#[local] Open Scope Z_scope.
#[local] Open Scope go_scope.

(** [websocketError], with the venue and product of [clientMeta] *)
Definition websocketError (venue product operation : string) (kind : ErrorKind) (message : string) : error :=
  NewError kind (scoped_details venue product operation message).

(** ** Sides *)

Abbreviation side D := (gmap string (BookLevel D)).

Record contract (D : Type) := mkContract {
  bc_venue : string; bc_product : string; bc_instrument : Instrument D;
  bc_started : bool; bc_sequence : string; bc_observed : time;
  bc_bids : side D; bc_asks : side D;
}.
Arguments mkContract {D}. Arguments bc_venue {D}. Arguments bc_product {D}.
Arguments bc_instrument {D}. Arguments bc_started {D}. Arguments bc_sequence {D}.
Arguments bc_observed {D}. Arguments bc_bids {D}. Arguments bc_asks {D}.

Section book.
Context `{Decimal D}.
Implicit Types (s : side D) (levels : list (BookLevel D)).

(** One level of [patchBookSide] (and of the gateway's [patchSide]). *)
Definition patch_level s (level : BookLevel D) : side D :=
  let key := d_string (bl_Price level) in
  if d_is_zero (bl_Quantity level) then delete key s else <[key := level]> s.
Definition patchBookSide s levels : side D := foldl patch_level s levels.
Definition replaceBookSide levels : side D := patchBookSide ∅ levels.

Definition better (descending : bool) (a b : BookLevel D) : bool :=
  match d_cmp (bl_Price a) (bl_Price b) with
  | Gt => descending
  | Lt => negb descending
  | Eq => false
  end.
Definition sortedBookSide s (descending : bool) : list (BookLevel D) :=
  sort_slice (better descending) (map_values s).

(** ** The contract *)

Definition newOrderBookContract (venue product : string) (instrument : Instrument D) : contract D :=
  mkContract venue product instrument false "" zero_time ∅ ∅.

Definition violation (c : contract D) (message : string) : error :=
  websocketError (bc_venue c) (bc_product c) "WatchOrderBook" KindMalformedResponse message.

Definition sameOrderBookInstrument (expected actual : Instrument D) : bool :=
  let left := in_Identity expected in
  let right := in_Identity actual in
  if negb (String.eqb (id_Venue left) (id_Venue right)) ||
     negb (String.eqb (id_Product left) (id_Product right)) then false
  else if negb (is_empty (id_NativeID left)) || negb (is_empty (id_NativeID right)) then
    negb (is_empty (id_NativeID left)) && String.eqb (id_NativeID left) (id_NativeID right)
  else
    negb (is_empty (id_NativeSymbol left)) && String.eqb (id_NativeSymbol left) (id_NativeSymbol right).

Definition complete_kind (kind : string) : bool := one_of kind [EventSnapshot; EventFull].

(** [validateOrderBookLevels] returns the text of its error. *)
Fixpoint validateOrderBookLevels (kind : string) levels (name : string) : result string unit :=
  match levels with
  | [] => Ok tt
  | level :: rest =>
      check d_is_positive (bl_Price level) else (name +:+ " price must be positive") ;;
      check negb (d_is_negative (bl_Quantity level)) else (name +:+ " quantity must not be negative") ;;
      check negb (complete_kind kind && d_is_zero (bl_Quantity level))
        else (name +:+ " complete-book quantity must be positive") ;;
      validateOrderBookLevels kind rest name
  end.

Definition compareOrderBookSequence (left right : string) : option comparison :=
  match ParseUint left 64, ParseUint right 64 with
  | Some l, Some r => Some (l ?= r)
  | _, _ => None
  end.

(** Is [sequence] not after [last]? *)
Definition stale (sequence last : string) : bool :=
  match compareOrderBookSequence sequence last with
  | Some Gt | None => false
  | Some _ => true
  end.

Definition accept (c : contract D) (event : BookEvent D) : contract D * result error bool :=
  let refuse message := (c, Err (violation c message)) in
  if negb (one_of (be_Kind event) [EventSnapshot; EventDelta; EventFull]) then
    refuse "event kind must be snapshot, delta, or full"
  else if negb (sameOrderBookInstrument (bc_instrument c) (be_Instrument event)) then
    refuse "event instrument does not match subscription"
  else match validateOrderBookLevels (be_Kind event) (be_Bids event) "bid" with
  | Err text => refuse text
  | Ok _ =>
  match validateOrderBookLevels (be_Kind event) (be_Asks event) "ask" with
  | Err text => refuse text
  | Ok _ =>
    let sequence := TrimSpace (be_Sequence event) in
    let previous := TrimSpace (be_Previous event) in
    if negb (is_empty previous) && is_empty sequence then refuse "predecessor requires a sequence"
    else if complete_kind (be_Kind event) then
      (mkContract (bc_venue c) (bc_product c) (bc_instrument c) true sequence (be_Time event)
         (replaceBookSide (be_Bids event)) (replaceBookSide (be_Asks event)), Ok true)
    else if negb (bc_started c) then refuse "delta arrived before a snapshot or full book"
    else if negb (is_empty sequence) && negb (is_empty (bc_sequence c)) && stale sequence (bc_sequence c)
    then (c, Ok false)
    else if negb (is_empty previous) && negb (is_empty (bc_sequence c)) &&
            negb (String.eqb previous (bc_sequence c))
    then refuse "delta predecessor does not match the last sequence"
    else
      (mkContract (bc_venue c) (bc_product c) (bc_instrument c) true sequence (be_Time event)
         (patchBookSide (bc_bids c) (be_Bids event)) (patchBookSide (bc_asks c) (be_Asks event)), Ok true)
  end end.

Definition snapshot (c : contract D) : option (BookEvent D) :=
  if negb (bc_started c) then None
  else Some (mkBookEvent EventSnapshot (bc_instrument c) (bc_sequence c) "" false
               (sortedBookSide (bc_bids c) true) (sortedBookSide (bc_asks c) false) (bc_observed c)).

(** ** The gateway's book pump *)

Definition bookDepth : nat := 50.
Definition Level : Type := string * string.
Record Book := mkBook { bk_Bids : list Level; bk_Asks : list Level; bk_Time : Z }.

Definition topLevels s (descending : bool) : list Level :=
  let less := if descending then λ a b, d_greater_than (bl_Price a) (bl_Price b)
              else λ a b, d_less_than (bl_Price a) (bl_Price b) in
  let levels := sort_slice less (map_values s) in
  let levels := if (bookDepth <? length levels)%nat then take bookDepth levels else levels in
  map (λ l, (d_string (bl_Price l), d_string (bl_Quantity l))) levels.

(** The local variables of [pumpBook]. *)
Record pump := mkPump {
  pu_bids : side D; pu_asks : side D; pu_observed : time; pu_started : bool; pu_dirty : bool;
}.
Definition pump_init : pump := mkPump ∅ ∅ zero_time false false.

Definition current_book (p : pump) : Book :=
  mkBook (topLevels (pu_bids p) true) (topLevels (pu_asks p) false) (UnixMilli (pu_observed p)).

Definition flush (p : pump) : pump * list Book :=
  if negb (pu_started p) || negb (pu_dirty p) then (p, [])
  else (mkPump (pu_bids p) (pu_asks p) (pu_observed p) (pu_started p) false, [current_book p]).

(** What one [select] of the loop receives; [None] is a closed channel. *)
Inductive pump_input :=
| CtxDone
| Tick
| Failure (received : option (option error))
| StatusUpdate (received : option string)
| Event (received : option (BookEvent D)) (now : time).

(** The state and emissions after one iteration, and the loop's result if it
    returns ([Some None] is a nil error). *)
Definition pump_event (p : pump) (event : BookEvent D) (now : time) : pump * list Book :=
  let observe bids asks started :=
    mkPump bids asks (if IsZero (be_Time event) then now else be_Time event) started true in
  if complete_kind (be_Kind event) then
    flush (observe (replaceBookSide (be_Bids event)) (replaceBookSide (be_Asks event)) true)
  else if String.eqb (be_Kind event) EventDelta then
    if negb (pu_started p) then (p, [])
    else (observe (patchBookSide (pu_bids p) (be_Bids event))
                  (patchBookSide (pu_asks p) (be_Asks event)) true, [])
  else flush (observe (pu_bids p) (pu_asks p) (pu_started p)).

Definition pump_step (p : pump) (input : pump_input) : pump * list Book * option (option error) :=
  match input with
  | CtxDone => (p, [], Some None)
  | Tick => (flush p, None)
  | Failure None => (p, [], None)
  | Failure (Some None) => (p, [], None)
  | Failure (Some (Some e)) => (p, [], Some (Some e))
  | StatusUpdate None => (p, [], None)
  | StatusUpdate (Some state) =>
      if String.eqb state SubscriptionClosed
      then (p, [], Some (Some (EText "book subscription closed")))
      else (p, [], None)
  | Event None _ => (p, [], Some (Some (EText "book subscription ended")))
  | Event (Some event) now => (pump_event p event now, None)
  end.
End book.

(** ** A book side is a function from prices to quantities *)

Section side_spec.
Context `{DecimalLaws D}.
Implicit Types (s : side D) (levels : list (BookLevel D)) (x : D).

(** Keys are the canonical texts of their levels' prices; prices and
    quantities are positive. *)
Definition side_ok s : Prop := ∀ k l, s !! k = Some l →
  k = d_string (bl_Price l) ∧ d_is_positive (bl_Price l) = true ∧ d_is_positive (bl_Quantity l) = true.

(** The quantity resting at price [x]; 0 when there is no level. *)
Definition quantity_at s x : Qc :=
  match s !! d_string x with Some l => d_value (bl_Quantity l) | None => 0%Qc end.

(** Reference semantics of a list of level updates: the last update of a
    price wins, and its quantity replaces the one there. *)
Definition updated (base : Qc) levels x : Qc :=
  foldl (λ q l, if decide (d_value (bl_Price l) = d_value x) then d_value (bl_Quantity l) else q) base levels.

Lemma patch_level_quantity s l x :
  quantity_at (patch_level s l) x =
  if decide (d_value (bl_Price l) = d_value x) then d_value (bl_Quantity l) else quantity_at s x.
Proof.
  unfold quantity_at, patch_level. case_decide as Hx.
  - rewrite (proj2 (d_string_inj (bl_Price l) x) Hx).
    destruct (d_is_zero (bl_Quantity l)) eqn:Hz.
    + rewrite lookup_delete_eq. symmetry. by apply d_is_zero_spec.
    + by rewrite lookup_insert_eq.
  - assert (d_string (bl_Price l) ≠ d_string x) by (by rewrite d_string_inj).
    destruct (d_is_zero (bl_Quantity l)).
    + by rewrite lookup_delete_ne.
    + by rewrite lookup_insert_ne.
Qed.

Lemma patch_quantity s levels x :
  quantity_at (patchBookSide s levels) x = updated (quantity_at s x) levels x.
Proof.
  unfold patchBookSide, updated. revert s. induction levels as [|l levels IH]; intros s; [done|].
  simpl. by rewrite IH, patch_level_quantity.
Qed.

Lemma replace_quantity levels x : quantity_at (replaceBookSide levels) x = updated 0%Qc levels x.
Proof. unfold replaceBookSide. by rewrite patch_quantity. Qed.

(** What [validateOrderBookLevels] establishes of each level. *)
Definition level_ok (kind : string) (l : BookLevel D) : Prop :=
  d_is_positive (bl_Price l) = true ∧ d_is_negative (bl_Quantity l) = false ∧
  (complete_kind kind = true → d_is_zero (bl_Quantity l) = false).

Lemma validate_levels_Ok kind levels name :
  validateOrderBookLevels kind levels name = Ok tt → Forall (level_ok kind) levels.
Proof.
  induction levels as [|l levels IH]; simpl; [done|].
  rewrite !check_Ok. intros (Hp & Hn & Hz & Hr). constructor; [|auto].
  unfold level_ok. breflect. split; [done|]. split; [done|].
  intros Hk. rewrite Hk in Hz. by destruct Hz.
Qed.

Lemma patch_level_ok kind s l : side_ok s → level_ok kind l → side_ok (patch_level s l).
Proof.
  intros Hs (Hp & Hn & _) k lv. unfold patch_level.
  destruct (d_is_zero (bl_Quantity l)) eqn:Hz; [intros [? ?]%lookup_delete_Some; by apply Hs|].
  intros [[<- <-]|[_ Hk]]%lookup_insert_Some; [|by apply Hs].
  split; [done|]. split; [done|].
  destruct (d_sign_cases (bl_Quantity l)) as [E|[E|E]]; congruence.
Qed.

Lemma patch_side_ok kind s levels : side_ok s → Forall (level_ok kind) levels → side_ok (patchBookSide s levels).
Proof.
  unfold patchBookSide. intros Hs Hl. revert s Hs.
  induction Hl as [|l levels Hl _ IH]; intros s Hs; simpl; [done|].
  apply IH. by eapply patch_level_ok.
Qed.

Lemma empty_side_ok : side_ok ∅.
Proof. intros k l. by rewrite lookup_empty. Qed.

(** ** Rebuilding a side from its levels *)

Abbreviation key l := (d_string (bl_Price l)).

Lemma patch_lookup_other s levels k :
  k ∉ map (λ l, key l) levels → patchBookSide s levels !! k = s !! k.
Proof.
  unfold patchBookSide. revert s. induction levels as [|l levels IH]; intros s Hk; simpl; [done|].
  simpl in Hk. apply not_elem_of_cons in Hk as [Hk Hks]. rewrite IH by done. unfold patch_level.
  split_guard; [by apply lookup_delete_ne|by apply lookup_insert_ne].
Qed.

Lemma patch_lookup_in s levels l :
  NoDup (map (λ l, key l) levels) → Forall (λ l, d_is_zero (bl_Quantity l) = false) levels → l ∈ levels →
  patchBookSide s levels !! key l = Some l.
Proof.
  unfold patchBookSide. intros Hnd Hnz. revert s Hnd.
  induction Hnz as [|l' levels Hz _ IH]; intros s Hnd Hin; [by apply elem_of_nil in Hin|].
  simpl in *. apply NoDup_cons in Hnd as [Hni Hnd].
  apply elem_of_cons in Hin as [->|Hin]; [|by apply IH].
  fold (patchBookSide (patch_level s l') levels). rewrite patch_lookup_other by done.
  unfold patch_level. rewrite Hz. apply lookup_insert_eq.
Qed.

Lemma side_keys s : side_ok s → map (λ l, key l) (map_values s) = (map_to_list s).*1.
Proof.
  intros Hs. unfold map_values. change (map ?f ?l) with (f <$> l).
  rewrite <- list_fmap_compose. apply list_fmap_ext. intros i [k l] Hi. simpl.
  apply list_elem_of_lookup_2, elem_of_map_to_list in Hi. symmetry. by apply Hs.
Qed.

Lemma replace_values s levels : side_ok s → levels ≡ₚ map_values s → replaceBookSide levels = s.
Proof.
  intros Hs Hp.
  assert (Hnd : NoDup (map (λ l, key l) levels)).
  { rewrite Hp, side_keys by done. apply NoDup_fst_map_to_list. }
  assert (Hin : ∀ l, l ∈ levels ↔ ∃ k, s !! k = Some l).
  { intros l. rewrite Hp. apply elem_of_map_values. }
  assert (Hnz : Forall (λ l, d_is_zero (bl_Quantity l) = false) levels).
  { rewrite Forall_forall. intros l [k Hk]%Hin. apply Hs in Hk as (_ & _ & Hq).
    unfold d_is_positive in Hq. unfold d_is_zero. by destruct (d_cmp _ _). }
  apply map_eq. intros k. unfold replaceBookSide.
  destruct (s !! k) as [l|] eqn:Hk.
  - destruct (Hs k l Hk) as [-> _]. apply patch_lookup_in; [done..|]. rewrite Hin. eauto.
  - rewrite patch_lookup_other; [by rewrite lookup_empty|].
    intros (l & -> & Hl)%list_elem_of_fmap. apply Hin in Hl as [k Hl].
    destruct (Hs k l Hl) as [-> _]. congruence.
Qed.

(** ** Sorting by price *)

Definition ahead (descending : bool) (a b : BookLevel D) : Prop :=
  if descending then (d_value (bl_Price b) < d_value (bl_Price a))%Qc
  else (d_value (bl_Price a) < d_value (bl_Price b))%Qc.

Lemma better_less descending (a b : BookLevel D) :
  better descending a b =
  if descending then d_less_than (bl_Price b) (bl_Price a) else d_less_than (bl_Price a) (bl_Price b).
Proof.
  unfold better, d_less_than. destruct descending; [|by destruct (d_cmp _ _)].
  rewrite !d_cmp_value. unfold Qccompare.
  rewrite <- (Qcompare_antisym (this (d_value (bl_Price a)))).
  by destruct (this (d_value (bl_Price a)) ?= _)%Q.
Qed.

Lemma better_ahead descending (a b : BookLevel D) : better descending a b = true ↔ ahead descending a b.
Proof. rewrite better_less. unfold ahead. destruct descending; apply d_less_than_spec. Qed.

Lemma sortedBookSide_sorted s descending :
  StronglySorted (not_less (better descending)) (sortedBookSide s descending).
Proof.
  apply sort_slice_sorted; intros *; rewrite !better_less.
  - destruct descending; rewrite d_less_than_spec, d_less_than_false; apply Qclt_le_weak.
  - destruct descending; rewrite !d_less_than_false; intros ? ?; by eapply Qcle_trans.
Qed.

Lemma sortedBookSide_strict s descending :
  side_ok s → StronglySorted (ahead descending) (sortedBookSide s descending).
Proof.
  intros Hs. pose proof (sortedBookSide_sorted s descending) as Hsort.
  assert (Hnd : NoDup (map (λ l, key l) (sortedBookSide s descending))).
  { unfold sortedBookSide. rewrite sort_slice_perm, side_keys by done. apply NoDup_fst_map_to_list. }
  induction Hsort as [|a l Hl IH Ha]; constructor.
  - apply IH. by inversion Hnd.
  - simpl in Hnd. apply NoDup_cons in Hnd as [Hni _]. rewrite Forall_forall in *.
    intros b Hb. specialize (Ha b Hb). unfold not_less in Ha. rewrite better_less in Ha.
    assert (Hne : d_value (bl_Price a) ≠ d_value (bl_Price b)).
    { intros E. apply Hni. apply d_string_inj in E. rewrite E.
      by apply (list_elem_of_fmap_2 (λ l, key l)). }
    unfold ahead. destruct descending; apply d_less_than_false in Ha;
      apply Qcle_lt_or_eq in Ha as [Ha|Ha]; congruence.
Qed.
End side_spec.

(** ** The contract implements the reference book *)

Section contract_spec.
Context `{DecimalLaws D}.
Implicit Types (c : contract D) (e : BookEvent D).

Definition contract_ok c : Prop := side_ok (bc_bids c) ∧ side_ok (bc_asks c).

(** The quantities a side must show after an applied event. *)
Definition applied (kind : string) (before after : side D) (levels : list (BookLevel D)) : Prop :=
  ∀ x, quantity_at after x =
       updated (if complete_kind kind then 0%Qc else quantity_at before x) levels x.

(** Numeric sequences of accepted deltas only grow, and a predecessor token
    names the last sequence. *)
Definition continuous c e : Prop :=
  bc_started c = true ∧
  (∀ a b, ParseUint (TrimSpace (be_Sequence e)) 64 = Some a →
          ParseUint (bc_sequence c) 64 = Some b → b < a) ∧
  (TrimSpace (be_Previous e) ≠ "" → bc_sequence c ≠ "" → TrimSpace (be_Previous e) = bc_sequence c).

Definition accept_spec c e (c' : contract D) (r : result error bool) : Prop :=
  match r with
  | Ok true =>
      bc_started c' = true ∧ bc_sequence c' = TrimSpace (be_Sequence e) ∧
      applied (be_Kind e) (bc_bids c) (bc_bids c') (be_Bids e) ∧
      applied (be_Kind e) (bc_asks c) (bc_asks c') (be_Asks e) ∧
      (be_Kind e = EventDelta → continuous c e)
  | Ok false => c' = c ∧ be_Kind e = EventDelta
  | Err _ => c' = c
  end.

Lemma ParseUint_empty bits : ParseUint "" bits = None.
Proof. done. Qed.

Lemma delta_continuous c e :
  bc_started c = true →
  negb (is_empty (TrimSpace (be_Sequence e))) && negb (is_empty (bc_sequence c)) &&
    stale (TrimSpace (be_Sequence e)) (bc_sequence c) = false →
  negb (is_empty (TrimSpace (be_Previous e))) && negb (is_empty (bc_sequence c)) &&
    negb (String.eqb (TrimSpace (be_Previous e)) (bc_sequence c)) = false →
  continuous c e.
Proof.
  intros Hst Hseq Hprev. unfold is_empty, stale, compareOrderBookSequence in *. split; [done|]. split.
  - intros a b Ha Hb. rewrite Ha, Hb in Hseq.
    destruct (String.eqb_spec (TrimSpace (be_Sequence e)) "") as [E|_]; [by rewrite E in Ha|].
    destruct (String.eqb_spec (bc_sequence c) "") as [E|_]; [by rewrite E in Hb|].
    simpl in Hseq. destruct (Z.compare_spec a b); [done|done|lia].
  - intros Hp Hs. apply String.eqb_neq in Hp, Hs. rewrite Hp, Hs in Hprev. simpl in Hprev.
    by apply negb_false_iff, String.eqb_eq in Hprev.
Qed.

Lemma kind_cases e :
  one_of (be_Kind e) [EventSnapshot; EventDelta; EventFull] = true → complete_kind (be_Kind e) = false →
  be_Kind e = EventDelta.
Proof.
  rewrite one_of_In. intros Hk Hc. simpl in Hk. unfold complete_kind in Hc.
  destruct Hk as [E|[E|[E|[]]]]; rewrite <- E in *; done.
Qed.

Lemma accept_correct c e :
  contract_ok c → contract_ok (accept c e).1 ∧ accept_spec c e (accept c e).1 (accept c e).2.
Proof.
  intros [Hb Ha]. unfold accept.
  destruct (one_of (be_Kind e) _) eqn:Hk; simpl negb; cbv iota; [|done].
  destruct (sameOrderBookInstrument _ _); simpl negb; cbv iota; [|done].
  destruct (validateOrderBookLevels _ (be_Bids e) _) as [[]|] eqn:Vb; [|done].
  destruct (validateOrderBookLevels _ (be_Asks e) _) as [[]|] eqn:Va; [|done].
  apply validate_levels_Ok in Vb, Va.
  destruct (negb (is_empty (TrimSpace (be_Previous e))) && _); [done|].
  destruct (complete_kind (be_Kind e)) eqn:Hc.
  - cbn [fst snd]. split.
    { split; (eapply patch_side_ok; [apply empty_side_ok|done]). }
    repeat split; unfold applied; rewrite ?Hc; intros; simpl; try apply replace_quantity.
    all: exfalso; destruct e; simpl in *; subst; by vm_compute in Hc.
  - destruct (bc_started c) eqn:Hst; simpl negb; cbv iota; [|done].
    pose proof (kind_cases e Hk Hc) as Hd.
    destruct (negb (is_empty (TrimSpace (be_Sequence e))) && _ && _) eqn:Hs; [done|].
    destruct (negb (is_empty (TrimSpace (be_Previous e))) && _ && _) eqn:Hp; [done|].
    cbn [fst snd]. split; [split; by eapply patch_side_ok|].
    unfold accept_spec, applied. rewrite Hc. simpl.
    split; [done|]. split; [done|]. split; [intros; apply patch_quantity|].
    split; [intros; apply patch_quantity|]. intros _. by apply delta_continuous.
Qed.

(** C3: one event at the exchange boundary.  A refused or stale event leaves
    the book alone; an accepted one makes the book the reference book: a
    snapshot or full event replaces it, a delta sets exactly the prices it
    carries (zero removes), only in sequence; prices and quantities stay
    positive and keys canonical. *)
Theorem accept_refines c e :
  contract_ok c → contract_ok (accept c e).1 ∧ accept_spec c e (accept c e).1 (accept c e).2.
Proof. apply accept_correct. Qed.

(** ** The gateway's book is the contract's book *)

(** The contract over a stream, and the events it lets through. *)
Fixpoint run_contract c (events : list (BookEvent D)) : contract D * list (BookEvent D) :=
  match events with
  | [] => (c, [])
  | e :: rest =>
      let '(c', r) := accept c e in
      let '(c'', out) := run_contract c' rest in
      (c'', match r with Ok true => e :: out | _ => out end)
  end.

Definition run_pump (now : time) (p : pump) (events : list (BookEvent D)) : pump :=
  foldl (λ p e, (pump_event p e now).1) p events.

(** The pump holds the book the contract holds. *)
Definition agree c (p : pump) : Prop :=
  pu_started p = bc_started c ∧ (bc_started c = true → pu_bids p = bc_bids c ∧ pu_asks p = bc_asks c).

Lemma flush_book (p : pump (D:=D)) :
  pu_bids (flush p).1 = pu_bids p ∧ pu_asks (flush p).1 = pu_asks p ∧ pu_started (flush p).1 = pu_started p.
Proof. unfold flush. by destruct (_ || _). Qed.

Lemma pump_event_complete (p : pump) e now :
  complete_kind (be_Kind e) = true →
  pu_started (pump_event p e now).1 = true ∧
  pu_bids (pump_event p e now).1 = replaceBookSide (be_Bids e) ∧
  pu_asks (pump_event p e now).1 = replaceBookSide (be_Asks e).
Proof.
  intros Hc. unfold pump_event. rewrite Hc.
  match goal with |- context [flush ?q] => destruct (flush_book q) as (-> & -> & ->) end. done.
Qed.

Lemma accept_agree c e c' p now :
  accept c e = (c', Ok true) → agree c p → agree c' (pump_event p e now).1.
Proof.
  intros Hacc [Hst Hbook]. unfold accept in Hacc. unfold agree.
  destruct (one_of (be_Kind e) _) eqn:Hk; simpl negb in Hacc; cbv iota in Hacc; [|done].
  destruct (sameOrderBookInstrument _ _); simpl negb in Hacc; cbv iota in Hacc; [|done].
  destruct (validateOrderBookLevels _ (be_Bids e) _) as [[]|]; [|done].
  destruct (validateOrderBookLevels _ (be_Asks e) _) as [[]|]; [|done].
  destruct (negb (is_empty (TrimSpace (be_Previous e))) && _); [done|].
  destruct (complete_kind (be_Kind e)) eqn:Hc.
  - injection Hacc as <-. destruct (pump_event_complete p e now Hc) as (-> & -> & ->). done.
  - destruct (bc_started c) eqn:Hs; simpl negb in Hacc; cbv iota in Hacc; [|done].
    destruct (_ && _ && stale _ _); [done|]. destruct (_ && negb (String.eqb _ _)); [done|].
    injection Hacc as <-. unfold pump_event. rewrite Hc, (kind_cases e Hk Hc). simpl.
    destruct (Hbook eq_refl) as [<- <-]. rewrite Hst. done.
Qed.

Lemma accept_not_applied c e c' r :
  accept c e = (c', r) → r ≠ Ok true → c' = c.
Proof.
  unfold accept. intros Hacc Hr.
  repeat first [progress cbv zeta in Hacc
    | match type of Hacc with
      | (if ?b then _ else _) = _ => destruct b
      | match ?v with Ok _ => _ | Err _ => _ end = _ => destruct v
      end]; congruence.
Qed.

Lemma run_agree now c events p :
  agree c p →
  agree (run_contract c events).1 (run_pump now p (run_contract c events).2).
Proof.
  revert c p. induction events as [|e events IH]; intros c p Ha; simpl; [done|].
  destruct (accept c e) as [c' r] eqn:E. specialize (IH c').
  destruct (run_contract c' events) as [c'' out]. simpl in *.
  assert (r = Ok true ∨ r ≠ Ok true) as [->|Hr] by (destruct r as [[]|]; naive_solver).
  - simpl. apply IH. by eapply accept_agree.
  - rewrite (accept_not_applied _ _ _ _ E Hr) in IH. destruct r as [[]|]; [done|by apply IH..].
Qed.

Lemma new_agree venue product instrument : agree (newOrderBookContract venue product instrument) pump_init.
Proof. done. Qed.

(** Whatever a venue sends, the gateway's book, fed only the events the
    contract let through, equals the contract's book at every point. *)
Theorem gateway_book_agrees now venue product instrument events :
  let '(c, delivered) := run_contract (newOrderBookContract venue product instrument) events in
  agree c (run_pump now pump_init delivered).
Proof.
  pose proof (run_agree now _ events _ (new_agree venue product instrument)) as Hr.
  by destruct (run_contract _ events).
Qed.

Lemma snapshot_agree now c e (p : pump) :
  contract_ok c → snapshot c = Some e → agree c (pump_event p e now).1.
Proof.
  intros [Hb Ha] Hsnap. unfold snapshot in Hsnap.
  destruct (bc_started c) eqn:Hs; [|done]. injection Hsnap as <-. unfold agree.
  destruct (pump_event_complete p (mkBookEvent EventSnapshot (bc_instrument c) (bc_sequence c) ""
      false (sortedBookSide (bc_bids c) true) (sortedBookSide (bc_asks c) false) (bc_observed c)) now eq_refl)
      as (-> & -> & ->). simpl.
  unfold sortedBookSide. split; [done|]. intros _.
  split; apply replace_values; try done; apply sort_slice_perm.
Qed.

(** A late subscriber is consistent too: replaying the contract's
    snapshot gives it the contract's book, and so every later event keeps it
    equal. *)
Theorem late_subscriber_agrees now c e (p : pump) events :
  contract_ok c → snapshot c = Some e →
  let '(c', delivered) := run_contract c events in
  agree c' (run_pump now (pump_event p e now).1 delivered).
Proof.
  intros Hok Hsnap. pose proof (run_agree now c events _ (snapshot_agree now c e p Hok Hsnap)) as Hr.
  by destruct (run_contract c events).
Qed.
End contract_spec.

(** ** What subscribers see *)

Section published.
Context `{DecimalLaws D}.

Definition render (l : BookLevel D) : Level := (d_string (bl_Price l), d_string (bl_Quantity l)).

Lemma topLevels_take (s : side D) descending :
  topLevels s descending = map render (take bookDepth (sortedBookSide s descending)).
Proof.
  unfold topLevels, sortedBookSide. cbv zeta.
  rewrite (sort_slice_ext (if descending then _ else _) (better descending)).
  - split_guard; [done|]. apply Nat.ltb_ge in Heqb. by rewrite take_ge.
  - intros a b. unfold better, d_greater_than, d_less_than. by destruct descending, (d_cmp _ _).
Qed.

(** A published side holds the best [bookDepth] levels of the book,
    strictly ordered from the best price; a level left out is worse than
    every level shown. *)
Theorem topLevels_best (s : side D) descending :
  side_ok s →
  ∃ shown, topLevels s descending = map render shown ∧
    length shown = Nat.min bookDepth (size s) ∧
    StronglySorted (ahead descending) shown ∧
    (∀ l, l ∈ shown → ∃ k, s !! k = Some l) ∧
    (∀ k l, s !! k = Some l → l ∈ shown ∨ Forall (λ l', ahead descending l' l) shown).
Proof.
  intros Hs. exists (take bookDepth (sortedBookSide s descending)).
  pose proof (sortedBookSide_strict s descending Hs) as Hsort.
  assert (Hin : ∀ l, l ∈ sortedBookSide s descending ↔ ∃ k, s !! k = Some l).
  { intros l. unfold sortedBookSide. rewrite sort_slice_elem_of. apply elem_of_map_values. }
  rewrite <- (take_drop bookDepth (sortedBookSide s descending)) in Hsort.
  split; [apply topLevels_take|]. split; [|split; [|split]].
  - rewrite length_take. unfold sortedBookSide. rewrite sort_slice_length. unfold map_values.
    by rewrite length_fmap, length_map_to_list.
  - by eapply StronglySorted_app_1_l.
  - intros l Hl. apply Hin. eapply subseteq_take. exact Hl.
  - intros k l Hk. assert (Hl : l ∈ sortedBookSide s descending) by (rewrite Hin; eauto).
    rewrite <- (take_drop bookDepth (sortedBookSide s descending)) in Hl.
    apply elem_of_app in Hl as [Hl|Hl]; [by left|right].
    rewrite Forall_forall. intros l' Hl'. by eapply StronglySorted_app_1_elem_of.
Qed.

(** The pump over a sequence of inputs, until it returns. *)
Fixpoint pump_run (p : pump (D:=D)) (inputs : list pump_input) : pump * list Book * option (option error) :=
  match inputs with
  | [] => (p, [], None)
  | i :: rest =>
      let '(p', out, stop) := pump_step p i in
      match stop with
      | Some _ => (p', out, stop)
      | None => let '(p'', out', stop') := pump_run p' rest in (p'', out ++ out', stop')
      end
  end.

(** Unless it is dirty, the pump's current book is the last one emitted. *)
Definition published (p : pump (D:=D)) (last : option Book) : Prop :=
  pu_started p = true → pu_dirty p = false → last = Some (current_book p).

Definition last_book (before : option Book) (out : list Book) : option Book :=
  match list.last out with Some b => Some b | None => before end.

Lemma flush_published (p : pump (D:=D)) before :
  published p before →
  published (flush p).1 (last_book before (flush p).2) ∧
  (pu_started p = true → pu_dirty (flush p).1 = false).
Proof.
  unfold flush, published, last_book. intros Hp.
  destruct (pu_started p) eqn:Hst, (pu_dirty p) eqn:Hd; simpl; rewrite ?Hst, ?Hd; auto.
Qed.

Lemma dirty_published (p : pump (D:=D)) before : pu_dirty p = true → published p before.
Proof. unfold published. congruence. Qed.

Lemma pump_step_published p i before :
  published p before →
  let '(p', out, _) := pump_step p i in published p' (last_book before out).
Proof.
  intros Hp. destruct i as [| |[[|]|]|[state|]|[e|] now]; simpl; try done.
  - pose proof (flush_published p before Hp) as [Hf _]. by destruct (flush p).
  - by destruct (String.eqb state _).
  - unfold pump_event. destruct (complete_kind _).
    + match goal with |- context [flush ?q] =>
        pose proof (flush_published q before (dirty_published q before eq_refl)) as [Hf _];
        by destruct (flush q) end.
    + destruct (String.eqb (be_Kind e) EventDelta).
      * destruct (pu_started p); simpl; [by apply dirty_published|done].
      * match goal with |- context [flush ?q] =>
          pose proof (flush_published q before (dirty_published q before eq_refl)) as [Hf _];
          by destruct (flush q) end.
Qed.

Lemma last_book_app before out out' : last_book before (out ++ out') = last_book (last_book before out) out'.
Proof.
  unfold last_book. rewrite last_app. by destruct (list.last out'), (list.last out).
Qed.

Lemma pump_run_published p inputs before :
  published p before →
  let '(p', out, _) := pump_run p inputs in published p' (last_book before out).
Proof.
  revert p before. induction inputs as [|i inputs IH]; intros p before Hp; simpl; [done|].
  pose proof (pump_step_published p i before Hp) as Hi.
  destruct (pump_step p i) as [[p' out] stop]. destruct stop; [done|].
  specialize (IH p' _ Hi). destruct (pump_run p' inputs) as [[p'' out'] stop'].
  by rewrite last_book_app.
Qed.

(** The pump never leaves subscribers behind for more than one interval:
    when the ticker fires on a started book, the last book emitted is the
    current one. *)
Theorem pump_tick_current inputs p out :
  pump_run pump_init inputs = (p, out, None) → pu_started p = true →
  let '(p', out', _) := pump_step p Tick in
  list.last (out ++ out') = Some (current_book p').
Proof.
  intros Hrun Hst. pose proof (pump_run_published pump_init inputs None) as Hp.
  rewrite Hrun in Hp. specialize (Hp ltac:(done)). simpl.
  destruct (flush_published p _ Hp) as [Hf Hd]. destruct (flush_book p) as (_ & _ & Hs).
  destruct (flush p) as [p' out'] eqn:E. simpl in *.
  specialize (Hf (eq_trans Hs Hst) (Hd Hst)). rewrite <- last_book_app in Hf.
  unfold last_book in Hf. by destruct (list.last _).
Qed.
End published.

(** ** Concrete inputs *)

Definition sample_levels (l : list (Z * Z)) : list (BookLevel Z) := map (λ '(p, q), mkLevel p q) l.
Definition sample_book_event (kind sequence previous : string) (bids asks : list (Z * Z)) : BookEvent Z :=
  mkBookEvent kind (sample_perp VenueBinance "BTC" "USDT") sequence previous false
    (sample_levels bids) (sample_levels asks) (unix_epoch + Second).
Definition sample_snapshot : BookEvent Z :=
  sample_book_event EventSnapshot "10" "" [(100, 1); (99, 2)] [(101, 3); (103, 1)].
Definition sample_delta : BookEvent Z :=
  sample_book_event EventDelta "11" "10" [(99, 0); (98, 4)] [(102, 5)].
Definition sample_contract : contract Z :=
  (accept (newOrderBookContract VenueBinance ProductPerp (sample_perp VenueBinance "BTC" "USDT"))
     sample_snapshot).1.

Lemma new_contract_ok {D} `{Decimal D} venue product (instrument : Instrument D) :
  contract_ok (newOrderBookContract venue product instrument).
Proof. split; apply empty_side_ok. Qed.

Lemma sample_levels_ok kind l :
  Forall (λ '(p, q), 0 < p ∧ 0 < q) l → Forall (level_ok kind) (sample_levels l).
Proof.
  unfold sample_levels. intros Hl. rewrite Forall_fmap. eapply Forall_impl; [exact Hl|].
  intros [p q] [Hp Hq].
  unfold level_ok, d_is_positive, d_is_negative, d_is_zero. simpl.
  by rewrite (proj2 (Z.compare_gt_iff p 0)), (proj2 (Z.compare_gt_iff q 0)).
Qed.

Lemma sample_contract_ok : contract_ok sample_contract.
Proof.
  split; (eapply (patch_side_ok EventSnapshot ∅); [apply empty_side_ok|]);
    apply sample_levels_ok; repeat constructor.
Qed.

Lemma accept_refines_witness :
  (accept sample_contract sample_delta).2 = Ok true ∧
  contract_ok (accept sample_contract sample_delta).1 ∧
  accept_spec sample_contract sample_delta (accept sample_contract sample_delta).1
    (accept sample_contract sample_delta).2.
Proof.
  split; [vm_compute; reflexivity|].
  apply accept_refines. apply sample_contract_ok.
Defined.

Lemma late_subscriber_agrees_witness :
  match snapshot sample_contract with
  | Some e =>
      let '(c', delivered) := run_contract sample_contract [sample_delta; sample_delta] in
      agree c' (run_pump 0 (pump_event pump_init e 0).1 delivered)
  | None => False
  end.
Proof.
  destruct (snapshot sample_contract) as [e|] eqn:E; [|vm_compute in E; discriminate].
  apply late_subscriber_agrees; [apply sample_contract_ok|exact E].
Defined.

Lemma topLevels_best_witness :
  topLevels (bc_bids sample_contract) true = [("100", "1"); ("99", "2")] ∧
  ∃ shown, topLevels (bc_bids sample_contract) true = map render shown ∧
    length shown = Nat.min bookDepth (size (bc_bids sample_contract)) ∧
    StronglySorted (ahead true) shown ∧
    (∀ l, l ∈ shown → ∃ k, bc_bids sample_contract !! k = Some l) ∧
    (∀ k l, bc_bids sample_contract !! k = Some l → l ∈ shown ∨ Forall (λ l', ahead true l' l) shown).
Proof.
  split; [vm_compute; reflexivity|].
  apply topLevels_best. apply (proj1 sample_contract_ok).
Defined.

Definition sample_inputs : list (pump_input (D:=Z)) :=
  [Event (Some sample_snapshot) 0; StatusUpdate (Some SubscriptionActive); Event (Some sample_delta) 0].

Lemma pump_tick_current_witness :
  let '(p, out, _) := pump_run pump_init sample_inputs in
  let '(p', out', _) := pump_step p Tick in
  list.last (out ++ out') = Some (current_book p').
Proof.
  destruct (pump_run pump_init sample_inputs) as [[p out] stop] eqn:E.
  assert (stop = None ∧ pu_started p = true) as [-> Hs].
  { vm_compute in E. injection E as <- _ <-. split; reflexivity. }
  exact (pump_tick_current sample_inputs p out E Hs).
Defined.
