(* ===== verification/RateLimit.v ===== *)
(** * The request budget

    [gateway/ratelimit/coordinator.go]: fixed-window budgets, acquired all or
    nothing.  The coordinator's methods hold its mutex, so each is one atomic
    step on the map of windows; the clock read inside is a parameter. *)

From Stdlib Require Import Ascii String ZArith Lia.
From stdpp Require Import base list strings gmap.
From S2P Require Import Prelude GoStrings Errors Model.

#[local] Open Scope string_scope.
#[local] Open Scope list_scope.
#[local] Open Scope Z_scope.

Definition VenueBudget := "venue".
Definition EndpointBudget := "endpoint".

Record Key := mkKey { ky_Kind : string; ky_Value : string }.
#[export] Instance Key_eq_dec : EqDecision Key.
Proof. solve_decision. Defined.
#[export] Instance Key_countable : Countable Key.
Proof.
  refine (inj_countable' (λ k, (ky_Kind k, ky_Value k)) (λ '(a, b), mkKey a b) _). by intros [].
Defined.

(** [Key.validate]; [strings.ContainsAny(v, "\n\r\t")] *)
Definition Key_validate (key : Key) : bool :=
  one_of (ky_Kind key) [VenueBudget; EndpointBudget] &&
  negb (is_empty (ky_Value key) || negb (String.eqb (ky_Value key) (TrimSpace (ky_Value key))) ||
        (256 <? String.length (ky_Value key))%nat ||
        negb (no_byte (byte 10) (ky_Value key) && no_byte (byte 13) (ky_Value key) &&
              no_byte (byte 9) (ky_Value key))).

Record Quota := mkQuota { qt_Limit : Z; qt_Interval : duration }.
#[export] Instance Quota_eq_dec : EqDecision Quota.
Proof. solve_decision. Defined.

Record window := mkWindow {
  wn_quota : Quota; wn_start : time; wn_used : Z; wn_blockedUntil : time;
}.

Abbreviation Coordinator := (gmap Key window).

Definition invalid_budget : error := ESentinel InvalidBudget.

(** The window's interval is over at [now]. *)
Definition expired (w : window) (now : time) : bool :=
  negb (Before now (Add (wn_start w) (qt_Interval (wn_quota w)))).

Definition Configure (c : Coordinator) (key : Key) (quota : Quota) (now : time) : Coordinator * option error :=
  if negb (Key_validate key) || (qt_Limit quota <=? 0) || (qt_Interval quota <=? 0)
  then (c, Some invalid_budget)
  else match c !! key with
       | Some existing => if decide (wn_quota existing = quota) then (c, None) else (c, Some invalid_budget)
       | None => (<[key := mkWindow quota now 0 zero_time]> c, None)
       end.

Definition Used (c : Coordinator) (key : Key) (now : time) : Z :=
  match c !! key with
  | None => 0
  | Some w => if expired w now then 0 else wn_used w
  end.

Record Charge := mkCharge { cg_Key : Key; cg_Cost : Z; cg_Reserve : Z }.

(** A window whose interval is over starts a new one. *)
Definition roll (w : window) (now : time) : window :=
  if expired w now then mkWindow (wn_quota w) now 0 (wn_blockedUntil w) else w.

(** How long this charge must wait on its (rolled) window; [used + cost] is a
    64-bit addition. *)
Definition charge_delay (w : window) (charge : Charge) (now : time) : duration :=
  let limit := wrap64 (qt_Limit (wn_quota w) - cg_Reserve charge) in
  let over := if limit <? wrap64 (wn_used w + cg_Cost charge)
              then Sub (Add (wn_start w) (qt_Interval (wn_quota w))) now else 0 in
  Z.max over (Sub (wn_blockedUntil w) now).

(** The first loop of [TryAcquire]: validates and rolls, accumulating the
    longest wait.  An invalid charge stops it, keeping the windows rolled so
    far. *)
Fixpoint survey (c : Coordinator) (seen : list Key) (delay : duration) (charges : list Charge) (now : time)
  : Coordinator * result error duration :=
  match charges with
  | [] => (c, Ok delay)
  | charge :: rest =>
      match c !! cg_Key charge with
      | None => (c, Err invalid_budget)
      | Some w =>
          if bool_decide (cg_Key charge ∈ seen) || (cg_Cost charge <=? 0) || (cg_Reserve charge <? 0) ||
             (wrap64 (qt_Limit (wn_quota w) - cg_Reserve charge) <? cg_Cost charge)
          then (c, Err invalid_budget)
          else
            let w' := roll w now in
            survey (<[cg_Key charge := w']> c) (cg_Key charge :: seen)
              (Z.max delay (charge_delay w' charge now)) rest now
      end
  end.

Definition add_used (charge : Charge) (w : window) : window :=
  mkWindow (wn_quota w) (wn_start w) (wrap64 (wn_used w + cg_Cost charge)) (wn_blockedUntil w).
(** The second loop. *)
Definition commit (c : Coordinator) (charges : list Charge) : Coordinator :=
  foldl (λ c charge, alter (add_used charge) (cg_Key charge) c) c charges.

(** [ctx] is the context's error, if it is already over. *)
Definition TryAcquire (c : Coordinator) (ctx : option error) (charges : list Charge) (now : time)
  : Coordinator * result error duration :=
  match ctx with
  | Some e => (c, Err e)
  | None =>
      match charges with
      | [] => (c, Err invalid_budget)
      | _ =>
          match survey c [] 0 charges now with
          | (c', Err e) => (c', Err e)
          | (c', Ok delay) => if 0 <? delay then (c', Ok delay) else (commit c' charges, Ok 0)
          end
      end
  end.

Definition Block (c : Coordinator) (key : Key) (until : time) : Coordinator :=
  match c !! key with
  | Some w => if After until (wn_blockedUntil w)
              then <[key := mkWindow (wn_quota w) (wn_start w) (wn_used w) until]> c else c
  | None => c
  end.

(** ** Invariant *)

(** Limits small enough that [used + cost] cannot overflow. *)
Definition window_ok (w : window) : Prop :=
  0 < qt_Limit (wn_quota w) < 2 ^ 62 ∧ 0 < qt_Interval (wn_quota w) ∧
  0 ≤ wn_used w ≤ qt_Limit (wn_quota w).
Definition budget_ok (c : Coordinator) : Prop := ∀ k w, c !! k = Some w → window_ok w.

Definition charge_ok (w : window) (charge : Charge) : Prop :=
  0 < cg_Cost charge ∧ 0 ≤ cg_Reserve charge ∧ cg_Cost charge ≤ qt_Limit (wn_quota w) - cg_Reserve charge.

Lemma roll_ok w now : window_ok w → window_ok (roll w now).
Proof. unfold window_ok, roll. destruct (expired w now); simpl; lia. Qed.

Lemma roll_quota w now : wn_quota (roll w now) = wn_quota w.
Proof. unfold roll. by destruct (expired w now). Qed.

Lemma roll_blocked w now : wn_blockedUntil (roll w now) = wn_blockedUntil w.
Proof. unfold roll. by destruct (expired w now). Qed.

Lemma roll_expired w now : window_ok w → expired (roll w now) now = false.
Proof.
  intros (_ & Hi & _). unfold roll. destruct (expired w now) eqn:E; [|done].
  unfold expired, Before, Add. simpl. apply negb_false_iff, Z.ltb_lt. lia.
Qed.

(** A fresh window rolls to itself. *)
Lemma roll_idem w now : window_ok w → roll (roll w now) now = roll w now.
Proof. intros Hw. unfold roll at 1. by rewrite (roll_expired w now Hw). Qed.

(** [Used] only depends on the rolled window. *)
Lemma Used_roll c k w now : c !! k = Some w → Used c k now = wn_used (roll w now).
Proof. unfold Used, roll. intros ->. by destruct (expired w now). Qed.

(** [Cost] and [Reserve] are Go [int]s. *)
Definition charge_typed (charge : Charge) : Prop :=
  in_int64 (cg_Cost charge) ∧ in_int64 (cg_Reserve charge).

Lemma charge_accepted w charge :
  window_ok w → charge_typed charge →
  (cg_Cost charge <=? 0) || (cg_Reserve charge <? 0) ||
    (wrap64 (qt_Limit (wn_quota w) - cg_Reserve charge) <? cg_Cost charge) = false ↔ charge_ok w charge.
Proof.
  unfold window_ok, charge_typed, in_int64, int64_min, int64_max, charge_ok. intros (Hl & _) (Hc & Hr).
  destruct (Z.leb_spec (cg_Cost charge) 0), (Z.ltb_spec (cg_Reserve charge) 0); simpl; try (split; [done|lia]).
  rewrite wrap64_id by (unfold in_int64, int64_min, int64_max; lia).
  rewrite Z.ltb_ge. lia.
Qed.

(** Without overflow, the wait is the rest of the window when the charge does
    not fit, and the rest of the cooldown. *)
Lemma charge_delay_eq w charge now :
  window_ok w → charge_ok w charge →
  charge_delay w charge now =
  Z.max (if qt_Limit (wn_quota w) - cg_Reserve charge <? wn_used w + cg_Cost charge
         then Sub (Add (wn_start w) (qt_Interval (wn_quota w))) now else 0)
        (Sub (wn_blockedUntil w) now).
Proof.
  unfold window_ok, charge_ok. intros (Hl & _ & Hu) (Hc & Hr & Hlim). unfold charge_delay. cbv zeta.
  rewrite (wrap64_id (_ - _)) by (unfold in_int64, int64_min, int64_max; lia).
  by rewrite (wrap64_id (_ + _)) by (unfold in_int64, int64_min, int64_max; lia).
Qed.

(** ** The two loops *)

(** Windows are as they were or rolled at [now]. *)
Definition rolled (now : time) (c c' : Coordinator) : Prop :=
  ∀ k, c' !! k = c !! k ∨ ∃ w, c !! k = Some w ∧ c' !! k = Some (roll w now).

Lemma rolled_refl now c : rolled now c c.
Proof. by left. Qed.

Lemma rolled_insert now c c' k w :
  budget_ok c → c !! k = Some w → rolled now (<[k := roll w now]> c) c' → rolled now c c'.
Proof.
  intros Hok Hk Hr k'. destruct (Hr k') as [E|(w' & Hw' & E)].
  - rewrite E. destruct (decide (k = k')) as [<-|]; [|left; by rewrite lookup_insert_ne].
    rewrite lookup_insert_eq. right. eauto.
  - destruct (decide (k = k')) as [<-|].
    + rewrite lookup_insert_eq in Hw'. injection Hw' as <-.
      rewrite roll_idem in E by (by eapply Hok). eauto.
    + rewrite lookup_insert_ne in Hw' by done. eauto.
Qed.

Lemma rolled_ok now c c' : budget_ok c → rolled now c c' → budget_ok c'.
Proof.
  intros Hok Hr k w Hw. destruct (Hr k) as [E|(w' & Hw' & E)].
  - rewrite E in Hw. by eapply Hok.
  - rewrite E in Hw. injection Hw as <-. apply roll_ok. by eapply Hok.
Qed.

Lemma rolled_Used now c c' k : budget_ok c → rolled now c c' → Used c' k now = Used c k now.
Proof.
  intros Hok Hr. destruct (Hr k) as [E|(w & Hw & E)]; [unfold Used; by rewrite E|].
  rewrite (Used_roll _ _ _ _ Hw), (Used_roll _ _ _ _ E), roll_idem; [done|]. by eapply Hok.
Qed.

(** What a successful survey has established of one charge. *)
Definition surveyed (c c' : Coordinator) (delay : duration) (now : time) (charge : Charge) : Prop :=
  ∃ w, c !! cg_Key charge = Some w ∧ c' !! cg_Key charge = Some (roll w now) ∧
       charge_ok w charge ∧ charge_delay (roll w now) charge now ≤ delay.

Lemma survey_sound charges now : ∀ c seen delay c' r,
  budget_ok c → Forall charge_typed charges → survey c seen delay charges now = (c', r) →
  rolled now c c' ∧ (∀ k, k ∉ map cg_Key charges → c' !! k = c !! k) ∧
  match r with
  | Ok d => delay ≤ d ∧ NoDup (map cg_Key charges) ∧ (∀ k, k ∈ map cg_Key charges → k ∉ seen) ∧
            Forall (surveyed c c' d now) charges
  | Err _ => True
  end.
Proof.
  induction charges as [|ch charges IH]; intros c seen delay c' r Hok Hty Hs; simpl in Hs.
  { injection Hs as <- <-. split; [apply rolled_refl|]. split; [done|]. split; [lia|].
    split; [apply NoDup_nil_2|]. split; [by intros k ?%elem_of_nil|constructor]. }
  apply Forall_cons in Hty as [Hch Hty].
  destruct (c !! cg_Key ch) as [w|] eqn:Hw.
  2: { injection Hs as <- <-. split; [apply rolled_refl|done]. }
  rewrite <- !orb_assoc in Hs. rewrite orb_assoc in Hs.
  destruct (bool_decide (cg_Key ch ∈ seen)) eqn:Hseen; simpl in Hs.
  { injection Hs as <- <-. split; [apply rolled_refl|done]. }
  rewrite ?orb_assoc in Hs.
  destruct (_ || _ || _) eqn:Hv.
  { injection Hs as <- <-. split; [apply rolled_refl|done]. }
  apply charge_accepted in Hv; [|by eapply Hok|done]. apply bool_decide_eq_false in Hseen.
  assert (Hok' : budget_ok (<[cg_Key ch := roll w now]> c)).
  { intros k w' [[<- <-]|[_ Hk]]%lookup_insert_Some; [apply roll_ok|]; by eapply Hok. }
  destruct (IH _ _ _ _ _ Hok' Hty Hs) as (Hr & Hother & Hres). clear IH Hs.
  split; [by eapply rolled_insert|]. split.
  { intros k Hk. simpl in Hk. apply not_elem_of_cons in Hk as [Hne Hk].
    rewrite Hother by done. by apply lookup_insert_ne. }
  destruct r as [d|]; [|done]. destruct Hres as (Hd & Hnd & Hfresh & Hall).
  assert (Hni : cg_Key ch ∉ map cg_Key charges).
  { intros Hin. apply (Hfresh _ Hin). by left. }
  split; [lia|]. split; [simpl; by constructor|]. split.
  { intros k. simpl. rewrite elem_of_cons. intros [->|Hk]; [done|].
    intros Hin. apply (Hfresh k Hk). by right. }
  constructor.
  - exists w. rewrite Hother by done. rewrite lookup_insert_eq. repeat split; try done; try apply Hv. lia.
  - rewrite Forall_forall in *. intros ch' Hin. destruct (Hall ch' Hin) as (w' & Hw' & Hc' & Hcok & Hcd).
    assert (cg_Key ch ≠ cg_Key ch').
    { intros E. apply Hni. rewrite E. by apply list_elem_of_fmap_2. }
    rewrite lookup_insert_ne in Hw' by done. exists w'. done.
Qed.

Lemma commit_other c charges k : k ∉ map cg_Key charges → commit c charges !! k = c !! k.
Proof.
  unfold commit. revert c. induction charges as [|ch charges IH]; intros c Hk; simpl; [done|].
  simpl in Hk. apply not_elem_of_cons in Hk as [Hne Hk]. rewrite IH by done. by apply lookup_alter_ne.
Qed.

Lemma commit_in c charges ch w :
  NoDup (map cg_Key charges) → ch ∈ charges → c !! cg_Key ch = Some w →
  commit c charges !! cg_Key ch = Some (add_used ch w).
Proof.
  unfold commit. revert c. induction charges as [|ch' charges IH]; intros c Hnd Hin Hw;
    [by apply elem_of_nil in Hin|].
  simpl in Hnd. apply NoDup_cons in Hnd as [Hni Hnd]. simpl. apply elem_of_cons in Hin as [<-|Hin].
  - fold (commit (alter (add_used ch) (cg_Key ch) c) charges).
    rewrite commit_other by done. by rewrite lookup_alter_eq, Hw.
  - apply IH; [done..|]. rewrite lookup_alter_ne; [done|]. intros E. apply Hni. rewrite E.
    by apply list_elem_of_fmap_2.
Qed.

(** ** Theorems *)

(** The effect of one [TryAcquire] at [now], from [c] to [c']. *)
Definition acquire_spec (c c' : Coordinator) (charges : list Charge) (now : time) (r : result error duration) : Prop :=
  match r with
  | Ok 0 =>
      NoDup (map cg_Key charges) ∧
      (∀ charge, charge ∈ charges → ∃ w, c !! cg_Key charge = Some w ∧
         Used c' (cg_Key charge) now = Used c (cg_Key charge) now + cg_Cost charge ∧
         Used c' (cg_Key charge) now ≤ qt_Limit (wn_quota w) - cg_Reserve charge ∧
         wn_blockedUntil w ≤ now) ∧
      (∀ k, k ∉ map cg_Key charges → c' !! k = c !! k)
  | _ => ∀ k, Used c' k now = Used c k now
  end.

Lemma survey_granted c c' d charges now :
  budget_ok c → survey c [] 0 charges now = (c', Ok d) → Forall charge_typed charges → d ≤ 0 →
  budget_ok (commit c' charges) ∧ acquire_spec c (commit c' charges) charges now (Ok 0).
Proof.
  intros Hok Hs Hty Hd. destruct (survey_sound _ _ _ _ _ _ _ Hok Hty Hs) as (Hr & Hother & _ & Hnd & _ & Hall).
  pose proof (rolled_ok _ _ _ Hok Hr) as Hok'. rewrite Forall_forall in Hall.
  assert (Hstep : ∀ ch, ch ∈ charges → ∃ w, c !! cg_Key ch = Some w ∧ window_ok (roll w now) ∧
     commit c' charges !! cg_Key ch = Some (add_used ch (roll w now)) ∧ charge_ok w ch ∧
     wn_used (roll w now) + cg_Cost ch ≤ qt_Limit (wn_quota w) - cg_Reserve ch ∧ wn_blockedUntil w ≤ now).
  { intros ch Hin. destruct (Hall ch Hin) as (w & Hw & Hw' & Hcok & Hdel). exists w.
    pose proof (Hok _ _ Hw) as Hwok. pose proof (roll_ok w now Hwok) as Hrok.
    rewrite charge_delay_eq in Hdel by (unfold charge_ok in *; by rewrite ?roll_quota).
    rewrite roll_quota, roll_blocked in Hdel.
    split; [done|]. split; [done|]. split; [by apply commit_in|]. split; [done|].
    pose proof (roll_expired w now Hwok) as He. unfold expired, Before in He.
    apply negb_false_iff, Z.ltb_lt, Sub_pos in He. rewrite roll_quota in He.
    destruct (Z.ltb_spec (qt_Limit (wn_quota w) - cg_Reserve ch) (wn_used (roll w now) + cg_Cost ch)); [lia|].
    split; [lia|]. unfold Sub, int64_max, int64_min in Hdel. lia. }
  split.
  - intros k w Hw. destruct (decide (k ∈ map cg_Key charges)) as [(ch & -> & Hin)%list_elem_of_fmap|Hni].
    + destruct (Hstep ch Hin) as (w0 & _ & Hwk & Hc & (Hc0 & Hres & _) & Hle & _).
      rewrite Hc in Hw. injection Hw as <-. unfold window_ok in *. rewrite roll_quota in Hwk. simpl.
      rewrite roll_quota, wrap64_id by (unfold in_int64, int64_min, int64_max; lia). lia.
    + rewrite commit_other in Hw by done. by eapply Hok'.
  - split; [done|]. split; [|intros k Hk; rewrite commit_other by done; by apply Hother].
    intros ch Hin. destruct (Hstep ch Hin) as (w & Hw & Hwk & Hc & (Hc0 & Hres & _) & Hle & Hblk).
    exists w. split; [done|]. pose proof (Hok _ _ Hw) as Hwok.
    assert (HU : Used (commit c' charges) (cg_Key ch) now = wn_used (roll w now) + cg_Cost ch).
    { unfold Used. rewrite Hc. pose proof (roll_expired w now Hwok) as He. unfold expired in *. simpl.
      rewrite He. apply wrap64_id. unfold window_ok in Hwk. rewrite roll_quota in Hwk.
      unfold in_int64, int64_min, int64_max. lia. }
    rewrite HU, (Used_roll _ _ _ _ Hw). done.
Qed.

Lemma TryAcquire_spec c ctx charges now :
  budget_ok c → Forall charge_typed charges →
  let '(c', r) := TryAcquire c ctx charges now in
  budget_ok c' ∧ acquire_spec c c' charges now r.
Proof.
  intros Hok Hty. unfold TryAcquire. destruct ctx; [done|].
  destruct charges as [|ch0 charges0]; [done|]. set (charges := ch0 :: charges0) in *.
  destruct (survey c [] 0 charges now) as [c' [d|e]] eqn:Hs.
  - destruct (survey_sound _ _ _ _ _ _ _ Hok Hty Hs) as (Hr & _ & _).
    destruct (Z.ltb_spec 0 d).
    + split; [by eapply rolled_ok|]. destruct d; [lia| |lia]. intros k. by apply rolled_Used.
    + by eapply survey_granted.
  - destruct (survey_sound _ _ _ _ _ _ _ Hok Hty Hs) as (Hr & _ & _).
    split; [by eapply rolled_ok|]. intros k. by apply rolled_Used.
Qed.

(** C8: acquisition is all or nothing: a granted call charges every budget it
    names exactly its cost, within the limit minus the reserve and past any
    cooldown, and touches no other; a refused or invalid call charges nothing.
    No budget is ever overspent. *)
Theorem TryAcquire_atomic c ctx charges now :
  budget_ok c → Forall charge_typed charges →
  let '(c', r) := TryAcquire c ctx charges now in
  budget_ok c' ∧ acquire_spec c c' charges now r.
Proof. apply TryAcquire_spec. Qed.

(** A survey that finds every charge affordable now asks for no wait. *)
Lemma survey_complete charges now : ∀ c seen,
  budget_ok c → Forall charge_typed charges → NoDup (map cg_Key charges) →
  (∀ k, k ∈ map cg_Key charges → k ∉ seen) →
  Forall (λ ch, ∃ w, c !! cg_Key ch = Some w ∧ charge_ok w ch ∧ charge_delay (roll w now) ch now ≤ 0) charges →
  ∃ c', survey c seen 0 charges now = (c', Ok 0).
Proof.
  induction charges as [|ch charges IH]; intros c seen Hok Hty Hnd Hfresh Hall; simpl; [eauto|].
  apply Forall_cons in Hty as [Hch Hty], Hall as [(w & Hw & Hcok & Hdel) Hall].
  simpl in Hnd. apply NoDup_cons in Hnd as [Hni Hnd]. rewrite Hw.
  rewrite bool_decide_false by (apply Hfresh; left). simpl "||".
  rewrite (proj2 (charge_accepted w ch (Hok _ _ Hw) Hch) Hcok).
  replace (Z.max 0 (charge_delay (roll w now) ch now)) with 0 by lia.
  apply IH; [|done..| |].
  - intros k w' [[<- <-]|[_ Hk]]%lookup_insert_Some; [apply roll_ok|]; by eapply Hok.
  - intros k Hk. rewrite not_elem_of_cons. split; [by intros ->|]. apply Hfresh. by right.
  - eapply Forall_impl; [apply Forall_forall; rewrite Forall_forall in Hall; intros x Hx; exact (conj Hx (Hall x Hx))|].
    intros ch' [Hin (w' & Hw' & ?)]. exists w'. rewrite lookup_insert_ne; [done|].
    intros E. apply Hni. rewrite E. by apply list_elem_of_fmap_2.
Qed.

(** The wait a refusal reports is enough: a caller that retries after it,
    with no other traffic, is granted.  (A wait of 2^63-1 ns is the saturated
    maximum, about 292 years, and is excluded.) *)
Theorem TryAcquire_delay_sufficient c charges now c' d :
  budget_ok c → Forall charge_typed charges →
  TryAcquire c None charges now = (c', Ok d) → 0 < d < int64_max →
  (TryAcquire c' None charges (now + d)).2 = Ok 0.
Proof.
  intros Hok Hty Hacq Hd. unfold TryAcquire in *.
  destruct charges as [|ch0 charges0]; [done|]. set (charges := ch0 :: charges0) in *.
  destruct (survey c [] 0 charges now) as [c1 [d1|e]] eqn:Hs; [|done].
  destruct (Z.ltb_spec 0 d1); injection Hacq as <- Hd'; [subst d1|lia].
  destruct (survey_sound _ _ _ _ _ _ _ Hok Hty Hs) as (Hr & _ & _ & Hnd & _ & Hall).
  destruct (survey_complete charges (now + d) c1 []) as [c2 Hc2].
  - by eapply rolled_ok.
  - done.
  - done.
  - intros k _. apply not_elem_of_nil.
  - rewrite Forall_forall in *. intros ch Hin. destruct (Hall ch Hin) as (w & Hw & Hw' & Hcok & Hdel).
    pose proof (Hok _ _ Hw) as Hwok. pose proof (roll_ok w now Hwok) as Hrok.
    exists (roll w now). split; [done|]. split; [unfold charge_ok in *; by rewrite roll_quota|].
    pose proof (roll_ok _ (now + d) Hrok) as Hrok2.
    rewrite charge_delay_eq in Hdel |- * by (unfold charge_ok in *; by rewrite ?roll_quota).
    rewrite !roll_quota, !roll_blocked in *. apply Z.max_lub_iff in Hdel as [Hover Hblk].
    apply Z.max_lub; [|unfold Sub, int64_min, int64_max in *; lia].
    set (w1 := roll w now) in *. set (w2 := roll w1 (now + d)).
    assert (Hq : wn_quota w1 = wn_quota w) by apply roll_quota.
    destruct Hcok as (Hc1 & Hc2 & Hc3). destruct Hrok as (_ & _ & Hu1).
    assert (Hfit : wn_used w2 + cg_Cost ch ≤ qt_Limit (wn_quota w) - cg_Reserve ch).
    { unfold w2, roll, expired, Before, Add. rewrite Hq.
      destruct (Z.ltb_spec (qt_Limit (wn_quota w) - cg_Reserve ch) (wn_used w1 + cg_Cost ch)) as [Hlt|Hge].
      - rewrite (proj2 (Z.ltb_ge _ _)); [simpl; lia|].
        unfold Sub, Add, int64_min, int64_max in *. lia.
      - destruct (now + d <? _); simpl; lia. }
    rewrite (proj2 (Z.ltb_ge _ _)) by done. lia.
  - by rewrite Hc2.
Qed.

Lemma Configure_ok c key quota now :
  budget_ok c → qt_Limit quota < 2 ^ 62 → budget_ok (Configure c key quota now).1.
Proof.
  intros Hok Hl. unfold Configure. destruct (_ || _) eqn:Hv; [done|]. breflect.
  destruct (c !! key) as [w|] eqn:Hk; [by case_decide|]. cbn [fst].
  intros k w [[<- <-]|[_ Hw]]%lookup_insert_Some; [|by eapply Hok].
  unfold window_ok. simpl. lia.
Qed.

Lemma Block_ok c key until : budget_ok c → budget_ok (Block c key until).
Proof.
  intros Hok. unfold Block. destruct (c !! key) as [w|] eqn:Hk; [|done].
  destruct (After _ _); [|done]. intros k w' [[<- <-]|[_ Hw]]%lookup_insert_Some; [|by eapply Hok].
  exact (Hok _ _ Hk).
Qed.

(** Cooldowns only extend. *)
Lemma Block_monotone c key until k w :
  c !! k = Some w →
  ∃ w', Block c key until !! k = Some w' ∧ wn_blockedUntil w ≤ wn_blockedUntil w' ∧
        (k = key → until ≤ wn_blockedUntil w').
Proof.
  intros Hw. unfold Block. destruct (c !! key) as [v|] eqn:Hv.
  - unfold After. destruct (Z.ltb_spec (wn_blockedUntil v) until).
    + destruct (decide (key = k)) as [<-|].
      * rewrite lookup_insert_eq. rewrite Hw in Hv. injection Hv as <-. eexists. split; [done|]. simpl. lia.
      * rewrite lookup_insert_ne by done. exists w. split; [done|]. split; [lia|congruence].
    + exists w. split; [done|]. split; [lia|]. intros ->. rewrite Hw in Hv. injection Hv as <-. lia.
  - exists w. split; [done|]. split; [lia|]. intros ->. congruence.
Qed.

(** Configuring a budget and extending a cooldown spend nothing. *)
Lemma Configure_Used c key quota t k now : Used (Configure c key quota t).1 k now = Used c k now.
Proof.
  unfold Configure. destruct (_ || _); [done|].
  destruct (c !! key) as [w|] eqn:Hk; [by case_decide|]. cbn [fst].
  unfold Used. destruct (decide (key = k)) as [<-|]; [|by rewrite lookup_insert_ne].
  rewrite lookup_insert_eq, Hk. by destruct (expired _ _).
Qed.

Lemma Block_Used c key until k now : Used (Block c key until) k now = Used c k now.
Proof.
  unfold Block. destruct (c !! key) as [w|] eqn:Hk; [|done]. destruct (After _ _); [|done].
  unfold Used. destruct (decide (key = k)) as [<-|]; [|by rewrite lookup_insert_ne].
  by rewrite lookup_insert_eq, Hk.
Qed.

Lemma Configure_present c key quota t :
  (Configure c key quota t).2 = None →
  ∃ w, (Configure c key quota t).1 !! key = Some w ∧ wn_quota w = quota.
Proof.
  unfold Configure. destruct (_ || _); [done|]. destruct (c !! key) as [w|] eqn:Hk.
  - case_decide; [|done]. intros _. by exists w.
  - intros _. cbn [fst]. eexists. by rewrite lookup_insert_eq.
Qed.

Lemma Configure_keeps c key quota t k w :
  c !! k = Some w → (Configure c key quota t).1 !! k = Some w.
Proof.
  intros Hw. unfold Configure. destruct (_ || _); [done|].
  destruct (c !! key) as [v|] eqn:Hk; [by case_decide|].
  cbn [fst]. rewrite lookup_insert_ne; [done|]. intros ->. congruence.
Qed.

(** ** Concrete inputs *)

Definition sample_key : Key := mkKey VenueBudget "binance/egress".
Definition sample_budget : Coordinator :=
  <[sample_key := mkWindow (mkQuota 1200 Minute) unix_epoch 950 zero_time]>
  (<[mkKey EndpointBudget "binance/GET /api" := mkWindow (mkQuota 10 Second) unix_epoch 10 zero_time]> ∅).
Definition sample_charges : list Charge :=
  [mkCharge sample_key 20 240; mkCharge (mkKey EndpointBudget "binance/GET /api") 1 0].

Lemma sample_budget_ok : budget_ok sample_budget.
Proof.
  intros k w. unfold sample_budget. intros [[<- <-]|[_ [[<- <-]|[_ Hw]]%lookup_insert_Some]]%lookup_insert_Some.
  - unfold window_ok, Minute, Second. simpl. lia.
  - unfold window_ok, Second. simpl. lia.
  - by rewrite lookup_empty in Hw.
Qed.

Lemma sample_charges_typed : Forall charge_typed sample_charges.
Proof.
  repeat constructor; unfold charge_typed, in_int64, int64_min, int64_max; simpl; lia.
Qed.

Lemma TryAcquire_atomic_witness :
  let '(c', r) := TryAcquire sample_budget None sample_charges (unix_epoch + Millisecond) in
  budget_ok c' ∧ acquire_spec sample_budget c' sample_charges (unix_epoch + Millisecond) r.
Proof.
  apply TryAcquire_atomic; [apply sample_budget_ok|apply sample_charges_typed].
Defined.

(** 950 of 960 non-cancel units are spent: the call must wait for the minute. *)
Lemma TryAcquire_delay_sufficient_witness :
  let '(c', r) := TryAcquire sample_budget None sample_charges (unix_epoch + Millisecond) in
  r = Ok (Minute - Millisecond) ∧
  (TryAcquire c' None sample_charges (unix_epoch + Millisecond + (Minute - Millisecond))).2 = Ok 0.
Proof.
  destruct (TryAcquire sample_budget None sample_charges (unix_epoch + Millisecond)) as [c' r] eqn:E.
  assert (Hr : r = Ok (Minute - Millisecond)).
  { change r with (c', r).2. rewrite <- E. vm_compute. reflexivity. }
  split; [exact Hr|]. subst r.
  apply (TryAcquire_delay_sufficient sample_budget sample_charges (unix_epoch + Millisecond) c' (Minute - Millisecond)
           sample_budget_ok sample_charges_typed E).
  vm_compute. split; reflexivity.
Defined.
