(* ===== verification/Transport.v ===== *)
(** * Budgeted HTTP transport

    [internal/venuehttp/policy.go]: the cost, endpoint bucket and action of a
    venue request.  [gateway/ratelimit/transport.go]: the round tripper that
    charges them to the coordinator before sending.  A request is its decoded
    parts: method, path, query and the body members the policy reads. *)

From Stdlib Require Import Ascii String ZArith Lia.
From stdpp Require Import base list strings gmap.
From S2P Require Import Prelude GoStrings Errors Model HttpErrors RateLimit.

#[local] Open Scope string_scope.
#[local] Open Scope list_scope.
#[local] Open Scope Z_scope.

(** ** Requests *)

(** A JSON body member, by what decoding it into the policy's types gives. *)
Inductive body_value :=
| BArray (length : Z)
| BString (value : string)
| BObject (type : string) (orders cancels : Z)
| BNull
| BOther.

Record Request := mkRequest {
  rq_Method : string; rq_Path : string; rq_venue : string; rq_principal : string;
  rq_query : string → string;
  (** length of the [symbols] query array, when it is valid JSON *)
  rq_symbols : option Z;
  (** whether the body can be re-read, and its top-level members *)
  rq_hasBody : bool; rq_body : gmap string body_value;
  (** the parsed media type and the multipart form fields (name, and its first
      16 bytes unless reading failed) *)
  rq_media : option string; rq_parts : list (string * option string);
}.

Definition MethodGet := "GET".
Definition MethodPost := "POST".
Definition MethodDelete := "DELETE".

(** The part of [s] before the first [sub], if any. *)
Fixpoint before_first (s sub : string) : option string :=
  if HasPrefix s sub then Some ""
  else match s with
       | EmptyString => None
       | String c s' => match before_first s' sub with Some p => Some (String c p) | None => None end
       end.
(** The part after the last slash. *)
Fixpoint last_segment_from (s current : string) : string :=
  match s with
  | EmptyString => current
  | String c s' => if Ascii.eqb c "/" then last_segment_from s' "" else last_segment_from s' (current +:+ String c "")
  end.
Definition last_segment (s : string) : string := last_segment_from s "".

(** [limit, _ := strconv.Atoi(s)]: 0 on a syntax error, saturated on a range
    error. *)
Definition Atoi_lenient (s : string) : Z :=
  match s with
  | EmptyString => 0
  | String c s' =>
      let clamp z := Z.max int64_min (Z.min int64_max z) in
      let magnitude t := ParseUint t (4 * Z.of_nat (String.length t) + 1) in
      if Ascii.eqb c "-" then match magnitude s' with Some n => clamp (- n) | None => 0 end
      else if Ascii.eqb c "+" then match magnitude s' with Some n => clamp n | None => 0 end
      else match magnitude s with Some n => clamp n | None => 0 end
  end.

(** ** Binance weights *)

Definition spot_cost (request : Request) (limit : Z) (part : string) : option Z :=
  let no_symbol := is_empty (rq_query request "symbol") in
  if one_of part ["ping"; "time"] then Some 1
  else if one_of part ["exchangeInfo"; "account"; "myTrades"] then Some 20
  else if String.eqb part "order" then Some 4
  else if String.eqb part "openOrders" then Some (if no_symbol then 80 else 6)
  else if String.eqb part "depth" then
    let limit := if limit <=? 0 then 100 else limit in
    Some (if limit <=? 100 then 5 else if limit <=? 500 then 25 else if limit <=? 1000 then 50 else 250)
  else if one_of part ["klines"; "uiKlines"; "avgPrice"] then Some 2
  else if one_of part ["ticker/price"; "ticker/bookTicker"] then Some (if no_symbol then 4 else 2)
  else if String.eqb part "ticker/24hr" then
    Some (if negb no_symbol then 2
          else match rq_symbols request with
               | Some n => if 0 <? n then if n <=? 20 then 2 else if n <=? 100 then 40 else 80 else 80
               | None => 80
               end)
  else None.

Definition futures_cost (request : Request) (limit : Z) (part : string) : option Z :=
  let no_symbol := is_empty (rq_query request "symbol") in
  if one_of part ["ping"; "time"; "exchangeInfo"; "openInterest"; "order"] then Some 1
  else if String.eqb part "depth" then
    let limit := if limit <=? 0 then 500 else limit in
    Some (if limit <=? 50 then 2 else if limit <=? 100 then 5 else if limit <=? 500 then 10 else 20)
  else if one_of part ["ticker"; "24hr"] then Some (if no_symbol then 40 else 1)
  else if String.eqb part "bookTicker" then Some (if no_symbol then 5 else 2)
  else if String.eqb part "price" then Some (if no_symbol then 2 else 1)
  else if String.eqb part "premiumIndex" then Some (if no_symbol then 10 else 1)
  else if one_of part ["klines"; "markPriceKlines"; "indexPriceKlines"] then
    let limit := if limit <=? 0 then 500 else limit in
    Some (if limit <? 100 then 1 else if limit <? 500 then 2 else if limit <=? 1000 then 5 else 10)
  else if one_of part ["account"; "balance"; "positionRisk"; "userTrades"; "allOrders"] then Some 5
  else if String.eqb part "openOrders" then Some (if no_symbol then 40 else 1)
  else if one_of part ["fundingRate"; "fundingInfo"] then Some 1
  else None.

Definition binanceRequestCost (request : Request) : Z :=
  let path := rq_Path request in
  if negb (String.eqb (rq_Method request) MethodGet) then 1 else
  let limit := Atoi_lenient (rq_query request "limit") in
  let spot := if HasPrefix path "/api/v3/" then spot_cost request limit (TrimPrefix path "/api/v3/") else None in
  let futures := if HasPrefix path "/fapi/" then futures_cost request limit (last_segment path) else None in
  match spot with Some c => c | None => match futures with Some c => c | None => 20 end end.

(** ** Lighter *)

Fixpoint lighter_parts (parts : list (string * option string)) (fallback : string) : string :=
  match parts with
  | [] => fallback
  | (name, value) :: rest =>
      if negb (String.eqb name "tx_type") then lighter_parts rest fallback
      else match value with
           | None => fallback
           | Some v => if String.eqb v "14" then "place"
                       else if one_of v ["15"; "16"] then "cancel" else fallback
           end
  end.
Definition lighterAction (request : Request) (fallback : string) : string :=
  if negb (String.eqb (rq_Method request) MethodPost) ||
     negb (String.eqb (rq_Path request) "/api/v1/sendTx") || negb (rq_hasBody request) then fallback
  else match rq_media request with
       | Some media => if String.eqb media "multipart/form-data"
                       then lighter_parts (rq_parts request) fallback else fallback
       | None => fallback
       end.

(** ** [PolicyForRequest] *)

Record HTTPPolicy := mkPolicy { hp_Venue : string; hp_Endpoint : string; hp_Cost : Z; hp_Action : string }.

Definition requestBodyFields (request : Request) : gmap string body_value :=
  if rq_hasBody request then rq_body request else ∅.

Definition hyperliquid_info_cost (kind : string) : Z :=
  if one_of kind ["l2Book"; "allMids"; "clearinghouseState"; "spotClearinghouseState"; "orderStatus"; "exchangeStatus"]
  then 2
  else if one_of kind ["historicalOrders"; "userFills"; "userFillsByTime"; "userTwapSliceFills"] then 120
  else if String.eqb kind "userRole" then 60
  else if String.eqb kind "candleSnapshot" then 105
  else 20.

(** Each venue's case, from the default policy: action, cost, endpoint. *)
Definition venue_policy (request : Request) (endpoint action : string) : string * Z * string :=
  let venue := rq_venue request in
  let path := rq_Path request in
  let body := requestBodyFields request in
  let post := String.eqb (rq_Method request) MethodPost in
  let delete := String.eqb (rq_Method request) MethodDelete in
  if one_of venue ["binance"; "aster"] then
    let action := if post && (HasSuffix path "/order" || HasSuffix path "/batchOrders") then "place" else action in
    let action := if delete && Contains (ToLower path) "order" then "cancel" else action in
    (action, if String.eqb venue "binance" then binanceRequestCost request else 1, endpoint)
  else if String.eqb venue "bybit" then
    let action := if HasPrefix path "/v5/order/create" then "place" else action in
    let action := if HasPrefix path "/v5/order/cancel" then "cancel" else action in
    let cost := match body !! "request" with Some (BArray n) => if 1 <? n then n else 1 | _ => 1 end in
    (action, cost, endpoint)
  else if String.eqb venue "bitget" then
    let action := if HasSuffix path "/place-order" || HasSuffix path "/batch-place-order" then "place" else action in
    let action := if Contains path "/cancel-" || Contains path "/batch-cancel-" then "cancel" else action in
    (action, 1, endpoint)
  else if String.eqb venue "okx" then
    let action := if post && one_of path ["/api/v5/trade/order"; "/api/v5/trade/batch-orders"] then "place" else action in
    let action := if HasPrefix path "/api/v5/trade/cancel-" then "cancel" else action in
    (action, 1, endpoint)
  else if String.eqb venue "gate" then
    let action := if post && HasSuffix path "/orders" then "place" else action in
    let action := if delete && Contains path "/orders" then "cancel" else action in
    (action, 1, endpoint)
  else if String.eqb venue "hyperliquid" then
    if String.eqb path "/info" then
      let kind := match body !! "type" with Some (BString k) => k | _ => "" end in
      ("read", hyperliquid_info_cost kind, endpoint +:+ "/" +:+ kind)
    else if String.eqb path "/exchange" then
      let decoded := match body !! "action" with
                     | Some (BObject t o c) => Some (t, o, c)
                     | Some BNull => Some ("", 0, 0)
                     | _ => None
                     end in
      match decoded with
      | Some (type, orders, cancels) =>
          let action := if String.eqb type "order" then "place"
                        else if one_of type ["cancel"; "cancelByCloid"] then "cancel" else action in
          (action, 1 + (orders + cancels) / 40, endpoint +:+ "/" +:+ type)
      | None => (action, 1, endpoint)
      end
    else (action, 1, endpoint)
  else if String.eqb venue "lighter" then (lighterAction request action, 1, endpoint)
  else if String.eqb venue "nado" then
    if HasSuffix path "/execute" then
      let has key := match body !! key with Some _ => true | None => false end in
      let action := if has "place_order" then "place" else action in
      let action := if has "cancel_orders" then "cancel" else action in
      let action := if has "cancel_product_orders" then "cancel" else action in
      (action, 1, endpoint)
    else ("read", 1, endpoint)
  else (action, 1, endpoint).

Definition PolicyForRequest (request : Request) : HTTPPolicy :=
  let path := rq_Path request in
  let endpoint := match before_first path "/orders/" with Some p => p +:+ "/orders/:id" | None => path end in
  let endpoint := rq_Method request +:+ " " +:+ endpoint in
  let action := if String.eqb (rq_Method request) MethodGet then "read" else "" in
  let '(action, cost, endpoint) := venue_policy request endpoint action in
  mkPolicy (rq_venue request) endpoint cost action.

(** ** [Transport.RoundTrip] *)

Definition localUnitsPerMinute : list (string * Z) :=
  [("binance", 1200); ("aster", 1200); ("bybit", 1200); ("bitget", 600); ("okx", 600); ("gate", 600);
   ("hyperliquid", 1200); ("lighter", 300); ("nado", 300)].
Definition venue_limit (venue : string) : option Z :=
  option_map snd (List.find (λ p, String.eqb p.1 venue) localUnitsPerMinute).

Definition venue_key (policy : HTTPPolicy) : Key := mkKey VenueBudget (hp_Venue policy +:+ "/egress").
Definition endpoint_key (request : Request) (policy : HTTPPolicy) : Key :=
  let scope := if is_empty (rq_principal request) then hp_Venue policy
               else hp_Venue policy +:+ "/" +:+ rq_principal request in
  mkKey EndpointBudget (scope +:+ "/" +:+ hp_Endpoint policy).

Definition endpoint_limit (policy : HTTPPolicy) : Z :=
  if one_of (hp_Venue policy) ["nado"; "lighter"] then 5
  else if String.eqb (hp_Venue policy) "bybit" then
    if String.eqb (hp_Endpoint policy) "POST /v5/order/cancel-all" then 1
    else if one_of (hp_Endpoint policy) ["GET /v5/account/fee-rate"; "POST /v5/account/set-margin-mode"] then 5
    else 10
  else 10.

Definition cancel_reserve (policy : HTTPPolicy) (limit : Z) : Z :=
  if String.eqb (hp_Action policy) "cancel" then 0 else limit / 5.

(** What the round tripper reads of a response. *)
Record Reply := mkReply {
  rp_StatusCode : Z; rp_RetryAfter : string; rp_LimitStatus : string; rp_LimitReset : string;
}.

(** The clock reads of one call, in order. *)
Record clock := mkClock { ck_venue : time; ck_endpoint : time; ck_acquire : time; ck_retry : time; ck_block : time }.

Definition charges_for (request : Request) (policy : HTTPPolicy) (limit : Z) : list Charge :=
  [mkCharge (venue_key policy) (hp_Cost policy) (cancel_reserve policy limit);
   mkCharge (endpoint_key request policy) 1 0].

(** Cooldowns taken from a venue's reply. *)
Definition note_reply (ParseTime : string → option time) (c : Coordinator) (request : Request)
    (policy : HTTPPolicy) (reply : Reply) (ck : clock) : Coordinator :=
  let delay := RetryAfter ParseTime (rp_RetryAfter reply) (ck_retry ck) in
  let c :=
    if (rp_StatusCode reply =? 429) || (rp_StatusCode reply =? 418) then
      let delay := if delay <=? 0 then Second else delay in
      Block c (venue_key policy) (Add (ck_block ck) delay)
    else c in
  if String.eqb (hp_Venue policy) "bybit" && String.eqb (rp_LimitStatus reply) "0" then
    match ParseInt (rp_LimitReset reply) with
    | Some millis => Block c (endpoint_key request policy) (unix_epoch + millis * Millisecond)
    | None => c
    end
  else c.

(** [next] is the wrapped transport: a response or an error, or both. *)
Definition RoundTrip {N} (ParseTime : string → option time) (c : Coordinator) (ctx : option error)
    (request : Request) (next : N → Request → N * (option Reply * option error)) (net : N) (ck : clock)
  : Coordinator * N * (option Reply * option error) :=
  let policy := PolicyForRequest request in
  match venue_limit (hp_Venue policy) with
  | None => (c, net, (None, Some (EText "SDK request rate policy is required")))
  | Some limit =>
      if is_empty (hp_Endpoint policy) || (hp_Cost policy <=? 0)
      then (c, net, (None, Some (EText "SDK request rate policy is required")))
      else
        let '(c, err) := Configure c (venue_key policy) (mkQuota limit Minute) (ck_venue ck) in
        match err with
        | Some e => (c, net, (None, Some e))
        | None =>
            let '(c, err) := Configure c (endpoint_key request policy)
                               (mkQuota (endpoint_limit policy) Second) (ck_endpoint ck) in
            match err with
            | Some e => (c, net, (None, Some e))
            | None =>
                match TryAcquire c ctx (charges_for request policy limit) (ck_acquire ck) with
                | (c, Err e) => (c, net, (None, Some e))
                | (c, Ok delay) =>
                    if 0 <? delay then (c, net, (None, Some (ELocalRateLimit delay (hp_Action policy))))
                    else
                      let '(net, (reply, err)) := next net request in
                      (match reply with
                       | Some r => note_reply ParseTime c request policy r ck
                       | None => c
                       end, net, (reply, err))
                end
            end
        end
  end.

(** ** Costs fit the budget *)

(** Batches small enough for the venue budget. *)
Definition batch_ok (request : Request) : Prop :=
  (∀ n, rq_body request !! "request" = Some (BArray n) → n ≤ 960) ∧
  (∀ t o c, rq_body request !! "action" = Some (BObject t o c) → 0 ≤ o ∧ 0 ≤ c ∧ o + c ≤ 38000).

Lemma spot_cost_bounds request limit part c : spot_cost request limit part = Some c → 1 ≤ c ≤ 250.
Proof.
  unfold spot_cost. cbv zeta. destruct (is_empty _), (rq_symbols request);
  repeat (split_guard; [intros [= <-]; repeat split_guard; lia|]); done.
Qed.

Lemma futures_cost_bounds request limit part c : futures_cost request limit part = Some c → 1 ≤ c ≤ 250.
Proof.
  unfold futures_cost. cbv zeta. destruct (is_empty _);
  repeat (split_guard; [intros [= <-]; repeat split_guard; lia|]); done.
Qed.

Lemma binanceRequestCost_bounds request : 1 ≤ binanceRequestCost request ≤ 250.
Proof.
  unfold binanceRequestCost. cbv zeta. destruct (negb _); [lia|].
  destruct (if HasPrefix _ "/api/v3/" then _ else None) as [c|] eqn:E.
  - destruct (HasPrefix _ "/api/v3/"); [|done]. by apply spot_cost_bounds in E.
  - destruct (if HasPrefix _ "/fapi/" then _ else None) as [c|] eqn:E'; [|lia].
    destruct (HasPrefix _ "/fapi/"); [|done]. by apply futures_cost_bounds in E'.
Qed.

Lemma hyperliquid_info_cost_bounds kind : 1 ≤ hyperliquid_info_cost kind ≤ 120.
Proof. unfold hyperliquid_info_cost. repeat split_guard; lia. Qed.

Lemma body_member request key v :
  requestBodyFields request !! key = Some v → rq_body request !! key = Some v.
Proof. unfold requestBodyFields. destruct (rq_hasBody request); [done|]. by rewrite lookup_empty. Qed.

(** The venue-specific cost bound. *)
Lemma venue_policy_cost request endpoint action :
  batch_ok request →
  1 ≤ (venue_policy request endpoint action).1.2 ≤
  (if one_of (rq_venue request) ["binance"; "bybit"; "hyperliquid"] then 960 else 1).
Proof.
  intros [Hbybit Hhyper]. unfold venue_policy, one_of. cbn [existsb].
  destruct (String.eqb_spec (rq_venue request) "binance") as [E|E]; cbn [orb].
  { pose proof (binanceRequestCost_bounds request). cbn [fst snd]. lia. }
  destruct (String.eqb_spec (rq_venue request) "aster") as [E1|E1]; cbn [orb fst snd]; [rewrite E1; simpl; lia|].
  destruct (String.eqb_spec (rq_venue request) "bybit") as [E2|E2]; cbn [orb fst snd].
  { destruct (requestBodyFields request !! "request") as [[n| | | |]|] eqn:Eb; try lia.
    apply body_member, Hbybit in Eb. destruct (Z.ltb_spec 1 n); lia. }
  destruct (String.eqb_spec (rq_venue request) "hyperliquid") as [E3|E3]; cbn [orb].
  - rewrite E3. cbn -[Z.div hyperliquid_info_cost requestBodyFields].
    destruct (String.eqb (rq_Path request) "/info").
    { cbn [fst snd]. match goal with |- context [hyperliquid_info_cost ?k] =>
        pose proof (hyperliquid_info_cost_bounds k) end. lia. }
    destruct (String.eqb (rq_Path request) "/exchange"); cbn [fst snd]; [|lia].
    destruct (requestBodyFields request !! "action") as [[| |t o c| |]|] eqn:Ea; cbn -[Z.div]; try lia;
      [|by vm_compute].
    apply body_member, Hhyper in Ea. pose proof (Z.div_pos (o + c) 40).
    pose proof (Z.div_le_upper_bound (o + c) 40 950). lia.
  - repeat (split_guard; cbn [fst snd]; [lia|]). repeat split_guard; cbn [fst snd]; lia.
Qed.

Lemma venue_limit_cases venue limit :
  venue_limit venue = Some limit →
  300 ≤ limit ≤ 1200 ∧ (one_of venue ["binance"; "bybit"; "hyperliquid"] = true → limit = 1200).
Proof.
  unfold venue_limit, localUnitsPerMinute. cbn [List.find fst].
  repeat match goal with |- context [String.eqb ?a venue] => destruct (String.eqb_spec a venue) as [<-|] end;
    simpl; try (intros [= <-]; split; [lia|by vm_compute]); done.
Qed.

Lemma policy_venue request : hp_Venue (PolicyForRequest request) = rq_venue request.
Proof. unfold PolicyForRequest. by destruct (venue_policy _ _ _) as [[? ?] ?]. Qed.

Lemma policy_cost request :
  ∃ endpoint action, hp_Cost (PolicyForRequest request) = (venue_policy request endpoint action).1.2.
Proof.
  unfold PolicyForRequest. do 2 eexists. by destruct (venue_policy _ _ _) as [[? ?] ?] eqn:E; rewrite E.
Qed.

Lemma policy_affordable request limit :
  batch_ok request → venue_limit (rq_venue request) = Some limit →
  1 ≤ hp_Cost (PolicyForRequest request) ≤ limit - cancel_reserve (PolicyForRequest request) limit.
Proof.
  intros Hb Hl. destruct (policy_cost request) as (ep & ac & ->).
  pose proof (venue_policy_cost request ep ac Hb). apply venue_limit_cases in Hl as [Hr H1200].
  unfold cancel_reserve. destruct (one_of (rq_venue request) _).
  - rewrite H1200 by done. destruct (String.eqb _ _); [lia|]. change (1200 / 5) with 240. lia.
  - destruct (String.eqb _ _); [lia|]. pose proof (Z.div_le_upper_bound limit 5 (limit - 1)). lia.
Qed.

(** ** Nothing is sent without budget *)

Lemma note_reply_ok PT c request policy reply ck :
  budget_ok c → budget_ok (note_reply PT c request policy reply ck).
Proof.
  intros Hok. unfold note_reply. cbv zeta.
  assert (H1 : ∀ b k u, budget_ok (if (b : bool) then Block c k u else c)).
  { intros [] k u; [by apply Block_ok|done]. }
  destruct (_ && _); [|apply H1]. destruct (ParseInt _); [|apply H1]. apply Block_ok, H1.
Qed.

Lemma note_reply_Used PT c request policy reply ck k now :
  Used (note_reply PT c request policy reply ck) k now = Used c k now.
Proof.
  unfold note_reply. cbv zeta.
  assert (H1 : ∀ b key u, Used (if (b : bool) then Block c key u else c) k now = Used c k now).
  { intros [] key u; [by apply Block_Used|done]. }
  destruct (_ && _); [|apply H1]. destruct (ParseInt _); [|apply H1]. by rewrite Block_Used, H1.
Qed.

Lemma keys_differ request policy : venue_key policy ≠ endpoint_key request policy.
Proof. unfold venue_key, endpoint_key. by intros [=]. Qed.

Lemma charges_typed request limit :
  batch_ok request → venue_limit (rq_venue request) = Some limit →
  Forall charge_typed (charges_for request (PolicyForRequest request) limit).
Proof.
  intros Hb Hl. pose proof (policy_affordable request limit Hb Hl) as Hc.
  apply venue_limit_cases in Hl as [Hr _]. unfold cancel_reserve in Hc.
  pose proof (Z.div_pos limit 5). pose proof (Z.div_le_upper_bound limit 5 limit).
  repeat constructor; unfold charge_typed, in_int64, int64_min, int64_max, cancel_reserve; simpl;
    destruct (String.eqb _ _); lia.
Qed.

Section round_trip.
Context {N : Type} (PT : string → option time) (request : Request) (ck : clock) (ctx : option error).
Context (next : N → Request → N * (option Reply * option error)) (net : N).
Let policy := PolicyForRequest request.
Let now := ck_acquire ck.

(** The call did not reach the network, and spent nothing. *)
Definition not_sent (c c' : Coordinator) (net' : N) (out : option Reply * option error) : Prop :=
  net' = net ∧ out.1 = None ∧ is_Some out.2 ∧ (∀ k, Used c' k now = Used c k now).

(** The network served the call once, after its cost was charged to the venue and
    one unit to the endpoint, within their limits. *)
Definition sent_within_budget (c c' : Coordinator) (net' : N) (out : option Reply * option error) : Prop :=
  (net', out) = next net request ∧
  ∃ limit, venue_limit (hp_Venue policy) = Some limit ∧
    Used c' (venue_key policy) now = Used c (venue_key policy) now + hp_Cost policy ∧
    Used c' (venue_key policy) now ≤ limit - cancel_reserve policy limit ∧
    Used c' (endpoint_key request policy) now = Used c (endpoint_key request policy) now + 1 ∧
    Used c' (endpoint_key request policy) now ≤ endpoint_limit policy.

(** The charges of a granted acquisition, read on both budgets. *)
Lemma granted_budgets c1 c2 limit (w1 w2 : window) :
  c1 !! venue_key policy = Some w1 → wn_quota w1 = mkQuota limit Minute →
  c1 !! endpoint_key request policy = Some w2 → wn_quota w2 = mkQuota (endpoint_limit policy) Second →
  acquire_spec c1 c2 (charges_for request policy limit) now (Ok 0) →
  Used c2 (venue_key policy) now = Used c1 (venue_key policy) now + hp_Cost policy ∧
  Used c2 (venue_key policy) now ≤ limit - cancel_reserve policy limit ∧
  Used c2 (endpoint_key request policy) now = Used c1 (endpoint_key request policy) now + 1 ∧
  Used c2 (endpoint_key request policy) now ≤ endpoint_limit policy.
Proof.
  intros Hw1 Hq1 Hw2 Hq2 (_ & Hch & _).
  destruct (Hch (mkCharge (venue_key policy) (hp_Cost policy) (cancel_reserve policy limit)))
    as (w & Hw & HU & HL & _); [left|].
  destruct (Hch (mkCharge (endpoint_key request policy) 1 0)) as (w' & Hw' & HU' & HL' & _); [right; left|].
  simpl in *. rewrite Hw1 in Hw. rewrite Hw2 in Hw'. injection Hw as <-. injection Hw' as <-.
  rewrite Hq1 in HL. rewrite Hq2 in HL'. simpl in *. repeat split; lia.
Qed.

(** What a round trip does before it sends: nothing here looks at the network. *)
Definition admission (c : Coordinator) : Coordinator * option error :=
  match venue_limit (hp_Venue policy) with
  | None => (c, Some (EText "SDK request rate policy is required"))
  | Some limit =>
      if is_empty (hp_Endpoint policy) || (hp_Cost policy <=? 0) then (c, Some (EText "SDK request rate policy is required"))
      else
        match Configure c (venue_key policy) (mkQuota limit Minute) (ck_venue ck) with
        | (c, Some e) => (c, Some e)
        | (c, None) =>
            match Configure c (endpoint_key request policy) (mkQuota (endpoint_limit policy) Second) (ck_endpoint ck) with
            | (c, Some e) => (c, Some e)
            | (c, None) =>
                match TryAcquire c ctx (charges_for request policy limit) now with
                | (c, Err e) => (c, Some e)
                | (c, Ok delay) => (c, if 0 <? delay then Some (ELocalRateLimit delay (hp_Action policy)) else None)
                end
            end
        end
  end.
Lemma RoundTrip_admission c : RoundTrip PT c ctx request next net ck =
  match admission c with
  | (c', Some e) => (c', net, (None, Some e))
  | (c', None) => (match (next net request).2.1 with Some r => note_reply PT c' request policy r ck | None => c' end, (next net request).1, (next net request).2)
  end.
Proof.
  unfold RoundTrip, admission. fold policy now. destruct (venue_limit _) as [limit|]; [|done]. destruct (_ || _); [done|].
  destruct (Configure c _ _ _) as [c1 [e1|]]; [done|]. destruct (Configure c1 _ _ _) as [c2 [e2|]]; [done|].
  destruct (TryAcquire _ _ _ _) as [c3 [d|e]]; [|done]. destruct (0 <? d); [done|]. by destruct (next net request) as [net' [reply err]].
Qed.

(** Both budgets are in place before anything is charged. *)
Lemma both_configured c limit c1 c2 : budget_ok c → limit < 2 ^ 62 →
  Configure c (venue_key policy) (mkQuota limit Minute) (ck_venue ck) = (c1, None) →
  Configure c1 (endpoint_key request policy) (mkQuota (endpoint_limit policy) Second) (ck_endpoint ck) = (c2, None) →
  ∃ w1 w2, c2 !! venue_key policy = Some w1 ∧ wn_quota w1 = mkQuota limit Minute ∧
    c2 !! endpoint_key request policy = Some w2 ∧ wn_quota w2 = mkQuota (endpoint_limit policy) Second.
Proof.
  intros Hok Hl E1 E2. destruct (Configure_present c (venue_key policy) (mkQuota limit Minute) (ck_venue ck)) as (w1 & Hw1 & Hq1); [by rewrite E1|].
  destruct (Configure_present c1 (endpoint_key request policy) (mkQuota (endpoint_limit policy) Second) (ck_endpoint ck)) as (w2 & Hw2 & Hq2); [by rewrite E2|].
  rewrite E1 in Hw1. apply (Configure_keeps c1 (endpoint_key request policy) (mkQuota (endpoint_limit policy) Second) (ck_endpoint ck)) in Hw1. rewrite E2 in Hw1, Hw2. by exists w1, w2.
Qed.
Lemma granted_at_once c c' limit d : TryAcquire c ctx (charges_for request policy limit) now = (c', Ok d) → d ≤ 0 → d = 0.
Proof.
  unfold TryAcquire. destruct ctx; [done|]. simpl charges_for. cbv iota.
  destruct (survey _ _ _ _ _) as [c1 [d'|e']]; [|done]. destruct (Z.ltb_spec 0 d'); intros [= _ <-]; lia.
Qed.

(** A refused request spends nothing; an admitted one is charged to both budgets. *)
Lemma admission_spec c : budget_ok c → batch_ok request →
  let '(c', refused) := admission c in
  budget_ok c' ∧
  match refused with
  | Some _ => ∀ k, Used c' k now = Used c k now
  | None => ∃ limit, venue_limit (hp_Venue policy) = Some limit ∧
      Used c' (venue_key policy) now = Used c (venue_key policy) now + hp_Cost policy ∧
      Used c' (venue_key policy) now ≤ limit - cancel_reserve policy limit ∧
      Used c' (endpoint_key request policy) now = Used c (endpoint_key request policy) now + 1 ∧
      Used c' (endpoint_key request policy) now ≤ endpoint_limit policy
  end.
Proof.
  intros Hok Hb. unfold admission. destruct (venue_limit (hp_Venue policy)) as [limit|] eqn:Hl; [|done]. destruct (_ || _); [done|].
  assert (Hlim : venue_limit (rq_venue request) = Some limit) by (rewrite <- Hl; f_equal; symmetry; apply policy_venue).
  pose proof (venue_limit_cases _ _ Hlim) as [Hrange _]. pose proof (charges_typed request limit Hb Hlim) as Hty. fold policy in Hty.
  pose proof (Configure_ok c (venue_key policy) (mkQuota limit Minute) (ck_venue ck) Hok ltac:(simpl; lia)) as Hok1.
  pose proof (λ k, Configure_Used c (venue_key policy) (mkQuota limit Minute) (ck_venue ck) k now) as HU1.
  destruct (Configure c _ _ _) as [c1 [e1|]] eqn:Hc1; cbn [fst] in *; [done|].
  assert (Hend : endpoint_limit policy ≤ 10) by (unfold endpoint_limit; repeat split_guard; lia).
  pose proof (Configure_ok c1 (endpoint_key request policy) (mkQuota (endpoint_limit policy) Second) (ck_endpoint ck) Hok1 ltac:(simpl; lia)) as Hok2.
  pose proof (λ k, Configure_Used c1 (endpoint_key request policy) (mkQuota (endpoint_limit policy) Second) (ck_endpoint ck) k now) as HU2.
  destruct (Configure c1 _ _ _) as [c2 [e2|]] eqn:Hc2; cbn [fst] in *; [split; [done|]; intros k; by rewrite HU2|].
  pose proof (TryAcquire_spec c2 ctx _ now Hok2 Hty) as Hacq.
  destruct (TryAcquire c2 ctx (charges_for request policy limit) now) as [c3 [d|e]] eqn:Hc3; destruct Hacq as [Hok3 Hspec]; (split; [done|]); [|intros k; by rewrite Hspec, HU2].
  destruct (Z.ltb_spec 0 d) as [Hd|Hd]; [destruct d; [lia| |lia]; intros k; by rewrite Hspec, HU2|].
  apply (granted_at_once _ _ _ _ Hc3) in Hd as ->. exists limit. split; [done|].
  destruct (both_configured c limit c1 c2 Hok ltac:(lia) Hc1 Hc2) as (w1 & w2 & Hw1 & Hq1 & Hw2 & Hq2).
  pose proof (granted_budgets c2 c3 limit w1 w2 Hw1 Hq1 Hw2 Hq2 Hspec) as Hg. by rewrite !HU2, !HU1 in Hg.
Qed.

(** C9: every venue call (of at most 960 batched requests, or 38000 orders and
    cancellations in one action) goes through the budget: it is either refused before the network is touched, spending
    nothing, or served by the network exactly once after being charged within the
    venue's and the endpoint's limits; non-cancel calls leave a fifth of the venue's
    allowance for cancellations. *)
Theorem RoundTrip_budgeted c :
  budget_ok c → batch_ok request →
  let '(c', net', out) := RoundTrip PT c ctx request next net ck in
  budget_ok c' ∧ (not_sent c c' net' out ∨ sent_within_budget c c' net' out).
Proof.
  intros Hok Hb. pose proof (admission_spec c Hok Hb) as Hadm. unfold not_sent, sent_within_budget. rewrite RoundTrip_admission.
  destruct (admission c) as [c' [e|]] eqn:Ea; destruct Hadm as [Hok' Hspec].
  - split; [done|]. left. split; [done|]. split; [done|]. split; [by eexists|done].
  - destruct Hspec as (limit & Hl & Hg). destruct (next net request) as [net' [[reply|] err]]; cbn [fst snd].
    + split; [by apply note_reply_ok|]. right. split; [done|]. exists limit. split; [done|]. by rewrite !note_reply_Used.
    + split; [done|]. right. split; [done|]. by exists limit.
Qed.
End round_trip.

(** ** Concrete inputs *)

Definition sample_http : Request :=
  mkRequest "GET" "/api/v3/exchangeInfo" "binance" "" (λ _, "") None false ∅ None [].
Definition sample_clock : clock :=
  mkClock unix_epoch unix_epoch unix_epoch (unix_epoch + Second) (unix_epoch + Second).
(** A network that counts the calls it served *)
Definition sample_next (served : nat) (_ : Request) : nat * (option Reply * option error) :=
  (S served, (Some (mkReply 429 "7" "" ""), None)).

Lemma RoundTrip_budgeted_witness :
  let '(c', served, out) := RoundTrip (λ _, None) ∅ None sample_http sample_next 0%nat sample_clock in
  budget_ok c' ∧
  (not_sent sample_clock 0%nat ∅ c' served out ∨ sent_within_budget sample_http sample_clock sample_next 0%nat ∅ c' served out).
Proof.
  apply (RoundTrip_budgeted (λ _, None) sample_http sample_clock None sample_next 0%nat ∅).
  - intros k w Hw. rewrite lookup_empty in Hw. discriminate.
  - split; intros *; simpl; rewrite lookup_empty; discriminate.
Defined.
Example sample_served : (RoundTrip (λ _, None) ∅ None sample_http sample_next 0%nat sample_clock).1.2 = 1%nat.
Proof. vm_compute. reflexivity. Qed.
