(* ===== verification/SdkLimiter.v ===== *)
(** * The request limiter of the Binance SDK

    [sdk/binance/perp/rate_limiter.go] and [sdk/binance/spot/rate_limiter.go] (the
    same code with different quotas): a sliding window of past requests per key,
    and a caller that waits until every key of its request has room.  A caller
    reads the clock before it takes the lock, so that the readings in a window need
    not be in order; attempts are modelled in the order of the lock, each with its
    reading. *)

From Stdlib Require Import Ascii String ZArith Lia.
From stdpp Require Import base list strings gmap.
From S2P Require Import Prelude GoStrings Errors Model.

#[local] Open Scope string_scope.
#[local] Open Scope list_scope.
#[local] Open Scope Z_scope.

Record RateLimitQuota := mkRateQuota { rl_Limit : Z; rl_Interval : duration }.
Record KeyedRateLimiter := mkKeyed { kl_quotas : gmap string RateLimitQuota; kl_windows : gmap string (list time) }.

Definition NewKeyedRateLimiter (quotas : gmap string RateLimitQuota) : KeyedRateLimiter := mkKeyed quotas ∅.

Definition binanceRateLimiterGlobalKey : string := "binance:global".
Definition per_minute (limit : Z) : RateLimitQuota := mkRateQuota limit Minute.
Definition perp_quotas : list (string * Z) :=
  [(binanceRateLimiterGlobalKey, 2400); ("binance:fapi/v1/order", 1200); ("binance:fapi/v1/allOrders", 60); ("binance:fapi/v1/commissionRate", 120);
   ("binance:fapi/v1/klines", 600); ("binance:fapi/v1/continuousKlines", 600); ("binance:fapi/v1/fundingRate", 120); ("binance:fapi/v1/ticker/24hr", 2400);
   ("binance:fapi/v1/premiumIndex", 2400); ("binance:fapi/v1/depth", 2400); ("binance:fapi/v1/aggTrades", 2400); ("binance:fapi/v1/exchangeInfo", 2400);
   ("binance:fapi/v1/openInterest", 2400); ("binance:fapi/v2/account", 2400); ("binance:fapi/v2/balance", 2400); ("binance:fapi/v2/positionRisk", 2400);
   ("binance:fapi/v1/leverage", 1200); ("binance:fapi/v1/marginType", 1200); ("binance:fapi/v1/positionSide/dual", 1200); ("binance:fapi/v1/multiAssetsMargin", 1200);
   ("binance:fapi/v1/userTrades", 120); ("binance:fapi/v1/openOrders", 1200); ("binance:fapi/v1/allOpenOrders", 1200); ("binance:fapi/v1/listenKey", 2400);
   ("binance:fapi/v1/fundingInfo", 2400)].
Definition spot_quotas : list (string * Z) :=
  [(binanceRateLimiterGlobalKey, 6000); ("binance:api/v3/order", 3000); ("binance:api/v3/allOrders", 150); ("binance:api/v3/klines", 600); ("binance:api/v3/depth", 6000);
   ("binance:api/v3/ticker/24hr", 6000); ("binance:api/v3/ticker/bookTicker", 6000); ("binance:api/v3/exchangeInfo", 6000); ("binance:api/v3/account", 6000);
   ("binance:api/v3/openOrders", 3000); ("binance:api/v3/myTrades", 300); ("binance:api/v3/userDataStream", 6000); ("binance:api/v3/order/cancelReplace", 3000)].
Definition NewBinancePerpRateLimiter : KeyedRateLimiter := NewKeyedRateLimiter (list_to_map (prod_map id per_minute <$> perp_quotas)).
Definition NewBinanceSpotRateLimiter : KeyedRateLimiter := NewKeyedRateLimiter (list_to_map (prod_map id per_minute <$> spot_quotas)).

(** [Quota], of a limiter that may be nil *)
Definition Quota (l : option KeyedRateLimiter) (key : string) : RateLimitQuota * bool :=
  match l with
  | None => (mkRateQuota 0 0, false)
  | Some l => match kl_quotas l !! key with Some q => (q, true) | None => (mkRateQuota 0 0, false) end
  end.

Fixpoint drop_expired (cutoff : time) (window : list time) : list time :=
  match window with
  | t :: rest => if negb (After t cutoff) then drop_expired cutoff rest else window
  | [] => []
  end.
Definition set_window (l : KeyedRateLimiter) (key : string) (window : list time) : KeyedRateLimiter := mkKeyed (kl_quotas l) (<[key := window]> (kl_windows l)).
Definition window_of (l : KeyedRateLimiter) (key : string) : list time := default [] (kl_windows l !! key).
(** The delay, whether the key has a quota, and the limiter after the call *)
Definition reserveOrDelay (l : KeyedRateLimiter) (key : string) (now : time) : duration * bool * KeyedRateLimiter :=
  match kl_quotas l !! key with
  | None => (0, false, l)
  | Some quota =>
      if (rl_Limit quota <=? 0) || (rl_Interval quota <=? 0) then (0, false, l)
      else
        let window := drop_expired (Add now (- rl_Interval quota)) (window_of l key) in
        if Z.of_nat (length window) <? rl_Limit quota then (0, true, set_window l key (window ++ [now]))
        else (Sub (Add (hd now window) (rl_Interval quota)) now, true, set_window l key window)
  end.

(** One turn of the loop: what other callers did since the last one, the clock, and
    the context's error if it ends the wait that may follow. *)
Record turn := mkTurn { tn_others : list (string * time); tn_now : time; tn_ctx : option error }.
Inductive waited := Passed | Stopped (err : error) | StillWaiting.
Definition others_act (l : KeyedRateLimiter) (others : list (string * time)) : KeyedRateLimiter :=
  fold_left (λ l a, (reserveOrDelay l a.1 a.2).2) others l.
Fixpoint waitKey (l : KeyedRateLimiter) (key : string) (turns : list turn) : KeyedRateLimiter * waited :=
  match turns with
  | [] => (l, StillWaiting)
  | t :: rest =>
      let '(wait, ok, l) := reserveOrDelay (others_act l (tn_others t)) key (tn_now t) in
      if negb ok || (wait <=? 0) then (l, Passed)
      else match tn_ctx t with Some err => (l, Stopped err) | None => waitKey l key rest end
  end.
Fixpoint distinct_keys (seen : gset string) (keys : list string) : list string :=
  match keys with
  | [] => []
  | key :: rest => if is_empty key || bool_decide (key ∈ seen) then distinct_keys seen rest else key :: distinct_keys ({[key]} ∪ seen) rest
  end.
Definition dedupeRateLimitKeys (keys : list string) : list string := distinct_keys ∅ keys.
Fixpoint wait_keys (l : KeyedRateLimiter) (keys : list string) (turns : string → list turn) : KeyedRateLimiter * waited :=
  match keys with
  | [] => (l, Passed)
  | key :: rest => match waitKey l key (turns key) with (l, Passed) => wait_keys l rest turns | stopped => stopped end
  end.
Definition Wait (l : option KeyedRateLimiter) (keys : list string) (turns : string → list turn) : option KeyedRateLimiter * waited :=
  match l with
  | None => (None, Passed)
  | Some l => let '(l, w) := wait_keys l (dedupeRateLimitKeys keys) turns in (Some l, w)
  end.
Definition binancePerpRateLimitKey (endpoint : string) : string := "binance:" +:+ TrimPrefix endpoint "/".

(** ** Pacing *)

(** An attempt on a key: the caller's reading of the clock, and the time it had the
    lock. *)
Record attempt := mkAttempt { at_key : string; at_now : time; at_lock : time }.
Fixpoint timely (since : time) (attempts : list attempt) : Prop :=
  match attempts with [] => True | a :: rest => since ≤ at_lock a ∧ at_now a ≤ at_lock a ∧ timely (at_lock a) rest end.
(** The attempts on [key] that were let through. *)
Fixpoint granted (l : KeyedRateLimiter) (key : string) (attempts : list attempt) : list attempt :=
  match attempts with
  | [] => []
  | a :: rest =>
      let '(wait, ok, l') := reserveOrDelay l (at_key a) (at_now a) in
      (if String.eqb (at_key a) key && ok && (wait <=? 0) then [a] else []) ++ granted l' key rest
  end.

Lemma dropped_prefix cutoff window : ∃ gone, window = gone ++ drop_expired cutoff window ∧ Forall (λ t, t ≤ cutoff) gone ∧
  match drop_expired cutoff window with t :: _ => cutoff < t | [] => True end.
Proof.
  induction window as [|t window (gone & Hw & Hg & Hh)]; [by exists []|]. cbn [drop_expired]. unfold After. destruct (Z.ltb_spec cutoff t) as [Ht|Ht]; cbn [negb].
  - by exists [].
  - exists (t :: gone). split; [cbn; by f_equal|]. split; [by constructor|done].
Qed.

Section paced.
Context (key : string) (quota : RateLimitQuota) (Hl : 0 < rl_Limit quota) (Hi : 0 < rl_Interval quota).
#[local] Notation L := (Z.to_nat (rl_Limit quota)).

(** The window holds the newest of the readings let through; the others are an
    interval old. *)
Definition window_inv (since : time) (past : list attempt) (l : KeyedRateLimiter) : Prop :=
  kl_quotas l !! key = Some quota ∧ (length (window_of l key) ≤ L)%nat ∧
  ∃ gone, map at_now past = gone ++ window_of l key ∧ Forall (λ t, t + rl_Interval quota ≤ since) gone.
Definition paced (past : list attempt) : Prop :=
  ∀ n a b, past !! n = Some a → past !! (n + L)%nat = Some b → at_now a + rl_Interval quota ≤ at_lock b.

Lemma window_of_set l k w : window_of (set_window l k w) key = if String.eqb k key then w else window_of l key.
Proof. unfold window_of, set_window. cbn [kl_windows]. destruct (String.eqb_spec k key) as [->|]; [by rewrite lookup_insert_eq|by rewrite lookup_insert_ne]. Qed.
Lemma other_key_kept l k now : k ≠ key → kl_quotas (reserveOrDelay l k now).2 = kl_quotas l ∧ window_of (reserveOrDelay l k now).2 key = window_of l key.
Proof.
  intros Hk. unfold reserveOrDelay. destruct (kl_quotas l !! k) as [q|]; [|done]. destruct (_ || _); [done|]. cbv zeta. apply String.eqb_neq in Hk.
  destruct (_ <? _); cbn [snd]; (split; [done|]); by rewrite window_of_set, Hk.
Qed.
(** An attempt on the key: what it does to the window. *)
Lemma attempt_cases l now : kl_quotas l !! key = Some quota →
  let window := drop_expired (now - rl_Interval quota) (window_of l key) in
  ((length window < L)%nat ∧ reserveOrDelay l key now = (0, true, set_window l key (window ++ [now]))) ∨
  ((L ≤ length window)%nat ∧ ∃ t d, head window = Some t ∧ now - rl_Interval quota < t ∧ d = Sub (t + rl_Interval quota) now ∧ 0 < d ∧ reserveOrDelay l key now = (d, true, set_window l key window)).
Proof.
  intros Hq window. unfold reserveOrDelay. rewrite Hq. rewrite !(proj2 (Z.leb_gt _ _)) by lia. cbn [orb]. cbv zeta. unfold Add. replace (now + - rl_Interval quota) with (now - rl_Interval quota) by lia. fold window.
  destruct (Z.ltb_spec (Z.of_nat (length window)) (rl_Limit quota)) as [Hlen|Hlen]; [left; split; [lia|done]|right].
  split; [lia|]. destruct (dropped_prefix (now - rl_Interval quota) (window_of l key)) as (gone & _ & _ & Hh). fold window in Hh. destruct window as [|t rest]; [cbn in Hlen; lia|].
  exists t, (Sub (t + rl_Interval quota) now). cbn [hd head]. repeat split; [done|]. apply Sub_pos. lia.
Qed.
Lemma window_aged since past l now lock : window_inv since past l → since ≤ lock → now ≤ lock →
  ∃ gone, map at_now past = gone ++ drop_expired (now - rl_Interval quota) (window_of l key) ∧ Forall (λ t, t + rl_Interval quota ≤ lock) gone ∧
    (length (drop_expired (now - rl_Interval quota) (window_of l key)) ≤ L)%nat.
Proof.
  intros (_ & Hlen & gone & Hp & Hg) Hs Hn. destruct (dropped_prefix (now - rl_Interval quota) (window_of l key)) as (gone' & Hw & Hg' & _).
  exists (gone ++ gone'). split; [by rewrite <- app_assoc, <- Hw|]. split.
  - apply Forall_app. split; [eapply Forall_impl; [exact Hg|]; cbn; lia|]. eapply Forall_impl; [exact Hg'|]. cbn. lia.
  - rewrite Hw, length_app in Hlen. lia.
Qed.
Lemma paced_snoc past a gone window : paced past → map at_now past = gone ++ window → (length window < L)%nat → Forall (λ t, t + rl_Interval quota ≤ at_lock a) gone → paced (past ++ [a]).
Proof.
  intros Hp Hm Hw Hg n x y Hx Hy. destruct (decide (n + L < length past)%nat) as [Hlt|Hge].
  { rewrite lookup_app_l in Hx, Hy by lia. eauto. }
  assert (n + L = length past)%nat as Hn.
  { apply lookup_lt_Some in Hy. rewrite length_app in Hy. cbn in Hy. lia. }
  rewrite lookup_app_r in Hy by lia. rewrite Hn, Nat.sub_diag in Hy. injection Hy as <-. assert (Hlen : length past = (length gone + length window)%nat) by (rewrite <- length_app, <- Hm; by rewrite length_map).
  rewrite lookup_app_l in Hx by lia. assert (Hx' : gone !! n = Some (at_now x)).
  { assert (Hmx : map at_now past !! n = Some (at_now x)) by (apply (list_lookup_fmap_Some at_now past n (at_now x)); eauto). rewrite Hm, lookup_app_l in Hmx by lia. done. }
  by apply (proj1 (Forall_lookup _ _) Hg n).
Qed.
Lemma granted_paced attempts : ∀ since past l, window_inv since past l → paced past → timely since attempts → paced (past ++ granted l key attempts).
Proof.
  induction attempts as [|a attempts IH]; intros since past l Hinv Hp Ht; cbn [granted]; [by rewrite app_nil_r|]. destruct Ht as (Hs & Hn & Ht).
  destruct (String.eqb_spec (at_key a) key) as [Ek|Ek].
  - rewrite Ek. destruct (window_aged since past l _ _ Hinv Hs Hn) as (gone & Hm & Hg & Hlen). destruct Hinv as (Hq & _).
    destruct (attempt_cases l (at_now a) Hq) as [[Hlt ->]|(Hge & t & d & _ & _ & _ & Hd & ->)]; cbn [andb].
    + rewrite (proj2 (Z.leb_le 0 0)) by lia. rewrite app_assoc. apply (IH (at_lock a)); [|by eapply paced_snoc|done]. split; [done|]. rewrite window_of_set, String.eqb_refl. split; [rewrite length_app; cbn; lia|].
      exists gone. split; [|done]. rewrite map_app, Hm. cbn. by rewrite app_assoc.
    + rewrite (proj2 (Z.leb_gt _ _)) by lia. cbn [app]. apply (IH (at_lock a)); [|done|done]. split; [done|]. rewrite window_of_set, String.eqb_refl. split; [done|]. by exists gone.
  - destruct (other_key_kept l (at_key a) (at_now a) Ek) as [Eq Ew]. destruct (reserveOrDelay _ _ _) as [[wait ok] l'] eqn:E. cbn [snd] in Eq, Ew. cbn [andb app].
    apply (IH (at_lock a)); [|done|done]. destruct Hinv as (Hq & Hlen & gone & Hm & Hg). unfold window_inv. rewrite Eq, Ew. split; [done|]. split; [done|]. exists gone. split; [done|]. eapply Forall_impl; [exact Hg|]. cbn. lia.
Qed.

(** Attempts let through keep the order of the lock. *)
Lemma timely_after since attempts : timely since attempts → Forall (λ a, since ≤ at_lock a) attempts ∧ ∀ i j a b, (i ≤ j)%nat → attempts !! i = Some a → attempts !! j = Some b → at_lock a ≤ at_lock b.
Proof.
  revert since. induction attempts as [|x attempts IH]; intros since Ht; [by split; [constructor|intros i j a b _ Ha]|]. destruct Ht as (Hs & _ & Ht). destruct (IH _ Ht) as [Hf Ho]. split.
  - constructor; [done|]. eapply Forall_impl; [exact Hf|]. cbn. lia.
  - intros [|i] [|j] a b Hij Ha Hb; cbn in Ha, Hb; [injection Ha as <-; injection Hb as <-; lia| |lia|eapply (Ho i j); [lia|done|done]].
    injection Ha as <-. by apply (proj1 (Forall_lookup _ _) Hf j).
Qed.
Lemma granted_sublist l attempts : sublist (granted l key attempts) attempts.
Proof.
  revert l. induction attempts as [|a attempts IH]; intros l; [done|]. cbn [granted]. destruct (reserveOrDelay _ _ _) as [[wait ok] l']. destruct (_ && _); cbn [app]; by constructor.
Qed.
Lemma timely_sublist since attempts kept : sublist kept attempts → timely since attempts → timely since kept.
Proof.
  intros Hs. revert since. induction Hs as [|a kept attempts Hs IH|a kept attempts Hs IH]; intros since Ht; [done|destruct Ht as (? & ? & ?); split; [done|]; split; [done|]; by apply IH|].
  destruct Ht as (Ha & _ & Ht). apply IH. destruct attempts as [|b attempts]; [done|]. destruct Ht as (Hb & Hn & Ht). split; [lia|]. by split.
Qed.
Definition within (s : time) (a : attempt) : bool := (s <=? at_now a) && (at_lock a <? s + rl_Interval quota).
Lemma paced_count since through s : timely since through → paced through → (length (List.filter (within s) through) ≤ L)%nat.
Proof.
  revert since. induction through as [|a through IH]; intros since Ht Hp; [cbn; lia|]. cbn [List.filter]. destruct (within s a) eqn:Ea.
  - assert (Hnone : List.filter (within s) (drop L (a :: through)) = []).
    { destruct (List.filter _ (drop L (a :: through))) as [|b l] eqn:E; [done|]. exfalso. assert (Hb : In b (List.filter (within s) (drop L (a :: through)))) by (rewrite E; by left).
      apply List.filter_In in Hb as [Hb Hw]. apply list_elem_of_In, list_elem_of_lookup in Hb as [m Hm]. rewrite lookup_drop in Hm. destruct (timely_after since _ Ht) as [_ Ho].
      destruct ((a :: through) !! L) as [c|] eqn:Ec; [|apply lookup_ge_None in Ec; apply lookup_lt_Some in Hm; lia]. specialize (Hp 0%nat a c eq_refl Ec). specialize (Ho L (L + m)%nat c b ltac:(lia) Ec Hm).
      unfold within in Ea, Hw. apply andb_prop in Ea as [Ea _], Hw as [_ Hw]. apply Z.leb_le in Ea. apply Z.ltb_lt in Hw. lia. }
    assert (Hsplit : List.filter (within s) (a :: through) = List.filter (within s) (take L (a :: through))) by (rewrite <- (take_drop L (a :: through)) at 1; by rewrite List.filter_app, Hnone, app_nil_r).
    cbn [List.filter] in Hsplit. rewrite Ea in Hsplit. rewrite Hsplit. etransitivity; [apply List.filter_length_le|]. rewrite length_take. lia.
  - destruct Ht as (_ & _ & Ht). apply (IH _ Ht). intros n x y Hx Hy. by apply (Hp (S n)).
Qed.

(** A caller that waits as long as it was told, and finds the key's window as it
    left it, is let through. *)
Lemma delay_suffices l now d l' now' : kl_quotas l !! key = Some quota → (length (window_of l key) ≤ L)%nat → Forall (λ t, in_int64 (t + rl_Interval quota - now)) (window_of l key) →
  reserveOrDelay l key now = (d, true, l') → 0 < d → now + d ≤ now' → (reserveOrDelay l' key now').1 = (0, true).
Proof.
  intros Hq Hlen Hr Hd Hpos Hn. destruct (attempt_cases l now Hq) as [[_ E]|(Hge & t & d' & Ht & Hlt & Ed & _ & E)]; rewrite E in Hd; [injection Hd as <- <-; lia|]. injection Hd as <- <-.
  set (window := drop_expired (now - rl_Interval quota) (window_of l key)) in *. assert (Ew : window_of (set_window l key window) key = window) by (by rewrite window_of_set, String.eqb_refl).
  assert (Hbound : (length window ≤ L)%nat) by (destruct (dropped_prefix (now - rl_Interval quota) (window_of l key)) as (gone & Hw & _); rewrite Hw, length_app in Hlen; fold window in Hlen; lia).
  assert (Ht' : d' = t + rl_Interval quota - now).
  { rewrite Ed. apply Sub_exact. apply (proj1 (Forall_forall _ _) Hr). destruct (dropped_prefix (now - rl_Interval quota) (window_of l key)) as (gone & Hw & _). rewrite Hw. apply elem_of_app. right. fold window. destruct window; [done|]. injection Ht as <-. by left. }
  destruct (attempt_cases (set_window l key window) now' Hq) as [[_ ->]|(Hge' & _)]; [done|]. exfalso. rewrite Ew in Hge'. destruct window as [|t0 rest]; [done|]. injection Ht as ->.
  cbn [drop_expired] in Hge'. unfold After in Hge'. rewrite (proj2 (Z.ltb_ge _ _)) in Hge' by lia. cbn [negb] in Hge'.
  destruct (dropped_prefix (now' - rl_Interval quota) rest) as (gone & Hw & _). cbn [length] in Hbound. rewrite Hw, length_app in Hbound. lia.
Qed.
End paced.

(** C10: however callers interleave, and however late each gets the lock after it read
    the clock, no more than [Limit] requests of a key read the clock and get the lock
    within one interval: the request let through [Limit] places after another gets
    the lock at least an interval after the other's reading. *)
Theorem requests_paced quotas key quota since attempts :
  quotas !! key = Some quota → 0 < rl_Limit quota → 0 < rl_Interval quota → timely since attempts →
  let through := granted (NewKeyedRateLimiter quotas) key attempts in
  (∀ n a b, through !! n = Some a → through !! (n + Z.to_nat (rl_Limit quota))%nat = Some b → at_now a + rl_Interval quota ≤ at_lock b) ∧
  ∀ s, Z.of_nat (length (List.filter (within quota s) through)) ≤ rl_Limit quota.
Proof.
  intros Hq Hl Hi Ht through. assert (Hw : window_of (NewKeyedRateLimiter quotas) key = []) by (unfold window_of, NewKeyedRateLimiter; cbn [kl_windows]; by rewrite lookup_empty).
  assert (Hp : paced quota through).
  { apply (granted_paced key quota Hl Hi attempts since []); [|by intros ? ? ? ?|done]. split; [done|]. rewrite Hw. split; [cbn; lia|]. by exists []. }
  split; [exact Hp|]. intros s. pose proof (paced_count quota Hl since through s (timely_sublist _ _ _ (granted_sublist key _ _) Ht) Hp). lia.
Qed.

(** ** Concrete inputs *)

Definition two_a_second : gmap string RateLimitQuota := {["binance:global" := mkRateQuota 2 Second]}.
(** Two callers that get the lock in the other order, a third that is sent away,
    and the same one a second after the first reading. *)
Definition in_lock_order : list attempt := [mkAttempt "binance:global" 120 125; mkAttempt "binance:global" 100 130; mkAttempt "binance:global" 140 150;
  mkAttempt "binance:global" (100 + Second) (110 + Second); mkAttempt "binance:global" (120 + Second) (121 + Second)].
Example busy_through : map at_now (granted (NewKeyedRateLimiter two_a_second) "binance:global" in_lock_order) = [120; 100; 120 + Second].
Proof. vm_compute. reflexivity. Qed.
Lemma requests_paced_witness :
  Z.of_nat (length (List.filter (within (mkRateQuota 2 Second) 100) (granted (NewKeyedRateLimiter two_a_second) "binance:global" in_lock_order))) ≤ 2.
Proof.
  destruct (requests_paced two_a_second "binance:global" (mkRateQuota 2 Second) 0 in_lock_order) as [_ Hc];
    [reflexivity|cbn; lia|vm_compute; reflexivity|cbn; unfold Second; lia|]. exact (Hc 100).
Defined.
(** A caller that is told to wait and tries again when told is let through; one
    whose context ends meanwhile is not, and keeps no place. *)
Example wait_turns :
  let l := others_act (NewKeyedRateLimiter two_a_second) [("binance:global", 100); ("binance:global", 120)] in
  (waitKey l "binance:global" [mkTurn [] 140 None; mkTurn [] (100 + Second) None]).2 = Passed ∧
  (waitKey l "binance:global" [mkTurn [] 140 (Some (ESentinel ContextCanceled))]).2 = Stopped (ESentinel ContextCanceled) ∧
  (Wait (Some NewBinancePerpRateLimiter) [binancePerpRateLimitKey "/fapi/v1/order"; "binance:global"; ""; "binance:global"] (λ _, [mkTurn [] 7 None])).2 = Passed.
Proof. vm_compute. auto. Qed.
