(* ===== verification/Hub.v ===== *)
(** * The fan-out hub

    [gateway/hub/hub.go].  Topics are shared objects: the hub's map, the
    source goroutine and the linger timer all hold a pointer to the same
    topic, so the state has a store of topics by identity.  Every method and
    callback holds the hub's mutex, so each is one step; timers fire at any
    time after they are set, and [Timer.Stop] may come too late to prevent a
    callback that is already waiting for the mutex. *)

From Stdlib Require Import Ascii String ZArith Lia.
From stdpp Require Import base list strings gmap relations.
From S2P Require Import Prelude GoStrings Model.

#[local] Open Scope string_scope.
#[local] Open Scope list_scope.
#[local] Open Scope Z_scope.

(** ** State *)

Record HKey := mkHKey { hk_Channel : string; hk_Instrument : string; hk_Interval : string; hk_Account : string }.
#[export] Instance HKey_eq_dec : EqDecision HKey.
Proof. solve_decision. Defined.
#[export] Instance HKey_countable : Countable HKey.
Proof.
  refine (inj_countable' (λ k, (hk_Channel k, hk_Instrument k, hk_Interval k, hk_Account k))
    (λ '(a, b, c, d), mkHKey a b c d) _). by intros [].
Defined.

(** Sinks, topics and timers are identified by numbers; a payload is the
    encoded message. *)
Record topic := mkTopic {
  tp_sinks : gset nat;
  tp_retained : gmap string string;
  tp_order : list string;
  tp_cancelled : bool;
  tp_linger : option nat;
}.
Record Hub := mkHub {
  hb_topics : gmap HKey nat;
  hb_store : gmap nat topic;
  (** timers that may still fire, with the topic their callback closes *)
  hb_timers : gmap nat (HKey * nat);
  hb_fresh : nat;
  hb_closed : bool;
  (** payloads handed to sinks, oldest first *)
  hb_sent : list (nat * string);
}.

Definition New : Hub := mkHub ∅ ∅ ∅ 0 false [].

Definition new_topic : topic := mkTopic ∅ ∅ [] false None.

Definition replay (t : topic) (sink : nat) : list (nat * string) :=
  map (λ channel, (sink, default "" (tp_retained t !! channel))) (tp_order t).

(** Store topic [id] back. *)
Definition set_topic (h : Hub) (id : nat) (t : topic) : Hub :=
  mkHub (hb_topics h) (<[id := t]> (hb_store h)) (hb_timers h) (hb_fresh h) (hb_closed h) (hb_sent h).

(** The topic of [key], created if there is none. *)
Definition open_topic (h : Hub) (key : HKey) : Hub * nat * topic :=
  match hb_topics h !! key with
  | Some id => (h, id, default new_topic (hb_store h !! id))
  | None =>
      let id := hb_fresh h in
      (mkHub (<[key := id]> (hb_topics h)) (<[id := new_topic]> (hb_store h)) (hb_timers h) (S id)
         (hb_closed h) (hb_sent h), id, new_topic)
  end.

(** [linger.Stop()]; [in_time] says whether it beat the callback. *)
Definition stop_timer (h : Hub) (linger : option nat) (in_time : bool) : gmap nat (HKey * nat) :=
  match linger with
  | Some timer => if in_time then delete timer (hb_timers h) else hb_timers h
  | None => hb_timers h
  end.

Definition Subscribe (h : Hub) (key : HKey) (sink : nat) (in_time : bool) : Hub :=
  if hb_closed h then h
  else
    let '(h, id, t) := open_topic h key in
    let timers := stop_timer h (tp_linger t) in_time in
    let t := mkTopic ({[sink]} ∪ tp_sinks t) (tp_retained t) (tp_order t) (tp_cancelled t) None in
    mkHub (hb_topics h) (<[id := t]> (hb_store h)) timers (hb_fresh h) (hb_closed h)
      (hb_sent h ++ replay t sink).

Definition Unsubscribe (h : Hub) (key : HKey) (sink : nat) : Hub :=
  match hb_topics h !! key with
  | None => h
  | Some id =>
      match hb_store h !! id with
      | None => h
      | Some t =>
          let sinks := tp_sinks t ∖ {[sink]} in
          let t := mkTopic sinks (tp_retained t) (tp_order t) (tp_cancelled t) (tp_linger t) in
          if negb (bool_decide (sinks = ∅)) || is_present (tp_linger t) then set_topic h id t
          else
            let timer := hb_fresh h in
            mkHub (hb_topics h)
              (<[id := mkTopic sinks (tp_retained t) (tp_order t) (tp_cancelled t) (Some timer)]> (hb_store h))
              (<[timer := (key, id)]> (hb_timers h)) (S timer) (hb_closed h) (hb_sent h)
      end
  end.

Definition cancel_topic (t : topic) : topic :=
  mkTopic (tp_sinks t) (tp_retained t) (tp_order t) true (tp_linger t).

(** The linger callback of [timer]. *)
Definition Fire (h : Hub) (timer : nat) : Hub :=
  match hb_timers h !! timer with
  | None => h
  | Some (key, id) =>
      let timers := delete timer (hb_timers h) in
      match hb_store h !! id with
      | Some t =>
          if bool_decide (hb_topics h !! key = Some id) && bool_decide (tp_sinks t = ∅)
          then mkHub (delete key (hb_topics h)) (<[id := cancel_topic t]> (hb_store h)) timers
                 (hb_fresh h) (hb_closed h) (hb_sent h)
          else mkHub (hb_topics h) (hb_store h) timers (hb_fresh h) (hb_closed h) (hb_sent h)
      | None => mkHub (hb_topics h) (hb_store h) timers (hb_fresh h) (hb_closed h) (hb_sent h)
      end
  end.

(** [in_time timer] says whether that timer's [Stop] beat its callback. *)
Definition Close (h : Hub) (in_time : nat → bool) : Hub :=
  let open := map_values (hb_topics h) in
  let lingers := omap (λ id, hb_store h !! id ≫= tp_linger) open in
  let stopped := List.filter in_time lingers in
  mkHub ∅ (foldl (λ s id, alter cancel_topic id s) (hb_store h) open)
    (foldl (λ ts timer, delete timer ts) (hb_timers h) stopped) (hb_fresh h) true (hb_sent h).

Definition Topics (h : Hub) : nat := size (hb_topics h).

(** [emit] of the source goroutine of topic [id]; [payload] is [None] when the
    message cannot be encoded. *)
Definition retain_message (t : topic) (channel payload : string) : topic :=
  let order := match tp_retained t !! channel with Some _ => tp_order t | None => tp_order t ++ [channel] end in
  mkTopic (tp_sinks t) (<[channel := payload]> (tp_retained t)) order (tp_cancelled t) (tp_linger t).

Definition Emit (h : Hub) (id : nat) (channel : string) (payload : option string) (retain : bool) : Hub :=
  match payload, hb_store h !! id with
  | Some payload, Some t =>
      if tp_cancelled t then h
      else
        let t := if retain then retain_message t channel payload else t in
        mkHub (hb_topics h) (<[id := t]> (hb_store h)) (hb_timers h) (hb_fresh h) (hb_closed h)
          (hb_sent h ++ map (λ sink, (sink, payload)) (elements (tp_sinks t)))
  | _, _ => h
  end.

(** ** Retry backoff of [run] *)

(** After the source returns: the wait before jitter, and the next backoff. *)
Definition run_backoff (backoff elapsed : duration) : duration * duration :=
  let backoff := if Minute <? elapsed then Second else backoff in
  (backoff, if backoff <? 30 * Second then 2 * backoff else backoff).
(** The jitter is uniform below this bound. *)
Definition jitter_bound (backoff : duration) : Z := backoff / 4 + 1.

(** ** Steps *)

Inductive hub_step : relation Hub :=
| step_subscribe h key sink in_time : hub_step h (Subscribe h key sink in_time)
| step_unsubscribe h key sink : hub_step h (Unsubscribe h key sink)
| step_fire h timer : hub_step h (Fire h timer)
| step_close h in_time : hub_step h (Close h in_time)
| step_emit h id channel payload retain : hub_step h (Emit h id channel payload retain).

Definition reachable (h : Hub) : Prop := rtc hub_step New h.

(** ** Invariant *)

(** An open topic either has subscribers, or a pending timer that will close
    it; its source is running. *)
Definition live (timers : gmap nat (HKey * nat)) (key : HKey) (id : nat) (t : topic) : Prop :=
  tp_cancelled t = false ∧
  match tp_linger t with
  | Some timer => tp_sinks t = ∅ ∧ timers !! timer = Some (key, id)
  | None => tp_sinks t ≠ ∅
  end.

(** The replay order lists each retained channel once. *)
Definition replay_ok (t : topic) : Prop :=
  NoDup (tp_order t) ∧ ∀ c, c ∈ tp_order t ↔ is_Some (tp_retained t !! c).

Record hub_ok (h : Hub) : Prop := {
  ho_fresh_store : ∀ id t, hb_store h !! id = Some t → (id < hb_fresh h)%nat;
  ho_fresh_timer : ∀ timer p, hb_timers h !! timer = Some p → (timer < hb_fresh h)%nat;
  ho_live : ∀ key id, hb_topics h !! key = Some id →
    ∃ t, hb_store h !! id = Some t ∧ live (hb_timers h) key id t;
  ho_inj : ∀ k1 k2 id, hb_topics h !! k1 = Some id → hb_topics h !! k2 = Some id → k1 = k2;
  ho_running : ∀ id t, hb_store h !! id = Some t → tp_cancelled t = false → ∃ key, hb_topics h !! key = Some id;
  ho_retained : ∀ id t, hb_store h !! id = Some t → replay_ok t;
  ho_closed : hb_closed h = true → hb_topics h = ∅;
}.

Lemma New_ok : hub_ok New.
Proof. split; intros *; simpl; rewrite ?lookup_empty; done. Qed.

(** Replacing the stored topic of an open key, and its own timer, by a live one. *)
Lemma update_ok h key id t timers fresh sent :
  hub_ok h → (hb_fresh h ≤ fresh)%nat → hb_topics h !! key = Some id → is_Some (hb_store h !! id) →
  live timers key id t → replay_ok t →
  (∀ timer p, timers !! timer = Some p → (timer < fresh)%nat) →
  (∀ timer k i, i ≠ id → hb_timers h !! timer = Some (k, i) → timers !! timer = Some (k, i)) →
  hub_ok (mkHub (hb_topics h) (<[id := t]> (hb_store h)) timers fresh (hb_closed h) sent).
Proof.
  intros [Hfs Hft Hlive Hinj Hrun Hret Hcl] Hfresh Hk [t0 Hid] Hl Hr Htf Hkeep. split; simpl.
  - intros i t' [[<- <-]|[_ Hi]]%lookup_insert_Some; [apply Hfs in Hid; lia|]. apply Hfs in Hi. lia.
  - exact Htf.
  - intros k i Hi. destruct (decide (i = id)) as [->|Hne].
    + rewrite lookup_insert_eq. exists t. by rewrite (Hinj _ _ _ Hi Hk).
    + rewrite lookup_insert_ne by done. destruct (Hlive k i Hi) as (t' & Ht' & Hc & Hl').
      exists t'. split; [done|]. split; [done|].
      destruct (tp_linger t'); [|done]. destruct Hl' as [? ?]. split; [done|]. by apply Hkeep.
  - exact Hinj.
  - intros i t' [[<- <-]|[_ Hi]]%lookup_insert_Some Hc; [by exists key|]. by eapply Hrun.
  - intros i t' [[<- <-]|[_ Hi]]%lookup_insert_Some; [done|]. by eapply Hret.
  - done.
Qed.

Lemma new_topic_ok : replay_ok new_topic.
Proof.
  split; simpl; [apply NoDup_nil_2|]. intros c. rewrite lookup_empty.
  split; [by intros ?%elem_of_nil|by intros []].
Qed.

(** The state between opening a topic and adding its subscriber satisfies
    everything but liveness of that topic. *)
Lemma Subscribe_new_ok h key sink :
  hub_ok h → hb_closed h = false → hb_topics h !! key = None →
  let id := hb_fresh h in
  let t := mkTopic ({[sink]} ∪ ∅) ∅ [] false None in
  hub_ok (mkHub (<[key := id]> (hb_topics h)) (<[id := t]> (hb_store h)) (hb_timers h) (S id)
            (hb_closed h) (hb_sent h ++ [])).
Proof.
  intros [Hfs Hft Hlive Hinj Hrun Hret Hcl] Hopen Hk id t. split; simpl.
  - intros i t' [[<- <-]|[_ Hi]]%lookup_insert_Some; [lia|]. apply Hfs in Hi. unfold id. lia.
  - intros timer p Hp. apply Hft in Hp. unfold id. lia.
  - intros k i [[<- <-]|[Hne Hi]]%lookup_insert_Some.
    + rewrite lookup_insert_eq. exists t. split; [done|]. split; [done|]. simpl. set_solver.
    + destruct (Hlive k i Hi) as (t' & Ht' & Hl'). rewrite lookup_insert_ne; [eauto|].
      intros <-. apply Hfs in Ht'. unfold id in Ht'. lia.
  - intros k1 k2 i [[<- <-]|[Hn1 H1]]%lookup_insert_Some [[<- E]|[Hn2 H2]]%lookup_insert_Some; [done|..].
    + destruct (Hlive _ _ H2) as (t' & Ht' & _). apply Hfs in Ht'. unfold id in Ht'. lia.
    + subst i. destruct (Hlive _ _ H1) as (t' & Ht' & _). apply Hfs in Ht'. unfold id in Ht'. lia.
    + by eapply Hinj.
  - intros i t' [[<- <-]|[_ Hi]]%lookup_insert_Some Hc.
    + exists key. apply lookup_insert_eq.
    + destruct (Hrun _ _ Hi Hc) as [k Hki]. exists k. rewrite lookup_insert_ne; [done|]. congruence.
  - intros i t' [[<- <-]|[_ Hi]]%lookup_insert_Some; [apply new_topic_ok|]. by eapply Hret.
  - congruence.
Qed.

Lemma Subscribe_ok h key sink in_time : hub_ok h → hub_ok (Subscribe h key sink in_time).
Proof.
  intros Hok. unfold Subscribe. destruct (hb_closed h) eqn:Hcl; [done|]. unfold open_topic.
  destruct (hb_topics h !! key) as [id|] eqn:Hk.
  - destruct (ho_live h Hok key id Hk) as (t & Ht & Hlive). rewrite Ht. simpl. apply (update_ok h key); [done..|by rewrite Ht| | | |].
    + split; simpl; [by destruct Hlive|set_solver].
    + exact (ho_retained h Hok id t Ht).
    + intros timer p. unfold stop_timer. destruct (tp_linger t); [destruct in_time|];
        try apply (ho_fresh_timer h Hok). intros [_ Hp]%lookup_delete_Some. by eapply (ho_fresh_timer h Hok).
    + intros timer k i Hne Hp. unfold stop_timer. destruct (tp_linger t) as [l|] eqn:El; [destruct in_time|]; try done.
      rewrite lookup_delete_ne; [done|]. intros <-. destruct Hlive as [_ Hl]. rewrite El in Hl.
      destruct Hl as [_ Hl]. congruence.
  - simpl. rewrite insert_insert_eq. by apply Subscribe_new_ok.
Qed.

Lemma Unsubscribe_ok h key sink : hub_ok h → hub_ok (Unsubscribe h key sink).
Proof.
  intros Hok. unfold Unsubscribe. destruct (hb_topics h !! key) as [id|] eqn:Hk; [|done].
  destruct (ho_live h Hok key id Hk) as (t & Ht & Hc & Hl). rewrite Ht. cbv zeta. cbn [tp_linger].
  destruct (_ || _) eqn:Hb.
  - apply (update_ok h key); [done..|by rewrite Ht| | | |done].
    + split; [done|]. cbn [tp_linger tp_sinks]. destruct (tp_linger t) as [timer|].
      * destruct Hl as [-> ?]. split; [set_solver|done].
      * rewrite orb_false_r in Hb. by apply negb_true_iff, bool_decide_eq_false in Hb.
    + exact (ho_retained h Hok id t Ht).
    + apply (ho_fresh_timer h Hok).
  - apply orb_false_iff in Hb as [He Hn]. apply negb_false_iff, bool_decide_eq_true in He.
    apply (update_ok h key); [done|lia|done|by rewrite Ht| | | |].
    + split; [done|]. simpl. by rewrite lookup_insert_eq.
    + exact (ho_retained h Hok id t Ht).
    + intros timer p [[<- <-]|[_ Hp]]%lookup_insert_Some; [lia|]. apply (ho_fresh_timer h Hok) in Hp. lia.
    + intros timer k i Hne Hp. rewrite lookup_insert_ne; [done|]. intros <-.
      apply (ho_fresh_timer h Hok) in Hp. lia.
Qed.

(** Forgetting timers no open topic waits for. *)
Lemma drop_timers_ok h timers :
  hub_ok h → (∀ timer p, timers !! timer = Some p → hb_timers h !! timer = Some p) →
  (∀ k i t timer, hb_topics h !! k = Some i → hb_store h !! i = Some t → tp_linger t = Some timer →
                  timers !! timer = hb_timers h !! timer) →
  hub_ok (mkHub (hb_topics h) (hb_store h) timers (hb_fresh h) (hb_closed h) (hb_sent h)).
Proof.
  intros [Hfs Hft Hlive Hinj Hrun Hret Hcl] Hsub Hkeep. split; simpl; try done.
  - intros timer p Hp. by eapply Hft, Hsub.
  - intros k i Hi. destruct (Hlive k i Hi) as (t & Ht & Hc & Hl). exists t. split; [done|]. split; [done|].
    destruct (tp_linger t) as [timer|] eqn:El; [|done]. by rewrite (Hkeep k i t timer).
Qed.

Lemma Fire_ok h timer : hub_ok h → hub_ok (Fire h timer).
Proof.
  intros Hok. unfold Fire. destruct (hb_timers h !! timer) as [[key id]|] eqn:Htm; [|done].
  assert (Hsub : ∀ timer' p, delete timer (hb_timers h) !! timer' = Some p → hb_timers h !! timer' = Some p).
  { by intros timer' p [_ ?]%lookup_delete_Some. }
  assert (Hown : ∀ k i t timer', (k, i) ≠ (key, id) → hb_topics h !! k = Some i → hb_store h !! i = Some t →
    tp_linger t = Some timer' → delete timer (hb_timers h) !! timer' = hb_timers h !! timer').
  { intros k i t timer' Hne Hk Ht Hl. apply lookup_delete_ne. intros <-.
    destruct (ho_live h Hok k i Hk) as (t' & Ht' & _ & Hlv). rewrite Ht in Ht'. injection Ht' as <-.
    rewrite Hl in Hlv. destruct Hlv as [_ Hlv]. congruence. }
  destruct (hb_store h !! id) as [t|] eqn:Ht.
  2: { apply drop_timers_ok; [done..|]. intros k i t timer' Hk Hi Hl. apply (Hown k i t timer'); [|done..].
       intros [= -> ->]. congruence. }
  destruct (bool_decide (hb_topics h !! key = Some id)) eqn:Htop,
           (bool_decide (tp_sinks t = ∅)) eqn:Hs; simpl;
    try (apply drop_timers_ok; [done..|]; intros k i t' timer' Hk Hi Hl;
         apply (Hown k i t' timer'); [|done..]; intros [= -> ->]; rewrite Hi in Ht; injection Ht as ->;
         breflect; destruct (ho_live h Hok key id Hk) as (t' & Ht' & _ & Hlv); rewrite Hi in Ht';
         injection Ht' as <-; rewrite Hl in Hlv; naive_solver).
  apply bool_decide_eq_true in Htop.
  destruct Hok as [Hfs Hft Hlive Hinj Hrun Hret Hcl]. split; simpl.
  - intros i t' [[<- <-]|[_ Hi]]%lookup_insert_Some; by eapply Hfs.
  - intros timer' p Hp. by eapply Hft, Hsub.
  - intros k i [Hne Hi]%lookup_delete_Some. destruct (Hlive k i Hi) as (t' & Ht' & Hc & Hl).
    assert (i ≠ id) by (intros ->; apply Hne; by eapply Hinj).
    rewrite lookup_insert_ne by done. exists t'. split; [done|]. split; [done|].
    destruct (tp_linger t') as [timer'|] eqn:El; [|done]. rewrite (Hown k i t'); [done| |done..].
    intros [= -> ->]. done.
  - intros k1 k2 i [_ H1]%lookup_delete_Some [_ H2]%lookup_delete_Some. by eapply Hinj.
  - intros i t' [[<- <-]|[Hne Hi]]%lookup_insert_Some Hc; [done|].
    destruct (Hrun i t' Hi Hc) as [k Hk]. exists k. rewrite lookup_delete_ne; [done|]. intros <-. congruence.
  - intros i t' [[<- <-]|[_ Hi]]%lookup_insert_Some; [exact (Hret id t Ht)|]. by eapply Hret.
  - intros Hc. rewrite (Hcl Hc) in Htop. by rewrite lookup_empty in Htop.
Qed.

Lemma cancel_all_lookup (l : list nat) (s : gmap nat topic) i :
  foldl (λ s id, alter cancel_topic id s) s l !! i =
  if decide (i ∈ l) then cancel_topic <$> s !! i else s !! i.
Proof.
  revert s. induction l as [|x l IH]; intros s; cbn [foldl].
  - case_decide as Hn; [by apply elem_of_nil in Hn|done].
  - rewrite IH. destruct (decide (i = x)) as [->|Hne].
    + rewrite lookup_alter_eq, (decide_True (P := x ∈ x :: l)) by (by left).
      case_decide; [|done]. by destruct (s !! x) as [[]|].
    + rewrite lookup_alter_ne by done. destruct (decide (i ∈ l)) as [Hl|Hl].
      * by rewrite decide_True by (by right).
      * rewrite decide_False; [done|]. by rewrite not_elem_of_cons.
Qed.

Lemma delete_all_subset {V} (l : list nat) (m : gmap nat V) i v :
  foldl (λ m k, delete k m) m l !! i = Some v → m !! i = Some v.
Proof.
  revert m. induction l as [|x l IH]; intros m; simpl; [done|].
  intros [_ ?]%IH%lookup_delete_Some. done.
Qed.

Lemma Close_ok h in_time : hub_ok h → hub_ok (Close h in_time).
Proof.
  intros [Hfs Hft Hlive Hinj Hrun Hret Hcl].
  assert (Hst : ∀ i t, hb_store (Close h in_time) !! i = Some t →
    ∃ t0, hb_store h !! i = Some t0 ∧ tp_retained t = tp_retained t0 ∧ tp_order t = tp_order t0 ∧
          (tp_cancelled t = false → i ∉ map_values (hb_topics h) ∧ tp_cancelled t0 = false)).
  { intros i t. unfold Close. cbn [hb_store]. rewrite cancel_all_lookup. case_decide as Hin.
    - destruct (hb_store h !! i) as [t0|] eqn:E; simpl; [|done]. intros [= <-]. by exists t0.
    - intros Hi. by exists t. }
  split.
  - intros i t (t0 & Ht0 & _)%Hst. by eapply Hfs.
  - intros timer p Hp. eapply Hft, delete_all_subset, Hp.
  - intros key id. simpl. by rewrite lookup_empty.
  - intros k1 k2 id. simpl. by rewrite lookup_empty.
  - intros i t (t0 & Ht0 & _ & _ & Hc)%Hst Hf. destruct (Hc Hf) as [Hni Hf0]. destruct Hni.
    apply elem_of_map_values. by eapply Hrun.
  - intros i t (t0 & Ht0 & Hr & Ho & _)%Hst. unfold replay_ok. rewrite Hr, Ho. by eapply Hret.
  - done.
Qed.

Lemma retain_ok t channel payload : replay_ok t → replay_ok (retain_message t channel payload).
Proof.
  intros [Hnd Hdom]. unfold retain_message, replay_ok. simpl.
  destruct (tp_retained t !! channel) eqn:E.
  - split; [done|]. intros c. rewrite Hdom. destruct (decide (c = channel)) as [->|].
    + rewrite E, lookup_insert_eq. split; intros _; eauto.
    + by rewrite lookup_insert_ne.
  - split.
    + apply NoDup_app. split; [done|]. split; [|apply NoDup_singleton].
      intros c Hc ->%list_elem_of_singleton. apply Hdom in Hc. rewrite E in Hc. by destruct Hc.
    + intros c. rewrite elem_of_app, list_elem_of_singleton, Hdom. destruct (decide (c = channel)) as [->|].
      * rewrite lookup_insert_eq. split; [eauto|by right].
      * rewrite lookup_insert_ne by done. naive_solver.
Qed.

Lemma Emit_ok h id channel payload retain : hub_ok h → hub_ok (Emit h id channel payload retain).
Proof.
  intros Hok. unfold Emit. destruct payload as [payload|]; [|done].
  destruct (hb_store h !! id) as [t|] eqn:Ht; [|done]. destruct (tp_cancelled t) eqn:Hc; [done|].
  destruct (ho_running h Hok id t Ht Hc) as [key Hk].
  destruct (ho_live h Hok key id Hk) as (t' & Ht' & Hl). rewrite Ht in Ht'. injection Ht' as <-.
  apply (update_ok h key); [done|lia|done|by rewrite Ht| | | |done].
  - destruct retain; [|done]. destruct Hl as [_ Hl]. by split.
  - destruct retain; [apply retain_ok|]; exact (ho_retained h Hok id t Ht).
  - apply (ho_fresh_timer h Hok).
Qed.

Lemma hub_step_ok h h' : hub_step h h' → hub_ok h → hub_ok h'.
Proof.
  destruct 1; [apply Subscribe_ok|apply Unsubscribe_ok|apply Fire_ok|apply Close_ok|apply Emit_ok].
Qed.

Lemma reachable_ok h : reachable h → hub_ok h.
Proof.
  unfold reachable. generalize New_ok. generalize New. intros h0 H0 Hr.
  induction Hr as [|x y z Hs _ IH]; [done|]. apply IH. by eapply hub_step_ok.
Qed.

(** ** Theorems *)

(** C7: in every state the hub can reach, whatever the interleaving of
    subscriptions, timers and emissions: an open topic has a subscriber or a
    pending timer that will close it (no venue subscription leaks), every
    running source belongs to an open topic, each retained channel is replayed
    once, and a closed hub has no topic. *)
Theorem hub_invariant h : reachable h → hub_ok h.
Proof. apply reachable_ok. Qed.

(** A topic whose last subscriber left closes when its timer fires, and
    its source is cancelled; a topic with subscribers never closes that way. *)
Theorem linger_closes_idle h key id t :
  reachable h → hb_topics h !! key = Some id → hb_store h !! id = Some t →
  if decide (tp_sinks t = ∅) then
    ∃ timer, tp_linger t = Some timer ∧ hb_topics (Fire h timer) !! key = None ∧
             tp_cancelled <$> hb_store (Fire h timer) !! id = Some true
  else ∀ timer, hb_topics (Fire h timer) !! key = Some id.
Proof.
  intros Hr Hk Ht. pose proof (reachable_ok h Hr) as Hok.
  destruct (ho_live h Hok key id Hk) as (t' & Ht' & Hc & Hl). rewrite Ht in Ht'. injection Ht' as <-.
  case_decide as Hs.
  - destruct (tp_linger t) as [timer|] eqn:El; [|done]. destruct Hl as [_ Htm]. exists timer.
    split; [done|]. unfold Fire. rewrite Htm, Ht, !bool_decide_true by done. simpl.
    by rewrite lookup_delete_eq, lookup_insert_eq.
  - intros timer. unfold Fire. destruct (hb_timers h !! timer) as [[key' id']|]; [|done].
    destruct (hb_store h !! id') as [t'|] eqn:Ht'; [|done].
    destruct (bool_decide_reflect (hb_topics h !! key' = Some id')) as [Htop|]; [|done].
    destruct (bool_decide_reflect (tp_sinks t' = ∅)) as [Hs'|]; [|done]. simpl.
    rewrite lookup_delete_ne; [done|]. intros ->. rewrite Hk in Htop. injection Htop as <-. congruence.
Qed.

(** One message emitted by a source: channel, payload, retain. *)
Abbreviation emission := (string * string * bool)%type.

Definition emit_all (h : Hub) (id : nat) (ems : list emission) : Hub :=
  foldl (λ h '(c, p, r), Emit h id c (Some p) r) h ems.

(** The last payload retained for a channel, starting from [before]. *)
Definition last_retained (before : option string) (ems : list emission) (channel : string) : option string :=
  foldl (λ last '(c, p, r), if (r : bool) && String.eqb c channel then Some p else last) before ems.

Lemma emit_all_topic h id key ems :
  hub_ok h → hb_topics h !! key = Some id →
  let h' := emit_all h id ems in
  hub_ok h' ∧ hb_closed h' = hb_closed h ∧ hb_topics h' = hb_topics h ∧
  ∀ t, hb_store h !! id = Some t → ∃ t', hb_store h' !! id = Some t' ∧
    ∀ c, tp_retained t' !! c = last_retained (tp_retained t !! c) ems c.
Proof.
  unfold emit_all. revert h. induction ems as [|[[c0 p0] r0] ems IH]; intros h Hok Hk; cbn [foldl].
  { split; [done|]. split; [done|]. split; [done|]. intros t Ht. by exists t. }
  destruct (ho_live h Hok key id Hk) as (t0 & Ht0 & Hc & _).
  pose proof (Emit_ok h id c0 (Some p0) r0 Hok) as Hok'.
  assert (Hh : hb_topics (Emit h id c0 (Some p0) r0) = hb_topics h ∧
               hb_closed (Emit h id c0 (Some p0) r0) = hb_closed h ∧
               hb_store (Emit h id c0 (Some p0) r0) !! id =
                 Some (if r0 then retain_message t0 c0 p0 else t0)).
  { unfold Emit. rewrite Ht0, Hc. simpl. by rewrite lookup_insert_eq. }
  destruct Hh as (Htop & Hcl & Hst).
  destruct (IH _ Hok') as (Hok2 & Hcl2 & Htop2 & Hret); [by rewrite Htop|].
  split; [done|]. split; [by rewrite Hcl2|]. split; [by rewrite Htop2|].
  intros t Ht. rewrite Ht0 in Ht. injection Ht as <-.
  destruct (Hret _ Hst) as (t' & Ht' & Hlast). exists t'. split; [done|].
  intros c. rewrite Hlast. unfold last_retained. cbn [foldl]. f_equal. destruct r0; [|done].
  cbn [retain_message tp_retained andb].
  destruct (String.eqb_spec c0 c) as [->|Hne]; [by rewrite lookup_insert_eq|by rewrite lookup_insert_ne].
Qed.

(** A late joiner is brought up to date: subscribing to an open topic
    replays, once each, the latest retained payload of every channel its
    source has emitted, and nothing else. *)
Theorem late_joiner_up_to_date h key id t ems sink in_time :
  reachable h → hb_closed h = false → hb_topics h !! key = Some id → hb_store h !! id = Some t →
  tp_retained t = ∅ →
  let h' := emit_all h id ems in
  ∃ replayed : list (string * string),
    hb_sent (Subscribe h' key sink in_time) = hb_sent h' ++ map (λ cp, (sink, cp.2)) replayed ∧
    NoDup replayed.*1 ∧
    ∀ c p, (c, p) ∈ replayed ↔ last_retained None ems c = Some p.
Proof.
  intros Hr Hcl Hk Ht Hempty. pose proof (reachable_ok h Hr) as Hok. cbv zeta.
  destruct (emit_all_topic h id key ems Hok Hk) as (Hok' & Hcl' & Htop' & Hret).
  destruct (Hret t Ht) as (t' & Ht' & Hlast).
  destruct (ho_retained _ Hok' id t' Ht') as [Hnd Hdom].
  set (payload c := default "" (tp_retained t' !! c)).
  exists (map (λ c, (c, payload c)) (tp_order t')). split; [|split].
  - unfold Subscribe, open_topic. rewrite Hcl', Hcl, Htop', Hk, Ht'. simpl.
    f_equal. unfold replay. simpl. rewrite map_map. done.
  - change (map ?f ?l) with (f <$> l). rewrite <- list_fmap_compose, (list_fmap_ext _ (λ x, x)); [|done].
    by rewrite list_fmap_id.
  - intros c p. rewrite <- (lookup_empty (M:=gmap string) (A:=string) c), <- Hempty, <- Hlast.
    change (map ?f ?l) with (f <$> l). rewrite list_elem_of_fmap. unfold payload. split.
    + intros (c' & [= -> ->] & Hc). apply Hdom in Hc as [q Hq]. by rewrite Hq.
    + intros Hp. exists c. rewrite Hp. split; [done|]. apply Hdom. by rewrite Hp.
Qed.

(** ** Backoff *)

Definition backoff_values : list duration :=
  [Second; 2 * Second; 4 * Second; 8 * Second; 16 * Second; 32 * Second].

(** The waits of a source that keeps failing after the given run times. *)
Fixpoint waits (backoff : duration) (elapsed : list duration) : list duration :=
  match elapsed with
  | [] => []
  | e :: rest => let '(wait, next) := run_backoff backoff e in wait :: waits next rest
  end.

Lemma run_backoff_values b e :
  b ∈ backoff_values → (run_backoff b e).1 ∈ backoff_values ∧ (run_backoff b e).2 ∈ backoff_values.
Proof.
  intros Hb. unfold run_backoff. destruct (Minute <? e); [split; vm_compute; set_solver|].
  unfold backoff_values in Hb. rewrite !elem_of_cons, elem_of_nil in Hb.
  destruct_or?; subst; split; vm_compute; set_solver.
Qed.

Lemma waits_values b elapsed : b ∈ backoff_values → Forall (λ w, w ∈ backoff_values) (waits b elapsed).
Proof.
  revert b. induction elapsed as [|e rest IH]; intros b Hb; cbn [waits]; [done|].
  pose proof (run_backoff_values b e Hb) as [H1 H2]. destruct (run_backoff b e). constructor; [exact H1|exact (IH _ H2)].
Qed.

(** Reconnects are throttled but never abandoned: with jitter, every wait
    is between one and forty seconds. *)
Theorem backoff_bounded elapsed jitter w :
  w ∈ waits Second elapsed → 0 ≤ jitter < jitter_bound w →
  Second ≤ w + jitter ≤ 40 * Second.
Proof.
  intros Hw Hj. pose proof (waits_values Second elapsed ltac:(left)) as Hall.
  rewrite Forall_forall in Hall. specialize (Hall w Hw). unfold jitter_bound in Hj.
  unfold backoff_values in Hall. rewrite !elem_of_cons, elem_of_nil in Hall. unfold Second in *.
  clear Hw. pose proof (Z.mul_div_le w 4 ltac:(lia)). destruct_or?; try done; subst; lia.
Qed.

(** ** Concrete inputs *)

Definition sample_topic_key : HKey := mkHKey "book" "binance:perp:BTC-USDT" "" "".
Definition sample_hub : Hub := Subscribe New sample_topic_key 7 true.
Definition idle_hub : Hub := Unsubscribe sample_hub sample_topic_key 7.

Lemma sample_hub_reachable : reachable sample_hub.
Proof. apply rtc_once. apply step_subscribe. Qed.
Lemma idle_hub_reachable : reachable idle_hub.
Proof. eapply rtc_r; [apply sample_hub_reachable|apply step_unsubscribe]. Qed.

Lemma hub_invariant_witness : reachable idle_hub ∧ hub_ok idle_hub.
Proof. exact (conj idle_hub_reachable (hub_invariant idle_hub idle_hub_reachable)). Defined.

Definition idle_topic : topic := mkTopic ∅ ∅ [] false (Some 1%nat).

Lemma linger_closes_idle_witness :
  if decide (tp_sinks idle_topic = ∅) then
    ∃ timer, tp_linger idle_topic = Some timer ∧ hb_topics (Fire idle_hub timer) !! sample_topic_key = None ∧
             tp_cancelled <$> hb_store (Fire idle_hub timer) !! 0%nat = Some true
  else ∀ timer, hb_topics (Fire idle_hub timer) !! sample_topic_key = Some 0%nat.
Proof.
  apply (linger_closes_idle idle_hub sample_topic_key 0%nat idle_topic).
  - apply idle_hub_reachable.
  - vm_compute. reflexivity.
  - vm_compute. reflexivity.
Defined.

Definition sample_emissions : list emission :=
  [("book", "b1", true); ("book.status", "s", false); ("book", "b2", true)].

Lemma late_joiner_up_to_date_witness :
  let h' := emit_all sample_hub 0 sample_emissions in
  ∃ replayed : list (string * string),
    hb_sent (Subscribe h' sample_topic_key 8 true) = hb_sent h' ++ map (λ cp, (8%nat, cp.2)) replayed ∧
    NoDup replayed.*1 ∧
    ∀ c p, (c, p) ∈ replayed ↔ last_retained None sample_emissions c = Some p.
Proof.
  apply (late_joiner_up_to_date sample_hub sample_topic_key 0%nat (mkTopic ({[7%nat]} ∪ ∅) ∅ [] false None)).
  - apply sample_hub_reachable.
  - reflexivity.
  - vm_compute. reflexivity.
  - vm_compute. reflexivity.
  - reflexivity.
Defined.

Lemma backoff_bounded_witness :
  16 * Second ∈ waits Second [0; 0; 0; 0; 0] ∧ Second ≤ 16 * Second + 3 * Second ≤ 40 * Second.
Proof.
  assert (Hw : 16 * Second ∈ waits Second [0; 0; 0; 0; 0]) by (vm_compute; do 4 right; left).
  split; [exact Hw|].
  apply (backoff_bounded [0; 0; 0; 0; 0] (3 * Second) (16 * Second) Hw).
  vm_compute. split; [discriminate|reflexivity].
Defined.
