(* ===== verification/Runtime.v ===== *)
(** * The account runtime

    [gateway/account/runtime.go] and the account operations of
    [gateway/account/orders.go]: the live state of one account, fed by REST
    reads and the private stream.  A venue client is the record of its
    answers: what each call returns is a parameter. *)

From Stdlib Require Import Ascii String ZArith Lia Sorted.
From stdpp Require Import base list strings gmap sorting.
From S2P Require Import Prelude GoStrings Decimals Errors Model Venue MarketCatalog HttpErrors Orders.

#[local] Open Scope string_scope.
#[local] Open Scope list_scope.
#[local] Open Scope Z_scope.
#[local] Open Scope go_scope.

(** ** Clients *)

(** [exchange.ExactOrderLookupStatus] *)
Definition ExactOrderFound := "found".
Definition ExactOrderNotFound := "not_found".

(** The venue calls the runtime makes; [vc_lookup] is absent when the client
    does not implement exact lookup. *)
Record VenueClient (D : Type) := mkVenueClient {
  vc_place : PlaceOrderRequest D → OrderAcknowledgement D * option error;
  vc_cancel : Instrument D → string → option error;
  vc_open_orders : option (Instrument D) → result error (list (Order D));
  vc_fills : option (Instrument D) → time → Z → result error (list (Fill D));
  vc_lookup : option (Instrument D → string → string → result error (string * Order D));
  vc_balances : result error (list (Balance D));
  vc_positions : result error (list (Position D));
  vc_set_leverage : Instrument D → Z → result error Z;
}.
Arguments mkVenueClient {D}. Arguments vc_place {D}. Arguments vc_cancel {D}.
Arguments vc_open_orders {D}. Arguments vc_fills {D}. Arguments vc_lookup {D}.
Arguments vc_balances {D}. Arguments vc_positions {D}. Arguments vc_set_leverage {D}.

(** [buildClients] sets exactly one of a route client's [spot] and [perp]
    fields: the client, and whether it is the perpetual one. *)
Record routeClient (D : Type) := mkRouteClient {
  rc_market : Market; rc_perp : bool; rc_client : VenueClient D;
}.
Arguments mkRouteClient {D}. Arguments rc_market {D}. Arguments rc_perp {D}. Arguments rc_client {D}.

(** ** State *)

(** Messages pushed on the account topic, by channel. *)
Inductive message :=
| MsgOrder (order : GOrder)
| MsgFill (fill : GFill)
| MsgPositions (positions : list GPosition)
| MsgBalances (balances : list GBalance)
| MsgStatus (connected : bool) (markets : list (string * bool)).

(** Capacity of the refresh channel. *)
Definition refresh_capacity : nat := 16.

Record runtime (D : Type) := mkRuntime {
  rn_id : string; rn_venue : string; rn_clients : list (routeClient D); rn_catalog : Catalog D;
  rn_positions : gmap Market (list GPosition);
  rn_balances : gmap Market (list GBalance);
  rn_loaded : gmap Market bool;
  rn_connected : gmap Market bool;
  (** whether a stream has set [emit], and what it has emitted, with retain *)
  rn_emitting : bool; rn_emitted : list (message * bool);
  (** the buffered refresh channel *)
  rn_refresh : list Market;
}.
Arguments mkRuntime {D}. Arguments rn_id {D}. Arguments rn_venue {D}. Arguments rn_clients {D}.
Arguments rn_catalog {D}. Arguments rn_positions {D}. Arguments rn_balances {D}. Arguments rn_loaded {D}.
Arguments rn_connected {D}. Arguments rn_emitting {D}. Arguments rn_emitted {D}. Arguments rn_refresh {D}.

Section runtime_ops.
Context `{Decimal D}.
Implicit Types (rt : runtime D) (client : routeClient D) (m : Market).

Definition newRuntime (id venue : string) (clients : list (routeClient D)) (catalog : Catalog D) : runtime D :=
  mkRuntime id venue clients catalog ∅ ∅ ∅ ∅ false [] [].

(** Field updates. *)
Definition set_positions rt m rows : runtime D :=
  mkRuntime (rn_id rt) (rn_venue rt) (rn_clients rt) (rn_catalog rt) (<[m := rows]> (rn_positions rt))
    (rn_balances rt) (<[m := true]> (rn_loaded rt)) (rn_connected rt) (rn_emitting rt) (rn_emitted rt) (rn_refresh rt).
Definition set_balances rt m rows : runtime D :=
  mkRuntime (rn_id rt) (rn_venue rt) (rn_clients rt) (rn_catalog rt) (rn_positions rt)
    (<[m := rows]> (rn_balances rt)) (rn_loaded rt) (rn_connected rt) (rn_emitting rt) (rn_emitted rt) (rn_refresh rt).
Definition set_connected rt m (b : bool) : runtime D :=
  mkRuntime (rn_id rt) (rn_venue rt) (rn_clients rt) (rn_catalog rt) (rn_positions rt) (rn_balances rt)
    (rn_loaded rt) (<[m := b]> (rn_connected rt)) (rn_emitting rt) (rn_emitted rt) (rn_refresh rt).
Definition set_refresh rt (q : list Market) : runtime D :=
  mkRuntime (rn_id rt) (rn_venue rt) (rn_clients rt) (rn_catalog rt) (rn_positions rt) (rn_balances rt)
    (rn_loaded rt) (rn_connected rt) (rn_emitting rt) (rn_emitted rt) q.
(** [emit(message, retain)] when a stream is attached. *)
Definition emit rt (msg : message) (retain : bool) : runtime D :=
  if rn_emitting rt then
    mkRuntime (rn_id rt) (rn_venue rt) (rn_clients rt) (rn_catalog rt) (rn_positions rt) (rn_balances rt)
      (rn_loaded rt) (rn_connected rt) (rn_emitting rt) (rn_emitted rt ++ [(msg, retain)]) (rn_refresh rt)
  else rt.

(** [routeClient.orders]: the perpetual client if there is one, else the spot
    client. *)
Definition orders client : VenueClient D := rc_client client.

Definition find_client rt m : option (routeClient D) :=
  List.find (λ c, bool_decide (rc_market c = m)) (rn_clients rt).

Definition clientFor rt (instrument : MInstrument D) : result error (routeClient D) :=
  match MarketOf (mi_native instrument) with
  | None => Err (account_invalid ("instrument " +:+ mi_ID instrument +:+ " does not belong to this account"))
  | Some owner =>
      if negb (String.eqb (mk_Venue owner) (rn_venue rt)) then
        Err (account_invalid ("instrument " +:+ mi_ID instrument +:+ " does not belong to this account"))
      else match find_client rt owner with
           | Some client => Ok client
           | None => Err (account_invalid ("market " +:+ Market_String owner +:+ " is not available for this account"))
           end
  end.

(** ** Snapshot reads *)

Definition market_positions rt m : list GPosition := default [] (rn_positions rt !! m).
Definition market_balances rt m : list GBalance := default [] (rn_balances rt !! m).

Definition positionList rt : list GPosition :=
  flat_map (λ c, market_positions rt (rc_market c)) (rn_clients rt).

Definition position_less (a b : GPosition) : bool :=
  if negb (String.eqb (gp_Instrument a) (gp_Instrument b)) then str_lt (gp_Instrument a) (gp_Instrument b)
  else str_lt (gp_Side a) (gp_Side b).
Definition sortPositions (rows : list GPosition) : list GPosition := sort_slice position_less rows.

Definition fetchPositions rt client : result error (list GPosition) :=
  natives <-? vc_positions (rc_client client) ;;
  Ok (sortPositions (omap (λ native,
    instrument ← ResolveNative (rn_catalog rt) (rc_market client) (ps_NativeSymbol native) (ps_NativeID native);
    projectPosition (mi_ID instrument) native) natives)).

Definition publishPositions rt : runtime D := emit rt (MsgPositions (positionList rt)) true.
Definition publishBalances rt : runtime D :=
  emit rt (MsgBalances (flat_map (λ c, market_balances rt (rc_market c)) (rn_clients rt))) true.
Definition is_connected rt m : bool := lookup_bool (rn_connected rt) m.
Definition publishStatus rt : runtime D :=
  let markets := map (λ c, (Market_String (rc_market c), is_connected rt (rc_market c))) (rn_clients rt) in
  let connected := (0 <? Z.of_nat (length (rn_clients rt))) &&
                   forallb (λ c, is_connected rt (rc_market c)) (rn_clients rt) in
  emit rt (MsgStatus connected markets) true.

Definition loadMarket rt client : runtime D * option error :=
  if negb (rc_perp client) then (rt, None)
  else match fetchPositions rt client with
       | Err e => (rt, Some e)
       | Ok rows => (publishPositions (set_positions rt (rc_market client) rows), None)
       end.

Definition nonzero_balance (b : Balance D) : bool :=
  negb (d_is_zero (ba_Total b) && d_is_zero (ba_Available b) && d_is_zero (ba_Locked b)).
Definition project_balance m (b : Balance D) : GBalance :=
  mkGBalance (Market_String m) (ba_Asset b) (d_string (ba_Total b)) (d_string (ba_Available b)) (d_string (ba_Locked b)).
Definition balance_less (a b : GBalance) : bool := str_lt (gb_Asset a) (gb_Asset b).

Definition fetchBalances rt client : runtime D * result error (list GBalance) :=
  match vc_balances (rc_client client) with
  | Err e => (rt, Err e)
  | Ok natives =>
      let rows := sort_slice balance_less
        (map (project_balance (rc_market client)) (List.filter nonzero_balance natives)) in
      (set_balances rt (rc_market client) rows, Ok rows)
  end.

(** A loop over the clients that collects errors. *)
Definition Positions rt : runtime D * result error (list GPosition) :=
  let step acc client :=
    let '(rt, errs) := (acc : runtime D * list error) in
    let m := rc_market client in
    if negb (rc_perp client) then acc
    else if lookup_bool (rn_loaded rt) m && rn_emitting rt && is_connected rt m then acc
    else let '(rt, err) := loadMarket rt client in
         (rt, match err with Some e => errs ++ [e] | None => errs end) in
  let '(rt, errs) := foldl step (rt, []) (rn_clients rt) in
  let rows := positionList rt in
  match rows, errs with
  | [], _ :: _ => (rt, Err (EWrap "" errs))
  | _, _ => (rt, Ok rows)
  end.

(** [fmt.Errorf("%s: %w", market, err)] *)
Definition market_error m (e : error) : error := EWrap (Market_String m) [e].

Definition Balances rt : runtime D * result error (list GBalance) :=
  let step acc client :=
    let '(rt, rows, errs) := (acc : runtime D * list GBalance * list error) in
    match fetchBalances rt client with
    | (rt, Err e) => (rt, rows, errs ++ [market_error (rc_market client) e])
    | (rt, Ok new) => (rt, rows ++ new, errs)
    end in
  let '(rt, rows, errs) := foldl step (rt, [], []) (rn_clients rt) in
  match rows, errs with
  | [], _ :: _ => (rt, Err (EWrap "" errs))
  | _, _ => (rt, Ok rows)
  end.

(** A send on the buffered channel that never blocks. *)
Definition scheduleRefresh rt m : runtime D :=
  if (length (rn_refresh rt) <? refresh_capacity)%nat then set_refresh rt (rn_refresh rt ++ [m]) else rt.

(** ** Orders *)

Definition Place rt (now : time) (instrument : MInstrument D) (request : PlaceRequest)
  : runtime D * result error PlaceResult :=
  match clientFor rt instrument with
  | Err e => (rt, Err e)
  | Ok client =>
      match native request instrument with
      | Err e => (rt, Err e)
      | Ok order =>
          let '(ack, err) := vc_place (orders client) order in
          let result := classify now (mi_ID instrument) order ack err in
          (if String.eqb (pl_Status result) OutcomeAccepted && String.eqb (mi_Product instrument) ProductPerp
           then scheduleRefresh rt (rc_market client) else rt, Ok result)
      end
  end.

Record LookupResult := mkLookup { lk_Status : string; lk_Order : option GOrder }.

Definition Lookup rt (instrument : MInstrument D) (clientOrderID orderID : string) : result error LookupResult :=
  client <-? clientFor rt instrument ;;
  match vc_lookup (orders client) with
  | None => Err (EWrap "unsupported: exact order lookup" [ESentinel AccountUnsupported])
  | Some lookup =>
      match lookup (mi_native instrument) clientOrderID orderID with
      | Err e =>
          if errors_is (TKind KindInvalidRequest) (Some e)
          then Err (account_invalid (safeMessage (Some e))) else Err e
      | Ok (status, order) =>
          if String.eqb status ExactOrderFound
          then Ok (mkLookup "found" (Some (projectOrder (mi_ID instrument) order)))
          else if String.eqb status ExactOrderNotFound then Ok (mkLookup "not_found" None)
          else Ok (mkLookup "unconfirmed" None)
      end
  end.

Definition Cancel rt (instrument : MInstrument D) (orderID : string) : result error unit :=
  client <-? clientFor rt instrument ;;
  check negb (blank orderID) else account_invalid "orderId is required" ;;
  match vc_cancel (orders client) (mi_native instrument) orderID with Some e => Err e | None => Ok tt end.

(** The clients a listing reads: the instrument's own, or all. *)
Definition listing_clients rt (instrument : option (MInstrument D)) : result error (list (routeClient D)) :=
  match instrument with
  | Some i => client <-? clientFor rt i ;; Ok [client]
  | None => Ok (rn_clients rt)
  end.

Definition instrumentID rt m (nativeSymbol nativeID : string) (requested : option (MInstrument D)) : string :=
  match requested with
  | Some i => mi_ID i
  | None => match ResolveNative (rn_catalog rt) m nativeSymbol nativeID with
            | Some i => mi_ID i | None => "" end
  end.

(** Rows of all clients; an error is returned only when nothing was read. *)
Definition collect_rows {A B} (clients : list (routeClient D)) (page : VenueClient D → result error (list A))
    (row : Market → A → option B) : result error (list B) :=
  let step acc client :=
    let '(rows, errs) := (acc : list B * list error) in
    match page (orders client) with
    | Err e => (rows, errs ++ [market_error (rc_market client) e])
    | Ok items => (rows ++ omap (row (rc_market client)) items, errs)
    end in
  match foldl step ([], []) clients with
  | ([], (_ :: _) as errs) => Err (EWrap "" errs)
  | (rows, _) => Ok rows
  end.

Definition OpenOrders rt (instrument : option (MInstrument D)) : result error (list GOrder) :=
  clients <-? listing_clients rt instrument ;;
  collect_rows clients (λ venue, vc_open_orders venue (option_map mi_native instrument))
    (λ m item, let id := instrumentID rt m (or_NativeSymbol item) (or_NativeID item) instrument in
               if is_empty id then None else Some (projectOrder id item)).

Definition Fills rt (instrument : option (MInstrument D)) (start : time) (limit : Z) : result error (list GFill) :=
  let limit := if (limit <=? 0) || (500 <? limit) then 100 else limit in
  clients <-? listing_clients rt instrument ;;
  collect_rows clients (λ venue, vc_fills venue (option_map mi_native instrument) start limit)
    (λ m item, let id := instrumentID rt m (fi_NativeSymbol item) (fi_NativeID item) instrument in
               if is_empty id then None else Some (projectFill id item)).

Definition SetLeverage rt (instrument : MInstrument D) (leverage : Z) : runtime D * result error Z :=
  match clientFor rt instrument with
  | Err e => (rt, Err e)
  | Ok client =>
      if negb (rc_perp client) then (rt, Err (account_invalid "leverage applies to perpetuals only"))
      else if (leverage <? 1) || (200 <? leverage)
      then (rt, Err (account_invalid "leverage must be between 1 and 200"))
      else match vc_set_leverage (rc_client client) (mi_native instrument) leverage with
           | Err e => (rt, Err e)
           | Ok effective => (scheduleRefresh rt (rc_market client), Ok effective)
           end
  end.

(** ** The private stream *)

Definition kept_rows (rows : list GPosition) (id : string) (event : PositionEvent D) : list GPosition :=
  let incomingSlots := map (λ p, ps_PositionSlot p) (pev_Positions event) in
  List.filter (λ row,
    if negb (String.eqb (gp_Instrument row) id) then true
    else negb (String.eqb (pev_Kind event) EventSnapshot) && negb (one_of (gp_slot row) incomingSlots)) rows.

Definition applyPositionEvent rt m (id : string) (event : PositionEvent D) : runtime D :=
  let rows := kept_rows (market_positions rt m) id event ++ omap (projectPosition id) (pev_Positions event) in
  publishPositions (set_positions rt m (sortPositions rows)).

Definition merge_balance m (byAsset : gmap string GBalance) (item : Balance D) : gmap string GBalance :=
  if nonzero_balance item then <[ba_Asset item := project_balance m item]> byAsset
  else delete (ba_Asset item) byAsset.

Definition applyBalanceEvent rt m (event : BalanceEvent D) : runtime D :=
  let byAsset := foldl (λ acc row, <[gb_Asset row := row]> acc) ∅ (market_balances rt m) in
  let byAsset := foldl (merge_balance m) byAsset (bev_Balances event) in
  publishBalances (set_balances rt m (sort_slice balance_less (map_values byAsset))).

Definition handleEvent rt client (event : AccountEvent D) : runtime D :=
  let id := ae_InstrumentID event in
  let m := rc_market client in
  if String.eqb (ae_Kind event) AccountEventOrder then
    match ae_Order event with
    | Some e => emit rt (MsgOrder (projectOrder id (oe_Order e))) false
    | None => rt
    end
  else if String.eqb (ae_Kind event) AccountEventFill then
    scheduleRefresh
      match ae_Fill event with
      | Some e => emit rt (MsgFill (projectFill id (fe_Fill e))) false
      | None => rt
      end m
  else if String.eqb (ae_Kind event) AccountEventPosition then
    match ae_Position event with Some e => applyPositionEvent rt m id e | None => rt end
  else if String.eqb (ae_Kind event) AccountEventBalance then
    match ae_Balance event with Some e => applyBalanceEvent rt m e | None => rt end
  else rt.

(** [setConnected] of [streamMarket]: publishes only changes. *)
Definition setConnected rt m (connected : bool) : runtime D :=
  let changed := negb (eqb (is_connected rt m) connected) in
  let rt := set_connected rt m connected in
  if changed then publishStatus rt else rt.

(** One [select] of [streamMarket]: what was received, [None] for a closed
    channel; the result is set when the loop returns. *)
Inductive stream_input :=
| StreamFailure (received : option (option error))
| StreamStatus (received : option string)
| StreamEvent (received : option (AccountEvent D)).

Definition streamMarket_step rt client (input : stream_input) : runtime D * option error :=
  let m := rc_market client in
  match input with
  | StreamFailure (Some (Some e)) => (setConnected rt m false, Some e)
  | StreamFailure _ => (rt, None)
  | StreamStatus None => (rt, None)
  | StreamStatus (Some state) =>
      if String.eqb state SubscriptionActive
      then (scheduleRefresh (setConnected rt m true) m, None)
      else if String.eqb state SubscriptionClosed
      then (setConnected rt m false, Some (EText "private stream closed"))
      else (setConnected rt m false, None)
  | StreamEvent None => (setConnected rt m false, Some (EText "private stream ended"))
  | StreamEvent (Some event) => (handleEvent rt client event, None)
  end.

(** What [streamMarket] does before subscribing: an empty catalog is an error;
    otherwise the route it watches. *)
Definition stream_route rt client : result error AccountRoute :=
  let m := rc_market client in
  match MarketInstruments (rn_catalog rt) m with
  | [] => Err (EText ("instrument catalog for " +:+ Market_String m +:+ " is empty"))
  | first :: _ =>
      let identity := in_Identity (mi_native first) in
      Ok (mkRoute (rn_id rt) (Market_String m) (mk_Venue m) EnvironmentLive (mk_Product m) (mk_Settlement m)
            (NativeMarketFamily (id_Venue identity) (id_Product identity) (mk_Settlement m)))
  end.

Definition resync rt : runtime D :=
  let rt := foldl (λ rt client, (fetchBalances (loadMarket rt client).1 client).1) rt (rn_clients rt) in
  publishStatus (publishBalances (publishPositions rt)).

(** [stream] attaches an emitter, takes a first snapshot, and detaches when it
    returns. *)
Definition attach rt : runtime D :=
  mkRuntime (rn_id rt) (rn_venue rt) (rn_clients rt) (rn_catalog rt) (rn_positions rt) (rn_balances rt)
    (rn_loaded rt) (rn_connected rt) true (rn_emitted rt) (rn_refresh rt).
Definition detach rt : runtime D :=
  mkRuntime (rn_id rt) (rn_venue rt) (rn_clients rt) (rn_catalog rt) (rn_positions rt) (rn_balances rt)
    (rn_loaded rt) ((λ _, false) <$> rn_connected rt) false (rn_emitted rt) (rn_refresh rt).

(** The loop of [stream]: markets pending a refresh and whether the coalescing
    timer runs. *)
Record stream_state := mkStream { ss_pending : list Market; ss_timer : bool }.
Inductive loop_input := LoopRefresh | LoopTimer | LoopResync.

Definition refresh_market rt m : runtime D :=
  match find_client rt m with
  | None => rt
  | Some client =>
      match fetchBalances (loadMarket rt client).1 client with
      | (rt, Ok _) => publishBalances rt
      | (rt, Err _) => rt
      end
  end.

Definition stream_loop (acc : runtime D * stream_state) (input : loop_input) : runtime D * stream_state :=
  let '(rt, st) := acc in
  match input with
  | LoopRefresh =>
      match rn_refresh rt with
      | [] => acc
      | m :: rest =>
          (set_refresh rt rest,
           mkStream (if bool_decide (m ∈ ss_pending st) then ss_pending st else ss_pending st ++ [m]) true)
      end
  | LoopTimer =>
      if ss_timer st then (foldl refresh_market rt (ss_pending st), mkStream [] false) else acc
  | LoopResync => (resync rt, st)
  end.
End runtime_ops.

(** ** Position rows as a map *)

Definition row_key (row : GPosition) : string * string := (gp_Instrument row, gp_slot row).

(** The row of an instrument's slot. *)
Definition row_at (rows : list GPosition) (id slot : string) : option GPosition :=
  List.find (λ row, bool_decide (row_key row = (id, slot))) rows.

(** One row per instrument and slot, ordered by instrument and side. *)
Record rows_ok (rows : list GPosition) : Prop := {
  rw_unique : NoDup (map row_key rows);
  rw_sorted : StronglySorted (not_less position_less) rows;
}.

Lemma row_at_Some rows id slot row :
  NoDup (map row_key rows) → row_at rows id slot = Some row ↔ row ∈ rows ∧ row_key row = (id, slot).
Proof.
  intros Hnd. unfold row_at. split.
  - intros [Hin Hk]%List.find_some. apply bool_decide_eq_true in Hk. by rewrite list_elem_of_In.
  - intros [Hin Hk]. induction rows as [|r rows IH]; [by apply elem_of_nil in Hin|].
    simpl in *. apply NoDup_cons in Hnd as [Hni Hnd].
    case_bool_decide as Hr.
    + apply elem_of_cons in Hin as [->|Hin]; [done|]. destruct Hni. rewrite Hr, <- Hk.
      by apply list_elem_of_fmap_2.
    + apply elem_of_cons in Hin as [->|Hin]; [done|]. by apply IH.
Qed.

Lemma option_eq_iff {A} (o1 o2 : option A) : (∀ x, o1 = Some x ↔ o2 = Some x) → o1 = o2.
Proof. apply option_eq. Qed.

Lemma position_less_iff a b :
  position_less a b = true ↔
  str_lt (gp_Instrument a) (gp_Instrument b) = true ∨
  (gp_Instrument a = gp_Instrument b ∧ str_lt (gp_Side a) (gp_Side b) = true).
Proof.
  unfold position_less. destruct (String.eqb_spec (gp_Instrument a) (gp_Instrument b)) as [E|E]; simpl.
  - rewrite E, str_lt_irrefl. naive_solver.
  - naive_solver.
Qed.

Lemma position_less_asym a b : position_less a b = true → position_less b a = false.
Proof.
  intros Hab. apply not_true_iff_false. rewrite position_less_iff in *.
  intros [Hba|[E Hba]]; destruct Hab as [Hab|[E' Hab]].
  - apply str_lt_asym in Hab. congruence.
  - rewrite E', str_lt_irrefl in Hba. done.
  - rewrite E, str_lt_irrefl in Hab. done.
  - apply str_lt_asym in Hab. congruence.
Qed.

Lemma position_less_trans a b c :
  position_less b a = false → position_less c b = false → position_less c a = false.
Proof.
  rewrite <- !not_true_iff_false, !position_less_iff. intros Hba Hcb Hca.
  assert (str_lt (gp_Instrument b) (gp_Instrument a) = false) as H1 by (apply not_true_iff_false; tauto).
  assert (str_lt (gp_Instrument c) (gp_Instrument b) = false) as H2 by (apply not_true_iff_false; tauto).
  destruct Hca as [Hca|[Eca Hca]].
  - by rewrite (str_not_lt_trans _ _ _ H1 H2) in Hca.
  - rewrite Eca in H2. pose proof (str_lt_total _ _ H2 H1) as Eab.
    assert (str_lt (gp_Side b) (gp_Side a) = false) as H3 by (apply not_true_iff_false; naive_solver).
    assert (str_lt (gp_Side c) (gp_Side b) = false) as H4.
    { apply not_true_iff_false. intros Hs. apply Hcb. right. split; [congruence|done]. }
    by rewrite (str_not_lt_trans _ _ _ H3 H4) in Hca.
Qed.

Lemma sortPositions_sorted rows : StronglySorted (not_less position_less) (sortPositions rows).
Proof. apply sort_slice_sorted; [apply position_less_asym|apply position_less_trans]. Qed.

Section runtime_spec.
Context `{Decimal D}.
Implicit Types (rt : runtime D) (event : PositionEvent D).

Lemma emit_positions rt msg retain : rn_positions (emit rt msg retain) = rn_positions rt.
Proof. unfold emit. by destruct (rn_emitting rt). Qed.
Lemma emit_balances rt msg retain : rn_balances (emit rt msg retain) = rn_balances rt.
Proof. unfold emit. by destruct (rn_emitting rt). Qed.

Lemma projectPosition_key id (p : Position D) row :
  projectPosition id p = Some row → row_key row = (id, ps_PositionSlot p).
Proof. unfold projectPosition. destruct (d_is_zero _); [done|]. by intros [= <-]. Qed.

Lemma kept_rows_In rows id event row :
  row ∈ kept_rows rows id event ↔
  row ∈ rows ∧ (gp_Instrument row ≠ id ∨
    (pev_Kind event ≠ EventSnapshot ∧ gp_slot row ∉ map (λ p, ps_PositionSlot p) (pev_Positions event))).
Proof.
  unfold kept_rows. rewrite !list_elem_of_In, List.filter_In. apply and_iff_compat_l.
  destruct (String.eqb_spec (gp_Instrument row) id); simpl; [|naive_solver].
  rewrite andb_true_iff, !negb_true_iff, String.eqb_neq.
  rewrite <- (not_true_iff_false (one_of _ _)), one_of_In. naive_solver.
Qed.

(** The event's row for a slot, if it carries one. *)
Definition event_position event (slot : string) : option (Position D) :=
  List.find (λ p, String.eqb (ps_PositionSlot p) slot) (pev_Positions event).

Lemma event_position_Some event slot p :
  NoDup (map (λ p, ps_PositionSlot p) (pev_Positions event)) →
  event_position event slot = Some p ↔ p ∈ pev_Positions event ∧ ps_PositionSlot p = slot.
Proof.
  unfold event_position. induction (pev_Positions event) as [|q ps IH]; simpl; intros Hnd.
  { split; [done|]. by intros [?%elem_of_nil _]. }
  apply NoDup_cons in Hnd as [Hni Hnd]. destruct (String.eqb_spec (ps_PositionSlot q) slot) as [<-|Hne].
  - rewrite elem_of_cons. split; [intros [= ->]; auto|]. intros [[->|Hin] E]; [done|].
    destruct Hni. rewrite <- E. by apply (list_elem_of_fmap_2 (λ p, ps_PositionSlot p)).
  - rewrite IH, elem_of_cons by done. naive_solver.
Qed.

Lemma event_position_None event slot :
  event_position event slot = None ↔ slot ∉ map (λ p, ps_PositionSlot p) (pev_Positions event).
Proof.
  unfold event_position. induction (pev_Positions event) as [|q ps IH]; simpl.
  { split; [intros _; apply not_elem_of_nil|done]. }
  rewrite not_elem_of_cons. destruct (String.eqb_spec (ps_PositionSlot q) slot); naive_solver.
Qed.

(** The rows before sorting keep their keys distinct. *)
Lemma merged_rows_unique rows id event :
  NoDup (map row_key rows) → NoDup (map (λ p, ps_PositionSlot p) (pev_Positions event)) →
  NoDup (map row_key (kept_rows rows id event ++ omap (projectPosition id) (pev_Positions event))).
Proof.
  intros Hnd Hslots. rewrite map_app. apply NoDup_app. split; [|split].
  - unfold kept_rows. induction rows as [|r rows IH]; simpl; [apply NoDup_nil_2|].
    simpl in Hnd. apply NoDup_cons in Hnd as [Hni Hnd]. specialize (IH Hnd).
    match goal with |- context [if ?b then r :: _ else _] => destruct b end; [|done].
    simpl. constructor; [|done]. intros (r' & E & Hin)%list_elem_of_fmap. apply Hni.
    apply list_elem_of_In, List.filter_In in Hin as [Hin _]. rewrite E.
    apply list_elem_of_fmap_2. by apply list_elem_of_In.
  - intros k (r & -> & Hr)%list_elem_of_fmap (r' & E & Hr')%list_elem_of_fmap.
    apply list_elem_of_omap in Hr' as (p & Hp & Hproj). apply projectPosition_key in Hproj.
    apply kept_rows_In in Hr as [_ Hr]. unfold row_key in *. rewrite Hproj in E. injection E as E1 E2.
    destruct Hr as [Hr|[_ Hr]]; [done|]. apply Hr. rewrite E2.
    by apply (list_elem_of_fmap_2 (λ p, ps_PositionSlot p)).
  - induction (pev_Positions event) as [|p ps IH]; simpl; [apply NoDup_nil_2|].
    simpl in Hslots. apply NoDup_cons in Hslots as [Hni Hslots]. specialize (IH Hslots).
    destruct (projectPosition id p) as [r|] eqn:Hproj; [|done]. simpl. constructor; [|done].
    intros (r' & E & Hin)%list_elem_of_fmap. apply list_elem_of_omap in Hin as (p' & Hp' & Hproj').
    apply projectPosition_key in Hproj, Hproj'. rewrite Hproj, Hproj' in E. injection E as E. apply Hni.
    rewrite E. by apply (list_elem_of_fmap_2 (λ p, ps_PositionSlot p)).
Qed.

(** The row an event leaves at a slot of instrument [id]. *)
Definition slot_after rows (id : string) event (slot : string) : option GPosition :=
  match event_position event slot with
  | Some p => projectPosition id p
  | None => if String.eqb (pev_Kind event) EventSnapshot then None else row_at rows id slot
  end.

(** C14: a position event changes exactly one instrument's rows.  A snapshot
    leaves only the slots it carries; a delta replaces the slots it carries and
    keeps the others; a zero quantity removes the row.  Other instruments and
    markets keep theirs, rows stay unique per instrument and slot, and sorted. *)
Theorem applyPositionEvent_refines rt m id event :
  rows_ok (market_positions rt m) → NoDup (map (λ p, ps_PositionSlot p) (pev_Positions event)) →
  let rt' := applyPositionEvent rt m id event in
  rows_ok (market_positions rt' m) ∧
  (∀ slot, row_at (market_positions rt' m) id slot = slot_after (market_positions rt m) id event slot) ∧
  (∀ id' slot, id' ≠ id → row_at (market_positions rt' m) id' slot = row_at (market_positions rt m) id' slot) ∧
  (∀ m', m' ≠ m → market_positions rt' m' = market_positions rt m').
Proof.
  intros [Hnd Hsort] Hslots rt'.
  set (rows := kept_rows (market_positions rt m) id event ++ omap (projectPosition id) (pev_Positions event)).
  assert (Hrows : market_positions rt' m = sortPositions rows).
  { unfold rt', applyPositionEvent, market_positions, publishPositions. rewrite emit_positions. simpl.
    by rewrite lookup_insert_eq. }
  assert (Hother : ∀ m', m' ≠ m → market_positions rt' m' = market_positions rt m').
  { intros m' Hne. unfold rt', applyPositionEvent, market_positions, publishPositions. rewrite emit_positions.
    simpl. by rewrite lookup_insert_ne. }
  pose proof (merged_rows_unique _ id event Hnd Hslots) as Hun. fold rows in Hun.
  assert (Hun' : NoDup (map row_key (sortPositions rows))) by (unfold sortPositions; by rewrite sort_slice_perm).
  assert (Hin : ∀ row, row ∈ sortPositions rows ↔ row ∈ rows) by (intros row; apply sort_slice_elem_of).
  rewrite Hrows. split; [split; [done|apply sortPositions_sorted]|]. split; [|split; [|done]].
  - intros slot. apply option_eq_iff. intros row. rewrite row_at_Some, Hin by done. unfold rows, slot_after.
    rewrite elem_of_app, kept_rows_In, list_elem_of_omap. split.
    + intros [[[Hold Hk]|(p & Hp & Hproj)] Hkey].
      * injection Hkey as E1 E2. destruct Hk as [Hk|[Hkind Hslot]]; [done|].
        rewrite E2 in Hslot. rewrite (proj2 (event_position_None event slot) Hslot).
        apply String.eqb_neq in Hkind. rewrite Hkind. apply row_at_Some; [done|].
        split; [done|]. unfold row_key. congruence.
      * pose proof (projectPosition_key _ _ _ Hproj) as Hkey'. rewrite Hkey in Hkey'. injection Hkey' as Eslot.
        by rewrite (proj2 (event_position_Some event slot p Hslots) (conj Hp (eq_sym Eslot))).
    + destruct (event_position event slot) as [p|] eqn:Hp.
      * intros Hproj. apply event_position_Some in Hp as [Hp Eslot]; [|done].
        pose proof (projectPosition_key _ _ _ Hproj) as Hkey. rewrite Hkey, Eslot. eauto.
      * destruct (String.eqb_spec (pev_Kind event) EventSnapshot) as [|Hkind]; [done|].
        apply event_position_None in Hp. rewrite row_at_Some by done. intros [Hold Hkey].
        split; [|done]. left. split; [done|]. right. split; [done|]. unfold row_key in Hkey. by injection Hkey as _ ->.
  - intros id' slot Hne. apply option_eq_iff. intros row. rewrite !row_at_Some, Hin by done. unfold rows.
    rewrite elem_of_app, kept_rows_In, list_elem_of_omap. split.
    + intros [[[Hold _]|(p & Hp & Hproj)] Hkey]; [done|].
      apply projectPosition_key in Hproj. congruence.
    + intros [Hold Hkey]. split; [|done]. left. split; [done|]. left. unfold row_key in Hkey. congruence.
Qed.

(** ** Balances as a map from assets *)

(** The row of an asset after the stored rows and the event's items: the last
    one wins, and an all-zero item removes it. *)
Definition balance_after m (rows : list GBalance) (items : list (Balance D)) (asset : string) : option GBalance :=
  foldl (λ cur item, if String.eqb (ba_Asset item) asset
                     then if nonzero_balance item then Some (project_balance m item) else None else cur)
    (foldl (λ cur row, if String.eqb (gb_Asset row) asset then Some row else cur) None rows) items.

Lemma index_balances rows (acc : gmap string GBalance) asset :
  foldl (λ acc row, <[gb_Asset row := row]> acc) acc rows !! asset =
  foldl (λ cur row, if String.eqb (gb_Asset row) asset then Some row else cur) (acc !! asset) rows.
Proof.
  revert acc. induction rows as [|r rows IH]; intros acc; simpl; [done|]. rewrite IH. f_equal.
  destruct (String.eqb_spec (gb_Asset r) asset) as [->|]; [by rewrite lookup_insert_eq|by rewrite lookup_insert_ne].
Qed.

Lemma merge_balances m items (acc : gmap string GBalance) asset :
  foldl (merge_balance m) acc items !! asset =
  foldl (λ cur item, if String.eqb (ba_Asset item) asset
                     then if nonzero_balance item then Some (project_balance m item) else None else cur)
    (acc !! asset) items.
Proof.
  revert acc. induction items as [|b items IH]; intros acc; simpl; [done|]. rewrite IH. f_equal.
  unfold merge_balance. destruct (String.eqb_spec (ba_Asset b) asset) as [->|], (nonzero_balance b);
    by rewrite ?lookup_insert_eq, ?lookup_delete_eq, ?lookup_insert_ne, ?lookup_delete_ne.
Qed.

(** Every row is stored under its own asset. *)
Definition keyed (byAsset : gmap string GBalance) : Prop := ∀ a row, byAsset !! a = Some row → gb_Asset row = a.

Lemma index_keyed rows acc : keyed acc → keyed (foldl (λ acc row, <[gb_Asset row := row]> acc) acc rows).
Proof.
  revert acc. induction rows as [|r rows IH]; intros acc Hk; simpl; [done|]. apply IH.
  intros a row [[<- <-]|[_ Ha]]%lookup_insert_Some; [done|by apply Hk].
Qed.

Lemma merge_keyed m items acc : keyed acc → keyed (foldl (merge_balance m) acc items).
Proof.
  revert acc. induction items as [|b items IH]; intros acc Hk; simpl; [done|]. apply IH.
  unfold merge_balance. destruct (nonzero_balance b).
  - intros a row [[<- <-]|[_ Ha]]%lookup_insert_Some; [done|by apply Hk].
  - intros a row [_ Ha]%lookup_delete_Some. by apply Hk.
Qed.

Lemma keyed_assets byAsset : keyed byAsset → NoDup (map gb_Asset (map_values byAsset)).
Proof.
  intros Hk. unfold map_values. change (map ?f ?l) with (f <$> l). rewrite <- list_fmap_compose.
  rewrite (list_fmap_ext _ fst); [apply NoDup_fst_map_to_list|].
  intros i [a row] Hi. simpl. apply Hk. by apply list_elem_of_lookup_2, elem_of_map_to_list in Hi.
Qed.

(** A balance event merges by asset: each item sets its asset's row, an
    all-zero item removes it, other assets keep theirs; the result has one row
    per asset in asset order, and other markets are untouched. *)
Theorem applyBalanceEvent_refines rt m (event : BalanceEvent D) :
  let rt' := applyBalanceEvent rt m event in
  StronglySorted (λ a b, str_lt (gb_Asset a) (gb_Asset b) = true) (market_balances rt' m) ∧
  (∀ row, row ∈ market_balances rt' m ↔
          balance_after m (market_balances rt m) (bev_Balances event) (gb_Asset row) = Some row) ∧
  (∀ m', m' ≠ m → market_balances rt' m' = market_balances rt m').
Proof.
  intros rt'.
  set (byAsset := foldl (merge_balance m)
    (foldl (λ acc row, <[gb_Asset row := row]> acc) ∅ (market_balances rt m)) (bev_Balances event)).
  assert (Hrows : market_balances rt' m = sort_slice balance_less (map_values byAsset)).
  { unfold rt', applyBalanceEvent, market_balances, publishBalances. rewrite emit_balances. simpl.
    by rewrite lookup_insert_eq. }
  assert (Hk : keyed byAsset).
  { apply merge_keyed, index_keyed. intros a row. by rewrite lookup_empty. }
  assert (Hat : ∀ a, byAsset !! a = balance_after m (market_balances rt m) (bev_Balances event) a).
  { intros a. unfold byAsset, balance_after. by rewrite merge_balances, index_balances, lookup_empty. }
  rewrite Hrows. split; [|split].
  - apply (sort_by_string_strict gb_Asset). by apply keyed_assets.
  - intros row. rewrite sort_slice_elem_of, elem_of_map_values, <- Hat. split.
    + intros [a Ha]. by rewrite (Hk a row Ha).
    + intros Ha. eauto.
  - intros m' Hne. unfold rt', applyBalanceEvent, market_balances, publishBalances. rewrite emit_balances.
    simpl. by rewrite lookup_insert_ne.
Qed.

(** ** Routing *)

Lemma clientFor_Ok rt instrument client :
  clientFor rt instrument = Ok client →
  client ∈ rn_clients rt ∧ MarketOf (mi_native instrument) = Some (rc_market client) ∧
  mk_Venue (rc_market client) = rn_venue rt.
Proof.
  unfold clientFor. destruct (MarketOf _) as [owner|]; [|done].
  destruct (String.eqb_spec (mk_Venue owner) (rn_venue rt)) as [Hv|]; [|done]. simpl.
  unfold find_client. destruct (List.find _ _) as [c|] eqn:Hf; [|done]. intros [= <-].
  apply List.find_some in Hf as [Hin Hm]. apply bool_decide_eq_true in Hm. subst owner.
  by rewrite list_elem_of_In.
Qed.

(** ** Listings *)

Definition page_rows {A B} (page : VenueClient D → result error (list A)) (row : Market → A → option B)
    (client : routeClient D) : list B :=
  match page (orders client) with Ok items => omap (row (rc_market client)) items | Err _ => [] end.
Definition page_failed {A} (page : VenueClient D → result error (list A)) (client : routeClient D) : bool :=
  negb (is_ok (page (orders client))).

Lemma collect_rows_eq {A B} clients page (row : Market → A → option B) :
  let rows := flat_map (page_rows page row) clients in
  match collect_rows clients page row with
  | Ok result => result = rows ∧ (rows = [] → existsb (page_failed page) clients = false)
  | Err _ => rows = [] ∧ existsb (page_failed page) clients = true
  end.
Proof.
  unfold collect_rows.
  match goal with |- context [foldl ?f _ _] => set (step := f) end.
  assert (Hstep : ∀ cs (rows : list B) errs, foldl step (rows, errs) cs =
    (rows ++ flat_map (page_rows page row) cs,
     errs ++ flat_map (λ c, match page (orders c) with Err e => [market_error (rc_market c) e] | Ok _ => [] end) cs)).
  { induction cs as [|c cs IH]; intros rows errs; simpl; [by rewrite !app_nil_r|].
    unfold page_rows. destruct (page (orders c)) eqn:E; rewrite IH; simpl; by rewrite <- ?app_assoc. }
  rewrite Hstep. simpl.
  assert (Herrs : ∀ cs, flat_map (λ c, match page (orders c) with
      Err e => [market_error (rc_market c) e] | Ok _ => [] end) cs = [] ↔ existsb (page_failed page) cs = false).
  { induction cs as [|c cs IH]; simpl; [done|]. unfold page_failed at 1.
    destruct (page (orders c)); simpl; [done|]. done. }
  specialize (Herrs clients).
  destruct (flat_map (page_rows page row) clients) as [|r rows];
    destruct (flat_map _ clients) as [|e errs]; try (split; [done|]); try tauto; try done.
  apply not_false_iff_true. intros Hf. by apply Herrs in Hf.
Qed.

(** Listing open orders over all markets survives partial outages: every
    order of a market that answered and resolves is returned; an error is
    returned only when there is nothing to return and some market failed. *)
Theorem OpenOrders_partial_failure rt :
  let rows := flat_map (page_rows (λ venue, vc_open_orders venue None)
    (λ m item, let id := instrumentID rt m (or_NativeSymbol item) (or_NativeID item) None in
               if is_empty id then None else Some (projectOrder id item))) (rn_clients rt) in
  match OpenOrders rt None with
  | Ok result => result = rows
  | Err _ => rows = [] ∧ existsb (page_failed (λ venue, vc_open_orders venue None)) (rn_clients rt) = true
  end.
Proof.
  intros rows. unfold OpenOrders, listing_clients. simpl option_map.
  pose proof (collect_rows_eq (rn_clients rt) (λ venue, vc_open_orders venue None)
    (λ m item, let id := instrumentID rt m (or_NativeSymbol item) (or_NativeID item) None in
               if is_empty id then None else Some (projectOrder id item))) as Hc.
  destruct (collect_rows _ _ _); [by destruct Hc|done].
Qed.
End runtime_spec.

Section placing.
Context `{DecimalLaws D}.

(** An order goes only to the client of the instrument's own market, on the
    account's own venue, and only if it satisfies the venue-neutral
    specification; the result is the classification of that venue's answer,
    positions and balances are untouched, and an accepted perpetual order
    schedules a position refresh of its market (unless 16 are queued). *)
Theorem Place_routed (rt : runtime D) now instrument request rt' result :
  Place rt now instrument request = (rt', Ok result) →
  ∃ client order,
    client ∈ rn_clients rt ∧ MarketOf (mi_native instrument) = Some (rc_market client) ∧
    mk_Venue (rc_market client) = rn_venue rt ∧
    translates request instrument order ∧ order_spec order (mi_Product instrument) ∧
    result = classify now (mi_ID instrument) order (vc_place (rc_client client) order).1
                      (vc_place (rc_client client) order).2 ∧
    rn_positions rt' = rn_positions rt ∧ rn_balances rt' = rn_balances rt ∧
    (pl_Status result = OutcomeAccepted → mi_Product instrument = ProductPerp →
     (length (rn_refresh rt) < refresh_capacity)%nat → rc_market client ∈ rn_refresh rt').
Proof.
  unfold Place. destruct (clientFor rt instrument) as [client|] eqn:Hc; [|done].
  destruct (native request instrument) as [order|] eqn:Hn; [|done].
  destruct (vc_place (orders client) order) as [ack err] eqn:Hp. intros [= <- <-].
  apply clientFor_Ok in Hc as (Hin & Hm & Hv). exists client, order.
  unfold orders in Hp. rewrite Hp. split; [done|]. split; [done|]. split; [done|].
  pose proof (native_translates request instrument order Hn) as [Ht Hs].
  split; [done|]. split; [done|]. split; [done|].
  unfold scheduleRefresh. destruct (_ && _) eqn:Hb; simpl.
  - destruct (Nat.ltb_spec (length (rn_refresh rt)) refresh_capacity); simpl.
    + split; [done|]. split; [done|]. intros _ _ _. rewrite elem_of_app, list_elem_of_singleton. by right.
    + split; [done|]. split; [done|]. intros _ _ Hlt. lia.
  - split; [done|]. split; [done|]. intros Hacc Hperp _.
    rewrite Hacc, Hperp in Hb. done.
Qed.
End placing.

(** ** Concrete inputs *)

Definition resting_ack : OrderAcknowledgement Z :=
  mkAck VenueBinance ProductPerp "place_order" AckResting "BTCUSDT" "" OrderTypeLimit "77" "1001" "" 0
    (mkOptDec 0 false) "" "".
Definition sample_client : VenueClient Z :=
  mkVenueClient (λ _, (resting_ack, None)) (λ _ _, None) (λ _, Ok []) (λ _ _ _, Ok []) None (Ok []) (Ok [])
    (λ _ l, Ok l).
Definition sample_runtime : runtime Z :=
  newRuntime "acc1" VenueBinance [mkRouteClient binance_perp true sample_client] sample_catalog.

Lemma Place_routed_witness :
  ∃ rt' result,
    Place sample_runtime unix_epoch sample_instrument sample_request = (rt', Ok result) ∧
    ∃ client order,
      client ∈ rn_clients sample_runtime ∧ MarketOf (mi_native sample_instrument) = Some (rc_market client) ∧
      mk_Venue (rc_market client) = rn_venue sample_runtime ∧
      translates sample_request sample_instrument order ∧ order_spec order (mi_Product sample_instrument) ∧
      result = classify unix_epoch (mi_ID sample_instrument) order (vc_place (rc_client client) order).1
                        (vc_place (rc_client client) order).2 ∧
      rn_positions rt' = rn_positions sample_runtime ∧ rn_balances rt' = rn_balances sample_runtime ∧
      (pl_Status result = OutcomeAccepted → mi_Product sample_instrument = ProductPerp →
       (length (rn_refresh sample_runtime) < refresh_capacity)%nat → rc_market client ∈ rn_refresh rt').
Proof.
  destruct (Place sample_runtime unix_epoch sample_instrument sample_request) as [rt' [result|e]] eqn:E.
  - exists rt', result. split; [reflexivity|].
    exact (Place_routed sample_runtime unix_epoch sample_instrument sample_request rt' result E).
  - exfalso. vm_compute in E. discriminate E.
Defined.

Definition sample_position (slot : string) (quantity : Z) : Position Z :=
  mkPosition "BTCUSDT" "" slot "" quantity 100 101 0 (mkOptDec 0 false) (mkOptDec 0 false) (mkOptDec 0 false).
Definition sample_position_event : PositionEvent Z :=
  mkPositionEvent EventDelta [sample_position PositionSlotLong 3; sample_position PositionSlotShort 0] unix_epoch.

Lemma applyPositionEvent_refines_witness :
  let id := "binance:perp:BTC-USDT" in
  let rt' := applyPositionEvent sample_runtime binance_perp id sample_position_event in
  rows_ok (market_positions rt' binance_perp) ∧
  (∀ slot, row_at (market_positions rt' binance_perp) id slot =
           slot_after (market_positions sample_runtime binance_perp) id sample_position_event slot) ∧
  (∀ id' slot, id' ≠ id → row_at (market_positions rt' binance_perp) id' slot =
                          row_at (market_positions sample_runtime binance_perp) id' slot) ∧
  (∀ m', m' ≠ binance_perp → market_positions rt' m' = market_positions sample_runtime m').
Proof.
  apply (applyPositionEvent_refines sample_runtime binance_perp "binance:perp:BTC-USDT" sample_position_event).
  - split; vm_compute; constructor.
  - apply (bool_decide_unpack _). vm_compute. exact I.
Defined.
