(* ===== verification/Store.v ===== *)
(** * The account store

    [secretstore/cipher.go]: sealing of one record, bound to its account and
    venue.  [gateway/store/store.go]: the encrypted account file.  The AEAD
    ([crypto/cipher]) is a parameter with the laws the code relies on.  A file
    is represented by the record list its JSON text encodes; the disk keeps
    apart what has been synced from what a crash may tear or undo. *)

From Stdlib Require Import Ascii String ZArith Lia Sorted.
From stdpp Require Import base list strings gmap sorting.
From S2P Require Import Prelude GoStrings Errors Model.

#[local] Open Scope string_scope.
#[local] Open Scope list_scope.
#[local] Open Scope Z_scope.
#[local] Open Scope go_scope.

(** ** Authenticated encryption *)

(** [cipher.AEAD] for one key; byte strings are [string]s. *)
Class AEAD := {
  NonceSize : nat;
  Overhead : nat;
  aead_seal : string → string → string → string;          (* nonce, plaintext, additional data *)
  aead_open : string → string → string → option string;   (* nonce, ciphertext, additional data *)
}.

(** What is relied on: decryption inverts encryption, and the ciphertext has
    the tag's length added. *)
Class AEADLaws `{AEAD} : Prop := {
  aead_open_seal : ∀ nonce plain ad, aead_open nonce (aead_seal nonce plain ad) ad = Some plain;
  aead_length : ∀ nonce plain ad, String.length (aead_seal nonce plain ad) = (String.length plain + Overhead)%nat;
}.

Section cipher.
Context `{AEAD}.

Definition NUL : string := String (byte 0) "".
Definition additional_data (accountID venue : string) : string :=
  "bolter-account-v1" +:+ NUL +:+ accountID +:+ NUL +:+ venue.

(** [Cipher.Seal]; [nonce] is what the random source returned, if it did. *)
Definition Seal (nonce : option string) (accountID venue material : string) : result error string :=
  check negb (is_empty accountID || is_empty venue || is_empty material) else ESentinel StoreUnavailable ;;
  match nonce with
  | None => Err (ESentinel StoreUnavailable)
  | Some n => Ok (n +:+ aead_seal n material (additional_data accountID venue))
  end.

(** [Cipher.Open] *)
Definition Open_sealed (accountID venue sealed : string) : result error string :=
  check negb (String.length sealed <? NonceSize + Overhead)%nat else ESentinel StoreIntegrity ;;
  match aead_open (String.substring 0 NonceSize sealed) (drop_string NonceSize sealed)
          (additional_data accountID venue) with
  | Some plain => Ok plain
  | None => Err (ESentinel StoreIntegrity)
  end.

(** ** The store *)

Record Account := mkAccount { at_ID : string; at_Venue : string; at_Label : string; at_CreatedAt : time }.
Record record := mkRecord { rec_Account : Account; rec_Sealed : string }.

(** What reading a file finds: nothing, an error, text that is not a record
    array, or the records. *)
Inductive file := FileMissing | FileUnreadable | FileCorrupt | FileRecords (records : list record).

(** The data of a file is on the medium only once it was synced: a crash leaves
    an unsynced one torn. *)
Inductive contents := Synced (f : file) | Unsynced (f : file).
Definition read_contents (c : contents) : file := match c with Synced f | Unsynced f => f end.
Definition torn (c : contents) : file := match c with Synced f => f | Unsynced _ => FileCorrupt end.

(** The store's path, the temporary file beside it, and what the path's
    directory entry may lead to on the medium: a rename is durable only once the
    directory is synced, so until then the entry may be any it had since. *)
Record disk := mkDisk { dk_path : contents; dk_temp : option contents; dk_entries : list contents }.

(** What the next process may find at the path after a crash. *)
Definition crash_files (d : disk) : list file := map torn (dk_entries d).

Record Store := mkStore { st_records : gmap string record; st_disk : disk }.

Definition record_id (r : record) : string := at_ID (rec_Account r).

(** The loop of [Open] over the decoded records. *)
Fixpoint load_records (acc : gmap string record) (records : list record) : result error (gmap string record) :=
  match records with
  | [] => Ok acc
  | item :: rest =>
      match Open_sealed (record_id item) (at_Venue (rec_Account item)) (rec_Sealed item) with
      | Err _ => Err (EText ("account " +:+ record_id item +:+ " cannot be decrypted with the configured key"))
      | Ok _ => load_records (<[record_id item := item]> acc) rest
      end
  end.

Definition Open (d : disk) : result error Store :=
  match read_contents (dk_path d) with
  | FileMissing => Ok (mkStore ∅ d)
  | FileUnreadable => Err (EText "read account store")
  | FileCorrupt => Err (EText "account store is corrupt")
  | FileRecords records => acc <-? load_records ∅ records ;; Ok (mkStore acc d)
  end.

Definition created_before (a b : record) : bool :=
  Before (at_CreatedAt (rec_Account a)) (at_CreatedAt (rec_Account b)).

Definition List_accounts (s : Store) : list Account :=
  sort_slice (λ a b, Before (at_CreatedAt a) (at_CreatedAt b)) (map rec_Account (map_values (st_records s))).

Definition Get_account (s : Store) (id : string) : result error (Account * string) :=
  match st_records s !! id with
  | None => Err (ESentinel StoreNotFound)
  | Some item =>
      plain <-? Open_sealed (record_id item) (at_Venue (rec_Account item)) (rec_Sealed item) ;;
      Ok (rec_Account item, plain)
  end.

(** The calls of [flushLocked] that can fail, in order. *)
Inductive flush_call :=
  | CallMarshal | CallMkdir | CallCreateTemp | CallChmod | CallWrite | CallSync | CallClose | CallRename | CallSyncDir.
Definition flush_calls : list flush_call :=
  [CallMarshal; CallMkdir; CallCreateTemp; CallChmod; CallWrite; CallSync; CallClose; CallRename; CallSyncDir].

Definition flush_records (records : gmap string record) : list record :=
  sort_slice created_before (map_values records).

(** What a successful call does to the disk; [data] is the marshalled array. *)
Definition run_call (data : list record) (d : disk) (c : flush_call) : disk :=
  match c with
  | CallCreateTemp => mkDisk (dk_path d) (Some (Unsynced FileCorrupt)) (dk_entries d)
  | CallWrite => mkDisk (dk_path d) (Some (Unsynced (FileRecords data))) (dk_entries d)
  | CallSync => mkDisk (dk_path d) (option_map (λ c, Synced (read_contents c)) (dk_temp d)) (dk_entries d)
  | CallRename => let renamed := default (dk_path d) (dk_temp d) in mkDisk renamed None (renamed :: dk_entries d)
  | CallSyncDir => mkDisk (dk_path d) (dk_temp d) [dk_path d]
  | CallMarshal | CallMkdir | CallChmod | CallClose => d
  end.

(** The disk after the first [n] calls. *)
Definition disk_after (d : disk) (records : gmap string record) (n : nat) : disk :=
  foldl (run_call (flush_records records)) d (take n flush_calls).

(** The deferred [os.Remove] of the temporary file. *)
Definition remove_temp (d : disk) : disk := mkDisk (dk_path d) None (dk_entries d).

(** [flushLocked]; [fault] is the call that fails, if any: the calls before it
    succeeded and the later ones are not made.  A directory that cannot be
    synced is not an error. *)
Definition flush (records : gmap string record) (d : disk) (fault : option nat) : disk * option error :=
  let n := default (length flush_calls) fault in
  (remove_temp (disk_after d records n), if (8 <=? n)%nat then None else Some (ESentinel StoreIO)).

Definition Create (s : Store) (account : Account) (bundle : string) (nonce : option string) (fault : option nat)
  : Store * option error :=
  match Seal nonce (at_ID account) (at_Venue account) bundle with
  | Err e => (s, Some e)
  | Ok sealed =>
      match st_records s !! at_ID account with
      | Some _ => (s, Some (ESentinel StoreExists))
      | None =>
          let records := <[at_ID account := mkRecord account sealed]> (st_records s) in
          match flush records (st_disk s) fault with
          | (f, Some e) => (mkStore (delete (at_ID account) records) f, Some e)
          | (f, None) => (mkStore records f, None)
          end
      end
  end.

Definition Delete (s : Store) (id : string) (fault : option nat) : Store * option error :=
  match st_records s !! id with
  | None => (s, Some (ESentinel StoreNotFound))
  | Some item =>
      let records := delete id (st_records s) in
      match flush records (st_disk s) fault with
      | (f, Some e) => (mkStore (<[id := item]> records) f, Some e)
      | (f, None) => (mkStore records f, None)
      end
  end.
End cipher.

(** ** Sealed records *)

Section sealed.
Context `{AEADLaws}.

Lemma Seal_Open nonce id venue material sealed :
  String.length nonce = NonceSize → Seal (Some nonce) id venue material = Ok sealed →
  Open_sealed id venue sealed = Ok material.
Proof.
  unfold Seal, Open_sealed. intros Hn Hs. apply check_Ok in Hs as [_ [= <-]].
  rewrite check_Ok. split.
  - rewrite string_length_app, aead_length. apply negb_true_iff, Nat.ltb_ge. lia.
  - by rewrite <- Hn, substring_prefix, drop_string_app, aead_open_seal.
Qed.

Lemma additional_data_inj id venue id' venue' :
  no_byte (byte 0) id = true → no_byte (byte 0) id' = true →
  additional_data id venue = additional_data id' venue' → id = id' ∧ venue = venue'.
Proof.
  intros H1 H2 E. unfold additional_data in E. do 2 apply string_app_inj_l in E.
  pose proof (split_once_sep (byte 0) id venue H1) as S1. pose proof (split_once_sep (byte 0) id' venue' H2) as S2.
  unfold NUL in E. rewrite E in S1. rewrite S1 in S2. by injection S2.
Qed.

(** The AEAD's authenticity for one ciphertext: it does not open under other
    additional data. *)
Definition authentic (nonce plain ad ad' : string) : Prop :=
  ad' ≠ ad → aead_open nonce (aead_seal nonce plain ad) ad' = None.

(** C35: a sealed credential opens only for its own account and venue: moved to
    another record it fails authentication, because distinct (account, venue)
    pairs never encode to the same additional data (account ids carry no NUL
    byte). *)
Theorem sealed_bound_to_account nonce id venue material sealed id' venue' :
  authentic nonce material (additional_data id venue) (additional_data id' venue') →
  String.length nonce = NonceSize → no_byte (byte 0) id = true → no_byte (byte 0) id' = true →
  Seal (Some nonce) id venue material = Ok sealed → (id', venue') ≠ (id, venue) →
  Open_sealed id' venue' sealed = Err (ESentinel StoreIntegrity).
Proof.
  intros Hauth Hn H1 H2 Hs Hne. unfold Seal in Hs. apply check_Ok in Hs as [_ [= <-]].
  unfold Open_sealed. destruct (negb _); [|done].
  rewrite <- Hn, substring_prefix, drop_string_app.
  rewrite Hauth; [done|]. intros E. apply additional_data_inj in E as [-> ->]; done.
Qed.

(** ** Memory and disk agree *)

Definition decrypts (r : record) : Prop :=
  ∃ plain, Open_sealed (record_id r) (at_Venue (rec_Account r)) (rec_Sealed r) = Ok plain.
Definition records_ok (records : gmap string record) : Prop :=
  ∀ id r, records !! id = Some r → record_id r = id ∧ decrypts r.

(** Reopening the file gives exactly the records in memory; the file is synced
    and no temporary file is left behind. *)
Record store_ok (s : Store) : Prop := {
  so_records : records_ok (st_records s);
  so_durable : Open (st_disk s) = Ok s;
  so_synced : Synced (torn (dk_path (st_disk s))) = dk_path (st_disk s);
  so_clean : dk_temp (st_disk s) = None;
}.

Lemma load_records_all l acc :
  Forall decrypts l → load_records acc l = Ok (foldl (insert_keyed record_id) acc l).
Proof.
  intros Hl. revert acc. induction Hl as [|r l [plain Hr] _ IH]; intros acc; simpl; [done|].
  by rewrite Hr, IH.
Qed.

Lemma Open_flushed records d :
  records_ok records → dk_path d = Synced (FileRecords (flush_records records)) → Open d = Ok (mkStore records d).
Proof.
  intros Hok Hd. unfold Open. rewrite Hd. cbn [read_contents]. rewrite load_records_all.
  - rewrite (rebuild_map record_id records); [done|intros k r Hr; by apply Hok|apply sort_slice_perm].
  - rewrite Forall_forall. intros r Hr. unfold flush_records in Hr.
    rewrite sort_slice_elem_of, elem_of_map_values in Hr. destruct Hr as [k Hr]. by apply (Hok k r).
Qed.

(** Every call before the rename leaves the path and its entry alone. *)
Lemma disk_after_prefix d records n :
  (n < 8)%nat → dk_path (disk_after d records n) = dk_path d ∧ dk_entries (disk_after d records n) = dk_entries d.
Proof. intros Hn. do 8 (destruct n as [|n]; [done|]). lia. Qed.

(** The rename publishes synced data. *)
Lemma disk_after_rename d records n :
  (8 ≤ n)%nat →
  let new := Synced (FileRecords (flush_records records)) in
  dk_path (disk_after d records n) = new ∧ dk_temp (disk_after d records n) = None ∧
  dk_entries (disk_after d records n) = if (n =? 8)%nat then new :: dk_entries d else [new].
Proof.
  intros Hn. destruct (Nat.eqb_spec n 8) as [->|Hne]; [done|].
  unfold disk_after. by rewrite take_ge by (simpl; lia).
Qed.

(** A flush fails and changes nothing, or publishes the new records: the entry on
    the medium is theirs, or may still be an earlier one where the directory could
    not be synced. *)
Lemma flush_cases records d fault :
  dk_temp d = None →
  (∃ e, flush records d fault = (d, Some e)) ∨
  (∃ d', flush records d fault = (d', None) ∧
         dk_path d' = Synced (FileRecords (flush_records records)) ∧ dk_temp d' = None ∧
         dk_entries d' = if bool_decide (fault = Some 8%nat) then dk_path d' :: dk_entries d else [dk_path d']).
Proof.
  intros Ht. unfold flush. set (n := default _ fault). destruct (Nat.leb_spec 8 n) as [Hn|Hn].
  - right. eexists. split; [done|]. cbn [remove_temp dk_path dk_temp dk_entries].
    destruct (disk_after_rename d records n Hn) as (-> & _ & ->). split_and!; [done..|].
    unfold n in *. by destruct fault as [k|]; [do 9 (destruct k as [|k]; try done)|].
  - left. eexists. unfold remove_temp. destruct (disk_after_prefix d records n Hn) as [-> ->].
    destruct d; simpl in *; by subst.
Qed.

Lemma Create_ok s account bundle nonce fault :
  store_ok s → (∀ n, nonce = Some n → String.length n = NonceSize) →
  store_ok (Create s account bundle nonce fault).1.
Proof.
  intros [Hrec Hdur Hsync Hclean] Hn. unfold Create. destruct (Seal _ _ _ _) as [sealed|e] eqn:Hs; [|done].
  destruct (st_records s !! at_ID account) eqn:Hid; [done|].
  set (records := <[at_ID account := mkRecord account sealed]> (st_records s)).
  destruct (flush_cases records (st_disk s) fault) as [[e ->]|(d' & -> & Hp & Ht & _)]; [done| |]; cbn [fst].
  - unfold records. rewrite delete_insert_id by done. by destruct s.
  - assert (Hok : records_ok records).
    { intros id r [[<- <-]|[_ Hr]]%lookup_insert_Some; [|by apply Hrec]. split; [done|]. exists bundle. simpl.
      destruct nonce as [n|]; [|unfold Seal in Hs; by apply check_Ok in Hs as [_ ?]].
      eapply Seal_Open; [by apply Hn|exact Hs]. }
    split; simpl; [done|by apply Open_flushed|by rewrite Hp|done].
Qed.

Lemma Delete_ok s id fault : store_ok s → store_ok (Delete s id fault).1.
Proof.
  intros [Hrec Hdur Hsync Hclean]. unfold Delete. destruct (st_records s !! id) as [item|] eqn:Hid; [|done].
  destruct (flush_cases (delete id (st_records s)) (st_disk s) fault) as [[e ->]|(d' & -> & Hp & Ht & _)];
    [done| |]; cbn [fst].
  - rewrite insert_delete_id by done. by destruct s.
  - assert (Hok : records_ok (delete id (st_records s))).
    { intros i r [_ Hr]%lookup_delete_Some. by apply Hrec. }
    split; simpl; [done|by apply Open_flushed|by rewrite Hp|done].
Qed.

(** A failed operation changes nothing. *)
Lemma Create_failed s account bundle nonce fault :
  store_ok s → is_Some (Create s account bundle nonce fault).2 → (Create s account bundle nonce fault).1 = s.
Proof.
  intros Hok. unfold Create. destruct (Seal _ _ _ _) as [sealed|e]; [|done].
  destruct (st_records s !! at_ID account) eqn:Hid; [done|].
  destruct (flush_cases (<[at_ID account := mkRecord account sealed]> (st_records s)) (st_disk s) fault)
    as [[e ->]|(d' & -> & _)]; [apply Hok| |by intros []]; cbn [fst snd].
  intros _. rewrite delete_insert_id by done. by destruct s.
Qed.

Lemma Delete_failed s id fault : store_ok s → is_Some (Delete s id fault).2 → (Delete s id fault).1 = s.
Proof.
  intros Hok. unfold Delete. destruct (st_records s !! id) as [item|] eqn:Hid; [|done].
  destruct (flush_cases (delete id (st_records s)) (st_disk s) fault) as [[e ->]|(d' & -> & _)];
    [apply Hok| |by intros []]; cbn [fst snd].
  intros _. rewrite insert_delete_id by done. by destruct s.
Qed.

(** C34: creating and deleting accounts never lets memory and disk diverge:
    whichever system call fails, reopening the file gives exactly the records
    in memory, and a failed operation leaves both as they were. *)
Theorem store_durable s account bundle nonce id fault :
  store_ok s → (∀ n, nonce = Some n → String.length n = NonceSize) →
  let created := Create s account bundle nonce fault in
  let deleted := Delete s id fault in
  store_ok created.1 ∧ (is_Some created.2 → created.1 = s) ∧
  store_ok deleted.1 ∧ (is_Some deleted.2 → deleted.1 = s).
Proof.
  intros Hok Hn. cbv zeta. split; [by apply Create_ok|]. split; [by apply Create_failed|].
  split; [by apply Delete_ok|by apply Delete_failed].
Qed.

(** ** Crashes *)

(** The operations on the store's file, each with the system call of its flush
    that fails, if any. *)
Inductive operation :=
  | OpCreate (account : Account) (bundle : string) (nonce : option string) (fault : option nat)
  | OpDelete (id : string) (fault : option nat).
Definition operate (s : Store) (op : operation) : Store * option error :=
  match op with
  | OpCreate account bundle nonce fault => Create s account bundle nonce fault
  | OpDelete id fault => Delete s id fault
  end.
Definition fault_of (op : operation) : option nat := match op with OpCreate _ _ _ f | OpDelete _ f => f end.
Definition nonce_ok (op : operation) : Prop :=
  match op with OpCreate _ _ (Some n) _ => String.length n = NonceSize | _ => True end.

Definition operated (s : Store) (ops : list operation) : Store := foldl (λ s op, (operate s op).1) s ops.

(** Nothing after [before] was confirmed with the directory synced. *)
Definition unsynced_since (s : Store) (before after : list operation) : Prop :=
  ∀ ops op rest, after = ops ++ op :: rest →
    is_Some (operate (operated s (before ++ ops)) op).2 ∨ fault_of op = Some 8%nat.

Lemma operate_ok s op : store_ok s → nonce_ok op → store_ok (operate s op).1.
Proof.
  intros Hs Hop. destruct op as [account bundle nonce fault|id fault]; simpl; [|by apply Delete_ok].
  apply Create_ok; [done|]. intros n ->. exact Hop.
Qed.
Lemma operated_ok ops s : store_ok s → Forall nonce_ok ops → store_ok (operated s ops).
Proof. intros Hs Hops. revert s Hs. induction Hops as [|op ops Hop _ IH]; intros s Hs; [done|]. by apply IH, operate_ok. Qed.

(** What an operation does to the entries on the medium. *)
Lemma operate_entries s op :
  store_ok s →
  let r := operate s op in
  (is_Some r.2 ∧ st_disk r.1 = st_disk s) ∨
  (r.2 = None ∧ dk_entries (st_disk r.1) =
     if bool_decide (fault_of op = Some 8%nat) then dk_path (st_disk r.1) :: dk_entries (st_disk s) else [dk_path (st_disk r.1)]).
Proof.
  intros Hs. destruct op as [account bundle nonce fault|id fault]; simpl.
  - unfold Create. destruct (Seal _ _ _ _) as [sealed|e]; [|by left; eauto].
    destruct (st_records s !! at_ID account); [by left; eauto|].
    destruct (flush_cases (<[at_ID account := mkRecord account sealed]> (st_records s)) (st_disk s) fault (so_clean s Hs))
      as [[e ->]|(d' & -> & _ & _ & He)]; [left; simpl; eauto|by right].
  - unfold Delete. destruct (st_records s !! id); [|by left; eauto].
    destruct (flush_cases (delete id (st_records s)) (st_disk s) fault (so_clean s Hs))
      as [[e ->]|(d' & -> & _ & _ & He)]; [left; simpl; eauto|by right].
Qed.

Lemma operated_snoc s ops op : operated s (ops ++ [op]) = (operate (operated s ops) op).1.
Proof. unfold operated. by rewrite foldl_snoc. Qed.

Lemma unsynced_snoc s before after op :
  unsynced_since s before after → is_Some (operate (operated s (before ++ after)) op).2 ∨ fault_of op = Some 8%nat →
  unsynced_since s before (after ++ [op]).
Proof.
  intros Hu Hop ops op' rest E. destruct rest as [|x rest _] using rev_ind.
  - by apply app_inj_tail in E as [<- <-].
  - rewrite app_comm_cons, app_assoc in E. apply app_inj_tail in E as [E _]. by apply (Hu ops op' rest).
Qed.

(** Every entry a crash may leave is the file of an earlier state, with nothing
    confirmed and synced since. *)
Lemma entries_recent s ops c :
  store_ok s → dk_entries (st_disk s) = [dk_path (st_disk s)] → Forall nonce_ok ops →
  c ∈ dk_entries (st_disk (operated s ops)) →
  ∃ before after, ops = before ++ after ∧ c = dk_path (st_disk (operated s before)) ∧ unsynced_since s before after.
Proof.
  intros Hs He. revert c. induction ops as [|op ops IH] using rev_ind; intros c Hops Hc.
  { exists [], []. cbn [operated foldl] in Hc. rewrite He in Hc. apply list_elem_of_singleton in Hc as ->. split_and!; [done..|].
    intros x op rest E. by destruct x. }
  apply Forall_app in Hops as [Hops _]. rewrite operated_snoc in Hc.
  assert (Hnew : c = dk_path (st_disk (operated s (ops ++ [op]))) →
    ∃ before after, ops ++ [op] = before ++ after ∧ c = dk_path (st_disk (operated s before)) ∧ unsynced_since s before after).
  { intros ->. exists (ops ++ [op]), []. rewrite app_nil_r. split_and!; [done..|]. intros x op' rest E. by destruct x. }
  assert (Hold : is_Some (operate (operated s ops) op).2 ∨ fault_of op = Some 8%nat → c ∈ dk_entries (st_disk (operated s ops)) →
    ∃ before after, ops ++ [op] = before ++ after ∧ c = dk_path (st_disk (operated s before)) ∧ unsynced_since s before after).
  { intros Hop Hin. destruct (IH c Hops Hin) as (before & after & -> & Hp & Hu). exists before, (after ++ [op]).
    rewrite app_assoc. split_and!; [done..|]. by apply unsynced_snoc. }
  rewrite operated_snoc in Hnew.
  destruct (operate_entries (operated s ops) op (operated_ok ops s Hs Hops)) as [[Herr Hd]|[_ Hd]]; rewrite Hd in Hc; [by apply Hold; [left|]|].
  case_bool_decide as Hf; [|apply list_elem_of_singleton in Hc; by apply Hnew].
  apply elem_of_cons in Hc as [Hc|Hc]; [by apply Hnew|by apply Hold; [right|]].
Qed.

Lemma entries_synced s ops :
  store_ok s → dk_entries (st_disk s) = [dk_path (st_disk s)] → Forall nonce_ok ops → Forall (λ op, fault_of op ≠ Some 8%nat) ops →
  dk_entries (st_disk (operated s ops)) = [dk_path (st_disk (operated s ops))].
Proof.
  intros Hs He. induction ops as [|op ops IH] using rev_ind; intros Hops Hf; [done|].
  apply Forall_app in Hops as [Hops _]. apply Forall_app in Hf as [Hf Hop]. rewrite Forall_singleton in Hop. rewrite operated_snoc.
  destruct (operate_entries (operated s ops) op (operated_ok ops s Hs Hops)) as [[_ Hd]|[_ Hd]]; [rewrite Hd; by apply IH|]. by rewrite Hd, bool_decide_false.
Qed.

(** The file of a healthy store is found again. *)
Lemma reopen s : store_ok s → ∃ s', Open (mkDisk (Synced (torn (dk_path (st_disk s)))) None [Synced (torn (dk_path (st_disk s)))]) = Ok s' ∧ st_records s' = st_records s.
Proof.
  intros [_ Hdur Hsync _]. rewrite Hsync. unfold Open in Hdur |- *. cbn [dk_path].
  destruct (read_contents (dk_path (st_disk s))) as [| | |l]; try done; [injection Hdur as <-; by eexists|].
  destruct (load_records ∅ l) as [acc|]; [|done]. injection Hdur as <-. by eexists.
Qed.

(** What the interrupted flush leaves: an earlier entry, or the new file. *)
Lemma interrupted d records n f :
  f ∈ crash_files (disk_after d records n) → f ∈ crash_files d ∨ f = FileRecords (flush_records records).
Proof.
  unfold crash_files. destruct (decide (8 ≤ n)%nat) as [Hn|Hn].
  - destruct (disk_after_rename d records n Hn) as (_ & _ & ->). case_match; simpl; set_solver.
  - destruct (disk_after_prefix d records n) as [_ ->]; [lia|]. by left.
Qed.

(** C33: from a store whose directory entry is on the medium (a new one, or one
    reopened after a crash), after any sequence of operations with any of their
    system calls failing, a crash between any two system calls of a flush is safe: whatever of the
    unsynced data and of the renames survives, the next start opens the file and
    finds the accounts being written, or those after some earlier operation since
    which none was confirmed with the directory synced.  In particular, where no
    directory sync failed, they are exactly the accounts from before the
    interrupted operation or from after it. *)
Theorem crash_recovers s ops records n f :
  store_ok s → dk_entries (st_disk s) = [dk_path (st_disk s)] → Forall nonce_ok ops → records_ok records →
  f ∈ crash_files (disk_after (st_disk (operated s ops)) records n) →
  ∃ s', Open (mkDisk (Synced f) None [Synced f]) = Ok s' ∧
    (st_records s' = records ∨
     ∃ before after, ops = before ++ after ∧ st_records s' = st_records (operated s before) ∧ unsynced_since s before after) ∧
    (Forall (λ op, fault_of op ≠ Some 8%nat) ops → st_records s' = st_records (operated s ops) ∨ st_records s' = records).
Proof.
  intros Hs He Hops Hok Hf. destruct (interrupted _ _ _ _ Hf) as [Hf'| ->].
  - unfold crash_files in Hf'. apply list_elem_of_fmap in Hf' as (c & -> & Hc).
    destruct (entries_recent s ops c Hs He Hops Hc) as (before & after & E & -> & Hu).
    destruct (reopen (operated s before)) as (s' & Ho & Hr).
    { apply operated_ok; [done|]. subst. by apply Forall_app in Hops as [? _]. }
    exists s'. split_and!; [done|right; eauto|]. intros Hsync. left. rewrite (entries_synced s ops Hs He Hops Hsync) in Hc.
    apply list_elem_of_singleton in Hc. destruct (reopen (operated s ops)) as (s'' & Ho' & <-); [by apply operated_ok|].
    rewrite <- Hc, Ho in Ho'. by injection Ho' as ->.
  - eexists. split; [by apply Open_flushed|]. split; [by left|by right].
Qed.

(** Reading back a created account returns its public part and its
    credential bundle unchanged. *)
Theorem Get_Create s account bundle nonce fault s' :
  String.length nonce = NonceSize → Create s account bundle (Some nonce) fault = (s', None) →
  Get_account s' (at_ID account) = Ok (account, bundle).
Proof.
  intros Hn. unfold Create. destruct (Seal _ _ _ _) as [sealed|e] eqn:Hs; [|done].
  destruct (st_records s !! at_ID account); [done|].
  destruct (flush _ _ _) as [f [e|]]; [done|]. intros [= <-].
  unfold Get_account. simpl. rewrite lookup_insert_eq. simpl. unfold record_id. simpl.
  by rewrite (Seal_Open nonce _ _ _ _ Hn Hs).
Qed.

(** Accounts are listed in creation order, each once. *)
Lemma List_accounts_sorted s :
  StronglySorted (λ a b, at_CreatedAt a ≤ at_CreatedAt b) (List_accounts s) ∧
  List_accounts s ≡ₚ map rec_Account (map_values (st_records s)).
Proof. split; [apply (sort_by_Z_sorted at_CreatedAt)|apply sort_slice_perm]. Qed.
End sealed.

(** ** Concrete inputs *)

(** A one-byte checksum of the additional data in place of an authentication
    tag: enough to compute with. *)
Fixpoint byte_sum (s : string) : N :=
  match s with EmptyString => 0 | String c s' => N_of_ascii c + byte_sum s' end.
Definition tag_of (ad : string) : ascii := ascii_of_N (byte_sum ad mod 256).

#[local] Instance checksum_aead : AEAD := {|
  NonceSize := 1;
  Overhead := 1;
  aead_seal _ plain ad := plain +:+ String (tag_of ad) "";
  aead_open _ c ad :=
    let n := (String.length c - 1)%nat in
    if String.eqb (drop_string n c) (String (tag_of ad) "") then Some (String.substring 0 n c) else None;
|}.

#[local] Instance checksum_laws : AEADLaws.
Proof.
  split; simpl; intros.
  - rewrite string_length_app. simpl. replace (String.length plain + 1 - 1)%nat with (String.length plain) by lia.
    rewrite drop_string_app, String.eqb_refl. by rewrite substring_prefix.
  - by rewrite string_length_app.
Qed.

Definition sample_account : Account := mkAccount "acc1" "binance" "main" unix_epoch.
Definition empty_store : Store := mkStore ∅ (mkDisk (Synced FileMissing) None [Synced FileMissing]).

Lemma empty_store_ok : store_ok empty_store.
Proof. split; [|done..]. intros id r. simpl. by rewrite lookup_empty. Qed.

Lemma sealed_bound_to_account_witness :
  ∃ sealed, Seal (Some "n") "acc1" "binance" "secret" = Ok sealed ∧
            Open_sealed "acc1" "okx" sealed = Err (ESentinel StoreIntegrity).
Proof.
  eexists. split; [reflexivity|].
  apply (sealed_bound_to_account "n" "acc1" "binance" "secret"); [|reflexivity..|].
  - intros _. vm_compute. reflexivity.
  - discriminate.
Defined.

Lemma store_durable_witness :
  let created := Create empty_store sample_account "secret" (Some "n") (Some 4%nat) in
  let deleted := Delete empty_store "acc1" (Some 4%nat) in
  store_ok created.1 ∧ (is_Some created.2 → created.1 = empty_store) ∧
  store_ok deleted.1 ∧ (is_Some deleted.2 → deleted.1 = empty_store).
Proof.
  apply (store_durable empty_store sample_account "secret" (Some "n") "acc1" (Some 4%nat)).
  - apply empty_store_ok.
  - intros n E. injection E as <-. reflexivity.
Defined.

(** An account created with the directory left unsynced, then a second one cut off
    right after its rename. *)
Definition second_account : Account := mkAccount "acc2" "okx" "main" unix_epoch.
Definition unsynced_create : list operation := [OpCreate sample_account "secret" (Some "n") (Some 8%nat)].
Definition both_records : gmap string record :=
  st_records (Create (operated empty_store unsynced_create) second_account "secret" (Some "n") None).1.

(** The first creation was confirmed, and a crash may still lose it. *)
Example confirmed_account_lost :
  (operate empty_store (OpCreate sample_account "secret" (Some "n") (Some 8%nat))).2 = None ∧
  FileMissing ∈ crash_files (st_disk (operated empty_store unsynced_create)).
Proof. split; [reflexivity|]. vm_compute. right. left. Qed.

Lemma crash_recovers_witness :
  FileMissing ∈ crash_files (disk_after (st_disk (operated empty_store unsynced_create)) both_records 8) ∧
  ∃ s', Open (mkDisk (Synced FileMissing) None [Synced FileMissing]) = Ok s' ∧
    (st_records s' = both_records ∨
     ∃ before after, unsynced_create = before ++ after ∧ st_records s' = st_records (operated empty_store before) ∧
       unsynced_since empty_store before after).
Proof.
  assert (Hf : FileMissing ∈ crash_files (disk_after (st_disk (operated empty_store unsynced_create)) both_records 8)).
  { vm_compute. right. right. left. }
  assert (Hn : Forall nonce_ok unsynced_create) by (constructor; [reflexivity|constructor]).
  split; [exact Hf|].
  destruct (crash_recovers empty_store unsynced_create both_records 8 FileMissing empty_store_ok eq_refl Hn) as (s' & Ho & Hr & _).
  - apply so_records, Create_ok; [apply operated_ok; [apply empty_store_ok|exact Hn]|]. intros n E. injection E as <-. reflexivity.
  - exact Hf.
  - exists s'. split; [exact Ho|exact Hr].
Defined.

Lemma Get_Create_witness :
  Get_account (Create empty_store sample_account "secret" (Some "n") None).1 "acc1" = Ok (sample_account, "secret").
Proof.
  apply (Get_Create empty_store sample_account "secret" "n" None); vm_compute; reflexivity.
Defined.
