(* ===== verification/InstrumentCatalog.v ===== *)
(** * The shared instrument catalog

    [exchange/catalog.go]: [MemoryCatalog], the scoped, indexed snapshots of
    instrument metadata that every venue client resolves symbols through.

    The loader and the persistent store are interfaces; their answers may change
    from call to call, so they are functions of the time of the call.  URL
    parsing and the SHA-256 digests of the JSON encodings are parameters.  The
    catalog's lock makes [publish], [rememberError] and [RegisterSource] the
    atomic steps; whole operations are sequences of them, and the invariant is
    proved for the steps, hence for every interleaving of operations. *)

From Stdlib Require Import Ascii String ZArith Lia.
From stdpp Require Import base list strings gmap relations.
From S2P Require Import Prelude GoStrings Decimals Errors Model.

#[local] Open Scope string_scope.
#[local] Open Scope list_scope.
#[local] Open Scope Z_scope.
#[local] Open Scope go_scope.

(** ** Data *)

Record CatalogScope := mkScope {
  cs_Venue : string; cs_Environment : string; cs_Product : string;
  cs_Settlement : string; cs_Namespace : string; cs_EndpointFingerprint : string;
}.
#[export] Instance CatalogScope_eq_dec : EqDecision CatalogScope.
Proof. solve_decision. Defined.
#[export] Instance CatalogScope_countable : Countable CatalogScope.
Proof.
  refine (inj_countable'
    (λ s, (cs_Venue s, cs_Environment s, cs_Product s, cs_Settlement s, cs_Namespace s, cs_EndpointFingerprint s))
    (λ '(v, e, p, t, n, f), mkScope v e p t n f) _).
  by intros [].
Defined.

Record InstrumentQuery := mkQuery { iq_Symbol : string; iq_NativeSymbol : string; iq_NativeID : string }.

Record CatalogIndexes := mkIndexes {
  ix_BySymbol : gmap string nat;
  ix_ByNativeSymbol : gmap string nat;
  ix_ByNativeID : gmap string nat;
}.
Definition empty_indexes : CatalogIndexes := mkIndexes ∅ ∅ ∅.

Record InstrumentSnapshot (D : Type) := mkSnapshot {
  sn_SchemaVersion : Z;
  sn_Scope : CatalogScope;
  sn_Revision : string;
  sn_Generation : Z;
  sn_LoadedAt : time;
  sn_Instruments : list (Instrument D);
  sn_Indexes : CatalogIndexes;
}.
Arguments mkSnapshot {D} _ _ _ _ _ _ _.
Arguments sn_SchemaVersion {D} _.
Arguments sn_Scope {D} _.
Arguments sn_Revision {D} _.
Arguments sn_Generation {D} _.
Arguments sn_LoadedAt {D} _.
Arguments sn_Instruments {D} _.
Arguments sn_Indexes {D} _.

(** The zero value. *)
Definition zero_scope : CatalogScope := mkScope "" "" "" "" "" "".
Definition zero_snapshot {D} : InstrumentSnapshot D := mkSnapshot 0 zero_scope "" 0 zero_time [] empty_indexes.

Record SourceDescriptor := mkSource {
  sd_Name : string; sd_Endpoint : string; sd_WebSocketEndpoint : string; sd_Transport : string;
}.

(** [InstrumentLoader] and [InstrumentStore]: what each call answers. *)
Definition InstrumentLoader (D : Type) : Type := CatalogScope → time → result error (InstrumentSnapshot D).
Record InstrumentStore (D : Type) := mkInstrumentStore {
  is_Load : CatalogScope → time → result error (option (InstrumentSnapshot D));
  is_Save : InstrumentSnapshot D → time → option error;
}.
Arguments mkInstrumentStore {D} _ _.
Arguments is_Load {D} _ _ _.
Arguments is_Save {D} _ _ _.

Record registeredInstrumentSource (D : Type) := mkRegistered {
  rs_descriptor : SourceDescriptor;
  rs_fingerprint : string;
  rs_loader : InstrumentLoader D;
}.
Arguments mkRegistered {D} _ _ _.
Arguments rs_descriptor {D} _.
Arguments rs_fingerprint {D} _.
Arguments rs_loader {D} _ _ _.

(** [mc_errs] keeps the errors themselves, of which the code keeps the text. *)
Record MemoryCatalog (D : Type) := mkMemory {
  mc_loader : option (InstrumentLoader D);
  mc_store : option (InstrumentStore D);
  mc_data : gmap CatalogScope (InstrumentSnapshot D);
  mc_errs : gmap CatalogScope error;
  mc_srcs : gmap CatalogScope (registeredInstrumentSource D);
  mc_next : Z;
}.
Arguments mkMemory {D} _ _ _ _ _ _.
Arguments mc_loader {D} _.
Arguments mc_store {D} _.
Arguments mc_data {D} _.
Arguments mc_errs {D} _.
Arguments mc_srcs {D} _.
Arguments mc_next {D} _.

Record CatalogStatus := mkCatalogStatus {
  st_Scope : CatalogScope; st_Revision : string; st_Generation : Z; st_LoadedAt : time; st_LastError : option error;
}.

(** What [url.Parse] reports of a URL. *)
Record URL := mkURL {
  url_Scheme : string; url_Host : string; url_HasUser : bool;
  url_RawQuery : string; url_Fragment : string; url_String : string;
}.

(** ** Errors *)

Definition invalidCatalog (message : string) : error :=
  NewError KindInvalidConfig (op_details "InstrumentCatalog" message).
Definition metadataResolutionError (scope : CatalogScope) (message : string) : error :=
  NewError KindMetadataResolution
    (scoped_details (cs_Venue scope) (cs_Product scope) "InstrumentCatalog.Resolve" message).

(** ** Indexes *)

Definition addCatalogIndex (index : gmap string nat) (key : string) (value : nat) (message : string)
  : result error (gmap string nat) :=
  let key := TrimSpace key in
  check negb (is_empty key) else invalidCatalog "empty catalog index key" ;;
  match index !! key with
  | Some _ => Err (invalidCatalog message)
  | None => Ok (<[key := value]> index)
  end.

Section catalog.
Context `{Decimal D}.
(** [hex(sha256(json))] of a snapshot's body and of a source descriptor. *)
Context (revision_of : Z → CatalogScope → list (Instrument D) → string).
Context (digest_of : SourceDescriptor → string).
Context (url_Parse : string → option URL).
Implicit Types (c : MemoryCatalog D) (scope : CatalogScope) (snapshot : InstrumentSnapshot D).

(** One iteration of [buildCatalogIndexes]. *)
Definition index_instrument scope (index : nat) (indexes : CatalogIndexes) (instrument : Instrument D)
  : result error CatalogIndexes :=
  _ <-? Instrument_Validate instrument ;;
  let identity := in_Identity instrument in
  check String.eqb (id_Venue identity) (cs_Venue scope) && String.eqb (id_Product identity) (cs_Product scope)
    else invalidCatalog "instrument identity does not match catalog scope" ;;
  check negb (negb (is_empty (cs_Settlement scope)) && negb (is_empty (id_SettleAsset identity)) &&
              negb (String.eqb (id_SettleAsset identity) (cs_Settlement scope)))
    else invalidCatalog "instrument settlement does not match catalog scope" ;;
  bySymbol <-? addCatalogIndex (ix_BySymbol indexes) (id_Symbol identity) index "duplicate canonical symbol" ;;
  byNative <-? addCatalogIndex (ix_ByNativeSymbol indexes) (id_NativeSymbol identity) index "duplicate native symbol" ;;
  byID <-? (if is_empty (id_NativeID identity) then Ok (ix_ByNativeID indexes)
            else addCatalogIndex (ix_ByNativeID indexes) (id_NativeID identity) index "duplicate native id") ;;
  Ok (mkIndexes bySymbol byNative byID).

Fixpoint build_from scope (index : nat) (indexes : CatalogIndexes) (instruments : list (Instrument D))
  : result error CatalogIndexes :=
  match instruments with
  | [] => Ok indexes
  | instrument :: rest =>
      indexes <-? index_instrument scope index indexes instrument ;;
      build_from scope (S index) indexes rest
  end.
Definition buildCatalogIndexes scope (instruments : list (Instrument D)) : result error CatalogIndexes :=
  build_from scope 0 empty_indexes instruments.

(** A key found under another instrument in another index. *)
Definition conflicts (index : nat) (other : option nat) : bool :=
  match other with Some i => negb (i =? index)%nat | None => false end.
(** [found] is the index asked for; the key must not mean another instrument
    in the two others. *)
Definition resolve_in scope (found other1 other2 : gmap string nat) (key : string) : result error nat :=
  match found !! key with
  | None => Err (metadataResolutionError scope "instrument metadata not found")
  | Some index =>
      check negb (conflicts index (other1 !! key))
        else metadataResolutionError scope "instrument query key is ambiguous across indexes" ;;
      check negb (conflicts index (other2 !! key))
        else metadataResolutionError scope "instrument query key is ambiguous across indexes" ;;
      Ok index
  end.

Definition count_keys (keys : list string) : nat := foldr (λ k n, if is_empty k then n else S n) O keys.

Definition resolveIndex scope (indexes : CatalogIndexes) (query : InstrumentQuery) : result error nat :=
  let symbol := TrimSpace (iq_Symbol query) in
  let nativeSymbol := TrimSpace (iq_NativeSymbol query) in
  let nativeID := TrimSpace (iq_NativeID query) in
  let keys := count_keys [symbol; nativeSymbol; nativeID] in
  check negb (keys =? 0)%nat else invalidRequest "instrument query requires exactly one identity key" ;;
  check negb (1 <? keys)%nat else invalidRequest "instrument query is ambiguous" ;;
  if negb (is_empty symbol) then
    resolve_in scope (ix_BySymbol indexes) (ix_ByNativeSymbol indexes) (ix_ByNativeID indexes) symbol
  else if negb (is_empty nativeSymbol) then
    resolve_in scope (ix_ByNativeSymbol indexes) (ix_BySymbol indexes) (ix_ByNativeID indexes) nativeSymbol
  else resolve_in scope (ix_ByNativeID indexes) (ix_BySymbol indexes) (ix_ByNativeSymbol indexes) nativeID.

(** ** Sources *)

Definition trim_descriptor (d : SourceDescriptor) : SourceDescriptor :=
  mkSource (TrimSpace (sd_Name d)) (TrimRightByte "/" (TrimSpace (sd_Endpoint d)))
    (TrimRightByte "/" (TrimSpace (sd_WebSocketEndpoint d))) (TrimSpace (sd_Transport d)).

Definition Fingerprint (d : SourceDescriptor) : string :=
  let normalized := trim_descriptor d in
  digest_of (if is_empty (sd_Transport normalized)
             then mkSource (sd_Name normalized) (sd_Endpoint normalized) (sd_WebSocketEndpoint normalized) "default"
             else normalized).

Definition normalizeCatalogURL (raw : string) (schemes : list string) : result error string :=
  match url_Parse raw with
  | None => Err (invalidCatalog "instrument source endpoint must be absolute")
  | Some parsed =>
      check negb (is_empty (url_Scheme parsed) || is_empty (url_Host parsed))
        else invalidCatalog "instrument source endpoint must be absolute" ;;
      check one_of (url_Scheme parsed) schemes
        else invalidCatalog "instrument source endpoint has unsupported scheme" ;;
      check negb (url_HasUser parsed || negb (is_empty (url_RawQuery parsed)) || negb (is_empty (url_Fragment parsed)))
        else invalidCatalog "instrument source endpoint must not include user info, query, or fragment" ;;
      Ok (TrimRightByte "/" (url_String parsed))
  end.

(** An endpoint left empty is not checked. *)
Definition normalize_endpoint (raw : string) (schemes : list string) : result error string :=
  if is_empty raw then Ok raw else normalizeCatalogURL raw schemes.

Definition normalizeSourceDescriptor scope (descriptor : SourceDescriptor) : result error SourceDescriptor :=
  let normalized := trim_descriptor descriptor in
  check negb (is_empty (sd_Name normalized)) else invalidCatalog "instrument source name is required" ;;
  check negb (is_empty (sd_Transport normalized)) else invalidCatalog "instrument source transport is required" ;;
  endpoint <-? normalize_endpoint (sd_Endpoint normalized) ["http"; "https"] ;;
  websocket <-? normalize_endpoint (sd_WebSocketEndpoint normalized) ["ws"; "wss"] ;;
  check negb (is_empty endpoint && is_empty websocket)
    else invalidCatalog "instrument source endpoint is required" ;;
  let normalized := mkSource (sd_Name normalized) endpoint websocket (sd_Transport normalized) in
  check negb (negb (is_empty (cs_EndpointFingerprint scope)) &&
              negb (String.eqb (cs_EndpointFingerprint scope) (Fingerprint normalized)))
    else invalidCatalog "catalog scope endpoint fingerprint does not match source descriptor" ;;
  Ok normalized.

(** ** Operations *)

Definition NewMemoryCatalog (loader : option (InstrumentLoader D)) (store : option (InstrumentStore D))
  : MemoryCatalog D := mkMemory loader store ∅ ∅ ∅ 0.

Definition RegisterSource c scope (descriptor : SourceDescriptor) (loader : option (InstrumentLoader D))
  : MemoryCatalog D * option error :=
  match loader with
  | None => (c, Some (invalidCatalog "instrument source loader is required"))
  | Some load =>
      match normalizeSourceDescriptor scope descriptor with
      | Err e => (c, Some e)
      | Ok normalized =>
          let fingerprint := Fingerprint normalized in
          match mc_srcs c !! scope with
          | Some current =>
              if String.eqb (rs_fingerprint current) fingerprint then (c, None)
              else (c, Some (invalidCatalog "instrument source registration conflicts with existing scope"))
          | None =>
              (mkMemory (mc_loader c) (mc_store c) (mc_data c) (mc_errs c)
                 (<[scope := mkRegistered normalized fingerprint load]> (mc_srcs c)) (mc_next c), None)
          end
      end
  end.

Definition rememberError c scope (err : error) : MemoryCatalog D :=
  mkMemory (mc_loader c) (mc_store c) (mc_data c) (<[scope := err]> (mc_errs c)) (mc_srcs c) (mc_next c).

Definition lastKnownGoodOrError c scope (err : error) : InstrumentSnapshot D * option error :=
  (default zero_snapshot (mc_data c !! scope), Some err).

Definition publish c scope snapshot (now : time) : MemoryCatalog D * result error (InstrumentSnapshot D) :=
  if negb (bool_decide (sn_Scope snapshot = scope)) then
    (c, Err (invalidCatalog "snapshot scope does not match requested scope"))
  else
    let version := if sn_SchemaVersion snapshot =? 0 then 1 else sn_SchemaVersion snapshot in
    match buildCatalogIndexes scope (sn_Instruments snapshot) with
    | Err e => (c, Err e)
    | Ok indexes =>
        let loaded := if IsZero (sn_LoadedAt snapshot) then now else sn_LoadedAt snapshot in
        let revision := revision_of version (sn_Scope snapshot) (sn_Instruments snapshot) in
        let next := wrapU64 (mc_next c + 1) in
        let published := mkSnapshot version (sn_Scope snapshot) revision next loaded (sn_Instruments snapshot) indexes in
        (mkMemory (mc_loader c) (mc_store c) (<[scope := published]> (mc_data c)) (delete scope (mc_errs c))
           (mc_srcs c) next, Ok published)
    end.

(** The loader [loadAndPublish] uses: the catalog's own, or the registered one. *)
Definition loader_for c scope : option (InstrumentLoader D) :=
  match mc_loader c with
  | Some load => Some load
  | None => option_map rs_loader (mc_srcs c !! scope)
  end.

(** [loadAndPublish] from the loader on. *)
Definition load_from_source c scope (now : time) : MemoryCatalog D * (InstrumentSnapshot D * option error) :=
  let fail c err := let c := rememberError c scope err in (c, lastKnownGoodOrError c scope err) in
  match loader_for c scope with
  | None => fail c (metadataResolutionError scope "instrument loader is not configured")
  | Some load =>
      match load scope now with
      | Err err => fail c err
      | Ok loaded =>
          match publish c scope loaded now with
          | (c, Err err) => fail c err
          | (c, Ok published) =>
              match mc_store c with
              | None => (c, (published, None))
              | Some store =>
                  match is_Save store published now with
                  | Some err => (rememberError c scope err, (published, None))
                  | None => (c, (published, None))
                  end
              end
          end
      end
  end.

Definition loadAndPublish c scope (force : bool) (now : time)
  : MemoryCatalog D * (InstrumentSnapshot D * option error) :=
  match (if force then None else mc_store c) with
  | None => load_from_source c scope now
  | Some store =>
      match is_Load store scope now with
      | Err err => load_from_source (rememberError c scope err) scope now
      | Ok (Some stored) =>
          match publish c scope stored now with
          | (c, Ok published) => (c, (published, None))
          | (c, Err err) => (c, (zero_snapshot, Some err))
          end
      | Ok None => load_from_source c scope now
      end
  end.

Definition Snapshot c scope (now : time) : MemoryCatalog D * result error (InstrumentSnapshot D) :=
  match mc_data c !! scope with
  | Some snapshot => (c, Ok snapshot)
  | None =>
      match loadAndPublish c scope false now with
      | (c, (_, Some err)) => (c, Err err)
      | (c, (snapshot, None)) => (c, Ok snapshot)
      end
  end.

Definition Refresh c scope (now : time) : MemoryCatalog D * (InstrumentSnapshot D * option error) :=
  loadAndPublish c scope true now.

(** [Resolve]; [None] is an index out of range, a runtime panic. *)
Definition Resolve c scope (query : InstrumentQuery) (now : time)
  : MemoryCatalog D * option (result error (Instrument D)) :=
  match Snapshot c scope now with
  | (c, Err e) => (c, Some (Err e))
  | (c, Ok snapshot) =>
      (c, match resolveIndex scope (sn_Indexes snapshot) query with
          | Err e => Some (Err e)
          | Ok index => option_map Ok (sn_Instruments snapshot !! index)
          end)
  end.

Definition Status c scope : CatalogStatus :=
  let snapshot := default zero_snapshot (mc_data c !! scope) in
  mkCatalogStatus scope (sn_Revision snapshot) (sn_Generation snapshot) (sn_LoadedAt snapshot) (mc_errs c !! scope).
End catalog.

(** ** Specification of the indexes *)

Inductive key_kind := BySymbol | ByNativeSymbol | ByNativeID.
#[export] Instance key_kind_eq_dec : EqDecision key_kind.
Proof. solve_decision. Defined.

Definition key_of {D} (kind : key_kind) (i : Instrument D) : string :=
  match kind with
  | BySymbol => id_Symbol (in_Identity i)
  | ByNativeSymbol => id_NativeSymbol (in_Identity i)
  | ByNativeID => id_NativeID (in_Identity i)
  end.
Definition index_of (kind : key_kind) (ix : CatalogIndexes) : gmap string nat :=
  match kind with
  | BySymbol => ix_BySymbol ix
  | ByNativeSymbol => ix_ByNativeSymbol ix
  | ByNativeID => ix_ByNativeID ix
  end.

Section indexes.
Context `{Decimal D}.
Implicit Types (l pre : list (Instrument D)) (i : Instrument D) (m : gmap string nat).

(** [m] maps exactly the non-empty keys of [l] to their positions. *)
Definition index_exact (f : Instrument D → string) m l : Prop :=
  ∀ k n, m !! k = Some n ↔ ∃ i, l !! n = Some i ∧ f i = k ∧ k ≠ "".
Definition indexes_exact (ix : CatalogIndexes) l : Prop :=
  ∀ kind, index_exact (key_of kind) (index_of kind ix) l.

(** No two positions share a non-empty key of one kind. *)
Definition keys_unique l : Prop :=
  ∀ kind n1 n2 i1 i2, l !! n1 = Some i1 → l !! n2 = Some i2 →
    key_of kind i1 = key_of kind i2 → key_of kind i1 ≠ "" → n1 = n2.

Record instrument_ok (scope : CatalogScope) i : Prop := {
  io_valid : Instrument_Validate i = Ok tt;
  io_venue : id_Venue (in_Identity i) = cs_Venue scope;
  io_product : id_Product (in_Identity i) = cs_Product scope;
  io_settlement : cs_Settlement scope = "" ∨ id_SettleAsset (in_Identity i) = "" ∨
                  id_SettleAsset (in_Identity i) = cs_Settlement scope;
}.

(** A valid instrument's keys are trimmed, and only the native id may be empty. *)
Lemma valid_keys i kind :
  Instrument_Validate i = Ok tt →
  TrimSpace (key_of kind i) = key_of kind i ∧ (kind ≠ ByNativeID → key_of kind i ≠ "").
Proof.
  unfold Instrument_Validate. intros (Hid & Hv)%check_Ok. apply check_Ok in Hv as (_ & Hv).
  apply check_Ok in Hv as (Ht & _). unfold trimmed, blank, is_empty in *. breflect.
  rewrite !String.eqb_eq in Ht. rewrite !String.eqb_neq in Hid.
  destruct kind; simpl; (split; [naive_solver|]); intros Hk; try done; naive_solver congruence.
Qed.

Lemma index_exact_push f m pre i :
  index_exact f m pre → m !! f i = None → f i ≠ "" → index_exact f (<[f i := length pre]> m) (pre ++ [i]).
Proof.
  intros Hm Hnone Hne k n. rewrite lookup_insert_Some. split.
  - intros [[<- <-]|[Hk Hl]].
    + exists i. by rewrite lookup_app_r, Nat.sub_diag.
    + apply Hm in Hl as (j & Hj & <- & Hj'). exists j. split; [by apply lookup_app_l_Some|done].
  - intros (j & Hj & <- & Hj'). apply lookup_app_Some in Hj as [Hj|[Hge Hj]].
    + right. assert (Hk : m !! f j = Some n) by (apply Hm; eauto). split; [congruence|done].
    + apply list_lookup_singleton_Some in Hj as [Hn <-]. left. split; [done|lia].
Qed.

Lemma index_exact_skip f m pre i : index_exact f m pre → f i = "" → index_exact f m (pre ++ [i]).
Proof.
  intros Hm He k n. rewrite (Hm k n). split.
  - intros (j & Hj & Hk). exists j. split; [by apply lookup_app_l_Some|done].
  - intros (j & Hj & <- & Hne). apply lookup_app_Some in Hj as [Hj|[_ Hj]]; [by exists j|].
    apply list_lookup_singleton_Some in Hj as [_ <-]. done.
Qed.

Lemma addCatalogIndex_Ok m key n message m' :
  TrimSpace key = key → addCatalogIndex m key n message = Ok m' ↔ key ≠ "" ∧ m !! key = None ∧ m' = <[key := n]> m.
Proof.
  intros Ht. unfold addCatalogIndex. rewrite Ht, check_Ok. unfold is_empty. rewrite negb_true_iff, String.eqb_neq.
  destruct (m !! key); naive_solver.
Qed.

Lemma indexes_exact_empty : indexes_exact empty_indexes [].
Proof. intros [] k n; simpl; rewrite lookup_empty, lookup_nil; naive_solver. Qed.

Lemma exact_unique ix l : indexes_exact ix l → keys_unique l.
Proof.
  intros Hix kind n1 n2 i1 i2 H1 H2 Hk Hne.
  assert (E1 : index_of kind ix !! key_of kind i1 = Some n1) by (apply Hix; eauto).
  assert (E2 : index_of kind ix !! key_of kind i1 = Some n2) by (apply Hix; eauto).
  congruence.
Qed.

(** One loop iteration: accepted exactly when the instrument fits the scope and
    no earlier one has its keys; the indexes then cover it too. *)
Lemma index_instrument_Ok scope ix pre i ix' :
  indexes_exact ix pre →
  index_instrument scope (length pre) ix i = Ok ix' → instrument_ok scope i ∧ indexes_exact ix' (pre ++ [i]).
Proof.
  intros Hix Hi. unfold index_instrument in Hi. apply bind_Ok in Hi as ([] & Hv & Hi).
  apply check_Ok in Hi as (Hs & Hi). apply check_Ok in Hi as (Ht & Hi).
  apply bind_Ok in Hi as (bs & Hbs & Hi). apply bind_Ok in Hi as (bn & Hbn & Hi).
  apply bind_Ok in Hi as (bi & Hbi & [= <-]).
  pose proof (valid_keys i BySymbol Hv) as [T1 N1]. pose proof (valid_keys i ByNativeSymbol Hv) as [T2 N2].
  pose proof (valid_keys i ByNativeID Hv) as [T3 _]. simpl in T1, T2, T3, N1, N2.
  apply addCatalogIndex_Ok in Hbs as (_ & Hs0 & ->), Hbn as (_ & Hn0 & ->); [|done..].
  split.
  - unfold is_empty in *. breflect. rewrite !String.eqb_eq in Hs. destruct Hs. split; [done..|].
    rewrite !String.eqb_eq in Ht. naive_solver.
  - intros [].
    + apply (index_exact_push (key_of BySymbol)); [apply (Hix BySymbol)|done|by apply N1].
    + apply (index_exact_push (key_of ByNativeSymbol)); [apply (Hix ByNativeSymbol)|done|by apply N2].
    + simpl. unfold is_empty in Hbi. destruct (String.eqb_spec (id_NativeID (in_Identity i)) "") as [He|He].
      * injection Hbi as <-. apply (index_exact_skip (key_of ByNativeID)); [apply (Hix ByNativeID)|done].
      * apply addCatalogIndex_Ok in Hbi as (_ & Hi0 & ->); [|done].
        apply (index_exact_push (key_of ByNativeID)); [apply (Hix ByNativeID)|done|done].
Qed.

Lemma keys_fresh ix pre i l kind :
  indexes_exact ix pre → keys_unique (pre ++ i :: l) → key_of kind i ≠ "" → index_of kind ix !! key_of kind i = None.
Proof.
  intros Hix Hu Hne. destruct (index_of kind ix !! key_of kind i) as [n|] eqn:E; [|done].
  apply Hix in E as (j & Hj & Hk & _). pose proof (lookup_lt_Some _ _ _ Hj).
  assert (n = length pre); [|lia].
  apply (Hu kind n (length pre) j i); [by apply lookup_app_l_Some|by rewrite list_lookup_middle|done|by rewrite Hk].
Qed.

Lemma index_instrument_complete scope ix pre i l :
  indexes_exact ix pre → instrument_ok scope i → keys_unique (pre ++ i :: l) →
  ∃ ix', index_instrument scope (length pre) ix i = Ok ix'.
Proof.
  intros Hix [Hv Hven Hpro Hset] Hu. unfold index_instrument. rewrite Hv, Hven, Hpro, !String.eqb_refl. simpl.
  pose proof (valid_keys i BySymbol Hv) as [T1 N1]. pose proof (valid_keys i ByNativeSymbol Hv) as [T2 N2].
  pose proof (valid_keys i ByNativeID Hv) as [T3 _]. simpl in T1, T2, T3, N1, N2.
  assert (Hsb : negb (negb (is_empty (cs_Settlement scope)) && negb (is_empty (id_SettleAsset (in_Identity i))) &&
                 negb (String.eqb (id_SettleAsset (in_Identity i)) (cs_Settlement scope))) = true).
  { unfold is_empty. destruct Hset as [->|[->| ->]]; simpl; rewrite ?String.eqb_refl, ?andb_false_r; done. }
  rewrite Hsb.
  assert (Hadd : ∀ kind message, TrimSpace (key_of kind i) = key_of kind i → key_of kind i ≠ "" →
    ∃ m', addCatalogIndex (index_of kind ix) (key_of kind i) (length pre) message = Ok m').
  { intros kind message Ht Hne. eexists. apply addCatalogIndex_Ok; [done|]. split; [done|].
    split; [by eapply keys_fresh|done]. }
  destruct (Hadd BySymbol "duplicate canonical symbol") as [m1 E1]; [done|by apply N1|].
  destruct (Hadd ByNativeSymbol "duplicate native symbol") as [m2 E2]; [done|by apply N2|].
  simpl in E1, E2. rewrite E1, E2. unfold is_empty.
  destruct (String.eqb_spec (id_NativeID (in_Identity i)) "") as [He|He]; [eauto|].
  destruct (Hadd ByNativeID "duplicate native id") as [m3 E3]; [done|done|]. simpl in E3. rewrite E3. eauto.
Qed.

Lemma build_from_Ok scope l pre ix ix' :
  indexes_exact ix pre → build_from scope (length pre) ix l = Ok ix' →
  Forall (instrument_ok scope) l ∧ indexes_exact ix' (pre ++ l).
Proof.
  revert pre ix. induction l as [|i l IH]; intros pre ix Hix Hb; simpl in Hb.
  - injection Hb as <-. by rewrite app_nil_r.
  - apply bind_Ok in Hb as (ix1 & Hi & Hb). apply index_instrument_Ok in Hi as [Hok Hix1]; [|done].
    replace (S (length pre)) with (length (pre ++ [i])) in Hb by (rewrite length_app; simpl; lia).
    apply IH in Hb as [Hl Hix']; [|done]. rewrite <- app_assoc in Hix'. by split; [constructor|].
Qed.

Lemma build_from_complete scope l pre ix :
  indexes_exact ix pre → Forall (instrument_ok scope) l → keys_unique (pre ++ l) →
  ∃ ix', build_from scope (length pre) ix l = Ok ix'.
Proof.
  revert pre ix. induction l as [|i l IH]; intros pre ix Hix Hl Hu; simpl; [eauto|].
  apply Forall_cons in Hl as [Hi Hl].
  destruct (index_instrument_complete scope ix pre i l) as [ix1 E]; [done..|]. rewrite E.
  apply index_instrument_Ok in E as [_ Hix1]; [|done].
  replace (S (length pre)) with (length (pre ++ [i])) by (rewrite length_app; simpl; lia).
  apply IH; [done..|]. by rewrite <- app_assoc.
Qed.

Lemma buildCatalogIndexes_Ok scope l ix :
  buildCatalogIndexes scope l = Ok ix → Forall (instrument_ok scope) l ∧ indexes_exact ix l.
Proof. apply (build_from_Ok scope l []), indexes_exact_empty. Qed.

(** A list of instruments is accepted exactly when each is valid and fits the
    scope and no two share a canonical symbol, native symbol or native id; the
    indexes built then map every identity to its instrument's position, and
    nothing else. *)
Theorem buildCatalogIndexes_iff scope l :
  (∀ ix, buildCatalogIndexes scope l = Ok ix → indexes_exact ix l) ∧
  (is_ok (buildCatalogIndexes scope l) = true ↔ Forall (instrument_ok scope) l ∧ keys_unique l).
Proof.
  split; [intros ix Hix; by apply (buildCatalogIndexes_Ok scope)|].
  rewrite is_ok_Ok. split.
  - intros [ix Hix]. apply buildCatalogIndexes_Ok in Hix as [Hl Hix]. split; [done|by eapply exact_unique].
  - intros [Hl Hu]. apply (build_from_complete scope l []); [apply indexes_exact_empty|done..].
Qed.
End indexes.

(** ** Resolution *)

(** A query by one key. *)
Definition query_of (kind : key_kind) (key : string) : InstrumentQuery :=
  match kind with
  | BySymbol => mkQuery key "" ""
  | ByNativeSymbol => mkQuery "" key ""
  | ByNativeID => mkQuery "" "" key
  end.

(** Position [n] answers a query: it has the key in the kind asked for, and the
    key is no identity of any kind of another instrument. *)
Definition answers {D} (l : list (Instrument D)) (kind : key_kind) (key : string) (n : nat) : Prop :=
  (∃ i, l !! n = Some i ∧ key_of kind i = key ∧ key ≠ "") ∧
  ∀ kind' m j, l !! m = Some j → key_of kind' j = key → m = n.

Lemma TrimSpace_empty : TrimSpace "" = "".
Proof. reflexivity. Qed.

Section resolution.
Context `{Decimal D}.
Implicit Types (l : list (Instrument D)).

Lemma conflicts_false n o : conflicts n o = false ↔ ∀ m, o = Some m → m = n.
Proof.
  unfold conflicts. destruct o as [m|]; [|naive_solver]. rewrite negb_false_iff, Nat.eqb_eq. naive_solver.
Qed.

Lemma resolve_in_Ok scope l ix kind kind1 kind2 key n :
  indexes_exact ix l → (∀ k, k = kind ∨ k = kind1 ∨ k = kind2) →
  resolve_in scope (index_of kind ix) (index_of kind1 ix) (index_of kind2 ix) key = Ok n ↔ answers l kind key n.
Proof.
  intros Hix Hall. unfold resolve_in, answers. split.
  - destruct (index_of kind ix !! key) as [n'|] eqn:E; [|done].
    intros [C1 [C2 [= ->]]%check_Ok]%check_Ok. rewrite negb_true_iff, conflicts_false in C1, C2.
    pose proof E as E'. apply Hix in E' as (i & Hi & Hk & Hne). split; [eauto|].
    intros kind' m j Hj Hkj. assert (Em : index_of kind' ix !! key = Some m) by (apply Hix; eauto).
    destruct (Hall kind') as [->|[->| ->]]; [congruence|auto..].
  - intros [(i & Hi & Hk & Hne) Huniq].
    assert (E : index_of kind ix !! key = Some n) by (apply Hix; eauto). rewrite E.
    assert (Hc : ∀ kind', conflicts n (index_of kind' ix !! key) = false).
    { intros kind'. apply conflicts_false. intros m Hm. apply Hix in Hm as (j & Hj & Hkj & _).
      by apply (Huniq kind' m j). }
    by rewrite !Hc.
Qed.

Lemma resolveIndex_Ok scope l ix kind key n :
  indexes_exact ix l → TrimSpace key ≠ "" →
  resolveIndex scope ix (query_of kind key) = Ok n ↔ answers l kind (TrimSpace key) n.
Proof.
  intros Hix Hne. apply String.eqb_neq in Hne as Hb. unfold resolveIndex, count_keys, is_empty.
  destruct kind; simpl iq_Symbol; simpl iq_NativeSymbol; simpl iq_NativeID;
    rewrite ?TrimSpace_empty; cbn [foldr]; rewrite ?Hb; simpl; rewrite ?Hb; simpl.
  - apply (resolve_in_Ok scope l ix BySymbol ByNativeSymbol ByNativeID); [done|]. intros []; auto.
  - apply (resolve_in_Ok scope l ix ByNativeSymbol BySymbol ByNativeID); [done|]. intros []; auto.
  - apply (resolve_in_Ok scope l ix ByNativeID BySymbol ByNativeSymbol); [done|]. intros []; auto.
Qed.

(** Only queries with exactly one key are answered. *)
Lemma resolveIndex_one_key scope ix q n :
  resolveIndex scope ix q = Ok n →
  ∃ kind key, TrimSpace key ≠ "" ∧ resolveIndex scope ix q = resolveIndex scope ix (query_of kind key).
Proof.
  unfold resolveIndex at 1. intros [H0 [H1 _]%check_Ok]%check_Ok. breflect.
  rewrite Nat.eqb_neq in H0. rewrite Nat.ltb_ge in H1.
  destruct q as [a b c]. simpl in *. unfold count_keys, is_empty in H0, H1.
  cbn [foldr] in H0, H1. unfold resolveIndex, count_keys, is_empty. simpl iq_Symbol. simpl iq_NativeSymbol.
  simpl iq_NativeID.
  destruct (String.eqb_spec (TrimSpace a) "") as [Ha|Ha], (String.eqb_spec (TrimSpace b) "") as [Hb|Hb],
    (String.eqb_spec (TrimSpace c) "") as [Hc|Hc]; simpl in H0, H1; try lia.
  - exists ByNativeID, c. split; [done|]. apply String.eqb_neq in Hc. simpl. by rewrite Ha, Hb, Hc.
  - exists ByNativeSymbol, b. split; [done|]. apply String.eqb_neq in Hb. simpl. by rewrite Ha, Hc, Hb.
  - exists BySymbol, a. split; [done|]. apply String.eqb_neq in Ha. simpl. by rewrite Hb, Hc, Ha.
Qed.
End resolution.

(** ** The catalog invariant *)

Section invariant.
Context `{Decimal D}.
Context (revision_of : Z → CatalogScope → list (Instrument D) → string).
Context (digest_of : SourceDescriptor → string).
Context (url_Parse : string → option URL).
Implicit Types (c : MemoryCatalog D) (scope : CatalogScope) (snapshot : InstrumentSnapshot D).
Local Notation publish := (publish revision_of).
Local Notation RegisterSource := (RegisterSource digest_of url_Parse).
Local Notation loadAndPublish := (loadAndPublish revision_of).
Local Notation load_from_source := (load_from_source revision_of).
Local Notation Refresh := (Refresh revision_of).
Local Notation Snapshot := (Snapshot revision_of).
Local Notation Resolve := (Resolve revision_of).

Record snapshot_ok scope snapshot : Prop := {
  so_scope : sn_Scope snapshot = scope;
  so_instruments : Forall (instrument_ok scope) (sn_Instruments snapshot);
  so_indexes : indexes_exact (sn_Indexes snapshot) (sn_Instruments snapshot);
  so_revision : sn_Revision snapshot = revision_of (sn_SchemaVersion snapshot) scope (sn_Instruments snapshot);
  so_loaded : sn_LoadedAt snapshot ≠ zero_time;
}.

Record catalog_ok c : Prop := {
  co_data : ∀ scope snapshot, mc_data c !! scope = Some snapshot →
    snapshot_ok scope snapshot ∧ 1 ≤ sn_Generation snapshot ≤ mc_next c;
  co_distinct : ∀ s1 s2 n1 n2, mc_data c !! s1 = Some n1 → mc_data c !! s2 = Some n2 →
    sn_Generation n1 = sn_Generation n2 → s1 = s2;
  co_next : 0 ≤ mc_next c;
  co_srcs : ∀ scope src, mc_srcs c !! scope = Some src →
    rs_fingerprint src = Fingerprint digest_of (rs_descriptor src) ∧
    (cs_EndpointFingerprint scope = "" ∨ cs_EndpointFingerprint scope = rs_fingerprint src);
}.

(** The atomic steps, in executions of fewer than 2^64 publications and with a
    clock past the zero time. *)
Inductive catalog_step : MemoryCatalog D → MemoryCatalog D → Prop :=
| step_register c scope descriptor loader : catalog_step c (RegisterSource c scope descriptor loader).1
| step_publish c scope snapshot now :
    mc_next c + 1 < 2 ^ 64 → now ≠ zero_time → catalog_step c (publish c scope snapshot now).1
| step_remember c scope err : catalog_step c (rememberError c scope err).

Lemma normalizeSourceDescriptor_fingerprint scope d d' :
  normalizeSourceDescriptor digest_of url_Parse scope d = Ok d' →
  cs_EndpointFingerprint scope = "" ∨ cs_EndpointFingerprint scope = Fingerprint digest_of d'.
Proof.
  unfold normalizeSourceDescriptor. intros [_ [_ Hd]%check_Ok]%check_Ok.
  apply bind_Ok in Hd as (e & _ & Hd). apply bind_Ok in Hd as (w & _ & Hd).
  apply check_Ok in Hd as (_ & Hd). apply check_Ok in Hd as (Hf & [= <-]).
  unfold is_empty in Hf. breflect. rewrite !String.eqb_eq in Hf. done.
Qed.

(** What a publication does, when it is one. *)
Lemma publish_cases c scope snapshot now :
  0 ≤ mc_next c → mc_next c + 1 < 2 ^ 64 → now ≠ zero_time →
  (∃ e, publish c scope snapshot now = (c, Err e)) ∨
  ∃ published,
    publish c scope snapshot now =
      (mkMemory (mc_loader c) (mc_store c) (<[scope := published]> (mc_data c)) (delete scope (mc_errs c))
         (mc_srcs c) (mc_next c + 1), Ok published) ∧
    snapshot_ok scope published ∧ sn_Generation published = mc_next c + 1 ∧
    sn_Instruments published = sn_Instruments snapshot.
Proof.
  intros Hn0 Hn Hnow. unfold publish, InstrumentCatalog.publish.
  case_bool_decide as Hs; simpl; [|by left; eexists].
  destruct (buildCatalogIndexes scope (sn_Instruments snapshot)) as [ix|e] eqn:E; [|by left; eexists].
  right. rewrite wrapU64_id by lia. eexists. split; [done|]. split; [|done].
  apply buildCatalogIndexes_Ok in E as [Hl Hix]. split; simpl; [done..|by rewrite Hs|].
  unfold IsZero. destruct (Z.eqb_spec (sn_LoadedAt snapshot) 0); done.
Qed.

Lemma publish_catalog_ok c scope snapshot now :
  catalog_ok c → mc_next c + 1 < 2 ^ 64 → now ≠ zero_time → catalog_ok (publish c scope snapshot now).1.
Proof.
  intros Hc Hn Hnow. destruct (publish_cases c scope snapshot now (co_next _ Hc) Hn Hnow)
    as [[e ->]|(p & -> & Hp & Hg & _)]; [done|]. cbn [fst].
  destruct Hc as [Hdata Hdist Hnext Hsrcs]. split; simpl.
  - intros s p' [[<- <-]|[_ Hl]]%lookup_insert_Some; [split; [done|lia]|].
    destruct (Hdata _ _ Hl) as [? ?]. split; [done|lia].
  - assert (Hfresh : ∀ s q, mc_data c !! s = Some q → sn_Generation q ≠ sn_Generation p).
    { intros s q Hq. destruct (Hdata _ _ Hq). lia. }
    intros s1 s2 n1 n2 [[<- <-]|[_ H1]]%lookup_insert_Some [[<- <-]|[_ H2]]%lookup_insert_Some E; [done| | |].
    + by destruct (Hfresh _ _ H2).
    + by destruct (Hfresh _ _ H1).
    + by eapply Hdist.
  - lia.
  - done.
Qed.

Lemma RegisterSource_ok c scope d loader : catalog_ok c → catalog_ok (RegisterSource c scope d loader).1.
Proof.
  intros Hc. unfold RegisterSource, InstrumentCatalog.RegisterSource. destruct loader as [load|]; [|done].
  destruct (normalizeSourceDescriptor _ _ _ _) as [d'|e] eqn:E; [|done].
  destruct (mc_srcs c !! scope) as [src|] eqn:Hs; [by case_match|].
  destruct Hc as [Hdata Hdist Hnext Hsrcs]. split; simpl; [done..|].
  intros s src [[<- <-]|[_ Hl]]%lookup_insert_Some; [|by apply Hsrcs].
  split; [done|]. by apply normalizeSourceDescriptor_fingerprint in E.
Qed.

Lemma catalog_step_ok c c' : catalog_step c c' → catalog_ok c → catalog_ok c'.
Proof.
  intros [] Hc; [by apply RegisterSource_ok|by apply publish_catalog_ok|]. destruct Hc. by split.
Qed.

Lemma steps_ok c c' : rtc catalog_step c c' → catalog_ok c → catalog_ok c'.
Proof. induction 1 as [|x y z Hxy _ IH]; [done|]. intros Hx. by apply IH, (catalog_step_ok x). Qed.

(** C38: whatever operations run and however they interleave, every published
    snapshot carries only instruments that are valid and belong to its scope,
    indexes that are exact for them, and the revision of its contents; no two
    scopes share a generation; and a registered source matches its scope's
    endpoint fingerprint. *)
Theorem catalog_invariant loader store c :
  rtc catalog_step (NewMemoryCatalog loader store) c → catalog_ok c.
Proof.
  intros Hr. apply (steps_ok _ _ Hr). split; simpl; try lia; intros *; by rewrite lookup_empty.
Qed.

(** ** Operations *)

(** Failing remembers the error and changes no snapshot. *)
Lemma load_from_source_cases c scope now :
  0 ≤ mc_next c → mc_next c + 1 < 2 ^ 64 → now ≠ zero_time →
  (∃ e, load_from_source c scope now =
        (rememberError c scope e, (default zero_snapshot (mc_data c !! scope), Some e))) ∨
  (∃ c1 loaded published, publish c scope loaded now = (c1, Ok published) ∧
     (load_from_source c scope now = (c1, (published, None)) ∨
      ∃ e, load_from_source c scope now = (rememberError c1 scope e, (published, None)))).
Proof.
  intros Hn0 Hn Hnow. unfold load_from_source, InstrumentCatalog.load_from_source.
  destruct (loader_for c scope) as [load|]; [|left; eexists; done].
  destruct (load scope now) as [loaded|e]; [|left; eexists; done].
  destruct (publish_cases c scope loaded now Hn0 Hn Hnow) as [[e Hp]|(p & Hp & _)].
  - left. exists e. change (InstrumentCatalog.publish revision_of) with publish. by rewrite Hp.
  - right. exists (publish c scope loaded now).1, loaded, p. change (InstrumentCatalog.publish revision_of) with publish.
    rewrite Hp. split; [done|]. cbn [fst mc_store]. destruct (mc_store c) as [store|]; [|by left].
    destruct (is_Save store p now) as [e|]; [right; by exists e|by left].
Qed.

Lemma load_from_source_steps c scope now :
  0 ≤ mc_next c → mc_next c + 1 < 2 ^ 64 → now ≠ zero_time →
  rtc catalog_step c (load_from_source c scope now).1.
Proof.
  intros Hn0 Hn Hnow.
  destruct (load_from_source_cases c scope now Hn0 Hn Hnow) as [[e ->]|(c1 & loaded & p & Hp & Hl)].
  - apply rtc_once, step_remember.
  - assert (Hstep : catalog_step c c1).
    { replace c1 with (publish c scope loaded now).1 by (by rewrite Hp). by apply step_publish. }
    destruct Hl as [->|[e ->]]; [by apply rtc_once|]. eapply rtc_l, rtc_once; [done|]. apply step_remember.
Qed.

(** [Snapshot], [Refresh] and [Resolve] are sequences of atomic steps. *)
Lemma loadAndPublish_steps c scope force now :
  0 ≤ mc_next c → mc_next c + 1 < 2 ^ 64 → now ≠ zero_time →
  rtc catalog_step c (loadAndPublish c scope force now).1.
Proof.
  intros Hn0 Hn Hnow. unfold loadAndPublish, InstrumentCatalog.loadAndPublish.
  destruct (if force then None else mc_store c) as [store|]; [|by apply load_from_source_steps].
  destruct (is_Load store scope now) as [[stored|]|e]; [|by apply load_from_source_steps|].
  - destruct (publish c scope stored now) as [c1 r] eqn:Hp.
    assert (catalog_step c c1).
    { replace c1 with (publish c scope stored now).1 by (by rewrite Hp). by apply step_publish. }
    destruct r; by apply rtc_once.
  - eapply rtc_l; [apply step_remember|]. by apply load_from_source_steps.
Qed.

Lemma Snapshot_steps c scope now :
  0 ≤ mc_next c → mc_next c + 1 < 2 ^ 64 → now ≠ zero_time → rtc catalog_step c (Snapshot c scope now).1.
Proof.
  intros Hn0 Hn Hnow. unfold Snapshot, InstrumentCatalog.Snapshot. destruct (mc_data c !! scope); [done|].
  pose proof (loadAndPublish_steps c scope false now Hn0 Hn Hnow) as Hs.
  change (InstrumentCatalog.loadAndPublish revision_of) with loadAndPublish.
  destruct (loadAndPublish c scope false now) as [c1 [s [e|]]]; done.
Qed.

(** What [Snapshot] returns is what the catalog then holds. *)
Lemma Snapshot_held c scope now c' snapshot :
  catalog_ok c → mc_next c + 1 < 2 ^ 64 → now ≠ zero_time →
  Snapshot c scope now = (c', Ok snapshot) → mc_data c' !! scope = Some snapshot ∧ catalog_ok c'.
Proof.
  intros Hc Hn Hnow Hs. pose proof (co_next _ Hc) as Hn0.
  assert (Hok : catalog_ok c').
  { pose proof (Snapshot_steps c scope now Hn0 Hn Hnow) as Hr. rewrite Hs in Hr. by apply (steps_ok c). }
  split; [|done]. clear Hok. unfold Snapshot, InstrumentCatalog.Snapshot in Hs.
  destruct (mc_data c !! scope) eqn:E; [by injection Hs as <- <-|].
  assert (Hsrc : ∀ c0, mc_next c0 = mc_next c → mc_data c0 = mc_data c → ∀ c1 s1,
    load_from_source c0 scope now = (c1, (s1, None)) → mc_data c1 !! scope = Some s1).
  { intros c0 En Ed c1 s1 Hl. rewrite <- En in Hn0, Hn.
    destruct (load_from_source_cases c0 scope now Hn0 Hn Hnow) as [[e Hl']|(c2 & loaded & p & Hp & Hl')].
    { by rewrite Hl' in Hl. }
    destruct (publish_cases c0 scope loaded now Hn0 Hn Hnow) as [[e Hp']|(p' & Hp' & _)]; rewrite Hp in Hp'; [done|].
    injection Hp' as -> ->. destruct Hl' as [Hl'|[e Hl']]; rewrite Hl' in Hl; injection Hl as <- <-;
      simpl; by rewrite lookup_insert_eq. }
  unfold loadAndPublish, InstrumentCatalog.loadAndPublish in Hs. cbn [negb] in Hs.
  destruct (mc_store c) as [store|].
  - destruct (is_Load store scope now) as [[stored|]|e].
    + destruct (publish_cases c scope stored now Hn0 Hn Hnow) as [[e Hp]|(p & Hp & _)];
        change (InstrumentCatalog.publish revision_of) with publish in Hs; rewrite Hp in Hs; [done|].
      injection Hs as <- <-. simpl. by rewrite lookup_insert_eq.
    + change (InstrumentCatalog.load_from_source revision_of) with load_from_source in Hs.
      destruct (load_from_source c scope now) as [c1 [s1 [e1|]]] eqn:El; [done|]. injection Hs as <- <-.
      by apply (Hsrc c).
    + change (InstrumentCatalog.load_from_source revision_of) with load_from_source in Hs.
      destruct (load_from_source (rememberError c scope e) scope now) as [c1 [s1 [e1|]]] eqn:El; [done|].
      injection Hs as <- <-. by apply (Hsrc (rememberError c scope e)).
  - change (InstrumentCatalog.load_from_source revision_of) with load_from_source in Hs.
    destruct (load_from_source c scope now) as [c1 [s1 [e1|]]] eqn:El; [done|]. injection Hs as <- <-.
    by apply (Hsrc c).
Qed.

(** A stored snapshot that cannot be published is returned as an error each
    time, without a trace in the status and without asking the loader. *)
Lemma Snapshot_stuck_on_bad_store c scope now store stored e :
  mc_data c !! scope = None → mc_store c = Some store → is_Load store scope now = Ok (Some stored) →
  buildCatalogIndexes scope (sn_Instruments stored) = Err e → sn_Scope stored = scope →
  Snapshot c scope now = (c, Err e).
Proof.
  intros Hd Hs Hl Hb Hsc. unfold Snapshot, InstrumentCatalog.Snapshot, InstrumentCatalog.loadAndPublish.
  rewrite Hd, Hs, Hl. unfold InstrumentCatalog.publish. by rewrite bool_decide_true, Hb by done.
Qed.

(** [Resolve] never panics, and a query by one key returns instrument [i]
    exactly when the scope's snapshot can be had and [i] is its instrument with
    that key, the key being no identity of any other instrument. *)
Theorem Resolve_correct c scope kind key now c' r :
  catalog_ok c → mc_next c + 1 < 2 ^ 64 → now ≠ zero_time → TrimSpace key ≠ "" →
  Resolve c scope (query_of kind key) now = (c', r) →
  r ≠ None ∧
  ∀ i, r = Some (Ok i) ↔
    ∃ snapshot n, Snapshot c scope now = (c', Ok snapshot) ∧ mc_data c' !! scope = Some snapshot ∧
      sn_Instruments snapshot !! n = Some i ∧ answers (sn_Instruments snapshot) kind (TrimSpace key) n.
Proof.
  intros Hc Hn Hnow Hkey. unfold Resolve, InstrumentCatalog.Resolve.
  change (InstrumentCatalog.Snapshot revision_of) with Snapshot.
  destruct (Snapshot c scope now) as [c1 [snapshot|e]] eqn:Hs; intros [= <- <-].
  2: { split; [done|]. intros i. split; [done|]. intros (s & n & Hs' & _). by rewrite Hs' in Hs. }
  destruct (Snapshot_held c scope now c1 snapshot Hc Hn Hnow Hs) as [Hheld Hok].
  destruct (co_data _ Hok _ _ Hheld) as [[_ _ Hix _ _] _].
  pose proof (λ n, resolveIndex_Ok scope _ _ kind key n Hix Hkey) as Hres.
  destruct (resolveIndex scope (sn_Indexes snapshot) (query_of kind key)) as [n|e] eqn:Er.
  - pose proof (proj1 (Hres n) eq_refl) as Hans. destruct (Hans) as [(i0 & Hi0 & _) Huniq]. rewrite Hi0.
    split; [done|]. intros i. split.
    + intros [= <-]. by exists snapshot, n.
    + intros (s & m & [= <-] & _ & Hm & [(j & Hj & Hkj & _) _]). assert (m = n) as -> by (by apply (Huniq kind m j)).
      simpl. congruence.
  - split; [done|]. intros i. split; [done|]. intros (s & m & [= <-] & _ & _ & Hans).
    by apply Hres in Hans.
Qed.

(** A refresh publishes a snapshot of a newer generation than any before, or
    fails, remembers why and leaves the last good snapshot in place (and returns
    it beside the error); other scopes are never touched. *)
Theorem Refresh_last_known_good c scope now c' snapshot err :
  catalog_ok c → mc_next c + 1 < 2 ^ 64 → now ≠ zero_time →
  Refresh c scope now = (c', (snapshot, err)) →
  match err with
  | None => mc_data c' !! scope = Some snapshot ∧
            ∀ scope' old, mc_data c !! scope' = Some old → sn_Generation old < sn_Generation snapshot
  | Some e => mc_data c' = mc_data c ∧ snapshot = default zero_snapshot (mc_data c !! scope) ∧
              mc_errs c' !! scope = Some e
  end ∧
  ∀ scope', scope' ≠ scope → mc_data c' !! scope' = mc_data c !! scope' ∧ mc_errs c' !! scope' = mc_errs c !! scope'.
Proof.
  intros Hc Hn Hnow Hr. pose proof (co_next _ Hc) as Hn0.
  change (load_from_source c scope now = (c', (snapshot, err))) in Hr.
  destruct (load_from_source_cases c scope now Hn0 Hn Hnow) as [[e He]|(c1 & loaded & p & Hp & Hl)].
  - rewrite He in Hr. injection Hr as <- <- <-. simpl. rewrite lookup_insert_eq.
    split; [done|]. intros s' Hne. by rewrite lookup_insert_ne.
  - destruct (publish_cases c scope loaded now Hn0 Hn Hnow) as [[e Hp']|(p' & Hp' & _ & Hg & _)];
      rewrite Hp in Hp'; [done|]. injection Hp' as -> ->.
    assert (Hgen : ∀ s old, mc_data c !! s = Some old → sn_Generation old < sn_Generation p').
    { intros s old Hs. destruct (co_data _ Hc _ _ Hs). lia. }
    destruct Hl as [Hl|[e Hl]]; rewrite Hl in Hr; injection Hr as <- <- <-; simpl; rewrite lookup_insert_eq;
      (split; [done|]); intros s' Hne; by rewrite ?lookup_insert_ne, lookup_delete_ne by done.
Qed.
End invariant.

(** ** Concrete inputs *)

Definition perp_scope : CatalogScope := mkScope VenueBinance EnvironmentLive ProductPerp "USDT" "" "".
Definition two_perps : list (Instrument Z) := [sample_perp VenueBinance "BTC" "USDT"; sample_perp VenueBinance "ETH" "USDT"].
Definition sample_revision (_ : Z) (_ : CatalogScope) (l : list (Instrument Z)) : string := FormatInt (Z.of_nat (length l)).
Definition sample_digest (d : SourceDescriptor) : string := sd_Name d.
Definition no_url (_ : string) : option URL := None.
(** A loader that answers once the clock reaches 2. *)
Definition sample_loader : InstrumentLoader Z := λ scope now,
  if now <? 2 then Err (EText "timeout")
  else Ok (mkSnapshot 0 scope "" 0 zero_time two_perps empty_indexes).
Definition fresh_catalog : MemoryCatalog Z := NewMemoryCatalog (Some sample_loader) None.
Definition loaded_catalog : MemoryCatalog Z := (Refresh sample_revision fresh_catalog perp_scope 2).1.

Example loaded_symbols : map (key_of BySymbol) (sn_Instruments
  (default zero_snapshot (mc_data loaded_catalog !! perp_scope))) = ["BTC-USDT"; "ETH-USDT"].
Proof. vm_compute. reflexivity. Qed.

Lemma fresh_ok : catalog_ok sample_revision sample_digest fresh_catalog.
Proof. split; simpl; try lia; intros *; by rewrite lookup_empty. Qed.
Lemma loaded_reachable : rtc (catalog_step sample_revision sample_digest no_url) fresh_catalog loaded_catalog.
Proof. apply load_from_source_steps; vm_compute; done. Qed.

Lemma catalog_invariant_witness : catalog_ok sample_revision sample_digest loaded_catalog.
Proof. apply (catalog_invariant sample_revision sample_digest no_url (Some sample_loader) None), loaded_reachable. Defined.

Definition btc_query : MemoryCatalog Z * option (result error (Instrument Z)) :=
  Resolve sample_revision fresh_catalog perp_scope (query_of BySymbol " BTC-USDT") 2.
Lemma Resolve_correct_witness :
  btc_query.2 = Some (Ok (sample_perp VenueBinance "BTC" "USDT")) ∧
  ∃ snapshot n, sn_Instruments snapshot !! n = Some (sample_perp VenueBinance "BTC" "USDT") ∧
                answers (sn_Instruments snapshot) BySymbol "BTC-USDT" n.
Proof.
  assert (Hr : btc_query.2 = Some (Ok (sample_perp VenueBinance "BTC" "USDT"))) by (vm_compute; reflexivity).
  split; [exact Hr|].
  destruct (Resolve_correct sample_revision sample_digest no_url fresh_catalog perp_scope BySymbol " BTC-USDT" 2
    btc_query.1 btc_query.2 fresh_ok) as [_ Hiff]; [reflexivity|discriminate|discriminate|apply surjective_pairing|].
  apply Hiff in Hr. destruct Hr as (snapshot & n & _ & _ & Hn & Hans). exists snapshot, n. split; [exact Hn|exact Hans].
Defined.

(** A first load, then a failing refresh: the snapshot stays. *)
Definition failed_refresh : MemoryCatalog Z * (InstrumentSnapshot Z * option error) :=
  Refresh sample_revision loaded_catalog perp_scope 1.
Lemma Refresh_last_known_good_witness :
  failed_refresh.2.2 = Some (EText "timeout") ∧ mc_data failed_refresh.1 = mc_data loaded_catalog.
Proof.
  assert (Hok : catalog_ok sample_revision sample_digest loaded_catalog).
  { apply (steps_ok _ _ no_url fresh_catalog); [apply loaded_reachable|apply fresh_ok]. }
  assert (Herr : failed_refresh.2.2 = Some (EText "timeout")) by (vm_compute; reflexivity).
  split; [exact Herr|].
  assert (Hr : failed_refresh = (failed_refresh.1, (failed_refresh.2.1, Some (EText "timeout")))).
  { rewrite <- Herr. rewrite <- !surjective_pairing. reflexivity. }
  destruct (Refresh_last_known_good sample_revision sample_digest loaded_catalog perp_scope 1
    failed_refresh.1 failed_refresh.2.1 (Some (EText "timeout")) Hok) as [Hkeep _];
    [vm_compute; reflexivity|discriminate|exact Hr|].
  exact (proj1 Hkeep).
Defined.
