(* ===== verification/FundingHistory.v ===== *)
(** * Settled funding rates

    [exchange/funding_history.go]: the snapshot type and its validation.
    [exchange/internal/factoryclient/funding_history.go]: how a venue's reply
    becomes a plottable series: the in-place insertion sort, the in-place
    removal of repeated stamps, the interval measurement and the clipping to the
    requested window.  The interval is computed in binary64, here with the
    executable IEEE-754 arithmetic of [SpecFloat]. *)

From Stdlib Require Import Ascii String ZArith Lia Sorted SpecFloat.
From stdpp Require Import base list sets strings sorting.
From S2P Require Import Prelude GoStrings Decimals Errors Model InstrumentCatalog.

#[local] Open Scope string_scope.
#[local] Open Scope list_scope.
#[local] Open Scope Z_scope.
#[local] Open Scope go_scope.

(** ** Data *)

Record FundingHistoryPoint (D : Type) := mkPoint {
  fp_FundingTime : time; fp_Rate : D; fp_IntervalHours : OptionalInt;
}.
Arguments mkPoint {D} _ _ _.
Arguments fp_FundingTime {D} _.
Arguments fp_Rate {D} _.
Arguments fp_IntervalHours {D} _.

Record FundingHistoryRequest := mkHistoryRequest {
  fr_Scope : CatalogScope; fr_Symbol : string; fr_NativeSymbol : string; fr_NativeID : string;
  fr_Since : time; fr_Until : time; fr_Limit : Z;
}.

Record FundingHistorySnapshot (D : Type) := mkHistory {
  fs_SchemaVersion : Z; fs_Scope : CatalogScope; fs_Symbol : string; fs_ObservedAt : time;
  fs_Points : list (FundingHistoryPoint D);
}.
Arguments mkHistory {D} _ _ _ _ _.
Arguments fs_SchemaVersion {D} _.
Arguments fs_Scope {D} _.
Arguments fs_Symbol {D} _.
Arguments fs_ObservedAt {D} _.
Arguments fs_Points {D} _.

Definition fundingHistoryOperation := "FundingHistory.Load".
Definition invalidFundingHistory (message : string) : error :=
  NewError KindInvalidConfig (op_details "FundingHistory.Load" message).
Definition fundingHistoryInvalid (message : string) : error :=
  NewError KindInvalidConfig (op_details fundingHistoryOperation message).

(** ** Requests *)

Definition fundingHistoryNative (request : FundingHistoryRequest) : string :=
  if negb (is_empty (fr_NativeSymbol request)) then fr_NativeSymbol request else fr_Symbol request.

Definition fundingHistoryWindow (request : FundingHistoryRequest) : result error (Z * Z) :=
  check negb (is_empty (fundingHistoryNative request))
    else fundingHistoryInvalid "funding history requires a symbol" ;;
  check negb (IsZero (fr_Since request) || IsZero (fr_Until request))
    else fundingHistoryInvalid "funding history requires a bounded window" ;;
  check After (fr_Until request) (fr_Since request)
    else fundingHistoryInvalid "funding history window ends before it starts" ;;
  Ok (UnixMilli (fr_Since request), UnixMilli (fr_Until request)).

Definition fundingHistoryLimit (request : FundingHistoryRequest) (venueMax : Z) : Z :=
  if (0 <? fr_Limit request) && (fr_Limit request <? venueMax) then fr_Limit request else venueMax.

Definition fundingHistoryMillisTime (millis : Z) : time :=
  if millis <=? 0 then zero_time else unix_epoch + millis * Millisecond.
Definition fundingHistorySecondsTime (seconds : Z) : time :=
  if seconds <=? 0 then zero_time else unix_epoch + seconds * Second.

(** ** Intervals, in binary64 *)

Definition float64 := spec_float.
Definition of_int (z : Z) : float64 := binary_normalize 53 1024 z 0 false.
Definition fadd : float64 → float64 → float64 := SFadd 53 1024.
Definition fsub : float64 → float64 → float64 := SFsub 53 1024.
Definition fdiv : float64 → float64 → float64 := SFdiv 53 1024.

(** [Duration.Hours] *)
Definition Hours (d : duration) : float64 :=
  fadd (of_int (Z.quot d Hour)) (fdiv (of_int (Z.rem d Hour)) (of_int 3600000000000)).

(** The nearest integer to [m * 2^e], halves away from zero. *)
Definition nearest (m : positive) (e : Z) : Z :=
  if 0 <=? e then Zpos m * 2 ^ e
  else let unit := 2 ^ (- e) in (Zpos m + unit / 2) / unit.
(** [math.Round] *)
Definition Round (f : float64) : float64 :=
  match f with
  | S754_finite s m e => let n := of_int (nearest m e) in if s then SFopp n else n
  | _ => f
  end.
(** [int64(f)] of an integral [f] *)
Definition to_int (f : float64) : Z :=
  match f with S754_finite s m e => let n := nearest m e in if s then - n else n | _ => 0 end.
Definition hundredth : float64 := fdiv (of_int 1) (of_int 100).

Definition fundingHistoryInterval (previous current : time) : OptionalInt :=
  let hours := Hours (Sub current previous) in
  let rounded := Round hours in
  if SFltb rounded (of_int 1) || SFltb hundredth (SFabs (fsub hours rounded)) then mkOptInt 0 false
  else mkOptInt (to_int rounded) true.

Section history.
Context {D : Type}.
Local Notation point := (FundingHistoryPoint D).
Implicit Types (p current : point) (points : list point).

(** ** The in-place sort *)

(** The inner loop of [sortFundingHistoryPoints]: [slot] is [position + 1];
    returns the array and the slot for [current]. *)
Fixpoint shift_right points current (slot : nat) : list point * nat :=
  match slot with
  | O => (points, O)
  | S position =>
      match points !! position with
      | Some p =>
          if After (fp_FundingTime p) (fp_FundingTime current)
          then shift_right (<[slot := p]> points) current position
          else (points, slot)
      | None => (points, slot)
      end
  end.

(** One iteration of the outer loop. *)
Definition sort_step points (index : nat) : list point :=
  match points !! index with
  | Some current => let (points, slot) := shift_right points current index in <[slot := current]> points
  | None => points
  end.

Definition sortFundingHistoryPoints points : list point :=
  foldl sort_step points (seq 1 (length points - 1)).

(** ** Repeated stamps *)

(** The loop over [ordered] that appends to [deduped = ordered[:0]], the same
    array: [read] is the loop index and [write] the length of [deduped]. *)
Fixpoint dedupe_loop (array : list point) (read write remaining : nat) : list point * nat :=
  match remaining with
  | O => (array, write)
  | S remaining =>
      match array !! read with
      | None => (array, write)
      | Some p =>
          let repeated :=
            match write with
            | O => false
            | S last => match array !! last with
                        | Some q => negb (After (fp_FundingTime p) (fp_FundingTime q))
                        | None => false
                        end
            end in
          if repeated then dedupe_loop array (S read) write remaining
          else dedupe_loop (<[write := p]> array) (S read) (S write) remaining
      end
  end.

Definition dedupe (ordered : list point) : list point :=
  let (array, n) := dedupe_loop ordered 0 0 (length ordered) in take n array.

(** ** The series *)

(** The interval of [point], given the preceding row. *)
Definition measure (previous : option point) (p : point) : point :=
  match previous with
  | Some q =>
      if oi_Valid (fp_IntervalHours p) then p
      else mkPoint (fp_FundingTime p) (fp_Rate p) (fundingHistoryInterval (fp_FundingTime q) (fp_FundingTime p))
  | None => p
  end.

Definition in_window (request : FundingHistoryRequest) (t : time) : bool :=
  negb (negb (IsZero (fr_Since request)) && Before t (fr_Since request)) &&
  negb (negb (IsZero (fr_Until request)) && After t (fr_Until request)).

Fixpoint keep_window (request : FundingHistoryRequest) (previous : option point) (deduped : list point) : list point :=
  match deduped with
  | [] => []
  | p :: rest =>
      let kept := keep_window request (Some p) rest in
      if in_window request (fp_FundingTime p) then measure previous p :: kept else kept
  end.

Definition fundingHistorySnapshot (request : FundingHistoryRequest) points (now : time) : FundingHistorySnapshot D :=
  let ordered := List.filter (λ p, negb (IsZero (fp_FundingTime p))) points in
  let deduped := dedupe (sortFundingHistoryPoints ordered) in
  mkHistory 1 (fr_Scope request) (fr_Symbol request) now (keep_window request None deduped).

(** [FundingHistorySnapshot.Validate] *)
Fixpoint validate_points (previous : time) points : result error unit :=
  match points with
  | [] => Ok tt
  | p :: rest =>
      check negb (IsZero (fp_FundingTime p))
        else invalidFundingHistory "funding history point is missing a settlement time" ;;
      check negb (negb (IsZero previous) && negb (After (fp_FundingTime p) previous))
        else invalidFundingHistory "funding history points are not in ascending settlement order" ;;
      validate_points (fp_FundingTime p) rest
  end.

Definition History_Validate (snapshot : FundingHistorySnapshot D) (request : FundingHistoryRequest) : result error unit :=
  check bool_decide (fs_Scope snapshot = fr_Scope request)
    else invalidFundingHistory "funding history scope does not match requested scope" ;;
  check String.eqb (fs_Symbol snapshot) (fr_Symbol request)
    else invalidFundingHistory "funding history symbol does not match requested symbol" ;;
  validate_points zero_time (fs_Points snapshot).
End history.

(** ** The sort *)

Section sorting.
Context {D : Type}.
Local Notation point := (FundingHistoryPoint D).
Local Notation ft := (fp_FundingTime (D := D)).
Implicit Types (p q x y : point) (l pre post : list point) (t : time).

(** Insertion from the right end, on reversed lists. *)
Fixpoint ins_rev x (r : list point) : list point :=
  match r with
  | [] => [x]
  | y :: r' => if After (ft y) (ft x) then y :: ins_rev x r' else x :: r
  end.
Definition ins x l : list point := rev (ins_rev x (rev l)).

Lemma ins_snoc x l y : ins x (l ++ [y]) = if After (ft y) (ft x) then ins x l ++ [y] else l ++ [y; x].
Proof.
  unfold ins. rewrite rev_app_distr. simpl. destruct (After _ _); simpl; [done|].
  by rewrite rev_involutive, <- app_assoc.
Qed.

Lemma ins_length x l : length (ins x l) = S (length l).
Proof.
  induction l as [|y l IH] using rev_ind; [done|]. rewrite ins_snoc.
  destruct (After _ _); rewrite !length_app, ?IH; simpl; lia.
Qed.

(** The inner loop over the array moves the hole left of every later stamp. *)
Lemma shift_right_ins pre h post x :
  (let (points, slot) := shift_right (pre ++ h :: post) x (length pre) in <[slot := x]> points) = ins x pre ++ post.
Proof.
  revert h post. induction pre as [|y pre IH] using rev_ind; intros h post; [done|].
  rewrite length_app, Nat.add_comm, ins_snoc. simpl. rewrite <- app_assoc. simpl.
  rewrite list_lookup_middle by done. destruct (After (ft y) (ft x)).
  - rewrite insert_app_r_alt by lia. replace (S (length pre) - length pre)%nat with 1%nat by lia. simpl.
    rewrite IH, <- app_assoc. done.
  - rewrite insert_app_r_alt by lia. replace (S (length pre) - length pre)%nat with 1%nat by lia. simpl.
    by rewrite <- app_assoc.
Qed.

Lemma sort_step_ins pre x post : sort_step (pre ++ x :: post) (length pre) = ins x pre ++ post.
Proof. unfold sort_step. rewrite list_lookup_middle by done. apply shift_right_ins. Qed.

Lemma sort_steps pre l :
  foldl sort_step (pre ++ l) (seq (length pre) (length l)) = foldl (λ acc x, ins x acc) pre l.
Proof.
  revert pre. induction l as [|x l IH]; intros pre; simpl; [by rewrite app_nil_r|].
  rewrite sort_step_ins. rewrite <- IH, ins_length. done.
Qed.

Lemma sort_insertions l : sortFundingHistoryPoints l = foldl (λ acc x, ins x acc) [] l.
Proof.
  destruct l as [|x l]; [done|]. unfold sortFundingHistoryPoints. simpl. rewrite Nat.sub_0_r.
  apply (sort_steps [x] l).
Qed.

(** The inserted element goes right before the first later stamp. *)
Lemma ins_split x l :
  ∃ l1 l2, l = l1 ++ l2 ∧ ins x l = l1 ++ x :: l2 ∧ (∀ y, y ∈ l2 → ft x < ft y) ∧
           (∀ y, last l1 = Some y → ft y ≤ ft x).
Proof.
  induction l as [|y l IH] using rev_ind; [exists [], []; set_solver|]. rewrite ins_snoc. unfold After.
  destruct (Z.ltb_spec (ft x) (ft y)).
  - destruct IH as (l1 & l2 & -> & -> & H2 & H1). exists l1, (l2 ++ [y]). rewrite <- !app_assoc.
    split_and!; [done..| |done]. intros z [Hz| ->%list_elem_of_singleton]%elem_of_app; auto.
  - exists (l ++ [y]), []. rewrite app_nil_r, <- app_assoc. split_and!; [done..|set_solver|].
    intros z. rewrite last_snoc. by intros [= <-].
Qed.

Definition ascending : list point → Prop := StronglySorted (λ p q, ft p ≤ ft q).

Lemma ascending_last l y z : ascending l → last l = Some y → z ∈ l → ft z ≤ ft y.
Proof.
  intros Hl (l' & ->)%last_Some Hz. apply elem_of_app in Hz as [Hz| ->%list_elem_of_singleton]; [|lia].
  by apply (StronglySorted_app_1_elem_of _ l' [y] z y Hl); [|left].
Qed.

Lemma ins_ascending x l : ascending l → ascending (ins x l).
Proof.
  destruct (ins_split x l) as (l1 & l2 & -> & -> & H2 & H1). unfold ascending.
  intros Hl. pose proof Hl as (Hc & Hl1 & Hl2)%StronglySorted_app.
  assert (Hx : ∀ y, y ∈ l1 → ft y ≤ ft x).
  { intros y Hy. destruct (last l1) as [z|] eqn:E.
    - specialize (H1 z eq_refl). pose proof (ascending_last l1 z y Hl1 E Hy). lia.
    - apply last_None in E as ->. set_solver. }
  apply StronglySorted_app_2; [|done|].
  - intros y z Hy [->|Hz]%elem_of_cons; auto.
  - constructor; [done|]. apply Forall_forall. intros y Hy. specialize (H2 y Hy). lia.
Qed.

Definition at_time t l : list point := filter (λ p, ft p = t) l.
Lemma at_time_app t l1 l2 : at_time t (l1 ++ l2) = at_time t l1 ++ at_time t l2.
Proof. apply filter_app. Qed.
Lemma at_time_none t l : (∀ p, p ∈ l → ft p ≠ t) → at_time t l = [].
Proof.
  intros Hl. induction l as [|p l IH]; [done|]. unfold at_time in *. rewrite filter_cons.
  rewrite decide_False by (apply Hl; left). apply IH. intros q Hq. apply Hl. by right.
Qed.

Lemma ins_at_time t x l : at_time t (ins x l) = at_time t (l ++ [x]).
Proof.
  destruct (ins_split x l) as (l1 & l2 & -> & -> & H2 & _). change (x :: l2) with ([x] ++ l2).
  rewrite !at_time_app, <- app_assoc. f_equal. destruct (decide (ft x = t)) as [Ht|Ht].
  - rewrite (at_time_none t l2) by (intros p Hp; specialize (H2 p Hp); lia). by rewrite app_nil_r.
  - rewrite (at_time_none t [x]) by (by intros p ->%list_elem_of_singleton). by rewrite app_nil_r.
Qed.

(** The array sort is a stable ascending sort. *)
Lemma sort_ascending l : ascending (sortFundingHistoryPoints l).
Proof.
  rewrite sort_insertions. assert (Hnil : ascending []) by constructor. revert Hnil.
  generalize (@nil point) as acc. induction l as [|x l IH]; intros acc Hacc; simpl; [done|].
  by apply IH, ins_ascending.
Qed.
Lemma sort_stable t l : at_time t (sortFundingHistoryPoints l) = at_time t l.
Proof.
  rewrite sort_insertions. change l with ([] ++ l) at 2. generalize (@nil point) as acc.
  induction l as [|x l IH]; intros acc; simpl; [by rewrite app_nil_r|].
  rewrite IH. rewrite !at_time_app, ins_at_time, at_time_app, <- app_assoc.
  change (x :: l) with ([x] ++ l). by rewrite at_time_app.
Qed.
End sorting.

(** ** Repeated stamps *)

Section deduping.
Context {D : Type}.
Local Notation point := (FundingHistoryPoint D).
Local Notation ft := (fp_FundingTime (D := D)).
Implicit Types (p q x y : point) (l : list point) (t : time).

(** The same on lists: a row is kept when it is after the last kept one. *)
Definition repeats (last : option point) p : bool :=
  match last with Some q => negb (After (ft p) (ft q)) | None => false end.
Fixpoint dedupe_ref (last : option point) l : list point :=
  match l with
  | [] => []
  | p :: rest => if repeats last p then dedupe_ref last rest else p :: dedupe_ref (Some p) rest
  end.

(** Writing into the array that is being read is harmless: the write index never
    passes the read index. *)
Lemma dedupe_loop_ref kept junk rest :
  (let (array, n) := dedupe_loop (kept ++ junk ++ rest) (length kept + length junk) (length kept) (length rest) in
   take n array) = kept ++ dedupe_ref (last kept) rest.
Proof.
  revert kept junk. induction rest as [|p rest IH]; intros kept junk; simpl.
  { by rewrite take_app_length, app_nil_r. }
  rewrite (app_assoc kept junk), list_lookup_middle by (by rewrite length_app).
  assert (Hrep : match length kept with
      | O => false
      | S last => match ((kept ++ junk) ++ p :: rest) !! last with
                  | Some q => negb (After (ft p) (ft q)) | None => false end
      end = repeats (last kept) p).
  { destruct kept as [|y kept _] using rev_ind; [done|]. rewrite length_app, Nat.add_comm, last_snoc. simpl.
    rewrite <- !app_assoc. simpl. by rewrite list_lookup_middle. }
  rewrite Hrep. destruct (repeats (last kept) p).
  - specialize (IH kept (junk ++ [p])). rewrite length_app, <- !app_assoc in IH. simpl in IH.
    replace (S (length kept + length junk)) with (length kept + (length junk + 1))%nat by lia.
    by rewrite <- app_assoc.
  - assert (Hins : ∃ junk', length junk' = length junk ∧
      <[length kept := p]> ((kept ++ junk) ++ p :: rest) = (kept ++ [p]) ++ junk' ++ rest).
    { rewrite <- !app_assoc. rewrite insert_app_r_alt, Nat.sub_diag by lia. destruct junk as [|j junk].
      - exists []. simpl. by rewrite <- app_assoc.
      - exists (junk ++ [p]). rewrite length_app, Nat.add_comm, <- !app_assoc. done. }
    destruct Hins as (junk' & Hlen & ->). specialize (IH (kept ++ [p]) junk').
    rewrite length_app, Hlen, last_snoc in IH. simpl in IH.
    replace (S (length kept + length junk)) with (length kept + 1 + length junk)%nat by lia.
    replace (S (length kept)) with (length kept + 1)%nat by lia. rewrite IH. by rewrite <- app_assoc.
Qed.

Lemma dedupe_eq l : dedupe l = dedupe_ref None l.
Proof. apply (dedupe_loop_ref [] [] l). Qed.

Definition strictly_ascending : list point → Prop := StronglySorted (λ p q, ft p < ft q).

Lemma dedupe_ref_after last l p : p ∈ dedupe_ref last l → ∀ q, last = Some q → ft q < ft p.
Proof.
  revert last. induction l as [|x l IH]; intros last Hp q Hq; simpl in Hp; [set_solver|].
  destruct (repeats last x) eqn:Hr; [by apply (IH last)|]. subst last. simpl in Hr. unfold After in Hr. breflect.
  apply elem_of_cons in Hp as [->|Hp]; [done|]. specialize (IH (Some x) Hp x eq_refl). lia.
Qed.

Lemma dedupe_ref_ascending last l : strictly_ascending (dedupe_ref last l).
Proof.
  revert last. induction l as [|x l IH]; intros last; simpl; [constructor|].
  destruct (repeats last x); [apply IH|]. constructor; [apply IH|]. apply Forall_forall.
  intros p Hp. by apply (dedupe_ref_after (Some x) l p Hp).
Qed.

(** Of a sorted list the first row of each stamp is kept. *)
Lemma dedupe_ref_first last l t :
  ascending l → (∀ q p, last = Some q → p ∈ l → ft q ≤ ft p) →
  at_time t (dedupe_ref last l) =
    if bool_decide (ft <$> last = Some t) then [] else take 1 (at_time t l).
Proof.
  revert last. induction l as [|x l IH]; intros last Hl Hlast; [by case_bool_decide|].
  apply StronglySorted_inv in Hl as [Hl Hx]. rewrite Forall_forall in Hx. simpl.
  destruct (repeats last x) eqn:Hr.
  - rewrite IH; [|done|intros q p Hq Hp; apply (Hlast q p Hq); by right].
    case_bool_decide as Ht; [done|]. destruct last as [q|]; [|done]. simpl in Hr. unfold After in Hr. breflect.
    unfold at_time. rewrite filter_cons. case_decide as Hxt; [|done].
    destruct Ht. simpl. f_equal. specialize (Hlast q x eq_refl ltac:(left)). lia.
  - assert (Hcons : at_time t (x :: dedupe_ref (Some x) l) = take 1 (at_time t (x :: l))).
    { unfold at_time. rewrite !filter_cons. fold (at_time t l). fold (at_time t (dedupe_ref (Some x) l)).
      rewrite IH by (try done; by intros q p [= <-] Hp; apply Hx).
      case_decide as Hxt; case_bool_decide as Ht; simpl in *; try done.
      - destruct Ht. by f_equal.
      - by injection Ht. }
    rewrite Hcons. case_bool_decide as Ht; [|done]. destruct last as [q|]; [|done]. injection Ht as <-.
    simpl in Hr. unfold After in Hr. breflect. rewrite at_time_none; [done|].
    intros p [->|Hp]%elem_of_cons; [lia|]. specialize (Hx p Hp). simpl in Hx. lia.
Qed.
End deduping.

(** ** The series *)

Section series.
Context {D : Type}.
Local Notation point := (FundingHistoryPoint D).
Local Notation ft := (fp_FundingTime (D := D)).
Implicit Types (p q x y : point) (l points : list point) (t : time).

(** The row a reply gives for stamp [t]: its first one. *)
Definition first_at points t : option point := head (at_time t points).
(** The settlement before [t] in the whole reply, in the window or not. *)
Definition preceding points t (previous : option point) : Prop :=
  match previous with
  | None => ∀ p, p ∈ points → ft p ≠ zero_time → t ≤ ft p
  | Some q => first_at points (ft q) = Some q ∧ ft q ≠ zero_time ∧ ft q < t ∧
              ∀ p, p ∈ points → ft p ≠ zero_time → ft p < t → ft p ≤ ft q
  end.

Definition deduped points : list point :=
  dedupe (sortFundingHistoryPoints (List.filter (λ p, negb (IsZero (ft p))) points)).

Lemma deduped_ascending points : strictly_ascending (deduped points).
Proof. unfold deduped. rewrite dedupe_eq. apply dedupe_ref_ascending. Qed.

Lemma at_time_nonzero t points :
  at_time t (List.filter (λ p, negb (IsZero (ft p))) points) =
    if bool_decide (t = zero_time) then [] else at_time t points.
Proof.
  unfold at_time, IsZero. induction points as [|p l IH]; simpl; [by case_bool_decide|].
  rewrite filter_cons. destruct (Z.eqb_spec (ft p) 0) as [Hz|Hz]; simpl.
  - rewrite IH. case_bool_decide as Ht; [done|]. rewrite decide_False; [done|]. rewrite Hz. unfold zero_time in Ht. lia.
  - rewrite filter_cons, IH. case_bool_decide as Ht; [|done]. rewrite decide_False; [done|]. unfold zero_time in Ht. lia.
Qed.

Lemma elem_of_deduped points p : p ∈ deduped points ↔ first_at points (ft p) = Some p ∧ ft p ≠ zero_time.
Proof.
  assert (Hat : at_time (ft p) (deduped points) =
    if bool_decide (ft p = zero_time) then [] else take 1 (at_time (ft p) points)).
  { unfold deduped. rewrite dedupe_eq, dedupe_ref_first; [|apply sort_ascending|done].
    simpl. rewrite sort_stable, at_time_nonzero. by case_bool_decide. }
  assert (Hin : p ∈ deduped points ↔ p ∈ at_time (ft p) (deduped points)).
  { unfold at_time. rewrite list_elem_of_filter. naive_solver. }
  rewrite Hin, Hat. unfold first_at. case_bool_decide as Hz; [set_solver|].
  destruct (at_time (ft p) points) as [|q l]; simpl; [set_solver|].
  rewrite take_0, list_elem_of_singleton. naive_solver.
Qed.

(** Every stamped row of the reply has its stamp in the series. *)
Lemma deduped_covers points p : p ∈ points → ft p ≠ zero_time → ∃ q, q ∈ deduped points ∧ ft q = ft p.
Proof.
  intros Hp Hz. destruct (at_time (ft p) points) as [|q l] eqn:E.
  - assert (Hin : p ∈ at_time (ft p) points) by (apply list_elem_of_filter; done). rewrite E in Hin. set_solver.
  - assert (Hq : q ∈ at_time (ft p) points) by (rewrite E; left). apply list_elem_of_filter in Hq as [Hq _].
    exists q. split; [|done]. apply elem_of_deduped. rewrite Hq. split; [|done]. unfold first_at. by rewrite E.
Qed.

Lemma keep_window_elem request previous l q :
  q ∈ keep_window request previous l ↔
  ∃ l1 p l2, l = l1 ++ p :: l2 ∧ in_window request (ft p) = true ∧
             q = measure (match last l1 with Some x => Some x | None => previous end) p.
Proof.
  revert previous. induction l as [|x l IH]; intros previous; simpl.
  { split; [set_solver|]. by intros ([|] & ? & ? & ? & _). }
  assert (Hrest : q ∈ keep_window request (Some x) l ↔
    ∃ l1 p l2, x :: l = (x :: l1) ++ p :: l2 ∧ in_window request (ft p) = true ∧
               q = measure (match last (x :: l1) with Some y => Some y | None => previous end) p).
  { rewrite IH. split; intros (l1 & p & l2 & E & Hw & ->).
    - exists l1, p, l2. rewrite E. split_and!; [done..|]. rewrite last_cons. by destruct (last l1).
    - injection E as ->. exists l1, p, l2. split_and!; [done..|]. rewrite last_cons. by destruct (last l1). }
  transitivity ((in_window request (ft x) = true ∧ q = measure previous x) ∨ q ∈ keep_window request (Some x) l).
  { destruct (in_window request (ft x)); [rewrite elem_of_cons|]; naive_solver. }
  rewrite Hrest. split.
  - intros [[Hw ->]|(l1 & p & l2 & H)]; [by exists [], x, l|by exists (x :: l1), p, l2].
  - intros ([|y l1] & p & l2 & E & Hw & ->); injection E as -> ->; [by left|right]. by exists l1, p, l2.
Qed.

(** The row before [p] in the series is the preceding settlement. *)
Lemma deduped_preceding points l1 p l2 :
  deduped points = l1 ++ p :: l2 → preceding points (ft p) (last l1).
Proof.
  intros E. pose proof (deduped_ascending points) as Hs. rewrite E in Hs.
  pose proof Hs as (Hlt & Hs1 & Hs2)%StronglySorted_app. apply StronglySorted_inv in Hs2 as [_ Hgt].
  rewrite Forall_forall in Hgt.
  assert (Hcase : ∀ r, r ∈ points → ft r ≠ zero_time → ft p ≤ ft r ∨ ∃ s, s ∈ l1 ∧ ft s = ft r).
  { intros r Hr Hz. destruct (deduped_covers points r Hr Hz) as (s & Hs' & Hst). rewrite E in Hs'.
    apply elem_of_app in Hs' as [Hs'|[->|Hs']%elem_of_cons]; [right; eauto|left; lia|].
    left. specialize (Hgt s Hs'). simpl in Hgt. lia. }
  destruct (last l1) as [q|] eqn:Hlast; simpl.
  - assert (Hq : q ∈ l1) by (apply last_Some in Hlast as [? ->]; set_solver).
    assert (Hqd : q ∈ deduped points) by (rewrite E; set_solver).
    apply elem_of_deduped in Hqd as [Hq1 Hq2]. split_and!; [done|done|apply Hlt; [done|left]|].
    intros r Hr Hz Hrt. destruct (Hcase r Hr Hz) as [?|(s & Hs' & <-)]; [lia|].
    apply last_Some in Hlast as [l0 ->]. apply elem_of_app in Hs' as [Hs'| ->%list_elem_of_singleton]; [|lia].
    pose proof (StronglySorted_app_1_elem_of _ l0 [q] s q Hs1 Hs' ltac:(left)) as Hlt'. simpl in Hlt'. lia.
  - apply last_None in Hlast as ->. intros r Hr Hz. destruct (Hcase r Hr Hz) as [?|(s & Hs' & _)]; [done|set_solver].
Qed.

Lemma preceding_unique points t a b : preceding points t a → preceding points t b → a = b.
Proof.
  assert (Hin : ∀ q, first_at points (ft q) = Some q → q ∈ points).
  { unfold first_at, at_time. intros q Hq. apply head_Some_elem_of in Hq. by apply list_elem_of_filter in Hq as [_ ?]. }
  destruct a as [a|], b as [b|]; simpl; [| | |done].
  - intros (Ha & Ha0 & Hat & Hamax) (Hb & Hb0 & Hbt & Hbmax).
    assert (ft a = ft b) as E.
    { pose proof (Hamax b (Hin b Hb) Hb0 Hbt). pose proof (Hbmax a (Hin a Ha) Ha0 Hat). lia. }
    rewrite E in Ha. congruence.
  - intros (Ha & Ha0 & Hat & _) Hb. specialize (Hb a (Hin a Ha) Ha0). lia.
  - intros Ha (Hb & Hb0 & Hbt & _). specialize (Ha b (Hin b Hb) Hb0). lia.
Qed.

Lemma measure_time previous p : ft (measure previous p) = ft p.
Proof. destruct previous; simpl; [|done]. by destruct (oi_Valid _). Qed.

Lemma keep_window_ascending request previous l :
  strictly_ascending l → strictly_ascending (keep_window request previous l).
Proof.
  intros Hl. revert previous. induction Hl as [|p l Hl IH Hp]; intros previous; simpl; [constructor|].
  destruct (in_window request (ft p)); [|apply IH]. constructor; [apply IH|].
  rewrite Forall_forall in *. intros q (l1 & x & l2 & -> & _ & ->)%keep_window_elem.
  rewrite !measure_time. apply Hp. set_solver.
Qed.

Lemma validate_points_ascending previous l :
  strictly_ascending l → (∀ p, p ∈ l → ft p ≠ zero_time) →
  (∀ p, p ∈ l → previous = zero_time ∨ previous < ft p) → validate_points previous l = Ok tt.
Proof.
  intros Hl. revert previous. induction Hl as [|p l Hl IH Hp]; intros previous Hz Hprev; simpl; [done|].
  rewrite Forall_forall in Hp. unfold IsZero, After.
  rewrite (proj2 (Z.eqb_neq (ft p) 0)) by (apply Hz; left). simpl.
  assert (Hguard : negb (negb (previous =? 0) && negb (previous <? ft p)) = true).
  { destruct (Hprev p ltac:(left)) as [->|Hlt]; [done|]. by rewrite (proj2 (Z.ltb_lt _ _) Hlt), andb_false_r. }
  rewrite Hguard. apply IH; [intros q Hq; apply Hz; by right|]. intros q Hq. right. by apply Hp.
Qed.

(** Whatever rows a venue replies with, in whatever order and with whatever
    repetitions, the series built from them is one the snapshot's own validation
    accepts: labelled as requested, with strictly increasing stamps. *)
Theorem fundingHistorySnapshot_valid request points now :
  History_Validate (fundingHistorySnapshot request points now) request = Ok tt ∧
  strictly_ascending (fs_Points (fundingHistorySnapshot request points now)).
Proof.
  assert (Hs : strictly_ascending (keep_window request None (deduped points))).
  { apply keep_window_ascending, deduped_ascending. }
  split; [|exact Hs]. unfold History_Validate.
  change (fs_Points _) with (keep_window request None (deduped points)).
  rewrite bool_decide_true by done. cbn [fs_Symbol fundingHistorySnapshot]. rewrite String.eqb_refl.
  apply validate_points_ascending; [done| |by left].
  intros p (l1 & x & l2 & E & _ & ->)%keep_window_elem. rewrite measure_time.
  assert (Hx : x ∈ deduped points) by (rewrite E; set_solver). by apply elem_of_deduped in Hx as [_ ?].
Qed.

Lemma elem_of_series request points now q :
  q ∈ fs_Points (fundingHistorySnapshot request points now) ↔
  ∃ p previous, first_at points (ft p) = Some p ∧ ft p ≠ zero_time ∧ in_window request (ft p) = true ∧
    preceding points (ft p) previous ∧ q = measure previous p.
Proof.
  change (fs_Points _) with (keep_window request None (deduped points)). rewrite keep_window_elem. split.
  - intros (l1 & p & l2 & E & Hw & ->). assert (Hp : p ∈ deduped points) by (rewrite E; set_solver).
    apply elem_of_deduped in Hp as [Hp Hz]. exists p, (last l1). split_and!; [done..| |by destruct (last l1)].
    by eapply deduped_preceding.
  - intros (p & previous & Hp & Hz & Hw & Hprev & ->).
    assert (Hin : p ∈ deduped points) by (by apply elem_of_deduped).
    apply list_elem_of_split in Hin as (l1 & l2 & E). exists l1, p, l2. split_and!; [done..|].
    rewrite (preceding_unique points (ft p) previous (last l1)) by (done || by eapply deduped_preceding).
    by destruct (last l1).
Qed.

Lemma measure_rate previous p : fp_Rate (measure previous p) = fp_Rate p.
Proof. destruct previous; simpl; [|done]. by destruct (oi_Valid _). Qed.
(** The rates of the series, when no two rows of the reply share a stamp. *)
Lemma series_rates request points now t rate :
  (∀ p q, p ∈ points → q ∈ points → ft p = ft q → p = q) →
  (∃ p, p ∈ fs_Points (fundingHistorySnapshot request points now) ∧ ft p = t ∧ fp_Rate p = rate) ↔
  (∃ p, p ∈ points ∧ ft p = t ∧ fp_Rate p = rate ∧ t ≠ zero_time ∧ in_window request t = true).
Proof.
  intros Hd. split.
  - intros (q & (p & previous & Hp & Hz & Hw & _ & ->)%elem_of_series & <- & <-). rewrite measure_time, measure_rate.
    exists p. split_and!; try done. unfold first_at in Hp. apply head_Some_elem_of in Hp. by apply list_elem_of_filter in Hp as [_ ?].
  - intros (p & Hp & <- & <- & Hz & Hw).
    assert (Hf : first_at points (ft p) = Some p).
    { unfold first_at. destruct (at_time (ft p) points) as [|q l] eqn:E.
      - assert (Hin : p ∈ at_time (ft p) points) by (apply list_elem_of_filter; done). rewrite E in Hin. set_solver.
      - assert (Hq : q ∈ at_time (ft p) points) by (rewrite E; left). apply list_elem_of_filter in Hq as [Hq1 Hq2].
        simpl. f_equal. by apply Hd. }
    assert (Hin : p ∈ deduped points) by (by apply elem_of_deduped).
    apply list_elem_of_split in Hin as (l1 & l2 & E). exists (measure (last l1) p). rewrite measure_time, measure_rate. split_and!; [|done..].
    apply elem_of_series. exists p, (last l1). split_and!; try done. by eapply deduped_preceding.
Qed.

(** The series loses and invents nothing: its points are exactly the first
    rows of the stamps that fall in the window, each with the venue's own
    interval or the one measured from the preceding settlement of the whole
    reply, even when that one lies outside the window. *)
Theorem fundingHistorySnapshot_complete request points now q :
  q ∈ fs_Points (fundingHistorySnapshot request points now) ↔
  ∃ p previous, first_at points (ft p) = Some p ∧ ft p ≠ zero_time ∧ in_window request (ft p) = true ∧
    preceding points (ft p) previous ∧ q = measure previous p.
Proof. apply elem_of_series. Qed.
End series.

(** ** Intervals *)

#[export] Instance OptionalInt_eq_dec : EqDecision OptionalInt.
Proof. solve_decision. Defined.

Lemma fundingHistoryInterval_gap previous gap :
  fundingHistoryInterval previous (previous + gap) = fundingHistoryInterval 0 gap.
Proof.
  unfold fundingHistoryInterval. by replace (Sub (previous + gap) previous) with (Sub gap 0) by (unfold Sub; f_equal; f_equal; lia).
Qed.

Definition interval_checks (k : Z) : bool :=
  forallb (λ jitter, bool_decide (fundingHistoryInterval 0 (k * Hour + jitter * Second) = mkOptInt k true)) [-35; 0; 35] &&
  forallb (λ jitter, bool_decide (fundingHistoryInterval 0 (k * Hour + jitter * Second) = mkOptInt 0 false)) [-37; 37].

Lemma interval_checks_720 : forallb (λ n, interval_checks (Z.of_nat n)) (seq 1 720) = true.
Proof. vm_compute. reflexivity. Qed.

(** In binary64 arithmetic, every gap of a whole number of hours up to 720 is
    measured as exactly that number, still so with 35 seconds of jitter either
    way; a gap 37 seconds off is reported as unmeasurable. *)
Theorem fundingHistoryInterval_hours previous k jitter :
  1 ≤ k ≤ 720 →
  (jitter ∈ [-35; 0; 35] → fundingHistoryInterval previous (previous + (k * Hour + jitter * Second)) = mkOptInt k true) ∧
  (jitter ∈ [-37; 37] → fundingHistoryInterval previous (previous + (k * Hour + jitter * Second)) = mkOptInt 0 false).
Proof.
  intros Hk. pose proof interval_checks_720 as Hall. rewrite forallb_forall in Hall.
  specialize (Hall (Z.to_nat k)). rewrite in_seq, Z2Nat.id in Hall by lia.
  specialize (Hall ltac:(lia)). unfold interval_checks in Hall.
  apply andb_true_iff in Hall as [Hyes Hno]. rewrite forallb_forall in Hyes, Hno.
  split; intros Hj%list_elem_of_In; rewrite fundingHistoryInterval_gap.
  - specialize (Hyes _ Hj). by apply bool_decide_eq_true in Hyes.
  - specialize (Hno _ Hj). by apply bool_decide_eq_true in Hno.
Qed.

(** ** Concrete inputs *)

Lemma fundingHistoryInterval_hours_witness :
  fundingHistoryInterval unix_epoch (unix_epoch + (8 * Hour + 35 * Second)) = mkOptInt 8 true.
Proof. apply (fundingHistoryInterval_hours unix_epoch 8 35); [lia|]. right. right. left. Defined.

Definition sample_history : FundingHistoryRequest :=
  mkHistoryRequest perp_scope "BTC-USDT" "BTCUSDT" "" (unix_epoch + 8 * Hour) (unix_epoch + 24 * Hour) 0.
Definition row (hours rate : Z) : FundingHistoryPoint Z := mkPoint (unix_epoch + hours * Hour) rate (mkOptInt 0 false).

(** Newest first, with a repeated stamp and a row before the window. *)
Example sample_series :
  map (λ p, (UnixMilli (fp_FundingTime p) / 3600000, fp_Rate p, oi_Value (fp_IntervalHours p)))
    (fs_Points (fundingHistorySnapshot sample_history [row 16 3; row 8 2; row 8 9; row 0 1; row 32 4] unix_epoch))
  = [(8, 2, 8); (16, 3, 8)].
Proof. vm_compute. reflexivity. Qed.
