(* ===== verification/Trader.v ===== *)
(** * The trader's front door

    [trader/auth.go]: sessions and the login throttle.  [trader/server.go]: the
    request gate (CSRF), the router and the handlers that decide whether a
    request reaches the gateway.  Handlers run concurrently: a login checks the
    throttle, and later, after other requests, verifies the password and records
    the result ([login], [login_finish]).  Password verification, URL parsing and
    address splitting are parameters; the random session token and the clock are
    inputs of each step.  Serving static files and relaying websocket frames are not
    modelled beyond the decision to do so. *)

From Stdlib Require Import Ascii String ZArith Lia.
From stdpp Require Import base list strings gmap relations.
From S2P Require Import Prelude GoStrings Errors Model.

#[local] Open Scope string_scope.
#[local] Open Scope list_scope.
#[local] Open Scope Z_scope.

Definition sessionIdle : duration := 12 * Hour.
Definition sessionAbsolute : duration := 7 * 24 * Hour.
Definition maxLoginBackoff : duration := 15 * Minute.
Definition loginFailureSpan : duration := Hour.

(** ** Sessions *)

Record session := mkSession { se_created : time; se_lastSeen : time }.
Abbreviation Sessions := (gmap string session).

(** [Sessions.Create]; [token] is the encoded random value, if there was one. *)
Definition Sessions_Create (store : Sessions) (token : option string) (now : time) : Sessions * option string :=
  match token with
  | None => (store, None)
  | Some token => (<[token := mkSession now now]> store, Some token)
  end.

Definition Sessions_Valid (store : Sessions) (token : string) (now : time) : Sessions * bool :=
  if is_empty token then (store, false)
  else match store !! token with
       | None => (store, false)
       | Some current =>
           if (sessionIdle <? Sub now (se_lastSeen current)) || (sessionAbsolute <? Sub now (se_created current))
           then (delete token store, false)
           else (<[token := mkSession (se_created current) now]> store, true)
       end.

Definition Sessions_Delete (store : Sessions) (token : string) : Sessions := delete token store.

(** ** The login throttle *)

Record failure := mkFail { fa_count : Z; fa_last : time; fa_until : time }.
Abbreviation Throttle := (gmap string failure).

Definition Throttle_Wait (throttle : Throttle) (ip : string) (now : time) : duration :=
  match throttle !! ip with
  | None => 0
  | Some entry => let wait := Sub (fa_until entry) now in if 0 <? wait then wait else 0
  end.

(** [time.Second << min(count-1, 20)], capped. *)
Definition login_delay (count : Z) : duration :=
  let delay := Z.shiftl Second (Z.min (count - 1) 20) in
  if maxLoginBackoff <? delay then maxLoginBackoff else delay.

Definition Throttle_Fail (throttle : Throttle) (ip : string) (now : time) : Throttle :=
  let entry :=
    match throttle !! ip with
    | Some entry => if loginFailureSpan <? Sub now (fa_last entry) then mkFail 0 zero_time zero_time else entry
    | None => mkFail 0 zero_time zero_time
    end in
  let count := fa_count entry + 1 in
  <[ip := mkFail count now (Add now (login_delay count))]> throttle.

Definition Throttle_Succeed (throttle : Throttle) (ip : string) : Throttle := delete ip throttle.

(** [Duration.Round], for durations away from the ends of the range *)
Definition Duration_Round (d m : duration) : duration :=
  if m <=? 0 then d
  else let r := Z.rem d m in
       if d <? 0 then (if 2 * - r <? m then d - r else d - r - m)
       else (if 2 * r <? m then d - r else d - r + m).

Definition retryAfterHeader (wait : duration) : string :=
  let seconds := Z.quot (Duration_Round wait Second) Second in
  FormatInt (if seconds <? 1 then 1 else seconds).

(** ** Requests and outcomes *)

Record request := mkRequest {
  rq_Method : string;
  (** the elements of the path, as they were escaped and decoded *)
  rq_Escaped : list string; rq_Elements : list string;
  rq_Host : string; rq_RemoteAddr : string;
  rq_Origin : string; rq_Referer : string; rq_Bolter : string;   (* headers *)
  rq_Cookie : option string;                                      (* the session cookie *)
  rq_Password : option string;                                    (* the decoded login body *)
}.
(** [r.URL.Path] *)
Definition rq_Path (r : request) : string := "/" +:+ Join "/" (rq_Elements r).

Inductive outcome :=
| Refused (status : Z) (code : string)
| Throttled (retry_after : string)
(** the handler goes on to read and verify the password *)
| PasswordDue
| LoggedIn (token : string)
| LoggedOut
| SessionState (authenticated : bool)
| Forwarded (path : string)
| Bridged
| Static
| Redirected (path : string)
| NoHandler.

Record Server := mkServer { sv_sessions : Sessions; sv_throttle : Throttle }.
Definition NewServer : Server := mkServer ∅ ∅.

(** [http.ServeMux] redirects an escaped path with an empty, [.] or [..] element to
    the clean one first, and matches the decoded elements: a pattern with a final
    slash serves what lies under it. *)
Fixpoint clean_elements (l : list string) : bool :=
  match l with
  | [] => true
  | [s] => negb (one_of s ["."; ".."])
  | s :: rest => negb (one_of s [""; "."; ".."]) && clean_elements rest
  end.
Definition is_path (path elements : list string) : bool := bool_decide (elements = path).
Definition under (dir elements : list string) : bool := bool_decide (take (length dir) elements = dir) && (length dir <? length elements)%nat.

Definition is_read (method : string) : bool := one_of method ["GET"; "HEAD"].

Section server.
(** Whether a static directory is configured; [PasswordHash.Verify] of the
    configured hash; the host of a parsed URL; [net.SplitHostPort]. *)
Context (serves_static : bool) (Verify : string → bool) (url_host : string → option string)
        (split_host : string → option string).
Implicit Types (server : Server) (r : request) (now : time).

Definition clientIP r : string := default (rq_RemoteAddr r) (split_host (rq_RemoteAddr r)).

Definition sameOrigin r : bool :=
  let source := if is_empty (rq_Origin r) then rq_Referer r else rq_Origin r in
  if is_empty source then false
  else match url_host source with
       | Some host => negb (is_empty host) && EqualFold host (rq_Host r)
       | None => false
       end.

(** [authenticated(next)] *)
Definition authenticated server r now (next : outcome) : Server * outcome :=
  match rq_Cookie r with
  | None => (server, Refused 401 "UNAUTHENTICATED")
  | Some token =>
      let (sessions, valid) := Sessions_Valid (sv_sessions server) token now in
      (mkServer sessions (sv_throttle server), if valid then next else Refused 401 "UNAUTHENTICATED")
  end.

(** [login] up to the throttle's answer *)
Definition login server r now : Server * outcome :=
  let wait := Throttle_Wait (sv_throttle server) (clientIP r) now in
  if 0 <? wait then (server, Throttled (retryAfterHeader wait)) else (server, PasswordDue).
(** The rest of [login] *)
Definition login_finish server r now (token : option string) : Server * outcome :=
  let ip := clientIP r in
  match rq_Password r with
  | None => (server, Refused 400 "INVALID_JSON")
  | Some password =>
      if is_empty password || negb (Verify password)
      then (mkServer (sv_sessions server) (Throttle_Fail (sv_throttle server) ip now), Refused 401 "INVALID_PASSWORD")
      else
        let throttle := Throttle_Succeed (sv_throttle server) ip in
        match Sessions_Create (sv_sessions server) token now with
        | (sessions, None) => (mkServer sessions throttle, Refused 500 "INTERNAL")
        | (sessions, Some token) => (mkServer sessions throttle, LoggedIn token)
        end
  end.

Definition logout server r : Server * outcome :=
  let sessions := match rq_Cookie r with
                  | Some token => Sessions_Delete (sv_sessions server) token
                  | None => sv_sessions server
                  end in
  (mkServer sessions (sv_throttle server), LoggedOut).

Definition session_state server r now : Server * outcome :=
  match rq_Cookie r with
  | None => (server, SessionState false)
  | Some token =>
      let (sessions, valid) := Sessions_Valid (sv_sessions server) token now in
      (mkServer sessions (sv_throttle server), SessionState valid)
  end.

(** [forward]; the proxy strips the prefix and adds the gateway token. *)
Definition forward r : outcome :=
  if String.eqb (rq_Path r) "/api/gw/v1/ws" then Refused 404 "NOT_FOUND"
  else Forwarded (TrimPrefix (rq_Path r) "/api/gw").
(** [websocket], up to the bridge *)
Definition websocket r : outcome := if negb (sameOrigin r) then Refused 403 "CSRF" else Bridged.
Definition static r : outcome := if is_read (rq_Method r) then Static else Refused 405 "".

(** The mux of [NewServer]. *)
Definition route server r now : Server * outcome :=
  let elements := rq_Elements r in
  if negb (clean_elements (rq_Escaped r)) then (server, Redirected (rq_Path r))
  else if is_path ["api"; "auth"; "login"] elements && String.eqb (rq_Method r) "POST" then login server r now
  else if is_path ["api"; "auth"; "logout"] elements && String.eqb (rq_Method r) "POST" then logout server r
  else if is_path ["api"; "auth"; "session"] elements && is_read (rq_Method r) then session_state server r now
  else if is_path ["api"; "ws"] elements && is_read (rq_Method r) then authenticated server r now (websocket r)
  else if under ["api"; "gw"; "v1"] elements then authenticated server r now (forward r)
  else if is_path ["api"; "gw"; "v1"] elements || is_path ["api"] elements then (server, Redirected (rq_Path r +:+ "/"))
  else if under ["api"] elements then (server, Refused 404 "NOT_FOUND")
  else (server, if serves_static then static r else NoHandler).

Definition ServeHTTP server r now : Server * outcome :=
  if HasPrefix (rq_Path r) "/api/" && negb (is_read (rq_Method r)) &&
     (negb (sameOrigin r) || negb (String.eqb (rq_Bolter r) "1"))
  then (server, Refused 403 "CSRF")
  else route server r now.
End server.

(** ** Concurrent requests *)

(** The server with the logins that passed the throttle and are not finished, by
    handler. *)
Record front := mkFront { fr_server : Server; fr_pending : gmap nat request; fr_next : nat }.
Inductive event := Arrive (r : request) (now : time) | Finish (handler : nat) (now : time) (token : option string).
Definition ev_now (ev : event) : time := match ev with Arrive _ now | Finish _ now _ => now end.
Definition start_front : front := mkFront NewServer ∅ O.
Definition is_admitted (out : outcome) : bool := match out with PasswordDue => true | _ => false end.

Section events.
Context (serves_static : bool) (Verify : string → bool) (url_host : string → option string) (split_host : string → option string).
(** The request an event is about *)
Definition ev_request (f : front) (ev : event) : option request :=
  match ev with Arrive r _ => Some r | Finish handler _ _ => fr_pending f !! handler end.
Definition happen (f : front) (ev : event) : front * outcome :=
  match ev with
  | Arrive r now =>
      let (server, out) := ServeHTTP serves_static url_host split_host (fr_server f) r now in
      (if is_admitted out then mkFront server (<[fr_next f := r]> (fr_pending f)) (S (fr_next f)) else mkFront server (fr_pending f) (fr_next f), out)
  | Finish handler now token =>
      match fr_pending f !! handler with
      | None => (f, NoHandler)
      | Some r => let (server, out) := login_finish Verify split_host (fr_server f) r now token in (mkFront server (delete handler (fr_pending f)) (fr_next f), out)
      end
  end.
End events.

(** ** What reaches the gateway *)

Definition reaches_gateway (out : outcome) : Prop :=
  match out with Forwarded _ | Bridged => True | _ => False end.

(** A session that is neither idle nor too old. *)
Definition live_session (s : session) (now : time) : Prop :=
  now - se_lastSeen s ≤ sessionIdle ∧ now - se_created s ≤ sessionAbsolute.

Lemma Sub_le a b d : d < int64_max → Sub a b ≤ d → a - b ≤ d.
Proof. unfold Sub, int64_max, int64_min. lia. Qed.

Lemma Sessions_Valid_true store token now store' :
  Sessions_Valid store token now = (store', true) →
  ∃ s, store !! token = Some s ∧ live_session s now ∧ store' = <[token := mkSession (se_created s) now]> store.
Proof.
  unfold Sessions_Valid. destruct (is_empty token); [done|].
  destruct (store !! token) as [s|]; [|done]. destruct (_ || _) eqn:Hg; [done|]. intros [= <-]. breflect.
  exists s. split; [done|]. split; [|done].
  split; (apply Sub_le; [unfold sessionIdle, sessionAbsolute, Hour, Minute, Second, int64_max; lia|lia]).
Qed.

Lemma under_path r : under ["api"; "gw"; "v1"] (rq_Elements r) = true → HasPrefix (rq_Path r) "/api/gw/v1/" = true.
Proof.
  unfold under, rq_Path. destruct (rq_Elements r) as [|a [|b [|c [|d rest]]]]; cbn [length take]; intros [E Hl]%andb_prop; try (cbn in Hl; done). apply bool_decide_eq_true in E as [= -> -> ->].
  destruct (prefix_drop "/api/gw/v1/" (Join "/" (d :: rest))) as [Hp _]. exact Hp.
Qed.

Section gate.
Context (serves_static : bool) (url_host : string → option string) (split_host : string → option string).
Local Notation ServeHTTP := (ServeHTTP serves_static url_host split_host).
Local Notation sameOrigin := (sameOrigin url_host).
Local Notation clientIP := (clientIP split_host).

Lemma authenticated_reaches server r now next server' out :
  authenticated server r now next = (server', out) → reaches_gateway out →
  out = next ∧ ∃ token s, rq_Cookie r = Some token ∧ sv_sessions server !! token = Some s ∧ live_session s now.
Proof.
  unfold authenticated. destruct (rq_Cookie r) as [token|]; [|by intros [= <- <-]].
  destruct (Sessions_Valid _ token now) as [sessions []] eqn:Hv; intros [= <- <-]; [|done].
  apply Sessions_Valid_true in Hv as (s & Hs & Hlive & _). eauto 10.
Qed.

Lemma login_not_gateway server r now : ¬ reaches_gateway (login split_host server r now).2.
Proof. unfold login. destruct (0 <? _); tauto. Qed.
Lemma session_state_not_gateway server r now : ¬ reaches_gateway (session_state server r now).2.
Proof. unfold session_state. destruct (rq_Cookie r); [|tauto]. destruct (Sessions_Valid _ _ _); tauto. Qed.

Lemma gateway_guarded_full server r now server' out :
  ServeHTTP server r now = (server', out) → reaches_gateway out →
  (∃ cookie s, rq_Cookie r = Some cookie ∧ sv_sessions server !! cookie = Some s ∧ live_session s now) ∧
  (is_read (rq_Method r) = false → sameOrigin r = true ∧ rq_Bolter r = "1") ∧
  match out with
  | Forwarded path => HasPrefix (rq_Path r) "/api/gw/v1/" = true ∧ path = TrimPrefix (rq_Path r) "/api/gw" ∧
                      rq_Path r ≠ "/api/gw/v1/ws"
  | _ => sameOrigin r = true
  end.
Proof.
  unfold ServeHTTP, Trader.ServeHTTP. destruct (_ && _) eqn:Hcsrf; [by intros [= <- <-]|].
  intros Hroute Hgw. unfold route in Hroute. cbv zeta in Hroute.
  destruct (negb (clean_elements _)); [by injection Hroute as <- <-|].
  destruct (_ && String.eqb (rq_Method r) "POST").
  { exfalso. apply (login_not_gateway server r now). by rewrite Hroute. }
  destruct (_ && String.eqb (rq_Method r) "POST"); [by injection Hroute as <- <-|].
  destruct (is_path ["api"; "auth"; "session"] _ && _).
  { exfalso. apply (session_state_not_gateway server r now). by rewrite Hroute. }
  destruct (is_path ["api"; "ws"] _ && _) eqn:Hws.
  { apply authenticated_reaches in Hroute as [-> (c & s & Hs)]; [|done]. split; [eauto|].
    apply andb_true_iff in Hws as [_ Hread]. split; [congruence|].
    unfold websocket in Hgw |- *. destruct (sameOrigin r); done. }
  destruct (under ["api"; "gw"; "v1"] _) eqn:Hunder.
  - apply authenticated_reaches in Hroute as [-> (c & s & Hs)]; [|done]. split; [eauto|]. apply under_path in Hunder.
    assert (Hapi : HasPrefix (rq_Path r) "/api/" = true).
    { by apply (HasPrefix_app (rq_Path r) "/api/" "gw/v1/"). }
    rewrite Hapi in Hcsrf. simpl in Hcsrf. split.
    + intros Hread. rewrite Hread in Hcsrf. simpl in Hcsrf. breflect. by rewrite String.eqb_eq in Hcsrf.
    + unfold forward in Hgw |- *. destruct (String.eqb_spec (rq_Path r) "/api/gw/v1/ws"); [done|]. done.
  - destruct (is_path ["api"; "gw"; "v1"] _ || _); [by injection Hroute as <- <-|].
    destruct (under ["api"] _); [by injection Hroute as <- <-|]. injection Hroute as <- <-.
    destruct serves_static; [|done]. unfold static in Hgw. by destruct (is_read _).
Qed.

Lemma gateway_guarded_session server r now server' out :
  ServeHTTP server r now = (server', out) → reaches_gateway out →
  ∃ cookie s, rq_Cookie r = Some cookie ∧ sv_sessions server !! cookie = Some s ∧ live_session s now.
Proof. intros Hs Hgw. by destruct (gateway_guarded_full server r now server' out Hs Hgw). Qed.

(** A request reaches the gateway only with the cookie of a live session, one
    used in the last 12 hours and created in the last 7 days; a request that may
    change state must also come from the trader's own origin with the [X-Bolter]
    header, and a websocket from its own origin.  What is forwarded is a
    [/v1/] path, and never the gateway's websocket. *)
Theorem gateway_guarded server r now server' out :
  ServeHTTP server r now = (server', out) → reaches_gateway out →
  (∃ cookie s, rq_Cookie r = Some cookie ∧ sv_sessions server !! cookie = Some s ∧ live_session s now) ∧
  (is_read (rq_Method r) = false → sameOrigin r = true ∧ rq_Bolter r = "1") ∧
  match out with
  | Forwarded path => HasPrefix (rq_Path r) "/api/gw/v1/" = true ∧ path = TrimPrefix (rq_Path r) "/api/gw" ∧
                      rq_Path r ≠ "/api/gw/v1/ws"
  | _ => sameOrigin r = true
  end.
Proof. apply gateway_guarded_full. Qed.
End gate.

(** ** Histories *)

(** A running server with what it has handed out: for every token issued and
    not logged out since, the time and the password it was issued for. *)
Record history := mkHistory { hi_front : front; hi_issued : gmap string (time * string); hi_clock : time }.
Definition start_history : history := mkHistory start_front ∅ zero_time.

Definition note_issued (issued : gmap string (time * string)) (r : request) (now : time) (out : outcome)
  : gmap string (time * string) :=
  match out with
  | LoggedIn token => <[token := (now, default "" (rq_Password r))]> issued
  | LoggedOut => match rq_Cookie r with Some token => delete token issued | None => issued end
  | _ => issued
  end.

Section histories.
Context (serves_static : bool) (Verify : string → bool) (url_host : string → option string)
        (split_host : string → option string).
Local Notation ServeHTTP := (ServeHTTP serves_static url_host split_host).
Local Notation clientIP := (clientIP split_host).
Local Notation happen := (happen serves_static Verify url_host split_host).

(** Requests arrive, and logins finish, in any order, on a clock that does not go
    back. *)
Inductive serve : history → history → Prop :=
| serve_one f issued clock ev f' out r :
    clock ≤ ev_now ev → ev_request f ev = Some r → happen f ev = (f', out) →
    serve (mkHistory f issued clock) (mkHistory f' (note_issued issued r (ev_now ev) out) (ev_now ev)).

(** Every session was issued for a right password and is as old as its token. *)
Definition issued_for (h : history) (token : string) (s : session) : Prop :=
  ∃ password, hi_issued h !! token = Some (se_created s, password) ∧ Verify password = true ∧
              se_created s ≤ se_lastSeen s ≤ hi_clock h.
Definition history_ok (h : history) : Prop :=
  ∀ token s, sv_sessions (fr_server (hi_front h)) !! token = Some s → issued_for h token s.

(** What a request does to the session table. *)
Inductive session_effect (sessions : Sessions) (r : request) (now : time) : Sessions → outcome → Prop :=
| effect_none out : (∀ token, out ≠ LoggedIn token) → out ≠ LoggedOut → session_effect sessions r now sessions out
| effect_touch token s out :
    sessions !! token = Some s → (∀ token, out ≠ LoggedIn token) → out ≠ LoggedOut →
    session_effect sessions r now (<[token := mkSession (se_created s) now]> sessions) out
| effect_expire token out : (∀ token, out ≠ LoggedIn token) → out ≠ LoggedOut →
    session_effect sessions r now (delete token sessions) out
| effect_login token password : rq_Password r = Some password → Verify password = true →
    session_effect sessions r now (<[token := mkSession now now]> sessions) (LoggedIn token)
| effect_logout : session_effect sessions r now
    (match rq_Cookie r with Some token => delete token sessions | None => sessions end) LoggedOut.

Lemma Sessions_Valid_effect sessions r now token out :
  (∀ token, out ≠ LoggedIn token) → out ≠ LoggedOut →
  session_effect sessions r now (Sessions_Valid sessions token now).1 out.
Proof.
  intros H1 H2. unfold Sessions_Valid. destruct (is_empty token); [by apply effect_none|].
  destruct (sessions !! token) as [s|] eqn:Hs; [|by apply effect_none].
  destruct (_ || _); simpl; [by apply effect_expire|by apply effect_touch].
Qed.

Lemma authenticated_effect server r now next :
  (∀ token, next ≠ LoggedIn token) → next ≠ LoggedOut →
  session_effect (sv_sessions server) r now (sv_sessions (authenticated server r now next).1)
    (authenticated server r now next).2.
Proof.
  intros H1 H2. unfold authenticated. destruct (rq_Cookie r) as [token|]; [|by apply effect_none].
  pose proof (λ out, Sessions_Valid_effect (sv_sessions server) r now token out) as Hv.
  destruct (Sessions_Valid _ token now) as [sessions []]; simpl; by apply Hv.
Qed.

Lemma login_effect server r now :
  session_effect (sv_sessions server) r now (sv_sessions (login split_host server r now).1) (login split_host server r now).2.
Proof. unfold login. destruct (0 <? _); by apply effect_none. Qed.
Lemma login_finish_effect server r now token :
  session_effect (sv_sessions server) r now (sv_sessions (login_finish Verify split_host server r now token).1) (login_finish Verify split_host server r now token).2.
Proof.
  unfold login_finish. destruct (rq_Password r) as [password|] eqn:Hp; [|by apply effect_none].
  destruct (_ || _) eqn:Hv; [by apply effect_none|]. breflect. destruct Hv as [_ Hv].
  destruct token as [token|]; simpl; [|by apply effect_none]. by apply (effect_login _ _ _ token password).
Qed.

Lemma session_state_effect server r now :
  session_effect (sv_sessions server) r now (sv_sessions (session_state server r now).1)
    (session_state server r now).2.
Proof.
  unfold session_state. destruct (rq_Cookie r) as [token|]; [|by apply effect_none].
  pose proof (λ out, Sessions_Valid_effect (sv_sessions server) r now token out) as Hv.
  destruct (Sessions_Valid _ token now) as [sessions b]; simpl. by apply Hv.
Qed.

Lemma ServeHTTP_sessions server r now :
  session_effect (sv_sessions server) r now (sv_sessions (ServeHTTP server r now).1)
    (ServeHTTP server r now).2.
Proof.
  unfold ServeHTTP, Trader.ServeHTTP, route. cbv zeta.
  repeat match goal with |- session_effect _ _ _ (sv_sessions (if ?b then _ else _).1) _ => destruct b end;
    try (by apply effect_none).
  - apply login_effect.
  - apply effect_logout.
  - apply session_state_effect.
  - apply authenticated_effect; unfold websocket; destruct (negb _); done.
  - apply authenticated_effect; unfold forward; destruct (String.eqb _ _); done.
  - apply effect_none; destruct serves_static; unfold static; try destruct (is_read _); done.
Qed.
Lemma happen_sessions f ev r : ev_request f ev = Some r →
  session_effect (sv_sessions (fr_server f)) r (ev_now ev) (sv_sessions (fr_server (happen f ev).1)) (happen f ev).2.
Proof.
  destruct ev as [r' now|handler now token]; cbn [ev_request Trader.happen ev_now].
  - intros [= ->]. pose proof (ServeHTTP_sessions (fr_server f) r now) as He. destruct (ServeHTTP (fr_server f) r now) as [server out]. by destruct (is_admitted out).
  - intros ->. pose proof (login_finish_effect (fr_server f) r now token) as He. by destruct (login_finish _ _ _ _ _ _).
Qed.

Lemma note_issued_other issued r now out :
  (∀ token, out ≠ LoggedIn token) → out ≠ LoggedOut → note_issued issued r now out = issued.
Proof. intros H1 H2. destruct out; try done. by destruct (H1 token). Qed.

Lemma serve_ok h h' : serve h h' → history_ok h → history_ok h'.
Proof.
  intros [f issued clock ev f' out r Hclock Hreq Hserve] Hok.
  pose proof (happen_sessions f ev r Hreq) as Heff. rewrite Hserve in Heff. simpl in Heff. set (now := ev_now ev) in *. set (server := fr_server f) in *.
  unfold history_ok, issued_for in *. simpl in *.
  assert (Hlater : ∀ t s, sv_sessions server !! t = Some s → ∃ password, issued !! t = Some (se_created s, password) ∧
    Verify password = true ∧ se_created s ≤ se_lastSeen s ≤ now).
  { intros t s Hs. destruct (Hok t s Hs) as (p & ? & ? & ?). exists p. split_and!; [done..|lia|lia]. }
  inversion Heff as [out' H1 H2 E|tok s0 out' Hs0 H1 H2 E|tok out' H1 H2 E|tok password Hp Hv E|E]; subst;
    intros t s; rewrite ?note_issued_other by done; simpl.
  - apply Hlater.
  - intros [[<- <-]|[_ Hs]]%lookup_insert_Some; [|by apply Hlater].
    destruct (Hlater tok s0 Hs0) as (p & ? & ? & ?). exists p. simpl. split_and!; [done..|lia|lia].
  - intros [_ Hs]%lookup_delete_Some. by apply Hlater.
  - rewrite Hp. simpl. intros [[<- <-]|[Hne Hs]]%lookup_insert_Some.
    + exists password. rewrite lookup_insert_eq. simpl. split_and!; [done..|lia|lia].
    + rewrite lookup_insert_ne by done. by apply Hlater.
  - destruct (rq_Cookie r) as [cookie|]; [|apply Hlater].
    intros [Hne Hs]%lookup_delete_Some. rewrite lookup_delete_ne by done. by apply Hlater.
Qed.

Lemma served_ok h : rtc serve start_history h → history_ok h.
Proof.
  intros Hr. cut (history_ok start_history).
  { induction Hr as [|x y z Hxy _ IH]; [done|]. intros Hx. by apply IH, (serve_ok x). }
  intros token s Hs. change ((∅ : gmap string session) !! token = Some s) in Hs. by rewrite lookup_empty in Hs.
Qed.

(** C36: in every history of requests since the start, logins interleaved with
    other requests, a request that reaches the gateway carries a token that was
    issued to someone who presented the right password, at most 7 days earlier, and
    that was not logged out since. *)
Theorem gateway_authenticated h r now server' out :
  rtc serve start_history h → hi_clock h ≤ now →
  ServeHTTP (fr_server (hi_front h)) r now = (server', out) → reaches_gateway out →
  ∃ cookie issued_at password, rq_Cookie r = Some cookie ∧ hi_issued h !! cookie = Some (issued_at, password) ∧
    Verify password = true ∧ 0 ≤ now - issued_at ≤ sessionAbsolute.
Proof.
  intros Hr Hclock Hserve Hgw. destruct (gateway_guarded_session _ _ _ _ _ _ _ _ Hserve Hgw) as (cookie & s & Hc & Hs & _ & Hage).
  destruct (served_ok h Hr cookie s Hs) as (password & Hi & Hv & Hle).
  exists cookie, (se_created s), password. split_and!; [done..|lia|lia].
Qed.
End histories.

(** ** Password guessing *)

Definition wrong_password : outcome := Refused 401 "INVALID_PASSWORD".

Lemma login_delay_bounds c : 1 ≤ c → Second ≤ login_delay c ≤ maxLoginBackoff.
Proof.
  intros Hc. unfold login_delay, maxLoginBackoff. rewrite Z.shiftl_mul_pow2 by lia.
  assert (1 ≤ 2 ^ Z.min (c - 1) 20) by (change 1 with (2 ^ 0); apply Z.pow_le_mono_r; lia).
  unfold Minute, Second. destruct (Z.ltb_spec (15 * (60 * 1000000000)) (1000000000 * 2 ^ Z.min (c - 1) 20)); lia.
Qed.

Lemma login_delay_mono a b : 1 ≤ a ≤ b → login_delay a ≤ login_delay b.
Proof.
  intros Hab. unfold login_delay. rewrite !Z.shiftl_mul_pow2 by lia.
  assert (2 ^ Z.min (a - 1) 20 ≤ 2 ^ Z.min (b - 1) 20) by (apply Z.pow_le_mono_r; lia).
  assert (Second * 2 ^ Z.min (a - 1) 20 ≤ Second * 2 ^ Z.min (b - 1) 20) by (unfold Second; lia).
  destruct (Z.ltb_spec maxLoginBackoff (Second * 2 ^ Z.min (a - 1) 20)),
    (Z.ltb_spec maxLoginBackoff (Second * 2 ^ Z.min (b - 1) 20)); lia.
Qed.

(** The least time [n] consecutive wrong guesses take. *)
Fixpoint total_delay (n : nat) : duration :=
  match n with
  | O => 0
  | S O => 0
  | S m => total_delay m + login_delay (Z.of_nat m)
  end.
Lemma total_delay_S n : (1 ≤ n)%nat → total_delay (S n) = total_delay n + login_delay (Z.of_nat n).
Proof. destruct n; [lia|done]. Qed.
Lemma total_delay_nonneg n : 0 ≤ total_delay n.
Proof.
  induction n as [|[|n] IH]; [done|done|]. rewrite (total_delay_S (S n)) by lia.
  destruct (login_delay_bounds (Z.of_nat (S n)) ltac:(lia)) as [Hd _]. unfold Second in Hd. lia.
Qed.
Lemma total_delay_hour n : total_delay n ≤ Hour → (n ≤ 13)%nat.
Proof.
  intros Hn. destruct (decide (n ≤ 13)%nat) as [|Hgt]; [done|].
  assert (Hmono : total_delay 14 ≤ total_delay n).
  { assert (Hle : (14 ≤ n)%nat) by lia. clear Hn Hgt. induction Hle as [|n Hle IH]; [done|].
    rewrite (total_delay_S n) by lia. destruct (login_delay_bounds (Z.of_nat n) ltac:(lia)) as [Hd _].
    unfold Second in Hd. transitivity (total_delay n); [exact IH|lia]. }
  change (total_delay 14) with 3723000000000 in Hmono. unfold Hour, Minute, Second in Hn. lia.
Qed.

Section guessing.
Context (serves_static : bool) (Verify : string → bool) (url_host : string → option string)
        (split_host : string → option string).
Local Notation ServeHTTP := (ServeHTTP serves_static url_host split_host).
Local Notation clientIP := (clientIP split_host).
Local Notation happen := (happen serves_static Verify url_host split_host).

(** The wrong guesses from [ip] that a sequence of events has evaluated, and the
    server after it. *)
Definition guess_from (ip : string) (f : front) (ev : event) (out : outcome) : bool :=
  match out, ev_request f ev with Refused 401 code, Some r => String.eqb code "INVALID_PASSWORD" && String.eqb (clientIP r) ip | _, _ => false end.
Fixpoint guesses (ip : string) (f : front) (events : list event) : nat * front :=
  match events with
  | [] => (O, f)
  | ev :: rest =>
      let (f', out) := happen f ev in
      let (n, final) := guesses ip f' rest in ((if guess_from ip f ev out then S n else n), final)
  end.
(** The logins from [ip] that passed the throttle and are not finished *)
Definition in_flight (ip : string) (f : front) : gmap nat request := filter (λ p, clientIP p.2 = ip) (fr_pending f).
(** Events within the hour from [start], on a clock that does not go back; never
    more than [m] logins from [ip] at once, and none with the right password. *)
Fixpoint hour_of (ip : string) (m : nat) (start clock : time) (f : front) (events : list event) : Prop :=
  (size (in_flight ip f) ≤ m)%nat ∧
  match events with
  | [] => True
  | ev :: rest =>
      clock ≤ ev_now ev ≤ start + Hour ∧
      (∀ r password, ev_request f ev = Some r → clientIP r = ip → rq_Password r = Some password → Verify password = false) ∧
      hour_of ip m start (ev_now ev) (happen f ev).1 rest
  end.

Lemma ServeHTTP_throttle server r now : sv_throttle (ServeHTTP server r now).1 = sv_throttle server.
Proof.
  unfold ServeHTTP, Trader.ServeHTTP, route, login, logout, session_state, authenticated. cbv zeta.
  repeat match goal with
  | |- context [(if ?b then _ else _).1] => destruct b
  | |- context [match rq_Cookie r with _ => _ end] => destruct (rq_Cookie r)
  | |- context [Sessions_Valid ?a ?b ?c] => destruct (Sessions_Valid a b c)
  end; done.
Qed.
Lemma ServeHTTP_admitted server r now : is_admitted (ServeHTTP server r now).2 = true → Throttle_Wait (sv_throttle server) (clientIP r) now ≤ 0.
Proof.
  unfold ServeHTTP, Trader.ServeHTTP. destruct (_ && _ && _); [done|]. unfold route. cbv zeta.
  repeat match goal with |- context [is_admitted (if ?b then _ else _).2] => destruct b end; try done.
  - unfold login. destruct (Z.ltb_spec 0 (Throttle_Wait (sv_throttle server) (clientIP r) now)); done.
  - unfold session_state. destruct (rq_Cookie r); [|done]. by destruct (Sessions_Valid _ _ _).
  - unfold authenticated, websocket. destruct (rq_Cookie r); [|done]. destruct (Sessions_Valid _ _ _) as [? []]; [|done]. by destruct (negb _).
  - unfold authenticated, forward. destruct (rq_Cookie r); [|done]. destruct (Sessions_Valid _ _ _) as [? []]; [|done]. by destruct (String.eqb _ _).
  - destruct serves_static; [|done]. unfold static. by destruct (is_read _).
Qed.
Lemma ServeHTTP_no_guess server r now code : (ServeHTTP server r now).2 = Refused 401 code → code = "UNAUTHENTICATED".
Proof.
  unfold ServeHTTP, Trader.ServeHTTP. destruct (_ && _ && _); [done|]. unfold route. cbv zeta.
  repeat match goal with |- (if ?b then _ else _).2 = _ → _ => destruct b end; try done.
  - unfold login. by destruct (0 <? _).
  - unfold session_state. destruct (rq_Cookie r); [|done]. by destruct (Sessions_Valid _ _ _).
  - unfold authenticated, websocket. destruct (rq_Cookie r); [|by intros [= <-]]. destruct (Sessions_Valid _ _ _) as [? []]; [by destruct (negb _)|by intros [= <-]].
  - unfold authenticated, forward. destruct (rq_Cookie r); [|by intros [= <-]]. destruct (Sessions_Valid _ _ _) as [? []]; [by destruct (String.eqb _ _)|by intros [= <-]].
  - cbn [snd]. destruct serves_static; [|done]. unfold static. by destruct (is_read _).
Qed.

(** Rounds: a round opens with a guess whose login passed the throttle after the
    last round had opened; the other logins in flight then are its [stale] ones.
    After [n] guesses in [j] rounds: *)
Record rounds (ip : string) (m : nat) (start clock : time) (f : front) (n j : nat) (stale : gset nat) : Prop := mkRounds {
  ro_fresh : (∀ k r, fr_pending f !! k = Some r → (k < fr_next f)%nat);
  ro_stale : ∀ k, k ∈ stale → is_Some (in_flight ip f !! k);
  ro_count : (n + size stale ≤ j * m)%nat;
  ro_later : ∀ k, is_Some (in_flight ip f !! k) → k ∉ stale → start + total_delay (S j) ≤ clock;
  ro_start : start ≤ clock;
  ro_entry : match j with
             | O => ∀ e, sv_throttle (fr_server f) !! ip = Some e → 1 ≤ fa_count e
             | S _ => ∃ e, sv_throttle (fr_server f) !! ip = Some e ∧ Z.of_nat j ≤ fa_count e ∧ fa_until e = fa_last e + login_delay (fa_count e) ∧
                           start ≤ fa_last e ≤ clock ∧ start + total_delay (S j) ≤ fa_until e ∧ start + total_delay j ≤ clock
             end;
}.
Lemma rounds_bounded ip m start clock f n j stale : rounds ip m start clock f n j stale → clock ≤ start + Hour → (n ≤ 13 * m)%nat.
Proof.
  intros Hr Hc. pose proof (ro_count _ _ _ _ _ _ _ _ Hr) as Hn. pose proof (ro_entry _ _ _ _ _ _ _ _ Hr) as He. destruct j as [|j]; [lia|].
  destruct He as (e & _ & _ & _ & _ & _ & Hd). assert (S j ≤ 13)%nat by (apply total_delay_hour; lia). nia.
Qed.
Lemma in_flight_lookup ip f k r : in_flight ip f !! k = Some r ↔ fr_pending f !! k = Some r ∧ clientIP r = ip.
Proof. unfold in_flight. by rewrite map_lookup_filter_Some. Qed.

(** A request that arrives, and an end that is not a guess from [ip] *)
Lemma rounds_arrive ip m start clock f n j stale r now : rounds ip m start clock f n j stale → clock ≤ now →
  rounds ip m start now (happen f (Arrive r now)).1 n j stale.
Proof.
  intros [Hfr Hst Hn Hl Hs He] Hc. cbn [Trader.happen]. pose proof (ServeHTTP_throttle (fr_server f) r now) as Ht. pose proof (ServeHTTP_admitted (fr_server f) r now) as Ha.
  destruct (ServeHTTP (fr_server f) r now) as [server out]. cbn [fst snd] in *.
  assert (He' : match j with O => ∀ e, sv_throttle server !! ip = Some e → 1 ≤ fa_count e | S _ => ∃ e, sv_throttle server !! ip = Some e ∧ Z.of_nat j ≤ fa_count e ∧ fa_until e = fa_last e + login_delay (fa_count e) ∧
    start ≤ fa_last e ≤ now ∧ start + total_delay (S j) ≤ fa_until e ∧ start + total_delay j ≤ now end).
  { rewrite Ht. destruct j; [done|]. destruct He as (e & ? & ? & ? & ? & ? & ?). exists e. split_and!; try done; lia. }
  destruct (is_admitted out); cbn [fst].
  - specialize (Ha eq_refl). assert (Hnew : fr_pending f !! fr_next f = None) by (destruct (fr_pending f !! fr_next f) as [x|] eqn:E; [apply Hfr in E; lia|done]).
    split; cbn [fr_pending fr_next fr_server]; [| |done| |lia|exact He'].
    + intros k x [[<- <-]|[Hne Hx]]%lookup_insert_Some; [lia|]. apply Hfr in Hx. lia.
    + intros k Hk. destruct (Hst k Hk) as [x Hx]. exists x. apply in_flight_lookup in Hx as [Hx Hi]. apply in_flight_lookup. split; [|done]. cbn [fr_pending]. rewrite lookup_insert_ne; [done|congruence].
    + intros k [x Hx] Hk. apply in_flight_lookup in Hx as [Hx Hi]. cbn [fr_pending] in Hx. apply lookup_insert_Some in Hx as [[<- <-]|[Hne Hx]].
      * destruct j as [|j]; [cbn [total_delay]; lia|]. destruct He as (e & Ee & _ & _ & _ & Hu & _). unfold Throttle_Wait in Ha. rewrite Hi, Ee in Ha.
        destruct (Z.ltb_spec 0 (Sub (fa_until e) now)) as [Hp|Hp]; [lia|]. pose proof (Sub_pos (fa_until e) now). lia.
      * transitivity clock; [|done]. apply (Hl k); [exists x; by apply in_flight_lookup|done].
  - split; cbn [fr_pending fr_next fr_server]; [exact Hfr|exact Hst|done| |lia|exact He']. intros k Hx Hk. transitivity clock; [|done]. by apply (Hl k).
Qed.
Lemma in_flight_delete ip f server k : in_flight ip (mkFront server (delete k (fr_pending f)) (fr_next f)) = delete k (in_flight ip f).
Proof. unfold in_flight. cbn [fr_pending]. by rewrite map_filter_delete. Qed.
Lemma rounds_drop ip m start clock f n j stale k now server : rounds ip m start clock f n j stale → clock ≤ now → sv_throttle server !! ip = sv_throttle (fr_server f) !! ip →
  rounds ip m start now (mkFront server (delete k (fr_pending f)) (fr_next f)) n j (stale ∖ {[k]}).
Proof.
  intros [Hfr Hst Hn Hl Hs He] Hc Ht. split; rewrite ?in_flight_delete; cbn [fr_pending fr_next fr_server].
  - intros i x [_ Hx]%lookup_delete_Some. by eapply Hfr.
  - intros i [Hi Hne]%elem_of_difference. rewrite lookup_delete_ne; [by apply Hst|set_solver].
  - pose proof (subseteq_size (stale ∖ {[k]}) stale ltac:(set_solver)). lia.
  - intros i [x Hx] Hi. apply lookup_delete_Some in Hx as [Hne Hx]. transitivity clock; [|done]. apply (Hl i); [by exists x|set_solver].
  - lia.
  - rewrite Ht. destruct j; [done|]. destruct He as (e & ? & ? & ? & ? & ? & ?). exists e. split_and!; try done; lia.
Qed.
(** The throttle's entry after a guess *)
Lemma fail_entry throttle ip now start clock j :
  match j with
  | O => ∀ e, throttle !! ip = Some e → 1 ≤ fa_count e
  | S _ => ∃ e, throttle !! ip = Some e ∧ Z.of_nat j ≤ fa_count e ∧ fa_until e = fa_last e + login_delay (fa_count e) ∧
                start ≤ fa_last e ≤ clock ∧ start + total_delay (S j) ≤ fa_until e ∧ start + total_delay j ≤ clock
  end → start ≤ clock ≤ now → now ≤ start + Hour →
  ∃ e, Throttle_Fail throttle ip now !! ip = Some e ∧ Z.of_nat (S j) ≤ fa_count e ∧ fa_until e = fa_last e + login_delay (fa_count e) ∧ fa_last e = now ∧
       (j ≠ O → start + total_delay (S j) ≤ fa_until e).
Proof.
  intros He Hc Hh. unfold Throttle_Fail. rewrite lookup_insert_eq. eexists. split; [done|]. cbn [fa_count fa_until fa_last]. destruct j as [|j].
  - split; [|done]. destruct (throttle !! ip) as [e|]; cbn; [|lia]. specialize (He e eq_refl). destruct (_ <? _); cbn; lia.
  - destruct He as (e & -> & Hn & Hu & Hl & Hd & _). assert (Hspan : loginFailureSpan <? Sub now (fa_last e) = false).
    { apply Z.ltb_ge. unfold loginFailureSpan, Sub, int64_min, int64_max, Hour, Minute, Second in *. lia. }
    rewrite Hspan. split; [lia|]. split; [done|]. split; [done|]. intros _. unfold Add. pose proof (login_delay_mono (fa_count e) (fa_count e + 1) ltac:(lia)). lia.
Qed.
(** A guess by a stale login stays in the round; any other opens the next one. *)
Lemma rounds_guess ip m start clock f n j stale k r now sessions : rounds ip m start clock f n j stale → (size (in_flight ip f) ≤ m)%nat →
  clock ≤ now ≤ start + Hour → fr_pending f !! k = Some r → clientIP r = ip →
  ∃ j' stale', rounds ip m start now (mkFront (mkServer sessions (Throttle_Fail (sv_throttle (fr_server f)) ip now)) (delete k (fr_pending f)) (fr_next f)) (S n) j' stale'.
Proof.
  intros [Hfr Hst Hn Hl Hs He] Hm Hc Hk Hip. destruct (fail_entry (sv_throttle (fr_server f)) ip now start clock j He ltac:(lia) ltac:(lia)) as (e & Ee & Hcount & Hu & Hlast & Hlater).
  assert (Hfl : in_flight ip f !! k = Some r) by (by apply in_flight_lookup). destruct (decide (k ∈ stale)) as [Hin|Hin].
  - exists j, (stale ∖ {[k]}). destruct j as [|j]; [exfalso; assert (size stale ≠ 0)%nat; [|lia]; intros E; apply size_empty_inv in E; set_solver|].
    destruct He as (e0 & He0 & Hn0 & Hu0 & Hl0 & Hd0 & Hj0). split; rewrite ?in_flight_delete; cbn [fr_pending fr_next fr_server sv_throttle].
    + intros i x [_ Hx]%lookup_delete_Some. by eapply Hfr.
    + intros i [Hi Hne]%elem_of_difference. rewrite lookup_delete_ne; [by apply Hst|set_solver].
    + rewrite size_difference by set_solver. rewrite size_singleton. assert (size stale ≠ 0)%nat by (intros E; apply size_empty_inv in E; set_solver). lia.
    + intros i [x Hx] Hi. apply lookup_delete_Some in Hx as [Hne Hx]. transitivity clock; [|lia]. apply (Hl i); [by exists x|set_solver].
    + lia.
    + exists e. split; [done|]. split; [lia|]. split; [done|]. split; [lia|]. split; [by apply Hlater|lia].
  - exists (S j), (dom (delete k (in_flight ip f))). pose proof (Hl k ltac:(by exists r) Hin) as Hlate. split; rewrite ?in_flight_delete; cbn [fr_pending fr_next fr_server sv_throttle].
    + intros i x [_ Hx]%lookup_delete_Some. by eapply Hfr.
    + intros i Hi. by apply elem_of_dom in Hi.
    + rewrite size_dom, map_size_delete_Some by (by exists r). assert (size (in_flight ip f) ≠ 0)%nat by (intros E; apply map_size_empty_inv in E; by rewrite E, lookup_empty in Hfl). cbn [Nat.mul]. lia.
    + intros i Hx Hi. destruct Hi. by apply elem_of_dom.
    + lia.
    + exists e. split; [done|]. split; [lia|]. split; [done|]. split; [lia|]. rewrite (total_delay_S (S j)) by lia. pose proof (login_delay_mono (Z.of_nat (S j)) (fa_count e) ltac:(lia)). split; lia.
Qed.

Lemma guesses_from ip m start events : ∀ clock f n j stale, rounds ip m start clock f n j stale → hour_of ip m start clock f events → clock ≤ start + Hour → (n + (guesses ip f events).1 ≤ 13 * m)%nat.
Proof.
  induction events as [|ev events IH]; intros clock f n j stale Hr Hh Hc; cbn [guesses hour_of] in *.
  { rewrite Nat.add_0_r. by eapply rounds_bounded. }
  destruct Hh as (Hm & Hnow & Hwrong & Hh). destruct ev as [r now|k now token]; cbn [ev_now ev_request] in *.
  - pose proof (rounds_arrive _ _ _ _ _ _ _ _ r now Hr ltac:(lia)) as Hr'. assert (Hg : guess_from ip f (Arrive r now) (happen f (Arrive r now)).2 = false).
    { cbn [Trader.happen]. pose proof (ServeHTTP_no_guess (fr_server f) r now) as Hno. destruct (ServeHTTP (fr_server f) r now) as [server out]. cbn [snd] in *. unfold guess_from. cbn [ev_request].
      destruct out as [status code| | | | | | | | | |]; try done. destruct (decide (status = 401)) as [->|]; [by rewrite (Hno code eq_refl)|by repeat case_match]. }
    destruct (happen f (Arrive r now)) as [f' out]. cbn [fst snd] in *. specialize (IH now f' n j stale Hr' Hh ltac:(lia)). destruct (guesses ip f' events) as [c final]. cbn [fst] in *. by rewrite Hg.
  - cbn [Trader.happen] in *. destruct (fr_pending f !! k) as [r|] eqn:Hk; cbn [fst] in *.
    2:{ unfold guess_from. cbn [ev_request]. assert (Hr' : rounds ip m start now f n j stale) by (destruct Hr as [H1 H2 H3 H4 H5 H6]; split; [done|done|done|intros i Hi Hs; transitivity clock; [by apply (H4 i)|lia]|lia|];
          destruct j; [done|]; destruct H6 as (e & ? & ? & ? & ? & ? & ?); exists e; split_and!; try done; lia).
        specialize (IH now f n j stale Hr' Hh ltac:(lia)). by destruct (guesses ip f events). }
    unfold login_finish in *. unfold guess_from. cbn [ev_request]. rewrite Hk. destruct (rq_Password r) as [password|] eqn:Hp.
    2:{ cbn [fst] in *. specialize (IH now _ n j _ (rounds_drop _ _ _ _ _ _ _ _ k now (fr_server f) Hr ltac:(lia) eq_refl) Hh ltac:(lia)). by destruct (guesses ip _ events). }
    destruct (is_empty password || negb (Verify password)) eqn:Hv; cbn [fst] in *.
    + destruct (String.eqb_spec (clientIP r) ip) as [Hip|Hip].
      * rewrite Hip in *. destruct (rounds_guess _ _ _ _ _ _ _ _ k r now (sv_sessions (fr_server f)) Hr Hm ltac:(lia) Hk Hip) as (j' & stale' & Hr'). specialize (IH now _ (S n) j' stale' Hr' Hh ltac:(lia)).
        destruct (guesses ip _ events) as [c final]. cbn [fst] in *. change (String.eqb "INVALID_PASSWORD" "INVALID_PASSWORD") with true. cbn [andb]. lia.
      * specialize (IH now _ n j _ (rounds_drop _ _ _ _ _ _ _ _ k now (mkServer (sv_sessions (fr_server f)) (Throttle_Fail (sv_throttle (fr_server f)) (clientIP r) now)) Hr ltac:(lia) ltac:(unfold Throttle_Fail; cbn [sv_throttle]; by rewrite lookup_insert_ne)) Hh ltac:(lia)).
        destruct (guesses ip _ events) as [c final]. by rewrite andb_false_r.
    + assert (Hip : clientIP r ≠ ip) by (intros Hip; rewrite (Hwrong r password eq_refl Hip Hp) in Hv; by rewrite orb_true_r in Hv).
      assert (Hdrop : ∀ sessions, rounds ip m start now (mkFront (mkServer sessions (Throttle_Succeed (sv_throttle (fr_server f)) (clientIP r))) (delete k (fr_pending f)) (fr_next f)) n j (stale ∖ {[k]}))
        by (intros sessions; apply (rounds_drop _ _ _ clock); [done|lia|unfold Throttle_Succeed; cbn [sv_throttle]; by rewrite lookup_delete_ne]).
      destruct (Sessions_Create (sv_sessions (fr_server f)) token now) as [sessions [t|]]; cbn [fst] in *; specialize (IH now _ n j _ (Hdrop sessions) Hh ltac:(lia)); by destruct (guesses ip _ events).
Qed.

(** In every reachable state failure counts are positive and handlers distinct. *)
Lemma reached_counts ip events : ∀ f, (∀ ip e, sv_throttle (fr_server f) !! ip = Some e → 1 ≤ fa_count e) → (∀ k r, fr_pending f !! k = Some r → (k < fr_next f)%nat) →
  let f' := (guesses ip f events).2 in (∀ ip e, sv_throttle (fr_server f') !! ip = Some e → 1 ≤ fa_count e) ∧ (∀ k r, fr_pending f' !! k = Some r → (k < fr_next f')%nat).
Proof.
  induction events as [|ev events IH]; intros f Hc Hk; cbn [guesses]; [done|]. cbv zeta. assert (Hf : let f' := (happen f ev).1 in
    (∀ ip e, sv_throttle (fr_server f') !! ip = Some e → 1 ≤ fa_count e) ∧ (∀ k r, fr_pending f' !! k = Some r → (k < fr_next f')%nat)).
  { destruct ev as [r now|k now token]; cbn [Trader.happen].
    - pose proof (ServeHTTP_throttle (fr_server f) r now) as Ht. destruct (ServeHTTP (fr_server f) r now) as [server out]. cbn [fst] in *. destruct (is_admitted out); cbn [fst fr_server fr_pending fr_next]; rewrite Ht; (split; [done|]); [|done].
      intros i x [[<- <-]|[_ Hx]]%lookup_insert_Some; [lia|]. apply Hk in Hx. lia.
    - destruct (fr_pending f !! k) as [r|]; [|done]. assert (Hdel : ∀ i x, delete k (fr_pending f) !! i = Some x → (i < fr_next f)%nat) by (intros i x [_ Hx]%lookup_delete_Some; by eapply Hk).
      unfold login_finish. destruct (rq_Password r) as [password|]; [|done]. destruct (_ || _); cbn [fst fr_server fr_pending fr_next sv_throttle].
      + split; [|done]. intros i e. unfold Throttle_Fail. intros [[<- <-]|[_ Hl]]%lookup_insert_Some; [|by eapply Hc]. cbn [fa_count]. destruct (sv_throttle (fr_server f) !! clientIP r) as [e|] eqn:Hl; cbn; [|lia].
        specialize (Hc _ _ Hl). destruct (_ <? _); cbn; lia.
      + destruct (Sessions_Create _ token now) as [sessions [t|]]; cbn [fst fr_server fr_pending fr_next sv_throttle]; (split; [|done]); intros i e; unfold Throttle_Succeed; intros [_ Hl]%lookup_delete_Some; by eapply Hc. }
  cbv zeta in Hf. destruct (happen f ev) as [f' out]. cbn [fst] in Hf. destruct Hf as [Hc' Hk']. specialize (IH f' Hc' Hk'). cbv zeta in IH. by destruct (guesses ip f' events).
Qed.

(** C37: whatever requests came before, and however handlers interleave, at most [13 * m]
    wrong passwords from one address are evaluated within any hour in which no more
    than [m] of its logins are between the throttle's check and its record at once,
    and none of them has the right password (which clears the record). *)
Theorem guesses_per_hour ip m before window start :
  let f := (guesses ip start_front before).2 in
  hour_of ip m start start f window → ((guesses ip f window).1 ≤ 13 * m)%nat.
Proof.
  cbv zeta. intros Hh. destruct (reached_counts ip before start_front) as [Hc Hk].
  { intros i e. change (sv_throttle (fr_server start_front)) with (∅ : gmap string failure). by rewrite lookup_empty. }
  { intros k r. change (fr_pending start_front) with (∅ : gmap nat request). by rewrite lookup_empty. }
  cbv zeta in Hc, Hk. apply (guesses_from ip m start window start _ O O ∅); [|done|unfold Hour, Minute, Second; lia].
  split; [done|set_solver|rewrite size_empty; lia|intros; cbn [total_delay]; lia|lia|]. intros e He. by eapply Hc.
Qed.
End guessing.

(** ** Concrete inputs *)

Definition sample_verify (password : string) : bool := String.eqb password "secret".
Definition sample_host (source : string) : option string := Some (TrimPrefix source "https://").
Definition sample_split (address : string) : option string := Some address.
Definition sample_serve := ServeHTTP false sample_host sample_split.
Definition sample_happen := happen false sample_verify sample_host sample_split.

Definition post (elements : list string) (cookie password : option string) : request :=
  mkRequest "POST" elements elements "trader.local" "10.0.0.1" "https://trader.local" "" "1" cookie password.
Definition login_request : request := post ["api"; "auth"; "login"] None (Some "secret").
Definition order_request : request := post ["api"; "gw"; "v1"; "orders"] (Some "tok") None.
Definition wrong_request : request := post ["api"; "auth"; "login"] None (Some "guess").
Definition admitted : front := (sample_happen start_front (Arrive login_request Hour)).1.
Definition logged_in : front := (sample_happen admitted (Finish 0 (Hour + Second) (Some "tok"))).1.

Lemma gateway_guarded_witness :
  (sample_serve (fr_server logged_in) order_request (2 * Hour)).2 = Forwarded "/v1/orders" ∧
  sameOrigin sample_host order_request = true.
Proof.
  assert (Hout : (sample_serve (fr_server logged_in) order_request (2 * Hour)).2 = Forwarded "/v1/orders") by reflexivity.
  split; [exact Hout|].
  destruct (gateway_guarded false sample_host sample_split (fr_server logged_in) order_request (2 * Hour)
    (sample_serve (fr_server logged_in) order_request (2 * Hour)).1 (Forwarded "/v1/orders")) as (_ & Hcsrf & _);
    [reflexivity|exact I|].
  apply Hcsrf. reflexivity.
Defined.

Lemma gateway_authenticated_witness :
  ∃ issued_at, 0 ≤ 2 * Hour - issued_at ≤ sessionAbsolute.
Proof.
  destruct (gateway_authenticated false sample_verify sample_host sample_split
    (mkHistory logged_in {["tok" := (Hour + Second, "secret")]} (Hour + Second)) order_request (2 * Hour)
    (sample_serve (fr_server logged_in) order_request (2 * Hour)).1 (Forwarded "/v1/orders"))
    as (cookie & issued_at & password & _ & _ & _ & Hage); [|discriminate|reflexivity|exact I|].
  - eapply rtc_l.
    + apply (serve_one false sample_verify sample_host sample_split start_front ∅ zero_time (Arrive login_request Hour) admitted PasswordDue login_request); [discriminate|reflexivity|reflexivity].
    + apply rtc_once. apply (serve_one false sample_verify sample_host sample_split admitted ∅ Hour (Finish 0 (Hour + Second) (Some "tok")) logged_in (LoggedIn "tok") login_request); [discriminate|reflexivity|reflexivity].
  - exists issued_at. exact Hage.
Defined.

(** A guess every 10 seconds for a quarter of an hour, one at a time: 10 of the 90
    are evaluated.  Twenty requests at once: all are. *)
Definition one_at_a_time : list event :=
  flat_map (λ n, let now := Hour + Z.of_nat n * 10 * Second in Arrive wrong_request now :: map (λ k, Finish k now None) (seq 0 (S n))) (seq 0 90).
Definition all_at_once : list event := repeat (Arrive wrong_request Hour) 20 ++ map (λ k, Finish k (Hour + Second) None) (seq 0 20).
Example guess_counts :
  map (λ events, (guesses false sample_verify sample_host sample_split "10.0.0.1" start_front events).1) [one_at_a_time; all_at_once] = [10; 20]%nat.
Proof. vm_compute. reflexivity. Qed.

Lemma guesses_per_hour_witness :
  ((guesses false sample_verify sample_host sample_split "10.0.0.1" start_front (firstn 4 all_at_once ++ [Finish 2 (Hour + Second) None])).1 ≤ 13 * 4)%nat.
Proof.
  apply (guesses_per_hour false sample_verify sample_host sample_split "10.0.0.1" 4 [] (firstn 4 all_at_once ++ [Finish 2 (Hour + Second) None]) Hour).
  assert (Hw : ∀ r password, r = wrong_request → clientIP sample_split r = "10.0.0.1" → rq_Password r = Some password → sample_verify password = false) by (intros r password -> _ E; injection E as <-; reflexivity).
  cbn [firstn all_at_once repeat app hour_of]. repeat split; try (vm_compute; lia); try (vm_compute; discriminate); try (intros r password E; apply Hw; vm_compute in E; injection E as <-; reflexivity).
Defined.
