(* ===== verification/Derivative.v ===== *)
(** * Derivative facts

    [exchange/market_data.go]: funding, mark, index and open-interest facts, each
    group with its own observation clock, and the partial patches that update
    them.  [exchange/internal/factoryclient/native_derivative.go] and
    [funding_market_feed.go]: the native patches of a venue and their projection
    onto canonical instruments.  The resolver of canonical instruments is a
    parameter. *)

From Stdlib Require Import Ascii String ZArith Lia Permutation.
From stdpp Require Import base list sets strings gmap.
From S2P Require Import Prelude GoStrings Decimals Errors Model InstrumentCatalog.

#[local] Open Scope string_scope.
#[local] Open Scope list_scope.
#[local] Open Scope Z_scope.
#[local] Open Scope go_scope.

(** ** Capabilities *)

Definition DatasetMark := "mark".
Definition DatasetIndex := "index".
Definition DatasetFunding := "funding".
Definition DatasetOpenInterest := "open_interest".
Definition knownMarketDataset (dataset : string) : bool :=
  one_of dataset ["catalog"; "bbo"; "depth"; "candle"; DatasetMark; DatasetIndex; DatasetFunding; DatasetOpenInterest].

Definition TransportWebSocket := "websocket".
Definition TransportREST := "rest".

Record MarketCapability := mkCapability {
  cp_Venue : string; cp_NativeMarketFamily : string; cp_Dataset : string; cp_Transport : string;
  cp_Granularity : string; cp_NominalCadence : duration; cp_MaxTopicsPerConnection : Z;
}.

Definition Capability_Validate (capability : MarketCapability) : result error unit :=
  check negb (negb (knownVenue (cp_Venue capability)) || blank (cp_NativeMarketFamily capability) ||
              negb (knownMarketDataset (cp_Dataset capability)))
    else EText "market capability identity is invalid" ;;
  check one_of (cp_Transport capability) [TransportWebSocket; TransportREST]
    else EText "market capability transport is invalid" ;;
  check one_of (cp_Granularity capability) ["all_market"; "multi_symbol"; "single_instrument"; "poll_only"; "unsupported"]
    else EText "market capability granularity is invalid" ;;
  check negb ((cp_NominalCadence capability <? 0) || (cp_MaxTopicsPerConnection capability <? 0))
    else EText "market capability limits are invalid" ;;
  Ok tt.

(** [derivativeRuntimeStrategy]: whether to stream, and the poll interval. *)
Definition capability_step (acc : bool * duration) (capability : MarketCapability) : bool * duration :=
  let '(streaming, interval) := acc in
  let cadence := cp_NominalCadence capability in
  (streaming || String.eqb (cp_Transport capability) TransportWebSocket,
   if String.eqb (cp_Transport capability) TransportREST && (0 <? cadence) && ((interval =? 0) || (cadence <? interval))
   then cadence else interval).
Definition derivativeRuntimeStrategy (capabilities : list MarketCapability) : bool * duration :=
  let '(streaming, interval) := foldl capability_step (false, 0) capabilities in
  (streaming, if interval <=? 0 then 30 * Second else interval).

(** ** Field masks *)

Definition DerivativeFieldIdentity : Z := 1.
Definition DerivativeFieldFunding : Z := 2.
Definition DerivativeFieldFundingInterval : Z := 4.
Definition DerivativeFieldNextFundingTime : Z := 8.
Definition DerivativeFieldMark : Z := 16.
Definition DerivativeFieldIndex : Z := 32.
Definition DerivativeFieldOpenInterest : Z := 64.
Definition DerivativeFieldOpenInterestNotional : Z := 128.
Definition DerivativeFieldAll : Z := 255.
Definition Has (fields field : Z) : bool := Z.land fields field =? field.
Definition funding_mask : Z :=
  Z.lor (Z.lor DerivativeFieldFunding DerivativeFieldFundingInterval) DerivativeFieldNextFundingTime.

(** ** Facts *)

Record DerivativeFact (D : Type) := mkFact {
  df_InstrumentID : string;
  df_RouteProfileID : string;
  df_Instrument : InstrumentIdentity;
  df_Environment : string;
  df_FundingRate : OptionalDecimal D;
  df_FundingIntervalHours : OptionalInt;
  df_NextFundingTime : time;
  df_MarkPrice : OptionalDecimal D;
  df_IndexPrice : OptionalDecimal D;
  df_OpenInterest : OptionalDecimal D;
  df_OpenInterestNotional : OptionalDecimal D;
  df_OpenInterestNotionalAsset : string;
  df_FundingObservedAt : time;
  df_MarkObservedAt : time;
  df_IndexObservedAt : time;
  df_OpenInterestObservedAt : time;
}.
Arguments mkFact {D}.
Arguments df_InstrumentID {D} _.
Arguments df_RouteProfileID {D} _.
Arguments df_Instrument {D} _.
Arguments df_Environment {D} _.
Arguments df_FundingRate {D} _.
Arguments df_FundingIntervalHours {D} _.
Arguments df_NextFundingTime {D} _.
Arguments df_MarkPrice {D} _.
Arguments df_IndexPrice {D} _.
Arguments df_OpenInterest {D} _.
Arguments df_OpenInterestNotional {D} _.
Arguments df_OpenInterestNotionalAsset {D} _.
Arguments df_FundingObservedAt {D} _.
Arguments df_MarkObservedAt {D} _.
Arguments df_IndexObservedAt {D} _.
Arguments df_OpenInterestObservedAt {D} _.

Record DerivativePatch (D : Type) := mkPatch {
  dp_Kind : string; dp_Scope : CatalogScope; dp_NativeFamily : string; dp_Generation : Z;
  dp_ObservedAt : time; dp_SourceSequence : string; dp_Fields : Z; dp_Facts : list (DerivativeFact D);
}.
Arguments mkPatch {D}.
Arguments dp_Kind {D} _.
Arguments dp_Scope {D} _.
Arguments dp_NativeFamily {D} _.
Arguments dp_Generation {D} _.
Arguments dp_ObservedAt {D} _.
Arguments dp_SourceSequence {D} _.
Arguments dp_Fields {D} _.
Arguments dp_Facts {D} _.

Definition observationCurrent (current incoming : time) : bool :=
  negb (IsZero incoming) && (IsZero current || negb (Before incoming current)).

Definition freshAt (now observedAt : time) (maxAge : duration) : bool :=
  let age := Sub now observedAt in
  (0 <? maxAge) && negb (IsZero observedAt) && (0 <=? age) && (age <=? maxAge).

Record FieldFreshness := mkFreshness { ff_Funding : bool; ff_Mark : bool; ff_Index : bool; ff_OpenInterest : bool }.

Section facts.
Context {D : Type}.
Implicit Types (fact current patch : DerivativeFact D).

(** [DerivativeFact.Validate] *)
Definition Fact_Validate fact : result error unit :=
  check negb (blank (df_InstrumentID fact) || blank (df_RouteProfileID fact) ||
              negb (String.eqb (df_Environment fact) EnvironmentLive))
    else EText "derivative fact identity is invalid" ;;
  let identity := df_Instrument fact in
  check negb (negb (String.eqb (id_Product identity) ProductPerp) || negb (knownVenue (id_Venue identity)) ||
              blank (id_NativeSymbol identity))
    else EText "derivative fact instrument is invalid" ;;
  let fundingPresent := od_Valid (df_FundingRate fact) || oi_Valid (df_FundingIntervalHours fact) ||
                        negb (IsZero (df_NextFundingTime fact)) in
  check eqb fundingPresent (negb (IsZero (df_FundingObservedAt fact)))
    else EText "derivative funding value and clock disagree" ;;
  check eqb (od_Valid (df_MarkPrice fact)) (negb (IsZero (df_MarkObservedAt fact)))
    else EText "derivative mark value and clock disagree" ;;
  check eqb (od_Valid (df_IndexPrice fact)) (negb (IsZero (df_IndexObservedAt fact)))
    else EText "derivative index value and clock disagree" ;;
  check eqb (od_Valid (df_OpenInterest fact) || od_Valid (df_OpenInterestNotional fact))
            (negb (IsZero (df_OpenInterestObservedAt fact)))
    else EText "derivative open-interest value and clock disagree" ;;
  check negb (od_Valid (df_OpenInterestNotional fact) && blank (df_OpenInterestNotionalAsset fact))
    else EText "derivative open-interest notional asset is missing" ;;
  Ok tt.

(** The assignments of [ApplyDerivativePatch], in order. *)
Definition apply_identity current patch fields : DerivativeFact D :=
  if Has fields DerivativeFieldIdentity then
    mkFact (df_InstrumentID patch) (df_RouteProfileID patch) (df_Instrument patch) (df_Environment patch)
      (df_FundingRate current) (df_FundingIntervalHours current) (df_NextFundingTime current) (df_MarkPrice current)
      (df_IndexPrice current) (df_OpenInterest current) (df_OpenInterestNotional current)
      (df_OpenInterestNotionalAsset current) (df_FundingObservedAt current) (df_MarkObservedAt current)
      (df_IndexObservedAt current) (df_OpenInterestObservedAt current)
  else current.
Definition apply_funding current patch fields : DerivativeFact D :=
  if negb (Z.land fields funding_mask =? 0) &&
     observationCurrent (df_FundingObservedAt current) (df_FundingObservedAt patch) then
    mkFact (df_InstrumentID current) (df_RouteProfileID current) (df_Instrument current) (df_Environment current)
      (if Has fields DerivativeFieldFunding then df_FundingRate patch else df_FundingRate current)
      (if Has fields DerivativeFieldFundingInterval then df_FundingIntervalHours patch else df_FundingIntervalHours current)
      (if Has fields DerivativeFieldNextFundingTime then df_NextFundingTime patch else df_NextFundingTime current)
      (df_MarkPrice current) (df_IndexPrice current) (df_OpenInterest current) (df_OpenInterestNotional current)
      (df_OpenInterestNotionalAsset current) (df_FundingObservedAt patch) (df_MarkObservedAt current)
      (df_IndexObservedAt current) (df_OpenInterestObservedAt current)
  else current.
Definition apply_mark current patch fields : DerivativeFact D :=
  if Has fields DerivativeFieldMark && observationCurrent (df_MarkObservedAt current) (df_MarkObservedAt patch) then
    mkFact (df_InstrumentID current) (df_RouteProfileID current) (df_Instrument current) (df_Environment current)
      (df_FundingRate current) (df_FundingIntervalHours current) (df_NextFundingTime current) (df_MarkPrice patch)
      (df_IndexPrice current) (df_OpenInterest current) (df_OpenInterestNotional current)
      (df_OpenInterestNotionalAsset current) (df_FundingObservedAt current) (df_MarkObservedAt patch)
      (df_IndexObservedAt current) (df_OpenInterestObservedAt current)
  else current.
Definition apply_index current patch fields : DerivativeFact D :=
  if Has fields DerivativeFieldIndex && observationCurrent (df_IndexObservedAt current) (df_IndexObservedAt patch) then
    mkFact (df_InstrumentID current) (df_RouteProfileID current) (df_Instrument current) (df_Environment current)
      (df_FundingRate current) (df_FundingIntervalHours current) (df_NextFundingTime current) (df_MarkPrice current)
      (df_IndexPrice patch) (df_OpenInterest current) (df_OpenInterestNotional current)
      (df_OpenInterestNotionalAsset current) (df_FundingObservedAt current) (df_MarkObservedAt current)
      (df_IndexObservedAt patch) (df_OpenInterestObservedAt current)
  else current.
Definition apply_open_interest current patch fields : DerivativeFact D :=
  if Has fields DerivativeFieldOpenInterest &&
     observationCurrent (df_OpenInterestObservedAt current) (df_OpenInterestObservedAt patch) then
    mkFact (df_InstrumentID current) (df_RouteProfileID current) (df_Instrument current) (df_Environment current)
      (df_FundingRate current) (df_FundingIntervalHours current) (df_NextFundingTime current) (df_MarkPrice current)
      (df_IndexPrice current) (df_OpenInterest patch) (df_OpenInterestNotional current)
      (df_OpenInterestNotionalAsset current) (df_FundingObservedAt current) (df_MarkObservedAt current)
      (df_IndexObservedAt current) (df_OpenInterestObservedAt patch)
  else current.
Definition apply_notional current patch fields : DerivativeFact D :=
  if Has fields DerivativeFieldOpenInterestNotional &&
     observationCurrent (df_OpenInterestObservedAt current) (df_OpenInterestObservedAt patch) then
    mkFact (df_InstrumentID current) (df_RouteProfileID current) (df_Instrument current) (df_Environment current)
      (df_FundingRate current) (df_FundingIntervalHours current) (df_NextFundingTime current) (df_MarkPrice current)
      (df_IndexPrice current) (df_OpenInterest current) (df_OpenInterestNotional patch)
      (df_OpenInterestNotionalAsset patch) (df_FundingObservedAt current) (df_MarkObservedAt current)
      (df_IndexObservedAt current) (df_OpenInterestObservedAt patch)
  else current.

Definition ApplyDerivativePatch current patch (fields : Z) : DerivativeFact D :=
  let current := apply_identity current patch fields in
  let current := apply_funding current patch fields in
  let current := apply_mark current patch fields in
  let current := apply_index current patch fields in
  let current := apply_open_interest current patch fields in
  apply_notional current patch fields.

Definition Freshness fact (now : time) (maxAge : string → duration) : FieldFreshness :=
  mkFreshness
    (od_Valid (df_FundingRate fact) && freshAt now (df_FundingObservedAt fact) (maxAge DatasetFunding))
    (od_Valid (df_MarkPrice fact) && freshAt now (df_MarkObservedAt fact) (maxAge DatasetMark))
    (od_Valid (df_IndexPrice fact) && freshAt now (df_IndexObservedAt fact) (maxAge DatasetIndex))
    ((od_Valid (df_OpenInterest fact) || od_Valid (df_OpenInterestNotional fact)) &&
     freshAt now (df_OpenInterestObservedAt fact) (maxAge DatasetOpenInterest)).

(** [DerivativePatch.Validate] *)
Fixpoint validate_facts (scope : CatalogScope) (seen : list string) (facts : list (DerivativeFact D)) : result error unit :=
  match facts with
  | [] => Ok tt
  | fact :: rest =>
      check negb (blank (df_InstrumentID fact) || blank (df_RouteProfileID fact) ||
                  negb (String.eqb (df_Environment fact) (cs_Environment scope)) ||
                  negb (String.eqb (id_Venue (df_Instrument fact)) (cs_Venue scope)) ||
                  negb (String.eqb (id_Product (df_Instrument fact)) ProductPerp) ||
                  blank (id_NativeSymbol (df_Instrument fact)))
        else EText "derivative patch fact identity is invalid" ;;
      check negb (negb (is_empty (cs_Settlement scope)) && negb (is_empty (id_SettleAsset (df_Instrument fact))) &&
                  negb (String.eqb (id_SettleAsset (df_Instrument fact)) (cs_Settlement scope)))
        else EText "derivative patch fact settlement is invalid" ;;
      check negb (one_of (df_InstrumentID fact) seen)
        else EText "derivative patch contains a duplicate instrument" ;;
      check negb (od_Valid (df_OpenInterestNotional fact) && blank (df_OpenInterestNotionalAsset fact))
        else EText "derivative patch OI notional asset is missing" ;;
      validate_facts scope (df_InstrumentID fact :: seen) rest
  end.

Definition Patch_Validate (patch : DerivativePatch D) : result error unit :=
  check one_of (dp_Kind patch) [EventSnapshot; EventDelta] else EText "derivative patch kind is invalid" ;;
  let scope := dp_Scope patch in
  check negb (negb (knownVenue (cs_Venue scope)) || negb (String.eqb (cs_Environment scope) EnvironmentLive) ||
              (dp_Generation patch =? 0) || negb (String.eqb (cs_Product scope) ProductPerp) ||
              blank (dp_NativeFamily patch) || IsZero (dp_ObservedAt patch))
    else EText "derivative patch scope is invalid" ;;
  check negb ((dp_Fields patch =? 0) || negb (Z.ldiff (dp_Fields patch) DerivativeFieldAll =? 0))
    else EText "derivative patch field mask is invalid" ;;
  check negb (String.eqb (dp_Kind patch) EventSnapshot && negb (Has (dp_Fields patch) DerivativeFieldIdentity))
    else EText "derivative snapshot is missing identity fields" ;;
  validate_facts scope [] (dp_Facts patch).
End facts.

(** ** Patches converge *)

Section converge.
Context {D : Type}.
Implicit Types (fact current patch : DerivativeFact D).

(** A value with its observation clock, and the update rule. *)
Definition newer {A} (current incoming : A * time) : A * time :=
  if observationCurrent current.2 incoming.2 then incoming else current.

Lemma newer_comm {A} (c a b : A * time) :
  a.2 ≠ b.2 ∨ a.2 = zero_time → newer (newer c a) b = newer (newer c b) a.
Proof.
  destruct c as [vc tc], a as [va ta], b as [vb tb].
  unfold newer, observationCurrent, IsZero, Before, zero_time. simpl. intros Hab.
  destruct (ta =? 0) eqn:E1, (tb =? 0) eqn:E2, (tc =? 0) eqn:E3, (ta <? tc) eqn:E4, (tb <? tc) eqn:E5,
    (tb <? ta) eqn:E6, (ta <? tb) eqn:E7;
    repeat (simpl; rewrite ?E1, ?E2, ?E3, ?E4, ?E5, ?E6, ?E7); try done; breflect; lia.
Qed.

(** The incoming observation is never newer than the kept one. *)
Lemma newer_latest {A} (c a : A * time) :
  (a.2 ≠ zero_time → a.2 ≤ (newer c a).2 ∧ (newer c a).2 ≠ zero_time) ∧
  (c.2 ≠ zero_time → c.2 ≤ (newer c a).2 ∧ (newer c a).2 ≠ zero_time).
Proof.
  destruct c as [vc tc], a as [va ta]. unfold newer, observationCurrent, IsZero, Before, zero_time. simpl.
  destruct (Z.eqb_spec ta 0), (Z.eqb_spec tc 0), (Z.ltb_spec ta tc); simpl; lia.
Qed.

(** The four groups of a fact: what is known and since when. *)
Inductive group := GFunding | GMark | GIndex | GOpenInterest.
Definition group_value : Type := list (OptionalDecimal D) * OptionalInt * time * string.
Definition no_interval : OptionalInt := mkOptInt 0 false.
Definition observed (g : group) fact : group_value * time :=
  match g with
  | GFunding => (([df_FundingRate fact], df_FundingIntervalHours fact, df_NextFundingTime fact, ""), df_FundingObservedAt fact)
  | GMark => (([df_MarkPrice fact], no_interval, zero_time, ""), df_MarkObservedAt fact)
  | GIndex => (([df_IndexPrice fact], no_interval, zero_time, ""), df_IndexObservedAt fact)
  | GOpenInterest =>
      (([df_OpenInterest fact; df_OpenInterestNotional fact], no_interval, zero_time, df_OpenInterestNotionalAsset fact),
       df_OpenInterestObservedAt fact)
  end.
Definition carries (g : group) (fields : Z) : bool :=
  match g with
  | GFunding => negb (Z.land fields funding_mask =? 0)
  | GMark => Has fields DerivativeFieldMark
  | GIndex => Has fields DerivativeFieldIndex
  | GOpenInterest => Has fields DerivativeFieldOpenInterest
  end.
(** A mask that carries each group whole or not at all. *)
Definition whole (fields : Z) : bool :=
  ((Z.land fields funding_mask =? 0) ||
   (Has fields DerivativeFieldFunding && Has fields DerivativeFieldFundingInterval &&
    Has fields DerivativeFieldNextFundingTime)) &&
  eqb (Has fields DerivativeFieldOpenInterest) (Has fields DerivativeFieldOpenInterestNotional).

Lemma observationCurrent_refl t : t ≠ zero_time → observationCurrent t t = true.
Proof.
  intros Ht. unfold observationCurrent, IsZero, Before, zero_time in *.
  rewrite (proj2 (Z.eqb_neq t 0)) by done. simpl. by rewrite Z.ltb_irrefl.
Qed.
Lemma observationCurrent_nonzero c t : observationCurrent c t = true → t ≠ zero_time.
Proof. unfold observationCurrent, IsZero. rewrite andb_true_iff, negb_true_iff, Z.eqb_neq. by intros [? _]. Qed.

Lemma observed_identity g current patch fields : observed g (apply_identity current patch fields) = observed g current.
Proof. unfold apply_identity. destruct (Has fields _); [|done]. by destruct g. Qed.
Lemma observed_funding g current patch fields :
  (Z.land fields funding_mask =? 0) ||
    (Has fields DerivativeFieldFunding && Has fields DerivativeFieldFundingInterval &&
     Has fields DerivativeFieldNextFundingTime) = true →
  observed g (apply_funding current patch fields) =
    match g with
    | GFunding => if carries GFunding fields then newer (observed g current) (observed g patch) else observed g current
    | _ => observed g current
    end.
Proof.
  intros Hf. unfold apply_funding. cbn [carries]. destruct (Z.land fields funding_mask =? 0); cbn [negb andb orb] in *.
  - by destruct g.
  - rewrite !andb_true_iff in Hf. destruct Hf as [[-> ->] ->]. unfold newer.
    destruct (observationCurrent _ _) eqn:Ho; destruct g; cbn [observed snd] in *; rewrite ?Ho; done.
Qed.
Lemma observed_mark g current patch fields :
  observed g (apply_mark current patch fields) =
    match g with
    | GMark => if carries GMark fields then newer (observed g current) (observed g patch) else observed g current
    | _ => observed g current
    end.
Proof.
  unfold apply_mark, newer. cbn [carries]. destruct (Has fields DerivativeFieldMark); cbn [andb]; [|by destruct g].
  destruct (observationCurrent _ _) eqn:Ho; destruct g; cbn [observed snd] in *; rewrite ?Ho; done.
Qed.
Lemma observed_index g current patch fields :
  observed g (apply_index current patch fields) =
    match g with
    | GIndex => if carries GIndex fields then newer (observed g current) (observed g patch) else observed g current
    | _ => observed g current
    end.
Proof.
  unfold apply_index, newer. cbn [carries]. destruct (Has fields DerivativeFieldIndex); cbn [andb]; [|by destruct g].
  destruct (observationCurrent _ _) eqn:Ho; destruct g; cbn [observed snd] in *; rewrite ?Ho; done.
Qed.
Lemma observed_open_interest g current patch fields :
  Has fields DerivativeFieldOpenInterest = Has fields DerivativeFieldOpenInterestNotional →
  observed g (apply_notional (apply_open_interest current patch fields) patch fields) =
    match g with
    | GOpenInterest => if carries GOpenInterest fields then newer (observed g current) (observed g patch) else observed g current
    | _ => observed g current
    end.
Proof.
  intros Hoi. unfold apply_notional, apply_open_interest, newer. rewrite <- Hoi. cbn [carries].
  destruct (Has fields DerivativeFieldOpenInterest); cbn [andb]; [|by destruct g].
  destruct (observationCurrent (df_OpenInterestObservedAt current) _) eqn:Ho.
  - cbn [df_OpenInterestObservedAt]. rewrite observationCurrent_refl by (by eapply observationCurrent_nonzero).
    destruct g; cbn [observed snd]; rewrite ?Ho; done.
  - rewrite Ho. destruct g; cbn [observed snd]; rewrite ?Ho; done.
Qed.

(** Applying a patch updates each group it carries by its own clock, and no
    other. *)
Lemma observed_apply g current patch fields :
  whole fields = true →
  observed g (ApplyDerivativePatch current patch fields) =
    if carries g fields then newer (observed g current) (observed g patch) else observed g current.
Proof.
  unfold whole. rewrite andb_true_iff, eqb_true_iff. intros [Hfund Hoi]. unfold ApplyDerivativePatch.
  rewrite observed_open_interest by done.
  destruct g; rewrite ?observed_index, ?observed_mark, ?observed_funding, ?observed_identity by done; done.
Qed.

(** ** Order independence *)

Definition update : Type := DerivativeFact D * Z.
Definition apply_update current (u : update) : DerivativeFact D := ApplyDerivativePatch current u.1 u.2.

(** No two updates carry the same group with the same clock. *)
Definition distinct_clocks (u v : update) : Prop :=
  ∀ g, carries g u.2 = true → carries g v.2 = true →
    (observed g u.1).2 ≠ (observed g v.1).2 ∨ (observed g u.1).2 = zero_time.

Definition update_group (g : group) (value : group_value * time) (u : update) : group_value * time :=
  if carries g u.2 then newer value (observed g u.1) else value.

Lemma observed_updates g updates current :
  Forall (λ u, whole u.2 = true) updates →
  observed g (foldl apply_update current updates) = foldl (update_group g) (observed g current) updates.
Proof.
  intros Hw. revert current. induction Hw as [|u l Hu _ IH]; intros current; simpl; [done|].
  rewrite IH. unfold apply_update. by rewrite observed_apply.
Qed.

Lemma update_group_latest g updates value :
  (value.2 ≠ zero_time → value.2 ≤ (foldl (update_group g) value updates).2 ∧
                         (foldl (update_group g) value updates).2 ≠ zero_time) ∧
  ∀ u, u ∈ updates → carries g u.2 = true → (observed g u.1).2 ≠ zero_time →
    (observed g u.1).2 ≤ (foldl (update_group g) value updates).2.
Proof.
  revert value. induction updates as [|v l IH]; intros value; simpl; [split; [done|set_solver]|].
  destruct (IH (update_group g value v)) as [Hkeep Hall].
  assert (Hn : update_group g value v = if carries g v.2 then newer value (observed g v.1) else value) by done.
  destruct (newer_latest value (observed g v.1)) as [Hv Hvalue]. split.
  - intros Hz. assert (Hle : value.2 ≤ (update_group g value v).2 ∧ (update_group g value v).2 ≠ zero_time).
    { rewrite Hn. destruct (carries g v.2); [by apply Hvalue|]. split; [lia|done]. }
    destruct Hle as [Hle Hnz]. destruct (Hkeep Hnz). split; [lia|done].
  - intros u [->|Hu]%elem_of_cons Hc Hz; [|by apply Hall]. rewrite Hc in Hn. rewrite <- Hn in Hv.
    destruct (Hv Hz) as [Hle Hnz]. destruct (Hkeep Hnz). lia.
Qed.

(** Updates converge: whatever order whole-group patches with distinct clocks
    arrive in, every group of the resulting fact is the same, and nothing that
    was observed later than what it shows was lost. *)
Theorem derivative_updates_converge current updates updates' g :
  Forall (λ u, whole u.2 = true) updates → ForallOrdPairs distinct_clocks updates → updates ≡ₚ updates' →
  observed g (foldl apply_update current updates') = observed g (foldl apply_update current updates) ∧
  ∀ u, u ∈ updates → carries g u.2 = true → (observed g u.1).2 ≠ zero_time →
    (observed g u.1).2 ≤ (observed g (foldl apply_update current updates')).2.
Proof.
  intros Hw Hd Hp. rewrite !observed_updates by (done || by rewrite <- Hp).
  assert (Heq : foldl (update_group g) (observed g current) updates = foldl (update_group g) (observed g current) updates').
  { apply (foldl_perm (update_group g) distinct_clocks); [| |done|done].
    - intros u v Huv g' Hv Hu. destruct (Huv g' Hu Hv) as [Hne|Hz]; [left; congruence|].
      destruct (decide ((observed g' v.1).2 = zero_time)); [by right|left; congruence].
    - intros b u v Huv. unfold update_group. destruct (carries g u.2) eqn:Hu, (carries g v.2) eqn:Hv; try done.
      apply newer_comm. by apply Huv. }
  rewrite <- Heq. split; [done|]. apply update_group_latest.
Qed.

(** ** Values and clocks agree *)

Definition identity_of fact : string * string * InstrumentIdentity * string :=
  (df_InstrumentID fact, df_RouteProfileID fact, df_Instrument fact, df_Environment fact).
Definition identity_ok (identity : string * string * InstrumentIdentity * string) : Prop :=
  let '(id, profile, instrument, environment) := identity in
  blank id = false ∧ blank profile = false ∧ environment = EnvironmentLive ∧
  id_Product instrument = ProductPerp ∧ knownVenue (id_Venue instrument) = true ∧ blank (id_NativeSymbol instrument) = false.
(** Something is known exactly when it was observed, and a notional names its
    asset. *)
Definition group_ok (v : group_value * time) : Prop :=
  let '(values, interval, next, asset, observedAt) := v in
  (existsb (λ d, od_Valid d) values || oi_Valid interval || negb (IsZero next)) = negb (IsZero observedAt) ∧
  match values with [_; notional] => od_Valid notional && blank asset = false | _ => True end.

Lemma Fact_Validate_iff fact :
  Fact_Validate fact = Ok tt ↔ identity_ok (identity_of fact) ∧ ∀ g, group_ok (observed g fact).
Proof.
  unfold Fact_Validate. rewrite !check_Ok, !negb_true_iff, !eqb_true_iff, !orb_false_iff, !negb_false_iff, !String.eqb_eq.
  unfold identity_ok, identity_of. split.
  - intros ([[? ?] ?] & [[? ?] ?] & Hf & Hm & Hi & Ho & Ha & _). split; [done|].
    intros []; simpl; rewrite !orb_false_r; done.
  - intros [(? & ? & ? & ? & ? & ?) Hg].
    pose proof (Hg GFunding) as Hf. pose proof (Hg GMark) as Hm. pose proof (Hg GIndex) as Hi.
    pose proof (Hg GOpenInterest) as Ho. simpl in Hf, Hm, Hi, Ho.
    rewrite !orb_false_r in Hf. rewrite !orb_false_r in Hm. rewrite !orb_false_r in Hi. rewrite !orb_false_r in Ho.
    destruct Hf, Hm, Hi, Ho. split_and!; done.
Qed.

Lemma identity_apply current patch fields :
  identity_of (ApplyDerivativePatch current patch fields) =
    if Has fields DerivativeFieldIdentity then identity_of patch else identity_of current.
Proof.
  unfold ApplyDerivativePatch.
  assert (Hn : ∀ c, identity_of (apply_notional c patch fields) = identity_of c)
    by (intros c; unfold apply_notional; by destruct (_ && _)).
  assert (Ho : ∀ c, identity_of (apply_open_interest c patch fields) = identity_of c)
    by (intros c; unfold apply_open_interest; by destruct (_ && _)).
  assert (Hi : ∀ c, identity_of (apply_index c patch fields) = identity_of c)
    by (intros c; unfold apply_index; by destruct (_ && _)).
  assert (Hm : ∀ c, identity_of (apply_mark c patch fields) = identity_of c)
    by (intros c; unfold apply_mark; by destruct (_ && _)).
  assert (Hf : ∀ c, identity_of (apply_funding c patch fields) = identity_of c)
    by (intros c; unfold apply_funding; by destruct (_ && _)).
  rewrite Hn, Ho, Hi, Hm, Hf. unfold apply_identity. by destruct (Has fields _).
Qed.

(** A valid fact stays valid under every valid whole-group patch: no value
    ever appears without its clock, or a clock without a value. *)
Theorem ApplyDerivativePatch_valid current patch fields :
  Fact_Validate current = Ok tt → Fact_Validate patch = Ok tt → whole fields = true →
  Fact_Validate (ApplyDerivativePatch current patch fields) = Ok tt.
Proof.
  rewrite !Fact_Validate_iff. intros [Hci Hcg] [Hpi Hpg] Hw. split.
  - rewrite identity_apply. by destruct (Has fields _).
  - intros g. rewrite observed_apply by done. destruct (carries g fields); [|done].
    unfold newer. by destruct (observationCurrent _ _).
Qed.

(** Freshness is age: a group counts as fresh exactly when it was observed no
    later than now and no longer ago than allowed. *)
Lemma freshAt_iff now observedAt maxAge :
  0 < maxAge < int64_max → observedAt ≠ zero_time →
  freshAt now observedAt maxAge = true ↔ now - maxAge ≤ observedAt ≤ now.
Proof.
  intros Hm Hz. unfold freshAt, IsZero, Sub, int64_min, int64_max, zero_time in *.
  rewrite !andb_true_iff, negb_true_iff, Z.ltb_lt, Z.eqb_neq, !Z.leb_le. lia.
Qed.
End converge.

(** ** Concrete inputs *)

Definition some_price (v : Z) : OptionalDecimal Z := mkOptDec v true.
Definition no_price : OptionalDecimal Z := mkOptDec 0 false.
Definition sample_identity : InstrumentIdentity := in_Identity (sample_perp VenueBinance "BTC" "USDT").
(** Mark price [mark] observed at [t], nothing else known. *)
Definition mark_fact (mark : Z) (t : time) : DerivativeFact Z :=
  mkFact "binance:perp:BTC-USDT" "binance-perp-usdt" sample_identity EnvironmentLive no_price (mkOptInt 0 false) zero_time
    (some_price mark) no_price no_price no_price "" zero_time t zero_time zero_time.
Definition mark_updates : list (DerivativeFact Z * Z) :=
  [(mark_fact 100 5, DerivativeFieldMark); (mark_fact 102 9, DerivativeFieldMark); (mark_fact 101 7, DerivativeFieldMark)].

Example mark_updates_latest :
  df_MarkPrice (foldl apply_update (mark_fact 99 1) mark_updates) = some_price 102.
Proof. vm_compute. reflexivity. Qed.

Lemma derivative_updates_converge_witness :
  observed GMark (foldl apply_update (mark_fact 99 1) (rev mark_updates)) =
  observed GMark (foldl apply_update (mark_fact 99 1) mark_updates).
Proof.
  apply (derivative_updates_converge (mark_fact 99 1) mark_updates (rev mark_updates) GMark).
  - repeat constructor.
  - repeat match goal with
    | |- ForallOrdPairs _ _ => constructor
    | |- Forall _ _ => constructor
    end; intros g; destruct g; simpl; intros; try discriminate; left; discriminate.
  - apply Permutation_rev.
Defined.

Lemma ApplyDerivativePatch_valid_witness :
  Fact_Validate (ApplyDerivativePatch (mark_fact 100 5) (mark_fact 102 9) DerivativeFieldAll) = Ok tt.
Proof. apply (ApplyDerivativePatch_valid (mark_fact 100 5) (mark_fact 102 9)); vm_compute; reflexivity. Defined.
