(* ===== verification/DerivativeFeed.v ===== *)
(** * Derivative feeds

    [exchange/internal/factoryclient/native_derivative.go] and
    [funding_market_feed.go]: a venue's snapshot as a native patch, the native
    feed that numbers and validates patches, and the projection of native facts
    onto canonical instruments through a cache of the resolver's answers. *)

From Stdlib Require Import Ascii String ZArith Lia.
From stdpp Require Import base list sets strings gmap.
From S2P Require Import Prelude GoStrings Decimals Errors Model InstrumentCatalog Derivative.

#[local] Open Scope string_scope.
#[local] Open Scope list_scope.
#[local] Open Scope Z_scope.
#[local] Open Scope go_scope.

(** ** Native data *)

Record DerivativeSnapshotEntry (D : Type) := mkEntry {
  se_Symbol : string; se_NativeSymbol : string; se_NativeID : string; se_BaseAsset : string; se_QuoteAsset : string;
  se_Rate : D; se_RateValid : bool; se_IntervalHours : OptionalInt; se_NextFundingTime : time;
  se_MarkPrice : OptionalDecimal D; se_IndexPrice : OptionalDecimal D; se_OpenInterest : OptionalDecimal D;
  se_OpenInterestNotional : OptionalDecimal D; se_OpenInterestNotionalAsset : string;
  se_FundingObservedAt : time; se_MarkObservedAt : time; se_IndexObservedAt : time; se_PriceObservedAt : time;
  se_OpenInterestObservedAt : time;
}.
Arguments mkEntry {D}.
Arguments se_Symbol {D} _.
Arguments se_NativeSymbol {D} _.
Arguments se_NativeID {D} _.
Arguments se_BaseAsset {D} _.
Arguments se_QuoteAsset {D} _.
Arguments se_Rate {D} _.
Arguments se_RateValid {D} _.
Arguments se_IntervalHours {D} _.
Arguments se_NextFundingTime {D} _.
Arguments se_MarkPrice {D} _.
Arguments se_IndexPrice {D} _.
Arguments se_OpenInterest {D} _.
Arguments se_OpenInterestNotional {D} _.
Arguments se_OpenInterestNotionalAsset {D} _.
Arguments se_FundingObservedAt {D} _.
Arguments se_MarkObservedAt {D} _.
Arguments se_IndexObservedAt {D} _.
Arguments se_PriceObservedAt {D} _.
Arguments se_OpenInterestObservedAt {D} _.

Record DerivativeSnapshot (D : Type) := mkDerivativeSnapshot {
  ds_SchemaVersion : Z; ds_Scope : CatalogScope; ds_ObservedAt : time; ds_Entries : list (DerivativeSnapshotEntry D);
}.
Arguments mkDerivativeSnapshot {D}.
Arguments ds_SchemaVersion {D} _.
Arguments ds_Scope {D} _.
Arguments ds_ObservedAt {D} _.
Arguments ds_Entries {D} _.

Record nativeDerivativeFact (D : Type) := mkNative {
  nf_Instrument : InstrumentIdentity;
  nf_FundingRate : OptionalDecimal D; nf_FundingIntervalHours : OptionalInt; nf_NextFundingTime : time;
  nf_MarkPrice : OptionalDecimal D; nf_IndexPrice : OptionalDecimal D; nf_OpenInterest : OptionalDecimal D;
  nf_OpenInterestNotional : OptionalDecimal D; nf_OpenInterestNotionalAsset : string;
  nf_FundingObservedAt : time; nf_MarkObservedAt : time; nf_IndexObservedAt : time; nf_PriceObservedAt : time;
  nf_OpenInterestObservedAt : time;
}.
Arguments mkNative {D}.
Arguments nf_Instrument {D} _.
Arguments nf_FundingRate {D} _.
Arguments nf_FundingIntervalHours {D} _.
Arguments nf_NextFundingTime {D} _.
Arguments nf_MarkPrice {D} _.
Arguments nf_IndexPrice {D} _.
Arguments nf_OpenInterest {D} _.
Arguments nf_OpenInterestNotional {D} _.
Arguments nf_OpenInterestNotionalAsset {D} _.
Arguments nf_FundingObservedAt {D} _.
Arguments nf_MarkObservedAt {D} _.
Arguments nf_IndexObservedAt {D} _.
Arguments nf_PriceObservedAt {D} _.
Arguments nf_OpenInterestObservedAt {D} _.

Record nativeDerivativePatch (D : Type) := mkNativePatch {
  np_Kind : string; np_Scope : CatalogScope; np_ObservedAt : time; np_Sequence : Z; np_Fields : Z;
  np_Facts : list (nativeDerivativeFact D);
}.
Arguments mkNativePatch {D}.
Arguments np_Kind {D} _.
Arguments np_Scope {D} _.
Arguments np_ObservedAt {D} _.
Arguments np_Sequence {D} _.
Arguments np_Fields {D} _.
Arguments np_Facts {D} _.

Definition nativeDerivativePatchSnapshot := "snapshot".
Definition nativeDerivativePatchDelta := "delta".
(** The native field bits; they happen to be those of [DerivativeField]. *)
Definition nativeDerivativeFieldIdentity : Z := 1.
Definition nativeDerivativeFieldFunding : Z := 2.
Definition nativeDerivativeFieldFundingInterval : Z := 4.
Definition nativeDerivativeFieldNextFundingTime : Z := 8.
Definition nativeDerivativeFieldMarkPrice : Z := 16.
Definition nativeDerivativeFieldIndexPrice : Z := 32.
Definition nativeDerivativeFieldOpenInterest : Z := 64.
Definition nativeDerivativeFieldOpenInterestNotional : Z := 128.
Definition nativeDerivativeFieldAll : Z := 255.

(** ** From a snapshot to a native patch *)

Definition firstObservedAt (candidate fallback : time) : time := if negb (IsZero candidate) then candidate else fallback.
Definition latestFundingObservation (left right : time) : time :=
  if After right left then right else if IsZero left then zero_time else left.

Section feed.
Context `{Decimal D}.

(** [DerivativeSnapshot.Validate] *)
Fixpoint validate_entries (seen : list string) (entries : list (DerivativeSnapshotEntry D)) : result error unit :=
  match entries with
  | [] => Ok tt
  | entry :: rest =>
      check negb (blank (se_Symbol entry)) else EText "derivative snapshot entry is missing a canonical symbol" ;;
      check negb (one_of (se_Symbol entry) seen) else EText "derivative snapshot contains a duplicate canonical symbol" ;;
      validate_entries (se_Symbol entry :: seen) rest
  end.
Definition Snapshot_Validate (snapshot : DerivativeSnapshot D) (scope : CatalogScope) : result error unit :=
  check ds_SchemaVersion snapshot =? 1 else EText "derivative snapshot schema version is unsupported" ;;
  check bool_decide (ds_Scope snapshot = scope) else EText "derivative snapshot scope does not match requested scope" ;;
  validate_entries [] (ds_Entries snapshot).

(** One iteration of [nativeDerivativePatchFromSnapshot]. *)
Definition native_fact (snapshot : DerivativeSnapshot D) (entry : DerivativeSnapshotEntry D) : nativeDerivativeFact D :=
  let scope := ds_Scope snapshot in
  let settlement := if is_empty (cs_Settlement scope) then se_QuoteAsset entry else cs_Settlement scope in
  let default_clock (valid : bool) (clock : time) := if valid && IsZero clock then ds_ObservedAt snapshot else clock in
  let price_clock (valid : bool) (clock : time) :=
    if valid && IsZero clock then firstObservedAt (se_PriceObservedAt entry) (ds_ObservedAt snapshot) else clock in
  let markObservedAt := price_clock (od_Valid (se_MarkPrice entry)) (se_MarkObservedAt entry) in
  let indexObservedAt := price_clock (od_Valid (se_IndexPrice entry)) (se_IndexObservedAt entry) in
  mkNative
    (mkIdentity (cs_Venue scope) ProductPerp (se_Symbol entry) (se_BaseAsset entry) (se_QuoteAsset entry) settlement
       (se_NativeSymbol entry) (se_NativeID entry))
    (mkOptDec (se_Rate entry) (se_RateValid entry)) (se_IntervalHours entry) (se_NextFundingTime entry)
    (se_MarkPrice entry) (se_IndexPrice entry) (se_OpenInterest entry) (se_OpenInterestNotional entry)
    (if od_Valid (se_OpenInterestNotional entry) && is_empty (se_OpenInterestNotionalAsset entry)
     then settlement else se_OpenInterestNotionalAsset entry)
    (default_clock (se_RateValid entry) (se_FundingObservedAt entry))
    markObservedAt indexObservedAt (latestFundingObservation markObservedAt indexObservedAt)
    (default_clock (od_Valid (se_OpenInterest entry) || od_Valid (se_OpenInterestNotional entry))
       (se_OpenInterestObservedAt entry)).

Definition add_field (b : bool) (field fields : Z) : Z := if b then Z.lor fields field else fields.
Definition fact_fields (fields : Z) (fact : nativeDerivativeFact D) : Z :=
  let fields := add_field (od_Valid (nf_FundingRate fact)) nativeDerivativeFieldFunding fields in
  let fields := add_field (oi_Valid (nf_FundingIntervalHours fact)) nativeDerivativeFieldFundingInterval fields in
  let fields := add_field (negb (IsZero (nf_NextFundingTime fact))) nativeDerivativeFieldNextFundingTime fields in
  let fields := add_field (od_Valid (nf_MarkPrice fact)) nativeDerivativeFieldMarkPrice fields in
  let fields := add_field (od_Valid (nf_IndexPrice fact)) nativeDerivativeFieldIndexPrice fields in
  let fields := add_field (od_Valid (nf_OpenInterest fact)) nativeDerivativeFieldOpenInterest fields in
  add_field (od_Valid (nf_OpenInterestNotional fact)) nativeDerivativeFieldOpenInterestNotional fields.
Definition nativeDerivativeSnapshotFields (facts : list (nativeDerivativeFact D)) : Z :=
  foldl fact_fields nativeDerivativeFieldIdentity facts.

Definition nativeDerivativePatchFromSnapshot (snapshot : DerivativeSnapshot D) : nativeDerivativePatch D :=
  let facts := map (native_fact snapshot) (ds_Entries snapshot) in
  mkNativePatch nativeDerivativePatchSnapshot (ds_Scope snapshot) (ds_ObservedAt snapshot) 0
    (nativeDerivativeSnapshotFields facts) facts.

(** ** Native patches *)

(** [nativeDerivativeFact.key] *)
Definition fact_key (fact : nativeDerivativeFact D) : string :=
  let i := nf_Instrument fact in
  if negb (is_empty (id_NativeID i))
  then id_Venue i +:+ "|" +:+ id_Product i +:+ "|id:" +:+ id_NativeID i
  else id_Venue i +:+ "|" +:+ id_Product i +:+ "|symbol:" +:+ id_NativeSymbol i.

Fixpoint validate_native_facts (scope : CatalogScope) (seen : list string) (facts : list (nativeDerivativeFact D))
  : result error unit :=
  match facts with
  | [] => Ok tt
  | fact :: rest =>
      let i := nf_Instrument fact in
      check negb (negb (String.eqb (id_Venue i) (cs_Venue scope)) || negb (String.eqb (id_Product i) ProductPerp) ||
                  blank (id_Symbol i) || blank (id_NativeSymbol i) || blank (id_BaseAsset i) || blank (id_QuoteAsset i))
        else EText "native derivative fact identity is invalid" ;;
      check negb (negb (is_empty (cs_Settlement scope)) && negb (is_empty (id_SettleAsset i)) &&
                  negb (String.eqb (id_SettleAsset i) (cs_Settlement scope)))
        else EText "native derivative fact settlement does not match scope" ;;
      check negb (one_of (fact_key fact) seen) else EText "native derivative patch contains duplicate instrument" ;;
      check negb (od_Valid (nf_OpenInterestNotional fact) && blank (nf_OpenInterestNotionalAsset fact))
        else EText "native derivative OI notional is missing its asset" ;;
      validate_native_facts scope (fact_key fact :: seen) rest
  end.

(** [nativeDerivativePatch.validate] *)
Definition validate_native (patch : nativeDerivativePatch D) : result error unit :=
  check one_of (np_Kind patch) [nativeDerivativePatchSnapshot; nativeDerivativePatchDelta]
    else EText "native derivative patch kind is invalid" ;;
  let scope := np_Scope patch in
  check negb (is_empty (cs_Venue scope) || negb (String.eqb (cs_Product scope) ProductPerp) ||
              negb (String.eqb (cs_Environment scope) EnvironmentLive) || IsZero (np_ObservedAt patch))
    else EText "native derivative patch scope is invalid" ;;
  check negb ((np_Fields patch =? 0) || negb (Z.ldiff (np_Fields patch) nativeDerivativeFieldAll =? 0))
    else EText "native derivative patch field mask is invalid" ;;
  check negb (String.eqb (np_Kind patch) nativeDerivativePatchSnapshot &&
              negb (Has (np_Fields patch) nativeDerivativeFieldIdentity))
    else EText "native derivative snapshot is missing identity fields" ;;
  validate_native_facts scope [] (np_Facts patch).

(** ** The native feed *)

Record nativeDerivativeFeed := mkNativeFeed {
  nd_scope : CatalogScope; nd_sequence : Z; nd_bootstrap : option (nativeDerivativePatch D);
}.
Definition with_sequence (patch : nativeDerivativePatch D) (n : Z) : nativeDerivativePatch D :=
  mkNativePatch (np_Kind patch) (np_Scope patch) (np_ObservedAt patch) n (np_Fields patch) (np_Facts patch).

(** [Bootstrap]; [loaded] is the loader's answer. *)
Definition Bootstrap (feed : nativeDerivativeFeed) (loaded : result error (DerivativeSnapshot D))
  : nativeDerivativeFeed * result error (nativeDerivativePatch D) :=
  match loaded with
  | Err e => (feed, Err e)
  | Ok snapshot =>
      match Snapshot_Validate snapshot (nd_scope feed) with
      | Err e => (feed, Err e)
      | Ok _ =>
          let next := wrapU64 (nd_sequence feed + 1) in
          let patch := with_sequence (nativeDerivativePatchFromSnapshot snapshot) next in
          match validate_native patch with
          | Err e => (mkNativeFeed (nd_scope feed) next (nd_bootstrap feed), Err e)
          | Ok _ => (mkNativeFeed (nd_scope feed) next (Some patch), Ok patch)
          end
      end
  end.

(** The callback [Stream] hands to the watcher: what is emitted of a patch. *)
Definition stream_patch (feed : nativeDerivativeFeed) (patch : nativeDerivativePatch D) (now : time)
  : nativeDerivativeFeed * option (nativeDerivativePatch D) :=
  let scope := if bool_decide (np_Scope patch = zero_scope) then nd_scope feed else np_Scope patch in
  let observed := if IsZero (np_ObservedAt patch) then now else np_ObservedAt patch in
  let next := wrapU64 (nd_sequence feed + 1) in
  let patch := mkNativePatch (np_Kind patch) scope observed next (np_Fields patch) (np_Facts patch) in
  (mkNativeFeed (nd_scope feed) next (nd_bootstrap feed),
   if is_ok (validate_native patch) then Some patch else None).

(** ** Projection *)

Definition derivativeResolutionKey (routeProfile nativeSymbol nativeID : string) : string :=
  if negb (is_empty nativeID) then routeProfile +:+ String (byte 0) "id:" +:+ nativeID
  else routeProfile +:+ String (byte 0) "symbol:" +:+ nativeSymbol.

Definition resolution : Type := DerivativeFact D * bool.
(** [calls] are the [SetHotInstrument] requests made of the native feed. *)
Record derivativeMarketFeed := mkMarketFeed {
  mf_routeProfiles : list string;
  mf_nativeFamily : string;
  mf_resolved : gmap string resolution;
  mf_nativeByID : gmap string string;
  mf_hot : gset string;
  mf_calls : list (string * bool);
}.
Context (resolver : string → string → string → resolution).
Implicit Types (feed : derivativeMarketFeed).

Definition resolve feed (routeProfile nativeSymbol nativeID : string) : derivativeMarketFeed * resolution :=
  let key := derivativeResolutionKey routeProfile nativeSymbol nativeID in
  match mf_resolved feed !! key with
  | Some r => (feed, r)
  | None =>
      let r := resolver routeProfile nativeSymbol nativeID in
      (mkMarketFeed (mf_routeProfiles feed) (mf_nativeFamily feed) (<[key := r]> (mf_resolved feed))
         (mf_nativeByID feed) (mf_hot feed) (mf_calls feed), r)
  end.

(** The native values under a canonical identity. *)
Definition fill_fact (fact : DerivativeFact D) (native : nativeDerivativeFact D) : DerivativeFact D :=
  mkFact (df_InstrumentID fact) (df_RouteProfileID fact) (df_Instrument fact) (df_Environment fact)
    (nf_FundingRate native) (nf_FundingIntervalHours native) (nf_NextFundingTime native)
    (nf_MarkPrice native) (nf_IndexPrice native) (nf_OpenInterest native) (nf_OpenInterestNotional native)
    (nf_OpenInterestNotionalAsset native) (nf_FundingObservedAt native)
    (firstObservedAt (nf_MarkObservedAt native) (nf_PriceObservedAt native))
    (firstObservedAt (nf_IndexObservedAt native) (nf_PriceObservedAt native))
    (nf_OpenInterestObservedAt native).

(** One native fact under one route profile. *)
Definition project_one (acc : derivativeMarketFeed * list (DerivativeFact D)) (item : nativeDerivativeFact D * string)
  : derivativeMarketFeed * list (DerivativeFact D) :=
  let '(feed, facts) := acc in
  let '(native, routeProfile) := item in
  let symbol := id_NativeSymbol (nf_Instrument native) in
  match resolve feed routeProfile symbol (id_NativeID (nf_Instrument native)) with
  | (feed, (_, false)) => (feed, facts)
  | (feed, (fact, true)) =>
      let id := df_InstrumentID fact in
      let calls := if bool_decide (id ∈ mf_hot feed) && negb (is_empty symbol)
                   then mf_calls feed ++ [(symbol, true)] else mf_calls feed in
      (mkMarketFeed (mf_routeProfiles feed) (mf_nativeFamily feed) (mf_resolved feed)
         (<[id := symbol]> (mf_nativeByID feed)) (mf_hot feed) calls,
       facts ++ [fill_fact fact native])
  end.

Definition projections (profiles : list string) (natives : list (nativeDerivativeFact D))
  : list (nativeDerivativeFact D * string) :=
  flat_map (λ native, map (λ profile, (native, profile)) profiles) natives.

Definition field_pairs : list (Z * Z) :=
  [(nativeDerivativeFieldIdentity, DerivativeFieldIdentity); (nativeDerivativeFieldFunding, DerivativeFieldFunding);
   (nativeDerivativeFieldFundingInterval, DerivativeFieldFundingInterval);
   (nativeDerivativeFieldNextFundingTime, DerivativeFieldNextFundingTime);
   (nativeDerivativeFieldMarkPrice, DerivativeFieldMark); (nativeDerivativeFieldIndexPrice, DerivativeFieldIndex);
   (nativeDerivativeFieldOpenInterest, DerivativeFieldOpenInterest);
   (nativeDerivativeFieldOpenInterestNotional, DerivativeFieldOpenInterestNotional)].
Definition derivativeFields (fields : Z) : Z :=
  foldl (λ result '(old, next), if Has fields old then Z.lor result next else result) 0 field_pairs.

Definition project feed (patch : nativeDerivativePatch D) : derivativeMarketFeed * result error (DerivativePatch D) :=
  if match mf_routeProfiles feed with [] => true | _ => false end || is_empty (mf_nativeFamily feed)
  then (feed, Err (EText "derivative projection is unavailable"))
  else match validate_native patch with
  | Err e => (feed, Err e)
  | Ok _ =>
      let snapshot := String.eqb (np_Kind patch) nativeDerivativePatchSnapshot in
      let feed := if snapshot
                  then mkMarketFeed (mf_routeProfiles feed) (mf_nativeFamily feed) ∅ ∅ (mf_hot feed) (mf_calls feed)
                  else feed in
      let '(feed, facts) := foldl project_one (feed, []) (projections (mf_routeProfiles feed) (np_Facts patch)) in
      match np_Facts patch, facts with
      | _ :: _, [] => (feed, Err (EText "derivative catalog projection unavailable"))
      | _, _ =>
          (feed, Ok (mkPatch (if snapshot then EventSnapshot else EventDelta) (np_Scope patch) (mf_nativeFamily feed) 1
                       (np_ObservedAt patch) (FormatUint (np_Sequence patch)) (derivativeFields (np_Fields patch)) facts))
      end
  end.

(** [SetHotInstrument] *)
Definition SetHotInstrument feed (instrumentID : string) (active : bool) : derivativeMarketFeed :=
  if is_empty instrumentID then feed
  else
    let hot := if active then {[instrumentID]} ∪ mf_hot feed else mf_hot feed ∖ {[instrumentID]} in
    let calls := match mf_nativeByID feed !! instrumentID with
                 | Some native => if is_empty native then mf_calls feed else mf_calls feed ++ [(native, active)]
                 | None => mf_calls feed
                 end in
    mkMarketFeed (mf_routeProfiles feed) (mf_nativeFamily feed) (mf_resolved feed) (mf_nativeByID feed) hot calls.
End feed.

(** ** Projected patches are valid *)

Section projection.
Context {D : Type}.
Context (resolver : string → string → string → @resolution D).
Implicit Types (native : nativeDerivativeFact D) (fact : DerivativeFact D) (scope : CatalogScope).
Local Notation project := (project resolver).
Local Notation project_one := (project_one resolver).

(** What tells native instruments apart. *)
Definition native_suffix native : string :=
  let i := nf_Instrument native in
  if negb (is_empty (id_NativeID i)) then "id:" +:+ id_NativeID i else "symbol:" +:+ id_NativeSymbol i.
Definition item_key (item : nativeDerivativeFact D * string) : string :=
  derivativeResolutionKey item.2 (id_NativeSymbol (nf_Instrument item.1)) (id_NativeID (nf_Instrument item.1)).

Lemma item_key_eq item : item_key item = item.2 +:+ String (byte 0) (native_suffix item.1).
Proof. unfold item_key, derivativeResolutionKey, native_suffix. by destruct (negb _). Qed.

Lemma item_key_inj a b :
  no_byte (byte 0) a.2 = true → no_byte (byte 0) b.2 = true → item_key a = item_key b →
  a.2 = b.2 ∧ native_suffix a.1 = native_suffix b.1.
Proof.
  rewrite !item_key_eq. intros Ha Hb E. pose proof (split_once_app (byte 0) a.2 (native_suffix a.1) Ha) as H1.
  rewrite E, split_once_app in H1 by done. by injection H1.
Qed.

Lemma fact_key_suffix native :
  fact_key native = id_Venue (nf_Instrument native) +:+ "|" +:+ id_Product (nf_Instrument native) +:+ "|" +:+
                    native_suffix native.
Proof. unfold fact_key, native_suffix. by destruct (negb _). Qed.

(** *** What native validation guarantees *)

Record native_ok scope native : Prop := {
  no_venue : id_Venue (nf_Instrument native) = cs_Venue scope;
  no_product : id_Product (nf_Instrument native) = ProductPerp;
  no_notional : od_Valid (nf_OpenInterestNotional native) && blank (nf_OpenInterestNotionalAsset native) = false;
}.

Lemma one_of_false s l : one_of s l = false ↔ s ∉ l.
Proof.
  rewrite <- not_true_iff_false. unfold one_of. rewrite existsb_exists. split; intros Hn Hin; apply Hn.
  - exists s. split; [by apply list_elem_of_In|apply String.eqb_refl].
  - destruct Hin as (x & Hx & ->%String.eqb_eq). by apply list_elem_of_In.
Qed.

Lemma validate_native_facts_Ok scope seen natives :
  validate_native_facts scope seen natives = Ok tt →
  Forall (native_ok scope) natives ∧ NoDup (map fact_key natives) ∧ ∀ n, n ∈ natives → fact_key n ∉ seen.
Proof.
  revert seen. induction natives as [|n l IH]; intros seen; simpl; [intros _; split_and!; [done|constructor|set_solver]|].
  rewrite !check_Ok. intros (Hid & _ & Hdup & Hoi & Hrest). apply IH in Hrest as (Hl & Hnd & Hseen).
  rewrite negb_true_iff in Hoi, Hdup. rewrite one_of_false in Hdup.
  rewrite negb_true_iff, !orb_false_iff, !negb_false_iff, !String.eqb_eq in Hid. split_and!.
  - constructor; [|done]. split; tauto || done.
  - constructor; [|done]. intros (m & Hm & Hin)%list_elem_of_fmap. apply (Hseen m Hin). rewrite <- Hm. left.
  - intros m [->|Hm]%elem_of_cons; [done|]. specialize (Hseen m Hm). set_solver.
Qed.

(** *** What canonical validation asks for *)

Record fact_ok scope fact : Prop := {
  fo_id : blank (df_InstrumentID fact) = false;
  fo_profile : blank (df_RouteProfileID fact) = false;
  fo_environment : df_Environment fact = cs_Environment scope;
  fo_venue : id_Venue (df_Instrument fact) = cs_Venue scope;
  fo_product : id_Product (df_Instrument fact) = ProductPerp;
  fo_native : blank (id_NativeSymbol (df_Instrument fact)) = false;
  fo_settlement : cs_Settlement scope = "" ∨ id_SettleAsset (df_Instrument fact) = "" ∨
                  id_SettleAsset (df_Instrument fact) = cs_Settlement scope;
}.

Lemma validate_facts_complete scope seen (facts : list (DerivativeFact D)) :
  Forall (λ f, fact_ok scope f ∧ od_Valid (df_OpenInterestNotional f) && blank (df_OpenInterestNotionalAsset f) = false) facts →
  NoDup (map df_InstrumentID facts) → (∀ f, f ∈ facts → df_InstrumentID f ∉ seen) →
  validate_facts scope seen facts = Ok tt.
Proof.
  intros Hall. revert seen. induction Hall as [|f l [Hf Hoi] _ IH]; intros seen Hnd Hseen; simpl; [done|].
  apply NoDup_cons in Hnd as [Hfresh Hnd]. destruct Hf as [-> -> -> -> -> -> Hset]. rewrite !String.eqb_refl. simpl.
  assert (Hsb : negb (negb (is_empty (cs_Settlement scope)) && negb (is_empty (id_SettleAsset (df_Instrument f))) &&
                 negb (String.eqb (id_SettleAsset (df_Instrument f)) (cs_Settlement scope))) = true).
  { unfold is_empty. destruct Hset as [->|[->| ->]]; simpl; rewrite ?String.eqb_refl, ?andb_false_r; done. }
  rewrite Hsb, Hoi, (proj2 (one_of_false _ _) (Hseen f ltac:(left))). simpl. apply IH; [done|].
  intros g Hg [Heq|Hin]%elem_of_cons; [|by apply (Hseen g); [right|]].
  apply Hfresh. rewrite <- Heq. apply list_elem_of_fmap. by exists g.
Qed.

(** *** The projection loop *)

(** The cache holds answers of the resolver. *)
Definition cache_ok (feed : @derivativeMarketFeed D) : Prop :=
  ∀ k r, mf_resolved feed !! k = Some r →
    ∃ profile symbol id, k = derivativeResolutionKey profile symbol id ∧ r = resolver profile symbol id.
(** [fact] is the resolver's answer for the item's key. *)
Definition resolved_as (item : nativeDerivativeFact D * string) fact : Prop :=
  ∃ profile symbol id, derivativeResolutionKey profile symbol id = item_key item ∧ resolver profile symbol id = (fact, true).

Lemma resolve_ok feed item feed' r :
  cache_ok feed →
  resolve resolver feed item.2 (id_NativeSymbol (nf_Instrument item.1)) (id_NativeID (nf_Instrument item.1)) = (feed', r) →
  cache_ok feed' ∧ mf_routeProfiles feed' = mf_routeProfiles feed ∧ mf_nativeFamily feed' = mf_nativeFamily feed ∧
  (r.2 = true → resolved_as item r.1).
Proof.
  intros Hc. unfold resolve. fold (item_key item). destruct (mf_resolved feed !! item_key item) as [r'|] eqn:Hr;
    intros [= <- <-].
  - split_and!; [done..|]. intros Ht. destruct (Hc _ _ Hr) as (p & s & i & Hk & ->). exists p, s, i.
    split; [done|]. by rewrite <- Ht, <- surjective_pairing.
  - split_and!; [|done..|].
    + intros k r. cbn [mf_resolved]. intros [[<- <-]|[_ Hl]]%lookup_insert_Some; [by eexists _, _, _|by apply Hc].
    + intros Ht. eexists _, _, _. split; [done|]. by rewrite <- Ht, <- surjective_pairing.
Qed.

Lemma project_items items feed facts feed' facts' :
  cache_ok feed → foldl project_one (feed, facts) items = (feed', facts') →
  cache_ok feed' ∧ mf_nativeFamily feed' = mf_nativeFamily feed ∧
  ∃ pairs, facts' = facts ++ map (λ '(item, fact), fill_fact fact item.1) pairs ∧
    sublist (map fst pairs) items ∧ ∀ item fact, (item, fact) ∈ pairs → resolved_as item fact.
Proof.
  revert feed facts. induction items as [|[n profile] items IH]; intros feed facts Hc; simpl.
  { intros [= <- <-]. split_and!; [done..|]. exists []. rewrite app_nil_r. split_and!; [done|constructor|set_solver]. }
  destruct (resolve resolver feed profile _ _) as [feed1 [fact ok]] eqn:Hr.
  apply (resolve_ok feed (n, profile)) in Hr as (Hc1 & _ & Hfam & Has); [|done]. destruct ok.
  - intros Hf. apply IH in Hf as (Hc' & Hfam' & pairs & -> & Hsub & Hall); [|done].
    split_and!; [done|by rewrite Hfam'|]. exists (((n, profile), fact) :: pairs).
    rewrite <- app_assoc. split_and!; [done|by apply sublist_skip|].
    intros item f [[= -> ->]|Hin]%elem_of_cons; [by apply Has|by apply Hall].
  - intros Hf. apply IH in Hf as (Hc' & Hfam' & pairs & -> & Hsub & Hall); [|done].
    split_and!; [done|by rewrite Hfam'|]. exists pairs. split_and!; [done|by apply sublist_cons|done].
Qed.

Lemma projections_keys profiles natives :
  NoDup profiles → Forall (λ p, no_byte (byte 0) p = true) profiles → NoDup (map native_suffix natives) →
  NoDup (map item_key (projections profiles natives)).
Proof.
  intros Hp Hb Hn. rewrite Forall_forall in Hb.
  assert (Hin : ∀ it (l : list (nativeDerivativeFact D)), it ∈ projections profiles l → it.2 ∈ profiles ∧ it.1 ∈ l).
  { intros it l. unfold projections. rewrite list_elem_of_In, in_flat_map.
    intros (x & Hx & (p & <- & Hp')%in_map_iff). by rewrite !list_elem_of_In. }
  induction natives as [|n l IH]; simpl; [constructor|]. apply NoDup_cons in Hn as [Hfresh Hn].
  rewrite map_app. apply NoDup_app. split_and!; [| |by apply IH].
  - rewrite map_map. apply (NoDup_fmap_2_strong (λ p, item_key (n, p))); [|done].
    intros x y Hx Hy E. apply (item_key_inj (n, x) (n, y)) in E as [E _]; [done|by apply Hb..].
  - intros k Hk1 Hk2. apply list_elem_of_fmap in Hk1 as (a & -> & Ha), Hk2 as (b & E & Hb').
    apply list_elem_of_fmap in Ha as (p & -> & Hp'). apply Hin in Hb' as [Hb1 Hb2].
    apply item_key_inj in E as [_ E]; [|by apply Hb..]. apply Hfresh. simpl in E. rewrite E. by apply list_elem_of_fmap_2.
Qed.

Lemma suffix_NoDup scope natives :
  Forall (native_ok scope) natives → NoDup (map fact_key natives) → NoDup (map native_suffix natives).
Proof.
  intros Hall. rewrite Forall_forall in Hall. intros Hnd. apply (NoDup_fmap_1 (λ s,
    cs_Venue scope +:+ "|" +:+ ProductPerp +:+ "|" +:+ s)).
  rewrite <- list_fmap_compose. rewrite (list_fmap_ext _ fact_key); [done|].
  intros i n Hi. simpl. apply list_elem_of_lookup_2 in Hi. destruct (Hall n Hi) as [Hv Hp _].
  by rewrite fact_key_suffix, Hv, Hp.
Qed.

Definition masks_ok : bool :=
  forallb (λ n, derivativeFields (Z.of_nat n) =? Z.of_nat n) (seq 0 256).
Lemma derivativeFields_id fields : 0 ≤ fields → Z.ldiff fields nativeDerivativeFieldAll = 0 → derivativeFields fields = fields.
Proof.
  intros H0 Hm. assert (Hr : 0 ≤ fields < 256).
  { split; [done|]. destruct (Z.lt_ge_cases fields 256); [done|]. exfalso.
    apply Z.ldiff_le in Hm; [|done]. unfold nativeDerivativeFieldAll in Hm. lia. }
  assert (Hall : masks_ok = true) by (vm_compute; reflexivity). unfold masks_ok in Hall. rewrite forallb_forall in Hall.
  specialize (Hall (Z.to_nat fields)). rewrite in_seq, Z2Nat.id, Z.eqb_eq in Hall by lia. apply Hall. lia.
Qed.

(** The resolver's side of the contract: canonical facts of the scope, a
    different instrument for each profile and native identity. *)
Record resolver_ok scope : Prop := {
  ro_fact : ∀ profile symbol id fact, resolver profile symbol id = (fact, true) → fact_ok scope fact;
  ro_inj : ∀ p s i f p' s' i' f', resolver p s i = (f, true) → resolver p' s' i' = (f', true) →
    df_InstrumentID f = df_InstrumentID f' → derivativeResolutionKey p s i = derivativeResolutionKey p' s' i';
}.

(** The facts projected from distinct items are canonical and distinct. *)
Lemma pairs_valid scope profiles natives (pairs : list ((nativeDerivativeFact D * string) * DerivativeFact D)) :
  resolver_ok scope → Forall (native_ok scope) natives → NoDup (map item_key (projections profiles natives)) →
  sublist (map fst pairs) (projections profiles natives) →
  (∀ item fact, (item, fact) ∈ pairs → resolved_as item fact) →
  validate_facts scope [] (map (λ '(item, fact), fill_fact fact item.1) pairs) = Ok tt.
Proof.
  intros [Hfact Hinj] Hnok Hkeys Hsub Hall. rewrite Forall_forall in Hnok. apply validate_facts_complete; [| |set_solver].
  - apply Forall_forall. intros f ([item fact] & -> & Hin)%list_elem_of_fmap.
    destruct (Hall item fact Hin) as (p & s & i & _ & Hr). destruct (Hfact p s i fact Hr). split; [by split|].
    cbn [fill_fact df_OpenInterestNotional df_OpenInterestNotionalAsset]. apply Hnok.
    assert (Hit : item ∈ projections profiles natives).
    { eapply elem_of_sublist; [|exact Hsub]. by apply (list_elem_of_fmap_2 fst pairs (item, fact)). }
    unfold projections in Hit. rewrite list_elem_of_In, in_flat_map in Hit.
    destruct Hit as (x & Hx & (q & <- & _)%in_map_iff). by rewrite list_elem_of_In.
  - assert (Hnd : NoDup (map (λ pair, item_key pair.1) pairs)).
    { rewrite <- (map_map fst item_key). eapply sublist_NoDup; [exact Hkeys|]. by apply fmap_sublist. }
    rewrite map_map. clear Hsub Hkeys. induction pairs as [|[item fact] pairs IH]; simpl; [constructor|].
    apply NoDup_cons in Hnd as [Hfresh Hnd]. constructor; [|apply IH; [|done]; intros ? ? ?; apply Hall; by right].
    intros ([item' fact'] & E & Hin)%list_elem_of_fmap. simpl in E. apply Hfresh. apply list_elem_of_fmap.
    exists (item', fact'). split; [|done]. simpl.
    destruct (Hall item fact ltac:(left)) as (p & s & i & <- & Hr).
    destruct (Hall item' fact' ltac:(by right)) as (p' & s' & i' & <- & Hr'). by apply (Hinj p s i fact p' s' i' fact').
Qed.

(** A native patch that passes the adapter's own validation and projects is a
    patch the consumers' validation accepts, with the same fields, in which every
    fact carries a native fact's values and clocks under the identity the
    resolver gave it. *)
Theorem project_valid (feed : @derivativeMarketFeed D) patch feed' projected :
  resolver_ok (np_Scope patch) → cache_ok feed → knownVenue (cs_Venue (np_Scope patch)) = true →
  blank (mf_nativeFamily feed) = false → 0 ≤ np_Fields patch →
  NoDup (mf_routeProfiles feed) → Forall (λ p, no_byte (byte 0) p = true) (mf_routeProfiles feed) →
  project feed patch = (feed', Ok projected) →
  Patch_Validate projected = Ok tt ∧ cache_ok feed' ∧ dp_Fields projected = np_Fields patch ∧
  ∀ fact, fact ∈ dp_Facts projected → ∃ item canonical,
    item ∈ projections (mf_routeProfiles feed) (np_Facts patch) ∧ resolved_as item canonical ∧
    fact = fill_fact canonical item.1.
Proof.
  intros Hr Hc Hvenue Hfam Hfields Hprof Hbytes. unfold project, DerivativeFeed.project.
  destruct (_ || is_empty _); [done|]. destruct (validate_native patch) as [[]|e] eqn:Hv; [|done].
  set (snapshot := String.eqb (np_Kind patch) nativeDerivativePatchSnapshot).
  set (feed1 := if snapshot then _ else feed).
  assert (Hc1 : cache_ok feed1).
  { unfold feed1. destruct snapshot; [|done]. intros k r. cbn [mf_resolved]. by rewrite lookup_empty. }
  assert (Hp1 : mf_routeProfiles feed1 = mf_routeProfiles feed ∧ mf_nativeFamily feed1 = mf_nativeFamily feed).
  { unfold feed1. by destruct snapshot. }
  destruct Hp1 as [-> Hf1]. destruct (foldl _ _ _) as [feed2 facts] eqn:Hfold.
  apply project_items in Hfold as (Hc2 & Hf2 & pairs & -> & Hsub & Hall); [|done]. rewrite app_nil_l.
  unfold validate_native in Hv. rewrite !check_Ok in Hv. destruct Hv as (_ & Hscope & Hmask & Hident & Hnat).
  apply validate_native_facts_Ok in Hnat as (Hnok & Hnd & _).
  rewrite negb_true_iff, !orb_false_iff, !negb_false_iff, !String.eqb_eq in Hscope.
  rewrite negb_true_iff, orb_false_iff, negb_false_iff, Z.eqb_eq, Z.eqb_neq in Hmask. destruct Hmask as [Hm0 Hm1].
  assert (Hvalid := pairs_valid _ _ _ pairs Hr Hnok (projections_keys _ _ Hprof Hbytes (suffix_NoDup _ _ Hnok Hnd)) Hsub Hall).
  intros Hok. assert (E : (feed', projected) = (feed2, mkPatch (if snapshot then EventSnapshot else EventDelta)
    (np_Scope patch) (mf_nativeFamily feed2) 1 (np_ObservedAt patch) (FormatUint (np_Sequence patch))
    (derivativeFields (np_Fields patch)) (map (λ '(item, fact), fill_fact fact item.1) pairs))).
  { revert Hok. clear. destruct (np_Facts patch), (map _ pairs); try discriminate; by intros [= <- <-]. }
  injection E as -> ->. cbn [dp_Facts dp_Fields]. rewrite derivativeFields_id by done. split_and!; [|done|done|].
  - unfold Patch_Validate. cbn [dp_Kind dp_Scope dp_Generation dp_NativeFamily dp_ObservedAt dp_Fields dp_Facts].
    rewrite Hvenue, Hf2, Hf1, Hfam. destruct Hscope as [[[_ ->] ->] ->].
    rewrite (proj2 (Z.eqb_neq _ _) Hm0). change DerivativeFieldAll with nativeDerivativeFieldAll. rewrite Hm1.
    unfold snapshot in *. change DerivativeFieldIdentity with nativeDerivativeFieldIdentity.
    destruct (String.eqb (np_Kind patch) _); simpl in Hident |- *; [rewrite Hident|]; exact Hvalid.
  - intros f ([item fact] & -> & Hin)%list_elem_of_fmap. exists item, fact. split_and!; [|by apply Hall|done].
    eapply elem_of_sublist; [|exact Hsub]. by apply (list_elem_of_fmap_2 fst pairs (item, fact)).
Qed.
End projection.

(** ** Snapshots *)

Section snapshots.
Context {D : Type}.

(** Whatever clocks a venue leaves out, a value of a snapshot that was taken at
    a known time becomes a fact with a clock. *)
Lemma native_fact_clocks (snapshot : DerivativeSnapshot D) entry :
  ds_ObservedAt snapshot ≠ zero_time →
  let fact := native_fact snapshot entry in
  (od_Valid (nf_FundingRate fact) = true → nf_FundingObservedAt fact ≠ zero_time) ∧
  (od_Valid (nf_MarkPrice fact) = true → nf_MarkObservedAt fact ≠ zero_time) ∧
  (od_Valid (nf_IndexPrice fact) = true → nf_IndexObservedAt fact ≠ zero_time) ∧
  (od_Valid (nf_OpenInterest fact) || od_Valid (nf_OpenInterestNotional fact) = true →
   nf_OpenInterestObservedAt fact ≠ zero_time).
Proof.
  intros Hz fact. unfold fact, native_fact, firstObservedAt, IsZero, zero_time in *. simpl.
  split_and!; intros Hvalid; rewrite Hvalid; simpl.
  - by destruct (Z.eqb_spec (se_FundingObservedAt entry) 0).
  - destruct (Z.eqb_spec (se_MarkObservedAt entry) 0); [|done]. by destruct (Z.eqb_spec (se_PriceObservedAt entry) 0).
  - destruct (Z.eqb_spec (se_IndexObservedAt entry) 0); [|done]. by destruct (Z.eqb_spec (se_PriceObservedAt entry) 0).
  - by destruct (Z.eqb_spec (se_OpenInterestObservedAt entry) 0).
Qed.

(** The poll interval is the fastest REST cadence, and never zero. *)
Lemma derivativeRuntimeStrategy_interval capabilities :
  0 < (derivativeRuntimeStrategy capabilities).2 ∧
  ∀ c, c ∈ capabilities → cp_Transport c = TransportREST → 0 < cp_NominalCadence c →
    (derivativeRuntimeStrategy capabilities).2 ≤ cp_NominalCadence c.
Proof.
  assert (Hgen : ∀ l b i, 0 ≤ i →
    let r := (foldl capability_step (b, i) l).2 in
    0 ≤ r ∧ (0 < i → 0 < r ≤ i) ∧
    ∀ c, c ∈ l → cp_Transport c = TransportREST → 0 < cp_NominalCadence c → 0 < r ≤ cp_NominalCadence c).
  { induction l as [|c l IH]; intros b i Hi; simpl; [split_and!; [done|lia|set_solver]|].
    destruct (String.eqb_spec (cp_Transport c) TransportREST) as [Hr|Hr]; simpl.
    - destruct (Z.ltb_spec 0 (cp_NominalCadence c)), (Z.eqb_spec i 0), (Z.ltb_spec (cp_NominalCadence c) i); simpl;
        (match goal with |- context [foldl capability_step (?b', ?i') l] =>
           destruct (IH b' i' ltac:(lia)) as (H1 & H2 & H3) end);
        (split_and!; [done|lia|]); intros c' [->|Hc]%elem_of_cons Hrest Hpos; auto; lia.
    - destruct (IH (b || String.eqb (cp_Transport c) TransportWebSocket) i Hi) as (H1 & H2 & H3).
      split_and!; [done|lia|]. intros c' [->|Hc]%elem_of_cons Hrest Hpos; [done|auto]. }
  unfold derivativeRuntimeStrategy. specialize (Hgen capabilities false 0 ltac:(lia)).
  destruct (foldl capability_step (false, 0) capabilities) as [streaming interval]. simpl in Hgen |- *.
  destruct Hgen as (H1 & _ & H3). destruct (Z.leb_spec interval 0); (split; [unfold Second in *; lia|]);
    intros c Hc Hr Hpos; specialize (H3 c Hc Hr Hpos); lia.
Qed.
End snapshots.

(** ** Concrete inputs *)

Definition btc_native : nativeDerivativeFact Z :=
  mkNative sample_identity (some_price 3) (mkOptInt 8 true) zero_time (some_price 100) no_price no_price no_price ""
    unix_epoch unix_epoch zero_time unix_epoch zero_time.
Definition btc_patch : nativeDerivativePatch Z :=
  mkNativePatch nativeDerivativePatchSnapshot perp_scope unix_epoch 1 23 [btc_native].
Definition btc_symbol : string := id_NativeSymbol sample_identity.
(** Knows the one instrument, under the one profile. *)
Definition btc_resolver (profile symbol id : string) : @resolution Z :=
  (mark_fact 0 zero_time, String.eqb profile "binance-perp-usdt" && String.eqb symbol btc_symbol && is_empty id).
Definition btc_feed : @derivativeMarketFeed Z := mkMarketFeed ["binance-perp-usdt"] "linear" ∅ ∅ ∅ [].

Lemma btc_resolver_ok : resolver_ok btc_resolver perp_scope.
Proof.
  split.
  - intros p s i f [= <- Hok]. split; try (vm_compute; reflexivity). right. right. vm_compute. reflexivity.
  - intros p s i f p' s' i' f' [= _ H1] [= _ H2] _.
    rewrite !andb_true_iff, !String.eqb_eq in H1, H2. unfold is_empty in *. rewrite !String.eqb_eq in H1, H2.
    destruct H1 as [[-> ->] ->], H2 as [[-> ->] ->]. reflexivity.
Qed.

Lemma project_valid_witness :
  ∃ projected, (project btc_resolver btc_feed btc_patch).2 = Ok projected ∧ Patch_Validate projected = Ok tt ∧
               length (dp_Facts projected) = 1%nat.
Proof.
  destruct (project btc_resolver btc_feed btc_patch) as [feed' [projected|e]] eqn:E; [|vm_compute in E; discriminate].
  exists projected. split; [reflexivity|]. split.
  - eapply (project_valid btc_resolver btc_feed btc_patch feed' projected); [apply btc_resolver_ok|..|exact E].
    + intros k r. simpl. rewrite lookup_empty. discriminate.
    + reflexivity.
    + reflexivity.
    + vm_compute. discriminate.
    + apply NoDup_singleton.
    + repeat constructor.
  - vm_compute in E. injection E as _ <-. reflexivity.
Defined.
