(* ===== verification/Feeds.v ===== *)
(** * Public market feeds

    [gateway/market/feeds.go]: which public topics can be served, the generic
    pump, the candle and ticker projections, and the REST snapshots (book,
    candles, 24-hour statistics).  The order-book pump is in [OrderBook].  A
    venue connector's answers are arguments. *)

From Stdlib Require Import Ascii String ZArith QArith Qcanon Lia Sorted.
From stdpp Require Import base list sets strings gmap sorting.
From S2P Require Import Prelude GoStrings Decimals Errors Model Venue MarketCatalog OrderBook Hub.

#[local] Open Scope string_scope.
#[local] Open Scope list_scope.
#[local] Open Scope Z_scope.
#[local] Open Scope go_scope.

Definition ChannelBook := "book".
Definition ChannelTrades := "trades".
Definition ChannelCandle := "candle".
Definition ChannelTicker := "ticker".

Definition validInterval (interval : string) : bool :=
  one_of interval ["1m"; "5m"; "15m"; "30m"; "1h"; "4h"; "12h"; "1d"].

(** [market.Candle], [market.Ticker], [market.Stats24h] *)
Record MCandle := mkMCandle { mc_Time : Z; mc_Open : string; mc_High : string; mc_Low : string; mc_Close : string; mc_Volume : string }.
Record Ticker := mkTicker {
  tk_Mark : string; tk_Index : string; tk_Funding : string; tk_NextFunding : Z; tk_OpenInterest : string; tk_Time : Z;
}.
Definition zero_ticker : Ticker := mkTicker "" "" "" 0 "" 0.
Record Stats24h := mkStats {
  ss_Last : string; ss_Open24h : string; ss_High24h : string; ss_Low24h : string; ss_Volume24h : string;
  ss_Funding : string; ss_NextFunding : Z; ss_Mark : string;
}.

(** [exchange.DerivativeReferenceEvent], the fields the gateway reads *)
Record DerivativeReferenceEvent (D : Type) := mkReference {
  dr_MarkPrice : OptionalDecimal D; dr_IndexPrice : OptionalDecimal D; dr_FundingRate : OptionalDecimal D;
  dr_NextFundingTime : time; dr_OpenInterest : OptionalDecimal D;
}.
Arguments mkReference {D}.
Arguments dr_MarkPrice {D} _.
Arguments dr_IndexPrice {D} _.
Arguments dr_FundingRate {D} _.
Arguments dr_NextFundingTime {D} _.
Arguments dr_OpenInterest {D} _.

(** [exchange.PublicTradeEvent], the fields the gateway reads, and [market.Trade] *)
Record PublicTradeEvent (D : Type) := mkPublicTrade { pt_Side : string; pt_Price : D; pt_Quantity : D; pt_Time : time }.
Arguments mkPublicTrade {D}.
Arguments pt_Side {D} _.
Arguments pt_Price {D} _.
Arguments pt_Quantity {D} _.
Arguments pt_Time {D} _.
Record Trade := mkTrade { tr_Price : string; tr_Quantity : string; tr_Side : string; tr_Time : Z }.

(** [hub.Message]; [Data] is one of the four kinds the feeds emit. *)
Inductive payload := PBook (book : Book) | PTrades (trades : list Trade) | PCandle (candle : MCandle) | PTicker (ticker : Ticker).
Record Message := mkMessage { ms_Channel : string; ms_Instrument : string; ms_Interval : string; ms_Account : string; ms_Data : payload }.

(** ** The generic pump *)

(** What the [select] of [pump] may receive; a closed channel yields [None]. *)
Inductive pump_signal (T : Type) :=
| SigDone
| SigError (e : option (option error))
| SigStatus (state : option string)
| SigEvent (event : option T).
Arguments SigDone {T}.
Arguments SigError {T} _.
Arguments SigStatus {T} _.
Arguments SigEvent {T} _.

(** One round of the loop: go on, perhaps after handling an event, or return. *)
Inductive pump_round (T : Type) := Continue (handled : option T) | Return (e : option error).
Arguments Continue {T} _.
Arguments Return {T} _.
Definition feed_pump_step {T} (signal : pump_signal T) : pump_round T :=
  match signal with
  | SigDone => Return None
  | SigError None => Continue None
  | SigError (Some None) => Continue None
  | SigError (Some (Some e)) => Return (Some e)
  | SigStatus None => Continue None
  | SigStatus (Some state) =>
      if String.eqb state SubscriptionClosed then Return (Some (EText "subscription closed")) else Continue None
  | SigEvent None => Return (Some (EText "subscription ended"))
  | SigEvent (Some event) => Continue (Some event)
  end.
(** The events handled, and the result once the pump has returned. *)
Fixpoint feed_pump {T} (signals : list (pump_signal T)) : list T * option (option error) :=
  match signals with
  | [] => ([], None)
  | signal :: rest =>
      match feed_pump_step signal with
      | Return e => ([], Some e)
      | Continue handled =>
          let (events, result) := feed_pump rest in
          (match handled with Some event => event :: events | None => events end, result)
      end
  end.

(** ** Connectors *)

(** What a venue connector answers: a subscription is what its channels
    deliver, or the error of opening it; a reference event comes with the clock
    when it is handled. *)
Record Socket (D : Type) := mkSocket {
  so_WatchOrderBook : Instrument D → result error (list (pump_input (D:=D)));
  so_WatchPublicTrades : Instrument D → result error (list (pump_signal (PublicTradeEvent D)));
  so_WatchCandles : Instrument D → string → result error (list (pump_signal (Candle D)));
  so_WatchDerivativeReference :
    option (Instrument D → result error (list (pump_signal (DerivativeReferenceEvent D * time))));
}.
Arguments mkSocket {D}.
Arguments so_WatchOrderBook {D} _.
Arguments so_WatchPublicTrades {D} _.
Arguments so_WatchCandles {D} _.
Arguments so_WatchDerivativeReference {D} _.
Record OrderBookReply (D : Type) := mkBookReply { br_Bids : list (BookLevel D); br_Asks : list (BookLevel D); br_Time : time }.
Arguments mkBookReply {D}.
Arguments br_Bids {D} _.
Arguments br_Asks {D} _.
Arguments br_Time {D} _.
Record FundingRate (D : Type) := mkFundingRate { fg_Rate : D; fg_NextFundingTime : time; fg_MarkPrice : OptionalDecimal D }.
Arguments mkFundingRate {D}.
Arguments fg_Rate {D} _.
Arguments fg_NextFundingTime {D} _.
Arguments fg_MarkPrice {D} _.
Record Connector (D : Type) := mkConnector {
  cn_OrderBook : Instrument D → Z → result error (OrderBookReply D);
  cn_Candles : Instrument D → string → time → time → Z → result error (list (Candle D));
  cn_FundingRate : Instrument D → FundingRate D * bool * option error;   (* rate, supported, error *)
  cn_WebSocket : option (Socket D);
}.
Arguments mkConnector {D}.
Arguments cn_OrderBook {D} _.
Arguments cn_Candles {D} _.
Arguments cn_FundingRate {D} _.
Arguments cn_WebSocket {D} _.

Section feeds.
Context `{Decimal D}.
Implicit Types (c : Catalog D) (key : HKey).

(** [Feeds.ValidKey] *)
Definition ValidKey c key : result error unit :=
  match Get c (hk_Instrument key) with
  | Err e => Err e
  | Ok instrument =>
      let channel := hk_Channel key in
      if one_of channel [ChannelBook; ChannelTrades] then Ok tt
      else if String.eqb channel ChannelCandle then
        check validInterval (hk_Interval key) else EText "unsupported candle interval" ;; Ok tt
      else if String.eqb channel ChannelTicker then
        check String.eqb (mi_Product instrument) ProductPerp
          else EText "ticker is available for perpetuals only" ;; Ok tt
      else Err (EText "unknown channel")
  end.

Definition projectCandle (candle : Candle D) : MCandle :=
  mkMCandle (UnixMilli (ca_OpenTime candle)) (d_string (ca_Open candle)) (d_string (ca_High candle))
    (d_string (ca_Low candle)) (d_string (ca_Close candle)) (d_string (ca_Volume candle)).

Definition set_decimal (current : string) (value : OptionalDecimal D) : string :=
  if od_Valid value then d_string (od_Value value) else current.
Definition mergeTicker (current : Ticker) (event : DerivativeReferenceEvent D) (now : time) : Ticker :=
  mkTicker (set_decimal (tk_Mark current) (dr_MarkPrice event)) (set_decimal (tk_Index current) (dr_IndexPrice event))
    (set_decimal (tk_Funding current) (dr_FundingRate event))
    (if negb (IsZero (dr_NextFundingTime event)) then UnixMilli (dr_NextFundingTime event) else tk_NextFunding current)
    (set_decimal (tk_OpenInterest current) (dr_OpenInterest event)) (UnixMilli now).

Context (connectors : Market → Connector D).

(** [Catalog.connector], with the connector itself; an instrument of no market
    would look up the zero market. *)
Definition connected c (id : string) : result error (MInstrument D * Connector D) :=
  match connector_of c id with
  | Err e => Err e
  | Ok (instrument, m) => Ok (instrument, connectors (default (mkMarket "" "" "") m))
  end.

(** ** Live topics *)

Definition projectTrade (event : PublicTradeEvent D) : Trade :=
  mkTrade (d_string (pt_Price event)) (d_string (pt_Quantity event)) (pt_Side event) (UnixMilli (pt_Time event)).
(** The tickers emitted for a sequence of reference events. *)
Fixpoint tickers (current : Ticker) (events : list (DerivativeReferenceEvent D * time)) : list Ticker :=
  match events with
  | [] => []
  | (event, now) :: rest => let current := mergeTicker current event now in current :: tickers current rest
  end.

(** [Feeds.Source]: the messages emitted, each with its retain flag, and the
    result once the source has returned. *)
Definition failed (e : error) : list (Message * bool) * option (option error) := ([], Some (Some e)).
Definition message key (data : payload) : Message :=
  mkMessage (hk_Channel key) (hk_Instrument key) (if String.eqb (hk_Channel key) ChannelCandle then hk_Interval key else "") "" data.
Definition Source c key : list (Message * bool) * option (option error) :=
  match connected c (hk_Instrument key) with
  | Err e => failed e
  | Ok (instrument, client) =>
  match cn_WebSocket client with
  | None => failed (EText "market websocket unavailable")
  | Some socket =>
      let native := mi_native instrument in
      let channel := hk_Channel key in
      if String.eqb channel ChannelBook then
        match so_WatchOrderBook socket native with
        | Err e => failed e
        | Ok inputs =>
            let '(_, books, result) := pump_run pump_init inputs in
            (map (λ book, (message key (PBook book), true)) books, result)
        end
      else if String.eqb channel ChannelTrades then
        match so_WatchPublicTrades socket native with
        | Err e => failed e
        | Ok signals =>
            let (events, result) := feed_pump signals in
            (map (λ event, (message key (PTrades [projectTrade event]), false)) events, result)
        end
      else if String.eqb channel ChannelCandle then
        match so_WatchCandles socket native (hk_Interval key) with
        | Err e => failed e
        | Ok signals =>
            let (events, result) := feed_pump signals in
            (map (λ event, (message key (PCandle (projectCandle event)), true)) events, result)
        end
      else if String.eqb channel ChannelTicker then
        match so_WatchDerivativeReference socket with
        | None => failed (EText ("ticker stream unavailable for " +:+ mi_Venue instrument))
        | Some watch =>
            match watch native with
            | Err e => failed e
            | Ok signals =>
                let (events, result) := feed_pump signals in
                (map (λ ticker, (message key (PTicker ticker), true)) (tickers zero_ticker events), result)
            end
        end
      else failed (EText "unknown channel")   (* the text also quotes the channel *)
  end end.

(** ** REST snapshots *)

Definition level_strings (level : BookLevel D) : Level := (d_string (bl_Price level), d_string (bl_Quantity level)).
Definition RestBook c (id : string) (depth : Z) : result error Book :=
  found <-? connected c id ;;
  let '(instrument, client) := found in
  let depth := if (depth <=? 0) || (Z.of_nat bookDepth <? depth) then 20 else depth in
  book <-? cn_OrderBook client (mi_native instrument) depth ;;
  Ok (mkBook (map level_strings (br_Bids book)) (map level_strings (br_Asks book)) (UnixMilli (br_Time book))).

Definition Candles c (id interval : string) (start stop : time) (limit : Z) : result error (list MCandle) :=
  check validInterval interval else EText "unsupported candle interval" ;;
  found <-? connected c id ;;
  let '(instrument, client) := found in
  let limit := if (limit <=? 0) || (1000 <? limit) then 500 else limit in
  page <-? cn_Candles client (mi_native instrument) interval start stop limit ;;
  Ok (sort_slice (λ a b, mc_Time a <? mc_Time b) (map projectCandle page)).

(** The fold of [Stats] over the last 24 candles. *)
Record candle_range := mkRange { cr_high : D; cr_low : D; cr_volume : D }.
Definition range_step (r : candle_range) (candle : Candle D) : candle_range :=
  mkRange (d_max (cr_high r) (ca_High candle)) (d_min (cr_low r) (ca_Low candle)) (d_add (cr_volume r) (ca_Volume candle)).

Definition last_24 (candles : list (Candle D)) : list (Candle D) :=
  let sorted := sort_slice (λ a b, Before (ca_OpenTime a) (ca_OpenTime b)) candles in
  if (24 <? length sorted)%nat then drop (length sorted - 24) sorted else sorted.

Definition candle_stats (candles : list (Candle D)) : Stats24h :=
  match candles with
  | [] => mkStats "" "" "" "" "" "" 0 ""
  | first :: _ =>
      let r := foldl range_step (mkRange (ca_High first) (ca_Low first) d_zero) candles in
      mkStats (d_string (ca_Close (List.last candles first))) (d_string (ca_Open first))
        (d_string (cr_high r)) (d_string (cr_low r)) (d_string (cr_volume r)) "" 0 ""
  end.

Definition Stats c (id : string) (now : time) : result error Stats24h :=
  found <-? connected c id ;;
  let '(instrument, client) := found in
  page <-? cn_Candles client (mi_native instrument) "1h" (Add now (- 24 * Hour)) now 25 ;;
  let stats := candle_stats (last_24 page) in
  if String.eqb (mi_Product instrument) ProductPerp then
    let '(rate, supported, err) := cn_FundingRate client (mi_native instrument) in
    match err with
    | None =>
        if supported then
          Ok (mkStats (ss_Last stats) (ss_Open24h stats) (ss_High24h stats) (ss_Low24h stats) (ss_Volume24h stats)
                (d_string (fg_Rate rate))
                (if negb (IsZero (fg_NextFundingTime rate)) then UnixMilli (fg_NextFundingTime rate) else ss_NextFunding stats)
                (if od_Valid (fg_MarkPrice rate) then d_string (od_Value (fg_MarkPrice rate)) else ss_Mark stats))
        else Ok stats
    | Some _ => Ok stats
    end
  else Ok stats.
End feeds.

(** ** Projections *)

Section projections.
Context `{DecimalLaws D}.
Implicit Types (l : list (Candle D)).

(** A key is served exactly for a known instrument and a channel it has. *)
Lemma ValidKey_iff (c : Catalog D) key :
  ValidKey c key = Ok tt ↔
  ∃ instrument, Get c (hk_Instrument key) = Ok instrument ∧
    (hk_Channel key = ChannelBook ∨ hk_Channel key = ChannelTrades ∨
     (hk_Channel key = ChannelCandle ∧ validInterval (hk_Interval key) = true) ∨
     (hk_Channel key = ChannelTicker ∧ mi_Product instrument = ProductPerp)).
Proof.
  unfold ValidKey, one_of. destruct (Get c (hk_Instrument key)) as [i|e]; [|naive_solver]. cbn [existsb].
  destruct (String.eqb_spec (hk_Channel key) ChannelBook) as [->|H1]; simpl; [naive_solver|].
  destruct (String.eqb_spec (hk_Channel key) ChannelTrades) as [->|H2]; simpl; [naive_solver|].
  destruct (String.eqb_spec (hk_Channel key) ChannelCandle) as [->|H3].
  { rewrite check_Ok. split; [naive_solver|]. intros (i' & [= <-] & [?|[?|[[_ ?]|[? _]]]]); done. }
  destruct (String.eqb_spec (hk_Channel key) ChannelTicker) as [->|H4].
  { rewrite check_Ok, String.eqb_eq. split; [naive_solver|]. intros (i' & [= <-] & [?|[?|[[? _]|[_ ?]]]]); done. }
  split; [done|]. naive_solver.
Qed.

(** Every message of a source is for its own topic, and carries what that
    channel carries; all but trades are retained for late joiners. *)
Definition for_topic (key : HKey) (emitted : Message * bool) : Prop :=
  ms_Channel emitted.1 = hk_Channel key ∧ ms_Instrument emitted.1 = hk_Instrument key ∧ ms_Account emitted.1 = "" ∧
  match ms_Data emitted.1 with
  | PBook _ => hk_Channel key = ChannelBook ∧ emitted.2 = true
  | PTrades trades => hk_Channel key = ChannelTrades ∧ emitted.2 = false ∧ length trades = 1%nat
  | PCandle _ => hk_Channel key = ChannelCandle ∧ ms_Interval emitted.1 = hk_Interval key ∧ emitted.2 = true
  | PTicker _ => hk_Channel key = ChannelTicker ∧ emitted.2 = true
  end.
Lemma Source_for_topic connectors (c : Catalog D) key : Forall (for_topic key) (Source connectors c key).1.
Proof.
  unfold Source. destruct (connected _ _ _) as [[i client]|e]; [|constructor].
  destruct (cn_WebSocket client) as [socket|]; [|constructor].
  destruct (String.eqb_spec (hk_Channel key) ChannelBook) as [Hk|_].
  { destruct (so_WatchOrderBook _ _); [|constructor]. destruct (pump_run _ _) as [[p books] r]. apply Forall_fmap, Forall_true. done. }
  destruct (String.eqb_spec (hk_Channel key) ChannelTrades) as [Hk|_].
  { destruct (so_WatchPublicTrades _ _); [|constructor]. destruct (feed_pump _) as [events r]. apply Forall_fmap, Forall_true. done. }
  destruct (String.eqb_spec (hk_Channel key) ChannelCandle) as [Hk|_].
  { destruct (so_WatchCandles _ _ _); [|constructor]. destruct (feed_pump _) as [events r]. apply Forall_fmap, Forall_true.
    intros event. unfold for_topic, message; simpl. by rewrite Hk. }
  destruct (String.eqb_spec (hk_Channel key) ChannelTicker) as [Hk|_]; [|constructor].
  destruct (so_WatchDerivativeReference _) as [watch|]; [|constructor]. destruct (watch _); [|constructor].
  destruct (feed_pump _) as [events r]. apply Forall_fmap, Forall_true. done.
Qed.

(** The last valid value of a field. *)
Fixpoint last_valid (current : string) (values : list (OptionalDecimal D)) : string :=
  match values with
  | [] => current
  | v :: rest => last_valid (if od_Valid v then d_string (od_Value v) else current) rest
  end.

(** A ticker shows the latest value published for each field: a message that
    leaves one out does not clear it. *)
Lemma mergeTicker_latest (events : list (DerivativeReferenceEvent D * time)) current :
  let ticker := foldl (λ t '(e, now), mergeTicker t e now) current events in
  tk_Mark ticker = last_valid (tk_Mark current) (map (λ e, dr_MarkPrice e.1) events) ∧
  tk_Index ticker = last_valid (tk_Index current) (map (λ e, dr_IndexPrice e.1) events) ∧
  tk_Funding ticker = last_valid (tk_Funding current) (map (λ e, dr_FundingRate e.1) events) ∧
  tk_OpenInterest ticker = last_valid (tk_OpenInterest current) (map (λ e, dr_OpenInterest e.1) events).
Proof.
  revert current. induction events as [|[e now] l IH]; intros current; [done|]. simpl.
  apply (IH (mergeTicker current e now)).
Qed.

(** ** Statistics *)

Lemma d_max_value (a b : D) : (d_value a <= d_value (d_max a b))%Qc ∧ (d_value b <= d_value (d_max a b))%Qc.
Proof.
  unfold d_max. destruct (d_less_than a b) eqn:E.
  - apply d_less_than_spec in E. split; [by apply Qclt_le_weak|apply Qcle_refl].
  - apply d_less_than_false in E. split; [apply Qcle_refl|done].
Qed.
Lemma d_min_value (a b : D) : (d_value (d_min a b) <= d_value a)%Qc ∧ (d_value (d_min a b) <= d_value b)%Qc.
Proof.
  unfold d_min. destruct (d_less_than b a) eqn:E.
  - apply d_less_than_spec in E. split; [by apply Qclt_le_weak|apply Qcle_refl].
  - apply d_less_than_false in E. split; [apply Qcle_refl|done].
Qed.

Definition total_volume l : Qc := foldr (λ c acc, d_value (ca_Volume c) + acc)%Qc 0%Qc l.

Lemma range_fold l r :
  let r' := foldl range_step r l in
  (d_value (cr_high r) <= d_value (cr_high r'))%Qc ∧ (d_value (cr_low r') <= d_value (cr_low r))%Qc ∧
  (∀ c, c ∈ l → (d_value (ca_High c) <= d_value (cr_high r'))%Qc ∧ (d_value (cr_low r') <= d_value (ca_Low c))%Qc) ∧
  (cr_high r' = cr_high r ∨ ∃ c, c ∈ l ∧ cr_high r' = ca_High c) ∧
  (cr_low r' = cr_low r ∨ ∃ c, c ∈ l ∧ cr_low r' = ca_Low c) ∧
  d_value (cr_volume r') = (d_value (cr_volume r) + total_volume l)%Qc.
Proof.
  revert r. induction l as [|c l IH]; intros r.
  { simpl. split_and!; [apply Qcle_refl|apply Qcle_refl|set_solver|by left|by left|by rewrite Qcplus_0_r]. }
  change (foldl range_step r (c :: l)) with (foldl range_step (range_step r c) l).
  destruct (IH (range_step r c)) as (Hh & Hl & Hall & Hhin & Hlin & Hv). cbv zeta.
  set (r' := foldl range_step (range_step r c) l) in *. cbn [range_step cr_high cr_low cr_volume] in *.
  destruct (d_max_value (cr_high r) (ca_High c)) as [M1 M2], (d_min_value (cr_low r) (ca_Low c)) as [m1 m2].
  split_and!.
  - eapply Qcle_trans; [exact M1|exact Hh].
  - eapply Qcle_trans; [exact Hl|exact m1].
  - intros x [->|Hx]%elem_of_cons; [|by apply Hall]. split; (eapply Qcle_trans; [|eassumption]); done.
  - destruct Hhin as [E|(x & Hx & E)]; [|right; exists x; split; [by right|done]].
    unfold d_max in E. destruct (d_less_than _ _); [right; exists c; split; [left|done]|by left].
  - destruct Hlin as [E|(x & Hx & E)]; [|right; exists x; split; [by right|done]].
    unfold d_min in E. destruct (d_less_than _ _); [right; exists c; split; [left|done]|by left].
  - rewrite Hv, d_value_add. simpl. by rewrite Qcplus_assoc.
Qed.

(** The kept candles are the latest ones: none that was dropped opens after one
    that was kept, and they are in time order. *)
Lemma last_24_spec l :
  ∃ dropped, dropped ++ last_24 l ≡ₚ l ∧ (length (last_24 l) ≤ 24)%nat ∧
    (length (last_24 l) = 24%nat ∨ dropped = []) ∧
    StronglySorted (λ a b, ca_OpenTime a ≤ ca_OpenTime b) (last_24 l) ∧
    ∀ a b, a ∈ dropped → b ∈ last_24 l → ca_OpenTime a ≤ ca_OpenTime b.
Proof.
  unfold last_24. set (sorted := sort_slice _ l).
  assert (Hs : StronglySorted (λ a b : Candle D, ca_OpenTime a ≤ ca_OpenTime b) sorted)
    by apply (sort_by_Z_sorted (λ c : Candle D, ca_OpenTime c)).
  assert (Hp : sorted ≡ₚ l) by apply sort_slice_perm.
  destruct (Nat.ltb_spec 24 (length sorted)) as [Hlt|Hge].
  - exists (take (length sorted - 24) sorted). pose proof Hs as Hs'.
    rewrite <- (take_drop (length sorted - 24) sorted) in Hs'. apply StronglySorted_app in Hs' as (Hc & _ & Hd).
    rewrite take_drop. split_and!; [done|rewrite length_drop; lia|left; rewrite length_drop; lia|done|done].
  - exists []. split_and!; [done|lia|by right|done|set_solver].
Qed.

(** The 24-hour statistics are those of the latest (up to) 24 hourly candles:
    the high is one of their highs and no high exceeds it, the low likewise, the
    volume is their sum, the open is the earliest's and the last price the
    latest's. *)
Theorem candle_stats_correct page :
  last_24 page ≠ [] →
  let stats := candle_stats (last_24 page) in
  (∃ high, ss_High24h stats = d_string high ∧ (∃ c, c ∈ last_24 page ∧ ca_High c = high) ∧
           ∀ c, c ∈ last_24 page → (d_value (ca_High c) <= d_value high)%Qc) ∧
  (∃ low, ss_Low24h stats = d_string low ∧ (∃ c, c ∈ last_24 page ∧ ca_Low c = low) ∧
          ∀ c, c ∈ last_24 page → (d_value low <= d_value (ca_Low c))%Qc) ∧
  (∃ volume, ss_Volume24h stats = d_string volume ∧ d_value volume = total_volume (last_24 page)) ∧
  (∃ first, first ∈ last_24 page ∧ ss_Open24h stats = d_string (ca_Open first) ∧
            ∀ c, c ∈ last_24 page → ca_OpenTime first ≤ ca_OpenTime c) ∧
  (∃ latest, latest ∈ page ∧ ss_Last stats = d_string (ca_Close latest) ∧
             ∀ c, c ∈ page → ca_OpenTime c ≤ ca_OpenTime latest).
Proof.
  intros Hne stats. destruct (last_24_spec page) as (dropped & Hp & _ & _ & Hs & Hdrop).
  unfold stats. destruct (last_24 page) as [|first rest] eqn:El; [done|]. cbn [candle_stats].
  destruct (range_fold (first :: rest) (mkRange (ca_High first) (ca_Low first) d_zero)) as (_ & _ & Hall & Hh & Hl & Hv).
  set (r := foldl range_step _ _) in *. cbn [ss_High24h ss_Low24h ss_Volume24h ss_Open24h ss_Last cr_high cr_low cr_volume] in *.
  assert (Hfirst : first ∈ first :: rest) by left.
  split_and!.
  - exists (cr_high r). split_and!; [done| |by apply Hall]. destruct Hh as [->|(c & Hc & ->)]; eauto.
  - exists (cr_low r). split_and!; [done| |by apply Hall]. destruct Hl as [->|(c & Hc & ->)]; eauto.
  - exists (cr_volume r). split; [done|]. rewrite Hv, d_value_zero. apply Qcplus_0_l.
  - exists first. split_and!; [done|done|]. apply StronglySorted_inv in Hs as [_ Hs]. rewrite Forall_forall in Hs.
    intros c [->|Hc]%elem_of_cons; [lia|by apply Hs].
  - destruct (exists_last (l := first :: rest) ltac:(done)) as (l' & latest & E). exists latest.
    rewrite E, last_last. assert (Hlatest : latest ∈ first :: rest) by (rewrite E; set_solver).
    split_and!; [rewrite <- Hp; set_solver|done|]. intros c Hc. rewrite <- Hp in Hc.
    apply elem_of_app in Hc as [Hc|Hc]; [by apply Hdrop|]. rewrite E in Hs, Hc.
    apply elem_of_app in Hc as [Hc| ->%list_elem_of_singleton]; [|lia].
    by apply (StronglySorted_app_1_elem_of _ l' [latest] c latest Hs Hc); left.
Qed.

(** Candles come back in time order, each of the venue's once. *)
Lemma Candles_sorted connectors (c : Catalog D) id interval start stop limit result :
  Candles connectors c id interval start stop limit = Ok result →
  StronglySorted (λ a b, mc_Time a ≤ mc_Time b) result ∧
  ∃ instrument client n, connected connectors c id = Ok (instrument, client) ∧ 0 < n ≤ 1000 ∧
    ∃ page, cn_Candles client (mi_native instrument) interval start stop n = Ok page ∧ result ≡ₚ map projectCandle page.
Proof.
  unfold Candles. intros [_ Hc]%check_Ok. apply bind_Ok in Hc as ([instrument client] & Hcon & Hc).
  apply bind_Ok in Hc as (page & Hpage & [= <-]). split; [apply (sort_by_Z_sorted mc_Time)|].
  eexists instrument, client, _. split; [done|]. split; [|exists page; split; [exact Hpage|apply sort_slice_perm]].
  destruct (Z.leb_spec limit 0), (Z.ltb_spec 1000 limit); simpl; lia.
Qed.
End projections.

(** ** Concrete inputs *)

Definition hour_candle (hour high low volume : Z) : Candle Z :=
  mkCandle (unix_epoch + hour * Hour) (unix_epoch + (hour + 1) * Hour) low high low high volume true.
Definition sample_page : list (Candle Z) := map (λ n, hour_candle (30 - n) (100 + n) (90 - n) 2) [0; 3; 1; 2].

Example sample_stats : candle_stats (last_24 sample_page) = mkStats "100" "87" "103" "87" "8" "" 0 "".
Proof. vm_compute. reflexivity. Qed.

Lemma candle_stats_correct_witness :
  ∃ volume : Z, ss_Volume24h (candle_stats (last_24 sample_page)) = d_string volume ∧
                d_value volume = total_volume (last_24 sample_page).
Proof.
  apply (candle_stats_correct sample_page). intros E. apply (f_equal (@length _)) in E. vm_compute in E. discriminate.
Defined.
