(* ===== verification/Dispatch.v ===== *)
(** * Websocket callback dispatch

    [internal/wsdispatch/ws.go]: the dispatcher that serializes callbacks and
    holds them back during recovery.  One goroutine reads the connection and
    calls [DispatchChecked] message by message; one recovery at a time calls
    [Resume]; [Pause] and [Reset] come from anywhere, also from callbacks.  A
    transition is one critical section of [mu], or the end of a callback that
    runs under [deliverMu].  Callbacks are numbered in the order they are
    dispatched.  The comparison of [deliverAtRevision] and the start of the
    callback are one transition: from there on the callback counts as executing
    under [deliverMu]. *)

From Stdlib Require Import ZArith Lia.
From stdpp Require Import base list sets.
From S2P Require Import Prelude.

#[local] Open Scope nat_scope.

(** ** State *)

(** [Dispatcher]; [revision] is a uint64. *)
Record Dispatcher := mkDispatcher {
  dp_paused : bool; dp_buffer : list nat; dp_revision : Z; dp_maxBuffer : nat; dp_overflow : bool;
}.
(** Where the reading goroutine is inside [DispatchChecked]. *)
Inductive ingress := Reading | Accepted (callback : nat) (revision : Z) | Executing (callback : nat).
(** Where the recovering goroutine is inside [Resume]: before the hook, running
    it, about to deliver or look for more, running a callback. *)
Inductive recovery :=
| NoRecovery
| BeforeHook (revision : Z) (buffer : list nat)
| InHook (revision : Z) (buffer : list nat)
| Draining (revision : Z) (buffer : list nat)
| InCallback (revision : Z) (buffer : list nat).
(** What the clients see; a reset notes how many callbacks had been dispatched. *)
Inductive observed := Started (callback : nat) | HookStarted | Refused (callback : nat) | WasReset (dispatched : nat).

Record system := mkSystem {
  sy_d : Dispatcher; sy_ingress : ingress; sy_recovery : recovery;
  sy_next : nat;                  (* the number of callbacks dispatched *)
  sy_history : list observed;     (* the latest first *)
}.

Definition NewDispatcher : Dispatcher := mkDispatcher false [] 0 0 false.
(** [None]: the call panics. *)
Definition NewBoundedDispatcher (maxBuffered : nat) : option Dispatcher :=
  if maxBuffered <? 1 then None else Some (mkDispatcher false [] 0 maxBuffered false).
Definition DefaultBufferLimit : nat := 1024.

Definition initial (d : Dispatcher) : system := mkSystem d Reading NoRecovery 0 [].

(** ** Critical sections *)

Definition Pause (d : Dispatcher) : Dispatcher :=
  mkDispatcher true (dp_buffer d) (dp_revision d) (dp_maxBuffer d) (dp_overflow d).

Definition Reset_dispatcher (d : Dispatcher) : Dispatcher :=
  mkDispatcher false [] (wrapU64 (dp_revision d + 1)) (dp_maxBuffer d) false.

(** The first section of [DispatchChecked]. *)
Inductive admission := Buffered | BufferFull | Direct (revision : Z).
Definition enqueue (d : Dispatcher) (callback : nat) : Dispatcher * admission :=
  if dp_paused d then
    if dp_overflow d then (d, BufferFull)
    else if (0 <? dp_maxBuffer d) && (dp_maxBuffer d <=? length (dp_buffer d)) then
      (mkDispatcher true [] (wrapU64 (dp_revision d + 1)) (dp_maxBuffer d) true, BufferFull)
    else (mkDispatcher true (dp_buffer d ++ [callback]) (dp_revision d) (dp_maxBuffer d) false, Buffered)
  else (d, Direct (dp_revision d)).

(** The section of [Resume] that takes the buffer: [None] leaves the loop. *)
Definition take_buffer (d : Dispatcher) : Dispatcher * list nat :=
  (mkDispatcher (dp_paused d) [] (dp_revision d) (dp_maxBuffer d) (dp_overflow d), dp_buffer d).
Definition begin_resume (d : Dispatcher) : Dispatcher * option (list nat) :=
  if negb (dp_paused d) || dp_overflow d then (d, None)
  else let (d', buffer) := take_buffer d in (d', Some buffer).
Definition next_batch (d : Dispatcher) (revision : Z) : Dispatcher * option (list nat) :=
  if negb (dp_revision d =? revision)%Z then (d, None)
  else match dp_buffer d with
       | [] => (mkDispatcher false [] (dp_revision d) (dp_maxBuffer d) (dp_overflow d), None)
       | _ => let (d', buffer) := take_buffer d in (d', Some buffer)
       end.

(** [deliverAtRevision]: is the callback still current? *)
Definition current_revision (d : Dispatcher) (revision : Z) : bool := (dp_revision d =? revision)%Z.

(** Is [deliverMu] free? *)
Definition deliver_free (s : system) : bool :=
  match sy_ingress s with Executing _ => false | _ =>
    match sy_recovery s with InHook _ _ | InCallback _ _ => false | _ => true end end.

(** ** Transitions *)

Inductive label :=
| LPause | LReset
| LDispatch             (* the reader dispatches its next callback *)
| LDeliver | LReturn    (* the reader in [deliverAtRevision] *)
| LResume (hook : bool) | LDrain | LDrainReturn.

Definition set_d (s : system) (d : Dispatcher) : system :=
  mkSystem d (sy_ingress s) (sy_recovery s) (sy_next s) (sy_history s).
Definition set_ingress (s : system) (i : ingress) : system :=
  mkSystem (sy_d s) i (sy_recovery s) (sy_next s) (sy_history s).
Definition set_recovery (s : system) (r : recovery) : system :=
  mkSystem (sy_d s) (sy_ingress s) r (sy_next s) (sy_history s).
Definition observe (s : system) (o : observed) : system :=
  mkSystem (sy_d s) (sy_ingress s) (sy_recovery s) (sy_next s) (o :: sy_history s).

Definition dispatch_step (s : system) : option system :=
  match sy_ingress s with
  | Reading =>
      let callback := sy_next s in
      let (d, how) := enqueue (sy_d s) callback in
      let s' := mkSystem d Reading (sy_recovery s) (S callback) (sy_history s) in
      match how with
      | Buffered => Some s'
      | BufferFull => Some (observe s' (Refused callback))
      | Direct revision => Some (set_ingress s' (Accepted callback revision))
      end
  | _ => None
  end.

Definition deliver_step (s : system) : option system :=
  match sy_ingress s with
  | Accepted callback revision =>
      if deliver_free s then
        if current_revision (sy_d s) revision
        then Some (observe (set_ingress s (Executing callback)) (Started callback))
        else Some (set_ingress s Reading)
      else None
  | _ => None
  end.

Definition return_step (s : system) : option system :=
  match sy_ingress s with Executing _ => Some (set_ingress s Reading) | _ => None end.

Definition resume_step (s : system) (hook : bool) : option system :=
  match sy_recovery s with
  | NoRecovery =>
      let (d, batch) := begin_resume (sy_d s) in
      match batch with
      | None => Some (set_d s d)
      | Some buffer =>
          Some (set_recovery (set_d s d)
                  (if hook then BeforeHook (dp_revision d) buffer else Draining (dp_revision d) buffer))
      end
  | _ => None
  end.

Definition drain_step (s : system) : option system :=
  match sy_recovery s with
  | BeforeHook revision buffer =>
      if deliver_free s then
        if current_revision (sy_d s) revision
        then Some (observe (set_recovery s (InHook revision buffer)) HookStarted)
        else Some (set_recovery s NoRecovery)
      else None
  | Draining revision (callback :: buffer) =>
      if deliver_free s then
        if current_revision (sy_d s) revision
        then Some (observe (set_recovery s (InCallback revision buffer)) (Started callback))
        else Some (set_recovery s NoRecovery)
      else None
  | Draining revision [] =>
      let (d, batch) := next_batch (sy_d s) revision in
      match batch with
      | None => Some (set_recovery (set_d s d) NoRecovery)
      | Some buffer => Some (set_recovery (set_d s d) (Draining revision buffer))
      end
  | _ => None
  end.

Definition drain_return_step (s : system) : option system :=
  match sy_recovery s with
  | InHook revision buffer | InCallback revision buffer => Some (set_recovery s (Draining revision buffer))
  | _ => None
  end.

Definition step (s : system) (l : label) : option system :=
  match l with
  | LPause => Some (set_d s (Pause (sy_d s)))
  | LReset => Some (observe (set_d s (Reset_dispatcher (sy_d s))) (WasReset (sy_next s)))
  | LDispatch => dispatch_step s
  | LDeliver => deliver_step s
  | LReturn => return_step s
  | LResume hook => resume_step s hook
  | LDrain => drain_step s
  | LDrainReturn => drain_return_step s
  end.
Fixpoint run (s : system) (labels : list label) : option system :=
  match labels with
  | [] => Some s
  | l :: rest => match step s l with Some s' => run s' rest | None => None end
  end.

(** ** What has been delivered since the last reset *)

Fixpoint delivered (history : list observed) : list nat :=
  match history with
  | [] | WasReset _ :: _ => []
  | Started callback :: rest => delivered rest ++ [callback]
  | _ :: rest => delivered rest
  end.
Fixpoint base (history : list observed) : nat :=
  match history with
  | [] => 0
  | WasReset n :: _ => n
  | _ :: rest => base rest
  end.

(** ** The invariant *)

Definition is_current (s : system) (revision : Z) : bool := current_revision (sy_d s) revision.
(** The callbacks a goroutine still holds, if they may still be delivered. *)
Definition held (current : bool) (callbacks : list nat) : list nat := if current then callbacks else [].
Definition reader_holds (s : system) : list nat :=
  match sy_ingress s with Accepted c r => held (is_current s r) [c] | _ => [] end.
Definition batch (r : recovery) : option (Z * list nat) :=
  match r with
  | NoRecovery => None
  | BeforeHook v b | InHook v b | Draining v b | InCallback v b => Some (v, b)
  end.
Definition recovery_holds (s : system) : list nat :=
  match batch (sy_recovery s) with Some (v, b) => held (is_current s v) b | None => [] end.
Definition outstanding (s : system) : list nat :=
  reader_holds s ++ recovery_holds s ++ dp_buffer (sy_d s).
Definition recovering (s : system) : bool :=
  match batch (sy_recovery s) with Some (v, _) => is_current s v | None => false end.

Record inv (n : Z) (s : system) : Prop := {
  inv_revision : (0 ≤ dp_revision (sy_d s) ≤ n)%Z;
  inv_reader : ∀ c r, sy_ingress s = Accepted c r → (r ≤ dp_revision (sy_d s))%Z;
  inv_recovery : ∀ v b, batch (sy_recovery s) = Some (v, b) → (v ≤ dp_revision (sy_d s))%Z;
  inv_overflow : dp_overflow (sy_d s) = true →
    dp_paused (sy_d s) = true ∧ dp_buffer (sy_d s) = [] ∧ recovering s = false ∧ reader_holds s = [];
  inv_unpaused : dp_paused (sy_d s) = false → dp_buffer (sy_d s) = [] ∧ recovering s = false;
  inv_one_holder : reader_holds s ≠ [] → recovery_holds s = [] ∧ dp_buffer (sy_d s) = [];
  inv_base : base (sy_history s) ≤ sy_next s;
  inv_prefix : ∃ k, delivered (sy_history s) = seq (base (sy_history s)) k ∧ base (sy_history s) + k ≤ sy_next s;
  inv_all : dp_overflow (sy_d s) = false →
    delivered (sy_history s) ++ outstanding s = seq (base (sy_history s)) (sy_next s - base (sy_history s));
}.

Lemma seq_prefix (d l : list nat) b m : d ++ l = seq b m → d = seq b (length d) ∧ length d ≤ m.
Proof.
  intros E. pose proof (f_equal length E) as Hl. rewrite length_app, length_seq in Hl.
  split; [|lia]. rewrite <- (take_app_length d l), E, take_seq at 1. f_equal. lia.
Qed.
Lemma seq_extend b n : b ≤ n → seq b (S n - b) = seq b (n - b) ++ [n].
Proof. intros Hb. rewrite Nat.sub_succ_l, seq_S by done. f_equal. f_equal. lia. Qed.

Lemma inv_initial d : dp_paused d = false → dp_buffer d = [] → dp_overflow d = false → dp_revision d = 0%Z → inv 0 (initial d).
Proof.
  intros Hp Hb Ho Hr. split; simpl; rewrite ?Hr, ?Hb, ?Ho; try done; try lia.
  exists 0. simpl. split; [done|lia].
Qed.

(** Once the invariant gives everything dispatched, it gives the prefix. *)
Lemma prefix_of_all s :
  base (sy_history s) ≤ sy_next s →
  delivered (sy_history s) ++ outstanding s = seq (base (sy_history s)) (sy_next s - base (sy_history s)) →
  ∃ k, delivered (sy_history s) = seq (base (sy_history s)) k ∧ base (sy_history s) + k ≤ sy_next s.
Proof. intros Hb [E Hle]%seq_prefix. exists (length (delivered (sy_history s))). split; [done|lia]. Qed.

(** A new revision leaves nothing that an earlier one holds. *)
Lemma stale_reader s d :
  (∀ c r, sy_ingress s = Accepted c r → (r < dp_revision d)%Z) → reader_holds (set_d s d) = [].
Proof.
  intros Hr. unfold reader_holds, is_current, current_revision; simpl. destruct (sy_ingress s) as [|c r|c]; [done| |done].
  specialize (Hr c r eq_refl). destruct (Z.eqb_spec (dp_revision d) r); [lia|done].
Qed.
Lemma stale_recovery s d :
  (∀ v b, batch (sy_recovery s) = Some (v, b) → (v < dp_revision d)%Z) →
  recovery_holds (set_d s d) = [] ∧ recovering (set_d s d) = false.
Proof.
  intros Hr. unfold recovery_holds, recovering, is_current, current_revision; simpl.
  destruct (batch (sy_recovery s)) as [[v b]|]; [|done]. specialize (Hr v b eq_refl).
  destruct (Z.eqb_spec (dp_revision d) v); [lia|done].
Qed.

Section steps.
Context (n : Z) (s : system) (Hinv : inv n s) (Hn : (n < 2 ^ 64 - 1)%Z).

Lemma bump_revision : wrapU64 (dp_revision (sy_d s) + 1) = (dp_revision (sy_d s) + 1)%Z.
Proof. apply wrapU64_id. pose proof (inv_revision _ _ Hinv). lia. Qed.

Lemma pause_inv : inv (n + 1) (set_d s (Pause (sy_d s))).
Proof. destruct Hinv. split; simpl; try done; try lia. intros Ho. destruct (inv_overflow0 Ho) as (_ & ?). done. Qed.

Lemma reset_inv : inv (n + 1) (observe (set_d s (Reset_dispatcher (sy_d s))) (WasReset (sy_next s))).
Proof.
  destruct (stale_recovery s (Reset_dispatcher (sy_d s))) as [Hh Hc].
  { intros v b Hb. cbn [Reset_dispatcher dp_revision]. rewrite bump_revision. pose proof (inv_recovery _ _ Hinv v b Hb). lia. }
  assert (Hr : reader_holds (set_d s (Reset_dispatcher (sy_d s))) = []).
  { apply stale_reader. intros c r Hr. cbn [Reset_dispatcher dp_revision]. rewrite bump_revision. pose proof (inv_reader _ _ Hinv c r Hr). lia. }
  unfold recovery_holds, recovering, reader_holds in *.
  split; cbn [observe set_d sy_d sy_ingress sy_recovery sy_next sy_history Reset_dispatcher dp_revision dp_buffer dp_paused dp_overflow base delivered];
    rewrite ?bump_revision; try done.
  - pose proof (inv_revision _ _ Hinv). lia.
  - intros c r E. pose proof (inv_reader _ _ Hinv c r E). lia.
  - intros v b E. pose proof (inv_recovery _ _ Hinv v b E). lia.
  - exists 0. simpl. split; [done|lia].
  - intros _. unfold outstanding, reader_holds, recovery_holds. cbn [observe sy_d sy_ingress sy_recovery].
    etransitivity; [|symmetry; by rewrite Nat.sub_diag]. simpl. 
    match goal with |- ?a ++ ?b ++ [] = _ => change a with (reader_holds (set_d s (Reset_dispatcher (sy_d s)))); change b with (recovery_holds (set_d s (Reset_dispatcher (sy_d s)))) end.
    unfold reader_holds, recovery_holds. by rewrite Hr, Hh.
Qed.

Lemma reader_holds_reading : sy_ingress s = Reading → reader_holds s = [].
Proof. unfold reader_holds. by intros ->. Qed.

Lemma all_delivered_prefix :
  dp_overflow (sy_d s) = false → ∃ k, delivered (sy_history s) = seq (base (sy_history s)) k ∧ base (sy_history s) + k ≤ sy_next s.
Proof. intros Ho. apply prefix_of_all; [apply Hinv|by apply Hinv]. Qed.

(** The reader's admissions: refused, overflowing, buffered, direct. *)
Lemma refuse_inv :
  sy_ingress s = Reading → dp_overflow (sy_d s) = true →
  inv (n + 1) (observe (mkSystem (sy_d s) Reading (sy_recovery s) (S (sy_next s)) (sy_history s)) (Refused (sy_next s))).
Proof.
  intros Hi Ho. pose proof (reader_holds_reading Hi) as Hr. destruct Hinv as [? _ ? Hov Hup _ Hb (k & Hk & Hle) _].
  destruct (Hov Ho) as (Hp & Hbuf & Hrec & _). split; simpl; try done; try lia.
  - exists k. split; [done|lia].
  - by rewrite Ho.
Qed.

Lemma overflow_inv :
  sy_ingress s = Reading →
  inv (n + 1) (observe (mkSystem (mkDispatcher true [] (wrapU64 (dp_revision (sy_d s) + 1)) (dp_maxBuffer (sy_d s)) true)
                          Reading (sy_recovery s) (S (sy_next s)) (sy_history s)) (Refused (sy_next s))).
Proof.
  intros Hi. rewrite bump_revision.
  destruct (stale_recovery s (mkDispatcher true [] (dp_revision (sy_d s) + 1) (dp_maxBuffer (sy_d s)) true)) as [Hh Hc].
  { intros v b E. simpl. pose proof (inv_recovery _ _ Hinv v b E). lia. }
  destruct Hinv as [? _ Hrec Hov Hup _ Hb (k & Hk & Hle) _]. split; simpl; try done; try lia.
  - intros v b E. pose proof (Hrec v b E). lia.
  - exists k. split; [done|lia].
Qed.

Lemma buffer_inv :
  sy_ingress s = Reading → dp_paused (sy_d s) = true → dp_overflow (sy_d s) = false →
  inv (n + 1) (mkSystem (mkDispatcher true (dp_buffer (sy_d s) ++ [sy_next s]) (dp_revision (sy_d s)) (dp_maxBuffer (sy_d s)) false)
                 Reading (sy_recovery s) (S (sy_next s)) (sy_history s)).
Proof.
  intros Hi Hp Ho. pose proof (reader_holds_reading Hi) as Hr.
  destruct Hinv as [? _ ? _ _ _ Hb (k & Hk & Hle) Hall]. split; simpl; try done; try lia.
  - exists k. split; [done|lia].
  - intros _. specialize (Hall Ho). unfold outstanding in *. rewrite Hr in Hall. simpl in *.
    rewrite seq_extend, <- Hall by done. by rewrite !app_assoc.
Qed.

Lemma direct_inv :
  sy_ingress s = Reading → dp_paused (sy_d s) = false →
  inv (n + 1) (mkSystem (sy_d s) (Accepted (sy_next s) (dp_revision (sy_d s))) (sy_recovery s) (S (sy_next s)) (sy_history s)).
Proof.
  intros Hi Hp. pose proof (reader_holds_reading Hi) as Hr.
  destruct Hinv as [? _ ? Hov Hup _ Hb (k & Hk & Hle) Hall]. destruct (Hup Hp) as [Hbuf Hrec].
  assert (Hh : recovery_holds s = []).
  { unfold recovery_holds, recovering in *. destruct (batch (sy_recovery s)) as [[v b]|]; [by rewrite Hrec|done]. }
  assert (Ho : dp_overflow (sy_d s) = false).
  { destruct (dp_overflow (sy_d s)) eqn:Ho; [|done]. destruct (Hov eq_refl). congruence. }
  split; simpl; try done; try lia.
  - intros c r [= <- <-]. lia.
  - congruence.
  - exists k. split; [done|lia].
  - intros _. specialize (Hall Ho). unfold outstanding in *.
    change (recovery_holds (mkSystem _ _ _ _ _)) with (recovery_holds s). simpl. rewrite Hr, Hh, Hbuf in *. simpl in *.
    rewrite app_nil_r in Hall. unfold reader_holds, is_current, current_revision. simpl. rewrite Z.eqb_refl. simpl.
    by rewrite seq_extend, Hall by done.
Qed.

Lemma dispatch_inv s' : dispatch_step s = Some s' → inv (n + 1) s'.
Proof.
  unfold dispatch_step, enqueue. destruct (sy_ingress s) as [|c r|c] eqn:Hi; [|done..].
  destruct (dp_paused (sy_d s)) eqn:Hp; [|intros [= <-]; by apply direct_inv].
  destruct (dp_overflow (sy_d s)) eqn:Ho; [intros [= <-]; by apply refuse_inv|].
  destruct (_ && _); intros [= <-]; [by apply overflow_inv|by apply buffer_inv].
Qed.

Lemma not_current_held c r : is_current s r = true → sy_ingress s = Accepted c r → dp_overflow (sy_d s) = false.
Proof.
  intros Hc Hi. destruct (dp_overflow (sy_d s)) eqn:Ho; [|done]. destruct (inv_overflow _ _ Hinv Ho) as (_ & _ & _ & Hr).
  unfold reader_holds in Hr. by rewrite Hi, Hc in Hr.
Qed.

Lemma read_on_inv : reader_holds s = [] → inv (n + 1) (set_ingress s Reading).
Proof.
  intros Hr. destruct Hinv as [? _ ? Hov Hup Hone Hb Hk Hall]. split; simpl; try done; try lia.
  - intros Ho. by destruct (Hov Ho) as (? & ? & ? & _).
  - intros Ho. specialize (Hall Ho). unfold outstanding in *. rewrite Hr in Hall. exact Hall.
Qed.

Lemma deliver_inv s' : deliver_step s = Some s' → inv (n + 1) s'.
Proof.
  unfold deliver_step. destruct (sy_ingress s) as [|c r|c] eqn:Hi; [done| |done].
  destruct (deliver_free s); [|done]. destruct (current_revision (sy_d s) r) eqn:Hc; intros [= <-].
  - pose proof (not_current_held c r Hc Hi) as Ho.
    assert (Hr : reader_holds s = [c]) by (unfold reader_holds, is_current; by rewrite Hi, Hc).
    destruct Hinv as [? _ ? Hov Hup Hone Hb _ Hall]. destruct (Hone ltac:(by rewrite Hr)) as [Hh Hbuf].
    specialize (Hall Ho). unfold outstanding in Hall. rewrite Hr, Hh, Hbuf in Hall. simpl in Hall.
    split; simpl; try done; try lia.
    + rewrite Ho. done.
    + exists (sy_next s - base (sy_history s)). split; [done|lia].
    + intros _. unfold outstanding. change (recovery_holds (observe _ _)) with (recovery_holds s). simpl.
      rewrite Hh, Hbuf. unfold reader_holds; simpl. by rewrite app_nil_r.
  - apply read_on_inv. unfold reader_holds, is_current. by rewrite Hi, Hc.
Qed.

Lemma return_inv s' : return_step s = Some s' → inv (n + 1) s'.
Proof.
  unfold return_step. destruct (sy_ingress s) as [|c r|c] eqn:Hi; [done..|]. intros [= <-].
  apply read_on_inv. unfold reader_holds. by rewrite Hi.
Qed.

(** Replacing the recovery by one that holds the same callbacks. *)
Lemma move_inv r o :
  match o with Some HookStarted | None => True | _ => False end →
  batch r = batch (sy_recovery s) →
  inv (n + 1) (match o with Some e => observe (set_recovery s r) e | None => set_recovery s r end).
Proof.
  intros Ho Hb.
  assert (Hsame : reader_holds (set_recovery s r) = reader_holds s ∧ recovery_holds (set_recovery s r) = recovery_holds s ∧
                  recovering (set_recovery s r) = recovering s).
  { unfold reader_holds, recovery_holds, recovering; simpl. by rewrite Hb. }
  destruct Hsame as (H1 & H2 & H3).
  destruct Hinv as [? ? ? Hov Hup Hone Hbase Hk Hall]. unfold outstanding in Hall.
  destruct o as [[]|]; try done; split; simpl; rewrite ?Hb; try done; try lia;
    unfold outstanding; simpl; change (reader_holds (observe ?x _)) with (reader_holds x);
    change (recovery_holds (observe ?x _)) with (recovery_holds x); change (recovering (observe ?x _)) with (recovering x);
    rewrite ?H1, ?H2, ?H3; done.
Qed.

(** Giving up a recovery whose callbacks are stale. *)
Lemma abandon_inv : recovering s = false → inv (n + 1) (set_recovery s NoRecovery).
Proof.
  intros Hrec. assert (Hh : recovery_holds s = []).
  { unfold recovery_holds, recovering in *. destruct (batch (sy_recovery s)) as [[v b]|]; [by rewrite Hrec|done]. }
  destruct Hinv as [? ? ? Hov Hup Hone Hb Hk Hall]. split; simpl; try done; try lia.
  - intros Ho. by destruct (Hov Ho) as (? & ? & _ & ?).
  - intros Hp. by destruct (Hup Hp).
  - intros Hr. by destruct (Hone Hr).
  - intros Ho. specialize (Hall Ho). unfold outstanding in *. rewrite Hh in Hall. exact Hall.
Qed.

(** Taking the buffer into a recovery that holds nothing. *)
Lemma take_inv r :
  dp_paused (sy_d s) = true → dp_overflow (sy_d s) = false → recovery_holds s = [] →
  batch r = Some (dp_revision (sy_d s), dp_buffer (sy_d s)) →
  inv (n + 1) (set_recovery (set_d s (take_buffer (sy_d s)).1) r).
Proof.
  intros Hp Ho Hh Hb. destruct Hinv as [? ? ? Hov Hup Hone Hbase Hk Hall].
  assert (Hh' : recovery_holds (set_recovery (set_d s (take_buffer (sy_d s)).1) r) = dp_buffer (sy_d s)).
  { unfold recovery_holds, is_current, current_revision; simpl. by rewrite Hb, Z.eqb_refl. }
  split; simpl; try done; try lia.
  - intros v b. rewrite Hb. intros [= <- <-]. lia.
  - congruence.
  - congruence.
  - intros Hr. split; [|done]. etransitivity; [exact Hh'|by apply Hone].
  - intros _. specialize (Hall Ho). unfold outstanding in *. rewrite Hh in Hall.
    match goal with |- context [recovery_holds ?x] => replace (recovery_holds x) with (dp_buffer (sy_d s)) by (by symmetry) end.
    simpl in *.
    rewrite app_nil_r. exact Hall.
Qed.

Lemma weaken_inv : inv (n + 1) s.
Proof. destruct Hinv. split; try done. lia. Qed.

Lemma resume_inv hook s' : resume_step s hook = Some s' → inv (n + 1) s'.
Proof.
  unfold resume_step, begin_resume. destruct (sy_recovery s) eqn:Hr; [|done..].
  assert (Hh : recovery_holds s = []) by (unfold recovery_holds; by rewrite Hr).
  destruct (dp_paused (sy_d s)) eqn:Hp, (dp_overflow (sy_d s)) eqn:Ho; intros [= <-];
    try (replace (set_d s (sy_d s)) with s by (by destruct s); apply weaken_inv).
  apply (take_inv (if hook then _ else _)); [done..|]. by destruct hook.
Qed.

Lemma recovering_batch v b : batch (sy_recovery s) = Some (v, b) → recovering s = current_revision (sy_d s) v.
Proof. unfold recovering. by intros ->. Qed.

(** The recovery starts its next callback. *)
Lemma start_inv v c b :
  sy_recovery s = Draining v (c :: b) → current_revision (sy_d s) v = true →
  inv (n + 1) (observe (set_recovery s (InCallback v b)) (Started c)).
Proof.
  intros Hr Hc. assert (Hb : batch (sy_recovery s) = Some (v, c :: b)) by by rewrite Hr.
  assert (Hrec : recovering s = true) by by rewrite (recovering_batch v (c :: b)).
  assert (Hh : recovery_holds s = c :: b) by (unfold recovery_holds; rewrite Hb; unfold held, is_current; by rewrite Hc).
  destruct Hinv as [? ? Hle Hov Hup Hone Hbase _ Hall].
  assert (Ho : dp_overflow (sy_d s) = false).
  { destruct (dp_overflow (sy_d s)) eqn:Ho; [|done]. destruct (Hov eq_refl) as (_ & _ & ? & _). congruence. }
  assert (Hread : reader_holds s = []).
  { destruct (reader_holds s) eqn:E; [done|]. destruct (Hone ltac:(done)) as [? _]. congruence. }
  specialize (Hall Ho). unfold outstanding in Hall. rewrite Hread, Hh in Hall. simpl in Hall.
  assert (Hall' : (delivered (sy_history s) ++ [c]) ++ b ++ dp_buffer (sy_d s) =
                  seq (base (sy_history s)) (sy_next s - base (sy_history s))) by by rewrite <- app_assoc.
  split; simpl; try done; try lia.
  - intros v' b' [= <- <-]. by apply (Hle v (c :: b)).
  - rewrite Ho. done.
  - intros Hp. destruct (Hup Hp). congruence.
  - apply seq_prefix in Hall' as [E Hlen]. exists (length (delivered (sy_history s) ++ [c])). split; [done|lia].
  - intros _. unfold outstanding.
    match goal with |- context [reader_holds ?x] => replace (reader_holds x) with (@nil nat) by (by symmetry) end.
    unfold recovery_holds, is_current; simpl. rewrite Hc. exact Hall'.
Qed.

(** The recovery finds no more callbacks and lets deliveries through. *)
Lemma finish_inv v :
  sy_recovery s = Draining v [] → current_revision (sy_d s) v = true → dp_buffer (sy_d s) = [] →
  inv (n + 1) (set_recovery (set_d s (mkDispatcher false [] (dp_revision (sy_d s)) (dp_maxBuffer (sy_d s)) (dp_overflow (sy_d s)))) NoRecovery).
Proof.
  intros Hr Hc Hbuf. assert (Hb : batch (sy_recovery s) = Some (v, [])) by by rewrite Hr.
  assert (Hrec : recovering s = true) by by rewrite (recovering_batch v []).
  assert (Hh : recovery_holds s = []) by (unfold recovery_holds; rewrite Hb; unfold held; by destruct (is_current s v)).
  destruct Hinv as [? ? Hle Hov Hup Hone Hbase Hk Hall].
  assert (Ho : dp_overflow (sy_d s) = false).
  { destruct (dp_overflow (sy_d s)) eqn:Ho; [|done]. destruct (Hov eq_refl) as (_ & _ & ? & _). congruence. }
  rewrite Ho. split; simpl; try done; try lia.
  intros _. specialize (Hall Ho). unfold outstanding in *. rewrite Hh, Hbuf in Hall. exact Hall.
Qed.

Lemma drain_inv s' : drain_step s = Some s' → inv (n + 1) s'.
Proof.
  unfold drain_step. destruct (sy_recovery s) as [|v b|v b|v b|v b] eqn:Hr; try done.
  - destruct (deliver_free s); [|done]. destruct (current_revision (sy_d s) v) eqn:Hc; intros [= <-].
    + apply (move_inv _ (Some HookStarted)); [done|]. by rewrite Hr.
    + apply abandon_inv. rewrite (recovering_batch v b); [done|by rewrite Hr].
  - destruct b as [|c b].
    + unfold next_batch. fold (current_revision (sy_d s) v). destruct (current_revision (sy_d s) v) eqn:Hc; cbn [negb].
      * destruct (dp_buffer (sy_d s)) as [|c b] eqn:Hbuf; intros [= <-]; [by apply (finish_inv v)|].
        apply Z.eqb_eq in Hc as <-. assert (Hne : dp_buffer (sy_d s) ≠ []) by by rewrite Hbuf.
        apply (take_inv (Draining _ _)); [..|done].
        -- destruct (dp_paused (sy_d s)) eqn:Hp; [done|]. by destruct (inv_unpaused _ _ Hinv Hp).
        -- destruct (dp_overflow (sy_d s)) eqn:Ho; [|done]. by destruct (inv_overflow _ _ Hinv Ho) as (_ & ? & _).
        -- unfold recovery_holds, held. rewrite Hr. simpl. by destruct (is_current _ _).
      * intros [= <-]. replace (set_d s (sy_d s)) with s by (by destruct s).
        apply abandon_inv. rewrite (recovering_batch v []); [done|by rewrite Hr].
    + destruct (deliver_free s); [|done]. destruct (current_revision (sy_d s) v) eqn:Hc; intros [= <-].
      * by apply start_inv.
      * apply abandon_inv. rewrite (recovering_batch v (c :: b)); [done|by rewrite Hr].
Qed.

Lemma drain_return_inv s' : drain_return_step s = Some s' → inv (n + 1) s'.
Proof.
  unfold drain_return_step. destruct (sy_recovery s) as [|v b|v b|v b|v b] eqn:Hr; try done; intros [= <-];
    apply (move_inv _ None); [done| |done|]; by rewrite Hr.
Qed.

Lemma step_inv l s' : step s l = Some s' → inv (n + 1) s'.
Proof.
  destruct l; cbn [step]; [intros [= <-]; apply pause_inv|intros [= <-]; apply reset_inv|apply dispatch_inv|apply deliver_inv|
    apply return_inv|apply resume_inv|apply drain_inv|apply drain_return_inv].
Qed.
End steps.

(** ** Runs *)

Lemma run_inv labels n s s' :
  inv n s → (n + Z.of_nat (length labels) < 2 ^ 64)%Z → run s labels = Some s' → inv (n + Z.of_nat (length labels)) s'.
Proof.
  revert n s. induction labels as [|l labels IH]; intros n s Hinv Hn; simpl.
  { intros [= <-]. by rewrite Z.add_0_r. }
  destruct (step s l) as [s1|] eqn:Hl; [|done]. intros Hrun. simpl in Hn.
  replace (n + Z.of_nat (S (length labels)))%Z with ((n + 1) + Z.of_nat (length labels))%Z by lia.
  apply (IH _ s1); [|lia|done]. apply (step_inv n s Hinv ltac:(lia) l s1 Hl).
Qed.

(** A dispatcher as its constructors leave it. *)
Definition fresh (d : Dispatcher) : Prop := d = NewDispatcher ∨ ∃ m, NewBoundedDispatcher m = Some d.
Lemma fresh_inv d : fresh d → inv 0 (initial d).
Proof.
  intros [->|(m & Hm)]; [by apply inv_initial|]. unfold NewBoundedDispatcher in Hm.
  destruct (m <? 1); [done|]. injection Hm as <-. by apply inv_initial.
Qed.
Lemma reachable_inv d labels s :
  fresh d → run (initial d) labels = Some s → (Z.of_nat (length labels) < 2 ^ 64)%Z → inv (Z.of_nat (length labels)) s.
Proof. intros Hd Hrun Hn. by apply (run_inv labels 0 (initial d) s (fresh_inv d Hd)). Qed.

(** C6: whatever the interleaving of reader, recovery, pauses and resets, the
    callbacks started since the last reset are exactly the first ones dispatched
    since then: in order, none twice, none skipped, none from before the reset;
    and when the dispatcher is neither paused nor overflowed and the reader holds
    none, they are all of them. *)
Theorem deliveries_gapless d labels s :
  fresh d → run (initial d) labels = Some s → (Z.of_nat (length labels) < 2 ^ 64)%Z →
  ∃ k, delivered (sy_history s) = seq (base (sy_history s)) k ∧ base (sy_history s) + k ≤ sy_next s ∧
    (dp_paused (sy_d s) = false → reader_holds s = [] → base (sy_history s) + k = sy_next s).
Proof.
  intros Hd Hrun Hn. pose proof (reachable_inv d labels s Hd Hrun Hn) as Hinv.
  destruct Hinv as [_ _ _ Hov Hup _ Hb (k & Hk & Hle) Hall]. exists k. split_and!; [done|done|]. intros Hp Hr.
  destruct (Hup Hp) as [Hbuf Hrec].
  assert (Ho : dp_overflow (sy_d s) = false).
  { destruct (dp_overflow (sy_d s)); [|done]. destruct (Hov eq_refl). congruence. }
  assert (Hh : recovery_holds s = []).
  { unfold recovery_holds, recovering in *. destruct (batch (sy_recovery s)) as [[v b]|]; [by rewrite Hrec|done]. }
  specialize (Hall Ho). unfold outstanding in Hall. rewrite Hr, Hh, Hbuf, app_nil_r in Hall.
  apply (f_equal length) in Hk, Hall. rewrite length_seq in Hk, Hall. lia.
Qed.

Lemma overflow_step n s l s' :
  inv n s → dp_overflow (sy_d s) = true → l ≠ LReset → step s l = Some s' →
  dp_overflow (sy_d s') = true ∧ delivered (sy_history s') = delivered (sy_history s) ∧
  (l = LDispatch → ∃ c, sy_history s' = Refused c :: sy_history s).
Proof.
  intros Hinv Ho Hl. destruct (inv_overflow _ _ Hinv Ho) as (Hp & Hbuf & Hrec & Hr).
  destruct l; cbn [step]; try done.
  - by intros [= <-].
  - unfold dispatch_step, enqueue. destruct (sy_ingress s); [|done..]. rewrite Hp, Ho. intros [= <-]. simpl. eauto.
  - unfold deliver_step, reader_holds, is_current in *. destruct (sy_ingress s) as [|c r|c]; [done| |done].
    destruct (deliver_free s); [|done]. destruct (current_revision (sy_d s) r); [done|]. by intros [= <-].
  - unfold return_step. destruct (sy_ingress s); [done..|]. by intros [= <-].
  - unfold resume_step, begin_resume. destruct (sy_recovery s); [|done..]. rewrite Hp, Ho. by intros [= <-].
  - unfold drain_step, recovering, is_current in *. destruct (sy_recovery s) as [|v b|v b|v [|c b]|v b]; try done; simpl in Hrec.
    + destruct (deliver_free s); [|done]. rewrite Hrec. by intros [= <-].
    + unfold next_batch. unfold current_revision in Hrec. rewrite Hrec. by intros [= <-].
    + destruct (deliver_free s); [|done]. rewrite Hrec. by intros [= <-].
  - unfold drain_return_step. destruct (sy_recovery s); try done; by intros [= <-].
Qed.

Lemma overflow_run after n s s1 :
  inv n s → dp_overflow (sy_d s) = true → LReset ∉ after → run s after = Some s1 →
  (n + Z.of_nat (length after) < 2 ^ 64)%Z →
  dp_overflow (sy_d s1) = true ∧ delivered (sy_history s1) = delivered (sy_history s).
Proof.
  revert n s. induction after as [|x after IH]; intros n s Hinv Ho Hafter Hrun Hn; simpl in *.
  { by injection Hrun as <-. }
  destruct (step s x) as [s'|] eqn:Hx; [|done]. apply not_elem_of_cons in Hafter as [Hne Hafter].
  destruct (overflow_step n s x s' Hinv Ho ltac:(done) Hx) as (Ho' & Hd & _). rewrite <- Hd.
  apply (IH (n + 1)%Z s' (step_inv n s Hinv ltac:(lia) x s' Hx) Ho' Hafter Hrun). lia.
Qed.

(** Overflow fails closed: from then until a reset nothing is delivered and
    every dispatch reports the full buffer. *)
Theorem overflow_fails_closed d before s after l s1 s2 :
  fresh d → run (initial d) before = Some s → dp_overflow (sy_d s) = true →
  LReset ∉ after → l ≠ LReset → run s after = Some s1 → step s1 l = Some s2 →
  (Z.of_nat (length before + length after) < 2 ^ 64)%Z →
  delivered (sy_history s2) = delivered (sy_history s) ∧
  (l = LDispatch → ∃ c, sy_history s2 = Refused c :: sy_history s1).
Proof.
  intros Hd Hbefore Ho Hafter Hl Hrun Hstep Hn.
  pose proof (reachable_inv d before s Hd Hbefore ltac:(lia)) as Hinv.
  destruct (overflow_run after _ s s1 Hinv Ho Hafter Hrun ltac:(lia)) as [Ho1 E1].
  pose proof (run_inv after _ s s1 Hinv ltac:(lia) Hrun) as Hinv1.
  destruct (overflow_step _ s1 l s2 Hinv1 Ho1 Hl Hstep) as (_ & E2 & Hr).
  split; [by rewrite E2|done].
Qed.

(** ** A recovery completes *)

Lemma history_delivered b h : delivered (rev (map Started b) ++ h) = delivered h ++ b ∧ base (rev (map Started b) ++ h) = base h.
Proof.
  revert h. induction b as [|c b IH]; intros h; simpl; [by rewrite app_nil_r|].
  rewrite <- app_assoc. destruct (IH ([Started c] ++ h)) as [-> ->]. simpl. by rewrite <- app_assoc.
Qed.

(** With the reader waiting for input, a recovery delivers its batch. *)
Definition drain_batch (b : list nat) : list label := concat (map (λ _, [LDrain; LDrainReturn]) b).
Lemma run_app s l1 l2 : run s (l1 ++ l2) = match run s l1 with Some s' => run s' l2 | None => None end.
Proof. revert s. induction l1 as [|l l1 IH]; intros s; simpl; [done|]. destruct (step s l); [apply IH|done]. Qed.

Lemma drain_batch_runs v b s :
  sy_ingress s = Reading → sy_recovery s = Draining v b → current_revision (sy_d s) v = true →
  run s (drain_batch b) = Some (mkSystem (sy_d s) Reading (Draining v []) (sy_next s) (rev (map Started b) ++ sy_history s)).
Proof.
  revert s. induction b as [|c b IH]; intros s Hi Hr Hc.
  { destruct s; simpl in *. by subst. }
  unfold drain_batch. cbn [map concat app run step]. unfold drain_step, deliver_free. rewrite Hr, Hi, Hc.
  cbn [drain_return_step observe set_recovery sy_recovery sy_d sy_ingress sy_next sy_history].
  fold (drain_batch b). rewrite IH by done. simpl. by rewrite <- app_assoc.
Qed.

Lemma drain_batch_labels b : Forall (λ l, l = LDrain ∨ l = LDrainReturn) (drain_batch b).
Proof. induction b as [|c b IH]; [constructor|]. by repeat constructor; auto. Qed.

(** C13: a recovery completes: with the reader waiting for input and no overflow,
    [Resume] without further interference, with a hook or without one, ends
    unpaused, with the hook run before any held callback and every callback
    dispatched since the last reset delivered, in order. *)
Theorem Resume_delivers_all d labels s hook :
  fresh d → run (initial d) labels = Some s → (Z.of_nat (length labels) < 2 ^ 63)%Z →
  sy_ingress s = Reading → sy_recovery s = NoRecovery → dp_paused (sy_d s) = true → dp_overflow (sy_d s) = false →
  ∃ steps s', Forall (λ l, l = LDrain ∨ l = LDrainReturn) steps ∧ run s (LResume hook :: steps) = Some s' ∧
    sy_recovery s' = NoRecovery ∧ dp_paused (sy_d s') = false ∧
    sy_history s' = rev (map Started (dp_buffer (sy_d s))) ++ (if hook then [HookStarted] else []) ++ sy_history s ∧
    delivered (sy_history s') = seq (base (sy_history s)) (sy_next s - base (sy_history s)).
Proof.
  intros Hd Hrun Hn Hi Hr Hp Ho. pose proof (reachable_inv d labels s Hd Hrun ltac:(lia)) as Hinv.
  pose proof (inv_all _ _ Hinv Ho) as Hall. unfold outstanding, reader_holds, recovery_holds in Hall.
  rewrite Hi, Hr in Hall. simpl in Hall.
  set (s0 := mkSystem (take_buffer (sy_d s)).1 Reading (Draining (dp_revision (sy_d s)) (dp_buffer (sy_d s))) (sy_next s) ((if hook then [HookStarted] else []) ++ sy_history s)).
  assert (H0 : run s (LResume hook :: (if hook then [LDrain; LDrainReturn] else [])) = Some s0).
  { cbn [run step]. unfold resume_step, begin_resume. rewrite Hr, Hp, Ho. cbn [negb orb take_buffer]. destruct hook; [|unfold s0, set_recovery, set_d; cbn; by rewrite Hi].
    cbn [run step drain_step set_recovery sy_recovery]. unfold deliver_free, current_revision. cbn [set_recovery set_d sy_recovery sy_ingress sy_d dp_revision].
    rewrite Hi, Z.eqb_refl. cbn. unfold s0, set_recovery, observe, set_d. cbn. by rewrite Hi. }
  pose proof (drain_batch_runs (dp_revision (sy_d s)) (dp_buffer (sy_d s)) s0 eq_refl eq_refl (Z.eqb_refl _)) as H1.
  exists ((if hook then [LDrain; LDrainReturn] else []) ++ drain_batch (dp_buffer (sy_d s)) ++ [LDrain]). eexists.
  split; [rewrite !Forall_app; split; [destruct hook; by repeat (constructor; try (by left); try (by right))|split; [apply drain_batch_labels|by repeat constructor; left]]|].
  rewrite app_comm_cons, run_app, H0, run_app, H1. simpl. unfold drain_step, next_batch; simpl. rewrite Z.eqb_refl. simpl.
  split_and!; [done|done|done|done|]. etransitivity; [apply history_delivered|]. by destruct hook.
Qed.

(** ** Concrete inputs *)

Definition limit_two : Dispatcher := mkDispatcher false [] 0 2 false.
Lemma limit_two_fresh : fresh limit_two.
Proof. right. by exists 2. Qed.

(** Two direct deliveries, a pause, two buffered callbacks, a resume. *)
Definition sample_run : list label :=
  [LDispatch; LDeliver; LReturn; LPause; LDispatch; LDispatch; LResume true; LDrain; LDrainReturn; LDrain; LPause; LDrainReturn; LDrain;
   LDrainReturn; LDrain; LDispatch; LReset; LDeliver; LDispatch; LDeliver].
Definition sample_end : system :=
  mkSystem (mkDispatcher false [] 1 2 false) (Executing 4) NoRecovery 5
    [Started 4; WasReset 4; Started 2; Started 1; HookStarted; Started 0].
Example sample_run_ends : run (initial limit_two) sample_run = Some sample_end.
Proof. reflexivity. Qed.

Lemma deliveries_gapless_witness :
  ∃ k, delivered (sy_history sample_end) = seq 4 k ∧ 4 + k ≤ 5 ∧ (false = false → reader_holds sample_end = [] → 4 + k = 5).
Proof. apply (deliveries_gapless limit_two sample_run sample_end limit_two_fresh sample_run_ends). vm_compute. reflexivity. Defined.

Definition full_run : list label := [LPause; LDispatch; LDispatch; LDispatch].
Definition full_end : system :=
  mkSystem (mkDispatcher true [] 1 2 true) Reading NoRecovery 3 [Refused 2].
Lemma overflow_fails_closed_witness :
  ∃ c, [Refused 3; Refused 2] = Refused c :: sy_history full_end.
Proof.
  apply (overflow_fails_closed limit_two full_run full_end [LResume true] LDispatch full_end
           (mkSystem (mkDispatcher true [] 1 2 true) Reading NoRecovery 4 [Refused 3; Refused 2]) limit_two_fresh);
    [reflexivity|reflexivity|set_solver|discriminate|reflexivity|reflexivity|vm_compute; reflexivity|reflexivity].
Defined.

Definition held_run : list label := [LDispatch; LDeliver; LPause; LReturn; LDispatch; LDispatch].
Definition held_end : system :=
  mkSystem (mkDispatcher true [1; 2] 0 2 false) Reading NoRecovery 3 [Started 0].
Lemma Resume_delivers_all_witness :
  ∃ steps s', Forall (λ l, l = LDrain ∨ l = LDrainReturn) steps ∧ run held_end (LResume true :: steps) = Some s' ∧
    sy_recovery s' = NoRecovery ∧ dp_paused (sy_d s') = false ∧ sy_history s' = [Started 2; Started 1; HookStarted; Started 0] ∧ delivered (sy_history s') = [0; 1; 2].
Proof.
  apply (Resume_delivers_all limit_two held_run held_end true limit_two_fresh);
    first [reflexivity | vm_compute; reflexivity].
Defined.
