(* ===== verification/Sockets.v ===== *)
(** * Shared websocket topics of a venue client

    [exchange/internal/factoryclient/public_websocket.go], and the same protocol
    in [private_websocket.go] ([watchPrivateWebSocketTopic], with neither
    contract nor replay).  Watchers of the same topic share one native stream:
    the first starts it, the others wait for it, the last to close stops it.
    The model follows one of the socket's topic maps; every section of the
    socket's or topic's mutex is a transition and everything in between may
    interleave.  Topics are objects that outlive their map entry, so they have
    numbers: a topic has the number of the subscription that created it, and its
    native stream has the topic's number.  The callbacks of one native stream
    come one after the other, so processing an event and handing it out is one
    transition; a stream's buffer is the list of what was put into it. *)

From Stdlib Require Import Ascii String ZArith Lia.
From stdpp Require Import base list strings gmap relations.
From S2P Require Import Prelude GoStrings Errors Decimals Model OrderBook.

#[local] Open Scope string_scope.
#[local] Open Scope list_scope.
#[local] Open Scope Z_scope.
#[local] Open Scope go_scope.

(** ** Requests *)

Definition defaultWebSocketBuffer : Z := 1024.
Definition maxWebSocketBuffer : Z := 65536.

Record clientMeta := mkMeta { cm_venue : string; cm_product : string }.
Definition socket_error (meta : clientMeta) : string → ErrorKind → string → error :=
  websocketError (cm_venue meta) (cm_product meta).

Definition portableCandleInterval (interval : string) : bool :=
  one_of interval ["1m"; "5m"; "15m"; "30m"; "1h"; "4h"; "12h"; "1d"].

Definition websocketContextError (meta : clientMeta) (operation : string) (err : option error) : error :=
  socket_error meta operation
    (if errors_is (TSentinel ContextDeadlineExceeded) err then KindDeadlineExceeded else KindCanceled)
    "request context ended".

(** A context: not given, or given with its [Err]. *)
Abbreviation context := (option (option error)) (only parsing).

(** [validateWatch]; [configured]: the socket has a backend; [text]: how an
    error prints. *)
Definition validateWatch `{Decimal D} (text : error → string) (configured : bool) (meta : clientMeta) (ctx : context) (operation : string)
    (instrument : Instrument D) (buffer : Z) : option error :=
  if negb configured then
    Some (socket_error (mkMeta "" "") operation KindInvalidConfig "websocket backend is not configured")
  else match ctx with
  | None => Some (socket_error meta operation KindInvalidRequest "context must not be nil")
  | Some (Some err) => Some (websocketContextError meta operation (Some err))
  | Some None =>
      match Instrument_Validate instrument with
      | Err e => Some (socket_error meta operation KindInvalidRequest (text e))
      | Ok _ =>
          let identity := in_Identity instrument in
          if negb (String.eqb (id_Venue identity) (cm_venue meta) && String.eqb (id_Product identity) (cm_product meta)) then
            Some (socket_error meta operation KindInvalidRequest "instrument venue/product does not match websocket")
          else if (buffer <? 0) || (maxWebSocketBuffer <? buffer) then
            Some (socket_error meta operation KindInvalidRequest "buffer must be between 0 and 65536")
          else None
      end
  end.

Definition websocketInstrumentKey {D} (instrument : Instrument D) : string :=
  let identity := in_Identity instrument in
  if negb (is_empty (id_NativeID identity))
  then id_Venue identity +:+ ":" +:+ id_Product identity +:+ ":id:" +:+ id_NativeID identity
  else id_Venue identity +:+ ":" +:+ id_Product identity +:+ ":symbol:" +:+ id_NativeSymbol identity.

Definition normalizeWebSocketStartupError (meta : clientMeta) (operation : string)
    (startErr contextErr : option error) (closed : bool) : option error :=
  if closed then Some (socket_error meta operation KindSubscriptionClosed "websocket client is closed")
  else match startErr with
  | None => None
  | Some err =>
      match contextErr with
      | Some _ =>
          if errors_is (TSentinel ContextCanceled) startErr || errors_is (TSentinel ContextDeadlineExceeded) startErr
          then Some (websocketContextError meta operation contextErr)
          else Some err
      | None => Some err
      end
  end.

(** ** State *)

(** [backendStatus], without the clock reading *)
Record backendStatus := mkStatus { bs_State : string; bs_Phase : string; bs_Generation : Z; bs_Reason : string }.
Definition plain_status (state : string) : backendStatus := mkStatus state "" 0 "".

(** [typedSubscription]: what was put into its three streams, whether it is
    closed, whether [closeOnce] has run and whether the streams are open. *)
Record subscription (T : Type) := mkSub {
  su_key : string; su_events : list T; su_status : list backendStatus; su_errors : list error;
  su_closed : bool; su_once : bool; su_open : bool;
}.
Arguments mkSub {T}.
Arguments su_key {T} _.
Arguments su_events {T} _.
Arguments su_status {T} _.
Arguments su_errors {T} _.
Arguments su_closed {T} _.
Arguments su_once {T} _.
Arguments su_open {T} _.

(** [websocketTopic]; [tp_state] is the state of the closures [process] and
    [replay], [tp_stop] whether [stop] is set. *)
Record websocketTopic (P : Type) := mkTopic {
  tp_subs : gset nat; tp_state : P; tp_stop : bool; tp_starting : bool; tp_startErr : option error;
}.
Arguments mkTopic {P}.
Arguments tp_subs {P} _.
Arguments tp_state {P} _.
Arguments tp_stop {P} _.
Arguments tp_starting {P} _.
Arguments tp_startErr {P} _.

(** Where a call of [watchWebSocketTopic] is: starting the stream, waiting for
    another's start, about to look at how the start went. *)
Inductive watch_call := Starting | Waiting | Settling.

Record socket (T P : Type) := mkSocketState {
  so_closed : bool;
  so_topics : gmap string nat;
  so_store : gmap nat (websocketTopic P);
  so_subs : gmap nat (subscription T);
  so_calls : gmap nat (watch_call * nat);
  so_results : gmap nat (option error);   (* of the calls that have returned *)
  so_running : gset nat;                  (* native streams not stopped *)
  so_next : nat;
}.
Arguments mkSocketState {T P}.
Arguments so_closed {T P} _.
Arguments so_topics {T P} _.
Arguments so_store {T P} _.
Arguments so_subs {T P} _.
Arguments so_calls {T P} _.
Arguments so_results {T P} _.
Arguments so_running {T P} _.
Arguments so_next {T P} _.

Section socket.
Context {T P : Type}.
Context (meta : clientMeta) (operation : string).
(** The topic's [process] and [replay] (either may be nil) and their state for a
    new topic. *)
Context (process : option (P → T → P * result error bool)) (replay : option (P → option T)) (new_state : string → P).
Implicit Types (s : socket T P) (sub : subscription T) (t : websocketTopic P).

Definition newPublicWebSocket : socket T P := mkSocketState false ∅ ∅ ∅ ∅ ∅ ∅ 0.

(** ** Emitting to one subscription *)

Definition emit sub (event : T) : subscription T :=
  if negb (su_closed sub) && su_open sub
  then mkSub (su_key sub) (su_events sub ++ [event]) (su_status sub) (su_errors sub) (su_closed sub) (su_once sub) (su_open sub)
  else sub.
Definition emitError sub (err : error) : subscription T :=
  if negb (su_closed sub) && su_open sub
  then mkSub (su_key sub) (su_events sub) (su_status sub) (su_errors sub ++ [err]) (su_closed sub) (su_once sub) (su_open sub)
  else sub.
Definition emitStatusUnchecked sub (status : backendStatus) : subscription T :=
  if su_open sub
  then mkSub (su_key sub) (su_events sub) (su_status sub ++ [status]) (su_errors sub) (su_closed sub) (su_once sub) (su_open sub)
  else sub.
Definition emitStatus sub (status : backendStatus) : subscription T :=
  if su_closed sub then sub else emitStatusUnchecked sub status.

(** ** Writing parts of the state *)

Definition set_store s (n : nat) t : socket T P :=
  mkSocketState (so_closed s) (so_topics s) (<[n := t]> (so_store s)) (so_subs s) (so_calls s) (so_results s) (so_running s) (so_next s).
Definition set_topics s (topics : gmap string nat) : socket T P :=
  mkSocketState (so_closed s) topics (so_store s) (so_subs s) (so_calls s) (so_results s) (so_running s) (so_next s).
Definition set_sub s (id : nat) sub : socket T P :=
  mkSocketState (so_closed s) (so_topics s) (so_store s) (<[id := sub]> (so_subs s)) (so_calls s) (so_results s) (so_running s) (so_next s).
Definition set_calls s (calls : gmap nat (watch_call * nat)) : socket T P :=
  mkSocketState (so_closed s) (so_topics s) (so_store s) (so_subs s) calls (so_results s) (so_running s) (so_next s).
Definition set_running s (running : gset nat) : socket T P :=
  mkSocketState (so_closed s) (so_topics s) (so_store s) (so_subs s) (so_calls s) (so_results s) running (so_next s).
(** The call for [id] returns. *)
Definition return_call s (id : nat) (r : option error) : socket T P :=
  mkSocketState (so_closed s) (so_topics s) (so_store s) (so_subs s) (delete id (so_calls s)) (<[id := r]> (so_results s))
    (so_running s) (so_next s).

(** ** Topics *)

Definition newWebSocketTopic (key : string) : websocketTopic P := mkTopic ∅ (new_state key) false true None.
Definition with_subs t (subs : gset nat) : websocketTopic P :=
  mkTopic subs (tp_state t) (tp_stop t) (tp_starting t) (tp_startErr t).

(** [topic.add], on a subscription that was just made *)
Definition replayed t : list T :=
  match replay with Some f => match f (tp_state t) with Some event => [event] | None => [] end | None => [] end.
Definition add_sub t (id : nat) (key : string) : websocketTopic P * subscription T :=
  (with_subs t ({[id]} ∪ tp_subs t),
   foldl emit (mkSub key [] [] [] false false true) (replayed t)).

(** The first section of [watchWebSocketTopic]. *)
Definition watch s (key : string) : socket T P :=
  let id := so_next s in
  let s := mkSocketState (so_closed s) (so_topics s) (so_store s) (so_subs s) (so_calls s) (so_results s) (so_running s) (S id) in
  if so_closed s then
    return_call s id (Some (socket_error meta operation KindSubscriptionClosed "websocket client is closed"))
  else
    let (n, first) := match so_topics s !! key with Some n => (n, false) | None => (id, true) end in
    let t := if first then newWebSocketTopic key else default (newWebSocketTopic key) (so_store s !! n) in
    let (t, sub) := add_sub t id key in
    let sub := emitStatus sub (plain_status SubscriptionConnecting) in
    set_calls (set_sub (set_store (set_topics s (<[key := n]> (so_topics s))) n t) id sub)
      (<[id := (if first then Starting else Waiting, n)]> (so_calls s)).

(** The section after [start] has returned: its error, and the context's.  A
    start that fails returns no [stop] function. *)
Definition start_done s (id : nat) (startErr contextErr : option error) : option (socket T P) :=
  match so_calls s !! id, so_subs s !! id with
  | Some (Starting, n), Some sub =>
      match so_store s !! n with
      | None => None
      | Some t =>
          let key := su_key sub in
          let err := normalizeWebSocketStartupError meta operation startErr contextErr (so_closed s) in
          let started := match startErr with None => true | Some _ => false end in
          let s := if started then set_running s ({[n]} ∪ so_running s) else s in
          let t := mkTopic (tp_subs t) (tp_state t) started false err in
          let mine topics := bool_decide (topics !! key = Some n) in
          let topics := match err with
                        | Some _ => if mine (so_topics s) then delete key (so_topics s) else so_topics s
                        | None => so_topics s
                        end in
          let s := set_calls (set_topics s topics) (<[id := (Settling, n)]> (so_calls s)) in
          if bool_decide (tp_subs t = ∅) then
            Some (set_store (set_running (set_topics s (if mine topics then delete key topics else topics))
                               (if tp_stop t then so_running s ∖ {[n]} else so_running s))
                    n (mkTopic (tp_subs t) (tp_state t) false false err))
          else Some (set_store s n t)
      end
  | _, _ => None
  end.

(** [removeWebSocketTopicSubscription] *)
Definition remove_sub s (key : string) (id : nat) : socket T P :=
  match so_topics s !! key with
  | None => s
  | Some n =>
      match so_store s !! n with
      | None => s
      | Some t =>
          let t := with_subs t (tp_subs t ∖ {[id]}) in
          let s := set_store s n t in
          if negb (bool_decide (tp_subs t = ∅)) then s
          else if tp_starting t then s
          else
            let s := set_topics s (delete key (so_topics s)) in
            if tp_stop t then set_running s (so_running s ∖ {[n]}) else s
      end
  end.

(** [typedSubscription.Close] *)
Definition close_sub s (id : nat) : socket T P :=
  match so_subs s !! id with
  | None => s
  | Some sub =>
      if su_once sub then s
      else
        let sub := mkSub (su_key sub) (su_events sub) (su_status sub) (su_errors sub) true true (su_open sub) in
        let s := remove_sub (set_sub s id sub) (su_key sub) id in
        let sub := emitStatusUnchecked sub (plain_status SubscriptionClosed) in
        set_sub s id (mkSub (su_key sub) (su_events sub) (su_status sub) (su_errors sub) true true false)
  end.

(** [closeFailedSubscription] *)
Definition closeFailedSubscription sub : subscription T :=
  mkSub (su_key sub) (su_events sub) (su_status sub) (su_errors sub) true (su_once sub) false.

(** A waiting call: its topic is ready, its context ends or the socket closes. *)
Definition ready s (id : nat) : option (socket T P) :=
  match so_calls s !! id with
  | Some (Waiting, n) =>
      match so_store s !! n with
      | Some t => if tp_starting t then None else Some (set_calls s (<[id := (Settling, n)]> (so_calls s)))
      | None => None
      end
  | _ => None
  end.
Definition abandon s (id : nat) (contextErr : option error) : option (socket T P) :=
  match so_calls s !! id with
  | Some (Waiting, n) =>
      match contextErr with
      | Some _ => Some (return_call (close_sub s id) id (Some (websocketContextError meta operation contextErr)))
      | None =>
          if so_closed s then
            Some (return_call (close_sub s id) id
                    (Some (socket_error meta operation KindSubscriptionClosed "websocket client is closed")))
          else None
      end
  | _ => None
  end.

(** The last section of [watchWebSocketTopic]. *)
Definition settle s (id : nat) : option (socket T P) :=
  match so_calls s !! id, so_subs s !! id with
  | Some (Settling, n), Some sub =>
      match so_store s !! n with
      | None => None
      | Some t =>
          match tp_startErr t with
          | Some err => Some (return_call (set_sub s id (closeFailedSubscription sub)) id (Some err))
          | None =>
              if so_closed s || su_closed sub then
                Some (return_call (set_sub s id (closeFailedSubscription sub)) id
                        (Some (socket_error meta operation KindSubscriptionClosed "websocket client is closed")))
              else Some (return_call (set_sub s id (emitStatus sub (plain_status SubscriptionActive))) id None)
          end
      end
  | _, _ => None
  end.

(** ** Callbacks of a native stream *)

Definition for_subs s (subs : gset nat) (f : subscription T → subscription T) : socket T P :=
  mkSocketState (so_closed s) (so_topics s) (so_store s)
    (map_imap (λ id sub, Some (if bool_decide (id ∈ subs) then f sub else sub)) (so_subs s))
    (so_calls s) (so_results s) (so_running s) (so_next s).

Definition on_event s (n : nat) (event : T) : option (socket T P) :=
  match so_store s !! n with
  | None => None
  | Some t =>
      let (p, r) := match process with Some f => f (tp_state t) event | None => (tp_state t, Ok true) end in
      let t := mkTopic (tp_subs t) p (tp_stop t) (tp_starting t) (tp_startErr t) in
      let s := set_store s n t in
      match r with
      | Err err => Some (for_subs s (tp_subs t) (λ sub, emitError sub err))
      | Ok false => Some s
      | Ok true => Some (for_subs s (tp_subs t) (λ sub, emit sub event))
      end
  end.
Definition on_status s (n : nat) (status : backendStatus) : option (socket T P) :=
  t ← so_store s !! n; Some (for_subs s (tp_subs t) (λ sub, emitStatus sub status)).
Definition on_error s (n : nat) (err : error) : option (socket T P) :=
  t ← so_store s !! n; Some (for_subs s (tp_subs t) (λ sub, emitError sub err)).

(** ** The socket *)

Definition close_socket s : socket T P :=
  mkSocketState true (so_topics s) (so_store s) (so_subs s) (so_calls s) (so_results s) (so_running s) (so_next s).

(** A subscription is closed by whoever holds it: the caller of a watch that
    returned it (or its context's goroutine), or the closing socket. *)
Definition may_close s (id : nat) : bool :=
  so_closed s || match so_results s !! id with Some None => true | _ => false end.

Inductive label :=
| LWatch (key : string)
| LStartDone (id : nat) (startErr contextErr : option error)
| LReady (id : nat)
| LGiveUp (id : nat) (contextErr : option error)
| LSettle (id : nat)
| LClose (id : nat)
| LEvent (topic : nat) (event : T)
| LStatus (topic : nat) (status : backendStatus)
| LError (topic : nat) (err : error)
| LCloseSocket
| LCloseBackend.

Definition step s (l : label) : option (socket T P) :=
  match l with
  | LWatch key => Some (watch s key)
  | LStartDone id startErr contextErr => start_done s id startErr contextErr
  | LReady id => ready s id
  | LGiveUp id contextErr => abandon s id contextErr
  | LSettle id => settle s id
  | LClose id => if may_close s id then Some (close_sub s id) else None
  | LEvent n event => on_event s n event
  | LStatus n status => on_status s n status
  | LError n err => on_error s n err
  | LCloseSocket => Some (close_socket s)
  | LCloseBackend => if so_closed s then Some (set_running s ∅) else None
  end.
Fixpoint run s (labels : list label) : option (socket T P) :=
  match labels with
  | [] => Some s
  | l :: rest => match step s l with Some s' => run s' rest | None => None end
  end.
End socket.

(** ** Structure *)

Section structure.
Context {T P : Type} (meta : clientMeta) (operation : string).
Context (process : option (P → T → P * result error bool)) (replay : option (P → option T)) (new_state : string → P).
Implicit Types (s : socket T P) (sub : subscription T) (t : websocketTopic P).

(** The key of topic [n] is that of the subscription that created it. *)
Definition key_of s (n : nat) : option string := su_key <$> so_subs s !! n.

(** What the map holds, what topics are made of, what calls rely on, and that a
    native stream runs exactly for the topics in the map that have started. *)
Record wf s : Prop := {
  wf_fresh : ∀ n, (so_next s ≤ n)%nat →
    so_subs s !! n = None ∧ so_store s !! n = None ∧ so_calls s !! n = None ∧ so_results s !! n = None ∧ n ∉ so_running s;
  wf_topic : ∀ key n, so_topics s !! key = Some n → key_of s n = Some key ∧
    ∃ t, so_store s !! n = Some t ∧ (tp_starting t = false → tp_subs t ≠ ∅ ∧ tp_stop t = true ∧ tp_startErr t = None);
  wf_store : ∀ n t, so_store s !! n = Some t → ∃ key, key_of s n = Some key ∧
    (tp_starting t = true → so_topics s !! key = Some n ∧ so_calls s !! n = Some (Starting, n) ∧ tp_startErr t = None ∧ n ∉ so_running s) ∧
    (tp_startErr t = None → tp_subs t ≠ ∅ → so_topics s !! key = Some n) ∧
    (∀ id, id ∈ tp_subs t → key_of s id = Some key);
  wf_one : ∀ n m t u id, so_store s !! n = Some t → so_store s !! m = Some u → id ∈ tp_subs t → id ∈ tp_subs u → n = m;
  wf_running : ∀ n, n ∈ so_running s → so_closed s = true ∨ ∃ key, so_topics s !! key = Some n;
  wf_runs : ∀ key n t, so_closed s = false → so_topics s !! key = Some n → so_store s !! n = Some t → tp_starting t = false →
    n ∈ so_running s;
  wf_call : ∀ id c n, so_calls s !! id = Some (c, n) → ∃ t sub, so_store s !! n = Some t ∧ so_subs s !! id = Some sub ∧
    (c = Starting → n = id ∧ tp_starting t = true) ∧ (c = Settling → tp_starting t = false) ∧
    (su_once sub = false → id ∈ tp_subs t ∧ su_closed sub = false ∧ su_open sub = true) ∧ (su_once sub = true → su_closed sub = true);
  wf_result : ∀ id, so_results s !! id = Some None → so_calls s !! id = None ∧
    ∃ sub, so_subs s !! id = Some sub ∧ su_closed sub = su_once sub ∧ su_open sub = negb (su_once sub) ∧
    (su_once sub = false → ∃ n t, so_topics s !! su_key sub = Some n ∧ so_store s !! n = Some t ∧ id ∈ tp_subs t ∧ tp_starting t = false);
}.

Lemma wf_new : wf (newPublicWebSocket (T:=T) (P:=P)).
Proof. split; simpl; intros; try (by rewrite lookup_empty in * ); rewrite ?lookup_empty; set_solver. Qed.

(** Callbacks change what subscriptions have received and the contract, not the
    structure. *)
Definition shape sub := (su_key sub, su_closed sub, su_once sub, su_open sub).
Definition topic_shape t := (tp_subs t, tp_stop t, tp_starting t, tp_startErr t).
Record same_shape s s' : Prop := {
  same_closed : so_closed s' = so_closed s;
  same_topics : so_topics s' = so_topics s;
  same_calls : so_calls s' = so_calls s;
  same_results : so_results s' = so_results s;
  same_running : so_running s' = so_running s;
  same_next : so_next s' = so_next s;
  same_store : ∀ n, topic_shape <$> so_store s' !! n = topic_shape <$> so_store s !! n;
  same_subs : ∀ n, shape <$> so_subs s' !! n = shape <$> so_subs s !! n;
}.

Lemma same_key s s' n : same_shape s s' → key_of s' n = key_of s n.
Proof.
  intros Hs. pose proof (same_subs _ _ Hs n) as Hn. unfold key_of.
  destruct (so_subs s' !! n), (so_subs s !! n); simpl in *; unfold shape in Hn; congruence.
Qed.
Lemma same_topic s s' n t' : same_shape s s' → so_store s' !! n = Some t' →
  ∃ t, so_store s !! n = Some t ∧ tp_subs t' = tp_subs t ∧ tp_stop t' = tp_stop t ∧ tp_starting t' = tp_starting t ∧ tp_startErr t' = tp_startErr t.
Proof.
  intros Hs E. pose proof (same_store _ _ Hs n) as Hn. rewrite E in Hn.
  destruct (so_store s !! n) as [t|]; simpl in Hn; [|done]. exists t. unfold topic_shape in Hn. split_and!; congruence.
Qed.
Lemma same_topic_back s s' n t : same_shape s s' → so_store s !! n = Some t →
  ∃ t', so_store s' !! n = Some t' ∧ tp_subs t' = tp_subs t ∧ tp_stop t' = tp_stop t ∧ tp_starting t' = tp_starting t ∧ tp_startErr t' = tp_startErr t.
Proof.
  intros Hs E. pose proof (same_store _ _ Hs n) as Hn. rewrite E in Hn.
  destruct (so_store s' !! n) as [t'|]; simpl in Hn; [|done]. exists t'. unfold topic_shape in Hn. split_and!; congruence.
Qed.
Lemma same_sub_back s s' n sub : same_shape s s' → so_subs s !! n = Some sub →
  ∃ sub', so_subs s' !! n = Some sub' ∧ shape sub' = shape sub.
Proof.
  intros Hs E. pose proof (same_subs _ _ Hs n) as Hn. rewrite E in Hn.
  destruct (so_subs s' !! n) as [sub'|]; simpl in Hn; [|done]. exists sub'. split; congruence.
Qed.

Lemma same_wf s s' : same_shape s s' → wf s → wf s'.
Proof.
  intros Hs [Hf Ht Hst Ho Hr Hrs Hc Hres]. pose proof Hs as [Ecl Eto Eca Ere Eru Ene Est Esu]. split.
  - intros n Hn. rewrite Ene in Hn. destruct (Hf n Hn) as (E1 & E2 & E3 & E4 & E5). rewrite Eca, Ere, Eru.
    specialize (Est n). specialize (Esu n). rewrite E1 in Esu. rewrite E2 in Est.
    destruct (so_subs s' !! n), (so_store s' !! n); done.
  - intros key n. rewrite Eto, (same_key s s' n Hs). intros E. destruct (Ht key n E) as (Hk & t & Et & Hns). split; [done|].
    destruct (same_topic_back s s' n t Hs Et) as (t' & Et' & E1 & E2 & E3 & E4). exists t'. split; [done|]. by rewrite E1, E2, E3, E4.
  - intros n t' Et'. destruct (same_topic s s' n t' Hs Et') as (t & Et & E1 & E2 & E3 & E4).
    destruct (Hst n t Et) as (key & Hk & Hsta & Hmap & Hmem). exists key. rewrite (same_key s s' n Hs), Eto, Eca, Eru, E1, E3, E4.
    split_and!; [done|done|done|]. intros id Hid. rewrite (same_key s s' id Hs). by apply Hmem.
  - intros n m t' u' id Et' Eu' H1 H2. destruct (same_topic s s' n t' Hs Et') as (t & Et & E1 & _).
    destruct (same_topic s s' m u' Hs Eu') as (u & Eu & E2 & _). rewrite E1 in H1. rewrite E2 in H2. by apply (Ho n m t u id).
  - intros n. rewrite Eru, Ecl, Eto. apply Hr.
  - intros key n t'. rewrite Ecl, Eto, Eru. intros Hcl E Et' Hsta. destruct (same_topic s s' n t' Hs Et') as (t & Et & _ & _ & E3 & _).
    apply (Hrs key n t); [done..|congruence].
  - intros id c n. rewrite Eca. intros E. destruct (Hc id c n E) as (t & sub & Et & Esub & H1 & H2 & H3 & H4).
    destruct (same_topic_back s s' n t Hs Et) as (t' & Et' & E1 & _ & E3 & _).
    destruct (same_sub_back s s' id sub Hs Esub) as (sub' & Esub' & Esh). unfold shape in Esh. injection Esh as Ek Ecls Eon Eop.
    exists t', sub'. rewrite E1, E3, Eon, Ecls, Eop. done.
  - intros id. rewrite Ere, Eca, Eto. intros E. destruct (Hres id E) as (Hnc & sub & Esub & H1 & H2 & H3). split; [done|].
    destruct (same_sub_back s s' id sub Hs Esub) as (sub' & Esub' & Esh). unfold shape in Esh. injection Esh as Ek Ecls Eon Eop.
    exists sub'. rewrite Ek, Ecls, Eon, Eop. split_and!; [done..|]. intros Hon. destruct (H3 Hon) as (n & t & E1 & Et & Hid & Hsta).
    destruct (same_topic_back s s' n t Hs Et) as (t' & Et' & E2 & _ & E3 & _). exists n, t'. by rewrite E2, E3.
Qed.

(** *** Callbacks *)

Lemma for_subs_shape s subs f :
  (∀ sub, shape (f sub) = shape sub) → same_shape s (for_subs s subs f).
Proof.
  intros Hf. split; simpl; try done. intros n. rewrite map_lookup_imap.
  destruct (so_subs s !! n); simpl; [|done]. case_bool_decide; [by rewrite Hf|done].
Qed.
Lemma emit_shape sub (e : T) : shape (emit sub e) = shape sub.
Proof. unfold emit. by destruct (_ && _). Qed.
Lemma emitError_shape sub e : shape (emitError sub e) = shape sub.
Proof. unfold emitError. by destruct (_ && _). Qed.
Lemma emitStatus_shape sub status : shape (emitStatus sub status) = shape sub.
Proof. unfold emitStatus, emitStatusUnchecked. destruct (su_closed sub) eqn:E; [done|]. destruct (su_open sub) eqn:E'; [|done]. unfold shape. simpl. by rewrite E, E'. Qed.
Lemma store_shape s n t t' : so_store s !! n = Some t → topic_shape t' = topic_shape t → same_shape s (set_store s n t').
Proof.
  intros E Ht. split; simpl; try done. intros m. destruct (decide (n = m)) as [<-|Hne].
  - by rewrite E, lookup_insert_eq; simpl; rewrite Ht.
  - by rewrite lookup_insert_ne.
Qed.

Lemma on_event_wf s n e s' : on_event process s n e = Some s' → wf s → wf s'.
Proof.
  unfold on_event. destruct (so_store s !! n) as [t|] eqn:E; [|done].
  destruct (match process with Some f => f (tp_state t) e | None => _ end) as [p [[]|err]]; intros [= <-] Hwf.
  - eapply same_wf; [apply for_subs_shape, (λ sub, emit_shape sub e)|]. by eapply same_wf; [eapply store_shape|].
  - by eapply same_wf; [eapply store_shape|].
  - eapply same_wf; [apply for_subs_shape, (λ sub, emitError_shape sub err)|]. by eapply same_wf; [eapply store_shape|].
Qed.

(** *** Watching *)

Ltac map_cases :=
  repeat match goal with
  | H : <[_:=_]> _ !! _ = Some _ |- _ => apply lookup_insert_Some in H as [[? ?]|[? ?]]; simplify_eq
  | H : delete _ _ !! _ = Some _ |- _ => apply lookup_delete_Some in H as [? ?]
  end.

Lemma add_sub_shape t id key : shape (emitStatus (add_sub replay t id key).2 (plain_status SubscriptionConnecting)) = (key, false, false, true).
Proof.
  rewrite emitStatus_shape. unfold add_sub, replayed. destruct replay as [f|]; [|done]. by destruct (f (tp_state t)).
Qed.

(** Adding a subscription to a topic of the map, or to a new one. *)
Lemma key_of_insert s n id sub (s1 : socket T P) :
  so_subs s1 = <[id := sub]> (so_subs s) → so_subs s !! id = None → is_Some (key_of s n) → key_of s1 n = key_of s n.
Proof.
  intros E Hn [k Hk]. unfold key_of in *. rewrite E. rewrite lookup_insert_ne; [done|]. intros <-. by rewrite Hn in Hk.
Qed.

Lemma watch_closed_wf s id r :
  wf s → id = so_next s →
  wf (return_call (mkSocketState (so_closed s) (so_topics s) (so_store s) (so_subs s) (so_calls s) (so_results s) (so_running s) (S id)) id (Some r)).
Proof.
  intros [Hf Ht Hst Ho Hr Hrs Hc Hres] ->. destruct (Hf (so_next s) ltac:(lia)) as (F1 & F2 & F3 & F4 & F5).
  split; simpl; try done.
  - intros n Hn. destruct (Hf n ltac:(lia)) as (? & ? & ? & ? & ?). rewrite lookup_delete_ne, lookup_insert_ne by lia. done.
  - intros n t E. destruct (Hst n t E) as (key & ? & Hs & ?). exists key. split; [done|]. split; [|done]. intros Hsta.
    rewrite lookup_delete_ne; [by apply Hs|]. intros <-. congruence.
  - intros id c n E. map_cases. by apply Hc.
  - intros id E. map_cases. destruct (Hres id ltac:(done)) as [Hn ?]. split; [|done]. by rewrite lookup_delete_ne.
Qed.

(** The state after a watcher was added to topic [n]. *)
Definition joined s (key : string) (n : nat) t sub (c : watch_call) : socket T P :=
  mkSocketState (so_closed s) (<[key := n]> (so_topics s)) (<[n := t]> (so_store s)) (<[so_next s := sub]> (so_subs s))
    (<[so_next s := (c, n)]> (so_calls s)) (so_results s) (so_running s) (S (so_next s)).

Section joining.
Context s (Hwf : wf s) (key : string) (sub : subscription T) (Hsub : shape sub = (key, false, false, true)).

Lemma next_fresh n : is_Some (so_store s !! n) ∨ is_Some (key_of s n) ∨ is_Some (so_calls s !! n) ∨ n ∈ so_running s → n ≠ so_next s.
Proof.
  destruct (wf_fresh s Hwf (so_next s) ltac:(lia)) as (F1 & F2 & F3 & F4 & F5). unfold key_of.
  intros Hn ->. rewrite F1, F2, F3 in Hn. simpl in Hn. rewrite !is_Some_alt in Hn. naive_solver.
Qed.
Lemma joined_key n t c m : m ≠ so_next s → key_of (joined s key n t sub c) m = key_of s m.
Proof. intros Hm. unfold key_of; simpl. by rewrite lookup_insert_ne. Qed.
Lemma joined_key_new n t c : key_of (joined s key n t sub c) (so_next s) = Some key.
Proof. unfold key_of; simpl. rewrite lookup_insert_eq. simpl. unfold shape in Hsub. by simplify_eq. Qed.
Lemma joined_fresh n t c m : (n ≤ so_next s)%nat → (S (so_next s) ≤ m)%nat →
  so_subs (joined s key n t sub c) !! m = None ∧ so_store (joined s key n t sub c) !! m = None ∧
  so_calls (joined s key n t sub c) !! m = None ∧ so_results (joined s key n t sub c) !! m = None ∧ m ∉ so_running (joined s key n t sub c).
Proof.
  intros Hn Hm. destruct (wf_fresh s Hwf m ltac:(lia)) as (? & ? & ? & ? & ?). simpl. rewrite !lookup_insert_ne by lia. done.
Qed.
Lemma sub_flags : su_key sub = key ∧ su_closed sub = false ∧ su_once sub = false ∧ su_open sub = true.
Proof. unfold shape in Hsub. by simplify_eq. Qed.

(** No topic knows the new subscription yet. *)
Lemma next_not_member m u : so_store s !! m = Some u → so_next s ∉ tp_subs u.
Proof.
  intros Eu Hid. destruct (wf_store s Hwf m u Eu) as (k & _ & _ & _ & Hmem).
  by eapply next_fresh; [right; left; rewrite (Hmem _ Hid)|].
Qed.

Section existing.
Context (n : nat) t (Etop : so_topics s !! key = Some n) (Et : so_store s !! n = Some t).
Let t' := with_subs t ({[so_next s]} ∪ tp_subs t).

Lemma join_old : n ≠ so_next s ∧ (n ≤ so_next s)%nat ∧ key_of s n = Some key.
Proof.
  destruct (wf_topic s Hwf key n Etop) as (Hk & _). split_and!; [|..|done].
  - apply next_fresh; left; by rewrite Et.
  - destruct (decide (n ≤ so_next s)%nat) as [|Hgt]; [done|]. destruct (wf_fresh s Hwf n ltac:(lia)) as (_ & E & _). congruence.
Qed.

Lemma join_store_wf m t1 :
  so_store (joined s key n t' sub Waiting) !! m = Some t1 → ∃ k, key_of (joined s key n t' sub Waiting) m = Some k ∧
    (tp_starting t1 = true → so_topics s !! k = Some m ∧ so_calls (joined s key n t' sub Waiting) !! m = Some (Starting, m) ∧
       tp_startErr t1 = None ∧ m ∉ so_running s) ∧
    (tp_startErr t1 = None → tp_subs t1 ≠ ∅ → so_topics s !! k = Some m) ∧
    (∀ id, id ∈ tp_subs t1 → key_of (joined s key n t' sub Waiting) id = Some k).
Proof.
  destruct join_old as (Hn & _ & Hk). simpl. intros E. apply lookup_insert_Some in E as [[<- <-]|[Hne E]].
  - destruct (wf_store s Hwf n t Et) as (key' & Hk' & Hsta & Hmap & Hmem). assert (key' = key) as -> by congruence.
    exists key. rewrite joined_key by done. split_and!; [done| |done|].
    + simpl. intros Hs. destruct (Hsta Hs) as (? & ? & ?). by rewrite lookup_insert_ne.
    + simpl. intros id [->%elem_of_singleton|Hid]%elem_of_union; [apply joined_key_new|].
      rewrite joined_key; [by apply Hmem|]. apply next_fresh. right; left. by rewrite (Hmem id Hid).
  - destruct (wf_store s Hwf m t1 E) as (k & Hkm & Hs1 & Hm1 & Hmem1). exists k.
    rewrite joined_key by (apply next_fresh; right; left; by rewrite Hkm). split_and!; [done| |done|].
    + intros Hs. destruct (Hs1 Hs) as (? & ? & ?). rewrite lookup_insert_ne; [done|]. intros <-. by eapply next_fresh; [left|].
    + intros id Hid. rewrite joined_key; [by apply Hmem1|]. apply next_fresh. right; left. by rewrite (Hmem1 id Hid).
Qed.

Lemma join_one m1 m2 t1 t2 id :
  <[n := t']> (so_store s) !! m1 = Some t1 → <[n := t']> (so_store s) !! m2 = Some t2 → id ∈ tp_subs t1 → id ∈ tp_subs t2 → m1 = m2.
Proof.
  intros E1 E2 H1 H2. pose proof (wf_one s Hwf) as Ho.
  apply lookup_insert_Some in E1 as [[<- <-]|[Hne1 E1]], E2 as [[<- <-]|[Hne2 E2]]; [done|..|by eapply Ho].
  - unfold t' in H1. simpl in H1. apply elem_of_union in H1 as [->%elem_of_singleton|H1]; [by destruct (next_not_member m2 t2)|]. by apply (Ho n m2 t t2 id).
  - unfold t' in H2. simpl in H2. apply elem_of_union in H2 as [->%elem_of_singleton|H2]; [by destruct (next_not_member m1 t1)|]. by apply (Ho m1 n t1 t id).
Qed.

Lemma watch_join_wf : wf (joined s key n t' sub Waiting).
Proof.
  destruct sub_flags as (_ & Fc & Fo & Fp). destruct join_old as (Hn & Hle & Hk).
  assert (Hnm : ∀ m u, so_store s !! m = Some u → ∃ u', <[n := t']> (so_store s) !! m = Some u' ∧ tp_subs u ⊆ tp_subs u' ∧
      tp_stop u' = tp_stop u ∧ tp_starting u' = tp_starting u ∧ tp_startErr u' = tp_startErr u).
  { intros m u Eu. destruct (decide (n = m)) as [<-|Hne]; [|exists u; by rewrite lookup_insert_ne].
    assert (u = t) as -> by congruence. exists t'. rewrite lookup_insert_eq. split_and!; [done|unfold t'; simpl; apply union_subseteq_r|done..]. }
  pose proof Hwf as [Hf Ht Hst Ho Hr Hrs Hc Hres]. split.
  - intros m Hm. by apply joined_fresh.
  - simpl. intros k m E. rewrite insert_id in E by done. destruct (Ht k m E) as (Hkm & t1 & Et1 & Hs1).
    rewrite joined_key by (apply next_fresh; left; by rewrite Et1). split; [done|].
    destruct (Hnm m t1 Et1) as (u & Eu & Hsub' & E1 & E2 & E3). exists u. split; [done|]. rewrite E1, E2, E3.
    intros Hs. destruct (Hs1 Hs) as (? & ? & ?). set_solver.
  - simpl. rewrite (insert_id (so_topics s)) by done. apply join_store_wf.
  - apply join_one.
  - simpl. rewrite (insert_id (so_topics s)) by done. apply Hr.
  - simpl. intros k m t1 Hcl E E1. rewrite insert_id in E by done.
    apply lookup_insert_Some in E1 as [[<- <-]|[_ E1]]; simpl; intros Hs; [by apply (Hrs k n t)|by apply (Hrs k m t1)].
  - simpl. intros id c m E. apply lookup_insert_Some in E as [[<- [= <- <-]]|[Hne E]].
    + exists t', sub. rewrite !lookup_insert_eq. split_and!; try done; [|congruence]. intros _. split_and!; [simpl; set_solver|done..].
    + destruct (Hc id c m E) as (t1 & sub1 & Et1 & Es1 & H1 & H2 & H3 & H4). destruct (Hnm m t1 Et1) as (u & Eu & Hss & _ & E2 & _).
      exists u, sub1. rewrite (lookup_insert_ne (so_subs s)) by done. rewrite E2. split_and!; [done..| |done].
      intros Hon. destruct (H3 Hon) as (? & ? & ?). split; [by apply Hss|done].
  - simpl. rewrite (insert_id (so_topics s)) by done. intros id E. destruct (Hres id E) as (Hcn & sub1 & Es1 & H1 & H2 & H3).
    assert (id ≠ so_next s) by (intros ->; apply (next_fresh (so_next s)); [right; left; unfold key_of; by rewrite Es1|done]).
    rewrite lookup_insert_ne by done. split; [done|]. exists sub1. rewrite lookup_insert_ne by done. split_and!; [done..|].
    intros Hon. destruct (H3 Hon) as (m & t1 & E1 & E2 & Hid & Hs1). destruct (Hnm m t1 E2) as (u & Eu & Hss & _ & F2 & _).
    exists m, u. rewrite F2. split_and!; [done|done|by apply Hss|done].
Qed.
End existing.

Lemma watch_new_wf t :
  so_topics s !! key = None → tp_subs t = {[so_next s]} → tp_starting t = true → tp_startErr t = None →
  wf (joined s key (so_next s) t sub Starting).
Proof.
  intros Etop Hsubs Hsta Herr. destruct sub_flags as (_ & Fc & Fo & Fp).
  destruct (wf_fresh s Hwf (so_next s) ltac:(lia)) as (F1 & F2 & F3 & F4 & F5).
  destruct Hwf as [Hf Ht Hst Ho Hr Hrs Hc Hres]. split.
  - intros m Hm. by apply joined_fresh.
  - simpl. intros k m E. apply lookup_insert_Some in E as [[<- <-]|[Hne E]].
    + split; [apply joined_key_new|]. exists t. rewrite lookup_insert_eq. by rewrite Hsta.
    + destruct (Ht k m ltac:(done)) as (Hk & t1 & Et1 & H1). assert (m ≠ so_next s) by (apply next_fresh; left; by rewrite Et1).
      rewrite joined_key by done. split; [done|]. exists t1. by rewrite lookup_insert_ne.
  - simpl. intros m t1 E. map_cases.
    + exists key. rewrite !lookup_insert_eq. split_and!; [apply joined_key_new|done|done|]. rewrite Hsubs.
      intros id ->%elem_of_singleton. apply joined_key_new.
    + destruct (Hst m t1 ltac:(done)) as (k & Hk & Hs1 & Hm1 & Hmem1). exists k. rewrite joined_key by done.
      assert (Hkne : so_topics s !! k = Some m → <[key:=so_next s]> (so_topics s) !! k = Some m).
      { intros Ek. rewrite lookup_insert_ne; [done|]. intros <-. congruence. }
      split_and!; [done| | |].
      * intros Hs. destruct (Hs1 Hs) as (? & ? & ?). rewrite (lookup_insert_ne (so_calls s)) by done. auto.
      * auto.
      * intros id Hid. rewrite joined_key; [by apply Hmem1|]. apply next_fresh. right; left. by rewrite (Hmem1 id Hid).
  - simpl. intros m1 m2 t1 t2 id E1 E2 H1 H2.
    map_cases; rewrite ?Hsubs in *; try done.
    + apply elem_of_singleton in H2 as ->. by destruct (next_not_member m1 t1).
    + apply elem_of_singleton in H1 as ->. by destruct (next_not_member m2 t2).
    + by apply (Ho m1 m2 t1 t2 id).
  - simpl. intros m Hm. destruct (Hr m Hm) as [?|(k & Ek)]; [by left|]. right. exists k.
    rewrite lookup_insert_ne; [done|]. intros <-. congruence.
  - simpl. intros k m t1 Hcl E E1 Hs1. apply lookup_insert_Some in E as [[<- <-]|[Hne E]].
    { rewrite lookup_insert_eq in E1. congruence. }
    destruct (Ht k m E) as (_ & t2 & E2 & _). rewrite lookup_insert_ne in E1 by (intros <-; congruence). by apply (Hrs k m t1).
  - simpl. intros id c m E. map_cases.
    + exists t, sub. rewrite !lookup_insert_eq, Hsubs. split_and!; try done; [set_solver|congruence].
    + destruct (Hc id c m ltac:(done)) as (t1 & sub1 & Et1 & Es1 & ? & ? & ? & ?). exists t1, sub1.
      rewrite !lookup_insert_ne; [done|done|]. intros <-. congruence.
  - simpl. intros id E. destruct (Hres id E) as (Hcn & sub1 & Es1 & ? & ? & H3).
    assert (so_next s ≠ id) by (intros <-; congruence). rewrite !lookup_insert_ne by done. split; [done|].
    exists sub1. split_and!; [done..|]. intros Hon. destruct (H3 Hon) as (m & t1 & E1 & E2 & Hid & Hs1). exists m, t1.
    rewrite !lookup_insert_ne; [done|intros <-; congruence|intros Hk; rewrite <- Hk in E1; congruence].
Qed.
End joining.

Lemma watch_wf s key : wf s → wf (watch meta operation replay new_state s key).
Proof.
  intros Hwf. unfold watch. cbn [so_closed so_topics so_store so_next so_subs so_calls].
  destruct (so_closed s) eqn:Hcl; [rewrite <- Hcl at 1; by apply watch_closed_wf|].
  destruct (so_topics s !! key) as [n|] eqn:Etop.
  - destruct (wf_topic s Hwf key n Etop) as (_ & t & Et & _). rewrite Et. cbn [default].
    pose proof (watch_join_wf s Hwf key _ (add_sub_shape t (so_next s) key) n t Etop Et) as Hj.
    unfold joined in Hj. rewrite Hcl in Hj. exact Hj.
  - pose proof (watch_new_wf s Hwf key _ (add_sub_shape (newWebSocketTopic new_state key) (so_next s) key)
      (with_subs (newWebSocketTopic new_state key) ({[so_next s]} ∪ ∅)) Etop ltac:(set_solver) eq_refl eq_refl) as Hj.
    unfold joined in Hj. rewrite Hcl in Hj. exact Hj.
Qed.

(** *** The start returns *)

(** The state after the start of topic [n]: it stays in the map if it started
    and someone still wants it, and its stream runs. *)
Definition start_ended s (n : nat) (key : string) t (started : bool) (err : option error) : socket T P :=
  let wanted := negb (bool_decide (tp_subs t = ∅)) in
  mkSocketState (so_closed s)
    (if (if err then false else wanted) then so_topics s else delete key (so_topics s))
    (<[n := mkTopic (tp_subs t) (tp_state t) (started && wanted) false err]> (so_store s)) (so_subs s)
    (<[n := (Settling, n)]> (so_calls s)) (so_results s)
    (if started && wanted then {[n]} ∪ so_running s else so_running s) (so_next s).

Lemma start_done_ended s id startErr contextErr s' :
  wf s → start_done meta operation s id startErr contextErr = Some s' →
  ∃ key t started err, so_calls s !! id = Some (Starting, id) ∧ so_store s !! id = Some t ∧ tp_starting t = true ∧
    key_of s id = Some key ∧ (err = None → started = true) ∧ (started = true → err = None ∨ so_closed s = true) ∧
    s' = start_ended s id key t started err.
Proof.
  intros Hwf. unfold start_done. destruct (so_calls s !! id) as [[[] n]|] eqn:Ec; try done.
  destruct (so_subs s !! id) as [sub|] eqn:Es; [|done]. destruct (so_store s !! n) as [t|] eqn:Et; [|done].
  destruct (wf_call s Hwf id Starting n Ec) as (t0 & sub0 & Et0 & Es0 & H1 & _). destruct (H1 eq_refl) as [-> Hsta].
  assert (t0 = t) as -> by congruence. assert (sub0 = sub) as -> by congruence.
  destruct (wf_store s Hwf id t Et) as (key & Hk & Hst & _). destruct (Hst Hsta) as (Htop & _ & _ & Hrun).
  assert (su_key sub = key) as -> by (unfold key_of in Hk; rewrite Es in Hk; simpl in Hk; congruence).
  set (err := normalizeWebSocketStartupError _ _ _ _ _).
  set (started := match startErr with None => true | Some _ => false end).
  intros Hs'. exists key, t, started, err. split_and!; [done..| | |].
  - unfold err, started, normalizeWebSocketStartupError. destruct (so_closed s), startErr; try done.
    destruct contextErr; [|done]. by destruct (_ || _).
  - unfold err, started, normalizeWebSocketStartupError. destruct (so_closed s); [by right|]. destruct startErr; [done|by left].
  - revert Hs'. unfold start_ended. cbn [tp_subs tp_stop tp_state].
    destruct (bool_decide (tp_subs t = ∅)) eqn:Hemp.
    all: destruct started, err as [e|]; unfold set_running, set_calls, set_topics, set_store;
      cbn [so_topics so_closed so_store so_subs so_calls so_results so_running so_next negb andb];
      rewrite ?(bool_decide_true _ Htop), ?lookup_delete_eq; intros [= <-]; f_equal; set_solver.
Qed.

Section started.
Context s (Hwf : wf s) (n : nat) (key : string) t (started : bool) (err : option error).
Context (Ec : so_calls s !! n = Some (Starting, n)) (Et : so_store s !! n = Some t) (Hsta : tp_starting t = true).
Context (Hk : key_of s n = Some key) (Hok : err = None → started = true) (Hcl : started = true → err = None ∨ so_closed s = true).

Lemma started_top : so_topics s !! key = Some n ∧ n ∉ so_running s.
Proof. destruct (wf_store s Hwf n t Et) as (k & Hk' & Hst & _). destruct (Hst Hsta) as (? & _ & _ & ?). assert (k = key) as -> by congruence. done. Qed.

(** Other topics keep their map entry, and only [n] can lose its own. *)
Lemma ended_topics k m : so_topics (start_ended s n key t started err) !! k = Some m → so_topics s !! k = Some m.
Proof. unfold start_ended; simpl. destruct (if err then false else _); [done|]. intros E. by map_cases. Qed.
Lemma ended_topics_other k m : m ≠ n → so_topics s !! k = Some m → so_topics (start_ended s n key t started err) !! k = Some m.
Proof.
  intros Hne E. unfold start_ended; simpl. destruct (if err then false else _); [done|].
  rewrite lookup_delete_ne; [done|]. intros <-. destruct started_top. congruence.
Qed.
Lemma ended_kept k : so_topics (start_ended s n key t started err) !! k = Some n → err = None ∧ tp_subs t ≠ ∅ ∧ started = true.
Proof.
  unfold start_ended; simpl. destruct err as [e|]; [|case_bool_decide]; simpl.
  1,2: intros E; map_cases; destruct (wf_topic s Hwf k n ltac:(done)) as [Hk' _]; congruence.
  intros _. split_and!; [done|done|by apply Hok].
Qed.
Lemma ended_running m : m ≠ n → m ∈ so_running (start_ended s n key t started err) ↔ m ∈ so_running s.
Proof. intros Hne. unfold start_ended; simpl. destruct (started && _); set_solver. Qed.

Lemma ended_store_wf m t1 :
  so_store (start_ended s n key t started err) !! m = Some t1 → ∃ k, key_of s m = Some k ∧
    (tp_starting t1 = true → so_topics (start_ended s n key t started err) !! k = Some m ∧
       so_calls (start_ended s n key t started err) !! m = Some (Starting, m) ∧ tp_startErr t1 = None ∧
       m ∉ so_running (start_ended s n key t started err)) ∧
    (tp_startErr t1 = None → tp_subs t1 ≠ ∅ → so_topics (start_ended s n key t started err) !! k = Some m) ∧
    (∀ id, id ∈ tp_subs t1 → key_of s id = Some k).
Proof.
  intros E. destruct (decide (m = n)) as [->|Hne].
  - unfold start_ended in E. simpl in E. rewrite lookup_insert_eq in E. simplify_eq.
    exists key. split_and!; [done|done| |].
    + simpl. intros -> Hne. unfold start_ended. simpl. rewrite bool_decide_false by done. simpl. apply started_top.
    + simpl. destruct (wf_store s Hwf n t Et) as (k & Hk' & _ & _ & Hmem). by simplify_eq.
  - unfold start_ended in E. simpl in E. rewrite lookup_insert_ne in E by done.
    destruct (wf_store s Hwf m t1 E) as (k & Hk1 & Hs1 & Hm1 & Hmem1). exists k. split_and!; [done| | |done].
    + intros Hs. destruct (Hs1 Hs) as (? & ? & ? & ?). rewrite ended_running by done. split_and!; [by apply ended_topics_other| |done|done].
      unfold start_ended. simpl. by rewrite lookup_insert_ne.
    + intros H1 H2. apply ended_topics_other; auto.
Qed.

Lemma start_ended_wf : wf (start_ended s n key t started err).
Proof.
  pose proof Hwf as [Hf Ht Hst Ho Hr Hrs Hc Hres]. destruct started_top as [Htop Hrun]. split.
  - intros m Hm. unfold start_ended in *. simpl in *. destruct (Hf m Hm) as (? & ? & ? & ? & ?).
    assert (n ≠ m) by (intros <-; congruence). rewrite !lookup_insert_ne by done. split_and!; try done.
    destruct (started && _); set_solver.
  - intros k m E. destruct (Ht k m (ended_topics k m E)) as (Hkm & t1 & Et1 & H1). split; [done|].
    destruct (decide (m = n)) as [->|Hne].
    + destruct (ended_kept k E) as (-> & Hsub & ->). unfold start_ended. simpl. eexists. rewrite lookup_insert_eq. split; [done|].
      simpl. by rewrite bool_decide_false.
    + exists t1. unfold start_ended. simpl. by rewrite lookup_insert_ne.
  - apply ended_store_wf.
  - unfold start_ended. simpl. intros m1 m2 t1 t2 id E1 E2 H1 H2. map_cases; simpl in *; try done; by eapply Ho.
  - intros m Hm. destruct (decide (m = n)) as [->|Hne].
    + unfold start_ended in *. simpl in *. destruct started; [|done]. destruct (Hcl eq_refl) as [->|]; [right|by left].
      exists key. case_bool_decide; [done|]. simpl. exact Htop.
    + apply ended_running in Hm; [|done]. destruct (Hr m Hm) as [?|(k & Ek)]; [by left|]. right. exists k. by apply ended_topics_other.
  - intros k m t1 Hncl E E1 Hs1. destruct (decide (m = n)) as [->|Hne].
    + destruct (ended_kept k E) as (_ & Hsub & ->). unfold start_ended. simpl. rewrite bool_decide_false by done. set_solver.
    + apply ended_running; [done|]. unfold start_ended in E1. simpl in E1. rewrite lookup_insert_ne in E1 by done.
      apply (Hrs k m t1); [done|by apply ended_topics|done..].
  - unfold start_ended. simpl. intros id c m E. apply lookup_insert_Some in E as [[<- [= <- <-]]|[Hid E]].
    + destruct (Hc n Starting n Ec) as (t1 & sub & Et1 & Es & _ & _ & H3 & H4). eexists _, sub. rewrite lookup_insert_eq.
      assert (t1 = t) as -> by congruence. split_and!; done.
    + destruct (Hc id c m ltac:(done)) as (t1 & sub & Et1 & Es & H1 & H2 & H3 & H4). destruct (decide (n = m)) as [<-|Hne].
      * assert (t1 = t) as -> by congruence. eexists _, sub. rewrite lookup_insert_eq. split_and!; [done|done| |done|done|done].
        intros ->. by destruct (H1 eq_refl).
      * exists t1, sub. by rewrite lookup_insert_ne.
  - intros id E. destruct (Hres id E) as (Hcn & sub & Es & ? & ? & H3). split.
    { unfold start_ended. simpl. rewrite lookup_insert_ne; [done|]. intros <-. congruence. }
    exists sub. split_and!; [done..|]. intros Hon. destruct (H3 Hon) as (m & t1 & E1 & E2 & Hid & Hs1).
    assert (m ≠ n) by (intros ->; congruence). exists m, t1. split; [by apply ended_topics_other|].
    unfold start_ended. simpl. by rewrite lookup_insert_ne.
Qed.
End started.

Lemma start_done_wf s id startErr contextErr s' :
  wf s → start_done meta operation s id startErr contextErr = Some s' → wf s'.
Proof.
  intros Hwf Hs. destruct (start_done_ended s id startErr contextErr s' Hwf Hs) as (key & t & started & err & ? & ? & ? & ? & ? & ? & ->).
  by apply start_ended_wf.
Qed.

(** *** Closing a subscription *)

(** The subscription as [Close] leaves it. *)
Definition closed_sub sub : subscription T :=
  mkSub (su_key sub) (su_events sub)
    (if su_open sub then su_status sub ++ [plain_status SubscriptionClosed] else su_status sub) (su_errors sub) true true false.

Lemma close_sub_eq s id sub :
  so_subs s !! id = Some sub → su_once sub = false →
  close_sub s id = remove_sub (set_sub s id (closed_sub sub)) (su_key sub) id.
Proof.
  intros E Ho. unfold close_sub. rewrite E, Ho. cbn [su_key]. unfold remove_sub, closed_sub, emitStatusUnchecked. cbn [su_open].
  cbn [set_sub so_topics so_store]. destruct (so_topics s !! su_key sub) as [n|]; [destruct (so_store s !! n) as [t|]|].
  all: unfold set_sub, set_store, set_topics, set_running;
    cbn [so_topics so_store so_subs so_calls so_results so_running so_next so_closed with_subs tp_subs tp_starting tp_stop].
  1: destruct (negb _); [|destruct (tp_starting t), (tp_stop t)].
  all: cbn [so_topics so_store so_subs so_calls so_results so_running so_next so_closed]; by destruct (su_open sub); rewrite insert_insert_eq.
Qed.

Lemma set_sub_key s id sub sub' m : so_subs s !! id = Some sub → su_key sub' = su_key sub → key_of (set_sub s id sub') m = key_of s m.
Proof.
  intros E Hk. unfold key_of; simpl. destruct (decide (id = m)) as [<-|Hne]; [|by rewrite lookup_insert_ne].
  rewrite lookup_insert_eq, E. simpl. by rewrite Hk.
Qed.

Lemma mark_closed_wf s id sub : wf s → so_subs s !! id = Some sub → wf (set_sub s id (closed_sub sub)).
Proof.
  intros [Hf Ht Hst Ho Hr Hrs Hc Hres] Es.
  assert (Hkey : ∀ m, key_of (set_sub s id (closed_sub sub)) m = key_of s m) by (intros m; by apply (set_sub_key s id sub)).
  split; try done.
  - intros m Hm. destruct (Hf m Hm) as (? & ? & ? & ? & ?). simpl. rewrite lookup_insert_ne; [done|]. intros <-. congruence.
  - intros k m E. rewrite Hkey. by apply Ht.
  - intros m t E. destruct (Hst m t E) as (k & H1 & H2 & H3 & H4). exists k. rewrite Hkey. split_and!; [done..|].
    intros i Hi. rewrite Hkey. by apply H4.
  - simpl. intros i c n E. destruct (Hc i c n E) as (t & sub1 & Et & Es1 & ? & ? & ? & ?). exists t. destruct (decide (id = i)) as [<-|Hne].
    + exists (closed_sub sub). by rewrite lookup_insert_eq.
    + exists sub1. by rewrite lookup_insert_ne.
  - simpl. intros i E. destruct (Hres i E) as (Hcn & sub1 & Es1 & ? & ? & ?). split; [done|]. destruct (decide (id = i)) as [<-|Hne].
    + exists (closed_sub sub). by rewrite lookup_insert_eq.
    + exists sub1. by rewrite lookup_insert_ne.
Qed.

(** A closed subscription leaves its topic; [last]: it was the last of a topic
    that has started, whose stream is then stopped. *)
Definition removed s (key : string) (n : nat) t (id : nat) (last : bool) : socket T P :=
  mkSocketState (so_closed s) (if last then delete key (so_topics s) else so_topics s)
    (<[n := with_subs t (tp_subs t ∖ {[id]})]> (so_store s)) (so_subs s) (so_calls s) (so_results s)
    (if last then so_running s ∖ {[n]} else so_running s) (so_next s).

Lemma remove_sub_cases s key id :
  wf s → remove_sub s key id = s ∨
  ∃ n t last, so_topics s !! key = Some n ∧ so_store s !! n = Some t ∧
    (last = true ↔ tp_subs t ∖ {[id]} = ∅ ∧ tp_starting t = false) ∧ remove_sub s key id = removed s key n t id last.
Proof.
  intros Hwf. unfold remove_sub. destruct (so_topics s !! key) as [n|] eqn:Etop; [|by left].
  destruct (wf_topic s Hwf key n Etop) as (_ & t & Et & Hns). rewrite Et. cbn [with_subs tp_subs tp_starting tp_stop].
  right. exists n, t. unfold removed. case_bool_decide as Hemp; cbn [negb].
  - destruct (tp_starting t) eqn:Hsta; [exists false|exists true]; split_and!; try done; [naive_solver|].
    destruct (Hns eq_refl) as (_ & -> & _). done.
  - exists false. split_and!; try done. naive_solver.
Qed.

Section removing.
Context s (Hwf : wf s) (key : string) (n id : nat) t (sub : subscription T) (last : bool).
Context (Etop : so_topics s !! key = Some n) (Et : so_store s !! n = Some t).
Context (Es : so_subs s !! id = Some sub) (Honce : su_once sub = true).
Context (Hlast : last = true ↔ tp_subs t ∖ {[id]} = ∅ ∧ tp_starting t = false).

Lemma removed_topics k m : so_topics (removed s key n t id last) !! k = Some m → so_topics s !! k = Some m ∧ (m = n → last = false).
Proof.
  unfold removed; simpl. destruct last; [|done]. intros E. map_cases. split; [done|]. intros ->.
  destruct (wf_topic s Hwf k n ltac:(done)), (wf_topic s Hwf key n Etop). congruence.
Qed.
Lemma removed_topics_other k m : (m = n → last = false) → so_topics s !! k = Some m → so_topics (removed s key n t id last) !! k = Some m.
Proof.
  intros Hm E. unfold removed; simpl. destruct last; [|done]. rewrite lookup_delete_ne; [done|]. intros <-.
  rewrite Etop in E. injection E as E. by specialize (Hm (eq_sym E)).
Qed.
Lemma removed_store m t1 : so_store (removed s key n t id last) !! m = Some t1 →
  ∃ t0, so_store s !! m = Some t0 ∧ tp_subs t1 = (if decide (m = n) then tp_subs t0 ∖ {[id]} else tp_subs t0) ∧
    tp_stop t1 = tp_stop t0 ∧ tp_starting t1 = tp_starting t0 ∧ tp_startErr t1 = tp_startErr t0.
Proof.
  unfold removed; simpl. intros E. apply lookup_insert_Some in E as [[<- <-]|[Hne E]].
  - exists t. rewrite decide_True by done. done.
  - exists t1. rewrite decide_False by done. done.
Qed.
Lemma removed_store_back m t0 : so_store s !! m = Some t0 → ∃ t1, so_store (removed s key n t id last) !! m = Some t1 ∧
    tp_subs t1 = (if decide (m = n) then tp_subs t0 ∖ {[id]} else tp_subs t0) ∧
    tp_stop t1 = tp_stop t0 ∧ tp_starting t1 = tp_starting t0 ∧ tp_startErr t1 = tp_startErr t0.
Proof.
  intros E. unfold removed; simpl. destruct (decide (m = n)) as [->|Hne].
  - assert (t0 = t) as -> by congruence. eexists. rewrite lookup_insert_eq. split; done.
  - exists t0. by rewrite lookup_insert_ne.
Qed.
(** Open subscriptions are not removed. *)
Lemma removed_member m t0 i sub1 : so_subs s !! i = Some sub1 → su_once sub1 = false → i ∈ tp_subs t0 →
  i ∈ (if decide (m = n) then tp_subs t0 ∖ {[id]} else tp_subs t0).
Proof.
  intros E Ho Hi. destruct (decide (m = n)); [|done]. apply elem_of_difference. split; [done|].
  intros ->%elem_of_singleton. congruence.
Qed.

Lemma removed_store_wf m t1 :
  so_store (removed s key n t id last) !! m = Some t1 → ∃ k, key_of s m = Some k ∧
    (tp_starting t1 = true → so_topics (removed s key n t id last) !! k = Some m ∧ so_calls s !! m = Some (Starting, m) ∧
       tp_startErr t1 = None ∧ m ∉ so_running (removed s key n t id last)) ∧
    (tp_startErr t1 = None → tp_subs t1 ≠ ∅ → so_topics (removed s key n t id last) !! k = Some m) ∧
    (∀ i, i ∈ tp_subs t1 → key_of s i = Some k).
Proof.
  intros E. destruct (removed_store m t1 E) as (t0 & E0 & E1 & E2 & E3 & E4). rewrite E1, E3, E4.
  destruct (wf_store s Hwf m t0 E0) as (k & Hk & H1 & H2 & H3). exists k. split_and!; [done| | |].
  - intros Hs. destruct (H1 Hs) as (? & ? & ? & ?). split_and!; [|done|done|unfold removed; simpl; destruct last; set_solver].
    apply removed_topics_other; [|done]. intros ->. assert (t0 = t) as -> by congruence. destruct last; [|done].
    destruct (proj1 Hlast eq_refl). congruence.
  - intros He Hne. apply removed_topics_other; [|apply H2; [done|]].
    + intros ->. assert (t0 = t) as -> by congruence. rewrite decide_True in Hne by done. destruct last; [|done].
      by destruct (proj1 Hlast eq_refl).
    + destruct (decide (m = n)); set_solver.
  - intros i Hi. apply H3. destruct (decide (m = n)); set_solver.
Qed.

Lemma removed_wf : wf (removed s key n t id last).
Proof.
  pose proof Hwf as [Hf Ht Hst Ho Hr Hrs Hc Hres]. split.
  - intros m Hm. unfold removed in *. simpl in *. destruct (Hf m Hm) as (? & ? & ? & ? & ?).
    rewrite lookup_insert_ne by (intros <-; congruence). split_and!; try done. destruct last; set_solver.
  - intros k m E. destruct (removed_topics k m E) as [E0 Hl]. destruct (Ht k m E0) as (Hk & t0 & Et0 & Hns). split; [done|].
    destruct (removed_store_back m t0 Et0) as (t1 & E1 & F1 & F2 & F3 & F4). exists t1. split; [done|]. rewrite F1, F2, F3, F4.
    intros Hs. destruct (Hns Hs) as (? & ? & ?). split_and!; [|done|done]. destruct (decide (m = n)) as [->|]; [|done].
    assert (t0 = t) as -> by congruence. intros Hemp. specialize (Hl eq_refl). rewrite (proj2 Hlast (conj Hemp Hs)) in Hl. done.
  - apply removed_store_wf.
  - intros m1 m2 t1 t2 i E1 E2 H1 H2. destruct (removed_store m1 t1 E1) as (u1 & F1 & G1 & _), (removed_store m2 t2 E2) as (u2 & F2 & G2 & _).
    rewrite G1 in H1. rewrite G2 in H2. apply (Ho m1 m2 u1 u2 i); [done..| |]; [destruct (decide (m1 = n))|destruct (decide (m2 = n))]; set_solver.
  - intros m Hm. assert (Hm' : m ∈ so_running s ∧ (m = n → last = false)).
    { unfold removed in Hm. simpl in Hm. destruct last; set_solver. }
    destruct (Hr m (proj1 Hm')) as [?|(k & Ek)]; [by left|]. right. exists k. apply removed_topics_other; [apply Hm'|done].
  - intros k m t1 Hcl E E1 Hs. destruct (removed_topics k m E) as [E0 Hl]. destruct (removed_store m t1 E1) as (t0 & F0 & _ & _ & F3 & _).
    assert (m ∈ so_running s) by (apply (Hrs k m t0); [done..|congruence]). unfold removed. simpl.
    destruct last; [|done]. apply elem_of_difference. split; [done|]. intros ->%elem_of_singleton. by specialize (Hl eq_refl).
  - intros i c m E. destruct (Hc i c m E) as (t0 & sub1 & Et0 & Es1 & H1 & H2 & H3 & H4).
    destruct (removed_store_back m t0 Et0) as (t1 & E1 & F1 & F2 & F3 & F4). exists t1, sub1. rewrite F1, F3. split_and!; [done..| |done].
    intros Hon. destruct (H3 Hon) as (? & ? & ?). split; [|done]. by apply (removed_member m t0 i sub1).
  - intros i E. destruct (Hres i E) as (Hcn & sub1 & Es1 & ? & ? & H3). split; [done|]. exists sub1. split_and!; [done..|].
    intros Hon. destruct (H3 Hon) as (m & t0 & E0 & Et0 & Hi & Hs0). destruct (removed_store_back m t0 Et0) as (t1 & E1 & F1 & F2 & F3 & F4).
    pose proof (removed_member m t0 i sub1 Es1 Hon Hi) as Hi'. exists m, t1. rewrite F1, F3. split_and!; [|done..].
    apply removed_topics_other; [|done]. intros ->. assert (t0 = t) as -> by congruence. rewrite decide_True in Hi' by done.
    destruct last; [|done]. destruct (proj1 Hlast eq_refl) as [Hemp _]. rewrite Hemp in Hi'. by apply elem_of_empty in Hi'.
Qed.
End removing.

Lemma close_sub_wf s id : wf s → wf (close_sub s id).
Proof.
  intros Hwf. destruct (so_subs s !! id) as [sub|] eqn:Es; [|unfold close_sub; by rewrite Es].
  destruct (su_once sub) eqn:Ho; [unfold close_sub; by rewrite Es, Ho|]. rewrite (close_sub_eq s id sub Es Ho).
  pose proof (mark_closed_wf s id sub Hwf Es) as Hm.
  destruct (remove_sub_cases _ (su_key sub) id Hm) as [->|(n & t & last & E1 & E2 & Hl & ->)]; [done|].
  apply (removed_wf _ Hm (su_key sub) n id t (closed_sub sub) last E1 E2); [by simpl; rewrite lookup_insert_eq|done|done].
Qed.

(** *** Calls that return *)

Lemma return_err_wf s id e c n : wf s → so_calls s !! id = Some (c, n) → c ≠ Starting → wf (return_call s id (Some e)).
Proof.
  intros [Hf Ht Hst Ho Hr Hrs Hc Hres] Ec Hne. split; simpl; try done.
  - intros m Hm. destruct (Hf m Hm) as (? & ? & E & ? & ?). assert (id ≠ m) by (intros <-; congruence).
    by rewrite lookup_delete_ne, lookup_insert_ne.
  - intros m t E. destruct (Hst m t E) as (k & ? & H1 & ?). exists k. split; [done|]. split; [|done]. intros Hs.
    destruct (H1 Hs) as (? & Em & ?). rewrite lookup_delete_ne; [done|]. intros <-. congruence.
  - intros i c' m E. map_cases. by apply Hc.
  - intros i E. map_cases. destruct (Hres i ltac:(done)) as [? ?]. split; [|done]. by rewrite lookup_delete_ne.
Qed.

(** What [Close] and [closeFailedSubscription] leave of a subscription that is
    not returned to anyone. *)
Lemma fail_sub_wf s id sub e c n :
  wf s → so_calls s !! id = Some (c, n) → c ≠ Starting → so_subs s !! id = Some sub →
  wf (return_call (set_sub s id (closeFailedSubscription sub)) id (Some e)).
Proof.
  intros [Hf Ht Hst Ho Hr Hrs Hc Hres] Ec Hne Es.
  assert (Hkey : ∀ m, key_of (return_call (set_sub s id (closeFailedSubscription sub)) id (Some e)) m = key_of s m)
    by (intros m; by apply (set_sub_key s id sub)).
  split.
  - simpl. intros m Hm. destruct (Hf m Hm) as (? & ? & E & ? & ?). assert (id ≠ m) by (intros <-; congruence).
    by rewrite lookup_delete_ne, !lookup_insert_ne.
  - intros k m E. rewrite Hkey. by apply Ht.
  - intros m t E. destruct (Hst m t E) as (k & ? & H1 & H2 & H3). exists k. rewrite Hkey. split_and!; [done| |done|].
    + simpl. intros Hs. destruct (H1 Hs) as (? & Em & ?). rewrite lookup_delete_ne; [done|]. intros <-. congruence.
    + intros i Hi. rewrite Hkey. by apply H3.
  - done.
  - done.
  - done.
  - simpl. intros i c' m E. map_cases. rewrite lookup_insert_ne by done. by apply Hc.
  - simpl. intros i E. map_cases. destruct (Hres i ltac:(done)) as [? ?]. by rewrite lookup_delete_ne, lookup_insert_ne.
Qed.

Lemma served_wf s id sub n t :
  wf s → so_calls s !! id = Some (Settling, n) → so_subs s !! id = Some sub → so_store s !! n = Some t →
  tp_startErr t = None → su_closed sub = false → wf (return_call s id None).
Proof.
  intros Hwf Ec Es Et Herr Hcl. destruct (wf_call s Hwf id Settling n Ec) as (t0 & sub0 & Et0 & Es0 & _ & H2 & H3 & H4).
  assert (t0 = t) as -> by congruence. assert (sub0 = sub) as -> by congruence. specialize (H2 eq_refl).
  assert (Hon : su_once sub = false) by (destruct (su_once sub); [specialize (H4 eq_refl); congruence|done]).
  destruct (H3 Hon) as (Hid & _ & Hop). destruct (wf_store s Hwf n t Et) as (key & Hk & _ & Hmap & Hmem).
  pose proof (Hmap Herr ltac:(set_solver)) as Htop. pose proof (Hmem id Hid) as Hkid. unfold key_of in Hkid. rewrite Es in Hkid. simpl in Hkid.
  destruct Hwf as [Hf Ht Hst Ho Hr Hrs Hc Hres]. split; simpl; try done.
  - intros m Hm. destruct (Hf m Hm) as (? & ? & E & ? & ?). assert (id ≠ m) by (intros <-; congruence).
    by rewrite lookup_delete_ne, lookup_insert_ne.
  - intros m t1 E. destruct (Hst m t1 E) as (k & ? & H1 & ?). exists k. split; [done|]. split; [|done]. intros Hs.
    destruct (H1 Hs) as (? & Em & ?). rewrite lookup_delete_ne; [done|]. intros <-. congruence.
  - intros i c' m E. map_cases. by apply Hc.
  - intros i E. apply lookup_insert_Some in E as [[<- _]|[Hne E]].
    + rewrite lookup_delete_eq. split; [done|]. exists sub. rewrite Hon, Hcl, Hop. split_and!; [done..|]. intros _.
      exists n, t. by replace (su_key sub) with key by congruence.
    + destruct (Hres i E) as [? ?]. by rewrite lookup_delete_ne.
Qed.

Lemma settle_wf s id s' : settle meta operation s id = Some s' → wf s → wf s'.
Proof.
  unfold settle. intros Hs Hwf. destruct (so_calls s !! id) as [[[] n]|] eqn:Ec; try done.
  destruct (so_subs s !! id) as [sub|] eqn:Es; [|done]. destruct (so_store s !! n) as [t|] eqn:Et; [|done].
  destruct (tp_startErr t) as [e|] eqn:Herr; [injection Hs as <-; by eapply fail_sub_wf|].
  destruct (so_closed s || su_closed sub) eqn:Hcl; injection Hs as <-; [by eapply fail_sub_wf|].
  apply orb_false_iff in Hcl as [_ Hcl].
  assert (Hsame : same_shape (return_call s id None) (return_call (set_sub s id (emitStatus sub (plain_status SubscriptionActive))) id None)).
  { split; simpl; try done. intros m. destruct (decide (id = m)) as [<-|Hne]; [|by rewrite lookup_insert_ne].
    by rewrite lookup_insert_eq, Es; simpl; rewrite emitStatus_shape. }
  apply (same_wf _ _ Hsame). by eapply served_wf.
Qed.

Lemma ready_wf s id s' : ready s id = Some s' → wf s → wf s'.
Proof.
  unfold ready. intros Hs [Hf Ht Hst Ho Hr Hrs Hc Hres]. destruct (so_calls s !! id) as [[[] n]|] eqn:Ec; try done.
  destruct (so_store s !! n) as [t|] eqn:Et; [|done]. destruct (tp_starting t) eqn:Hsta; [done|]. injection Hs as <-.
  split; simpl; try done.
  - intros m Hm. destruct (Hf m Hm) as (? & ? & E & ? & ?). rewrite lookup_insert_ne; [done|]. intros <-. congruence.
  - intros m t1 E. destruct (Hst m t1 E) as (k & ? & H1 & ?). exists k. split; [done|]. split; [|done]. intros Hs.
    destruct (H1 Hs) as (? & Em & ?). rewrite lookup_insert_ne; [done|]. intros <-. congruence.
  - intros i c m E. apply lookup_insert_Some in E as [[<- [= <- <-]]|[Hne E]]; [|by apply Hc].
    destruct (Hc id Waiting n Ec) as (t1 & sub & Et1 & Es & _ & _ & H3 & H4). exists t1, sub. assert (t1 = t) as -> by congruence. done.
  - intros i E. destruct (Hres i E) as [? ?]. split; [|done]. rewrite lookup_insert_ne; [done|]. intros <-. congruence.
Qed.

Lemma close_sub_calls s id : so_calls (close_sub s id) = so_calls s.
Proof.
  unfold close_sub. destruct (so_subs s !! id) as [sub|]; [|done]. destruct (su_once sub); [done|]. simpl. unfold remove_sub. simpl.
  destruct (so_topics s !! su_key sub) as [n|]; [|done]. destruct (so_store s !! n) as [t|]; [|done].
  destruct (negb _); [done|]. simpl. by destruct (tp_starting t), (tp_stop t).
Qed.

Lemma abandon_wf s id contextErr s' : abandon meta operation s id contextErr = Some s' → wf s → wf s'.
Proof.
  unfold abandon. intros Hs Hwf. destruct (so_calls s !! id) as [[[] n]|] eqn:Ec; try done.
  assert (Hr : ∀ e, wf (return_call (close_sub s id) id (Some e))).
  { intros e. apply (return_err_wf _ id e Waiting n); [by apply close_sub_wf|by rewrite close_sub_calls|done]. }
  destruct contextErr; [by injection Hs as <-|]. destruct (so_closed s); [by injection Hs as <-|done].
Qed.

(** Every transition keeps the structure. *)
Lemma step_wf s l s' : wf s → step meta operation process replay new_state s l = Some s' → wf s'.
Proof.
  intros Hwf. destruct l; cbn [step].
  - intros [= <-]. by apply watch_wf.
  - by apply start_done_wf.
  - intros Hs. by eapply ready_wf.
  - intros Hs. by eapply abandon_wf.
  - intros Hs. by eapply settle_wf.
  - destruct (may_close s id); [|done]. intros [= <-]. by apply close_sub_wf.
  - intros Hs. by eapply on_event_wf.
  - unfold on_status. destruct (so_store s !! topic); simpl; [|done]. intros [= <-].
    eapply same_wf; [apply for_subs_shape, (λ sub, emitStatus_shape sub status)|done].
  - unfold on_error. destruct (so_store s !! topic); simpl; [|done]. intros [= <-].
    eapply same_wf; [apply for_subs_shape, (λ sub, emitError_shape sub err)|done].
  - intros [= <-]. destruct Hwf. split; simpl; try done. by left.
  - destruct (so_closed s) eqn:Hcl; [|done]. intros [= <-]. destruct Hwf as [Hf Ht Hst Ho Hr Hrs Hc Hres]. split; simpl; try done.
    + intros m Hm. destruct (Hf m Hm) as (? & ? & ? & ? & ?). set_solver.
    + intros m t E. destruct (Hst m t E) as (k & ? & H1 & ?). exists k. split; [done|]. split; [|done]. intros Hs.
      destruct (H1 Hs) as (? & ? & ? & ?). set_solver.
    + congruence.
Qed.
Lemma run_wf labels s s' : wf s → run meta operation process replay new_state s labels = Some s' → wf s'.
Proof.
  revert s. induction labels as [|l labels IH]; intros s Hwf; simpl; [by intros [= <-]|].
  destruct (step _ _ _ _ _ s l) as [s1|] eqn:E; [|done]. apply IH. by eapply step_wf.
Qed.
End structure.

(** ** Sharing *)

Section sharing.
Context {T P : Type} (meta : clientMeta) (operation : string).
Context (process : option (P → T → P * result error bool)) (replay : option (P → option T)) (new_state : string → P).

(** Watchers share native streams and none leaks.  After any interleaving of
    watches, starts, cancellations and closes, as long as the socket is open:
    a running native stream belongs to a topic of the map that someone is
    subscribed to, two running streams serve different keys, and a watch that
    returned a subscription is served by the running stream of its key until it
    is closed. *)
Theorem topics_shared labels (s : socket T P) :
  run meta operation process replay new_state newPublicWebSocket labels = Some s → so_closed s = false →
  (∀ n, n ∈ so_running s → ∃ key t, so_topics s !! key = Some n ∧ so_store s !! n = Some t ∧ tp_subs t ≠ ∅) ∧
  (∀ n m, n ∈ so_running s → m ∈ so_running s → key_of s n = key_of s m → n = m) ∧
  (∀ id sub, so_results s !! id = Some None → so_subs s !! id = Some sub → su_closed sub = false →
     ∃ n t, so_topics s !! su_key sub = Some n ∧ so_store s !! n = Some t ∧ id ∈ tp_subs t ∧ n ∈ so_running s).
Proof.
  intros Hrun Hcl. pose proof (run_wf meta operation process replay new_state labels _ s wf_new Hrun) as Hwf.
  assert (Hin : ∀ n, n ∈ so_running s → ∃ key, so_topics s !! key = Some n).
  { intros n Hn. destruct (wf_running s Hwf n Hn) as [?|?]; [congruence|done]. }
  split_and!.
  - intros n Hn. destruct (Hin n Hn) as (key & Ek). destruct (wf_topic s Hwf key n Ek) as (Hk & t & Et & Hs).
    exists key, t. split_and!; [done..|]. destruct (tp_starting t) eqn:Hsta; [|by apply Hs].
    destruct (wf_store s Hwf n t Et) as (k & _ & H1 & _). destruct (H1 Hsta) as (_ & _ & _ & Hnr). done.
  - intros n m Hn Hm E. destruct (Hin n Hn) as (k & Ek), (Hin m Hm) as (k' & Ek').
    destruct (wf_topic s Hwf k n Ek) as [H1 _], (wf_topic s Hwf k' m Ek') as [H2 _]. congruence.
  - intros id sub Hr Es Hc. destruct (wf_result s Hwf id Hr) as (_ & sub' & Es' & H1 & _ & H3).
    assert (sub' = sub) as -> by congruence. destruct (H3 ltac:(congruence)) as (n & t & Ek & Et & Hid & Hsta).
    exists n, t. split_and!; [done..|]. by apply (wf_runs s Hwf (su_key sub) n t).
Qed.
End sharing.

(** ** Delivery *)

Section delivery.
Context {T P : Type} (meta : clientMeta) (operation : string).
Context (process : option (P → T → P * result error bool)) (replay : option (P → option T)) (new_state : string → P).
Implicit Types (s : socket T P) (sub : subscription T) (t : websocketTopic P).

(** The state and the events let through after a sequence of native events. *)
Definition process_one (p : P) (e : T) : P * result error bool :=
  match process with Some f => f p e | None => (p, Ok true) end.
Fixpoint outcome (p : P) (events : list T) : P * list T :=
  match events with
  | [] => (p, [])
  | e :: rest =>
      let (p', r) := process_one p e in
      let (p'', out) := outcome p' rest in (p'', match r with Ok true => e :: out | _ => out end)
  end.
Definition replay_of (p : P) : list T :=
  match replay with Some f => match f p with Some e => [e] | None => [] end | None => [] end.

Lemma outcome_app p l1 l2 :
  outcome p (l1 ++ l2) = ((outcome (outcome p l1).1 l2).1, (outcome p l1).2 ++ (outcome (outcome p l1).1 l2).2).
Proof.
  revert p. induction l1 as [|e l1 IH]; intros p; simpl; [by destruct (outcome p l2)|].
  destruct (process_one p e) as [p' r]. rewrite IH. destruct (outcome p' l1) as [p1 o1]. simpl.
  destruct (outcome p1 l2) as [p2 o2]. simpl. by destruct r as [[]|].
Qed.

Lemma outcome_one p e : (outcome p [e]).1 = (process_one p e).1.
Proof. simpl. by destruct (process_one p e). Qed.

Definition listening sub : Prop := su_closed sub = false ∧ su_open sub = true.

(** What a listening subscriber of a topic with state [p] has received: the
    replay of the state when it joined and what was let through since. *)
Definition received (key : string) (p : P) (events : list T) : Prop :=
  ∃ before after, p = (outcome (new_state key) (before ++ after)).1 ∧
    let joined := (outcome (new_state key) before).1 in events = replay_of joined ++ (outcome joined after).2.

Record fed s : Prop := {
  fed_state : ∀ n t key, so_store s !! n = Some t → key_of s n = Some key → ∃ es, tp_state t = (outcome (new_state key) es).1;
  fed_sub : ∀ n t key id sub, so_store s !! n = Some t → key_of s n = Some key → id ∈ tp_subs t → so_subs s !! id = Some sub →
    listening sub → received key (tp_state t) (su_events sub);
}.

(** A transition that delivers nothing. *)
Record quiet s s' : Prop := {
  quiet_topic : ∀ n t', so_store s' !! n = Some t' → ∃ t, so_store s !! n = Some t ∧ tp_state t' = tp_state t ∧ tp_subs t' ⊆ tp_subs t;
  quiet_sub : ∀ id sub', so_subs s' !! id = Some sub' → ∃ sub, so_subs s !! id = Some sub ∧ su_key sub' = su_key sub ∧
    (listening sub' → listening sub ∧ su_events sub' = su_events sub);
}.

Lemma quiet_fed s s' : quiet s s' → fed s → fed s'.
Proof.
  intros [Hqt Hqs] [Hst Hsub].
  assert (Hkey : ∀ n key, key_of s' n = Some key → key_of s n = Some key).
  { intros n key. unfold key_of. destruct (so_subs s' !! n) as [sub'|] eqn:E; [|done]. simpl. intros [= <-].
    destruct (Hqs n sub' E) as (sub & -> & -> & _). done. }
  split.
  - intros n t' key E Hk. destruct (Hqt n t' E) as (t & Et & -> & _). by apply (Hst n t key Et), Hkey.
  - intros n t' key id sub' E Hk Hid Es Hl. destruct (Hqt n t' E) as (t & Et & -> & Hss). destruct (Hqs id sub' Es) as (sub & Es' & _ & H1).
    destruct (H1 Hl) as [Hl' ->]. apply (Hsub n t key id sub); auto.
Qed.
Lemma quiet_trans s1 s2 s3 : quiet s1 s2 → quiet s2 s3 → quiet s1 s3.
Proof.
  intros [A1 B1] [A2 B2]. split.
  - intros n t E. destruct (A2 n t E) as (t2 & E2 & -> & S2). destruct (A1 n t2 E2) as (t1 & E1 & -> & S1). exists t1. set_solver.
  - intros id sub E. destruct (B2 id sub E) as (sub2 & E2 & -> & L2). destruct (B1 id sub2 E2) as (sub1 & E1 & -> & L1). exists sub1.
    split_and!; [done..|]. intros Hl. destruct (L2 Hl) as [Hl2 ->]. by apply L1.
Qed.
(** Changes outside the store and the subscriptions are quiet. *)
Lemma quiet_same s s' : so_store s' = so_store s → so_subs s' = so_subs s → quiet s s'.
Proof. intros E1 E2. split; rewrite ?E1, ?E2; eauto. Qed.
Lemma quiet_set_store s n t t' : so_store s !! n = Some t → tp_state t' = tp_state t → tp_subs t' ⊆ tp_subs t → quiet s (set_store s n t').
Proof.
  intros E H1 H2. split; simpl; [|eauto]. intros m u Eu. apply lookup_insert_Some in Eu as [[<- <-]|[_ Eu]]; [|eauto]. by exists t.
Qed.
Lemma quiet_set_sub s id sub sub' :
  so_subs s !! id = Some sub → su_key sub' = su_key sub → (listening sub' → listening sub ∧ su_events sub' = su_events sub) →
  quiet s (set_sub s id sub').
Proof.
  intros E H1 H2. split; simpl; [eauto|]. intros m u Eu. apply lookup_insert_Some in Eu as [[<- <-]|[_ Eu]]; [|eauto]. by exists sub.
Qed.
Lemma quiet_for_subs s subs f :
  (∀ sub, shape (f sub) = shape sub ∧ su_events (f sub) = su_events sub) → quiet s (for_subs s subs f).
Proof.
  intros Hf. split; simpl; [eauto|]. intros id sub'. rewrite map_lookup_imap. destruct (so_subs s !! id) as [sub|]; simpl; [|done].
  intros [= <-]. exists sub. destruct (bool_decide _); [|done]. destruct (Hf sub) as [Hsh ->]. unfold shape in Hsh. injection Hsh as -> Hc Ho Hp.
  unfold listening. by rewrite Hc, Hp.
Qed.

Lemma quiet_remove s key id : quiet s (remove_sub s key id).
Proof.
  unfold remove_sub. destruct (so_topics s !! key) as [n|]; [|by apply quiet_same]. destruct (so_store s !! n) as [t|] eqn:E; [|by apply quiet_same].
  assert (Hq : quiet s (set_store s n (with_subs t (tp_subs t ∖ {[id]})))) by (eapply quiet_set_store; [exact E|done|set_solver]).
  destruct (negb _); [done|]. destruct (tp_starting _); [done|].
  destruct (tp_stop _); (eapply quiet_trans; [exact Hq|by apply quiet_same]).
Qed.
Lemma quiet_close s id : quiet s (close_sub s id).
Proof.
  destruct (so_subs s !! id) as [sub|] eqn:Es; [|unfold close_sub; rewrite Es; by apply quiet_same].
  destruct (su_once sub) eqn:Ho; [unfold close_sub; rewrite Es, Ho; by apply quiet_same|]. rewrite (close_sub_eq s id sub Es Ho).
  eapply quiet_trans; [|apply quiet_remove]. eapply quiet_set_sub; [exact Es|done|]. by intros [? _].
Qed.

Lemma emitStatus_events sub status : su_events (emitStatus sub status) = su_events sub.
Proof. unfold emitStatus, emitStatusUnchecked. by destruct (su_closed sub), (su_open sub). Qed.
Lemma emitError_events sub err : su_events (emitError sub err) = su_events sub.
Proof. unfold emitError. by destruct (_ && _). Qed.

Lemma quiet_settle s id s' : settle meta operation s id = Some s' → quiet s s'.
Proof.
  unfold settle. destruct (so_calls s !! id) as [[[] n]|]; try done. destruct (so_subs s !! id) as [sub|] eqn:Es; [|done].
  destruct (so_store s !! n) as [t|]; [|done].
  assert (Hf : ∀ r, quiet s (return_call (set_sub s id (closeFailedSubscription sub)) id r)).
  { intros r. apply (quiet_trans _ (set_sub s id (closeFailedSubscription sub))); [|by apply quiet_same]. eapply quiet_set_sub; [exact Es|done|]. by intros [? _]. }
  destruct (tp_startErr t); [intros [= <-]; apply Hf|]. destruct (_ || _); intros [= <-]; [apply Hf|].
  apply (quiet_trans _ (set_sub s id (emitStatus sub (plain_status SubscriptionActive)))); [|by apply quiet_same].
  pose proof (emitStatus_shape sub (plain_status SubscriptionActive)) as Hsh.
  unfold shape in Hsh. injection Hsh as Hk Hc Ho Hp.
  eapply quiet_set_sub; [exact Es|done|]. unfold listening. rewrite Hc, Hp, emitStatus_events. done.
Qed.

(** Every transition other than a watch and an event is quiet. *)
Lemma step_quiet s l s' :
  wf s → step meta operation process replay new_state s l = Some s' →
  match l with LWatch _ | LEvent _ _ => True | _ => quiet s s' end.
Proof.
  intros Hwf. destruct l; cbn [step]; try done.
  - intros Hs. destruct (start_done_ended meta operation new_state s id startErr contextErr s' Hwf Hs) as (key & t & started & err & _ & Et & _ & _ & _ & _ & ->).
    unfold start_ended. split; simpl; [|eauto]. intros m u Eu. apply lookup_insert_Some in Eu as [[<- <-]|[_ Eu]]; [|eauto]. by exists t.
  - unfold ready. destruct (so_calls s !! id) as [[[] n]|]; try done. destruct (so_store s !! n) as [t|]; [|done].
    destruct (tp_starting t); [done|]. intros [= <-]. by apply quiet_same.
  - unfold abandon. destruct (so_calls s !! id) as [[[] n]|]; try done.
    destruct contextErr; [|destruct (so_closed s); [|done]]; intros [= <-]; (eapply quiet_trans; [apply quiet_close|by apply quiet_same]).
  - apply quiet_settle.
  - destruct (may_close s id); [|done]. intros [= <-]. apply quiet_close.
  - unfold on_status. destruct (so_store s !! topic); simpl; [|done]. intros [= <-]. apply quiet_for_subs.
    intros sub. split; [apply emitStatus_shape|apply emitStatus_events].
  - unfold on_error. destruct (so_store s !! topic); simpl; [|done]. intros [= <-]. apply quiet_for_subs.
    intros sub. split; [apply emitError_shape|apply emitError_events].
  - intros [= <-]. by apply quiet_same.
  - destruct (so_closed s); [|done]. intros [= <-]. by apply quiet_same.
Qed.

(** A native event reaches every listener of its topic and no one else. *)
Lemma received_app key p events e :
  received key p events →
  received key (process_one p e).1 (match (process_one p e).2 with Ok true => events ++ [e] | _ => events end).
Proof.
  intros (before & after & -> & ->). exists before, (after ++ [e]). cbv zeta. rewrite !outcome_app. simpl.
  destruct (process_one _ e) as [p' r]. simpl. split; [done|]. destruct r as [[]|]; by rewrite ?app_nil_r, ?app_assoc.
Qed.

Lemma on_event_parts s n e s' : on_event process s n e = Some s' →
  ∃ t, so_store s !! n = Some t ∧
    so_store s' = <[n := mkTopic (tp_subs t) (process_one (tp_state t) e).1 (tp_stop t) (tp_starting t) (tp_startErr t)]> (so_store s) ∧
    ∀ id, so_subs s' !! id = (λ sub, if bool_decide (id ∈ tp_subs t)
      then match (process_one (tp_state t) e).2 with Ok true => emit sub e | Ok false => sub | Err err => emitError sub err end
      else sub) <$> so_subs s !! id.
Proof.
  unfold on_event. destruct (so_store s !! n) as [t|] eqn:Et; [|done]. fold (process_one (tp_state t) e).
  destruct (process_one (tp_state t) e) as [p' r] eqn:Ep. intros Hs. exists t. rewrite Ep. split; [done|].
  destruct r as [[]|err]; injection Hs as <-; simpl; split; try done; intros id; rewrite ?map_lookup_imap;
    destruct (so_subs s !! id); simpl; try done; by destruct (bool_decide _).
Qed.

Lemma on_event_fed s n e s' : wf s → fed s → on_event process s n e = Some s' → fed s'.
Proof.
  intros Hwf [Hst Hsub] Hs. destruct (on_event_parts s n e s' Hs) as (t & Et & Estore & Esubs).
  assert (Hkey : ∀ m, key_of s' m = key_of s m).
  { intros m. unfold key_of. rewrite Esubs. destruct (so_subs s !! m) as [sub|]; simpl; [|done]. f_equal.
    destruct (bool_decide _); [|done]. destruct (process_one (tp_state t) e).2 as [[]|]; [|done|];
      [unfold emit|unfold emitError]; by destruct (_ && _). }
  split.
  - intros m u key. rewrite Estore, Hkey. intros E Hk. apply lookup_insert_Some in E as [[<- <-]|[_ E]]; [|by apply (Hst m u key)].
    simpl. destruct (Hst n t key Et Hk) as (es & ->). exists (es ++ [e]). rewrite outcome_app. cbn [fst]. by rewrite outcome_one.
  - intros m u key id sub'. rewrite Estore, Hkey, Esubs. intros E Hk Hid Es Hl.
    destruct (so_subs s !! id) as [sub|] eqn:Esub; [|done]. simpl in Es. injection Es as <-.
    apply lookup_insert_Some in E as [[<- <-]|[Hne E]].
    + simpl in *. rewrite bool_decide_true in * by done.
      assert (Hls : listening sub).
      { revert Hl. destruct (process_one (tp_state t) e).2 as [[]|]; unfold emit, emitError, listening; [|done|];
          destruct (negb (su_closed sub) && su_open sub); done. }
      pose proof (received_app key _ _ e (Hsub n t key id sub Et Hk Hid Esub Hls)) as Hr. destruct Hls as [Hc Ho].
      destruct (process_one (tp_state t) e).2 as [[]|]; unfold emit, emitError; rewrite ?Hc, ?Ho; exact Hr.
    + rewrite bool_decide_false in *; [by apply (Hsub m u key id)|..]; intros Hid'; apply Hne; by apply (wf_one s Hwf n m t u id).
Qed.

(** A watcher joins with the replay of the current state. *)
Lemma added_events t id key :
  su_events (emitStatus (add_sub replay t id key).2 (plain_status SubscriptionConnecting)) = replay_of (tp_state t).
Proof. rewrite emitStatus_events. unfold add_sub, replayed, replay_of. destruct replay as [f|]; [|done]. by destruct (f (tp_state t)). Qed.

Lemma joined_fed s key n t0 sub c :
  wf s → fed s → shape sub = (key, false, false, true) → su_events sub = replay_of (tp_state t0) →
  (so_store s !! n = Some t0 ∧ so_topics s !! key = Some n ∨ n = so_next s ∧ t0 = newWebSocketTopic new_state key) →
  fed (joined s key n (with_subs t0 ({[so_next s]} ∪ tp_subs t0)) sub c).
Proof.
  intros Hwf [Hst Hsub] Hsh Hev Hn. destruct (wf_fresh s Hwf (so_next s) ltac:(lia)) as (F1 & F2 & F3 & F4 & F5).
  set (t1 := with_subs t0 _). set (s' := joined s key n t1 sub c).
  assert (Hold : ∀ m k, m ≠ so_next s → key_of s' m = Some k → key_of s m = Some k) by (intros m k Hm; unfold s'; by rewrite (joined_key s key sub)).
  assert (Hkn : key_of s' n = Some key ∧ ∃ es, tp_state t0 = (outcome (new_state key) es).1).
  { destruct Hn as [[Et Etop]|[-> ->]].
    - destruct (wf_topic s Hwf key n Etop) as [Hk _]. split; [|by apply (Hst n t0 key)].
      unfold s'. rewrite (joined_key s key sub); [done|]. intros ->. congruence.
    - split; [by apply (joined_key_new s key sub Hsh)|by exists []]. }
  destruct Hkn as [Hkn (es & Hes)].
  assert (Hmem : ∀ m u i, so_store s !! m = Some u → i ∈ tp_subs u → i ≠ so_next s).
  { intros m u i Eu Hi ->. destruct (wf_store s Hwf m u Eu) as (k & _ & _ & _ & Hm). specialize (Hm _ Hi). unfold key_of in Hm. by rewrite F1 in Hm. }
  split.
  - intros m u k E Hk. simpl in E. apply lookup_insert_Some in E as [[<- <-]|[Hne E]].
    + exists es. by replace k with key by congruence.
    + apply (Hst m u k E). apply Hold; [|done]. intros ->. congruence.
  - intros m u k id sub' E Hk Hid Es Hl. simpl in E. apply lookup_insert_Some in E as [[<- <-]|[Hne E]].
    + assert (k = key) as -> by congruence. simpl in Hid. apply elem_of_union in Hid as [->%elem_of_singleton|Hid].
      * simpl in Es. rewrite lookup_insert_eq in Es. injection Es as <-. exists es, []. rewrite app_nil_r. cbv zeta.
        cbn [outcome snd]. by rewrite app_nil_r, <- Hes.
      * destruct Hn as [[Et Etop]|[-> ->]]; [|set_solver]. simpl in Es. rewrite lookup_insert_ne in Es by (by apply not_eq_sym, (Hmem n t0)).
        apply (Hsub n t0 key id sub'); try done. apply Hold; [intros ->; congruence|done].
    + simpl in Es. rewrite lookup_insert_ne in Es by (by apply not_eq_sym, (Hmem m u)).
      apply (Hsub m u k id sub'); try done. apply Hold; [intros ->; congruence|done].
Qed.

Lemma watch_fed s key : wf s → fed s → fed (watch meta operation replay new_state s key).
Proof.
  intros Hwf Hfed. unfold watch. cbn [so_closed so_topics so_store so_next so_subs so_calls].
  destruct (so_closed s) eqn:Hcl; [by apply (quiet_fed s), Hfed; apply quiet_same|].
  destruct (so_topics s !! key) as [n|] eqn:Etop.
  - destruct (wf_topic s Hwf key n Etop) as (_ & t & Et & _). rewrite Et. cbn [default].
    pose proof (joined_fed s key n t _ Waiting Hwf Hfed (add_sub_shape replay t (so_next s) key) (added_events t (so_next s) key)
      ltac:(left; done)) as Hj. unfold joined in Hj. rewrite Hcl in Hj. exact Hj.
  - pose proof (joined_fed s key (so_next s) (newWebSocketTopic new_state key) _ Starting Hwf Hfed
      (add_sub_shape replay (newWebSocketTopic new_state key) (so_next s) key)
      (added_events (newWebSocketTopic new_state key) (so_next s) key) ltac:(right; done)) as Hj.
    unfold joined in Hj. rewrite Hcl in Hj. exact Hj.
Qed.

Lemma run_fed labels s s' : wf s → fed s → run meta operation process replay new_state s labels = Some s' → fed s'.
Proof.
  revert s. induction labels as [|l labels IH]; intros s Hwf Hfed; simpl; [by intros [= <-]|].
  destruct (step _ _ _ _ _ s l) as [s1|] eqn:E; [|done]. apply IH; [by eapply step_wf|].
  pose proof (step_quiet s l s1 Hwf E) as Hq.
  destruct l; try (by apply (quiet_fed s)); cbn [step] in E; [injection E as <-; by apply watch_fed|by apply (on_event_fed s topic event)].
Qed.

(** What a subscriber receives.  However watchers join and leave, a
    subscription that is listening has received the replay of the topic's state
    as it joined and then exactly the events the topic let through since, in
    order; the topic's state is that of all its native events. *)
Theorem subscriber_receives labels s n t id sub key :
  run meta operation process replay new_state newPublicWebSocket labels = Some s →
  so_store s !! n = Some t → id ∈ tp_subs t → so_subs s !! id = Some sub → su_closed sub = false → su_open sub = true →
  key_of s n = Some key →
  ∃ before after, tp_state t = (outcome (new_state key) (before ++ after)).1 ∧
    let at_join := (outcome (new_state key) before).1 in su_events sub = replay_of at_join ++ (outcome at_join after).2.
Proof.
  intros Hrun Et Hid Es Hc Ho Hk.
  assert (H0 : fed (newPublicWebSocket (T:=T) (P:=P))) by (split; simpl; intros *; by rewrite lookup_empty).
  pose proof (run_fed labels _ s wf_new H0 Hrun) as Hfed. by apply (fed_sub s Hfed n t key id sub).
Qed.
End delivery.

(** ** Order books end to end *)

Section books.
Context `{DecimalLaws D} (meta : clientMeta) (instrument_of : string → Instrument D).

Definition book_state (key : string) : contract D :=
  newOrderBookContract (cm_venue meta) (cm_product meta) (instrument_of key).
(** [WatchOrderBook]'s topic map *)
Definition book_run : socket (BookEvent D) (contract D) → list (label (T:=BookEvent D)) → option (socket (BookEvent D) (contract D)) :=
  run meta "WatchOrderBook" (Some accept) (Some snapshot) book_state.

Lemma book_outcome c events : outcome (Some accept) c events = run_contract c events.
Proof.
  revert c. induction events as [|e events IH]; intros c; [done|]. cbn [outcome run_contract process_one].
  destruct (accept c e) as [c' r]. rewrite IH. done.
Qed.
Lemma run_contract_ok c events : contract_ok c → contract_ok (run_contract c events).1.
Proof.
  revert c. induction events as [|e events IH]; intros c Hc; [done|]. cbn [run_contract].
  destruct (accept_correct c e Hc) as [Hok _]. destruct (accept c e) as [c' r]. specialize (IH c' Hok).
  by destruct (run_contract c' events).
Qed.
Lemma unstarted_agree (c : contract D) : snapshot c = None → agree c pump_init.
Proof. unfold snapshot, agree. destruct (bc_started c); simpl; [done|]. intros _. by split. Qed.

(** C4: the venue client and the gateway together.  Whenever a subscriber joined
    an order-book topic, and whatever the venue sent, the book the gateway's pump
    builds from what the subscription received is the book of the topic. *)
Theorem subscribed_book_agrees now labels s n t id sub :
  book_run newPublicWebSocket labels = Some s →
  so_store s !! n = Some t → id ∈ tp_subs t → so_subs s !! id = Some sub → su_closed sub = false → su_open sub = true →
  agree (tp_state t) (run_pump now pump_init (su_events sub)).
Proof.
  intros Hrun Et Hid Es Hc Ho.
  pose proof (run_wf meta "WatchOrderBook" (Some accept) (Some snapshot) book_state labels _ s wf_new Hrun) as Hwf.
  assert (Hnew : fed (Some accept) (Some snapshot) book_state newPublicWebSocket) by (split; simpl; intros *; by rewrite lookup_empty).
  pose proof (run_fed meta "WatchOrderBook" (Some accept) (Some snapshot) book_state labels _ s wf_new Hnew Hrun) as Hfed.
  destruct (wf_store s Hwf n t Et) as (key & Hk & _).
  destruct (fed_sub _ _ _ s Hfed n t key id sub Et Hk Hid Es (conj Hc Ho)) as (before & after & Hst & Hev).
  rewrite Hst, Hev. rewrite outcome_app, !book_outcome. cbn [fst].
  pose proof (run_contract_ok (book_state key) before (new_contract_ok _ _ _)) as Hok.
  set (c := (run_contract (book_state key) before).1) in *. unfold replay_of.
  destruct (snapshot c) as [e|] eqn:Hsnap; cbn [app]; unfold run_pump; cbn [foldl].
  - apply run_agree. by apply snapshot_agree.
  - apply run_agree. by apply unstarted_agree.
Qed.
End books.

(** ** Concrete inputs *)

(** A running total, replayed to late joiners. *)
Definition sum_process (p e : nat) : nat * result error bool := ((p + e)%nat, Ok true).
Definition sample_meta : clientMeta := mkMeta VenueBinance ProductPerp.
Definition sample_labels : list (label (T:=nat)) :=
  [LWatch "a"; LStartDone 0 None None; LSettle 0; LEvent 0 5%nat; LWatch "a"; LEvent 0 1%nat; LReady 1; LSettle 1; LEvent 0 7%nat; LClose 0].
Definition sum_run := run sample_meta "Watch" (Some sum_process) (Some Some) (λ _, 0%nat).
Definition sample_socket : socket nat nat := default newPublicWebSocket (sum_run newPublicWebSocket sample_labels).
Lemma sample_socket_run : sum_run newPublicWebSocket sample_labels = Some sample_socket.
Proof. vm_compute. reflexivity. Qed.
Definition sample_listener : subscription nat :=
  mkSub "a" [5; 1; 7]%nat [plain_status SubscriptionConnecting; plain_status SubscriptionActive] [] false false true.
Definition sample_topic : websocketTopic nat := mkTopic {[1%nat]} 13%nat true false None.
Lemma sample_socket_parts :
  so_closed sample_socket = false ∧ so_store sample_socket !! 0%nat = Some sample_topic ∧ so_subs sample_socket !! 1%nat = Some sample_listener ∧
  so_results sample_socket !! 1%nat = Some None ∧ key_of sample_socket 0 = Some "a" ∧ so_running sample_socket = {[0%nat]}.
Proof. vm_compute. split_and!; reflexivity. Qed.

Lemma topics_shared_witness : 
  ∃ n t, so_topics sample_socket !! su_key sample_listener = Some n ∧ so_store sample_socket !! n = Some t ∧ 1%nat ∈ tp_subs t ∧
    n ∈ so_running sample_socket.
Proof.
  destruct sample_socket_parts as (Hc & _ & Hs & Hr & _).
  destruct (topics_shared sample_meta "Watch" (Some sum_process) (Some Some) (λ _, 0%nat) sample_labels sample_socket sample_socket_run Hc)
    as (_ & _ & H). exact (H 1%nat sample_listener Hr Hs eq_refl).
Defined.

Lemma subscriber_receives_witness :
  ∃ before after, 13%nat = (outcome (Some sum_process) 0%nat (before ++ after)).1 ∧
    let at_join := (outcome (Some sum_process) 0%nat before).1 in
    [5; 1; 7]%nat = replay_of (Some Some) at_join ++ (outcome (Some sum_process) at_join after).2.
Proof.
  destruct sample_socket_parts as (_ & Ht & Hs & _ & Hk & _).
  exact (subscriber_receives sample_meta "Watch" (Some sum_process) (Some Some) (λ _, 0%nat) sample_labels sample_socket 0 sample_topic 1
    sample_listener "a" sample_socket_run Ht (proj2 (elem_of_singleton 1%nat 1%nat) eq_refl) Hs eq_refl eq_refl Hk).
Defined.

Definition sample_instrument (key : string) : Instrument Z := sample_perp VenueBinance "BTC" "USDT".
Definition book_labels : list (label (T:=BookEvent Z)) :=
  [LWatch "btc"; LEvent 0 sample_snapshot; LStartDone 0 None None; LSettle 0; LWatch "btc"; LEvent 0 sample_delta; LReady 1; LSettle 1].
Definition book_socket : socket (BookEvent Z) (contract Z) :=
  default newPublicWebSocket (book_run sample_meta sample_instrument newPublicWebSocket book_labels).
Lemma book_socket_run : book_run sample_meta sample_instrument newPublicWebSocket book_labels = Some book_socket.
Proof. vm_compute. reflexivity. Qed.
Definition book_topic : websocketTopic (contract Z) := default (mkTopic ∅ (book_state sample_meta sample_instrument "") false false None) (so_store book_socket !! 0%nat).
Definition book_listener : subscription (BookEvent Z) := default (mkSub "" [] [] [] true true false) (so_subs book_socket !! 1%nat).
Lemma book_socket_parts :
  so_store book_socket !! 0%nat = Some book_topic ∧ so_subs book_socket !! 1%nat = Some book_listener ∧
  tp_subs book_topic = {[0; 1]}%nat ∧ su_closed book_listener = false ∧ su_open book_listener = true ∧ length (su_events book_listener) = 2%nat.
Proof. vm_compute. split_and!; reflexivity. Qed.

Lemma subscribed_book_agrees_witness : agree (tp_state book_topic) (run_pump 0 pump_init (su_events book_listener)).
Proof.
  destruct book_socket_parts as (Ht & Hs & Hm & Hc & Ho & _).
  assert (Hid : 1%nat ∈ tp_subs book_topic) by (rewrite Hm; apply elem_of_union_r, elem_of_singleton; reflexivity).
  exact (subscribed_book_agrees sample_meta sample_instrument 0 book_labels book_socket 0 book_topic 1 book_listener book_socket_run Ht Hid Hs Hc Ho).
Defined.
