(* ===== verification/Streams.v ===== *)
(** * Closable streams and gap notification

    [internal/wsstream/wsstream.go]: the event stream of every subscription,
    with any number of goroutines emitting, one closing and one consuming; a
    transition is a section of the mutex, a channel operation or a WaitGroup
    operation.  [exchange/internal/factoryclient/backend_lifecycle.go]: the
    notification of connection gaps to the streams of a connection. *)

From Stdlib Require Import Ascii String ZArith Lia.
From stdpp Require Import base list strings gmap.
From S2P Require Import Prelude Model Sockets.

#[local] Open Scope string_scope.
#[local] Open Scope list_scope.

(** ** Streams *)

Module Stream.
(** The buffer is never empty of capacity in the code (16, 64 or what the watcher
    asked for), so a send is a move into the buffer.  Emitters are numbered; a registered one is between [emitters.Add(1)] and
    [emitters.Done()].  [closer] is the one goroutine inside [once.Do]. *)
Inductive closer_state := NotClosing | WaitingForEmitters | Closed.
Record stream (T : Type) := mkStream {
  st_capacity : nat; st_buffer : list T;
  st_closing : bool; st_done : bool;      (* [done] is closed *)
  st_ch_closed : bool;                    (* [ch] is closed *)
  st_emitting : gmap nat T;               (* registered emitters and their events *)
  st_closer : closer_state;
  st_panicked : bool;                     (* a send on a closed channel *)
  st_accepted : list T; st_refused : list T; st_received : list T;
}.
Arguments mkStream {T}.
Arguments st_capacity {T} _.
Arguments st_buffer {T} _.
Arguments st_closing {T} _.
Arguments st_done {T} _.
Arguments st_ch_closed {T} _.
Arguments st_emitting {T} _.
Arguments st_closer {T} _.
Arguments st_panicked {T} _.
Arguments st_accepted {T} _.
Arguments st_refused {T} _.
Arguments st_received {T} _.

Section stream.
Context {T : Type}.
Implicit Types (s : stream T).

Definition New (buffer : nat) : stream T := mkStream buffer [] false false false ∅ NotClosing false [] [] [].

(** The first section of [Emit]. *)
Definition emit_begin s (emitter : nat) (ev : T) : option (stream T) :=
  match st_emitting s !! emitter with
  | Some _ => None   (* still inside an earlier call *)
  | None =>
      if st_closing s then
        Some (mkStream (st_capacity s) (st_buffer s) (st_closing s) (st_done s) (st_ch_closed s) (st_emitting s) (st_closer s)
                (st_panicked s) (st_accepted s) (ev :: st_refused s) (st_received s))
      else
        Some (mkStream (st_capacity s) (st_buffer s) (st_closing s) (st_done s) (st_ch_closed s) (<[emitter := ev]> (st_emitting s))
                (st_closer s) (st_panicked s) (st_accepted s) (st_refused s) (st_received s))
  end.
(** The two cases of its [select]; a send on a closed channel panics. *)
Definition emit_send s (emitter : nat) : option (stream T) :=
  match st_emitting s !! emitter with
  | None => None
  | Some ev =>
      if st_ch_closed s then
        Some (mkStream (st_capacity s) (st_buffer s) (st_closing s) (st_done s) (st_ch_closed s) (delete emitter (st_emitting s))
                (st_closer s) true (st_accepted s) (st_refused s) (st_received s))
      else if (length (st_buffer s) <? st_capacity s)%nat then
        Some (mkStream (st_capacity s) (st_buffer s ++ [ev]) (st_closing s) (st_done s) (st_ch_closed s) (delete emitter (st_emitting s))
                (st_closer s) (st_panicked s) (st_accepted s ++ [ev]) (st_refused s) (st_received s))
      else None
  end.
Definition emit_done s (emitter : nat) : option (stream T) :=
  match st_emitting s !! emitter with
  | None => None
  | Some ev =>
      if st_done s then
        Some (mkStream (st_capacity s) (st_buffer s) (st_closing s) (st_done s) (st_ch_closed s) (delete emitter (st_emitting s))
                (st_closer s) (st_panicked s) (st_accepted s) (ev :: st_refused s) (st_received s))
      else None
  end.
(** [Close]: the section, then [emitters.Wait] and the closing of [ch]. *)
Definition close_begin s : option (stream T) :=
  match st_closer s with
  | NotClosing =>
      Some (mkStream (st_capacity s) (st_buffer s) true true (st_ch_closed s) (st_emitting s) WaitingForEmitters
              (st_panicked s) (st_accepted s) (st_refused s) (st_received s))
  | _ => None
  end.
Definition close_end s : option (stream T) :=
  match st_closer s with
  | WaitingForEmitters =>
      if bool_decide (size (st_emitting s) = 0%nat) then
        Some (mkStream (st_capacity s) (st_buffer s) (st_closing s) (st_done s) true (st_emitting s) Closed
                (st_panicked s) (st_accepted s) (st_refused s) (st_received s))
      else None
  | _ => None
  end.
(** A consumer takes from [C()]. *)
Definition receive s : option (stream T) :=
  match st_buffer s with
  | [] => None
  | ev :: rest =>
      Some (mkStream (st_capacity s) rest (st_closing s) (st_done s) (st_ch_closed s) (st_emitting s) (st_closer s)
              (st_panicked s) (st_accepted s) (st_refused s) (st_received s ++ [ev]))
  end.

Inductive action := Begin (emitter : nat) (ev : T) | Send (emitter : nat) | Bail (emitter : nat) | CloseBegin | CloseEnd | Receive.
Definition step s (a : action) : option (stream T) :=
  match a with
  | Begin i ev => emit_begin s i ev
  | Send i => emit_send s i
  | Bail i => emit_done s i
  | CloseBegin => close_begin s
  | CloseEnd => close_end s
  | Receive => receive s
  end.
Fixpoint run s (actions : list action) : option (stream T) :=
  match actions with
  | [] => Some s
  | a :: rest => match step s a with Some s' => run s' rest | None => None end
  end.

Record ok s : Prop := {
  ok_fifo : st_accepted s = st_received s ++ st_buffer s;
  ok_capacity : (length (st_buffer s) ≤ st_capacity s)%nat;
  ok_closed : st_ch_closed s = true → st_closer s = Closed;
  ok_closer : st_closer s = Closed → st_emitting s = ∅;
  ok_closing : st_closer s ≠ NotClosing → st_closing s = true ∧ st_done s = true;
  ok_open : st_closer s = NotClosing → st_refused s = [] ∧ st_done s = false ∧ st_closing s = false;
  ok_panic : st_panicked s = false;
}.

Lemma step_ok s a s' : ok s → step s a = Some s' → ok s'.
Proof.
  intros [Hf Hc Hcl He Hd Ho Hp]. destruct a as [i ev|i|i| | |]; simpl.
  - unfold emit_begin. destruct (st_emitting s !! i) eqn:E; [done|]. destruct (st_closing s) eqn:Hcs; intros [= <-]; split; simpl; try done.
    + intros HN. by destruct (Ho HN) as (_ & _ & ?).
    + intros HC. destruct (Hd ltac:(congruence)). congruence.
  - unfold emit_send. destruct (st_emitting s !! i) as [ev|] eqn:E; [|done]. destruct (st_ch_closed s) eqn:Hch.
    { rewrite (He (Hcl eq_refl)), lookup_empty in E. done. }
    destruct (Nat.ltb_spec (length (st_buffer s)) (st_capacity s)) as [Hlt|]; [|done]. intros [= <-]. split; simpl; try done.
    + by rewrite Hf, app_assoc.
    + rewrite length_app. simpl. lia.
    + intros HC. rewrite (He HC) in E. by rewrite lookup_empty in E.
  - unfold emit_done. destruct (st_emitting s !! i) as [ev|] eqn:E; [|done]. destruct (st_done s) eqn:Hds; [|done]. intros [= <-].
    split; simpl; try done.
    + intros HC. rewrite (He HC) in E. by rewrite lookup_empty in E.
    + intros HN. by destruct (Ho HN) as (_ & ? & _).
  - unfold close_begin. destruct (st_closer s) eqn:E; try done. intros [= <-]. split; simpl; try done. intros Hch. by specialize (Hcl Hch).
  - unfold close_end. destruct (st_closer s) eqn:E; try done. case_bool_decide as Hs; [|done]. intros [= <-]. split; simpl; try done.
    + intros _. by apply map_size_empty_inv.
    + intros _. by apply Hd.
  - unfold receive. destruct (st_buffer s) as [|ev rest] eqn:E; [done|]. intros [= <-]. split; simpl; try done.
    + by rewrite Hf, <- app_assoc.
    + simpl in Hc. lia.
Qed.

Lemma run_ok actions s s' : ok s → run s actions = Some s' → ok s'.
Proof.
  revert s. induction actions as [|a l IH]; intros s Hs; simpl; [by intros [= <-]|].
  destruct (step s a) as [s1|] eqn:E; [|done]. apply IH. by eapply step_ok.
Qed.
Lemma new_ok buffer : ok (New buffer).
Proof. split; simpl; try done. lia. Qed.

(** What became of the events: in the buffer or received, refused, or still with
    an emitter that has neither sent nor given up. *)
Definition accounted s : list T := st_accepted s ++ st_refused s ++ (map_to_list (st_emitting s)).*2.
(** The events [Emit] was called with, from the calls alone. *)
Definition emitted (actions : list action) : list T :=
  omap (λ a, match a with Begin _ ev => Some ev | _ => None end) actions.

Lemma accounted_leaves s i ev :
  st_emitting s !! i = Some ev → (map_to_list (st_emitting s)).*2 ≡ₚ ev :: (map_to_list (delete i (st_emitting s))).*2.
Proof. intros E. by rewrite <- (map_to_list_delete _ _ _ E). Qed.

Lemma step_accounted s a s' :
  ok s → step s a = Some s' → accounted s' ≡ₚ emitted [a] ++ accounted s.
Proof.
  intros Hok. unfold accounted. destruct a as [i ev|i|i| | |]; simpl.
  - unfold emit_begin. destruct (st_emitting s !! i) eqn:E; [done|]. destruct (st_closing s); intros [= <-]; simpl.
    + by rewrite <- Permutation_middle.
    + rewrite map_to_list_insert by done. simpl. by rewrite <- !Permutation_middle.
  - unfold emit_send. destruct (st_emitting s !! i) as [ev|] eqn:E; [|done]. destruct (st_ch_closed s) eqn:Hch.
    { by rewrite (ok_closer s Hok (ok_closed s Hok Hch)), lookup_empty in E. }
    destruct (length (st_buffer s) <? st_capacity s)%nat; [|done]. intros [= <-]; simpl.
    rewrite (accounted_leaves s i ev E), <- app_assoc. simpl. by rewrite <- !Permutation_middle.
  - unfold emit_done. destruct (st_emitting s !! i) as [ev|] eqn:E; [|done]. destruct (st_done s); [|done].
    intros [= <-]; simpl. by rewrite (accounted_leaves s i ev E), <- !Permutation_middle.
  - unfold close_begin. destruct (st_closer s); try done. by intros [= <-].
  - unfold close_end. destruct (st_closer s); try done. case_bool_decide; [|done]. by intros [= <-].
  - unfold receive. destruct (st_buffer s); [done|]. by intros [= <-].
Qed.

Lemma run_accounted actions s s' :
  ok s → run s actions = Some s' → accounted s' ≡ₚ emitted actions ++ accounted s.
Proof.
  revert s. induction actions as [|a l IH]; intros s Hs; simpl; [by intros [= <-]|].
  destruct (step s a) as [s1|] eqn:E; [|done]. intros Hr. rewrite (IH s1 (step_ok s a s1 Hs E) Hr), (step_accounted s a s1 Hs E).
  destruct a; simpl; try done. by rewrite <- Permutation_middle.
Qed.

Lemma run_capacity actions s s' : run s actions = Some s' → st_capacity s' = st_capacity s.
Proof.
  revert s. induction actions as [|a l IH]; intros s; simpl; [by intros [= <-]|]. destruct (step s a) as [s1|] eqn:E; [|done].
  intros Hr. rewrite (IH s1 Hr). destruct a; simpl in E; unfold emit_begin, emit_send, emit_done, close_begin, close_end, receive in E;
    repeat case_match; by simplify_eq.
Qed.

(** C32: whatever the interleaving of emitters, consumer and close, every event
    [Emit] was called with is accepted, refused or still waiting with its emitter,
    each as often as it was emitted; the accepted ones are received in the order of
    acceptance, those not yet received still buffered, at most the capacity of
    them; an event is refused only once the stream is closing; no send hits the
    closed channel, and once it is closed no event waits: all were accepted or
    refused. *)
Theorem stream_lossless buffer actions s :
  run (New buffer) actions = Some s →
  emitted actions ≡ₚ st_accepted s ++ st_refused s ++ (map_to_list (st_emitting s)).*2 ∧
  st_accepted s = st_received s ++ st_buffer s ∧ (length (st_buffer s) ≤ buffer)%nat ∧
  (st_refused s ≠ [] → st_closing s = true) ∧ st_panicked s = false ∧
  (st_ch_closed s = true → emitted actions ≡ₚ st_accepted s ++ st_refused s).
Proof.
  intros Hrun. pose proof (run_accounted actions _ s (new_ok buffer) Hrun) as Hacc.
  unfold accounted in Hacc at 2. simpl in Hacc. rewrite map_to_list_empty, app_nil_r in Hacc.
  pose proof (run_ok actions _ s (new_ok buffer) Hrun) as [Hf Hc Hcl He Hd Ho Hp].
  rewrite (run_capacity actions _ s Hrun) in Hc. split_and!; [by rewrite <- Hacc|done|done| |done|].
  - intros Hr. destruct (st_closer s) eqn:E; [by destruct (Ho eq_refl)|by apply Hd..].
  - intros Hch. rewrite <- Hacc. unfold accounted. by rewrite (He (Hcl Hch)), map_to_list_empty, app_nil_r.
Qed.

(** A stream that is closing is never stuck: a registered emitter can leave, and
    once all have left the channel closes. *)
Lemma closing_progress s : ok s → st_closer s = WaitingForEmitters →
  (∃ i s', step s (Bail i) = Some s') ∨ (∃ s', step s CloseEnd = Some s').
Proof.
  intros Hok Hc. destruct (ok_closing s Hok ltac:(congruence)) as [_ Hd]. destruct (decide (st_emitting s = ∅)) as [He|He].
  - right. simpl. unfold close_end. rewrite Hc, He, bool_decide_true by apply map_size_empty. eauto.
  - left. apply map_choose in He as (i & ev & E). exists i. simpl. unfold emit_done. rewrite E, Hd. eauto.
Qed.
End stream.

Definition sample_actions : list (action (T:=nat)) :=
  [Begin 0 10%nat; Send 0; Begin 1 11%nat; Receive; Begin 0 12%nat; Send 1; CloseBegin; Begin 2 13%nat; Bail 0; Receive; CloseEnd].
Definition sample_stream : stream nat := mkStream 1 [] true true true ∅ Closed false [10; 11]%nat [12; 13]%nat [10; 11]%nat.
Lemma stream_lossless_witness :
  run (New 1) sample_actions = Some sample_stream ∧ [10; 11; 12; 13]%nat ≡ₚ st_accepted sample_stream ++ st_refused sample_stream.
Proof.
  assert (Hrun : run (New 1) sample_actions = Some sample_stream) by (vm_compute; reflexivity).
  split; [exact Hrun|]. destruct (stream_lossless 1 sample_actions sample_stream Hrun) as (_ & _ & _ & _ & _ & H). exact (H eq_refl).
Defined.
End Stream.

(** ** Gap notification *)

(** [backendLifecycleSink]: which callbacks are set *)
Record sink := mkSink { sk_status : bool; sk_markResync : bool }.
Record backendLifecycle := mkLifecycle { lc_generation : Z; lc_gap : bool; lc_sinks : gmap string sink }.
Definition newBackendLifecycle : backendLifecycle := mkLifecycle 0 false ∅.

(** What a sink is told. *)
Inductive signal := SStatus (status : backendStatus) | SMarkResync.

Definition GapStarted := "started".
Definition GapRecovered := "recovered".

Definition Register (l : backendLifecycle) (key : string) (k : sink) : backendLifecycle :=
  mkLifecycle (lc_generation l) (lc_gap l) (<[key := k]> (lc_sinks l)).
Definition Unregister (l : backendLifecycle) (key : string) : backendLifecycle :=
  mkLifecycle (lc_generation l) (lc_gap l) (delete key (lc_sinks l)).

(** [snapshotLocked], in some order *)
Definition snapshotLocked (l : backendLifecycle) : list (string * sink) := map_to_list (lc_sinks l).

Definition emitBackendStatus (sinks : list (string * sink)) (status : backendStatus) : list (string * signal) :=
  map (λ k, (k.1, SStatus status)) (filter (λ k, sk_status k.2 = true) sinks).
Definition mark_all (sinks : list (string * sink)) : list (string * signal) :=
  map (λ k, (k.1, SMarkResync)) (filter (λ k, sk_markResync k.2 = true) sinks).

(** [Started] and [Recovered]: the new state and what the sinks are told. *)
Definition Started (l : backendLifecycle) : backendLifecycle * list (string * signal) :=
  if lc_gap l then (l, [])
  else
    let generation := wrapU64 (lc_generation l + 1) in
    (mkLifecycle generation true (lc_sinks l),
     emitBackendStatus (snapshotLocked l) (mkStatus SubscriptionGap GapStarted generation "websocket transport disconnected")).
Definition Recovered (l : backendLifecycle) (reason : string) : backendLifecycle * list (string * signal) :=
  if negb (lc_gap l) then (l, [])
  else
    let generation := lc_generation l in
    let sinks := snapshotLocked l in
    (mkLifecycle generation false (lc_sinks l),
     emitBackendStatus sinks (mkStatus SubscriptionResyncing "" generation reason) ++ mark_all sinks ++
     emitBackendStatus sinks (mkStatus SubscriptionActive GapRecovered generation reason)).
Definition SynthesizedRecovery (l : backendLifecycle) (reason : string) : backendLifecycle * list (string * signal) :=
  let (l, out) := Started l in let (l, out') := Recovered l reason in (l, out ++ out').

Inductive lifecycle_call :=
| CStarted | CRecovered (reason : string) | CSynthesized (reason : string)
| CRegister (key : string) (k : sink) | CUnregister (key : string).
Definition lifecycle_step (l : backendLifecycle) (c : lifecycle_call) : backendLifecycle * list (string * signal) :=
  match c with
  | CStarted => Started l
  | CRecovered reason => Recovered l reason
  | CSynthesized reason => SynthesizedRecovery l reason
  | CRegister key k => (Register l key k, [])
  | CUnregister key => (Unregister l key, [])
  end.
Fixpoint lifecycle_run (l : backendLifecycle) (calls : list lifecycle_call) : backendLifecycle * list (string * signal) :=
  match calls with
  | [] => (l, [])
  | c :: rest => let (l1, out) := lifecycle_step l c in let (l2, out') := lifecycle_run l1 rest in (l2, out ++ out')
  end.

(** What one sink hears: gap episodes, each opened once and closed by a resync
    of the same generation; [mark]: the sink has a resync callback. *)
Inductive episode := Live (generation : Z) | InGap (generation : Z).
Inductive hears (mark : bool) : episode → list signal → episode → Prop :=
| hears_nothing e : hears mark e [] e
| hears_gap g reason rest e :
    hears mark (InGap (wrapU64 (g + 1))) rest e →
    hears mark (Live g) (SStatus (mkStatus SubscriptionGap GapStarted (wrapU64 (g + 1)) reason) :: rest) e
| hears_recovery g reason rest e :
    hears mark (Live g) rest e →
    hears mark (InGap g) (SStatus (mkStatus SubscriptionResyncing "" g reason) :: (if mark then [SMarkResync] else []) ++
                          SStatus (mkStatus SubscriptionActive GapRecovered g reason) :: rest) e.

Definition episode_of (l : backendLifecycle) : episode := if lc_gap l then InGap (lc_generation l) else Live (lc_generation l).
Definition heard (key : string) (out : list (string * signal)) : list signal := map snd (filter (λ o, o.1 = key) out).

Lemma hears_app mark e1 l1 e2 l2 e3 : hears mark e1 l1 e2 → hears mark e2 l2 e3 → hears mark e1 (l1 ++ l2) e3.
Proof. induction 1; [done|..]; intros H2; simpl; rewrite <- ?app_assoc; constructor; auto. Qed.
Lemma heard_app key l1 l2 : heard key (l1 ++ l2) = heard key l1 ++ heard key l2.
Proof. unfold heard. by rewrite filter_app, map_app. Qed.

(** A registered sink is told once. *)
Lemma heard_once (sinks : gmap string sink) key (f : string * sink → signal) (p : sink → bool) :
  heard key (map (λ k, (k.1, f k)) (filter (λ k, p k.2 = true) (map_to_list sinks))) =
  match sinks !! key with Some k => if p k then [f (key, k)] else [] | None => [] end.
Proof.
  induction sinks as [|k v m Hk Hfresh IH] using map_first_key_ind; [done|].
  rewrite map_to_list_insert_first_key by done. rewrite filter_cons. cbn [snd].
  destruct (decide (p v = true)) as [Hp|Hp].
  all: cbn [map]; unfold heard in *; rewrite ?filter_cons; cbn [fst]; destruct (decide (k = key)) as [<-|Hne];
    rewrite ?lookup_insert_eq, ?lookup_insert_ne by done; cbn [map]; rewrite ?IH, ?Hk, ?Hp; try done; by destruct (p v).
Qed.

Lemma heard_status l key mark status : lc_sinks l !! key = Some (mkSink true mark) → heard key (emitBackendStatus (snapshotLocked l) status) = [SStatus status].
Proof. intros E. unfold emitBackendStatus, snapshotLocked. rewrite (heard_once _ key (λ _, SStatus status) sk_status), E. done. Qed.
Lemma heard_mark l key mark : lc_sinks l !! key = Some (mkSink true mark) →
  heard key (mark_all (snapshotLocked l)) = if mark then [SMarkResync] else [].
Proof. intros E. unfold mark_all, snapshotLocked. rewrite (heard_once _ key (λ _, SMarkResync) sk_markResync), E. done. Qed.

Lemma Started_hears l key mark : lc_sinks l !! key = Some (mkSink true mark) →
  hears mark (episode_of l) (heard key (Started l).2) (episode_of (Started l).1) ∧ lc_sinks (Started l).1 = lc_sinks l.
Proof.
  intros E. unfold Started, episode_of. destruct (lc_gap l) eqn:G; simpl; [rewrite G; split; [constructor|done]|].
  rewrite (heard_status l key mark _ E). split; [repeat constructor|done].
Qed.
Lemma Recovered_hears l key mark reason : lc_sinks l !! key = Some (mkSink true mark) →
  hears mark (episode_of l) (heard key (Recovered l reason).2) (episode_of (Recovered l reason).1) ∧ lc_sinks (Recovered l reason).1 = lc_sinks l.
Proof.
  intros E. unfold Recovered, episode_of. destruct (lc_gap l) eqn:G; simpl; [|rewrite G; split; [constructor|done]].
  rewrite !heard_app, !(heard_status l key mark _ E), (heard_mark l key mark E). split; [|done].
  apply (hears_recovery mark _ reason []). constructor.
Qed.

Lemma lifecycle_step_hears l key mark c : lc_sinks l !! key = Some (mkSink true mark) →
  match c with CRegister k _ | CUnregister k => k ≠ key | _ => True end →
  hears mark (episode_of l) (heard key (lifecycle_step l c).2) (episode_of (lifecycle_step l c).1) ∧ lc_sinks (lifecycle_step l c).1 !! key = Some (mkSink true mark).
Proof.
  intros E Hc. destruct c as [|reason|reason|k sk|k]; cbn [lifecycle_step].
  - destruct (Started_hears l key mark E) as [? ->]. done.
  - destruct (Recovered_hears l key mark reason E) as [? ->]. done.
  - unfold SynthesizedRecovery. destruct (Started_hears l key mark E) as [H1 E1]. destruct (Started l) as [l1 o1]. cbn [fst snd] in *.
    destruct (Recovered_hears l1 key mark reason ltac:(by rewrite E1)) as [H2 E2]. destruct (Recovered l1 reason) as [l2 o2]. cbn [fst snd] in *.
    rewrite heard_app, E2, E1. split; [by eapply hears_app|done].
  - split; [constructor|]. simpl. by rewrite lookup_insert_ne.
  - split; [constructor|]. simpl. by rewrite lookup_delete_ne.
Qed.

(** A stream registered with the connection's lifecycle sees gap episodes in
    order: a gap is announced once, with the next generation, and ends with a
    resync and a recovery of that generation, however the transport reports
    disconnects and reconnects and whatever other streams come and go. *)
Theorem gap_episodes l key mark calls :
  lc_sinks l !! key = Some (mkSink true mark) →
  Forall (λ c, match c with CRegister k _ | CUnregister k => k ≠ key | _ => True end) calls →
  hears mark (episode_of l) (heard key (lifecycle_run l calls).2) (episode_of (lifecycle_run l calls).1).
Proof.
  intros E Hc. revert l E. induction Hc as [|c calls Hc _ IH]; intros l E; simpl; [constructor|].
  destruct (lifecycle_step_hears l key mark c E Hc) as [H1 E1]. destruct (lifecycle_step l c) as [l1 o1]. cbn [fst snd] in *.
  specialize (IH l1 E1). destruct (lifecycle_run l1 calls) as [l2 o2]. cbn [fst snd] in *. rewrite heard_app. by eapply hears_app.
Qed.

Definition sample_lifecycle : backendLifecycle := Register newBackendLifecycle "book" (mkSink true true).
Definition sample_calls : list lifecycle_call := [CStarted; CStarted; CRegister "trades" (mkSink true false); CRecovered "reconnected"; CSynthesized "proactive"].
Lemma gap_episodes_witness :
  length (heard "book" (lifecycle_run sample_lifecycle sample_calls).2) = 8%nat ∧
  hears true (Live 0) (heard "book" (lifecycle_run sample_lifecycle sample_calls).2) (Live 2).
Proof.
  split; [vm_compute; reflexivity|]. apply (gap_episodes sample_lifecycle "book" true sample_calls).
  - vm_compute. reflexivity.
  - unfold sample_calls. repeat constructor. discriminate.
Defined.
