(* ===== verification/AccountFeed.v ===== *)
(** * Private account streams and commands of a venue client

    [exchange/internal/factoryclient/private_websocket.go] (the instrument index,
    the projection of native account events, command validation) and
    [account_websocket.go] ([watchAccountEvents]).  The order in which Go visits a
    map is the order of [map_to_list]; nothing below depends on it.  The backend
    is an argument. *)

From Stdlib Require Import Ascii String ZArith Lia DecimalString.
From stdpp Require Import base list strings gmap sorting.
From S2P Require Import Prelude GoStrings Decimals Errors Model OrderBook Sockets.

#[local] Open Scope string_scope.
#[local] Open Scope list_scope.
#[local] Open Scope Z_scope.
#[local] Open Scope go_scope.

(** ** The instrument index *)

Record AccountInstrument (D : Type) := mkAccountInstrument { ai_InstrumentID : string; ai_Instrument : Instrument D }.
Arguments mkAccountInstrument {D}.
Arguments ai_InstrumentID {D} _.
Arguments ai_Instrument {D} _.

(** [accountInstrumentIndex] *)
Abbreviation accountInstrumentIndex D := (gmap string (AccountInstrument D)).

(** [accountBackendEvent] *)
Record accountBackendEvent (D : Type) := mkBackendEvent {
  ab_Kind : string; ab_NativeSymbol : string; ab_NativeID : string;
  ab_Order : option (OrderEvent D); ab_Fill : option (FillEvent D);
  ab_Balance : option (BalanceEvent D); ab_Position : option (PositionEvent D);
}.
Arguments mkBackendEvent {D}.
Arguments ab_Kind {D} _.
Arguments ab_NativeSymbol {D} _.
Arguments ab_NativeID {D} _.
Arguments ab_Order {D} _.
Arguments ab_Fill {D} _.
Arguments ab_Balance {D} _.
Arguments ab_Position {D} _.

Section feed.
Context `{Decimal D}.
Implicit Types (index : accountInstrumentIndex D) (item : AccountInstrument D).

Definition item_matches (venue product : string) item : bool :=
  negb (is_empty (ai_InstrumentID item)) && is_ok (Instrument_Validate (ai_Instrument item)) &&
  String.eqb (id_Venue (in_Identity (ai_Instrument item))) venue &&
  String.eqb (id_Product (in_Identity (ai_Instrument item))) product.

(** The names an instrument is filed under. *)
Definition natives item : list string :=
  [TrimSpace (id_NativeSymbol (in_Identity (ai_Instrument item))); TrimSpace (id_NativeID (in_Identity (ai_Instrument item)))].

Definition index_native index item (native : string) : result error (accountInstrumentIndex D) :=
  if is_empty native then Ok index
  else match index !! native with
  | Some existing =>
      check String.eqb (ai_InstrumentID existing) (ai_InstrumentID item)
        else EText "account event native identity is ambiguous" ;; Ok (<[native := item]> index)
  | None => Ok (<[native := item]> index)
  end.
Fixpoint index_natives index item (names : list string) : result error (accountInstrumentIndex D) :=
  match names with
  | [] => Ok index
  | name :: rest => index <-? index_native index item name ;; index_natives index item rest
  end.
Fixpoint index_items (route : AccountRoute) index (items : list (AccountInstrument D)) : result error (accountInstrumentIndex D) :=
  match items with
  | [] => Ok index
  | item :: rest =>
      check item_matches (rt_Venue route) (rt_Product route) item else EText "account event catalog is invalid" ;;
      index <-? index_natives index item (natives item) ;;
      index_items route index rest
  end.
Definition newAccountInstrumentIndex (route : AccountRoute) (items : list (AccountInstrument D)) : result error (accountInstrumentIndex D) :=
  index <-? index_items route ∅ items ;;
  check negb (bool_decide (size index = 0%nat)) else EText "account instrument index is unavailable" ;;
  Ok index.

(** [resolve]: the native id before the native symbol *)
Definition resolve index (nativeSymbol nativeID : string) : option (AccountInstrument D) :=
  match index !! TrimSpace nativeID with
  | Some item => Some item
  | None => index !! TrimSpace nativeSymbol
  end.

(** [instruments]: one item per instrument id *)
Fixpoint distinct_items (seen : gset string) (items : list (AccountInstrument D)) : list (AccountInstrument D) :=
  match items with
  | [] => []
  | item :: rest =>
      if bool_decide (ai_InstrumentID item ∈ seen) then distinct_items seen rest
      else item :: distinct_items ({[ai_InstrumentID item]} ∪ seen) rest
  end.
Definition instruments index : list (AccountInstrument D) := distinct_items ∅ (map snd (map_to_list index)).

(** [SetAccountInstruments]: the catalog stored, if valid *)
Fixpoint checked_items (meta : clientMeta) (seen : gset string) (items : list (AccountInstrument D)) : result error (list (AccountInstrument D)) :=
  match items with
  | [] => Ok []
  | item :: rest =>
      check item_matches (cm_venue meta) (cm_product meta) item else EText "account instrument index is invalid" ;;
      check negb (bool_decide (ai_InstrumentID item ∈ seen)) else EText "account instrument index contains duplicate" ;;
      items <-? checked_items meta ({[ai_InstrumentID item]} ∪ seen) rest ;;
      Ok (item :: items)
  end.
Definition SetAccountInstruments (meta : clientMeta) (items : list (AccountInstrument D)) : result error (list (AccountInstrument D)) :=
  match items with
  | [] => Err (EText "account instrument index is invalid")
  | _ => checked_items meta ∅ items
  end.

(** ** Projection of native events *)

Definition observedAccountTime (value now : time) : time := if IsZero value then now else value.

(** The positions of an event by instrument id. *)
Fixpoint group_positions index (positions : list (Position D)) (groups : gmap string (list (Position D))) :
    option (gmap string (list (Position D))) :=
  match positions with
  | [] => Some groups
  | position :: rest =>
      match resolve index (ps_NativeSymbol position) (ps_NativeID position) with
      | None => None
      | Some item =>
          let id := ai_InstrumentID item in
          group_positions index rest (<[id := default [] (groups !! id) ++ [position]]> groups)
      end
  end.

Definition projectAccountBackendEvent (route : AccountRoute) index (event : accountBackendEvent D) (now : time) :
    result error (list (AccountEvent D)) :=
  let kind := ab_Kind event in
  if String.eqb kind AccountEventOrder then
    match ab_Order event with
    | None => Err (EText "account order event payload is missing")
    | Some e =>
        match resolve index (or_NativeSymbol (oe_Order e)) (or_NativeID (oe_Order e)) with
        | None => Err (EText "account order native instrument is unknown")
        | Some item =>
            Ok [mkAccountEvent kind route (ai_InstrumentID item) (observedAccountTime (or_UpdatedAt (oe_Order e)) now) (Some e) None None None]
        end
    end
  else if String.eqb kind AccountEventFill then
    match ab_Fill event with
    | None => Err (EText "account fill event payload is missing")
    | Some e =>
        match resolve index (fi_NativeSymbol (fe_Fill e)) (fi_NativeID (fe_Fill e)) with
        | None => Err (EText "account fill native instrument is unknown")
        | Some item =>
            Ok [mkAccountEvent kind route (ai_InstrumentID item) (observedAccountTime (fi_Time (fe_Fill e)) now) None (Some e) None None]
        end
    end
  else if String.eqb kind AccountEventBalance then
    match ab_Balance event with
    | None => Err (EText "account balance event payload is missing")
    | Some e => Ok [mkAccountEvent kind route "" (observedAccountTime (bev_Time e) now) None None (Some e) None]
    end
  else if String.eqb kind AccountEventPosition then
    match ab_Position event with
    | None => Err (EText "account position event payload is missing")
    | Some e =>
        match group_positions index (pev_Positions e) ∅ with
        | None => Err (EText "account position native instrument is unknown")
        | Some groups =>
            let project (group : string * list (Position D)) :=
              mkAccountEvent kind route group.1 (observedAccountTime (pev_Time e) now) None None None
                (Some (mkPositionEvent (pev_Kind e) group.2 (pev_Time e))) in
            if bool_decide (size groups = 0%nat) then
              match resolve index (ab_NativeSymbol event) (ab_NativeID event) with
              | None => Err (EText "empty account position event has no native instrument")
              | Some item => Ok [project (ai_InstrumentID item, [])]
              end
            else Ok (map project (map_to_list groups))
        end
    end
  else Err (EText "account event kind is unsupported").

(** ** [watchAccountEvents] *)

(** Why a watch is refused before anything is started; [perp]: the socket is a
    perpetual socket. *)
Definition account_watch_refused (ctx : context) (configured perp : bool) (meta : clientMeta) (route : AccountRoute)
    (buffer : Z) (catalog : list (AccountInstrument D)) (native_stream : bool) : result error (accountInstrumentIndex D) :=
  check match ctx with Some None => true | _ => false end && configured && is_ok (Route_Validate route) &&
        (0 <=? buffer) && (buffer <=? maxWebSocketBuffer)
    else EText "account event watch is invalid" ;;
  check String.eqb (rt_Venue route) (cm_venue meta) && String.eqb (rt_Product route) (cm_product meta) &&
        negb (String.eqb (rt_Product route) ProductPerp && negb perp)
    else EText "account event route does not match websocket" ;;
  check negb (bool_decide (length catalog = 0%nat)) else EText "account instrument index is unavailable" ;;
  index <-? newAccountInstrumentIndex route catalog ;;
  check native_stream else EText "native account event stream is unavailable" ;;
  Ok index.

(** The status an account stream shows for a backend status. *)
Definition account_status (state : string) : string :=
  if String.eqb state SubscriptionActive then SubscriptionActive
  else if String.eqb state SubscriptionClosed then SubscriptionClosed
  else SubscriptionConnecting.

(** The backend's event callback: what the subscription gets. *)
Definition account_callback (route : AccountRoute) index (ended : bool) (event : accountBackendEvent D) (now : time) :
    list (AccountEvent D) * option error :=
  if ended then ([], None)
  else match projectAccountBackendEvent route index event now with
  | Ok events => (events, None)
  | Err e => ([], Some e)
  end.

(** ** Commands *)

Definition is_lower_hex (c : ascii) : bool := is_digit c || in_range "a" "f" c.
Definition is_hex (c : ascii) : bool := is_digit c || in_range "a" "f" c || in_range "A" "F" c.

Definition validNadoOrderID (value : string) : bool :=
  let value := TrimSpace value in
  (String.length value =? 66)%nat && HasPrefix value "0x" && string_forallb is_lower_hex (drop_string 2 value).

Fixpoint uuid_bytes (index : nat) (value : string) : bool :=
  match value with
  | "" => true
  | String c rest =>
      (if existsb (Nat.eqb index) [8; 13; 18; 23]%nat then Ascii.eqb c "-" else is_hex c) && uuid_bytes (S index) rest
  end.
Definition validUUIDOrderID (value : string) : bool := (String.length value =? 36)%nat && uuid_bytes 0 value.

Definition canonical_int64 (value : string) : bool :=
  match ParseInt value with Some n => (0 <? n) && String.eqb (FormatInt n) value | None => false end.

Record CancelOrderRequest := mkCancel { co_Instrument : Instrument D; co_OrderID : string }.

Definition validatePrivateCancelOrder (meta : clientMeta) (request : CancelOrderRequest) : result error unit :=
  _ <-? Instrument_Validate (co_Instrument request) ;;
  let identity := in_Identity (co_Instrument request) in
  check String.eqb (id_Venue identity) (cm_venue meta) && String.eqb (id_Product identity) (cm_product meta)
    else EText "instrument venue/product does not match websocket" ;;
  if canonical_int64 (co_OrderID request) then Ok tt
  else if validNadoOrderID (co_OrderID request) then Ok tt
  else if validUUIDOrderID (co_OrderID request) then Ok tt
  else Err (EText "order id must use the canonical venue-issued format").

(** [validateCommandContext], [PlaceOrder], [CancelOrder] of [privateWebSocket] *)
Definition validateCommandContext (configured : bool) (meta : clientMeta) (ctx : context) (operation : string) : result error unit :=
  check configured else socket_error (mkMeta "" "") operation KindInvalidConfig "websocket backend is not configured" ;;
  match ctx with
  | None => Err (socket_error meta operation KindInvalidRequest "context must not be nil")
  | Some (Some err) => Err (websocketContextError meta operation (Some err))
  | Some None => Ok tt
  end.

(** [withExchangeOperation] of clients.go: the first exchange error of the chain,
    with its operation replaced *)
Definition withExchangeOperation (err : error) (operation : string) : error :=
  match errors_as as_exchange (Some err) with
  | None => err
  | Some (kind, d) =>
      NewError kind (mkDetails (det_Venue d) (det_Product d) operation (det_Code d) (det_SafeMessage d) (det_RetryAfter d)
                       (det_HTTPStatus d) (det_VenueMessage d) (det_CommandNotSent d))
  end.

Definition PlaceOrder (configured : bool) (meta : clientMeta) (ctx : context)
    (backend : PlaceOrderRequest D → result error (OrderAcknowledgement D)) (request : PlaceOrderRequest D) :
    result error (OrderAcknowledgement D) :=
  _ <-? validateCommandContext configured meta ctx "PlaceOrder" ;;
  match PlaceOrder_Validate request (cm_product meta) with
  | Err e => Err (withExchangeOperation e "PlaceOrder")
  | Ok _ => backend request
  end.
Definition CancelOrder (text : error → string) (configured : bool) (meta : clientMeta) (ctx : context)
    (backend : CancelOrderRequest → result error (OrderAcknowledgement D)) (request : CancelOrderRequest) :
    result error (OrderAcknowledgement D) :=
  _ <-? validateCommandContext configured meta ctx "CancelOrder" ;;
  match validatePrivateCancelOrder meta request with
  | Err e => Err (socket_error meta "CancelOrder" KindInvalidRequest (text e))
  | Ok _ => backend request
  end.
End feed.

(** ** The index is unambiguous *)

Section index_spec.
Context `{DecimalLaws D}.
Implicit Types (index : accountInstrumentIndex D) (item : AccountInstrument D).

(** Every entry is filed under a name of its own item, and every name of an item
    leads to that instrument. *)
Definition indexed (items : list (AccountInstrument D)) index : Prop :=
  (∀ name item, index !! name = Some item → item ∈ items ∧ name ∈ natives item ∧ name ≠ "") ∧
  (∀ item name, item ∈ items → name ∈ natives item → name ≠ "" →
     ∃ found, index !! name = Some found ∧ ai_InstrumentID found = ai_InstrumentID item).

Lemma is_empty_eq s : is_empty s = true ↔ s = "".
Proof. unfold is_empty. apply String.eqb_eq. Qed.

Lemma index_native_spec index item name index' :
  index_native index item name = Ok index' →
  (∀ n found, index !! n = Some found → ∃ found', index' !! n = Some found' ∧ ai_InstrumentID found' = ai_InstrumentID found) ∧
  (∀ n found, index' !! n = Some found → index !! n = Some found ∨ (n = name ∧ found = item ∧ name ≠ "")) ∧
  (name ≠ "" → ∃ found, index' !! name = Some found ∧ ai_InstrumentID found = ai_InstrumentID item).
Proof.
  unfold index_native. destruct (is_empty name) eqn:En.
  { intros [= <-]. apply is_empty_eq in En as ->. split_and!; eauto; done. }
  assert (Hne : name ≠ "") by (intros ->; done).
  assert (Hins : (∀ found, index !! name = Some found → ai_InstrumentID found = ai_InstrumentID item) →
    (∀ n found, index !! n = Some found → ∃ found', <[name:=item]> index !! n = Some found' ∧ ai_InstrumentID found' = ai_InstrumentID found) ∧
    (∀ n found, <[name:=item]> index !! n = Some found → index !! n = Some found ∨ (n = name ∧ found = item ∧ name ≠ "")) ∧
    (name ≠ "" → ∃ found, <[name:=item]> index !! name = Some found ∧ ai_InstrumentID found = ai_InstrumentID item)).
  { intros Hid. split_and!.
    - intros n found E. destruct (decide (name = n)) as [<-|Hn]; [|exists found; by rewrite lookup_insert_ne].
      exists item. rewrite lookup_insert_eq. split; [done|]. symmetry. by apply Hid.
    - intros n found E. apply lookup_insert_Some in E as [[<- <-]|[_ E]]; [by right|by left].
    - intros _. exists item. by rewrite lookup_insert_eq. }
  destruct (index !! name) as [existing|] eqn:Ei.
  - intros [Heq [= <-]]%check_Ok. apply String.eqb_eq in Heq. apply Hins. intros found [= <-]. done.
  - intros [= <-]. apply Hins. done.
Qed.

Lemma index_natives_spec names index item index' :
  index_natives index item names = Ok index' →
  (∀ n found, index !! n = Some found → ∃ found', index' !! n = Some found' ∧ ai_InstrumentID found' = ai_InstrumentID found) ∧
  (∀ n found, index' !! n = Some found → index !! n = Some found ∨ (n ∈ names ∧ found = item ∧ n ≠ "")) ∧
  (∀ n, n ∈ names → n ≠ "" → ∃ found, index' !! n = Some found ∧ ai_InstrumentID found = ai_InstrumentID item).
Proof.
  revert index. induction names as [|name names IH]; intros index; simpl.
  { intros [= <-]. split_and!; [eauto|eauto|set_solver]. }
  intros (mid & Hmid & Hrest)%bind_Ok. destruct (index_native_spec _ _ _ _ Hmid) as (A1 & B1 & C1).
  destruct (IH mid Hrest) as (A2 & B2 & C2). split_and!.
  - intros n found E. destruct (A1 n found E) as (f1 & E1 & I1). destruct (A2 n f1 E1) as (f2 & E2 & I2). exists f2. split; congruence.
  - intros n found E. destruct (B2 n found E) as [E1|(? & ? & ?)]; [|right; set_solver].
    destruct (B1 n found E1) as [?|(-> & -> & ?)]; [by left|right; split_and!; [left|done|done]].
  - intros n [->|Hn]%elem_of_cons Hne; [|by apply C2]. destruct (C1 Hne) as (f1 & E1 & I1). destruct (A2 name f1 E1) as (f2 & E2 & I2).
    exists f2. split; congruence.
Qed.

Lemma index_items_spec route items before index index' :
  indexed before index → index_items route index items = Ok index' →
  indexed (before ++ items) index' ∧ Forall (λ item, item_matches (rt_Venue route) (rt_Product route) item = true) items.
Proof.
  revert before index. induction items as [|item items IH]; intros before index Hi; cbn [index_items].
  { intros [= <-]. by rewrite app_nil_r. }
  intros [Hm (mid & Hmid & Hrest)%bind_Ok]%check_Ok. destruct (index_natives_spec _ _ _ _ Hmid) as (A & B & C). destruct Hi as [H1 H2].
  replace (before ++ item :: items) with ((before ++ [item]) ++ items) by by rewrite <- app_assoc.
  destruct (IH (before ++ [item]) mid) as [Hidx HF]; [split|done|split; [done|by constructor]].
  - intros n found E. destruct (B n found E) as [E1|(Hn & -> & Hne)]; [|set_solver]. destruct (H1 n found E1). set_solver.
  - intros it n [Hit| ->%list_elem_of_singleton]%elem_of_app Hn Hne; [|by apply C].
    destruct (H2 it n Hit Hn Hne) as (f1 & E1 & I1). destruct (A n f1 E1) as (f2 & E2 & I2). exists f2. split; congruence.
Qed.

Lemma newIndex_indexed route items index :
  newAccountInstrumentIndex route items = Ok index →
  indexed items index ∧ Forall (λ item, item_matches (rt_Venue route) (rt_Product route) item = true) items.
Proof.
  unfold newAccountInstrumentIndex. intros (idx & Hidx & [_ [= <-]]%check_Ok)%bind_Ok.
  apply (index_items_spec route items [] ∅ idx); [|done]. split; [intros *; by rewrite lookup_empty|set_solver].
Qed.

(** A name resolves only to an instrument of the catalog that has it. *)
Lemma resolve_sound route items index symbol id item :
  newAccountInstrumentIndex route items = Ok index → resolve index symbol id = Some item →
  item ∈ items ∧ (TrimSpace id ∈ natives item ∨ TrimSpace symbol ∈ natives item) ∧
  rt_Venue route = id_Venue (in_Identity (ai_Instrument item)) ∧ rt_Product route = id_Product (in_Identity (ai_Instrument item)).
Proof.
  intros Hi Hr. destruct (newIndex_indexed route items index Hi) as [[H1 _] HF]. unfold resolve in Hr.
  assert (Hin : item ∈ items ∧ (TrimSpace id ∈ natives item ∨ TrimSpace symbol ∈ natives item)).
  { destruct (index !! TrimSpace id) as [x|] eqn:E; [injection Hr as ->; destruct (H1 _ _ E); naive_solver|].
    destruct (H1 _ _ Hr). naive_solver. }
  destruct Hin as [Hin Hn]. split_and!; [done..| |]; rewrite Forall_forall in HF; specialize (HF item Hin); unfold item_matches in HF;
    rewrite !andb_true_iff, !String.eqb_eq in HF; naive_solver.
Qed.
End index_spec.

(** ** Projection *)

Section projection.
Context `{DecimalLaws D}.
Implicit Types (index : accountInstrumentIndex D).

Definition position_of (event : AccountEvent D) : list (Position D) :=
  match ae_Position event with Some e => pev_Positions e | None => [] end.
Definition instrument_of_position index (position : Position D) : option string :=
  ai_InstrumentID <$> resolve index (ps_NativeSymbol position) (ps_NativeID position).

(** Grouping keeps every position, in order, under its own instrument. *)
Lemma group_positions_spec index positions groups groups' :
  group_positions index positions groups = Some groups' →
  Forall (λ p, is_Some (instrument_of_position index p)) positions ∧
  ∀ id, default [] (groups' !! id) = default [] (groups !! id) ++ filter (λ p, instrument_of_position index p = Some id) positions ∧
        (is_Some (groups' !! id) ↔ is_Some (groups !! id) ∨ ∃ p, p ∈ positions ∧ instrument_of_position index p = Some id).
Proof.
  revert groups. induction positions as [|p positions IH]; intros groups; cbn [group_positions].
  { intros [= <-]. split; [constructor|]. intros id. rewrite filter_nil, app_nil_r. split; [done|]. set_solver. }
  destruct (resolve index (ps_NativeSymbol p) (ps_NativeID p)) as [item|] eqn:Er; [|done]. intros Hg.
  assert (Hip : instrument_of_position index p = Some (ai_InstrumentID item)) by (unfold instrument_of_position; by rewrite Er).
  destruct (IH _ Hg) as [HF HI]. split; [constructor; [by rewrite Hip|done]|]. intros id. destruct (HI id) as [E1 E2].
  rewrite E1, E2, filter_cons. destruct (decide (ai_InstrumentID item = id)) as [<-|Hne].
  - rewrite lookup_insert_eq, decide_True by done. simpl. rewrite <- app_assoc. split; [done|].
    split; [intros _; right; exists p; split; [left|done]|]. intros _. by left.
  - rewrite lookup_insert_ne, decide_False by congruence. split; [done|]. split.
    { intros [?|(q & Hq & Eq)]; [by left|right]. exists q. split; [by right|done]. }
    intros [?|(q & [->|Hq]%elem_of_cons & Eq)]; [by left|congruence|right; eauto].
Qed.

Lemma filter_partition {A} (f : A → option string) (ids : list string) (l : list A) :
  NoDup ids → Forall (λ x, ∃ id, f x = Some id ∧ id ∈ ids) l →
  concat (map (λ id, filter (λ x, f x = Some id) l) ids) ≡ₚ l.
Proof.
  intros Hnd. induction 1 as [|x l (id & Hx & Hid) _ IH].
  { induction ids as [|i ids IHi]; [done|]. simpl. apply IHi. by inversion Hnd. }
  etransitivity; [|apply Permutation_skip, IH]. clear IH. induction Hnd as [|i ids Hi Hnd IHi]; [by apply elem_of_nil in Hid|].
  cbn [map concat]. rewrite filter_cons. destruct (decide (f x = Some i)) as [E|E].
  - assert (i = id) as -> by congruence. simpl. apply Permutation_skip, Permutation_app_head.
    assert (Hm : map (λ j, filter (λ y, f y = Some j) (x :: l)) ids = map (λ j, filter (λ y, f y = Some j) l) ids); [|by rewrite Hm].
    apply list_fmap_ext. intros k j Hj. rewrite filter_cons, decide_False; [done|]. intros E'. apply Hi. rewrite Hx in E'.
    injection E' as ->. by eapply list_elem_of_lookup_2.
  - apply elem_of_cons in Hid as [->|Hid]; [done|]. rewrite (IHi Hid). by rewrite Permutation_middle.
Qed.

Lemma group_values index positions groups :
  group_positions index positions ∅ = Some groups →
  map_to_list groups = map (λ id, (id, filter (λ p, instrument_of_position index p = Some id) positions)) (map fst (map_to_list groups)) ∧
  Forall (λ p, ∃ id, instrument_of_position index p = Some id ∧ id ∈ map fst (map_to_list groups)) positions.
Proof.
  intros Hg. destruct (group_positions_spec _ _ _ _ Hg) as [HF HI]. split.
  - rewrite map_map. rewrite <- (map_id (map_to_list groups)) at 1. apply list_fmap_ext. intros k [id g] Hin. simpl.
    apply list_elem_of_lookup_2, elem_of_map_to_list in Hin. destruct (HI id) as [E _]. rewrite Hin, lookup_empty in E. simpl in E. by rewrite E.
  - rewrite Forall_forall in *. intros p Hp. destruct (HF p Hp) as [id Hid]. exists id. split; [done|].
    destruct (HI id) as [_ [_ H2]]. destruct H2 as [g Hg']; [eauto|]. apply (list_elem_of_fmap_2' fst _ (id, g)); [|done].
    by apply elem_of_map_to_list.
Qed.

(** A native position event is split by instrument: the projected events are
    for different instruments, each carries exactly the positions of its
    instrument in their order, and together they carry every position once. *)
Theorem positions_partitioned route index event now e events :
  ab_Kind event = AccountEventPosition → ab_Position event = Some e → pev_Positions e ≠ [] →
  projectAccountBackendEvent route index event now = Ok events →
  NoDup (map (λ ev, ae_InstrumentID ev) events) ∧
  concat (map position_of events) ≡ₚ pev_Positions e ∧
  Forall (λ ev, position_of ev = filter (λ p, instrument_of_position index p = Some (ae_InstrumentID ev)) (pev_Positions e)) events.
Proof.
  intros Hk He Hne. unfold projectAccountBackendEvent. rewrite Hk, He. cbn [String.eqb]. change (String.eqb AccountEventPosition AccountEventPosition) with true.
  destruct (group_positions index (pev_Positions e) ∅) as [groups|] eqn:Hg; [|done].
  destruct (group_values _ _ _ Hg) as [Hval Hcov]. case_bool_decide as Hsz.
  { apply map_size_empty_inv in Hsz as ->. destruct (pev_Positions e) as [|p l]; [done|]. inversion Hcov as [|? ? (id & _ & Hid) _]. subst.
    by apply elem_of_nil in Hid. }
  intros [= <-]. rewrite !map_map. cbn [ae_InstrumentID]. split_and!.
  - apply NoDup_fst_map_to_list.
  - unfold position_of. cbn [ae_Position pev_Positions]. rewrite Hval, map_map. cbn [snd].
    apply filter_partition; [apply NoDup_fst_map_to_list|done].
  - apply Forall_forall. intros ev (group & -> & Hin)%list_elem_of_fmap. unfold position_of. cbn [ae_Position ae_InstrumentID pev_Positions].
    rewrite Hval in Hin. apply list_elem_of_fmap in Hin as (id & -> & _). done.
Qed.

Lemma observed_nonzero value now : IsZero now = false → IsZero (observedAccountTime value now) = false.
Proof. unfold observedAccountTime. intros Hn. by destruct (IsZero value) eqn:E. Qed.

(** What an account stream hands to the gateway is well formed: every
    projected event of a valid route validates, and names an instrument of the
    catalog unless it is a balance event. *)
Theorem projected_valid route items index event now events :
  Route_Validate route = Ok tt → IsZero now = false → newAccountInstrumentIndex route items = Ok index →
  projectAccountBackendEvent route index event now = Ok events →
  Forall (λ ev, AccountEvent_Validate ev = Ok tt ∧
                (ae_Kind ev = AccountEventBalance ∨ ∃ item, item ∈ items ∧ ai_InstrumentID item = ae_InstrumentID ev)) events.
Proof.
  intros Hroute Hnow Hidx. unfold projectAccountBackendEvent.
  assert (Hres : ∀ symbol id item, resolve index symbol id = Some item → ∃ it, it ∈ items ∧ ai_InstrumentID it = ai_InstrumentID item).
  { intros symbol id item Hr. destruct (resolve_sound route items index symbol id item Hidx Hr) as [Hin _]. eauto. }
  destruct (String.eqb_spec (ab_Kind event) AccountEventOrder) as [->|_].
  { destruct (ab_Order event) as [e|]; [|done]. destruct (resolve _ _ _) as [item|] eqn:Er; [|done]. intros [= <-]. apply Forall_singleton. split.
    - unfold AccountEvent_Validate. cbn. by rewrite Hroute, observed_nonzero.
    - right. by eapply Hres. }
  destruct (String.eqb_spec (ab_Kind event) AccountEventFill) as [->|_].
  { destruct (ab_Fill event) as [e|]; [|done]. destruct (resolve _ _ _) as [item|] eqn:Er; [|done]. intros [= <-]. apply Forall_singleton. split.
    - unfold AccountEvent_Validate. cbn. by rewrite Hroute, observed_nonzero.
    - right. by eapply Hres. }
  destruct (String.eqb_spec (ab_Kind event) AccountEventBalance) as [->|_].
  { destruct (ab_Balance event) as [e|]; [|done]. intros [= <-]. apply Forall_singleton. split; [|by left].
    unfold AccountEvent_Validate. cbn. by rewrite Hroute, observed_nonzero. }
  destruct (String.eqb_spec (ab_Kind event) AccountEventPosition) as [->|_]; [|done].
  destruct (ab_Position event) as [e|]; [|done]. destruct (group_positions _ _ _) as [groups|] eqn:Hg; [|done].
  assert (Hv : ∀ id (positions : list (Position D)), AccountEvent_Validate (mkAccountEvent AccountEventPosition route id (observedAccountTime (pev_Time e) now) None None None
                 (Some (mkPositionEvent (pev_Kind e) positions (pev_Time e)))) = Ok tt).
  { intros id positions. unfold AccountEvent_Validate. cbn. by rewrite Hroute, observed_nonzero. }
  case_bool_decide as Hsz.
  - destruct (resolve _ _ _) as [item|] eqn:Er; [|done]. intros [= <-]. apply Forall_singleton. split; [apply Hv|]. right. by eapply Hres.
  - intros [= <-]. apply Forall_fmap, Forall_forall. intros [id g] Hin. split; [apply Hv|]. right.
    apply elem_of_map_to_list in Hin. destruct (group_positions_spec _ _ _ _ Hg) as [_ HI]. destruct (HI id) as [_ [H1 _]].
    destruct H1 as [Hs|(p & _ & Hp)]; [eauto|rewrite lookup_empty in Hs; by destruct Hs|].
    unfold instrument_of_position in Hp. destruct (resolve _ _ _) as [item|] eqn:Er; [|done]. simpl in Hp. injection Hp as <-. by eapply Hres.
Qed.
End projection.

(** ** Commands *)

Section commands.
Context `{DecimalLaws D}.

(** What a venue issues as an order id: a positive 64-bit number in decimal, a
    32-byte digest in lower-case hexadecimal, or a UUID. *)
Definition venue_issued (id : string) : Prop :=
  (∃ n, 0 < n ≤ int64_max ∧ id = FormatInt n) ∨ validNadoOrderID id = true ∨ validUUIDOrderID id = true.

Lemma canonical_int64_iff id : canonical_int64 id = true ↔ ∃ n, 0 < n ≤ int64_max ∧ id = FormatInt n.
Proof.
  unfold canonical_int64. split.
  - destruct (ParseInt id) as [n|] eqn:E; [|done]. rewrite andb_true_iff, Z.ltb_lt, String.eqb_eq. intros [Hn <-]. exists n. split; [|done].
    apply ParseInt_range in E. lia.
  - intros (n & Hn & ->). unfold int64_max in Hn. rewrite FormatInt_nonneg, ParseInt_FormatUint by lia.
    rewrite andb_true_iff, Z.ltb_lt, String.eqb_eq. split; [lia|]. apply FormatInt_nonneg. lia.
Qed.

Lemma validatePrivateCancelOrder_iff meta (request : CancelOrderRequest (D:=D)) :
  validatePrivateCancelOrder meta request = Ok tt ↔
  Instrument_Validate (co_Instrument request) = Ok tt ∧ id_Venue (in_Identity (co_Instrument request)) = cm_venue meta ∧
  id_Product (in_Identity (co_Instrument request)) = cm_product meta ∧ venue_issued (co_OrderID request).
Proof.
  unfold validatePrivateCancelOrder, venue_issued. rewrite <- canonical_int64_iff, bind_Ok.
  assert (Hid : (if canonical_int64 (co_OrderID request) then Ok tt else if validNadoOrderID (co_OrderID request) then Ok tt
      else if validUUIDOrderID (co_OrderID request) then Ok tt else Err (EText "order id must use the canonical venue-issued format")) = Ok tt ↔
    canonical_int64 (co_OrderID request) = true ∨ validNadoOrderID (co_OrderID request) = true ∨ validUUIDOrderID (co_OrderID request) = true).
  { destruct (canonical_int64 _), (validNadoOrderID _), (validUUIDOrderID _); naive_solver. }
  split.
  - intros ([] & Hv & [Hm Ho]%check_Ok). rewrite andb_true_iff, !String.eqb_eq in Hm. naive_solver.
  - intros (Hv & H1 & H2 & H3). exists tt. split; [done|]. rewrite check_Ok, andb_true_iff, !String.eqb_eq. naive_solver.
Qed.

(** When a cancel may go to the venue. *)
Definition cancel_allowed (configured : bool) (meta : clientMeta) (ctx : context) (request : CancelOrderRequest (D:=D)) : Prop :=
  configured = true ∧ ctx = Some None ∧ Instrument_Validate (co_Instrument request) = Ok tt ∧
  id_Venue (in_Identity (co_Instrument request)) = cm_venue meta ∧ id_Product (in_Identity (co_Instrument request)) = cm_product meta ∧
  venue_issued (co_OrderID request).

(** The private socket forwards a cancel to the venue when it is configured,
    the context is active, the instrument is valid and of this client, and the
    order id has a form a venue issues; in every other case it answers with an
    error without asking the venue. *)
Theorem cancel_forwarded_iff text configured meta ctx (request : CancelOrderRequest (D:=D)) :
  (cancel_allowed configured meta ctx request ∧ ∀ backend, CancelOrder text configured meta ctx backend request = backend request) ∨
  (~ cancel_allowed configured meta ctx request ∧ ∃ e, ∀ backend, CancelOrder text configured meta ctx backend request = Err e).
Proof.
  unfold cancel_allowed, CancelOrder, validateCommandContext.
  destruct configured; cbn [negb]; [|right; split; [naive_solver|eauto]].
  destruct ctx as [[err|]|]; [right; split; [naive_solver|eauto]| |right; split; [naive_solver|eauto]].
  destruct (validatePrivateCancelOrder meta request) as [[]|e] eqn:Hv.
  - left. apply validatePrivateCancelOrder_iff in Hv as (? & ? & ? & ?). done.
  - right. split; [|eauto]. intros (_ & _ & Hall). apply validatePrivateCancelOrder_iff in Hall. congruence.
Qed.
End commands.

(** ** Concrete inputs *)

Definition sample_item (base : string) : AccountInstrument Z := mkAccountInstrument (base +:+ "-id") (sample_perp VenueBinance base "USDT").
Definition sample_route : AccountRoute := mkRoute "acct" "route" VenueBinance EnvironmentLive ProductPerp "USDT" "usdm".
Definition sample_index : accountInstrumentIndex Z :=
  match newAccountInstrumentIndex sample_route [sample_item "BTC"; sample_item "ETH"] with Ok index => index | Err _ => ∅ end.
Lemma sample_index_ok : newAccountInstrumentIndex sample_route [sample_item "BTC"; sample_item "ETH"] = Ok sample_index.
Proof. vm_compute. reflexivity. Qed.
Definition sample_position_of (symbol slot : string) (quantity : Z) : Position Z :=
  mkPosition symbol "" slot "long" quantity 100 101 1 (mkOptDec 0 false) (mkOptDec 0 false) (mkOptDec 0 false).
Definition sample_position_event : PositionEvent Z :=
  mkPositionEvent EventDelta [sample_position_of "BTCUSDT" PositionSlotLong 1; sample_position_of "ETHUSDT" PositionSlotNet 5;
                              sample_position_of "BTCUSDT" PositionSlotShort 2] 0.
Definition sample_backend_event : accountBackendEvent Z := mkBackendEvent AccountEventPosition "" "" None None None (Some sample_position_event).
Definition sample_projection : list (AccountEvent Z) :=
  match projectAccountBackendEvent sample_route sample_index sample_backend_event unix_epoch with Ok events => events | Err _ => [] end.
Lemma sample_projection_ok : projectAccountBackendEvent sample_route sample_index sample_backend_event unix_epoch = Ok sample_projection.
Proof. vm_compute. reflexivity. Qed.

Lemma positions_partitioned_witness :
  length sample_projection = 2%nat ∧ concat (map position_of sample_projection) ≡ₚ pev_Positions sample_position_event.
Proof.
  split; [vm_compute; reflexivity|].
  destruct (positions_partitioned sample_route sample_index sample_backend_event unix_epoch sample_position_event sample_projection
              eq_refl eq_refl ltac:(discriminate) sample_projection_ok) as (_ & H & _). exact H.
Defined.
Lemma projected_valid_witness :
  Forall (λ ev, AccountEvent_Validate ev = Ok tt ∧
                (ae_Kind ev = AccountEventBalance ∨ ∃ item, item ∈ [sample_item "BTC"; sample_item "ETH"] ∧ ai_InstrumentID item = ae_InstrumentID ev))
    sample_projection.
Proof.
  apply (projected_valid sample_route _ sample_index sample_backend_event unix_epoch sample_projection eq_refl);
    [vm_compute; reflexivity|exact sample_index_ok|exact sample_projection_ok].
Defined.
