(* ===== verification/Hyperliquid.v ===== *)
(** * The Hyperliquid client

    [exchange/internal/factoryclient/hyperliquid_rest.go] and
    [hyperliquid_rest_extended.go]: client order ids and the venue's rule for
    limit prices.  The requests themselves are in [HyperliquidRest]. *)

From Stdlib Require Import Ascii String ZArith Lia QArith Qcanon.
From stdpp Require Import base list strings.
From S2P Require Import Prelude GoStrings Decimals DecimalText Errors Model HttpErrors.

#[local] Open Scope string_scope.
#[local] Open Scope list_scope.
#[local] Open Scope Z_scope.
#[local] Open Scope go_scope.

(** ** Client order ids

    Hyperliquid names an order by a 128-bit hexadecimal number; the portable
    name is a decimal number. *)

Definition hex_alphabet : string := "0123456789abcdef".
Definition hex_byte (n : Z) : ascii := default "0"%char (String.get (Z.to_nat n) hex_alphabet).
(** [%0wx] of a number below [16^w] *)
Fixpoint hex_padded (w : nat) (n : Z) : string :=
  match w with
  | O => ""
  | S w' => hex_padded w' (n / 16) +:+ String (hex_byte (n mod 16)) ""
  end.
Fixpoint hex_digits (acc : Z) (s : string) : option Z :=
  match s with
  | "" => Some acc
  | String c rest => d ← hex_digit c; hex_digits (16 * acc + d) rest
  end.
(** [big.Int.SetString(s, 16)] *)
Definition hex_unsigned (s : string) : option Z := if String.eqb s "" then None else hex_digits 0 s.
Definition SetString16 (s : string) : option Z :=
  match s with
  | String "-" rest => n ← hex_unsigned rest; Some (- n)
  | String "+" rest => hex_unsigned rest
  | _ => hex_unsigned s
  end.

Definition hlPortableClientOrderID (value : string) : string :=
  let value := ToLower (TrimSpace value) in
  if negb (HasPrefix value "0x") then value
  else match SetString16 (TrimPrefix value "0x") with
  | Some parsed => if negb ((int64_min <=? parsed) && (parsed <=? int64_max)) || (parsed <=? 0) then "" else FormatInt parsed
  | None => ""
  end.
Definition hlNativeClientOrderID (value : string) : string :=
  if String.eqb value "" then ""
  else match ParseInt value with
  | Some parsed => if parsed <=? 0 then "" else "0x" +:+ hex_padded 32 parsed
  | None => ""
  end.

Example native_ex : hlNativeClientOrderID "1001" = "0x000000000000000000000000000003e9".
Proof. vm_compute. reflexivity. Qed.
Example portable_ex : hlPortableClientOrderID " 0X3E9" = "1001" ∧ hlPortableClientOrderID "0xzz" = "".
Proof. vm_compute. split; reflexivity. Qed.

Lemma hex_digits_app acc a b : hex_digits acc (a +:+ b) = (m ← hex_digits acc a; hex_digits m b).
Proof. revert acc. induction a as [|c a IH]; intros acc; [done|]. simpl. destruct (hex_digit c); [apply IH|done]. Qed.

Lemma hex_byte_cases (P : Z → ascii → Prop) :
  (∀ k, (k < 16)%nat → P (Z.of_nat k) (hex_byte (Z.of_nat k))) → ∀ n, 0 ≤ n < 16 → P n (hex_byte n).
Proof. intros HP n Hn. rewrite <- (Z2Nat.id n) by lia. apply HP. lia. Qed.

Lemma hex_byte_spec n : 0 ≤ n < 16 →
  hex_digit (hex_byte n) = Some n ∧ graphic (hex_byte n) = true ∧ lower_byte (hex_byte n) = hex_byte n ∧
  hex_byte n ≠ "-"%char ∧ hex_byte n ≠ "+"%char.
Proof.
  apply (hex_byte_cases (λ n c, hex_digit c = Some n ∧ graphic c = true ∧ lower_byte c = c ∧ c ≠ "-"%char ∧ c ≠ "+"%char)).
  intros k Hk. do 16 (destruct k as [|k]; [vm_compute; split_and!; congruence|]). lia.
Qed.

Lemma hex_padded_digits w n acc : 0 ≤ n < 16 ^ Z.of_nat w → hex_digits acc (hex_padded w n) = Some (acc * 16 ^ Z.of_nat w + n).
Proof.
  revert n acc. induction w as [|w IH]; intros n acc Hn.
  { simpl in *. f_equal. lia. }
  cbn [hex_padded]. rewrite Nat2Z.inj_succ, Z.pow_succ_r in * by lia.
  pose proof (Z.mod_pos_bound n 16 ltac:(lia)) as Hm. pose proof (Z.div_mod n 16 ltac:(lia)) as Hd.
  rewrite hex_digits_app, IH.
  - simpl. destruct (hex_byte_spec (n mod 16) Hm) as [-> _]. simpl. f_equal. lia.
  - split; [apply Z.div_pos; lia|apply Z.div_lt_upper_bound; lia].
Qed.

Lemma hex_padded_text w n : 0 ≤ n →
  string_forallb graphic (hex_padded w n) = true ∧ ToLower (hex_padded w n) = hex_padded w n.
Proof.
  revert n. induction w as [|w IH]; intros n Hn; [done|]. cbn [hex_padded].
  destruct (IH (n / 16)) as [Hg Hl]; [apply Z.div_pos; lia|].
  destruct (hex_byte_spec (n mod 16)) as (_ & Hgb & Hlb & _); [apply Z.mod_pos_bound; lia|].
  split.
  - rewrite string_forallb_app, Hg. simpl. by rewrite Hgb.
  - unfold ToLower in *. assert (Happ : ∀ a b, string_map lower_byte (a +:+ b) = string_map lower_byte a +:+ string_map lower_byte b).
    { intros a b. induction a as [|c a IHa]; [done|]. simpl. by rewrite IHa. }
    rewrite Happ, Hl. simpl. by rewrite Hlb.
Qed.

Lemma hex_padded_head w n : 0 ≤ n → ∃ c s, hex_padded (S w) n = String c s ∧ c ≠ "-"%char ∧ c ≠ "+"%char.
Proof.
  revert n. induction w as [|w IH]; intros n Hn.
  - cbn [hex_padded]. eexists _, _. split; [reflexivity|]. apply hex_byte_spec. apply Z.mod_pos_bound. lia.
  - cbn [hex_padded] in *. destruct (IH (n / 16)) as (c & s & E & Hc); [apply Z.div_pos; lia|].
    rewrite E. eexists _, _. split; [reflexivity|done].
Qed.

Lemma SetString16_padded w n : 0 ≤ n < 16 ^ Z.of_nat (S w) → SetString16 (hex_padded (S w) n) = Some n.
Proof.
  intros Hn. pose proof (hex_padded_digits (S w) n 0 Hn) as Hd.
  destruct (hex_padded_head w n) as (c & s & E & Hm & Hp); [lia|]. rewrite E in *.
  assert (Hu : SetString16 (String c s) = hex_unsigned (String c s)).
  { unfold SetString16. by destruct c as [[] [] [] [] [] [] [] []]. }
  rewrite Hu. unfold hex_unsigned. cbn [String.eqb]. exact Hd.
Qed.

Lemma portable_of_hex h n :
  string_forallb graphic h = true → ToLower h = h → SetString16 h = Some n → 0 < n ≤ int64_max →
  hlPortableClientOrderID ("0x" +:+ h) = FormatInt n.
Proof.
  intros Hg Hl Hs Hn. unfold hlPortableClientOrderID. rewrite TrimSpace_graphic by exact Hg.
  assert (Hlow : ToLower ("0x" +:+ h) = "0x" +:+ h).
  { change (ToLower ("0x" +:+ h)) with ("0x" +:+ ToLower h). by rewrite Hl. }
  rewrite Hlow. assert (Hpre : HasPrefix ("0x" +:+ h) "0x" = true) by (by destruct h).
  unfold TrimPrefix. rewrite Hpre. cbn [negb]. change (drop_string (String.length "0x") ("0x" +:+ h)) with h.
  rewrite Hs. unfold int64_min, int64_max in *.
  rewrite (proj2 (Z.leb_le (- 2 ^ 63) n)), (proj2 (Z.leb_le n (2 ^ 63 - 1))), (proj2 (Z.leb_gt n 0)) by lia. done.
Qed.

Lemma portable_of_native n : 0 < n ≤ int64_max → hlPortableClientOrderID ("0x" +:+ hex_padded 32 n) = FormatInt n.
Proof.
  intros Hn. destruct (hex_padded_text 32 n) as [Hg Hl]; [lia|].
  apply portable_of_hex; [done..| |done]. apply (SetString16_padded 31). unfold int64_max in Hn.
  change (Z.of_nat 32) with 32. lia.
Qed.

(** The portable client order id survives the venue: the 128-bit name the
    client gives an order decodes to the id it was made from, so an order read
    back (or looked up) carries the caller's identity. *)
Lemma client_order_id_roundtrip value :
  isPortableClientOrderID value = true → hlPortableClientOrderID (hlNativeClientOrderID value) = value.
Proof.
  intros (n & -> & Hn)%isPortable_iff. unfold hlNativeClientOrderID.
  destruct (String.eqb_spec (FormatUint n) "") as [E|_]; [by apply FormatUint_nonempty in E|].
  rewrite ParseInt_FormatUint, (proj2 (Z.leb_gt n 0)) by lia.
  rewrite portable_of_native by (unfold int64_max; lia). apply FormatInt_nonneg. lia.
Qed.
Lemma client_order_id_roundtrip_witness :
  isPortableClientOrderID "281474976710655" = true ∧
  hlPortableClientOrderID (hlNativeClientOrderID "281474976710655") = "281474976710655".
Proof. split; [reflexivity|]. apply client_order_id_roundtrip. reflexivity. Defined.

(** ** Limit prices *)

(** [strings.IndexByte], [None] where it returns -1 *)
Fixpoint IndexByte (s : string) (c : ascii) : option nat :=
  match s with
  | "" => None
  | String b rest => if Ascii.eqb b c then Some O else S <$> IndexByte rest c
  end.

Section prices.
Context `{Decimal D}.
Implicit Types d : D.

Definition decimalPlaces d : Z :=
  let s := d_string d in
  match IndexByte s "." with
  | None => 0
  | Some idx => Z.of_nat (String.length s) - Z.of_nat idx - 1
  end.
Definition hlSignificantDigits d : Z :=
  let s := d_string (d_abs d) in
  let s := if Contains s "." then TrimRightByte "0" s else s in
  let s := without_byte "." s in
  Z.of_nat (String.length (TrimLeftByte "0" s)).

Definition hlValidateLimitPrice (side : string) (requested : D) (priceDecimals : Z) : result error D :=
  check d_is_positive requested else EText "price must be positive" ;;
  check negb (priceDecimals <? 0) else EText "price decimals must be non-negative" ;;
  check String.eqb side SideBuy || String.eqb side SideSell else EText "side must be buy or sell" ;;
  check negb (priceDecimals <? decimalPlaces requested) else EText "price has too many decimal places" ;;
  check match d_cmp requested (d_truncate requested) with Eq => true | _ => false end || (hlSignificantDigits requested <=? 5)
    else EText "price has too many significant figures" ;;
  Ok requested.
End prices.

Lemma IndexByte_app a b c : no_byte c a = true → IndexByte (a +:+ String c b) c = Some (String.length a).
Proof.
  induction a as [|x a IH].
  - change ("" +:+ String c b) with (String c b). cbn. by rewrite Ascii.eqb_refl.
  - change (String x a +:+ String c b) with (String x (a +:+ String c b)). cbn. destruct (Ascii.eqb x c); [done|]. cbn. intros Ha. by rewrite (IH Ha).
Qed.
Lemma IndexByte_none a c : no_byte c a = true → IndexByte a c = None.
Proof. induction a as [|x a IH]; [done|]. cbn. destruct (Ascii.eqb x c); [done|]. cbn. intros Ha. by rewrite (IH Ha). Qed.
Lemma Contains_none a c : no_byte c a = true → Contains a (String c "") = false.
Proof.
  induction a as [|x a IH]; [done|]. cbn [no_byte Contains HasPrefix]. intros [Hx Ha]%andb_prop. rewrite (IH Ha). unfold HasPrefix. cbn.
  destruct (Ascii.eqb_spec x c) as [->|Hne]; [done|]. destruct (ascii_dec c x); [congruence|done].
Qed.
Lemma Contains_app a b c : Contains (a +:+ String c b) (String c "") = true.
Proof.
  induction a as [|x a IH].
  - change ("" +:+ String c b) with (String c b). cbn. unfold HasPrefix. cbn. destruct (ascii_dec c c); [|done]. by destruct b.
  - change (String x a +:+ String c b) with (String x (a +:+ String c b)). cbn [Contains]. rewrite IH. apply orb_true_r.
Qed.
Lemma TrimRight_kept c s b : b ≠ c → TrimRightByte c (s +:+ String b "") = s +:+ String b "".
Proof.
  intros Hb. induction s as [|x s IH].
  - change ("" +:+ String b "") with (String b ""). cbn. by rewrite (proj2 (Ascii.eqb_neq _ _) Hb).
  - change (String x s +:+ String b "") with (String x (s +:+ String b "")). cbn [TrimRightByte]. rewrite IH. by destruct s.
Qed.
Lemma without_none c s : no_byte c s = true → without_byte c s = s.
Proof. induction s as [|x s IH]; [done|]. cbn. destruct (Ascii.eqb x c); [done|]. cbn. intros Hs. by rewrite (IH Hs). Qed.
Lemma without_app c a b : without_byte c (a +:+ b) = without_byte c a +:+ without_byte c b.
Proof.
  induction a as [|x a IH]; [done|]. change (String x a +:+ b) with (String x (a +:+ b)). cbn [without_byte]. rewrite IH.
  by destruct (Ascii.eqb x c).
Qed.

Lemma no_point s : string_forallb is_digit s = true → no_byte "." s = true.
Proof. by apply digits_no_byte. Qed.
#[local] Hint Resolve no_point whole_digits fraction_digits : core.

(** A price's text, past its sign *)
Lemma render_positive k p : 0 < k → render k p = whole_part k p +:+ (if (p =? 0)%nat then "" else String "." (fraction_part k p)).
Proof. intros Hk. rewrite render_parts. by rewrite (proj2 (Z.ltb_ge k 0)) by lia. Qed.
Lemma render_point k p : 0 < k →
  match IndexByte (render k p) "." with
  | None => p = O
  | Some idx => Z.of_nat (String.length (render k p)) - Z.of_nat idx - 1 = Z.of_nat p
  end.
Proof.
  intros Hk. rewrite render_positive by done. destruct p as [|p]; cbn [Nat.eqb].
  - rewrite string_app_nil. by rewrite IndexByte_none by auto.
  - rewrite IndexByte_app by auto. rewrite string_length_app. cbn [String.length]. unfold fraction_part. rewrite digits_of_length. lia.
Qed.
Lemma fraction_last k p : canonical k (S p) → 0 < k → ∃ s b, fraction_part k (S p) = s +:+ String b "" ∧ b ≠ "0"%char.
Proof.
  intros [|Hc] Hk; [done|]. unfold fraction_part. cbn [digits_of]. eexists _, _. split; [done|]. rewrite pow10_S.
  rewrite Z.rem_mul_r by (pose proof (pow10_pos p); lia). rewrite Z.mul_comm, Z.mod_add, Z.mod_mod, Z.abs_eq by lia.
  pose proof (Z.mod_pos_bound k 10 ltac:(lia)) as Hb. intros E. apply (f_equal code) in E.
  destruct (digit_byte (k mod 10) Hb) as [_ E']. rewrite E' in E. change (code "0") with 48 in E. lia.
Qed.
Definition significant (s : string) : nat :=
  String.length (TrimLeftByte "0" (without_byte "." (if Contains s "." then TrimRightByte "0" s else s))).
Lemma render_significant k p n : canonical k p → 0 < k → (significant (render k p) ≤ n)%nat ↔ k < pow10 n.
Proof.
  intros Hc Hk. unfold significant.
  assert (E : without_byte "." (if Contains (render k p) "." then TrimRightByte "0" (render k p) else render k p) =
    whole_part k p +:+ fraction_part k p).
  { rewrite render_positive by done. destruct p as [|p]; cbn [Nat.eqb].
    - rewrite string_app_nil, Contains_none by auto. change (fraction_part k 0) with "". rewrite ?string_app_nil. apply without_none; auto.
    - rewrite Contains_app. destruct (fraction_last k p Hc Hk) as (s & b & Es & Hb).
      assert (Ht : ∀ w, w +:+ String "." (fraction_part k (S p)) = (w +:+ String "." s) +:+ String b "").
      { intros w. rewrite Es. induction w as [|x w IH]; [done|].
        change (String x (w +:+ String "." (s +:+ String b "")) = String x ((w +:+ String "." s) +:+ String b "")). by rewrite IH. }
      rewrite Ht, TrimRight_kept by done. rewrite <- Ht, without_app. cbn [without_byte Ascii.eqb Bool.eqb].
      rewrite !without_none by auto. done. }
  rewrite E. rewrite <- (Z.abs_eq k) at 3 by lia. rewrite <- (parts_value k p). apply trimmed_count.
  - by rewrite string_forallb_app, whole_digits, fraction_digits.
  - rewrite parts_value. lia.
Qed.

Section price_rule.
Context `{DecimalTextLaws D}.
Implicit Types d : D.

Lemma price_text d : d_is_positive d = true →
  ∃ k p, canonical k p ∧ 0 < k ∧ d_value d = scaled k p ∧ decimalPlaces d = Z.of_nat p ∧ ∀ n, hlSignificantDigits d ≤ Z.of_nat n ↔ k < pow10 n.
Proof.
  intros Hp%d_is_positive_spec. destruct (d_string_canonical d) as (k & p & Hc & Hv & Hs). exists k, p.
  assert (Hk : 0 < k) by (rewrite Hv in Hp; by apply scaled_positive in Hp).
  assert (Ha : d_string (d_abs d) = render k p).
  { rewrite <- Hs. apply d_string_inj. apply (d_abs_value d). by apply Qclt_le_weak. }
  split_and!; [done..| |].
  - unfold decimalPlaces. rewrite Hs. pose proof (render_point k p Hk) as Hr. destruct (IndexByte _ _); [done|by rewrite Hr].
  - intros n. unfold hlSignificantDigits. rewrite Ha. rewrite <- (render_significant k p n Hc Hk). unfold significant. lia.
Qed.

Lemma places_within k p q : canonical k p → (p ≤ q)%nat ↔ ∃ n, scaled k p = scaled n q.
Proof.
  intros Hc. split.
  - intros Hle. exists (k * pow10 (q - p)). rewrite (scaled_lift k p (q - p)). f_equal; lia.
  - intros [n E%scaled_eq]. destruct (decide (p ≤ q)%nat); [done|]. destruct (canonical_le n q k p Hc); lia.
Qed.
Lemma figures_within k p n : canonical k p → 0 < k → k < pow10 n ↔ ∃ m e, 0 < m < pow10 n ∧ scaled k p = scaled m e.
Proof.
  intros Hc Hk. split; [intros; by exists k, p|]. intros (m & e & Hm & E%scaled_eq).
  destruct (decide (p ≤ e)%nat) as [Hle|Hgt].
  - replace e with (p + (e - p))%nat in E by lia. rewrite pow10_add in E. pose proof (pow10_pos p). pose proof (pow10_pos (e - p)).
    assert (m = k * pow10 (e - p)) as -> by (apply (Z.mul_cancel_r _ _ (pow10 p)); lia). nia.
  - destruct (canonical_le m e k p Hc); lia.
Qed.

Lemma whole_price d : match d_cmp d (d_truncate d) with Eq => true | _ => false end = true ↔ ∃ n, d_value d = scaled n 0.
Proof.
  rewrite d_cmp_value. rewrite <- (d_truncate_fixed d). destruct (d_value d ?= d_value (d_truncate d))%Qc eqn:E.
  - by apply Qceq_alt in E.
  - split; [done|]. intros E'. rewrite E' in E. by apply Qclt_alt, Qclt_not_eq in E.
  - split; [done|]. intros E'. rewrite E' in E. by apply Qcgt_alt, Qclt_not_eq in E.
Qed.

(** Representable at the venue with so many price decimals *)
Definition representable (v : Qc) (priceDecimals : Z) : Prop :=
  (∃ n, v = scaled n (Z.to_nat priceDecimals)) ∧ ((∃ n, v = scaled n 0) ∨ ∃ m e, 0 < m < 10 ^ 5 ∧ v = scaled m e).
Lemma limit_price_iff side requested priceDecimals :
  let v := d_value requested in
  (∀ price, hlValidateLimitPrice side requested priceDecimals = Ok price → price = requested) ∧
  (is_ok (hlValidateLimitPrice side requested priceDecimals) = true ↔
     (side = SideBuy ∨ side = SideSell) ∧ (0 < v)%Qc ∧ 0 ≤ priceDecimals ∧ representable v priceDecimals).
Proof.
  cbv zeta. unfold representable. set (whole := match d_cmp requested (d_truncate requested) with Eq => true | _ => false end).
  assert (Hall : ∀ price, hlValidateLimitPrice side requested priceDecimals = Ok price ↔
    d_is_positive requested = true ∧ 0 ≤ priceDecimals ∧ (side = SideBuy ∨ side = SideSell) ∧ decimalPlaces requested ≤ priceDecimals ∧
    (whole = true ∨ hlSignificantDigits requested ≤ 5) ∧ price = requested).
  { intros price. unfold hlValidateLimitPrice. fold whole. rewrite !check_Ok, !negb_true_iff, !Z.ltb_ge, !orb_true_iff, !String.eqb_eq, Z.leb_le.
    naive_solver. }
  split; [intros price Hok; by apply Hall in Hok as (_ & _ & _ & _ & _ & ->)|].
  rewrite is_ok_Ok. transitivity (hlValidateLimitPrice side requested priceDecimals = Ok requested).
  { split; [|by eexists]. intros [price Hok]. pose proof (proj1 (Hall _) Hok) as (_ & _ & _ & _ & _ & ->). done. }
  rewrite Hall, <- d_is_positive_spec.
  destruct (d_is_positive requested) eqn:Hp; [|naive_solver].
  destruct (price_text requested Hp) as (k & p & Hc & Hk & Hv & -> & Hd). specialize (Hd 5%nat). change (Z.of_nat 5) with 5 in Hd.
  rewrite Hd, (figures_within k p 5 Hc Hk), <- Hv. change (10 ^ 5) with (pow10 5). unfold whole. rewrite whole_price.
  assert (Hpl : 0 ≤ priceDecimals → Z.of_nat p ≤ priceDecimals ↔ ∃ n, d_value requested = scaled n (Z.to_nat priceDecimals)).
  { intros Hn. rewrite Hv, <- (places_within k p _ Hc). lia. }
  naive_solver.
Qed.

(** A limit price passes unchanged exactly when it is representable at the
    venue: positive, a whole number of the instrument's smallest price units,
    and either a whole number or a number of at most five significant figures. *)
Theorem limit_price_rule side requested priceDecimals :
  let v := d_value requested in
  (∀ price, hlValidateLimitPrice side requested priceDecimals = Ok price → price = requested) ∧
  (is_ok (hlValidateLimitPrice side requested priceDecimals) = true ↔
     (side = SideBuy ∨ side = SideSell) ∧ (0 < v)%Qc ∧ 0 ≤ priceDecimals ∧ representable v priceDecimals).
Proof. apply limit_price_iff. Qed.
End price_rule.

Definition is_price (s : string) (decimals : Z) : bool :=
  match d_new_from_string s with Some d => is_ok (hlValidateLimitPrice (D:=fixed) SideBuy d decimals) | None => false end.
Example price_rule_ex :
  is_price "1234.5" 1 = true ∧ is_price "12345.6" 1 = false ∧ is_price "123456" 0 = true ∧ is_price "0.00012345" 8 = true ∧
  is_price "0.000123456" 9 = false ∧ is_price "1.10" 1 = true ∧ is_price "1.11" 1 = false.
Proof. vm_compute. split_and!; reflexivity. Qed.
Lemma limit_price_rule_witness :
  (0 < d_value (mkFixed 12345 6))%Qc ∧ is_ok (hlValidateLimitPrice SideSell (mkFixed 12345 6) 6) = true ∧
  is_ok (hlValidateLimitPrice SideSell (mkFixed 123456 7) 6) = false.
Proof.
  destruct (limit_price_rule SideSell (mkFixed 12345 6) 6) as [_ H1]. destruct (limit_price_rule SideSell (mkFixed 123456 7) 6) as [_ H2].
  split_and!.
  - by apply scaled_positive.
  - apply H1. split_and!; [by right|by apply scaled_positive|lia|]. split; [by exists 12345|]. right. exists 12345, 6%nat. split; [lia|done].
  - apply not_true_iff_false. intros Hok%H2. destruct Hok as (_ & _ & _ & [[n Hn%scaled_eq] _]).
    change (123456 * pow10 6 = n * pow10 7) in Hn. rewrite (pow10_S 6) in Hn. change (pow10 6) with 1000000 in Hn. lia.
Defined.
