(* ===== verification/ExactLookup.v ===== *)
(** * Exact order lookup

    [exchange/exact_order_lookup.go] and
    [exchange/internal/factoryclient/exact_lookup*.go]: the question the gateway
    asks about one order after an ambiguous command, and what each venue client
    may answer.  The SDK's replies and the conversion of a native row are
    arguments; a failed request says whether it is the venue's "no such order". *)

From Stdlib Require Import Ascii String ZArith Lia.
From stdpp Require Import base list strings.
From S2P Require Import Prelude GoStrings Decimals Errors Model OrderBook Sockets AccountFeed Hyperliquid.

#[local] Open Scope string_scope.
#[local] Open Scope list_scope.
#[local] Open Scope Z_scope.
#[local] Open Scope go_scope.

(** ** The interface *)

Definition ExactOrderFound := "found".
Definition ExactOrderNotFound := "not_found".
Definition ExactOrderUnconfirmed := "unconfirmed".
Definition ByClientOrderID := "client_order_id".
Definition ByVenueOrderID := "venue_order_id".
Definition ByOpenOrders := "open_orders".
Definition ByHistoryPage := "history_page".

Section interface.
Context `{Decimal D}.

Record ExactOrderLookupRequest := mkLookup { lr_Instrument : option (Instrument D); lr_ClientOrderID : string; lr_VenueOrderID : string }.
Record ExactOrderScope := mkScope { sc_Venue : string; sc_Product : string; sc_Instrument : option (Instrument D) }.
Record ExactOrderEvidence := mkEvidence {
  ev_Scope : ExactOrderScope; ev_Method : string; ev_Authoritative : bool; ev_Complete : bool;
  ev_ObservedClientOrderID : string; ev_ObservedVenueOrderID : string; ev_NativeCursor : string;
}.
Record ExactOrderLookupResult := mkResult { xr_Status : string; xr_Order : option (Order D); xr_Evidence : ExactOrderEvidence }.
(** [Order{}] is [None]: a result without an order has the zero order. *)
Definition order_ids (order : option (Order D)) : string * string :=
  match order with Some o => (or_OrderID o, or_ClientOrderID o) | None => ("", "") end.

Definition Request_Validate (request : ExactOrderLookupRequest) : result error unit :=
  check is_empty (lr_ClientOrderID request) || isPortableClientOrderID (lr_ClientOrderID request)
    else invalidRequest "client order id must be a positive decimal uint48" ;;
  let identities := ((if is_empty (lr_ClientOrderID request) then 0 else 1) + (if is_empty (lr_VenueOrderID request) then 0 else 1))%nat in
  check (identities =? 1)%nat else invalidRequest "exact order lookup requires exactly one order identity" ;;
  match lr_Instrument request with
  | Some instrument => Instrument_Validate instrument
  | None => Ok tt
  end.

Definition Scope_Validate (scope : ExactOrderScope) : result error unit :=
  check negb (is_empty (sc_Venue scope) || is_empty (sc_Product scope)) else invalidRequest "exact order evidence scope is incomplete" ;;
  check knownVenue (sc_Venue scope) else invalidRequest "exact order evidence venue is unknown" ;;
  check one_of (sc_Product scope) [ProductSpot; ProductPerp] else invalidRequest "exact order evidence product is unknown" ;;
  match sc_Instrument scope with
  | None => Ok tt
  | Some instrument =>
      _ <-? Instrument_Validate instrument ;;
      check String.eqb (id_Venue (in_Identity instrument)) (sc_Venue scope) && String.eqb (id_Product (in_Identity instrument)) (sc_Product scope)
        else invalidRequest "exact order evidence instrument scope mismatch" ;;
      Ok tt
  end.

Definition Evidence_Validate (evidence : ExactOrderEvidence) : result error unit :=
  _ <-? Scope_Validate (ev_Scope evidence) ;;
  check is_empty (ev_ObservedClientOrderID evidence) || isPortableClientOrderID (ev_ObservedClientOrderID evidence)
    else invalidRequest "exact order evidence client order id must be a positive decimal uint48" ;;
  let method := ev_Method evidence in
  if String.eqb method ByClientOrderID then
    check negb (is_empty (ev_ObservedClientOrderID evidence)) else invalidRequest "client-order-id evidence requires a checked client order id" ;; Ok tt
  else if String.eqb method ByVenueOrderID then
    check negb (is_empty (ev_ObservedVenueOrderID evidence)) else invalidRequest "venue-order-id evidence requires a checked venue order id" ;; Ok tt
  else if one_of method [ByOpenOrders; ByHistoryPage] then Ok tt
  else Err (invalidRequest "exact order evidence method is unknown").

Definition Result_Validate (r : ExactOrderLookupResult) : result error unit :=
  let evidence := xr_Evidence r in
  let (order_id, client_id) := order_ids (xr_Order r) in
  check one_of (xr_Status r) [ExactOrderFound; ExactOrderNotFound; ExactOrderUnconfirmed]
    else invalidRequest "unknown exact order lookup status" ;;
  _ <-? Evidence_Validate evidence ;;
  let definite := one_of (xr_Status r) [ExactOrderFound; ExactOrderNotFound] in
  check negb definite || (ev_Authoritative evidence && ev_Complete evidence)
    else invalidRequest "exact found/not-found requires authoritative complete evidence" ;;
  check negb definite || negb (String.eqb (ev_Method evidence) ByHistoryPage)
    else invalidRequest "history pagination is not exact order evidence" ;;
  check negb definite || negb (is_empty (ev_ObservedClientOrderID evidence) && is_empty (ev_ObservedVenueOrderID evidence))
    else invalidRequest "exact found/not-found evidence has no checked order identity" ;;
  let found := String.eqb (xr_Status r) ExactOrderFound in
  check negb found || negb (is_empty order_id && is_empty client_id) else invalidRequest "found exact order has no order identity" ;;
  check negb found || is_empty (ev_ObservedClientOrderID evidence) || String.eqb client_id (ev_ObservedClientOrderID evidence)
    else invalidRequest "found exact order client identity does not match evidence" ;;
  check negb found || is_empty (ev_ObservedVenueOrderID evidence) || String.eqb order_id (ev_ObservedVenueOrderID evidence)
    else invalidRequest "found exact order venue identity does not match evidence" ;;
  Ok tt.

(** ** Shared helpers of the clients *)

Definition exactLookupOperation := "LookupExactOrder".
Definition exactLookupError (venue product : string) (kind : ErrorKind) (message : string) : error :=
  NewError kind (scoped_details venue product exactLookupOperation message).

Definition exactLookupInstrument (ctx : context) (request : ExactOrderLookupRequest) (venue product : string) : result error (Instrument D) :=
  match ctx with
  | None => Err (exactLookupError venue product KindInvalidRequest "context is required")
  | Some (Some err) =>
      let kind := match err with ESentinel ContextDeadlineExceeded => KindDeadlineExceeded | _ => KindCanceled end in
      Err (exactLookupError venue product kind "context is not active")
  | Some None =>
      check is_ok (Request_Validate request) else exactLookupError venue product KindInvalidRequest "invalid exact order lookup request" ;;
      match lr_Instrument request with
      | None => Err (exactLookupError venue product KindInvalidRequest "instrument is required for exact order lookup")
      | Some instrument =>
          check String.eqb (id_Venue (in_Identity instrument)) venue && String.eqb (id_Product (in_Identity instrument)) product
            else exactLookupError venue product KindInvalidRequest "instrument does not match exact lookup client" ;;
          Ok instrument
      end
  end.

Definition exactLookupPositiveInt64 (value venue product name : string) : result error Z :=
  match ParseInt value with
  | Some n =>
      check 0 <? n else exactLookupError venue product KindInvalidRequest (name +:+ " must be a positive decimal int64") ;; Ok n
  | None => Err (exactLookupError venue product KindInvalidRequest (name +:+ " must be a positive decimal int64"))
  end.

Definition exactLookupEvidence (request : ExactOrderLookupRequest) (venue product : string) (instrument : Instrument D)
    (authoritative complete : bool) : ExactOrderEvidence :=
  let scope := mkScope venue product (Some instrument) in
  if negb (is_empty (lr_ClientOrderID request))
  then mkEvidence scope ByClientOrderID authoritative complete (lr_ClientOrderID request) "" ""
  else mkEvidence scope ByVenueOrderID authoritative complete "" (lr_VenueOrderID request) "".

Definition validated (venue product message : string) (r : ExactOrderLookupResult) : result error ExactOrderLookupResult :=
  check is_ok (Result_Validate r) else exactLookupError venue product KindMalformedResponse message ;; Ok r.
Definition exactLookupFound (request : ExactOrderLookupRequest) (venue product : string) (instrument : Instrument D) (order : Order D) :=
  validated venue product "exact order response identity is inconsistent"
    (mkResult ExactOrderFound (Some order) (exactLookupEvidence request venue product instrument true true)).
Definition exactLookupNotFound (request : ExactOrderLookupRequest) (venue product : string) (instrument : Instrument D) :=
  validated venue product "exact not-found evidence is inconsistent"
    (mkResult ExactOrderNotFound None (exactLookupEvidence request venue product instrument true true)).
Definition exactLookupUnconfirmed (request : ExactOrderLookupRequest) (venue product : string) (instrument : Instrument D) (cursor : string) :=
  let e := exactLookupEvidence request venue product instrument false false in
  validated venue product "unconfirmed exact order evidence is inconsistent"
    (mkResult ExactOrderUnconfirmed None
       (mkEvidence (ev_Scope e) ByOpenOrders (ev_Authoritative e) (ev_Complete e) (ev_ObservedClientOrderID e) (ev_ObservedVenueOrderID e) cursor)).

Definition underscore (c : ascii) : ascii := if Ascii.eqb c "-" || Ascii.eqb c " " then "_"%char else c.
Definition exactPortableOrderStatus (raw : string) : result error string :=
  let status := string_map underscore (ToLower (TrimSpace raw)) in
  if one_of status ["accepted"; "accepted_pending"; "pending"; "in_progress"] then Ok "pending"
  else if one_of status ["new"; "live"; "open"; "resting"] then Ok "open"
  else if one_of status ["partially_filled"; "partiallyfilled"; "partial"] then Ok "partially_filled"
  else if one_of status ["filled"] then Ok "filled"
  else if one_of status ["canceled"; "cancelled"; "expired"; "mmp_canceled"] then Ok "canceled"
  else if one_of status ["rejected"] then Ok "rejected"
  else if Contains status "cancel" then Ok "canceled"
  else if HasSuffix status "rejected" then Ok "rejected"
  else Err (EText "unsupported exact order status").

Definition with_status (order : Order D) (status : string) : Order D :=
  mkOrder (or_NativeSymbol order) (or_NativeID order) (or_OrderID order) (or_ClientOrderID order) (or_Side order) (or_Type order)
    (or_Quantity order) (or_LimitPrice order) (or_LimitPolicy order) (or_ReduceOnly order) (or_Filled order) (or_AverageFillPrice order)
    status (or_CreatedAt order) (or_UpdatedAt order).
Definition with_native_id (order : Order D) (id : string) : Order D :=
  mkOrder (or_NativeSymbol order) id (or_OrderID order) (or_ClientOrderID order) (or_Side order) (or_Type order)
    (or_Quantity order) (or_LimitPrice order) (or_LimitPolicy order) (or_ReduceOnly order) (or_Filled order) (or_AverageFillPrice order)
    (or_Status order) (or_CreatedAt order) (or_UpdatedAt order).
End interface.
Arguments ExactOrderLookupRequest D : clear implicits.
Arguments ExactOrderLookupResult D : clear implicits.

(** ** The venue clients *)

(** A reply of the SDK to a request for one order. *)
Inductive reply (A : Type) := Replied (a : A) | NoSuchOrder | Failed (e : error).
Arguments Replied {A} _.
Arguments NoSuchOrder {A}.
Arguments Failed {A} _.

Section clients.
Context `{Decimal D}.
Implicit Types (request : ExactOrderLookupRequest D) (instrument : Instrument D).
(** How the client reports a failed request. *)
Context (normalize : error → error).

Definition malformedLookup (venue product message : string) : error :=
  NewError KindMalformedResponse (scoped_details venue product exactLookupOperation message).

(** The native fields the lookups compare. *)
Record order_row := mkRow { rw_Symbol : string; rw_OrderID : string; rw_ClientID : string }.

(** The checks that a row is the requested order of the requested instrument. *)
Definition check_row (venue product native : string) request (row : order_row) : result error unit :=
  check String.eqb (rw_Symbol row) native
    else malformedLookup venue product "exact order lookup response instrument mismatch" ;;
  check is_empty (lr_ClientOrderID request) || String.eqb (rw_ClientID row) (lr_ClientOrderID request)
    else malformedLookup venue product "exact order lookup response client order id mismatch" ;;
  check is_empty (lr_VenueOrderID request) || String.eqb (rw_OrderID row) (lr_VenueOrderID request)
    else malformedLookup venue product "exact order lookup response order id mismatch" ;;
  Ok tt.

(** [okxLookupExactOrder]; [convert] is [okxOrder] at the contract value *)
Definition okxLookupExactOrder (text : error → string) (convert : order_row → result error (Order D)) (product : string) instrument request
    (answer : reply (list order_row)) : result error (ExactOrderLookupResult D) :=
  match answer with
  | NoSuchOrder => exactLookupNotFound request VenueOKX product instrument
  | Failed e => Err (normalize e)
  | Replied [row] =>
      _ <-? check_row VenueOKX product (id_NativeSymbol (in_Identity instrument)) request row ;;
      match convert row with
      | Err e => Err (malformedLookup VenueOKX product (text e))
      | Ok order =>
          match exactPortableOrderStatus (or_Status order) with
          | Err _ => Err (malformedLookup VenueOKX product "exact order lookup response has unsupported order status")
          | Ok status =>
              let order := with_status order status in
              let order := if is_empty (or_NativeID order) then with_native_id order (id_NativeID (in_Identity instrument)) else order in
              exactLookupFound request VenueOKX product instrument order
          end
      end
  | Replied _ => Err (malformedLookup VenueOKX product "exact order lookup response must contain exactly one row")
  end.
Definition okxSpot_LookupExactOrder text convert (ctx : context) request (ready : result error unit) (validate : Instrument D → result error unit)
    (answer : reply (list order_row)) : result error (ExactOrderLookupResult D) :=
  instrument <-? exactLookupInstrument ctx request VenueOKX ProductSpot ;;
  _ <-? ready ;;
  match validate instrument with
  | Err e => Err (NewError KindInvalidRequest (scoped_details VenueOKX ProductSpot exactLookupOperation (text e)))
  | Ok _ => okxLookupExactOrder text convert ProductSpot instrument request answer
  end.
Definition okxPerp_LookupExactOrder text (ctx : context) request (meta : Instrument D → result error D)
    (convert : D → order_row → result error (Order D)) (answer : reply (list order_row)) : result error (ExactOrderLookupResult D) :=
  instrument <-? exactLookupInstrument ctx request VenueOKX ProductPerp ;;
  contractValue <-? meta instrument ;;
  okxLookupExactOrder text (convert contractValue) ProductPerp instrument request answer.

(** The last checks of the Bybit and Bitget lookups, on the converted orders. *)
Definition converted_order (venue product : string) instrument request (orders : result error (list (Order D))) :
    result error (ExactOrderLookupResult D) :=
  match orders with
  | Err e => Err e
  | Ok [order] =>
      match exactPortableOrderStatus (or_Status order) with
      | Err _ => Err (malformedLookup venue product "exact order lookup response has unsupported order status")
      | Ok status =>
          let order := with_status order status in
          check String.eqb (or_NativeSymbol order) (id_NativeSymbol (in_Identity instrument)) &&
                String.eqb (or_NativeID order) (id_NativeID (in_Identity instrument))
            else malformedLookup venue product "exact order lookup response instrument mismatch" ;;
          exactLookupFound request venue product instrument order
      end
  | Ok _ => Err (malformedLookup venue product "exact order lookup response conversion mismatch")
  end.

(** [bybitExactLookupResultFromRows]: [None] when there is no row *)
Definition bybitExactLookupResultFromRows (convert : list order_row → result error (list (Order D))) (product : string) request instrument
    (native : string) (rows : list order_row) : option (result error (ExactOrderLookupResult D)) :=
  match rows with
  | [] => None
  | [row] =>
      Some (_ <-? check_row VenueBybit product native request row ;;
            converted_order VenueBybit product instrument request (convert [row]))
  | _ => Some (Err (malformedLookup VenueBybit product "exact order lookup response must contain exactly one row"))
  end.
Definition positiveDecimalOrderID (value : string) : bool :=
  negb (is_empty value) && head_not "0" value && string_forallb is_digit value &&
  match ParseInt value with Some parsed => 0 <? parsed | None => false end.
Definition bybitNativeOrderID (value : string) : bool := positiveDecimalOrderID value || validUUIDOrderID value.
(** [bybitBase.LookupExactOrder]: the history is asked only if the open orders
    do not have it. *)
Definition bybit_LookupExactOrder convert (product : string) (ctx : context) request (symbols : Instrument D → result error string)
    (realtime history : string → result error (list order_row)) : result error (ExactOrderLookupResult D) :=
  instrument <-? exactLookupInstrument ctx request VenueBybit product ;;
  check is_empty (lr_VenueOrderID request) || bybitNativeOrderID (lr_VenueOrderID request)
    else NewError KindInvalidRequest (scoped_details VenueBybit product exactLookupOperation "venue order id must be a positive decimal int64 or UUID") ;;
  native <-? symbols instrument ;;
  match realtime native with
  | Err e => Err (normalize e)
  | Ok rows =>
      match bybitExactLookupResultFromRows convert product request instrument native rows with
      | Some r => r
      | None =>
          match history native with
          | Err e => Err (normalize e)
          | Ok rows =>
              match bybitExactLookupResultFromRows convert product request instrument native rows with
              | Some r => r
              | None => exactLookupUnconfirmed request VenueBybit product instrument ""
              end
          end
      end
  end.

(** [bitgetBase.LookupExactOrder] *)
Definition bitget_LookupExactOrder (convert : order_row → result error (list (Order D))) (product : string) (ctx : context) request
    (symbols : Instrument D → result error string) (get : string → result error (option order_row)) : result error (ExactOrderLookupResult D) :=
  instrument <-? exactLookupInstrument ctx request VenueBitget product ;;
  native <-? symbols instrument ;;
  match get native with
  | Err e => Err (normalize e)
  | Ok None => Err (malformedLookup VenueBitget product "exact order lookup response is missing")
  | Ok (Some row) =>
      _ <-? check_row VenueBitget product native request row ;;
      converted_order VenueBitget product instrument request (convert row)
  end.

(** *** Lighter *)

(** [lighter.Order], the fields the search reads; a nil row is [None] *)
Record lighter_row := mkLighterRow { lg_MarketIndex : Z; lg_OrderIndex : Z; lg_ClientOrderIndex : Z; lg_outside : bool }.

Definition lighterOrderClientID (id : Z) : string := if id <=? 0 then "" else FormatInt id.
Definition lighterExactOrderMatches (row : lighter_row) request : bool :=
  if negb (is_empty (lr_ClientOrderID request))
  then String.eqb (lighterOrderClientID (lg_ClientOrderIndex row)) (lr_ClientOrderID request)
  else String.eqb (FormatInt (lg_OrderIndex row)) (lr_VenueOrderID request).
(** The loop of [lighterExactOrderFromRows]. *)
Fixpoint lighter_scan (marketID : Z) request (rows : list (option lighter_row)) (found : option lighter_row) : result error (option lighter_row) :=
  match rows with
  | [] => Ok found
  | None :: _ => Err (EText "invalid syntax")
  | Some row :: rest =>
      if negb (lg_MarketIndex row =? marketID) then Err (EText "value out of range")
      else if lg_outside row || negb (lighterExactOrderMatches row request) then lighter_scan marketID request rest found
      else match found with
      | Some _ => Err (EText "value out of range")
      | None => lighter_scan marketID request rest (Some row)
      end
  end.
Definition lighterExactOrderFromRows (convert : lighter_row → result error (Order D)) (marketID : Z) (rows : list (option lighter_row)) request :
    result error (option (Order D)) :=
  found <-? lighter_scan marketID request rows None ;;
  match found with
  | None => Ok None
  | Some row =>
      order <-? convert row ;;
      status <-? exactPortableOrderStatus (or_Status order) ;;
      Ok (Some (with_status order status))
  end.

(** A page of orders: the response code, the rows and the next cursor. *)
Record lighter_page := mkLighterPage { lp_Code : Z; lp_Orders : list (option lighter_row); lp_NextCursor : string }.
Definition lighterLookupExactOrder (text : error → string) (convert : lighter_row → result error (Order D)) (product : string) (ctx : context) request
    (meta : Instrument D → result error Z) (active inactive : Z → result error (option lighter_page)) : result error (ExactOrderLookupResult D) :=
  instrument <-? exactLookupInstrument ctx request VenueLighter product ;;
  marketID <-? meta instrument ;;
  let search (page : result error (option lighter_page)) (message : string) (next : lighter_page → result error (ExactOrderLookupResult D)) :=
    match page with
    | Err e => Err (normalize e)
    | Ok None => Err (malformedLookup VenueLighter product message)
    | Ok (Some page) =>
        if negb (lp_Code page =? 200) then Err (malformedLookup VenueLighter product message)
        else match lighterExactOrderFromRows convert marketID (lp_Orders page) request with
        | Err e => Err (malformedLookup VenueLighter product (text e))
        | Ok (Some order) => exactLookupFound request VenueLighter product instrument order
        | Ok None => next page
        end
    end in
  search (active marketID) "active orders response is malformed" (λ _,
    search (inactive marketID) "inactive orders response is malformed" (λ page,
      exactLookupUnconfirmed request VenueLighter product instrument (lp_NextCursor page))).

(** *** Gate *)

Definition gateClientOrderID (value : string) : string := if is_empty (TrimSpace value) then "" else "t-" +:+ value.
Definition gateExactLookupOrderID request : string :=
  if negb (is_empty (lr_ClientOrderID request)) then gateClientOrderID (lr_ClientOrderID request) else lr_VenueOrderID request.

Definition gateExactPortableOrderStatus (order : Order D) : result error string :=
  let raw_status :=
    let raw := or_Status order in
    let status := ToLower (TrimSpace raw) in
    if one_of status ["_new"; "_update"; "open"] then Ok "open"
    else if one_of status ["filled"; "succeeded"] then Ok "filled"
    else if one_of status ["failed"; "small"; "depth_not_enough"; "trader_not_enough"] then Ok "rejected"
    else if one_of status ["ioc"; "poc"; "stp"; "liquidated"; "auto_deleveraging"; "auto_deleveraged"; "reduce_only"; "position_close";
                           "position_closed"; "reduce_out"; "cb"; "expired"] then Ok "canceled"
    else exactPortableOrderStatus raw in
  if d_is_positive (or_Quantity order) then
    if negb (d_less_than (or_Filled order) (or_Quantity order)) then Ok "filled"
    else if d_is_positive (or_Filled order) then Ok "partially_filled"
    else raw_status
  else if d_is_positive (or_Filled order) then Ok "partially_filled"
  else raw_status.

Definition gateExactLookupFound (product : string) request instrument (order : Order D) : result error (ExactOrderLookupResult D) :=
  match gateExactPortableOrderStatus order with
  | Err _ => Err (malformedLookup VenueGate product "exact order lookup response has unsupported order status")
  | Ok status =>
      let order := with_status order status in
      _ <-? check_row VenueGate product "" request (mkRow "" (or_OrderID order) (or_ClientOrderID order)) ;;
      check String.eqb (or_NativeSymbol order) (id_NativeSymbol (in_Identity instrument)) &&
            String.eqb (or_NativeID order) (id_NativeID (in_Identity instrument))
        else malformedLookup VenueGate product "exact order lookup response instrument mismatch" ;;
      exactLookupFound request VenueGate product instrument order
  end.

(** [LookupExactOrder] of the spot and perpetual clients: they differ in the
    request, the validation and the conversion of the row, whose instrument is
    compared with the native name. *)
Definition gate_LookupExactOrder {R} (product : string) (ctx : context) request (native_of : Instrument D → result error string)
    (prepare : Instrument D → result error D) (get : string → string → reply (option R)) (validate : R → result error unit)
    (row_symbol : R → string) (convert : R → Instrument D → D → Order D) : result error (ExactOrderLookupResult D) :=
  instrument <-? exactLookupInstrument ctx request VenueGate product ;;
  native <-? native_of instrument ;;
  multiplier <-? prepare instrument ;;
  match get (gateExactLookupOrderID request) native with
  | NoSuchOrder => exactLookupNotFound request VenueGate product instrument
  | Failed e => Err (normalize e)
  | Replied None => Err (malformedLookup VenueGate product "missing exact order response")
  | Replied (Some row) =>
      _ <-? validate row ;;
      check String.eqb (row_symbol row) native else malformedLookup VenueGate product "exact order lookup response instrument mismatch" ;;
      gateExactLookupFound product request instrument (convert row instrument multiplier)
  end.

(** *** Hyperliquid *)

(** [hlExactOrder]: the order of the market, its status made portable;
    [historical] is [hlHistoricalOrder] *)
Definition hlExactOrder {R} (historical : R → result error (Order D)) (nativeCoin coin : string) (info : R) : result error (Order D) :=
  check String.eqb coin nativeCoin else EText "order instrument mismatch" ;;
  order <-? historical info ;;
  status <-? exactPortableOrderStatus (or_Status order) ;;
  Ok (with_status order status).

(** [LookupExactOrder] of the spot and perpetual clients *)
Definition hyperliquid_LookupExactOrder {R} (product : string) (ctx : context) request (meta : Instrument D → result error string)
    (by_client : string → reply (option R)) (by_id : Z → reply (option R)) (coin : R → string) (historical : R → result error (Order D)) :
    result error (ExactOrderLookupResult D) :=
  instrument <-? exactLookupInstrument ctx request VenueHyperliquid product ;;
  nativeCoin <-? meta instrument ;;
  answer <-? (if negb (is_empty (lr_ClientOrderID request)) then Ok (by_client (hlNativeClientOrderID (lr_ClientOrderID request)))
              else match exactLookupPositiveInt64 (lr_VenueOrderID request) VenueHyperliquid product "venue order id" with
                   | Err e => Err e
                   | Ok orderID => Ok (by_id orderID)
                   end) ;;
  match answer with
  | NoSuchOrder => exactLookupNotFound request VenueHyperliquid product instrument
  | Failed e => Err (normalize e)
  | Replied row =>
      match match row with None => Err (EText "missing order") | Some info => hlExactOrder historical nativeCoin (coin info) info end with
      | Err _ => Err (malformedLookup VenueHyperliquid product "malformed exact order response")
      | Ok order => exactLookupFound request VenueHyperliquid product instrument order
      end
  end.
End clients.

(** ** The search through Lighter's pages *)

Section lighter.
Context `{Decimal D}.
Implicit Types request : ExactOrderLookupRequest D.

(** The rows of a page that are the requested order. *)
Definition candidates request (rows : list (option lighter_row)) : list lighter_row :=
  filter (λ row, negb (lg_outside row) && lighterExactOrderMatches row request = true) (omap id rows).
Definition in_market (marketID : Z) (row : option lighter_row) : Prop := ∃ l, row = Some l ∧ lg_MarketIndex l = marketID.

Lemma lighter_scan_from marketID request rows found m :
  lighter_scan marketID request rows found = Ok m ↔
  Forall (in_market marketID) rows ∧ option_list m = option_list found ++ candidates request rows.
Proof.
  revert found. induction rows as [|[l|] rows IH]; intros found; cbn [lighter_scan].
  - unfold candidates. cbn. rewrite app_nil_r. split; [intros [= ->]; by split|].
    intros [_ E]. f_equal. destruct m, found; cbn in E; congruence.
  - destruct (Z.eqb_spec (lg_MarketIndex l) marketID) as [Hm|Hm]; cbn [negb].
    2:{ split; [done|]. intros [[(l' & E & ?) _]%Forall_cons_1 _]. by injection E as <-. }
    assert (Hin : Forall (in_market marketID) (Some l :: rows) ↔ Forall (in_market marketID) rows).
    { rewrite Forall_cons. split; [by intros [_ ?]|]. intros ?. split; [by exists l|done]. }
    rewrite Hin. unfold candidates. cbn [omap list_omap id]. rewrite filter_cons.
    destruct (lg_outside l); cbn [orb negb andb]; [rewrite decide_False by done; apply IH|].
    destruct (lighterExactOrderMatches l request); cbn [negb]; [|rewrite decide_False by done; apply IH].
    rewrite decide_True by done. destruct found as [f|]; [|rewrite IH; done].
    split; [done|]. intros [_ E]. by destruct m.
  - split; [done|]. by intros [[(l' & ? & ?) _]%Forall_cons_1 _].
Qed.

(** The search through a page of Lighter orders answers with a row exactly
    when every row belongs to the asked market and that row is the only one of
    the portable subset that has the requested identity, and with nothing
    exactly when no row has it; a duplicate identity is never resolved by order. *)
Theorem lighter_scan_unique marketID request rows m :
  lighter_scan marketID request rows None = Ok m ↔
  Forall (in_market marketID) rows ∧ candidates request rows = option_list m.
Proof. rewrite lighter_scan_from. cbn. naive_solver. Qed.
End lighter.

(** ** What a lookup promises *)

Definition portable_statuses : list string := ["pending"; "open"; "partially_filled"; "filled"; "canceled"; "rejected"].

Lemma exactPortableOrderStatus_portable raw status : exactPortableOrderStatus raw = Ok status → In status portable_statuses.
Proof.
  unfold exactPortableOrderStatus. intros E.
  repeat match type of E with context [if ?b then _ else _] => destruct b end; simplify_eq; unfold portable_statuses; simpl; tauto.
Qed.

Section promise.
Context `{Decimal D}.
Implicit Types (request : ExactOrderLookupRequest D) (r : ExactOrderLookupResult D).

(** The order the caller asked about. *)
Definition requested request (o : Order D) : Prop :=
  (lr_ClientOrderID request ≠ "" → or_ClientOrderID o = lr_ClientOrderID request) ∧
  (lr_VenueOrderID request ≠ "" → or_OrderID o = lr_VenueOrderID request).

(** The order with its status made portable and, where the client reports none,
    the instrument's native id filled in. *)
Definition restated (instrument : Instrument D) (order o : Order D) : Prop :=
  ∃ status, o = with_status order status ∨
            (or_NativeID order = "" ∧ o = with_native_id (with_status order status) (id_NativeID (in_Identity instrument))).
(** The order is what the client makes of a row the venue sent. *)
Definition from_row {R} (instrument : Instrument D) (sent : R → Prop) (converted : R → Order D → Prop) (o : Order D) : Prop :=
  ∃ row order, sent row ∧ converted row order ∧ restated instrument order o.
Definition of_instrument (instrument : Instrument D) (o : Order D) : Prop :=
  or_NativeSymbol o = id_NativeSymbol (in_Identity instrument) ∧ or_NativeID o = id_NativeID (in_Identity instrument).

(** A sound answer of a client of [venue] and [product]; [absent] is what the
    venue must have said of the instrument for a definite "there is no such
    order", and [origin] what it must have sent for an order to be found. *)
Definition answers (venue product : string) (absent : Instrument D → Prop) (origin : Instrument D → Order D → Prop) request r : Prop :=
  Request_Validate request = Ok tt ∧ Result_Validate r = Ok tt ∧
  ev_ObservedClientOrderID (xr_Evidence r) = lr_ClientOrderID request ∧
  ev_ObservedVenueOrderID (xr_Evidence r) = lr_VenueOrderID request ∧
  ∃ instrument, lr_Instrument request = Some instrument ∧
    id_Venue (in_Identity instrument) = venue ∧ id_Product (in_Identity instrument) = product ∧
    ev_Scope (xr_Evidence r) = mkScope venue product (Some instrument) ∧
    match xr_Order r with
    | Some o => xr_Status r = ExactOrderFound ∧ requested request o ∧ In (or_Status o) portable_statuses ∧ origin instrument o
    | None => (xr_Status r = ExactOrderNotFound ∧ absent instrument) ∨
              (xr_Status r = ExactOrderUnconfirmed ∧ ev_Authoritative (xr_Evidence r) = false ∧ ev_Complete (xr_Evidence r) = false)
    end.

Lemma exactLookupInstrument_Ok ctx request venue product instrument :
  exactLookupInstrument ctx request venue product = Ok instrument →
  ctx = Some None ∧ Request_Validate request = Ok tt ∧ lr_Instrument request = Some instrument ∧
  id_Venue (in_Identity instrument) = venue ∧ id_Product (in_Identity instrument) = product.
Proof.
  unfold exactLookupInstrument. destruct ctx as [[err|]|]; [done| |done]. rewrite check_Ok.
  intros [Hr E]. destruct (Request_Validate request) as [[]|] eqn:Hv; [|done].
  destruct (lr_Instrument request) as [i|]; [|done]. rewrite check_Ok, andb_true_iff, !String.eqb_eq in E. naive_solver.
Qed.

(** Exactly one of the two identities is given. *)
Lemma Request_Validate_one request : Request_Validate request = Ok tt →
  (lr_ClientOrderID request ≠ "" ∧ lr_VenueOrderID request = "") ∨
  (lr_ClientOrderID request = "" ∧ lr_VenueOrderID request ≠ "").
Proof.
  unfold Request_Validate. rewrite !check_Ok. intros (_ & Hone & _). revert Hone. unfold is_empty.
  destruct (String.eqb_spec (lr_ClientOrderID request) ""), (String.eqb_spec (lr_VenueOrderID request) ""); simpl; try done; auto.
Qed.

Lemma evidence_observed request venue product instrument a c : Request_Validate request = Ok tt →
  let e := exactLookupEvidence request venue product instrument a c in
  ev_Scope e = mkScope venue product (Some instrument) ∧ ev_ObservedClientOrderID e = lr_ClientOrderID request ∧
  ev_ObservedVenueOrderID e = lr_VenueOrderID request ∧ ev_Authoritative e = a ∧ ev_Complete e = c.
Proof.
  intros Hone%Request_Validate_one. unfold exactLookupEvidence, is_empty.
  destruct (String.eqb_spec (lr_ClientOrderID request) ""), Hone as [[??]|[??]]; simplify_eq; simpl; split_and!; congruence.
Qed.

Lemma validated_Ok venue product message r r' : validated venue product message r = Ok r' → r' = r ∧ Result_Validate r = Ok tt.
Proof. unfold validated. rewrite check_Ok. intros [Hv [= <-]]. by destruct (Result_Validate r) as [[]|]. Qed.

(** A validated "found" carries the identities of its evidence. *)
Lemma found_identity r o : Result_Validate r = Ok tt → xr_Order r = Some o → xr_Status r = ExactOrderFound →
  (ev_ObservedClientOrderID (xr_Evidence r) ≠ "" → or_ClientOrderID o = ev_ObservedClientOrderID (xr_Evidence r)) ∧
  (ev_ObservedVenueOrderID (xr_Evidence r) ≠ "" → or_OrderID o = ev_ObservedVenueOrderID (xr_Evidence r)).
Proof.
  unfold Result_Validate. intros Hv Ho Hs. rewrite Ho, Hs in Hv. cbn [order_ids] in Hv.
  rewrite check_Ok, bind_Ok in Hv. destruct Hv as (_ & [] & _ & Hv). rewrite !check_Ok in Hv.
  destruct Hv as (_ & _ & _ & _ & Hc & Hi & _). revert Hc Hi. unfold is_empty.
  rewrite (String.eqb_refl ExactOrderFound). cbn [negb orb].
  rewrite !orb_true_iff, !String.eqb_eq. naive_solver.
Qed.

Section one_client.
Context (venue product : string) (request : ExactOrderLookupRequest D) (instrument : Instrument D).
Context (Hreq : Request_Validate request = Ok tt) (Hins : lr_Instrument request = Some instrument).
Context (Hven : id_Venue (in_Identity instrument) = venue) (Hpro : id_Product (in_Identity instrument) = product).

Lemma answers_found absent (origin : Instrument D → Order D → Prop) order r : In (or_Status order) portable_statuses → origin instrument order →
  exactLookupFound request venue product instrument order = Ok r → answers venue product absent origin request r.
Proof.
  intros Hstatus Horigin [-> Hv]%validated_Ok. destruct (evidence_observed request venue product instrument true true Hreq) as (Hs & Hc & Hi & _).
  destruct (found_identity _ order Hv eq_refl eq_refl) as [Hfc Hfi]. cbn [xr_Evidence] in *. rewrite Hc in Hfc. rewrite Hi in Hfi.
  split_and!; [done..|]. by exists instrument.
Qed.

Lemma answers_not_found (absent : Instrument D → Prop) origin r : absent instrument →
  exactLookupNotFound request venue product instrument = Ok r → answers venue product absent origin request r.
Proof.
  intros Ha [-> Hv]%validated_Ok. destruct (evidence_observed request venue product instrument true true Hreq) as (Hs & Hc & Hi & _).
  split_and!; [done..|]. exists instrument. split_and!; [done..|]. by left.
Qed.

Lemma answers_unconfirmed absent origin cursor r :
  exactLookupUnconfirmed request venue product instrument cursor = Ok r → answers venue product absent origin request r.
Proof.
  intros [-> Hv]%validated_Ok. destruct (evidence_observed request venue product instrument false false Hreq) as (Hs & Hc & Hi & Ha & Hcm).
  split_and!; [done..|]. exists instrument. split_and!; [done..|]. by right.
Qed.
End one_client.

Lemma gate_status_portable (order : Order D) status : gateExactPortableOrderStatus order = Ok status → In status portable_statuses.
Proof.
  unfold gateExactPortableOrderStatus. intros E.
  repeat match type of E with context [if ?b then _ else _] => destruct b end; simplify_eq;
    try (by eapply exactPortableOrderStatus_portable); unfold portable_statuses; simpl; tauto.
Qed.

#[local] Hint Resolve exactPortableOrderStatus_portable gate_status_portable : lookup.

Section sound.
Context (normalize : error → error) (product : string) (request : ExactOrderLookupRequest D) (instrument : Instrument D).
Context (Hreq : Request_Validate request = Ok tt) (Hins : lr_Instrument request = Some instrument).
Context (Hpro : id_Product (in_Identity instrument) = product).

Lemma check_row_symbol venue native row u : check_row venue product native request row = Ok u → rw_Symbol row = native.
Proof. unfold check_row. rewrite check_Ok, String.eqb_eq. by intros [? _]. Qed.

(** *** OKX *)

Definition okx_row (answer : reply (list order_row)) (i : Instrument D) (row : order_row) : Prop :=
  answer = Replied [row] ∧ rw_Symbol row = id_NativeSymbol (in_Identity i).

Lemma okx_answers text convert answer r (converted : Instrument D → order_row → Order D → Prop) :
  id_Venue (in_Identity instrument) = VenueOKX → (∀ row order, convert row = Ok order → converted instrument row order) →
  okxLookupExactOrder normalize text convert product instrument request answer = Ok r →
  answers VenueOKX product (λ _, answer = NoSuchOrder) (λ i, from_row i (okx_row answer i) (converted i)) request r.
Proof.
  intros Hven Hconv. unfold okxLookupExactOrder. destruct answer as [[|row [|]]| |e]; try done; [|by apply answers_not_found].
  intros ([] & Hrow%check_row_symbol & E)%bind_Ok. destruct (convert row) as [order|] eqn:Hc; [|done].
  destruct (exactPortableOrderStatus (or_Status order)) as [status|] eqn:Es; [|done].
  eapply answers_found; [done..| | |exact E].
  { case_match; cbn [or_Status with_status with_native_id]; eauto with lookup. }
  exists row, order. split; [done|]. split; [by apply Hconv|]. exists status. case_match eqn:He; [right|by left].
  split; [|done]. unfold is_empty in He. by apply String.eqb_eq in He.
Qed.

(** *** Bybit and Bitget *)

Lemma converted_answers venue absent (origin : Instrument D → Order D → Prop) orders r : id_Venue (in_Identity instrument) = venue →
  (∀ order o, orders = Ok [order] → restated instrument order o → of_instrument instrument o → origin instrument o) →
  converted_order venue product instrument request orders = Ok r → answers venue product absent origin request r.
Proof.
  intros Hven Horigin. unfold converted_order. destruct orders as [[|order [|]]|]; try done.
  destruct (exactPortableOrderStatus (or_Status order)) as [status|] eqn:Es; [|done].
  intros [Hi E]%check_Ok. rewrite andb_true_iff, !String.eqb_eq in Hi. eapply answers_found; [done..| | |exact E].
  - cbn [or_Status with_status]. eauto with lookup.
  - apply (Horigin order); [done| |done]. exists status. by left.
Qed.

Definition bybit_row (symbols : Instrument D → result error string) (realtime history : string → result error (list order_row)) (i : Instrument D)
    (row : order_row) : Prop :=
  symbols i = Ok (rw_Symbol row) ∧
  (realtime (rw_Symbol row) = Ok [row] ∨ realtime (rw_Symbol row) = Ok [] ∧ history (rw_Symbol row) = Ok [row]).

Lemma bybit_rows_answers convert native rows r absent (origin : Instrument D → Order D → Prop) : id_Venue (in_Identity instrument) = VenueBybit →
  (∀ row order o, rows = [row] → rw_Symbol row = native → convert [row] = Ok [order] → restated instrument order o → of_instrument instrument o →
     origin instrument o) →
  bybitExactLookupResultFromRows convert product request instrument native rows = Some (Ok r) →
  answers VenueBybit product absent origin request r.
Proof.
  intros Hven Horigin. unfold bybitExactLookupResultFromRows. destruct rows as [|row [|]]; try done.
  intros [= ([] & Hrow%check_row_symbol & E)%bind_Ok]. eapply converted_answers; [done| |exact E]. eauto.
Qed.

Lemma bybit_answers convert symbols realtime history ctx r : id_Venue (in_Identity instrument) = VenueBybit →
  exactLookupInstrument ctx request VenueBybit product = Ok instrument →
  bybit_LookupExactOrder normalize convert product ctx request symbols realtime history = Ok r →
  answers VenueBybit product (λ _, False)
    (λ i o, of_instrument i o ∧ from_row i (bybit_row symbols realtime history i) (λ row order, convert [row] = Ok [order]) o) request r.
Proof.
  intros Hven Hi. unfold bybit_LookupExactOrder. rewrite Hi. cbn [bind]. intros [_ (native & Hn & E)%bind_Ok]%check_Ok.
  destruct (realtime native) as [rows|] eqn:Hr; [|done].
  destruct (bybitExactLookupResultFromRows _ _ _ _ _ rows) as [out|] eqn:E1.
  { rewrite E in E1. eapply bybit_rows_answers; [done| |exact E1]. intros row order o -> <- Hc Ho Hof. split; [done|]. exists row, order.
    split; [|done]. split; [done|by left]. }
  destruct rows as [|? [|]]; [|done..].
  destruct (history native) as [rows|] eqn:Hh; [|done].
  destruct (bybitExactLookupResultFromRows _ _ _ _ _ rows) as [out|] eqn:E2; [|by eapply answers_unconfirmed].
  rewrite E in E2. eapply bybit_rows_answers; [done| |exact E2]. intros row order o -> <- Hc Ho Hof. split; [done|]. exists row, order.
  split; [|done]. split; [done|by right].
Qed.

Definition bitget_row (symbols : Instrument D → result error string) (get : string → result error (option order_row)) (i : Instrument D)
    (row : order_row) : Prop :=
  symbols i = Ok (rw_Symbol row) ∧ get (rw_Symbol row) = Ok (Some row).
Lemma bitget_answers convert symbols get ctx r : id_Venue (in_Identity instrument) = VenueBitget →
  exactLookupInstrument ctx request VenueBitget product = Ok instrument →
  bitget_LookupExactOrder normalize convert product ctx request symbols get = Ok r →
  answers VenueBitget product (λ _, False)
    (λ i o, of_instrument i o ∧ from_row i (bitget_row symbols get i) (λ row order, convert row = Ok [order]) o) request r.
Proof.
  intros Hven Hi. unfold bitget_LookupExactOrder. rewrite Hi. cbn [bind]. intros (native & Hn & E)%bind_Ok.
  destruct (get native) as [[row|]|] eqn:Hg; [|done..]. apply bind_Ok in E as ([] & <-%check_row_symbol & E).
  eapply converted_answers; [done| |exact E]. intros order o Hc Ho Hof. split; [done|]. by exists row, order.
Qed.

(** *** Lighter *)

(** The only row of the page with the requested identity; all are of the
    instrument's market. *)
Definition lighter_sent (meta : Instrument D → result error Z) (active inactive : Z → result error (option lighter_page)) (i : Instrument D)
    (row : lighter_row) : Prop :=
  ∃ page, meta i = Ok (lg_MarketIndex row) ∧ candidates request (lp_Orders page) = [row] ∧
    (active (lg_MarketIndex row) = Ok (Some page) ∨ inactive (lg_MarketIndex row) = Ok (Some page)).

Lemma lighter_rows convert marketID rows o :
  lighterExactOrderFromRows convert marketID rows request = Ok (Some o) →
  ∃ row order, candidates request rows = [row] ∧ lg_MarketIndex row = marketID ∧ convert row = Ok order ∧
    restated instrument order o ∧ In (or_Status o) portable_statuses.
Proof.
  unfold lighterExactOrderFromRows. intros ([row|] & Hs & E)%bind_Ok; [|done].
  apply bind_Ok in E as (order & Hc & (status & Es & [= <-])%bind_Ok).
  apply lighter_scan_unique in Hs as [Hall Hcand]. exists row, order. split_and!; try done.
  - assert (Hin : row ∈ candidates request rows) by (rewrite Hcand; by left). apply list_elem_of_filter in Hin as [_ Hin].
    apply list_elem_of_omap in Hin as (x & Hx & E). cbn in E. rewrite Forall_forall in Hall. destruct (Hall _ Hx) as (l & El & Hm). congruence.
  - exists status. by left.
  - cbn [or_Status with_status]. eauto with lookup.
Qed.

Lemma lighter_answers text convert meta active inactive ctx r : id_Venue (in_Identity instrument) = VenueLighter →
  exactLookupInstrument ctx request VenueLighter product = Ok instrument →
  lighterLookupExactOrder normalize text convert product ctx request meta active inactive = Ok r →
  answers VenueLighter product (λ _, False)
    (λ i, from_row i (lighter_sent meta active inactive i) (λ row order, convert row = Ok order)) request r.
Proof.
  intros Hven Hi. unfold lighterLookupExactOrder. rewrite Hi. cbn [bind]. intros (market & Hm & E)%bind_Ok.
  destruct (active market) as [[page|]|] eqn:Ha; [|done..]. destruct (negb _); [done|].
  destruct (lighterExactOrderFromRows _ _ (lp_Orders page) _) as [[o|]|] eqn:Eo; [| |done].
  { destruct (lighter_rows _ _ _ _ Eo) as (row & order & Hc & <- & Hconv & Hr & Hst). eapply answers_found; [done..| |exact E].
    exists row, order. split; [|done]. exists page. auto. }
  destruct (inactive market) as [[page'|]|] eqn:Hia; [|done..]. destruct (negb _); [done|].
  destruct (lighterExactOrderFromRows _ _ (lp_Orders page') _) as [[o|]|] eqn:Eo'; [|by eapply answers_unconfirmed|done].
  destruct (lighter_rows _ _ _ _ Eo') as (row & order & Hc & <- & Hconv & Hr & Hst). eapply answers_found; [done..| |exact E].
  exists row, order. split; [|done]. exists page'. auto.
Qed.

(** *** Gate *)

Definition gate_sent {R} (native_of : Instrument D → result error string) (get : string → string → reply (option R)) (row_symbol : R → string)
    (i : Instrument D) (row : R) : Prop :=
  native_of i = Ok (row_symbol row) ∧ get (gateExactLookupOrderID request) (row_symbol row) = Replied (Some row).

Lemma gate_found_answers order r absent (origin : Instrument D → Order D → Prop) : id_Venue (in_Identity instrument) = VenueGate →
  (∀ o, restated instrument order o → of_instrument instrument o → origin instrument o) →
  gateExactLookupFound product request instrument order = Ok r → answers VenueGate product absent origin request r.
Proof.
  intros Hven Horigin. unfold gateExactLookupFound. destruct (gateExactPortableOrderStatus order) as [status|] eqn:Es; [|done].
  intros ([] & _ & [Hi E]%check_Ok)%bind_Ok. rewrite andb_true_iff, !String.eqb_eq in Hi. eapply answers_found; [done..| | |exact E].
  - cbn [or_Status with_status]. eauto with lookup.
  - apply Horigin; [|done]. exists status. by left.
Qed.

Lemma gate_answers {R} native_of prepare get validate row_symbol convert ctx r : id_Venue (in_Identity instrument) = VenueGate →
  exactLookupInstrument ctx request VenueGate product = Ok instrument →
  gate_LookupExactOrder (R:=R) normalize product ctx request native_of prepare get validate row_symbol convert = Ok r →
  answers VenueGate product (λ i, ∃ native, native_of i = Ok native ∧ get (gateExactLookupOrderID request) native = NoSuchOrder)
    (λ i o, of_instrument i o ∧ from_row i (gate_sent native_of get row_symbol i)
       (λ row order, validate row = Ok tt ∧ ∃ multiplier, prepare i = Ok multiplier ∧ order = convert row i multiplier) o) request r.
Proof.
  intros Hven Hi. unfold gate_LookupExactOrder. rewrite Hi. cbn [bind]. intros (native & Hn & E)%bind_Ok. apply bind_Ok in E as (multiplier & Hp & E).
  destruct (get _ native) as [[row|]| |] eqn:Eg; [| |by eapply answers_not_found; eauto|done]; [|done].
  apply bind_Ok in E as ([] & Hv & [Hs E]%check_Ok). apply String.eqb_eq in Hs as <-.
  eapply gate_found_answers; [done| |exact E]. intros o Ho Hof. split; [done|]. exists row, (convert row instrument multiplier).
  split_and!; [done..|by exists multiplier|done].
Qed.

(** *** Hyperliquid *)

(** The venue's reply to the request, by the identity it carries. *)
Definition hl_replied {R} (by_client : string → reply (option R)) (by_id : Z → reply (option R)) (answer : reply (option R)) : Prop :=
  (lr_ClientOrderID request ≠ "" ∧ by_client (hlNativeClientOrderID (lr_ClientOrderID request)) = answer) ∨
  (lr_ClientOrderID request = "" ∧ ∃ n, ParseInt (lr_VenueOrderID request) = Some n ∧ 0 < n ∧ by_id n = answer).

Lemma hyperliquid_answers {R} meta by_client by_id coin historical ctx r : id_Venue (in_Identity instrument) = VenueHyperliquid →
  exactLookupInstrument ctx request VenueHyperliquid product = Ok instrument →
  hyperliquid_LookupExactOrder (R:=R) normalize product ctx request meta by_client by_id coin historical = Ok r →
  answers VenueHyperliquid product (λ _, hl_replied by_client by_id NoSuchOrder)
    (λ i, from_row i (λ row, meta i = Ok (coin row) ∧ hl_replied by_client by_id (Replied (Some row))) (λ row order, historical row = Ok order)) request r.
Proof.
  intros Hven Hi. unfold hyperliquid_LookupExactOrder. rewrite Hi. cbn [bind]. intros (native & Hn & E)%bind_Ok. apply bind_Ok in E as (answer & Ha & E).
  assert (Hrep : hl_replied by_client by_id answer).
  { unfold hl_replied, is_empty in *. destruct (String.eqb_spec (lr_ClientOrderID request) "") as [Hc|Hc]; cbn [negb] in Ha; [right|left; split; congruence].
    split; [done|]. unfold exactLookupPositiveInt64 in Ha. destruct (ParseInt (lr_VenueOrderID request)) as [n|]; [|done].
    destruct (Z.ltb_spec 0 n); simplify_eq. eauto. }
  destruct answer as [[info|]| |]; [|done|by eapply answers_not_found|done].
  destruct (hlExactOrder _ _ _ _) as [o|] eqn:Eo; [|done]. unfold hlExactOrder in Eo.
  apply check_Ok in Eo as [<-%String.eqb_eq (order & Hh & (status & Es & [= <-])%bind_Ok)%bind_Ok].
  eapply answers_found; [done..| | |exact E]; [cbn [or_Status with_status]; eauto with lookup|].
  exists info, order. split_and!; [done..|]. exists status. by left.
Qed.
End sound.
End promise.
