(* ===== verification/Credentials.v ===== *)
(** * Credential bundles

    [credential/bundle.go], [registry.go], [schema.go] and the bundling of
    [gateway/account/manager.go]: the credential fields an operator types in,
    the JSON envelope they are stored in, and its strict decoding.  JSON text is
    represented by the tree it denotes; [JsonText] is the printing and parsing
    of [encoding/json]. *)

From Stdlib Require Import Ascii String DecimalString ZArith Lia SpecFloat.
From stdpp Require Import base list strings gmap countable.
From S2P Require Import Prelude GoStrings Errors Model Venue MarketCatalog HttpErrors Orders.

#[local] Open Scope string_scope.
#[local] Open Scope list_scope.
#[local] Open Scope Z_scope.
#[local] Open Scope go_scope.

(** ** JSON *)

(** Members keep their order and may repeat; a number is its literal. *)
Inductive json :=
| JNull | JBool (b : bool) | JNumber (text : string) | JString (s : string)
| JArray (items : list json) | JObject (members : list (string * json)).

(** The bytes are valid UTF-8: decoding to runes replaces nothing. *)
Definition valid_utf8 (s : string) : bool := String.eqb (Join "" (runes s)) s.
Fixpoint json_clean (v : json) : bool :=
  match v with
  | JString s => valid_utf8 s
  | JArray items => forallb json_clean items
  | JObject members => forallb (λ m, valid_utf8 m.1 && json_clean m.2) members
  | _ => true
  end.

(** [json.Marshal] of a tree, and the parse of a text that is exactly one JSON
    value. *)
Class JsonText := { json_marshal : json → string; json_parse : string → option json }.
Class JsonLaws `{JsonText} : Prop := {
  json_parse_marshal : ∀ v, json_clean v = true → json_parse (json_marshal v) = Some v;
}.

(** ** Decoding into a struct *)

(** [foldName] of encoding/json: letter case is ignored, and the Kelvin sign
    and the long s are the letters k and s. *)
Fixpoint fold_name (fuel : nat) (s : string) : string :=
  match fuel with
  | O => ""
  | S fuel' =>
      match s with
      | "" => ""
      | String c rest =>
          if HasPrefix s (String (byte 226) (String (byte 132) (String (byte 170) ""))) then String "K" (fold_name fuel' (drop_string 3 s))
          else if HasPrefix s (String (byte 197) (String (byte 191) "")) then String "S" (fold_name fuel' (drop_string 2 s))
          else String (upper_byte c) (fold_name fuel' rest)
      end
  end.
Definition same_fold (a b : string) : bool := String.eqb (fold_name (String.length a) a) (fold_name (String.length b) b).

(** The type of a struct field. *)
Inductive field_type := FString | FInt | FUint8 | FBool | FRaw.
(** A value stored in a field: [None] is a type error, [Some None] leaves the
    field alone. *)
Definition store_value (t : field_type) (v : json) : option (option json) :=
  match t, v with
  | FRaw, _ => Some (Some v)
  | _, JNull => Some None
  | FString, JString _ | FBool, JBool _ => Some (Some v)
  | FInt, JNumber text => match ParseInt text with Some _ => Some (Some v) | None => None end
  | FUint8, JNumber text => match ParseUint text 8 with Some _ => Some (Some v) | None => None end
  | _, _ => None
  end.
Definition find_field (fields : list (string * field_type)) (key : string) : option (string * field_type) :=
  match List.find (λ f, String.eqb f.1 key) fields with
  | Some f => Some f
  | None => List.find (λ f, same_fold f.1 key) fields
  end.
Fixpoint decode_members (fields : list (string * field_type)) (members : list (string * json)) (acc : gmap string json) : option (gmap string json) :=
  match members with
  | [] => Some acc
  | (key, v) :: rest =>
      '(name, t) ← find_field fields key;
      stored ← store_value t v;
      decode_members fields rest (match stored with Some v => <[name := v]> acc | None => acc end)
  end.
(** [decodeStrict] into a struct with these fields *)
Definition decodeStrict (fields : list (string * field_type)) (v : json) : option (gmap string json) :=
  match v with
  | JObject members => decode_members fields members ∅
  | JNull => Some ∅
  | _ => None
  end.
(** [json.Unmarshal] into a struct with these fields: a key the struct does not
    have is ignored. *)
Definition known_member (fields : list (string * field_type)) (member : string * json) : bool :=
  match find_field fields member.1 with Some _ => true | None => false end.
Definition unmarshal (fields : list (string * field_type)) (v : json) : option (gmap string json) :=
  match v with
  | JObject members => decode_members fields (List.filter (known_member fields) members) ∅
  | JNull => Some ∅
  | _ => None
  end.
Definition text_of (m : gmap string json) (name : string) : string :=
  match m !! name with Some (JString s) => s | _ => "" end.
Definition bool_of (m : gmap string json) (name : string) : bool :=
  match m !! name with Some (JBool b) => b | _ => false end.
Definition int_of (m : gmap string json) (name : string) : Z :=
  match m !! name with Some (JNumber text) => default 0 (ParseInt text) | _ => 0 end.

(** ** Bundles *)

Inductive AuthKind := AuthAPIKeySecret | AuthAPIKeySecretPassphrase | AuthLighterSigner | AuthEVMPrivateKey | AuthAsterAPIWallet | AuthNadoSigner.
#[export] Instance AuthKind_eq_dec : EqDecision AuthKind.
Proof. solve_decision. Defined.
Definition auth_string (k : AuthKind) : string :=
  match k with
  | AuthAPIKeySecret => "api_key_secret" | AuthAPIKeySecretPassphrase => "api_key_secret_passphrase"
  | AuthLighterSigner => "lighter_signer" | AuthEVMPrivateKey => "evm_private_key"
  | AuthAsterAPIWallet => "aster_api_wallet" | AuthNadoSigner => "nado_signer"
  end.

Inductive Credentials :=
| APIKeySecret (APIKey APISecret : string)
| APIKeySecretPassphrase (APIKey APISecret Passphrase : string)
| LighterSigner (PrivateKey : string) (AccountIndex KeyIndex : Z)
| EVMPrivateKey (PrivateKey AccountAddress : string)
| AsterAPIWallet (APIWalletPrivateKey UserAddress ExpectedSigner : string)
| NadoSigner (PrivateKey Subaccount : string).
Record Decoded := mkDecoded { dc_Venue : string; dc_AuthKind : AuthKind; dc_Credentials : Credentials }.

Definition maxBundleBytes : Z := 32 * 1024.
Definition maxStringBytes : Z := 8 * 1024.
Definition defaultAuthKinds : gmap string AuthKind := list_to_map
  [("binance", AuthAPIKeySecret); ("bybit", AuthAPIKeySecret); ("gate", AuthAPIKeySecret); ("okx", AuthAPIKeySecretPassphrase);
   ("bitget", AuthAPIKeySecretPassphrase); ("lighter", AuthLighterSigner); ("hyperliquid", AuthEVMPrivateKey);
   ("aster", AuthAsterAPIWallet); ("nado", AuthNadoSigner)].
Definition invalidBundle (reason : string) : error := EWrap ("invalid credential bundle: " +:+ reason) [ESentinel InvalidBundle].

(** [validateJSONShape] *)
Definition short (s : string) : bool := Z.of_nat (String.length s) <=? maxStringBytes.
Fixpoint distinct_keys (seen : list string) (keys : list string) : bool :=
  match keys with
  | [] => true
  | key :: rest => negb (one_of key seen) && distinct_keys (key :: seen) rest
  end.
Fixpoint scanJSONValue (v : json) : bool :=
  match v with
  | JString s => short s
  | JArray items => forallb scanJSONValue items
  | JObject members => distinct_keys [] (map fst members) && forallb (λ m, short m.1 && scanJSONValue m.2) members
  | _ => true
  end.

(** [decodeNested]: the raw text must be an object *)
Definition decodeNested (fields : list (string * field_type)) (raw : option json) : option (gmap string json) :=
  match raw with
  | Some (JObject members) => decodeStrict fields (JObject members)
  | _ => None
  end.

(** [hex.DecodeString] *)
Fixpoint hex_decode (s : string) : option (list Z) :=
  match s with
  | "" => Some []
  | String c (String d rest) => h ← hex_digit c; l ← hex_digit d; octets ← hex_decode rest; Some (16 * h + l :: octets)
  | _ => None
  end.
Definition validateEVMAddress (value : string) : bool :=
  (String.length value =? 42)%nat && HasPrefix value "0x" &&
  match hex_decode (drop_string 2 value) with
  | Some octets => (length octets =? 20)%nat && existsb (λ b, negb (b =? 0)) octets
  | None => false
  end.

Definition decodeCredentials (kind : AuthKind) (metadata secrets : option json) : option Credentials :=
  match kind with
  | AuthAPIKeySecret =>
      _ ← decodeNested [] metadata;
      secret ← decodeNested [("apiKey", FString); ("apiSecret", FString)] secrets;
      if is_empty (text_of secret "apiKey") || is_empty (text_of secret "apiSecret") then None
      else Some (APIKeySecret (text_of secret "apiKey") (text_of secret "apiSecret"))
  | AuthAPIKeySecretPassphrase =>
      _ ← decodeNested [] metadata;
      secret ← decodeNested [("apiKey", FString); ("apiSecret", FString); ("passphrase", FString)] secrets;
      if is_empty (text_of secret "apiKey") || is_empty (text_of secret "apiSecret") || is_empty (text_of secret "passphrase") then None
      else Some (APIKeySecretPassphrase (text_of secret "apiKey") (text_of secret "apiSecret") (text_of secret "passphrase"))
  | AuthLighterSigner =>
      meta ← decodeNested [("accountIndex", FInt); ("keyIndex", FUint8)] metadata;
      secret ← decodeNested [("privateKey", FString)] secrets;
      if (int_of meta "accountIndex" <? 0) || is_empty (text_of secret "privateKey") then None
      else Some (LighterSigner (text_of secret "privateKey") (int_of meta "accountIndex") (int_of meta "keyIndex"))
  | AuthEVMPrivateKey =>
      meta ← decodeNested [("accountAddress", FString)] metadata;
      secret ← decodeNested [("privateKey", FString)] secrets;
      let address := text_of meta "accountAddress" in
      if is_empty (text_of secret "privateKey") || (negb (is_empty address) && negb (validateEVMAddress address)) then None
      else Some (EVMPrivateKey (text_of secret "privateKey") address)
  | AuthAsterAPIWallet =>
      meta ← decodeNested [("userAddress", FString); ("expectedSigner", FString)] metadata;
      secret ← decodeNested [("apiWalletPrivateKey", FString)] secrets;
      let signer := text_of meta "expectedSigner" in
      if is_empty (text_of secret "apiWalletPrivateKey") || negb (validateEVMAddress (text_of meta "userAddress")) ||
         (negb (is_empty signer) && negb (validateEVMAddress signer)) then None
      else Some (AsterAPIWallet (text_of secret "apiWalletPrivateKey") (text_of meta "userAddress") signer)
  | AuthNadoSigner =>
      meta ← decodeNested [("subaccount", FString)] metadata;
      secret ← decodeNested [("privateKey", FString)] secrets;
      let subaccount := text_of meta "subaccount" in
      if is_empty (TrimSpace subaccount) || negb (String.eqb subaccount (TrimSpace subaccount)) || is_empty (text_of secret "privateKey") then None
      else Some (NadoSigner (text_of secret "privateKey") subaccount)
  end.

Definition envelope_fields : list (string * field_type) :=
  [("schemaVersion", FInt); ("venue", FString); ("authKind", FString); ("metadata", FRaw); ("secrets", FRaw)].

(** ** Fields *)

Record Field := mkField { fd_Key : string; fd_Label : string; fd_Metadata : bool; fd_Required : bool; fd_ValueType : string }.
Record Schema := mkSchema { sm_SchemaVersion : Z; sm_AuthKind : string; sm_Fields : list Field }.

Definition schemaFields (kind : AuthKind) : list Field :=
  match kind with
  | AuthAPIKeySecret => [mkField "apiKey" "API key" false true "string"; mkField "apiSecret" "API secret" false true "string"]
  | AuthAPIKeySecretPassphrase =>
      [mkField "apiKey" "API key" false true "string"; mkField "apiSecret" "API secret" false true "string";
       mkField "passphrase" "Passphrase" false true "string"]
  | AuthLighterSigner =>
      [mkField "accountIndex" "Account index" true true "integer"; mkField "keyIndex" "Key index" true true "integer";
       mkField "privateKey" "Private key" false true "string"]
  | AuthEVMPrivateKey =>
      [mkField "accountAddress" "Account address" true false "string"; mkField "privateKey" "Private key" false true "string"]
  | AuthAsterAPIWallet =>
      [mkField "userAddress" "User address" true true "string"; mkField "expectedSigner" "Expected signer" true false "string";
       mkField "apiWalletPrivateKey" "API wallet private key" false true "string"]
  | AuthNadoSigner =>
      [mkField "subaccount" "Subaccount" true true "string"; mkField "privateKey" "Private key" false true "string"]
  end.
(** [Registry.Schema] *)
Definition Registry_Schema (registry : option (gmap string AuthKind)) (venue : string) : result error Schema :=
  match registry ≫= (.!! venue) with
  | None => Err (invalidBundle "unknown venue")
  | Some kind => Ok (mkSchema 1 (auth_string kind) (schemaFields kind))
  end.

(** ** Numbers of a request *)

Definition float64 := spec_float.
(** [float64(n)] of an int64 *)
Definition float_of_int64 (n : Z) : float64 := binary_normalize 53 1024 n 0 false.
(** [int64(f)]: truncation; outside the range the language leaves the result to
    the implementation *)
Definition truncated (f : float64) : option Z :=
  match f with
  | S754_zero _ => Some 0
  | S754_finite s m e =>
      let n := if 0 <=? e then Zpos m * 2 ^ e else Zpos m / 2 ^ (- e) in
      Some (if s then - n else n)
  | _ => None
  end.
Definition int64_of_float (implementation : float64 → Z) (f : float64) : Z :=
  match truncated f with
  | Some n => if (int64_min <=? n) && (n <=? int64_max) then n else implementation f
  | None => implementation f
  end.

(** [underscoreOK] of strconv, on the digits after the sign; [last] is the
    class of the byte before: start, digit, underscore or other. *)
Inductive byte_class := ClassStart | ClassDigit | ClassUnderscore | ClassOther.
Fixpoint underscores_ok (hex : bool) (last : byte_class) (s : string) : bool :=
  match s with
  | "" => match last with ClassUnderscore => false | _ => true end
  | String c rest =>
      if is_digit c || (hex && in_range "a" "f" (lower_byte c)) then underscores_ok hex ClassDigit rest
      else if Ascii.eqb c "_" then match last with ClassDigit => underscores_ok hex ClassUnderscore rest | _ => false end
      else match last with ClassUnderscore => false | _ => underscores_ok hex ClassOther rest end
  end.
(** The base prefix of a literal: the base and how many bytes it takes. *)
Definition base_prefix (s : string) : Z * nat :=
  match s with
  | String "0" (String c (String _ _)) =>
      if Ascii.eqb (lower_byte c) "b" then (2, 2%nat)
      else if Ascii.eqb (lower_byte c) "o" then (8, 2%nat)
      else if Ascii.eqb (lower_byte c) "x" then (16, 2%nat)
      else (8, 1%nat)
  | String "0" _ => (8, 1%nat)
  | _ => (10, 0%nat)
  end.
Fixpoint digits_value (base acc : Z) (s : string) : option Z :=
  match s with
  | "" => Some acc
  | String c rest =>
      if Ascii.eqb c "_" then digits_value base acc rest
      else
        let digit := if is_digit c then Some (code c - code "0")
                     else if in_range "a" "z" (lower_byte c) then Some (code (lower_byte c) - code "a" + 10) else None in
        match digit with
        | Some d => if d <? base then digits_value base (base * acc + d) rest else None
        | None => None
        end
  end.
(** [strconv.ParseUint(s, 0, 64)] *)
Definition ParseUint0 (s : string) : option Z :=
  match s with
  | "" => None
  | _ =>
      let (base, skip) := base_prefix s in
      n ← digits_value base 0 (drop_string skip s);
      let marked := match s with String "0" (String c _) => one_of (String (lower_byte c) "") ["b"; "o"; "x"] | _ => false end in
      if (n <? 2 ^ 64) &&
         underscores_ok (marked && (base =? 16)) (if marked then ClassDigit else ClassStart) (if marked then drop_string 2 s else s)
      then Some n else None
  end.
Definition ParseInt0 (s : string) : option Z :=
  match s with
  | String "-" s' => n ← ParseUint0 s'; if n <=? 2 ^ 63 then Some (- n) else None
  | String "+" s' => n ← ParseUint0 s'; if n <? 2 ^ 63 then Some n else None
  | _ => n ← ParseUint0 s; if n <? 2 ^ 63 then Some n else None
  end.

(** The longest prefix of bytes that satisfy [f]. *)
Fixpoint span (f : ascii → bool) (s : string) : string :=
  match s with
  | String c rest => if f c then String c (span f rest) else ""
  | "" => ""
  end.
Definition byte_in (set : string) (c : ascii) : bool := negb (no_byte c set).
(** [fmt.Sscan(text, &number)] of an int64: the longest prefix that looks like a
    number; what follows it is not read. *)
Definition Sscan_int64 (text : string) : option Z :=
  let s := trim_left (String.length text) text in
  let (sign, s) := match s with
    | String "-" s' => ("-", s') | String "+" s' => ("+", s') | _ => ("", s) end in
  match s with
  | String "0" rest =>
      let token :=
        match rest with
        | String c rest' =>
            if one_of (String c "") ["b"; "B"] then "0" +:+ String c (span (byte_in "01_") rest')
            else if one_of (String c "") ["o"; "O"] then "0" +:+ String c (span (byte_in "01234567_") rest')
            else if one_of (String c "") ["x"; "X"] then "0" +:+ String c (span (byte_in "0123456789aAbBcCdDeEfF_") rest')
            else "0" +:+ span (byte_in "01234567_") rest
        | "" => "0"
        end in
      ParseInt0 (sign +:+ token)
  | _ =>
      let digits := span (byte_in "0123456789_") s in
      if String.eqb digits "" then None else ParseInt0 (sign +:+ digits)
  end.

Example Sscan_ex : Sscan_int64 " 42" = Some 42 ∧ Sscan_int64 "12abc" = Some 12 ∧ Sscan_int64 "010" = Some 8 ∧
  Sscan_int64 "-0x1F" = Some (-31) ∧ Sscan_int64 "1_000" = Some 1000 ∧ Sscan_int64 "1_" = None ∧ Sscan_int64 "x" = None ∧
  Sscan_int64 "9223372036854775808" = None.
Proof. vm_compute. split_and!; reflexivity. Qed.

(** ** Bundling the fields of a request *)

(** A decoded JSON value of type [any]. *)
Inductive any :=
| AnyNil | AnyBool (b : bool) | AnyString (s : string) | AnyFloat (f : float64) | AnyNumber (text : string)
| AnySlice (items : list json) | AnyMap (members : list (string * json)).

Section bundling.
(** [int64(f)] outside the range, and the literal [json.Marshal] writes for a
    float. *)
Context (implementation : float64 → Z) (float_text : float64 → string).

Definition toInteger (value : any) : option Z :=
  match value with
  | AnyFloat f =>
      let n := int64_of_float implementation f in
      if SFeqb f (float_of_int64 n) then Some n else None
  | AnyString s => Sscan_int64 s
  | AnyNumber text => ParseInt text
  | _ => None
  end.
Definition any_json (value : any) : json :=
  match value with
  | AnyNil => JNull | AnyBool b => JBool b | AnyString s => JString s | AnyFloat f => JNumber (float_text f)
  | AnyNumber text => JNumber text | AnySlice items => JArray items | AnyMap members => JObject members
  end.

(** The value of one schema field: missing, refused, or the JSON it stores. *)
Definition field_value (field : Field) (fields : gmap string any) : result error (option json) :=
  let value := fields !! fd_Key field in
  let present := match value with Some (AnyString text) => negb (is_empty text) | Some _ => true | None => false end in
  if negb present then
    if fd_Required field then Err (account_invalid (fd_Label field +:+ " is required")) else Ok None
  else
    let value := match value with Some (AnyString text) => AnyString (TrimSpace text) | Some v => v | None => AnyNil end in
    if String.eqb (fd_ValueType field) "integer" then
      match toInteger value with
      | Some number => Ok (Some (JNumber (FormatInt number)))
      | None => Err (account_invalid (fd_Label field +:+ " must be an integer"))
      end
    else Ok (Some (any_json value)).
Fixpoint split_fields (schema : list Field) (fields : gmap string any) (metadata secrets : gmap string json) :
    result error (gmap string json * gmap string json) :=
  match schema with
  | [] => Ok (metadata, secrets)
  | field :: rest =>
      value <-? field_value field fields ;;
      match value with
      | None => split_fields rest fields metadata secrets
      | Some v =>
          if fd_Metadata field then split_fields rest fields (<[fd_Key field := v]> metadata) secrets
          else split_fields rest fields metadata (<[fd_Key field := v]> secrets)
      end
  end.
(** [json.Marshal] of a map: the members in the order of their keys *)
Definition object_of (m : gmap string json) : json := JObject (sort_slice (λ a b, str_lt a.1 b.1) (map_to_list m)).

(** [Manager.bundle], as the tree that is marshalled; [order] is the order in
    which the request's keys are visited, and the quotes around an unknown key
    are left out *)
Definition bundle_tree (registry : option (gmap string AuthKind)) (venueName : string) (fields : gmap string any) (order : list string) :
    result error json :=
  match Registry_Schema registry venueName with
  | Err _ => Err (account_invalid "unsupported venue")
  | Ok schema =>
      parts <-? split_fields (sm_Fields schema) fields ∅ ∅ ;;
      match List.find (λ key, negb (one_of key (map fd_Key (sm_Fields schema)))) order with
      | Some key => Err (account_invalid ("unknown credential field " +:+ key))
      | None =>
          Ok (JObject [("schemaVersion", JNumber "1"); ("venue", JString venueName); ("authKind", JString (sm_AuthKind schema));
                       ("metadata", object_of parts.1); ("secrets", object_of parts.2)])
      end
  end.
End bundling.

Section text.
Context `{JsonText}.

(** [Registry.Decode]; a nil registry is [None] *)
Definition Decode (registry : option (gmap string AuthKind)) (venue payload : string) : result error Decoded :=
  match registry with
  | None => Err (invalidBundle "body size")
  | Some authKinds =>
      check negb (is_empty payload) && (Z.of_nat (String.length payload) <=? maxBundleBytes) else invalidBundle "body size" ;;
      match json_parse payload with
      | None => Err (invalidBundle "json shape")
      | Some tree =>
          check scanJSONValue tree else invalidBundle "json shape" ;;
          match decodeStrict envelope_fields tree with
          | None => Err (invalidBundle "envelope")
          | Some bundle =>
              let normalizedVenue := ToLower (TrimSpace venue) in
              match authKinds !! normalizedVenue with
              | None => Err (invalidBundle "identity")
              | Some kind =>
                  check String.eqb venue normalizedVenue && String.eqb (text_of bundle "venue") normalizedVenue &&
                        (int_of bundle "schemaVersion" =? 1) && String.eqb (text_of bundle "authKind") (auth_string kind)
                    else invalidBundle "identity" ;;
                  match decodeCredentials kind (bundle !! "metadata") (bundle !! "secrets") with
                  | None => Err (invalidBundle "credentials")
                  | Some credentials => Ok (mkDecoded normalizedVenue kind credentials)
                  end
              end
          end
      end
  end.
End text.

(** ** Decoding accepts only complete credentials of the venue *)

Definition kind_of (c : Credentials) : AuthKind :=
  match c with
  | APIKeySecret _ _ => AuthAPIKeySecret | APIKeySecretPassphrase _ _ _ => AuthAPIKeySecretPassphrase
  | LighterSigner _ _ _ => AuthLighterSigner | EVMPrivateKey _ _ => AuthEVMPrivateKey
  | AsterAPIWallet _ _ _ => AuthAsterAPIWallet | NadoSigner _ _ => AuthNadoSigner
  end.
Definition optional_address (a : string) : Prop := a = "" ∨ validateEVMAddress a = true.
(** The texts a client needs are present, addresses and numbers well formed. *)
Definition complete (c : Credentials) : Prop :=
  match c with
  | APIKeySecret key secret => key ≠ "" ∧ secret ≠ ""
  | APIKeySecretPassphrase key secret passphrase => key ≠ "" ∧ secret ≠ "" ∧ passphrase ≠ ""
  | LighterSigner key account index => key ≠ "" ∧ 0 ≤ account ≤ int64_max ∧ 0 ≤ index < 256
  | EVMPrivateKey key address => key ≠ "" ∧ optional_address address
  | AsterAPIWallet key user signer => key ≠ "" ∧ validateEVMAddress user = true ∧ optional_address signer
  | NadoSigner key subaccount => key ≠ "" ∧ subaccount ≠ "" ∧ TrimSpace subaccount = subaccount
  end.

Lemma is_empty_false s : is_empty s = false ↔ s ≠ "".
Proof. unfold is_empty. by destruct (String.eqb_spec s ""). Qed.
Lemma is_empty_true s : is_empty s = true ↔ s = "".
Proof. unfold is_empty. by destruct (String.eqb_spec s ""). Qed.

(** What a decoded struct holds in a field of a given type. *)
Lemma decode_members_typed fields members acc m name v :
  decode_members fields members acc = Some m → m !! name = Some v →
  acc !! name = Some v ∨ ∃ key t, find_field fields key = Some (name, t) ∧ store_value t v = Some (Some v).
Proof.
  revert acc. induction members as [|[key w] members IH]; intros acc; cbn [decode_members].
  { intros [= <-]. auto. }
  destruct (find_field fields key) as [[n t]|] eqn:Ef; [|done]. cbn [mbind option_bind].
  destruct (store_value t w) as [stored|] eqn:Es; [|done]. cbn [mbind option_bind]. intros Hd Hm.
  destruct (IH _ Hd Hm) as [Ha|Hk]; [|by right]. destruct stored as [w'|]; [|by left].
  apply lookup_insert_Some in Ha as [[<- <-]|[_ Ha]]; [|by left]. right. exists key, t. split; [done|].
  destruct t, w; simpl in Es; repeat case_match; simplify_eq; simpl; by repeat case_match; simplify_eq.
Qed.

Lemma find_field_named fields key f : find_field fields key = Some f → f ∈ fields.
Proof.
  unfold find_field. destruct (List.find _ fields) as [g|] eqn:E.
  - intros [= <-]. apply List.find_some in E as [Hin _]. by apply list_elem_of_In.
  - intros E'. apply List.find_some in E' as [Hin _]. by apply list_elem_of_In.
Qed.

Lemma ParseInt_unsigned s bits n : 0 ≤ bits < 64 → ParseUint s bits = Some n → ParseInt s = Some n ∧ 0 ≤ n < 2 ^ bits.
Proof.
  intros Hb Hp. pose proof (ParseUint_nonneg _ _ _ Hp) as Hn. pose proof (ParseUint_digits _ _ _ Hp) as Hd.
  assert (Hlt : n < 2 ^ bits).
  { unfold ParseUint in Hp. destruct s; [done|]. destruct (NilEmpty.uint_of_string _) as [u|]; cbn [mbind option_bind] in Hp; [|done].
    destruct (Z.ltb_spec (Z.of_N (N.of_uint u)) (2 ^ bits)); [|done]. by injection Hp as <-. }
  split; [|lia]. apply (ParseUint_mono _ bits 64) in Hp; [|lia].
  assert (Hlt' : n < 2 ^ 63) by (pose proof (Z.pow_le_mono_r 2 bits 63); lia).
  destruct s as [|c s]; [done|]. simpl in Hd. apply andb_true_iff in Hd as [Hc _].
  assert (Hr : (m ← ParseUint (String c s) 64; if m <? 2 ^ 63 then Some m else None) = Some n).
  { rewrite Hp. simpl. by rewrite (proj2 (Z.ltb_lt n (2 ^ 63))) by lia. }
  unfold ParseInt. destruct c as [[] [] [] [] [] [] [] []]; first [exact Hr|vm_compute in Hc; discriminate].
Qed.

Lemma decodeNested_typed fields raw m name v : decodeNested fields raw = Some m → m !! name = Some v →
  ∃ t, (name, t) ∈ fields ∧ store_value t v = Some (Some v).
Proof.
  unfold decodeNested. destruct raw as [[| | | | |members]|]; try done. cbn [decodeStrict]. intros Hd Hm.
  destruct (decode_members_typed _ _ _ _ _ _ Hd Hm) as [Ha|(key & t & Hf & Hs)]; [by rewrite lookup_empty in Ha|].
  exists t. split; [|done]. by eapply find_field_named.
Qed.

Lemma lighter_numbers raw m : decodeNested [("accountIndex", FInt); ("keyIndex", FUint8)] raw = Some m →
  int_of m "accountIndex" ≤ int64_max ∧ 0 ≤ int_of m "keyIndex" < 256.
Proof.
  intros Hd. split.
  - unfold int_of. destruct (m !! "accountIndex") as [[]|]; try (unfold int64_max; lia).
    destruct (ParseInt text) as [n|] eqn:E; simpl; [apply ParseInt_range in E; lia|unfold int64_max; lia].
  - unfold int_of. destruct (m !! "keyIndex") as [v|] eqn:E; [|lia].
    destruct (decodeNested_typed _ _ _ _ _ Hd E) as (t & Hin & Hs).
    apply list_elem_of_In in Hin. simpl in Hin. destruct Hin as [Hin|[Hin|[]]]; [done|].
    injection Hin as <-. destruct v; simpl in Hs; try done.
    destruct (ParseUint text 8) as [n|] eqn:Ep; [|done].
    destruct (ParseInt_unsigned _ 8 _ ltac:(lia) Ep) as [-> Hn]. simpl. lia.
Qed.

Ltac split_guard := repeat match goal with
  | H : context [if ?b then None else _] |- _ => destruct b eqn:?; [discriminate H|]
  | H : _ || _ = false |- _ => apply orb_false_iff in H as [??]
  | H : is_empty _ = false |- _ => apply is_empty_false in H
  | H : negb _ = false |- _ => apply negb_false_iff in H
  end.

Lemma optional_address_iff a : negb (is_empty a) && negb (validateEVMAddress a) = false → optional_address a.
Proof.
  unfold optional_address. intros [E|E]%andb_false_iff; apply negb_false_iff in E; [left|by right]. by apply is_empty_true.
Qed.

Lemma decodeCredentials_complete kind metadata secrets c :
  decodeCredentials kind metadata secrets = Some c → kind_of c = kind ∧ complete c.
Proof.
  unfold decodeCredentials. destruct kind; intros E.
  all: apply bind_Some in E as (meta & Hm & E); apply bind_Some in E as (secret & Hs & E); cbv zeta in E; split_guard;
       injection E as <-; (split; [done|]); simpl.
  - done.
  - done.
  - apply lighter_numbers in Hm. rewrite Z.ltb_ge in *. split_and!; try done; lia.
  - split; [done|]. by apply optional_address_iff.
  - split; [done|]. split; [done|]. by apply optional_address_iff.
  - rewrite String.eqb_eq in *. split_and!; [done| |congruence]. congruence.
Qed.

(** ** Where the values come from *)

(** The object has a member of that name, letter case aside, with that value. *)
Definition states (members : list (string * json)) (name : string) (v : json) : Prop :=
  ∃ key, (key, v) ∈ members ∧ same_fold name key = true.
Definition states_text (members : list (string * json)) (name text : string) : Prop := states members name (JString text).
Definition states_number (members : list (string * json)) (name : string) (n : Z) : Prop :=
  ∃ literal, states members name (JNumber literal) ∧ ParseInt literal = Some n.

(** Every text of the credentials stands in the bundle; an optional one may be
    left out, and so may the two numbers of a Lighter key, which are then 0. *)
Definition optional_text (members : list (string * json)) (name text : string) : Prop := text = "" ∨ states_text members name text.
Definition number_or_zero (members : list (string * json)) (name : string) (n : Z) : Prop :=
  states_number members name n ∨ n = 0 ∧ ∀ literal, ¬ states members name (JNumber literal).
Definition supplied (metadata secrets : list (string * json)) (c : Credentials) : Prop :=
  match c with
  | APIKeySecret key secret => states_text secrets "apiKey" key ∧ states_text secrets "apiSecret" secret
  | APIKeySecretPassphrase key secret passphrase =>
      states_text secrets "apiKey" key ∧ states_text secrets "apiSecret" secret ∧ states_text secrets "passphrase" passphrase
  | LighterSigner key account index =>
      states_text secrets "privateKey" key ∧ number_or_zero metadata "accountIndex" account ∧ number_or_zero metadata "keyIndex" index
  | EVMPrivateKey key address => states_text secrets "privateKey" key ∧ optional_text metadata "accountAddress" address
  | AsterAPIWallet key user signer =>
      states_text secrets "apiWalletPrivateKey" key ∧ states_text metadata "userAddress" user ∧ optional_text metadata "expectedSigner" signer
  | NadoSigner key subaccount => states_text secrets "privateKey" key ∧ states_text metadata "subaccount" subaccount
  end.

Lemma find_field_fold fields key name t : find_field fields key = Some (name, t) → same_fold name key = true.
Proof.
  unfold find_field. destruct (List.find _ fields) as [g|] eqn:E.
  - intros [= ->]. apply List.find_some in E as [_ E]. simpl in E. apply String.eqb_eq in E as ->. apply String.eqb_refl.
  - intros E'. by apply List.find_some in E' as [_ ?].
Qed.
Lemma store_value_same t v w : store_value t v = Some (Some w) → w = v.
Proof. destruct t, v; simpl; repeat case_match; congruence. Qed.

Lemma decode_members_states fields members acc m name v :
  decode_members fields members acc = Some m → m !! name = Some v → acc !! name = Some v ∨ states members name v.
Proof.
  revert acc. induction members as [|[key w] members IH]; intros acc; cbn [decode_members].
  { intros [= <-]. auto. }
  destruct (find_field fields key) as [[n t]|] eqn:Ef; [|done]. cbn [mbind option_bind].
  destruct (store_value t w) as [stored|] eqn:Es; [|done]. cbn [mbind option_bind]. intros Hd Hm.
  destruct (IH _ Hd Hm) as [Ha|(k & Hk & Hf)]; [|right; exists k; split; [by right|done]]. destruct stored as [w'|]; [|by left].
  apply lookup_insert_Some in Ha as [[<- <-]|[_ Ha]]; [|by left]. apply store_value_same in Es as ->.
  right. exists key. split; [by left|by eapply find_field_fold].
Qed.
Lemma decode_members_keeps fields members acc m name :
  decode_members fields members acc = Some m → is_Some (acc !! name) → is_Some (m !! name).
Proof.
  revert acc. induction members as [|[key w] members IH]; intros acc; cbn [decode_members]; [by intros [= <-]|].
  destruct (find_field fields key) as [[n t]|]; [|done]. cbn [mbind option_bind].
  destruct (store_value t w) as [[w'|]|]; [| |done]; cbn [mbind option_bind]; intros Hd Ha; apply (IH _ Hd); [|done].
  rewrite lookup_insert_is_Some'. by right.
Qed.
Lemma decode_members_absent fields members acc m name key v t :
  decode_members fields members acc = Some m → m !! name = None → (key, v) ∈ members →
  find_field fields key = Some (name, t) → store_value t v = Some None.
Proof.
  intros Hd Hm Hin Hf. revert acc Hd. induction members as [|[k w] members IH]; intros acc; [by apply not_elem_of_nil in Hin|].
  cbn [decode_members]. apply elem_of_cons in Hin as [[= <- <-]|Hin].
  - rewrite Hf. cbn [mbind option_bind]. destruct (store_value t v) as [[w|]|]; [|done..]. cbn [mbind option_bind]. intros Hd.
    destruct (decode_members_keeps _ _ _ _ name Hd) as [? Hs]; [|by rewrite Hm in Hs]. rewrite lookup_insert_eq. eauto.
  - destruct (find_field fields k) as [[n u]|]; [|done]. cbn [mbind option_bind]. destruct (store_value u w); [|done]. by apply IH.
Qed.

Lemma decodeNested_states fields raw m :
  decodeNested fields raw = Some m →
  ∃ members, raw = Some (JObject members) ∧ decode_members fields members ∅ = Some m ∧ ∀ name v, m !! name = Some v → states members name v.
Proof.
  unfold decodeNested. destruct raw as [[]|]; try done. simpl. intros Hd. exists members. split_and!; [done..|]. intros name v Hv.
  by destruct (decode_members_states _ _ _ _ _ _ Hd Hv) as [?%lookup_empty_Some|?].
Qed.
Lemma text_of_states members m name :
  (∀ name v, m !! name = Some v → states members name v) → text_of m name ≠ "" → states_text members name (text_of m name).
Proof. intros Hst. unfold text_of. destruct (m !! name) as [[]|] eqn:E; try done. intros _. by apply Hst. Qed.
Lemma text_of_optional members m name :
  (∀ name v, m !! name = Some v → states members name v) → optional_text members name (text_of m name).
Proof.
  intros Hst. unfold optional_text. destruct (decide (text_of m name = "")) as [->|Hne]; [by left|right]. by apply text_of_states.
Qed.

Lemma lighter_field name key : (name = "accountIndex" ∨ name = "keyIndex") → same_fold name key = true →
  ∃ t, (t = FInt ∨ t = FUint8) ∧ find_field [("accountIndex", FInt); ("keyIndex", FUint8)] key = Some (name, t).
Proof.
  intros Hname Hf. assert (Hfold : ∀ other, same_fold other key = true → fold_name (String.length other) other = fold_name (String.length name) name).
  { intros other. unfold same_fold in *. rewrite String.eqb_eq in *. congruence. }
  unfold find_field. cbn [List.find fst].
  destruct (String.eqb_spec "accountIndex" key) as [<-|H1].
  { destruct Hname as [->| ->]; [eauto|by vm_compute in Hf]. }
  destruct (String.eqb_spec "keyIndex" key) as [<-|H2].
  { destruct Hname as [->| ->]; [by vm_compute in Hf|eauto]. }
  destruct (same_fold "accountIndex" key) eqn:E1.
  { specialize (Hfold _ E1). destruct Hname as [->| ->]; [eauto|by vm_compute in Hfold]. }
  destruct Hname as [->| ->]; [congruence|]. rewrite Hf. eauto.
Qed.
Lemma lighter_supplied members m name : (name = "accountIndex" ∨ name = "keyIndex") →
  decode_members [("accountIndex", FInt); ("keyIndex", FUint8)] members ∅ = Some m → number_or_zero members name (int_of m name).
Proof.
  intros Hname Hd. assert (Hn : decodeNested [("accountIndex", FInt); ("keyIndex", FUint8)] (Some (JObject members)) = Some m) by done.
  unfold int_of. destruct (m !! name) as [v|] eqn:E.
  - destruct (decodeNested_typed _ _ _ _ _ Hn E) as (t & Hin & Hs). apply list_elem_of_In in Hin. simpl in Hin.
    assert (Hv : ∃ literal n, v = JNumber literal ∧ ParseInt literal = Some n).
    { destruct Hin as [[= _ <-]|[[= _ <-]|[]]]; destruct v; simpl in Hs; try done.
      - destruct (ParseInt text) eqn:Ep; [eauto|done].
      - destruct (ParseUint text 8) eqn:Ep; [|done]. destruct (ParseInt_unsigned _ 8 _ ltac:(lia) Ep) as [? _]. eauto. }
    destruct Hv as (literal & n & -> & Hp). rewrite Hp. left. exists literal. split; [|done].
    by destruct (decode_members_states _ _ _ _ _ _ Hd E) as [?%lookup_empty_Some|?].
  - right. split; [done|]. intros literal (key & Hin & Hf). destruct (lighter_field name key Hname Hf) as (t & Ht & Hff).
    pose proof (decode_members_absent _ _ _ _ _ _ _ _ Hd E Hin Hff) as Hs. destruct Ht as [->| ->]; simpl in Hs; by case_match.
Qed.

Lemma decodeCredentials_supplied kind metadata secrets c :
  decodeCredentials kind metadata secrets = Some c →
  ∃ m s, metadata = Some (JObject m) ∧ secrets = Some (JObject s) ∧ supplied m s c.
Proof.
  unfold decodeCredentials. destruct kind; intros E.
  all: apply bind_Some in E as (meta & Hm & E); apply bind_Some in E as (secret & Hs & E); cbv zeta in E; split_guard; injection E as <-.
  all: apply decodeNested_states in Hm as (m & -> & Hdm & Hm); apply decodeNested_states in Hs as (s & -> & _ & Hs).
  all: exists m, s; split; [done|]; split; [done|]; simpl; split_and?.
  all: first [by apply text_of_optional | apply text_of_states; [done|] | idtac]; try done.
  - apply lighter_supplied; [by left|done].
  - apply lighter_supplied; [by right|done].
  - intros Hu. by rewrite Hu in *.
  - intros Hu. by rewrite Hu in *.
Qed.

Section decoding.
Context `{JsonText}.

Lemma envelope_states tree bundle :
  decodeStrict envelope_fields tree = Some bundle → int_of bundle "schemaVersion" = 1 →
  ∃ members, tree = JObject members ∧ states_number members "schemaVersion" 1 ∧ ∀ name v, bundle !! name = Some v → states members name v.
Proof.
  intros Hd Hi. destruct tree; try done; simpl in Hd; [injection Hd as <-; by vm_compute in Hi|]. exists members.
  assert (Hst : ∀ name v, bundle !! name = Some v → states members name v).
  { intros name v Hv. by destruct (decode_members_states _ _ _ _ _ _ Hd Hv) as [?%lookup_empty_Some|?]. }
  split_and!; [done| |done]. unfold int_of in Hi. destruct (bundle !! "schemaVersion") as [[]|] eqn:E; try done.
  exists text. split; [by apply Hst|]. destruct (ParseInt text); simpl in Hi; [by subst|done].
Qed.

Lemma Decode_Ok authKinds venue payload d :
  Decode (Some authKinds) venue payload = Ok d →
  dc_Venue d = venue ∧ ToLower (TrimSpace venue) = venue ∧ authKinds !! venue = Some (dc_AuthKind d) ∧
  kind_of (dc_Credentials d) = dc_AuthKind d ∧ complete (dc_Credentials d) ∧ 0 < Z.of_nat (String.length payload) ≤ maxBundleBytes ∧
  ∃ bundle metadata secrets, json_parse payload = Some (JObject bundle) ∧ scanJSONValue (JObject bundle) = true ∧
    states_number bundle "schemaVersion" 1 ∧ (venue ≠ "" → states_text bundle "venue" venue) ∧
    states_text bundle "authKind" (auth_string (dc_AuthKind d)) ∧
    states bundle "metadata" (JObject metadata) ∧ states bundle "secrets" (JObject secrets) ∧ supplied metadata secrets (dc_Credentials d).
Proof.
  unfold Decode. intros [Hlen E]%check_Ok. apply andb_true_iff in Hlen as [Hne Hmax]. apply negb_true_iff, is_empty_false in Hne.
  destruct (json_parse payload) as [tree|] eqn:Hp; [|done]. apply check_Ok in E as [Hscan E].
  destruct (decodeStrict envelope_fields tree) as [bundle|] eqn:Hb; [|done]. cbv zeta in E.
  destruct (authKinds !! ToLower (TrimSpace venue)) as [kind|] eqn:Hk; [|done]. apply check_Ok in E as [Hid E].
  rewrite !andb_true_iff, !String.eqb_eq, Z.eqb_eq in Hid. destruct Hid as [[[Hv Hbv] Hbs] Hba].
  destruct (envelope_states _ _ Hb Hbs) as (members & -> & Hschema & Hst).
  destruct (decodeCredentials kind _ _) as [c|] eqn:Hc; [|done]. injection E as <-. simpl.
  destruct (decodeCredentials_supplied _ _ _ _ Hc) as (m & s & Hm & Hs & Hsup).
  apply decodeCredentials_complete in Hc as [Hkind Hcomp]. rewrite <- Hv in Hk, Hbv |- *. split_and!; try done.
  - destruct payload; [done|]. simpl. lia.
  - by apply Z.leb_le.
  - exists members, m, s. split_and!; try done; [| |by apply Hst..].
    + pose proof (text_of_states members bundle "venue" Hst) as Hstated. by rewrite Hbv in Hstated.
    + rewrite <- Hba. apply text_of_states; [done|]. rewrite Hba. by destruct kind.
Qed.

(** C31: what the registry decodes is for the very venue asked about, in its
    canonical spelling, with the auth kind registered for it, and the bundle says
    so itself: its envelope states schema version 1, that venue and that auth kind.
    The text was within the size limit and no object of it repeats a key.  Every
    text of the credentials stands in the bundle's metadata or secrets, no
    required text is empty, and addresses and numbers are well formed.  The two
    numbers of a Lighter key are those the metadata states; where it states none
    they are 0, although the schema calls both required. *)
Theorem Decode_complete authKinds venue payload d :
  Decode (Some authKinds) venue payload = Ok d →
  dc_Venue d = venue ∧ ToLower (TrimSpace venue) = venue ∧ authKinds !! venue = Some (dc_AuthKind d) ∧
  kind_of (dc_Credentials d) = dc_AuthKind d ∧ complete (dc_Credentials d) ∧ 0 < Z.of_nat (String.length payload) ≤ maxBundleBytes ∧
  ∃ bundle metadata secrets, json_parse payload = Some (JObject bundle) ∧ scanJSONValue (JObject bundle) = true ∧
    states_number bundle "schemaVersion" 1 ∧ (venue ≠ "" → states_text bundle "venue" venue) ∧
    states_text bundle "authKind" (auth_string (dc_AuthKind d)) ∧
    states bundle "metadata" (JObject metadata) ∧ states bundle "secrets" (JObject secrets) ∧ supplied metadata secrets (dc_Credentials d).
Proof. apply Decode_Ok. Qed.
End decoding.

(** ** What is typed in is what is decoded *)

Definition nonnull (v : json) : option json := match v with JNull => None | _ => Some v end.

Lemma store_value_nonnull t v st : t ≠ FRaw → store_value t v = Some st → st = nonnull v.
Proof. destruct t, v; simpl; intros ?; repeat case_match; naive_solver. Qed.

Lemma decode_members_exact fields members acc :
  (∀ k v, (k, v) ∈ members → ∃ t, t ≠ FRaw ∧ find_field fields k = Some (k, t)) → NoDup (map fst members) →
  (∀ k, k ∈ map fst members → acc !! k = None) →
  match decode_members fields members acc with
  | Some r => (∀ k v t, (k, v) ∈ members → find_field fields k = Some (k, t) → store_value t v ≠ None) ∧
              (∀ k v, (k, v) ∈ members → r !! k = nonnull v) ∧ (∀ k, k ∉ map fst members → r !! k = acc !! k)
  | None => ∃ k v t, (k, v) ∈ members ∧ find_field fields k = Some (k, t) ∧ store_value t v = None
  end.
Proof.
  revert acc. induction members as [|[k v] members IH]; intros acc Hex Hnd Hacc; cbn [decode_members].
  { split; [by intros ??? ?%not_elem_of_nil|]. split; [by intros ?? ?%not_elem_of_nil|done]. }
  cbn [map fst] in *. pose proof (NoDup_cons_1_1 _ _ Hnd) as Hk. apply NoDup_cons_1_2 in Hnd.
  destruct (Hex k v) as (t & Ht & Hf); [left|]. rewrite Hf. cbn [mbind option_bind].
  destruct (store_value t v) as [st|] eqn:Es; cbn [mbind option_bind]; [|exists k, v, t; split; [left|done]].
  pose proof (store_value_nonnull _ _ _ Ht Es) as ->.
  set (acc' := match nonnull v with Some v => <[k:=v]> acc | None => acc end).
  assert (Hacc' : ∀ k', acc' !! k' = if decide (k' = k) then nonnull v else acc !! k').
  { intros k'. unfold acc'. destruct (decide (k' = k)) as [->|Hne].
    - destruct (nonnull v); [apply lookup_insert_eq|apply Hacc; left].
    - destruct (nonnull v); [by apply lookup_insert_ne|done]. }
  assert (Hex' : ∀ k v, (k, v) ∈ members → ∃ t, t ≠ FRaw ∧ find_field fields k = Some (k, t)) by (intros; eapply Hex; by right).
  specialize (IH acc' Hex' Hnd). destruct (decode_members fields members acc') as [r|].
  - destruct IH as (H1 & H2 & H3).
    { intros k' Hk'. rewrite Hacc'. destruct (decide (k' = k)) as [->|]; [done|]. apply Hacc. by right. }
    split; [|split].
    + intros k' v' t' [E|Hin]%elem_of_cons Hf'; [|by eapply H1]. simplify_eq. congruence.
    + intros k' v' [E|Hin]%elem_of_cons; [|by apply H2]. simplify_eq. rewrite H3 by done. rewrite Hacc'. by rewrite decide_True.
    + intros k' [Hne Hni]%not_elem_of_cons. rewrite H3, Hacc', decide_False by done. done.
  - destruct IH as (k' & v' & t' & Hin & Hr).
    { intros k' Hk'. rewrite Hacc'. destruct (decide (k' = k)) as [->|]; [done|]. apply Hacc. by right. }
    exists k', v', t'. split; [by right|done].
Qed.

Lemma decode_object fields (m : gmap string json) :
  (∀ k v, m !! k = Some v → ∃ t, t ≠ FRaw ∧ find_field fields k = Some (k, t)) →
  match decodeNested fields (Some (object_of m)) with
  | Some r => (∀ k v t, m !! k = Some v → find_field fields k = Some (k, t) → store_value t v ≠ None) ∧ (∀ k, r !! k = m !! k ≫= nonnull)
  | None => ∃ k v t, m !! k = Some v ∧ find_field fields k = Some (k, t) ∧ store_value t v = None
  end.
Proof.
  intros Hex. unfold object_of, decodeNested, decodeStrict. set (l := sort_slice _ _).
  assert (Hl : ∀ k v, (k, v) ∈ l ↔ m !! k = Some v) by (intros; unfold l; rewrite sort_slice_elem_of; apply elem_of_map_to_list).
  assert (Hkeys : ∀ k, k ∈ map fst l ↔ is_Some (m !! k)).
  { intros k. rewrite list_elem_of_fmap. split; [intros ([k' v] & -> & Hin)|intros [v Hv]].
    - apply Hl in Hin. by eexists.
    - exists (k, v). split; [done|by apply Hl]. }
  assert (Hnd : NoDup (map fst l)).
  { unfold l. rewrite (sort_slice_perm (λ a b : string * json, str_lt a.1 b.1) (map_to_list m)). apply NoDup_fst_map_to_list. }
  pose proof (decode_members_exact fields l ∅ ltac:(intros ?? ?%Hl; eauto) Hnd ltac:(intros; apply lookup_empty)) as Hd.
  destruct (decode_members fields l ∅) as [r|].
  - destruct Hd as (H1 & H2 & H3). split; [intros k v t Hv; eapply H1; by apply Hl|]. intros k.
    destruct (m !! k) as [v|] eqn:Ev; cbn [mbind option_bind]; [apply H2; by apply Hl|].
    rewrite H3, lookup_empty; [done|]. rewrite Hkeys, Ev. by intros [? ?].
  - destruct Hd as (k & v & t & Hin & Hr). exists k, v, t. split; [by apply Hl|done].
Qed.

Section entered.
Context (implementation : float64 → Z) (float_text : float64 → string).
Context (Himpl : ∀ f, int64_min ≤ implementation f ≤ int64_max).
Abbreviation fieldv := (field_value implementation float_text).

(** The text and the number an operator entered under a key; [None] if it is
    not one. *)
Definition entered_text (fields : gmap string any) (key : string) : option string :=
  match fields !! key with
  | None | Some AnyNil => Some ""
  | Some (AnyString t) => Some (TrimSpace t)
  | _ => None
  end.
Definition entered_number (fields : gmap string any) (key : string) : option Z :=
  match fields !! key with
  | Some (AnyString t) => Sscan_int64 (TrimSpace t)
  | Some v => toInteger implementation v
  | None => None
  end.

(** The credentials of the given kind that the entered fields are. *)
Definition entered (kind : AuthKind) (fields : gmap string any) : option Credentials :=
  let text := entered_text fields in
  match kind with
  | AuthAPIKeySecret =>
      key ← text "apiKey"; secret ← text "apiSecret";
      if is_empty key || is_empty secret then None else Some (APIKeySecret key secret)
  | AuthAPIKeySecretPassphrase =>
      key ← text "apiKey"; secret ← text "apiSecret"; passphrase ← text "passphrase";
      if is_empty key || is_empty secret || is_empty passphrase then None else Some (APIKeySecretPassphrase key secret passphrase)
  | AuthLighterSigner =>
      account ← entered_number fields "accountIndex"; index ← entered_number fields "keyIndex"; key ← text "privateKey";
      if is_empty key || (account <? 0) || (index <? 0) || (256 <=? index) then None else Some (LighterSigner key account index)
  | AuthEVMPrivateKey =>
      address ← text "accountAddress"; key ← text "privateKey";
      if is_empty key || (negb (is_empty address) && negb (validateEVMAddress address)) then None else Some (EVMPrivateKey key address)
  | AuthAsterAPIWallet =>
      user ← text "userAddress"; signer ← text "expectedSigner"; key ← text "apiWalletPrivateKey";
      if is_empty key || negb (validateEVMAddress user) || (negb (is_empty signer) && negb (validateEVMAddress signer)) then None
      else Some (AsterAPIWallet key user signer)
  | AuthNadoSigner =>
      subaccount ← text "subaccount"; key ← text "privateKey";
      if is_empty (TrimSpace subaccount) || negb (String.eqb subaccount (TrimSpace subaccount)) || is_empty key then None
      else Some (NadoSigner key subaccount)
  end.

Lemma split_fields_spec schema fields meta sec m s :
  NoDup (map fd_Key schema) → (∀ f, f ∈ schema → meta !! fd_Key f = None ∧ sec !! fd_Key f = None) →
  split_fields implementation float_text schema fields meta sec = Ok (m, s) →
  (∀ f, f ∈ schema → ∃ ov, fieldv f fields = Ok ov ∧ m !! fd_Key f = (if fd_Metadata f then ov else None) ∧
                           s !! fd_Key f = (if fd_Metadata f then None else ov)) ∧
  (∀ k, k ∉ map fd_Key schema → m !! k = meta !! k ∧ s !! k = sec !! k).
Proof.
  revert meta sec. induction schema as [|f schema IH]; intros meta sec Hnd Hfresh; cbn [split_fields].
  { intros [= <- <-]. split; [by intros ? ?%not_elem_of_nil|done]. }
  intros (ov & Hov & E)%bind_Ok. cbn [map] in Hnd. pose proof (NoDup_cons_1_1 _ _ Hnd) as Hk. apply NoDup_cons_1_2 in Hnd.
  destruct (Hfresh f ltac:(left)) as [Hmf Hsf].
  assert (Hne : ∀ g, g ∈ schema → fd_Key g ≠ fd_Key f) by (intros g Hg Heq; apply Hk; rewrite <- Heq; by apply list_elem_of_fmap_2).
  assert (Hstep : ∃ meta' sec', split_fields implementation float_text schema fields meta' sec' = Ok (m, s) ∧
    meta' !! fd_Key f = (if fd_Metadata f then ov else None) ∧ sec' !! fd_Key f = (if fd_Metadata f then None else ov) ∧
    ∀ k, k ≠ fd_Key f → meta' !! k = meta !! k ∧ sec' !! k = sec !! k).
  { destruct ov as [v|]; [destruct (fd_Metadata f)|]; eexists _, _; (split; [exact E|]); split_and!;
      try (by rewrite lookup_insert_eq); try (by case_match); try done; intros k Hne'; by rewrite ?lookup_insert_ne. }
  destruct Hstep as (meta' & sec' & E' & Hm' & Hs' & Hother).
  destruct (IH meta' sec' Hnd) as [H1 H2]; [|done|].
  { intros g Hg. destruct (Hother (fd_Key g) (Hne g Hg)) as [-> ->]. apply Hfresh. by right. }
  split.
  - intros g [->|Hg]%elem_of_cons; [|by apply H1]. exists ov. destruct (H2 _ Hk) as [-> ->]. done.
  - intros k [Hkf Hks]%not_elem_of_cons. destruct (H2 _ Hks) as [-> ->]. by apply Hother.
Qed.

Lemma text_field f fields ov : fd_ValueType f = "string" → fieldv f fields = Ok ov →
  match entered_text fields (fd_Key f) with
  | Some t => (∀ v, ov = Some v → store_value FString v ≠ None) ∧ match ov ≫= nonnull with Some (JString s) => s | _ => "" end = t
  | None => ∃ v, ov = Some v ∧ store_value FString v = None
  end.
Proof.
  intros Ht. unfold field_value, entered_text. rewrite Ht. cbv zeta.
  destruct (fields !! fd_Key f) as [[| |t| | | |]|]; cbn [negb];
    try (intros [= <-]; first [by eexists; split; [reflexivity|]|split; [intros ? [= <-]; done|done]]).
  - destruct (is_empty t) eqn:Et; cbn [negb].
    + apply is_empty_true in Et as ->. destruct (fd_Required f); [done|]. intros [= <-]. done.
    + intros [= <-]. split; [intros ? [= <-]; done|done].
  - destruct (fd_Required f); [done|]. intros [= <-]. done.
Qed.

Lemma find_exact names n : n ∈ names → find_field (map (λ k, (k, FString)) names) n = Some (n, FString).
Proof.
  intros Hn. unfold find_field.
  assert (Hf : List.find (λ f, String.eqb f.1 n) (map (λ k, (k, FString)) names) = Some (n, FString)).
  { induction names as [|k names IH]; [by apply not_elem_of_nil in Hn|]. simpl.
    destruct (String.eqb_spec k n) as [->|Hne]; [done|]. apply IH. apply elem_of_cons in Hn as [->|]; done. }
  by rewrite Hf.
Qed.

(** A nested object of text fields decodes to the entered texts. *)
Lemma decode_texts (schema : list Field) names fields (m : gmap string json) :
  (∀ k, k ∉ names → m !! k = None) →
  (∀ n, n ∈ names → ∃ f ov, f ∈ schema ∧ fd_Key f = n ∧ fd_ValueType f = "string" ∧ fieldv f fields = Ok ov ∧ m !! n = ov) →
  match decodeNested (map (λ k, (k, FString)) names) (Some (object_of m)) with
  | Some r => ∀ n, n ∈ names → entered_text fields n = Some (text_of r n)
  | None => ∃ n, n ∈ names ∧ entered_text fields n = None
  end.
Proof.
  intros Hout Hin.
  assert (Hkeys : ∀ k v, m !! k = Some v → k ∈ names).
  { intros k v Hv. destruct (decide (k ∈ names)) as [|Hn]; [done|]. rewrite Hout in Hv; done. }
  pose proof (decode_object (map (λ k, (k, FString)) names) m) as Hd.
  destruct (decodeNested _ _) as [r|].
  - destruct Hd as [H1 H2]; [intros k v ?%Hkeys; exists FString; split; [done|by apply find_exact]|].
    intros n Hn. destruct (Hin n Hn) as (f & ov & _ & <- & Ht & Hov & Hm). pose proof (text_field f fields ov Ht Hov) as Htf.
    destruct (entered_text fields (fd_Key f)) as [t|].
    + destruct Htf as [_ <-]. unfold text_of. by rewrite H2, Hm.
    + destruct Htf as (v & -> & Hbad). destruct (H1 _ _ FString Hm (find_exact _ _ Hn) Hbad).
  - destruct Hd as (k & v & t & Hm & Hf & Hbad); [intros k v ?%Hkeys; exists FString; split; [done|by apply find_exact]|].
    pose proof (Hkeys _ _ Hm) as Hk. exists k. split; [done|]. rewrite (find_exact _ _ Hk) in Hf. injection Hf as <-.
    destruct (Hin k Hk) as (f & ov & _ & <- & Ht & Hov & Hm'). pose proof (text_field f fields ov Ht Hov) as Htf.
    destruct (entered_text fields (fd_Key f)) as [tx|]; [|done]. destruct Htf as [Hgood _]. destruct (Hgood v); [congruence|done].
Qed.

Lemma digits_value_nonneg base acc s n : 0 ≤ base → 0 ≤ acc → digits_value base acc s = Some n → 0 ≤ n.
Proof.
  intros Hb. revert acc. induction s as [|c s IH]; intros acc Ha; cbn [digits_value]; [by intros [= <-]|].
  destruct (Ascii.eqb c "_"); [by apply IH|]. cbv zeta.
  destruct (if is_digit c then _ else _) as [d|] eqn:Ed; [|done]. destruct (d <? base); [|done]. apply IH.
  assert (0 ≤ d); [|nia]. unfold is_digit, in_range in Ed. revert Ed.
  destruct (Z.leb_spec (code "0") (code c)); cbn [andb]; [destruct (_ <=? _)|]; intros Ed; simplify_eq; try lia.
  all: destruct (Z.leb_spec (code "a") (code (lower_byte c))); cbn [andb] in Ed; [|done]; case_match; simplify_eq; lia.
Qed.

Lemma ParseUint0_nonneg s n : ParseUint0 s = Some n → 0 ≤ n.
Proof.
  unfold ParseUint0. destruct s as [|c s]; [done|]. destruct (base_prefix _) as [base skip] eqn:Eb.
  intros (m & Hm & E)%bind_Some. cbv zeta in E. case_match; [|done]. injection E as <-.
  eapply digits_value_nonneg; [| |exact Hm]; [|lia]. unfold base_prefix in Eb. repeat case_match; simplify_eq; lia.
Qed.

Lemma ParseInt0_range s n : ParseInt0 s = Some n → int64_min ≤ n ≤ int64_max.
Proof.
  unfold ParseInt0, int64_min, int64_max. intros E.
  assert (Hpos : ∀ s, (m ← ParseUint0 s; if m <? 2 ^ 63 then Some m else None) = Some n → - 2 ^ 63 ≤ n ≤ 2 ^ 63 - 1).
  { intros s' (m & Hm%ParseUint0_nonneg & Hs)%bind_Some. destruct (Z.ltb_spec m (2 ^ 63)); [|done]. simplify_eq. lia. }
  repeat case_match; try (by eapply Hpos). apply bind_Some in E as (m & Hm%ParseUint0_nonneg & E).
  destruct (Z.leb_spec m (2 ^ 63)); [|done]. simplify_eq. lia.
Qed.

Lemma Sscan_range s n : Sscan_int64 s = Some n → int64_min ≤ n ≤ int64_max.
Proof.
  unfold Sscan_int64. cbv zeta. intros E. repeat case_match; try done; by eapply ParseInt0_range.
Qed.

Lemma toInteger_range v n : toInteger implementation v = Some n → int64_min ≤ n ≤ int64_max.
Proof.
  destruct v; simpl; try done; [by apply Sscan_range| |by apply ParseInt_range].
  case_match; [|done]. intros [= <-]. unfold int64_of_float. destruct (truncated f) as [z|]; [|apply Himpl].
  destruct (Z.leb_spec int64_min z); cbn [andb]; [|apply Himpl]. destruct (Z.leb_spec z int64_max); [lia|apply Himpl].
Qed.

Lemma number_field f fields ov : fd_ValueType f = "integer" → fd_Required f = true → fieldv f fields = Ok ov →
  ∃ n, entered_number fields (fd_Key f) = Some n ∧ int64_min ≤ n ≤ int64_max ∧ ov = Some (JNumber (FormatInt n)).
Proof.
  intros Ht Hreq. unfold field_value, entered_number. rewrite Ht, Hreq. cbv zeta.
  assert (Hnum : ∀ v, match toInteger implementation v with
      | Some number => Ok (Some (JNumber (FormatInt number)))
      | None => Err (account_invalid (fd_Label f +:+ " must be an integer")) end = Ok ov →
    ∃ n, toInteger implementation v = Some n ∧ int64_min ≤ n ≤ int64_max ∧ ov = Some (JNumber (FormatInt n))).
  { intros v. destruct (toInteger implementation v) as [n|] eqn:En; [|done]. intros [= <-].
    exists n. split; [done|]. split; [by eapply toInteger_range|done]. }
  destruct (fields !! fd_Key f) as [[| |t| | | |]|]; cbn [negb]; try done; try apply Hnum.
  destruct (is_empty t); cbn [negb]; [done|]. apply Hnum.
Qed.

Lemma ParseUint8_FormatInt n : int64_min ≤ n ≤ int64_max →
  ParseUint (FormatInt n) 8 = if (n <? 0) || (256 <=? n) then None else Some n.
Proof.
  unfold int64_min, int64_max. intros Hn. destruct (ParseUint (FormatInt n) 8) as [k|] eqn:E.
  - destruct (ParseInt_unsigned _ 8 _ ltac:(lia) E) as [Hi Hk]. rewrite ParseInt_FormatInt in Hi by (unfold int64_min, int64_max; lia).
    injection Hi as ->. rewrite (proj2 (Z.ltb_ge k 0)), (proj2 (Z.leb_gt 256 k)) by lia. done.
  - destruct (Z.ltb_spec n 0), (Z.leb_spec 256 n); cbn [orb]; try done.
    rewrite FormatInt_nonneg, ParseUint_FormatUint in E by lia. done.
Qed.

(** The numbers of a Lighter bundle. *)
Lemma decode_numbers (m : gmap string json) a k :
  int64_min ≤ a ≤ int64_max → int64_min ≤ k ≤ int64_max →
  (∀ key, key ≠ "accountIndex" → key ≠ "keyIndex" → m !! key = None) →
  m !! "accountIndex" = Some (JNumber (FormatInt a)) → m !! "keyIndex" = Some (JNumber (FormatInt k)) →
  match decodeNested [("accountIndex", FInt); ("keyIndex", FUint8)] (Some (object_of m)) with
  | Some r => (k <? 0) || (256 <=? k) = false ∧ int_of r "accountIndex" = a ∧ int_of r "keyIndex" = k
  | None => (k <? 0) || (256 <=? k) = true
  end.
Proof.
  intros Ha Hk Hout Hma Hmk.
  pose proof (decode_object [("accountIndex", FInt); ("keyIndex", FUint8)] m) as Hd. pose proof (ParseUint8_FormatInt k Hk) as H8.
  assert (Hfields : ∀ key v, m !! key = Some v → ∃ t, t ≠ FRaw ∧ find_field [("accountIndex", FInt); ("keyIndex", FUint8)] key = Some (key, t)).
  { intros key v Hv. destruct (decide (key = "accountIndex")) as [->|]; [by exists FInt|].
    destruct (decide (key = "keyIndex")) as [->|]; [by exists FUint8|]. rewrite Hout in Hv; done. }
  specialize (Hd Hfields). destruct (decodeNested _ _) as [r|].
  - destruct Hd as [H1 H2]. pose proof (H1 "keyIndex" _ FUint8 Hmk eq_refl) as Hs. cbn [store_value] in Hs.
    rewrite H8 in Hs. destruct ((k <? 0) || (256 <=? k)); [done|]. split; [done|].
    unfold int_of. rewrite !H2, Hma, Hmk. cbn [mbind option_bind nonnull]. by rewrite !ParseInt_FormatInt.
  - destruct Hd as (key & v & t & Hm & Hf & Hbad). destruct (Hfields _ _ Hm) as (t' & _ & Hf'). rewrite Hf in Hf'. injection Hf' as <-.
    destruct (decide (key = "accountIndex")) as [->|Hne1].
    { cbn in Hf. injection Hf as <-. rewrite Hma in Hm. injection Hm as <-. cbn [store_value] in Hbad. by rewrite ParseInt_FormatInt in Hbad. }
    destruct (decide (key = "keyIndex")) as [->|Hne2]; [|rewrite Hout in Hm; done].
    cbn in Hf. injection Hf as <-. rewrite Hmk in Hm. injection Hm as <-. cbn [store_value] in Hbad. rewrite H8 in Hbad. by case_match.
Qed.

(** The keys of the metadata, or of the secret, fields. *)
Definition part_keys (metadata : bool) (schema : list Field) : list string :=
  map fd_Key (List.filter (λ f, Bool.eqb (fd_Metadata f) metadata) schema).

Lemma split_part schema fields m s (b : bool) : NoDup (map fd_Key schema) →
  split_fields implementation float_text schema fields ∅ ∅ = Ok (m, s) →
  let part := if b then m else s in
  (∀ k, k ∉ part_keys b schema → part !! k = None) ∧
  (∀ n, n ∈ part_keys b schema → ∃ f ov, f ∈ schema ∧ fd_Key f = n ∧ fd_Metadata f = b ∧ fieldv f fields = Ok ov ∧ part !! n = ov).
Proof.
  intros Hnd E part. destruct (split_fields_spec _ _ _ _ _ _ Hnd ltac:(by intros; rewrite !lookup_empty) E) as [H1 H2].
  assert (Hpart : ∀ k, k ∈ part_keys b schema ↔ ∃ f, f ∈ schema ∧ fd_Metadata f = b ∧ fd_Key f = k).
  { intros k. unfold part_keys. rewrite list_elem_of_In, in_map_iff. split.
    - intros (f & <- & [Hf Hb]%filter_In). exists f. split; [by apply list_elem_of_In|]. split; [by apply eqb_prop|done].
    - intros (f & Hf & Hb & <-). exists f. split; [done|]. apply filter_In. split; [by apply list_elem_of_In|by apply eqb_true_iff]. }
  split.
  - intros k Hk. destruct (decide (k ∈ map fd_Key schema)) as [Hin|Hni].
    + apply list_elem_of_fmap in Hin as (f & -> & Hf). destruct (H1 f Hf) as (ov & _ & Hm & Hs). unfold part.
      destruct b, (fd_Metadata f) eqn:Eb; try done; destruct Hk; apply Hpart; eauto.
    + destruct (H2 k Hni) as [Hm Hs]. unfold part. destruct b; [rewrite Hm|rewrite Hs]; apply lookup_empty.
  - intros n (f & Hf & Hb & <-)%Hpart. destruct (H1 f Hf) as (ov & Hov & Hm & Hs). exists f, ov. split_and!; try done.
    unfold part. rewrite Hb in Hm, Hs. by destruct b.
Qed.

Lemma split_texts schema fields m s (b : bool) : NoDup (map fd_Key schema) →
  (∀ f, f ∈ schema → fd_Metadata f = b → fd_ValueType f = "string") →
  split_fields implementation float_text schema fields ∅ ∅ = Ok (m, s) →
  match decodeNested (map (λ k, (k, FString)) (part_keys b schema)) (Some (object_of (if b then m else s))) with
  | Some r => ∀ n, n ∈ part_keys b schema → entered_text fields n = Some (text_of r n)
  | None => ∃ n, n ∈ part_keys b schema ∧ entered_text fields n = None
  end.
Proof.
  intros Hnd Hstr E. destruct (split_part _ _ _ _ b Hnd E) as [Hout Hin].
  apply (decode_texts schema); [done|]. intros n Hn. destruct (Hin n Hn) as (f & ov & Hf & Hk & Hb & Hov & Hp).
  exists f, ov. split_and!; try done. by apply Hstr.
Qed.

Lemma schema_NoDup (kind : AuthKind) : NoDup (map fd_Key (schemaFields kind)).
Proof. destruct kind; apply (bool_decide_unpack _); vm_compute; exact I. Qed.
Lemma secrets_text kind (f : Field) : f ∈ schemaFields kind → fd_Metadata f = false → fd_ValueType f = "string".
Proof. intros Hf%list_elem_of_In. destruct kind; simpl in Hf; repeat destruct Hf as [<-|Hf]; done. Qed.
Lemma metadata_text kind (f : Field) : kind ≠ AuthLighterSigner → f ∈ schemaFields kind → fd_Metadata f = true → fd_ValueType f = "string".
Proof. intros Hk Hf%list_elem_of_In. destruct kind; simpl in Hf; repeat destruct Hf as [<-|Hf]; done. Qed.

Ltac key_in := apply list_elem_of_In; simpl; auto.
Ltac read_texts H := repeat match goal with
  | |- context [entered_text ?fields ?key] => rewrite (H key) by key_in
  end.
Ltac missing_text H :=
  let key := fresh "key" in let Hi := fresh "Hi" in let Hn := fresh "Hn" in
  destruct H as (key & Hi & Hn); apply list_elem_of_In in Hi; simpl in Hi;
  repeat destruct Hi as [<-|Hi]; try done; rewrite ?Hn; try reflexivity;
  repeat match goal with |- context [entered_text ?f ?k] => destruct (entered_text f k); simpl; try done end.
Ltac parts H := cbn [part_keys map List.filter fd_Metadata fd_Key schemaFields Bool.eqb] in H.
Lemma lighter_number f : f ∈ schemaFields AuthLighterSigner → fd_Metadata f = true → fd_ValueType f = "integer" ∧ fd_Required f = true.
Proof. intros Hf%list_elem_of_In. simpl in Hf. repeat destruct Hf as [<-|Hf]; done. Qed.

Lemma decode_split_lighter fields m s :
  split_fields implementation float_text (schemaFields AuthLighterSigner) fields ∅ ∅ = Ok (m, s) →
  decodeCredentials AuthLighterSigner (Some (object_of m)) (Some (object_of s)) = entered AuthLighterSigner fields.
Proof.
  intros E. pose proof (split_texts _ _ _ _ false (schema_NoDup _) (secrets_text _) E) as Hsec.
  destruct (split_part _ _ _ _ true (schema_NoDup _) E) as [Hout Hin].
  destruct (Hin "accountIndex") as (f & ov & Hf & Hkey & Hb & Hov & Hma); [key_in|].
  destruct (Hin "keyIndex") as (f' & ov' & Hf' & Hkey' & Hb' & Hov' & Hmk); [key_in|].
  destruct (lighter_number f) as [Ht Hr]; [done..|]. destruct (lighter_number f') as [Ht' Hr']; [done..|].
  destruct (number_field _ _ _ Ht Hr Hov) as (a & Ha & Hra & ->). destruct (number_field _ _ _ Ht' Hr' Hov') as (k & Hka & Hrk & ->).
  rewrite Hkey in Ha. rewrite Hkey' in Hka.
  assert (Hother : ∀ key, key ≠ "accountIndex" → key ≠ "keyIndex" → m !! key = None).
  { intros key H1 H2. apply Hout. rewrite list_elem_of_In. simpl. naive_solver. }
  pose proof (decode_numbers m a k Hra Hrk Hother Hma Hmk) as Hnum.
  unfold decodeCredentials, entered. cbv zeta. rewrite Ha, Hka. cbn [mbind option_bind]. parts Hsec.
  destruct (decodeNested [("accountIndex", FInt); ("keyIndex", FUint8)] _) as [meta|]; cbn [mbind option_bind].
  - destruct Hnum as (Hrange & Hia & Hik).
    destruct (decodeNested [("privateKey", FString)] _) as [secret|]; cbn [mbind option_bind]; [|missing_text Hsec].
    read_texts Hsec. cbn [mbind option_bind]. rewrite Hia, Hik. apply orb_false_iff in Hrange as [-> ->].
    rewrite !orb_false_r. by rewrite orb_comm.
  - destruct (entered_text fields "privateKey"); [|done]. cbn [mbind option_bind]. by rewrite <- (orb_assoc _ (k <? 0)), Hnum, orb_true_r.
Qed.

(** The two parts of a bundle decode to the entered credentials. *)
Lemma decode_split kind fields m s :
  split_fields implementation float_text (schemaFields kind) fields ∅ ∅ = Ok (m, s) →
  decodeCredentials kind (Some (object_of m)) (Some (object_of s)) = entered kind fields.
Proof.
  intros E. pose proof (split_texts _ _ _ _ false (schema_NoDup kind) (secrets_text kind) E) as Hsec.
  destruct (decide (kind = AuthLighterSigner)) as [->|Hk]; [by apply decode_split_lighter|].
  pose proof (split_texts _ _ _ _ true (schema_NoDup kind) (λ f, metadata_text kind f Hk) E) as Hmeta.
  destruct kind; try done; parts Hsec; parts Hmeta; unfold decodeCredentials, entered; cbv zeta.
  all: destruct (decodeNested _ (Some (object_of m))) as [meta|]; cbn [mbind option_bind]; [|missing_text Hmeta].
  all: destruct (decodeNested _ (Some (object_of s))) as [secret|]; cbn [mbind option_bind];
    [|missing_text Hsec]; read_texts Hmeta.
  all: read_texts Hsec; done.
Qed.

Lemma decode_envelope venue kind (m s : gmap string json) :
  ∃ bundle, decodeStrict envelope_fields
      (JObject [("schemaVersion", JNumber "1"); ("venue", JString venue); ("authKind", JString (auth_string kind));
                ("metadata", object_of m); ("secrets", object_of s)]) = Some bundle ∧
    text_of bundle "venue" = venue ∧ int_of bundle "schemaVersion" = 1 ∧ text_of bundle "authKind" = auth_string kind ∧
    bundle !! "metadata" = Some (object_of m) ∧ bundle !! "secrets" = Some (object_of s).
Proof.
  eexists. split; [cbn [decodeStrict decode_members]; reflexivity|].
  unfold text_of, int_of. rewrite !lookup_insert_eq. repeat rewrite lookup_insert_ne by done. rewrite !lookup_insert_eq. done.
Qed.

Section roundtrip.
Context `{JsonLaws}.

Lemma decode_bundle authKinds kind venue fields order tree :
  authKinds !! venue = Some kind → ToLower (TrimSpace venue) = venue →
  bundle_tree implementation float_text (Some authKinds) venue fields order = Ok tree →
  json_clean tree = true → scanJSONValue tree = true →
  0 < Z.of_nat (String.length (json_marshal tree)) ≤ maxBundleBytes →
  Decode (Some authKinds) venue (json_marshal tree) =
    match entered kind fields with
    | Some credentials => Ok (mkDecoded venue kind credentials)
    | None => Err (invalidBundle "credentials")
    end.
Proof.
  intros Hkind Hvenue Hb Hclean Hscan Hlen. unfold bundle_tree, Registry_Schema in Hb. cbn [mbind option_bind] in Hb.
  rewrite Hkind in Hb. cbn [sm_Fields sm_AuthKind] in Hb.
  destruct (split_fields _ _ _ _ _ _) as [[m s]|] eqn:E; [|done]. cbn [bind fst snd] in Hb.
  destruct (List.find _ order); [done|]. injection Hb as <-.
  destruct (decode_envelope venue kind m s) as (bundle & Hd & Hv & Hi & Ha & Hm & Hs).
  unfold Decode.
  destruct (is_empty _) eqn:Hem; [apply is_empty_true in Hem; rewrite Hem in Hlen; simpl in Hlen; lia|].
  rewrite (proj2 (Z.leb_le _ _)) by lia. cbn [negb andb]. rewrite json_parse_marshal by done. rewrite Hscan, Hd.
  rewrite Hvenue, Hkind. rewrite Hv, Hi, Ha, !String.eqb_refl. cbn [andb Z.eqb Pos.eqb].
  rewrite Hm, Hs, (decode_split _ _ _ _ E). done.
Qed.

(** Registering an account stores what was typed in: the bundle built from
    the entered fields, written as text and read back, decodes to exactly the
    entered credentials (texts trimmed, numbers as scanned), or is refused as
    incomplete when they are not valid ones of the venue's kind. *)
Theorem bundle_decodes authKinds kind venue fields order tree :
  authKinds !! venue = Some kind → ToLower (TrimSpace venue) = venue →
  bundle_tree implementation float_text (Some authKinds) venue fields order = Ok tree →
  json_clean tree = true → scanJSONValue tree = true →
  0 < Z.of_nat (String.length (json_marshal tree)) ≤ maxBundleBytes →
  Decode (Some authKinds) venue (json_marshal tree) =
    match entered kind fields with
    | Some credentials => Ok (mkDecoded venue kind credentials)
    | None => Err (invalidBundle "credentials")
    end.
Proof. apply decode_bundle. Qed.
End roundtrip.
End entered.

(** ** A concrete text form, and examples *)

Fixpoint to_tree (v : json) : gen_tree (bool + string) :=
  match v with
  | JNull => GenNode 0 []
  | JBool b => GenLeaf (inl b)
  | JNumber text => GenNode 1 [GenLeaf (inr text)]
  | JString s => GenLeaf (inr s)
  | JArray items => GenNode 2 (map to_tree items)
  | JObject members => GenNode 3 (map (λ m, GenNode 4 [GenLeaf (inr m.1); to_tree m.2]) members)
  end.
Fixpoint of_tree (t : gen_tree (bool + string)) : json :=
  match t with
  | GenLeaf (inl b) => JBool b
  | GenLeaf (inr s) => JString s
  | GenNode 1 [GenLeaf (inr text)] => JNumber text
  | GenNode 2 items => JArray (map of_tree items)
  | GenNode 3 members =>
      JObject (map (λ m, match m with GenNode _ [GenLeaf (inr k); v] => (k, of_tree v) | _ => ("", JNull) end) members)
  | _ => JNull
  end.
Lemma of_to_tree v : of_tree (to_tree v) = v.
Proof.
  revert v. fix IH 1. intros [| | | |items|members]; simpl; try done; f_equal.
  - induction items as [|v items IHl]; simpl; [done|]. by rewrite IH, IHl.
  - induction members as [|[k v] members IHl]; simpl; [done|]. by rewrite IH, IHl.
Qed.

Fixpoint bits_text (p : positive) : string :=
  match p with xH => "" | xO p => String "0" (bits_text p) | xI p => String "1" (bits_text p) end.
Fixpoint text_bits (s : string) : positive :=
  match s with "" => xH | String c rest => if Ascii.eqb c "0" then xO (text_bits rest) else xI (text_bits rest) end.
Lemma text_bits_text p : text_bits (bits_text p) = p.
Proof. induction p; simpl; by f_equal. Qed.

Definition bits_json : JsonText :=
  {| json_marshal v := bits_text (encode (to_tree v)); json_parse s := of_tree <$> decode (text_bits s) |}.
Lemma bits_json_laws : @JsonLaws bits_json.
Proof. constructor. intros v _. simpl. rewrite text_bits_text, decode_encode. simpl. by rewrite of_to_tree. Qed.

Definition sample_fields : gmap string any := list_to_map
  [("apiKey", AnyString " key-1 "); ("apiSecret", AnyString "s3cret"); ("passphrase", AnyString "words")].
Definition sample_tree : json := default JNull
  (match bundle_tree (λ _, 0) (λ _, "") (Some defaultAuthKinds) "okx" sample_fields ["apiKey"; "apiSecret"; "passphrase"] with
   | Ok t => Some t | Err _ => None end).

Lemma bundle_decodes_witness :
  @Decode bits_json (Some defaultAuthKinds) "okx" (@json_marshal bits_json sample_tree) =
    Ok (mkDecoded "okx" AuthAPIKeySecretPassphrase (APIKeySecretPassphrase "key-1" "s3cret" "words")).
Proof.
  refine (eq_trans (@bundle_decodes (λ _, 0) (λ _, "") _ bits_json bits_json_laws defaultAuthKinds AuthAPIKeySecretPassphrase "okx" sample_fields
    ["apiKey"; "apiSecret"; "passphrase"] sample_tree _ _ _ _ _ _) _); [|vm_compute; reflexivity..| |vm_compute; reflexivity].
  - intros _. unfold int64_min, int64_max. lia.
  - unfold maxBundleBytes. split; vm_compute; congruence.
Defined.

Lemma Decode_complete_witness :
  ∃ payload d, @Decode bits_json (Some defaultAuthKinds) "okx" payload = Ok d ∧ complete (dc_Credentials d) ∧
    ∃ bundle metadata secrets, @json_parse bits_json payload = Some (JObject bundle) ∧ states_number bundle "schemaVersion" 1 ∧
      supplied metadata secrets (dc_Credentials d).
Proof.
  exists (@json_marshal bits_json sample_tree). destruct (Decode _ _ _) as [d|] eqn:E; [|vm_compute in E; discriminate].
  exists d. split; [reflexivity|].
  destruct (@Decode_complete bits_json defaultAuthKinds "okx" _ d E) as (_ & _ & _ & _ & Hc & _ & b & m & s & Hp & _ & Hv & _ & _ & _ & _ & Hs).
  split; [exact Hc|]. exists b, m, s. split; [exact Hp|]. split; [exact Hv|exact Hs].
Defined.

(** A Lighter bundle without its two required indices is accepted for account 0. *)
Definition bare_lighter : json := JObject
  [("schemaVersion", JNumber "1"); ("venue", JString "lighter"); ("authKind", JString "lighter_signer");
   ("metadata", JObject []); ("secrets", JObject [("privateKey", JString "k")])].
Example lighter_without_indices :
  @Decode bits_json (Some defaultAuthKinds) "lighter" (@json_marshal bits_json bare_lighter) =
    Ok (mkDecoded "lighter" AuthLighterSigner (LighterSigner "k" 0 0)).
Proof. vm_compute. reflexivity. Qed.
