(* ===== verification/Manager.v ===== *)
(** * The account manager

    [gateway/account/manager.go] and [clients.go]: registration of accounts,
    their live clients, and the delegation of every account operation to the
    account's runtime.  A venue client is opened by the factory (a parameter)
    under a fresh handle, so that what is open, who owns it and what is closed
    can be stated.  [Create] and [Delete] are several atomic sections, which
    other calls may interleave with. *)

From Stdlib Require Import Ascii String ZArith Lia.
From stdpp Require Import base list strings gmap.
From S2P Require Import Prelude GoStrings Decimals Errors Model Venue MarketCatalog HttpErrors Orders Runtime Store Credentials.

#[local] Open Scope string_scope.
#[local] Open Scope list_scope.
#[local] Open Scope Z_scope.
#[local] Open Scope go_scope.

(** ** Account ids *)

Definition id_alphabet : string := "abcdefghijklmnopqrstuvwxyz234567".
Definition id_byte (n : Z) : ascii := default "a"%char (String.get (Z.to_nat n) id_alphabet).
(** The digits of a number, most significant first. *)
Fixpoint digits32 (w : nat) (n : Z) : string :=
  match w with
  | O => ""
  | S w' => digits32 w' (n / 32) +:+ String (id_byte (n mod 32)) ""
  end.
(** [idEncoding.EncodeToString]: groups of five bits, the last one filled up
    with zeros *)
Definition base32 (bytes : list Z) : string :=
  let value := foldl (λ acc b, 256 * acc + b) 0 bytes in
  let bits := (8 * length bytes)%nat in
  let groups := ((bits + 4) / 5)%nat in
  digits32 groups (value * 2 ^ Z.of_nat (5 * groups - bits)).
Definition newAccountID (entropy : option (list Z)) : result error string :=
  match entropy with
  | None => Err (EText "entropy")
  | Some bytes => Ok ("acc_" +:+ base32 bytes)
  end.

Example base32_ex : newAccountID (Some [0; 1; 2; 3; 4; 255]) = Ok "acc_aaaqeaye74".
Proof. vm_compute. reflexivity. Qed.

(** ** Client handles *)

Record handles := mkHandles { hd_next : nat; hd_open : gset nat }.
Definition open_client (h : handles) : handles := mkHandles (S (hd_next h)) ({[hd_next h]} ∪ hd_open h).
Definition close_clients (h : handles) (ids : list nat) : handles := mkHandles (hd_next h) (hd_open h ∖ list_to_set ids).

(** The switch of [buildClients]: the markets a credential type has a client
    for, and whether it is the perpetual one. *)
Definition client_of (c : Credentials) (market : string) : option bool :=
  let among spot perp := if one_of market spot then Some false else if one_of market perp then Some true else None in
  match c with
  | APIKeySecret _ _ =>
      among ["binance:spot"; "bybit:spot"; "gate:spot"] ["binance:perp:USDT"; "bybit:perp:USDT"; "bybit:perp:USDC"; "gate:perp:USDT"]
  | APIKeySecretPassphrase _ _ _ => among ["okx:spot"; "bitget:spot"] ["okx:perp:USDT"; "bitget:perp:USDT"; "bitget:perp:USDC"]
  | LighterSigner _ _ _ => among ["lighter:spot"] ["lighter:perp:USDC"]
  | EVMPrivateKey _ _ => among ["hyperliquid:spot"] ["hyperliquid:perp:USDC"]
  | AsterAPIWallet _ _ _ | NadoSigner _ _ => None
  end.

Section manager.
Context `{Decimal D} `{AEAD} `{JsonText}.
(** Numbers of a request; the hash that names an account's budget; the client
    factory, which gets that name. *)
Context (implementation : float64 → Z) (float_text : float64 → string).
Context (principal : string → string) (factory : string → Market → bool → Credentials → result error (VenueClient D)).

(** ** State *)

(** A runtime and the handles of its clients. *)
Record managed := mkManaged { mr_runtime : runtime D; mr_handles : list nat }.
Record Manager := mkManager {
  mg_store : Store; mg_catalog : Catalog D; mg_credentials : option (gmap string AuthKind);
  mg_runtimes : gmap string managed; mg_clients : handles;
}.
Implicit Types m : Manager.
Definition NewManager (store : Store) (catalog : Catalog D) : Manager :=
  mkManager store catalog (Some defaultAuthKinds) ∅ (mkHandles 0 ∅).

Definition set_store m (s : Store) : Manager := mkManager s (mg_catalog m) (mg_credentials m) (mg_runtimes m) (mg_clients m).
Definition set_runtimes m (r : gmap string managed) : Manager := mkManager (mg_store m) (mg_catalog m) (mg_credentials m) r (mg_clients m).
Definition set_clients m (h : handles) : Manager := mkManager (mg_store m) (mg_catalog m) (mg_credentials m) (mg_runtimes m) h.

(** ** Clients *)

Fixpoint build_markets (account : string) (c : Credentials) (markets : list Market) (h : handles)
    (built : list (routeClient D)) (ids : list nat) : handles * result error (list (routeClient D) * list nat) :=
  match markets with
  | [] => (h, Ok (built, ids))
  | market :: rest =>
      match client_of c (Market_String market) with
      | None => build_markets account c rest h built ids
      | Some perp =>
          match factory (principal account) market perp c with
          | Err e => (close_clients h ids, Err (EWrap (Market_String market) [e]))
          | Ok client =>
              build_markets account c rest (open_client h) (built ++ [mkRouteClient market perp client]) (ids ++ [hd_next h])
          end
      end
  end.
Definition buildClients (account : string) (decoded : Decoded) (h : handles) : handles * result error (list (routeClient D) * list nat) :=
  match build_markets account (dc_Credentials decoded) (MarketsOf (dc_Venue decoded)) h [] [] with
  | (h, Err e) => (h, Err e)
  | (h, Ok ([], _)) => (h, Err (EText ("venue " +:+ dc_Venue decoded +:+ " is not supported")))
  | (h, Ok built) => (h, Ok built)
  end.

(** ** Start *)

Definition activate m (account : Account) : Manager * option error :=
  match Get_account (mg_store m) (at_ID account) with
  | Err e => (m, Some e)
  | Ok (_, bundle) =>
      match Decode (mg_credentials m) (at_Venue account) bundle with
      | Err e => (m, Some e)
      | Ok decoded =>
          match buildClients (at_ID account) decoded (mg_clients m) with
          | (h, Err e) => (set_clients m h, Some e)
          | (h, Ok (clients, ids)) =>
              let rt := newRuntime (at_ID account) (at_Venue account) clients (mg_catalog m) in
              (set_runtimes (set_clients m h) (<[at_ID account := mkManaged rt ids]> (mg_runtimes m)), None)
          end
      end
  end.
(** A failing account is skipped. *)
Definition Start m : Manager := foldl (λ m account, (activate m account).1) m (List_accounts (mg_store m)).

(** ** Accounts *)

Record AccountView := mkView { vw_Account : Account; vw_Markets : list string; vw_Active : bool }.
Definition client_markets (clients : list (routeClient D)) : list string := map (λ c, Market_String (rc_market c)) clients.
Definition List_views m : list AccountView :=
  map (λ account,
         match mg_runtimes m !! at_ID account with
         | Some rt => mkView account (client_markets (rn_clients (mr_runtime rt))) true
         | None => mkView account [] false
         end) (List_accounts (mg_store m)).

Record CreateRequest := mkCreate { cr_Venue : string; cr_Label : string; cr_Credentials : gmap string any }.

(** [Manager.bundle] *)
Definition bundle m (venueName : string) (fields : gmap string any) (order : list string) : result error string :=
  tree <-? bundle_tree implementation float_text (mg_credentials m) venueName fields order ;; Ok (json_marshal tree).

(** The balance read of every market of a new account. *)
Fixpoint verify (rt : runtime D) (clients : list (routeClient D)) : runtime D * option error :=
  match clients with
  | [] => (rt, None)
  | client :: rest =>
      match fetchBalances rt client with
      | (rt, Err e) => (rt, Some e)
      | (rt, Ok _) => verify rt rest
      end
  end.
Definition verification_error (e : error) : error :=
  match Classify (Some e) with
  | Some failure =>
      if decide (vf_Category failure = CategoryCredentials)
      then EWrap "credential verification failed" [ESentinel CredentialFailed; EVenueFailure failure] else EVenueFailure failure
  | None => e
  end.

(** A registration between its sections: verified, not yet stored or not yet
    published. *)
Record registration := mkRegistration {
  rg_ID : string; rg_Venue : string; rg_Label : string; rg_Bundle : string; rg_Runtime : managed;
}.

(** [Create] up to the store: [order] is the order the request's keys are
    visited in and [entropy] what the random source returned. *)
Definition create_verify m (request : CreateRequest) (order : list string) (entropy : option (list Z)) : Manager * result error registration :=
  let venueName := ToLower (TrimSpace (cr_Venue request)) in
  if negb (Supported venueName) then (m, Err (account_invalid "unsupported venue"))
  else
    let label := TrimSpace (cr_Label request) in
    if 64 <? Z.of_nat (String.length label) then (m, Err (account_invalid "label is too long"))
    else match bundle m venueName (cr_Credentials request) order with
    | Err e => (m, Err e)
    | Ok text =>
        match Decode (mg_credentials m) venueName text with
        | Err _ => (m, Err (account_invalid "credentials do not match the venue's fields"))
        | Ok decoded =>
            match newAccountID entropy with
            | Err e => (m, Err e)
            | Ok id =>
                match buildClients id decoded (mg_clients m) with
                | (h, Err e) => (set_clients m h, Err (account_invalid (safeMessage (Some e))))
                | (h, Ok (clients, ids)) =>
                    match verify (newRuntime id venueName clients (mg_catalog m)) clients with
                    | (_, Some e) => (set_clients m (close_clients h ids), Err (verification_error e))
                    | (rt, None) =>
                        (set_clients m h,
                         Ok (mkRegistration id venueName (if is_empty label then venueName else label) text (mkManaged rt ids)))
                    end
                end
            end
        end
    end.
Definition registered (r : registration) (now : time) : Account := mkAccount (rg_ID r) (rg_Venue r) (rg_Label r) now.
Definition create_store m (r : registration) (now : time) (nonce : option string) (fault : option nat) : Manager * option error :=
  match Store.Create (mg_store m) (registered r now) (rg_Bundle r) nonce fault with
  | (s, Some e) => (set_clients (set_store m s) (close_clients (mg_clients m) (mr_handles (rg_Runtime r))), Some e)
  | (s, None) => (set_store m s, None)
  end.
Definition create_publish m (r : registration) (now : time) : Manager * AccountView :=
  (set_runtimes m (<[rg_ID r := rg_Runtime r]> (mg_runtimes m)),
   mkView (registered r now) (client_markets (rn_clients (mr_runtime (rg_Runtime r)))) true).
Definition Create m (request : CreateRequest) order entropy now nonce fault : Manager * result error AccountView :=
  match create_verify m request order entropy with
  | (m, Err e) => (m, Err e)
  | (m, Ok r) =>
      match create_store m r now nonce fault with
      | (m, Some e) => (m, Err e)
      | (m, None) => let (m, view) := create_publish m r now in (m, Ok view)
      end
  end.

Definition delete_store m (id : string) (fault : option nat) : Manager * option error :=
  match Store.Delete (mg_store m) id fault with
  | (s, Some e) => (set_store m s, Some (if errors_is (TSentinel StoreNotFound) (Some e) then ESentinel AccountNotFound else e))
  | (s, None) => (set_store m s, None)
  end.
Definition owned_handles (rt : option managed) : list nat := match rt with Some rt => mr_handles rt | None => [] end.
Definition delete_runtime m (id : string) : Manager :=
  set_runtimes (set_clients m (close_clients (mg_clients m) (owned_handles (mg_runtimes m !! id)))) (delete id (mg_runtimes m)).
Definition Delete m (id : string) (fault : option nat) : Manager * option error :=
  match delete_store m id fault with
  | (m, Some e) => (m, Some e)
  | (m, None) => (delete_runtime m id, None)
  end.
Definition all_handles (runtimes : gmap string managed) : list nat := concat (map mr_handles (map_values runtimes)).
Definition Close m : Manager := set_runtimes (set_clients m (close_clients (mg_clients m) (all_handles (mg_runtimes m)))) ∅.

(** ** Delegation *)

(** [Manager.runtime] *)
Definition runtime_of m (id : string) : result error (runtime D) :=
  match mg_runtimes m !! id with Some rt => Ok (mr_runtime rt) | None => Err (ESentinel AccountNotFound) end.
Definition set_runtime m (id : string) (rt : runtime D) : Manager :=
  set_runtimes m (alter (λ r, mkManaged rt (mr_handles r)) id (mg_runtimes m)).
Definition invalid_instrument {A} (r : result error A) (text : error → string) : result error A :=
  match r with Ok a => Ok a | Err e => Err (account_invalid (text e)) end.
Context (text : error → string).

Definition resolve m (id instrument : string) : result error (runtime D * MInstrument D) :=
  rt <-? runtime_of m id ;;
  i <-? invalid_instrument (Get (mg_catalog m) instrument) text ;;
  Ok (rt, i).
Definition resolveOptional m (id instrument : string) : result error (runtime D * option (MInstrument D)) :=
  if is_empty instrument then rt <-? runtime_of m id ;; Ok (rt, None)
  else found <-? resolve m id instrument ;; Ok (found.1, Some found.2).

(** An operation that changes the account's runtime. *)
Definition on_runtime {A} m (id : string) (r : result error (runtime D * result error A)) : Manager * result error A :=
  match r with
  | Err e => (m, Err e)
  | Ok (rt, out) => (set_runtime m id rt, out)
  end.
Definition Positions m (id : string) : Manager * result error (list GPosition) :=
  on_runtime m id (rt <-? runtime_of m id ;; Ok (Runtime.Positions rt)).
Definition Balances m (id : string) : Manager * result error (list GBalance) :=
  on_runtime m id (rt <-? runtime_of m id ;; Ok (Runtime.Balances rt)).
Definition Place m (id : string) (now : time) (request : PlaceRequest) : Manager * result error PlaceResult :=
  on_runtime m id (found <-? resolve m id (pq_Instrument request) ;; Ok (Runtime.Place found.1 now found.2 request)).
Definition Lookup m (id instrument clientOrderID orderID : string) : result error LookupResult :=
  found <-? resolve m id instrument ;; Runtime.Lookup found.1 found.2 clientOrderID orderID.
Definition Cancel m (id instrument orderID : string) : result error unit :=
  found <-? resolve m id instrument ;; Runtime.Cancel found.1 found.2 orderID.
Definition OpenOrders m (id instrument : string) : result error (list GOrder) :=
  found <-? resolveOptional m id instrument ;; Runtime.OpenOrders found.1 found.2.
Definition Fills m (id instrument : string) (start : time) (limit : Z) : result error (list GFill) :=
  found <-? resolveOptional m id instrument ;; Runtime.Fills found.1 found.2 start limit.
Definition SetLeverage m (id instrument : string) (leverage : Z) : Manager * result error Z :=
  on_runtime m id (found <-? resolve m id instrument ;; Ok (Runtime.SetLeverage found.1 found.2 leverage)).
Definition ValidKey m (account : string) : option error :=
  match runtime_of m account with Ok _ => None | Err e => Some e end.

(** [Venues] *)
Record VenueInfo := mkVenueInfo { vi_Venue : string; vi_Markets : list string; vi_Fields : list Field }.
Definition Venue_infos m : list VenueInfo :=
  map (λ name, mkVenueInfo name (map Market_String (MarketsOf name))
                 (match Registry_Schema (mg_credentials m) name with Ok schema => sm_Fields schema | Err _ => [] end)) Venues.
End manager.

(** ** Who owns a client *)

(** The open clients are exactly [l], each once. *)
Record owns (h : handles) (l : list nat) : Prop := {
  ow_distinct : NoDup l;
  ow_open : hd_open h = list_to_set l;
  ow_old : Forall (λ n, (n < hd_next h)%nat) l;
}.

Lemma owns_perm h l l' : l ≡ₚ l' → owns h l → owns h l'.
Proof. intros Hp [H1 H2 H3]. split; [by rewrite <- Hp|by rewrite H2, Hp|by rewrite <- Hp]. Qed.

Lemma owns_close h a l : owns h (a ++ l) → owns (close_clients h a) l.
Proof.
  intros [Hnd Ho Hold]. apply NoDup_app in Hnd as (_ & Hdis & Hnd). apply Forall_app in Hold as [_ Hold].
  split; [done| |done]. simpl. rewrite Ho, list_to_set_app_L. apply leibniz_equiv.
  intros n. rewrite elem_of_difference, elem_of_union, !elem_of_list_to_set. split; [tauto|]. intros Hn.
  split; [by right|]. intros Ha. by apply (Hdis n).
Qed.

Lemma owns_open h l : owns h l → owns (open_client h) (hd_next h :: l).
Proof.
  intros [Hnd Ho Hold]. split; simpl.
  - constructor; [|done]. intros Hn. rewrite Forall_forall in Hold. apply Hold in Hn. lia.
  - by rewrite Ho.
  - constructor; [lia|]. eapply Forall_impl; [exact Hold|]. simpl. lia.
Qed.

Section clients.
Context `{Decimal D}.
Context (principal : string → string) (factory : string → Market → bool → Credentials → result error (VenueClient D)).
Abbreviation buildm := (build_markets principal factory).

Lemma build_markets_owns account c markets h built ids l :
  owns h (ids ++ l) → length built = length ids →
  match buildm account c markets h built ids with
  | (h', Ok (built', ids')) => owns h' (ids' ++ l) ∧ length built' = length ids'
  | (h', Err _) => owns h' l
  end.
Proof.
  revert h built ids. induction markets as [|market markets IH]; intros h built ids Ho Hlen; cbn [build_markets]; [done|].
  destruct (client_of c (Market_String market)) as [perp|]; [|by apply IH].
  destruct (factory (principal account) market perp c) as [client|e]; [|by apply owns_close].
  apply IH; [|rewrite !length_app; simpl; lia].
  eapply owns_perm; [|by apply owns_open]. rewrite <- app_assoc. simpl. by rewrite Permutation_middle.
Qed.

Lemma buildClients_owns account decoded h l : owns h l →
  match buildClients principal factory account decoded h with
  | (h', Ok (_, ids)) => owns h' (ids ++ l)
  | (h', Err _) => owns h' l
  end.
Proof.
  intros Ho. unfold buildClients.
  pose proof (build_markets_owns account (dc_Credentials decoded) (MarketsOf (dc_Venue decoded)) h [] [] l Ho eq_refl) as Hb.
  destruct (buildm _ _ _ _ _ _) as [h' [[[|client built] ids]|e]]; [|tauto|done].
  destruct Hb as [Hb Hlen]. destruct ids; [done|by simpl in Hlen].
Qed.

(** The clients built depend on the credentials only. *)
Lemma build_markets_same account c markets h1 h2 built ids1 ids2 :
  match (buildm account c markets h1 built ids1).2, (buildm account c markets h2 built ids2).2 with
  | Ok (b1, _), Ok (b2, _) => b1 = b2
  | Err e1, Err e2 => e1 = e2
  | _, _ => False
  end.
Proof.
  revert h1 h2 built ids1 ids2. induction markets as [|market markets IH]; intros; cbn [build_markets]; [done|].
  destruct (client_of c (Market_String market)) as [perp|]; [|apply IH].
  destruct (factory (principal account) market perp c) as [client|e]; [apply IH|done].
Qed.

(** Each client is the factory's, for the account's own budget and the given
    credentials. *)
Definition made_for (account : string) (c : Credentials) (client : routeClient D) : Prop :=
  client_of c (Market_String (rc_market client)) = Some (rc_perp client) ∧
  factory (principal account) (rc_market client) (rc_perp client) c = Ok (rc_client client).

Lemma build_markets_made account c markets h built ids h' built' ids' :
  Forall (made_for account c) built → buildm account c markets h built ids = (h', Ok (built', ids')) →
  Forall (made_for account c) built'.
Proof.
  revert h built ids. induction markets as [|market markets IH]; intros h built ids Hb; cbn [build_markets]; [by intros [= _ <- _]|].
  destruct (client_of c (Market_String market)) as [perp|] eqn:Ec; [|by apply IH].
  destruct (factory (principal account) market perp c) as [client|e] eqn:Ef; [|done].
  apply IH. apply Forall_app. split; [done|]. by constructor.
Qed.
End clients.

(** ** Interleaved calls *)

Section interleaving.
Context `{Decimal D} `{AEAD} `{JsonText}.
Context (implementation : float64 → Z) (float_text : float64 → string).
Context (principal : string → string) (factory : string → Market → bool → Credentials → result error (VenueClient D)).

(** The manager, the registrations between their sections, and the ids handed
    out so far. *)
Record system := mkSystem {
  sy_manager : Manager (D:=D); sy_verified : list (registration (D:=D)); sy_stored : list (registration (D:=D)); sy_used : gset string;
}.
Implicit Types s : system.
Abbreviation verify_request := (create_verify implementation float_text principal factory).

(** One atomic section of one call.  The random source does not repeat an id. *)
Inductive step : system → system → Prop :=
| step_verified s request order entropy m r :
    verify_request (sy_manager s) request order entropy = (m, Ok r) → rg_ID r ∉ sy_used s →
    step s (mkSystem m (r :: sy_verified s) (sy_stored s) ({[rg_ID r]} ∪ sy_used s))
| step_refused s request order entropy m e :
    verify_request (sy_manager s) request order entropy = (m, Err e) →
    step s (mkSystem m (sy_verified s) (sy_stored s) (sy_used s))
| step_stored s before r after now nonce fault m :
    sy_verified s = before ++ r :: after → create_store (sy_manager s) r now nonce fault = (m, None) →
    step s (mkSystem m (before ++ after) (r :: sy_stored s) (sy_used s))
| step_not_stored s before r after now nonce fault m e :
    sy_verified s = before ++ r :: after → create_store (sy_manager s) r now nonce fault = (m, Some e) →
    step s (mkSystem m (before ++ after) (sy_stored s) (sy_used s))
| step_published s before r after now :
    sy_stored s = before ++ r :: after →
    step s (mkSystem (create_publish (sy_manager s) r now).1 (sy_verified s) (before ++ after) (sy_used s))
| step_deleted s id fault :
    step s (mkSystem (delete_store (sy_manager s) id fault).1 (sy_verified s) (sy_stored s) (sy_used s))
| step_runtime_deleted s id :
    step s (mkSystem (delete_runtime (sy_manager s) id) (sy_verified s) (sy_stored s) (sy_used s))
| step_operation s id rt :
    step s (mkSystem (set_runtime (sy_manager s) id rt) (sy_verified s) (sy_stored s) (sy_used s))
| step_closed s : step s (mkSystem (Close (sy_manager s)) (sy_verified s) (sy_stored s) (sy_used s)).

(** The process starts by activating the stored accounts. *)
Definition started (store : Store) (catalog : Catalog D) : system :=
  mkSystem (Start principal factory (NewManager store catalog)) [] [] (list_to_set (map at_ID (List_accounts store))).

Definition registrations s : list (registration (D:=D)) := sy_verified s ++ sy_stored s.
Definition registration_handles (l : list (registration (D:=D))) : list nat := concat (map (λ r, mr_handles (rg_Runtime r)) l).
(** Every client somebody is responsible for. *)
Definition accounted s : list nat := registration_handles (registrations s) ++ all_handles (mg_runtimes (sy_manager s)).

Record inv s : Prop := {
  iv_owns : owns (mg_clients (sy_manager s)) (accounted s);
  iv_distinct : NoDup (map (λ r, rg_ID r) (registrations s));
  iv_fresh : ∀ r, r ∈ registrations s → mg_runtimes (sy_manager s) !! rg_ID r = None;
  iv_used : ∀ r, r ∈ registrations s → rg_ID r ∈ sy_used s;
  iv_active : ∀ id, is_Some (mg_runtimes (sy_manager s) !! id) → id ∈ sy_used s;
}.

Lemma all_handles_insert (runtimes : gmap string (managed (D:=D))) id rt : runtimes !! id = None →
  all_handles (<[id := rt]> runtimes) ≡ₚ mr_handles rt ++ all_handles runtimes.
Proof. intros Hid. unfold all_handles, map_values. rewrite map_to_list_insert by done. done. Qed.

Lemma all_handles_delete (runtimes : gmap string (managed (D:=D))) id :
  all_handles runtimes ≡ₚ owned_handles (runtimes !! id) ++ all_handles (delete id runtimes).
Proof.
  destruct (runtimes !! id) as [rt|] eqn:E; simpl; [|by rewrite delete_id].
  rewrite <- (all_handles_insert _ id rt) by apply lookup_delete_eq. by rewrite insert_delete_id.
Qed.

Lemma all_handles_alter (runtimes : gmap string (managed (D:=D))) id f : (∀ rt, mr_handles (f rt) = mr_handles rt) →
  all_handles (alter f id runtimes) ≡ₚ all_handles runtimes.
Proof.
  intros Hf. rewrite (all_handles_delete (alter f id runtimes) id), (all_handles_delete runtimes id), lookup_alter_eq, delete_alter_eq.
  destruct (runtimes !! id); simpl; [by rewrite Hf|done].
Qed.

Lemma registration_handles_perm l l' : l ≡ₚ l' → registration_handles l ≡ₚ registration_handles l'.
Proof. intros Hp. unfold registration_handles. by rewrite Hp. Qed.

(** What [create_verify] does to the clients and to nothing else. *)
Lemma create_verify_spec m request order entropy l : owns (mg_clients m) l →
  match verify_request m request order entropy with
  | (m', out) =>
      mg_store m' = mg_store m ∧ mg_runtimes m' = mg_runtimes m ∧ mg_catalog m' = mg_catalog m ∧ mg_credentials m' = mg_credentials m ∧
      match out with
      | Ok r => owns (mg_clients m') (mr_handles (rg_Runtime r) ++ l)
      | Err _ => owns (mg_clients m') l
      end
  end.
Proof.
  intros Ho. unfold create_verify. cbv zeta. destruct (negb _); [done|]. destruct (64 <? _); [done|].
  destruct (bundle _ _ _ _ _ _) as [text|e]; [|done]. destruct (Decode _ _ _) as [decoded|e]; [|done].
  destruct (newAccountID entropy) as [id|e]; [|done].
  pose proof (buildClients_owns principal factory id decoded (mg_clients m) l Ho) as Hb.
  destruct (buildClients _ _ _ _ _) as [h [[clients ids]|e]]; [|done].
  destruct (verify _ _) as [rt [e|]]; [|done]. split_and!; try done. by apply owns_close.
Qed.

(** The registrations may be regrouped. *)
Lemma inv_regroup m verified stored verified' stored' used :
  verified' ++ stored' ≡ₚ verified ++ stored → inv (mkSystem m verified stored used) → inv (mkSystem m verified' stored' used).
Proof.
  intros Hp [J1 J2 J3 J4 J5]. unfold accounted, registrations in *; simpl in *. split; simpl; unfold accounted, registrations; simpl.
  - eapply owns_perm; [|exact J1]. by rewrite (registration_handles_perm _ _ Hp).
  - by rewrite Hp.
  - intros r. rewrite Hp. apply J3.
  - intros r. rewrite Hp. apply J4.
  - done.
Qed.

(** The first registration is given up, with its clients. *)
Lemma inv_drop m m' r verified stored used : mg_runtimes m' = mg_runtimes m →
  mg_clients m' = close_clients (mg_clients m) (mr_handles (rg_Runtime r)) →
  inv (mkSystem m (r :: verified) stored used) → inv (mkSystem m' verified stored used).
Proof.
  intros Hrt Hcl [J1 J2 J3 J4 J5]. unfold accounted, registrations in *; simpl in *.
  split; simpl; unfold accounted, registrations; simpl; rewrite ?Hrt, ?Hcl.
  - apply owns_close. by rewrite app_assoc.
  - by apply NoDup_cons_1_2 in J2.
  - intros r' Hr'. apply J3. by right.
  - intros r' Hr'. apply J4. by right.
  - done.
Qed.

Lemma inv_publish m r verified stored used now :
  inv (mkSystem m (r :: verified) stored used) → inv (mkSystem (create_publish m r now).1 verified stored used).
Proof.
  intros [J1 J2 J3 J4 J5]. unfold accounted, registrations in *; simpl in *.
  pose proof (J3 r ltac:(left)) as Hnone. pose proof (NoDup_cons_1_1 _ _ J2) as Hne.
  split; simpl; unfold accounted, registrations; simpl.
  - eapply owns_perm; [|exact J1]. rewrite all_handles_insert by done.
    change (registration_handles (r :: verified ++ stored)) with (mr_handles (rg_Runtime r) ++ registration_handles (verified ++ stored)).
    rewrite !app_assoc. by rewrite (Permutation_app_comm (mr_handles (rg_Runtime r))).
  - by apply NoDup_cons_1_2 in J2.
  - intros r' Hr'. rewrite lookup_insert_ne; [apply J3; by right|]. intros E. apply Hne. rewrite E. apply list_elem_of_fmap. eauto.
  - intros r' Hr'. apply J4. by right.
  - intros id [rt [[<- _]|[_ E]]%lookup_insert_Some]; [apply J4; left|]. apply J5. by eexists.
Qed.

(** Runtimes disappear, with their clients, or keep them. *)
Lemma inv_runtimes m m' verified stored used closed :
  mg_clients m' = close_clients (mg_clients m) closed → all_handles (mg_runtimes m) ≡ₚ closed ++ all_handles (mg_runtimes m') →
  (∀ id, is_Some (mg_runtimes m' !! id) → is_Some (mg_runtimes m !! id)) →
  inv (mkSystem m verified stored used) → inv (mkSystem m' verified stored used).
Proof.
  intros Hcl Hall Hdom [J1 J2 J3 J4 J5]. unfold accounted, registrations in *; simpl in *.
  split; simpl; unfold accounted, registrations; simpl; try done.
  - rewrite Hcl. apply owns_close. eapply owns_perm; [|exact J1]. rewrite Hall, !app_assoc. by rewrite (Permutation_app_comm _ closed).
  - intros r Hr. destruct (mg_runtimes m' !! rg_ID r) eqn:E; [|done]. destruct (Hdom (rg_ID r)) as [? E']; [by eexists|].
    by rewrite (J3 r Hr) in E'.
  - intros id Hid. by apply J5, Hdom.
Qed.

Lemma manager_step_inv s s' : step s s' → inv s → inv s'.
Proof.
  intros Hst Hi. destruct Hst as [s request order entropy m r E Hid|s request order entropy m e E|s before r after now nonce fault m Hv E|
    s before r after now nonce fault m e Hv E|s before r after now Hs|s id fault|s id|s id rt|s]; destruct s as [m0 verified stored used]; simpl in *.
  - pose proof (create_verify_spec m0 request order entropy _ (iv_owns _ Hi)) as Hc. rewrite E in Hc.
    destruct Hc as (_ & Hrt & _ & _ & Ho), Hi as [J1 J2 J3 J4 J5]. unfold accounted, registrations in *; simpl in *.
    split; simpl; unfold accounted, registrations; simpl; rewrite ?Hrt.
    + by rewrite app_assoc in Ho.
    + constructor; [|done]. intros (r' & Hr' & Hin)%list_elem_of_fmap. rewrite Hr' in Hid. by apply Hid, J4.
    + intros r' [->|Hr']%elem_of_cons; [|by apply J3]. destruct (mg_runtimes m0 !! rg_ID r) eqn:Er; [|done].
      destruct Hid. apply J5. by eexists.
    + intros r' [->|Hr']%elem_of_cons; [set_solver|]. apply elem_of_union_r. by apply J4.
    + intros id ?. apply elem_of_union_r. by apply J5.
  - pose proof (create_verify_spec m0 request order entropy _ (iv_owns _ Hi)) as Hc. rewrite E in Hc.
    destruct Hc as (_ & Hrt & _ & _ & Ho), Hi as [J1 J2 J3 J4 J5]. split; simpl; rewrite ?Hrt; try done.
    unfold accounted in *; simpl in *. by rewrite Hrt.
  - subst verified. unfold create_store in E. destruct (Store.Create _ _ _ _ _) as [st [e|]]; [done|]. injection E as <-.
    assert (Hg : inv (mkSystem m0 (before ++ after) (r :: stored) used)).
    { eapply inv_regroup; [|exact Hi]. rewrite <- !app_assoc. simpl. by rewrite <- !Permutation_middle, app_assoc. }
    destruct Hg as [J1 J2 J3 J4 J5]. by split.
  - subst verified. unfold create_store in E. destruct (Store.Create _ _ _ _ _) as [st [e'|]]; [|done]. injection E as <- _.
    apply (inv_drop m0 _ r); [done|done|]. eapply inv_regroup; [|exact Hi]. simpl. rewrite <- !app_assoc. simpl. by rewrite Permutation_middle.
  - subst stored. apply (inv_publish _ r _ _ _ now). eapply inv_regroup; [|exact Hi]. simpl. by rewrite !app_assoc, Permutation_middle.
  - unfold delete_store. destruct (Store.Delete _ _ _) as [st [e|]]; simpl; destruct Hi as [J1 J2 J3 J4 J5]; by split.
  - eapply inv_runtimes; [done|apply all_handles_delete| |exact Hi]. simpl. intros i [rt E]. apply lookup_delete_Some in E as [_ E]. by eexists.
  - apply (inv_runtimes m0 _ _ _ _ []); [| | |exact Hi]; simpl.
    + unfold close_clients. destruct (mg_clients m0). f_equal. set_solver.
    + symmetry. by apply all_handles_alter.
    + intros i. destruct (decide (i = id)) as [->|Hne]; [rewrite lookup_alter_eq, fmap_is_Some; done|by rewrite lookup_alter_ne].
  - eapply inv_runtimes; [done| | |exact Hi]; simpl; [by rewrite app_nil_r|]. intros id [rt E]. by rewrite lookup_empty in E.
Qed.

Abbreviation activate_account := (activate principal factory).

Lemma activate_owns (m : Manager (D:=D)) account : owns (mg_clients m) (all_handles (mg_runtimes m)) → mg_runtimes m !! at_ID account = None →
  let m' := (activate_account m account).1 in
  owns (mg_clients m') (all_handles (mg_runtimes m')) ∧ mg_store m' = mg_store m ∧
  ∀ id, is_Some (mg_runtimes m' !! id) → id = at_ID account ∨ is_Some (mg_runtimes m !! id).
Proof.
  intros Ho Hnone. unfold activate. destruct (Get_account _ _) as [[? bundle]|]; [|by auto].
  destruct (Decode _ _ _) as [decoded|]; [|by auto].
  pose proof (buildClients_owns principal factory (at_ID account) decoded (mg_clients m) _ Ho) as Hb.
  destruct (buildClients _ _ _ _ _) as [h [[clients ids]|e]]; simpl; [|by auto]. split_and!; [|done|].
  - eapply owns_perm; [|exact Hb]. by rewrite all_handles_insert.
  - intros id [rt [[<- _]|[_ E]]%lookup_insert_Some]; [by left|right]. by eexists.
Qed.

Lemma start_owns accounts (m : Manager (D:=D)) : NoDup (map at_ID accounts) →
  owns (mg_clients m) (all_handles (mg_runtimes m)) → (∀ account, account ∈ accounts → mg_runtimes m !! at_ID account = None) →
  let m' := foldl (λ m account, (activate_account m account).1) m accounts in
  owns (mg_clients m') (all_handles (mg_runtimes m')) ∧
  ∀ id, is_Some (mg_runtimes m' !! id) → id ∈ map at_ID accounts ∨ is_Some (mg_runtimes m !! id).
Proof.
  revert m. induction accounts as [|account accounts IH]; intros m Hnd Ho Hnone; simpl; [by auto|].
  pose proof (NoDup_cons_1_1 _ _ Hnd) as Hni. apply NoDup_cons_1_2 in Hnd.
  destruct (activate_owns m account Ho (Hnone account ltac:(left))) as (Ho' & _ & Hdom).
  destruct (IH (activate_account m account).1 Hnd Ho') as [Ho'' Hdom''].
  { intros a Ha. destruct (mg_runtimes (activate_account m account).1 !! at_ID a) eqn:E; [|done].
    destruct (Hdom (at_ID a)) as [Heq|[? E']]; [by eexists| |].
    - destruct Hni. rewrite <- Heq. by apply list_elem_of_fmap_2.
    - rewrite (Hnone a) in E'; [done|by right]. }
  split; [done|]. intros id Hid. destruct (Hdom'' id Hid) as [Hin|Hs]; [left; by right|].
  destruct (Hdom id Hs) as [->|Hs']; [left; left|by right].
Qed.

Lemma started_inv store catalog : NoDup (map at_ID (List_accounts store)) → inv (started store catalog).
Proof.
  intros Hnd. destruct (start_owns (List_accounts store) (NewManager store catalog) Hnd) as [Ho Hdom].
  { split; [constructor|done|constructor]. }
  { intros. apply lookup_empty. }
  split; simpl; try done; try (by intros r ?%not_elem_of_nil).
  - constructor.
  - intros id Hid. destruct (Hdom id Hid) as [Hin|[? E]]; [by apply elem_of_list_to_set|cbn [NewManager mg_runtimes] in E; by rewrite lookup_empty in E].
Qed.

(** C27: no venue client is leaked or shared, however registrations, deletions,
    operations and shutdown interleave: the open clients are at any moment
    exactly those of the active accounts and of the registrations in progress,
    each owned once; and once no registration is in progress, closing the
    manager leaves no client open. *)
Theorem clients_accounted store catalog s :
  NoDup (map at_ID (List_accounts store)) → rtc step (started store catalog) s →
  NoDup (accounted s) ∧ hd_open (mg_clients (sy_manager s)) = list_to_set (accounted s) ∧
  (registrations s = [] → hd_open (mg_clients (Close (sy_manager s))) = ∅).
Proof.
  intros Hnd Hr. assert (Hi : inv s).
  { revert Hr. apply (rtc_ind_r inv); [by apply started_inv|]. intros y z _ Hst Hy. by eapply manager_step_inv. }
  destruct (iv_owns _ Hi) as [Hd Ho _]. split; [done|]. split; [done|]. intros Hnone. simpl. rewrite Ho.
  unfold accounted. rewrite Hnone. simpl. set_solver.
Qed.
End interleaving.

(** ** Registration, end to end *)

Section registration.
Context `{Decimal D} `{AEADLaws} `{JsonLaws}.
Context (implementation : float64 → Z) (float_text : float64 → string).
Context (Himpl : ∀ f, int64_min ≤ implementation f ≤ int64_max).
Context (principal : string → string) (factory : string → Market → bool → Credentials → result error (VenueClient D)).

Lemma verify_clients (rt : runtime D) clients : rn_clients (verify rt clients).1 = rn_clients rt.
Proof.
  revert rt. induction clients as [|client clients IH]; intros rt; cbn [verify]; [done|]. unfold fetchBalances.
  destruct (vc_balances (rc_client client)); [|done]. by rewrite IH.
Qed.

Lemma buildClients_Ok account decoded h h' clients ids :
  buildClients principal factory account decoded h = (h', Ok (clients, ids)) →
  Forall (made_for principal factory account (dc_Credentials decoded)) clients ∧
  ∀ h2, ∃ h2' ids', buildClients principal factory account decoded h2 = (h2', Ok (clients, ids')).
Proof.
  unfold buildClients. intros E. destruct (build_markets _ _ _ _ _ _ _ _) as [h1 [[built ids1]|e]] eqn:Eb; [|done].
  assert (Hcl : built = clients ∧ built ≠ []) by (destruct built; simplify_eq; done). destruct Hcl as [-> Hne].
  split; [by eapply build_markets_made; [|exact Eb]; constructor|]. intros h2.
  pose proof (build_markets_same principal factory account (dc_Credentials decoded) (MarketsOf (dc_Venue decoded)) h h2 [] [] []) as Hs.
  rewrite Eb in Hs. destruct (build_markets _ _ _ _ _ h2 _ _) as [h2' [[b2 ids2]|e2]] eqn:E2; rewrite ?E2 in Hs; [|done].
  cbn in Hs. subst b2. destruct clients; [done|]. by eexists _, _.
Qed.

(** What a verified registration is made of. *)
Lemma create_verify_Ok m request order entropy m' r :
  create_verify implementation float_text principal factory m request order entropy = (m', Ok r) →
  ∃ tree decoded h ids,
    rg_Venue r = ToLower (TrimSpace (cr_Venue request)) ∧
    bundle_tree implementation float_text (mg_credentials m) (rg_Venue r) (cr_Credentials request) order = Ok tree ∧
    rg_Bundle r = json_marshal tree ∧ Decode (mg_credentials m) (rg_Venue r) (rg_Bundle r) = Ok decoded ∧
    buildClients principal factory (rg_ID r) decoded (mg_clients m) = (h, Ok (rn_clients (mr_runtime (rg_Runtime r)), ids)).
Proof.
  unfold create_verify. cbv zeta. set (venue := ToLower _). destruct (negb _); [done|]. destruct (64 <? _); [done|].
  destruct (bundle _ _ _ _ _ _) as [text|e] eqn:Hb; [|done]. destruct (Decode _ _ _) as [decoded|e] eqn:Hd; [|done].
  destruct (newAccountID entropy) as [id|e]; [|done].
  destruct (buildClients _ _ _ _ _) as [h [[clients ids]|e]] eqn:Hc; [|done].
  pose proof (verify_clients (newRuntime id venue clients (mg_catalog m)) clients) as Hv.
  destruct (verify _ _) as [rt [e|]]; [done|]. intros [= _ <-]. simpl in *.
  unfold bundle in Hb. apply bind_Ok in Hb as (tree & Ht & [= <-]).
  exists tree, decoded, h, ids. rewrite Hv. done.
Qed.

(** C26: a registered account survives a restart.  When [Create] succeeds, the
    account is active with clients made from exactly the credentials that were
    entered, under its own budget; the account file, read back by the next
    process, opens, and activating the account from it builds the very same
    clients from the same credentials. *)
Theorem account_survives_restart m authKinds request order entropy now nonce fault m' view :
  mg_credentials m = Some authKinds → store_ok (mg_store m) → String.length nonce = NonceSize →
  (∀ tree, bundle_tree implementation float_text (Some authKinds) (ToLower (TrimSpace (cr_Venue request))) (cr_Credentials request) order
           = Ok tree → json_clean tree = true) →
  Create implementation float_text principal factory m request order entropy now (Some nonce) fault = (m', Ok view) →
  let account := vw_Account view in
  ∃ kind c rt,
    authKinds !! at_Venue account = Some kind ∧ entered implementation kind (cr_Credentials request) = Some c ∧
    mg_runtimes m' !! at_ID account = Some rt ∧
    Forall (made_for principal factory (at_ID account) c) (rn_clients (mr_runtime rt)) ∧
    Store.Open (st_disk (mg_store m')) = Ok (mg_store m') ∧
    ∀ catalog, ∃ m2 rt2,
      activate principal factory (mkManager (mg_store m') catalog (mg_credentials m) ∅ (mkHandles 0 ∅)) account = (m2, None) ∧
      mg_runtimes m2 !! at_ID account = Some rt2 ∧ rn_clients (mr_runtime rt2) = rn_clients (mr_runtime rt).
Proof.
  intros Hcred Hok Hnonce Hclean. unfold Create.
  destruct (create_verify _ _ _ _ _ _ _ _) as [m1 [r|e]] eqn:Hv; [|done].
  assert (Hm1 : mg_store m1 = mg_store m ∧ mg_catalog m1 = mg_catalog m ∧ mg_credentials m1 = mg_credentials m).
  { revert Hv. unfold create_verify. cbv zeta. repeat case_match; intros; simplify_eq; done. }
  destruct Hm1 as (Hst1 & _ & Hcr1). destruct (create_verify_Ok _ _ _ _ _ _ Hv) as (tree & decoded & h & ids & Hven & Ht & Hbt & Hd & Hb).
  rewrite Hcred in Ht, Hd. unfold create_store. rewrite Hst1.
  destruct (Store.Create (mg_store m) (registered r now) (rg_Bundle r) (Some nonce) fault) as [st [e|]] eqn:Hc; [done|].
  intros [= <- <-]. simpl.
  pose proof (Create_ok (mg_store m) (registered r now) (rg_Bundle r) (Some nonce) fault Hok ltac:(by intros ? [= <-])) as Hok'.
  rewrite Hc in Hok'. simpl in Hok'. pose proof (Get_Create _ _ _ _ _ _ Hnonce Hc) as Hget. cbn [registered at_ID] in Hget.
  destruct (Decode_Ok _ _ _ _ Hd) as (Hdv & Hnorm & Hkind & _ & _ & Hlen & bundle & _ & _ & Hparse & Hscan & _).
  assert (Htc : json_clean tree = true) by (apply Hclean; by rewrite <- Hven).
  rewrite Hbt in Hparse, Hlen. rewrite json_parse_marshal in Hparse by done. injection Hparse as Htree. rewrite <- Htree in Hscan.
  pose proof (decode_bundle implementation float_text Himpl authKinds (dc_AuthKind decoded) (rg_Venue r) (cr_Credentials request) order tree
    Hkind Hnorm Ht Htc Hscan Hlen) as Hdec.
  rewrite Hbt in Hd. rewrite Hd in Hdec. destruct (entered _ _ _) as [c|] eqn:He; [|done]. injection Hdec as Hdec.
  destruct (buildClients_Ok _ _ _ _ _ _ Hb) as [Hmade Hagain].
  exists (dc_AuthKind decoded), c, (rg_Runtime r). split; [done|]. split; [done|]. split; [apply lookup_insert_eq|].
  split; [by rewrite Hdec in Hmade|]. split; [apply Hok'|]. intros catalog.
  unfold activate. cbn [mg_store mg_credentials mg_clients mg_catalog at_ID at_Venue registered]. rewrite Hget, Hcred, Hbt, Hd.
  destruct (Hagain (mkHandles 0 ∅)) as (h2 & ids2 & ->).
  eexists _, _. split; [reflexivity|]. split; [apply lookup_insert_eq|done].
Qed.
End registration.

(** ** Concrete runs *)

#[local] Existing Instance bits_json.
#[local] Existing Instance bits_json_laws.
#[local] Existing Instance checksum_aead.
#[local] Existing Instance checksum_laws.

Definition sample_factory (_ : string) (_ : Market) (_ : bool) (_ : Credentials) : result error (VenueClient Z) := Ok sample_client.
Definition okx_request : CreateRequest := mkCreate " OKX " "main" sample_fields.
Definition okx_keys : list string := ["apiKey"; "apiSecret"; "passphrase"].
Definition new_manager : Manager (D:=Z) := NewManager empty_store NewCatalog.
Definition okx_created :=
  Create (λ _, 0) (λ _, "") id sample_factory new_manager okx_request okx_keys (Some [1; 2; 3; 4; 5; 6]) unix_epoch (Some "n") None.

Lemma account_survives_restart_witness :
  ∃ view, okx_created.2 = Ok view ∧ vw_Markets view = ["okx:perp:USDT"; "okx:spot"] ∧
  ∃ kind c rt, defaultAuthKinds !! at_Venue (vw_Account view) = Some kind ∧ entered (λ _, 0) kind sample_fields = Some c ∧
    mg_runtimes okx_created.1 !! at_ID (vw_Account view) = Some rt ∧
    Store.Open (st_disk (mg_store okx_created.1)) = Ok (mg_store okx_created.1).
Proof.
  assert (Hm : match okx_created.2 with Ok v => vw_Markets v | Err _ => [] end = ["okx:perp:USDT"; "okx:spot"]) by (vm_compute; reflexivity).
  destruct okx_created as [m' [view|e]] eqn:E; [|discriminate Hm]. exists view. split; [reflexivity|]. split; [exact Hm|].
  destruct (account_survives_restart (λ _, 0) (λ _, "") ltac:(intros ?; unfold int64_min, int64_max; lia) id sample_factory
    new_manager defaultAuthKinds okx_request okx_keys (Some [1; 2; 3; 4; 5; 6]) unix_epoch "n" None m' view)
    as (kind & c & rt & Hk & He & Hr & _ & Ho & _).
  - reflexivity.
  - apply empty_store_ok.
  - reflexivity.
  - intros tree Ht. assert (Hc : match bundle_tree (λ _, 0) (λ _, "") (Some defaultAuthKinds) (ToLower (TrimSpace (cr_Venue okx_request)))
      (cr_Credentials okx_request) okx_keys with Ok t => json_clean t | Err _ => true end = true) by (vm_compute; reflexivity).
    rewrite Ht in Hc. exact Hc.
  - exact E.
  - exists kind, c, rt. split; [exact Hk|]. split; [exact He|]. split; [exact Hr|exact Ho].
Defined.

(** One registration in progress: its two clients are open and accounted for. *)
Definition okx_verified :=
  create_verify (λ _, 0) (λ _, "") id sample_factory new_manager okx_request okx_keys (Some [1; 2; 3; 4; 5; 6]).

Lemma clients_accounted_witness :
  ∃ m r, okx_verified = (m, Ok r) ∧ mr_handles (rg_Runtime r) = [0; 1]%nat ∧
    hd_open (mg_clients m) = list_to_set (accounted (mkSystem m [r] [] {[rg_ID r]})).
Proof.
  assert (Hh : match okx_verified.2 with Ok r => mr_handles (rg_Runtime r) | Err _ => [] end = [0; 1]%nat) by (vm_compute; reflexivity).
  destruct okx_verified as [m [r|e]] eqn:E; [|discriminate Hh]. exists m, r. split; [reflexivity|]. split; [exact Hh|].
  destruct (clients_accounted (λ _, 0) (λ _, "") id sample_factory empty_store NewCatalog (mkSystem m [r] [] ({[rg_ID r]} ∪ ∅))) as (_ & Ho & _).
  - constructor.
  - eapply rtc_once. exact (step_verified (λ _, 0) (λ _, "") id sample_factory (started id sample_factory empty_store NewCatalog)
      okx_request okx_keys (Some [1; 2; 3; 4; 5; 6]) m r E (not_elem_of_empty (rg_ID r))).
  - exact Ho.
Defined.

(** The two sections of [Create] and those of [Delete] do interleave: an account
    whose deletion falls between its storing and its publication stays active
    although it is no longer stored. *)
Definition raced : option (Manager (D:=Z) * string) :=
  match okx_verified with
  | (m, Ok r) =>
      let m := (create_store m r unix_epoch (Some "n") None).1 in
      let m := delete_runtime (delete_store m (rg_ID r) None).1 (rg_ID r) in
      Some ((create_publish m r unix_epoch).1, rg_ID r)
  | _ => None
  end.
Lemma deletion_races_creation :
  match raced with
  | Some (m, id) => bool_decide (is_Some (mg_runtimes m !! id)) = true ∧ List_accounts (mg_store m) = []
  | None => False
  end.
Proof. vm_compute. split; reflexivity. Qed.
