(* ===== verification/Api.v ===== *)
(** * The gateway's HTTP surface

    [gateway/api/api.go]: authentication, routes, handlers and the mapping of
    errors to answers.  A request's path is the list of its segments, escaped and
    decoded; a body is the first JSON value it holds. *)

From Stdlib Require Import Ascii String ZArith Lia.
From stdpp Require Import base list strings gmap.
From S2P Require Import Prelude GoStrings Decimals Errors Model Venue MarketCatalog HttpErrors Orders OrderBook Hub Runtime Store Feeds Credentials Manager.

#[local] Open Scope string_scope.
#[local] Open Scope list_scope.
#[local] Open Scope Z_scope.
#[local] Open Scope go_scope.

(** ** Requests and answers *)

Record http_request := mkHttpRequest {
  rq_method : string;
  (** the segments of the path, as they were escaped and decoded *)
  rq_escaped : list string; rq_segments : list string;
  rq_authorization : string;
  (** [r.URL.Query().Get] *)
  rq_query : string → string;
  (** [None]: no JSON value within the first 64 KiB *)
  rq_body : option json;
}.
(** [r.URL.Path] *)
Definition url_path (r : http_request) : string := "/" +:+ Join "/" (rq_segments r).

Inductive payload :=
| PayHealth (markets : list MarketStatus) (topics : nat) | PayVenues (venues : list VenueInfo)
| PayInstruments {D} (l : list (MInstrument D)) | PayBook (b : Book) | PayCandles (l : list MCandle) | PayStats (s : Stats24h)
| PayAccounts (l : list AccountView) | PayAccount (v : AccountView)
| PayBalances (l : list GBalance) | PayPositions (l : list GPosition) | PayOrders (l : list GOrder) | PayFills (l : list GFill)
| PayPlace (p : PlaceResult) | PayLookup (r : LookupResult) | PayOk | PayLeverage (n : Z) | PayNone.
Inductive content :=
| CError (code message : string)
| CFailure (failure : VenueFailure)
| CPayload (p : payload)
(** the mux's own text answers, and the upgrade to a websocket *)
| CMux | CUpgrade.
Record reply := mkReply { rp_status : Z; rp_content : content }.

Definition writeError (status : Z) (code message : string) : reply := mkReply status (CError code message).
Definition writeJSON (status : Z) (value : payload) : reply := mkReply status (CPayload value).

(** ** Routes *)

Inductive endpoint :=
| EpHealth | EpVenues | EpInstruments | EpOrderBook | EpCandles | EpTicker | EpListAccounts | EpCreateAccount
| EpDeleteAccount (id : string) | EpBalances (id : string) | EpPositions (id : string) | EpOpenOrders (id : string)
| EpLookupOrder (id : string) | EpPlaceOrder (id : string) | EpCancelOrder (id orderId : string) | EpFills (id : string)
| EpSetLeverage (id : string) | EpWebsocket.

(** The handlers registered for a path, by method. *)
Definition handlers (segments : list string) : list (string * endpoint) :=
  match segments with
  | ["v1"; name] =>
      if String.eqb name "health" then [("GET", EpHealth)]
      else if String.eqb name "venues" then [("GET", EpVenues)]
      else if String.eqb name "instruments" then [("GET", EpInstruments)]
      else if String.eqb name "orderbook" then [("GET", EpOrderBook)]
      else if String.eqb name "candles" then [("GET", EpCandles)]
      else if String.eqb name "ticker" then [("GET", EpTicker)]
      else if String.eqb name "accounts" then [("GET", EpListAccounts); ("POST", EpCreateAccount)]
      else if String.eqb name "ws" then [("GET", EpWebsocket)]
      else []
  | ["v1"; "accounts"; id] => [("DELETE", EpDeleteAccount id)]
  | ["v1"; "accounts"; id; name] =>
      if String.eqb name "balances" then [("GET", EpBalances id)]
      else if String.eqb name "positions" then [("GET", EpPositions id)]
      else if String.eqb name "orders" then [("GET", EpOpenOrders id); ("POST", EpPlaceOrder id)]
      else if String.eqb name "fills" then [("GET", EpFills id)]
      else if String.eqb name "leverage" then [("PUT", EpSetLeverage id)]
      else []
  | ["v1"; "accounts"; id; "orders"; name] =>
      (if String.eqb name "lookup" then [("GET", EpLookupOrder id)] else []) ++ [("DELETE", EpCancelOrder id name)]
  | _ => []
  end.
(** The mux redirects an escaped path that is not clean, and matches the decoded
    segments; a wildcard does not match the empty segment after a trailing slash. *)
Definition clean_segment (segment : string) : bool := negb (one_of segment [""; "."; ".."]).
Definition trailing_slash (segments : list string) : bool :=
  match last segments with Some segment => String.eqb segment "" | None => false end.
Definition clean_path (segments : list string) : bool :=
  forallb clean_segment (if trailing_slash segments then removelast segments else segments).
(** The mux: a GET pattern also serves HEAD. *)
Definition route (method : string) (escaped segments : list string) : result Z endpoint :=
  let serves h := String.eqb h.1 method || (String.eqb h.1 "GET" && String.eqb method "HEAD") in
  if negb (clean_path escaped) then Err 301
  else if trailing_slash segments then Err 404
  else match handlers segments with
  | [] => Err 404
  | hs => match List.find serves hs with Some h => Ok h.2 | None => Err 405 end
  end.

(** ** Authentication and failures *)

Definition bearer : string := "Bearer ".
Definition authorized (token : string) (r : http_request) : bool :=
  HasPrefix (rq_authorization r) bearer && String.eqb (TrimPrefix (rq_authorization r) bearer) token.

(** The HTTP status of a category. *)
Definition category_status (c : Category) : Z :=
  match c with
  | CategoryNetwork => 502 | CategoryRejected => 422 | CategoryCredentials => 422 | CategoryRateLimited => 429
  | CategoryInvalid => 400 | CategoryUnsupported => 501 | CategoryVenue => 502
  end.
Definition fail (text : error → string) (err : error) : reply :=
  if errors_is (TSentinel AccountNotFound) (Some err) then writeError 404 "NOT_FOUND" "account not found"
  else if errors_is (TSentinel UnknownInstrument) (Some err) then writeError 404 "UNKNOWN_INSTRUMENT" (text err)
  else if errors_is (TSentinel AccountInvalidRequest) (Some err) then writeError 400 "INVALID_REQUEST" (text err)
  else if errors_is (TSentinel AccountUnsupported) (Some err) then writeError 501 "UNSUPPORTED" "operation is not supported for this venue"
  else match Classify (Some err) with
  | Some failure => mkReply (category_status (vf_Category failure)) (CFailure failure)
  | None => mkReply 502 CMux
  end.
Definition respond (text : error → string) (r : result error payload) : reply :=
  match r with Ok value => writeJSON 200 value | Err e => fail text e end.

(** ** Bodies and parameters *)

Definition invalid_json : reply := writeError 400 "INVALID_JSON" "request body is not valid JSON for this endpoint".
(** [decodeBody] into a struct with these fields *)
Definition decodeBody (fields : list (string * field_type)) (r : http_request) : option (gmap string json) :=
  rq_body r ≫= decodeStrict fields.

Definition place_fields : list (string * field_type) :=
  [("inst", FString); ("side", FString); ("type", FString); ("qty", FString); ("price", FString); ("tif", FString);
   ("reduceOnly", FBool); ("clientOrderId", FString)].
Definition place_request (m : gmap string json) : PlaceRequest :=
  mkPlaceRequest (text_of m "inst") (text_of m "side") (text_of m "type") (text_of m "qty") (text_of m "price") (text_of m "tif")
    (bool_of m "reduceOnly") (text_of m "clientOrderId").
Definition leverage_fields : list (string * field_type) := [("inst", FString); ("leverage", FInt)].

(** A JSON value decoded into [any]; [parse_float] is [strconv.ParseFloat]. *)
Definition any_of (parse_float : string → option float64) (v : json) : option any :=
  match v with
  | JNull => Some AnyNil | JBool b => Some (AnyBool b) | JString s => Some (AnyString s)
  | JNumber text => AnyFloat <$> parse_float text
  | JArray items => Some (AnySlice items) | JObject members => Some (AnyMap members)
  end.
Fixpoint any_members (parse_float : string → option float64) (members : list (string * json)) (acc : gmap string any) : option (gmap string any) :=
  match members with
  | [] => Some acc
  | (key, v) :: rest => a ← any_of parse_float v; any_members parse_float rest (<[key := a]> acc)
  end.
(** The members of a [CreateRequest]; a repeated credentials object adds to the
    map. *)
Fixpoint create_members (parse_float : string → option float64) (members : list (string * json)) (acc : CreateRequest) : option CreateRequest :=
  match members with
  | [] => Some acc
  | (key, v) :: rest =>
      '(name, _) ← find_field [("venue", FString); ("label", FString); ("credentials", FRaw)] key;
      next ←
        (if String.eqb name "credentials" then
           match v with
           | JNull => Some (mkCreate (cr_Venue acc) (cr_Label acc) ∅)
           | JObject fields => c ← any_members parse_float fields (cr_Credentials acc); Some (mkCreate (cr_Venue acc) (cr_Label acc) c)
           | _ => None
           end
         else match v with
           | JNull => Some acc
           | JString s => Some (if String.eqb name "venue" then mkCreate s (cr_Label acc) (cr_Credentials acc)
                                else mkCreate (cr_Venue acc) s (cr_Credentials acc))
           | _ => None
           end);
      create_members parse_float rest next
  end.
Definition create_request (parse_float : string → option float64) (r : http_request) : option CreateRequest :=
  match rq_body r with
  | Some (JObject members) => create_members parse_float members (mkCreate "" "" ∅)
  | Some JNull => Some (mkCreate "" "" ∅)
  | _ => None
  end.

(** [strconv.Atoi], its error ignored: a number out of range is the nearest in
    range, anything else 0. *)
Definition decimal_digits (s : string) : bool :=
  match s with "" => false | _ => string_forallb is_digit s end.
Definition Atoi (s : string) : Z :=
  match ParseInt s with
  | Some n => n
  | None =>
      match s with
      | String "-" s' => if decimal_digits s' then - 2 ^ 63 else 0
      | String "+" s' => if decimal_digits s' then 2 ^ 63 - 1 else 0
      | _ => if decimal_digits s then 2 ^ 63 - 1 else 0
      end
  end.
Definition parseMillis (value : string) : time :=
  match ParseInt value with
  | Some millis => if millis <=? 0 then zero_time else unix_epoch + millis * Millisecond
  | None => zero_time
  end.

(** ** The server *)

Section server.
Context `{Decimal D} `{AEAD} `{JsonText}.
Context (implementation : float64 → Z) (float_text : float64 → string) (parse_float : string → option float64).
Context (principal : string → string) (factory : string → Market → bool → Credentials → result error (VenueClient D)).
Context (connectors : Market → Connector D) (text : error → string).

Record Server := mkServer { sv_token : string; sv_accounts : Manager (D:=D); sv_public : Hub; sv_private : Hub }.
(** What a request may take from outside: the clock, the random source, the
    order of map iteration and a file-system fault. *)
Record environment := mkEnvironment {
  env_now : time; env_entropy : option (list Z); env_nonce : option string; env_fault : option nat; env_order : list string;
}.
Implicit Types (s : Server) (r : http_request) (e : environment).
Definition with_accounts s (m : Manager (D:=D)) : Server := mkServer (sv_token s) m (sv_public s) (sv_private s).
Definition ok_payload {A} (f : A → payload) (r : result error A) : result error payload :=
  match r with Ok a => Ok (f a) | Err err => Err err end.

Definition place_status (result : PlaceResult) : Z :=
  if String.eqb (pl_Status result) OutcomeRejected then 422
  else if String.eqb (pl_Status result) OutcomeUnknown then 202 else 200.

Definition handle s (ep : endpoint) r e : Server * reply :=
  let m := sv_accounts s in
  let query := rq_query r in
  let read (x : result error payload) := (s, respond text x) in
  match ep with
  | EpHealth => (s, writeJSON 200 (PayHealth (Status (mg_catalog m)) (Topics (sv_public s) + Topics (sv_private s))))
  | EpVenues => (s, writeJSON 200 (PayVenues (Venue_infos m)))
  | EpInstruments => (s, writeJSON 200 (PayInstruments (List_instruments (mg_catalog m) (query "venue") (query "product"))))
  | EpOrderBook => read (ok_payload PayBook (RestBook connectors (mg_catalog m) (query "inst") (Atoi (query "depth"))))
  | EpCandles =>
      read (ok_payload PayCandles (Feeds.Candles connectors (mg_catalog m) (query "inst") (query "interval")
                                     (parseMillis (query "start")) (parseMillis (query "end")) (Atoi (query "limit"))))
  | EpTicker => read (ok_payload PayStats (Stats connectors (mg_catalog m) (query "inst") (env_now e)))
  | EpListAccounts => (s, writeJSON 200 (PayAccounts (List_views m)))
  | EpCreateAccount =>
      match create_request parse_float r with
      | None => (s, invalid_json)
      | Some request =>
          match Manager.Create implementation float_text principal factory m request (env_order e) (env_entropy e) (env_now e) (env_nonce e) (env_fault e) with
          | (m, Err err) => (with_accounts s m, fail text err)
          | (m, Ok view) => (with_accounts s m, writeJSON 201 (PayAccount view))
          end
      end
  | EpDeleteAccount id =>
      match Manager.Delete m id (env_fault e) with
      | (m, Some err) => (with_accounts s m, fail text err)
      | (m, None) => (with_accounts s m, writeJSON 204 PayNone)
      end
  | EpBalances id => let (m, out) := Manager.Balances m id in (with_accounts s m, respond text (ok_payload PayBalances out))
  | EpPositions id => let (m, out) := Manager.Positions m id in (with_accounts s m, respond text (ok_payload PayPositions out))
  | EpOpenOrders id => read (ok_payload PayOrders (Manager.OpenOrders text m id (query "inst")))
  | EpFills id => read (ok_payload PayFills (Manager.Fills text m id (query "inst") (parseMillis (query "start")) (Atoi (query "limit"))))
  | EpLookupOrder id => read (ok_payload PayLookup (Manager.Lookup text m id (query "inst") (query "clientOrderId") (query "orderId")))
  | EpPlaceOrder id =>
      match decodeBody place_fields r with
      | None => (s, invalid_json)
      | Some body =>
          match Manager.Place text m id (env_now e) (place_request body) with
          | (m, Err err) => (with_accounts s m, fail text err)
          | (m, Ok result) => (with_accounts s m, writeJSON (place_status result) (PayPlace result))
          end
      end
  | EpCancelOrder id orderId =>
      match Manager.Cancel text m id (query "inst") orderId with
      | Err err => (s, fail text err)
      | Ok _ => (s, writeJSON 200 PayOk)
      end
  | EpSetLeverage id =>
      match decodeBody leverage_fields r with
      | None => (s, invalid_json)
      | Some body =>
          let (m, out) := Manager.SetLeverage text m id (text_of body "inst") (int_of body "leverage") in
          (with_accounts s m, respond text (ok_payload PayLeverage out))
      end
  | EpWebsocket => (s, mkReply 101 CUpgrade)
  end.

(** [ServeHTTP] *)
Definition ServeHTTP s r e : Server * reply :=
  if negb (String.eqb (url_path r) "/v1/health") && negb (authorized (sv_token s) r)
  then (s, writeError 401 "UNAUTHORIZED" "missing or invalid gateway token")
  else match route (rq_method r) (rq_escaped r) (rq_segments r) with
  | Err status => (s, mkReply status CMux)
  | Ok ep => handle s ep r e
  end.
End server.

(** ** Authentication *)

(** A path that reads [/v1/health], however it was split, has no handler but
    the health check. *)
Lemma health_only (escaped segments : list string) (method : string) ep :
  "/" +:+ Join "/" segments = "/v1/health" → route method escaped segments = Ok ep → ep = EpHealth.
Proof.
  unfold route. destruct (negb _); [done|]. destruct (trailing_slash _); [done|]. intros Hp Hr.
  assert (Hh : handlers segments = [] ∨ handlers segments = [("GET", EpHealth)]).
  { unfold handlers. destruct segments as [|a [|b [|c [|d [|f [|g l]]]]]]; auto; cbn in Hp |- *.
    all: repeat (match goal with |- context [match ?x with _ => _ end] => is_var x; destruct x end; auto; try discriminate).
    injection Hp. intros. subst. auto. }
  destruct Hh as [Hh|Hh]; rewrite Hh in Hr; [done|]. simpl in Hr. destruct (_ || _); [|done]. by injection Hr.
Qed.

Section theorems.
Context `{Decimal D} `{AEAD} `{JsonText}.
Context (implementation : float64 → Z) (float_text : float64 → string) (parse_float : string → option float64).
Context (principal : string → string) (factory : string → Market → bool → Credentials → result error (VenueClient D)).
Context (connectors : Market → Connector D) (text : error → string).
Abbreviation serve := (ServeHTTP implementation float_text parse_float principal factory connectors text).

Lemma authorized_iff token r : authorized token r = true ↔ rq_authorization r = "Bearer " +:+ token.
Proof.
  unfold authorized. split.
  - intros [Hp Ht%String.eqb_eq]%andb_prop. rewrite <- Ht. unfold TrimPrefix. rewrite Hp. by apply HasPrefix_split.
  - intros ->. destruct (prefix_drop bearer token) as [Hp Ht]. unfold bearer in *. by rewrite Hp, Ht, String.eqb_refl.
Qed.

(** C30: a request whose Authorization header is anything but the word Bearer, a
    space and the gateway's token changes nothing, whatever its method, body and
    spelling of the path, and learns nothing but the health summary: it is answered
    401 or, on the health path, with the health summary or the mux's own refusal. *)
Theorem token_required (s : Server (D:=D)) r e :
  rq_authorization r ≠ "Bearer " +:+ sv_token s →
  (serve s r e).1 = s ∧
  (rp_status (serve s r e).2 = 401 ∨
   (url_path r = "/v1/health" ∧
    ((∃ markets topics, (serve s r e).2 = writeJSON 200 (PayHealth markets topics)) ∨ rp_content (serve s r e).2 = CMux))).
Proof.
  intros Hh. assert (Ha : authorized (sv_token s) r = false) by (destruct (authorized (sv_token s) r) eqn:E; [by apply authorized_iff in E|done]).
  unfold ServeHTTP. rewrite Ha. destruct (String.eqb_spec (url_path r) "/v1/health") as [Hp|Hp]; cbn [negb andb].
  2:{ split; [done|by left]. }
  destruct (route (rq_method r) (rq_escaped r) (rq_segments r)) as [ep|status] eqn:Er; [|split; [done|right; eauto]].
  apply health_only in Er as ->; [|exact Hp]. cbn [handle fst snd]. split; [done|right; eauto].
Qed.

(** ** What a placement's status says *)

(** The statuses of an error answer. *)
Definition failure_statuses : list Z := [400; 404; 422; 429; 501; 502].
Lemma fail_status err : rp_status (fail text err) ∈ failure_statuses ∧ ∀ p, rp_content (fail text err) ≠ CPayload p.
Proof.
  assert (Hs : ∀ z, existsb (Z.eqb z) failure_statuses = true → z ∈ failure_statuses).
  { intros z (y & Hy & <-%Z.eqb_eq)%existsb_exists. by apply list_elem_of_In. }
  unfold fail. do 4 (destruct (errors_is _ _); [split; [by apply Hs|done]|]).
  destruct (Classify _) as [f|]; [|split; [by apply Hs|done]]. split; [|done]. apply Hs. by destruct (vf_Category f).
Qed.

Lemma place_status_classify now id order (ack : OrderAcknowledgement D) err :
  let status := place_status (classify now id order ack err) in
  (status = 200 ↔ err = None ∧ is_Some (accepted_status (ack_State ack))) ∧
  (status = 422 ↔ refused ack err) ∧ (status = 202 ∨ status = 200 ∨ status = 422).
Proof.
  cbv zeta. rewrite <- (classify_accepted now id order), <- (classify_refused now id order). unfold place_status.
  assert (Hc : let o := pl_Status (classify now id order ack err) in o = OutcomeAccepted ∨ o = OutcomeRejected ∨ o = OutcomeUnknown).
  { unfold classify. destruct err; [destruct (proves_refusal _ _)|destruct (accepted_status _); [|destruct (String.eqb _ _)]]; simpl; auto. }
  cbv zeta in Hc. destruct Hc as [Hc|[Hc|Hc]]; rewrite Hc; simpl; naive_solver.
Qed.

(** The order a placement request sends to the venue, with the venue's answer;
    [None] when the request is refused before that. *)
Definition venue_call (s : Server (D:=D)) r (id : string) : option (MInstrument D * PlaceOrderRequest D * (OrderAcknowledgement D * option error)) :=
  body ← decodeBody place_fields r;
  match resolve text (sv_accounts s) id (pq_Instrument (place_request body)) with
  | Ok (rt, i) =>
      match clientFor rt i, native (place_request body) i with
      | Ok client, Ok order => Some (i, order, vc_place (orders client) order)
      | _, _ => None
      end
  | Err _ => None
  end.

(** An interval the gateway does not support, which no venue was asked for, is
    answered like a reply of the venue that could not be understood. *)
Lemma bad_interval_answer (s : Server (D:=D)) r e :
  authorized (sv_token s) r = true → route (rq_method r) (rq_escaped r) (rq_segments r) = Ok EpCandles →
  validInterval (rq_query r "interval") = false →
  (serve s r e).2 = mkReply 502 (CFailure (mkFailure CategoryVenue "" "" "" false)).
Proof.
  intros Ha Hr Hi. unfold ServeHTTP. rewrite Ha, andb_false_r, Hr. cbn [handle]. unfold Feeds.Candles. by rewrite Hi.
Qed.
End theorems.

(** ** Concrete requests *)

#[local] Existing Instance bits_json.
#[local] Existing Instance checksum_aead.

Definition sample_manager : Manager (D:=Z) :=
  mkManager empty_store sample_catalog (Some defaultAuthKinds) {["acc1" := mkManaged sample_runtime []]} (mkHandles 0 ∅).
Definition sample_server : Server (D:=Z) := mkServer "secret" sample_manager Hub.New Hub.New.
Definition sample_environment : environment := mkEnvironment unix_epoch None None None [].
Definition sample_connector : Connector Z :=
  mkConnector (λ _ _, Err (EText "down")) (λ _ _ _ _ _, Err (EText "down")) (λ _, (mkFundingRate 0 0 (mkOptDec 0 false), false, None)) None.
Definition sample_serve := ServeHTTP (λ _, 0) (λ _, "") (λ _, None) id sample_factory (λ _, sample_connector) (λ _, "") sample_server.
Definition request_of (method : string) (segments : list string) (authorization : string) (body : option json) : http_request :=
  mkHttpRequest method segments segments authorization (λ _, "") body.
Definition order_body : json :=
  JObject [("inst", JString (pq_Instrument sample_request)); ("side", JString (pq_Side sample_request));
           ("type", JString (pq_Type sample_request)); ("qty", JString (pq_Quantity sample_request));
           ("price", JString (pq_Price sample_request)); ("tif", JString (pq_TimeInForce sample_request));
           ("reduceOnly", JBool (pq_ReduceOnly sample_request)); ("clientOrderId", JString (pq_ClientOrderID sample_request))].
Definition order_request : http_request :=
  request_of "POST" ["v1"; "accounts"; "acc1"; "orders"] "Bearer secret" (Some order_body).
Definition escaped_health : http_request := mkHttpRequest "GET" ["v1%2Fhealth"] ["v1/health"] "" (λ _, "") None.

Lemma token_required_witness :
  rp_status (sample_serve escaped_health sample_environment).2 = 404 ∧
  (sample_serve escaped_health sample_environment).1 = sample_server ∧
  rp_status (sample_serve (request_of "GET" ["v1"; "accounts"] "Bearer guess" None) sample_environment).2 = 401.
Proof.
  split; [vm_compute; reflexivity|]. split; [|vm_compute; reflexivity].
  apply (token_required (λ _, 0) (λ _, "") (λ _, None) id sample_factory (λ _, sample_connector) (λ _, "") sample_server escaped_health sample_environment).
  discriminate.
Defined.
