(* ===== verification/Websocket.v ===== *)
(** * The gateway's websocket connections

    [gateway/api/websocket.go]: the control protocol of a connection, its
    bounded queue and its subscriptions at the public and the private hub.  The
    hubs are shared by all connections; every hub operation is atomic (it holds
    the hub's mutex) and hands its payloads to the connections' queues before it
    returns.  The read loop, the writer and the hubs interleave. *)

From Stdlib Require Import Ascii String ZArith Lia.
From stdpp Require Import base list strings gmap relations.
From S2P Require Import Prelude GoStrings Decimals Errors Model Venue MarketCatalog Orders Hub Runtime Store Feeds Credentials Manager Api.

#[local] Open Scope string_scope.
#[local] Open Scope list_scope.
#[local] Open Scope Z_scope.
#[local] Open Scope go_scope.

(** ** Control messages *)

Definition maxSubscriptions : nat := 64.
Definition outboundQueue : nat := 1024.

Record control := mkControl { co_Op : string; co_Channel : string; co_Instrument : string; co_Interval : string; co_Account : string }.
Definition control_fields : list (string * field_type) :=
  [("op", FString); ("ch", FString); ("inst", FString); ("interval", FString); ("account", FString)].
Definition unmarshal_control (data : option json) : option control :=
  m ← data ≫= unmarshal control_fields;
  Some (mkControl (text_of m "op") (text_of m "ch") (text_of m "inst") (text_of m "interval") (text_of m "account")).

(** ** Connections *)

(** Which hub serves a topic. *)
Inductive owner := Public | Private.
#[export] Instance owner_eq_dec : EqDecision owner.
Proof. solve_decision. Defined.
Inductive frame := FHub (o : owner) (payload : string) | FError (message : string) | FPong.

(** [cx_written] is what the writer took off the queue, oldest first;
    [cx_ended]: the read loop returned, and [cx_subs] is what its deferred loop
    has yet to unsubscribe. *)
Record connection := mkConnection {
  cx_queue : list frame; cx_written : list frame; cx_cancelled : bool; cx_subs : gmap HKey owner; cx_ended : bool;
}.
Definition new_connection : connection := mkConnection [] [] false ∅ false.
Definition Send (c : connection) (f : frame) : connection :=
  if (length (cx_queue c) <? outboundQueue)%nat
  then mkConnection (cx_queue c ++ [f]) (cx_written c) (cx_cancelled c) (cx_subs c) (cx_ended c)
  else mkConnection (cx_queue c) (cx_written c) true (cx_subs c) (cx_ended c).
Definition set_subs (c : connection) (subs : gmap HKey owner) : connection :=
  mkConnection (cx_queue c) (cx_written c) (cx_cancelled c) subs (cx_ended c).
Definition cancel (c : connection) : connection := mkConnection (cx_queue c) (cx_written c) true (cx_subs c) (cx_ended c).
(** The writer takes the next payload; [failed] is [socket.Write]'s error. *)
Definition write (c : connection) (failed : bool) : connection :=
  match cx_queue c with
  | [] => c
  | f :: rest => mkConnection rest (cx_written c ++ [f]) (cx_cancelled c || failed) (cx_subs c) (cx_ended c)
  end.

(** ** The gateway *)

Section gateway.
Context `{Decimal D}.
Context (text : error → string).

Record gateway := mkGateway { gw_server : Server (D:=D); gw_conns : gmap nat connection; gw_next : nat }.
Implicit Types (g : gateway) (s : Server (D:=D)).

Definition hub_of s (o : owner) : Hub := match o with Public => sv_public s | Private => sv_private s end.
Definition set_hub s (o : owner) (h : Hub) : Server :=
  match o with
  | Public => mkServer (sv_token s) (sv_accounts s) h (sv_private s)
  | Private => mkServer (sv_token s) (sv_accounts s) (sv_public s) h
  end.

(** [server.route] *)
Definition route_key s (key : HKey) : HKey * result error owner :=
  if String.eqb (hk_Channel key) "account" then
    if negb (is_empty (hk_Instrument key)) || negb (is_empty (hk_Interval key)) then (key, Err (EText "invalid topic"))
    else (key, match Manager.ValidKey (sv_accounts s) (hk_Account key) with Some e => Err e | None => Ok Private end)
  else if negb (is_empty (hk_Account key)) then (key, Err (EText "invalid topic"))
  else
    let key := if String.eqb (hk_Channel key) "candle" then key else mkHKey (hk_Channel key) (hk_Instrument key) "" (hk_Account key) in
    (key, match Feeds.ValidKey (mg_catalog (sv_accounts s)) key with Err e => Err e | Ok _ => Ok Public end).

(** Hand the payloads of one hub operation to the connections. *)
Definition deliver (o : owner) (conns : gmap nat connection) (sent : list (nat * string)) : gmap nat connection :=
  foldl (λ cs '(sink, payload), alter (λ c, Send c (FHub o payload)) sink cs) conns sent.
Definition hub_op g (o : owner) (f : Hub → Hub) : gateway :=
  let h := hub_of (gw_server g) o in
  mkGateway (set_hub (gw_server g) o (f h)) (deliver o (gw_conns g) (drop (length (hb_sent h)) (hb_sent (f h)))) (gw_next g).
Definition set_conn g (sink : nat) (c : connection) : gateway :=
  mkGateway (gw_server g) (<[sink := c]> (gw_conns g)) (gw_next g).

(** One control message of connection [sink]; [in_time] says whether a lingering
    topic's timer was stopped in time. *)
Definition control_message g (sink : nat) (c : connection) (data : option json) (in_time : bool) : gateway :=
  let reply f := set_conn g sink (Send c f) in
  match unmarshal_control data with
  | None => reply (FError "invalid control message")
  | Some message =>
      if String.eqb (co_Op message) "ping" then reply FPong
      else
        let '(key, valid) := route_key (gw_server g)
          (mkHKey (co_Channel message) (co_Instrument message) (co_Interval message) (co_Account message)) in
        if String.eqb (co_Op message) "sub" then
          match valid with
          | Err e => reply (FError (text e))
          | Ok o =>
              if is_present (cx_subs c !! key) then g
              else if (maxSubscriptions <=? size (cx_subs c))%nat then reply (FError "too many subscriptions")
              else hub_op (set_conn g sink (set_subs c (<[key := o]> (cx_subs c)))) o (λ h, Subscribe h key sink in_time)
          end
        else if String.eqb (co_Op message) "unsub" then
          match cx_subs c !! key with
          | Some current => hub_op (set_conn g sink (set_subs c (delete key (cx_subs c)))) current (λ h, Unsubscribe h key sink)
          | None => g
          end
        else reply (FError "unknown op")
  end.

(** One turn of the deferred loop of an ended connection. *)
Definition detach g (sink : nat) (c : connection) (key : HKey) : gateway :=
  match cx_subs c !! key with
  | Some o => hub_op (set_conn g sink (set_subs c (delete key (cx_subs c)))) o (λ h, Unsubscribe h key sink)
  | None => g
  end.
Definition accept g : gateway := mkGateway (gw_server g) (<[gw_next g := new_connection]> (gw_conns g)) (S (gw_next g)).
Definition finish (c : connection) : connection := mkConnection (cx_queue c) (cx_written c) true (cx_subs c) true.

Inductive gateway_step : relation gateway :=
| step_accept g : gateway_step g (accept g)
| step_control g sink c data in_time :
    gw_conns g !! sink = Some c → cx_ended c = false → gateway_step g (control_message g sink c data in_time)
| step_write g sink c failed :
    gw_conns g !! sink = Some c → cx_cancelled c = false → gateway_step g (set_conn g sink (write c failed))
| step_ping_failed g sink c :
    gw_conns g !! sink = Some c → gateway_step g (set_conn g sink (cancel c))
| step_finish g sink c :
    gw_conns g !! sink = Some c → cx_ended c = false → gateway_step g (set_conn g sink (finish c))
| step_detach g sink c key :
    gw_conns g !! sink = Some c → cx_ended c = true → gateway_step g (detach g sink c key)
(** the linger timers, the sources' emissions and the shutdown of a hub *)
| step_timer g o timer : gateway_step g (hub_op g o (λ h, Fire h timer))
| step_source g o id channel payload retain : gateway_step g (hub_op g o (λ h, Emit h id channel payload retain))
| step_shutdown g o in_time : gateway_step g (hub_op g o (λ h, Hub.Close h in_time))
(** requests and refreshes change the accounts and the catalog *)
| step_accounts g m : gateway_step g (mkGateway (with_accounts (gw_server g) m) (gw_conns g) (gw_next g)).
End gateway.

(** ** Who is attached to a topic *)

Definition sinks_of (h : Hub) (key : HKey) : gset nat :=
  default ∅ (id ← hb_topics h !! key; tp_sinks <$> hb_store h !! id).

Lemma sinks_of_topic h key id t : hb_topics h !! key = Some id → hb_store h !! id = Some t → sinks_of h key = tp_sinks t.
Proof. unfold sinks_of. intros -> Ht. cbn [mbind option_bind]. by rewrite Ht. Qed.
Lemma sinks_of_none h key : hb_topics h !! key = None → sinks_of h key = ∅.
Proof. unfold sinks_of. by intros ->. Qed.

(** Replacing the topic of [key] in the store changes the sinks of [key] only. *)
Lemma sinks_of_update h key id t timers fresh closed sent k :
  hub_ok h → hb_topics h !! key = Some id →
  sinks_of (mkHub (hb_topics h) (<[id := t]> (hb_store h)) timers fresh closed sent) k = if decide (k = key) then tp_sinks t else sinks_of h k.
Proof.
  intros Hok Hk. unfold sinks_of. cbn [hb_topics hb_store]. case_decide as Hd.
  - subst k. rewrite Hk. cbn [mbind option_bind]. by rewrite lookup_insert_eq.
  - destruct (hb_topics h !! k) as [i|] eqn:Ei; [|done]. cbn [mbind option_bind]. rewrite lookup_insert_ne; [done|].
    intros <-. apply Hd. by eapply (ho_inj h Hok).
Qed.

Lemma sinks_of_Subscribe h key sink in_time k :
  hub_ok h → hb_closed h = false →
  sinks_of (Subscribe h key sink in_time) k = if decide (k = key) then {[sink]} ∪ sinks_of h k else sinks_of h k.
Proof.
  intros Hok Hc. unfold Subscribe. rewrite Hc. unfold open_topic. destruct (hb_topics h !! key) as [id|] eqn:Hk.
  - destruct (ho_live h Hok key id Hk) as (t & Ht & _). rewrite Ht. cbn [default]. rewrite (sinks_of_update h key) by done.
    case_decide; [|done]. subst k. by rewrite (sinks_of_topic h key id t).
  - cbv zeta. cbn [hb_topics hb_store tp_sinks new_topic]. case_decide as Hd.
    + subst k. unfold sinks_of at 1. cbn [hb_topics hb_store]. rewrite lookup_insert_eq. cbn [mbind option_bind].
      rewrite lookup_insert_eq. by rewrite (sinks_of_none h).
    + unfold sinks_of. cbn [hb_topics hb_store]. rewrite lookup_insert_ne by congruence.
      destruct (hb_topics h !! k) as [i|] eqn:Ei; [|done]. cbn [mbind option_bind].
      destruct (ho_live h Hok k i Ei) as (t & Ht & _). pose proof (ho_fresh_store h Hok i t Ht).
      rewrite !lookup_insert_ne by lia. done.
Qed.

Lemma sinks_of_Unsubscribe h key sink k :
  hub_ok h → sinks_of (Unsubscribe h key sink) k = if decide (k = key) then sinks_of h k ∖ {[sink]} else sinks_of h k.
Proof.
  intros Hok. unfold Unsubscribe. destruct (hb_topics h !! key) as [id|] eqn:Hk.
  2:{ case_decide; [|done]. subst k. rewrite (sinks_of_none h) by done. set_solver. }
  destruct (ho_live h Hok key id Hk) as (t & Ht & _). rewrite Ht. cbv zeta. unfold set_topic.
  destruct (_ || _); rewrite (sinks_of_update h key) by done; (case_decide; [|done]); subst k; by rewrite (sinks_of_topic h key id t).
Qed.

Lemma sinks_of_Emit h id channel payload retain k : hub_ok h → sinks_of (Emit h id channel payload retain) k = sinks_of h k.
Proof.
  intros Hok. unfold Emit. destruct payload; [|done]. destruct (hb_store h !! id) as [t|] eqn:Ht; [|done].
  destruct (tp_cancelled t) eqn:Hc; [done|]. destruct (ho_running h Hok id t Ht Hc) as [key Hk].
  rewrite (sinks_of_update h key) by done. case_decide; [|done]. subst k. rewrite (sinks_of_topic h key id t) by done. by destruct retain.
Qed.

Lemma sinks_of_Fire h timer k : hub_ok h → sinks_of (Fire h timer) k = sinks_of h k.
Proof.
  intros Hok. unfold Fire. destruct (hb_timers h !! timer) as [[key id]|]; [|done].
  destruct (hb_store h !! id) as [t|] eqn:Ht; [|done].
  destruct (bool_decide_reflect (hb_topics h !! key = Some id)) as [Hk|]; [|done].
  destruct (bool_decide_reflect (tp_sinks t = ∅)) as [Hs|]; [|done]. cbn [andb].
  destruct (decide (k = key)) as [->|Hd].
  - rewrite (sinks_of_topic h key id t), Hs by done. unfold sinks_of. cbn [hb_topics]. by rewrite lookup_delete_eq.
  - unfold sinks_of. cbn [hb_topics hb_store]. rewrite lookup_delete_ne by congruence.
    destruct (hb_topics h !! k) as [i|] eqn:Ei; [|done]. cbn [mbind option_bind]. rewrite lookup_insert_ne; [done|].
    intros <-. apply Hd. by eapply (ho_inj h Hok).
Qed.

(** What an operation hands out is appended to the log. *)
Lemma hub_step_sent h h' : hub_step h h' → ∃ new, hb_sent h' = hb_sent h ++ new.
Proof.
  destruct 1; unfold Subscribe, Unsubscribe, Fire, Hub.Close, Emit, open_topic, set_topic; repeat case_match; simplify_eq;
    simpl; eauto; by exists []; rewrite app_nil_r.
Qed.

(** ** Delivery *)

(** The payloads handed to one sink, and the frames of one hub. *)
Definition payloads_for (sink : nat) (sent : list (nat * string)) : list string :=
  omap (λ '(s, payload), if decide (s = sink) then Some payload else None) sent.
Definition hub_frames (o : owner) (frames : list frame) : list string :=
  omap (λ f, match f with FHub o' payload => if decide (o' = o) then Some payload else None | _ => None end) frames.

Lemma deliver_lookup o conns sent sink :
  deliver o conns sent !! sink = (λ c, foldl Send c (map (FHub o) (payloads_for sink sent))) <$> conns !! sink.
Proof.
  unfold deliver, payloads_for. revert conns. induction sent as [|[s p] sent IH]; intros conns; cbn [foldl omap list_omap].
  { cbn [map foldl]. by destruct (conns !! sink). }
  rewrite IH. case_decide as Hd.
  - subst s. rewrite lookup_alter_eq. cbn [map foldl]. by destruct (conns !! sink).
  - by rewrite lookup_alter_ne by done.
Qed.

Lemma sends_fields c fs :
  let c' := foldl Send c fs in
  cx_subs c' = cx_subs c ∧ cx_ended c' = cx_ended c ∧ cx_written c' = cx_written c ∧
  ((length (cx_queue c) ≤ outboundQueue)%nat → (length (cx_queue c') ≤ outboundQueue)%nat) ∧
  (cx_cancelled c' = false → cx_cancelled c = false ∧ cx_queue c' = cx_queue c ++ fs).
Proof.
  revert c. induction fs as [|f fs IH]; intros c; cbn [foldl]; cbv zeta.
  { rewrite app_nil_r. done. }
  destruct (IH (Send c f)) as (Hs & He & Hw & Hq & Hc). rewrite Hs, He, Hw. clear IH Hs He Hw. revert Hq Hc. unfold Send.
  destruct (Nat.ltb_spec (length (cx_queue c)) outboundQueue) as [Hlt|Hge]; cbn [cx_queue cx_cancelled cx_subs cx_ended cx_written];
    intros Hq Hc; (split_and!; [done..| |]).
  - intros _. apply Hq. rewrite length_app. simpl. lia.
  - intros Hx. destruct (Hc Hx) as [Hy ->]. by rewrite <- app_assoc.
  - done.
  - intros Hx. by destruct (Hc Hx).
Qed.

Lemma payloads_for_app sink a b : payloads_for sink (a ++ b) = payloads_for sink a ++ payloads_for sink b.
Proof. apply omap_app. Qed.
Lemma hub_frames_app o a b : hub_frames o (a ++ b) = hub_frames o a ++ hub_frames o b.
Proof. apply omap_app. Qed.
Lemma hub_frames_own o o' l : hub_frames o (map (FHub o') l) = if decide (o' = o) then l else [].
Proof.
  unfold hub_frames. induction l as [|p l IH]; cbn [map omap list_omap]; [by case_decide|]. rewrite IH. by case_decide.
Qed.
Lemma payloads_for_none sink sent : (∀ p, (sink, p) ∉ sent) → payloads_for sink sent = [].
Proof.
  unfold payloads_for. induction sent as [|[s p] sent IH]; intros Hn; [done|]. cbn [omap list_omap]. case_decide as Hd.
  - subst s. destruct (Hn p). left.
  - apply IH. intros q Hq. apply (Hn q). by right.
Qed.

(** ** Invariant *)

Section invariant.
Context `{Decimal D}.
Context (text : error → string).
Implicit Types (g : gateway (D:=D)).

Definition the_hub g (o : owner) : Hub := hub_of (gw_server g) o.
(** Unless it was cut off, a connection has every payload the hubs handed it,
    in order, written or queued. *)
Definition lossless g (sink : nat) (c : connection) : Prop :=
  cx_cancelled c = false → ∀ o, hub_frames o (cx_written c ++ cx_queue c) = payloads_for sink (hb_sent (the_hub g o)).
Record conn_ok g (sink : nat) (c : connection) : Prop := {
  ck_queue : (length (cx_queue c) ≤ outboundQueue)%nat;
  ck_subs : (size (cx_subs c) ≤ maxSubscriptions)%nat;
  ck_lossless : lossless g sink c;
}.
(** The connections subscribed to a topic, by their own books. *)
Definition subscribed g (o : owner) (key : HKey) (sink : nat) : Prop :=
  ∃ c, gw_conns g !! sink = Some c ∧ cx_subs c !! key = Some o.
Record gateway_ok g : Prop := {
  gk_hub : ∀ o, hub_ok (the_hub g o);
  gk_fresh : ∀ sink c, gw_conns g !! sink = Some c → (sink < gw_next g)%nat;
  gk_sent : ∀ o sink p, (sink, p) ∈ hb_sent (the_hub g o) → (sink < gw_next g)%nat;
  gk_attached : ∀ o key sink, sink ∈ sinks_of (the_hub g o) key ↔ hb_closed (the_hub g o) = false ∧ subscribed g o key sink;
  gk_conn : ∀ sink c, gw_conns g !! sink = Some c → conn_ok g sink c;
}.

Lemma the_hub_set s o o' h : hub_of (set_hub (D:=D) s o h) o' = if decide (o' = o) then h else hub_of s o'.
Proof. by destruct o, o'. Qed.

Lemma hub_op_conn g o f sink :
  gw_conns (hub_op g o f) !! sink =
  (λ c, foldl Send c (map (FHub o) (payloads_for sink (drop (length (hb_sent (the_hub g o))) (hb_sent (f (the_hub g o))))))) <$> gw_conns g !! sink.
Proof. apply deliver_lookup. Qed.
Lemma hub_op_subscribed g o f o' key sink : subscribed (hub_op g o f) o' key sink ↔ subscribed g o' key sink.
Proof.
  unfold subscribed. rewrite hub_op_conn. destruct (gw_conns g !! sink) as [c|]; cbn [fmap option_fmap option_map]; [|naive_solver].
  set (fs := map _ _). destruct (sends_fields c fs) as (Hs & _). cbv zeta in Hs.
  split; intros (c' & [= <-] & Hk); eexists; split; [done| |done|]; by rewrite Hs in *.
Qed.
Lemma hub_op_hub g o f o' : the_hub (hub_op g o f) o' = if decide (o' = o) then f (the_hub g o) else the_hub g o'.
Proof. unfold the_hub, hub_op. cbn [gw_server]. apply the_hub_set. Qed.

(** A hub operation on books that already agree with its outcome. *)
Lemma hub_op_ok g o f :
  hub_step (the_hub g o) (f (the_hub g o)) →
  (∀ o', hub_ok (the_hub g o')) → (∀ sink c, gw_conns g !! sink = Some c → (sink < gw_next g)%nat) →
  (∀ o' sink p, (sink, p) ∈ hb_sent (the_hub (hub_op g o f) o') → (sink < gw_next g)%nat) →
  (∀ sink c, gw_conns g !! sink = Some c → conn_ok g sink c) →
  (∀ o' key sink, sink ∈ sinks_of (the_hub (hub_op g o f) o') key ↔
     hb_closed (the_hub (hub_op g o f) o') = false ∧ subscribed g o' key sink) →
  gateway_ok (hub_op g o f).
Proof.
  intros Hstep Hh Hf Hsent Hc Hatt. destruct (hub_step_sent _ _ Hstep) as [new Hnew]. split.
  - intros o'. rewrite hub_op_hub. case_decide; [|done]. by apply (hub_step_ok (the_hub g o)).
  - intros sink c. rewrite hub_op_conn. destruct (gw_conns g !! sink) eqn:E; [|done]. intros _. by eapply Hf.
  - exact Hsent.
  - intros o' key sink. rewrite hub_op_subscribed. apply Hatt.
  - intros sink c. rewrite hub_op_conn. rewrite Hnew, drop_app_length. destruct (gw_conns g !! sink) as [c0|] eqn:E; [|done].
    cbn [fmap option_fmap option_map]. intros [= <-]. set (fs := map _ _).
    destruct (sends_fields c0 fs) as (Hs & He & Hw & Hq & Hx). destruct (Hc sink c0 E) as [Hq0 Hs0 Hl0]. cbv zeta in *. split.
    + by apply Hq.
    + by rewrite Hs.
    + intros Hcan o'. destruct (Hx Hcan) as [Hc0 ->]. rewrite Hw, app_assoc, hub_frames_app, (Hl0 Hc0), hub_op_hub.
      unfold fs. rewrite hub_frames_own. destruct (decide (o' = o)) as [->|Hne].
      * rewrite decide_True by done. by rewrite Hnew, payloads_for_app.
      * rewrite decide_False by done. apply app_nil_r.
Qed.

(** Operations that hand nothing out, or only to subscribers. *)
Lemma Subscribe_sent h key sink in_time s p :
  (s, p) ∈ hb_sent (Subscribe h key sink in_time) → (s, p) ∈ hb_sent h ∨ s = sink.
Proof.
  unfold Subscribe. destruct (hb_closed h); [by left|]. unfold open_topic.
  destruct (hb_topics h !! key); cbn [hb_sent]; intros [Hin|Hin]%elem_of_app; auto; right.
  all: unfold replay in Hin; change (map ?f ?l) with (f <$> l) in Hin; by apply list_elem_of_fmap in Hin as (? & [= -> _] & _).
Qed.
Lemma Unsubscribe_sent h key sink : hb_sent (Unsubscribe h key sink) = hb_sent h ∧ hb_closed (Unsubscribe h key sink) = hb_closed h.
Proof. unfold Unsubscribe, set_topic. repeat case_match; done. Qed.
Lemma Fire_sent h timer : hb_sent (Fire h timer) = hb_sent h ∧ hb_closed (Fire h timer) = hb_closed h.
Proof. unfold Fire. repeat case_match; done. Qed.
Lemma Emit_sent h id channel payload retain s p :
  hub_ok h → (s, p) ∈ hb_sent (Emit h id channel payload retain) → (s, p) ∈ hb_sent h ∨ ∃ key, s ∈ sinks_of h key.
Proof.
  intros Hok. unfold Emit. destruct payload; [|by left]. destruct (hb_store h !! id) as [t|] eqn:Ht; [|by left].
  destruct (tp_cancelled t) eqn:Hc; [by left|]. destruct (ho_running h Hok id t Ht Hc) as [key Hk].
  cbn [hb_sent]. intros [Hin|Hin]%elem_of_app; [by left|]. right. exists key. rewrite (sinks_of_topic h key id t) by done.
  change (map ?f ?l) with (f <$> l) in Hin. apply list_elem_of_fmap in Hin as (x & [= -> _] & Hx).
  apply elem_of_elements in Hx. by destruct retain.
Qed.
Lemma Emit_closed h id channel payload retain : hb_closed (Emit h id channel payload retain) = hb_closed h.
Proof. unfold Emit. repeat case_match; done. Qed.
Lemma Subscribe_closed h key sink in_time : hb_closed (Subscribe h key sink in_time) = hb_closed h.
Proof. unfold Subscribe, open_topic. repeat case_match; simplify_eq; done. Qed.
Lemma sinks_of_closed h key : hub_ok h → hb_closed h = true → sinks_of h key = ∅.
Proof. intros Hok Hc. apply sinks_of_none. by rewrite (ho_closed h Hok Hc). Qed.

(** A connection may change anything but its subscriptions. *)
Lemma set_conn_ok g sink c c' :
  gateway_ok g → gw_conns g !! sink = Some c → cx_subs c' = cx_subs c → conn_ok g sink c' → gateway_ok (set_conn g sink c').
Proof.
  intros [Hh Hf Hs Ha Hc] Hk Hsubs Hok. split.
  - exact Hh.
  - intros s x. cbn. intros [[<- _]|[_ Hx]]%lookup_insert_Some; by eapply Hf.
  - exact Hs.
  - intros o key s. rewrite (Ha o key s). unfold subscribed. cbn [set_conn gw_conns].
    destruct (decide (s = sink)) as [->|Hne]; [rewrite lookup_insert_eq, Hk|by rewrite lookup_insert_ne by done].
    split; intros (? & x & [= <-] & Hx); (split; [done|]); eexists; (split; [done|]); by rewrite ?Hsubs in *.
  - intros s x. cbn [set_conn gw_conns]. intros [[<- <-]|[_ Hx]]%lookup_insert_Some; [|specialize (Hc _ _ Hx)].
    + by destruct Hok.
    + by destruct Hc.
Qed.

Lemma Send_ok g sink c f : conn_ok g sink c → (∀ o, hub_frames o [f] = []) → conn_ok g sink (Send c f).
Proof.
  intros [Hq Hs Hl] Hf. destruct (sends_fields c [f]) as (Es & _ & Ew & Eq & Ex). cbn [foldl] in *. split.
  - by apply Eq.
  - by rewrite Es.
  - intros Hc o. destruct (Ex Hc) as [Hc0 ->]. by rewrite Ew, app_assoc, hub_frames_app, Hf, app_nil_r, (Hl Hc0).
Qed.
Lemma reply_ok g sink c f : gateway_ok g → gw_conns g !! sink = Some c → (∀ o, hub_frames o [f] = []) → gateway_ok (set_conn g sink (Send c f)).
Proof.
  intros Hok Hc Hf. apply (set_conn_ok g sink c); [done..| |apply Send_ok; [by apply (gk_conn g Hok)|done]].
  by destruct (sends_fields c [f]) as (Es & _).
Qed.

(** Changing a connection's subscriptions, before the hub is told. *)
Definition with_subs g (sink : nat) (c : connection) (subs : gmap HKey owner) : gateway := set_conn g sink (set_subs c subs).
Lemma with_subs_subscribed g sink c subs o key s :
  subscribed (with_subs g sink c subs) o key s ↔ if decide (s = sink) then subs !! key = Some o else subscribed g o key s.
Proof.
  unfold subscribed, with_subs, set_conn. cbn [gw_conns]. case_decide as Hd.
  - subst s. rewrite lookup_insert_eq. split; [by intros (x & [= <-] & Hx)|]. intros Hx. by exists (set_subs c subs).
  - by rewrite lookup_insert_ne by done.
Qed.
Lemma with_subs_conns g sink c subs : gateway_ok g → gw_conns g !! sink = Some c → (size subs ≤ maxSubscriptions)%nat →
  (∀ s x, gw_conns (with_subs g sink c subs) !! s = Some x → (s < gw_next g)%nat ∧ conn_ok (with_subs g sink c subs) s x).
Proof.
  intros Hok Hc Hz s x. cbn [with_subs set_conn gw_conns]. intros [[<- <-]|[_ Hx]]%lookup_insert_Some.
  - split; [by eapply (gk_fresh g Hok)|]. by destruct (gk_conn g Hok sink c Hc).
  - split; [by eapply (gk_fresh g Hok)|]. by destruct (gk_conn g Hok s x Hx).
Qed.

Lemma subscribe_ok g sink c key o in_time :
  gateway_ok g → gw_conns g !! sink = Some c → cx_subs c !! key = None → (size (cx_subs c) < maxSubscriptions)%nat →
  gateway_ok (hub_op (with_subs g sink c (<[key := o]> (cx_subs c))) o (λ h, Subscribe h key sink in_time)).
Proof.
  intros Hok Hc Hk Hz.
  assert (Hconns := with_subs_conns g sink c (<[key := o]> (cx_subs c)) Hok Hc). rewrite map_size_insert_None in Hconns by done.
  specialize (Hconns ltac:(lia)). apply hub_op_ok.
  - apply step_subscribe.
  - exact (gk_hub g Hok).
  - intros s x Hx. by apply (Hconns s x).
  - intros o' s p. rewrite hub_op_hub. case_decide as Hd; [|apply (gk_sent g Hok)]. change (the_hub (with_subs _ _ _ _) ?o) with (the_hub g o).
    intros [Hin| ->]%Subscribe_sent; [by eapply (gk_sent g Hok)|by eapply (gk_fresh g Hok)].
  - intros s x Hx. by apply (Hconns s x).
  - intros o' k s. rewrite hub_op_hub, with_subs_subscribed. change (the_hub (with_subs _ _ _ _) ?x) with (the_hub g x).
    assert (Hold := gk_attached g Hok o' k s). pose proof (gk_hub g Hok o') as Hho.
    assert (Hown : subscribed g o' k sink ↔ cx_subs c !! k = Some o').
    { unfold subscribed. rewrite Hc. split; [by intros (x & [= <-] & Hx)|]. by exists c. }
    destruct (decide (o' = o)) as [->|Hne].
    + rewrite Subscribe_closed. destruct (hb_closed (the_hub g o)) eqn:Hcl.
      { unfold Subscribe. rewrite Hcl, (sinks_of_closed _ k Hho Hcl). split; [set_solver|by intros []]. }
      rewrite sinks_of_Subscribe by done. destruct (decide (k = key)) as [->|Hkk]; rewrite ?elem_of_union, ?elem_of_singleton, Hold.
      * case_decide as Hs; [subst s; rewrite lookup_insert_eq|]; naive_solver.
      * case_decide as Hs; [subst s; rewrite lookup_insert_ne, Hown by done|]; naive_solver.
    + rewrite Hold. case_decide as Hs; [subst s; rewrite Hown|done]. destruct (decide (k = key)) as [->|Hkk].
      * rewrite lookup_insert_eq, Hk. naive_solver.
      * by rewrite lookup_insert_ne by done.
Qed.

Lemma unsubscribe_ok g sink c key o :
  gateway_ok g → gw_conns g !! sink = Some c → cx_subs c !! key = Some o →
  gateway_ok (hub_op (with_subs g sink c (delete key (cx_subs c))) o (λ h, Unsubscribe h key sink)).
Proof.
  intros Hok Hc Hk. assert (Hconns := with_subs_conns g sink c (delete key (cx_subs c)) Hok Hc).
  assert (Hz : (size (delete key (cx_subs c)) ≤ maxSubscriptions)%nat).
  { rewrite map_size_delete_Some by (by exists o). pose proof (ck_subs _ _ _ (gk_conn g Hok sink c Hc)). lia. }
  specialize (Hconns Hz). apply hub_op_ok.
  - apply step_unsubscribe.
  - exact (gk_hub g Hok).
  - intros s x Hx. by apply (Hconns s x).
  - intros o' s p. rewrite hub_op_hub. case_decide; [|apply (gk_sent g Hok)]. rewrite (proj1 (Unsubscribe_sent _ _ _)). apply (gk_sent g Hok o).
  - intros s x Hx. by apply (Hconns s x).
  - intros o' k s. rewrite hub_op_hub, with_subs_subscribed. change (the_hub (with_subs _ _ _ _) ?x) with (the_hub g x).
    assert (Hold := gk_attached g Hok o' k s). pose proof (gk_hub g Hok o') as Hho.
    assert (Hown : subscribed g o' k sink ↔ cx_subs c !! k = Some o').
    { unfold subscribed. rewrite Hc. split; [by intros (x & [= <-] & Hx)|]. by exists c. }
    destruct (decide (o' = o)) as [->|Hne].
    + rewrite (proj2 (Unsubscribe_sent _ _ _)), sinks_of_Unsubscribe by done.
      destruct (decide (k = key)) as [->|Hkk]; rewrite ?elem_of_difference, ?elem_of_singleton, Hold.
      * case_decide as Hs; [subst s; rewrite lookup_delete_eq|]; naive_solver.
      * case_decide as Hs; [subst s; rewrite lookup_delete_ne, Hown by done|]; naive_solver.
    + rewrite Hold. case_decide as Hs; [subst s; rewrite Hown|done]. destruct (decide (k = key)) as [->|Hkk].
      * rewrite lookup_delete_eq, Hk. naive_solver.
      * by rewrite lookup_delete_ne by done.
Qed.

(** A hub operation on its own, that keeps the sinks of every topic or closes
    the hub. *)
Lemma hub_alone_ok g o f :
  gateway_ok g → hub_step (the_hub g o) (f (the_hub g o)) →
  (∀ s p, (s, p) ∈ hb_sent (f (the_hub g o)) → (s, p) ∈ hb_sent (the_hub g o) ∨ ∃ key, s ∈ sinks_of (the_hub g o) key) →
  ((hb_closed (f (the_hub g o)) = hb_closed (the_hub g o) ∧ ∀ k, sinks_of (f (the_hub g o)) k = sinks_of (the_hub g o) k) ∨
   hb_closed (f (the_hub g o)) = true) →
  gateway_ok (hub_op g o f).
Proof.
  intros Hok Hstep Hsent Hkeep. apply hub_op_ok; [done|exact (gk_hub g Hok)|exact (gk_fresh g Hok)| |exact (gk_conn g Hok)|].
  - intros o' s p. rewrite hub_op_hub. case_decide; [|apply (gk_sent g Hok)].
    intros [Hin|[key Hin]]%Hsent; [by eapply (gk_sent g Hok)|]. apply (gk_attached g Hok) in Hin as (_ & c & Hc & _). by eapply (gk_fresh g Hok).
  - intros o' k s. rewrite hub_op_hub. case_decide as Hd; [subst o'|apply (gk_attached g Hok)]. destruct Hkeep as [[-> Hs]|Hcl].
    + rewrite Hs. apply (gk_attached g Hok).
    + rewrite Hcl, sinks_of_closed; [set_solver| |done]. by apply (hub_step_ok (the_hub g o)), (gk_hub g Hok).
Qed.

Lemma accept_ok g : gateway_ok g → gateway_ok (accept g).
Proof.
  intros [Hh Hf Hs Ha Hc]. split.
  - exact Hh.
  - intros s x. cbn. intros [[<- _]|[_ Hx]]%lookup_insert_Some; [lia|]. apply Hf in Hx. lia.
  - intros o s p Hp. cbn. specialize (Hs o s p Hp). lia.
  - intros o key s. rewrite (Ha o key s). unfold subscribed. cbn [accept gw_conns].
    destruct (decide (s = gw_next g)) as [->|Hne]; [|by rewrite lookup_insert_ne by done]. rewrite lookup_insert_eq.
    split; intros (? & x & Hx & Hk); [apply Hf in Hx; lia|]. injection Hx as <-. cbn in Hk. by rewrite lookup_empty in Hk.
  - intros s x. cbn. intros [[<- <-]|[_ Hx]]%lookup_insert_Some; [|by destruct (Hc _ _ Hx)].
    split; cbn; [lia|rewrite map_size_empty; unfold maxSubscriptions; lia|]. intros _ o. cbn. symmetry. apply payloads_for_none.
    intros p Hp. apply Hs in Hp. lia.
Qed.

Lemma control_ok g sink c data in_time :
  gateway_ok g → gw_conns g !! sink = Some c → gateway_ok (control_message text g sink c data in_time).
Proof.
  intros Hok Hc. unfold control_message. destruct (unmarshal_control data) as [message|]; [|by apply reply_ok].
  destruct (String.eqb _ "ping"); [by apply reply_ok|]. destruct (route_key _ _) as [key valid].
  destruct (String.eqb _ "sub").
  - destruct valid as [o|e]; [|by apply reply_ok]. destruct (cx_subs c !! key) eqn:Hk; cbn [is_present]; [done|].
    destruct (Nat.leb_spec maxSubscriptions (size (cx_subs c))); [by apply reply_ok|]. by apply subscribe_ok.
  - destruct (String.eqb _ "unsub"); [|by apply reply_ok]. destruct (cx_subs c !! key) eqn:Hk; [by apply unsubscribe_ok|done].
Qed.

Lemma write_ok g sink c failed : conn_ok g sink c → conn_ok g sink (write c failed).
Proof.
  intros [Hq Hs Hl]. unfold write. destruct (cx_queue c) as [|f rest] eqn:E; [split; [by rewrite E|done..]|].
  rewrite length_cons in Hq. split; cbn [cx_queue cx_subs]; [lia|done|].
  intros [Hc _]%orb_false_iff o. cbn [cx_written cx_queue]. by rewrite <- app_assoc, <- (Hl Hc o), E.
Qed.

Lemma same_hubs_ok g s : gateway_ok g → (∀ o, hub_of s o = the_hub g o) → gateway_ok (mkGateway s (gw_conns g) (gw_next g)).
Proof.
  intros [Hh Hf Hs Ha Hc] Heq. unfold the_hub in *. split; unfold the_hub; cbn [gw_server gw_conns gw_next]; try done.
  - intros o. by rewrite Heq.
  - intros o sink p. rewrite Heq. apply Hs.
  - intros o key sink. rewrite Heq. apply Ha.
  - intros sink c Hx. destruct (Hc sink c Hx) as [Hq Hz Hl]. split; [done..|]. intros Hcan o. unfold the_hub. cbn [gw_server].
    rewrite Heq. by apply Hl.
Qed.

Lemma gateway_step_ok g g' : gateway_step text g g' → gateway_ok g → gateway_ok g'.
Proof.
  intros Hstep Hok. destruct Hstep as [g|g sink c data in_time Hc He|g sink c failed Hc Hx|g sink c Hc|g sink c Hc He|g sink c key Hc He|g o timer
    |g o id channel payload retain|g o in_time|g m].
  - by apply accept_ok.
  - by apply control_ok.
  - apply (set_conn_ok g sink c); [done..| |]; [|by apply write_ok, (gk_conn g Hok)]. unfold write. by destruct (cx_queue c).
  - apply (set_conn_ok g sink c); [done..|]. by destruct (gk_conn g Hok sink c Hc).
  - apply (set_conn_ok g sink c); [done..|]. by destruct (gk_conn g Hok sink c Hc).
  - unfold detach. destruct (cx_subs c !! key) eqn:Hk; [by apply unsubscribe_ok|done].
  - destruct (Fire_sent (the_hub g o) timer) as [Hs Hcl]. apply hub_alone_ok; [done|apply step_fire| |].
    + intros s p Hp. rewrite Hs in Hp. by left.
    + left. split; [done|]. intros k. by apply sinks_of_Fire, (gk_hub g Hok).
  - apply hub_alone_ok; [done|apply step_emit| |].
    + intros s p. by apply Emit_sent, (gk_hub g Hok).
    + left. split; [apply Emit_closed|]. intros k. by apply sinks_of_Emit, (gk_hub g Hok).
  - apply hub_alone_ok; [done|apply step_close| |by right]. intros s p Hp. by left.
  - apply same_hubs_ok; [done|]. by intros [].
Qed.

(** The gateway as it starts. *)
Definition gateway_start (token : string) (m : Manager (D:=D)) : gateway := mkGateway (mkServer token m Hub.New Hub.New) ∅ 0.
Lemma gateway_reachable_ok token m g : rtc (gateway_step text) (gateway_start token m) g → gateway_ok g.
Proof.
  assert (Hstart : gateway_ok (gateway_start token m)).
  { split; intros *; cbn; rewrite ?lookup_empty; try done.
    - destruct o; apply New_ok.
    - destruct o; by intros ?%elem_of_nil.
    - split; [destruct o; by intros ?%elem_of_empty|]. intros (_ & x & Hx & _). cbn in Hx. by rewrite lookup_empty in Hx. }
  intros Hr. revert Hstart. generalize (gateway_start token m) Hr. intros g0 Hr0.
  induction Hr0 as [|x y z Hs _ IH]; intros Hok; [done|]. by apply IH, (gateway_step_ok x).
Qed.

(** C28: whatever the interleaving of connections, requests, sources, timers and
    shutdowns: a connection is attached at a hub to exactly the topics in its
    own books (to none once the hub is closed), at most 64 of them, and once
    its deferred loop is done it is attached nowhere. *)
Theorem subscriptions_exact token m g sink c :
  rtc (gateway_step text) (gateway_start token m) g → gw_conns g !! sink = Some c →
  (size (cx_subs c) ≤ 64)%nat ∧
  (∀ o key, sink ∈ sinks_of (the_hub g o) key ↔ hb_closed (the_hub g o) = false ∧ cx_subs c !! key = Some o) ∧
  (cx_subs c = ∅ → ∀ o key, sink ∉ sinks_of (the_hub g o) key).
Proof.
  intros Hr Hc. pose proof (gateway_reachable_ok token m g Hr) as Hok.
  assert (Hatt : ∀ o key, sink ∈ sinks_of (the_hub g o) key ↔ hb_closed (the_hub g o) = false ∧ cx_subs c !! key = Some o).
  { intros o key. rewrite (gk_attached g Hok). unfold subscribed. rewrite Hc. split; intros [Hcl Hk]; (split; [done|]).
    - by destruct Hk as (x & [= <-] & Hx).
    - by exists c. }
  split; [by apply (ck_subs _ _ _ (gk_conn g Hok sink c Hc))|]. split; [done|].
  intros He o key Hin. apply Hatt in Hin as [_ Hk]. by rewrite He, lookup_empty in Hk.
Qed.

(** C29: a connection that is still served has received or is about to receive
    every payload either hub ever handed it, once and in order; it never holds
    more than 1024 messages. *)
Theorem delivery_lossless token m g sink c :
  rtc (gateway_step text) (gateway_start token m) g → gw_conns g !! sink = Some c →
  (length (cx_queue c) ≤ 1024)%nat ∧
  (cx_cancelled c = false →
   ∀ o, hub_frames o (cx_written c) ++ hub_frames o (cx_queue c) = payloads_for sink (hb_sent (the_hub g o))).
Proof.
  intros Hr Hc. destruct (gk_conn g (gateway_reachable_ok token m g Hr) sink c Hc) as [Hq _ Hl]. split; [done|].
  intros Hx o. rewrite <- hub_frames_app. by apply Hl.
Qed.
End invariant.

(** ** A concrete run *)

Definition control_of (op channel instrument account : string) : option json :=
  Some (JObject [("op", JString op); ("ch", JString channel); ("inst", JString instrument); ("account", JString account); ("id", JNumber "7")]).
Definition gateway_started : gateway (D:=Z) := gateway_start "secret" sample_manager.
Definition conn_at (g : gateway (D:=Z)) (sink : nat) : connection := default new_connection (gw_conns g !! sink).
Definition say (g : gateway (D:=Z)) (data : option json) : gateway := control_message (λ _, "refused") g 0 (conn_at g 0) data true.
Definition one_accepted : gateway := accept gateway_started.
Definition on_book : gateway := say one_accepted (control_of "sub" "book" "binance:perp:BTC-USDT" "").
Definition on_account : gateway := say on_book (control_of "sub" "account" "" "acc1").
Definition book_seen : gateway := hub_op on_account Public (λ h, Emit h 0 "book" (Some "b1") true).
Definition book_written : gateway := set_conn book_seen 0 (write (conn_at book_seen 0) false).

Lemma say_step (g : gateway (D:=Z)) data :
  match gw_conns g !! 0%nat with Some c => cx_ended c = false | None => False end → gateway_step (λ _, "refused") g (say g data).
Proof.
  unfold say, conn_at. destruct (gw_conns g !! 0%nat) as [c|] eqn:E; [|done]. intros He. cbn [default]. by apply step_control.
Qed.
Lemma book_written_reachable : rtc (gateway_step (λ _, "refused")) gateway_started book_written.
Proof.
  apply (rtc_l _ _ one_accepted); [apply step_accept|]. apply (rtc_l _ _ on_book); [apply say_step; vm_compute; reflexivity|].
  apply (rtc_l _ _ on_account); [apply say_step; vm_compute; reflexivity|]. apply (rtc_l _ _ book_seen); [apply step_source|].
  apply rtc_once. apply step_write; vm_compute; reflexivity.
Qed.

Definition book_key : HKey := mkHKey "book" "binance:perp:BTC-USDT" "" "".
Lemma subscriptions_exact_witness :
  map_to_list (cx_subs (conn_at book_written 0)) ≡ₚ [(mkHKey "account" "" "" "acc1", Private); (book_key, Public)] ∧
  0%nat ∈ sinks_of (the_hub book_written Public) book_key.
Proof.
  split; [vm_compute; first [reflexivity|apply Permutation_swap]|].
  destruct (subscriptions_exact (λ _, "refused") "secret" sample_manager book_written 0 (conn_at book_written 0)) as (_ & Hatt & _).
  - exact book_written_reachable.
  - vm_compute. reflexivity.
  - apply Hatt. split; vm_compute; reflexivity.
Defined.

Lemma delivery_lossless_witness :
  cx_written (conn_at book_written 0) = [FHub Public "b1"] ∧
  payloads_for 0 (hb_sent (the_hub book_written Public)) = ["b1"].
Proof.
  split; [vm_compute; reflexivity|].
  destruct (delivery_lossless (λ _, "refused") "secret" sample_manager book_written 0 (conn_at book_written 0)) as [_ Hl].
  - exact book_written_reachable.
  - vm_compute. reflexivity.
  - etransitivity; [symmetry; apply (Hl ltac:(vm_compute; reflexivity) Public)|]. vm_compute. reflexivity.
Defined.
