(* ===== verification/Clients.v ===== *)
(** * What every venue client shares

    [exchange/internal/factoryclient/clients.go] and [instrument.go]: resolving
    instruments through the shared catalog, history windows and pages, how far
    a funding-payment history may be trusted, and the signed cursors of its
    traversal.  HMAC-SHA256, SHA-256 and the JSON text are parameters. *)

From Stdlib Require Import Ascii String ZArith QArith Qcanon Lia.
From stdpp Require Import base list strings gmap.
From S2P Require Import Prelude GoStrings Calendar Base64 Decimals DecimalText Errors Model InstrumentCatalog Sockets Credentials.

#[local] Open Scope string_scope.
#[local] Open Scope list_scope.
#[local] Open Scope Z_scope.
#[local] Open Scope go_scope.

(** ** Instruments *)

(** [withExchangeOperation] *)
Definition withExchangeOperation (err : error) (operation : string) : error :=
  match errors_as as_exchange (Some err) with
  | None => err
  | Some (kind, d) =>
      NewError kind (mkDetails (det_Venue d) (det_Product d) operation (det_Code d) (det_SafeMessage d) (det_RetryAfter d) (det_HTTPStatus d)
        (det_VenueMessage d) (det_CommandNotSent d))
  end.
Definition meta_error (kind : ErrorKind) (meta : clientMeta) (operation message : string) : error :=
  NewError kind (scoped_details (cm_venue meta) (cm_product meta) operation message).
Definition catalogInvalidRequest : clientMeta → string → string → error := meta_error KindInvalidRequest.
Definition catalogMetadataResolution : clientMeta → string → string → error := meta_error KindMetadataResolution.
Definition catalogContextErr (meta : clientMeta) (ctx : context) (operation : string) : result error unit :=
  match ctx with
  | None => Err (catalogInvalidRequest meta operation "context must not be nil")
  | Some (Some err) =>
      Err (meta_error (if errors_is (TSentinel ContextDeadlineExceeded) (Some err) then KindDeadlineExceeded else KindCanceled)
             meta operation "request context ended")
  | Some None => Ok tt
  end.
Definition isCatalogMetadataNotFound (err : error) : bool :=
  match errors_as as_exchange (Some err) with
  | Some (kind, d) =>
      bool_decide (kind = KindMetadataResolution) && String.eqb (det_Operation d) "InstrumentCatalog.Resolve" &&
      String.eqb (det_SafeMessage d) "instrument metadata not found"
  | None => false
  end.

Section resolving.
Context `{Decimal D} (revision_of : Z → CatalogScope → list (Instrument D) → string).
Implicit Types (c : MemoryCatalog D).

(** [ResolveInstrument] through the catalog of scope [scope], if one is
    configured; [None] stands for a panic of the catalog. *)
Definition ResolveInstrument (meta : clientMeta) (configured : bool) (scope : CatalogScope) c (ctx : context) (symbol : string) (now : time)
  : MemoryCatalog D * option (result error (Instrument D)) :=
  match catalogContextErr meta ctx "ResolveInstrument" with
  | Err e => (c, Some (Err e))
  | Ok _ =>
      let symbol := TrimSpace symbol in
      if is_empty symbol then (c, Some (Err (catalogInvalidRequest meta "ResolveInstrument" "instrument symbol is required")))
      else if negb configured || bool_decide (scope = zero_scope)
      then (c, Some (Err (catalogMetadataResolution meta "ResolveInstrument" "instrument catalog is not configured")))
      else match Resolve revision_of c scope (mkQuery symbol "" "") now with
      | (c, Some (Err e)) =>
          if negb (isCatalogMetadataNotFound e) then (c, Some (Err (withExchangeOperation e "ResolveInstrument")))
          else match Resolve revision_of c scope (mkQuery "" symbol "") now with
          | (c, Some (Err e)) => (c, Some (Err (withExchangeOperation e "ResolveInstrument")))
          | found => found
          end
      | found => found
      end
  end.
(** [RefreshInstruments]: the instruments come with the error. *)
Definition RefreshInstruments (meta : clientMeta) (configured : bool) (scope : CatalogScope) c (ctx : context) (now : time)
  : MemoryCatalog D * (list (Instrument D) * option error) :=
  match catalogContextErr meta ctx "RefreshInstruments" with
  | Err e => (c, ([], Some e))
  | Ok _ =>
      if negb configured || bool_decide (scope = zero_scope)
      then (c, ([], Some (catalogMetadataResolution meta "RefreshInstruments" "instrument catalog is not configured")))
      else let '(c, (snapshot, err)) := Refresh revision_of c scope now in
           (c, (sn_Instruments snapshot, (λ e, withExchangeOperation e "RefreshInstruments") <$> err))
  end.

(** [filterInstrumentsForScope] *)
Definition in_scope (scope : CatalogScope) (i : Instrument D) : bool :=
  let identity := in_Identity i in
  (is_empty (cs_Venue scope) || String.eqb (id_Venue identity) (cs_Venue scope)) &&
  (is_empty (cs_Product scope) || String.eqb (id_Product identity) (cs_Product scope)) &&
  (is_empty (cs_Settlement scope) || String.eqb (id_SettleAsset identity) (cs_Settlement scope)).
Definition filterInstrumentsForScope (instruments : list (Instrument D)) (scope : CatalogScope) : list (Instrument D) :=
  List.filter (in_scope scope) instruments.
End resolving.

(** ** Results in terms of other results *)

(** A failure replaced by the caller's own message *)
Definition or_error {A} (r : result error A) (e : error) : result error A := match r with Ok a => Ok a | Err _ => Err e end.
Lemma or_error_Ok {A} (r : result error A) e a : or_error r e = Ok a ↔ r = Ok a.
Proof. by destruct r. Qed.
(** [err.Error()] of the errors the clients quote: plain, wrapped and normalized
    ones *)
Definition error_text (e : error) : string :=
  match e with EText t => t | EWrap t _ => t | EExchange k d => Error_Error k d | _ => "" end.
(** A loop over rows that stops at the first error *)
Fixpoint map_result {A B} (f : A → result error B) (l : list A) : result error (list B) :=
  match l with [] => Ok [] | x :: l' => y <-? f x ;; ys <-? map_result f l' ;; Ok (y :: ys) end.
Lemma map_result_Ok {A B} (f : A → result error B) l ys : map_result f l = Ok ys ↔ Forall2 (λ x y, f x = Ok y) l ys.
Proof.
  revert ys. induction l as [|x l IH]; intros ys; cbn [map_result].
  - split; [by intros [= <-]|by intros ->%Forall2_nil_inv_l].
  - rewrite bind_Ok. setoid_rewrite bind_Ok. split.
    + intros (y & Hy & ys' & Hys & [= <-]). constructor; [done|by apply IH].
    + intros (y & ys' & Hy & Hys & ->)%Forall2_cons_inv_l. exists y. split; [done|]. exists ys'. by rewrite IH.
Qed.

(** ** Numbers as the venues are sent them *)

Lemma digit_graphic c : is_digit c = true → graphic c = true.
Proof.
  unfold is_digit, graphic, in_range. change (code "0") with 48. change (code "9") with 57. change (code "!") with 33. change (code "~") with 126.
  intros [?%Z.leb_le ?%Z.leb_le]%andb_prop. apply andb_true_intro. split; apply Z.leb_le; lia.
Qed.
Lemma render_graphic k p : string_forallb graphic (render k p) = true ∧ render k p ≠ "".
Proof.
  unfold render. split.
  - assert (Hd : ∀ t, string_forallb is_digit t = true → string_forallb graphic t = true) by (intros t; apply string_forallb_impl, digit_graphic).
    rewrite string_forallb_app. apply andb_true_intro. split; [by destruct (k <? 0)|]. rewrite string_forallb_app. apply andb_true_intro.
    split; [apply Hd, FormatUint_digits|]. destruct (p =? 0)%nat; [done|]. rewrite string_forallb_app. apply andb_true_intro.
    split; [done|]. apply Hd, digits_of_digit, Z.mod_pos_bound, pow10_pos.
  - intros E. assert (Hz : String.length (FormatUint (Z.abs k / pow10 p)) = O).
    { pose proof (f_equal String.length E) as El. rewrite !string_length_app in El. simpl in El. lia. }
    destruct (FormatUint (Z.abs k / pow10 p)) eqn:Ef; [by apply FormatUint_nonempty in Ef|done].
Qed.
Section printed.
Context `{DecimalTextLaws D} `{!DecimalQuotientLaws D}.
(** A printed number is not blank, and reads back as the same number. *)
Lemma d_string_solid (d : D) : is_empty (TrimSpace (d_string d)) = false.
Proof.
  destruct (d_string_canonical d) as (k & p & _ & _ & ->). destruct (render_graphic k p) as [Hg Hn]. rewrite TrimSpace_graphic by done.
  unfold is_empty. by apply String.eqb_neq.
Qed.
Lemma d_string_zero : d_string (d_zero : D) = "0".
Proof.
  destruct (d_string_canonical (d_zero : D)) as (k & p & Hc & Hv & ->). rewrite d_value_zero in Hv. change 0%Qc with (scaled 0 0) in Hv.
  destruct (canonical_unique 0 0 k p) as [<- <-]; [by left|done|done|done].
Qed.
Lemma d_parse_zero : ∃ d : D, d_new_from_string "0" = Some d ∧ d_value d = 0%Qc.
Proof. rewrite <- d_string_zero, <- d_value_zero. apply d_parse_print. Qed.

(** ** The order that was asked for *)

(** What a listing must say of an unfilled order, to be the one requested. *)
Record same_order (req : PlaceOrderRequest D) (o : Order D) : Prop := mkSame {
  so_symbol : or_NativeSymbol o = id_NativeSymbol (in_Identity (po_Instrument req));
  so_client : or_ClientOrderID o = po_ClientOrderID req;
  so_side : or_Side o = po_Side req;
  so_type : or_Type o = po_Type req;
  so_policy : or_LimitPolicy o = po_LimitPolicy req;
  so_reduce : or_ReduceOnly o = po_ReduceOnly req;
  so_quantity : d_value (or_Quantity o) = d_value (po_Quantity req);
  so_price : d_value (or_LimitPrice o) = d_value (po_LimitPrice req);
  so_unfilled : d_value (or_Filled o) = 0%Qc;
}.
Lemma portable_id_solid id : portable_id id → is_empty id = false.
Proof. intros Hid. unfold is_empty. apply String.eqb_neq. intros ->. by apply isPortable_iff in Hid. Qed.
End printed.

(** ** Histories *)

Record PageInfo := mkPage {
  pg_Cursor : string; pg_Limit : Z; pg_WindowStart : time; pg_WindowEnd : time; pg_HasMoreKnown : bool; pg_HasMore : bool;
}.
Record OrderPage (D : Type) := mkOrderPage { op_Orders : list (Order D); op_Page : PageInfo }.
Arguments mkOrderPage {D}.
Arguments op_Orders {D} _.
Arguments op_Page {D} _.
(** The requests and the pages of the clients' read operations *)
Definition limit_page (limit : Z) : PageInfo := mkPage "" limit zero_time zero_time false false.
Section pages.
Context {D : Type}.
Record OrderBookPage := mkBookPage { ob_Instrument : Instrument D; ob_Bids : list (BookLevel D); ob_Asks : list (BookLevel D); ob_Time : time; ob_Page : PageInfo }.
Record CandlesRequest := mkCandles {
  cq_Instrument : Instrument D; cq_Interval : string; cq_Start : time; cq_End : time; cq_Limit : Z; cq_Cursor : string;
}.
Record CandlePage := mkCandlePage { cp_Candles : list (Candle D); cp_Page : PageInfo }.
Record FillsRequest := mkFillsRequest { fq_Instrument : option (Instrument D); fq_OrderID : string; fq_Start : time; fq_End : time; fq_Cursor : string; fq_Limit : Z }.
Definition FillPage : Type := list (Fill D) * PageInfo.
Record PerpAccount := mkPerpAccount {
  pa_Balances : list (Balance D); pa_Equity : OptionalDecimal D; pa_Available : OptionalDecimal D; pa_MarginUsed : OptionalDecimal D; pa_UnrealizedPnL : OptionalDecimal D;
}.
Record PublicTrade := mkHlTrade { hp_Instrument : Instrument D; hp_TradeID : string; hp_Side : string; hp_Price : D; hp_Quantity : D; hp_Time : time }.
Record FundingRate := mkFundingRate {
  rf_NativeSymbol : string; rf_NativeID : string; rf_Rate : D; rf_MarkPrice : OptionalDecimal D; rf_ObservedAt : time; rf_FundingTime : time; rf_NextFundingTime : time;
}.
End pages.
(** [orders[:limit]] when there are more *)
Definition bounded {A} (limit : Z) (l : list A) : list A :=
  if (0 <? limit) && (limit <? Z.of_nat (length l)) then take (Z.to_nat limit) l else l.
Definition boundedOrderPage {D} (orders : list (Order D)) (limit : Z) (cursor : string) : OrderPage D :=
  mkOrderPage (bounded limit orders) (mkPage cursor limit zero_time zero_time false false).
Definition historyPage (cursor : string) (limit : Z) (start stop : time) : PageInfo := mkPage cursor limit start stop false false.
Definition validateBoundedHistory (limit : Z) (start stop : time) : result error unit :=
  check negb (limit <? 0) else EText "limit must be non-negative" ;;
  check IsZero start || IsZero stop || Before start stop else EText "start must be before end" ;;
  Ok tt.
Definition optionalMillis (value : time) : Z := if IsZero value then 0 else UnixMilli value.
Definition withinHalfOpen (value start stop : time) : bool :=
  if negb (IsZero start) && Before value start then false
  else if negb (IsZero stop) && negb (Before value stop) then false else true.

(** ** Trust in a funding-payment history *)

Inductive FundingPaymentStatus :=
| FundingPaymentsUnsupported | FundingPaymentsTemporarilyUnavailable | FundingPaymentsIncomplete
| FundingPaymentsCompleteEmpty | FundingPaymentsComplete.
#[export] Instance FundingPaymentStatus_eq_dec : EqDecision FundingPaymentStatus.
Proof. solve_decision. Defined.
Record FundingPaymentWatermark := mkWatermark {
  wm_Cursor : string; wm_Revision : Z; wm_ObservedAt : time; wm_EffectiveThrough : time; wm_CompleteThrough : time; wm_Verified : bool;
}.

Definition fundingPaymentCompletionStatus (items : Z) (hasMore : bool) (start stop : time) (retained : bool) (observedAt : time)
  : FundingPaymentStatus :=
  if hasMore || IsZero start || IsZero stop || IsZero observedAt || After stop observedAt then FundingPaymentsIncomplete
  else if negb retained then FundingPaymentsIncomplete
  else if items =? 0 then FundingPaymentsCompleteEmpty else FundingPaymentsComplete.

Definition subtractCalendarMonths (value : time) (months : Z) : time :=
  let '(mkDate year month day) := Time_Date value in
  let clock := time_of_day value in
  let target := Time_Date (MakeDate year (month - months) 1 clock) in
  let lastDay := dt_day (Time_Date (MakeDate (dt_year target) (dt_month target + 1) 0 clock)) in
  let day := if lastDay <? day then lastDay else day in
  MakeDate (dt_year target) (dt_month target) day clock.
Definition fundingPaymentRetainedSince (start asOf : time) (months : Z) : bool :=
  if (months <=? 0) || IsZero start then true
  else negb (Before start (subtractCalendarMonths asOf months)).

Definition is_complete (status : FundingPaymentStatus) : bool :=
  bool_decide (status = FundingPaymentsComplete) || bool_decide (status = FundingPaymentsCompleteEmpty).
Definition fundingPaymentWatermark (cursor : string) (stop : time) (status : FundingPaymentStatus) (observedAt : time)
  : FundingPaymentWatermark :=
  let verified := is_complete status && negb (IsZero observedAt) && negb (After stop observedAt) in
  mkWatermark cursor 1 observedAt (if verified then stop else zero_time) (if verified then stop else zero_time) verified.
Definition fundingPaymentCompleteThrough (stop : time) (status : FundingPaymentStatus) : time :=
  if is_complete status then stop else zero_time.

(** ** Traversal cursors *)

Record fundingPaymentCursorEnvelope := mkEnvelope {
  ce_Version : Z; ce_ScopeDigest : string; ce_VenueCursor : string; ce_Page : Z; ce_ItemsSeen : Z; ce_SliceStartMillis : Z;
  ce_TraversalStarted : bool;
}.

Definition omit_text (key s : string) : list (string * json) := if is_empty s then [] else [(key, JString s)].
Definition omit_int (key : string) (n : Z) : list (string * json) := if n =? 0 then [] else [(key, JNumber (FormatInt n))].
Definition envelope_members (e : fundingPaymentCursorEnvelope) : list (string * json) :=
  [("version", JNumber (FormatInt (ce_Version e))); ("scope_digest", JString (ce_ScopeDigest e))] ++
  omit_text "venue_cursor" (ce_VenueCursor e) ++ omit_int "page" (ce_Page e) ++ omit_int "items_seen" (ce_ItemsSeen e) ++
  omit_int "slice_start_millis" (ce_SliceStartMillis e) ++ [("traversal_started", JBool (ce_TraversalStarted e))].
Definition envelope_names : list (string * field_type) :=
  [("version", FInt); ("scope_digest", FString); ("venue_cursor", FString); ("page", FInt); ("items_seen", FInt);
   ("slice_start_millis", FInt); ("traversal_started", FBool)].
Definition token_names : list (string * field_type) := [("payload", FString); ("signature", FString)].

(** Lower-case hexadecimal digits of the bytes. *)
Definition hex_letter (n : Z) : ascii := if n <? 10 then byte_of (48 + n) else byte_of (87 + n).
Fixpoint hex_text (s : string) : string :=
  match s with "" => "" | String c rest => String (hex_letter (code c / 16)) (String (hex_letter (code c mod 16)) (hex_text rest)) end.

Definition line_feed : string := String (byte 10) "".
Definition nul : string := String (byte 0) "".
(** [time.UnixNano], which wraps outside its range *)
Definition UnixNano (t : time) : Z := wrap64 (t - unix_epoch).

Section cursors.
Context `{JsonText} (hmac : string → string → string) (sha256 : string → string).

Definition fundingPaymentCursorKey (parts : list string) : string :=
  sha256 ("boltertrader:funding-payment-cursor-key:v1" +:+ line_feed +:+ Join "" (map (λ part, part +:+ nul) parts)).
Definition stableFundingPaymentFactID (parts : list string) : string :=
  "funding-payment:" +:+ String.substring 0 32 (hex_text (sha256 (Join "" (map (λ part, part +:+ line_feed) parts)))).
Definition fundingPaymentCursorScopeTokenDigest (key scopeDigest : string) : string :=
  EncodeToString (hmac key ("boltertrader:funding-payment-cursor-scope:v1" +:+ line_feed +:+ scopeDigest)).
Definition fundingPaymentCursorScope {D} (instrument : option (Instrument D)) (settlementAsset : string) (start stop : time) (limit : Z)
  : fundingPaymentCursorEnvelope :=
  let text := "scope:v1" +:+ line_feed +:+ "settlement=" +:+ settlementAsset +:+ line_feed +:+ "start=" +:+ FormatInt (UnixNano start) +:+ line_feed +:+
    "end=" +:+ FormatInt (UnixNano stop) +:+ line_feed +:+ "limit=" +:+ FormatInt limit +:+ line_feed +:+
    match instrument with
    | Some i => "instrument=" +:+ id_NativeSymbol (in_Identity i) +:+ nul +:+ id_NativeID (in_Identity i) +:+ line_feed
    | None => "instrument=all" +:+ line_feed
    end in
  mkEnvelope 0 (hex_text (sha256 text)) "" 0 0 0 false.

Definition sealed (key : string) (e : fundingPaymentCursorEnvelope) : fundingPaymentCursorEnvelope :=
  mkEnvelope 1 (fundingPaymentCursorScopeTokenDigest key (ce_ScopeDigest e)) (ce_VenueCursor e) (ce_Page e) (ce_ItemsSeen e)
    (ce_SliceStartMillis e) true.
Definition cursor_prefix : string := "fp:v1:".
Definition encodeFundingPaymentCursor (key : string) (e : fundingPaymentCursorEnvelope) : string :=
  let payloadText := EncodeToString (json_marshal (JObject (envelope_members (sealed key e)))) in
  let token := JObject [("payload", JString payloadText); ("signature", JString (EncodeToString (hmac key payloadText)))] in
  cursor_prefix +:+ EncodeToString (json_marshal token).

(** [json.Unmarshal] of a text into a struct *)
Definition parse_object (names : list (string * field_type)) (text : string) : option (gmap string json) :=
  v ← json_parse text; unmarshal names v.
Definition decode_error {A} (o : option A) : result error A :=
  match o with Some a => Ok a | None => Err (EText "malformed cursor") end.
Definition decodeFundingPaymentCursor (cursor key : string) (expected : fundingPaymentCursorEnvelope)
  : result error fundingPaymentCursorEnvelope :=
  if is_empty cursor then
    Ok (mkEnvelope (ce_Version expected) (ce_ScopeDigest expected) (ce_VenueCursor expected) (ce_Page expected) (ce_ItemsSeen expected)
          (ce_SliceStartMillis expected) true)
  else
    check HasPrefix cursor cursor_prefix else EText "cursor is not a funding-payment traversal cursor" ;;
    raw <-? decode_error (DecodeString (TrimPrefix cursor cursor_prefix)) ;;
    token <-? decode_error (parse_object token_names raw) ;;
    signature <-? decode_error (DecodeString (text_of token "signature")) ;;
    check String.eqb signature (hmac key (text_of token "payload")) else EText "cursor signature is invalid" ;;
    raw <-? decode_error (DecodeString (text_of token "payload")) ;;
    m <-? decode_error (parse_object envelope_names raw) ;;
    let envelope := mkEnvelope (int_of m "version") (text_of m "scope_digest") (text_of m "venue_cursor") (int_of m "page") (int_of m "items_seen")
      (int_of m "slice_start_millis") (bool_of m "traversal_started") in
    check (ce_Version envelope =? 1) && ce_TraversalStarted envelope &&
      String.eqb (ce_ScopeDigest envelope) (fundingPaymentCursorScopeTokenDigest key (ce_ScopeDigest expected))
      else EText "cursor scope does not match funding-payment request" ;;
    Ok envelope.
End cursors.

(** ** Going back by months *)

Lemma Date_clock n clock : 0 ≤ clock < Day → Time_Date (n * Day + clock) = civil n ∧ time_of_day (n * Day + clock) = clock.
Proof.
  intros Hc. unfold Time_Date, time_of_day. rewrite Z.div_add_l, Z.div_small, Z.add_0_r by lia.
  by rewrite Z.add_comm, Z.mod_add, Z.mod_small by lia.
Qed.

Lemma subtractCalendarMonths_eq value months :
  let d := Time_Date value in
  let k := dt_month d - months - 1 in
  let y := dt_year d + k / 12 in
  let m := k mod 12 + 1 in
  1 ≤ m ≤ 12 ∧ subtractCalendarMonths value months = MakeDate y m (Z.min (dt_day d) (month_days y m)) (time_of_day value).
Proof.
  cbv zeta. unfold subtractCalendarMonths. destruct (Time_Date value) as [year month day] eqn:Ed. cbn [dt_year dt_month dt_day].
  set (y := year + (month - months - 1) / 12). set (m := (month - months - 1) mod 12 + 1).
  assert (Hm : 1 ≤ m ≤ 12) by (unfold m; pose proof (Z.mod_pos_bound (month - months - 1) 12); lia). split; [done|].
  assert (Hc : 0 ≤ time_of_day value < Day) by (apply Z.mod_pos_bound; done).
  assert (Ht : Time_Date (MakeDate year (month - months) 1 (time_of_day value)) = mkDate y m 1).
  { unfold MakeDate. rewrite (proj1 (Date_clock _ _ Hc)), day_of_first. apply civil_day_of.
    pose proof (month_days_pos y m Hm). split; cbn [dt_year dt_month dt_day]; fold y m; lia. }
  rewrite Ht. cbn [dt_year dt_month].
  assert (Hl : Time_Date (MakeDate y (m + 1) 0 (time_of_day value)) = mkDate y m (month_days y m)).
  { unfold MakeDate. rewrite (proj1 (Date_clock _ _ Hc)). by apply civil_day_zero. }
  rewrite Hl. cbn [dt_day]. f_equal. destruct (Z.ltb_spec (month_days y m) day); lia.
Qed.

(** [subtractCalendarMonths] goes back by calendar months: it lands in the
    month that many months earlier, on the same day or, where that month is
    shorter, on its last day, at the same time of day, and never later than it
    started. *)
Theorem subtract_months_calendar value months :
  let d := Time_Date value in
  let r := subtractCalendarMonths value months in
  let d' := Time_Date r in
  12 * dt_year d' + dt_month d' = 12 * dt_year d + dt_month d - months ∧
  dt_day d' = Z.min (dt_day d) (month_days (dt_year d') (dt_month d')) ∧
  time_of_day r = time_of_day value ∧ (0 ≤ months → r ≤ value).
Proof.
  cbv zeta. destruct (subtractCalendarMonths_eq value months) as [Hm ->].
  destruct (civil_valid (value / Day)) as [[Hvm Hvd] Hday]. fold (Time_Date value) in Hvm, Hvd, Hday.
  pose proof (Date_MakeDate value) as Hback. cbv zeta in Hback.
  destruct (Time_Date value) as [year month day]. cbn [dt_year dt_month dt_day] in *.
  set (y := year + (month - months - 1) / 12) in *. set (m := (month - months - 1) mod 12 + 1) in *.
  pose proof (month_days_pos y m Hm) as Hlen.
  destruct (MakeDate_Date y m (Z.min day (month_days y m)) (time_of_day value)) as [Hd Ht].
  { split; cbn [dt_year dt_month dt_day]; lia. }
  { by apply Z.mod_pos_bound. }
  rewrite Hd, Ht. cbn [dt_year dt_month dt_day].
  assert (Hk : 12 * y + m = 12 * year + month - months).
  { unfold y, m. pose proof (Z.div_mod (month - months - 1) 12). lia. }
  split; [exact Hk|]. split; [done|]. split; [done|]. intros Hn. rewrite <- Hback at 2. unfold MakeDate. apply Z.add_le_mono_r.
  apply Z.mul_le_mono_nonneg_r; [done|]. rewrite !day_of_start, Hk.
  pose proof (month_start_mono (12 * year + month - months) (12 * year + month)). lia.
Qed.

(** ** Cursors *)

Lemma runes_graphic fuel s : (String.length s ≤ fuel)%nat → string_forallb graphic s = true → Join "" (runes_fuel fuel s) = s.
Proof.
  revert s. induction fuel as [|fuel IH]; intros [|c s] Hl Hg; [done|cbn in Hl; lia|done|]. cbn [String.length] in Hl.
  cbn [string_forallb] in Hg. apply andb_true_iff in Hg as [Hc Hg].
  assert (Hw : rune_width (String c s) = 1%nat).
  { unfold rune_width. unfold graphic in Hc. destruct (Z.ltb_spec (code c) 128) as [|Hge]; [done|].
    exfalso. apply andb_true_iff in Hc as [_ Hc]. apply Z.leb_le in Hc. change (code "~") with 126 in Hc. lia. }
  cbn [runes_fuel]. rewrite Hw. cbn [drop_string]. specialize (IH s ltac:(lia) Hg).
  assert (Hs : String.substring 0 1 (String c s) = String c "") by (by destruct s). rewrite Hs.
  destruct (runes_fuel fuel s) as [|r l] eqn:E; [cbn [Join] in IH; by rewrite <- IH|].
  change (Join "" (String c "" :: r :: l)) with (String c (Join "" (r :: l))). by rewrite IH.
Qed.
Lemma graphic_utf8 s : string_forallb graphic s = true → valid_utf8 s = true.
Proof. intros Hg. unfold valid_utf8, runes. rewrite runes_graphic by done. apply String.eqb_refl. Qed.
Lemma base64_utf8 s : valid_utf8 (EncodeToString s) = true.
Proof. apply graphic_utf8, EncodeToString_graphic. Qed.

Definition int64 (n : Z) : Prop := int64_min ≤ n ≤ int64_max.
Definition envelope_range (e : fundingPaymentCursorEnvelope) : Prop :=
  int64 (ce_Version e) ∧ int64 (ce_Page e) ∧ int64 (ce_ItemsSeen e) ∧ int64 (ce_SliceStartMillis e).
(** The envelope the members of an object stand for. *)
Definition envelope_of (m : gmap string json) : fundingPaymentCursorEnvelope :=
  mkEnvelope (int_of m "version") (text_of m "scope_digest") (text_of m "venue_cursor") (int_of m "page") (int_of m "items_seen")
    (int_of m "slice_start_millis") (bool_of m "traversal_started").

(** A member of the object, [None] when it is omitted. *)
Definition member_of (key : string) (e : fundingPaymentCursorEnvelope) : option json :=
  snd <$> List.find (λ p, String.eqb p.1 key) (envelope_members e).

Lemma find_member (key : string) (v : json) members : NoDup (map fst members) → (key, v) ∈ members →
  List.find (λ p : string * json, String.eqb p.1 key) members = Some (key, v).
Proof.
  induction members as [|[k w] members IH]; intros Hnd Hin; [by apply elem_of_nil in Hin|]. cbn [map fst] in Hnd. cbn [List.find fst].
  pose proof (NoDup_cons_1_1 _ _ Hnd) as Hk. apply NoDup_cons_1_2 in Hnd. apply elem_of_cons in Hin as [[= -> ->]|Hin]; [by rewrite String.eqb_refl|].
  destruct (String.eqb_spec k key) as [->|Hne]; [|by apply IH]. destruct Hk. change (key ∈ fst <$> members).
  apply list_elem_of_fmap. by exists (key, v).
Qed.
Lemma envelope_keys e : NoDup (map fst (envelope_members e)).
Proof.
  unfold envelope_members, omit_text, omit_int. destruct (is_empty _), (_ =? 0), (_ =? 0), (_ =? 0);
    apply (bool_decide_eq_true_1 _); vm_compute; reflexivity.
Qed.
Lemma unmarshal_envelope e : envelope_range e →
  ∃ m, unmarshal envelope_names (JObject (envelope_members e)) = Some m ∧ ∀ key, m !! key = member_of key e.
Proof.
  intros (Hv & Hp & Hi & Hs). cbn [unmarshal].
  assert (Hall : ∀ k v, (k, v) ∈ envelope_members e →
    ∃ t, t ≠ FRaw ∧ find_field envelope_names k = Some (k, t) ∧ store_value t v ≠ None ∧ nonnull v = Some v).
  { intros k v. unfold envelope_members, omit_text, omit_int. rewrite !elem_of_app, !elem_of_cons, elem_of_nil.
    intros Hin. destruct_or?; simplify_eq;
      try (match type of Hin with (_, _) ∈ (if ?b then _ else _) => destruct b; [by apply elem_of_nil in Hin|];
           apply list_elem_of_singleton in Hin; simplify_eq end);
      eexists; (split; [|split; [vm_compute; reflexivity|]]); try done; (split; [|done]);
      cbn [store_value]; rewrite ?ParseInt_FormatInt by done; done. }
  replace (List.filter _ _) with (envelope_members e).
  2:{ symmetry. apply forallb_filter_id, forallb_forall. intros [k v] Hin%list_elem_of_In.
      destruct (Hall k v Hin) as (t & _ & Hf & _). unfold known_member. cbn [fst]. by rewrite Hf. }
  pose proof (decode_members_exact envelope_names (envelope_members e) ∅) as Hd.
  destruct (decode_members envelope_names (envelope_members e) ∅) as [m|].
  - exists m. split; [done|]. destruct Hd as (_ & Hin & Hout).
    { intros k v Hkv. destruct (Hall k v Hkv) as (t & Ht & Hf & _). by exists t. }
    { apply envelope_keys. }
    { intros; apply lookup_empty. }
    intros key. unfold member_of. destruct (List.find _ _) as [[k v]|] eqn:Ef; cbn [fmap option_fmap option_map snd].
    + apply List.find_some in Ef as [Hkv Hk]. apply String.eqb_eq in Hk. cbn in Hk. subst k. apply list_elem_of_In in Hkv.
      rewrite (Hin _ _ Hkv). by destruct (Hall _ _ Hkv) as (t & _ & _ & _ & ->).
    + rewrite Hout; [apply lookup_empty|]. change (map fst (envelope_members e)) with (fst <$> envelope_members e).
      intros ([k v] & -> & Hkv)%list_elem_of_fmap. apply list_elem_of_In in Hkv.
      pose proof (List.find_none _ _ Ef _ Hkv) as Hne. cbn in Hne. by rewrite String.eqb_refl in Hne.
  - destruct Hd as (k & v & t & Hkv & Hf & Hst).
    { intros k v Hkv. destruct (Hall k v Hkv) as (t & Ht & Hf & _). by exists t. }
    { apply envelope_keys. }
    { intros; apply lookup_empty. }
    destruct (Hall k v Hkv) as (t' & _ & Hf' & Hst' & _). rewrite Hf' in Hf. injection Hf as ->. done.
Qed.
Lemma member_values e m : envelope_range e → (∀ key, m !! key = member_of key e) → envelope_of m = e.
Proof.
  intros (Hv & Hp & Hi & Hs) Hm. unfold envelope_of, int_of, text_of, bool_of. rewrite !Hm.
  unfold member_of, envelope_members, omit_text, omit_int, is_empty. destruct e as [v d vc pg it sl st].
  cbn [ce_Version ce_ScopeDigest ce_VenueCursor ce_Page ce_ItemsSeen ce_SliceStartMillis ce_TraversalStarted] in *.
  destruct (String.eqb_spec vc "") as [->|], (Z.eqb_spec pg 0) as [->|], (Z.eqb_spec it 0) as [->|], (Z.eqb_spec sl 0) as [->|];
    cbn; by rewrite ?ParseInt_FormatInt by done.
Qed.
Lemma envelope_clean e : valid_utf8 (ce_ScopeDigest e) = true → valid_utf8 (ce_VenueCursor e) = true → json_clean (JObject (envelope_members e)) = true.
Proof.
  intros Hd Hc. unfold envelope_members, omit_text, omit_int. cbn [json_clean]. rewrite !forallb_app. cbn [forallb fst snd json_clean].
  destruct (is_empty _), (_ =? 0), (_ =? 0), (_ =? 0); cbn [forallb fst snd json_clean]; by rewrite ?Hd, ?Hc.
Qed.

Section cursor_laws.
Context `{JsonLaws} (hmac : string → string → string).
Abbreviation encode := (encodeFundingPaymentCursor hmac).
Abbreviation decode := (decodeFundingPaymentCursor hmac).
Abbreviation token_digest := (fundingPaymentCursorScopeTokenDigest hmac).

(** Where a traversal stands: what a cursor must carry. *)
Definition cursor_range (e : fundingPaymentCursorEnvelope) : Prop :=
  int64 (ce_Page e) ∧ int64 (ce_ItemsSeen e) ∧ int64 (ce_SliceStartMillis e) ∧ valid_utf8 (ce_VenueCursor e) = true.

Lemma encode_not_empty key e : is_empty (encode key e) = false.
Proof. done. Qed.
Lemma decode_encode key e expected : cursor_range e →
  decode (encode key e) key expected =
  if String.eqb (token_digest key (ce_ScopeDigest e)) (token_digest key (ce_ScopeDigest expected)) then Ok (sealed hmac key e)
  else Err (EText "cursor scope does not match funding-payment request").
Proof.
  intros (Hp & Hi & Hs & Hu). unfold decodeFundingPaymentCursor. rewrite encode_not_empty. unfold encodeFundingPaymentCursor. cbv zeta.
  destruct (prefix_drop cursor_prefix (EncodeToString (json_marshal (JObject
    [("payload", JString (EncodeToString (json_marshal (JObject (envelope_members (sealed hmac key e))))));
     ("signature", JString (EncodeToString (hmac key (EncodeToString (json_marshal (JObject (envelope_members (sealed hmac key e))))))))])))) as [-> ->].
  set (payload := EncodeToString (json_marshal (JObject (envelope_members (sealed hmac key e))))).
  rewrite DecodeString_EncodeToString. cbn [decode_error]. unfold parse_object. rewrite json_parse_marshal.
  2:{ cbn [json_clean forallb fst snd]. unfold payload. by rewrite !base64_utf8. }
  cbn [mbind option_bind].
  assert (Ht : ∃ t, unmarshal token_names (JObject [("payload", JString payload); ("signature", JString (EncodeToString (hmac key payload)))]) = Some t ∧
    text_of t "payload" = payload ∧ text_of t "signature" = EncodeToString (hmac key payload)).
  { clearbody payload. eexists. split; [reflexivity|]. split; reflexivity. }
  destruct Ht as (t & -> & Hpay & Hsig). cbn [decode_error]. rewrite Hsig, Hpay, DecodeString_EncodeToString. cbn [decode_error].
  rewrite String.eqb_refl. unfold payload. rewrite DecodeString_EncodeToString. cbn [decode_error]. clear t payload Hpay Hsig.
  rewrite json_parse_marshal by (apply envelope_clean; [apply base64_utf8|done]). cbn [mbind option_bind].
  assert (Hr : envelope_range (sealed hmac key e)) by (split; [unfold int64, int64_min, int64_max; cbn; lia|done]).
  destruct (unmarshal_envelope _ Hr) as (m & -> & Hm). cbn [decode_error].
  change (mkEnvelope (int_of m "version") _ _ _ _ _ _) with (envelope_of m). rewrite (member_values _ _ Hr Hm).
  cbn [sealed ce_Version ce_TraversalStarted ce_ScopeDigest]. done.
Qed.

(** A funding-payment cursor resumes exactly the traversal it was issued for:
    decoded under the same key it yields the position that was encoded, and is
    refused for a request of another scope; and whatever other text is accepted
    as a cursor carries a payload signed under the key and naming the scope. *)
Theorem cursor_resumes_its_scope key e expected : cursor_range e →
  decode (encode key e) key expected =
    (if String.eqb (token_digest key (ce_ScopeDigest e)) (token_digest key (ce_ScopeDigest expected)) then Ok (sealed hmac key e)
     else Err (EText "cursor scope does not match funding-payment request")) ∧
  ∀ cursor e', cursor ≠ "" → decode cursor key expected = Ok e' →
    ce_ScopeDigest e' = token_digest key (ce_ScopeDigest expected) ∧
    ∃ payload raw m, DecodeString payload = Some raw ∧ parse_object envelope_names raw = Some m ∧ e' = envelope_of m ∧
      ∃ outer t, cursor = cursor_prefix +:+ outer ∧ (DecodeString outer ≫= parse_object token_names) = Some t ∧
        text_of t "payload" = payload ∧ DecodeString (text_of t "signature") = Some (hmac key payload).
Proof.
  intros He. split; [by apply decode_encode|]. intros cursor e' Hne. unfold decodeFundingPaymentCursor, is_empty.
  rewrite (proj2 (String.eqb_neq _ _) Hne). destruct (HasPrefix cursor cursor_prefix) eqn:Hp; [|done].
  destruct (DecodeString (TrimPrefix cursor cursor_prefix)) as [raw|] eqn:Hraw; [|done]. cbn [decode_error].
  destruct (parse_object token_names raw) as [t|] eqn:Ht; [|done]. cbn [decode_error].
  destruct (DecodeString (text_of t "signature")) as [signature|] eqn:Hsig; [|done]. cbn [decode_error].
  destruct (String.eqb_spec signature (hmac key (text_of t "payload"))) as [->|]; [|done].
  destruct (DecodeString (text_of t "payload")) as [inner|] eqn:Hinner; [|done]. cbn [decode_error].
  destruct (parse_object envelope_names inner) as [m|] eqn:Hm; [|done]. cbn [decode_error].
  change (mkEnvelope (int_of m "version") _ _ _ _ _ _) with (envelope_of m). cbv zeta.
  destruct (_ && _) eqn:Hok; [|done]. intros [= <-]. apply andb_true_iff in Hok as [_ Hd]. apply String.eqb_eq in Hd.
  split; [exact Hd|]. exists (text_of t "payload"), inner, m. split_and!; [done..|].
  exists (TrimPrefix cursor cursor_prefix), t. split_and!; [|by rewrite Hraw|done|exact Hsig].
  unfold TrimPrefix. rewrite Hp. by apply HasPrefix_split.
Qed.
End cursor_laws.

(** ** Resolution by either symbol *)

Section resolution.
Context `{Decimal D} (revision_of : Z → CatalogScope → list (Instrument D) → string) (digest_of : SourceDescriptor → string).
Implicit Types (c : MemoryCatalog D).

Lemma not_found_iff scope l ix kind kind1 kind2 key :
  indexes_exact (D:=D) ix l → key ≠ "" →
  match resolve_in scope (index_of kind ix) (index_of kind1 ix) (index_of kind2 ix) key with
  | Ok _ => True
  | Err e => isCatalogMetadataNotFound e = true ↔ ∀ n i, l !! n = Some i → InstrumentCatalog.key_of kind i ≠ key
  end.
Proof.
  intros Hix Hne. unfold resolve_in. destruct (index_of kind ix !! key) as [n|] eqn:E.
  - assert (Hhas : ¬ ∀ n i, l !! n = Some i → InstrumentCatalog.key_of kind i ≠ key).
    { apply Hix in E as (i & Hi & Hk & _). intros Hn. by apply (Hn n i). }
    destruct (negb (conflicts n (index_of kind1 ix !! key))); [destruct (negb (conflicts n (index_of kind2 ix !! key)))|]; [done|split; [done|]..];
      intros Hn; by destruct Hhas.
  - split; [|done]. intros _ n i Hi Hk. assert (Hs : index_of kind ix !! key = Some n) by (apply Hix; eauto). congruence.
Qed.

(** With the scope's instruments loaded, a client resolves a symbol to the
    instrument that bears it as its symbol or, when none does, as the venue's
    own symbol, provided the text is no identity of another instrument; in all
    other cases it reports an error, and the catalog is unchanged. *)
Theorem ResolveInstrument_correct meta scope c snapshot symbol now :
  catalog_ok revision_of digest_of c → mc_data c !! scope = Some snapshot → scope ≠ zero_scope → TrimSpace symbol ≠ "" →
  let key := TrimSpace symbol in
  let l := sn_Instruments snapshot in
  ∃ r, ResolveInstrument revision_of meta true scope c (Some None) symbol now = (c, Some r) ∧
  ∀ i, r = Ok i ↔ ∃ n, l !! n = Some i ∧
    (answers l BySymbol key n ∨ ((∀ m j, l !! m = Some j → InstrumentCatalog.key_of BySymbol j ≠ key) ∧ answers l ByNativeSymbol key n)).
Proof.
  intros Hc Hs Hz Hk. cbv zeta. destruct (co_data _ _ _ Hc _ _ Hs) as [[_ _ Hix _ _] _].
  unfold ResolveInstrument. cbn [catalogContextErr]. apply String.eqb_neq in Hk as Hb. unfold is_empty. rewrite Hb. cbn [negb orb].
  rewrite bool_decide_false by done.
  assert (Hres : ∀ q, Resolve revision_of c scope q now =
    (c, match resolveIndex scope (sn_Indexes snapshot) q with Err e => Some (Err e) | Ok index => option_map Ok (sn_Instruments snapshot !! index) end)).
  { intros q. unfold Resolve, Snapshot. by rewrite Hs. }
  rewrite !Hres. set (l := sn_Instruments snapshot) in *. set (ix := sn_Indexes snapshot) in *. set (key := TrimSpace symbol) in *.
  assert (Htt : TrimSpace key = key) by apply TrimSpace_idem.
  assert (Hkk : TrimSpace key ≠ "") by (by rewrite Htt).
  pose proof (λ n, resolveIndex_Ok scope l ix BySymbol key n Hix Hkk) as H1.
  pose proof (λ n, resolveIndex_Ok scope l ix ByNativeSymbol key n Hix Hkk) as H2.
  cbn [query_of] in H1, H2. rewrite Htt in H1, H2.
  assert (Hnf : match resolveIndex scope ix (mkQuery key "" "") with Ok _ => True
    | Err e => isCatalogMetadataNotFound e = true ↔ ∀ n i, l !! n = Some i → InstrumentCatalog.key_of BySymbol i ≠ key end).
  { unfold resolveIndex, count_keys, is_empty. cbn [iq_Symbol iq_NativeSymbol iq_NativeID]. rewrite TrimSpace_empty, Htt. cbn [foldr].
    rewrite Hb. cbn. exact (not_found_iff scope l ix BySymbol ByNativeSymbol ByNativeID key Hix Hk). }
  assert (Huniq : ∀ n m i, answers l BySymbol key n → l !! m = Some i → InstrumentCatalog.key_of BySymbol i = key → m = n).
  { intros n m i [_ Hu] Hm Hi. by apply (Hu BySymbol m i). }
  destruct (resolveIndex scope ix (mkQuery key "" "")) as [n|e].
  - pose proof (proj1 (H1 n) eq_refl) as Ha. destruct (Ha) as [(i0 & Hi0 & Hki0 & _) _]. rewrite Hi0. cbn [option_map].
    exists (Ok i0). split; [done|]. intros i. split.
    + intros [= <-]. exists n. auto.
    + intros (m & Hm & [[(j & Hj & Hkj & _) _]|[Hno _]]); [|by destruct (Hno n i0)].
      assert (m = n) as -> by (by apply (Huniq n m j)). congruence.
  - assert (Hnone : ∀ n, ¬ answers l BySymbol key n) by (intros n Ha; by apply H1 in Ha).
    destruct (isCatalogMetadataNotFound e); cbn [negb].
    + assert (Hno : ∀ n i, l !! n = Some i → InstrumentCatalog.key_of BySymbol i ≠ key) by (by apply Hnf).
      destruct (resolveIndex scope ix (mkQuery "" key "")) as [n|e2].
      * pose proof (proj1 (H2 n) eq_refl) as Ha. destruct (Ha) as [(i0 & Hi0 & _) Hu]. rewrite Hi0. cbn [option_map].
        exists (Ok i0). split; [done|]. intros i. split; [intros [= <-]; exists n; auto|].
        intros (m & Hm & [Ha'|[_ [(j & Hj & Hkj & _) _]]]); [by destruct (Hnone m)|].
        assert (m = n) as -> by (by apply (Hu ByNativeSymbol m j)). congruence.
      * eexists. split; [reflexivity|]. intros i. split; [done|]. intros (m & _ & [Ha|[_ Ha]]); [by destruct (Hnone m)|by apply H2 in Ha].
    + eexists. split; [reflexivity|]. intros i. split; [done|]. intros (m & _ & [Ha|[Hno _]]); [by destruct (Hnone m)|].
      by apply Hnf in Hno.
Qed.
End resolution.

(** ** What a watermark promises *)

(** The watermark of a page is verified exactly when the whole closed window
    was read, lay in the past and within what the venue retains; the page's own
    completeness mark always agrees with it. *)
Lemma watermark_verified cursor items hasMore start stop retained observedAt :
  let status := fundingPaymentCompletionStatus items hasMore start stop retained observedAt in
  let w := fundingPaymentWatermark cursor stop status observedAt in
  (wm_Verified w = true ↔
     hasMore = false ∧ start ≠ zero_time ∧ stop ≠ zero_time ∧ observedAt ≠ zero_time ∧ stop ≤ observedAt ∧ retained = true) ∧
  wm_CompleteThrough w = fundingPaymentCompleteThrough stop status ∧ wm_EffectiveThrough w = wm_CompleteThrough w.
Proof.
  cbv zeta. unfold fundingPaymentCompletionStatus, fundingPaymentWatermark, fundingPaymentCompleteThrough, IsZero, After, zero_time, is_complete.
  cbn [wm_Verified wm_CompleteThrough wm_EffectiveThrough].
  destruct hasMore, retained, (Z.eqb_spec start 0), (Z.eqb_spec stop 0), (Z.eqb_spec observedAt 0), (Z.ltb_spec observedAt stop), (items =? 0); cbn;
    split_and!; try done; split; intros; try done; destruct_and?; try done; try lia; split_and!; try done; lia.
Qed.

(** ** Concrete inputs *)

#[local] Existing Instance bits_json.
#[local] Existing Instance bits_json_laws.

(** 31 March 2024, 09:00, back by one month, is the leap day. *)
Lemma leap_day_example :
  subtractCalendarMonths (MakeDate 2024 3 31 (9 * Hour)) 1 = MakeDate 2024 2 29 (9 * Hour) ∧
  subtractCalendarMonths (MakeDate 2024 1 31 (9 * Hour)) 11 = MakeDate 2023 2 28 (9 * Hour).
Proof. split; vm_compute; reflexivity. Qed.

Definition plain_mac (key message : string) : string := key +:+ "|" +:+ message.
Definition sample_position_cursor : fundingPaymentCursorEnvelope := mkEnvelope 0 "scope-a" "venue-7" 2 0 1700000000000 false.
Lemma cursor_resumes_its_scope_witness :
  let cursor := encodeFundingPaymentCursor plain_mac "key" sample_position_cursor in
  decodeFundingPaymentCursor plain_mac cursor "key" (mkEnvelope 0 "scope-a" "" 0 0 0 false) = Ok (sealed plain_mac "key" sample_position_cursor) ∧
  is_ok (decodeFundingPaymentCursor plain_mac cursor "key" (mkEnvelope 0 "scope-b" "" 0 0 0 false)) = false.
Proof.
  cbv zeta. assert (Hr : cursor_range sample_position_cursor) by (unfold cursor_range, int64, int64_min, int64_max; split_and!; try (cbn; lia); vm_compute; reflexivity).
  split.
  - destruct (cursor_resumes_its_scope plain_mac "key" sample_position_cursor (mkEnvelope 0 "scope-a" "" 0 0 0 false) Hr) as [-> _]. vm_compute. reflexivity.
  - destruct (cursor_resumes_its_scope plain_mac "key" sample_position_cursor (mkEnvelope 0 "scope-b" "" 0 0 0 false) Hr) as [-> _]. vm_compute. reflexivity.
Defined.

Definition loaded_snapshot : InstrumentSnapshot Z := default zero_snapshot (mc_data loaded_catalog !! perp_scope).
Lemma ResolveInstrument_correct_witness :
  ∃ r, ResolveInstrument sample_revision (mkMeta VenueBinance ProductPerp) true perp_scope loaded_catalog (Some None) " ETHUSDT" 2 =
         (loaded_catalog, Some r) ∧
  ∀ i, r = Ok i ↔ ∃ n, sn_Instruments loaded_snapshot !! n = Some i ∧
    (answers (sn_Instruments loaded_snapshot) BySymbol "ETHUSDT" n ∨
     ((∀ m j, sn_Instruments loaded_snapshot !! m = Some j → InstrumentCatalog.key_of BySymbol j ≠ "ETHUSDT") ∧
      answers (sn_Instruments loaded_snapshot) ByNativeSymbol "ETHUSDT" n)).
Proof.
  apply (ResolveInstrument_correct sample_revision sample_digest (mkMeta VenueBinance ProductPerp) perp_scope loaded_catalog loaded_snapshot " ETHUSDT" 2).
  - apply (steps_ok _ _ no_url fresh_catalog); [apply loaded_reachable|apply fresh_ok].
  - vm_compute. reflexivity.
  - discriminate.
  - vm_compute. discriminate.
Defined.
Example resolves_native_symbol :
  (ResolveInstrument sample_revision (mkMeta VenueBinance ProductPerp) true perp_scope loaded_catalog (Some None) " ETHUSDT" 2).2 =
  Some (Ok (sample_perp VenueBinance "ETH" "USDT")).
Proof. vm_compute. reflexivity. Qed.
