(* ===== verification/HyperliquidMarkets.v ===== *)
(** * Hyperliquid: errors, texts and market metadata

    [exchange/internal/factoryclient/hyperliquid_rest.go] (error mapping,
    decimal texts, instruments from the venue's metadata and back) and
    [hyperliquid_perp_directory.go] (the official perpetual dexes).  The SDK is
    not modelled: its replies are arguments, and an SDK error is given by what
    the client observes of it. *)

From Stdlib Require Import Ascii String ZArith Lia QArith Qcanon.
From stdpp Require Import base list strings gmap.
From S2P Require Import Prelude GoStrings Decimals DecimalText Errors Model HttpErrors Orders InstrumentCatalog Sockets AccountFeed Hyperliquid Clients.

#[local] Open Scope string_scope.
#[local] Open Scope list_scope.
#[local] Open Scope Z_scope.
#[local] Open Scope go_scope.

Definition hyperliquidVenue : string := VenueHyperliquid.
Definition hyperliquidOutcomeAssetBase : Z := 100000000.
Definition hyperliquidSpotAssetOffset : Z := 10000.

(** ** Errors *)

Definition hl_error (kind : ErrorKind) (product operation code message : string) : error :=
  NewError kind (mkDetails hyperliquidVenue product operation code message 0 0 "" false).
Definition hlInvalid (product operation msg : string) : error := hl_error KindInvalidRequest product operation "" msg.
Definition hlMalformed (product operation msg : string) : error := hl_error KindMalformedResponse product operation "" msg.
Definition hlContextErr (product operation : string) (err : error) : error :=
  if errors_is (TSentinel ContextCanceled) (Some err) then hl_error KindCanceled product operation "" "context canceled"
  else if errors_is (TSentinel ContextDeadlineExceeded) (Some err) then hl_error KindDeadlineExceeded product operation "" "context deadline exceeded"
  else hl_error KindTransport product operation "" "context error".
Definition hlRequireCtx (ctx : context) (product operation : string) : result error unit :=
  match ctx with
  | None => Err (hlInvalid product operation "context is required")
  | Some (Some err) => Err (hlContextErr product operation err)
  | Some None => Ok tt
  end.

(** What the client observes of an SDK error: the error tree, its text, the
    response status the request tracker saw (0 for none), whether it is an order
    rejection or missing credentials, and the codes of the SDK's exchange error
    and of the API error, where it wraps one. *)
Record native_error := mkNative {
  ne_err : error; ne_text : string; ne_status : Z; ne_rejected : bool; ne_credentials : bool;
  ne_exchange_code : option string; ne_api_code : option Z;
}.
Definition hlMalformedSDKError (n : native_error) : bool :=
  existsb (Contains (ne_text n)) ["malformed"; "venue returned"; "missing response"; "client order id mismatch"; "unmarshal"; "invalid character";
    "unexpected end"; "cannot unmarshal"].
(** [hyperliquid.IsWalletDoesNotExistError] *)
Definition IsWalletDoesNotExistError (n : native_error) : bool :=
  let errMsg := ToLower (ne_text n) in
  Contains errMsg "does not exist" && (Contains errMsg "wallet" || Contains errMsg "user").
Definition sdk_rate_limited (n : native_error) : option string :=
  match ne_exchange_code n with
  | Some code => if errors_is (TSentinel ErrRateLimited) (Some (ne_err n)) then Some code else None
  | None => None
  end.
Definition is_unauthorized (status : Z) : bool := (status =? 401) || (status =? 403).

(** [hlNormalizeQueryErr] before its deferred normalization *)
Definition query_err (product operation : string) (n : native_error) : error :=
  let fail := λ kind code message, hl_error kind product operation code message in
  if errors_is (TSentinel ContextCanceled) (Some (ne_err n)) || errors_is (TSentinel ContextDeadlineExceeded) (Some (ne_err n))
  then hlContextErr product operation (ne_err n)
  else
  let status := ne_status n in
  let code := if 0 <? status then FormatInt status else "" in
  let hasAPIError := is_present (ne_api_code n) in
  if is_unauthorized status then fail KindAuthentication code "Hyperliquid authentication failed"
  else if status =? 429 then fail KindRateLimit code "Hyperliquid rate limit"
  else if status =? 404 then fail KindNotFound code "Hyperliquid resource not found"
  else if 500 <=? status then fail KindTransport code "Hyperliquid API unavailable"
  else if (status =? 400) && hasAPIError && IsWalletDoesNotExistError n then fail KindNotFound code "Hyperliquid account not found"
  else if (400 <=? status) && (status <? 500) then fail KindInvalidRequest code "Hyperliquid rejected the request"
  else if (0 <? status) && (status <? 400) && hlMalformedSDKError n then hlMalformed product operation "malformed Hyperliquid response"
  else if 0 <? status then fail KindTransport code "Hyperliquid response read failed"
  else match sdk_rate_limited n with
  | Some code => fail KindRateLimit code "Hyperliquid rate limit"
  | None =>
      let rest :=
        if ne_credentials n then fail KindAuthentication "" "Hyperliquid credentials required"
        else if hlMalformedSDKError n then hlMalformed product operation "malformed Hyperliquid response"
        else fail KindTransport "" "Hyperliquid transport error" in
      match ne_api_code n with
      | Some api =>
          if is_unauthorized api then fail KindAuthentication (FormatInt api) "Hyperliquid authentication failed"
          else if api =? 429 then fail KindRateLimit (FormatInt api) "Hyperliquid rate limit"
          else if (api =? 404) || IsWalletDoesNotExistError n then fail KindNotFound (FormatInt api) "Hyperliquid resource not found"
          else rest
      | None => rest
      end
  end.
(** The deferred normalization keeps an error an error. *)
Definition hlNormalizeQueryErr (product operation : string) (n : native_error) : error :=
  let err := query_err product operation n in
  default err (normalizeHTTPError (D:=unit) (Some err) (Some (ne_err n)) hyperliquidVenue product operation).

(** ** Numbers and names *)

(** [time.UnixMilli] *)
Definition FromMilli (ms : Z) : time := unix_epoch + ms * Millisecond.
Lemma UnixMilli_FromMilli ms : UnixMilli (FromMilli ms) = ms.
Proof. unfold UnixMilli, FromMilli, Millisecond. replace (_ - unix_epoch) with (ms * 1000000) by lia. by apply Z.div_mul. Qed.

Definition hlRejectCoin (coin : string) : bool :=
  let coin := TrimSpace coin in
  is_empty coin || Contains coin ":" || HasPrefix coin "#" || HasPrefix coin "+".
Definition hlSide (value : string) : result error string :=
  if one_of value ["B"; "buy"] then Ok SideBuy
  else if one_of value ["A"; "sell"] then Ok SideSell
  else Err (EText "invalid side").
Definition hlOptionalString (value : string) : option string := if is_empty value then None else Some value.
Definition hlLimitTIF (policy : string) : string :=
  if String.eqb policy LimitPolicyIOC then "Ioc" else if String.eqb policy LimitPolicyPostOnly then "Alo" else "Gtc".

Section numbers.
Context `{Decimal D}.
Definition hlDecimal (value : string) : result error D :=
  match d_new_from_string (TrimSpace value) with Some d => Ok d | None => Err (EText "can't convert to decimal") end.
Definition hlPositiveDecimal (value : string) : result error D :=
  match hlDecimal value with
  | Ok d => if d_is_positive d then Ok d else Err (EText "not positive")
  | Err _ => Err (EText "not positive")
  end.
Definition hlNonNegativeDecimal (value : string) : result error D :=
  match hlDecimal value with
  | Ok d => if d_is_negative d then Err (EText "negative") else Ok d
  | Err _ => Err (EText "negative")
  end.
Definition hlOptionalPositiveDecimal (value : string) : result error D :=
  if is_empty (TrimSpace value) then Ok d_zero else hlPositiveDecimal value.
Definition hlOptionalNonNegative (value : string) : result error (OptionalDecimal D) :=
  if is_empty (TrimSpace value) then Ok no_decimal
  else d <-? hlNonNegativeDecimal value ;; Ok (mkOptDec d true).
End numbers.

Definition malformed_by {A} (product operation : string) (r : result error A) : result error A :=
  match r with Ok a => Ok a | Err e => Err (hlMalformed product operation (error_text e)) end.

(** ** Instruments *)

Section instruments.
Context `{DecimalText D} `{Decimal D}.

Definition newInstrument (venue product symbol base quote settle nativeSymbol nativeID : string)
    (priceIncrement quantityIncrement minQuantity : D) (minNotional contractMultiplier : OptionalDecimal D) : Instrument D :=
  let marketFamily := if String.eqb product ProductPerp then MarketFamilyVenuePerpetual else MarketFamilySpot in
  mkInstrument (mkIdentity venue product symbol base quote settle nativeSymbol nativeID)
    (mkRules priceIncrement quantityIncrement minQuantity minNotional)
    (mkEncoding contractMultiplier (mkOptInt 0 false) (mkOptInt 0 false) (mkOptInt 0 false))
    (mkMetadata marketFamily AssetClassUnknown "" "" CategoriesEmpty) "".
Definition oneContract : OptionalDecimal D := mkOptDec (d_new 1 0) true.
Definition hyperliquidMinNotional : D := d_new 10 0.

Record hyperliquidMarketMeta := mkMarketMeta {
  hm_instrument : Instrument D; hm_nativeCoin : string; hm_assetID : Z; hm_sizeDecimals : Z; hm_priceDecimals : Z; hm_markPrice : D;
}.

Definition scale_of (decimals : Z) (old : OptionalInt) : OptionalInt := if 0 <? decimals then mkOptInt decimals true else old.
Definition hlApplyScaleMetadata (i : Instrument D) (priceDecimals quantityDecimals quoteDecimals : Z) : Instrument D :=
  let e := in_Encoding i in
  mkInstrument (in_Identity i) (in_Rules i)
    (mkEncoding (en_ContractMultiplier e) (scale_of priceDecimals (en_PriceScale e)) (scale_of quantityDecimals (en_QuantityScale e))
       (scale_of quoteDecimals (en_QuoteScale e)))
    (in_Metadata i) (in_Revision i).
Definition with_metadata (i : Instrument D) (m : InstrumentMetadata) : Instrument D :=
  mkInstrument (in_Identity i) (in_Rules i) (in_Encoding i) m (in_Revision i).

(** ** Spot *)

Record spot_token := mkToken { tk_Name : string; tk_Index : Z; tk_SzDecimals : Z; tk_IsCanonical : bool }.
Record spot_universe := mkUniverse { un_Name : string; un_Tokens : list Z; un_Index : Z; un_IsCanonical : bool }.
Record SpotMeta := mkSpotMeta { sm_Tokens : list spot_token; sm_Universe : list spot_universe }.
Definition portable (token : spot_token) : bool := trimmed (tk_Name token).

Definition add_token (operation : string) (tokens : gmap Z spot_token) (token : spot_token) : result error (gmap Z spot_token) :=
  check negb (hlRejectCoin (tk_Name token) || (tk_Index token <? 0) || (hyperliquidOutcomeAssetBase <=? tk_Index token) ||
              (tk_SzDecimals token <? 0) || (8 <? tk_SzDecimals token))
    else hlMalformed ProductSpot operation "malformed token metadata" ;;
  check negb (negb (portable token) && tk_IsCanonical token) else hlMalformed ProductSpot operation "canonical token name is not portable" ;;
  check negb (is_present (tokens !! tk_Index token)) else hlMalformed ProductSpot operation "duplicate token index" ;;
  Ok (<[tk_Index token := token]> tokens).

Definition spot_meta (uni : spot_universe) (base quote : spot_token) : hyperliquidMarketMeta :=
  let assetID := un_Index uni + hyperliquidSpotAssetOffset in
  let qtyInc := d_new 1 (- tk_SzDecimals base) in
  let priceDecimals := Z.max 0 (8 - tk_SzDecimals base) in
  let priceInc := d_new 1 (- priceDecimals) in
  let instrument := newInstrument VenueHyperliquid ProductSpot (tk_Name base +:+ "-" +:+ tk_Name quote) (tk_Name base) (tk_Name quote) ""
    (un_Name uni) (FormatInt assetID) priceInc qtyInc qtyInc (mkOptDec hyperliquidMinNotional true) oneContract in
  mkMarketMeta (hlApplyScaleMetadata instrument priceDecimals (tk_SzDecimals base) 8) (un_Name uni) assetID (tk_SzDecimals base) priceDecimals d_zero.
(** One turn of the loop over the universe: the markets so far and the symbols
    seen. *)
Definition add_universe (operation : string) (tokens : gmap Z spot_token) (acc : gmap string hyperliquidMarketMeta * list string) (uni : spot_universe)
  : result error (gmap string hyperliquidMarketMeta * list string) :=
  let fail {A} (msg : string) : result error A := Err (hlMalformed ProductSpot operation msg) in
  match hlRejectCoin (un_Name uni) || (un_Index uni <? 0) || (hyperliquidOutcomeAssetBase - hyperliquidSpotAssetOffset <=? un_Index uni), un_Tokens uni with
  | false, [b; q] =>
      match tokens !! b, tokens !! q with
      | None, _ => fail "unknown base token"
      | _, None => fail "unknown quote token"
      | Some base, Some quote =>
          if negb (portable base) || negb (portable quote) then
            if un_IsCanonical uni then fail "canonical spot universe uses nonportable token metadata" else Ok acc
          else
            let symbol := tk_Name base +:+ "-" +:+ tk_Name quote in
            check negb (one_of symbol acc.2) else hlMalformed ProductSpot operation "duplicate spot symbol" ;;
            check negb (is_present (acc.1 !! un_Name uni)) else hlMalformed ProductSpot operation "duplicate spot universe" ;;
            Ok (<[un_Name uni := spot_meta uni base quote]> acc.1, symbol :: acc.2)
      end
  | _, _ => fail "malformed spot universe"
  end.
Fixpoint fold_result {A B} (f : A → B → result error A) (acc : A) (l : list B) : result error A :=
  match l with [] => Ok acc | x :: l' => acc <-? f acc x ;; fold_result f acc l' end.
Definition hlSpotMetas (operation : string) (meta : option SpotMeta) : result error (gmap string hyperliquidMarketMeta) :=
  match meta with
  | None => Err (hlMalformed ProductSpot operation "missing spot metadata")
  | Some meta =>
      tokens <-? fold_result (add_token operation) ∅ (sm_Tokens meta) ;;
      out <-? fold_result (add_universe operation tokens) (∅, []) (sm_Universe meta) ;;
      Ok out.1
  end.

(** ** Perpetuals *)

Definition hyperliquidBuilderAssetBase : Z := 100000.
Definition hyperliquidBuilderAssetStride : Z := 10000.
Definition hyperliquidAssetID (dexIndex marketIndex : Z) : Z :=
  if dexIndex =? 0 then marketIndex else hyperliquidBuilderAssetBase + dexIndex * hyperliquidBuilderAssetStride + marketIndex.
Definition hyperliquidUnderlying (coin : string) : string :=
  match split_once ":" coin with
  | Some (_, suffix) => if is_empty suffix then coin else suffix
  | None => coin
  end.
Definition hyperliquidValidPerpCoin (coin dex : string) : bool :=
  if is_empty coin || negb (trimmed coin) || HasPrefix coin "#" || HasPrefix coin "+" then false
  else if is_empty dex then negb (Contains coin ":")
  else match split_once ":" coin with
  | Some (prefix, suffix) => String.eqb prefix dex && negb (is_empty suffix) && trimmed suffix && negb (Contains suffix ":")
  | None => false
  end.

Record hyperliquidClassifications := mkClassifications { cl_categories : gmap string string; cl_annotations : gmap string string }.
Definition hyperliquidAssetClass (raw : string) : string :=
  let category := ToLower (string_map (λ c, if Ascii.eqb c "-" || Ascii.eqb c " " then "_"%char else c) (TrimSpace raw)) in
  if one_of category ["crypto"; "cryptocurrency"; "cryptocurrencies"] then "crypto"
  else if one_of category ["stock"; "stocks"; "equity"; "equities"; "etf"; "etfs"] then "equity"
  else if one_of category ["commodity"; "commodities"] then "commodity"
  else if one_of category ["index"; "indices"] then "index"
  else if one_of category ["fx"; "forex"] then "fx"
  else if one_of category ["rate"; "rates"; "bond"; "bonds"] then "rates"
  else if one_of category ["preipo"; "pre_ipo"] then "pre_ipo"
  else if one_of category ["rwa"; "real_world_asset"; "real_world_assets"] then "rwa_other"
  else AssetClassUnknown.
Definition applyHyperliquidClassification (i : Instrument D) (coin : string) (classification : hyperliquidClassifications) : Instrument D :=
  let category := default "" (cl_categories classification !! coin) in
  let '(category, source) :=
    if is_empty (TrimSpace category) then (default "" (cl_annotations classification !! coin), "hyperliquid.perpConciseAnnotations")
    else (category, "hyperliquid.perpCategories") in
  let category := TrimSpace category in
  if is_empty category then i
  else with_metadata i (mkMetadata (im_MarketFamily (in_Metadata i)) (hyperliquidAssetClass category) source
         (im_RawAssetType (in_Metadata i)) (NewInstrumentCategories [category])).
Definition set_family (i : Instrument D) (family : string) : Instrument D :=
  let m := in_Metadata i in
  with_metadata i (mkMetadata family (im_AssetClass m) (im_ClassificationSource m) (im_RawAssetType m) (im_RawCategories m)).

(** The universe of the full metadata, the prepared one and the asset contexts
    as far as they are read. *)
Record prep_universe := mkPrep { pu_Name : string; pu_SzDecimals : Z }.
Record MetaAndAssetCtxs := mkFull { fm_Universe : list string; fm_MarkPx : list string }.
Record dex_of := mkDex { dx_index : Z; dx_name : string; dx_collateral : string }.

Definition perp_meta (dex : dex_of) (classifications : hyperliquidClassifications) (name : string) (sz : Z) (index : Z) (mark : D)
  : hyperliquidMarketMeta :=
  let qtyInc := d_new 1 (- sz) in
  let priceDecimals := Z.max 0 (6 - sz) in
  let priceInc := d_new 1 (- priceDecimals) in
  let baseAsset := hyperliquidUnderlying name in
  let collateral := dx_collateral dex in
  let symbol := (if 0 <? dx_index dex then name else baseAsset) +:+ "-" +:+ collateral in
  let assetID := hyperliquidAssetID (dx_index dex) index in
  let i := newInstrument VenueHyperliquid ProductPerp symbol baseAsset collateral collateral name (FormatInt assetID) priceInc qtyInc qtyInc
             (mkOptDec hyperliquidMinNotional true) oneContract in
  let i := if 0 <? dx_index dex then set_family i MarketFamilyBuilderPerpetual else i in
  let i := applyHyperliquidClassification i name classifications in
  mkMarketMeta (hlApplyScaleMetadata i priceDecimals sz 6) name assetID sz priceDecimals mark.
(** One turn of the loop over the universe; [rows] are the remaining names with
    their prepared metadata and mark price, and [i] is the index of the first. *)
Fixpoint perp_metas (operation : string) (dex : dex_of) (classifications : hyperliquidClassifications)
    (out : gmap string hyperliquidMarketMeta) (seenSymbols : list string) (i : Z) (rows : list (string * prep_universe * string))
  : result error (gmap string hyperliquidMarketMeta) :=
  match rows with
  | [] => Ok out
  | (name, prep, markPx) :: rows' =>
      check String.eqb name (pu_Name prep) else hlMalformed ProductPerp operation "perp metadata order mismatch" ;;
      check hyperliquidValidPerpCoin name (dx_name dex) && negb (pu_SzDecimals prep <? 0) && negb (6 <? pu_SzDecimals prep)
        else hlMalformed ProductPerp operation "unsupported perp coin" ;;
      mark <-? or_error (hlOptionalPositiveDecimal markPx) (hlMalformed ProductPerp operation "invalid mark price") ;;
      let meta := perp_meta dex classifications name (pu_SzDecimals prep) i mark in
      let symbol := id_Symbol (in_Identity (hm_instrument meta)) in
      check negb (one_of symbol seenSymbols) else hlMalformed ProductPerp operation "duplicate perp symbol" ;;
      check negb (is_present (out !! name)) else hlMalformed ProductPerp operation "duplicate perp coin" ;;
      perp_metas operation dex classifications (<[name := meta]> out) (symbol :: seenSymbols) (i + 1) rows'
  end.
Definition hlPerpMetasForDex (operation : string) (full : option MetaAndAssetCtxs) (prep : option (list prep_universe)) (dex : dex_of)
    (classifications : hyperliquidClassifications) : result error (gmap string hyperliquidMarketMeta) :=
  match full, prep with
  | Some full, Some prep =>
      check negb ((dx_index dex <? 0) || is_empty (TrimSpace (dx_collateral dex)) || ((dx_index dex =? 0) && negb (is_empty (dx_name dex))) ||
                  ((0 <? dx_index dex) && is_empty (TrimSpace (dx_name dex))))
        else hlMalformed ProductPerp operation "invalid perp dex metadata" ;;
      check ((length (fm_Universe full) =? length prep) && (length (fm_Universe full) =? length (fm_MarkPx full)))%nat
        else hlMalformed ProductPerp operation "perp metadata length mismatch" ;;
      perp_metas operation dex classifications ∅ [] 0 (zip (zip (fm_Universe full) prep) (fm_MarkPx full))
  | _, _ => Err (hlMalformed ProductPerp operation "missing perp metadata")
  end.
Definition hlPerpMetas (operation : string) (full : option MetaAndAssetCtxs) (prep : option (list prep_universe))
  : result error (gmap string hyperliquidMarketMeta) :=
  hlPerpMetasForDex operation full prep (mkDex 0 "" "USDC") (mkClassifications ∅ ∅).

(** [hyperliquidCollateralSymbols] *)
Definition add_collateral (result : gmap Z string) (token : spot_token) : Prelude.result error (gmap Z string) :=
  let name := TrimSpace (tk_Name token) in
  check negb ((tk_Index token <? 0) || is_empty name) else EText "invalid Hyperliquid collateral token metadata" ;;
  check negb (is_present (result !! tk_Index token)) else EText ("duplicate Hyperliquid collateral token " +:+ FormatInt (tk_Index token)) ;;
  Ok (<[tk_Index token := name]> result).
Definition hyperliquidCollateralSymbols (meta : option SpotMeta) : result error (gmap Z string) :=
  match meta with
  | None => Err (EText "missing Hyperliquid spot metadata")
  | Some meta => fold_result add_collateral ∅ (sm_Tokens meta)
  end.

(** ** The official perpetual dexes *)

(** A failed SDK call, or a plain error of the directory itself. *)
Definition plain_error (text : string) : native_error := mkNative (EText text) text 0 false false None None.
Record perp_dex := mkPerpDex { pd_Index : Z; pd_Name : string }.
Definition dex_names (dexs : list perp_dex) : gmap Z string :=
  foldl (λ m dex, if (pd_Index dex <=? 0) || is_empty (TrimSpace (pd_Name dex)) then m else <[pd_Index dex := pd_Name dex]> m) ∅ dexs.
(** [allMetas] lists each dex's universe and its collateral token. *)
Fixpoint directory_rows (dexNames : gmap Z string) (collaterals : gmap Z string) (index : Z) (allMetas : list (list prep_universe * Z))
  : result native_error (list (dex_of * list prep_universe)) :=
  match allMetas with
  | [] => Ok []
  | ([], _) :: rest => directory_rows dexNames collaterals (index + 1) rest
  | (universe, token) :: rest =>
      match (if 0 <? index then dexNames !! index else Some "") with
      | None => Err (plain_error ("missing perp dex name for index " +:+ FormatInt index))
      | Some name =>
          match collaterals !! token with
          | Some collateral =>
              if is_empty collateral then Err (plain_error ("unknown Hyperliquid collateral token " +:+ FormatInt token))
              else rows <-? directory_rows dexNames collaterals (index + 1) rest ;; Ok ((mkDex index name collateral, universe) :: rows)
          | None => Err (plain_error ("unknown Hyperliquid collateral token " +:+ FormatInt token))
          end
      end
  end.
(** [hyperliquidPerpDirectory] without asset contexts; the three replies, and
    the two enrichments whose errors are ignored. *)
Definition hyperliquidPerpDirectory (allMetas : result native_error (list (list prep_universe * Z))) (dexs : result native_error (list perp_dex))
    (spotMeta : result native_error (option SpotMeta)) : result native_error (list (dex_of * list prep_universe)) :=
  allMetas <-? allMetas ;;
  dexs <-? dexs ;;
  spotMeta <-? spotMeta ;;
  collaterals <-? match hyperliquidCollateralSymbols spotMeta with Ok c => Ok c | Err e => Err (plain_error (error_text e)) end ;;
  directory <-? directory_rows (dex_names dexs) collaterals 0 allMetas ;;
  check negb (bool_decide (directory = [])) else plain_error "Hyperliquid returned no perp metadata" ;;
  Ok directory.
(** [hyperliquidMetaAndAssetCtxs]: [attempt] numbers the calls already made;
    [ended] says whether the context ended during the pause after a call. *)
Fixpoint fetch_contexts {A} (attempts : nat) (attempt : nat) (call : nat → result native_error A) (ended : nat → option native_error) : result native_error A :=
  match attempts with
  | O => Err (plain_error "")
  | S remaining =>
      match call attempt with
      | Ok full => Ok full
      | Err lastErr =>
          match remaining with
          | O => Err lastErr
          | _ => match ended attempt with Some err => Err err | None => fetch_contexts remaining (S attempt) call ended end
          end
      end
  end.
Definition hyperliquidDirectoryAttempts : nat := 3.
Definition hyperliquidMetaAndAssetCtxs {A} (call : nat → result native_error A) (ended : nat → option native_error) : result native_error A :=
  fetch_contexts hyperliquidDirectoryAttempts 0 call ended.

(** ** Loading the catalog *)

Definition load_operation : string := "InstrumentCatalog.Load".
Definition hlInstrumentsFromMetas (metas : gmap string hyperliquidMarketMeta) : list (Instrument D) := map hm_instrument (map_values metas).
Definition hyperliquidCatalogAssetContexts (prep : option (list prep_universe)) : option MetaAndAssetCtxs :=
  (λ prep, mkFull (map pu_Name prep) (map (λ _, "") prep)) <$> prep.
Definition loadSpot (meta : result native_error (option SpotMeta)) : result error (list (Instrument D)) :=
  match meta with
  | Err n => Err (hlNormalizeQueryErr ProductSpot load_operation n)
  | Ok meta => metas <-? hlSpotMetas load_operation meta ;; Ok (hlInstrumentsFromMetas metas)
  end.
Fixpoint load_dexes (classifications : hyperliquidClassifications) (directory : list (dex_of * list prep_universe)) : result error (list (Instrument D)) :=
  match directory with
  | [] => Ok []
  | (dex, prep) :: rest =>
      metas <-? hlPerpMetasForDex load_operation (hyperliquidCatalogAssetContexts (Some prep)) (Some prep) dex classifications ;;
      instruments <-? load_dexes classifications rest ;;
      Ok (hlInstrumentsFromMetas metas ++ instruments)
  end.
Definition loadPerp (directory : result native_error (list (dex_of * list prep_universe))) (classifications : hyperliquidClassifications)
  : result error (list (Instrument D)) :=
  match directory with
  | Err n => Err (hlNormalizeQueryErr ProductPerp load_operation n)
  | Ok directory => load_dexes classifications directory
  end.
Definition LoadInstruments (product : string) (spot : result error (list (Instrument D))) (perp : result error (list (Instrument D)))
    (scope : CatalogScope) (now : time) : result error (InstrumentSnapshot D) :=
  instruments <-? (if String.eqb product ProductSpot then spot
                   else if String.eqb product ProductPerp then perp
                   else Err (hlInvalid product load_operation "unsupported Hyperliquid product")) ;;
  let instruments := sort_slice (λ a b, str_lt (id_Symbol (in_Identity a)) (id_Symbol (in_Identity b))) (filterInstrumentsForScope instruments scope) in
  Ok (mkSnapshot 1 scope "" 0 now instruments empty_indexes).

(** ** Back from a catalog instrument *)

Definition decimals_of (scale : OptionalInt) (increment : D) : Z := if oi_Valid scale then oi_Value scale else decimalPlaces increment.
(** [strconv.ParseInt(s, 10, 32)] *)
Definition ParseInt32 (s : string) : option Z :=
  n ← ParseInt s; if (- 2 ^ 31 <=? n) && (n <? 2 ^ 31) then Some n else None.
Definition native_asset (identity : InstrumentIdentity) : option Z :=
  n ← ParseInt32 (id_NativeID identity); if String.eqb (FormatInt n) (id_NativeID identity) && (0 <=? n) then Some n else None.
Definition spot_native_ok (identity : InstrumentIdentity) (assetID : Z) : result string unit :=
  let native := id_NativeSymbol identity in
  if HasPrefix native "@" then
    check match ParseInt32 (TrimPrefix native "@") with
      | Some rawIndex => (0 <=? rawIndex) && (assetID =? rawIndex + hyperliquidSpotAssetOffset)
      | None => false
      end else "spot native id must equal 10000 + universe index" ;; Ok tt
  else
    check String.eqb native (id_BaseAsset identity +:+ "/" +:+ id_QuoteAsset identity) && (hyperliquidSpotAssetOffset <=? assetID) &&
      (assetID <? hyperliquidOutcomeAssetBase) else "canonical spot native symbol or asset id is invalid" ;; Ok tt.
Definition hlMetaFromInstrument (product operation : string) (i : Instrument D) : result error hyperliquidMarketMeta :=
  let fail {A} (msg : string) : result error A := Err (hlInvalid product operation msg) in
  match Instrument_Validate i with
  | Err _ => fail "invalid catalog instrument"
  | Ok _ =>
      let identity := in_Identity i in
      check String.eqb (id_Venue identity) VenueHyperliquid && String.eqb (id_Product identity) product
        else hlInvalid product operation "instrument venue/product mismatch" ;;
      check negb (String.eqb product ProductSpot && negb (is_empty (id_SettleAsset identity)))
        else hlInvalid product operation "spot settlement must be empty" ;;
      check negb (String.eqb product ProductPerp && negb (String.eqb (id_SettleAsset identity) "USDC"))
        else hlInvalid product operation "perp settlement must be USDC" ;;
      match native_asset identity with
      | None => fail "native_id must be a non-negative decimal asset id"
      | Some assetID =>
          let meta := mkMarketMeta i (id_NativeSymbol identity) assetID (decimals_of (en_QuantityScale (in_Encoding i)) (ru_QuantityIncrement (in_Rules i)))
            (decimals_of (en_PriceScale (in_Encoding i)) (ru_PriceIncrement (in_Rules i))) d_zero in
          if String.eqb product ProductSpot then
            match spot_native_ok identity assetID with Ok _ => Ok meta | Err msg => fail msg end
          else if String.eqb product ProductPerp then
            check negb (is_empty (TrimSpace (id_NativeSymbol identity)) || HasPrefix (id_NativeSymbol identity) "@")
              else hlInvalid product operation "perp native symbol must be the coin name" ;; Ok meta
          else fail "unsupported Hyperliquid product"
      end
  end.

(** The client's catalog: whether one is configured, its scope, and its answer. *)
Record hl_catalog := mkHlCatalog { hc_meta : clientMeta; hc_configured : bool; hc_scope : CatalogScope; hc_snapshot : result error (InstrumentSnapshot D) }.
Definition add_catalog_meta (product operation : string) (out : gmap string hyperliquidMarketMeta) (i : Instrument D)
  : result error (gmap string hyperliquidMarketMeta) :=
  market <-? hlMetaFromInstrument product operation i ;;
  check negb (is_present (out !! hm_nativeCoin market)) else hlMalformed product operation "duplicate Hyperliquid native coin in catalog" ;;
  Ok (<[hm_nativeCoin market := market]> out).
Definition hlCatalogMetas (c : hl_catalog) (operation product : string) : result error (gmap string hyperliquidMarketMeta) :=
  if negb (hc_configured c) || bool_decide (hc_scope c = zero_scope)
  then Err (catalogMetadataResolution (hc_meta c) operation "instrument catalog is not configured")
  else match hc_snapshot c with
  | Err e => Err (withExchangeOperation e operation)
  | Ok snapshot => fold_result (add_catalog_meta product operation) ∅ (sn_Instruments snapshot)
  end.

Definition hlSameInstrument (expected got : Instrument D) : bool :=
  let e := in_Identity expected in
  let g := in_Identity got in
  String.eqb (id_Venue e) (id_Venue g) && String.eqb (id_Product e) (id_Product g) && String.eqb (id_Symbol e) (id_Symbol g) &&
  String.eqb (id_NativeSymbol e) (id_NativeSymbol g) && String.eqb (id_NativeID e) (id_NativeID g) && String.eqb (id_SettleAsset e) (id_SettleAsset g).
Definition find_meta (metas : gmap string hyperliquidMarketMeta) (i : Instrument D) : option hyperliquidMarketMeta :=
  List.find (λ meta, hlSameInstrument (hm_instrument meta) i) (map_values metas).
Definition hlOptionalMeta (product operation : string) (metas : gmap string hyperliquidMarketMeta) (i : option (Instrument D))
  : result error (gmap string hyperliquidMarketMeta * option hyperliquidMarketMeta) :=
  match i with
  | None => Ok (metas, None)
  | Some i =>
      match find_meta metas i with
      | Some meta => Ok (metas, Some meta)
      | None => Err (hlInvalid product operation "instrument is not present in Hyperliquid metadata")
      end
  end.
Definition metasForOptional (c : hl_catalog) (product operation : string) (i : option (Instrument D)) :=
  metas <-? hlCatalogMetas c operation product ;; hlOptionalMeta product operation metas i.
Definition market_meta (c : hl_catalog) (product operation : string) (i : Instrument D) : result error hyperliquidMarketMeta :=
  found <-? metasForOptional c product operation (Some i) ;;
  match find_meta found.1 i with
  | Some meta => Ok meta
  | None => Err (hlInvalid product operation ("instrument is not present in Hyperliquid " +:+ product +:+ " metadata"))
  end.
End instruments.

(** ** What the catalog stores can be read back *)

Section roundtrip.
Context `{DecimalTextLaws D}.
Implicit Types (i : Instrument D) (meta : hyperliquidMarketMeta (D:=D)) (m : InstrumentMetadata).

Lemma d_new_pos k n : 0 < k → 0 ≤ n → d_is_positive (d_new k (- n) : D) = true.
Proof.
  intros Hk Hn. apply d_is_positive_spec. rewrite <- (Z2Nat.id n) by done. rewrite d_new_fraction. by apply scaled_positive.
Qed.
Lemma positive_not_negative (d : D) : d_is_positive d = true → d_is_negative d = false.
Proof. unfold d_is_positive, d_is_negative. by destruct (d_cmp d d_zero). Qed.
(** The number of places of [10^-n] *)
Lemma unit_places : decimalPlaces (d_new 1 (- 0) : D) = 0.
Proof.
  destruct (price_text (d_new 1 (- 0) : D)) as (k & p & Hc & Hk & Hv & -> & _); [by apply d_new_pos|].
  rewrite (d_new_fraction 1 0) in Hv. destruct (canonical_unique 1 0 k p) as [_ <-]; [by left|done..].
Qed.
Lemma decimals_read n (fallback : OptionalInt) : 0 ≤ n → oi_Valid fallback = false → decimals_of (scale_of n fallback) (d_new 1 (- n) : D) = n.
Proof.
  intros Hn Hf. unfold decimals_of, scale_of. destruct (Z.ltb_spec 0 n); [done|]. rewrite Hf. assert (n = 0) as -> by lia. apply unit_places.
Qed.

Definition metadata_ok (product : string) (m : InstrumentMetadata) : Prop :=
  knownMarketFamily (im_MarketFamily m) = true ∧ (String.eqb (im_MarketFamily m) MarketFamilySpot = String.eqb product ProductSpot) ∧
  knownAssetClass (im_AssetClass m) = true ∧ trimmed (im_ClassificationSource m) = true ∧ trimmed (im_RawAssetType m) = true ∧
  ∃ l, categories_values (im_RawCategories m) = Ok l ∧ validate_categories [] l = Ok tt.
Definition identity_ok (product : string) (id : InstrumentIdentity) : Prop :=
  id_Venue id = VenueHyperliquid ∧ id_Product id = product ∧ In product [ProductSpot; ProductPerp] ∧
  Forall (λ s, s ≠ "" ∧ TrimSpace s = s) [id_Symbol id; id_NativeSymbol id; id_BaseAsset id; id_QuoteAsset id] ∧
  TrimSpace (id_NativeID id) = id_NativeID id ∧ TrimSpace (id_SettleAsset id) = id_SettleAsset id.
(** An instrument with the venue's rules *)
Definition hl_instrument (id : InstrumentIdentity) (pd sz qd : Z) (m : InstrumentMetadata) : Instrument D :=
  mkInstrument id (mkRules (d_new 1 (- pd)) (d_new 1 (- sz)) (d_new 1 (- sz)) (mkOptDec hyperliquidMinNotional true))
    (mkEncoding oneContract (scale_of pd (mkOptInt 0 false)) (scale_of sz (mkOptInt 0 false)) (scale_of qd (mkOptInt 0 false))) m "".

Lemma scale_ok n : negb (oi_Valid (scale_of n (mkOptInt 0 false)) && (oi_Value (scale_of n (mkOptInt 0 false)) <=? 0)) = true.
Proof. unfold scale_of. destruct (Z.ltb_spec 0 n); [|done]. cbn. apply negb_true_iff, Z.leb_gt. lia. Qed.
Lemma trimmed_nonblank s : s ≠ "" ∧ TrimSpace s = s → blank s = false ∧ trimmed s = true.
Proof. intros [Hne E]. unfold blank, trimmed, is_empty. rewrite E. split; [by apply String.eqb_neq|apply String.eqb_refl]. Qed.
Lemma hl_instrument_valid product id pd sz qd m :
  identity_ok product id → metadata_ok product m → 0 ≤ pd → 0 ≤ sz → Instrument_Validate (hl_instrument id pd sz qd m) = Ok tt.
Proof.
  intros (Hv & Hp & Hin & Hf & Hid & Hs) (Hfam & Hsp & Hac & Hcs & Hra & l & Hcat & Hl) Hpd Hsz.
  apply Forall_cons in Hf as [[Hsym1 Hsym2]%trimmed_nonblank Hf]. apply Forall_cons in Hf as [[Hns1 Hns2]%trimmed_nonblank Hf].
  apply Forall_cons in Hf as [[Hb1 Hb2]%trimmed_nonblank Hf]. apply Forall_cons in Hf as [[Hq1 Hq2]%trimmed_nonblank _].
  assert (Hid' : trimmed (id_NativeID id) = true) by (unfold trimmed; rewrite Hid; apply String.eqb_refl).
  assert (Hs' : trimmed (id_SettleAsset id) = true) by (unfold trimmed; rewrite Hs; apply String.eqb_refl).
  assert (Hpn : is_empty product = false) by (by destruct Hin as [<-|[<-|[]]]).
  unfold Instrument_Validate, hl_instrument. cbn [in_Identity in_Rules in_Encoding in_Metadata ru_PriceIncrement ru_QuantityIncrement ru_MinQuantity
    ru_MinNotional od_Valid od_Value en_ContractMultiplier en_PriceScale en_QuantityScale en_QuoteScale oneContract hyperliquidMinNotional].
  rewrite !check_Ok, bind_Ok, Hv, Hp, Hsym1, Hsym2, Hns1, Hns2, Hb1, Hb2, Hq1, Hq2, Hid', Hs', Hpn, !scale_ok, Hfam, Hac, Hcs, Hra, Hcat.
  rewrite !(d_new_pos 1) by done. rewrite (positive_not_negative (d_new 1 (- sz))) by (by apply d_new_pos).
  assert (H10 : d_is_negative (d_new 10 0 : D) = false) by (apply positive_not_negative, (d_new_pos 10 0); lia).
  assert (H1p : d_is_positive (d_new 1 0 : D) = true) by (apply (d_new_pos 1 0); lia). rewrite ?H10, ?H1p.
  split_and!; try done; try (destruct Hin as [<-|[<-|[]]]; done);
    try (destruct (is_empty (im_MarketFamily m)); [done|]; rewrite Hsp; destruct Hin as [<-|[<-|[]]]; done).
  - unfold hyperliquidMinNotional. by rewrite H10.
  - by destruct (is_empty (im_MarketFamily m)).
  - by destruct (is_empty (im_AssetClass m)).
  - by exists l.
Qed.

(** A market as it is read back: the mark price is not part of the catalog. *)
Definition stored meta : hyperliquidMarketMeta :=
  mkMarketMeta (hm_instrument meta) (hm_nativeCoin meta) (hm_assetID meta) (hm_sizeDecimals meta) (hm_priceDecimals meta) d_zero.

Lemma FormatInt_trimmed n : 0 ≤ n → TrimSpace (FormatInt n) = FormatInt n.
Proof.
  intros Hn. rewrite FormatInt_nonneg by done. apply TrimSpace_graphic. eapply string_forallb_impl; [exact digit_graphic|apply FormatUint_digits].
Qed.
Lemma ParseInt32_Format n : 0 ≤ n < 2 ^ 31 → ParseInt32 (FormatInt n) = Some n.
Proof.
  intros Hn. unfold ParseInt32. rewrite FormatInt_nonneg by lia. rewrite ParseInt_FormatUint by lia. cbn.
  by rewrite (proj2 (Z.leb_le _ _)), (proj2 (Z.ltb_lt _ _)) by lia.
Qed.
Lemma native_asset_read id n : id_NativeID id = FormatInt n → 0 ≤ n < 2 ^ 31 → native_asset id = Some n.
Proof.
  intros E Hn. unfold native_asset. rewrite E, ParseInt32_Format by lia. cbn. rewrite String.eqb_refl, (proj2 (Z.leb_le 0 n)) by lia. done.
Qed.

Lemma class_known raw : knownAssetClass (hyperliquidAssetClass raw) = true.
Proof. unfold hyperliquidAssetClass. by repeat case_match. Qed.
Lemma classification_ok product i coin cl : metadata_ok product (in_Metadata i) → metadata_ok product (in_Metadata (applyHyperliquidClassification i coin cl)).
Proof.
  intros (Hf & Hsp & Hac & Hcs & Hra & Hl). unfold applyHyperliquidClassification.
  destruct (is_empty (TrimSpace (default "" (cl_categories cl !! coin)))); cbv zeta beta iota;
    (case_match eqn:E; [by split_and!|]; cbn [in_Metadata with_metadata]; split_and!; try done; [apply class_known|]; cbn [im_RawCategories NewInstrumentCategories categories_values];
     eexists; split; [done|]; cbn [validate_categories]; rewrite E; unfold trimmed; by rewrite TrimSpace_idem, String.eqb_refl).
Qed.

(** The perpetual markets the venue's metadata yields, and what it must look
    like for the client to use them. *)
Definition dex_ok (dex : dex_of) : Prop :=
  0 ≤ dx_index dex ≤ 200000 ∧ (dx_index dex = 0 → dx_name dex = "") ∧ (0 < dx_index dex → dx_name dex ≠ "").
Lemma coin_base name dexname : hyperliquidValidPerpCoin name dexname = true →
  name ≠ "" ∧ TrimSpace name = name ∧ hyperliquidUnderlying name ≠ "" ∧ TrimSpace (hyperliquidUnderlying name) = hyperliquidUnderlying name.
Proof.
  unfold hyperliquidValidPerpCoin. destruct (is_empty name || negb (trimmed name) || HasPrefix name "#" || HasPrefix name "+") eqn:E; [done|].
  apply orb_false_iff in E as [[[E1 E2]%orb_false_iff _]%orb_false_iff _]. unfold is_empty in E1. apply String.eqb_neq in E1.
  unfold trimmed in E2. apply negb_false_iff, String.eqb_eq in E2. intros Hv. split_and!; [done..| |]; unfold hyperliquidUnderlying;
    destruct (split_once ":" name) as [[pre suf]|] eqn:Es; try done; destruct (is_empty suf) eqn:Ee; try done.
  - unfold is_empty in Ee. by apply String.eqb_neq in Ee.
  - destruct (is_empty dexname).
    + apply negb_true_iff in Hv. apply split_once_Some in Es as [-> _]. by rewrite Contains_app in Hv.
    + apply andb_prop in Hv as [[[_ _]%andb_prop Ht]%andb_prop _]. unfold trimmed in Ht. by apply String.eqb_eq in Ht.
Qed.
Lemma perp_meta_form dex cl name sz index mark :
  let meta := perp_meta dex cl name sz index mark in
  ∃ symbol m, hm_instrument meta = hl_instrument (mkIdentity VenueHyperliquid ProductPerp (symbol +:+ "-" +:+ dx_collateral dex) (hyperliquidUnderlying name)
      (dx_collateral dex) (dx_collateral dex) name (FormatInt (hyperliquidAssetID (dx_index dex) index))) (Z.max 0 (6 - sz)) sz 6 m ∧
    metadata_ok ProductPerp m ∧ (symbol = name ∨ symbol = hyperliquidUnderlying name).
Proof.
  cbv zeta. unfold perp_meta. set (i0 := newInstrument _ _ _ _ _ _ _ _ _ _ _ _ _).
  exists (if 0 <? dx_index dex then name else hyperliquidUnderlying name).
  set (i1 := if 0 <? dx_index dex then set_family i0 MarketFamilyBuilderPerpetual else i0).
  exists (in_Metadata (applyHyperliquidClassification i1 name cl)). split_and!.
  - cbn [hm_instrument]. unfold applyHyperliquidClassification, i1, i0, hlApplyScaleMetadata, hl_instrument, newInstrument.
    destruct (0 <? dx_index dex), (is_empty (TrimSpace (default "" (cl_categories cl !! name)))); cbv zeta beta iota; by case_match.
  - apply classification_ok. unfold i1, i0. destruct (0 <? dx_index dex); split_and!; try done; by exists [].
  - destruct (0 <? dx_index dex); auto.
Qed.

Lemma perp_meta_read op dex cl name sz index mark :
  dex_ok dex → dx_collateral dex = "USDC" → hyperliquidValidPerpCoin name (dx_name dex) = true → HasPrefix name "@" = false → 0 ≤ sz ≤ 6 →
  0 ≤ index < 10000 →
  let meta := perp_meta dex cl name sz index mark in
  hlMetaFromInstrument ProductPerp op (hm_instrument meta) = Ok (stored meta).
Proof.
  intros (Hi & Hn0 & Hn1) Husdc Hcoin Hat Hsz Hindex. cbv zeta. destruct (coin_base _ _ Hcoin) as (Hne & Htr & Hbne & Hbtr).
  destruct (perp_meta_form dex cl name sz index mark) as (symbol & m & E & Hm & Hsym). unfold hlMetaFromInstrument, stored. rewrite E.
  assert (Hasset : 0 ≤ hyperliquidAssetID (dx_index dex) index < 2 ^ 31).
  { unfold hyperliquidAssetID, hyperliquidBuilderAssetBase, hyperliquidBuilderAssetStride. destruct (dx_index dex =? 0); lia. }
  rewrite (hl_instrument_valid ProductPerp); [|split_and!; cbn [id_Venue id_Product id_Symbol id_NativeSymbol id_BaseAsset id_QuoteAsset id_NativeID id_SettleAsset]; try done|done|lia|lia].
  - cbn [in_Identity hl_instrument id_Venue id_Product id_SettleAsset]. rewrite Husdc. cbn [String.eqb andb negb is_empty].
    rewrite (native_asset_read _ (hyperliquidAssetID (dx_index dex) index)) by done.
    cbn [hl_instrument id_NativeSymbol in_Encoding in_Rules en_QuantityScale en_PriceScale ru_QuantityIncrement ru_PriceIncrement].
    rewrite !decimals_read by (done || lia). unfold is_empty. rewrite Htr, (proj2 (String.eqb_neq _ _) Hne), Hat. cbn [orb negb].
    unfold perp_meta. cbn [hm_nativeCoin hm_assetID hm_sizeDecimals hm_priceDecimals hm_instrument]. done.
  - by right; left.
  - rewrite Husdc. rewrite !Forall_cons. split_and!; try done.
    + by destruct Hsym as [-> | ->]; [destruct name|destruct (hyperliquidUnderlying name)].
    + change ("-" +:+ "USDC") with (String "-" "USDC"). apply joined_trimmed; [done|by destruct Hsym as [-> | ->]|done].
  - apply FormatInt_trimmed. lia.
  - by rewrite Husdc.
Qed.

(** ** The markets of one dex *)

Definition dex_row dex cl (index : Z) (u : prep_universe) meta : Prop :=
  hyperliquidValidPerpCoin (pu_Name u) (dx_name dex) = true ∧ 0 ≤ pu_SzDecimals u ≤ 6 ∧ ∃ mark, meta = perp_meta dex cl (pu_Name u) (pu_SzDecimals u) index mark.
Lemma perp_metas_spec op dex cl rows out seen n0 out' :
  perp_metas op dex cl out seen n0 rows = Ok out' →
  (∀ k name u px, rows !! k = Some (name, u, px) → pu_Name u = name ∧ ∃ meta, out' !! name = Some meta ∧ dex_row dex cl (n0 + Z.of_nat k) u meta) ∧
  (∀ coin meta, out' !! coin = Some meta → out !! coin = Some meta ∨ ∃ k name u px, rows !! k = Some (name, u, px) ∧ coin = name) ∧
  (∀ coin meta, out !! coin = Some meta → out' !! coin = Some meta).
Proof.
  revert out seen n0. induction rows as [|[[name u] px] rows IH]; intros out seen n0 Ho.
  { injection Ho as <-. split_and!; [done|by left|done]. }
  cbn [perp_metas] in Ho. apply check_Ok in Ho as [->%String.eqb_eq Ho]. apply check_Ok in Ho as [Hc Ho].
  apply andb_prop in Hc as [[Hc Hz1]%andb_prop Hz2]. apply negb_true_iff, Z.ltb_ge in Hz1, Hz2.
  apply bind_Ok in Ho as (mark & _ & Ho). apply check_Ok in Ho as [_ Ho]. apply check_Ok in Ho as [Hnew Ho].
  apply negb_true_iff in Hnew. destruct (out !! pu_Name u) eqn:Eo; [done|]. apply IH in Ho as (H1' & H2' & H3'). split_and!.
  - intros [|k] name u' px' Hk.
    + injection Hk as <- <- <-. split; [done|]. eexists. split; [apply H3', lookup_insert_eq|]. rewrite Z.add_0_r. split_and!; [done|lia|lia|by exists mark].
    + destruct (H1' k name u' px' Hk) as (Hn & meta & Hm & Hr). split; [done|]. exists meta. split; [done|].
      replace (n0 + Z.of_nat (S k)) with (n0 + 1 + Z.of_nat k) by lia. done.
  - intros coin meta [Hin|(k & name & u' & px' & Hk & ->)]%H2'.
    + destruct (decide (coin = pu_Name u)) as [->|Hne]; [right; by exists O, (pu_Name u), u, px|]. left. by rewrite lookup_insert_ne in Hin.
    + right. by exists (S k), name, u', px'.
  - intros coin meta Hin. apply H3'. rewrite lookup_insert_ne; [done|]. intros <-. congruence.
Qed.

Definition native i : string := id_NativeSymbol (in_Identity i).
Lemma dex_markets op prep dex cl metas :
  hlPerpMetasForDex op (hyperliquidCatalogAssetContexts (Some prep)) (Some prep) dex cl = Ok metas →
  (∀ k u, prep !! k = Some u → ∃ meta, metas !! pu_Name u = Some meta ∧ dex_row dex cl (Z.of_nat k) u meta) ∧
  (∀ coin meta, metas !! coin = Some meta → ∃ k u, prep !! k = Some u ∧ coin = pu_Name u ∧ dex_row dex cl (Z.of_nat k) u meta).
Proof.
  unfold hlPerpMetasForDex. cbn [hyperliquidCatalogAssetContexts fmap option_fmap option_map fm_Universe fm_MarkPx].
  intros [_ [_ Hm]%check_Ok]%check_Ok. apply perp_metas_spec in Hm as (Hrow & Hall & _).
  assert (Hz : ∀ k x, zip (zip (map pu_Name prep) prep) (map (λ _, "") prep) !! k = Some x ↔ ∃ u, prep !! k = Some u ∧ x = (pu_Name u, u, "")).
  { clear. induction prep as [|u prep IH]; intros [|k] x; cbn; try (split; [done|by intros (? & ? & _)]); [|apply IH].
    split; [intros [= <-]; by exists u|by intros (? & [= <-] & ->)]. }
  assert (Hk : ∀ k u, prep !! k = Some u → ∃ meta, metas !! pu_Name u = Some meta ∧ dex_row dex cl (Z.of_nat k) u meta).
  { intros k u Hu. destruct (Hrow k (pu_Name u) u "") as (_ & meta & Hm & Hr); [apply Hz; eauto|]. by exists meta. }
  split; [done|]. intros coin meta Hc. destruct (Hall coin meta Hc) as [|(k & name & u & px & Hr & ->)]; [done|].
  apply Hz in Hr as (u' & Hu & [= -> -> ->]). exists k, u'. destruct (Hk k u' Hu) as (meta' & Hm & Hr). split_and!; [done..|]. by simplify_eq.
Qed.

(** What the directory must look like *)
Record directory_ok (directory : list (dex_of * list prep_universe)) : Prop := {
  dk_dex : ∀ dex prep, (dex, prep) ∈ directory → dex_ok dex ∧ Z.of_nat (length prep) ≤ 10000 ∧ ∀ u, u ∈ prep → HasPrefix (pu_Name u) "@" = false;
  dk_index : NoDup (map (λ row, dx_index row.1) directory);
  dk_name : NoDup (map (λ row, dx_name row.1) directory);
}.
Definition market_of (directory : list (dex_of * list prep_universe)) cl i : Prop :=
  ∃ dex prep k u meta, (dex, prep) ∈ directory ∧ prep !! k = Some u ∧ dex_row dex cl (Z.of_nat k) u meta ∧ i = hm_instrument meta.

Definition namespace (coin : string) : string := match split_once ":" coin with Some (prefix, _) => prefix | None => "" end.
Lemma coin_namespace name dexname : hyperliquidValidPerpCoin name dexname = true → namespace name = dexname.
Proof.
  unfold hyperliquidValidPerpCoin, namespace. case_match; [done|]. unfold is_empty at 1. destruct (String.eqb_spec dexname "") as [->|].
  - intros Hc%negb_true_iff. destruct (split_once ":" name) as [[pre suf]|] eqn:E; [|done]. apply split_once_Some in E as [-> _]. by rewrite Contains_app in Hc.
  - destruct (split_once ":" name) as [[pre suf]|]; [|done]. by intros [[[->%String.eqb_eq _]%andb_prop _]%andb_prop _]%andb_prop.
Qed.
Lemma dex_row_native dex cl index u meta : dex_row dex cl index u meta → native (hm_instrument meta) = pu_Name u ∧ hm_nativeCoin meta = pu_Name u.
Proof.
  intros (_ & _ & mark & ->). split; [|done]. destruct (perp_meta_form dex cl (pu_Name u) (pu_SzDecimals u) index mark) as (symbol & m & E & _).
  unfold native. by rewrite E.
Qed.
Lemma dex_row_settle dex cl index u meta : dex_row dex cl index u meta →
  let id := in_Identity (hm_instrument meta) in id_Venue id = VenueHyperliquid ∧ id_Product id = ProductPerp ∧ id_SettleAsset id = dx_collateral dex.
Proof.
  intros (_ & _ & mark & ->). destruct (perp_meta_form dex cl (pu_Name u) (pu_SzDecimals u) index mark) as (symbol & m & E & _). cbv zeta. by rewrite E.
Qed.

Lemma load_dexes_spec cl directory l : load_dexes cl directory = Ok l → NoDup (map (λ row : dex_of * _, dx_name row.1) directory) →
  (∀ i, i ∈ l ↔ market_of directory cl i) ∧ NoDup (map native l).
Proof.
  revert l. induction directory as [|[dex prep] directory IH]; intros l Hl Hn.
  { injection Hl as <-. split; [|constructor]. intros i. split; [by intros ?%elem_of_nil|]. by intros (? & ? & ? & ? & ? & ?%elem_of_nil & _). }
  cbn [load_dexes] in Hl. apply bind_Ok in Hl as (metas & Hm & Hl). apply bind_Ok in Hl as (rest & Hr & [= <-]).
  apply NoDup_cons in Hn as [Hnew Hn]. destruct (IH rest Hr Hn) as [Hin Hnd]. apply dex_markets in Hm as [Hrow Hall].
  assert (Hhere : ∀ i, i ∈ hlInstrumentsFromMetas metas ↔ ∃ k u meta, prep !! k = Some u ∧ dex_row dex cl (Z.of_nat k) u meta ∧ i = hm_instrument meta).
  { intros i. unfold hlInstrumentsFromMetas. rewrite list_elem_of_fmap. split.
    - intros (meta & -> & (coin & Hc)%elem_of_map_values). destruct (Hall coin meta Hc) as (k & u & Hu & _ & Hd). by exists k, u, meta.
    - intros (k & u & meta & Hu & Hd & ->). destruct (Hrow k u Hu) as (meta' & Hc & Hd').
      exists meta'. split; [|apply elem_of_map_values; eauto]. destruct Hd as (_ & _ & mark & ->), Hd' as (_ & _ & mark' & ->). done. }
  split.
  - intros i. rewrite elem_of_app, Hhere, Hin. unfold market_of. setoid_rewrite elem_of_cons. split.
    + intros [(k & u & meta & Hu & Hd & ->)|(dex' & prep' & k & u & meta & Hd & Hu & Hr' & ->)]; [exists dex, prep|exists dex', prep']; exists k, u, meta; auto.
    + intros (dex' & prep' & k & u & meta & [[= -> ->]|Hd] & Hu & Hr' & ->); [left|right; exists dex', prep']; exists k, u, meta; auto.
  - rewrite map_app. apply NoDup_app. split_and!; [| |done].
    + unfold hlInstrumentsFromMetas. rewrite map_map. apply keyed_NoDup. intros coin meta Hc.
      destruct (Hall coin meta Hc) as (k & u & Hu & -> & Hd). by apply dex_row_native in Hd as [-> _].
    + intros name (i & -> & (k & u & meta & Hu & Hd & ->)%Hhere)%list_elem_of_fmap (j & Ej & Hj)%list_elem_of_fmap.
      apply Hin in Hj as (dex' & prep' & k' & u' & meta' & Hd' & Hu' & Hr' & ->). apply Hnew, list_elem_of_fmap. exists (dex', prep'). split; [|done].
      cbn [fst]. pose proof (dex_row_native _ _ _ _ _ Hd) as [En _]. pose proof (dex_row_native _ _ _ _ _ Hr') as [En' _]. rewrite En, En' in Ej.
      rewrite <- (coin_namespace _ _ (proj1 Hd)), <- (coin_namespace _ _ (proj1 Hr')). by rewrite Ej.
Qed.

(** ** The client's markets *)

Lemma meta_from product op i meta : hlMetaFromInstrument product op i = Ok meta → hm_instrument meta = i ∧ hm_nativeCoin meta = native i.
Proof.
  unfold hlMetaFromInstrument. destruct (Instrument_Validate i); [|done]. intros [_ [_ [_ Hm]%check_Ok]%check_Ok]%check_Ok.
  destruct (native_asset _); [|done]. destruct (String.eqb product ProductSpot).
  - destruct (spot_native_ok _ _); [|done]. by injection Hm as <-.
  - destruct (String.eqb product ProductPerp); [|done]. by apply check_Ok in Hm as [_ [= <-]].
Qed.
Lemma catalog_fold product op l out : (∀ i, i ∈ l → is_ok (hlMetaFromInstrument product op i) = true) → NoDup (map native l) →
  (∀ i, i ∈ l → out !! native i = None) →
  ∃ out', fold_result (add_catalog_meta product op) out l = Ok out' ∧ (∀ coin meta, out !! coin = Some meta → out' !! coin = Some meta) ∧
    ∀ i meta, i ∈ l → hlMetaFromInstrument product op i = Ok meta → out' !! native i = Some meta.
Proof.
  revert out. induction l as [|i l IH]; intros out Hok Hnd Hfree.
  { exists out. split_and!; [done..|]. by intros i meta ?%elem_of_nil. }
  apply NoDup_cons in Hnd as [Hnew Hnd]. destruct (proj1 (is_ok_Ok _) (Hok i ltac:(by left))) as [meta Hm].
  pose proof (meta_from _ _ _ _ Hm) as [_ Hc]. cbn [fold_result]. unfold add_catalog_meta at 1. rewrite Hm. rewrite Hc, (Hfree i) by (by left).
  cbn [is_present negb]. destruct (IH (<[native i := meta]> out)) as (out' & -> & Hkeep & Hget); [intros; apply Hok; by right|done| |].
  { intros j Hj. rewrite lookup_insert_ne; [apply Hfree; by right|]. intros E. apply Hnew. rewrite E. apply list_elem_of_fmap. eauto. }
  exists out'. split_and!; [done| |].
  - intros coin m Hcm. apply Hkeep. rewrite lookup_insert_ne; [done|]. intros <-. rewrite Hfree in Hcm; [done|by left].
  - intros j m [->|Hj]%elem_of_cons Hmj; [|by apply Hget]. rewrite Hm in Hmj. injection Hmj as <-. apply Hkeep, lookup_insert_eq.
Qed.
(** Each market of the client's map is read from an instrument of the catalog
    and filed under its coin. *)
Lemma fold_sound product op l out out' : fold_result (add_catalog_meta product op) out l = Ok out' →
  ∀ coin meta, out' !! coin = Some meta →
    out !! coin = Some meta ∨ (hm_nativeCoin meta = coin ∧ hm_instrument meta ∈ l ∧ hlMetaFromInstrument product op (hm_instrument meta) = Ok meta).
Proof.
  revert out. induction l as [|i l IH]; intros out Ho coin meta Hc; [injection Ho as <-; by left|].
  cbn [fold_result] in Ho. apply bind_Ok in Ho as (out1 & Ha & Ho). unfold add_catalog_meta in Ha. apply bind_Ok in Ha as (m & Hm & Ha).
  apply check_Ok in Ha as [_ [= <-]]. pose proof (meta_from _ _ _ _ Hm) as [Hi Hn].
  destruct (IH _ Ho coin meta Hc) as [Hin|(? & ? & ?)]; [|right; split_and!; [done|by right|done]].
  destruct (decide (coin = hm_nativeCoin m)) as [->|Hne].
  - rewrite lookup_insert_eq in Hin. injection Hin as <-. right. rewrite Hi. split_and!; [done|by left|done].
  - rewrite lookup_insert_ne in Hin by done. by left.
Qed.
Lemma metas_sound c op product metas : hlCatalogMetas c op product = Ok metas → ∀ coin meta, metas !! coin = Some meta →
  hm_nativeCoin meta = coin ∧ hlMetaFromInstrument product op (hm_instrument meta) = Ok meta ∧
  ∃ snapshot, hc_snapshot c = Ok snapshot ∧ hm_instrument meta ∈ sn_Instruments snapshot.
Proof.
  unfold hlCatalogMetas. case_match; [done|]. destruct (hc_snapshot c) as [snapshot|]; [|done]. intros Hf coin meta Hc.
  destruct (fold_sound _ _ _ _ _ Hf coin meta Hc) as [?|(? & ? & ?)]; [done|]. split_and!; [done..|]. by exists snapshot.
Qed.

Lemma same_native i j : hlSameInstrument i j = true → native i = native j ∧ id_NativeID (in_Identity i) = id_NativeID (in_Identity j).
Proof. unfold hlSameInstrument. rewrite !andb_true_iff, !String.eqb_eq. unfold native. tauto. Qed.
Lemma same_refl i : hlSameInstrument i i = true.
Proof. unfold hlSameInstrument. by rewrite !String.eqb_refl. Qed.
(** The map is searched in no particular order, yet at most one market can
    match. *)
Lemma find_meta_iff metas i : (∀ coin meta, metas !! coin = Some meta → hm_nativeCoin meta = coin ∧ native (hm_instrument meta) = coin) →
  ∀ meta, find_meta metas i = Some meta ↔ metas !! native i = Some meta ∧ hlSameInstrument (hm_instrument meta) i = true.
Proof.
  intros Hk meta. unfold find_meta. split.
  - intros [(coin & Hc)%list_elem_of_In%elem_of_map_values Hs]%List.find_some. destruct (Hk coin meta Hc) as [_ E]. split; [|done].
    apply same_native in Hs as [<- _]. by rewrite E.
  - intros [Hm Hs]. destruct (List.find _ _) as [meta'|] eqn:E.
    + apply List.find_some in E as [(coin & Hc)%list_elem_of_In%elem_of_map_values Hs']. destruct (Hk coin meta' Hc) as [_ E'].
      apply same_native in Hs' as [E'' _]. congruence.
    + exfalso. assert (Hin : In meta (map_values metas)) by (apply list_elem_of_In, elem_of_map_values; eauto).
      pose proof (List.find_none _ _ E meta Hin). congruence.
Qed.
Lemma market_meta_iff c product op metas i meta : hlCatalogMetas c op product = Ok metas →
  market_meta c product op i = Ok meta ↔ metas !! native i = Some meta ∧ hlSameInstrument (hm_instrument meta) i = true.
Proof.
  intros Hm. unfold market_meta, metasForOptional. rewrite Hm. cbn [hlOptionalMeta].
  rewrite <- find_meta_iff; [destruct (find_meta metas i) eqn:E; cbn [fst]; [rewrite E; split; congruence|done]|].
  intros coin m Hc. destruct (metas_sound _ _ _ _ Hm coin m Hc) as (Hn & Hf & _). split; [done|]. by apply meta_from in Hf as [_ <-].
Qed.

(** ** From the venue's directory to the client *)

Lemma assetID_inj a b k k' : 0 ≤ a → 0 ≤ b → 0 ≤ k < 10000 → 0 ≤ k' < 10000 → hyperliquidAssetID a k = hyperliquidAssetID b k' → a = b ∧ k = k'.
Proof.
  unfold hyperliquidAssetID, hyperliquidBuilderAssetBase, hyperliquidBuilderAssetStride. destruct (Z.eqb_spec a 0), (Z.eqb_spec b 0); lia.
Qed.
Definition usdc_perps (scope : CatalogScope) : Prop :=
  one_of (cs_Venue scope) [""; VenueHyperliquid] = true ∧ one_of (cs_Product scope) [""; ProductPerp] = true ∧ cs_Settlement scope = "USDC".
Lemma in_scope_usdc scope i : usdc_perps scope → id_Venue (in_Identity i) = VenueHyperliquid → id_Product (in_Identity i) = ProductPerp →
  in_scope scope i = String.eqb (id_SettleAsset (in_Identity i)) "USDC".
Proof.
  intros (Hv & Hp & Hs) E1 E2. unfold in_scope, is_empty. rewrite E1, E2, Hs. apply one_of_In in Hv, Hp.
  destruct Hv as [<-|[<-|[]]], Hp as [<-|[<-|[]]]; done.
Qed.
(** The instruments a scope's snapshot holds. *)
Lemma loaded_instruments cl directory spot scope now snapshot :
  LoadInstruments ProductPerp spot (loadPerp (Ok directory) cl) scope now = Ok snapshot → directory_ok directory → usdc_perps scope →
  NoDup (map native (sn_Instruments snapshot)) ∧
  ∀ i, i ∈ sn_Instruments snapshot ↔
    ∃ dex prep k u meta, (dex, prep) ∈ directory ∧ dx_collateral dex = "USDC" ∧ prep !! k = Some u ∧ dex_row dex cl (Z.of_nat k) u meta ∧ i = hm_instrument meta.
Proof.
  intros Hl Hd Hsc. unfold LoadInstruments in Hl. cbn in Hl. apply bind_Ok in Hl as (l & Hload & [= <-]). cbn [sn_Instruments].
  destruct (load_dexes_spec cl directory l Hload (dk_name _ Hd)) as [Hin Hnd]. split.
  - rewrite sort_slice_perm. unfold filterInstrumentsForScope. eapply sublist_NoDup; [exact Hnd|]. change (sublist (native <$> List.filter (in_scope scope) l) (native <$> l)).
    apply fmap_sublist. clear. induction l as [|x l IH]; [constructor|]. cbn. destruct (in_scope scope x); by constructor.
  - intros i. rewrite sort_slice_elem_of. unfold filterInstrumentsForScope. rewrite list_elem_of_In, filter_In, <- list_elem_of_In, Hin. split.
    + intros [(dex & prep & k & u & meta & Hdir & Hu & Hr & ->) Hscope]. exists dex, prep, k, u, meta.
      pose proof (dex_row_settle _ _ _ _ _ Hr) as (E1 & E2 & E3). rewrite in_scope_usdc, E3, String.eqb_eq in Hscope by done. done.
    + intros (dex & prep & k & u & meta & Hdir & Hc & Hu & Hr & ->). split; [by exists dex, prep, k, u, meta|].
      pose proof (dex_row_settle _ _ _ _ _ Hr) as (E1 & E2 & E3). rewrite in_scope_usdc, E3, Hc by done. done.
Qed.

Lemma loaded_rows cl directory spot scope now snapshot :
  LoadInstruments ProductPerp spot (loadPerp (Ok directory) cl) scope now = Ok snapshot → is_ok (load_dexes (D:=D) cl directory) = true.
Proof. intros Hl. unfold LoadInstruments in Hl. cbn in Hl. apply bind_Ok in Hl as (l & Hl & _). by rewrite Hl. Qed.
Lemma load_rows cl directory : is_ok (load_dexes (D:=D) cl directory) = true →
  ∀ dex prep k u, (dex, prep) ∈ directory → prep !! k = Some u → ∃ meta, dex_row dex cl (Z.of_nat k) u meta.
Proof.
  rewrite is_ok_Ok. intros [l Hl]. revert l Hl. induction directory as [|[dex0 prep0] directory IH]; intros l Hl dex prep k u Hin Hu; [by apply elem_of_nil in Hin|].
  cbn [load_dexes] in Hl. apply bind_Ok in Hl as (metas & Hm & Hl). apply bind_Ok in Hl as (rest & Hr & _).
  apply elem_of_cons in Hin as [[= -> ->]|Hin]; [|by eapply IH].
  apply dex_markets in Hm as [Hrow _]. destruct (Hrow k u Hu) as (meta & _ & Hd). by exists meta.
Qed.
Lemma NoDup_map_inj {A B} (f : A → B) l x y : NoDup (map f l) → x ∈ l → y ∈ l → f x = f y → x = y.
Proof.
  induction l as [|z l IH]; intros Hn Hx Hy E; [by apply elem_of_nil in Hx|]. apply NoDup_cons in Hn as [Hz Hn].
  apply elem_of_cons in Hx as [->|Hx], Hy as [->|Hy]; try done; [..|by apply IH]; exfalso; apply Hz, list_elem_of_fmap; eauto.
Qed.

(** C11: once the catalog has loaded the venue's perpetual dexes, the client can
    trade every USDC-settled market of them: its markets are read back from the
    stored instruments without an error, each with the coin, asset id and
    decimals the venue published, each is found by its instrument, and no two
    markets share an asset id. *)
Theorem loaded_perps_usable cl directory spot scope now snapshot c op :
  LoadInstruments ProductPerp spot (loadPerp (Ok directory) cl) scope now = Ok snapshot → directory_ok directory → usdc_perps scope →
  hc_configured c = true → hc_scope c = scope → hc_snapshot c = Ok snapshot →
  ∃ metas, hlCatalogMetas c op ProductPerp = Ok metas ∧
    (∀ dex prep k u, (dex, prep) ∈ directory → dx_collateral dex = "USDC" → prep !! k = Some u →
       ∃ meta, metas !! pu_Name u = Some meta ∧ hm_assetID meta = hyperliquidAssetID (dx_index dex) (Z.of_nat k) ∧
         hm_sizeDecimals meta = pu_SzDecimals u ∧ hm_priceDecimals meta = 6 - pu_SzDecimals u ∧
         market_meta c ProductPerp op (hm_instrument meta) = Ok meta) ∧
    (∀ coin coin' meta meta', metas !! coin = Some meta → metas !! coin' = Some meta' → hm_assetID meta = hm_assetID meta' → coin = coin').
Proof.
  intros Hl Hd Hsc Hcf Hscope Hs. destruct (loaded_instruments _ _ _ _ _ _ Hl Hd Hsc) as [Hnd Hin].
  assert (Hread : ∀ dex prep k u meta, (dex, prep) ∈ directory → dx_collateral dex = "USDC" → prep !! k = Some u → dex_row dex cl (Z.of_nat k) u meta →
    hlMetaFromInstrument ProductPerp op (hm_instrument meta) = Ok (stored meta)).
  { intros dex prep k u meta Hdir Hc Hu (Hcoin & Hsz & mark & ->). destruct (dk_dex _ Hd dex prep Hdir) as (Hok & Hlen & Hat).
    apply perp_meta_read; try done; [by eapply Hat, list_elem_of_lookup_2|]. apply lookup_lt_Some in Hu. lia. }
  destruct (catalog_fold ProductPerp op (sn_Instruments snapshot) ∅) as (metas & Hf & _ & Hget); [|done|done|].
  { intros i (dex & prep & k & u & meta & Hdir & Hc & Hu & Hr & ->)%Hin. by rewrite (Hread dex prep k u meta). }
  assert (Hcat : hlCatalogMetas c op ProductPerp = Ok metas).
  { unfold hlCatalogMetas. rewrite Hcf, bool_decide_false, Hs; [done|]. rewrite Hscope. intros ->. by destruct Hsc as (_ & _ & ?). }
  exists metas. split_and!; [done| |].
  - intros dex prep k u Hdir Hc Hu. destruct (load_rows cl directory (loaded_rows _ _ _ _ _ _ Hl) dex prep k u Hdir Hu) as (meta & Hr).
    pose proof (Hread dex prep k u meta Hdir Hc Hu Hr) as Hm. destruct (dex_row_native _ _ _ _ _ Hr) as [En _].
    assert (Hg : metas !! pu_Name u = Some (stored meta)).
    { rewrite <- En. apply Hget; [|done]. apply Hin. by exists dex, prep, k, u, meta. }
    exists (stored meta). split; [done|]. rewrite (market_meta_iff c ProductPerp op metas) by done. cbn [stored hm_instrument]. rewrite En.
    destruct Hr as (_ & Hsz & mark & ->). cbn [stored perp_meta hm_assetID hm_sizeDecimals hm_priceDecimals]. split_and!; [done|done|lia|done|apply same_refl].
  - intros coin coin' meta meta' Hm Hm' Ha.
    assert (Hrow : ∀ coin meta, metas !! coin = Some meta → ∃ dex prep k u, (dex, prep) ∈ directory ∧ prep !! k = Some u ∧ pu_Name u = coin ∧
      hm_assetID meta = hyperliquidAssetID (dx_index dex) (Z.of_nat k)).
    { clear -Hcat Hin Hread Hs. intros coin meta Hm. destruct (metas_sound _ _ _ _ Hcat coin meta Hm) as (Hn & Hf & snapshot' & Hs' & Hi).
      rewrite Hs in Hs'. injection Hs' as <-. apply Hin in Hi as (dex & prep & k & u & row & Hdir & Hc & Hu & Hr & Ei).
      exists dex, prep, k, u. rewrite Ei, (Hread dex prep k u row) in Hf by done. injection Hf as <-. destruct (dex_row_native _ _ _ _ _ Hr) as [_ En].
      cbn [stored hm_nativeCoin] in Hn. destruct Hr as (_ & _ & mark & ->). by subst coin. }
    destruct (Hrow coin meta Hm) as (dex & prep & k & u & Hdir & Hu & <- & Ea), (Hrow coin' meta' Hm') as (dex' & prep' & k' & u' & Hdir' & Hu' & <- & Ea').
    rewrite Ea, Ea' in Ha. destruct (dk_dex _ Hd _ _ Hdir) as ((Hi & _) & Hlen & _), (dk_dex _ Hd _ _ Hdir') as ((Hi' & _) & Hlen' & _).
    pose proof (lookup_lt_Some _ _ _ Hu). pose proof (lookup_lt_Some _ _ _ Hu').
    apply assetID_inj in Ha as [Ed Ek]; [|lia..]. apply Nat2Z.inj in Ek as ->.
    pose proof (NoDup_map_inj _ _ _ _ (dk_index _ Hd) Hdir Hdir' Ed) as [= -> ->]. congruence.
Qed.
End roundtrip.

(** ** A directory with builder dexes *)

Definition sample_spot_meta : SpotMeta := mkSpotMeta [mkToken "USDC" 0 6 true; mkToken "USDE" 235 2 false; mkToken "PURR" 1 0 true] [mkUniverse "PURR/USDC" [1; 0] 0 true; mkUniverse "@107" [235; 0] 107 false].
Definition sample_directory : list (dex_of * list prep_universe) :=
  match hyperliquidPerpDirectory (Ok [([mkPrep "BTC" 5; mkPrep "ETH" 4], 0); ([], 0); ([mkPrep "xyz:GOLD" 2], 0); ([mkPrep "abc:BTC" 0], 235)])
          (Ok [mkPerpDex 0 ""; mkPerpDex 2 "xyz"; mkPerpDex 3 "abc"]) (Ok (Some sample_spot_meta)) with
  | Ok directory => directory
  | Err _ => []
  end.
Definition gold_is_a_commodity : hyperliquidClassifications := mkClassifications {["xyz:GOLD" := "Commodities"]} ∅.
Definition sample_perp_scope : CatalogScope := InstrumentCatalog.mkScope VenueHyperliquid "live" ProductPerp "USDC" "" "".
Definition sample_perp_load : result error (InstrumentSnapshot fixed) :=
  LoadInstruments ProductPerp (Ok []) (loadPerp (Ok sample_directory) gold_is_a_commodity) sample_perp_scope 1.
Definition sample_perp_snapshot : InstrumentSnapshot fixed := match sample_perp_load with Ok s => s | Err _ => zero_snapshot end.
Definition sample_hl_catalog : hl_catalog := mkHlCatalog (mkMeta VenueHyperliquid ProductPerp) true sample_perp_scope (Ok sample_perp_snapshot).

Example loaded_perp_symbols : map (λ i, id_Symbol (in_Identity i)) (sn_Instruments sample_perp_snapshot) = ["BTC-USDC"; "ETH-USDC"; "xyz:GOLD-USDC"].
Proof. vm_compute. reflexivity. Qed.
Example spot_markets : match hlSpotMetas (D:=fixed) load_operation (Some sample_spot_meta) with
  | Ok metas => map (λ i, is_ok (hlMetaFromInstrument ProductSpot "OpenOrders" i)) (hlInstrumentsFromMetas metas) | Err _ => [] end = [true; true].
Proof. vm_compute. reflexivity. Qed.

Lemma sample_directory_ok : directory_ok sample_directory.
Proof.
  split.
  - intros dex prep Hin. vm_compute in Hin. repeat (apply elem_of_cons in Hin as [[= -> ->]|Hin]); try by apply elem_of_nil in Hin.
    all: split_and!; cbn; try lia; try done.
    all: intros u Hu; repeat (apply elem_of_cons in Hu as [->|Hu]; [done|]); by apply elem_of_nil in Hu.
  - apply (bool_decide_eq_true_1 _). vm_compute. reflexivity.
  - apply (bool_decide_eq_true_1 _). vm_compute. reflexivity.
Qed.
Lemma loaded_perps_usable_witness :
  ∃ metas, hlCatalogMetas sample_hl_catalog "OpenOrders" ProductPerp = Ok metas ∧
    (∃ meta, metas !! "xyz:GOLD" = Some meta ∧ hm_assetID meta = 120000 ∧ hm_priceDecimals meta = 4) ∧
    ∀ coin coin' meta meta', metas !! coin = Some meta → metas !! coin' = Some meta' → hm_assetID meta = hm_assetID meta' → coin = coin'.
Proof.
  destruct (loaded_perps_usable gold_is_a_commodity sample_directory (Ok []) sample_perp_scope 1 sample_perp_snapshot sample_hl_catalog "OpenOrders")
    as (metas & Hm & Hrow & Hinj); [|apply sample_directory_ok|done..|].
  { vm_compute. reflexivity. }
  exists metas. split_and!; [exact Hm| |exact Hinj].
  destruct (Hrow (mkDex 2 "xyz" "USDC") [mkPrep "xyz:GOLD" 2] 0%nat (mkPrep "xyz:GOLD" 2)) as (meta & Hg & Ha & _ & Hp & _); [|done..|].
  - apply (list_elem_of_lookup_2 _ 1). vm_compute. reflexivity.
  - exists meta. split_and!; [exact Hg|exact Ha|exact Hp].
Defined.
