(* ===== verification/HyperliquidRest.v ===== *)
(** * Hyperliquid: requests

    [exchange/internal/factoryclient/hyperliquid_rest.go] and
    [hyperliquid_rest_extended.go].  The spot and the perpetual client are two
    copies of the same code; each operation is written once over the product,
    and the copies are its instances.  What the SDK is called with and what it
    answers are explicit. *)

From Stdlib Require Import Ascii String ZArith Lia QArith Qcanon Sorted.
From stdpp Require Import base list strings gmap.
From S2P Require Import Prelude GoStrings Decimals DecimalText Errors Model HttpErrors Orders InstrumentCatalog Sockets AccountFeed Hyperliquid Clients HyperliquidMarkets.

#[local] Open Scope string_scope.
#[local] Open Scope list_scope.
#[local] Open Scope Z_scope.
#[local] Open Scope go_scope.

(** ** Venue rows, as the SDK decodes them *)

Record hlL2Level := mkL2 { l2_px : string; l2_sz : string }.
Record L2Book := mkL2Book { l2_Coin : string; l2_Levels : list (list hlL2Level); l2_Time : Z }.
Record native_candle := mkNativeCandle {
  nc_S : string; nc_I : string; nc_T : Z; nc_TClose : Z; nc_O : string; nc_H : string; nc_L : string; nc_C : string; nc_V : string;
}.
Record native_open_order := mkOpenOrder {
  oo_Coin : string; oo_Side : string; oo_LimitPx : string; oo_Sz : string; oo_OrigSz : string; oo_Oid : Z; oo_Cliod : string; oo_Timestamp : Z;
  oo_OrderType : string; oo_Tif : string; oo_ReduceOnly : bool; oo_IsTrigger : bool;
}.
Record native_fill := mkNativeFill {
  nf_Coin : string; nf_Side : string; nf_Px : string; nf_Sz : string; nf_Fee : string; nf_FeeToken : string; nf_Oid : Z; nf_Tid : Z; nf_Hash : string;
  nf_Crossed : bool; nf_Time : Z;
}.
Record spot_balance := mkSpotBalance { sb_Coin : string; sb_Token : Z; sb_Total : string; sb_Hold : string }.
Record native_position := mkNativePosition {
  np_Coin : string; np_Szi : string; np_PositionValue : string; np_EntryPx : string; np_UnrealizedPnl : string; np_LiquidationPx : string;
  np_MarginUsed : string; np_LeverageType : string; np_LeverageValue : Z; np_MaxLeverage : Z;
}.
Record native_trade := mkNativeTrade { nt_Coin : string; nt_Side : string; nt_Price : string; nt_Size : string; nt_TradeID : Z; nt_Time : Z }.
Record historical_order := mkHistorical {
  ho_Coin : string; ho_Side : string; ho_LimitPrice : string; ho_RemainingSize : string; ho_OriginalSize : string; ho_OrderID : Z;
  ho_ClientOrderID : option string; ho_Timestamp : Z; ho_OrderType : string; ho_TimeInForce : string; ho_ReduceOnly : bool; ho_IsTrigger : bool;
  ho_Status : string; ho_StatusTimestamp : Z;
}.
(** [OrderStatus]: the resting and the filled part of the venue's answer *)
Record order_resting := mkRestingStatus { rs_Oid : Z; rs_ClientID : option string }.
Record order_filled := mkFilledStatus { fs_TotalSz : string; fs_AvgPx : string; fs_Oid : Z }.
Record OrderStatus := mkOrderStatus { os_Resting : option order_resting; os_Filled : option order_filled }.

Section requests.
Context `{Decimal D} `{DecimalText D}.
Implicit Types (meta : hyperliquidMarketMeta (D:=D)) (c : hl_catalog (D:=D)).

(** ** Books *)

Definition hlBookLevels (rows : list hlL2Level) : result error (list (BookLevel D)) :=
  map_result (λ row, price <-? or_error (hlPositiveDecimal (l2_px row)) (EText "invalid book price") ;;
                     qty <-? or_error (hlPositiveDecimal (l2_sz row)) (EText "invalid book quantity") ;;
                     Ok (mkLevel price qty)) rows.
Definition hlBook (product operation : string) meta (limit : Z) (coin : string) (levels : list (list hlL2Level)) (ms : Z) : result error (OrderBookPage (D:=D)) :=
  match String.eqb coin (hm_nativeCoin meta), levels with
  | true, [bid_rows; ask_rows] =>
      bids <-? malformed_by product operation (hlBookLevels bid_rows) ;;
      asks <-? malformed_by product operation (hlBookLevels ask_rows) ;;
      let bids := bounded limit bids in
      let asks := bounded limit asks in
      check 0 <? ms else hlMalformed product operation "invalid book timestamp" ;;
      Ok (mkBookPage (hm_instrument meta) bids asks (FromMilli ms) (limit_page limit))
  | _, _ => Err (hlMalformed product operation "book product identity mismatch")
  end.
Definition OrderBook (product : string) c (ctx : context) (instrument : Instrument D) (limit : Z) (L2Book_of : string → result native_error L2Book)
  : result error (OrderBookPage (D:=D)) :=
  _ <-? hlRequireCtx ctx product "OrderBook" ;;
  meta <-? market_meta c product "OrderBook" instrument ;;
  check negb (limit <? 0) else hlInvalid product "OrderBook" "limit must be non-negative" ;;
  match L2Book_of (hm_nativeCoin meta) with
  | Err n => Err (hlNormalizeQueryErr product "OrderBook" n)
  | Ok row => hlBook product "OrderBook" meta limit (l2_Coin row) (l2_Levels row) (l2_Time row)
  end.

(** ** Candles *)

Definition hyperliquidCandleDuration (interval : string) : result error duration :=
  if String.eqb interval "1m" then Ok Minute
  else if String.eqb interval "5m" then Ok (5 * Minute)
  else if String.eqb interval "15m" then Ok (15 * Minute)
  else if String.eqb interval "30m" then Ok (30 * Minute)
  else if String.eqb interval "1h" then Ok Hour
  else if String.eqb interval "4h" then Ok (4 * Hour)
  else if String.eqb interval "12h" then Ok (12 * Hour)
  else if String.eqb interval "1d" then Ok (24 * Hour)
  else Err (EText "unsupported candle interval").

(** [now] is the clock; a [time.Duration] wraps at 64 bits. *)
Definition hlCandleWindow (now : time) (req : CandlesRequest (D:=D)) : result error (Z * Z) :=
  check negb (is_empty (TrimSpace (cq_Interval req))) else EText "interval is required" ;;
  interval <-? hyperliquidCandleDuration (cq_Interval req) ;;
  check negb (cq_Limit req <? 0) else EText "limit must be non-negative" ;;
  if negb (is_empty (cq_Cursor req)) then
    match ParseInt (cq_Cursor req) with
    | Some start => if start <? 0 then Err (EText "cursor must be a millisecond timestamp") else Ok (start, UnixMilli now)
    | None => Err (EText "cursor must be a millisecond timestamp")
    end
  else if IsZero (cq_Start req) then
    if 0 <? cq_Limit req then Ok (UnixMilli (Add now (wrap64 (wrap64 (- cq_Limit req) * interval))), UnixMilli now) else Ok (0, UnixMilli now)
  else
    let stop := if IsZero (cq_End req) then now else cq_End req in
    check After stop (cq_Start req) else EText "end must be after start" ;;
    Ok (UnixMilli (cq_Start req), UnixMilli stop).

Definition hlCandle (now : time) (openMs closeMs : Z) (openS highS lowS closeS volumeS : string) : result error (Candle D) :=
  open <-? or_error (hlPositiveDecimal openS) (EText "invalid candle open") ;;
  high <-? or_error (hlPositiveDecimal highS) (EText "invalid candle high") ;;
  low <-? or_error (hlPositiveDecimal lowS) (EText "invalid candle low") ;;
  close <-? or_error (hlPositiveDecimal closeS) (EText "invalid candle close") ;;
  volume <-? or_error (hlNonNegativeDecimal volumeS) (EText "invalid candle volume") ;;
  check negb ((openMs <=? 0) || (closeMs <=? openMs) || d_less_than high low || d_greater_than open high || d_less_than open low ||
              d_greater_than close high || d_less_than close low) else EText "invalid candle range" ;;
  Ok (mkCandle (FromMilli openMs) (FromMilli closeMs) open high low close volume (closeMs <=? UnixMilli now)).
Definition newest {A} (limit : Z) (l : list A) : list A :=
  if (0 <? limit) && (limit <? Z.of_nat (length l)) then drop (length l - Z.to_nat limit) l else l.
Definition hlCandlePage (candles : list (Candle D)) (limit : Z) : CandlePage (D:=D) :=
  let candles := newest limit (sort_slice (λ a b, Before (ca_OpenTime a) (ca_OpenTime b)) candles) in
  mkCandlePage candles
    match candles, last candles with
    | first :: _, Some final => mkPage (FormatInt (UnixMilli (ca_OpenTime final))) limit (ca_OpenTime first) (ca_CloseTime final) false false
    | _, _ => limit_page limit
    end.
(** [hlSpotCandles] and [hlPerpCandles] *)
Definition hlCandles (product : string) (now : time) meta (req : CandlesRequest (D:=D)) (rows : list native_candle) : result error (CandlePage (D:=D)) :=
  candles <-? map_result (λ row,
    check String.eqb (nc_S row) (hm_nativeCoin meta) && String.eqb (nc_I row) (cq_Interval req)
      else hlMalformed product "Candles" "candle product identity mismatch" ;;
    malformed_by product "Candles" (hlCandle now (nc_T row) (nc_TClose row) (nc_O row) (nc_H row) (nc_L row) (nc_C row) (nc_V row))) rows ;;
  Ok (hlCandlePage candles (cq_Limit req)).
Definition hlSpotCandles := hlCandles ProductSpot.
Definition hlPerpCandles := hlCandles ProductPerp.
Definition Candles (product : string) c (ctx : context) (now : time) (req : CandlesRequest (D:=D))
    (CandleSnapshot : string → string → Z → Z → result native_error (list native_candle)) : result error (CandlePage (D:=D)) :=
  _ <-? hlRequireCtx ctx product "Candles" ;;
  meta <-? market_meta c product "Candles" (cq_Instrument req) ;;
  match hlCandleWindow now req with
  | Err e => Err (hlInvalid product "Candles" (error_text e))
  | Ok (start, stop) =>
      match CandleSnapshot (hm_nativeCoin meta) (cq_Interval req) start stop with
      | Err n => Err (hlNormalizeQueryErr product "Candles" n)
      | Ok rows => (if String.eqb product ProductSpot then hlSpotCandles else hlPerpCandles) now meta req rows
      end
  end.

(** ** Placing and cancelling *)

(** What the SDK is asked to place; prices and sizes are [float64]s, and
    [Float64] is the conversion.  Spot requests have no reduce-only field. *)
Context {F : Type} (Float64 : D → F).
Inductive native_order :=
| MarketOrderRequest (coin : string) (isBuy : bool) (size : F) (reduceOnly : bool) (cloid : option string)
| LimitOrderRequest (assetID : Z) (isBuy : bool) (price size : F) (reduceOnly : bool) (tif : string) (cloid : option string).

Definition set_limit_price (req : PlaceOrderRequest D) (price : D) : PlaceOrderRequest D :=
  mkPlaceOrder (po_Instrument req) (po_ClientOrderID req) (po_Side req) (po_Type req) (po_Quantity req) price (po_LimitPolicy req) (po_ReduceOnly req).
Definition hlNormalizeLimitPrice (side : string) (requested : D) (priceDecimals : Z) : result error D := hlValidateLimitPrice side requested priceDecimals.
Definition hlNormalizePlace (product : string) (req : PlaceOrderRequest D) meta : result error (PlaceOrderRequest D) :=
  check hlSameInstrument (hm_instrument meta) (po_Instrument req) else hlInvalid product "PlaceOrder" "instrument identity mismatch" ;;
  check is_ok (PlaceOrder_Validate req product) else hlInvalid product "PlaceOrder" "invalid normalized order request" ;;
  check d_is_zero (d_mod (po_Quantity req) (ru_QuantityIncrement (in_Rules (hm_instrument meta))))
    else hlInvalid product "PlaceOrder" "quantity must align to Hyperliquid size increment" ;;
  if String.eqb (po_Type req) OrderTypeMarket then Ok req
  else match hlValidateLimitPrice (po_Side req) (po_LimitPrice req) (hm_priceDecimals meta) with
  | Err _ => Err (hlInvalid product "PlaceOrder" "limit_price cannot be represented within Hyperliquid price precision")
  | Ok normalized => Ok (set_limit_price req normalized)
  end.
Definition native_request (product : string) (req : PlaceOrderRequest D) meta (nativeClientID : string) : native_order :=
  let isBuy := String.eqb (po_Side req) SideBuy in
  let reduceOnly := if String.eqb product ProductSpot then false else po_ReduceOnly req in
  if String.eqb (po_Type req) OrderTypeMarket
  then MarketOrderRequest (hm_nativeCoin meta) isBuy (Float64 (po_Quantity req)) reduceOnly (hlOptionalString nativeClientID)
  else LimitOrderRequest (hm_assetID meta) isBuy (Float64 (po_LimitPrice req)) (Float64 (po_Quantity req)) reduceOnly (hlLimitTIF (po_LimitPolicy req))
         (hlOptionalString nativeClientID).

Definition hlBaseAck (product op : string) (instrument : Instrument D) (orderID cloid state : string) : OrderAcknowledgement D :=
  mkAck hyperliquidVenue product op state (id_NativeSymbol (in_Identity instrument)) (id_NativeID (in_Identity instrument)) "" orderID cloid "" d_zero no_decimal "" "".
(** [hlSpotPlaceAck] and [hlPerpPlaceAck] *)
Definition hlPlaceAck (product : string) (instrument : Instrument D) (cloid : string) (status : option OrderStatus) : result error (OrderAcknowledgement D) :=
  match status with
  | None => Err (hlMalformed product "PlaceOrder" "missing order status")
  | Some (mkOrderStatus (Some resting) _) =>
      check negb (negb (is_empty cloid) && negb (match rs_ClientID resting with Some id => EqualFold id cloid | None => false end))
        else hlMalformed product "PlaceOrder" "resting client order id mismatch" ;;
      Ok (hlBaseAck product OrderOperationPlace instrument (FormatInt (rs_Oid resting)) cloid AckResting)
  | Some (mkOrderStatus None (Some filled)) =>
      quantity <-? or_error (hlPositiveDecimal (fs_TotalSz filled)) (hlMalformed product "PlaceOrder" "invalid filled quantity") ;;
      avg <-? or_error (hlPositiveDecimal (fs_AvgPx filled)) (hlMalformed product "PlaceOrder" "invalid average fill price") ;;
      let ack := hlBaseAck product OrderOperationPlace instrument (FormatInt (fs_Oid filled)) cloid AckImmediatelyFilled in
      Ok (mkAck (ack_Venue ack) (ack_Product ack) (ack_Operation ack) (ack_State ack) (ack_NativeSymbol ack) (ack_NativeID ack) (ack_OrderType ack)
            (ack_OrderID ack) (ack_ClientOrderID ack) (ack_TransactionHash ack) quantity (mkOptDec avg true) (ack_VenueCode ack) (ack_VenueMessage ack))
  | Some (mkOrderStatus None None) => Err (hlMalformed product "PlaceOrder" "unexpected order status")
  end.
Definition hlSpotPlaceAck := hlPlaceAck ProductSpot.
Definition hlPerpPlaceAck := hlPlaceAck ProductPerp.
Definition set_ack_client (ack : OrderAcknowledgement D) (cloid type : string) : OrderAcknowledgement D :=
  mkAck (ack_Venue ack) (ack_Product ack) (ack_Operation ack) (ack_State ack) (ack_NativeSymbol ack) (ack_NativeID ack) type (ack_OrderID ack) cloid
    (ack_TransactionHash ack) (ack_FilledQuantity ack) (ack_AverageFillPrice ack) (ack_VenueCode ack) (ack_VenueMessage ack).

(** [hlMutationErr] before its deferred normalization *)
Definition mutation_err (product op : string) (instrument : Instrument D) (orderID cloid : string) (n : native_error) : OrderAcknowledgement D * error :=
  let operation := if String.eqb op OrderOperationCancel then "CancelOrder" else "PlaceOrder" in
  let ack := hlBaseAck product op instrument orderID cloid AckAmbiguous in
  let fail := λ kind code message, hl_error kind product operation code message in
  let unknown := λ code, (ack, fail KindAmbiguousOutcome code unknown_outcome) in
  if ne_rejected n then
    (mkAck (ack_Venue ack) (ack_Product ack) (ack_Operation ack) AckRejected (ack_NativeSymbol ack) (ack_NativeID ack) (ack_OrderType ack) (ack_OrderID ack)
       (ack_ClientOrderID ack) (ack_TransactionHash ack) (ack_FilledQuantity ack) (ack_AverageFillPrice ack) "order_rejected" "Hyperliquid rejected order command",
     fail KindVenueRejected "order_rejected" "Hyperliquid rejected order command")
  else if ne_credentials n then (no_ack, fail KindAuthentication "" "Hyperliquid credentials required")
  else
  let status := ne_status n in
  let code := if 0 <? status then FormatInt status else "" in
  if is_unauthorized status then (no_ack, fail KindAuthentication code "Hyperliquid authentication failed")
  else if status =? 429 then (no_ack, fail KindRateLimit code "Hyperliquid rate limit")
  else if status =? 404 then (no_ack, fail KindNotFound code "Hyperliquid order command target not found")
  else if (400 <=? status) && (status <? 500) then (no_ack, fail KindInvalidRequest code "Hyperliquid rejected the order command request")
  else if 500 <=? status then unknown code
  else match sdk_rate_limited n with
  | Some code => (no_ack, fail KindRateLimit code "Hyperliquid rate limit")
  | None =>
      match ne_api_code n with
      | Some api =>
          if is_unauthorized api then (no_ack, fail KindAuthentication (FormatInt api) "Hyperliquid authentication failed")
          else if api =? 429 then (no_ack, fail KindRateLimit (FormatInt api) "Hyperliquid rate limit")
          else if api =? 404 then (no_ack, fail KindNotFound (FormatInt api) "Hyperliquid order command target not found")
          else if (400 <=? api) && (api <? 500) then (no_ack, fail KindInvalidRequest (FormatInt api) "Hyperliquid rejected the order command request")
          else unknown (FormatInt api)
      | None =>
          if hlMalformedSDKError n then (no_ack, hlMalformed product operation "malformed Hyperliquid command response")
          else unknown ""
      end
  end.
Definition hlMutationErr (product op : string) (instrument : Instrument D) (orderID cloid : string) (n : native_error)
  : OrderAcknowledgement D * option error :=
  let '(ack, err) := mutation_err product op instrument orderID cloid n in
  normalizeHTTPCommand ack (Some err) (Some (ne_err n)) hyperliquidVenue product op.

(** [err] of a [result], for the pairs the commands return *)
Definition failed (e : error) : option native_order * (OrderAcknowledgement D * option error) := (None, (no_ack, Some e)).
(** [PlaceOrder]: what was sent, if anything, and what is returned.  [later] is
    the context's state just before the request. *)
Definition PlaceOrder (product : string) c (ctx : context) (later : option error) (req : PlaceOrderRequest D)
    (send : native_order → result native_error (option OrderStatus)) : option native_order * (OrderAcknowledgement D * option error) :=
  match hlRequireCtx ctx product "PlaceOrder" with
  | Err e => failed e
  | Ok _ =>
  match PlaceOrder_Validate req product with
  | Err _ => failed (hlInvalid product "PlaceOrder" "invalid normalized order request")
  | Ok _ =>
  match market_meta c product "PlaceOrder" (po_Instrument req) with
  | Err e => failed e
  | Ok meta =>
  match hlNormalizePlace product req meta with
  | Err e => failed e
  | Ok req =>
  match later with
  | Some err => failed (hlContextErr product "PlaceOrder" err)
  | None =>
      let nativeClientID := hlNativeClientOrderID (po_ClientOrderID req) in
      let order := native_request product req meta nativeClientID in
      (Some order,
       match send order with
       | Err n => hlMutationErr product OrderOperationPlace (po_Instrument req) "" (po_ClientOrderID req) n
       | Ok status =>
           match (if String.eqb product ProductSpot then hlSpotPlaceAck else hlPerpPlaceAck) (hm_instrument meta) nativeClientID status with
           | Err e => (no_ack, Some e)
           | Ok ack =>
               let ack := set_ack_client ack (po_ClientOrderID req) (po_Type req) in
               (ack, match Ack_Validate ack with Ok _ => None | Err e => Some e end)
           end
       end)
  end end end end end.

Definition hlValidateCancel (product orderID : string) : result error Z :=
  match ParseInt orderID with
  | Some oid => if (oid <=? 0) || negb (String.eqb (FormatInt oid) orderID)
                then Err (hlInvalid product "CancelOrder" "order_id must be a positive numeric native order id") else Ok oid
  | None => Err (hlInvalid product "CancelOrder" "order_id must be a positive numeric native order id")
  end.
Definition hlCancelAck (product : string) (instrument : Instrument D) (orderID : string) (status : option string) : OrderAcknowledgement D * option error :=
  match status with
  | Some "success" => (hlBaseAck product OrderOperationCancel instrument orderID "" AckAcceptedPending, None)
  | _ => (no_ack, Some (hlMalformed product "CancelOrder" "cancel response must be exactly success"))
  end.
(** [spotCancelMeta] and [perpCancelMeta] *)
Definition cancel_meta (product : string) c (instrument : Instrument D) (orderID : string) : result error (hyperliquidMarketMeta * Z) :=
  oid <-? hlValidateCancel product orderID ;;
  meta <-? market_meta c product "CancelOrder" instrument ;;
  Ok (meta, oid).
(** [CancelOrder]: the asset and order id sent, if any. *)
Definition CancelOrder (product : string) c (ctx : context) (later : option error) (req : CancelOrderRequest (D:=D))
    (send : Z → Z → result native_error (option string)) : option (Z * Z) * (OrderAcknowledgement D * option error) :=
  match hlRequireCtx ctx product "CancelOrder" with
  | Err e => (None, (no_ack, Some e))
  | Ok _ =>
  match cancel_meta product c (co_Instrument req) (co_OrderID req) with
  | Err e => (None, (no_ack, Some e))
  | Ok (meta, oid) =>
  match later with
  | Some err => (None, (no_ack, Some (hlContextErr product "CancelOrder" err)))
  | None =>
      (Some (hm_assetID meta, oid),
       match send (hm_assetID meta) oid with
       | Err n => hlMutationErr product OrderOperationCancel (co_Instrument req) (co_OrderID req) "" n
       | Ok status => hlCancelAck product (co_Instrument req) (co_OrderID req) status
       end)
  end end end.

(** ** Listings *)

(** The rows of the requested market, or all of them. *)
Definition concerns (requested : option (hyperliquidMarketMeta (D:=D))) (coin : string) : bool :=
  match requested with Some meta => String.eqb coin (hm_nativeCoin meta) | None => true end.
(** The market of a row, unless the row is of no market of the product. *)
Definition row_meta (product operation : string) (metas : gmap string (hyperliquidMarketMeta (D:=D))) (coin : string)
  : result error (hyperliquidMarketMeta (D:=D)) :=
  match metas !! coin with
  | Some meta => if hlRejectCoin coin then Err (hlMalformed product operation "mixed or unknown product row") else Ok meta
  | None => Err (hlMalformed product operation "mixed or unknown product row")
  end.

Definition order_policy (tif : string) : result error string :=
  if one_of tif ["Gtc"; ""] then Ok LimitPolicyResting
  else if String.eqb tif "Ioc" then Ok LimitPolicyIOC
  else if String.eqb tif "Alo" then Ok LimitPolicyPostOnly
  else Err (EText "unsupported time in force").
Definition hlOrder meta (coin sideS pxS szS origSzS : string) (oid : Z) (cloid : string) (createdMs updatedMs : Z) (orderType tif : string)
    (reduceOnly isTrigger : bool) : result error (Order D) :=
  check String.eqb coin (hm_nativeCoin meta) && (0 <? oid) && (0 <? createdMs) && (0 <? updatedMs) else EText "order identity mismatch" ;;
  check String.eqb orderType "Limit" && negb isTrigger else EText "unsupported open order semantics" ;;
  policy <-? order_policy tif ;;
  side <-? hlSide sideS ;;
  remaining <-? or_error (hlNonNegativeDecimal szS) (EText "invalid order size") ;;
  original <-? or_error (hlPositiveDecimal origSzS) (EText "invalid original order size") ;;
  let filled := d_sub original remaining in
  check negb (d_is_negative filled) else EText "invalid filled size" ;;
  price <-? or_error (hlPositiveDecimal pxS) (EText "invalid order price") ;;
  Ok (mkOrder (id_NativeSymbol (in_Identity (hm_instrument meta))) (id_NativeID (in_Identity (hm_instrument meta))) (FormatInt oid)
        (hlPortableClientOrderID cloid) side OrderTypeLimit original price policy reduceOnly filled no_decimal "open" (FromMilli createdMs) (FromMilli updatedMs)).
Definition open_order meta (row : native_open_order) : result error (Order D) :=
  hlOrder meta (oo_Coin row) (oo_Side row) (oo_LimitPx row) (oo_Sz row) (oo_OrigSz row) (oo_Oid row) (oo_Cliod row) (oo_Timestamp row) (oo_Timestamp row)
    (oo_OrderType row) (oo_Tif row) (oo_ReduceOnly row) (oo_IsTrigger row).
Definition hlFill meta (coin sideS pxS szS feeS feeToken : string) (oid tid : Z) (hash : string) (crossed : bool) (ms : Z) : result error (Fill D) :=
  check String.eqb coin (hm_nativeCoin meta) && (0 <? oid) && (0 <? tid) && (0 <? ms) && negb (is_empty (TrimSpace hash)) else EText "fill identity mismatch" ;;
  side <-? hlSide sideS ;;
  price <-? or_error (hlPositiveDecimal pxS) (EText "invalid fill price") ;;
  qty <-? or_error (hlPositiveDecimal szS) (EText "invalid fill size") ;;
  fee <-? or_error (hlDecimal feeS) (EText "invalid fill fee") ;;
  Ok (mkFill (id_NativeSymbol (in_Identity (hm_instrument meta))) (id_NativeID (in_Identity (hm_instrument meta))) (FormatInt oid) "" (FormatInt tid) side
        price qty fee feeToken (if crossed then "taker" else "maker") (FromMilli ms)).
Definition native_fill_of meta (row : native_fill) : result error (Fill D) :=
  hlFill meta (nf_Coin row) (nf_Side row) (nf_Px row) (nf_Sz row) (nf_Fee row) (nf_FeeToken row) (nf_Oid row) (nf_Tid row) (nf_Hash row) (nf_Crossed row) (nf_Time row).

Definition OpenOrders (product : string) c (ctx : context) (instrument : option (Instrument D)) (cursor : string) (limit : Z)
    (UserOpenOrders : result native_error (list native_open_order)) : result error (OrderPage D) :=
  _ <-? hlRequireCtx ctx product "OpenOrders" ;;
  check negb ((limit <? 0) || negb (is_empty cursor)) else hlInvalid product "OpenOrders" "unsupported page request" ;;
  found <-? metasForOptional c product "OpenOrders" instrument ;;
  match UserOpenOrders with
  | Err n => Err (hlNormalizeQueryErr product "OpenOrders" n)
  | Ok rows =>
      orders <-? map_result (λ row, meta <-? row_meta product "OpenOrders" found.1 (oo_Coin row) ;; malformed_by product "OpenOrders" (open_order meta row))
        (List.filter (λ row, concerns found.2 (oo_Coin row)) rows) ;;
      Ok (mkOrderPage (bounded limit orders) (limit_page limit))
  end.

Definition hlValidateFillsRequest (product : string) (req : FillsRequest (D:=D)) : result error unit :=
  check is_empty (fq_Cursor req) && IsZero (fq_Start req) && IsZero (fq_End req) else hlInvalid product "Fills" "unsupported fills page/window request" ;;
  check negb (fq_Limit req <? 0) else hlInvalid product "Fills" "limit must be non-negative" ;;
  Ok tt.
Definition hlValidateOptionalOrderID (product operation orderID : string) : result error unit :=
  if is_empty (TrimSpace orderID) then Ok tt
  else match ParseInt orderID with
  | Some oid => if (oid <=? 0) || negb (String.eqb (FormatInt oid) orderID)
                then Err (hlInvalid product operation "order_id must be a positive numeric native order id") else Ok tt
  | None => Err (hlInvalid product operation "order_id must be a positive numeric native order id")
  end.
(** One turn of the loop: the market is looked up before the order id is
    compared, so a row of another order is still checked. *)
Definition fill_row (product : string) (metas : gmap string (hyperliquidMarketMeta (D:=D))) (orderID : string) (row : native_fill)
  : result error (option (Fill D)) :=
  meta <-? row_meta product "Fills" metas (nf_Coin row) ;;
  if negb (is_empty orderID) && negb (String.eqb (FormatInt (nf_Oid row)) orderID) then Ok None
  else fill <-? malformed_by product "Fills" (native_fill_of meta row) ;; Ok (Some fill).
Definition Fills (product : string) c (ctx : context) (req : FillsRequest (D:=D)) (UserFills : result native_error (list native_fill)) : result error (FillPage (D:=D)) :=
  _ <-? hlRequireCtx ctx product "Fills" ;;
  _ <-? hlValidateFillsRequest product req ;;
  _ <-? hlValidateOptionalOrderID product "Fills" (fq_OrderID req) ;;
  found <-? metasForOptional c product "Fills" (fq_Instrument req) ;;
  match UserFills with
  | Err n => Err (hlNormalizeQueryErr product "Fills" n)
  | Ok rows =>
      fills <-? map_result (fill_row product found.1 (fq_OrderID req)) (List.filter (λ row, concerns found.2 (nf_Coin row)) rows) ;;
      Ok (bounded (fq_Limit req) (omap id fills), limit_page (fq_Limit req))
  end.

(** [hlHistoricalOrder] *)
Definition historical_policy (tif : string) : result error string :=
  let tif := ToLower (TrimSpace tif) in
  if one_of tif [""; "gtc"] then Ok LimitPolicyResting
  else if String.eqb tif "ioc" then Ok LimitPolicyIOC
  else if String.eqb tif "alo" then Ok LimitPolicyPostOnly
  else Err (EText "unsupported historical limit policy").
Definition hlHistoricalOrder meta (row : historical_order) : result error (Order D) :=
  quantity <-? hlPositiveDecimal (ho_OriginalSize row) ;;
  remaining <-? or_error (hlNonNegativeDecimal (ho_RemainingSize row)) (EText "invalid syntax") ;;
  check negb (d_greater_than remaining quantity) else EText "invalid syntax" ;;
  price <-? hlNonNegativeDecimal (ho_LimitPrice row) ;;
  side <-? hlSide (ho_Side row) ;;
  check negb (ho_IsTrigger row) else EText "trigger orders are outside the exchange order-history contract" ;;
  typed <-? (let type := ToLower (TrimSpace (ho_OrderType row)) in
             if String.eqb type "market" then Ok (OrderTypeMarket, "", d_zero)
             else if String.eqb type "limit" then policy <-? historical_policy (ho_TimeInForce row) ;; Ok (OrderTypeLimit, policy, price)
             else Err (EText "unsupported historical order type")) ;;
  let '(type, policy, price) := typed in
  Ok (mkOrder (id_NativeSymbol (in_Identity (hm_instrument meta))) (id_NativeID (in_Identity (hm_instrument meta))) (FormatInt (ho_OrderID row))
        (match ho_ClientOrderID row with Some id => hlPortableClientOrderID id | None => "" end) side type quantity price policy (ho_ReduceOnly row)
        (d_sub quantity remaining) no_decimal (ho_Status row) (FromMilli (ho_Timestamp row)) (FromMilli (ho_StatusTimestamp row))).
(** The loop of [hlOrderHistory]: [taken] orders have been kept; it stops when
    the limit is reached. *)
Fixpoint history_loop (product : string) (metas : gmap string (hyperliquidMarketMeta (D:=D))) (requested : option (hyperliquidMarketMeta (D:=D)))
    (start stop : time) (limit : Z) (taken : Z) (rows : list historical_order) : result error (list (Order D)) :=
  match rows with
  | [] => Ok []
  | row :: rows' =>
      if EqualFold (ho_Status row) "open" then history_loop product metas requested start stop limit taken rows'
      else if negb (concerns requested (ho_Coin row)) then history_loop product metas requested start stop limit taken rows'
      else
        meta <-? row_meta product "OrderHistory" metas (ho_Coin row) ;;
        if negb (IsZero start) && (ho_StatusTimestamp row <? UnixMilli start) then history_loop product metas requested start stop limit taken rows'
        else if negb (IsZero stop) && (UnixMilli stop <=? ho_StatusTimestamp row) then history_loop product metas requested start stop limit taken rows'
        else
          order <-? malformed_by product "OrderHistory" (hlHistoricalOrder meta row) ;;
          if (0 <? limit) && (taken + 1 =? limit) then Ok [order]
          else rest <-? history_loop product metas requested start stop limit (taken + 1) rows' ;; Ok (order :: rest)
  end.
Definition hlOrderHistory (product : string) (metas : gmap string (hyperliquidMarketMeta (D:=D))) (requested : option (hyperliquidMarketMeta (D:=D)))
    (start stop : time) (cursor : string) (limit : Z) (HistoricalOrders : result native_error (list historical_order)) : result error (OrderPage D) :=
  check is_empty cursor else hlInvalid product "OrderHistory" "cursor is not supported" ;;
  check negb ((limit <? 0) || (negb (IsZero start) && negb (IsZero stop) && negb (Before start stop)))
    else hlInvalid product "OrderHistory" "invalid history bounds" ;;
  match HistoricalOrders with
  | Err n => Err (hlNormalizeQueryErr product "OrderHistory" n)
  | Ok rows => orders <-? history_loop product metas requested start stop limit 0 rows ;; Ok (mkOrderPage orders (historyPage "" limit start stop))
  end.
Definition OrderHistory (product : string) c (ctx : context) (instrument : option (Instrument D)) (start stop : time) (cursor : string) (limit : Z)
    (HistoricalOrders : result native_error (list historical_order)) : result error (OrderPage D) :=
  _ <-? hlRequireCtx ctx product "OrderHistory" ;;
  found <-? metasForOptional c product "OrderHistory" instrument ;;
  hlOrderHistory product found.1 found.2 start stop cursor limit HistoricalOrders.

(** ** The account *)

Definition hlSpotBalances (operation : string) (state : option (list spot_balance)) : result error (list (Balance D)) :=
  match state with
  | None => Err (hlMalformed ProductSpot operation "missing spot clearinghouse state")
  | Some rows =>
      map_result (λ row,
        check negb (hlRejectCoin (sb_Coin row) || (sb_Token row <? 0) || (hyperliquidOutcomeAssetBase <=? sb_Token row))
          else hlMalformed ProductSpot operation "unsupported spot balance asset" ;;
        total <-? or_error (hlNonNegativeDecimal (sb_Total row)) (hlMalformed ProductSpot operation "invalid balance total") ;;
        locked <-? or_error (hlNonNegativeDecimal (sb_Hold row)) (hlMalformed ProductSpot operation "invalid balance hold") ;;
        let available := d_sub total locked in
        check negb (d_is_negative available) else hlMalformed ProductSpot operation "balance hold exceeds total" ;;
        Ok (mkBalance (sb_Coin row) available locked total)) rows
  end.
Definition spot_Balances (ctx : context) (GetSpotClearinghouseState : result native_error (option (list spot_balance))) : result error (list (Balance D)) :=
  _ <-? hlRequireCtx ctx ProductSpot "Balances" ;;
  match GetSpotClearinghouseState with
  | Err n => Err (hlNormalizeQueryErr ProductSpot "Balances" n)
  | Ok state => hlSpotBalances "Balances" state
  end.
(** The context is observed twice. *)
Definition SpotAccount (ctx ctx' : context) (state : result native_error (option (list spot_balance))) : result error (list (Balance D)) :=
  _ <-? hlRequireCtx ctx ProductSpot "SpotAccount" ;;
  match spot_Balances ctx' state with Ok balances => Ok balances | Err e => Err (withExchangeOperation e "SpotAccount") end.

Record margin_state := mkMargin { ms_AccountValue : string; ms_TotalMarginUsed : string; ms_Withdrawable : string }.
Definition account_value (text message : string) : result error (OptionalDecimal D) :=
  if is_empty (TrimSpace text) then Ok no_decimal
  else value <-? or_error (hlDecimal text) (hlMalformed ProductPerp "PerpAccount" message) ;; Ok (mkOptDec value true).
Definition perp_PerpAccount (ctx : context) (GetBalance : result native_error margin_state) : result error (PerpAccount (D:=D)) :=
  _ <-? hlRequireCtx ctx ProductPerp "PerpAccount" ;;
  match GetBalance with
  | Err n => Err (hlNormalizeQueryErr ProductPerp "PerpAccount" n)
  | Ok state =>
      equity <-? account_value (ms_AccountValue state) "invalid account value" ;;
      available <-? account_value (ms_Withdrawable state) "invalid withdrawable" ;;
      margin <-? account_value (ms_TotalMarginUsed state) "invalid margin used" ;;
      if od_Valid equity && od_Valid available then
        let locked := d_sub (od_Value equity) (od_Value available) in
        check negb (d_is_negative locked) else hlMalformed ProductPerp "PerpAccount" "withdrawable exceeds account value" ;;
        Ok (mkPerpAccount [mkBalance "USDC" (od_Value available) locked (od_Value equity)] equity available margin no_decimal)
      else Ok (mkPerpAccount [] equity available margin no_decimal)
  end.
Definition perp_Balances (ctx ctx' : context) (state : result native_error margin_state) : result error (list (Balance D)) :=
  _ <-? hlRequireCtx ctx ProductPerp "Balances" ;;
  match perp_PerpAccount ctx' state with Ok account => Ok (pa_Balances account) | Err e => Err (withExchangeOperation e "Balances") end.

Definition hlPosition meta (sziS positionValueS entryS pnlS liqS marginS : string) (leverage : Z) : result error (Position D) :=
  let identity := in_Identity (hm_instrument meta) in
  szi <-? or_error (hlDecimal sziS) (EText "invalid position size") ;;
  if d_is_zero szi then
    Ok (mkPosition (id_NativeSymbol identity) (id_NativeID identity) "" "" d_zero d_zero d_zero d_zero no_decimal no_decimal no_decimal)
  else
    let side := if d_is_negative szi then SideSell else SideBuy in
    positionValue <-? or_error (hlPositiveDecimal positionValueS) (EText "invalid position value") ;;
    let mark := d_div positionValue (d_abs szi) in
    check d_is_positive mark else EText "invalid mark price" ;;
    entry <-? or_error (hlNonNegativeDecimal entryS) (EText "invalid entry price") ;;
    pnl <-? or_error (hlDecimal pnlS) (EText "invalid unrealized pnl") ;;
    liq <-? or_error (hlOptionalNonNegative liqS) (EText "invalid liquidation price") ;;
    margin <-? or_error (hlOptionalNonNegative marginS) (EText "invalid margin used") ;;
    let lev := if 0 <? leverage then mkOptDec (d_new leverage 0) true else no_decimal in
    Ok (mkPosition (id_NativeSymbol identity) (id_NativeID identity) "" side szi entry mark pnl liq lev margin).
Definition Positions c (ctx : context) (instrument : option (Instrument D)) (GetPerpPosition : result native_error (list native_position))
  : result error (list (Position D)) :=
  _ <-? hlRequireCtx ctx ProductPerp "Positions" ;;
  found <-? metasForOptional c ProductPerp "Positions" instrument ;;
  match GetPerpPosition with
  | Err n => Err (hlNormalizeQueryErr ProductPerp "Positions" n)
  | Ok rows =>
      positions <-? map_result (λ row, meta <-? row_meta ProductPerp "Positions" found.1 (np_Coin row) ;;
          malformed_by ProductPerp "Positions" (hlPosition meta (np_Szi row) (np_PositionValue row) (np_EntryPx row) (np_UnrealizedPnl row)
            (np_LiquidationPx row) (np_MarginUsed row) (np_LeverageValue row)))
        (List.filter (λ row, concerns found.2 (np_Coin row)) rows) ;;
      Ok (List.filter (λ pos, negb (d_is_zero (ps_Quantity pos))) positions)
  end.

(** ** Trades and funding *)

Definition hlPublicTrades (product : string) meta (limit : Z) (RecentTrades : string → result native_error (list native_trade))
  : result error (list (PublicTrade (D:=D)) * PageInfo) :=
  check negb (limit <? 0) else hlInvalid product "PublicTrades" "limit must be non-negative" ;;
  match RecentTrades (hm_nativeCoin meta) with
  | Err n => Err (hlNormalizeQueryErr product "PublicTrades" n)
  | Ok rows =>
      trades <-? map_result (λ row,
        check String.eqb (nt_Coin row) (hm_nativeCoin meta) && (0 <? nt_TradeID row)
          else hlMalformed product "PublicTrades" "response identity does not match request" ;;
        side <-? or_error (hlSide (nt_Side row)) (hlMalformed product "PublicTrades" "invalid trade side") ;;
        price <-? or_error (hlPositiveDecimal (nt_Price row)) (hlMalformed product "PublicTrades" "invalid trade price") ;;
        quantity <-? or_error (hlPositiveDecimal (nt_Size row)) (hlMalformed product "PublicTrades" "invalid trade quantity") ;;
        Ok (mkHlTrade (hm_instrument meta) (FormatInt (nt_TradeID row)) side price quantity (FromMilli (nt_Time row)))) (bounded limit rows) ;;
      Ok (trades, limit_page limit)
  end.
Definition PublicTrades (product : string) c (ctx : context) (instrument : Instrument D) (limit : Z)
    (RecentTrades : string → result native_error (list native_trade)) : result error (list (PublicTrade (D:=D)) * PageInfo) :=
  _ <-? hlRequireCtx ctx product "PublicTrades" ;;
  meta <-? market_meta c product "PublicTrades" instrument ;;
  hlPublicTrades product meta limit RecentTrades.

Record native_funding := mkNativeFunding { fu_Coin : string; fu_Funding : string; fu_MarkPx : string }.
Definition FundingRateNow c (ctx : context) (now : time) (instrument : Instrument D) (GetFundingRate : string → result native_error native_funding)
  : result error (FundingRate (D:=D)) :=
  _ <-? hlRequireCtx ctx ProductPerp "FundingRate" ;;
  meta <-? market_meta c ProductPerp "FundingRate" instrument ;;
  match GetFundingRate (hm_nativeCoin meta) with
  | Err n => Err (hlNormalizeQueryErr ProductPerp "FundingRate" n)
  | Ok row =>
      check String.eqb (fu_Coin row) (hm_nativeCoin meta) else hlMalformed ProductPerp "FundingRate" "response instrument does not match request" ;;
      rate <-? or_error (hlDecimal (fu_Funding row)) (hlMalformed ProductPerp "FundingRate" "invalid funding rate") ;;
      mark <-? or_error (hlPositiveDecimal (fu_MarkPx row)) (hlMalformed ProductPerp "FundingRate" "invalid mark price") ;;
      Ok (mkFundingRate (id_NativeSymbol (in_Identity instrument)) (id_NativeID (in_Identity instrument)) rate (mkOptDec mark true) now zero_time zero_time)
  end.
Record native_funding_row := mkFundingRow { fr_Coin : string; fr_FundingRate : string; fr_Time : Z }.
Definition FundingRateHistory c (ctx : context) (instrument : Instrument D) (start stop : time) (cursor : string) (limit : Z)
    (GetFundingRateHistory : string → Z → Z → result native_error (list native_funding_row)) : result error (list (FundingRate (D:=D)) * PageInfo) :=
  _ <-? hlRequireCtx ctx ProductPerp "FundingRateHistory" ;;
  meta <-? market_meta c ProductPerp "FundingRateHistory" instrument ;;
  check is_empty cursor else hlInvalid ProductPerp "FundingRateHistory" "cursor is not supported" ;;
  check negb ((limit <? 0) || (negb (IsZero start) && negb (IsZero stop) && negb (Before start stop)))
    else hlInvalid ProductPerp "FundingRateHistory" "history bounds must be valid" ;;
  match GetFundingRateHistory (hm_nativeCoin meta) (optionalMillis start) (optionalMillis stop) with
  | Err n => Err (hlNormalizeQueryErr ProductPerp "FundingRateHistory" n)
  | Ok rows =>
      rates <-? map_result (λ row,
        check String.eqb (fr_Coin row) (hm_nativeCoin meta) else hlMalformed ProductPerp "FundingRateHistory" "mixed instrument row" ;;
        rate <-? or_error (hlDecimal (fr_FundingRate row)) (hlMalformed ProductPerp "FundingRateHistory" "invalid funding rate") ;;
        Ok (mkFundingRate (id_NativeSymbol (in_Identity instrument)) (id_NativeID (in_Identity instrument)) rate no_decimal zero_time (FromMilli (fr_Time row)) zero_time))
        (newest limit rows) ;;
      Ok (rates, historyPage "" limit start stop)
  end.

(** ** Leverage *)

(** Cross margin, and the venue's maximum, of the market's position. *)
Fixpoint leverage_mode (coin : string) (rows : list native_position) : result error (bool * Z) :=
  match rows with
  | [] => Ok (true, 0)
  | row :: rows' =>
      if negb (String.eqb (np_Coin row) coin) then leverage_mode coin rows'
      else let type := ToLower (np_LeverageType row) in
           if String.eqb type "cross" then Ok (true, np_MaxLeverage row)
           else if String.eqb type "isolated" then Ok (false, np_MaxLeverage row)
           else Err (hlMalformed ProductPerp "SetLeverage" "unknown current margin mode")
  end.
Definition hlCurrentLeverageMode meta (GetPerpPosition : result native_error (list native_position)) : result error (bool * Z) :=
  match GetPerpPosition with
  | Err n => Err (hlNormalizeQueryErr ProductPerp "SetLeverage" n)
  | Ok rows => leverage_mode (hm_nativeCoin meta) rows
  end.
(** [hlLeverageMutationErr] before its deferred normalization *)
Definition leverage_err (n : native_error) : error :=
  let fail := λ kind code message, hl_error kind ProductPerp "SetLeverage" code message in
  let unknown := "leverage update outcome is unknown after possible send" in
  if ne_credentials n then fail KindAuthentication "" "Hyperliquid credentials required"
  else
  let status := ne_status n in
  let code := if 0 <? status then FormatInt status else "" in
  if is_unauthorized status then fail KindAuthentication code "Hyperliquid authentication failed"
  else if status =? 429 then fail KindRateLimit code "Hyperliquid rate limit"
  else if status =? 404 then fail KindNotFound code "Hyperliquid leverage target not found"
  else if (400 <=? status) && (status <? 500) then fail KindInvalidRequest code "Hyperliquid rejected the leverage update request"
  else if 500 <=? status then fail KindAmbiguousOutcome code unknown
  else match sdk_rate_limited n with
  | Some code => fail KindRateLimit code "Hyperliquid rate limit"
  | None =>
      match ne_api_code n with
      | Some api =>
          let code := FormatInt api in
          if is_unauthorized api then fail KindAuthentication code "Hyperliquid authentication failed"
          else if api =? 429 then fail KindRateLimit code "Hyperliquid rate limit"
          else if api =? 404 then fail KindNotFound code "Hyperliquid leverage target not found"
          else if (400 <=? api) && (api <? 500) then fail KindInvalidRequest code "Hyperliquid rejected the leverage update request"
          else fail KindAmbiguousOutcome code unknown
      | None => fail KindAmbiguousOutcome code unknown
      end
  end.
Definition hlLeverageMutationErr (n : native_error) : error :=
  let err := leverage_err n in
  default err (normalizeHTTPError (D:=unit) (Some err) (Some (ne_err n)) hyperliquidVenue ProductPerp "SetLeverage").
(** [SetLeverage]: the update sent, if any (asset, cross margin, leverage), and
    the effective leverage. *)
Definition SetLeverage c (ctx : context) (instrument : Instrument D) (leverage : Z) (GetPerpPosition : result native_error (list native_position))
    (UpdateLeverage : Z → bool → Z → option native_error) : option (Z * bool * Z) * result error Z :=
  match
    _ <-? hlRequireCtx ctx ProductPerp "SetLeverage" ;;
    meta <-? market_meta c ProductPerp "SetLeverage" instrument ;;
    check 0 <? leverage else hlInvalid ProductPerp "SetLeverage" "leverage must be positive" ;;
    mode <-? hlCurrentLeverageMode meta GetPerpPosition ;;
    check negb ((0 <? mode.2) && (mode.2 <? leverage)) else hlInvalid ProductPerp "SetLeverage" "leverage exceeds instrument maximum" ;;
    Ok (hm_assetID meta, mode.1, leverage)
  with
  | Err e => (None, Err e)
  | Ok (asset, isCross, leverage) =>
      (Some (asset, isCross, leverage),
       match UpdateLeverage asset isCross leverage with Some n => Err (hlLeverageMutationErr n) | None => Ok leverage end)
  end.
End requests.

(** ** What a placement sends, and what its answer means *)

Section placing.
Context `{DecimalTextLaws D} {F : Type} (Float64 : D → F).
Implicit Types (meta : hyperliquidMarketMeta (D:=D)) (c : hl_catalog (D:=D)) (req : PlaceOrderRequest D).

Lemma normalize_same product req meta req' : hlNormalizePlace product req meta = Ok req' →
  req' = req ∧ PlaceOrder_Validate req product = Ok tt ∧
  (po_Type req = OrderTypeMarket ∨ (0 ≤ hm_priceDecimals meta ∧ representable (d_value (po_LimitPrice req)) (hm_priceDecimals meta))).
Proof.
  unfold hlNormalizePlace. intros [_ [Hv [_ Hn]%check_Ok]%check_Ok]%check_Ok. apply is_ok_Ok in Hv as [[] Hv].
  destruct (String.eqb_spec (po_Type req) OrderTypeMarket) as [Ht|_]; [injection Hn as <-; auto|].
  destruct (limit_price_iff (po_Side req) (po_LimitPrice req) (hm_priceDecimals meta)) as [Hsame Hrule].
  destruct (hlValidateLimitPrice _ _ _) as [price|e]; [|done]. injection Hn as <-. rewrite (Hsame price eq_refl). split_and!; [by destruct req|done|].
  destruct (proj1 Hrule eq_refl) as (_ & _ & ? & ?). auto.
Qed.

(** The order on the wire says what the request says. *)
(** Hyperliquid's words for the three limit policies: good until canceled,
    immediate or cancel, and add liquidity only. *)
Definition time_in_force : list (string * string) := [(LimitPolicyResting, "Gtc"); (LimitPolicyIOC, "Ioc"); (LimitPolicyPostOnly, "Alo")].
Definition sent_faithfully (product : string) req meta (order : native_order (F:=F)) : Prop :=
  let cloid := hlNativeClientOrderID (po_ClientOrderID req) in
  let isBuy := bool_decide (po_Side req = SideBuy) in
  hlPortableClientOrderID cloid = po_ClientOrderID req ∧
  ((po_Type req = OrderTypeMarket ∧
    order = MarketOrderRequest (id_NativeSymbol (in_Identity (po_Instrument req))) isBuy (Float64 (po_Quantity req)) (po_ReduceOnly req) (Some cloid)) ∨
   (po_Type req = OrderTypeLimit ∧ representable (d_value (po_LimitPrice req)) (hm_priceDecimals meta) ∧
    FormatInt (hm_assetID meta) = id_NativeID (in_Identity (po_Instrument req)) ∧
    ∃ tif, In (po_LimitPolicy req, tif) time_in_force ∧
      order = LimitOrderRequest (hm_assetID meta) isBuy (Float64 (po_LimitPrice req)) (Float64 (po_Quantity req)) (po_ReduceOnly req) tif (Some cloid))).
Definition acknowledges (product : string) req (ack : OrderAcknowledgement D) : Prop :=
  let identity := in_Identity (po_Instrument req) in
  Ack_Validate ack = Ok tt ∧ ack_Venue ack = VenueHyperliquid ∧ ack_Product ack = product ∧ ack_Operation ack = OrderOperationPlace ∧
  ack_NativeSymbol ack = id_NativeSymbol identity ∧ ack_NativeID ack = id_NativeID identity ∧ ack_ClientOrderID ack = po_ClientOrderID req ∧
  ack_OrderType ack = po_Type req ∧
  (ack_State ack = AckResting ∨ (ack_State ack = AckImmediatelyFilled ∧ (0 < d_value (ack_FilledQuantity ack))%Qc)).

Lemma native_asset_text id n : native_asset id = Some n → FormatInt n = id_NativeID id.
Proof.
  unfold native_asset. destruct (ParseInt32 (id_NativeID id)) as [k|]; cbn; [|done]. destruct (String.eqb_spec (FormatInt k) (id_NativeID id)); [|done].
  cbn. destruct (0 <=? k); [|done]. by intros [= <-].
Qed.
Lemma meta_identity c product op i meta : market_meta c product op i = Ok meta →
  hm_nativeCoin meta = id_NativeSymbol (in_Identity i) ∧ FormatInt (hm_assetID meta) = id_NativeID (in_Identity i) ∧
  hlSameInstrument (hm_instrument meta) i = true.
Proof.
  intros Hm. assert (Hc : ∃ metas, hlCatalogMetas c op product = Ok metas).
  { unfold market_meta, metasForOptional in Hm. destruct (hlCatalogMetas c op product) as [metas|]; [by exists metas|done]. }
  destruct Hc as [metas Hc]. pose proof (proj1 (market_meta_iff c product op metas i meta Hc) Hm) as [Hl Hs].
  destruct (metas_sound _ _ _ _ Hc _ _ Hl) as (Hn & Hf & _). destruct (same_native _ _ Hs) as [_ Eid]. split_and!; [done| |done].
  rewrite <- Eid. unfold hlMetaFromInstrument in Hf. destruct (Instrument_Validate (hm_instrument meta)); [|done].
  apply check_Ok in Hf as [_ [_ [_ Hf]%check_Ok]%check_Ok]. destruct (native_asset (in_Identity (hm_instrument meta))) as [n|] eqn:Ea; [|done].
  apply native_asset_text in Ea. destruct (String.eqb product ProductSpot).
  - destruct (spot_native_ok _ _); [|done]. injection Hf as <-. by cbn [hm_assetID hm_instrument].
  - destruct (String.eqb product ProductPerp); [|done]. apply check_Ok in Hf as [_ [= <-]]. by cbn [hm_assetID hm_instrument].
Qed.

Lemma place_ack_form product i cloid status ack : hlPlaceAck product i cloid status = Ok ack →
  ack_Venue ack = VenueHyperliquid ∧ ack_Product ack = product ∧ ack_Operation ack = OrderOperationPlace ∧
  ack_NativeSymbol ack = id_NativeSymbol (in_Identity i) ∧ ack_NativeID ack = id_NativeID (in_Identity i) ∧
  (ack_State ack = AckResting ∨ (ack_State ack = AckImmediatelyFilled ∧ (0 < d_value (ack_FilledQuantity ack))%Qc)).
Proof.
  unfold hlPlaceAck. destruct status as [[[resting|] [filled|]]|]; try done.
  - intros [_ [= <-]]%check_Ok. split_and!; try done. by left.
  - intros [_ [= <-]]%check_Ok. split_and!; try done. by left.
  - intros (q & Hq & (avg & _ & [= <-])%bind_Ok)%bind_Ok. split_and!; try done. right. split; [done|]. cbn [ack_FilledQuantity].
    unfold hlPositiveDecimal in Hq. destruct (hlDecimal _) as [d|]; [|done]. destruct (d_is_positive d) eqn:E; [|done]. injection Hq as <-.
    by apply d_is_positive_spec.
Qed.

Lemma withVenueMessage_some e (ack : option (OrderAcknowledgement D)) original : ∃ e' ack', withVenueMessage (Some e) ack original = (Some e', ack').
Proof. unfold withVenueMessage. repeat case_match; eauto. Qed.
Lemma normalizeHTTPError_fails mapped original venue product operation :
  normalizeHTTPError (D:=D) (Some mapped) original venue product operation ≠ None.
Proof.
  unfold normalizeHTTPError. destruct (errors_as as_exchange (Some mapped)) as [kd|]; [|done].
  destruct (local_pass _ _ _) as [kind d].
  match goal with |- (withVenueMessage (Some ?e) ?a ?o).1 ≠ None => destruct (withVenueMessage_some e a o) as (e' & a' & ->) end. done.
Qed.
Lemma mutation_fails product op i orderID cloid n ack err : hlMutationErr (D:=D) product op i orderID cloid n = (ack, err) → err ≠ None.
Proof.
  unfold hlMutationErr. destruct (mutation_err _ _ _ _ _ _) as [a e]. unfold normalizeHTTPCommand.
  set (am := match errors_as as_http _ with Some h => _ | None => _ end). assert (Ham : ∃ a' e', am = (a', Some e')).
  { unfold am. destruct (errors_as as_http _); [case_match|]; eauto. }
  destruct Ham as (a' & e' & ->). pose proof (normalizeHTTPError_fails e' (Some (ne_err n)) hyperliquidVenue product op) as Hn.
  destruct (normalizeHTTPError _ _ _ _ _) as [e''|]; [|done].
  destruct (withVenueMessage_some e'' (Some a') (Some (ne_err n))) as (e3 & a3 & ->). by intros [= <- <-].
Qed.

(** C15: a placement on Hyperliquid either reports an error having sent nothing,
    or has sent one order that says what the validated request says: the market
    by coin or asset id, side, size, limit price unchanged and representable at
    the venue, time in force, reduce-only, and a client id that decodes to the
    caller's.  A placement without an error has a valid acknowledgement of that
    order, identified by the caller's client order id. *)
Theorem placement_faithful product c ctx later req send :
  let '(sent, (ack, err)) := PlaceOrder Float64 product c ctx later req send in
  match sent with
  | None => ack = no_ack ∧ err ≠ None
  | Some order =>
      order_spec req product ∧
      (∃ meta, market_meta c product "PlaceOrder" (po_Instrument req) = Ok meta ∧ sent_faithfully product req meta order) ∧
      (err = None → acknowledges product req ack)
  end.
Proof.
  unfold PlaceOrder, failed. destruct (hlRequireCtx ctx product "PlaceOrder"); [|by cbn; split].
  destruct (PlaceOrder_Validate req product) as [[]|] eqn:Hv; [|by cbn; split].
  destruct (market_meta c product "PlaceOrder" (po_Instrument req)) as [meta|] eqn:Hm; [|by cbn; split].
  destruct (hlNormalizePlace product req meta) as [req'|] eqn:Hn; [|by cbn; split]. destruct later; [by cbn; split|].
  apply normalize_same in Hn as (-> & _ & Hprice). destruct (meta_identity _ _ _ _ _ Hm) as (Hcoin & Hasset & Hsame).
  pose proof (proj1 (PlaceOrder_Validate_spec req product) Hv) as Hspec.
  destruct (match send _ with Ok _ => _ | Err _ => _ end) as [ack err] eqn:Es. cbv beta iota. split_and!; [done| |].
  - clear Es. exists meta. split; [done|]. unfold sent_faithfully, native_request. rewrite Hcoin.
    assert (Hid : hlPortableClientOrderID (hlNativeClientOrderID (po_ClientOrderID req)) = po_ClientOrderID req).
    { apply client_order_id_roundtrip, isPortable_iff, (os_client_id Hspec). }
    assert (Hopt : hlOptionalString (hlNativeClientOrderID (po_ClientOrderID req)) = Some (hlNativeClientOrderID (po_ClientOrderID req))).
    { unfold hlOptionalString, is_empty. destruct (String.eqb_spec (hlNativeClientOrderID (po_ClientOrderID req)) "") as [E|]; [|done].
      rewrite E in Hid. destruct (os_client_id Hspec) as (n & En & _). change (hlPortableClientOrderID "") with "" in Hid.
      rewrite <- Hid in En. symmetry in En. by apply FormatUint_nonempty in En. }
    assert (Hro : (if String.eqb product ProductSpot then false else po_ReduceOnly req) = po_ReduceOnly req).
    { pose proof (os_reduce_only Hspec) as Hro. destruct (String.eqb_spec product ProductSpot); [|done]. destruct (po_ReduceOnly req); [|done]. by destruct Hro. }
    rewrite Hopt, Hro. split; [done|]. assert (Hb : String.eqb (po_Side req) SideBuy = bool_decide (po_Side req = SideBuy)) by (by destruct (String.eqb_spec (po_Side req) SideBuy); case_bool_decide).
    rewrite Hb. destruct (os_type Hspec) as [(Ht & _)|(Ht & _ & _ & Hpolicy)]; rewrite Ht; [by left|]. right. split_and!; try done.
    + destruct Hprice as [Hp|[_ Hp]]; [|done]. rewrite Ht in Hp. done.
    + exists (hlLimitTIF (po_LimitPolicy req)). split; [|done]. destruct Hpolicy as [<-|[<-|[<-|[]]]]; unfold time_in_force; simpl; auto.
  - intros ->. destruct (send _) as [status|n]; [|by apply mutation_fails in Es].
    assert (Hack : (if String.eqb product ProductSpot then hlSpotPlaceAck else hlPerpPlaceAck) = hlPlaceAck (D:=D) product).
    { unfold hlSpotPlaceAck, hlPerpPlaceAck. destruct (os_product Hspec) as [<-|[<-|[]]]; done. }
    rewrite Hack in Es. destruct (hlPlaceAck product _ _ status) as [ack0|e] eqn:Ea; [|done].
    apply place_ack_form in Ea as (H1' & H2' & H3' & H4' & H5' & H6'). destruct (Ack_Validate _) as [[]|] eqn:Eav; [|done]. injection Es as <-.
    destruct (same_native _ _ Hsame) as [Esym Eid]. unfold native in Esym.
    unfold acknowledges. split_and!; try done; cbn [set_ack_client ack_NativeSymbol ack_NativeID]; congruence.
Qed.
End placing.

(** ** Commands whose outcome is lost *)

(** An SDK error that says the command was refused: rejected by the venue,
    stopped before it was sent, throttled, or answered with a client error. *)
Definition shows_refusal (n : native_error) : bool :=
  ne_rejected n || ne_credentials n || is_present (errors_as as_local (Some (ne_err n))) || errors_is (TSentinel ErrRateLimited) (Some (ne_err n)) ||
  ((400 <=? ne_status n) && (ne_status n <? 500)) || match ne_api_code n with Some api => (400 <=? api) && (api <? 500) | None => false end.
Definition undecided (kind : ErrorKind) : Prop := kind = KindAmbiguousOutcome ∨ kind = KindMalformedResponse ∨ kind = KindTransport.

Section lost.
Context `{Decimal D}.
Implicit Types ack : OrderAcknowledgement D.

Lemma client_error_kinds status : (400 <=? status) && (status <? 500) = false → is_unauthorized status = false ∧ (status =? 429) = false ∧ (status =? 404) = false.
Proof.
  intros E. unfold is_unauthorized. apply andb_false_iff in E as [E%Z.leb_gt|E%Z.ltb_ge]; split_and!; try apply orb_false_iff; try split; apply Z.eqb_neq; lia.
Qed.
Lemma mutation_undecided product op i orderID cloid n : shows_refusal n = false →
  ∃ ack kind d, mutation_err (D:=D) product op i orderID cloid n = (ack, NewError kind d) ∧ undecided kind ∧ det_CommandNotSent d = false ∧ ack_State ack ≠ AckRejected.
Proof.
  unfold shows_refusal. intros [[[[[Hr Hc]%orb_false_iff _]%orb_false_iff Hrl]%orb_false_iff Hst]%orb_false_iff Hapi]%orb_false_iff.
  destruct (client_error_kinds _ Hst) as (H401 & H429 & H404). unfold mutation_err. rewrite Hr, Hc, H401, H429, H404, Hst.
  assert (Hs : sdk_rate_limited n = None) by (unfold sdk_rate_limited; rewrite Hrl; by destruct (ne_exchange_code n)). rewrite Hs.
  destruct (500 <=? ne_status n); [eexists _, _, _; split_and!; [reflexivity|by left|done|done]|].
  destruct (ne_api_code n) as [api|].
  - destruct (client_error_kinds _ Hapi) as (-> & -> & ->). rewrite Hapi. eexists _, _, _. split_and!; [reflexivity|by left|done|done].
  - destruct (hlMalformedSDKError n); eexists _, _, _; (split_and!; [reflexivity|unfold undecided; auto|done|done]).
Qed.
Lemma http_rate_limited e h : errors_is (TSentinel ErrRateLimited) (Some e) = false → errors_as as_http (Some e) = Some h →
  (he_StatusCode h =? 429) || (he_StatusCode h =? 418) = false.
Proof.
  intros Hrl Hh. change (first_some as_http (subtree e) = Some h) in Hh. cbn [errors_is] in Hrl. revert Hrl Hh.
  induction (subtree e) as [|x l IH]; [by intros _ [=]|]. cbn [existsb first_some]. intros [Hx Hl]%orb_false_iff Hf.
  destruct x; cbn [as_http] in Hf; try (by apply IH). injection Hf as <-. exact Hx.
Qed.
Lemma normalize_undecided kind d original venue product operation : undecided kind → det_CommandNotSent d = false →
  errors_as as_local (Some original) = None → errors_is (TSentinel ErrRateLimited) (Some original) = false →
  ∃ kind' d', normalizeHTTPError (D:=D) (Some (NewError kind d)) (Some original) venue product operation = Some (NewError kind' d') ∧
    undecided kind' ∧ det_CommandNotSent d' = false.
Proof.
  intros Hk Hn Hl Hrl. unfold normalizeHTTPError. change (errors_as as_exchange (Some (NewError kind d))) with (Some (kind, d)).
  assert (Hm : ∃ k1 d1, malformed_pass (Some original) (kind, d) = (k1, d1) ∧ undecided k1 ∧ det_CommandNotSent d1 = false).
  { unfold malformed_pass. case_match; eexists _, _; split_and!; try done. unfold unless_ambiguous, undecided. case_decide; auto. }
  destruct Hm as (k1 & d1 & -> & Hk1 & Hn1).
  assert (Hh : ∃ k2 d2, http_pass (Some original) (k1, d1) = (k2, d2) ∧ undecided k2 ∧ det_CommandNotSent d2 = false).
  { unfold http_pass. destruct (errors_as as_http (Some original)) as [h|] eqn:E; [|by eexists _, _].
    rewrite (http_rate_limited original h Hrl E). case_match; eexists _, _; split_and!; try done. unfold unless_ambiguous, undecided. case_decide; auto. }
  destruct Hh as (k2 & d2 & -> & Hk2 & Hn2). unfold rate_limit_pass. rewrite Hrl. cbn [andb]. unfold local_pass. rewrite Hl.
  rewrite withVenueMessage_indefinite; [by eexists _, _|]. by destruct Hk2 as [-> |[-> | ->]].
Qed.
Lemma command_undecided product op i orderID cloid n : shows_refusal n = false →
  ∃ ack kind d, hlMutationErr (D:=D) product op i orderID cloid n = (ack, Some (NewError kind d)) ∧ undecided kind ∧ det_CommandNotSent d = false ∧
    ack_State ack ≠ AckRejected.
Proof.
  intros Hn. destruct (mutation_undecided product op i orderID cloid n Hn) as (ack & kind & d & E & Hk & Hd & Ha). unfold hlMutationErr. rewrite E.
  unfold shows_refusal in Hn. apply orb_false_iff in Hn as [[[[_ Hl]%orb_false_iff Hrl]%orb_false_iff _]%orb_false_iff _].
  destruct (errors_as as_local (Some (ne_err n))) eqn:El; [done|]. unfold normalizeHTTPCommand.
  assert (Hfirst : ∃ ack1 kind1 d1, match errors_as as_http (Some (ne_err n)) with
    | Some h => if server_failure (he_StatusCode h) || (he_StatusCode h =? 429) || (he_StatusCode h =? 418)
        then (set_ack_message (set_ack_state ack AckAmbiguous) unknown_outcome, Some (NewError KindAmbiguousOutcome (mkDetails hyperliquidVenue product op (ack_VenueCode ack) unknown_outcome 0 0 "" false)))
        else (ack, Some (NewError kind d))
    | None => (ack, Some (NewError kind d)) end = (ack1, Some (NewError kind1 d1)) ∧ undecided kind1 ∧ det_CommandNotSent d1 = false ∧ ack_State ack1 ≠ AckRejected).
  { destruct (errors_as as_http _); [case_match|]; eexists _, _, _; (split_and!; [reflexivity| |done|done]); try done. by left. }
  destruct Hfirst as (ack1 & kind1 & d1 & -> & Hk1 & Hd1 & Ha1).
  destruct (normalize_undecided kind1 d1 (ne_err n) hyperliquidVenue product op Hk1 Hd1 El Hrl) as (k2 & d2 & -> & Hk2 & Hd2).
  rewrite withVenueMessage_indefinite by (by destruct Hk2 as [-> |[-> | ->]]). cbn [default]. by exists ack1, k2, d2.
Qed.

(** A Hyperliquid command that was sent and failed without evidence of a
    refusal is reported unknown by the gateway: never rejected, so that the
    caller is told to look the order up rather than to place it again. *)
Theorem lost_command_unknown {F} (Float64 : D → F) product (c : hl_catalog (D:=D)) ctx later req send order n now id `{!DecimalText D} :
  (PlaceOrder Float64 product c ctx later req send).1 = Some order → send order = Err n → shows_refusal n = false →
  let '(ack, err) := (PlaceOrder Float64 product c ctx later req send).2 in
  pl_Status (classify now id req ack err) = OutcomeUnknown.
Proof.
  unfold PlaceOrder, failed. intros Hs He Hn. repeat (case_match; [|discriminate Hs]). destruct later; [discriminate Hs|]. cbn [fst snd] in *.
  injection Hs as Hs. rewrite Hs, He.
  match goal with |- context [hlMutationErr ?p ?o ?i ?a ?b n] => destruct (command_undecided p o i a b n Hn) as (ack & kind & d & -> & Hk & Hd & Ha) end.
  unfold classify. assert (Hr : proves_refusal ack (Some (NewError kind d)) = false).
  { apply not_true_iff_false. intros Hr%proves_refusal_iff. inversion Hr as [e' k' d' E Ht|err Hack|e' k' Hin Hk'|e' k' k'' d' E Hz Hin Hk']; subst.
    - cbn in E. injection E as <- <-. congruence.
    - done.
    - rewrite errors_is_kind in Hk'. apply bool_decide_eq_true in Hk' as <-. destruct Hk as [-> |[-> | ->]]; cbn in Hin; intuition congruence.
    - rewrite errors_is_kind in Hk'. apply bool_decide_eq_true in Hk' as <-. destruct Hk as [-> |[-> | ->]]; cbn in Hin; intuition congruence. }
  by rewrite Hr.
Qed.
End lost.

(** An order for 2.5 ETH at 3000.5, of which the venue fills 1.2 *)
Definition eth_instrument : Instrument fixed := default (hl_instrument (mkIdentity "" "" "" "" "" "" "" "") 0 0 0 (mkMetadata "" "" "" "" CategoriesEmpty))
  (sn_Instruments sample_perp_snapshot !! 1%nat).
Definition eth_order : PlaceOrderRequest fixed :=
  mkPlaceOrder eth_instrument "1001" SideBuy OrderTypeLimit (mkFixed 25 1) (mkFixed 30005 1) LimitPolicyIOC false.
Definition partly_filled (_ : native_order (F:=fixed)) : result native_error (option OrderStatus) :=
  Ok (Some (mkOrderStatus None (Some (mkFilledStatus "1.2" "3000.4" 77)))).
Definition eth_placed := PlaceOrder (λ d : fixed, d) ProductPerp sample_hl_catalog (Some None) None eth_order partly_filled.
Definition eth_sent : native_order (F:=fixed) :=
  LimitOrderRequest 1 true (mkFixed 30005 1) (mkFixed 25 1) false "Ioc" (Some "0x000000000000000000000000000003e9").
Lemma placement_faithful_witness : eth_placed.1 = Some eth_sent ∧ acknowledges ProductPerp eth_order eth_placed.2.1.
Proof.
  pose proof (placement_faithful (λ d : fixed, d) ProductPerp sample_hl_catalog (Some None) None eth_order partly_filled) as Hp. fold eth_placed in Hp.
  assert (Hs : eth_placed.1 = Some eth_sent) by (vm_compute; reflexivity). assert (He : eth_placed.2.2 = None) by (vm_compute; reflexivity).
  split; [exact Hs|]. destruct eth_placed as [sent [ack err]]. cbn [fst snd] in *. subst sent err. by apply Hp.
Defined.
(** The acknowledgement reads as a complete fill all the same. *)
Example partial_fill_reads_filled : ack_State eth_placed.2.1 = AckImmediatelyFilled ∧ d_string (ack_FilledQuantity eth_placed.2.1) = "1.2".
Proof. vm_compute. split; reflexivity. Qed.

(** The same order, with the connection lost before an answer *)
Definition connection_reset : native_error := mkNative (ENet []) "read: connection reset by peer" 0 false false None None.
Definition eth_lost := PlaceOrder (λ d : fixed, d) ProductPerp sample_hl_catalog (Some None) None eth_order (λ _, Err connection_reset).
Lemma lost_command_unknown_witness :
  eth_lost.1 = Some eth_sent ∧ shows_refusal connection_reset = false ∧
  (let '(ack, err) := eth_lost.2 in pl_Status (classify 5 "account" eth_order ack err) = OutcomeUnknown).
Proof.
  assert (Hs : eth_lost.1 = Some eth_sent) by (vm_compute; reflexivity). split_and!; [exact Hs|reflexivity|].
  pose proof (lost_command_unknown (λ d : fixed, d) ProductPerp sample_hl_catalog (Some None) None eth_order (λ _, Err connection_reset) eth_sent
    connection_reset 5 "account") as Hl. fold eth_lost in Hl. exact (Hl Hs eq_refl eq_refl).
Defined.

(** ** Listings are exact *)

Lemma malformed_by_Ok {A} product operation (r : result error A) a : malformed_by product operation r = Ok a ↔ r = Ok a.
Proof. by destruct r. Qed.

Section listings.
Context `{DecimalTextLaws D}.
Implicit Types (c : hl_catalog (D:=D)) (meta : hyperliquidMarketMeta (D:=D)).

Lemma positive_Ok s (d : D) : hlPositiveDecimal s = Ok d → (0 < d_value d)%Qc.
Proof.
  unfold hlPositiveDecimal. destruct (hlDecimal s) as [d'|]; [|done]. destruct (d_is_positive d') eqn:E; [|done]. intros [= <-]. by apply d_is_positive_spec.
Qed.
Lemma nonnegative_Ok s (d : D) : hlNonNegativeDecimal s = Ok d → (0 <= d_value d)%Qc.
Proof.
  unfold hlNonNegativeDecimal. destruct (hlDecimal s) as [d'|]; [|done]. destruct (d_is_negative d') eqn:E; [done|]. intros [= <-].
  apply Qcnot_lt_le. intros Hn. apply d_is_negative_spec in Hn. congruence.
Qed.
Lemma minus_le (a b : D) : (0 <= d_value b)%Qc → (d_value (d_sub a b) <= d_value a)%Qc.
Proof.
  intros Hb. rewrite d_value_sub. apply Qcle_minus_iff. replace (d_value a + - (d_value a - d_value b))%Qc with (d_value b) by ring. done.
Qed.

(** What a listed order says about its row *)
Definition lists (row : native_open_order) (o : Order D) : Prop :=
  or_NativeSymbol o = oo_Coin row ∧ or_OrderID o = FormatInt (oo_Oid row) ∧ 0 < oo_Oid row ∧ hlSide (oo_Side row) = Ok (or_Side o) ∧
  hlPositiveDecimal (oo_LimitPx row) = Ok (or_LimitPrice o) ∧ hlPositiveDecimal (oo_OrigSz row) = Ok (or_Quantity o) ∧
  (∃ remaining, hlNonNegativeDecimal (oo_Sz row) = Ok remaining ∧ d_value (or_Filled o) = (d_value (or_Quantity o) - d_value remaining)%Qc) ∧
  (0 <= d_value (or_Filled o) <= d_value (or_Quantity o))%Qc ∧ or_ReduceOnly o = oo_ReduceOnly row ∧ or_ClientOrderID o = hlPortableClientOrderID (oo_Cliod row).
Lemma open_order_lists meta row o : id_NativeSymbol (in_Identity (hm_instrument meta)) = hm_nativeCoin meta → open_order meta row = Ok o → lists row o.
Proof.
  intros Hn. unfold open_order, hlOrder. intros [Hid [_ Ho]%check_Ok]%check_Ok. apply andb_prop in Hid as [[[Hc%String.eqb_eq Hoid%Z.ltb_lt]%andb_prop _]%andb_prop _].
  apply bind_Ok in Ho as (policy & _ & (side & Hs & (remaining & Hr & (original & Hor & Ho)%bind_Ok)%bind_Ok)%bind_Ok).
  apply check_Ok in Ho as [Hf%negb_true_iff (price & Hp & [= <-])%bind_Ok]. rewrite or_error_Ok in Hr, Hor, Hp.
  pose proof (nonnegative_Ok _ _ Hr) as Hr0. unfold lists. cbn [or_NativeSymbol or_OrderID or_Side or_LimitPrice or_Quantity or_Filled or_ReduceOnly or_ClientOrderID].
  split_and!; try done; [congruence| |  |].
  - exists remaining. split; [done|]. apply d_value_sub.
  - apply Qcnot_lt_le. rewrite <- d_is_negative_spec. congruence.
  - by apply minus_le.
Qed.

Lemma optional_metas c product op instrument found : metasForOptional c product op instrument = Ok found →
  ∀ coin meta, found.1 !! coin = Some meta → hm_nativeCoin meta = coin ∧ id_NativeSymbol (in_Identity (hm_instrument meta)) = coin.
Proof.
  unfold metasForOptional. intros (metas & Hm & Ho)%bind_Ok coin meta Hc. assert (found.1 = metas) as Ef.
  { unfold hlOptionalMeta in Ho. destruct instrument; [destruct (find_meta _ _); [|done]|]; by injection Ho as <-. }
  rewrite Ef in Hc. destruct (metas_sound _ _ _ _ Hm coin meta Hc) as (Hn & Hf & _). split; [done|]. apply meta_from in Hf as [_ En]. unfold native in En. congruence.
Qed.
Lemma requested_coin c product op i found : metasForOptional c product op (Some i) = Ok found →
  ∀ coin, concerns found.2 coin = String.eqb coin (id_NativeSymbol (in_Identity i)).
Proof.
  unfold metasForOptional. intros (metas & Hm & Ho)%bind_Ok coin. cbn [hlOptionalMeta] in Ho. destruct (find_meta metas i) as [meta|] eqn:E; [|done].
  injection Ho as <-. cbn [snd concerns]. apply List.find_some in E as [(k & Hk)%list_elem_of_In%elem_of_map_values Hs].
  destruct (metas_sound _ _ _ _ Hm k meta Hk) as (_ & Hf & _). apply meta_from in Hf as [_ ->]. apply same_native in Hs as [-> _]. done.
Qed.

(** The open orders of an instrument are exactly the venue's rows for its
    coin, in the venue's order and cut at the limit, each row listed with its
    own identity, side, price and size and with a filled quantity between zero
    and its size; rows of other instruments never appear. *)
Theorem open_orders_exact product c ctx i cursor limit rows page :
  OpenOrders product c ctx (Some i) cursor limit (Ok rows) = Ok page →
  ∃ orders, op_Orders page = bounded limit orders ∧
    Forall2 lists (List.filter (λ row, String.eqb (oo_Coin row) (id_NativeSymbol (in_Identity i))) rows) orders.
Proof.
  unfold OpenOrders. intros (_ & _ & [_ (found & Hf & (orders & Ho & [= <-])%bind_Ok)%bind_Ok]%check_Ok)%bind_Ok. exists orders. split; [done|].
  rewrite (filter_ext _ (λ row, concerns found.2 (oo_Coin row))) by (intros; by rewrite (requested_coin _ _ _ _ _ Hf)).
  apply map_result_Ok in Ho. eapply Forall2_impl; [exact Ho|]. cbv beta. intros row o (meta & Hm & Hr%malformed_by_Ok)%bind_Ok.
  eapply open_order_lists; [|exact Hr]. unfold row_meta in Hm. destruct (found.1 !! oo_Coin row) as [meta'|] eqn:El; [|done].
  destruct (hlRejectCoin _); [done|]. injection Hm as <-. destruct (optional_metas _ _ _ _ _ Hf _ _ El). congruence.
Qed.
End listings.

Section candle_pages.
Context `{DecimalTextLaws D}.
Implicit Types (c : hl_catalog (D:=D)) (meta : hyperliquidMarketMeta (D:=D)).

Definition candle_ok (row : native_candle) (candle : Candle D) : Prop :=
  ca_OpenTime candle = FromMilli (nc_T row) ∧ ca_CloseTime candle = FromMilli (nc_TClose row) ∧ 0 < nc_T row < nc_TClose row ∧
  (0 < d_value (ca_Low candle))%Qc ∧ (0 <= d_value (ca_Volume candle))%Qc ∧
  (d_value (ca_Low candle) <= d_value (ca_Open candle) <= d_value (ca_High candle))%Qc ∧
  (d_value (ca_Low candle) <= d_value (ca_Close candle) <= d_value (ca_High candle))%Qc.
Lemma hlCandle_ok now row candle :
  hlCandle now (nc_T row) (nc_TClose row) (nc_O row) (nc_H row) (nc_L row) (nc_C row) (nc_V row) = Ok candle → candle_ok row candle.
Proof.
  unfold hlCandle. intros (o & _ & (h & _ & (l & Hl & (cl & _ & (v & Hv & Hc)%bind_Ok)%bind_Ok)%bind_Ok)%bind_Ok)%bind_Ok.
  rewrite or_error_Ok in Hl, Hv. apply check_Ok in Hc as [Hr [= <-]]. apply negb_true_iff in Hr.
  rewrite !orb_false_iff, !d_greater_than_less, !d_less_than_false, !Z.leb_gt in Hr. destruct Hr as ((((((Hr1 & Hr2) & Hr3) & Hr4) & Hr5) & Hr6) & Hr7).
  unfold candle_ok. cbn [ca_OpenTime ca_CloseTime ca_Low ca_Volume ca_Open ca_High ca_Close]. split_and!; try done.
  - by apply positive_Ok in Hl.
  - by apply nonnegative_Ok in Hv.
Qed.

Lemma newest_suffix {A} limit (l : list A) : ∃ older, l = older ++ newest limit l ∧ (0 < limit → Z.of_nat (length (newest limit l)) ≤ limit) ∧
  (older ≠ [] → Z.of_nat (length (newest limit l)) = limit).
Proof.
  unfold newest. destruct ((0 <? limit) && (limit <? Z.of_nat (length l))) eqn:E.
  - apply andb_prop in E as [E1%Z.ltb_lt E2%Z.ltb_lt]. exists (take (length l - Z.to_nat limit) l). rewrite take_drop, length_drop. split_and!; [done|lia|lia].
  - exists []. split_and!; [done| |done]. intros Hl. apply andb_false_iff in E as [E%Z.ltb_ge|E%Z.ltb_ge]; lia.
Qed.
Lemma StronglySorted_app_inv {A} (R : relation A) l1 l2 : StronglySorted R (l1 ++ l2) → StronglySorted R l2 ∧ ∀ x y, x ∈ l1 → y ∈ l2 → R x y.
Proof.
  induction l1 as [|x l1 IH]; intros Hs; [split; [done|by intros ? ? ?%elem_of_nil]|]. cbn in Hs. apply StronglySorted_inv in Hs as [Hs Hx].
  destruct (IH Hs) as [H2' Hc]. split; [done|]. intros a b [->|Ha]%elem_of_cons Hb; [|by apply Hc].
  apply Forall_app in Hx as [_ Hx]. rewrite Forall_forall in Hx. by apply Hx.
Qed.

(** A page of candles holds the newest of the venue's candles for the
    instrument and interval, at most as many as asked for, oldest first, and
    every one of them is well formed: it opens before it closes and its prices
    lie between its low and its high. *)
Theorem candle_page_newest product c ctx now req rows page :
  product = ProductSpot ∨ product = ProductPerp →
  Candles product c ctx now req (λ _ _ _ _, Ok rows) = Ok page →
  ∃ all older, Forall2 candle_ok rows all ∧ older ++ cp_Candles page ≡ₚ all ∧
    Forall (λ row, nc_S row = id_NativeSymbol (in_Identity (cq_Instrument req)) ∧ nc_I row = cq_Interval req) rows ∧
    StronglySorted (λ a b, ca_OpenTime a ≤ ca_OpenTime b) (cp_Candles page) ∧
    (∀ a b, a ∈ older → b ∈ cp_Candles page → ca_OpenTime a ≤ ca_OpenTime b) ∧
    (0 < cq_Limit req → Z.of_nat (length (cp_Candles page)) ≤ cq_Limit req) ∧ (older ≠ [] → Z.of_nat (length (cp_Candles page)) = cq_Limit req).
Proof.
  intros Hp. unfold Candles. intros (_ & _ & (meta & Hm & Hc)%bind_Ok)%bind_Ok. destruct (hlCandleWindow now req) as [[start stop]|]; [|done].
  assert (Hf : (if String.eqb product ProductSpot then hlSpotCandles else hlPerpCandles) = hlCandles (D:=D) product) by (by destruct Hp as [-> | ->]).
  rewrite Hf in Hc. unfold hlCandles in Hc. apply bind_Ok in Hc as (all & Ha%map_result_Ok & [= <-]).
  destruct (meta_identity _ _ _ _ _ Hm) as (Hcoin & _). unfold hlCandlePage. cbn [cp_Candles].
  set (sorted := sort_slice _ all). destruct (newest_suffix (cq_Limit req) sorted) as (older & Eo & Hlim & Hfull). exists all, older.
  assert (Hs : StronglySorted (λ a b : Candle D, ca_OpenTime a ≤ ca_OpenTime b) sorted).
  { apply (sort_by_Z_sorted (λ x : Candle D, ca_OpenTime x)). }
  rewrite Eo in Hs. apply StronglySorted_app_inv in Hs as [Hs2 Hc]. split_and!; try done.
  - eapply Forall2_impl; [exact Ha|]. cbv beta. intros row candle [_ Hr%malformed_by_Ok]%check_Ok. by eapply hlCandle_ok.
  - rewrite <- Eo. apply sort_slice_perm.
  - clear -Ha Hcoin. induction Ha as [|row candle rows all Hr _ IH]; constructor; [|done]. cbv beta in Hr.
    apply check_Ok in Hr as [[E1%String.eqb_eq E2%String.eqb_eq]%andb_prop _]. by rewrite E1, E2.
Qed.

(** A listing fails as a whole on a row of a builder dex's market, although
    such markets are in the catalog and can be traded. *)
Lemma builder_rows_refused product c ctx instrument cursor limit rows row :
  row ∈ rows → hlRejectCoin (oo_Coin row) = true →
  (∀ i, instrument = Some i → id_NativeSymbol (in_Identity i) = oo_Coin row) →
  is_ok (OpenOrders product c ctx instrument cursor limit (Ok rows)) = false.
Proof.
  intros Hin Hrej Hi. apply not_true_iff_false. rewrite is_ok_Ok. intros [page Hp]. unfold OpenOrders in Hp.
  apply bind_Ok in Hp as (_ & _ & [_ (found & Hf & (orders & Ho & _)%bind_Ok)%bind_Ok]%check_Ok). apply map_result_Ok in Ho.
  assert (Hrow : row ∈ List.filter (λ row, concerns found.2 (oo_Coin row)) rows).
  { apply list_elem_of_In, filter_In. split; [by apply list_elem_of_In|]. destruct instrument as [i|].
    - rewrite (requested_coin _ _ _ _ _ Hf), (Hi i eq_refl). apply String.eqb_refl.
    - unfold metasForOptional in Hf. apply bind_Ok in Hf as (metas & _ & [= <-]). done. }
  apply list_elem_of_lookup in Hrow as [k Hk]. destruct (Forall2_lookup_l _ _ _ _ _ Ho Hk) as (o & _ & Hr).
  apply bind_Ok in Hr as (meta & Hm & _). unfold row_meta in Hm. rewrite Hrej in Hm. by destruct (found.1 !! _).
Qed.
End candle_pages.

(** ** Rows of a trading account *)

Definition eth_row (oid : Z) (size : string) : native_open_order := mkOpenOrder "ETH" "B" "3000.5" size "2.5" oid "0x3e9" 1700000000000 "Limit" "Gtc" false false.
Definition btc_row : native_open_order := mkOpenOrder "BTC" "A" "61000" "0.1" "0.1" 9 "" 1700000000001 "Limit" "Alo" true false.
Definition gold_row : native_open_order := mkOpenOrder "xyz:GOLD" "A" "2400.1" "1" "1" 12 "" 1700000000002 "Limit" "Gtc" false false.
Definition eth_listing := OpenOrders ProductPerp sample_hl_catalog (Some None) (Some eth_instrument) "" 1 (Ok [eth_row 7 "1.25"; btc_row; eth_row 8 "2.5"]).
Definition eth_page : OrderPage fixed := match eth_listing with Ok page => page | Err _ => mkOrderPage [] (limit_page 0) end.
Lemma open_orders_exact_witness :
  eth_listing = Ok eth_page ∧ map (λ o, or_OrderID o) (op_Orders eth_page) = ["7"] ∧
  ∃ orders, op_Orders eth_page = bounded 1 orders ∧
    Forall2 lists (List.filter (λ row, String.eqb (oo_Coin row) (id_NativeSymbol (in_Identity eth_instrument))) [eth_row 7 "1.25"; btc_row; eth_row 8 "2.5"]) orders.
Proof.
  assert (Hl : eth_listing = Ok eth_page) by (vm_compute; reflexivity). split_and!; [exact Hl|vm_compute; reflexivity|].
  pose proof (open_orders_exact ProductPerp sample_hl_catalog (Some None) eth_instrument "" 1 [eth_row 7 "1.25"; btc_row; eth_row 8 "2.5"] eth_page) as Hp.
  fold eth_listing in Hp. exact (Hp Hl).
Defined.
(** The builder market can be traded, but its open order cannot be listed. *)
Example gold_cannot_be_listed :
  is_ok (market_meta sample_hl_catalog ProductPerp "PlaceOrder" (default eth_instrument (sn_Instruments sample_perp_snapshot !! 2%nat))) = true ∧
  is_ok (OpenOrders ProductPerp sample_hl_catalog (Some None) None "" 0 (Ok [gold_row])) = false.
Proof. vm_compute. split; reflexivity. Qed.

Definition minute_candle (k : Z) : native_candle := mkNativeCandle "ETH" "1m" (1700000000000 + 60000 * k) (1700000059999 + 60000 * k) "3000" "3001.5" "2999" "3001" "12.5".
Definition minute_request : CandlesRequest (D:=fixed) := mkCandles eth_instrument "1m" zero_time zero_time 2 "".
Definition minute_rows : list native_candle := [minute_candle 2; minute_candle 0; minute_candle 1].
Definition minute_reply := Candles ProductPerp sample_hl_catalog (Some None) (FromMilli 1700000180000) minute_request (λ _ _ _ _, Ok minute_rows).
Definition minute_page : CandlePage (D:=fixed) := match minute_reply with Ok page => page | Err _ => mkCandlePage [] (limit_page 0) end.
Lemma candle_page_newest_witness :
  minute_reply = Ok minute_page ∧ map (λ x, ca_OpenTime x) (cp_Candles minute_page) = map (λ k, FromMilli (nc_T (minute_candle k))) [1; 2] ∧
  ∃ all older : list (Candle fixed), Forall2 candle_ok minute_rows all ∧ older ++ cp_Candles minute_page ≡ₚ all.
Proof.
  assert (Hr : minute_reply = Ok minute_page) by (vm_compute; reflexivity). split_and!; [exact Hr|vm_compute; reflexivity|].
  pose proof (candle_page_newest ProductPerp sample_hl_catalog (Some None) (FromMilli 1700000180000) minute_request minute_rows minute_page) as Hp.
  fold minute_reply in Hp. destruct (Hp (or_intror eq_refl) Hr) as (all & older & Ha & Ho & _). exists all, older. exact (conj Ha Ho).
Defined.

(** ** The two clients *)

Section clients.
Context `{Decimal D} `{DecimalText D} {F : Type} (Float64 : D → F).
Definition spot_OrderBook := OrderBook (D:=D) ProductSpot.
Definition perp_OrderBook := OrderBook (D:=D) ProductPerp.
Definition spot_Candles := Candles (D:=D) ProductSpot.
Definition perp_Candles := Candles (D:=D) ProductPerp.
Definition spot_PlaceOrder := PlaceOrder Float64 ProductSpot.
Definition perp_PlaceOrder := PlaceOrder Float64 ProductPerp.
Definition spot_CancelOrder := CancelOrder (D:=D) ProductSpot.
Definition perp_CancelOrder := CancelOrder (D:=D) ProductPerp.
Definition spot_OpenOrders := OpenOrders (D:=D) ProductSpot.
Definition perp_OpenOrders := OpenOrders (D:=D) ProductPerp.
Definition spot_Fills := Fills (D:=D) ProductSpot.
Definition perp_Fills := Fills (D:=D) ProductPerp.
Definition spot_PublicTrades := PublicTrades (D:=D) ProductSpot.
Definition perp_PublicTrades := PublicTrades (D:=D) ProductPerp.
Definition spot_OrderHistory := OrderHistory (D:=D) ProductSpot.
Definition perp_OrderHistory := OrderHistory (D:=D) ProductPerp.
(** [Instruments] of either client *)
Definition Instruments (product : string) (c : hl_catalog (D:=D)) (ctx : context) : result error (list (Instrument D)) :=
  _ <-? hlRequireCtx ctx product "Instruments" ;;
  metas <-? hlCatalogMetas c "Instruments" product ;;
  Ok (sort_slice (λ a b, str_lt (id_Symbol (in_Identity a)) (id_Symbol (in_Identity b))) (hlInstrumentsFromMetas metas)).
Definition spot_Instruments := Instruments ProductSpot.
Definition perp_Instruments := Instruments ProductPerp.
Definition spotMeta (c : hl_catalog (D:=D)) := market_meta c ProductSpot.
Definition perpMeta (c : hl_catalog (D:=D)) := market_meta c ProductPerp.
Definition spotMetasForOptional (c : hl_catalog (D:=D)) := metasForOptional c ProductSpot.
Definition perpMetasForOptional (c : hl_catalog (D:=D)) := metasForOptional c ProductPerp.
Definition spotCancelMeta := cancel_meta (D:=D) ProductSpot.
Definition perpCancelMeta := cancel_meta (D:=D) ProductPerp.
End clients.
