(* ===== verification/VenueErrors.v ===== *)
(** * Venue errors

    How each venue adapter turns an SDK error into a normalized one
    ([binanceSpotNormalizeErr], [binancePerpNormalizeError], [okxNormalizeErr],
    [normErr], [gateNormalizeErr], [lighterNormalizeErr], [asterNormalizeErr] and
    Nado's [normalize], in [exchange/internal/factoryclient]), and the SDKs'
    lists of replies that prove a command was refused ([sdk/binance], [sdk/bybit],
    [sdk/bitget], [sdk/gate]). *)

From Stdlib Require Import Ascii String ZArith Lia.
From stdpp Require Import base list strings gmap.
From S2P Require Import Prelude GoStrings Decimals Errors Model HttpErrors Sockets Clients.

#[local] Open Scope string_scope.
#[local] Open Scope list_scope.
#[local] Open Scope Z_scope.
#[local] Open Scope go_scope.

(** ** What an adapter observes of an SDK error *)

(** A decoded reply of the venue: the HTTP status it came with, its numeric code
    or its textual code or label, and its message. *)
Record api_error := mkAPI { ae_Status : Z; ae_Code : Z; ae_Label : string; ae_Message : string }.

(** The SDKs' own sentinels. *)
Inductive mark :=
| ErrAuthFailed | ErrWSOutcomeUnknown | ErrWSPreSend | ErrWSMalformedResponse | ErrExecutionRejected
| LighterMalformedResponse.
#[export] Instance mark_eq_dec : EqDecision mark.
Proof. solve_decision. Defined.

(** The error tree (contexts, HTTP statuses, local limits, JSON errors), its
    text, the sentinels [errors.Is] finds in it, and what [errors.As] finds: the
    code of the SDK's exchange error, the typed error of each venue and Lighter's
    HTTP status error. *)
Record sdk_error := mkSDK {
  sx_err : error; sx_text : string; sx_marks : list mark; sx_exchange : option string;
  sx_api : venue_api → option api_error; sx_status : option Z;
}.
Definition has_mark (m : mark) (s : sdk_error) : bool := bool_decide (m ∈ sx_marks s).
Definition canceled (s : sdk_error) : bool := errors_is (TSentinel ContextCanceled) (Some (sx_err s)).
Definition deadline (s : sdk_error) : bool := errors_is (TSentinel ContextDeadlineExceeded) (Some (sx_err s)).
Definition rate_limited (s : sdk_error) : bool := errors_is (TSentinel ErrRateLimited) (Some (sx_err s)).
(** [errors.As(err, &sdkErr) && errors.Is(err, sdkcore.ErrRateLimited)] *)
Definition exchange_rate_limit (s : sdk_error) : option string := if rate_limited s then sx_exchange s else None.

Definition venue_error (venue product operation : string) (kind : ErrorKind) (code message : string) : error :=
  NewError kind (mkDetails venue product operation code message 0 0 "" false).
(** The deferred [normalizeHTTPError] of a non-nil error. *)
Definition normalized (err : error) (s : sdk_error) (venue product operation : string) : error :=
  default err (normalizeHTTPError (D:=unit) (Some err) (Some (sx_err s)) venue product operation).

(** ** Replies that prove a refusal *)

Definition in_codes (code : Z) (codes : list Z) : bool := existsb (Z.eqb code) codes.

(** [sdk/binance/spot] *)
Definition spot_order_codes : list Z :=
  [
   (-1013); (-1014); (-1015); (-1020); (-1100); (-1101); (-1102); (-1103); (-1104); (-1105); (-1106); (-1108); (-1111); (-1112); (-1114);
   (-1115); (-1116); (-1117); (-1118); (-1119); (-1121); (-1128); (-1130); (-1134); (-1135); (-1145); (-2010); (-2011); (-2013); (-2016);
   (-2038); (-2039)].
Definition spot_isDefinitiveOrderErrorCode (code : Z) : bool := in_codes code spot_order_codes.
Definition definitive_400 (codes : Z → bool) (api : option api_error) : bool :=
  match api with
  | Some a =>
      if (ae_Code a =? 0) || is_empty (ae_Message a) then false
      else (ae_Status a =? 400) && codes (ae_Code a)
  | None => false
  end.
Definition spot_IsDefinitiveOrderRejection (s : sdk_error) : bool :=
  definitive_400 spot_isDefinitiveOrderErrorCode (sx_api s BinanceSpotAPI).

(** [sdk/binance/perp] *)
Definition perp_order_codes : list Z :=
  [
   (-1013); (-1014); (-1015); (-1020); (-1100); (-1101); (-1102); (-1103); (-1104); (-1105); (-1106); (-1111); (-1114); (-1115); (-1116);
   (-1117); (-1118); (-1119); (-1121); (-1128); (-1130); (-1136); (-2010); (-2011); (-2012); (-2013); (-2016); (-2018); (-2019); (-2020);
   (-2021); (-2022); (-2023); (-2024); (-2025); (-2026); (-2027); (-2028); (-4000); (-4001); (-4002); (-4003); (-4004); (-4005); (-4006);
   (-4007); (-4013); (-4014); (-4015); (-4016); (-4020); (-4022); (-4023); (-4024); (-4031); (-4032); (-4045); (-4058); (-4060); (-4061);
   (-4062); (-4087); (-4088); (-4104); (-4105); (-4106); (-4107); (-4109); (-4116); (-4117); (-4118); (-4120); (-4131); (-4135); (-4137);
   (-4138); (-4139); (-4140); (-4141); (-4142); (-4144); (-4164); (-4183); (-4184); (-4189); (-4192)].
Definition perp_isDefinitiveOrderErrorCode (code : Z) : bool := in_codes code perp_order_codes.
Definition perp_IsDefinitiveOrderRejection (s : sdk_error) : bool :=
  definitive_400 perp_isDefinitiveOrderErrorCode (sx_api s BinancePerpAPI).

(** A status after which a reply proves nothing. *)
Definition http_inconclusive (s : sdk_error) : bool :=
  match errors_as as_http (Some (sx_err s)) with
  | Some h => let status := he_StatusCode h in (500 <=? status) || (status =? 408) || (status =? 429) || (status =? 418)
  | None => false
  end.

(** [sdk/bybit] *)
Definition bybit_inconclusive_codes : list Z :=
  [
   (-1); 429; 10000; 10006; 10016; 10018; 10019; 10429; 30035; 40004; 110079; 110114; 170001; 170005; 170007; 170019; 170032; 170035;
   170146; 170147; 170191; 170212; 170222; 170234; 170310; 3400214].
Definition bybit_refusal_codes : list Z :=
  [
   (-2015); 33004; 10001; 10002; 10003; 10004; 10005; 10007; 10008; 10009; 10010; 10014; 10017; 10024; 10027; 10028; 10029; 100028; 30133;
   30134; 30135; 30136; 30208; 30209; 30228; 110001; 110003; 110004; 110005; 110006; 110007; 110008; 110009; 110010; 110011; 110012; 110013;
   110014; 110015; 110017; 110018; 110019; 110020; 110021; 110022; 110023; 110024; 110025; 110026; 110027; 110028; 110029; 110031; 110032;
   110033; 110034; 110035; 110036; 110037; 110038; 110039; 110040; 110041; 110042; 110043; 110044; 110045; 110046; 110047; 110048; 110049;
   110050; 110051; 110052; 110053; 110054; 110055; 110056; 110057; 110058; 110059; 110060; 110061; 110062; 110063; 110064; 110065; 110066;
   110067; 110068; 110069; 110070; 110071; 110072; 110073; 110074; 110076; 110077; 110078; 110080; 110082; 110083; 110085; 110086; 110087;
   110088; 110089; 110090; 110092; 110093; 110094; 110095; 110096; 110097; 110098; 110099; 110100; 110101; 110102; 110103; 110104; 110105;
   110106; 110107; 110108; 110109; 110110; 110111; 110112; 110113; 110115; 110116; 110117; 110118; 110119; 110120; 110121; 110123; 110124;
   110125; 110132; 110135; 110136; 110137; 170010; 170011; 170031; 170033; 170034; 170036; 170037; 170105; 170115; 170116; 170117; 170121;
   170124; 170130; 170131; 170132; 170133; 170134; 170136; 170137; 170139; 170140; 170141; 170142; 170143; 170144; 170145; 170148; 170149;
   170150; 170151; 170157; 170159; 170190; 170192; 170193; 170194; 170195; 170196; 170197; 170198; 170199; 170200; 170201; 170202; 170203;
   170204; 170206; 170207; 170209; 170210; 170213; 170215; 170216; 170217; 170218; 170219; 170220; 170221; 170223; 170224; 170226; 170227;
   170228; 170229; 170230; 170241; 170311; 170312; 170313; 170341; 170344; 170346; 170348; 170355; 170358; 170359; 170360; 170371; 170372;
   170381; 170382; 170709; 170810].
Definition bybit_IsDefinitiveCommandRejection (s : sdk_error) : bool :=
  if http_inconclusive s then false else
  match sx_api s BybitResponse with
  | Some a =>
      if ae_Code a =? 0 then false
      else if in_codes (ae_Code a) bybit_inconclusive_codes then false
      else in_codes (ae_Code a) bybit_refusal_codes
  | None => false
  end.

(** [sdk/bitget] *)
Definition bitget_inconclusive_codes : list string :=
  [
   "25000"; "25001"; "25003"; "25004"; "25102"; "25103"; "25106"; "25209"; "25239"; "25567"; "25572"; "25653"; "40010"; "40015"; "40200";
   "40725"; "40808"; "429"; "42900"; "45001"; "50000"].
Definition bitget_refusal_codes : list string :=
  [
   "25002"; "25005"; "25006"; "25007"; "25008"; "25009"; "25010"; "25011"; "25012"; "25100"; "25101"; "25104"; "25105"; "25107"; "25108";
   "25200"; "25201"; "25202"; "25203"; "25204"; "25205"; "25206"; "25207"; "25208"; "25210"; "25211"; "25212"; "25213"; "25214"; "25215";
   "25216"; "25217"; "25218"; "25219"; "25221"; "25222"; "25223"; "25224"; "25225"; "25226"; "25227"; "25228"; "25229"; "25230"; "25231";
   "25232"; "25233"; "25234"; "25235"; "25236"; "25237"; "25238"; "25240"; "25241"; "25242"; "25243"; "25244"; "25245"; "25568"; "25569";
   "25570"; "25571"; "25573"; "25574"; "25620"; "25654"; "25655"; "40000"; "40001"; "40002"; "40003"; "40005"; "40006"; "40007"; "40008";
   "40009"; "40011"; "40012"; "40013"; "40014"; "40016"; "40017"; "40018"; "40019"; "40020"; "40034"; "40042"; "40100"; "40101"; "40102";
   "40103"; "40104"; "40105"; "40109"; "40110"; "40111"; "40199"; "40301"; "40303"; "40304"; "40305"; "40306"; "40309"; "40402"; "40404";
   "40407"; "40408"; "40409"; "40704"; "40705"; "40706"; "40707"; "40710"; "40714"; "40715"; "40716"; "40717"; "40718"; "40719"; "40720";
   "40721"; "40722"; "40723"; "40724"; "40730"; "40732"; "40734"; "40744"; "40746"; "40931"; "41101"; "41117"; "41118"; "42072"; "43001";
   "43002"; "43003"; "43004"; "43005"; "43006"; "43007"; "43008"; "43009"; "43010"; "43012"; "43022"; "43027"; "43028"; "43112"; "43118";
   "95005"; "95006"; "95007"; "95008"].
Definition bitget_IsDefinitiveCommandRejection (s : sdk_error) : bool :=
  if http_inconclusive s then false else
  match sx_api s BitgetResponse with
  | Some a =>
      let code := TrimSpace (ae_Label a) in
      if is_empty code || String.eqb code "00000" then false
      else if one_of code bitget_inconclusive_codes then false
      else one_of code bitget_refusal_codes
  | None => false
  end.

(** [sdk/gate] *)
Definition gate_refusal_labels : list string :=
  [
   "INVALID_PARAM_VALUE"; "INVALID_PROTOCOL"; "INVALID_ARGUMENT"; "INVALID_REQUEST_BODY"; "MISSING_REQUIRED_PARAM"; "BAD_REQUEST";
   "INVALID_CONTENT_TYPE"; "NOT_ACCEPTABLE"; "METHOD_NOT_ALLOWED"; "NOT_FOUND"; "INVALID_CREDENTIALS"; "INVALID_KEY"; "IP_FORBIDDEN";
   "READ_ONLY"; "INVALID_SIGNATURE"; "MISSING_REQUIRED_HEADER"; "REQUEST_EXPIRED"; "ACCOUNT_LOCKED"; "FORBIDDEN"; "INVALID_CLIENT_ORDER_ID";
   "INVALID_PRECISION"; "INVALID_CURRENCY"; "INVALID_CURRENCY_PAIR"; "POC_FILL_IMMEDIATELY"; "ORDER_NOT_FOUND"; "ORDER_CLOSED";
   "ORDER_CANCELLED"; "QUANTITY_NOT_ENOUGH"; "BALANCE_NOT_ENOUGH"; "MARGIN_NOT_SUPPORTED"; "MARGIN_BALANCE_NOT_ENOUGH"; "AMOUNT_TOO_LITTLE";
   "AMOUNT_TOO_MUCH"; "TOO_MANY_CURRENCY_PAIRS"; "TOO_MANY_ORDERS"; "MIXED_ACCOUNT_TYPE"; "AUTO_BORROW_TOO_MUCH"; "TRADE_RESTRICTED";
   "FOK_NOT_FILL"; "INITIAL_MARGIN_TOO_LOW"; "ORDER_BOOK_NOT_FOUND"; "USER_NOT_FOUND"; "CONTRACT_NO_COUNTER"; "CONTRACT_NOT_FOUND";
   "RISK_LIMIT_EXCEEDED"; "INSUFFICIENT_AVAILABLE"; "LIQUIDATE_IMMEDIATELY"; "LEVERAGE_TOO_HIGH"; "LEVERAGE_TOO_LOW"; "ORDER_NOT_OWNED";
   "ORDER_FINISHED"; "POSITION_CROSS_MARGIN"; "POSITION_IN_LIQUIDATION"; "POSITION_IN_CLOSE"; "POSITION_EMPTY"; "REMOVE_TOO_MUCH";
   "RISK_LIMIT_NOT_MULTIPLE"; "RISK_LIMIT_TOO_HIGH"; "RISK_LIMIT_TOO_LOW"; "PRICE_TOO_DEVIATED"; "SIZE_TOO_LARGE"; "SIZE_TOO_SMALL";
   "PRICE_OVER_LIQUIDATION"; "PRICE_OVER_BANKRUPT"; "ORDER_POC_IMMEDIATE"; "INCREASE_POSITION"; "CONTRACT_IN_DELISTING";
   "POSITION_NOT_FOUND"; "POSITION_DUAL_MODE"; "ORDER_PENDING"; "POSITION_HOLDING"; "REDUCE_EXCEEDED"; "NO_CHANGE"; "AMEND_WITH_STOP";
   "ORDER_FOK"].
Definition isDocumentedDefinitiveCommandRejectionLabel (label : string) : bool := one_of label gate_refusal_labels.
Definition gate_IsDefinitiveCommandRejection (s : sdk_error) : bool :=
  match sx_api s GateAPI with
  | Some a =>
      if is_empty (ae_Label a) then false
      else if (ae_Status a <? 400) || (500 <=? ae_Status a) then false
      else if (ae_Status a =? 408) || (ae_Status a =? 425) || (ae_Status a =? 429) then false
      else isDocumentedDefinitiveCommandRejectionLabel (ToUpper (ae_Label a))
  | None => false
  end.

(** ** Binance *)

Section binance.
Context (operation : string).

Definition binanceSpotContextError (kind : ErrorKind) : error := venue_error VenueBinance ProductSpot operation kind "" "".
Definition binanceSpotInvalid (message : string) : error := venue_error VenueBinance ProductSpot operation KindInvalidRequest "" message.
Definition binanceSpotMalformed (message : string) : error := venue_error VenueBinance ProductSpot operation KindMalformedResponse "" message.
Definition binanceSpotIsTransport (s : sdk_error) : bool := Contains (sx_text s) "transport failed".
(** The failures the SDK marks as authentication or throttling. *)
Definition sdk_auth_or_limit (fail : ErrorKind → string → string → error) (s : sdk_error) : option error :=
  match sx_exchange s with
  | Some code =>
      if has_mark ErrAuthFailed s then Some (fail KindAuthentication code "authentication failed")
      else if rate_limited s then Some (fail KindRateLimit code "rate limited")
      else None
  | None => None
  end.
Definition spot_mapped (s : sdk_error) : error :=
  let fail := venue_error VenueBinance ProductSpot operation in
  if canceled s then binanceSpotContextError KindCanceled
  else if deadline s then binanceSpotContextError KindDeadlineExceeded
  else match sdk_auth_or_limit fail s with
  | Some err => err
  | None =>
      match sx_api s BinanceSpotAPI with
      | Some a =>
          let code := FormatInt (ae_Code a) in
          if 500 <=? ae_Status a then fail KindTransport code "venue server error"
          else if (ae_Code a =? -1121) || (ae_Code a =? -2013) || (ae_Status a =? 404) then fail KindNotFound code "not found"
          else fail KindVenueRejected code "venue rejected request"
      | None =>
          if Contains (sx_text s) "failed to unmarshal response" then binanceSpotMalformed "malformed venue response"
          else if binanceSpotIsTransport s then fail KindTransport "" "transport failed"
          else fail KindTransport "" "request failed"
      end
  end.
Definition binanceSpotNormalizeErr (s : sdk_error) : error := normalized (spot_mapped s) s VenueBinance ProductSpot operation.

Definition binancePerpContextError (s : sdk_error) : option error :=
  let fail := venue_error VenueBinance ProductPerp operation in
  if canceled s then Some (fail KindCanceled "" "context canceled")
  else if deadline s then Some (fail KindDeadlineExceeded "" "context deadline exceeded")
  else None.
Definition binancePerpInvalidRequest (message : string) : error := venue_error VenueBinance ProductPerp operation KindInvalidRequest "" message.
Definition binancePerpMalformed (message : string) : error := venue_error VenueBinance ProductPerp operation KindMalformedResponse "" message.
Definition perp_mapped (s : sdk_error) : error :=
  let fail := venue_error VenueBinance ProductPerp operation in
  match binancePerpContextError s with
  | Some err => err
  | None =>
      match sdk_auth_or_limit fail s with
      | Some err => err
      | None =>
          match sx_api s BinancePerpAPI with
          | Some a =>
              let code := FormatInt (ae_Code a) in
              if 500 <=? ae_Status a then fail KindTransport code "venue server error"
              else if (ae_Status a =? 401) || (ae_Status a =? 403) then fail KindAuthentication code "authentication failed"
              else if (ae_Status a =? 404) || (ae_Code a =? -2013) || (ae_Code a =? -1121) then fail KindNotFound code "not found"
              else fail KindVenueRejected code "binance usd-m perp api error"
          | None =>
              if Contains (sx_text s) "failed to unmarshal response" then binancePerpMalformed "malformed venue response"
              else fail KindTransport "" "binance usd-m perp transport failed"
          end
      end
  end.
Definition binancePerpNormalizeError (s : sdk_error) : error := normalized (perp_mapped s) s VenueBinance ProductPerp operation.
End binance.

(** ** OKX *)

Definition okxContextErr (product operation : string) (s : sdk_error) : option error :=
  let fail := venue_error VenueOKX product operation in
  if canceled s then Some (fail KindCanceled "" "context canceled")
  else if deadline s then Some (fail KindDeadlineExceeded "" "context deadline exceeded")
  else None.
Definition okxIsCredentialError (s : sdk_error) : bool := Contains (sx_text s) "credentials required".
Definition okxIsHTTPAuthError (s : sdk_error) : bool :=
  let message := ToLower (sx_text s) in Contains message "http error 401" || Contains message "http error 403".
Definition okxIsAuthCode (code : string) : bool :=
  one_of code ["50105"; "50111"; "50113"; "50119"; "50120"; "50121"; "50122"; "50123"].
Definition okx_mapped (product operation : string) (s : sdk_error) : error :=
  let fail := venue_error VenueOKX product operation in
  match okxContextErr product operation s with
  | Some err => err
  | None =>
      match exchange_rate_limit s with
      | Some code => fail KindRateLimit code "OKX rate limit"
      | None =>
          match sx_api s OKXAPI with
          | Some a =>
              if okxIsAuthCode (ae_Label a) then fail KindAuthentication (ae_Label a) "OKX authentication failed"
              else fail KindVenueRejected (ae_Label a) "OKX rejected request"
          | None =>
              if okxIsCredentialError s then fail KindAuthentication "" "OKX credentials required"
              else fail KindTransport "" "okx transport failed"
          end
      end
  end.
Definition okxNormalizeErr (product operation : string) (s : sdk_error) : error :=
  normalized (okx_mapped product operation s) s VenueOKX product operation.

(** ** Bybit and Bitget *)

Definition safeVenueFailure (venue : string) : string :=
  if is_empty venue then "venue rejected request" else venue +:+ " rejected request".
Definition classifyCode (code : string) : ErrorKind :=
  if one_of code ["401"; "-2015"; "33004"; "10003"; "10004"; "10007";
                  "40001"; "40002"; "40003"; "40005"; "40006"; "40009"; "40011"; "40012"] then KindAuthentication
  else if one_of code ["10005"; "10009"; "10010"; "40014"; "40018"; "40301"] then KindPermission
  else if one_of code ["10006"; "429"; "42900"] then KindRateLimit
  else if one_of code ["10001"; "40017"] then KindInvalidRequest
  else KindVenueRejected.
Definition norm_mapped (meta : clientMeta) (op : string) (s : sdk_error) : error :=
  let fail := venue_error (cm_venue meta) (cm_product meta) op in
  if canceled s then fail KindCanceled "" "request context ended"
  else if deadline s then fail KindDeadlineExceeded "" "request context ended"
  else match sx_api s BybitResponse with
  | Some a => fail (classifyCode (FormatInt (ae_Code a))) (FormatInt (ae_Code a)) (safeVenueFailure (cm_venue meta))
  | None =>
      match sx_api s BitgetResponse with
      | Some a => fail (classifyCode (ae_Label a)) (ae_Label a) (safeVenueFailure (cm_venue meta))
      | None => fail KindTransport "" "transport failure"
      end
  end.
Definition normErr (meta : clientMeta) (op : string) (s : sdk_error) : error :=
  normalized (norm_mapped meta op s) s (cm_venue meta) (cm_product meta) op.
Definition invalid (meta : clientMeta) (op msg : string) : error := venue_error (cm_venue meta) (cm_product meta) op KindInvalidRequest "" msg.
Definition malformed (meta : clientMeta) (op msg : string) : error := venue_error (cm_venue meta) (cm_product meta) op KindMalformedResponse "" msg.

(** ** Gate *)

Definition gate_status_kind (status : Z) : ErrorKind :=
  if status =? 401 then KindAuthentication
  else if status =? 403 then KindPermission
  else if status =? 404 then KindNotFound
  else if status =? 429 then KindRateLimit
  else KindVenueRejected.
Definition gate_mapped (meta : clientMeta) (operation : string) (s : sdk_error) : error :=
  let fail := venue_error (cm_venue meta) (cm_product meta) operation in
  if canceled s then fail KindCanceled "" "operation canceled"
  else if deadline s then fail KindDeadlineExceeded "" "operation deadline exceeded"
  else if is_present (errors_as as_exchange (Some (sx_err s))) then withExchangeOperation (sx_err s) operation
  else match sx_api s GateAPI with
  | Some a => fail (gate_status_kind (ae_Status a)) (ae_Label a) "gate request failed"
  | None => fail KindTransport "" "gate transport failed"
  end.
Definition gateNormalizeErr (meta : clientMeta) (operation : string) (s : sdk_error) : error :=
  normalized (gate_mapped meta operation s) s (cm_venue meta) (cm_product meta) operation.
Definition gateMalformed (meta : clientMeta) (operation message : string) : error :=
  venue_error (cm_venue meta) (cm_product meta) operation KindMalformedResponse "" message.

(** ** Lighter *)

Section lighter.
Context (product operation : string).
Let fail := venue_error VenueLighter product operation.

Definition lighterInvalid (msg : string) : error := venue_error VenueLighter product operation KindInvalidRequest "" msg.
Definition lighterMalformed (msg : string) : error := venue_error VenueLighter product operation KindMalformedResponse "" msg.
Definition lighterContextErr (s : sdk_error) : error :=
  if deadline s then fail KindDeadlineExceeded "" "context deadline exceeded" else fail KindCanceled "" "context canceled".
Definition lighterNormalizeStatus (status : Z) : error :=
  let code := FormatInt status in
  if (status =? 401) || (status =? 403) then fail KindAuthentication code "Lighter authentication failed"
  else if status =? 404 then fail KindNotFound code "Lighter resource not found"
  else if status =? 429 then fail KindRateLimit code "Lighter rate limit"
  else if 500 <=? status then fail KindTransport code "Lighter transport error"
  else if 400 <=? status then fail KindInvalidRequest code "Lighter request was rejected"
  else lighterMalformed "Lighter response code is malformed".
Definition lighter_text_kind (s : sdk_error) : error :=
  let msg := ToLower (sx_text s) in
  if Contains msg "http error 429" || Contains msg "rate limit" then fail KindRateLimit "" "Lighter rate limit"
  else if Contains msg "http error 401" || Contains msg "http error 403" || Contains msg "credentials required" ||
          Contains msg "authentication" || Contains msg "authorization" then fail KindAuthentication "" "Lighter authentication failed"
  else if Contains msg "http error 404" || Contains msg "not found" then fail KindNotFound "" "Lighter resource not found"
  else fail KindTransport "" "Lighter transport error".
Definition lighter_mapped (s : sdk_error) : error :=
  if canceled s || deadline s then lighterContextErr s
  else if has_mark LighterMalformedResponse s then lighterMalformed "Lighter response body is malformed"
  else match sx_status s with
  | Some status => lighterNormalizeStatus status
  | None =>
      match sx_api s LighterAPI with
      | Some a => lighterNormalizeStatus (ae_Code a)
      | None =>
          if is_present (errors_as as_json (Some (sx_err s))) then lighterMalformed "Lighter response body is malformed"
          else match exchange_rate_limit s with
          | Some code => fail KindRateLimit code "Lighter rate limit"
          | None => lighter_text_kind s
          end
      end
  end.
Definition lighterNormalizeErr (s : sdk_error) : error := normalized (lighter_mapped s) s VenueLighter product operation.
End lighter.

(** ** Aster and Nado *)

Definition asterErr (product operation : string) (kind : ErrorKind) (msg : string) : error := venue_error VenueAster product operation kind "" msg.
Definition asterMalformed (product operation msg : string) : error := asterErr product operation KindMalformedResponse msg.
Definition aster_mapped (product operation : string) (s : sdk_error) : error :=
  if canceled s then asterErr product operation KindCanceled "request canceled"
  else if deadline s then asterErr product operation KindDeadlineExceeded "request deadline exceeded"
  else match sx_api s AsterVenue with
  | Some a =>
      if 500 <=? ae_Status a then asterErr product operation KindTransport "Aster upstream is unavailable"
      else venue_error VenueAster product operation KindVenueRejected (FormatInt (ae_Code a)) "Aster rejected the request"
  | None => asterErr product operation KindTransport "Aster request failed"
  end.
Definition asterNormalizeErr (product operation : string) (s : sdk_error) : error :=
  normalized (aster_mapped product operation s) s VenueAster product operation.

Definition nado_err (product operation : string) (kind : ErrorKind) (msg : string) : error := venue_error VenueNado product operation kind "" msg.
Definition nado_mapped (product operation : string) (s : sdk_error) : error :=
  if canceled s then nado_err product operation KindCanceled "request canceled"
  else if deadline s then nado_err product operation KindDeadlineExceeded "request deadline exceeded"
  else nado_err product operation KindTransport "Nado request failed".
Definition nado_normalize (product operation : string) (s : sdk_error) : error :=
  normalized (nado_mapped product operation s) s VenueNado product operation.
