(* ===== verification/Commands.v ===== *)
(** * Order commands at the venues

    What a venue adapter reports after an order command failed or was answered:
    [binanceSpotCommandAck], [binancePerpCommandErrorAck],
    [okxCommandTransportAck] and [okxCommandAck], [commandAck] (Bybit and Bitget)
    with the SDKs' checks of a successful reply, [gateCommandErr],
    [lighterCommandErr] and [lighterCommandAck], [asterCommandAck] and Nado's
    [mutationError]; and what the gateway makes of it ([Orders.classify]). *)

From Stdlib Require Import Ascii String ZArith Lia.
From stdpp Require Import base list strings gmap.
From S2P Require Import Prelude GoStrings Decimals Errors Model HttpErrors Orders Sockets Clients VenueErrors.

#[local] Open Scope string_scope.
#[local] Open Scope list_scope.
#[local] Open Scope Z_scope.
#[local] Open Scope go_scope.

Section commands.
Context `{Decimal D}.
Implicit Types (ack : OrderAcknowledgement D) (instrument : Instrument D) (s : sdk_error).
(** The named results of a command. *)
Local Notation reply := (OrderAcknowledgement D * option error)%type.

(** The deferred [normalizeHTTPCommand]. *)
Definition settle (r : reply) s (venue product operation : string) : reply :=
  normalizeHTTPCommand r.1 r.2 (Some (sx_err s)) venue product operation.
Definition set_ack (ack : OrderAcknowledgement D) (state code message : string) : OrderAcknowledgement D :=
  mkAck (ack_Venue ack) (ack_Product ack) (ack_Operation ack) state (ack_NativeSymbol ack) (ack_NativeID ack) (ack_OrderType ack) (ack_OrderID ack)
    (ack_ClientOrderID ack) (ack_TransactionHash ack) (ack_FilledQuantity ack) (ack_AverageFillPrice ack) code message.
Definition command_ack (venue product op state native nativeID orderID clientID : string) : OrderAcknowledgement D :=
  mkAck venue product op state native nativeID "" orderID clientID "" d_zero no_decimal "" "".
(** [if err := ack.Validate(); err != nil { return {}, err }] *)
Definition validated (ack : OrderAcknowledgement D) (err : error) : reply :=
  match Ack_Validate ack with Ok _ => (ack, Some err) | Err e => (no_ack, Some e) end.
Definition native_of instrument : string := id_NativeSymbol (in_Identity instrument).
Definition native_id_of instrument : string := id_NativeID (in_Identity instrument).

(** ** Binance *)

Definition spot_reply instrument (operation operationName orderID clientOrderID : string) s : reply :=
  let ack := command_ack VenueBinance ProductSpot operation AckAmbiguous (native_of instrument) "" orderID clientOrderID in
  let fail := venue_error VenueBinance ProductSpot operationName in
  match sx_api s BinanceSpotAPI, spot_IsDefinitiveOrderRejection s with
  | Some a, true =>
      let code := FormatInt (ae_Code a) in
      validated (set_ack ack AckRejected code "venue rejected request") (fail KindVenueRejected code "venue rejected request")
  | _, _ =>
      if has_mark ErrWSOutcomeUnknown s || binanceSpotIsTransport s
      then validated (set_ack ack AckAmbiguous "" "transport outcome unknown") (fail KindAmbiguousOutcome "" "transport outcome unknown")
      else (no_ack, Some (binanceSpotNormalizeErr operationName s))
  end.
Definition binanceSpotCommandAck instrument (operation operationName orderID clientOrderID : string) s : reply :=
  settle (spot_reply instrument operation operationName orderID clientOrderID s) s VenueBinance ProductSpot operationName.

Definition binancePerpIsKnownResponseError s : bool :=
  is_present (sx_api s BinancePerpAPI) || is_present (sx_exchange s) || Contains (sx_text s) "failed to unmarshal response".
Definition binancePerpIsPreSendTransport s : bool :=
  Contains (sx_text s) "websocket not connected" || Contains (sx_text s) "connection is not established".
Definition perp_reply (operation : string) ack s : reply :=
  let fail := venue_error VenueBinance ProductPerp operation in
  match sx_api s BinancePerpAPI, perp_IsDefinitiveOrderRejection s with
  | Some a, true =>
      let code := FormatInt (ae_Code a) in
      (set_ack ack AckRejected code "venue rejected order command", Some (fail KindVenueRejected code "venue rejected order command"))
  | _, _ =>
      if binancePerpIsKnownResponseError s then (no_ack, Some (binancePerpNormalizeError operation s))
      else if binancePerpIsPreSendTransport s then (no_ack, Some (binancePerpNormalizeError operation s))
      else (set_ack_state ack AckAmbiguous, Some (fail KindAmbiguousOutcome "" unknown_outcome))
  end.
Definition binancePerpCommandErrorAck (operation : string) ack s : reply :=
  settle (perp_reply operation ack s) s VenueBinance ProductPerp operation.

(** ** OKX *)

(** [okxCommandOperation] and [lighterCommandOperation] *)
Definition commandOperation (operation : string) : string :=
  if String.eqb operation OrderOperationPlace then "PlaceOrder"
  else if String.eqb operation OrderOperationCancel then "CancelOrder"
  else operation.
Definition okxBaseAck (product op : string) instrument (orderID clientOrderID : string) : OrderAcknowledgement D :=
  command_ack VenueOKX product op "" (native_of instrument) (native_id_of instrument) orderID clientOrderID.
Definition okxMalformed (product operation message : string) : error := venue_error VenueOKX product operation KindMalformedResponse "" message.

(** The row of a command's answer *)
Record okx_OrderId := mkOrderId { oi_OrdId : string; oi_ClOrdId : string; oi_SCode : string }.
Definition okxCommandAck (product operation op : string) instrument (requestOrderID requestClientOrderID : string) (rows : list okx_OrderId) : reply :=
  let fail := λ message, (no_ack, Some (okxMalformed product operation message)) in
  match rows with
  | [row] =>
      let ack := okxBaseAck product op instrument (oi_OrdId row) (oi_ClOrdId row) in
      if is_empty (oi_SCode row) then fail "order command item missing sCode"
      else if negb (String.eqb (oi_SCode row) "0") then
        validated (set_ack ack AckRejected (oi_SCode row) "OKX rejected order command")
          (venue_error VenueOKX product operation KindVenueRejected (oi_SCode row) "OKX rejected order command")
      else if negb (is_empty requestOrderID) && negb (String.eqb (oi_OrdId row) requestOrderID)
      then fail "order command response order id mismatch"
      else if negb (is_empty requestClientOrderID) && negb (String.eqb (oi_ClOrdId row) requestClientOrderID)
      then fail "order command response client order id mismatch"
      else match Ack_Validate (set_ack_state ack AckAcceptedPending) with
           | Ok _ => (set_ack_state ack AckAcceptedPending, None)
           | Err e => (no_ack, Some e)
           end
  | _ => fail "order command response must contain exactly one item"
  end.

Definition okx_reply (product op : string) instrument (orderID clientOrderID : string) s : reply :=
  let ack := set_ack_state (okxBaseAck product op instrument orderID clientOrderID) AckAmbiguous in
  let fail := venue_error VenueOKX product (commandOperation op) in
  let unknown := (ack, Some (fail KindAmbiguousOutcome "" unknown_outcome)) in
  if has_mark ErrWSPreSend s then (no_ack, Some (fail KindTransport "" "OKX websocket command was not sent"))
  else if has_mark ErrWSOutcomeUnknown s then unknown
  else if has_mark ErrWSMalformedResponse s then (no_ack, Some (fail KindMalformedResponse "" "OKX websocket command response was malformed"))
  else match exchange_rate_limit s with
  | Some code => (no_ack, Some (fail KindRateLimit code "OKX rate limit"))
  | None =>
      match sx_api s OKXAPI with
      | Some a =>
          if okxIsAuthCode (ae_Label a) then (no_ack, Some (fail KindAuthentication (ae_Label a) "OKX authentication failed"))
          else (set_ack ack AckRejected (ae_Label a) "OKX rejected order command",
                Some (fail KindVenueRejected (ae_Label a) "OKX rejected order command"))
      | None =>
          if okxIsCredentialError s then (no_ack, Some (fail KindAuthentication "" "OKX credentials required"))
          else if okxIsHTTPAuthError s then (no_ack, Some (fail KindAuthentication "" "OKX authentication failed"))
          else unknown
      end
  end.
Definition okxCommandTransportAck (product op : string) instrument (orderID clientOrderID : string) s : reply :=
  settle (okx_reply product op instrument orderID clientOrderID s) s VenueOKX product (commandOperation op).

(** ** Bybit and Bitget *)

Definition baseAck (meta : clientMeta) (op nativeSymbol orderID clientID : string) : OrderAcknowledgement D :=
  command_ack (cm_venue meta) (cm_product meta) op AckAcceptedPending nativeSymbol "" orderID clientID.
Definition command_reply (meta : clientMeta) (operation kind native orderID clientID : string) s : reply :=
  let ack := set_ack_state (baseAck meta kind native orderID clientID) AckAmbiguous in
  if bybit_IsDefinitiveCommandRejection s || bitget_IsDefinitiveCommandRejection s then
    let code := match sx_api s BybitResponse with Some a => FormatInt (ae_Code a) | None => ack_VenueCode ack end in
    let code := match sx_api s BitgetResponse with Some a => ae_Label a | None => code end in
    (set_ack ack AckRejected code (cm_venue meta +:+ " rejected order command"), None)
  else (ack, Some (normErr meta operation s)).
Definition commandAck (meta : clientMeta) (operation kind native orderID clientID : string) s : reply :=
  settle (command_reply meta operation kind native orderID clientID s) s (cm_venue meta) (cm_product meta) operation.

(** The SDKs' checks of a command's answer: [commandResult] and
    [validateOrderActionResult]; [None] is a missing member. *)
Definition bybit_commandResult {T} (operation : string) (retCode : option Z) (retMsg : string) (res : option T) : result (string + api_error) T :=
  match retCode with
  | None => Err (inl ("bybit sdk: " +:+ operation +:+ " returned a partial response without retCode"))
  | Some code =>
      check code =? 0 else inr (mkAPI 0 code "" retMsg) ;;
      match res with
      | None => Err (inl ("bybit sdk: " +:+ operation +:+ " returned a partial response without result"))
      | Some r => Ok r
      end
  end.
Definition bitget_commandResult {T} (operation : string) (code : option string) (msg : string) (data : option T) : result (string + api_error) T :=
  match code with
  | None => Err (inl ("bitget sdk: " +:+ operation +:+ " returned a partial response without code"))
  | Some code =>
      check String.eqb code "00000" else inr (mkAPI 0 0 code msg) ;;
      match data with
      | None => Err (inl ("bitget sdk: " +:+ operation +:+ " returned a partial response without data"))
      | Some r => Ok r
      end
  end.
(** [id_name] is the SDK's word for the client order id. *)
Definition validateOrderActionResult (sdk operation id_name orderID clientID expectedOrderID expectedClientID : string) (quote : string → string) : result string unit :=
  check negb (is_empty orderID) else (sdk +:+ " sdk: " +:+ operation +:+ " returned a partial response without order id") ;;
  check negb (negb (is_empty expectedOrderID) && negb (String.eqb orderID expectedOrderID))
    else (sdk +:+ " sdk: " +:+ operation +:+ " returned mismatched order id " +:+ quote orderID +:+ " for " +:+ quote expectedOrderID) ;;
  check negb (negb (is_empty expectedClientID) && negb (is_empty clientID) && negb (String.eqb clientID expectedClientID))
    else (sdk +:+ " sdk: " +:+ operation +:+ " returned mismatched " +:+ id_name +:+ " " +:+ quote clientID +:+ " for " +:+ quote expectedClientID) ;;
  Ok tt.
Definition isOrderActionMalformed (message : string) : bool :=
  Contains message "returned a partial response" || Contains message "returned mismatched order id" ||
  Contains message "returned mismatched order link id" || Contains message "returned mismatched client order id".
Definition validateSuccessfulOrderAction (meta : clientMeta) (operation kind nativeSymbol expectedOrderID expectedClientID orderID clientID : string)
  : result error unit :=
  check negb (is_empty (TrimSpace orderID)) else malformed meta operation "successful order acknowledgement is missing order id" ;;
  check negb (String.eqb kind OrderOperationCancel && negb (is_empty expectedOrderID) && negb (String.eqb orderID expectedOrderID))
    else malformed meta operation "successful cancel acknowledgement order id mismatch" ;;
  check negb (String.eqb kind OrderOperationPlace && negb (is_empty expectedClientID) && negb (String.eqb clientID expectedClientID))
    else malformed meta operation "successful place acknowledgement client order id mismatch" ;;
  check negb (is_empty (TrimSpace nativeSymbol)) else malformed meta operation "successful order acknowledgement is missing native symbol" ;;
  Ok tt.

(** ** Gate *)

Definition gateCommandMetadataMismatch s : bool :=
  Contains (sx_text s) "returned mismatched currency pair" || Contains (sx_text s) "returned mismatched contract".
Definition gate_reply (meta : clientMeta) (operation : string) instrument (orderID clientID : string) s : reply :=
  let ack := command_ack (cm_venue meta) (cm_product meta) operation AckAmbiguous (native_of instrument) (native_id_of instrument) orderID clientID in
  if gateCommandMetadataMismatch s
  then (ack, Some (catalogMetadataResolution meta operation "gate command response identity does not match requested instrument"))
  else if gate_IsDefinitiveCommandRejection s
  then (set_ack ack AckRejected "" "gate rejected command", Some (gateNormalizeErr meta operation s))
  else (ack, Some (venue_error (cm_venue meta) (cm_product meta) operation KindAmbiguousOutcome "" "gate command outcome is ambiguous")).
Definition gateCommandErr (meta : clientMeta) (operation : string) instrument (orderID clientID : string) s : reply :=
  settle (gate_reply meta operation instrument orderID clientID s) s (cm_venue meta) (cm_product meta) operation.
Definition gateWriteErr (meta : clientMeta) (operation : string) s : error :=
  let fail := venue_error (cm_venue meta) (cm_product meta) operation in
  let err :=
    if gate_IsDefinitiveCommandRejection s then gateNormalizeErr meta operation s
    else if canceled s then fail KindCanceled "" "operation canceled"
    else if deadline s then fail KindAmbiguousOutcome "" "gate command outcome is ambiguous after deadline"
    else fail KindAmbiguousOutcome "" "gate command outcome is ambiguous" in
  normalized err s (cm_venue meta) (cm_product meta) operation.

(** ** Lighter *)

(** The tracker's [snapshot]: whether the request was begun, and the status of
    the answer (0 for none). *)
Definition tracked (tracker : option (bool * Z)) : bool * Z := default (false, 0) tracker.
(** With the [InvalidateNonce] calls: [true] when the SDK, if there is one, is
    told to fetch its nonce again. *)
Definition lighterCommandAck (product operation op : string) instrument (orderID clientOrderID : string) (code : Z) (txHash : string) : reply * bool :=
  let txHash := TrimSpace txHash in
  let text := FormatInt code in
  let ack := λ state message,
    mkAck VenueLighter product op state (native_of instrument) (native_id_of instrument) "" orderID clientOrderID txHash d_zero no_decimal text message in
  let fail := venue_error VenueLighter product operation in
  if (code =? 200) && negb (is_empty txHash) then
    ((ack AckAcceptedPending "", match Ack_Validate (ack AckAcceptedPending "") with Ok _ => None | Err e => Some e end), false)
  else if 500 <=? code then (validated (ack AckAmbiguous "") (fail KindAmbiguousOutcome text unknown_outcome), false)
  else if code <=? 0 then ((no_ack, Some (lighterMalformed product operation "Lighter command response code is invalid")), false)
  else if code =? 200 then ((no_ack, Some (lighterMalformed product operation "accepted Lighter command response missing transaction hash")), false)
  else (validated (ack AckRejected "Lighter rejected order command") (fail KindVenueRejected text "Lighter rejected order command"), true).

Definition lighter_reply (product op : string) instrument (orderID clientOrderID : string) s (tracker : option (bool * Z)) : reply * bool :=
  let operation := commandOperation op in
  let ack := command_ack VenueLighter product op AckAmbiguous (native_of instrument) (native_id_of instrument) orderID clientOrderID in
  let fail := venue_error VenueLighter product operation in
  let '(began, status) := tracked tracker in
  let none := λ err, (no_ack, Some err) in
  let unknown := λ code, (ack, Some (fail KindAmbiguousOutcome code unknown_outcome)) in
  let rejected := λ code, set_ack ack AckRejected code "Lighter rejected order command" in
  let refusal := λ code, fail KindVenueRejected code "Lighter rejected order command" in
  if canceled s || deadline s then
    (if began then unknown "" else none (lighterContextErr product operation s), false)
  else if status =? 429 then (none (fail KindRateLimit (FormatInt status) "Lighter rate limit"), began)
  else if (status =? 401) || (status =? 403) then (none (fail KindAuthentication (FormatInt status) "Lighter authentication failed"), began)
  else if status =? 404 then (none (fail KindNotFound (FormatInt status) "Lighter resource not found"), began)
  else if 500 <=? status then
    (if began then unknown (FormatInt status) else none (lighterNormalizeErr product operation s), false)
  else if 400 <=? status then
    (if began then (validated (rejected (FormatInt status)) (refusal (FormatInt status)), true)
     else (none (lighterNormalizeErr product operation s), false))
  else match exchange_rate_limit s with
  | Some code => (none (fail KindRateLimit code "Lighter rate limit"), false)
  | None =>
      match sx_api s LighterAPI with
      | Some a =>
          let code := ae_Code a in
          if code <=? 0 then (none (lighterMalformed product operation "Lighter API error code is invalid"), false)
          else if code =? 429 then (none (fail KindRateLimit (FormatInt code) "Lighter rate limit"), false)
          else if (code =? 401) || (code =? 403) then (none (fail KindAuthentication (FormatInt code) "Lighter authentication failed"), false)
          else if 500 <=? code then (unknown (FormatInt code), false)
          else ((rejected (FormatInt code), Some (refusal (FormatInt code))), true)
      | None =>
          if began then (unknown "", false) else (none (lighterNormalizeErr product operation s), false)
      end
  end.
Definition lighterCommandErr (product op : string) instrument (orderID clientOrderID : string) s (tracker : option (bool * Z)) : reply * bool :=
  let '(r, invalidated) := lighter_reply product op instrument orderID clientOrderID s tracker in
  (settle r s VenueLighter product (commandOperation op), invalidated).

(** ** Aster and Nado *)

Definition aster_reply (product op native orderID clientID : string) s : reply :=
  let ack := command_ack VenueAster product op AckAmbiguous native "" orderID clientID in
  match sx_api s AsterVenue with
  | Some a =>
      let code := FormatInt (ae_Code a) in
      (set_ack ack AckRejected code "Aster rejected order command",
       Some (venue_error VenueAster product op KindVenueRejected code "Aster rejected order command"))
  | None => (set_ack ack AckAmbiguous "" unknown_outcome, Some (venue_error VenueAster product op KindAmbiguousOutcome "" unknown_outcome))
  end.
Definition asterCommandAck (product op native orderID clientID : string) s : reply :=
  settle (aster_reply product op native orderID clientID s) s VenueAster product op.

(** [mutationError] updates the acknowledgement it is given. *)
Definition nado_reply (product operation : string) ack s : reply :=
  let code := match sx_api s NadoApplication with
              | Some a => if negb (ae_Code a =? 0) then FormatInt (ae_Code a) else ack_VenueCode ack
              | None => ack_VenueCode ack
              end in
  if is_present (sx_api s NadoApplication) && has_mark ErrExecutionRejected s
  then (set_ack ack AckRejected code "Nado rejected order command",
        Some (venue_error VenueNado product operation KindVenueRejected code "Nado rejected order command"))
  else (set_ack ack AckAmbiguous code unknown_outcome,
        Some (venue_error VenueNado product operation KindAmbiguousOutcome code unknown_outcome)).
Definition mutationError (product operation : string) ack s : reply := settle (nado_reply product operation ack s) s VenueNado product operation.
End commands.

(** ** What normalization keeps *)

Definition not_sent (s : sdk_error) : Prop := is_Some (errors_as as_local (Some (sx_err s))).
(** The HTTP answer, if there was one, is not a server failure, timeout or rate
    limit. *)
Definition quiet (s : sdk_error) : Prop :=
  match errors_as as_http (Some (sx_err s)) with Some h => may_have_executed (he_StatusCode h) = false | None => True end.
(** The kinds the gateway takes as a refusal. *)
Definition refusing (k : ErrorKind) : bool :=
  match k with
  | KindVenueRejected | KindAuthentication | KindPermission | KindInvalidRequest | KindUnsupported | KindInvalidConfig | KindRateLimit => true
  | _ => false
  end.
(** The kind after normalization, of a request that was sent and answered
    quietly, if at all. *)
Definition normalizes (s : sdk_error) (k k' : ErrorKind) : Prop :=
  k' = k ∨ k ≠ KindAmbiguousOutcome ∧ (k' = KindMalformedResponse ∨ k' = KindRateLimit ∧ rate_limited s = true).

Lemma unless_ambiguous_kind k k' : unless_ambiguous k k' = k ∨ k ≠ KindAmbiguousOutcome ∧ unless_ambiguous k k' = k'.
Proof. unfold unless_ambiguous. case_decide; auto. Qed.
Lemma normalizes_trans s k k' k'' : normalizes s k k' → normalizes s k' k'' → normalizes s k k''.
Proof. unfold normalizes. naive_solver. Qed.

Lemma malformed_pass_kind original k d :
  ∃ k' d', malformed_pass original (k, d) = (k', d') ∧ det_CommandNotSent d' = det_CommandNotSent d ∧
           (k' = k ∨ k ≠ KindAmbiguousOutcome ∧ k' = KindMalformedResponse).
Proof.
  unfold malformed_pass. destruct (malformed_original original); [|by eexists _, _; split; [|auto]].
  eexists _, _. split; [done|]. split; [done|apply unless_ambiguous_kind].
Qed.
Lemma http_pass_quiet s k d :
  quiet s → ∃ d', http_pass (Some (sx_err s)) (k, d) = (k, d') ∧ det_CommandNotSent d' = det_CommandNotSent d.
Proof.
  unfold quiet, http_pass. destruct (errors_as as_http _) as [h|]; [|by eauto].
  unfold may_have_executed. rewrite !orb_false_iff. intros [[-> ->] ->]. simpl. by eauto.
Qed.
Lemma rate_limit_pass_kind s k d :
  ∃ k' d', rate_limit_pass (Some (sx_err s)) (k, d) = (k', d') ∧ det_CommandNotSent d' = det_CommandNotSent d ∧ normalizes s k k'.
Proof.
  unfold rate_limit_pass. fold (rate_limited s). destruct (rate_limited s) eqn:Hr; cbn [andb]; [|by eexists _, _; split; [|split; [|left]]].
  case_bool_decide as Hk; cbn [negb andb]; [by eexists _, _; split; [|split; [|left]]|].
  destruct (_ <? _); eexists _, _; (split; [done|]); split; [done| |done|by left]. right. unfold normalizes. auto.
Qed.

Lemma passes_kind s operation k d :
  ¬ not_sent s → quiet s →
  ∃ k' d', local_pass operation (Some (sx_err s)) (rate_limit_pass (Some (sx_err s)) (http_pass (Some (sx_err s)) (malformed_pass (Some (sx_err s)) (k, d))))
             = (k', d') ∧ det_CommandNotSent d' = det_CommandNotSent d ∧ normalizes s k k'.
Proof.
  intros Hl Hq. destruct (malformed_pass_kind (Some (sx_err s)) k d) as (k1 & d1 & -> & Hn1 & Hk1).
  destruct (http_pass_quiet s k1 d1 Hq) as (d2 & -> & Hn2).
  destruct (rate_limit_pass_kind s k1 d2) as (k3 & d3 & -> & Hn3 & Hk3).
  unfold local_pass. destruct (errors_as as_local _) as [x|] eqn:E; [by destruct Hl; exists x|].
  exists k3, d3. split; [done|]. split; [congruence|]. eapply normalizes_trans; [|done].
  unfold normalizes. naive_solver.
Qed.

Lemma withVenueMessage_kind {D} k d (ack : option (OrderAcknowledgement D)) original :
  ∃ d' ack', withVenueMessage (Some (NewError k d)) ack original = (Some (NewError k d'), ack') ∧
             det_CommandNotSent d' = det_CommandNotSent d ∧ (λ a, ack_State a) <$> ack' = (λ a, ack_State a) <$> ack.
Proof.
  unfold withVenueMessage. destruct (is_empty _); [by eauto|]. cbn [errors_as first_some subtree mbind option_bind as_exchange NewError].
  destruct (definitive k); cbn [negb]; [|by eauto]. destruct (inconclusive_status _); [by eauto|].
  eexists _, _. split; [done|]. split; [done|]. destruct ack as [a|]; [|done]. by destruct (String.eqb _ _).
Qed.

(** An error that was normalized already. *)
Definition settled_error (s : sdk_error) (k : ErrorKind) (e : error) : Prop :=
  ∃ k' d, e = NewError k' d ∧ det_CommandNotSent d = false ∧ normalizes s k k'.

Lemma venue_error_settled s venue product operation k code message : settled_error s k (venue_error venue product operation k code message).
Proof. eexists _, _. split; [done|]. split; [done|by left]. Qed.

Lemma normalizeHTTPError_settled {D} s k e venue product operation :
  ¬ not_sent s → quiet s → settled_error s k e →
  ∃ e', normalizeHTTPError (D:=D) (Some e) (Some (sx_err s)) venue product operation = Some e' ∧ settled_error s k e'.
Proof.
  intros Hl Hq (k1 & d1 & -> & Hn & Hk). unfold normalizeHTTPError.
  change (errors_as as_exchange (Some (NewError k1 d1))) with (Some (k1, d1)). cbv iota.
  destruct (passes_kind s operation k1 d1 Hl Hq) as (k2 & d2 & -> & Hn2 & Hk2).
  match goal with |- context [withVenueMessage (Some (NewError k2 ?d)) ?a ?o] =>
    destruct (withVenueMessage_kind k2 d a o) as (d3 & ack' & -> & Hn3 & _) end.
  eexists. split; [done|]. exists k2, d3. split; [done|]. split; [simpl in Hn3; congruence|]. by eapply normalizes_trans.
Qed.
Lemma normalized_settled s k e venue product operation :
  ¬ not_sent s → quiet s → settled_error s k e → settled_error s k (normalized e s venue product operation).
Proof.
  intros Hl Hq He. unfold normalized.
  by destruct (normalizeHTTPError_settled (D:=unit) s k e venue product operation Hl Hq He) as (e' & -> & ?).
Qed.

Section refusals.
Context `{Decimal D}.
Implicit Types (ack : OrderAcknowledgement D) (instrument : Instrument D) (s : sdk_error).

Lemma refused_kind ack k d :
  refused ack (Some (NewError k d)) → det_CommandNotSent d = true ∨ ack_State ack = AckRejected ∨ refusing k = true.
Proof.
  inversion 1 as [e' k' d' E Hn|err Ha|e' k' Hk He|e' k1 k' d' E Hz Hk He]; subst; [injection E as <- <-; auto|auto| |];
    rewrite errors_is_kind in He; apply bool_decide_eq_true in He as ->; simpl in Hk; destruct_or? Hk; subst; auto; done.
Qed.

(** A refusal that survives the normalization of a command was in the
    adapter's reply, unless the request was never sent. *)
Lemma settle_refused ack e k s venue product operation :
  (¬ not_sent s → quiet s → settled_error s k e) →
  refused (settle (ack, Some e) s venue product operation).1 (settle (ack, Some e) s venue product operation).2 →
  not_sent s ∨ quiet s ∧ (ack_State ack = AckRejected ∨ ∃ k', normalizes s k k' ∧ refusing k' = true).
Proof.
  intros He. destruct (errors_as as_local (Some (sx_err s))) as [x|] eqn:El; [by left; exists x|].
  assert (Hl : ¬ not_sent s) by (unfold not_sent; rewrite El; by intros []).
  unfold settle. cbn [fst snd]. intros Hr. right.
  assert (Hq : quiet s).
  { unfold quiet. destruct (errors_as as_http (Some (sx_err s))) as [h|] eqn:Eh; [|done].
    destruct (may_have_executed (he_StatusCode h)) eqn:Hm; [|done].
    destruct (normalizeHTTPCommand_ambiguous ack (Some e) (Some (sx_err s)) h venue product operation Eh Hm El) as (d & Herr & Hn & _ & Ha).
    rewrite Herr in Hr. apply refused_kind in Hr as [?|[Hx|?]]; [congruence|by rewrite Ha in Hx|done]. }
  split; [done|]. unfold normalizeHTTPCommand in Hr. specialize (He Hl Hq).
  destruct (normalizeHTTPError_settled (D:=D) s k e venue product operation Hl Hq He) as (e' & Hn & k' & d & -> & Hd & Hk).
  assert (Hrefused : ∀ d' ack', ack_State ack' = ack_State ack → det_CommandNotSent d' = false →
    refused ack' (Some (NewError k' d')) → ack_State ack = AckRejected ∨ ∃ k', normalizes s k k' ∧ refusing k' = true).
  { intros d' ack' Ha Hd' [?|[?|?]]%refused_kind; [congruence|left; congruence|right; eauto]. }
  unfold quiet in Hq.
  destruct (errors_as as_http (Some (sx_err s))) as [h|]; [unfold may_have_executed in Hq; rewrite Hq in Hr|]; rewrite Hn in Hr;
    destruct (withVenueMessage_kind k' d (Some ack) (Some (sx_err s))) as (d3 & [a'|] & E & Hn3 & [= Ha]); rewrite E in Hr;
    cbn [fst snd default] in Hr; (apply (Hrefused d3 a' Ha); [congruence|done]).
Qed.

(** The replies that say nothing: ambiguous, or lost. *)
Lemma settle_ambiguous ack s venue product operation code message v p o :
  ack_State ack ≠ AckRejected →
  refused (settle (ack, Some (venue_error v p o KindAmbiguousOutcome code message)) s venue product operation).1
          (settle (ack, Some (venue_error v p o KindAmbiguousOutcome code message)) s venue product operation).2 →
  not_sent s.
Proof.
  intros Ha Hr. apply settle_refused with (k := KindAmbiguousOutcome) in Hr; [|intros _ _; apply venue_error_settled].
  destruct Hr as [?|[_ [?|(k' & [->|[? _]] & Hk)]]]; done.
Qed.
(** A kind that does not claim a refusal becomes one only by throttling. *)
Lemma settle_unrefusing ack e k s venue product operation :
  ack_State ack ≠ AckRejected → refusing k = false → (¬ not_sent s → quiet s → settled_error s k e) →
  refused (settle (ack, Some e) s venue product operation).1 (settle (ack, Some e) s venue product operation).2 →
  not_sent s ∨ rate_limited s = true.
Proof.
  intros Ha Hf He Hr. apply settle_refused with (k := k) in Hr; [|done].
  destruct Hr as [?|[_ [?|(k' & [->|[_ [->|[-> ?]]]] & Hk)]]]; [by left|done|congruence|done|by right].
Qed.

(** ** Every refusal has evidence *)

(** Answers that the venues document as leaving open whether a command took
    effect: timeouts, disconnections, internal errors and overload. *)
Definition left_open (api : venue_api) (a : api_error) : bool :=
  match api with
  | BinanceSpotAPI | BinancePerpAPI => in_codes (ae_Code a) [-1000; -1001; -1003; -1006; -1007; -1008]
  | BybitResponse => in_codes (ae_Code a) [10000; 10006; 10016; 170001; 170007; 170146; 170147]
  | BitgetResponse => one_of (TrimSpace (ae_Label a)) ["40010"; "40015"; "40725"; "45001"]
  | GateAPI => one_of (ToUpper (ae_Label a)) ["SERVER_ERROR"; "INTERNAL"; "TOO_BUSY"; "TOO_FAST"]
  | _ => false
  end.

(** What the gateway may take as the venue's refusal of a failed command, the
    adapter's reply to it, and the venue's typed error where its SDK keeps a list
    of refusals.  Binance's, Bybit's and Bitget's error kinds are read off any
    decoded answer of the venue. *)
Inductive command_failed s : option venue_api → Prop → OrderAcknowledgement D * option error → Prop :=
| failed_gate meta operation instrument orderID clientID :
    command_failed s (Some GateAPI) (gate_IsDefinitiveCommandRejection s = true) (gateCommandErr meta operation instrument orderID clientID s)
| failed_nado product operation ack :
    command_failed s None (is_Some (sx_api s NadoApplication) ∧ has_mark ErrExecutionRejected s = true) (mutationError product operation ack s)
| failed_aster product op native orderID clientID :
    command_failed s None (is_Some (sx_api s AsterVenue)) (asterCommandAck product op native orderID clientID s)
| failed_okx product op instrument orderID clientID :
    command_failed s None (has_mark ErrWSOutcomeUnknown s = false ∧
                      (is_Some (sx_api s OKXAPI) ∨ okxIsCredentialError s = true ∨ okxIsHTTPAuthError s = true))
      (okxCommandTransportAck product op instrument orderID clientID s)
| failed_lighter product op instrument orderID clientID tracker :
    command_failed s None ((tracked tracker).1 = false ∨ 400 ≤ (tracked tracker).2 < 500 ∨ ∃ a, sx_api s LighterAPI = Some a ∧ 0 < ae_Code a < 500)
      (lighterCommandErr product op instrument orderID clientID s tracker).1
| failed_spot instrument operation name orderID clientID :
    command_failed s (Some BinanceSpotAPI)
      (has_mark ErrWSOutcomeUnknown s = false ∧ is_Some (sx_api s BinanceSpotAPI) ∨ spot_IsDefinitiveOrderRejection s = true ∨ has_mark ErrAuthFailed s = true)
      (binanceSpotCommandAck instrument operation name orderID clientID s)
| failed_perp operation ack :
    command_failed s (Some BinancePerpAPI) (is_Some (sx_api s BinancePerpAPI) ∨ has_mark ErrAuthFailed s = true) (binancePerpCommandErrorAck operation ack s)
| failed_bybit meta operation kind native orderID clientID :
    sx_api s BitgetResponse = None →
    command_failed s (Some BybitResponse) (is_Some (sx_api s BybitResponse)) (commandAck meta operation kind native orderID clientID s)
| failed_bitget meta operation kind native orderID clientID :
    sx_api s BybitResponse = None →
    command_failed s (Some BitgetResponse) (is_Some (sx_api s BitgetResponse)) (commandAck meta operation kind native orderID clientID s).

(** A refusal is backed by [P], by throttling, or by never having been sent. *)
Definition backed s (P : Prop) (r : OrderAcknowledgement D * option error) : Prop :=
  refused r.1 r.2 → not_sent s ∨ rate_limited s = true ∨ P.

Lemma backed_proof s (P : Prop) r : P → backed s P r.
Proof. unfold backed. auto. Qed.
Lemma backed_throttled s P r : rate_limited s = true → backed s P r.
Proof. unfold backed. auto. Qed.
Lemma backed_ambiguous ack s P venue product operation code message v p o :
  ack_State ack ≠ AckRejected →
  backed s P (settle (ack, Some (venue_error v p o KindAmbiguousOutcome code message)) s venue product operation).
Proof. intros Ha Hr. left. by eapply settle_ambiguous. Qed.
Lemma backed_unrefusing ack e k s P venue product operation :
  ack_State ack ≠ AckRejected → refusing k = false → (¬ not_sent s → quiet s → settled_error s k e) →
  backed s P (settle (ack, Some e) s venue product operation).
Proof. intros Ha Hk He Hr. destruct (settle_unrefusing ack e k s venue product operation Ha Hk He Hr); auto. Qed.

Lemma exchange_rate_limit_Some s code : exchange_rate_limit s = Some code → rate_limited s = true.
Proof. unfold exchange_rate_limit. by destruct (rate_limited s). Qed.
Lemma new_error_settled s k d : det_CommandNotSent d = false → settled_error s k (NewError k d).
Proof. intros Hd. eexists _, _. split; [done|]. split; [done|by left]. Qed.
Lemma Ack_Validate_settled ack e s : Ack_Validate ack = Err e → settled_error s KindMalformedResponse e.
Proof.
  assert (Hm : ∀ m, settled_error s KindMalformedResponse (ackMalformed m)) by (intros m; by apply new_error_settled).
  unfold Ack_Validate. cbv zeta. repeat split_guard; intros Hv; simplify_eq; apply Hm.
Qed.
Lemma backed_validated_ambiguous ack s P venue product operation code message v p o :
  ack_State ack ≠ AckRejected →
  backed s P (settle (validated ack (venue_error v p o KindAmbiguousOutcome code message)) s venue product operation).
Proof.
  intros Ha. unfold validated. destruct (Ack_Validate ack) as [|e] eqn:Ev; [by apply backed_ambiguous|].
  apply backed_unrefusing with (k := KindMalformedResponse); [done..|]. intros _ _. by eapply Ack_Validate_settled.
Qed.
End refusals.

Create HintDb commands.
#[export] Hint Resolve backed_proof backed_throttled backed_ambiguous backed_validated_ambiguous venue_error_settled normalized_settled : commands.

Section backing.
Context `{Decimal D}.
Implicit Types (ack : OrderAcknowledgement D) (instrument : Instrument D) (s : sdk_error).

(** A reply of an unrefusing kind. *)
Ltac unrefusing kind := apply (backed_unrefusing _ _ kind); [done|done|intros ? ?; eauto 3 with commands].

Lemma gate_backed meta operation instrument orderID clientID s :
  backed s (gate_IsDefinitiveCommandRejection s = true) (gateCommandErr meta operation instrument orderID clientID s).
Proof.
  unfold gateCommandErr, gate_reply. destruct (gateCommandMetadataMismatch s).
  { apply (backed_unrefusing _ _ KindMetadataResolution); [done|done|]. intros _ _. by apply new_error_settled. }
  destruct (gate_IsDefinitiveCommandRejection s); eauto with commands.
Qed.
Lemma nado_backed product operation ack s :
  backed s (is_Some (sx_api s NadoApplication) ∧ has_mark ErrExecutionRejected s = true) (mutationError product operation ack s).
Proof.
  unfold mutationError, nado_reply. destruct (sx_api s NadoApplication) as [a|], (has_mark ErrExecutionRejected s); simpl; eauto with commands.
Qed.
Lemma aster_backed product op native orderID clientID s :
  backed s (is_Some (sx_api s AsterVenue)) (asterCommandAck product op native orderID clientID s).
Proof. unfold asterCommandAck, aster_reply. destruct (sx_api s AsterVenue) as [a|]; eauto with commands. Qed.

Lemma okx_backed product op instrument orderID clientID s :
  backed s (has_mark ErrWSOutcomeUnknown s = false ∧
            (is_Some (sx_api s OKXAPI) ∨ okxIsCredentialError s = true ∨ okxIsHTTPAuthError s = true))
    (okxCommandTransportAck product op instrument orderID clientID s).
Proof.
  unfold okxCommandTransportAck, okx_reply. cbv zeta. destruct (has_mark ErrWSPreSend s); [unrefusing KindTransport|].
  destruct (has_mark ErrWSOutcomeUnknown s); [by apply backed_ambiguous|].
  destruct (has_mark ErrWSMalformedResponse s); [unrefusing KindMalformedResponse|].
  destruct (exchange_rate_limit s) as [code|] eqn:El; [by eapply backed_throttled, exchange_rate_limit_Some|].
  destruct (sx_api s OKXAPI) as [a|]; [apply backed_proof; eauto|].
  destruct (okxIsCredentialError s); [apply backed_proof; eauto|].
  destruct (okxIsHTTPAuthError s); [apply backed_proof; eauto|]. by apply backed_ambiguous.
Qed.

Lemma lighter_backed product op instrument orderID clientID s tracker :
  backed s ((tracked tracker).1 = false ∨ 400 ≤ (tracked tracker).2 < 500 ∨ ∃ a, sx_api s LighterAPI = Some a ∧ 0 < ae_Code a < 500)
    (lighterCommandErr product op instrument orderID clientID s tracker).1.
Proof.
  unfold lighterCommandErr, lighter_reply. cbv zeta. destruct (tracked tracker) as [[|] status]; cbn [fst snd];
    [|apply backed_proof; by left]. cbv beta iota.
  destruct (canceled s || deadline s); [by apply backed_ambiguous|].
  destruct (Z.eqb_spec status 429) as [->|]; [apply backed_proof; right; left; lia|].
  destruct ((status =? 401) || (status =? 403)) eqn:Ea; [apply backed_proof; right; left; breflect; lia|].
  destruct (Z.eqb_spec status 404) as [->|]; [apply backed_proof; right; left; lia|].
  destruct (Z.leb_spec 500 status); [by apply backed_ambiguous|].
  destruct (Z.leb_spec 400 status); [apply backed_proof; right; left; lia|].
  destruct (exchange_rate_limit s) as [code|] eqn:El; [by eapply backed_throttled, exchange_rate_limit_Some|].
  destruct (sx_api s LighterAPI) as [a|] eqn:Eapi; [|by apply backed_ambiguous].
  destruct (Z.leb_spec (ae_Code a) 0); [unrefusing KindMalformedResponse|].
  assert (Hproof : ae_Code a < 500 → (true = false ∨ 400 ≤ status < 500 ∨ ∃ a', Some a = Some a' ∧ 0 < ae_Code a' < 500)) by eauto 10 with lia.
  destruct (Z.eqb_spec (ae_Code a) 429); [apply backed_proof, Hproof; lia|].
  destruct ((ae_Code a =? 401) || (ae_Code a =? 403)) eqn:Eu; [apply backed_proof, Hproof; breflect; lia|].
  destruct (Z.leb_spec 500 (ae_Code a)); [by apply backed_ambiguous|]. apply backed_proof, Hproof. lia.
Qed.

Lemma sdk_auth_or_limit_Some fail s err :
  sdk_auth_or_limit fail s = Some err → has_mark ErrAuthFailed s = true ∨ rate_limited s = true.
Proof. unfold sdk_auth_or_limit. destruct (sx_exchange s); [|done]. destruct (has_mark _ s); [auto|]. destruct (rate_limited s); [auto|done]. Qed.

Lemma spot_backed instrument operation name orderID clientID s :
  backed s (has_mark ErrWSOutcomeUnknown s = false ∧ is_Some (sx_api s BinanceSpotAPI) ∨ spot_IsDefinitiveOrderRejection s = true ∨
            has_mark ErrAuthFailed s = true)
    (binanceSpotCommandAck instrument operation name orderID clientID s).
Proof.
  unfold binanceSpotCommandAck, spot_reply. cbv zeta.
  destruct (spot_IsDefinitiveOrderRejection s); [apply backed_proof; auto|].
  assert (Hlost : backed s (has_mark ErrWSOutcomeUnknown s = false ∧ is_Some (sx_api s BinanceSpotAPI) ∨ false = true ∨ has_mark ErrAuthFailed s = true)
    (settle (no_ack, Some (binanceSpotNormalizeErr name s)) s VenueBinance ProductSpot name) ∨ has_mark ErrWSOutcomeUnknown s = true).
  { destruct (has_mark ErrWSOutcomeUnknown s); [by right|left]. unfold binanceSpotNormalizeErr, spot_mapped. cbv zeta.
    destruct (canceled s); [unrefusing KindCanceled|]. destruct (deadline s); [unrefusing KindDeadlineExceeded|].
    destruct (sdk_auth_or_limit _ s) as [err|] eqn:El; [apply sdk_auth_or_limit_Some in El as [?|?]; eauto with commands|].
    destruct (sx_api s BinanceSpotAPI) as [a|]; [apply backed_proof; eauto|].
    destruct (Contains _ _); [unrefusing KindMalformedResponse|]. destruct (binanceSpotIsTransport s); unrefusing KindTransport. }
  destruct (sx_api s BinanceSpotAPI); (destruct (has_mark ErrWSOutcomeUnknown s); [by apply backed_validated_ambiguous|]);
    (destruct (binanceSpotIsTransport s); [by apply backed_validated_ambiguous|]); by destruct Hlost.
Qed.

Lemma perp_backed operation ack s :
  backed s (is_Some (sx_api s BinancePerpAPI) ∨ has_mark ErrAuthFailed s = true) (binancePerpCommandErrorAck operation ack s).
Proof.
  unfold binancePerpCommandErrorAck, perp_reply. cbv zeta.
  destruct (sx_api s BinancePerpAPI) as [a|] eqn:Eapi; [apply backed_proof; eauto|].
  assert (Hlost : backed s (is_Some (@None api_error) ∨ has_mark ErrAuthFailed s = true)
    (settle (no_ack, Some (binancePerpNormalizeError operation s)) s VenueBinance ProductPerp operation)).
  { unfold binancePerpNormalizeError, perp_mapped, binancePerpContextError. cbv zeta. rewrite Eapi.
    destruct (canceled s); [unrefusing KindCanceled|]. destruct (deadline s); [unrefusing KindDeadlineExceeded|].
    destruct (sdk_auth_or_limit _ s) as [err|] eqn:El; [apply sdk_auth_or_limit_Some in El as [?|?]; eauto with commands|].
    destruct (Contains _ _); [unrefusing KindMalformedResponse|unrefusing KindTransport]. }
  destruct (binancePerpIsKnownResponseError s); [done|]. destruct (binancePerpIsPreSendTransport s); [done|]. by apply backed_ambiguous.
Qed.

Lemma bybit_bitget_backed (P : Prop) meta operation kind native orderID clientID s :
  (is_Some (sx_api s BybitResponse) ∨ is_Some (sx_api s BitgetResponse) → P) → backed s P (commandAck meta operation kind native orderID clientID s).
Proof.
  intros HP. destruct (sx_api s BybitResponse) as [a|] eqn:E1; [apply backed_proof; eauto|].
  destruct (sx_api s BitgetResponse) as [a|] eqn:E2; [apply backed_proof; eauto|].
  unfold commandAck, command_reply, bybit_IsDefinitiveCommandRejection, bitget_IsDefinitiveCommandRejection.
  rewrite E1, E2. replace (if http_inconclusive s then false else false) with false by (by destruct (http_inconclusive s)). simpl.
  unfold normErr, norm_mapped. cbv zeta. rewrite E1, E2.
  destruct (canceled s); [unrefusing KindCanceled|]. destruct (deadline s); [unrefusing KindDeadlineExceeded|]. unrefusing KindTransport.
Qed.
Lemma failed_backed s api proof r : command_failed (D:=D) s api proof r → backed s proof r.
Proof.
  intros Hf. destruct Hf as [| | | | | | |? ? ? ? ? ? E|? ? ? ? ? ? E]; [apply gate_backed|apply nado_backed|apply aster_backed|apply okx_backed|apply lighter_backed|apply spot_backed|apply perp_backed| |];
    apply bybit_bitget_backed; rewrite E; by intros [?|[]] || intros [[]|?].
Qed.

(** *** Acknowledgements of a refusal *)

Lemma withVenueMessage_state mapped ack original : ack_State (default ack (withVenueMessage mapped (Some ack) original).2) = ack_State ack.
Proof.
  unfold withVenueMessage. destruct (is_empty _); [done|]. destruct (errors_as as_exchange mapped) as [[k d]|]; [|done].
  destruct (definitive k); cbn [negb]; [|done]. destruct (inconclusive_status _); [done|]. cbn [snd default]. by destruct (String.eqb _ _).
Qed.
Lemma withVenueMessage_error mapped (ack : option (OrderAcknowledgement D)) original : is_Some mapped → is_Some (withVenueMessage mapped ack original).1.
Proof.
  intros Hm. unfold withVenueMessage. destruct (is_empty _); [done|]. destruct (errors_as as_exchange mapped) as [[k d]|]; [|done].
  destruct (definitive k); cbn [negb]; [|done]. by destruct (inconclusive_status _).
Qed.
Lemma normalizeHTTPError_error e original venue product operation : is_Some (normalizeHTTPError (D:=D) (Some e) original venue product operation).
Proof.
  unfold normalizeHTTPError. destruct (errors_as as_exchange (Some e)) as [[k d]|]; [|done]. destruct (local_pass _ _ _) as [k' d']. unfold withVenueMessage.
  destruct (is_empty _); [done|]. destruct (errors_as as_exchange _) as [[k2 d2]|]; [|done]. destruct (definitive k2); cbn [negb]; [|done]. by destruct (inconclusive_status _).
Qed.
Lemma settle_cases (r : OrderAcknowledgement D * option error) s venue product operation : let r' := settle r s venue product operation in
  (is_Some r.2 → is_Some r'.2) ∧ (ack_State r'.1 = AckRejected → ack_State r.1 = AckRejected) ∧ (ack_State r'.1 = ack_State r.1 ∨ is_Some r'.2).
Proof.
  destruct r as [ack mapped]. unfold settle, normalizeHTTPCommand. cbn [fst snd].
  assert (Hkept : ∀ ack0 mapped0, let r' := (let '(m, a) := withVenueMessage (normalizeHTTPError (D:=D) mapped0 (Some (sx_err s)) venue product operation) (Some ack0) (Some (sx_err s)) in (default ack0 a, m)) in
    ack_State r'.1 = ack_State ack0 ∧ (is_Some mapped0 → is_Some r'.2)).
  { intros ack0 mapped0. cbv zeta. pose proof (withVenueMessage_state (normalizeHTTPError (D:=D) mapped0 (Some (sx_err s)) venue product operation) ack0 (Some (sx_err s))) as Hs.
    pose proof (withVenueMessage_error (normalizeHTTPError (D:=D) mapped0 (Some (sx_err s)) venue product operation) (Some ack0) (Some (sx_err s))) as He.
    destruct (withVenueMessage _ _ _) as [m a]. cbn [fst snd] in *. split; [done|]. intros [e ->]. apply He, normalizeHTTPError_error. }
  destruct (errors_as as_http (Some (sx_err s))) as [h|]; [destruct (server_failure _ || _ || _)|].
  - destruct (Hkept (set_ack_message (set_ack_state ack AckAmbiguous) unknown_outcome)
      (Some (NewError KindAmbiguousOutcome (mkDetails venue product operation (ack_VenueCode ack) unknown_outcome 0 0 "" false)))) as [Hs He].
    split; [intros _; by apply He|]. rewrite Hs. split; [done|]. right. by apply He.
  - destruct (Hkept ack mapped) as [Hs He]. rewrite Hs. auto.
  - destruct (Hkept ack mapped) as [Hs He]. rewrite Hs. auto.
Qed.
(** A settled failure is never taken for an accepted order. *)
Lemma settle_failed (r : OrderAcknowledgement D * option error) s venue product operation now id order : is_Some r.2 ∨ ack_State r.1 = AckRejected →
  let r' := settle r s venue product operation in pl_Status (classify now id order r'.1 r'.2) = OutcomeRejected ∨ pl_Status (classify now id order r'.1 r'.2) = OutcomeUnknown.
Proof.
  intros Hf. cbv zeta. destruct (settle_cases r s venue product operation) as (He & _ & Ha). unfold classify. destruct (settle r s venue product operation).2 as [e|] eqn:E.
  { destruct (proves_refusal _ _); auto. }
  destruct Hf as [Hf|Hf]; [by destruct (He Hf)|]. destruct Ha as [Ha|[]]; [|done]. rewrite Ha, Hf. by left.
Qed.
Lemma validated_error ack e : is_Some (validated ack e).2.
Proof. unfold validated. by destruct (Ack_Validate ack). Qed.
Lemma validated_state ack e : ack_State (validated ack e).1 = AckRejected → ack_State ack = AckRejected.
Proof. unfold validated. by destruct (Ack_Validate ack). Qed.

Lemma open_not_listed codes open code : forallb (λ c, negb (in_codes c codes)) open = true → in_codes code codes = true → in_codes code open = false.
Proof.
  intros Hf Hc. unfold in_codes at 1. destruct (existsb (Z.eqb code) open) eqn:E; [|done]. apply existsb_exists in E as (c & Hin & Ec%Z.eqb_eq). subst c.
  rewrite forallb_forall in Hf. specialize (Hf _ Hin). by rewrite Hc in Hf.
Qed.
Lemma open_not_labelled labels open label : forallb (λ c, negb (one_of c labels)) open = true → one_of label labels = true → one_of label open = false.
Proof.
  intros Hf Hc. destruct (one_of label open) eqn:E; [|done]. unfold one_of in E. apply existsb_exists in E as (c & Hin & Ec%String.eqb_eq). subst c.
  rewrite forallb_forall in Hf. specialize (Hf _ Hin). by rewrite Hc in Hf.
Qed.
Lemma definitive_400_listed codes api : definitive_400 codes api = true → ∃ a, api = Some a ∧ codes (ae_Code a) = true.
Proof. unfold definitive_400. destruct api as [a|]; [|done]. destruct (_ || _); [done|]. intros [_ Hc]%andb_prop. eauto. Qed.

(** The SDKs' lists hold none of the answers that leave the outcome open. *)
Lemma definitive_not_open s api :
  match api with
  | BinanceSpotAPI => spot_IsDefinitiveOrderRejection s | BinancePerpAPI => perp_IsDefinitiveOrderRejection s | GateAPI => gate_IsDefinitiveCommandRejection s
  | BybitResponse => bybit_IsDefinitiveCommandRejection s | BitgetResponse => bitget_IsDefinitiveCommandRejection s | _ => false
  end = true → ∃ a, sx_api s api = Some a ∧ left_open api a = false.
Proof.
  destruct api; try done.
  - intros (a & Ha & Hc)%definitive_400_listed. exists a. split; [done|]. by eapply open_not_listed; [|exact Hc].
  - intros (a & Ha & Hc)%definitive_400_listed. exists a. split; [done|]. by eapply open_not_listed; [|exact Hc].
  - unfold bybit_IsDefinitiveCommandRejection. destruct (http_inconclusive s); [done|]. destruct (sx_api s BybitResponse) as [a|]; [|done]. destruct (_ =? _); [done|].
    destruct (in_codes _ bybit_inconclusive_codes); [done|]. intros Hc. exists a. split; [done|]. by eapply open_not_listed; [|exact Hc].
  - unfold bitget_IsDefinitiveCommandRejection. destruct (http_inconclusive s); [done|]. destruct (sx_api s BitgetResponse) as [a|]; [|done].
    repeat (split_guard; [done|]). intros Hc. exists a. split; [done|]. by eapply open_not_labelled; [|exact Hc].
  - unfold gate_IsDefinitiveCommandRejection. destruct (sx_api s GateAPI) as [a|]; [|done]. destruct (is_empty _); [done|]. destruct (_ || _); [done|].
    destruct (_ || _ || _); [done|]. intros Hc. exists a. split; [done|]. by eapply open_not_labelled; [|exact Hc].
Qed.

Lemma rejected_listed s api proof r v : command_failed (D:=D) s api proof r → ack_State r.1 = AckRejected → api = Some v → ∃ a, sx_api s v = Some a ∧ left_open v a = false.
Proof.
  intros Hf Ha Hv. destruct Hf; try discriminate Hv; injection Hv as <-; apply (proj1 (proj2 (settle_cases _ _ _ _ _))) in Ha.
  - apply (definitive_not_open s GateAPI). revert Ha. unfold gate_reply. destruct (gateCommandMetadataMismatch s); [done|]. by destruct (gate_IsDefinitiveCommandRejection s).
  - apply (definitive_not_open s BinanceSpotAPI). revert Ha. unfold spot_reply. cbv zeta. destruct (sx_api s BinanceSpotAPI); (destruct (spot_IsDefinitiveOrderRejection s); [done|]);
      (destruct (_ || _); [intros Ha%validated_state; done|done]).
  - apply (definitive_not_open s BinancePerpAPI). revert Ha. unfold perp_reply. cbv zeta. destruct (sx_api s BinancePerpAPI); (destruct (perp_IsDefinitiveOrderRejection s); [done|]);
      (destruct (binancePerpIsKnownResponseError s); [done|]); by destruct (binancePerpIsPreSendTransport s).
  - apply (definitive_not_open s BybitResponse). revert Ha. unfold command_reply. destruct (bybit_IsDefinitiveCommandRejection s); [done|]. unfold bitget_IsDefinitiveCommandRejection.
    rewrite H0. by destruct (http_inconclusive s).
  - apply (definitive_not_open s BitgetResponse). revert Ha. unfold command_reply. destruct (bitget_IsDefinitiveCommandRejection s); [done|]. unfold bybit_IsDefinitiveCommandRejection.
    rewrite H0. by destruct (http_inconclusive s).
Qed.
Lemma command_status s api proof r now id order : command_failed (D:=D) s api proof r →
  pl_Status (classify now id order r.1 r.2) = OutcomeRejected ∨ pl_Status (classify now id order r.1 r.2) = OutcomeUnknown.
Proof.
  intros Hf. destruct Hf as [| | | | | | |? ? ? ? ? ? E|? ? ? ? ? ? E].
  - apply settle_failed. left. unfold gate_reply. destruct (gateCommandMetadataMismatch s); [done|]. by destruct (gate_IsDefinitiveCommandRejection s).
  - apply settle_failed. left. unfold nado_reply. cbv zeta. by destruct (_ && _).
  - apply settle_failed. left. unfold aster_reply. cbv zeta. by destruct (sx_api s AsterVenue).
  - apply settle_failed. left. unfold okx_reply. cbv zeta. repeat (split_guard; [done|]). destruct (exchange_rate_limit s); [done|]. destruct (sx_api s OKXAPI); repeat split_guard; done.
  - unfold lighterCommandErr. destruct (lighter_reply _ _ _ _ _ _ _) as [r' invalidated] eqn:E. apply settle_failed. left. revert E. unfold lighter_reply. cbv zeta.
    destruct (tracked tracker) as [began status]. repeat split_guard; try (intros [= <- _]; first [done|apply validated_error]); destruct (exchange_rate_limit s); try (intros [= <- _]; done);
    destruct (sx_api s LighterAPI); repeat split_guard; intros [= <- _]; done.
  - apply settle_failed. left. unfold spot_reply. cbv zeta. destruct (sx_api s BinanceSpotAPI), (spot_IsDefinitiveOrderRejection s); try apply validated_error; (destruct (_ || _); [apply validated_error|done]).
  - apply settle_failed. left. unfold perp_reply. cbv zeta. destruct (sx_api s BinancePerpAPI), (perp_IsDefinitiveOrderRejection s); repeat split_guard; done.
  - apply settle_failed. unfold command_reply. cbv zeta. destruct (_ || _); [by right|by left].
  - apply settle_failed. unfold command_reply. cbv zeta. destruct (_ || _); [by right|by left].
Qed.

Lemma refusal_cases s api proof r now id order :
  command_failed (D:=D) s api proof r →
  let status := pl_Status (classify now id order r.1 r.2) in
  (status = OutcomeRejected → not_sent s ∨ rate_limited s = true ∨ proof) ∧
  (¬ not_sent s → rate_limited s = false → ¬ proof → status = OutcomeUnknown) ∧ (status = OutcomeRejected ∨ status = OutcomeUnknown).
Proof.
  intros Hf. cbv zeta. pose proof (failed_backed s api proof r Hf) as Hb. pose proof (command_status s api proof r now id order Hf) as Hst.
  assert (Hr : pl_Status (classify now id order r.1 r.2) = OutcomeRejected → not_sent s ∨ rate_limited s = true ∨ proof) by (intros Hr%classify_refused; by apply Hb).
  split; [done|]. split; [|done]. intros Hn Hl Hp. destruct Hst as [E|E]; [|done]. destruct (Hr E) as [?|[?|?]]; [done|congruence|done].
Qed.

End backing.

(** ** Replies outside the lists of refusals *)

Section undecided.
Context `{Decimal D}.
Implicit Types (ack : OrderAcknowledgement D) (instrument : Instrument D) (s : sdk_error).

(** An error of the venue's own, with or without the HTTP answer it came in (not a
    server failure, a timeout or a rate limit), without a context error or a
    decoding error. *)
Record plain s : Prop := mkPlain {
  plain_quiet : quiet s; plain_local : errors_as as_local (Some (sx_err s)) = None;
  plain_limit : rate_limited s = false; plain_malformed : malformed_original (Some (sx_err s)) = false;
  plain_canceled : canceled s = false; plain_deadline : deadline s = false; plain_exchange : sx_exchange s = None;
}.

Lemma normalizeHTTPError_plain {E} s k d venue product operation :
  plain s → ∃ d', normalizeHTTPError (D:=E) (Some (NewError k d)) (Some (sx_err s)) venue product operation = Some (NewError k d').
Proof.
  intros Hp. unfold normalizeHTTPError. change (errors_as as_exchange (Some (NewError k d))) with (Some (k, d)). cbv iota.
  unfold malformed_pass. rewrite (plain_malformed s Hp). destruct (http_pass_quiet s k d (plain_quiet s Hp)) as (d1 & -> & _).
  unfold rate_limit_pass, local_pass. fold (rate_limited s). rewrite (plain_limit s Hp), (plain_local s Hp). cbn [andb].
  match goal with |- context [withVenueMessage (Some (NewError k ?d)) ?a ?o] =>
    destruct (withVenueMessage_kind k d a o) as (d3 & ack' & -> & _) end. by eauto.
Qed.
Lemma settle_plain ack s k d venue product operation :
  plain s → ∃ ack' d', settle (ack, Some (NewError k d)) s venue product operation = (ack', Some (NewError k d')) ∧ ack_State ack' = ack_State ack.
Proof.
  intros Hp. pose proof (plain_quiet s Hp) as Hq. unfold settle, normalizeHTTPCommand, quiet in *. cbn [fst snd].
  destruct (normalizeHTTPError_plain (E:=D) s k d venue product operation Hp) as (d1 & Hn).
  destruct (errors_as as_http (Some (sx_err s))) as [h|]; [unfold may_have_executed in Hq; rewrite Hq|]; rewrite Hn;
    destruct (withVenueMessage_kind k d1 (Some ack) (Some (sx_err s))) as (d2 & [a'|] & -> & _ & [= Ha]); by eexists _, _.
Qed.
Lemma normalized_plain s k d venue product operation :
  plain s → ∃ d', normalized (NewError k d) s venue product operation = NewError k d'.
Proof.
  intros Hp. unfold normalized. destruct (normalizeHTTPError_plain (E:=unit) s k d venue product operation Hp) as (d' & ->). by exists d'.
Qed.

(** Replies the SDK does not list as a refusal, that the adapter nevertheless
    labels [KindVenueRejected]. *)
Inductive undecided s : OrderAcknowledgement D * option error → Prop :=
| undecided_bybit meta operation kind native orderID clientID a :
    sx_api s BybitResponse = Some a → bybit_IsDefinitiveCommandRejection s = false → bitget_IsDefinitiveCommandRejection s = false →
    classifyCode (FormatInt (ae_Code a)) = KindVenueRejected →
    undecided s (commandAck meta operation kind native orderID clientID s)
| undecided_bitget meta operation kind native orderID clientID a :
    sx_api s BybitResponse = None → sx_api s BitgetResponse = Some a → bitget_IsDefinitiveCommandRejection s = false →
    classifyCode (ae_Label a) = KindVenueRejected →
    undecided s (commandAck meta operation kind native orderID clientID s)
| undecided_spot instrument operation name orderID clientID a :
    sx_api s BinanceSpotAPI = Some a → spot_IsDefinitiveOrderRejection s = false →
    has_mark ErrWSOutcomeUnknown s = false → binanceSpotIsTransport s = false →
    ae_Status a < 500 → ae_Status a ≠ 404 → ae_Code a ≠ -1121 → ae_Code a ≠ -2013 →
    undecided s (binanceSpotCommandAck instrument operation name orderID clientID s)
| undecided_perp operation ack a :
    sx_api s BinancePerpAPI = Some a → perp_IsDefinitiveOrderRejection s = false →
    ae_Status a < 500 → (∀ status, In status [401; 403; 404] → ae_Status a ≠ status) → ae_Code a ≠ -1121 → ae_Code a ≠ -2013 →
    undecided s (binancePerpCommandErrorAck operation ack s).

Lemma settle_venue_rejected ack s d venue product operation now id order :
  plain s → ack_State ack ≠ AckRejected →
  let r := settle (ack, Some (NewError KindVenueRejected d)) s venue product operation in
  ack_State r.1 ≠ AckRejected ∧ pl_Status (classify now id order r.1 r.2) = OutcomeRejected.
Proof.
  intros Hp Ha. destruct (settle_plain ack s KindVenueRejected d venue product operation Hp) as (ack' & d' & -> & Hs).
  cbn [fst snd]. split; [congruence|]. apply classify_refused. apply refused_by_venue with (k := KindVenueRejected); [by left|].
  by rewrite errors_is_kind.
Qed.

(** C2: a reply that the SDK documents as inconclusive (a Bybit server timeout, an
    unknown Binance error) is reported to the operator as a rejection, in whatever
    HTTP answer it came short of a server failure, a timeout or a rate limit: the
    adapter does not acknowledge a rejection (Bybit's and Bitget's acknowledgement
    is ambiguous, Binance's is empty), but labels the error [KindVenueRejected], and
    the gateway goes by the label.  The order may be live. *)
Theorem undecided_reply_rejected s r now id order :
  undecided s r → plain s →
  ack_State r.1 ≠ AckRejected ∧ pl_Status (classify now id order r.1 r.2) = OutcomeRejected.
Proof.
  intros Hu Hp. destruct Hu as [meta operation kind native orderID clientID a Ea Hd1 Hd2 Hc|meta operation kind native orderID clientID a E1 Ea Hd Hc|
    instrument operation name orderID clientID a Ea Hd Hm Ht Hs5 Hs4 Hc1 Hc2|operation ack a Ea Hd Hs Hn Hc1 Hc2].
  - unfold commandAck, command_reply, normErr, norm_mapped. rewrite Hd1, Hd2, Ea, Hc, (plain_canceled s Hp), (plain_deadline s Hp). cbv zeta iota. cbn [orb].
    unfold venue_error. edestruct (normalized_plain s KindVenueRejected) as (d & ->); [done|]. by apply settle_venue_rejected.
  - unfold commandAck, command_reply, normErr, norm_mapped, bybit_IsDefinitiveCommandRejection.
    rewrite Hd, E1, Ea, Hc, (plain_canceled s Hp), (plain_deadline s Hp). cbv zeta iota.
    replace (if http_inconclusive s then false else false) with false by (by destruct (http_inconclusive s)). cbn [orb].
    unfold venue_error. edestruct (normalized_plain s KindVenueRejected) as (d & ->); [done|]. by apply settle_venue_rejected.
  - unfold binanceSpotCommandAck, spot_reply, binanceSpotNormalizeErr, spot_mapped, sdk_auth_or_limit.
    rewrite Hd, Ea, Hm, Ht, (plain_canceled s Hp), (plain_deadline s Hp), (plain_exchange s Hp). cbv zeta iota. cbn [orb].
    rewrite (proj2 (Z.leb_gt _ _) Hs5), (proj2 (Z.eqb_neq _ _) Hc1), (proj2 (Z.eqb_neq _ _) Hc2), (proj2 (Z.eqb_neq _ _) Hs4). cbn [orb].
    unfold venue_error. edestruct (normalized_plain s KindVenueRejected) as (d & ->); [done|]. by apply settle_venue_rejected.
  - unfold binancePerpCommandErrorAck, perp_reply, binancePerpNormalizeError, perp_mapped, binancePerpContextError, sdk_auth_or_limit,
      binancePerpIsKnownResponseError.
    rewrite Hd, Ea, (plain_canceled s Hp), (plain_deadline s Hp), (plain_exchange s Hp). cbv zeta iota. cbn [orb is_present].
    rewrite (proj2 (Z.leb_gt _ _) Hs), !(proj2 (Z.eqb_neq _ _)) by (first [done|apply Hn; simpl; tauto]). cbn [orb].
    unfold venue_error. edestruct (normalized_plain s KindVenueRejected) as (d & ->); [done|]. by apply settle_venue_rejected.
Qed.
End undecided.

(** ** Concrete replies *)

(** A decoded answer of the venue, in the HTTP answer it came in. *)
Definition venue_answer (api : venue_api) (a : api_error) (path : string) : sdk_error :=
  mkSDK (EHTTP (mkHTTPError (ae_Status a) "POST" path "" 0) (EAPI api [ae_Message a]))
    ("venue HTTP failure (method=POST path=" +:+ path +:+ " status=" +:+ FormatInt (ae_Status a) +:+ " code=)")
    [] None (λ k, if decide (k = api) then Some a else None) None.
Definition bybit_meta : clientMeta := mkMeta VenueBybit ProductPerp.

(** Gate names a documented reason. *)
Definition gate_refusal : sdk_error := venue_answer GateAPI (mkAPI 400 0 "BALANCE_NOT_ENOUGH" "Not enough balance") "/api/v4/futures/usdt/orders".

(** An unlisted label is not taken for a refusal. *)
Example gate_unlisted_unknown :
  let s := venue_answer GateAPI (mkAPI 400 0 "DUPLICATE_REQUEST" "duplicate") "/api/v4/futures/usdt/orders" in
  let r := gateCommandErr (mkMeta VenueGate ProductPerp) OrderOperationPlace (sample_perp VenueGate "BTC" "USDT") "" "1001" s in
  pl_Status (classify 0 "gate:perp:BTC-USDT" sample_limit_order r.1 r.2) = OutcomeUnknown.
Proof. vm_compute. reflexivity. Qed.

(** Bybit's "Server Timeout": code 10000, in the list of inconclusive codes. *)
Definition bybit_timeout : sdk_error := venue_answer BybitResponse (mkAPI 200 10000 "" "Server Timeout") "/v5/order/create".
Lemma undecided_reply_rejected_witness :
  let r := commandAck bybit_meta "PlaceOrder" OrderOperationPlace "BTCUSDT" "" "1001" bybit_timeout in
  ack_State r.1 ≠ AckRejected ∧ pl_Status (classify 0 "bybit:perp:BTC-USDT" sample_limit_order r.1 r.2) = OutcomeRejected.
Proof.
  apply (undecided_reply_rejected bybit_timeout).
  - apply undecided_bybit with (a := mkAPI 200 10000 "" "Server Timeout"); vm_compute; reflexivity.
  - constructor; vm_compute; reflexivity.
Defined.

(** Binance's code -1000, "An unknown error occurred while processing the
    request", on an HTTP 400. *)
Example binance_unknown_error_rejected :
  let s := venue_answer BinanceSpotAPI (mkAPI 400 (-1000) "" "An unknown error occurred while processing the request.") "/api/v3/order" in
  let r := binanceSpotCommandAck (sample_perp VenueBinance "BTC" "USDT") OrderOperationPlace "PlaceOrder" "" "1001" s in
  spot_IsDefinitiveOrderRejection s = false ∧ ack_State r.1 = "" ∧
  pl_Status (classify 0 "binance:spot:BTC-USDT" sample_limit_order r.1 r.2) = OutcomeRejected.
Proof. vm_compute. auto. Qed.
