(* ===== verification/Placement.v ===== *)
(** * A placement, from the request to the answer

    The composition of the gateway's surface ([Api]), the account manager and its
    runtimes ([Manager], [Runtime]) with the venue adapters' replies ([Commands]):
    what the HTTP status of [POST /v1/accounts/{id}/orders] says of the order. *)

From Stdlib Require Import Ascii String ZArith Lia.
From stdpp Require Import base list strings gmap.
From S2P Require Import Prelude GoStrings Decimals Errors Model Venue MarketCatalog HttpErrors Orders OrderBook Hub Runtime Store Feeds Credentials Manager Api Clients VenueErrors Commands.

#[local] Open Scope string_scope.
#[local] Open Scope list_scope.
#[local] Open Scope Z_scope.
#[local] Open Scope go_scope.

Section placement.
Context `{Decimal D} `{AEAD} `{JsonText}.
Context (implementation : float64 → Z) (float_text : float64 → string) (parse_float : string → option float64).
Context (principal : string → string) (factory : string → Market → bool → Credentials → result error (VenueClient D)).
Context (connectors : Market → Connector D) (text : error → string).
Abbreviation serve := (ServeHTTP implementation float_text parse_float principal factory connectors text).

(** The status that goes with each outcome. *)
Lemma place_status_outcome (p : PlaceResult) : pl_Status p = OutcomeAccepted ∨ pl_Status p = OutcomeRejected ∨ pl_Status p = OutcomeUnknown →
  (place_status p = 200 ↔ pl_Status p = OutcomeAccepted) ∧ (place_status p = 422 ↔ pl_Status p = OutcomeRejected) ∧ (place_status p = 202 ↔ pl_Status p = OutcomeUnknown).
Proof. unfold place_status. intros [->|[->| ->]]; simpl; naive_solver. Qed.
Lemma classify_outcome now id order (ack : OrderAcknowledgement D) err : let o := pl_Status (classify now id order ack err) in o = OutcomeAccepted ∨ o = OutcomeRejected ∨ o = OutcomeUnknown.
Proof. unfold classify. destruct err; [destruct (proves_refusal _ _)|destruct (accepted_status _); [|destruct (String.eqb _ _)]]; simpl; auto. Qed.

(** C25: a placement request that carries the token is answered with a placement result
    exactly when the venue's client was called with the order, and with an error
    body when it was not.  The status is 200 exactly when the client acknowledged
    the order in one of the accepted states without an error.  When the command
    failed at the venue, the status is never 200: it is 422 only if the request
    never left the process, the venue throttled it or its refusal was decoded, and
    202 when none of these holds, in particular when no answer arrived. *)
Theorem placement_answer (s : Server (D:=D)) r e id :
  rq_authorization r = "Bearer " +:+ sv_token s → route (rq_method r) (rq_escaped r) (rq_segments r) = Ok (EpPlaceOrder id) →
  let rp := (serve s r e).2 in
  match venue_call text s r id with
  | Some (i, order, (ack, err)) =>
      rp_content rp = CPayload (PayPlace (classify (env_now e) (mi_ID i) order ack err)) ∧
      (rp_status rp = 200 ∨ rp_status rp = 422 ∨ rp_status rp = 202) ∧
      (rp_status rp = 200 ↔ err = None ∧ ack_State ack ∈ [AckAcceptedPending; AckResting; AckPartiallyFilled; AckImmediatelyFilled; AckCanceled]) ∧
      ∀ x api proof, command_failed x api proof (ack, err) →
        rp_status rp ≠ 200 ∧ (rp_status rp = 422 → not_sent x ∨ rate_limited x = true ∨ proof) ∧ (¬ not_sent x → rate_limited x = false → ¬ proof → rp_status rp = 202)
  | None => rp_status rp ∈ failure_statuses ∧ ∀ p, rp_content rp ≠ CPayload p
  end.
Proof.
  intros Ha%authorized_iff Hr. cbv zeta. unfold ServeHTTP. rewrite Ha, andb_false_r, Hr. cbn [handle]. unfold venue_call.
  destruct (decodeBody place_fields r) as [body|]; cbn [mbind option_bind].
  2:{ split; [|done]. left. }
  unfold Manager.Place. destruct (resolve _ _ _ _) as [[rt i]|err]; [|apply fail_status]. cbn [on_runtime fst snd].
  unfold Runtime.Place. destruct (clientFor rt i) as [client|err]; [|apply fail_status].
  destruct (native _ i) as [order|err]; [|apply fail_status].
  destruct (vc_place (orders client) order) as [ack err]. cbn [writeJSON snd rp_content rp_status]. split; [done|].
  pose proof (classify_outcome (env_now e) (mi_ID i) order ack err) as Ho. cbv zeta in Ho. destruct (place_status_outcome _ Ho) as (H200 & H422 & H202).
  split; [rewrite H200, H422, H202; tauto|]. split.
  - rewrite H200, classify_accepted. apply and_iff_compat_l. unfold accepted_status.
    rewrite !elem_of_cons, elem_of_nil. destruct (String.eqb_spec (ack_State ack) AckAcceptedPending); [naive_solver|]. destruct (String.eqb_spec (ack_State ack) AckResting); [naive_solver|].
    destruct (String.eqb_spec (ack_State ack) AckPartiallyFilled); [naive_solver|]. destruct (String.eqb_spec (ack_State ack) AckImmediatelyFilled); [naive_solver|].
    destruct (String.eqb_spec (ack_State ack) AckCanceled); [naive_solver|]. split; [by intros []|naive_solver].
  - intros x api proof Hf. destruct (refusal_cases x api proof (ack, err) (env_now e) (mi_ID i) order Hf) as (Hev & Hlost & Hst). cbn [fst snd] in *. rewrite H200, H422, H202.
    split; [destruct Hst as [-> | ->]; done|]. split; done.
Qed.
End placement.

(** ** Concrete requests *)

#[local] Existing Instance bits_json.
#[local] Existing Instance checksum_aead.

Lemma placement_answer_witness :
  rp_status (sample_serve order_request sample_environment).2 = 200 ∧
  match venue_call (λ _, "") sample_server order_request "acc1" with
  | Some (_, _, (ack, err)) => err = None ∧ ack_State ack ∈ [AckAcceptedPending; AckResting; AckPartiallyFilled; AckImmediatelyFilled; AckCanceled]
  | None => False
  end.
Proof.
  assert (Hs : rp_status (sample_serve order_request sample_environment).2 = 200) by (vm_compute; reflexivity).
  split; [exact Hs|].
  pose proof (placement_answer (λ _, 0) (λ _, "") (λ _, None) id sample_factory (λ _, sample_connector) (λ _, "") sample_server order_request
    sample_environment "acc1") as Hp.
  specialize (Hp ltac:(reflexivity) ltac:(vm_compute; reflexivity)). cbv zeta in Hp.
  destruct (venue_call (λ _, "") sample_server order_request "acc1") as [[[i order] [ack err]]|] eqn:E.
  - destruct Hp as (_ & _ & Hok & _). apply Hok. exact Hs.
  - vm_compute in E. discriminate E.
Defined.
