(* ===== verification/FundingLoaders.v ===== *)
(** * Loading settled funding rates

    The [LoadFundingHistory] methods of [exchange/internal/factoryclient]
    ([binance_funding_loader.go], [aster_funding_loader.go],
    [okx_funding_loader.go], [bybit_bitget_funding_loader.go],
    [gate_funding_loader.go], [lighter_funding_loader.go],
    [hyperliquid_funding_loader.go]) and the parsers they share
    ([funding_board.go]).  A venue's endpoint is a function from what the loader
    sends to the reply.  Two loaders walk pages: Hyperliquid's forwards from the
    start of the window, Bitget's backwards from the newest settlement. *)

From Stdlib Require Import Ascii String ZArith Lia Sorted SpecFloat.
From stdpp Require Import base list sets strings sorting.
From S2P Require Import Prelude GoStrings Decimals DecimalText Errors Model Sockets InstrumentCatalog FundingHistory Derivative DerivativeFeed Clients HyperliquidMarkets VenueErrors.

#[local] Open Scope string_scope.
#[local] Open Scope list_scope.
#[local] Open Scope Z_scope.
#[local] Open Scope go_scope.

Definition binanceFundingHistoryMax : Z := 1000.
Definition asterFundingHistoryMax : Z := 1000.
Definition okxFundingHistoryMax : Z := 100.
Definition bybitFundingHistoryMax : Z := 200.
Definition gateFundingHistoryMax : Z := 1000.
Definition lighterFundingHistoryMax : Z := 750.
Definition bitgetFundingHistoryPage : nat := 100.
Definition bitgetFundingHistoryMaxPages : nat := 10.
Definition hyperliquidFundingHistoryPage : nat := 500.
Definition hyperliquidFundingHistoryMaxPages : nat := 4.

(** ** The venues' rows *)

(** Binance, Aster and Hyperliquid *)
Record FundingRateHistoryEntry := mkHistoryEntry { he_FundingTime : Z; he_FundingRate : string }.
(** Bybit and Bitget: the stamp is a text *)
Record TextHistoryEntry := mkTextEntry { te_FundingTime : string; te_FundingRate : string }.
Record OKXHistoryEntry := mkOKXEntry { ok_InstId : string; ok_RealizedRate : string; ok_FundingRate : string; ok_FundingTime : string }.
Record LighterHistoryEntry := mkLighterEntry { lh_Timestamp : Z; lh_Rate : string; lh_Direction : string }.

Definition okxMillis (raw : string) : option time := FromMilli <$> ParseInt raw.
Definition okxOptionalMillis (raw : string) : option time := if is_empty (TrimSpace raw) then Some zero_time else okxMillis raw.

(** [int64(f)] of a finite [f] *)
Definition truncate_int (f : float64) : Z :=
  match f with
  | S754_finite sign m e =>
      let n := if 0 <=? e then Zpos m * 2 ^ e else Zpos m / 2 ^ (- e) in if sign then - n else n
  | _ => 0
  end.

Section loaders.
Context `{Decimal D} `{DecimalText D}.
(** [Decimal.Neg] and [Decimal.IntPart] *)
Context (d_neg : D → D) (d_int_part : D → Z).
Local Notation point := (FundingHistoryPoint D).
Local Notation snapshot := (FundingHistorySnapshot D).
Implicit Types (request : FundingHistoryRequest) (now : time).

Definition positiveOrNegativeDecimal (value : string) : option D := d_new_from_string value.
Definition decimalOrSkip (value : string) : option D := positiveOrNegativeDecimal (TrimSpace value).
Definition fundingUnixMillis (value : string) : time :=
  match d_new_from_string value with
  | Some parsed => if d_is_positive parsed then FromMilli (d_int_part parsed) else zero_time
  | None => zero_time
  end.
Definition settled_point (t : time) (rate : D) : point := mkPoint t rate (mkOptInt 0 false).

(** The loops over a reply: rows without a rate are skipped. *)
Definition entry_point (row : FundingRateHistoryEntry) : option point :=
  settled_point (fundingHistoryMillisTime (he_FundingTime row)) <$> decimalOrSkip (he_FundingRate row).
Definition okx_point (row : OKXHistoryEntry) : option point :=
  let rate := match decimalOrSkip (ok_RealizedRate row) with Some rate => Some rate | None => decimalOrSkip (ok_FundingRate row) end in
  rate ← rate;
  settled ← okxOptionalMillis (ok_FundingTime row);
  if IsZero settled then None else Some (settled_point settled rate).
Definition bybit_point (row : TextHistoryEntry) : option point :=
  settled_point (fundingUnixMillis (te_FundingTime row)) <$> decimalOrSkip (te_FundingRate row).
Definition gate_point (row : FundingRateHistoryEntry) : option point :=
  settled_point (fundingHistorySecondsTime (he_FundingTime row)) <$> decimalOrSkip (he_FundingRate row).
Definition lighter_point (row : LighterHistoryEntry) : option point :=
  rate ← decimalOrSkip (lh_Rate row);
  let rate := d_div rate (d_new 100 0) in
  if String.eqb (lh_Direction row) "long" then Some (settled_point (fundingHistorySecondsTime (lh_Timestamp row)) rate)
  else if String.eqb (lh_Direction row) "short" then Some (settled_point (fundingHistorySecondsTime (lh_Timestamp row)) (d_neg rate))
  else None.

(** One call, and its reply as a series. *)
Definition one_call {R} request now (point_of : R → option point) (normalize : sdk_error → error) (reply : result sdk_error (list R)) : result error snapshot :=
  match reply with
  | Ok rows => Ok (fundingHistorySnapshot request (omap point_of rows) now)
  | Err s => Err (normalize s)
  end.

(** [get native since until limit] *)
Definition window_endpoint (R : Type) : Type := string → Z → Z → Z → result sdk_error (list R).

Definition binance_LoadFundingHistory (get : window_endpoint FundingRateHistoryEntry) request now : result error snapshot :=
  window <-? fundingHistoryWindow request ;;
  one_call request now entry_point (binancePerpNormalizeError fundingHistoryOperation)
    (get (fundingHistoryNative request) window.1 window.2 (fundingHistoryLimit request binanceFundingHistoryMax)).

(** [sdk]: the client could not be built, for the reason given *)
Definition aster_LoadFundingHistory (sdk : result string unit) (get : window_endpoint FundingRateHistoryEntry) request now : result error snapshot :=
  window <-? fundingHistoryWindow request ;;
  match sdk with
  | Err reason => Err (asterErr ProductPerp fundingHistoryOperation KindInvalidConfig reason)
  | Ok _ =>
      one_call request now entry_point (asterNormalizeErr ProductPerp fundingHistoryOperation)
        (get (fundingHistoryNative request) window.1 window.2 (fundingHistoryLimit request asterFundingHistoryMax))
  end.

(** OKX's [before] selects newer rows and [after] older ones. *)
Definition okx_LoadFundingHistory (get : string → forall (before after limit : Z), result sdk_error (list OKXHistoryEntry)) request now : result error snapshot :=
  window <-? fundingHistoryWindow request ;;
  one_call request now okx_point (okxNormalizeErr ProductPerp fundingHistoryOperation)
    (get (fundingHistoryNative request) window.1 window.2 (fundingHistoryLimit request okxFundingHistoryMax)).

Definition bybit_LoadFundingHistory (get : window_endpoint TextHistoryEntry) request now : result error snapshot :=
  window <-? fundingHistoryWindow request ;;
  one_call request now bybit_point (normErr (mkMeta VenueBybit ProductPerp) fundingHistoryOperation)
    (get (fundingHistoryNative request) window.1 window.2 (fundingHistoryLimit request bybitFundingHistoryMax)).

Definition gate_LoadFundingHistory (get : string → time → time → Z → result sdk_error (list FundingRateHistoryEntry)) request now : result error snapshot :=
  _ <-? fundingHistoryWindow request ;;
  one_call request now gate_point (gateNormalizeErr (mkMeta VenueGate ProductPerp) fundingHistoryOperation)
    (get (fundingHistoryNative request) (fr_Since request) (fr_Until request) (fundingHistoryLimit request gateFundingHistoryMax)).

Definition lighter_count_back request : Z :=
  let countBack := truncate_int (Hours (Sub (fr_Until request) (fr_Since request))) + 1 in
  if lighterFundingHistoryMax <? countBack then lighterFundingHistoryMax else countBack.
(** [Unix] in seconds; [None] is a nil reply *)
Definition UnixSeconds (t : time) : Z := (t - unix_epoch) / Second.
Definition lighter_LoadFundingHistory (get : Z → Z → Z → Z → result sdk_error (option (list LighterHistoryEntry))) request now : result error snapshot :=
  _ <-? fundingHistoryWindow request ;;
  match ParseInt (fr_NativeID request) with
  | None => Err (fundingHistoryInvalid "lighter funding history requires a numeric market id")
  | Some marketID =>
      match get marketID (UnixSeconds (fr_Since request)) (UnixSeconds (fr_Until request)) (lighter_count_back request) with
      | Err s => Err (lighterNormalizeErr ProductPerp fundingHistoryOperation s)
      | Ok None => Ok (fundingHistorySnapshot request [] now)
      | Ok (Some rows) => Ok (fundingHistorySnapshot request (omap lighter_point rows) now)
      end
  end.

(** ** Walking forwards *)

Definition newest_stamp (cursor : Z) (rows : list FundingRateHistoryEntry) : Z :=
  foldl (λ newest row, if newest <? he_FundingTime row then he_FundingTime row else newest) cursor rows.
Fixpoint hyperliquid_walk (pages : nat) (get : Z → result native_error (list FundingRateHistoryEntry)) (cursor : Z) (points : list point)
  : result native_error (list point) :=
  match pages with
  | O => Ok points
  | S pages =>
      rows <-? get cursor ;;
      match rows with
      | [] => Ok points
      | _ =>
          let newest := newest_stamp cursor rows in
          let points := points ++ omap entry_point rows in
          if (length rows <? hyperliquidFundingHistoryPage)%nat || (newest <=? cursor) then Ok points
          else hyperliquid_walk pages get (newest + 1) points
      end
  end.
(** [get dex native cursor until] *)
Definition hyperliquid_LoadFundingHistory (get : string → string → Z → Z → result native_error (list FundingRateHistoryEntry)) request now
  : result error snapshot :=
  window <-? fundingHistoryWindow request ;;
  let native := fundingHistoryNative request in
  let dex := match split_once ":" native with Some (prefix, _) => prefix | None => "" end in
  match hyperliquid_walk hyperliquidFundingHistoryMaxPages (λ cursor, get dex native cursor window.2) window.1 [] with
  | Err n => Err (hlNormalizeQueryErr ProductPerp fundingHistoryOperation n)
  | Ok points => Ok (fundingHistorySnapshot request points now)
  end.

(** ** Walking backwards *)

(** The loop over a page: does it reach the start, and its points *)
Definition bitget_reached (since : time) (rows : list TextHistoryEntry) : bool :=
  existsb (λ row, let settled := fundingUnixMillis (te_FundingTime row) in negb (IsZero settled) && negb (After settled since)) rows.
Definition bitget_point (row : TextHistoryEntry) : option point :=
  let settled := fundingUnixMillis (te_FundingTime row) in
  if IsZero settled then None else settled_point settled <$> decimalOrSkip (te_FundingRate row).
Fixpoint bitget_walk (pages : nat) (get : nat → result sdk_error (list TextHistoryEntry)) (since : time) (page : nat) (points : list point)
  : result sdk_error (list point) :=
  match pages with
  | O => Ok points
  | S pages =>
      rows <-? get page ;;
      match rows with
      | [] => Ok points
      | _ =>
          let points := points ++ omap bitget_point rows in
          if bitget_reached since rows || (length rows <? bitgetFundingHistoryPage)%nat then Ok points
          else bitget_walk pages get since (S page) points
      end
  end.
(** [get native productType pageSize page] *)
Definition bitget_LoadFundingHistory (productType : string) (get : string → string → nat → nat → result sdk_error (list TextHistoryEntry)) request now
  : result error snapshot :=
  _ <-? fundingHistoryWindow request ;;
  match bitget_walk bitgetFundingHistoryMaxPages (get (fundingHistoryNative request) productType bitgetFundingHistoryPage) (fr_Since request) 1 [] with
  | Err s => Err (normErr (mkMeta VenueBitget ProductPerp) fundingHistoryOperation s)
  | Ok points => Ok (fundingHistorySnapshot request points now)
  end.
End loaders.

(** ** The forward walk reads the whole window *)

(** A strictly sorted list has no two incomparable elements. *)
Lemma sorted_distinct {A} (R : A → A → Prop) l a b : StronglySorted R l → a ∈ l → b ∈ l → ¬ R a b → ¬ R b a → a = b.
Proof.
  induction 1 as [|x l Hl IH Hx]; [set_solver|]. rewrite Forall_forall in Hx.
  intros [->|Ha]%elem_of_cons [->|Hb]%elem_of_cons Hab Hba; auto; exfalso; [by apply Hab, Hx|by apply Hba, Hx].
Qed.
Lemma filter_none {A} (f : A → bool) l : (∀ x, In x l → f x = false) → List.filter f l = [].
Proof. induction l as [|x l IH]; intros Hl; [done|]. simpl. rewrite (Hl x (or_introl eq_refl)). apply IH. intros y Hy. apply Hl. by right. Qed.
Lemma filter_all {A} (f : A → bool) l : (∀ x, In x l → f x = true) → List.filter f l = l.
Proof. induction l as [|x l IH]; intros Hl; [done|]. simpl. rewrite (Hl x (or_introl eq_refl)). f_equal. apply IH. intros y Hy. apply Hl. by right. Qed.

Section forward.
Context `{Decimal D} `{DecimalText D}.
Local Notation ht := he_FundingTime.
Local Notation entry_point := (entry_point (D:=D)).
Implicit Types (history rows : list FundingRateHistoryEntry) (request : FundingHistoryRequest).

Definition by_stamp : FundingRateHistoryEntry → FundingRateHistoryEntry → Prop := λ a b, ht a < ht b.
Definition window_rows history (start until : Z) : list FundingRateHistoryEntry :=
  List.filter (λ row, (start <=? ht row) && (ht row <=? until)) history.
(** What Hyperliquid documents: the settlements of the window in order, the
    oldest five hundred of them. *)
Definition hyperliquid_endpoint history (start until : Z) : result native_error (list FundingRateHistoryEntry) :=
  Ok (take hyperliquidFundingHistoryPage (window_rows history start until)).

Lemma newest_stamp_snoc cursor rows row :
  newest_stamp cursor (rows ++ [row]) = Z.max (newest_stamp cursor rows) (ht row).
Proof. unfold newest_stamp. rewrite foldl_app. simpl. destruct (Z.ltb_spec (foldl (λ newest row0, if newest <? ht row0 then ht row0 else newest) cursor rows) (ht row)); lia. Qed.
Lemma newest_stamp_max cursor rows : StronglySorted by_stamp rows → (∀ row, row ∈ rows → cursor ≤ ht row) →
  newest_stamp cursor rows = match last rows with Some row => ht row | None => cursor end.
Proof.
  induction rows as [|row rows IH] using rev_ind; [done|]. intros Hs Hc. rewrite newest_stamp_snoc, last_snoc.
  pose proof (Hc row ltac:(set_solver)) as Hr. rewrite IH; [|by apply StronglySorted_app_1_l in Hs|intros x Hx; apply Hc; set_solver].
  destruct (last rows) as [x|] eqn:E; [|lia]. apply last_Some_elem_of in E.
  pose proof (StronglySorted_app_1_elem_of _ rows [row] x row Hs E ltac:(left)) as Hlt. unfold by_stamp in Hlt. lia.
Qed.

Lemma window_rows_sorted history start until : StronglySorted by_stamp history → StronglySorted by_stamp (window_rows history start until).
Proof.
  unfold window_rows. induction 1 as [|x l Hl IH Hx]; simpl; [constructor|]. destruct (_ && _); [|done]. constructor; [done|].
  rewrite Forall_forall in *. intros y Hy. apply Hx. apply list_elem_of_In, filter_In in Hy as [Hy _]. by apply list_elem_of_In.
Qed.
Lemma elem_of_window_rows history start until row : row ∈ window_rows history start until ↔ row ∈ history ∧ start ≤ ht row ≤ until.
Proof. unfold window_rows. rewrite list_elem_of_In, filter_In, <- list_elem_of_In, andb_true_iff, !Z.leb_le. done. Qed.

(** The window after stamp [t] is what follows the row stamped [t]. *)
Lemma window_rows_after history start until pre row post :
  StronglySorted by_stamp history → window_rows history start until = pre ++ row :: post →
  window_rows history (ht row + 1) until = post.
Proof.
  intros Hs Hw. pose proof (window_rows_sorted history start until Hs) as Hws. rewrite Hw in Hws.
  assert (Hrow : start ≤ ht row) by (apply (elem_of_window_rows history start until row); rewrite Hw; set_solver).
  assert (Hfilter : window_rows history (ht row + 1) until = List.filter (λ r, ht row + 1 <=? ht r) (window_rows history start until)).
  { unfold window_rows. clear -Hrow. induction history as [|x l IH]; simpl; [done|].
    destruct (Z.leb_spec start (ht x)), (Z.leb_spec (ht row + 1) (ht x)), (Z.leb_spec (ht x) until); simpl; rewrite ?IH;
      rewrite ?(proj2 (Z.leb_le _ _)) by lia; rewrite ?(proj2 (Z.leb_gt _ _)) by lia; try done; lia. }
  rewrite Hfilter, Hw, List.filter_app. cbn [List.filter]. rewrite (proj2 (Z.leb_gt _ _)) by lia.
  pose proof Hws as (Hlt & _ & Hpost)%StronglySorted_app. apply StronglySorted_inv in Hpost as [_ Hpost].
  rewrite Forall_forall in Hpost. rewrite filter_none, filter_all; [done|..]; intros x Hx%list_elem_of_In.
  - specialize (Hpost x Hx). unfold by_stamp in Hpost. apply Z.leb_le. lia.
  - specialize (Hlt x row Hx ltac:(left)). unfold by_stamp in Hlt. apply Z.leb_gt. lia.
Qed.

Lemma hyperliquid_walk_exact history until pages start points :
  StronglySorted by_stamp history →
  hyperliquid_walk pages (λ cursor, hyperliquid_endpoint history cursor until) start points =
  Ok (points ++ omap entry_point (take (pages * hyperliquidFundingHistoryPage) (window_rows history start until))).
Proof.
  intros Hs. revert start points. induction pages as [|pages IH]; intros start points; [by rewrite app_nil_r|].
  cbn [hyperliquid_walk]. unfold hyperliquid_endpoint at 1. set (W := window_rows history start until).
  set (P := hyperliquidFundingHistoryPage). assert (HP : (2 ≤ P)%nat) by (unfold P, hyperliquidFundingHistoryPage; lia).
  assert (HWs : StronglySorted by_stamp W) by (by apply window_rows_sorted).
  assert (HWc : ∀ row, row ∈ take P W → start ≤ ht row).
  { intros row Hrow%elem_of_take. destruct Hrow as (i & Hi & _). apply list_elem_of_lookup_2 in Hi.
    by apply elem_of_window_rows in Hi as [_ [? _]]. }
  assert (Hts : StronglySorted by_stamp (take P W)).
  { rewrite <- (take_drop P W) in HWs. by apply StronglySorted_app_1_l in HWs. }
  destruct (take P W) as [|r0 rows] eqn:Et.
  { assert (HW : W = []) by (destruct W; [done|destruct P; [lia|done]]). by rewrite HW, take_nil, app_nil_r. }
  rewrite (newest_stamp_max start (r0 :: rows) Hts HWc).
  destruct (Nat.ltb_spec (length (r0 :: rows)) P) as [Hlt|Hge]; cbn [orb].
  { assert (HW : (length W < P)%nat) by (rewrite <- Et, length_take in Hlt; lia).
    rewrite (take_ge W (S pages * P)) by nia. rewrite take_ge in Et by lia. by rewrite Et. }
  assert (Hlen : length (r0 :: rows) = P) by (rewrite <- Et, length_take in *; lia).
  destruct (exists_last (l := r0 :: rows) ltac:(done)) as (pre & row & Erow). rewrite Erow, last_snoc.
  assert (Hnew : start < ht row).
  { rewrite Erow in Hts, HWc, Hlen. rewrite length_app in Hlen. simpl in Hlen. destruct pre as [|x pre]; [simpl in Hlen; lia|].
    pose proof (StronglySorted_app_1_elem_of _ (x :: pre) [row] x row Hts ltac:(left) ltac:(left)) as Hlt'.
    specialize (HWc x ltac:(left)). unfold by_stamp in Hlt'. lia. }
  destruct (Z.leb_spec (ht row) start) as [|_]; [lia|].
  assert (HW : W = (pre ++ [row]) ++ drop P W) by (rewrite <- Erow, <- Et; by rewrite take_drop).
  rewrite IH. rewrite (window_rows_after history start until pre row (drop P W) Hs); [|fold W; rewrite HW at 1; by rewrite <- app_assoc].
  rewrite <- app_assoc, <- omap_app, <- Erow, <- Et. do 3 f_equal. cbn [Nat.mul]. by rewrite take_take_drop.
Qed.

(** ** The loaded series *)

Lemma in_window_millis request t since until :
  fundingHistoryWindow request = Ok (since, until) → in_window request (FromMilli t) = true → since ≤ t ≤ until.
Proof.
  unfold fundingHistoryWindow. rewrite !check_Ok. intros (_ & Hz & _ & [= <- <-]). apply negb_true_iff, orb_false_iff in Hz as [Hz1 Hz2].
  unfold in_window. rewrite Hz1, Hz2, andb_true_iff, !negb_true_iff. cbn [negb andb]. unfold Before, After. rewrite !Z.ltb_ge. intros [Hs Hu].
  unfold UnixMilli, FromMilli, Millisecond in *. split; [apply Z.div_le_upper_bound|apply Z.div_le_lower_bound]; lia.
Qed.

(** Every row the walk reads is a settlement the window asked for, and there is
    one point per settlement. *)
Lemma entry_point_Some row p : entry_point row = Some p ↔
  ∃ rate, decimalOrSkip (he_FundingRate row) = Some rate ∧ p = settled_point (fundingHistoryMillisTime (ht row)) rate.
Proof. unfold FundingLoaders.entry_point. destruct (decimalOrSkip _); simpl; naive_solver. Qed.
Lemma fundingHistoryMillisTime_pos ms : 0 < ms → fundingHistoryMillisTime ms = FromMilli ms ∧ FromMilli ms ≠ zero_time.
Proof.
  intros Hms. unfold fundingHistoryMillisTime. rewrite (proj2 (Z.leb_gt _ _)) by lia. split; [done|].
  assert (0 < unix_epoch) by (vm_compute; done). unfold FromMilli, zero_time, Millisecond. lia.
Qed.
(** C12: the Hyperliquid loader walks the whole window: against an endpoint that
    answers as documented, with at most five hundred settlements from the
    requested start, a window of up to two thousand settlements loads completely.
    The series holds exactly the settled rates of the window, each once. *)
Theorem hyperliquid_history_complete history request now since until :
  StronglySorted by_stamp history → (∀ row, row ∈ history → 0 < ht row) →
  fundingHistoryWindow request = Ok (since, until) →
  (length (window_rows history since until) ≤ 2000)%nat →
  ∃ series, hyperliquid_LoadFundingHistory (D:=D) (λ _ _, hyperliquid_endpoint history) request now = Ok series ∧
    ∀ t rate, (∃ p, p ∈ fs_Points series ∧ fp_FundingTime p = t ∧ fp_Rate p = rate) ↔
      ∃ row, row ∈ history ∧ t = FromMilli (ht row) ∧ decimalOrSkip (he_FundingRate row) = Some rate ∧ in_window request t = true.
Proof.
  intros Hs Hpos Hw Hlen. unfold hyperliquid_LoadFundingHistory. rewrite Hw. cbn [fst snd].
  rewrite hyperliquid_walk_exact by done. cbn [app]. eexists. split; [done|]. intros t rate.
  rewrite take_ge by (unfold hyperliquidFundingHistoryMaxPages, hyperliquidFundingHistoryPage; lia).
  rewrite series_rates.
  - split.
    + intros (p & (row & Hrow & Hp)%list_elem_of_omap & <- & <- & Hz & Hin). apply elem_of_window_rows in Hrow as [Hrow _].
      apply entry_point_Some in Hp as (rate' & Hr & ->). exists row. simpl in *. specialize (Hpos row Hrow).
      destruct (fundingHistoryMillisTime_pos _ Hpos) as [E _]. rewrite E in *. by split_and!.
    + intros (row & Hrow & -> & Hr & Hin). destruct (fundingHistoryMillisTime_pos _ (Hpos row Hrow)) as [Et Hz].
      exists (settled_point (fundingHistoryMillisTime (ht row)) rate). split_and!; try done. apply list_elem_of_omap. exists row.
      split; [|apply entry_point_Some; eauto]. apply elem_of_window_rows. split; [done|]. by apply (in_window_millis request).
  - intros p q (a & Ha & Hp)%list_elem_of_omap (b & Hb & Hq)%list_elem_of_omap E.
    apply elem_of_window_rows in Ha as [Ha _], Hb as [Hb _].
    apply entry_point_Some in Hp as (ra & Hra & ->), Hq as (rb & Hrb & ->). simpl in E.
    destruct (fundingHistoryMillisTime_pos _ (Hpos a Ha)) as [Ea _], (fundingHistoryMillisTime_pos _ (Hpos b Hb)) as [Eb _].
    assert (a = b) as <-; [|congruence]. apply (sorted_distinct by_stamp history); [done..| |];
      rewrite Ea, Eb in E; unfold by_stamp, FromMilli, Millisecond in *; lia.
Qed.
End forward.

(** ** The backward walk reaches the start of the window *)

Section backward.
Context `{Decimal D} `{DecimalText D} (d_int_part : D → Z).
Local Notation bitget_point := (bitget_point d_int_part).
Local Notation P := bitgetFundingHistoryPage.
Implicit Types (history rows : list TextHistoryEntry) (request : FundingHistoryRequest).

Definition settled (row : TextHistoryEntry) : time := fundingUnixMillis d_int_part (te_FundingTime row).
Definition newest_first : TextHistoryEntry → TextHistoryEntry → Prop := λ a b, settled b < settled a.
(** What Bitget documents: the numbered page of the history, newest first. *)
Definition bitget_endpoint history (pageSize page : nat) : result sdk_error (list TextHistoryEntry) :=
  Ok (take pageSize (drop ((page - 1) * pageSize) history)).

(** The walk returns the rows of a prefix of the history; what it leaves is
    older than the start, unless the pages ran out. *)
Lemma bitget_walk_prefix history since pages page points :
  StronglySorted newest_first history → (∀ row, row ∈ history → settled row ≠ zero_time) →
  ∃ n, bitget_walk d_int_part pages (bitget_endpoint history P) since (S page) points =
         Ok (points ++ omap bitget_point (take n (drop (page * P) history))) ∧
       (n = (pages * P)%nat ∨ ∀ row, row ∈ drop (page * P + n) history → settled row < since).
Proof.
  intros Hs Hz. revert page points. induction pages as [|pages IH]; intros page points; [exists O; rewrite app_nil_r; by auto|].
  cbn [bitget_walk]. unfold bitget_endpoint at 1. replace (S page - 1)%nat with page by lia. set (rest := drop (page * P) history).
  assert (HP : P = 100%nat) by done.
  destruct (take P rest) as [|r0 rows] eqn:Et.
  { exists O. rewrite take_0, app_nil_r. split; [done|right]. rewrite Nat.add_0_r. fold rest.
    assert (Hrest : rest = []) by (destruct rest; [done|by rewrite HP in Et]). rewrite Hrest. set_solver. }
  rewrite <- Et. destruct (bitget_reached d_int_part since (take P rest)) eqn:Hr; cbn [orb].
  { exists P. split; [done|right]. intros row Hrow. rewrite <- drop_drop in Hrow. fold rest in Hrow.
    unfold bitget_reached in Hr. apply existsb_exists in Hr as (x & Hx%list_elem_of_In & Hb). unfold IsZero, After in Hb. breflect.
    assert (Hrs : StronglySorted newest_first (take P rest ++ drop P rest)).
    { rewrite take_drop. unfold rest. rewrite <- (take_drop (page * P) history) in Hs. by apply StronglySorted_app_1_r in Hs. }
    pose proof (StronglySorted_app_1_elem_of _ _ _ x row Hrs Hx Hrow) as Hlt. unfold newest_first, settled in *. lia. }
  destruct (Nat.ltb_spec (length (take P rest)) P) as [Hlt|Hge].
  { exists P. split; [done|right]. intros row. rewrite <- drop_drop. fold rest. rewrite length_take in Hlt. rewrite drop_ge by lia. set_solver. }
  destruct (IH (S page) (points ++ omap bitget_point (take P rest))) as (n & -> & Hn). exists (P + n)%nat. split.
  - rewrite <- app_assoc, <- omap_app. do 3 f_equal. rewrite <- take_take_drop. f_equal. unfold rest. rewrite drop_drop. f_equal. f_equal. lia.
  - destruct Hn as [->|Hn]; [left; lia|right]. by replace (page * P + (P + n))%nat with (S page * P + n)%nat by lia.
Qed.

Lemma bitget_point_Some row p : bitget_point row = Some p ↔
  settled row ≠ zero_time ∧ ∃ rate, decimalOrSkip (te_FundingRate row) = Some rate ∧ p = settled_point (settled row) rate.
Proof.
  unfold FundingLoaders.bitget_point, IsZero, zero_time. fold (settled row). destruct (Z.eqb_spec (settled row) 0) as [E|E].
  - rewrite E. simpl. split; [done|]. by intros [[] _].
  - destruct (decimalOrSkip _); simpl; naive_solver.
Qed.

(** The settlements from [since] on *)
Definition rows_since history (since : time) : list TextHistoryEntry := List.filter (λ row, since <=? settled row) history.
(** The rows of the window are among the first ones. *)
Lemma window_prefix history since n row :
  StronglySorted newest_first history → row ∈ history → since ≤ settled row →
  (length (rows_since history since) ≤ n)%nat → row ∈ take n history.
Proof.
  intros Hs Hrow Hin Hlen. rewrite <- (take_drop n history) in Hrow. apply elem_of_app in Hrow as [?|Hrow]; [done|exfalso].
  rewrite <- (take_drop n history) in Hs, Hlen. unfold rows_since in Hlen. rewrite List.filter_app, length_app in Hlen.
  assert (Hpre : List.filter (λ row, since <=? settled row) (take n history) = take n history).
  { apply filter_all. intros x Hx%list_elem_of_In. apply Z.leb_le.
    pose proof (StronglySorted_app_1_elem_of _ _ _ x row Hs Hx Hrow) as Hlt. unfold newest_first in Hlt. lia. }
  rewrite Hpre in Hlen.
  assert (Hpost : (0 < length (rows_since (drop n history) since))%nat).
  { unfold rows_since. destruct (List.filter _ (drop n history)) as [|y l] eqn:E; [|simpl; lia]. exfalso.
    assert (Hy : In row (List.filter (λ row, since <=? settled row) (drop n history)))
      by (apply filter_In; split; [by apply list_elem_of_In|by apply Z.leb_le]). by rewrite E in Hy. }
  assert (Hn : (n < length history)%nat) by (destruct (decide (n < length history)%nat); [done|rewrite drop_ge in Hrow by lia; set_solver]).
  rewrite length_take in Hlen. unfold rows_since in Hpost. lia.
Qed.

(** The Bitget loader pages back from the newest settlement until it has passed
    the requested start: against an endpoint that answers the numbered page of
    its history, newest first, every settled rate of the window is in the series,
    and only those, as long as no more than a thousand settlements are newer than
    the start. *)
Theorem bitget_history_complete history productType request now :
  StronglySorted newest_first history → (∀ row, row ∈ history → settled row ≠ zero_time) →
  is_ok (fundingHistoryWindow request) = true →
  (length (rows_since history (fr_Since request)) ≤ 1000)%nat →
  ∃ series, bitget_LoadFundingHistory (D:=D) d_int_part productType (λ _ _, bitget_endpoint history) request now = Ok series ∧
    ∀ t rate, (∃ p, p ∈ fs_Points series ∧ fp_FundingTime p = t ∧ fp_Rate p = rate) ↔
      ∃ row, row ∈ history ∧ t = settled row ∧ decimalOrSkip (te_FundingRate row) = Some rate ∧ in_window request t = true.
Proof.
  intros Hs Hz (w & Hw)%is_ok_Ok Hlen. unfold bitget_LoadFundingHistory. rewrite Hw.
  destruct (bitget_walk_prefix history (fr_Since request) bitgetFundingHistoryMaxPages 0 [] Hs Hz) as (n & -> & Hn).
  eexists. split; [done|]. intros t rate. cbn [app]. change (0 * P)%nat with 0%nat in *. rewrite drop_0. rewrite series_rates.
  - split.
    + intros (p & (row & Hrow & Hp)%list_elem_of_omap & <- & <- & _ & Hin). apply bitget_point_Some in Hp as (Hz' & rate' & Hr & ->).
      exists row. split_and!; try done. by apply elem_of_take in Hrow as (i & Hi%list_elem_of_lookup_2 & _).
    + intros (row & Hrow & -> & Hr & Hin). exists (settled_point (settled row) rate). split_and!; try done; [|by apply Hz].
      apply list_elem_of_omap. exists row. split; [|apply bitget_point_Some; eauto].
      assert (Hge : fr_Since request ≤ settled row).
      { clear -Hin Hw. unfold fundingHistoryWindow in Hw. rewrite !check_Ok in Hw. destruct Hw as (_ & Hz & _).
        apply negb_true_iff, orb_false_iff in Hz as [Hz1 Hz2]. unfold in_window in Hin. rewrite Hz1, andb_true_iff, negb_true_iff in Hin.
        destruct Hin as [Hin _]. cbn [negb andb] in Hin. by apply Z.ltb_ge in Hin. }
      destruct Hn as [->|Hn]; [by apply (window_prefix history (fr_Since request))|].
      rewrite <- (take_drop n history) in Hrow. apply elem_of_app in Hrow as [?|Hrow]; [done|]. specialize (Hn row Hrow). lia.
  - intros p q (a & Ha & Hp)%list_elem_of_omap (b & Hb & Hq)%list_elem_of_omap E.
    apply bitget_point_Some in Hp as (_ & ra & Hra & ->), Hq as (_ & rb & Hrb & ->). simpl in E.
    apply elem_of_take in Ha as (i & Ha%list_elem_of_lookup_2 & _), Hb as (j & Hb%list_elem_of_lookup_2 & _).
    assert (a = b) as <-; [|congruence]. apply (sorted_distinct newest_first history); [done..| |]; unfold newest_first; lia.
Qed.
End backward.

(** ** Concrete histories *)

Definition hourly (n : nat) : list FundingRateHistoryEntry := map (λ i, mkHistoryEntry (1700000000000 + Z.of_nat i * 3600000) "0.0000125") (seq 0 n).
Definition history_request (hours : Z) : FundingHistoryRequest :=
  mkHistoryRequest perp_scope "BTC-USDC" "BTC" "" (FromMilli 1700000000000) (FromMilli (1700000000000 + hours * 3600000)) 0.

(** Thirty days of hourly settlements need two calls; one would stop nine days
    short. *)
Example thirty_days_hourly :
  (length ∘ fs_Points) <$> (match hyperliquid_LoadFundingHistory (D:=fixed) (λ _ _, hyperliquid_endpoint (hourly 1000)) (history_request 720) 0 with
                            | Ok series => Some series | Err _ => None end) = Some 721%nat ∧
  length (take hyperliquidFundingHistoryPage (window_rows (hourly 1000) 1700000000000 (1700000000000 + 720 * 3600000))) = 500%nat.
Proof. split; vm_compute; reflexivity. Qed.

Lemma hyperliquid_history_complete_witness :
  ∃ series, hyperliquid_LoadFundingHistory (D:=fixed) (λ _ _, hyperliquid_endpoint (hourly 3)) (history_request 1) 0 = Ok series ∧
    ∀ t rate, (∃ p, p ∈ fs_Points series ∧ fp_FundingTime p = t ∧ fp_Rate p = rate) ↔
      ∃ row, row ∈ hourly 3 ∧ t = FromMilli (he_FundingTime row) ∧ decimalOrSkip (he_FundingRate row) = Some rate ∧ in_window (history_request 1) t = true.
Proof.
  apply (hyperliquid_history_complete (hourly 3) (history_request 1) 0 1700000000000 1700003600000).
  - repeat constructor.
  - intros row Hrow. unfold hourly in Hrow. cbn [map seq] in Hrow.
    repeat (apply elem_of_cons in Hrow as [->|Hrow]; [cbn; lia|]). by apply not_elem_of_nil in Hrow.
  - vm_compute. reflexivity.
  - vm_compute. lia.
Defined.

Definition whole_part (d : fixed) : Z := Z.quot (fx_coef d) (pow10 (fx_places d)).
Definition bitget_rows : list TextHistoryEntry := [mkTextEntry "1700057600000" "0.0002"; mkTextEntry "1700028800000" "0.0001"; mkTextEntry "1700000000000" "-0.0001"].
Lemma bitget_history_complete_witness :
  ∃ series, bitget_LoadFundingHistory whole_part "USDT-FUTURES" (λ _ _, bitget_endpoint bitget_rows) (history_request 8) 0 = Ok series ∧
    ∀ t rate, (∃ p, p ∈ fs_Points series ∧ fp_FundingTime p = t ∧ fp_Rate p = rate) ↔
      ∃ row, row ∈ bitget_rows ∧ t = settled whole_part row ∧ decimalOrSkip (te_FundingRate row) = Some rate ∧ in_window (history_request 8) t = true.
Proof.
  apply (bitget_history_complete whole_part bitget_rows "USDT-FUTURES" (history_request 8) 0).
  - repeat constructor; vm_compute; reflexivity.
  - intros row Hrow. unfold bitget_rows in Hrow. repeat (apply elem_of_cons in Hrow as [->|Hrow]; [vm_compute; discriminate|]). by apply not_elem_of_nil in Hrow.
  - vm_compute. reflexivity.
  - vm_compute. lia.
Defined.
