(* ===== verification/DerivativeLoaders.v ===== *)
(** * Loading derivative snapshots

    The [LoadDerivativeSnapshot] methods of [exchange/internal/factoryclient]
    ([binance_funding_loader.go], [aster_funding_loader.go],
    [okx_funding_loader.go], [bybit_bitget_funding_loader.go],
    [gate_funding_loader.go], [lighter_funding_loader.go],
    [nado_funding_loader.go], [hyperliquid_funding_loader.go]) and the parsers of
    [funding_board.go].  The replies of the venue's endpoints are arguments; an
    enrichment whose failure is ignored is one of them. *)

From Stdlib Require Import Ascii String ZArith Lia SpecFloat DecimalString QArith Qcanon.
From stdpp Require Import base list sets strings gmap.
From S2P Require Import Prelude GoStrings Decimals DecimalText Errors Model Sockets InstrumentCatalog FundingHistory Derivative DerivativeFeed Clients HyperliquidMarkets VenueErrors FundingLoaders.

#[local] Open Scope string_scope.
#[local] Open Scope list_scope.
#[local] Open Scope Z_scope.
#[local] Open Scope go_scope.

Definition derivativeSnapshotOperation := "DerivativeSnapshot.Load".

(** ** Symbols *)

Definition without_suffix (s suffix : string) : string := String.substring 0 (String.length s - String.length suffix) s.
(** [for _, quote := range quotes { if HasSuffix ... }] *)
Fixpoint split_quote (quotes : list string) (s : string) : option (string * string) :=
  match quotes with
  | [] => None
  | quote :: rest =>
      if (String.length quote <? String.length s)%nat && HasSuffix s quote then Some (without_suffix s quote, quote) else split_quote rest s
  end.
Definition binanceSplitPerpSymbol : string → option (string * string) := split_quote ["USDT"; "USDC"].
Definition canonicalSymbol (native base quote : string) : string :=
  if negb (is_empty base) && negb (is_empty quote) then ToUpper (base +:+ "-" +:+ quote)
  else
    let native := ToUpper (TrimSpace native) in
    match split_quote ["USDT"; "USDC"; "USD"] native with
    | Some (base, quote) => base +:+ "-" +:+ quote
    | None => native
    end.
(** [strings.LastIndexAny(s, "-_")] and what follows it *)
Fixpoint after_last_mark (s : string) : option string :=
  match s with
  | EmptyString => None
  | String c s' =>
      match after_last_mark s' with
      | Some rest => Some rest
      | None => if Ascii.eqb c "-" || Ascii.eqb c "_" then Some s' else None
      end
  end.
Definition quoteAsset (instrument : string) : string :=
  let canonical := ToUpper (TrimSpace instrument) in
  let by_suffix := match split_quote ["USDT"; "USDC"; "USD"] canonical with Some (_, quote) => quote | None => "" end in
  match after_last_mark canonical with
  | Some rest => if is_empty rest then by_suffix else rest
  | None => by_suffix
  end.
Definition baseFromCanonical (canonical : string) : string :=
  match split_once "-" canonical with
  | Some (base, _) => if is_empty base then canonical else base
  | None => canonical
  end.
Definition gateSplitSymbol (symbol : string) : string * string :=
  match split_once "_" symbol with
  | Some (base, quote) => if no_byte "_" quote then (base, quote) else (symbol, "")
  | None => (symbol, "")
  end.
Definition gateCanonicalSymbol (base quote native : string) : string :=
  if negb (is_empty base) && negb (is_empty quote) then ToUpper base +:+ "-" +:+ ToUpper quote
  else string_map (λ c, if Ascii.eqb c "_" then "-"%char else c) native.
(** [strings.Split(instrument, "-")[0]] *)
Definition okxSwapBase (instrument : string) : string :=
  match split_once "-" instrument with Some (base, _) => base | None => instrument end.
Definition bitgetMarginCoin (productType : string) : string := if Contains productType "USDC" then "USDC" else "USDT".
Definition firstNonEmpty (values : list string) : string := default "" (List.find (λ v, negb (is_empty (TrimSpace v))) values).

(** [new(big.Int).SetString(s, 10)] *)
Definition big_digits (s : string) : option Z := if is_empty s then None else (λ d, Z.of_N (N.of_uint d)) <$> NilEmpty.uint_of_string s.
Definition big_int (s : string) : option Z :=
  match s with
  | String "-" s' => Z.opp <$> big_digits s'
  | String "+" s' => big_digits s'
  | _ => big_digits s
  end.

(** ** The venues' rows *)

(** Binance and Aster *)
Record PremiumIndex := mkPremium { pi_Symbol : string; pi_LastFundingRate : string; pi_NextFundingTime : Z; pi_MarkPrice : string; pi_IndexPrice : string }.
Record FundingInfo := mkInfo { fi_Symbol : string; fi_FundingIntervalHours : Z }.
Record OKXFundingRate := mkOKXRate { or_InstrumentType : string; or_InstrumentID : string; or_FundingRate : string; or_FundingTime : string; or_NextFundingTime : string; or_Ts : string }.
Record OKXMarkPrice := mkOKXMark { om_InstId : string; om_MarkPx : string; om_Ts : string }.
Record OKXOpenInterest := mkOKXOI { oo_InstId : string; oo_OI : string; oo_OICcy : string; oo_OIUsd : string; oo_Ts : string }.
Record OKXIndexTicker := mkOKXIndex { ox_InstId : string; ox_IdxPx : string; ox_Ts : string }.
(** Bybit and Bitget; a member one of them lacks is empty *)
Record Ticker := mkTicker { ti_Symbol : string; ti_FundingRate : string; ti_Interval : string; ti_NextFundingTime : string; ti_MarkPrice : string; ti_IndexPrice : string; ti_OpenInterest : string }.
Record BitgetInstrument := mkBitgetInstrument { bi_Symbol : string; bi_FundInterval : string }.
Record FuturesTicker := mkFuturesTicker { ft_Contract : string; ft_FundingRate : string; ft_MarkPrice : string; ft_IndexPrice : string; ft_TotalSize : string }.
Record GateContract := mkContract { gc_Name : string; gc_Status : string; gc_QuantoMultiplier : string; gc_FundingInterval : Z; gc_FundingNextApply : float64 }.
Record LighterFundingRate := mkLighterRate { lr_MarketId : Z; lr_Symbol : string; lr_Rate : float64 }.
Record LighterDetail := mkDetail { ld_MarketId : Z; ld_MarkPrice : string; ld_IndexPrice : string; ld_OpenInterest : float64 }.
Record NadoProduct := mkNadoProduct { np_productID : Z; np_canonical : string; np_native : string; np_base : string; np_quote : string }.
Record NadoContract := mkNadoContract { nc_ProductID : Z; nc_MarkPrice : option float64; nc_IndexPrice : option float64; nc_OpenInterest : option float64;
  nc_OpenInterestUsd : option float64; nc_NextFundingRateTimestamp : option Z }.
Record HLAssetCtx := mkAssetCtx { ac_Funding : string; ac_MarkPx : string; ac_OraclePx : string; ac_OpenInterest : string }.

Section board.
Context `{Decimal D} `{DecimalText D}.
(** [Decimal.IntPart], [decimal.NewFromFloat] and [strconv.FormatFloat(f, 'f', -1, 64)] *)
Context (d_int_part : D → Z) (d_from_float : float64 → D) (format_float : float64 → string).
Local Notation entry := (DerivativeSnapshotEntry D).
Local Notation snapshot := (DerivativeSnapshot D).
Implicit Types (scope : CatalogScope) (now : time).

Definition derivativeSnapshot scope (entries : list entry) now : snapshot := mkDerivativeSnapshot 1 scope now entries.
Definition fundingOptionalDecimal (value : string) : OptionalDecimal D :=
  match d_new_from_string value with Some parsed => if d_is_positive parsed then mkOptDec parsed true else no_decimal | None => no_decimal end.
Definition fundingOptionalNonNegative (value : string) : OptionalDecimal D :=
  match d_new_from_string value with Some parsed => if d_is_negative parsed then no_decimal else mkOptDec parsed true | None => no_decimal end.
Definition fundingOpenInterestNotional (openInterest markPrice : string) (multiplier : D) : OptionalDecimal D :=
  match d_new_from_string openInterest with
  | Some quantity =>
      if d_is_negative quantity || negb (d_is_positive multiplier) then no_decimal
      else match d_new_from_string markPrice with
           | Some price => if d_is_positive price then mkOptDec (d_mul (d_mul quantity multiplier) price) true else no_decimal
           | None => no_decimal
           end
  | None => no_decimal
  end.
Definition fundingIntervalHours (value : string) : OptionalInt :=
  match d_new_from_string value with Some parsed => if d_is_positive parsed then mkOptInt (d_int_part parsed) true else no_interval | None => no_interval end.
Definition fundingStringMillisOrNow (value : string) now : time :=
  match ParseInt (TrimSpace value) with Some millis => if millis <=? 0 then now else FromMilli millis | None => now end.
Definition nadoX18 (value : string) : option D := (λ n, d_new n (-18)) <$> big_int (TrimSpace value).
Definition float_positive (f : float64) : bool := SFltb (of_int 0) f.
Definition nadoOptionalPositive (value : option float64) : OptionalDecimal D :=
  match value with Some f => if float_positive f then mkOptDec (d_from_float f) true else no_decimal | None => no_decimal end.
Definition nadoOptionalNonNegative (value : option float64) : OptionalDecimal D :=
  match value with Some f => if SFltb f (of_int 0) then no_decimal else mkOptDec (d_from_float f) true | None => no_decimal end.
Definition nadoFundingTimestamp (value : option Z) : time :=
  match value with
  | Some v => if v <=? 0 then zero_time else if 1000000000000 <=? v then FromMilli v else unix_epoch + v * Second
  | None => zero_time
  end.

(** A row as the loaders file it: the members a literal leaves out are zero. *)
Definition board_entry (symbol native nativeID base quote : string) (rate : D) (interval : OptionalInt) (next : time)
    (mark index oi notional : OptionalDecimal D) (asset : string) : entry :=
  mkEntry symbol native nativeID base quote rate false interval next mark index oi notional asset zero_time zero_time zero_time zero_time zero_time.

(** ** Binance and Aster *)

Definition premium_entry (settlement : string) (parse : string → option D) (interval : string → OptionalInt) (row : PremiumIndex) : option entry :=
  '(base, quote) ← binanceSplitPerpSymbol (pi_Symbol row);
  if negb (String.eqb quote settlement) then None else
  rate ← parse (pi_LastFundingRate row);
  Some (board_entry (base +:+ "-" +:+ quote) (pi_Symbol row) "" base quote rate (interval (pi_Symbol row))
    (if 0 <? pi_NextFundingTime row then FromMilli (pi_NextFundingTime row) else zero_time)
    (fundingOptionalDecimal (pi_MarkPrice row)) (fundingOptionalDecimal (pi_IndexPrice row)) no_decimal no_decimal "").
Definition binance_intervals (info : result sdk_error (list FundingInfo)) : gmap string Z :=
  match info with
  | Ok rows => foldl (λ m row, if 0 <? fi_FundingIntervalHours row then <[fi_Symbol row := fi_FundingIntervalHours row]> m else m) ∅ rows
  | Err _ => ∅
  end.
Definition binance_LoadDerivativeSnapshot (settlement : string) (rates : result sdk_error (list PremiumIndex)) (info : result sdk_error (list FundingInfo))
    scope now : result error snapshot :=
  match rates with
  | Err s => Err (binancePerpNormalizeError derivativeSnapshotOperation s)
  | Ok rows =>
      let intervals := binance_intervals info in
      let interval := λ symbol, match intervals !! symbol with Some hours => mkOptInt hours true | None => no_interval end in
      Ok (derivativeSnapshot scope (omap (premium_entry settlement positiveOrNegativeDecimal interval) rows) now)
  end.
Definition aster_intervals (rows : list FundingInfo) : gmap string Z :=
  foldl (λ m row, if negb (is_empty (fi_Symbol row)) && (0 <? fi_FundingIntervalHours row) then <[fi_Symbol row := fi_FundingIntervalHours row]> m else m) ∅ rows.
Definition aster_LoadDerivativeSnapshot (settlement : string) (sdk : result string unit) (rates : result sdk_error (list PremiumIndex))
    (info : result sdk_error (list FundingInfo)) scope now : result error snapshot :=
  match sdk, rates, info with
  | Err reason, _, _ => Err (asterErr ProductPerp derivativeSnapshotOperation KindInvalidConfig reason)
  | Ok _, Err s, _ | Ok _, Ok _, Err s => Err (asterNormalizeErr ProductPerp derivativeSnapshotOperation s)
  | Ok _, Ok rows, Ok config =>
      let intervals := aster_intervals config in
      let interval := λ symbol, let hours := default 0 (intervals !! symbol) in if 0 <? hours then mkOptInt hours true else no_interval in
      Ok (derivativeSnapshot scope (omap (premium_entry settlement decimalOrSkip interval) rows) now)
  end.

(** ** OKX *)

Definition last_by {R} (key : R → string) (rows : list R) : gmap string R := foldl (λ m row, <[key row := row]> m) ∅ rows.
Definition or_nothing {R} (reply : result sdk_error (list R)) : list R := match reply with Ok rows => rows | Err _ => [] end.
(** The clock the price columns share: the later of the two. *)
Definition okx_entry (settlement : string) (marks : gmap string OKXMarkPrice) (ois : gmap string OKXOpenInterest) (indexes : gmap string OKXIndexTicker)
    now (row : OKXFundingRate) : option entry :=
  if negb (is_empty (or_InstrumentType row)) && negb (EqualFold (or_InstrumentType row) "SWAP") then None else
  let base := okxSwapBase (or_InstrumentID row) in
  if is_empty base then None else
  rate ← decimalOrSkip (or_FundingRate row);
  let mark := marks !! or_InstrumentID row in
  let indexID := if HasSuffix (or_InstrumentID row) "-SWAP" then without_suffix (or_InstrumentID row) "-SWAP" else or_InstrumentID row in
  let index := indexes !! indexID in
  let oi := ois !! or_InstrumentID row in
  let markAt := match mark with Some m => fundingStringMillisOrNow (om_Ts m) now | None => zero_time end in
  let indexAt := match index with Some i => fundingStringMillisOrNow (ox_Ts i) now | None => zero_time end in
  let priceAt := match index with Some _ => if After indexAt markAt then indexAt else markAt | None => markAt end in
  let notional := match oi with Some o => fundingOptionalNonNegative (oo_OIUsd o) | None => no_decimal end in
  let settles := okxOptionalMillis (or_FundingTime row) in
  let settled := default zero_time settles in
  let interval :=
    match okxOptionalMillis (or_NextFundingTime row) with
    | Some next =>
        if negb (IsZero next) && negb (IsZero settled) then
          let hours := truncate_int (Hours (Sub next settled)) in if 0 <? hours then mkOptInt hours true else no_interval
        else no_interval
    | None => no_interval
    end in
  Some (mkEntry (or_InstrumentID row) (or_InstrumentID row) "" base settlement rate false interval settled
    (match mark with Some m => fundingOptionalDecimal (om_MarkPx m) | None => no_decimal end)
    (match index with Some i => fundingOptionalDecimal (ox_IdxPx i) | None => no_decimal end)
    (match oi with Some o => fundingOptionalNonNegative (firstNonEmpty [oo_OICcy o; oo_OI o]) | None => no_decimal end)
    notional (if od_Valid notional then "USD" else "")
    (fundingStringMillisOrNow (or_Ts row) now) markAt indexAt priceAt
    (match oi with Some o => fundingStringMillisOrNow (oo_Ts o) now | None => zero_time end)).
Definition okx_LoadDerivativeSnapshot (settlement : string) (rates : result sdk_error (list OKXFundingRate)) (marks : result sdk_error (list OKXMarkPrice))
    (ois : result sdk_error (list OKXOpenInterest)) (indexes : result sdk_error (list OKXIndexTicker)) scope now : result error snapshot :=
  match rates with
  | Err s => Err (okxNormalizeErr ProductPerp derivativeSnapshotOperation s)
  | Ok rows =>
      Ok (derivativeSnapshot scope
        (omap (okx_entry settlement (last_by om_InstId (or_nothing marks)) (last_by oo_InstId (or_nothing ois)) (last_by ox_InstId (or_nothing indexes)) now) rows) now)
  end.

(** ** Bybit and Bitget *)

Definition bybit_entry (settlement : string) (row : Ticker) : option entry :=
  let quote := quoteAsset (ti_Symbol row) in
  if negb (is_empty settlement) && negb (String.eqb quote settlement) then None else
  rate ← decimalOrSkip (ti_FundingRate row);
  let canonical := canonicalSymbol (ti_Symbol row) "" "" in
  Some (board_entry canonical (ti_Symbol row) "" (baseFromCanonical canonical) quote rate (fundingIntervalHours (ti_Interval row))
    (fundingUnixMillis d_int_part (ti_NextFundingTime row)) (fundingOptionalDecimal (ti_MarkPrice row)) (fundingOptionalDecimal (ti_IndexPrice row))
    (fundingOptionalNonNegative (ti_OpenInterest row)) (fundingOpenInterestNotional (ti_OpenInterest row) (ti_MarkPrice row) (d_new 1 0)) "").
Definition bybit_LoadDerivativeSnapshot (settlement : string) (tickers : result sdk_error (list Ticker)) scope now : result error snapshot :=
  match tickers with
  | Err s => Err (normErr (mkMeta VenueBybit ProductPerp) derivativeSnapshotOperation s)
  | Ok rows => Ok (derivativeSnapshot scope (omap (bybit_entry settlement) rows) now)
  end.
Definition bitget_intervals (instruments : list BitgetInstrument) : gmap string OptionalInt :=
  foldl (λ m i, let hours := fundingIntervalHours (bi_FundInterval i) in if oi_Valid hours then <[bi_Symbol i := hours]> m else m) ∅ instruments.
Definition bitget_entry (marginCoin : string) (intervals : gmap string OptionalInt) (row : Ticker) : option entry :=
  rate ← decimalOrSkip (ti_FundingRate row);
  let canonical := canonicalSymbol (ti_Symbol row) "" "" in
  let interval := fundingIntervalHours (ti_Interval row) in
  let interval := if oi_Valid interval then interval else default no_interval (intervals !! ti_Symbol row) in
  Some (board_entry canonical (ti_Symbol row) "" (baseFromCanonical canonical) marginCoin rate interval
    (fundingUnixMillis d_int_part (ti_NextFundingTime row)) (fundingOptionalDecimal (ti_MarkPrice row)) (fundingOptionalDecimal (ti_IndexPrice row))
    no_decimal no_decimal "").
Definition bitget_LoadDerivativeSnapshot (productType : string) (tickers : result sdk_error (list Ticker)) (instruments : result sdk_error (list BitgetInstrument))
    scope now : result error snapshot :=
  match tickers with
  | Err s => Err (normErr (mkMeta VenueBitget ProductPerp) derivativeSnapshotOperation s)
  | Ok rows => Ok (derivativeSnapshot scope (omap (bitget_entry (bitgetMarginCoin productType) (bitget_intervals (or_nothing instruments))) rows) now)
  end.

(** ** Gate *)

Record contractInfo := mkContractInfo { ci_interval : OptionalInt; ci_next : time; ci_multiplier : D }.
Definition contract_info (contract : GateContract) : contractInfo :=
  let multiplier := default d_zero (d_new_from_string (gc_QuantoMultiplier contract)) in
  if negb (is_empty (gc_Status contract)) && negb (String.eqb (gc_Status contract) "trading") then mkContractInfo no_interval zero_time multiplier
  else
    mkContractInfo
      (if (0 <? gc_FundingInterval contract) && (Z.rem (gc_FundingInterval contract) 3600 =? 0) then mkOptInt (Z.quot (gc_FundingInterval contract) 3600) true else no_interval)
      (if float_positive (gc_FundingNextApply contract) then unix_epoch + truncate_int (gc_FundingNextApply contract) * Second else zero_time)
      multiplier.
Definition gate_entry (contracts : gmap string contractInfo) (row : FuturesTicker) : option entry :=
  rate ← decimalOrSkip (ft_FundingRate row);
  let '(base, quote) := gateSplitSymbol (ft_Contract row) in
  let contract := default (mkContractInfo no_interval zero_time d_zero) (contracts !! ft_Contract row) in
  Some (board_entry (gateCanonicalSymbol base quote (ft_Contract row)) (ft_Contract row) "" base quote rate (ci_interval contract) (ci_next contract)
    (fundingOptionalDecimal (ft_MarkPrice row)) (fundingOptionalDecimal (ft_IndexPrice row)) (fundingOptionalNonNegative (ft_TotalSize row))
    (fundingOpenInterestNotional (ft_TotalSize row) (ft_MarkPrice row) (ci_multiplier contract)) "").
Definition gate_LoadDerivativeSnapshot (tickers : result sdk_error (list FuturesTicker)) (contracts : result sdk_error (list GateContract)) scope now : result error snapshot :=
  match tickers with
  | Err s => Err (gateNormalizeErr (mkMeta VenueGate ProductPerp) derivativeSnapshotOperation s)
  | Ok rows =>
      let by_name := foldl (λ m c, <[gc_Name c := contract_info c]> m) ∅ (or_nothing contracts) in
      Ok (derivativeSnapshot scope (omap (gate_entry by_name) rows) now)
  end.

(** ** Lighter, Nado and Hyperliquid *)

Definition lighterFundingQuoteHours : Z := 8.
Definition lighter_entry (details : gmap Z LighterDetail) (row : option LighterFundingRate) : option entry :=
  row ← row;
  if is_empty (lr_Symbol row) then None else
  let detail := details !! lr_MarketId row in
  let oi := match detail with Some d => format_float (ld_OpenInterest d) | None => "" end in
  let notional := match detail with Some d => fundingOpenInterestNotional oi (ld_MarkPrice d) (d_new 1 0) | None => no_decimal end in
  Some (board_entry (lr_Symbol row +:+ "-USDC") (lr_Symbol row) (FormatInt (lr_MarketId row)) (lr_Symbol row) "USDC" (d_from_float (lr_Rate row))
    (mkOptInt lighterFundingQuoteHours true) zero_time
    (match detail with Some d => fundingOptionalDecimal (ld_MarkPrice d) | None => no_decimal end)
    (match detail with Some d => fundingOptionalDecimal (ld_IndexPrice d) | None => no_decimal end)
    (match detail with Some _ => fundingOptionalNonNegative oi | None => no_decimal end)
    notional (if od_Valid notional then "USDC" else "")).
Definition lighter_LoadDerivativeSnapshot (rates : result sdk_error (list (option LighterFundingRate))) (details : result sdk_error (list (option LighterDetail)))
    scope now : result error snapshot :=
  match rates with
  | Err s => Err (lighterNormalizeErr ProductPerp derivativeSnapshotOperation s)
  | Ok rows =>
      let by_market := foldl (λ m d, <[ld_MarketId d := d]> m) ∅ (omap (λ d, d) (or_nothing details)) in
      Ok (derivativeSnapshot scope (omap (lighter_entry by_market) rows) now)
  end.

(** [rates] is a map in Go; its rows come in any order. *)
Definition nado_entry (products : gmap string NadoProduct) (contracts : gmap Z NadoContract) (row : string * string) : option entry :=
  let '(productID, fundingRateX18) := row in
  product ← products !! productID;
  rate ← nadoX18 fundingRateX18;
  let contract := contracts !! np_productID product in
  let notional := match contract with Some c => nadoOptionalNonNegative (nc_OpenInterestUsd c) | None => no_decimal end in
  Some (board_entry (np_canonical product) (np_native product) productID (np_base product) (np_quote product) rate (mkOptInt 24 true)
    (match contract with Some c => nadoFundingTimestamp (nc_NextFundingRateTimestamp c) | None => zero_time end)
    (match contract with Some c => nadoOptionalPositive (nc_MarkPrice c) | None => no_decimal end)
    (match contract with Some c => nadoOptionalPositive (nc_IndexPrice c) | None => no_decimal end)
    (match contract with Some c => nadoOptionalNonNegative (nc_OpenInterest c) | None => no_decimal end)
    notional (if od_Valid notional then "USD" else "")).
Definition nado_LoadDerivativeSnapshot (products : result error (list NadoProduct)) (rates : result sdk_error (list (string * string)))
    (contracts : result sdk_error (list NadoContract)) scope now : result error snapshot :=
  products <-? products ;;
  match rates with
  | Err s => Err (nado_normalize ProductPerp derivativeSnapshotOperation s)
  | Ok rows =>
      let by_id := foldl (λ m p, <[FormatInt (np_productID p) := p]> m) ∅ products in
      let by_contract := foldl (λ m c, <[nc_ProductID c := c]> m) ∅ (or_nothing contracts) in
      Ok (derivativeSnapshot scope (omap (nado_entry by_id by_contract) rows) now)
  end.

(** One dex of the directory with its asset contexts. *)
Record hl_dex := mkHLDex { hd_dex : dex_of; hd_full : option (list string * list HLAssetCtx) }.
Definition hl_entry (dex : dex_of) (index : Z) (name : string) (asset : HLAssetCtx) : option entry :=
  if negb (hyperliquidValidPerpCoin name (dx_name dex)) then None else
  rate ← decimalOrSkip (ac_Funding asset);
  let base := hyperliquidUnderlying name in
  Some (board_entry ((if 0 <? dx_index dex then name else base) +:+ "-" +:+ dx_collateral dex) name (FormatInt (hyperliquidAssetID (dx_index dex) index)) base (dx_collateral dex)
    rate (mkOptInt 1 true) zero_time (fundingOptionalDecimal (ac_MarkPx asset)) (fundingOptionalDecimal (ac_OraclePx asset))
    (fundingOptionalNonNegative (ac_OpenInterest asset)) (fundingOpenInterestNotional (ac_OpenInterest asset) (ac_MarkPx asset) (d_new 1 0)) "").
Fixpoint hl_rows (dex : dex_of) (index : Z) (names : list string) (assets : list HLAssetCtx) : list entry :=
  match names, assets with
  | name :: names, asset :: assets =>
      match hl_entry dex index name asset with Some e => [e] | None => [] end ++ hl_rows dex (index + 1) names assets
  | _, _ => []
  end.
Fixpoint hl_entries (settlement : string) (directory : list hl_dex) : result error (list entry) :=
  match directory with
  | [] => Ok []
  | row :: rest =>
      if negb (is_empty settlement) && negb (String.eqb (dx_collateral (hd_dex row)) settlement) then hl_entries settlement rest
      else
        let mismatch := hlMalformed ProductPerp derivativeSnapshotOperation "hyperliquid returned mismatched universe and asset context lengths" in
        match hd_full row with
        | Some (names, assets) =>
            check (length names =? length assets)%nat else mismatch ;;
            entries <-? hl_entries settlement rest ;;
            Ok (hl_rows (hd_dex row) 0 names assets ++ entries)
        | None => Err mismatch
        end
  end.
Definition hyperliquid_LoadDerivativeSnapshot (directory : result native_error (list hl_dex)) scope now : result error snapshot :=
  match directory with
  | Err n => Err (hlNormalizeQueryErr ProductPerp derivativeSnapshotOperation n)
  | Ok directory => entries <-? hl_entries (cs_Settlement scope) directory ;; Ok (derivativeSnapshot scope entries now)
  end.
End board.

(** Invert the chain of binds and guards that built a row. *)
Ltac built H :=
  repeat match type of H with
  | (match ?x with Some _ => _ | None => _ end) = Some _ => destruct x; [|discriminate H]
  | (if ?b then None else _) = Some _ => destruct b; [discriminate H|]
  | (let '(_, _) := ?p in _) = Some _ => destruct p
  | mbind _ ?x = Some _ => destruct x; [cbn [mbind option_bind] in H|discriminate H]
  end.

(** ** What the snapshots carry *)

Section loaded.
Context `{Decimal D} `{DecimalText D}.
Context (d_int_part : D → Z) (d_from_float : float64 → D) (format_float : float64 → string).
Implicit Types (snap : DerivativeSnapshot D) (e : DerivativeSnapshotEntry D) (scope : CatalogScope) (now : time).

(** The snapshots the nine venues' loaders return. *)
Inductive derivative_loaded scope now snap : Prop :=
| loaded_binance settlement rates info : binance_LoadDerivativeSnapshot settlement rates info scope now = Ok snap → derivative_loaded scope now snap
| loaded_aster settlement sdk rates info : aster_LoadDerivativeSnapshot settlement sdk rates info scope now = Ok snap → derivative_loaded scope now snap
| loaded_okx settlement rates marks ois indexes : okx_LoadDerivativeSnapshot settlement rates marks ois indexes scope now = Ok snap → derivative_loaded scope now snap
| loaded_bybit settlement tickers : bybit_LoadDerivativeSnapshot d_int_part settlement tickers scope now = Ok snap → derivative_loaded scope now snap
| loaded_bitget product tickers instruments : bitget_LoadDerivativeSnapshot d_int_part product tickers instruments scope now = Ok snap → derivative_loaded scope now snap
| loaded_gate tickers contracts : gate_LoadDerivativeSnapshot tickers contracts scope now = Ok snap → derivative_loaded scope now snap
| loaded_lighter rates details : lighter_LoadDerivativeSnapshot d_from_float format_float rates details scope now = Ok snap → derivative_loaded scope now snap
| loaded_nado products rates contracts : nado_LoadDerivativeSnapshot d_from_float products rates contracts scope now = Ok snap → derivative_loaded scope now snap
| loaded_hyperliquid directory : hyperliquid_LoadDerivativeSnapshot directory scope now = Ok snap → derivative_loaded scope now snap.

(** A property of rows that every loader's rows have, holds of its snapshot. *)
Lemma omap_entries {R} (f : R → option (DerivativeSnapshotEntry D)) (P : DerivativeSnapshotEntry D → Prop) (rows : list R) :
  (∀ row e, f row = Some e → P e) → ∀ e, e ∈ omap f rows → P e.
Proof. intros Hf e (row & _ & He)%list_elem_of_omap. by eapply Hf. Qed.
Lemma hl_rows_entries (P : DerivativeSnapshotEntry D → Prop) dex index names assets :
  (∀ i name asset e, hl_entry dex i name asset = Some e → P e) → ∀ e, e ∈ hl_rows dex index names assets → P e.
Proof.
  intros Hf. revert index assets. induction names as [|name names IH]; intros index [|asset assets] e; simpl; try set_solver.
  rewrite elem_of_app. intros [He|He]; [|by eapply IH]. destruct (hl_entry dex index name asset) eqn:E; [|set_solver].
  apply list_elem_of_singleton in He as ->. by eapply Hf.
Qed.
Lemma hl_entries_entries (P : DerivativeSnapshotEntry D → Prop) settlement directory entries :
  (∀ dex i name asset e, hl_entry dex i name asset = Some e → P e) → hl_entries settlement directory = Ok entries → ∀ e, e ∈ entries → P e.
Proof.
  intros Hf. revert entries. induction directory as [|row rest IH]; intros entries He e; cbn [hl_entries] in He; [injection He as <-; set_solver|].
  destruct (_ && _); [by apply IH|]. destruct (hd_full row) as [[names assets]|]; [|done].
  apply check_Ok in He as [_ He]. apply bind_Ok in He as (tail & Ht & [= <-]). rewrite elem_of_app.
  intros [He|He]; [by eapply hl_rows_entries; [apply Hf|]|by eapply IH].
Qed.

(** The rows of all loaders, one venue each. *)
Inductive loaded_row : DerivativeSnapshotEntry D → Prop :=
| row_premium settlement parse interval row e : premium_entry settlement parse interval row = Some e → loaded_row e
| row_okx settlement marks ois indexes now row e : okx_entry settlement marks ois indexes now row = Some e → loaded_row e
| row_bybit settlement row e : bybit_entry d_int_part settlement row = Some e → loaded_row e
| row_bitget coin intervals row e : bitget_entry d_int_part coin intervals row = Some e → loaded_row e
| row_gate contracts row e : gate_entry contracts row = Some e → loaded_row e
| row_lighter details row e : lighter_entry d_from_float format_float details row = Some e → loaded_row e
| row_nado products contracts row e : nado_entry d_from_float products contracts row = Some e → loaded_row e
| row_hyperliquid dex index name asset e : hl_entry dex index name asset = Some e → loaded_row e.

Lemma board_rows scope now snap : derivative_loaded scope now snap →
  ds_Scope snap = scope ∧ ds_SchemaVersion snap = 1 ∧ ∀ e, e ∈ ds_Entries snap → loaded_row e.
Proof.
  destruct 1 as [settlement rates info Hl|settlement sdk rates info Hl|settlement rates marks ois indexes Hl|settlement tickers Hl|
    product tickers instruments Hl|tickers contracts Hl|rates details Hl|products rates contracts Hl|directory Hl].
  - unfold binance_LoadDerivativeSnapshot in Hl. destruct rates; [|done]. injection Hl as <-. split_and!; [done..|]. apply omap_entries. eauto using row_premium.
  - unfold aster_LoadDerivativeSnapshot in Hl. destruct sdk, rates, info; try done. injection Hl as <-. split_and!; [done..|]. apply omap_entries. eauto using row_premium.
  - unfold okx_LoadDerivativeSnapshot in Hl. destruct rates; [|done]. injection Hl as <-. split_and!; [done..|]. apply omap_entries. eauto using row_okx.
  - unfold bybit_LoadDerivativeSnapshot in Hl. destruct tickers; [|done]. injection Hl as <-. split_and!; [done..|]. apply omap_entries. eauto using row_bybit.
  - unfold bitget_LoadDerivativeSnapshot in Hl. destruct tickers; [|done]. injection Hl as <-. split_and!; [done..|]. apply omap_entries. eauto using row_bitget.
  - unfold gate_LoadDerivativeSnapshot in Hl. destruct tickers; [|done]. injection Hl as <-. split_and!; [done..|]. apply omap_entries. eauto using row_gate.
  - unfold lighter_LoadDerivativeSnapshot in Hl. destruct rates; [|done]. injection Hl as <-. split_and!; [done..|]. apply omap_entries. eauto using row_lighter.
  - unfold nado_LoadDerivativeSnapshot in Hl. destruct products; [|done]. destruct rates; [|done]. injection Hl as <-. split_and!; [done..|]. apply omap_entries. eauto using row_nado.
  - unfold hyperliquid_LoadDerivativeSnapshot in Hl. destruct directory; [|done]. apply bind_Ok in Hl as (entries & He & [= <-]). split_and!; [done..|].
    apply (hl_entries_entries _ _ _ _ (λ dex i name asset e, row_hyperliquid dex i name asset e) He).
Qed.

Lemma loaded_row_rate e : loaded_row e → se_RateValid e = false.
Proof.
  destruct 1 as [settlement parse interval row e He|settlement marks ois indexes now row e He|settlement row e He|coin intervals row e He|contracts row e He|
    details row e He|products contracts row e He|dex index name asset e He];
    unfold premium_entry, okx_entry, bybit_entry, bitget_entry, gate_entry, lighter_entry, nado_entry, hl_entry in He; cbv zeta in He;
    built He; injection He as <-; done.
Qed.

Lemma add_field_bit b field fields i : Z.testbit field i = false → Z.testbit (add_field b field fields) i = Z.testbit fields i.
Proof. intros Hf. unfold add_field. destruct b; [|done]. by rewrite Z.lor_spec, Hf, orb_false_r. Qed.
Lemma fields_without_funding (facts : list (nativeDerivativeFact D)) :
  (∀ fact, fact ∈ facts → od_Valid (nf_FundingRate fact) = false) → Z.testbit (nativeDerivativeSnapshotFields facts) 1 = false.
Proof.
  unfold nativeDerivativeSnapshotFields. assert (Hinit : Z.testbit nativeDerivativeFieldIdentity 1 = false) by done. revert Hinit.
  generalize nativeDerivativeFieldIdentity as fields. induction facts as [|fact facts IH]; intros fields Hb Hf; [done|]. cbn [foldl].
  apply IH; [|intros x Hx; apply Hf; by right]. unfold fact_fields. rewrite (Hf fact ltac:(left)). cbv zeta.
  change (add_field false nativeDerivativeFieldFunding fields) with fields. by rewrite !add_field_bit.
Qed.

(** No loader marks its rate as valid: every row of every venue's snapshot is
    filed with [RateValid] unset, so the patch made from it carries no funding
    rate at all, and says so in its field mask.  A venue that is only polled
    never shows the rates it answered. *)
Theorem snapshot_rates_lost scope now snap :
  derivative_loaded scope now snap →
  let patch := nativeDerivativePatchFromSnapshot snap in
  (∀ fact, fact ∈ np_Facts patch → od_Valid (nf_FundingRate fact) = false) ∧ Z.testbit (np_Fields patch) 1 = false.
Proof.
  intros (_ & _ & Hrows)%board_rows. cbv zeta. cbn [np_Facts np_Fields nativeDerivativePatchFromSnapshot].
  assert (Hfacts : ∀ fact, fact ∈ map (native_fact snap) (ds_Entries snap) → od_Valid (nf_FundingRate fact) = false).
  { intros fact (e & -> & He)%list_elem_of_fmap. cbn. by apply loaded_row_rate, Hrows. }
  split; [done|]. by apply fields_without_funding.
Qed.
End loaded.

(** ** Prices and sizes *)

Section cells.
Context `{DecimalLaws D} `{DecimalText D}.
Context (d_int_part : D → Z) (d_from_float : float64 → D) (format_float : float64 → string).
(** [decimal.NewFromFloat] keeps the sign. *)
Context (from_float_positive : ∀ f, float_positive f = true → d_is_positive (d_from_float f) = true)
        (from_float_nonnegative : ∀ f, SFltb f (of_int 0) = false → d_is_negative (d_from_float f) = false).
Implicit Types (e : DerivativeSnapshotEntry D) (v : OptionalDecimal D).

Definition price_cell v : Prop := od_Valid v = true → d_is_positive (od_Value v) = true.
Definition size_cell v : Prop := od_Valid v = true → d_is_negative (od_Value v) = false.
Record sound_cells e : Prop := mkSound {
  sound_mark : price_cell (se_MarkPrice e); sound_index : price_cell (se_IndexPrice e);
  sound_oi : size_cell (se_OpenInterest e); sound_notional : size_cell (se_OpenInterestNotional e);
}.

Lemma no_decimal_price : price_cell no_decimal.
Proof. done. Qed.
Lemma no_decimal_size : size_cell no_decimal.
Proof. done. Qed.
Lemma fundingOptionalDecimal_price value : price_cell (fundingOptionalDecimal value).
Proof. unfold price_cell, fundingOptionalDecimal. destruct (d_new_from_string value); [|done]. by destruct (d_is_positive _) eqn:E. Qed.
Lemma fundingOptionalNonNegative_size value : size_cell (fundingOptionalNonNegative value).
Proof. unfold size_cell, fundingOptionalNonNegative. destruct (d_new_from_string value); [|done]. by destruct (d_is_negative _) eqn:E. Qed.
Lemma nonnegative_value (d : D) : d_is_negative d = false ↔ (0 <= d_value d)%Qc.
Proof.
  rewrite <- not_true_iff_false, d_is_negative_spec. split; [intros Hn; by apply Qcnot_lt_le|by intros Hn Hl%Qclt_not_le].
Qed.
Lemma Qc_mult_nonneg a b : (0 <= a → 0 <= b → 0 <= a * b)%Qc.
Proof. intros Ha Hb. rewrite <- (Qcmult_0_l b). by apply Qcmult_le_compat_r. Qed.
Lemma fundingOpenInterestNotional_size openInterest markPrice multiplier : size_cell (fundingOpenInterestNotional (D:=D) openInterest markPrice multiplier).
Proof.
  unfold size_cell, fundingOpenInterestNotional. destruct (d_new_from_string openInterest) as [quantity|]; [|done].
  destruct (d_is_negative quantity) eqn:Hq; [done|]. destruct (d_is_positive multiplier) eqn:Hm; [|done]. cbn [orb negb].
  destruct (d_new_from_string markPrice) as [price|]; [|done]. destruct (d_is_positive price) eqn:Hp; [|done]. intros _. cbn [od_Value].
  apply nonnegative_value. apply nonnegative_value in Hq. apply d_is_positive_spec in Hm, Hp. rewrite !d_value_mul.
  apply Qc_mult_nonneg; [apply Qc_mult_nonneg; [done|]|]; by apply Qclt_le_weak.
Qed.
Lemma nadoOptionalPositive_price value : price_cell (nadoOptionalPositive d_from_float value).
Proof. unfold price_cell, nadoOptionalPositive. destruct value as [f|]; [|done]. destruct (float_positive f) eqn:E; [|done]. intros _. by apply from_float_positive. Qed.
Lemma nadoOptionalNonNegative_size value : size_cell (nadoOptionalNonNegative d_from_float value).
Proof. unfold size_cell, nadoOptionalNonNegative. destruct value as [f|]; [|done]. destruct (SFltb f _) eqn:E; [done|]. intros _. by apply from_float_nonnegative. Qed.

Create HintDb cells.
#[local] Hint Resolve no_decimal_price no_decimal_size fundingOptionalDecimal_price fundingOptionalNonNegative_size fundingOpenInterestNotional_size
  nadoOptionalPositive_price nadoOptionalNonNegative_size : cells.

Lemma loaded_row_cells e : loaded_row d_int_part d_from_float format_float e → sound_cells e.
Proof.
  destruct 1 as [settlement parse interval row e He|settlement marks ois indexes now row e He|settlement row e He|coin intervals row e He|contracts row e He|
    details row e He|products contracts row e He|dex index name asset e He];
    unfold premium_entry, okx_entry, bybit_entry, bitget_entry, gate_entry, lighter_entry, nado_entry, hl_entry in He; cbv zeta in He;
    built He; injection He as <-; constructor; cbn; repeat case_match; auto with cells.
Qed.

(** An absent number stays absent: in every snapshot a venue's loader returns, a
    mark or index price that is shown is positive and an open interest or its
    notional is not negative, whatever texts the venue sent. *)
Theorem snapshot_cells_sound scope now snap e :
  derivative_loaded d_int_part d_from_float format_float scope now snap → e ∈ ds_Entries snap → sound_cells e.
Proof. intros (_ & _ & Hrows)%board_rows He. by apply loaded_row_cells, Hrows. Qed.
End cells.

(** ** Bybit's USDC contracts *)

Lemma HasSuffix_app a suffix p : (String.length p ≤ String.length suffix)%nat →
  HasSuffix (a +:+ suffix) p = String.eqb (drop_string (String.length suffix - String.length p) suffix) p.
Proof.
  intros Hl. unfold HasSuffix. rewrite string_length_app. rewrite (proj2 (Nat.leb_le _ _)) by lia. cbn [andb].
  replace (String.length a + String.length suffix - String.length p)%nat with (String.length a + (String.length suffix - String.length p))%nat by lia.
  by rewrite drop_string_plus.
Qed.
Lemma after_last_mark_none s : no_byte "-" s = true → no_byte "_" s = true → after_last_mark s = None.
Proof.
  induction s as [|c s IH]; [done|]. cbn [no_byte after_last_mark]. rewrite !andb_true_iff, !negb_true_iff. intros [E1 H1] [E2 H2].
  by rewrite IH, E1, E2.
Qed.

(** [BTCPERP] and the like: the name Bybit gives a USDC-margined perpetual. *)
Definition usdc_native (symbol : string) : Prop :=
  ∃ base, symbol = base +:+ "PERP" ∧ no_byte "-" symbol = true ∧ no_byte "_" symbol = true ∧ ToUpper (TrimSpace symbol) = symbol.

Lemma usdc_native_quote symbol : usdc_native symbol → quoteAsset symbol = "".
Proof.
  intros (base & -> & H1 & H2 & Hu). unfold quoteAsset. rewrite Hu, after_last_mark_none by done. cbn [split_quote].
  rewrite !HasSuffix_app by (simpl; lia). cbn [drop_string String.length Nat.sub]. by rewrite !andb_false_r.
Qed.

(** The settlement of a Bybit ticker is guessed from the end of its symbol, and a
    USDC-margined perpetual does not end in USDC: the loader of Bybit's USDC
    market drops every one of its contracts. *)
Theorem bybit_usdc_board_empty `{Decimal D} `{DecimalText D} (d_int_part : D → Z) rows scope now :
  (∀ row, row ∈ rows → usdc_native (ti_Symbol row)) →
  bybit_LoadDerivativeSnapshot d_int_part "USDC" (Ok rows) scope now = Ok (derivativeSnapshot scope [] now).
Proof.
  intros Hrows. unfold bybit_LoadDerivativeSnapshot. do 2 f_equal. induction rows as [|row rows IH]; [done|].
  cbn [omap list_omap]. unfold bybit_entry at 1. rewrite usdc_native_quote by (apply Hrows; left). cbn [is_empty negb andb].
  apply IH. intros x Hx. apply Hrows. by right.
Qed.

(** ** Concrete snapshots *)

Definition int_part (d : fixed) : Z := Z.quot (fx_coef d) (pow10 (fx_places d)).
(** The sign of a number: enough of [decimal.NewFromFloat] for its law. *)
Definition sign_of (f : float64) : fixed := mkFixed (if float_positive f then 1 else if SFltb f (of_int 0) then -1 else 0) 0.
Definition btc_ticker (symbol : string) : Ticker := mkTicker symbol "0.0001" "8" "1700000000000" "50000" "50001" "12.5".
Definition bybit_scope (settlement : string) : CatalogScope := mkScope VenueBybit "mainnet" ProductPerp settlement "" "".

Lemma bybit_usdc_board_empty_witness :
  bybit_LoadDerivativeSnapshot int_part "USDC" (Ok [btc_ticker "BTCPERP"; btc_ticker "ETHPERP"]) (bybit_scope "USDC") 0 =
  Ok (derivativeSnapshot (bybit_scope "USDC") [] 0).
Proof.
  apply bybit_usdc_board_empty. intros row [->|[->|[]%not_elem_of_nil]%elem_of_cons]%elem_of_cons.
  - exists "BTC". split_and!; reflexivity.
  - exists "ETH". split_and!; reflexivity.
Defined.

(** The same market of the USDT scope loads, with its rate unmarked. *)
Definition usdt_board : DerivativeSnapshot fixed :=
  mkDerivativeSnapshot 1 (bybit_scope "USDT") 0
    [mkEntry "BTC-USDT" "BTCUSDT" "" "BTC" "USDT" (mkFixed 1 4) false (mkOptInt 8 true) (FromMilli 1700000000000) (mkOptDec (mkFixed 50000 0) true) (mkOptDec (mkFixed 50001 0) true)
       (mkOptDec (mkFixed 125 1) true) (mkOptDec (mkFixed 625000 0) true) "" 0 0 0 0 0].
Lemma usdt_board_loaded : derivative_loaded int_part sign_of (λ _, "") (bybit_scope "USDT") 0 usdt_board.
Proof. apply (loaded_bybit _ _ _ _ _ _ "USDT" (Ok [btc_ticker "BTCUSDT"])). vm_compute. reflexivity. Qed.

Lemma snapshot_rates_lost_witness :
  let patch := nativeDerivativePatchFromSnapshot usdt_board in
  (∀ fact, fact ∈ np_Facts patch → od_Valid (nf_FundingRate fact) = false) ∧ Z.testbit (np_Fields patch) 1 = false.
Proof. exact (snapshot_rates_lost int_part sign_of (λ _, "") (bybit_scope "USDT") 0 usdt_board usdt_board_loaded). Defined.

Lemma sign_of_positive f : float_positive f = true → d_is_positive (sign_of f) = true.
Proof. unfold sign_of. by intros ->. Qed.
Lemma sign_of_nonnegative f : SFltb f (of_int 0) = false → d_is_negative (sign_of f) = false.
Proof. unfold sign_of. intros ->. by destruct (float_positive f). Qed.
Lemma snapshot_cells_sound_witness : ∀ e, e ∈ ds_Entries usdt_board → sound_cells e.
Proof.
  intros e He. exact (snapshot_cells_sound int_part sign_of (λ _, "") sign_of_positive sign_of_nonnegative
    (bybit_scope "USDT") 0 usdt_board e usdt_board_loaded He).
Defined.
