(* ===== verification/SingleFlight.v ===== *)
(** * Shared requests

    The two single-flight caches of [bybit_bitget_funding_loader.go]:
    [loadBybitLinearTickers], shared by the boards of one HTTP client and
    endpoint for fourteen seconds, and [loadBitgetInstruments], shared per product
    type for a minute.  Both are the same protocol over another row type, key and
    time to live.  Calls run concurrently: a transition is one critical section of
    the cache's mutex, a request's answer, or the end of a wait. *)

From Stdlib Require Import ZArith Lia.
From stdpp Require Import base list sets gmap.
From S2P Require Import Prelude.

#[local] Open Scope Z_scope.

Definition bybitTickerTTL : duration := 14 * Second.
Definition bitgetInstrumentTTL : duration := Minute.

Section cache.
Context {K : Type} `{Countable K} {R E : Type}.
(** How long rows are shared. *)
Variable ttl : duration.

(** [bybitTickerCacheValue]: an open [wait] channel stands for a request under
    way.  Values are shared by reference; the channel belongs to the value, so the
    value's number also names its channel. *)
Record cache_value := mkValue { cv_rows : list R; cv_loadedAt : time; cv_wait : bool }.
(** Where a call is: before the lock, waiting on the channel of a value, at the
    venue with a value to fill, or done. *)
Inductive call :=
| Entering (key : K)
| Waiting (key : K) (value : nat)
| Loading (key : K) (value : nat)
| Returned (r : result E (list R)).
(** What happened, the latest first. *)
Inductive event :=
| Sent (key : K) (at_ : time)
| Answered (key : K) (at_ : time) (rows : list R)
| Failed (key : K) (at_ : time)
| Served (key : K) (at_ : time) (rows : list R).
Record cache := mkCache { ca_values : gmap K nat; ca_heap : gmap nat cache_value }.
Record system := mkSystem { sy_cache : cache; sy_calls : gmap nat call; sy_clock : time; sy_log : list event }.
Definition initial (now : time) : system := mkSystem (mkCache ∅ ∅) ∅ now [].

(** The first critical section. *)
Inductive looked := Hit (rows : list R) | Wait (value : nat) | Load (value : nat).
Definition look (c : cache) (key : K) (now : time) : cache * looked :=
  let load :=
    let value := fresh (dom (ca_heap c)) in
    (mkCache (<[key := value]> (ca_values c)) (<[value := mkValue [] zero_time true]> (ca_heap c)), Load value) in
  match ca_values c !! key with
  | None => load
  | Some value =>
      match ca_heap c !! value with
      | None => load
      | Some current =>
          if negb (cv_wait current) && (Sub now (cv_loadedAt current) <? ttl) then (c, Hit (cv_rows current))
          else if cv_wait current then (c, Wait value)
          else load
      end
  end.
(** The second: the answer is filed and the channel closed. *)
Definition settle (c : cache) (key : K) (value : nat) (reply : result E (list R)) (now : time) : cache :=
  let close := λ v, mkValue (cv_rows v) (cv_loadedAt v) false in
  match reply with
  | Ok rows => mkCache (ca_values c) (alter (λ _, mkValue rows now false) value (ca_heap c))
  | Err _ => mkCache (delete key (ca_values c)) (alter close value (ca_heap c))
  end.

Definition set_call (s : system) (id : nat) (c : call) : gmap nat call := <[id := c]> (sy_calls s).
Definition look_step (s : system) (id : nat) (key : K) : system :=
  let '(c, r) := look (sy_cache s) key (sy_clock s) in
  match r with
  | Hit rows => mkSystem c (set_call s id (Returned (Ok rows))) (sy_clock s) (Served key (sy_clock s) rows :: sy_log s)
  | Wait value => mkSystem c (set_call s id (Waiting key value)) (sy_clock s) (sy_log s)
  | Load value => mkSystem c (set_call s id (Loading key value)) (sy_clock s) (Sent key (sy_clock s) :: sy_log s)
  end.
Definition reply_event (key : K) (now : time) (reply : result E (list R)) : event :=
  match reply with Ok rows => Answered key now rows | Err _ => Failed key now end.
Definition settle_step (s : system) (id : nat) (key : K) (value : nat) (reply : result E (list R)) : system :=
  mkSystem (settle (sy_cache s) key value reply (sy_clock s)) (set_call s id (Returned reply)) (sy_clock s) (reply_event key (sy_clock s) reply :: sy_log s).

Definition closed (s : system) (value : nat) : Prop := ∃ v, ca_heap (sy_cache s) !! value = Some v ∧ cv_wait v = false.
Inductive step : system → system → Prop :=
| step_enter s id key : sy_calls s !! id = None →
    step s (mkSystem (sy_cache s) (set_call s id (Entering key)) (sy_clock s) (sy_log s))
| step_look s id key : sy_calls s !! id = Some (Entering key) → step s (look_step s id key)
| step_settle s id key value reply : sy_calls s !! id = Some (Loading key value) → step s (settle_step s id key value reply)
| step_wake s id key value : sy_calls s !! id = Some (Waiting key value) → closed s value →
    step s (mkSystem (sy_cache s) (set_call s id (Entering key)) (sy_clock s) (sy_log s))
| step_cancel s id key value e : sy_calls s !! id = Some (Waiting key value) →
    step s (mkSystem (sy_cache s) (set_call s id (Returned (Err e))) (sy_clock s) (sy_log s))
| step_clock s now : sy_clock s ≤ now → step s (mkSystem (sy_cache s) (sy_calls s) now (sy_log s)).
Definition reachable (start : time) (s : system) : Prop := rtc step (initial start) s.

(** ** Invariant *)

Definition event_ok (e : event) (before : list event) : Prop :=
  match e with
  | Sent key t => ∀ t' rows, Answered key t' rows ∈ before → t' + ttl ≤ t
  | Served key t rows => ∃ t', Answered key t' rows ∈ before ∧ t' ≤ t < t' + ttl
  | Answered _ _ _ | Failed _ _ => True
  end.
Fixpoint log_ok (log : list event) : Prop :=
  match log with [] => True | e :: before => event_ok e before ∧ log_ok before end.

Definition value_of (s : system) (value : nat) : option cache_value := ca_heap (sy_cache s) !! value.
Record inv (s : system) : Prop := mkInv {
  (** The map holds values, of one key each. *)
  inv_live key value : ca_values (sy_cache s) !! key = Some value → is_Some (value_of s value);
  inv_own key key' value : ca_values (sy_cache s) !! key = Some value → ca_values (sy_cache s) !! key' = Some value → key = key';
  (** A request under way is the only one for its value, which is its key's. *)
  inv_loading id key value : sy_calls s !! id = Some (Loading key value) →
    ca_values (sy_cache s) !! key = Some value ∧ ∃ v, value_of s value = Some v ∧ cv_wait v = true;
  inv_single id id' key key' value : sy_calls s !! id = Some (Loading key value) → sy_calls s !! id' = Some (Loading key' value) → id = id';
  (** An open channel has a request that will close it. *)
  inv_open value v : value_of s value = Some v → cv_wait v = true → ∃ id key, sy_calls s !! id = Some (Loading key value);
  inv_waiting id key value : sy_calls s !! id = Some (Waiting key value) →
    ∃ v, value_of s value = Some v ∧ (cv_wait v = true → ca_values (sy_cache s) !! key = Some value);
  (** Filed rows are the venue's; an answer is filed until it has expired. *)
  inv_filed key value v : ca_values (sy_cache s) !! key = Some value → value_of s value = Some v → cv_wait v = false →
    Answered key (cv_loadedAt v) (cv_rows v) ∈ sy_log s;
  inv_clock key t rows : Answered key t rows ∈ sy_log s → t ≤ sy_clock s;
  inv_kept key t rows : Answered key t rows ∈ sy_log s → t + ttl ≤ sy_clock s ∨
    ∃ value, ca_values (sy_cache s) !! key = Some value ∧ value_of s value = Some (mkValue rows t false);
  inv_log : log_ok (sy_log s);
}.

Hypothesis ttl_range : 0 < ttl ≤ int64_max.
Lemma expired_iff now t : (Sub now t <? ttl) = false ↔ t + ttl ≤ now.
Proof. unfold Sub, int64_min. rewrite Z.ltb_ge. destruct ttl_range as [? ?]. unfold int64_max in *. lia. Qed.

Lemma initial_inv now : inv (initial now).
Proof. split; try done; cbn; intros *; by rewrite ?lookup_empty, ?elem_of_nil. Qed.

(** Only the calls change, and no request begins or ends. *)
Lemma call_inv s id c :
  inv s → (∀ key value, sy_calls s !! id ≠ Some (Loading key value)) →
  match c with
  | Loading _ _ => False
  | Waiting key value => ∃ v, value_of s value = Some v ∧ (cv_wait v = true → ca_values (sy_cache s) !! key = Some value)
  | _ => True
  end →
  inv (mkSystem (sy_cache s) (set_call s id c) (sy_clock s) (sy_log s)).
Proof.
  intros Hi Hid Hc. unfold set_call.
  assert (Hl : ∀ i key value, <[id := c]> (sy_calls s) !! i = Some (Loading key value) ↔ sy_calls s !! i = Some (Loading key value)).
  { intros i key value. destruct (decide (i = id)) as [->|]; [|by rewrite lookup_insert_ne].
    rewrite lookup_insert_eq. split; [by destruct c; intros [= ?]; simplify_eq|by intros ?%Hid]. }
  destruct Hi. split; cbn; try done.
  - intros i key value. rewrite Hl. eauto.
  - intros i i' key key' value. rewrite !Hl. eauto.
  - intros value v Hv Hw. destruct (inv_open0 value v Hv Hw) as (i & key & Hi). exists i, key. by rewrite Hl.
  - intros i key value. destruct (decide (i = id)) as [->|]; [|rewrite lookup_insert_ne by done; eauto].
    rewrite lookup_insert_eq. destruct c; naive_solver.
Qed.
(** Something is noted, other than an answer. *)
Lemma note_inv s e :
  inv s → event_ok e (sy_log s) → (∀ key t rows, e ≠ Answered key t rows) →
  inv (mkSystem (sy_cache s) (sy_calls s) (sy_clock s) (e :: sy_log s)).
Proof.
  intros Hi He Hn.
  assert (Ha : ∀ key t rows, Answered key t rows ∈ e :: sy_log s ↔ Answered key t rows ∈ sy_log s).
  { intros key t rows. rewrite elem_of_cons. split; [intros [<-|]; [by edestruct Hn|done]|by right]. }
  destruct Hi. split; cbn; try done; intros *; rewrite ?Ha; eauto.
Qed.
Lemma clock_inv s now : inv s → sy_clock s ≤ now → inv (mkSystem (sy_cache s) (sy_calls s) now (sy_log s)).
Proof.
  intros Hi Hn. destruct Hi. split; cbn; try done; intros key t rows Ha.
  - apply inv_clock0 in Ha. lia.
  - destruct (inv_kept0 key t rows Ha) as [?|?]; [left; lia|by right].
Qed.

(** A new value replaces an expired one, or none. *)
Definition load_value (s : system) (id : nat) (key : K) (value : nat) : system :=
  mkSystem (mkCache (<[key := value]> (ca_values (sy_cache s))) (<[value := mkValue [] zero_time true]> (ca_heap (sy_cache s))))
    (set_call s id (Loading key value)) (sy_clock s) (sy_log s).
Lemma load_inv s id key value :
  inv s → value_of s value = None → (∀ t rows, Answered key t rows ∈ sy_log s → t + ttl ≤ sy_clock s) →
  (∀ key value, sy_calls s !! id ≠ Some (Loading key value)) →
  (∀ value v, ca_values (sy_cache s) !! key = Some value → value_of s value = Some v → cv_wait v = false) →
  inv (load_value s id key value).
Proof.
  intros Hi Hv Hold Hid Hidle. pose proof Hi as [].
  assert (Hne : ∀ key' value', ca_values (sy_cache s) !! key' = Some value' → value' ≠ value).
  { intros key' value' [v Hx]%inv_live0 ->. congruence. }
  assert (Hother : ∀ value' v, value_of s value' = Some v → value' ≠ value) by (intros; congruence).
  unfold load_value, set_call. split; cbn.
  - intros key' value'. unfold value_of; cbn. rewrite lookup_insert_Some. intros [[<- <-]|[_ Hk]]; [by rewrite lookup_insert_eq|].
    rewrite lookup_insert_ne by (symmetry; eauto). eauto.
  - intros k k' value'. rewrite !lookup_insert_Some. intros [[? ?]|[? Hk]] [[? ?]|[? Hk']]; simplify_eq; [done|by edestruct Hne|by edestruct Hne|by eapply inv_own0].
  - intros i k value'. unfold value_of; cbn. rewrite lookup_insert_Some. intros [[<- [= <- <-]]|[_ Hl]].
    + rewrite !lookup_insert_eq. eauto.
    + destruct (inv_loading0 _ _ _ Hl) as (Hk & v & Hx & Hw). rewrite (lookup_insert_ne _ value) by (symmetry; eauto).
      rewrite lookup_insert_ne; [eauto|]. intros <-. specialize (Hidle _ _ Hk Hx). congruence.
  - intros i i' k k' value'. rewrite !lookup_insert_Some. intros [[? ?]|[? Hl]] [[? ?]|[? Hl']]; simplify_eq; [done| | |eauto].
    + destruct (inv_loading0 _ _ _ Hl') as [Hk _]. by edestruct Hne.
    + destruct (inv_loading0 _ _ _ Hl) as [Hk _]. by edestruct Hne.
  - intros value' v. unfold value_of; cbn. rewrite lookup_insert_Some. intros [[<- <-]|[_ Hx]] Hw; [exists id, key; by rewrite lookup_insert_eq|].
    destruct (inv_open0 _ _ Hx Hw) as (i & k & Hl). exists i, k. rewrite lookup_insert_ne; [done|]. intros <-. by edestruct Hid.
  - intros i k value'. unfold value_of; cbn. rewrite lookup_insert_Some. intros [[_ [=]]|[_ Hl]].
    destruct (inv_waiting0 _ _ _ Hl) as (v & Hx & Hk). rewrite (lookup_insert_ne _ value) by (symmetry; eauto). exists v. split; [done|]. intros Hw.
    specialize (Hk Hw). rewrite lookup_insert_ne; [done|]. intros <-. specialize (Hidle _ _ Hk Hx). congruence.
  - intros k value' v. unfold value_of; cbn. rewrite lookup_insert_Some. intros [[<- <-]|[_ Hk]]; [rewrite lookup_insert_eq; by intros [= <-]|].
    rewrite lookup_insert_ne by (symmetry; eauto). eauto.
  - done.
  - intros k t rows Ha. destruct (decide (k = key)) as [->|]; [left; eauto|].
    destruct (inv_kept0 k t rows Ha) as [?|(value' & Hk & Hx)]; [by left|right]. exists value'. unfold value_of; cbn.
    rewrite !lookup_insert_ne by (done || (symmetry; eauto)). done.
  - done.
Qed.

Lemma look_step_inv s id key : inv s → sy_calls s !! id = Some (Entering key) → inv (look_step s id key).
Proof.
  intros Hi Hid. assert (Hnl : ∀ key value, sy_calls s !! id ≠ Some (Loading key value)) by (intros; congruence).
  assert (Hload : (∀ t rows, Answered key t rows ∈ sy_log s → t + ttl ≤ sy_clock s) →
    (∀ value v, ca_values (sy_cache s) !! key = Some value → value_of s value = Some v → cv_wait v = false) →
    inv (let value := fresh (dom (ca_heap (sy_cache s))) in
         mkSystem (sy_cache (load_value s id key value)) (set_call s id (Loading key value)) (sy_clock s) (Sent key (sy_clock s) :: sy_log s))).
  { intros Hold Hidle. cbv zeta. refine (note_inv (load_value s id key _) (Sent key (sy_clock s)) _ _ _); [|done|done].
    apply load_inv; try done. apply not_elem_of_dom, is_fresh. }
  unfold look_step, look. destruct (ca_values (sy_cache s) !! key) as [value|] eqn:Hk.
  - destruct (inv_live s Hi _ _ Hk) as [v Hv]. unfold value_of in Hv. rewrite Hv. destruct (cv_wait v) eqn:Hw; cbn [negb andb].
    + apply call_inv; [done..|]. exists v. done.
    + pose proof (inv_filed s Hi _ _ _ Hk Hv Hw) as Hf. destruct (Sub _ _ <? ttl) eqn:Hs.
      * refine (note_inv (mkSystem (sy_cache s) (set_call s id _) (sy_clock s) (sy_log s)) _ _ _ _); [by apply call_inv| |done].
        exists (cv_loadedAt v). split; [done|]. pose proof (inv_clock s Hi _ _ _ Hf). split; [done|].
        destruct (Z.ltb_spec (sy_clock s) (cv_loadedAt v + ttl)) as [|Hlt%expired_iff]; [done|congruence].
      * apply expired_iff in Hs. apply Hload.
        -- intros t rows Ha. destruct (inv_kept s Hi _ _ _ Ha) as [?|(value' & Hk' & Hv')]; [done|]. unfold value_of in Hv'. simplify_eq. done.
        -- intros value' v' Hk' Hv'. unfold value_of in Hv'. simplify_eq. done.
  - apply Hload; [|intros; simplify_eq]. intros t rows Ha. destruct (inv_kept s Hi _ _ _ Ha) as [?|(? & Hk' & _)]; [done|simplify_eq].
Qed.

(** An answer closes the channel; its value keeps its key, or loses it to a
    failure. *)
Lemma settled_value s key value reply x v :
  value_of s value = Some v → ∃ v', cv_wait v' = false ∧
    (∀ rows, reply = Ok rows → v' = mkValue rows (sy_clock s) false) ∧
    ca_heap (settle (sy_cache s) key value reply (sy_clock s)) !! x = if decide (x = value) then Some v' else value_of s x.
Proof.
  unfold value_of. intros Hv. destruct reply as [rows|e]; cbn; eexists; (split; [|split; [|case_decide; subst;
    [rewrite lookup_alter_eq, Hv; reflexivity|by rewrite lookup_alter_ne]]]); [done|by intros ? [= ->]|done|done].
Qed.
Lemma settled_key s key value reply k x :
  ca_values (settle (sy_cache s) key value reply (sy_clock s)) !! k = Some x →
  ca_values (sy_cache s) !! k = Some x ∧ (k = key → is_ok reply = true).
Proof. destruct reply; cbn; [done|]. rewrite lookup_delete_Some. naive_solver. Qed.
Lemma settled_other s key value reply k :
  k ≠ key → ca_values (settle (sy_cache s) key value reply (sy_clock s)) !! k = ca_values (sy_cache s) !! k.
Proof. destruct reply; cbn; [done|]. intros. by rewrite lookup_delete_ne. Qed.

Lemma settle_step_inv s id key value reply : inv s → sy_calls s !! id = Some (Loading key value) → inv (settle_step s id key value reply).
Proof.
  intros Hi Hid. pose proof Hi as []. destruct (inv_loading0 _ _ _ Hid) as (Hk & v & Hv & Hw).
  assert (Hl : ∀ i k x, set_call s id (Returned reply) !! i = Some (Loading k x) → sy_calls s !! i = Some (Loading k x) ∧ x ≠ value).
  { intros i k x. unfold set_call. rewrite lookup_insert_Some. intros [[_ [=]]|[Hne Hl]]. split; [done|]. intros ->. by edestruct Hne; eapply inv_single0. }
  assert (Hown : ∀ k, ca_values (sy_cache s) !! k = Some value → k = key) by (intros; by eapply inv_own0).
  assert (Ha : ∀ k t rows, Answered k t rows ∈ reply_event key (sy_clock s) reply :: sy_log s →
    (k = key ∧ t = sy_clock s ∧ reply = Ok rows) ∨ Answered k t rows ∈ sy_log s).
  { intros k t rows. rewrite elem_of_cons. intros [He|]; [left|by right]. destruct reply; by simplify_eq/=. }
  pose proof (λ x, settled_value s key value reply x v Hv) as Hh. split; unfold value_of; cbn [settle_step sy_cache sy_calls sy_clock sy_log].
  - intros k x [Hx _]%settled_key. destruct (Hh x) as (v' & _ & _ & ->). case_decide; [done|]. by eapply inv_live0.
  - intros k k' x [Hx _]%settled_key [Hx' _]%settled_key. by eapply inv_own0.
  - intros i k x [Hi' Hne]%Hl. destruct (inv_loading0 _ _ _ Hi') as (Hk' & v'' & Hv' & Hw'). destruct (Hh x) as (v' & _ & _ & ->).
    rewrite decide_False by done. split; [|eauto]. rewrite settled_other; [done|]. intros ->. congruence.
  - intros i i' k k' x [Hi1 _]%Hl [Hi2 _]%Hl. by eapply inv_single0.
  - intros x v''. destruct (Hh x) as (v' & Hw' & _ & ->). case_decide; [by intros [= <-]; rewrite Hw'|]. intros Hx Hwx.
    destruct (inv_open0 _ _ Hx Hwx) as (i & k & Hlx). exists i, k. unfold set_call. rewrite lookup_insert_ne; [done|]. intros <-. congruence.
  - intros i k x. unfold set_call. rewrite lookup_insert_Some. intros [[_ [=]]|[_ Hwt]]. destruct (inv_waiting0 _ _ _ Hwt) as (v'' & Hv' & Hk').
    destruct (Hh x) as (v' & Hw' & _ & ->). case_decide; [exists v'; split; [done|by rewrite Hw']|]. exists v''. split; [done|]. intros Hwx.
    specialize (Hk' Hwx). rewrite settled_other; [done|]. intros ->. congruence.
  - intros k x v'' [Hx Hok]%settled_key. destruct (Hh x) as (v' & Hw' & Hr & ->). case_decide as Hd; [|intros; right; eauto].
    subst x. intros [= <-] _. destruct (Hown _ Hx). destruct reply as [rows|e]; [|by specialize (Hok eq_refl)].
    rewrite (Hr _ eq_refl). by left.
  - intros k t rows [(-> & -> & _)|Hin]%Ha; [done|eauto].
  - intros k t rows [(-> & -> & Hr)|Hin]%Ha.
    + right. exists value. subst reply. split; [done|]. destruct (Hh value) as (v' & _ & Hr & ->). rewrite decide_True by done. by rewrite (Hr rows).
    + destruct (inv_kept0 k t rows Hin) as [?|(x & Hx & Hvx)]; [by left|right]. destruct (decide (k = key)) as [->|].
      { exfalso. simplify_eq. }
      exists x. rewrite settled_other by done. split; [done|]. destruct (Hh x) as (v' & _ & _ & ->). rewrite decide_False; [done|]. intros ->. eauto.
  - split; [|done]. by destruct reply.
Qed.

Lemma cache_step_inv s s' : inv s → step s s' → inv s'.
Proof.
  intros Hi Hs. destruct Hs; [apply call_inv|by apply look_step_inv|by apply settle_step_inv|apply call_inv|apply call_inv|by apply clock_inv];
    try done; intros; congruence.
Qed.
Lemma cache_inv start s : reachable start s → inv s.
Proof. apply (rtc_ind_r inv); [apply initial_inv|]. intros y z _ Hst Hy. by eapply cache_step_inv. Qed.

(** ** What the cache promises *)

(** Calls for the same rows share one request: at most one is under way per
    key, a new one is sent only when every earlier answer for the key is at least
    as old as the time to live, and rows served without a request are an answer
    for the same key that is younger than that. *)
Theorem requests_shared start s :
  reachable start s →
  (∀ id id' key value value', sy_calls s !! id = Some (Loading key value) → sy_calls s !! id' = Some (Loading key value') → id = id') ∧
  (∀ later key t before, sy_log s = later ++ Sent key t :: before → ∀ t' rows, Answered key t' rows ∈ before → t' + ttl ≤ t) ∧
  (∀ later key t rows before, sy_log s = later ++ Served key t rows :: before → ∃ t', Answered key t' rows ∈ before ∧ t' ≤ t < t' + ttl).
Proof.
  intros Hi%cache_inv. split_and!.
  - intros id id' key value value' H1 H2. destruct (inv_loading s Hi _ _ _ H1) as [Hk1 _]. destruct (inv_loading s Hi _ _ _ H2) as [Hk2 _].
    simplify_eq. by eapply inv_single.
  - intros later key t before E1. pose proof (inv_log s Hi) as Hl. rewrite E1 in Hl. clear -Hl. induction later; naive_solver.
  - intros later key t rows before E1. pose proof (inv_log s Hi) as Hl. rewrite E1 in Hl. clear -Hl. induction later; naive_solver.
Qed.

(** C40: no caller is stranded: whoever waits has been woken, or waits for a request
    that is under way for its own key; when that request is answered the waiter
    can return the rows at once. *)
Theorem waiters_served start s id key value :
  reachable start s → sy_calls s !! id = Some (Waiting key value) →
  closed s value ∨ ∃ loader, sy_calls s !! loader = Some (Loading key value) ∧
    ∀ rows, ∃ s', rtc step (settle_step s loader key value (Ok rows)) s' ∧ sy_calls s' !! id = Some (Returned (Ok rows)) ∧
      sy_log s' = Served key (sy_clock s) rows :: Answered key (sy_clock s) rows :: sy_log s.
Proof.
  intros Hi%cache_inv Hid. destruct (inv_waiting s Hi _ _ _ Hid) as (v & Hv & Hk). destruct (cv_wait v) eqn:Hw; [|left; by exists v].
  right. specialize (Hk eq_refl). destruct (inv_open s Hi _ _ Hv Hw) as (loader & key' & Hl).
  destruct (inv_loading s Hi _ _ _ Hl) as [Hk' _]. destruct (inv_own s Hi _ _ _ Hk Hk'). exists loader. split; [done|]. intros rows.
  assert (Hne : loader ≠ id) by (intros ->; congruence).
  set (s1 := settle_step s loader key value (Ok rows)). unfold value_of in Hv.
  assert (H1 : sy_calls s1 !! id = Some (Waiting key value)) by (cbn; unfold set_call; by rewrite lookup_insert_ne).
  assert (Hv1 : ca_heap (sy_cache s1) !! value = Some (mkValue rows (sy_clock s) false)) by (cbn; by rewrite lookup_alter_eq, Hv).
  set (s2 := mkSystem (sy_cache s1) (set_call s1 id (Entering key)) (sy_clock s1) (sy_log s1)).
  exists (look_step s2 id key). split.
  { eapply rtc_l; [eapply (step_wake s1); [done|by eexists]|]. apply rtc_once, step_look. cbn. unfold set_call. by rewrite lookup_insert_eq. }
  unfold look_step, look. cbn [s2 sy_cache sy_clock sy_log sy_calls]. change (ca_values (sy_cache s1)) with (ca_values (sy_cache s)). rewrite Hk, Hv1.
  cbn [cv_wait cv_loadedAt negb andb]. change (sy_clock s1) with (sy_clock s).
  destruct (Sub _ _ <? ttl) eqn:Hs; [cbn; unfold set_call; by rewrite lookup_insert_eq|]. apply expired_iff in Hs. lia.
Qed.
End cache.

(** ** The two caches *)

(** Keys are an HTTP client and an endpoint, and a product type for Bitget. *)
Definition loadBybitLinearTickers {R E : Type} := look_step (K := nat * nat) (R := R) (E := E) bybitTickerTTL.
Definition loadBitgetInstruments {R E : Type} := look_step (K := nat * nat * nat) (R := R) (E := E) bitgetInstrumentTTL.

Lemma bybitTickerTTL_range : 0 < bybitTickerTTL ≤ int64_max.
Proof. unfold bybitTickerTTL, Second, int64_max. lia. Qed.

(** Two boards ask for the tickers; one request answers both. *)
Definition asked : system (K := nat * nat) (R := Z) (E := unit) :=
  let s1 := mkSystem (mkCache ∅ ∅) {[0%nat := Entering (0, 0)%nat]} 100 [] in
  let s2 := loadBybitLinearTickers s1 0%nat (0, 0)%nat in
  let s3 := mkSystem (sy_cache s2) (set_call s2 1%nat (Entering (0, 0)%nat)) (sy_clock s2) (sy_log s2) in
  loadBybitLinearTickers s3 1%nat (0, 0)%nat.
Lemma asked_reachable : reachable bybitTickerTTL 100 asked.
Proof.
  eapply rtc_l; [apply (step_enter _ (initial 100) 0%nat (0, 0)%nat); reflexivity|].
  eapply rtc_l; [apply (step_look _ _ 0%nat (0, 0)%nat); reflexivity|].
  eapply rtc_l; [apply (step_enter _ _ 1%nat (0, 0)%nat); reflexivity|].
  apply rtc_once, (step_look _ _ 1%nat (0, 0)%nat). reflexivity.
Qed.
Definition served : system (K := nat * nat) (R := Z) (E := unit) :=
  let s1 := settle_step asked 0%nat (0, 0)%nat 0%nat (Ok [7]) in
  let s2 := mkSystem (sy_cache s1) (set_call s1 1%nat (Entering (0, 0)%nat)) (sy_clock s1) (sy_log s1) in
  loadBybitLinearTickers s2 1%nat (0, 0)%nat.
Lemma served_reachable : reachable bybitTickerTTL 100 served.
Proof.
  unfold reachable. etrans; [apply asked_reachable|].
  eapply rtc_l; [apply (step_settle _ _ 0%nat (0, 0)%nat 0%nat (Ok [7])); reflexivity|].
  eapply rtc_l; [apply (step_wake _ _ 1%nat (0, 0)%nat 0%nat); [reflexivity|by eexists]|].
  apply rtc_once, (step_look _ _ 1%nat (0, 0)%nat). reflexivity.
Qed.
Lemma requests_shared_witness :
  reachable bybitTickerTTL 100 served ∧ sy_log served = [Served (0, 0)%nat 100 [7]; Answered (0, 0)%nat 100 [7]; Sent (0, 0)%nat 100] ∧
  ∃ t', Answered (0, 0)%nat t' [7] ∈ [Answered (0, 0)%nat 100 [7]; Sent (0, 0)%nat 100] ∧ t' ≤ 100 < t' + bybitTickerTTL.
Proof.
  split; [apply served_reachable|]. split; [reflexivity|].
  refine (proj2 (proj2 (requests_shared bybitTickerTTL bybitTickerTTL_range 100 served served_reachable)) [] _ _ _ _ _). reflexivity.
Defined.
Lemma waiters_served_witness :
  sy_calls asked !! 1%nat = Some (Waiting (0, 0)%nat 0%nat) ∧
  (closed asked 0%nat ∨ ∃ loader, sy_calls asked !! loader = Some (Loading (0, 0)%nat 0%nat) ∧
    ∀ rows, ∃ s', rtc (step bybitTickerTTL) (settle_step asked loader (0, 0)%nat 0%nat (Ok rows)) s' ∧
      sy_calls s' !! 1%nat = Some (Returned (Ok rows)) ∧ sy_log s' = Served (0, 0)%nat 100 rows :: Answered (0, 0)%nat 100 rows :: sy_log asked).
Proof.
  split; [reflexivity|].
  apply (waiters_served bybitTickerTTL bybitTickerTTL_range 100 asked 1%nat (0, 0)%nat 0%nat asked_reachable). reflexivity.
Defined.
