(* ===== verification/OKXMarkets.v ===== *)
(** * OKX: markets

    The public half of [exchange/internal/factoryclient/okx_rest.go] and
    [okx_rest_extended.go] with [okx_catalog_loader.go]: number and time parsing,
    instrument identity, the catalog loader and the contract metadata read back
    from the catalog, books, candles, trades, funding and mark prices.  OKX counts
    perpetual sizes in contracts; the client speaks in units of the base asset.
    What the SDK answers is explicit, as in [HyperliquidRest]. *)

From Stdlib Require Import Ascii String ZArith Lia QArith Qcanon Sorted.
From stdpp Require Import base list strings gmap sorting.
From S2P Require Import Prelude GoStrings Decimals DecimalText Errors Model HttpErrors Orders InstrumentCatalog Sockets AccountFeed Clients.
From S2P Require Import HyperliquidMarkets VenueErrors Commands FundingLoaders DerivativeLoaders.

#[local] Open Scope string_scope.
#[local] Open Scope list_scope.
#[local] Open Scope Z_scope.
#[local] Open Scope go_scope.

Definition okxSpotType := "SPOT".
Definition okxSwapType := "SWAP".
Definition okxCashMode := "cash".
Definition okxCrossMode := "cross".

(** ** Venue rows, as the SDK decodes them *)

Record okx_Instrument := mkOKXInstrument {
  xi_InstId : string; xi_InstType : string; xi_State : string; xi_BaseCcy : string; xi_QuoteCcy : string; xi_SettleCcy : string;
  xi_CtVal : string; xi_CtValCcy : string; xi_TickSz : string; xi_LotSz : string; xi_MinSz : string; xi_InstIdCode : option Z;
}.
Record okx_OrderBook := mkOKXBook { xb_Asks : list (list string); xb_Bids : list (list string); xb_Ts : string }.
(** [type Candle [9]string] *)
Record okx_Candle := mkOKXCandle {
  xc_ts : string; xc_open : string; xc_high : string; xc_low : string; xc_close : string; xc_vol : string; xc_volCcy : string; xc_volCcyQuote : string; xc_confirm : string;
}.
Record okx_PublicTrade := mkOKXTrade { xt_InstId : string; xt_TradeId : string; xt_Px : string; xt_Sz : string; xt_Side : string; xt_Ts : string }.

Definition okxInvalid (product operation message : string) : error := venue_error VenueOKX product operation KindInvalidRequest "" message.
(** [okxReady]: the client and its context.  An error that is neither a
    cancellation nor a deadline counts as ready. *)
Definition context_error (err : error) : sdk_error := mkSDK err "" [] None (λ _, None) None.
Definition okxReady (ctx : context) (product operation : string) (initialized : bool) : result error unit :=
  check initialized else okxInvalid product operation "client is not initialized" ;;
  match ctx with
  | None => Err (okxInvalid product operation "context is required")
  | Some (Some err) => match okxContextErr product operation (context_error err) with Some e => Err e | None => Ok tt end
  | Some None => Ok tt
  end.
Definition okxLimitPtr (limit : Z) : option Z := if limit <=? 0 then None else Some limit.
Definition okxStringPtr (value : string) : option string := if is_empty value then None else Some value.
(** [okxInvalid(…, err.Error())] and [okxMalformed(…, err.Error())] *)
Definition invalid_by {A} (product operation : string) (r : result error A) : result error A :=
  match r with Ok a => Ok a | Err e => Err (okxInvalid product operation (error_text e)) end.
Definition okx_malformed_by {A} (product operation : string) (r : result error A) : result error A :=
  match r with Ok a => Ok a | Err e => Err (okxMalformed product operation (error_text e)) end.
(** An SDK call *)
Definition queried {A} (product operation : string) (reply : result sdk_error A) : result error A :=
  match reply with Ok a => Ok a | Err s => Err (okxNormalizeErr product operation s) end.

(** ** Bars *)

Definition okxRESTBar (interval : string) : string := if HasSuffix interval "m" then interval else ToUpper interval.
Definition okxIntervalDuration (interval : string) : result error duration :=
  if String.eqb interval "1m" then Ok Minute
  else if String.eqb interval "3m" then Ok (3 * Minute)
  else if String.eqb interval "5m" then Ok (5 * Minute)
  else if String.eqb interval "15m" then Ok (15 * Minute)
  else if String.eqb interval "30m" then Ok (30 * Minute)
  else if one_of interval ["1H"; "1h"] then Ok Hour
  else if one_of interval ["2H"; "2h"] then Ok (2 * Hour)
  else if one_of interval ["4H"; "4h"] then Ok (4 * Hour)
  else if one_of interval ["6H"; "6h"] then Ok (6 * Hour)
  else if one_of interval ["12H"; "12h"] then Ok (12 * Hour)
  else if one_of interval ["1D"; "1d"] then Ok (24 * Hour)
  else Err (EText "unsupported OKX candle interval").
Definition okxExchangeSide (raw : string) : result error string :=
  if String.eqb raw SideBuy then Ok SideBuy else if String.eqb raw SideSell then Ok SideSell else Err (EText "unknown side").

(** ** Native symbols *)

Definition raw_spot_symbol (symbol : string) : option (string * string) :=
  match Split "-" symbol with
  | [base; quote] => if is_empty base || is_empty quote || negb (String.eqb (ToUpper symbol) symbol) then None else Some (base, quote)
  | _ => None
  end.
Definition raw_swap_symbol (symbol : string) : option string :=
  match Split "-" symbol with
  | [base; quote; kind] =>
      if is_empty base || negb (String.eqb quote "USDT") || negb (String.eqb kind "SWAP") || negb (String.eqb (ToUpper symbol) symbol) then None else Some base
  | _ => None
  end.
Definition okxValidateRawSpotNativeSymbol (symbol : string) : result error (string * string) :=
  match raw_spot_symbol symbol with Some parts => Ok parts | None => Err (EText "instrument must be exact OKX SPOT BASE-QUOTE") end.
Definition okxValidateRawSwapNativeSymbol (symbol : string) : result error string :=
  match raw_swap_symbol symbol with Some base => Ok base | None => Err (EText "instrument must be exact OKX USDT-linear BASE-USDT-SWAP") end.
Definition okxInstrumentNativeID (row : okx_Instrument) : result error string :=
  match xi_InstIdCode row with
  | Some code => if code <=? 0 then Err (EText "instrument code is missing") else Ok (FormatInt code)
  | None => Err (EText "instrument code is missing")
  end.

Section okx.
Context `{Decimal D} `{DecimalText D}.
(** The texts of [decimal.NewFromString]'s and [strconv.ParseInt]'s errors *)
Context (parse_error int_error : string → string).
Implicit Types instrument : Instrument D.

(** ** Numbers and times *)

Definition okxDecimal (raw : string) : result error D :=
  let raw := if is_empty (TrimSpace raw) then "0" else raw in
  match d_new_from_string raw with Some d => Ok d | None => Err (EText (parse_error raw)) end.
Definition okxPositiveDecimal (raw : string) : result error D :=
  value <-? okxDecimal raw ;; check d_is_positive value else EText "decimal must be positive" ;; Ok value.
Definition okxNonNegativeDecimal (raw : string) : result error D :=
  value <-? okxDecimal raw ;; check negb (d_is_negative value) else EText "decimal must be non-negative" ;; Ok value.
Definition okxOptional (raw : string) : result error (OptionalDecimal D) :=
  if is_empty (TrimSpace raw) then Ok no_decimal else value <-? okxDecimal raw ;; Ok (mkOptDec value true).
(** [okxMillis] and [okxOptionalMillis] with their errors *)
Definition millis (raw : string) : result error time := match okxMillis raw with Some t => Ok t | None => Err (EText (int_error raw)) end.
Definition optional_millis (raw : string) : result error time := match okxOptionalMillis raw with Some t => Ok t | None => Err (EText (int_error raw)) end.

(** ** Instruments *)

Definition okxValidateSpotInstrument instrument : result error unit :=
  _ <-? Instrument_Validate instrument ;;
  let identity := in_Identity instrument in
  check String.eqb (id_Venue identity) VenueOKX && String.eqb (id_Product identity) ProductSpot && is_empty (id_SettleAsset identity)
    else EText "instrument must be OKX SPOT" ;;
  parts <-? okxValidateRawSpotNativeSymbol (id_NativeSymbol identity) ;;
  check String.eqb (id_Symbol identity) (id_NativeSymbol identity) && String.eqb (id_BaseAsset identity) parts.1 && String.eqb (id_QuoteAsset identity) parts.2
    else EText "instrument identity does not match OKX SPOT native symbol" ;;
  Ok tt.
Definition okxValidateSwapInstrument instrument : result error unit :=
  _ <-? Instrument_Validate instrument ;;
  let identity := in_Identity instrument in
  check String.eqb (id_Venue identity) VenueOKX && String.eqb (id_Product identity) ProductPerp && String.eqb (id_SettleAsset identity) "USDT"
    else EText "instrument must be OKX USDT-linear SWAP" ;;
  base <-? okxValidateRawSwapNativeSymbol (id_NativeSymbol identity) ;;
  check String.eqb (id_Symbol identity) (id_NativeSymbol identity) && String.eqb (id_BaseAsset identity) base && String.eqb (id_QuoteAsset identity) "USDT"
    else EText "instrument identity does not match OKX SWAP native symbol" ;;
  Ok tt.
Definition okxValidateInstrument (product : string) instrument : result error unit :=
  if String.eqb product ProductSpot then okxValidateSpotInstrument instrument else okxValidateSwapInstrument instrument.
(** [okxSpotNativeInstrument] and [okxSwapNativeInstrument] *)
Definition native_instrument (product operation : string) instrument : result error string :=
  _ <-? invalid_by product operation (okxValidateInstrument product instrument) ;; Ok (id_NativeSymbol (in_Identity instrument)).
(** [okxOptionalSpotInstrument] and [okxOptionalSwapInstrument]: the operation
    in the error is OpenOrders whatever the caller. *)
Definition optional_instrument (product : string) (requested : option (Instrument D)) : result error (option string) :=
  match requested with
  | None => Ok None
  | Some instrument => native <-? native_instrument product "OpenOrders" instrument ;; Ok (Some native)
  end.
Definition okxOptionalInstrumentMatches (requested : option (Instrument D)) (nativeSymbol : string) : bool :=
  match requested with None => true | Some instrument => String.eqb (id_NativeSymbol (in_Identity instrument)) nativeSymbol end.

Record okxContractMeta := mkContractMeta { oc_instrument : Instrument D; oc_contractValue : D; oc_contractIncrement : D }.
Definition okxContractMetaFromInstrument instrument : result error okxContractMeta :=
  _ <-? okxValidateSwapInstrument instrument ;;
  let multiplier := en_ContractMultiplier (in_Encoding instrument) in
  check od_Valid multiplier && d_is_positive (od_Value multiplier) else EText "OKX contract multiplier is missing" ;;
  check d_is_positive (ru_QuantityIncrement (in_Rules instrument)) else EText "OKX contract quantity increment is invalid" ;;
  Ok (mkContractMeta instrument (od_Value multiplier) (d_div (ru_QuantityIncrement (in_Rules instrument)) (od_Value multiplier))).

(** One reading of the catalog: the context then, and the snapshot. *)
Definition reading : Type := context * result error (list (Instrument D)).
Definition okxPerpMetas (initialized : bool) (operation : string) (r : reading) : result error (gmap string okxContractMeta) :=
  _ <-? okxReady r.1 ProductPerp operation initialized ;;
  instruments <-? match r.2 with Ok l => Ok l | Err e => Err (withExchangeOperation e operation) end ;;
  metas <-? okx_malformed_by ProductPerp operation (map_result okxContractMetaFromInstrument instruments) ;;
  Ok (foldl (λ m meta, <[id_NativeSymbol (in_Identity (oc_instrument meta)) := meta]> m) ∅ metas).
Definition okxPerpMetaByNative (initialized : bool) (operation native : string) (r : reading) : result error okxContractMeta :=
  metas <-? okxPerpMetas initialized operation r ;;
  match metas !! native with
  | Some meta => Ok meta
  | None => Err (okxInvalid ProductPerp operation "instrument is not present in OKX SWAP metadata")
  end.
Definition okxPerpMeta (initialized : bool) (operation : string) instrument (r : reading) : result error okxContractMeta :=
  _ <-? invalid_by ProductPerp operation (okxValidateSwapInstrument instrument) ;;
  okxPerpMetaByNative initialized operation (id_NativeSymbol (in_Identity instrument)) r.

(** [Instruments] of the two clients *)
Definition Instruments (product : string) (ctx : context) (initialized : bool) (snapshot : result error (list (Instrument D))) : result error (list (Instrument D)) :=
  _ <-? okxReady ctx product "Instruments" initialized ;;
  match snapshot with
  | Err e => Err (withExchangeOperation e "Instruments")
  | Ok l => Ok (if String.eqb product ProductSpot then l else sort_slice (λ a b, str_lt (id_Symbol (in_Identity a)) (id_Symbol (in_Identity b))) l)
  end.

(** *** The catalog loader *)

(** One turn of the loop of [okxSpotInstruments]: the symbols seen and the
    instruments so far. *)
Definition spot_row (acc : list string * list (Instrument D)) (row : okx_Instrument) : result error (list string * list (Instrument D)) :=
  let fail {A} (message : string) : result error A := Err (okxMalformed ProductSpot "Instruments" message) in
  if negb (String.eqb (xi_InstType row) okxSpotType) then fail "non-SPOT row in SPOT response"
  else if negb (String.eqb (xi_State row) "live") then Ok acc
  else
    parts <-? okx_malformed_by ProductSpot "Instruments" (okxValidateRawSpotNativeSymbol (xi_InstId row)) ;;
    if negb (String.eqb (xi_BaseCcy row) parts.1 && String.eqb (xi_QuoteCcy row) parts.2) then fail "instrument metadata does not match native symbol"
    else
      nativeID <-? okx_malformed_by ProductSpot "Instruments" (okxInstrumentNativeID row) ;;
      if bool_decide (xi_InstId row ∈ acc.1) then fail "duplicate instrument"
      else
        price <-? or_error (okxPositiveDecimal (xi_TickSz row)) (okxMalformed ProductSpot "Instruments" "invalid tick size") ;;
        qty <-? or_error (okxPositiveDecimal (xi_LotSz row)) (okxMalformed ProductSpot "Instruments" "invalid lot size") ;;
        min <-? or_error (okxPositiveDecimal (xi_MinSz row)) (okxMalformed ProductSpot "Instruments" "invalid min size") ;;
        Ok (xi_InstId row :: acc.1,
            acc.2 ++ [newInstrument VenueOKX ProductSpot (xi_InstId row) parts.1 parts.2 "" (xi_InstId row) nativeID price qty min no_decimal oneContract]).
Fixpoint fold_result {A B} (f : B → A → result error B) (acc : B) (l : list A) : result error B :=
  match l with [] => Ok acc | x :: l' => acc' <-? f acc x ;; fold_result f acc' l' end.
Definition okxSpotInstruments (rows : list okx_Instrument) : result error (list (Instrument D)) :=
  acc <-? fold_result spot_row ([], []) rows ;; Ok acc.2.

(** The contract of a live, USDT-settled row *)
Definition swap_meta (row : okx_Instrument) : result error okxContractMeta :=
  _ <-? okxValidateRawSwapNativeSymbol (xi_InstId row) ;;
  nativeID <-? okxInstrumentNativeID row ;;
  check String.eqb (xi_CtValCcy row) (okxSwapBase (xi_InstId row)) else EText "invalid linear USDT contract metadata" ;;
  ctVal <-? or_error (okxPositiveDecimal (xi_CtVal row)) (EText "invalid contract value") ;;
  lot <-? or_error (okxPositiveDecimal (xi_LotSz row)) (EText "invalid lot size") ;;
  min <-? or_error (okxPositiveDecimal (xi_MinSz row)) (EText "invalid min size") ;;
  price <-? or_error (okxPositiveDecimal (xi_TickSz row)) (EText "invalid tick size") ;;
  Ok (mkContractMeta
        (newInstrument VenueOKX ProductPerp (xi_InstId row) (okxSwapBase (xi_InstId row)) "USDT" "USDT" (xi_InstId row) nativeID price
           (d_mul lot ctVal) (d_mul min ctVal) no_decimal (mkOptDec ctVal true))
        ctVal lot).
Definition swap_row (metas : gmap string okxContractMeta) (row : okx_Instrument) : result error (gmap string okxContractMeta) :=
  if negb (String.eqb (xi_InstType row) okxSwapType) then Err (EText "non-SWAP row in SWAP response")
  else if negb (String.eqb (xi_State row) "live") then Ok metas
  else if negb (String.eqb (xi_SettleCcy row) "USDT") then Ok metas
  else
    meta <-? swap_meta row ;;
    match metas !! xi_InstId row with
    | Some _ => Err (EText "duplicate instrument")
    | None => Ok (<[xi_InstId row := meta]> metas)
    end.
Definition okxPerpMetasFromRows (rows : list okx_Instrument) : result error (gmap string okxContractMeta) := fold_result swap_row ∅ rows.

Definition load_operation := "InstrumentCatalog.Load".
(** The order of a Go map's values is not specified. *)
Definition LoadInstruments (product : string) (GetInstruments : string → result sdk_error (list okx_Instrument)) (scope : CatalogScope) (now : time)
  : result error (InstrumentSnapshot D) :=
  rows <-? queried product load_operation (GetInstruments (if String.eqb product ProductPerp then okxSwapType else okxSpotType)) ;;
  instruments <-? (if String.eqb product ProductSpot then okxSpotInstruments rows
                   else if String.eqb product ProductPerp then metas <-? okxPerpMetasFromRows rows ;; Ok (map oc_instrument (map_values metas))
                   else Err (okxInvalid product load_operation "unsupported OKX product")) ;;
  Ok (mkSnapshot 1 scope "" 0 now (filterInstrumentsForScope instruments scope) empty_indexes).

(** ** Books *)

Definition okxBookLevel (multiplier : D) (row : list string) : result error (BookLevel D) :=
  match row with
  | priceText :: sizeText :: _ =>
      price <-? okxPositiveDecimal priceText ;; qty <-? okxPositiveDecimal sizeText ;; Ok (mkLevel price (d_mul qty multiplier))
  | _ => Err (EText "book level must include price and size")
  end.
Definition okxBookLevels (rows : list (list string)) (multiplier : D) : result error (list (BookLevel D)) := map_result (okxBookLevel multiplier) rows.
Definition okxOrderBook (product operation : string) instrument (limit : Z) (rows : list okx_OrderBook) (multiplier : D) : result error (OrderBookPage (D:=D)) :=
  match rows with
  | [row] =>
      bids <-? okx_malformed_by product operation (okxBookLevels (xb_Bids row) multiplier) ;;
      asks <-? okx_malformed_by product operation (okxBookLevels (xb_Asks row) multiplier) ;;
      ts <-? or_error (millis (xb_Ts row)) (okxMalformed product operation "invalid book timestamp") ;;
      Ok (mkBookPage instrument bids asks ts (limit_page limit))
  | _ => Err (okxMalformed product operation "order book response must contain exactly one row")
  end.
(** The factor from the venue's sizes to the client's: one for spot, the
    contract value of the instrument's metadata for perpetuals *)
Definition instrument_factor (product : string) (initialized : bool) (operation : string) instrument (r : reading) : result error D :=
  if String.eqb product ProductSpot then Ok (d_new 1 0)
  else meta <-? okxPerpMeta initialized operation instrument r ;; Ok (oc_contractValue meta).
Definition OrderBook (product : string) (ctx : context) (initialized : bool) instrument (limit : Z) (r : reading)
    (GetOrderBook : string → option Z → result sdk_error (list okx_OrderBook)) : result error (OrderBookPage (D:=D)) :=
  _ <-? okxReady ctx product "OrderBook" initialized ;;
  _ <-? invalid_by product "OrderBook" (okxValidateInstrument product instrument) ;;
  check negb (limit <? 0) else okxInvalid product "OrderBook" "limit must be non-negative" ;;
  factor <-? instrument_factor product initialized "OrderBook" instrument r ;;
  rows <-? queried product "OrderBook" (GetOrderBook (id_NativeSymbol (in_Identity instrument)) (okxLimitPtr limit)) ;;
  okxOrderBook product "OrderBook" instrument limit rows factor.

(** ** Candles *)

Definition okxCandle (product : string) (interval : duration) (row : okx_Candle) : result error (Candle D) :=
  ts <-? millis (xc_ts row) ;;
  open <-? okxPositiveDecimal (xc_open row) ;;
  high <-? okxPositiveDecimal (xc_high row) ;;
  low <-? okxPositiveDecimal (xc_low row) ;;
  close <-? okxPositiveDecimal (xc_close row) ;;
  volume <-? okxNonNegativeDecimal (if String.eqb product ProductPerp then xc_volCcy row else xc_vol row) ;;
  Ok (mkCandle ts (Add ts interval) open high low close volume (String.eqb (xc_confirm row) "1")).
Definition opens_before (a b : Candle D) : bool := Before (ca_OpenTime a) (ca_OpenTime b).
Definition candle_page (req : CandlesRequest (D:=D)) (candles : list (Candle D)) : CandlePage (D:=D) :=
  let candles := sort_slice opens_before candles in
  mkCandlePage candles
    match candles, last candles with
    | first :: _, Some final =>
        mkPage (FormatInt (UnixMilli (ca_OpenTime first))) (cq_Limit req)
          (if IsZero (cq_Start req) then ca_OpenTime first else cq_Start req) (if IsZero (cq_End req) then ca_CloseTime final else cq_End req) false false
    | _, _ => mkPage "" (cq_Limit req) (cq_Start req) (cq_End req) false false
    end.
(** [GetCandles native bar after before limit] *)
Definition okxCandles (product : string) (req : CandlesRequest (D:=D))
    (GetCandles : string → string → option string → option string → option Z → result sdk_error (list okx_Candle)) : result error (CandlePage (D:=D)) :=
  check negb (is_empty (TrimSpace (cq_Interval req))) else okxInvalid product "Candles" "interval is required" ;;
  check negb (cq_Limit req <? 0) else okxInvalid product "Candles" "limit must be non-negative" ;;
  check is_empty (cq_Cursor req) || IsZero (cq_Start req) && IsZero (cq_End req) else okxInvalid product "Candles" "cursor and time window are mutually exclusive" ;;
  check IsZero (cq_Start req) || IsZero (cq_End req) || Before (cq_Start req) (cq_End req) else okxInvalid product "Candles" "start must be before end" ;;
  interval <-? invalid_by product "Candles" (okxIntervalDuration (cq_Interval req)) ;;
  let after := if IsZero (cq_End req) then okxStringPtr (cq_Cursor req) else Some (FormatInt (UnixMilli (cq_End req))) in
  let before := if IsZero (cq_Start req) then None else Some (FormatInt (UnixMilli (cq_Start req))) in
  rows <-? queried product "Candles"
    (GetCandles (id_NativeSymbol (in_Identity (cq_Instrument req))) (okxRESTBar (cq_Interval req)) after before (okxLimitPtr (cq_Limit req))) ;;
  candles <-? okx_malformed_by product "Candles" (map_result (okxCandle product interval) rows) ;;
  Ok (candle_page req candles).
Definition Candles (product : string) (ctx : context) (initialized : bool) (req : CandlesRequest (D:=D))
    (GetCandles : string → string → option string → option string → option Z → result sdk_error (list okx_Candle)) : result error (CandlePage (D:=D)) :=
  _ <-? okxReady ctx product "Candles" initialized ;;
  _ <-? invalid_by product "Candles" (okxValidateInstrument product (cq_Instrument req)) ;;
  okxCandles product req GetCandles.

(** ** Trades, funding and mark prices *)

Definition okx_trade (product : string) instrument (multiplier : D) (row : okx_PublicTrade) : result error (PublicTrade (D:=D)) :=
  let fail {A} (r : result error A) (message : string) := or_error r (okxMalformed product "PublicTrades" message) in
  check String.eqb (xt_InstId row) (id_NativeSymbol (in_Identity instrument)) else okxMalformed product "PublicTrades" "response instrument does not match request" ;;
  price <-? fail (okxPositiveDecimal (xt_Px row)) "invalid trade price" ;;
  quantity <-? fail (okxPositiveDecimal (xt_Sz row)) "invalid trade quantity" ;;
  side <-? fail (okxExchangeSide (xt_Side row)) "invalid trade side" ;;
  at_ <-? fail (millis (xt_Ts row)) "invalid trade timestamp" ;;
  Ok (mkHlTrade instrument (xt_TradeId row) side price (d_mul quantity multiplier) at_).
Definition okxPublicTrades (product : string) instrument (limit : Z) (multiplier : D) (GetTrades : string → option Z → result sdk_error (list okx_PublicTrade))
  : result error (list (PublicTrade (D:=D)) * PageInfo) :=
  check negb (limit <? 0) else okxInvalid product "PublicTrades" "limit must be non-negative" ;;
  rows <-? queried product "PublicTrades" (GetTrades (id_NativeSymbol (in_Identity instrument)) (okxLimitPtr limit)) ;;
  trades <-? map_result (okx_trade product instrument multiplier) rows ;;
  Ok (trades, limit_page limit).
Definition PublicTrades (product : string) (ctx : context) (initialized : bool) instrument (limit : Z) (r : reading)
    (GetTrades : string → option Z → result sdk_error (list okx_PublicTrade)) : result error (list (PublicTrade (D:=D)) * PageInfo) :=
  _ <-? okxReady ctx product "PublicTrades" initialized ;;
  _ <-? invalid_by product "PublicTrades" (okxValidateInstrument product instrument) ;;
  factor <-? instrument_factor product initialized "PublicTrades" instrument r ;;
  okxPublicTrades product instrument limit factor GetTrades.

Definition FundingRate_now (ctx : context) (initialized : bool) instrument (GetFundingRate : string → result sdk_error OKXFundingRate)
  : result error (FundingRate (D:=D)) :=
  let operation := "FundingRate" in
  let native := id_NativeSymbol (in_Identity instrument) in
  let fail {A} (r : result error A) (message : string) := or_error r (okxMalformed ProductPerp operation message) in
  _ <-? okxReady ctx ProductPerp operation initialized ;;
  _ <-? invalid_by ProductPerp operation (okxValidateSwapInstrument instrument) ;;
  row <-? queried ProductPerp operation (GetFundingRate native) ;;
  check String.eqb (or_InstrumentID row) native else okxMalformed ProductPerp operation "response instrument does not match request" ;;
  rate <-? fail (okxDecimal (or_FundingRate row)) "invalid funding rate" ;;
  observed <-? fail (optional_millis (or_Ts row)) "invalid observed timestamp" ;;
  fundingTime <-? fail (optional_millis (or_FundingTime row)) "invalid funding timestamp" ;;
  next <-? fail (optional_millis (or_NextFundingTime row)) "invalid next funding timestamp" ;;
  Ok (mkFundingRate native "" rate no_decimal observed fundingTime next).
Definition MarkPrice (ctx : context) (initialized : bool) instrument (GetMarkPrice : string → string → result sdk_error (option OKXMarkPrice))
  : result error (Instrument D * D * time) :=
  let operation := "MarkPrice" in
  let native := id_NativeSymbol (in_Identity instrument) in
  let fail {A} (r : result error A) (message : string) := or_error r (okxMalformed ProductPerp operation message) in
  _ <-? okxReady ctx ProductPerp operation initialized ;;
  _ <-? invalid_by ProductPerp operation (okxValidateSwapInstrument instrument) ;;
  row <-? queried ProductPerp operation (GetMarkPrice okxSwapType native) ;;
  match row with
  | Some row =>
      check String.eqb (om_InstId row) native else okxMalformed ProductPerp operation "response instrument does not match request" ;;
      price <-? fail (okxPositiveDecimal (om_MarkPx row)) "invalid mark price" ;;
      at_ <-? fail (millis (om_Ts row)) "invalid mark timestamp" ;;
      Ok (instrument, price, at_)
  | None => Err (okxMalformed ProductPerp operation "response instrument does not match request")
  end.
Definition FundingRateHistory (ctx : context) (initialized : bool) instrument (start stop : time) (cursor : string) (limit : Z)
    (GetFundingRateHistory : string → Z → Z → Z → result sdk_error (list OKXHistoryEntry)) : result error (list (FundingRate (D:=D)) * PageInfo) :=
  let operation := "FundingRateHistory" in
  let native := id_NativeSymbol (in_Identity instrument) in
  let fail {A} (r : result error A) (message : string) := or_error r (okxMalformed ProductPerp operation message) in
  _ <-? okxReady ctx ProductPerp operation initialized ;;
  _ <-? invalid_by ProductPerp operation (okxValidateSwapInstrument instrument) ;;
  _ <-? or_error (validateBoundedHistory limit start stop) (okxInvalid ProductPerp operation "invalid history bounds") ;;
  check is_empty cursor else okxInvalid ProductPerp operation "cursor is not supported" ;;
  rows <-? queried ProductPerp operation (GetFundingRateHistory native (optionalMillis start) (optionalMillis stop) limit) ;;
  rates <-? map_result (λ row,
    check String.eqb (ok_InstId row) native else okxMalformed ProductPerp operation "response instrument does not match request" ;;
    rate <-? fail (okxDecimal (ok_FundingRate row)) "invalid funding rate" ;;
    at_ <-? fail (millis (ok_FundingTime row)) "invalid funding timestamp" ;;
    Ok (mkFundingRate native "" rate no_decimal zero_time at_ zero_time)) rows ;;
  Ok (rates, historyPage "" limit start stop).

(** The spot client's operations *)
Definition spot_Instruments := Instruments ProductSpot.
Definition spot_OrderBook := OrderBook ProductSpot.
Definition spot_Candles := Candles ProductSpot.
Definition spot_PublicTrades := PublicTrades ProductSpot.
End okx.

(** ** Loaded contracts can be traded *)

Lemma fold_result_ind {A B} (P : B → Prop) (f : B → A → result error B) acc l acc' :
  P acc → (∀ acc x acc', x ∈ l → P acc → f acc x = Ok acc' → P acc') → fold_result f acc l = Ok acc' → P acc'.
Proof.
  revert acc. induction l as [|x l IH]; intros acc Hp Hf; cbn [fold_result]; [by intros [= <-]|].
  intros (acc1 & H1 & H2)%bind_Ok. eapply IH; [|intros ??? Hx; apply Hf; by right|done]. by eapply Hf; [left|..].
Qed.
Lemma okx_malformed_by_Ok {A} product operation (r : result error A) a : okx_malformed_by product operation r = Ok a ↔ r = Ok a.
Proof. by destruct r. Qed.
Lemma invalid_by_Ok {A} product operation (r : result error A) a : invalid_by product operation r = Ok a ↔ r = Ok a.
Proof. by destruct r. Qed.
Lemma queried_Ok {A} product operation (r : result sdk_error A) a : queried product operation r = Ok a ↔ r = Ok a.
Proof. destruct r; naive_solver. Qed.
Lemma raw_swap_symbol_base symbol base : raw_swap_symbol symbol = Some base → okxSwapBase symbol = base.
Proof.
  unfold raw_swap_symbol, okxSwapBase. rewrite Split_once. destruct (split_once "-" symbol) as [[part rest]|]; [|done].
  destruct (Split "-" rest) as [|quote [|kind [|? ?]]]; try done. by case_match; [|intros [= ->]].
Qed.

Lemma map_result_total {A B} (f : A → result error B) l : (∀ x, x ∈ l → ∃ y, f x = Ok y) → ∃ ys, map_result f l = Ok ys.
Proof.
  induction l as [|x l IH]; intros Hf; [by exists []|]. destruct (Hf x) as [y Hy]; [by left|]. destruct IH as [ys Hys]; [intros z Hz; apply Hf; by right|].
  exists (y :: ys). cbn [map_result]. by rewrite Hy, Hys.
Qed.
Lemma NoDup_map_filter {A B} (f : A → B) (keep : A → bool) l : NoDup (map f l) → NoDup (map f (List.filter keep l)).
Proof.
  induction l as [|x l IH]; cbn; [done|]. intros [Hx Hl]%NoDup_cons. destruct (keep x); [|by apply IH]. apply NoDup_cons. split; [|by apply IH].
  intros (y & E & Hy)%list_elem_of_fmap. apply Hx. rewrite E. apply list_elem_of_fmap. exists y. split; [done|].
  rewrite list_elem_of_In, filter_In, <- list_elem_of_In in Hy. by destruct Hy.
Qed.
Lemma Qc_mult_pos a b : (0 < a → 0 < b → 0 < a * b)%Qc.
Proof. intros Ha Hb. replace 0%Qc with (0 * b)%Qc by ring. by apply Qcmult_lt_compat_r. Qed.

Section loaded.
Context `{DecimalQuotientLaws D} `{DecimalText D}.
Context (parse_error : string → string).
Implicit Types (meta : okxContractMeta (D:=D)) (row : okx_Instrument).
Local Notation swap_meta := (swap_meta (D:=D) parse_error).

(** At most as many decimal places as [Div] computes *)
Definition few_places (d : D) : Prop := ∃ k p, (p ≤ 16)%nat ∧ d_value d = scaled k p.

Lemma okxPositiveDecimal_pos raw (d : D) : okxPositiveDecimal parse_error raw = Ok d → (0 < d_value d)%Qc.
Proof. unfold okxPositiveDecimal. intros (v & _ & [Hp [= <-]]%check_Ok)%bind_Ok. by apply d_is_positive_spec. Qed.
Lemma swap_meta_Ok row meta : swap_meta row = Ok meta → ∃ base nativeID ctVal lot min price,
  raw_swap_symbol (xi_InstId row) = Some base ∧ okxPositiveDecimal parse_error (xi_CtVal row) = Ok ctVal ∧ okxPositiveDecimal parse_error (xi_LotSz row) = Ok lot ∧
  meta = mkContractMeta (newInstrument VenueOKX ProductPerp (xi_InstId row) base "USDT" "USDT" (xi_InstId row) nativeID price
    (d_mul lot ctVal) (d_mul min ctVal) no_decimal (mkOptDec ctVal true)) ctVal lot.
Proof.
  unfold OKXMarkets.swap_meta. intros (base & Hb & (nativeID & Hn & Hr)%bind_Ok)%bind_Ok. apply check_Ok in Hr as [_ Hr].
  apply bind_Ok in Hr as (ctVal & Hc%or_error_Ok & Hr). apply bind_Ok in Hr as (lot & Hl%or_error_Ok & Hr).
  apply bind_Ok in Hr as (min & Hm%or_error_Ok & Hr). apply bind_Ok in Hr as (price & Hp%or_error_Ok & [= <-]).
  unfold okxValidateRawSwapNativeSymbol in Hb. destruct (raw_swap_symbol (xi_InstId row)) as [b|] eqn:E; [|done]. injection Hb as <-.
  exists b, nativeID, ctVal, lot, min, price. by rewrite (raw_swap_symbol_base _ _ E).
Qed.
Lemma metas_from_rows rows metas k meta :
  okxPerpMetasFromRows parse_error rows = Ok metas → metas !! k = Some meta → ∃ row, row ∈ rows ∧ xi_InstId row = k ∧ swap_meta row = Ok meta.
Proof.
  intros Hf. revert k meta. eapply (fold_result_ind (λ m, ∀ k meta, m !! k = Some meta → ∃ row, row ∈ rows ∧ xi_InstId row = k ∧ swap_meta row = Ok meta)); [|..|exact Hf].
  - intros k meta. by rewrite lookup_empty.
  - intros m row m' Hin IH Hrow k meta. unfold swap_row in Hrow. destruct (negb _); [done|]. destruct (negb _); [injection Hrow as <-; apply IH|].
    destruct (negb _); [injection Hrow as <-; apply IH|]. apply bind_Ok in Hrow as (meta' & Hm & Hrow). destruct (m !! xi_InstId row); [done|]. injection Hrow as <-.
    rewrite lookup_insert_Some. intros [[<- <-]|[_ Hk]]; [by exists row|by apply IH].
Qed.

(** What the catalog kept of a contract is enough to read it back. *)
Lemma swap_meta_back row meta :
  swap_meta row = Ok meta → is_ok (Instrument_Validate (oc_instrument meta)) = true → few_places (oc_contractIncrement meta) →
  ∃ meta', okxContractMetaFromInstrument (oc_instrument meta) = Ok meta' ∧ oc_instrument meta' = oc_instrument meta ∧
    oc_contractValue meta' = oc_contractValue meta ∧ d_value (oc_contractIncrement meta') = d_value (oc_contractIncrement meta).
Proof.
  intros (base & nativeID & ctVal & lot & min & price & Hb & Hc%okxPositiveDecimal_pos & Hl%okxPositiveDecimal_pos & ->)%swap_meta_Ok [[] Hv]%is_ok_Ok (k & p & Hp & Hk).
  cbn [oc_instrument oc_contractIncrement oc_contractValue] in *.
  assert (Hq : (0 < d_value (d_mul lot ctVal))%Qc) by (rewrite d_value_mul; by apply Qc_mult_pos).
  assert (Hnz : d_value ctVal ≠ 0%Qc) by (intros E; rewrite E in Hc; by apply Qclt_not_eq in Hc).
  set (i := newInstrument _ _ _ _ _ _ _ _ _ _ _ _ _) in *. exists (mkContractMeta i ctVal (d_div (d_mul lot ctVal) ctVal)).
  split_and!; [|done|done|]; subst i.
  - unfold okxContractMetaFromInstrument, okxValidateSwapInstrument. rewrite Hv. cbn [newInstrument in_Identity id_Venue id_Product id_SettleAsset id_NativeSymbol id_Symbol
      id_BaseAsset id_QuoteAsset in_Encoding en_ContractMultiplier od_Valid od_Value in_Rules ru_QuantityIncrement].
    unfold okxValidateRawSwapNativeSymbol. rewrite Hb, !String.eqb_refl. cbn [andb]. rewrite (proj2 (d_is_positive_spec _) Hc), (proj2 (d_is_positive_spec _) Hq). done.
  - cbn [oc_contractIncrement]. rewrite Hk. apply d_div_exact; [done|done|]. by rewrite d_value_mul, Hk.
Qed.

Definition native (i : Instrument D) : string := id_NativeSymbol (in_Identity i).
(** A contract of the venue's answer, and what the client reads of it *)
Record tradable (rows : list okx_Instrument) (metas : gmap string (okxContractMeta (D:=D))) (i : Instrument D) (loaded meta : okxContractMeta (D:=D)) : Prop := mkTradable {
  td_loaded : ∃ row, row ∈ rows ∧ swap_meta row = Ok loaded;
  td_instrument : oc_instrument loaded = i;
  td_lookup : metas !! native i = Some meta;
  td_same : oc_instrument meta = i;
  td_value : oc_contractValue meta = oc_contractValue loaded;
  td_lot : d_value (oc_contractIncrement meta) = d_value (oc_contractIncrement loaded);
}.
Lemma swap_meta_native row meta : swap_meta row = Ok meta → native (oc_instrument meta) = xi_InstId row.
Proof. by intros (base & nativeID & ctVal & lot & min & price & _ & _ & _ & ->)%swap_meta_Ok. Qed.
Lemma loaded_metas get rows scope now snap operation :
  get okxSwapType = Ok rows → LoadInstruments parse_error ProductPerp get scope now = Ok snap →
  (∀ i, i ∈ sn_Instruments snap → is_ok (Instrument_Validate i) = true) →
  (∀ row meta, row ∈ rows → swap_meta row = Ok meta → few_places (oc_contractIncrement meta)) →
  ∃ metas, okxPerpMetas true operation (Some None, Ok (sn_Instruments snap)) = Ok metas ∧
    ∀ i, i ∈ sn_Instruments snap → ∃ loaded meta, tradable rows metas i loaded meta.
Proof.
  intros Hget Hload Hvalid Hlots. unfold LoadInstruments in Hload. cbn in Hload. rewrite Hget in Hload. cbn in Hload.
  apply bind_Ok in Hload as (l & (metas0 & Hm & [= <-])%bind_Ok & [= <-]). cbn [sn_Instruments] in *. unfold filterInstrumentsForScope in *.
  set (l := List.filter _ _) in *.
  assert (Hrow : ∀ k m, metas0 !! k = Some m → ∃ row, row ∈ rows ∧ swap_meta row = Ok m ∧ native (oc_instrument m) = k).
  { intros k m Hk. destruct (metas_from_rows _ _ _ _ Hm Hk) as (row & Hin & <- & Hs). exists row. by rewrite (swap_meta_native _ _ Hs). }
  assert (Hback : ∀ i, i ∈ l → ∃ loaded meta row, row ∈ rows ∧ swap_meta row = Ok loaded ∧ oc_instrument loaded = i ∧ okxContractMetaFromInstrument i = Ok meta ∧
    oc_instrument meta = i ∧ oc_contractValue meta = oc_contractValue loaded ∧ d_value (oc_contractIncrement meta) = d_value (oc_contractIncrement loaded)).
  { intros i Hi. pose proof Hi as Hi'. unfold l in Hi'. rewrite list_elem_of_In, filter_In, <- list_elem_of_In in Hi'. destruct Hi' as [(m & -> & [k Hk]%elem_of_map_values)%list_elem_of_fmap _].
    destruct (Hrow k m Hk) as (row & Hin & Hs & _). destruct (swap_meta_back row m Hs (Hvalid _ Hi) (Hlots row m Hin Hs)) as (meta & Hm1 & Hm2 & Hm3 & Hm4). by exists m, meta, row. }
  destruct (map_result_total okxContractMetaFromInstrument l) as [ys Hys]; [intros i Hi; destruct (Hback i Hi) as (? & meta & ? & ? & ? & ? & ? & ?); by exists meta|].
  exists (foldl (λ m meta, <[native (oc_instrument meta) := meta]> m) ∅ ys). split; [unfold okxPerpMetas; cbn; by rewrite Hys|].
  apply map_result_Ok in Hys. intros i Hi. destruct (Hback i Hi) as (loaded & meta & row & Hr1 & Hr2 & Hr3 & Hr4 & Hr5 & Hr6 & Hr7). exists loaded, meta.
  split; [by exists row|done| |done|done|done]. rewrite <- Hr5.
  assert (Hys' : map oc_instrument ys = l).
  { clear -Hys Hback. induction Hys as [|x y l ys Hxy Hys IH]; [done|]. cbn. rewrite IH by (intros; apply Hback; by right). f_equal.
    destruct (Hback x) as (? & meta & ? & ? & ? & ? & E & ? & ?); [by left|]. congruence. }
  apply (insert_keyed_in (λ m, native (oc_instrument m))).
  - rewrite <- (map_map oc_instrument native), Hys'. apply NoDup_map_filter. rewrite map_map.
    apply (keyed_NoDup (λ m, native (oc_instrument m))). intros k m Hk. by destruct (Hrow k m Hk) as (? & ? & ? & ?).
  - apply list_elem_of_lookup in Hi as [j Hj]. destruct (Forall2_lookup_l _ _ _ _ _ Hys Hj) as (y & Hy & E). replace meta with y by congruence. by eapply list_elem_of_lookup_2.
Qed.
End loaded.

(** ** Paging through candles *)

Lemma sublist_sorted {A} (R : A → A → Prop) l h : sublist l h → StronglySorted R h → StronglySorted R l.
Proof.
  intros Hl Hs. revert l Hl. induction Hs as [|x h Hh IH Hx]; intros l Hl; [apply sublist_nil_r in Hl as ->; constructor|].
  apply sublist_cons_r in Hl as [Hl|(l' & -> & Hl)]; [by apply IH|]. constructor; [by apply IH|]. rewrite List.Forall_forall in *. intros y Hy%list_elem_of_In.
  apply Hx, list_elem_of_In. exact (elem_of_sublist _ _ _ Hy Hl).
Qed.

Section candle_walk.
Context `{Decimal D}.
Context (parse_error int_error : string → string) (product : string) (interval : duration).
Implicit Types (c : Candle D) (l history : list (Candle D)) (req : CandlesRequest (D:=D)).
Local Notation okxCandles := (okxCandles parse_error int_error product).

(** [OpenTime] in order, and a time a venue can stamp *)
Definition opened_before c c' : Prop := ca_OpenTime c < ca_OpenTime c'.
Definition stamped c : Prop := ∃ ms, 0 < ms ≤ int64_max ∧ ca_OpenTime c = FromMilli ms.
Definition lastn {A} (n : nat) (l : list A) : list A := drop (length l - n) l.
Definition older history (text : string) : list (Candle D) :=
  match ParseInt text with Some ms => List.filter (λ c, ca_OpenTime c <? FromMilli ms) history | None => [] end.
(** The endpoint as documented: the newest candles before [after], newest first,
    a hundred when no limit is given; [row_of] is the venue's text of a candle. *)
Definition candle_endpoint (row_of : Candle D → okx_Candle) history (symbol bar : string) (after before : option string) (limit : option Z)
  : result sdk_error (list okx_Candle) :=
  let rows := match after with Some text => older history text | None => history end in
  Ok (map row_of (take (Z.to_nat (default 100 limit)) (reverse rows))).
Definition at_cursor req (cursor : string) : CandlesRequest (D:=D) :=
  mkCandles (cq_Instrument req) (cq_Interval req) (cq_Start req) (cq_End req) (cq_Limit req) cursor.
(** Follow the returned cursors for [n] pages, or until a page is empty. *)
Fixpoint candle_pages (n : nat) req (GetCandles : string → string → option string → option string → option Z → result sdk_error (list okx_Candle))
  : result error (list (Candle D)) :=
  match n with
  | O => Ok []
  | S n' =>
      page <-? okxCandles req GetCandles ;;
      match cp_Candles page with
      | [] => Ok []
      | candles => before <-? candle_pages n' (at_cursor req (pg_Cursor (cp_Page page))) GetCandles ;; Ok (before ++ candles)
      end
  end.

Lemma sort_opened l l' : StronglySorted opened_before l → l' ≡ₚ l → sort_slice opens_before l' = l.
Proof.
  intros Hl Hp. apply (StronglySorted_unique_strong (λ c c', ca_OpenTime c ≤ ca_OpenTime c')).
  - intros c c' Hc Hc' H1 H2. rewrite sort_slice_elem_of, Hp in Hc. assert (E : ca_OpenTime c = ca_OpenTime c') by lia. clear H1 H2 Hp.
    induction Hl as [|x l Hl IH Hx]; [by apply elem_of_nil in Hc|]. rewrite List.Forall_forall in Hx.
    apply elem_of_cons in Hc as [->|Hc], Hc' as [->|Hc']; [done|..|by apply IH]; [apply list_elem_of_In, Hx in Hc'|apply list_elem_of_In, Hx in Hc]; unfold opened_before in *; lia.
  - apply (sort_by_Z_sorted (λ c, ca_OpenTime c)).
  - clear -Hl. induction Hl as [|x l Hl IH Hx]; constructor; [done|]. rewrite List.Forall_forall in *. intros y Hy%Hx. unfold opened_before in Hy. lia.
  - by rewrite sort_slice_perm.
Qed.
Lemma sort_reversed l : StronglySorted opened_before l → sort_slice opens_before (reverse l) = l.
Proof. intros Hl. by apply sort_opened, reverse_Permutation. Qed.
Lemma before_first history i c :
  StronglySorted opened_before history → history !! i = Some c → List.filter (λ x, ca_OpenTime x <? ca_OpenTime c) history = take i history.
Proof.
  intros Hs. revert i. induction Hs as [|x l Hl IH Hx]; intros i; [done|]. rewrite List.Forall_forall in Hx. unfold opened_before in Hx. destruct i as [|i]; cbn.
  - intros [= ->]. rewrite Z.ltb_irrefl.
    assert (Hn : ∀ l', (∀ y, In y l' → ca_OpenTime c < ca_OpenTime y) → List.filter (λ y, ca_OpenTime y <? ca_OpenTime c) l' = []).
    { induction l' as [|y l' IHl]; intros Hy; [done|]. cbn. rewrite (proj2 (Z.ltb_ge _ _)) by (specialize (Hy y (or_introl eq_refl)); lia). apply IHl. intros z Hz. apply Hy. by right. }
    by apply Hn.
  - intros Hc. pose proof (Hx c (proj1 (list_elem_of_In _ _) (list_elem_of_lookup_2 _ _ _ Hc))) as Hlt. rewrite (proj2 (Z.ltb_lt _ _)) by done. f_equal. by apply IH.
Qed.

Definition plain_request req : Prop :=
  cq_Start req = zero_time ∧ cq_End req = zero_time ∧ 0 < cq_Limit req ∧ is_empty (TrimSpace (cq_Interval req)) = false ∧ okxIntervalDuration (cq_Interval req) = Ok interval.
Lemma lastn_take {A} n (l : list A) : take n (reverse l) = reverse (lastn n l).
Proof.
  unfold lastn. rewrite <- (take_drop (length l - n) l) at 1. rewrite reverse_app, take_app. rewrite length_reverse, length_drop.
  destruct (decide (n ≤ length l)%nat) as [Hle|Hgt].
  - replace (n - (length l - (length l - n)))%nat with 0%nat by lia. rewrite take_0, app_nil_r. apply take_ge. rewrite length_reverse, length_drop. lia.
  - replace (length l - n)%nat with 0%nat by lia. rewrite !take_0, drop_0, reverse_nil, take_nil, app_nil_r. apply take_ge. rewrite length_reverse. lia.
Qed.
(** One page: the newest candles before the cursor, oldest first. *)
Lemma candle_page_exact row_of history req :
  StronglySorted opened_before history → (∀ c, c ∈ history → okxCandle parse_error int_error product interval (row_of c) = Ok c) → plain_request req →
  ∃ page, okxCandles req (candle_endpoint row_of history) = Ok page ∧
    cp_Candles page = lastn (Z.to_nat (cq_Limit req)) (if is_empty (cq_Cursor req) then history else older history (cq_Cursor req)) ∧
    ∀ c l, cp_Candles page = c :: l → pg_Cursor (cp_Page page) = FormatInt (UnixMilli (ca_OpenTime c)).
Proof.
  intros Hs Hrow (Hst & Hen & Hlim & Hint & Hdur). unfold OKXMarkets.okxCandles. rewrite Hint, Hst, Hen, Hdur. cbn [negb invalid_by]. rewrite (proj2 (Z.ltb_ge _ _)) by lia.
  change (IsZero zero_time) with true. rewrite orb_true_r. cbn [negb orb andb queried candle_endpoint]. unfold okxLimitPtr, okxStringPtr. rewrite (proj2 (Z.leb_gt _ _)) by lia. cbn [default].
  set (rows := if is_empty (cq_Cursor req) then history else older history (cq_Cursor req)).
  assert (Hrows : match (if is_empty (cq_Cursor req) then None else Some (cq_Cursor req)) with Some text => older history text | None => history end = rows)
    by (unfold rows; by destruct (is_empty (cq_Cursor req))). rewrite Hrows, lastn_take.
  assert (Hsub : sublist rows history).
  { unfold rows, older. destruct (is_empty (cq_Cursor req)); [done|]. destruct (ParseInt (cq_Cursor req)); [|apply sublist_nil_l]. clear. induction history as [|x l IH]; [constructor|].
    cbn. destruct (_ <? _); by constructor. }
  set (l := lastn _ rows). assert (Hl : sublist l history) by (etrans; [apply sublist_drop|exact Hsub]).
  assert (Hmap : map_result (okxCandle parse_error int_error product interval) (map row_of (reverse l)) = Ok (reverse l)).
  { apply map_result_Ok. apply Forall2_fmap_l, Forall_Forall2_diag, Forall_forall. intros c Hc. rewrite elem_of_reverse in Hc. apply Hrow. exact (elem_of_sublist _ _ _ Hc Hl). }
  rewrite Hmap. cbn [okx_malformed_by]. eexists. split; [done|]. unfold candle_page. rewrite sort_reversed.
  - split; [done|]. intros c l' E. cbn [cp_Candles] in E. cbn [cp_Page]. rewrite E. destruct (last (c :: l')) eqn:El; [done|]. by apply last_None in El.
  - exact (sublist_sorted _ _ _ Hl Hs).
Qed.

Lemma lastn_app {A} n (l : list A) m : lastn (n + m) l = lastn m (take (length l - n) l) ++ lastn n l.
Proof.
  unfold lastn. rewrite length_take. replace ((length l - n) `min` length l)%nat with (length l - n)%nat by lia.
  rewrite <- (take_drop (length l - n) l) at 2. rewrite drop_app_le by (rewrite length_take; lia). do 2 f_equal. lia.
Qed.
(** The cursor of a page stands for everything before its oldest candle. *)
Lemma older_page history i c :
  StronglySorted opened_before history → history !! i = Some c → stamped c → older history (FormatInt (UnixMilli (ca_OpenTime c))) = take i history.
Proof.
  intros Hs Hc (ms & Hms & Et). unfold older. rewrite Et, UnixMilli_FromMilli, ParseInt_FormatInt by (unfold int64_min in *; lia). rewrite <- Et. by apply before_first.
Qed.

(** [n] pages from a cursor that stands for the [m] oldest candles. *)
Lemma candle_pages_from row_of history n req m :
  StronglySorted opened_before history → (∀ c, c ∈ history → stamped c ∧ okxCandle parse_error int_error product interval (row_of c) = Ok c) →
  plain_request req → (m ≤ length history)%nat →
  (if is_empty (cq_Cursor req) then history else older history (cq_Cursor req)) = take m history →
  candle_pages n req (candle_endpoint row_of history) = Ok (lastn (n * Z.to_nat (cq_Limit req)) (take m history)).
Proof.
  intros Hs Hrow. revert req m.
  induction n as [|n IH]; intros req m Hreq Hm Hrows; cbn [candle_pages].
  { unfold lastn. rewrite Nat.mul_0_l, Nat.sub_0_r, drop_all. done. }
  destruct (candle_page_exact row_of history req Hs (λ c Hc, proj2 (Hrow c Hc)) Hreq) as (page & -> & Hp & Hc). rewrite Hrows in Hp.
  set (L := Z.to_nat (cq_Limit req)) in *. assert (HL : (0 < L)%nat) by (destruct Hreq as (_ & _ & ? & _); lia).
  replace (S n * L)%nat with (L + n * L)%nat by lia. rewrite lastn_app, length_take, take_take.
  replace (m `min` length history)%nat with m by lia. replace ((m - L) `min` m)%nat with (m - L)%nat by lia.
  destruct (cp_Candles page) as [|c l] eqn:Ec.
  - rewrite <- Hp, app_nil_r. assert (Hz : m = O).
    { apply (f_equal length) in Hp. unfold lastn in Hp. rewrite length_drop, length_take in Hp. cbn in Hp. lia. }
    subst m. unfold lastn. by rewrite take_0, drop_nil.
  - assert (Hlook : history !! (m - L)%nat = Some c).
    { apply (f_equal (lookup O)) in Hp. unfold lastn in Hp. rewrite lookup_drop, length_take, Nat.add_0_r in Hp. replace (m `min` length history)%nat with m in Hp by lia.
      cbn in Hp. symmetry in Hp. by apply lookup_take_Some in Hp as [? _]. }
    pose proof (list_elem_of_lookup_2 _ _ _ Hlook) as Hin. rewrite (IH (at_cursor req _) (m - L)%nat).
    + by rewrite <- Hp.
    + exact Hreq.
    + lia.
    + cbn [at_cursor cq_Cursor]. rewrite (Hc c l eq_refl). destruct (is_empty (FormatInt _)) eqn:Ee.
      * unfold is_empty in Ee. apply String.eqb_eq in Ee. destruct (proj1 (Hrow c Hin)) as (ms & Hms & Et). rewrite Et, UnixMilli_FromMilli in Ee.
        unfold FormatInt in Ee. rewrite (proj2 (Z.ltb_ge _ _)) in Ee by lia. by apply FormatUint_nonempty in Ee.
      * by apply older_page, Hrow.
Qed.

(** Following the returned cursors walks back through the venue's candles without
    a gap or a repeat: [n] pages are the newest [n] times [limit] candles, oldest
    first. *)
Theorem candle_pages_contiguous row_of history req n :
  StronglySorted opened_before history → (∀ c, c ∈ history → stamped c ∧ okxCandle parse_error int_error product interval (row_of c) = Ok c) →
  plain_request req → cq_Cursor req = "" →
  candle_pages n req (candle_endpoint row_of history) = Ok (lastn (n * Z.to_nat (cq_Limit req)) history).
Proof.
  intros Hs Hrow Hreq Hcur. rewrite (candle_pages_from row_of history n req (length history)); [by rewrite take_ge by lia|done..|lia|]. by rewrite Hcur, take_ge by lia.
Qed.
End candle_walk.

(** ** Three minutes of candles, a page of two at a time *)

Definition minute_candle (n : Z) : Candle fixed :=
  mkCandle (FromMilli (60000 * n)) (FromMilli (60000 * (n + 1))) (mkFixed 100 0) (mkFixed 101 0) (mkFixed 99 0) (mkFixed 100 0) (mkFixed 5 0) true.
Definition minute_row (c : Candle fixed) : okx_Candle :=
  mkOKXCandle (FormatInt (UnixMilli (ca_OpenTime c))) (d_string (ca_Open c)) (d_string (ca_High c)) (d_string (ca_Low c)) (d_string (ca_Close c))
    (d_string (ca_Volume c)) "" "" "1".
Definition minutes : list (Candle fixed) := [minute_candle 1; minute_candle 2; minute_candle 3].
Definition minute_request : CandlesRequest (D:=fixed) :=
  mkCandles (newInstrument "" "" "" "" "" "" "" "" d_zero d_zero d_zero no_decimal no_decimal) "1m" zero_time zero_time 2 "".
Lemma candle_pages_contiguous_witness :
  minutes ≠ [] ∧ candle_pages (λ _, "") (λ _, "") ProductSpot 2 minute_request (candle_endpoint minute_row minutes) = Ok minutes.
Proof.
  split; [done|]. apply (candle_pages_contiguous (λ _, "") (λ _, "") ProductSpot (60 * Second) minute_row minutes minute_request 2).
  - repeat constructor; vm_compute; reflexivity.
  - intros c Hc. split.
    + assert (Hn : ∃ n, 1 ≤ n ≤ 3 ∧ c = minute_candle n) by (repeat (apply elem_of_cons in Hc as [->|Hc]; [eexists; split; [|reflexivity]; lia|]); by apply elem_of_nil in Hc).
      destruct Hn as (n & Hn & ->). exists (60000 * n). split; [unfold int64_max; lia|done].
    + repeat (apply elem_of_cons in Hc as [->|Hc]; [vm_compute; reflexivity|]). by apply elem_of_nil in Hc.
  - repeat split; vm_compute; reflexivity.
  - done.
Defined.
