(* ===== verification/OKXRest.v ===== *)
(** * OKX: orders and accounts

    The private half of [exchange/internal/factoryclient/okx_rest.go] and
    [okx_rest_extended.go]: placing and cancelling, listings, the account,
    positions and leverage.  [OKXTradeMode] models the loading of the account's
    spot trade mode, here an argument of [spot_PlaceOrder].  Each operation is written once over the product where
    the two clients are copies of each other. *)

From Stdlib Require Import Ascii String ZArith Lia QArith Qcanon.
From stdpp Require Import base list strings gmap.
From S2P Require Import Prelude GoStrings Decimals DecimalText Errors Model HttpErrors Orders InstrumentCatalog Sockets AccountFeed Clients.
From S2P Require Import HyperliquidMarkets VenueErrors Commands FundingLoaders DerivativeLoaders OKXMarkets.

#[local] Open Scope string_scope.
#[local] Open Scope list_scope.
#[local] Open Scope Z_scope.
#[local] Open Scope go_scope.

(** ** Venue rows and requests *)

Record OrderRequest := mkOKXOrderRequest {
  rq_InstId : string; rq_TdMode : string; rq_ClOrdId : option string; rq_Side : string; rq_OrdType : string; rq_Sz : string; rq_Px : option string;
  rq_TgtCcy : option string; rq_ReduceOnly : option bool;
}.
Record okx_Order := mkOKXOrder {
  xo_InstId : string; xo_InstType : string; xo_OrdId : string; xo_ClOrdId : string; xo_Side : string; xo_OrdType : string; xo_Sz : string; xo_Px : string;
  xo_AccFillSz : string; xo_AvgPx : string; xo_ReduceOnly : string; xo_State : string; xo_CTime : string; xo_UTime : string;
}.
Record okx_Fill := mkOKXFill {
  xf_InstId : string; xf_InstType : string; xf_OrdId : string; xf_ClOrdId : string; xf_TradeId : string; xf_Side : string; xf_FillPx : string; xf_FillSz : string;
  xf_Fee : string; xf_FeeCcy : string; xf_ExecType : string; xf_Ts : string;
}.
Record BalanceDetail := mkOKXDetail { xd_Ccy : string; xd_Eq : string; xd_AvailBal : string; xd_FrozenBal : string }.
Record okx_Balance := mkOKXBalance { xa_Details : list BalanceDetail; xa_TotalEq : string; xa_AvailEq : string; xa_Imr : string; xa_Upl : string }.
Record okx_Position := mkOKXPosition {
  xp_InstId : string; xp_InstType : string; xp_MgnMode : string; xp_PosSide : string; xp_Pos : string; xp_AvgPx : string; xp_MarkPx : string; xp_Upl : string;
  xp_LiqPx : string; xp_Lever : string; xp_Margin : string;
}.
Record okx_SetLeverage := mkOKXLeverage { xl_InstId : string; xl_Lever : Z; xl_MgnMode : string; xl_PosSide : string }.

Definition okxSpotTradeModeFromAccountConfig (levels : list string) : result error string :=
  match levels with
  | [level] =>
      if one_of level ["1"; "2"] then Ok okxCashMode
      else if one_of level ["3"; "4"] then Ok okxCrossMode
      else Err (EText "unsupported OKX account level")
  | _ => Err (EText "account config response must contain exactly one row")
  end.
Definition okxNormalizedOrderPolicy (value : string) : string * string :=
  let value := ToLower value in
  if String.eqb value "market" then (OrderTypeMarket, "")
  else if String.eqb value "ioc" then (OrderTypeLimit, LimitPolicyIOC)
  else if String.eqb value "post_only" then (OrderTypeLimit, LimitPolicyPostOnly)
  else (OrderTypeLimit, LimitPolicyResting).
Definition okxPositionSlot (posSide : string) : result error string :=
  if String.eqb posSide "long" then Ok PositionSlotLong
  else if String.eqb posSide "short" then Ok PositionSlotShort
  else if one_of posSide ["net"; ""] then Ok PositionSlotNet
  else Err (EText "unknown position side").
Definition okxPositionSidesEquivalent (left right : string) : bool :=
  String.eqb left right || one_of left [""; "net"] && one_of right [""; "net"].

Section orders.
Context `{Decimal D} `{DecimalText D}.
Context (parse_error int_error : string → string).
Implicit Types instrument : Instrument D.
Local Notation reply := (OrderAcknowledgement D * option error)%type.
Local Notation nonnegative := (okxNonNegativeDecimal parse_error).
Local Notation positive := (okxPositiveDecimal parse_error).

(** ** Placing *)

(** The order type and the price of a request *)
Definition okxOrderRequestShape (req : PlaceOrderRequest D) : string * option string :=
  if String.eqb (po_Type req) OrderTypeMarket then ("market", None)
  else
    let price := d_string (po_LimitPrice req) in
    if String.eqb (po_LimitPolicy req) LimitPolicyIOC then ("ioc", Some price)
    else if String.eqb (po_LimitPolicy req) LimitPolicyPostOnly then ("post_only", Some price)
    else ("limit", Some price).
Definition spot_request (req : PlaceOrderRequest D) (tradeMode : string) : OrderRequest :=
  let '(ordType, px) := okxOrderRequestShape req in
  mkOKXOrderRequest (id_NativeSymbol (in_Identity (po_Instrument req))) tradeMode (okxStringPtr (po_ClientOrderID req)) (po_Side req) ordType
    (d_string (po_Quantity req)) px (if String.eqb (po_Type req) OrderTypeMarket then Some "base_ccy" else None) None.
Definition swap_request (req : PlaceOrderRequest D) (contracts : D) : OrderRequest :=
  let '(ordType, px) := okxOrderRequestShape req in
  mkOKXOrderRequest (id_NativeSymbol (in_Identity (po_Instrument req))) okxCrossMode (okxStringPtr (po_ClientOrderID req)) (po_Side req) ordType
    (d_string contracts) px None (Some (po_ReduceOnly req)).

Definition set_order_type (ack : OrderAcknowledgement D) (type : string) : OrderAcknowledgement D :=
  mkAck (ack_Venue ack) (ack_Product ack) (ack_Operation ack) (ack_State ack) (ack_NativeSymbol ack) (ack_NativeID ack) type (ack_OrderID ack)
    (ack_ClientOrderID ack) (ack_TransactionHash ack) (ack_FilledQuantity ack) (ack_AverageFillPrice ack) (ack_VenueCode ack) (ack_VenueMessage ack).
(** After the SDK's call *)
Definition placed (product : string) (req : PlaceOrderRequest D) (answer : result sdk_error (list okx_OrderId)) : reply :=
  match answer with
  | Err s => okxCommandTransportAck product OrderOperationPlace (po_Instrument req) "" (po_ClientOrderID req) s
  | Ok rows =>
      let '(ack, err) := okxCommandAck product "PlaceOrder" OrderOperationPlace (po_Instrument req) "" (po_ClientOrderID req) rows in
      let ack := set_order_type ack (po_Type req) in
      match err with
      | Some e => (ack, Some e)
      | None => (ack, match Ack_Validate ack with Ok _ => None | Err e => Some e end)
      end
  end.
Definition unsent (e : error) : option OrderRequest * reply := (None, (no_ack, Some e)).
(** [PlaceOrder]: what is sent, if anything, and what is returned *)
Definition spot_PlaceOrder (ctx : context) (initialized : bool) (req : PlaceOrderRequest D) (tradeMode : result error string)
    (send : OrderRequest → result sdk_error (list okx_OrderId)) : option OrderRequest * reply :=
  match okxReady ctx ProductSpot "PlaceOrder" initialized with
  | Err e => unsent e
  | Ok _ =>
  match invalid_by ProductSpot "PlaceOrder" (PlaceOrder_Validate req ProductSpot) with
  | Err e => unsent e
  | Ok _ =>
  match tradeMode with
  | Err e => unsent e
  | Ok mode => let order := spot_request req mode in (Some order, placed ProductSpot req (send order))
  end end end.
Definition perp_PlaceOrder (ctx : context) (initialized : bool) (req : PlaceOrderRequest D) (r : reading)
    (send : OrderRequest → result sdk_error (list okx_OrderId)) : option OrderRequest * reply :=
  match okxReady ctx ProductPerp "PlaceOrder" initialized with
  | Err e => unsent e
  | Ok _ =>
  match invalid_by ProductPerp "PlaceOrder" (PlaceOrder_Validate req ProductPerp) with
  | Err e => unsent e
  | Ok _ =>
  match okxPerpMeta initialized "PlaceOrder" (po_Instrument req) r with
  | Err e => unsent e
  | Ok meta =>
      let contracts := d_div (po_Quantity req) (oc_contractValue meta) in
      if negb (d_is_zero (d_mod contracts (oc_contractIncrement meta)))
      then unsent (okxInvalid ProductPerp "PlaceOrder" "quantity must align to OKX contract lot size")
      else let order := swap_request req contracts in (Some order, placed ProductPerp req (send order))
  end end end.

Definition okxValidateCancel (product : string) (req : CancelOrderRequest (D:=D)) : result error unit :=
  _ <-? okxValidateInstrument product (co_Instrument req) ;;
  match ParseInt (co_OrderID req) with
  | Some orderID => check (0 <? orderID) && String.eqb (FormatInt orderID) (co_OrderID req) else EText "order id must be a positive decimal int64" ;; Ok tt
  | None => Err (EText "order id must be a positive decimal int64")
  end.
(** [CancelOrder]: the symbol and the order id sent, if any *)
Definition CancelOrder (product : string) (ctx : context) (initialized : bool) (req : CancelOrderRequest (D:=D))
    (send : string → string → result sdk_error (list okx_OrderId)) : option (string * string) * reply :=
  match okxReady ctx product "CancelOrder" initialized with
  | Err e => (None, (no_ack, Some e))
  | Ok _ =>
  match invalid_by product "CancelOrder" (okxValidateCancel product req) with
  | Err e => (None, (no_ack, Some e))
  | Ok _ =>
  match native_instrument product "CancelOrder" (co_Instrument req) with
  | Err e => (None, (no_ack, Some e))
  | Ok native =>
      (Some (native, co_OrderID req),
       match send native (co_OrderID req) with
       | Err s => okxCommandTransportAck product OrderOperationCancel (co_Instrument req) (co_OrderID req) "" s
       | Ok rows => okxCommandAck product "CancelOrder" OrderOperationCancel (co_Instrument req) (co_OrderID req) "" rows
       end)
  end end end.

(** ** Rows *)

Definition average_price (text : string) : result error (OptionalDecimal D) :=
  if is_empty (TrimSpace text) then Ok no_decimal
  else value <-? nonnegative text ;; Ok (if d_is_zero value then no_decimal else mkOptDec value true).
Definition okxOrder (multiplier : D) (row : okx_Order) : result error (Order D) :=
  qty <-? nonnegative (xo_Sz row) ;;
  filled <-? nonnegative (xo_AccFillSz row) ;;
  price <-? nonnegative (xo_Px row) ;;
  avg <-? average_price (xo_AvgPx row) ;;
  side <-? okxExchangeSide (xo_Side row) ;;
  created <-? optional_millis int_error (xo_CTime row) ;;
  updated <-? optional_millis int_error (xo_UTime row) ;;
  let '(orderType, limitPolicy) := okxNormalizedOrderPolicy (xo_OrdType row) in
  Ok (mkOrder (xo_InstId row) "" (xo_OrdId row) (xo_ClOrdId row) side orderType (d_mul qty multiplier) price limitPolicy
        (EqualFold (xo_ReduceOnly row) "true") (d_mul filled multiplier) avg (xo_State row) created updated).
Definition okxFill (multiplier : D) (row : okx_Fill) : result error (Fill D) :=
  price <-? positive (xf_FillPx row) ;;
  qty <-? positive (xf_FillSz row) ;;
  match d_new_from_string (xf_Fee row) with
  | None => Err (EText (parse_error (xf_Fee row)))
  | Some fee =>
      check d_is_zero fee || negb (is_empty (xf_FeeCcy row)) else EText "execution fee currency is missing" ;;
      let liquidity := if String.eqb (xf_ExecType row) "M" then "maker" else "taker" in
      side <-? okxExchangeSide (xf_Side row) ;;
      ts <-? millis int_error (xf_Ts row) ;;
      Ok (mkFill (xf_InstId row) "" (xf_OrdId row) (xf_ClOrdId row) (xf_TradeId row) side price (d_mul qty multiplier) (d_sub d_zero fee) (xf_FeeCcy row) liquidity ts)
  end.
Definition okxPositionSideAndQuantity (posSide : string) (qty : D) : result error (string * D) :=
  if String.eqb posSide "long" then
    check negb (d_is_negative qty) else EText "long position has negative quantity" ;; Ok (SideBuy, qty)
  else if String.eqb posSide "short" then
    if d_is_negative qty then Ok (SideSell, qty) else Ok (SideSell, d_sub d_zero qty)
  else if one_of posSide ["net"; ""] then
    if d_is_negative qty then Ok (SideSell, qty) else Ok (SideBuy, qty)
  else Err (EText "unknown position side").
Definition okxPosition (multiplier : D) (row : okx_Position) : result error (Position D) :=
  qty <-? okxDecimal parse_error (xp_Pos row) ;;
  sided <-? okxPositionSideAndQuantity (xp_PosSide row) qty ;;
  slot <-? okxPositionSlot (xp_PosSide row) ;;
  entry <-? nonnegative (xp_AvgPx row) ;;
  mark <-? nonnegative (xp_MarkPx row) ;;
  pnl <-? okxDecimal parse_error (xp_Upl row) ;;
  liq <-? okxOptional parse_error (xp_LiqPx row) ;;
  lev <-? okxOptional parse_error (xp_Lever row) ;;
  margin <-? okxOptional parse_error (xp_Margin row) ;;
  Ok (mkPosition (xp_InstId row) "" slot sided.1 (d_mul sided.2 multiplier) entry mark pnl liq lev margin).

(** ** Listings *)

Definition okxValidateOpenOrdersPage (product cursor : string) (limit : Z) : result error unit :=
  check is_empty cursor else okxInvalid product "OpenOrders" "OKX open orders does not support cursor" ;;
  check negb (limit <? 0) else okxInvalid product "OpenOrders" "limit must be non-negative" ;;
  Ok tt.
Definition okxValidateFillsPage (product : string) (req : FillsRequest (D:=D)) : result error unit :=
  check is_empty (fq_Cursor req) else okxInvalid product "Fills" "OKX fills does not support cursor" ;;
  check IsZero (fq_Start req) && IsZero (fq_End req) else okxInvalid product "Fills" "OKX fills does not support exchange time windows" ;;
  check negb (fq_Limit req <? 0) else okxInvalid product "Fills" "limit must be non-negative" ;;
  Ok tt.
Definition inst_type (product : string) : string := if String.eqb product ProductPerp then okxSwapType else okxSpotType.
(** The factor of a listing's rows: one for spot; for perpetuals the contract
    value of the requested instrument, or that of each row's instrument, with
    one reading of the catalog per row ([readings] numbers them; the first is
    for the request). *)
Definition requested_factor (product : string) (initialized : bool) (operation : string) (requested : option (Instrument D)) (readings : nat → reading)
  : result error (option D) :=
  if String.eqb product ProductSpot then Ok (Some (d_new 1 0))
  else match requested with
  | Some instrument => meta <-? okxPerpMeta initialized operation instrument (readings O) ;; Ok (Some (oc_contractValue meta))
  | None => Ok None
  end.
Definition row_factor (initialized : bool) (operation : string) (factor : option D) (native : string) (r : reading) : result error D :=
  match factor with
  | Some f => Ok f
  | None => meta <-? okxPerpMetaByNative initialized operation native r ;; Ok (oc_contractValue meta)
  end.
(** The loop over the rows of a listing *)
Definition convert_rows {R A} (product : string) (initialized : bool) (operation : string) (requested : option (Instrument D)) (factor : option D)
    (readings : nat → reading) (type native : R → string) (convert : D → R → result error A) (rows : list R) : result error (list A) :=
  map_result (λ '(i, row),
    check String.eqb (type row) (inst_type product) && okxOptionalInstrumentMatches requested (native row)
      else okxMalformed product operation "mixed product or instrument row" ;;
    f <-? row_factor initialized operation factor (native row) (readings (S i)) ;;
    okx_malformed_by product operation (convert f row)) (zip (seq 0 (length rows)) rows).

Definition OpenOrders (product : string) (ctx : context) (initialized : bool) (requested : option (Instrument D)) (cursor : string) (limit : Z)
    (readings : nat → reading) (GetOrders : string → option string → result sdk_error (list okx_Order)) : result error (OrderPage D) :=
  _ <-? okxReady ctx product "OpenOrders" initialized ;;
  _ <-? okxValidateOpenOrdersPage product cursor limit ;;
  inst <-? invalid_by product "OpenOrders" (optional_instrument product requested) ;;
  factor <-? requested_factor product initialized "OpenOrders" requested readings ;;
  rows <-? queried product "OpenOrders" (GetOrders (inst_type product) inst) ;;
  orders <-? convert_rows product initialized "OpenOrders" requested factor readings xo_InstType xo_InstId okxOrder rows ;;
  Ok (boundedOrderPage orders limit "").
Definition Fills (product : string) (ctx : context) (initialized : bool) (req : FillsRequest (D:=D)) (readings : nat → reading)
    (GetFills : string → option string → option string → Z → result sdk_error (list okx_Fill)) : result error (FillPage (D:=D)) :=
  _ <-? okxReady ctx product "Fills" initialized ;;
  _ <-? okxValidateFillsPage product req ;;
  inst <-? invalid_by product "Fills" (optional_instrument product (fq_Instrument req)) ;;
  factor <-? requested_factor product initialized "Fills" (fq_Instrument req) readings ;;
  rows <-? queried product "Fills" (GetFills (inst_type product) inst (okxStringPtr (fq_OrderID req)) (fq_Limit req)) ;;
  fills <-? convert_rows product initialized "Fills" (fq_Instrument req) factor readings xf_InstType xf_InstId okxFill rows ;;
  Ok (fills, limit_page (fq_Limit req)).
Definition Positions (ctx : context) (initialized : bool) (requested : option (Instrument D)) (readings : nat → reading)
    (GetPositions : string → option string → result sdk_error (list okx_Position)) : result error (list (Position D)) :=
  _ <-? okxReady ctx ProductPerp "Positions" initialized ;;
  inst <-? invalid_by ProductPerp "Positions" (optional_instrument ProductPerp requested) ;;
  factor <-? requested_factor ProductPerp initialized "Positions" requested readings ;;
  rows <-? queried ProductPerp "Positions" (GetPositions okxSwapType inst) ;;
  positions <-? convert_rows ProductPerp initialized "Positions" requested factor readings xp_InstType xp_InstId okxPosition rows ;;
  Ok (List.filter (λ pos, negb (d_is_zero (ps_Quantity pos))) positions).
(** [OrderHistory] reads the factor of every row from the catalog, whatever
    instrument was requested. *)
Definition okxOrderHistory (product : string) (start stop : time) (cursor : string) (limit : Z) (instrument : option string)
    (multiplier : nat → string → result error D) (GetOrderHistory : string → option string → string → Z → result sdk_error (list okx_Order))
  : result error (OrderPage D) :=
  check negb (limit <? 0) else okxInvalid product "OrderHistory" "limit must be non-negative" ;;
  check IsZero start && IsZero stop else okxInvalid product "OrderHistory" "OKX order history does not support exchange time windows" ;;
  rows <-? queried product "OrderHistory" (GetOrderHistory (inst_type product) instrument cursor limit) ;;
  orders <-? map_result (λ '(i, row),
    check String.eqb (xo_InstType row) (inst_type product) && match instrument with Some native => String.eqb (xo_InstId row) native | None => true end
      else okxMalformed product "OrderHistory" "mixed product or instrument row" ;;
    factor <-? multiplier i (xo_InstId row) ;;
    okx_malformed_by product "OrderHistory" (okxOrder factor row)) (zip (seq 0 (length rows)) rows) ;;
  Ok (mkOrderPage orders (mkPage cursor limit zero_time zero_time false false)).
Definition OrderHistory (product : string) (ctx : context) (initialized : bool) (requested : option (Instrument D)) (start stop : time) (cursor : string) (limit : Z)
    (readings : nat → reading) (GetOrderHistory : string → option string → string → Z → result sdk_error (list okx_Order)) : result error (OrderPage D) :=
  _ <-? okxReady ctx product "OrderHistory" initialized ;;
  inst <-? invalid_by product "OrderHistory" (optional_instrument product requested) ;;
  okxOrderHistory product start stop cursor limit inst
    (λ i native, if String.eqb product ProductSpot then Ok (d_new 1 0)
                 else meta <-? okxPerpMetaByNative initialized "OrderHistory" native (readings i) ;; Ok (oc_contractValue meta)) GetOrderHistory.

(** ** The account *)

Definition okx_balance (product operation : string) (detail : BalanceDetail) : result error (Balance D) :=
  total <-? okx_malformed_by product operation (nonnegative (xd_Eq detail)) ;;
  available <-? okx_malformed_by product operation (nonnegative (xd_AvailBal detail)) ;;
  locked <-? okx_malformed_by product operation (nonnegative (xd_FrozenBal detail)) ;;
  Ok (mkBalance (xd_Ccy detail) available locked total).
Definition okxBalances (product operation : string) (rows : list okx_Balance) : result error (list (Balance D)) :=
  map_result (okx_balance product operation) (flat_map xa_Details rows).
Definition spot_Balances (ctx : context) (initialized : bool) (GetAccountBalance : result sdk_error (list okx_Balance)) : result error (list (Balance D)) :=
  _ <-? okxReady ctx ProductSpot "Balances" initialized ;;
  rows <-? queried ProductSpot "Balances" GetAccountBalance ;;
  okxBalances ProductSpot "Balances" rows.
Definition SpotAccount (ctx : context) (initialized : bool) (GetAccountBalance : result sdk_error (list okx_Balance)) : result error (list (Balance D)) :=
  match spot_Balances ctx initialized GetAccountBalance with Ok balances => Ok balances | Err e => Err (withExchangeOperation e "SpotAccount") end.
Definition perp_account (ctx : context) (initialized : bool) (GetAccountBalance : result sdk_error (list okx_Balance)) : result error (PerpAccount (D:=D)) :=
  _ <-? okxReady ctx ProductPerp "PerpAccount" initialized ;;
  rows <-? queried ProductPerp "PerpAccount" GetAccountBalance ;;
  balances <-? okxBalances ProductPerp "PerpAccount" rows ;;
  let optional := λ text, okx_malformed_by ProductPerp "PerpAccount" (okxOptional parse_error text) in
  match rows with
  | [] => Ok (mkPerpAccount balances no_decimal no_decimal no_decimal no_decimal)
  | row :: _ =>
      equity <-? optional (xa_TotalEq row) ;;
      available <-? optional (xa_AvailEq row) ;;
      margin <-? optional (xa_Imr row) ;;
      pnl <-? optional (xa_Upl row) ;;
      Ok (mkPerpAccount balances equity available margin pnl)
  end.
Definition perp_Balances (ctx : context) (initialized : bool) (GetAccountBalance : result sdk_error (list okx_Balance)) : result error (list (Balance D)) :=
  match perp_account ctx initialized GetAccountBalance with Ok account => Ok (pa_Balances account) | Err e => Err (withExchangeOperation e "Balances") end.

(** ** Leverage *)

Definition okxCurrentLeverageScope instrument (GetPositions : string → option string → result sdk_error (list okx_Position)) : result error (string * string) :=
  let native := id_NativeSymbol (in_Identity instrument) in
  rows <-? queried ProductPerp "SetLeverage" (GetPositions okxSwapType (Some native)) ;;
  match rows with
  | [] => Ok (okxCrossMode, "")
  | [row] =>
      check String.eqb (xp_InstType row) okxSwapType && String.eqb (xp_InstId row) native
        else okxMalformed ProductPerp "SetLeverage" "position response does not match request" ;;
      check one_of (xp_MgnMode row) ["cross"; "isolated"] else okxMalformed ProductPerp "SetLeverage" "unknown current margin mode" ;;
      check one_of (xp_PosSide row) [""; "net"; "long"; "short"] else okxMalformed ProductPerp "SetLeverage" "unknown current position side" ;;
      Ok (xp_MgnMode row, xp_PosSide row)
  | _ => Err (okxInvalid ProductPerp "SetLeverage" "multiple position scopes are not portable")
  end.
(** [SetLeverage]: what is sent, if anything, and the symbol and effective
    leverage returned.  [quote] is Go's [%q]. *)
Definition SetLeverage (quote : string → string) (ctx : context) (initialized : bool) instrument (leverage : Z)
    (GetPositions : string → option string → result sdk_error (list okx_Position)) (send : okx_SetLeverage → result sdk_error (list okx_SetLeverage))
  : option okx_SetLeverage * result error (string * Z) :=
  let native := id_NativeSymbol (in_Identity instrument) in
  let guards :=
    _ <-? okxReady ctx ProductPerp "SetLeverage" initialized ;;
    _ <-? invalid_by ProductPerp "SetLeverage" (okxValidateSwapInstrument instrument) ;;
    check (0 <? leverage) && (leverage <=? 125) else okxInvalid ProductPerp "SetLeverage" "leverage must be between 1 and 125" ;;
    okxCurrentLeverageScope instrument GetPositions in
  match guards with
  | Err e => (None, Err e)
  | Ok (marginMode, positionSide) =>
      let order := mkOKXLeverage native leverage marginMode positionSide in
      (Some order,
       rows <-? queried ProductPerp "SetLeverage" (send order) ;;
       match rows with
       | [row] =>
           check String.eqb (xl_InstId row) native && (0 <? xl_Lever row) else okxMalformed ProductPerp "SetLeverage" "response does not match request" ;;
           check String.eqb (xl_MgnMode row) marginMode && okxPositionSidesEquivalent positionSide (xl_PosSide row)
             else okxMalformed ProductPerp "SetLeverage" ("response margin scope does not match request: requested mgnMode=" +:+ quote marginMode +:+ " posSide=" +:+
                    quote positionSide +:+ ", received mgnMode=" +:+ quote (xl_MgnMode row) +:+ " posSide=" +:+ quote (xl_PosSide row)) ;;
           Ok (native, xl_Lever row)
       | _ => Err (okxMalformed ProductPerp "SetLeverage" "response does not match request")
       end)
  end.

(** The spot client's operations *)
Definition spot_CancelOrder := CancelOrder ProductSpot.
Definition spot_OpenOrders := OpenOrders ProductSpot.
Definition spot_Fills := Fills ProductSpot.
Definition spot_OrderHistory := OrderHistory ProductSpot.
End orders.

(** ** What is placed is what was asked for *)

Section faithful.
Context `{DecimalTextLaws D} `{!DecimalQuotientLaws D}.
Context (parse_error int_error : string → string).
Implicit Types (req : PlaceOrderRequest D).

(** The venue's row of an order at rest, as it would list it *)
Definition resting_row (order : OrderRequest) (ordId state : string) : okx_Order :=
  mkOKXOrder (rq_InstId order) okxSwapType ordId (default "" (rq_ClOrdId order)) (rq_Side order) (rq_OrdType order) (rq_Sz order) (default "" (rq_Px order))
    "0" "" (if default false (rq_ReduceOnly order) then "true" else "false") state "" "".
Lemma okxDecimal_print (d : D) : ∃ d', okxDecimal parse_error (d_string d) = Ok d' ∧ d_value d' = d_value d.
Proof.
  unfold okxDecimal. rewrite d_string_solid. destruct (d_parse_print d) as (d' & -> & Hv). by exists d'.
Qed.
Lemma okxDecimal_blank text : is_empty (TrimSpace text) = true → ∃ d : D, okxDecimal parse_error text = Ok d ∧ d_value d = 0%Qc.
Proof. intros E. unfold okxDecimal. rewrite E. destruct d_parse_zero as (d & -> & Hv). by exists d. Qed.
Lemma nonnegative_Ok_of (text : string) (d : D) :
  okxDecimal parse_error text = Ok d → (0 <= d_value d)%Qc → okxNonNegativeDecimal parse_error text = Ok d.
Proof.
  intros E Hd. unfold okxNonNegativeDecimal. rewrite E. destruct (d_is_negative d) eqn:En; [|done].
  apply d_is_negative_spec in En. by apply Qcle_not_lt in Hd.
Qed.
(** The shape of a valid request says its type, policy and price. *)
Lemma okxOrderRequestShape_policy req product :
  order_spec req product → okxNormalizedOrderPolicy (okxOrderRequestShape req).1 = (po_Type req, po_LimitPolicy req).
Proof.
  intros Hs. unfold okxOrderRequestShape. destruct (os_type Hs) as [(-> & _ & ->)|(-> & _ & _ & Hp)]; [done|]. cbv zeta.
  change (String.eqb OrderTypeLimit OrderTypeMarket) with false. cbv iota.
  destruct Hp as [<-|[<-|[<-|[]]]]; done.
Qed.
Lemma okxOrderRequestShape_price req product :
  order_spec req product → ∃ d : D, okxNonNegativeDecimal parse_error (default "" (okxOrderRequestShape req).2) = Ok d ∧ d_value d = d_value (po_LimitPrice req).
Proof.
  intros Hs. unfold okxOrderRequestShape. destruct (os_type Hs) as [(-> & Hz & _)|(-> & Hpos & _ & _)].
  - cbn. destruct (okxDecimal_blank "" eq_refl) as (d & Hd & Hv). exists d. split; [|congruence]. apply nonnegative_Ok_of; [done|]. rewrite Hv. apply Qcle_refl.
  - change (String.eqb OrderTypeLimit OrderTypeMarket) with false. cbv iota zeta.
    destruct (okxDecimal_print (po_LimitPrice req)) as (d & Hd & Hv). exists d. split; [|done].
    assert (Hn : okxNonNegativeDecimal parse_error (d_string (po_LimitPrice req)) = Ok d) by (apply nonnegative_Ok_of; [done|]; rewrite Hv; by apply Qclt_le_weak).
    by repeat case_match.
Qed.
(** A sent swap order, listed back, is the order that was asked for. *)
Lemma swap_request_listed req contracts factor ordId state :
  order_spec req ProductPerp → (d_value contracts * d_value factor = d_value (po_Quantity req))%Qc → (0 <= d_value contracts)%Qc →
  ∃ o, okxOrder parse_error int_error factor (resting_row (swap_request req contracts) ordId state) = Ok o ∧ same_order req o.
Proof.
  intros Hs Hq Hpos. destruct (okxOrderRequestShape_price req _ Hs) as (price & Hprice & Hpv). pose proof (okxOrderRequestShape_policy req _ Hs) as Hpol.
  destruct (okxDecimal_print contracts) as (size & Hsize & Hsv). assert (Hn : okxNonNegativeDecimal parse_error (d_string contracts) = Ok size) by (apply nonnegative_Ok_of; [done|congruence]).
  destruct (okxDecimal_print (d_zero : D)) as (zero & Hz & Hzv). rewrite d_string_zero in Hz. rewrite d_value_zero in Hzv.
  assert (Hz' : okxNonNegativeDecimal parse_error "0" = Ok zero) by (apply nonnegative_Ok_of; [done|]; rewrite Hzv; apply Qcle_refl).
  assert (Hside : okxExchangeSide (po_Side req) = Ok (po_Side req)) by (destruct (os_side Hs) as [<-|[<-|[]]]; done).
  unfold okxOrder, resting_row, swap_request. destruct (okxOrderRequestShape req) as [ordType px]. cbn [xo_Sz xo_AccFillSz xo_Px xo_AvgPx xo_Side xo_CTime xo_UTime xo_OrdType
    xo_InstId xo_OrdId xo_ClOrdId xo_ReduceOnly xo_State rq_InstId rq_ClOrdId rq_Side rq_OrdType rq_Sz rq_Px rq_ReduceOnly fst snd] in *.
  rewrite Hn, Hz', Hprice, Hside. cbn [average_price]. unfold average_price. cbn [is_empty]. rewrite TrimSpace_empty. cbn. rewrite Hpol. eexists. split; [done|].
  pose proof (portable_id_solid _ (os_client_id Hs)) as Hid. unfold okxStringPtr. rewrite Hid. split; cbn; try done.
  - by destruct (po_ReduceOnly req).
  - by rewrite d_value_mul, Hsv.
  - rewrite d_value_mul, Hzv. ring.
Qed.

(** A whole number of lots is a whole number of contract steps. *)
Lemma lots_exact (quantity lot lot' ctVal : D) :
  multiple_of quantity (d_mul lot ctVal) → few_places lot → (0 < d_value lot)%Qc → (0 < d_value ctVal)%Qc → d_value lot' = d_value lot →
  (d_value (d_div quantity ctVal) * d_value ctVal = d_value quantity)%Qc ∧ multiple_of (d_div quantity ctVal) lot ∧
  d_is_zero (d_mod (d_div quantity ctVal) lot') = true.
Proof.
  intros [n Hn] (k & p & Hp & Hk) Hl Hc Hl'. rewrite d_value_mul in Hn.
  assert (Hnz : d_value ctVal ≠ 0%Qc) by (by apply not_eq_sym, Qclt_not_eq).
  assert (Hlz : d_value lot' ≠ 0%Qc) by (rewrite Hl'; by apply not_eq_sym, Qclt_not_eq).
  assert (Hs : (Q2Qc (inject_Z n) * d_value lot = scaled (n * k) p)%Qc) by (rewrite Hk, <- scaled_0; exact (eq_sym (scaled_mul n 0 k p))).
  assert (Hd : d_value (d_div quantity ctVal) = scaled (n * k) p).
  { apply d_div_exact; [done|done|]. rewrite Hn, <- Hs. ring. }
  split_and!.
  - rewrite Hd, <- Hs, Hn. ring.
  - exists n. by rewrite Hd, Hs.
  - apply d_is_zero_spec, d_mod_zero; [done|]. exists n. by rewrite Hd, Hl', Hs.
Qed.

(** C22: every valid order for a contract of the loaded catalog is sent, in contracts
    worth exactly the quantity asked for and a whole number of lots; and the
    venue's listing of that order reads back as the order that was asked for:
    instrument, side, type, policy, quantity, price, reduce-only flag and client
    id. *)
Theorem okx_swap_order_exact get rows scope now snap req send :
  get okxSwapType = Ok rows → LoadInstruments parse_error ProductPerp get scope now = Ok snap →
  (∀ i, i ∈ sn_Instruments snap → is_ok (Instrument_Validate i) = true) →
  (∀ row meta, row ∈ rows → swap_meta parse_error row = Ok meta → few_places (oc_contractIncrement meta)) →
  po_Instrument req ∈ sn_Instruments snap → PlaceOrder_Validate req ProductPerp = Ok tt →
  ∃ order loaded contracts,
    perp_PlaceOrder (Some None) true req (Some None, Ok (sn_Instruments snap)) send = (Some order, placed ProductPerp req (send order)) ∧
    (∃ row, row ∈ rows ∧ swap_meta parse_error row = Ok loaded) ∧ oc_instrument loaded = po_Instrument req ∧
    d_new_from_string (rq_Sz order) = Some contracts ∧ (d_value contracts * d_value (oc_contractValue loaded) = d_value (po_Quantity req))%Qc ∧
    multiple_of contracts (oc_contractIncrement loaded) ∧
    ∀ ordId state, ∃ o, okxOrder parse_error int_error (oc_contractValue loaded) (resting_row order ordId state) = Ok o ∧ same_order req o.
Proof.
  intros Hget Hload Hvalid Hlots Hin Hval. destruct (loaded_metas parse_error get rows scope now snap "PlaceOrder" Hget Hload Hvalid Hlots) as (metas & Hm & Ht).
  destruct (Ht _ Hin) as (loaded & meta & [(row & Hrow & Hs) Hi Hlook Hsame Hcv Hlot]). pose proof Hval as Hspec%PlaceOrder_Validate_spec.
  pose proof (Hlots row loaded Hrow Hs) as Hfew. destruct (swap_meta_Ok _ _ _ Hs) as (base & nativeID & ctVal & lot & min & price & Hb & Hc & Hl & Heq).
  apply okxPositiveDecimal_pos in Hc, Hl. rewrite Heq in Hcv, Hlot, Hfew, Hi. cbn [oc_contractValue oc_contractIncrement oc_instrument] in *.
  pose proof (os_step Hspec) as Hstep. rewrite <- Hi in Hstep. cbn [newInstrument in_Rules ru_QuantityIncrement] in Hstep.
  destruct (lots_exact _ _ _ _ Hstep Hfew Hl Hc Hlot) as (Hq & Hmul & Hmod).
  destruct (d_parse_print (d_div (po_Quantity req) ctVal)) as (contracts & Hparse & Hpv).
  exists (swap_request req (d_div (po_Quantity req) ctVal)), loaded, contracts. split_and!.
  - unfold perp_PlaceOrder. cbn [okxReady]. rewrite Hval. cbn [invalid_by].
    assert (Hmeta : okxPerpMeta true "PlaceOrder" (po_Instrument req) (Some None, Ok (sn_Instruments snap)) = Ok meta).
    { unfold okxPerpMeta. assert (Hok : okxValidateSwapInstrument (po_Instrument req) = Ok tt).
      { destruct (swap_meta_back _ row loaded Hs) as (meta' & Hback & _); [rewrite Heq; cbn [oc_instrument]; rewrite Hi; by apply Hvalid|rewrite Heq; exact Hfew|].
        unfold okxContractMetaFromInstrument in Hback. apply bind_Ok in Hback as ([] & Hok & _). by rewrite Heq in Hok; cbn [oc_instrument] in Hok; rewrite Hi in Hok. }
      rewrite Hok. cbn [invalid_by]. unfold okxPerpMetaByNative. rewrite Hm. unfold native in Hlook. by rewrite Hlook. }
    rewrite Hmeta, Hcv, Hmod. done.
  - by exists row.
  - by rewrite Heq.
  - unfold swap_request. by destruct (okxOrderRequestShape req).
  - rewrite Heq. cbn [oc_contractValue]. by rewrite Hpv.
  - rewrite Heq. cbn [oc_contractIncrement]. destruct Hmul as [n Hn]. exists n. by rewrite Hpv.
  - intros ordId state. rewrite Heq. cbn [oc_contractValue]. apply swap_request_listed; [done|done|].
    apply Qcnot_lt_le. intros Hneg. pose proof (os_positive Hspec) as Hpos. rewrite <- Hq in Hpos.
    apply (Qclt_not_le _ _ Hpos). replace 0%Qc with (0 * d_value ctVal)%Qc by ring. apply Qcmult_le_compat_r; by apply Qclt_le_weak.
Qed.
End faithful.

(** ** A contract of one hundredth of a coin *)

Definition btc_row : okx_Instrument :=
  mkOKXInstrument "BTC-USDT-SWAP" okxSwapType "live" "" "" "USDT" "0.01" "BTC" "0.1" "0.1" "0.1" (Some 10458).
Definition no_text (text : string) : string := "".
Definition okx_scope : CatalogScope := mkScope VenueOKX "mainnet" ProductPerp "USDT" "" "".
Definition btc_snapshot : InstrumentSnapshot fixed :=
  match LoadInstruments no_text ProductPerp (λ _, Ok [btc_row]) okx_scope 7 with Ok snapshot => snapshot | Err _ => zero_snapshot end.
Definition btc_instrument : Instrument fixed :=
  match sn_Instruments btc_snapshot with i :: _ => i | [] => newInstrument "" "" "" "" "" "" "" "" d_zero d_zero d_zero no_decimal no_decimal end.
(** 0.003 coins are 0.3 contracts. *)
Definition btc_order : PlaceOrderRequest fixed := mkPlaceOrder btc_instrument "17" SideBuy OrderTypeLimit (mkFixed 3 3) (mkFixed 650005 1) LimitPolicyPostOnly true.
Definition btc_answer (order : OrderRequest) : result sdk_error (list okx_OrderId) := Ok [mkOrderId "901" "17" "0"].
Definition btc_sent : OrderRequest :=
  mkOKXOrderRequest "BTC-USDT-SWAP" "cross" (Some "17") "buy" "post_only" "0.3" (Some "65000.5") None (Some true).
Example btc_placed :
  perp_PlaceOrder (Some None) true btc_order (Some None, Ok (sn_Instruments btc_snapshot)) btc_answer =
  (Some btc_sent, (set_order_type (set_ack_state (okxBaseAck ProductPerp OrderOperationPlace btc_instrument "901" "17") AckAcceptedPending) OrderTypeLimit, None)).
Proof. vm_compute. reflexivity. Qed.
Lemma okx_swap_order_exact_witness :
  PlaceOrder_Validate btc_order ProductPerp = Ok tt ∧
  ∃ order loaded contracts,
    perp_PlaceOrder (Some None) true btc_order (Some None, Ok (sn_Instruments btc_snapshot)) btc_answer = (Some order, placed ProductPerp btc_order (btc_answer order)) ∧
    (∃ row, row ∈ [btc_row] ∧ swap_meta no_text row = Ok loaded) ∧ oc_instrument loaded = btc_instrument ∧
    d_new_from_string (rq_Sz order) = Some contracts ∧ (d_value contracts * d_value (oc_contractValue loaded) = d_value (po_Quantity btc_order))%Qc ∧
    multiple_of contracts (oc_contractIncrement loaded) ∧
    ∀ ordId state, ∃ o, okxOrder no_text no_text (oc_contractValue loaded) (resting_row order ordId state) = Ok o ∧ same_order btc_order o.
Proof.
  assert (Hv : PlaceOrder_Validate btc_order ProductPerp = Ok tt) by (vm_compute; reflexivity). split; [exact Hv|].
  apply (okx_swap_order_exact (D:=fixed) no_text no_text (λ _, Ok [btc_row]) [btc_row] okx_scope 7 btc_snapshot btc_order btc_answer); [reflexivity|vm_compute; reflexivity| | | |exact Hv].
  - intros i Hi. assert (Hs : sn_Instruments btc_snapshot = [btc_instrument]) by (vm_compute; reflexivity). rewrite Hs in Hi. apply list_elem_of_singleton in Hi as ->.
    vm_compute. reflexivity.
  - intros row meta ->%list_elem_of_singleton. intros Hm. exists 1, 1%nat. split; [lia|]. vm_compute in Hm. injection Hm as <-. vm_compute. reflexivity.
  - assert (Hs : sn_Instruments btc_snapshot = [btc_instrument]) by (vm_compute; reflexivity). rewrite Hs. by left.
Defined.
