(* ===== verification/OKXTradeMode.v ===== *)
(** * OKX: the account's spot trade mode

    [okxSpotClient.okxSpotTradeMode] of
    [exchange/internal/factoryclient/okx_rest.go]: every spot placement needs the
    account's trade mode, and concurrent placements load it from the account
    configuration once.  A transition is one critical section of [cacheMu], with
    the venue's answer for the section that files it, or the end of a wait. *)

From Stdlib Require Import String ZArith Lia.
From stdpp Require Import base list strings sets gmap.
From S2P Require Import Prelude GoStrings Errors Model HttpErrors Sockets AccountFeed Clients VenueErrors OKXMarkets OKXRest.

#[local] Open Scope string_scope.
#[local] Open Scope list_scope.
#[local] Open Scope go_scope.

(** ** The client's state and its critical sections *)

(** [tradeMode] and [loading] of [okxSpotClient]; channels are numbered in the
    order they are made, and [tm_closed] holds the closed ones. *)
Record mode_client := mkModeClient { tm_tradeMode : string; tm_loading : option nat; tm_made : nat; tm_closed : gset nat }.
Definition new_mode_client : mode_client := mkModeClient "" None 0 ∅.

(** Where a call of [okxSpotTradeMode] is: before the lock, waiting on a channel,
    at the venue with the channel it has to close, or done. *)
Inductive mode_call :=
| ModeEntering
| ModeWaiting (channel : nat)
| ModeLoading (channel : nat)
| ModeReturned (r : result error string).

(** The section at the head of the loop *)
Definition okxSpotTradeMode_look (c : mode_client) : mode_client * mode_call :=
  if negb (is_empty (tm_tradeMode c)) then (c, ModeReturned (Ok (tm_tradeMode c)))
  else match tm_loading c with
  | None => (mkModeClient (tm_tradeMode c) (Some (tm_made c)) (S (tm_made c)) (tm_closed c), ModeLoading (tm_made c))
  | Some channel => (c, ModeWaiting channel)
  end.
Definition finishSpotTradeModeLoad (c : mode_client) (loading : nat) (tradeMode : string) : mode_client :=
  let mode := if negb (is_empty tradeMode) then tradeMode else tm_tradeMode c in
  if bool_decide (tm_loading c = Some loading) then mkModeClient mode None (tm_made c) ({[loading]} ∪ tm_closed c)
  else mkModeClient mode (tm_loading c) (tm_made c) (tm_closed c).
(** [okxLoadSpotTradeMode], from the venue's answer on: the account levels of
    the configuration's rows *)
Definition okxLoadSpotTradeMode (c : mode_client) (operation : string) (loading : nat) (answer : result sdk_error (list string))
  : mode_client * result error string :=
  match queried ProductSpot operation answer with
  | Err e => (finishSpotTradeModeLoad c loading "", Err e)
  | Ok rows =>
      match okx_malformed_by ProductSpot operation (okxSpotTradeModeFromAccountConfig rows) with
      | Err e => (finishSpotTradeModeLoad c loading "", Err e)
      | Ok tradeMode => (finishSpotTradeModeLoad c loading tradeMode, Ok tradeMode)
      end
  end.

(** ** Concurrent calls *)

(** [ms_sent] counts the requests for the account configuration. *)
Record mode_system := mkModeSystem { ms_client : mode_client; ms_calls : gmap nat mode_call; ms_sent : nat }.
Definition new_mode_system : mode_system := mkModeSystem new_mode_client ∅ 0.
Definition mode_look_step (s : mode_system) (id : nat) : mode_system :=
  let '(c, call) := okxSpotTradeMode_look (ms_client s) in
  mkModeSystem c (<[id := call]> (ms_calls s)) (match call with ModeLoading _ => S (ms_sent s) | _ => ms_sent s end).
Definition mode_answer_step (s : mode_system) (id channel : nat) (operation : string) (answer : result sdk_error (list string)) : mode_system :=
  let '(c, r) := okxLoadSpotTradeMode (ms_client s) operation channel answer in
  mkModeSystem c (<[id := ModeReturned r]> (ms_calls s)) (ms_sent s).
Definition set_mode_call (s : mode_system) (id : nat) (call : mode_call) : mode_system :=
  mkModeSystem (ms_client s) (<[id := call]> (ms_calls s)) (ms_sent s).

Inductive mode_step : mode_system → mode_system → Prop :=
| mode_refused s id ctx initialized operation e : ms_calls s !! id = None → okxReady ctx ProductSpot operation initialized = Err e →
    mode_step s (set_mode_call s id (ModeReturned (Err e)))
| mode_enter s id ctx operation : ms_calls s !! id = None → okxReady ctx ProductSpot operation true = Ok tt →
    mode_step s (set_mode_call s id ModeEntering)
| mode_look s id : ms_calls s !! id = Some ModeEntering → mode_step s (mode_look_step s id)
| mode_answer s id channel operation answer : ms_calls s !! id = Some (ModeLoading channel) → mode_step s (mode_answer_step s id channel operation answer)
| mode_wake s id channel : ms_calls s !! id = Some (ModeWaiting channel) → channel ∈ tm_closed (ms_client s) →
    mode_step s (set_mode_call s id ModeEntering)
| mode_cancel s id channel operation err e : ms_calls s !! id = Some (ModeWaiting channel) →
    okxContextErr ProductSpot operation (context_error err) = Some e →
    mode_step s (set_mode_call s id (ModeReturned (Err e))).
Definition mode_reachable (s : mode_system) : Prop := rtc mode_step new_mode_system s.

(** ** Invariant *)

Definition known_mode (mode : string) : Prop := mode = okxCashMode ∨ mode = okxCrossMode.
Record mode_inv (s : mode_system) : Prop := mkModeInv {
  mi_mode : tm_tradeMode (ms_client s) = "" ∨ known_mode (tm_tradeMode (ms_client s));
  (** Once the mode is known nothing is loading. *)
  mi_idle : tm_tradeMode (ms_client s) ≠ "" → tm_loading (ms_client s) = None;
  mi_loading id channel : ms_calls s !! id = Some (ModeLoading channel) → tm_loading (ms_client s) = Some channel;
  mi_single id id' channel channel' : ms_calls s !! id = Some (ModeLoading channel) → ms_calls s !! id' = Some (ModeLoading channel') → id = id';
  mi_open channel : tm_loading (ms_client s) = Some channel → ∃ id, ms_calls s !! id = Some (ModeLoading channel);
  mi_waiting id channel : ms_calls s !! id = Some (ModeWaiting channel) → tm_loading (ms_client s) = Some channel ∨ channel ∈ tm_closed (ms_client s);
  mi_returned id mode : ms_calls s !! id = Some (ModeReturned (Ok mode)) → mode = tm_tradeMode (ms_client s) ∧ known_mode mode;
}.

Lemma known_mode_nonempty mode : known_mode mode → is_empty mode = false.
Proof. by intros [-> | ->]. Qed.
Lemma account_mode_known levels mode : okxSpotTradeModeFromAccountConfig levels = Ok mode → known_mode mode.
Proof. unfold okxSpotTradeModeFromAccountConfig, known_mode. repeat case_match; naive_solver. Qed.

(** A call moves without the client changing, and is not at the venue before or
    after. *)
Lemma mode_call_inv s id call :
  mode_inv s → (∀ channel, ms_calls s !! id ≠ Some (ModeLoading channel)) →
  match call with
  | ModeLoading _ => False
  | ModeWaiting channel => tm_loading (ms_client s) = Some channel
  | ModeReturned (Ok mode) => mode = tm_tradeMode (ms_client s) ∧ known_mode mode
  | _ => True
  end →
  mode_inv (set_mode_call s id call).
Proof.
  intros [] Hid Hc.
  assert (Hl : ∀ i channel, <[id := call]> (ms_calls s) !! i = Some (ModeLoading channel) ↔ ms_calls s !! i = Some (ModeLoading channel)).
  { intros i channel. rewrite lookup_insert_Some. split; [intros [[_ ->]|[_ ?]]; [done|done]|]. intros Hi. right. split; [|done]. intros <-. by edestruct Hid. }
  split; cbn; try done.
  - intros i channel. rewrite Hl. eauto.
  - intros i i' channel channel'. rewrite !Hl. eauto.
  - intros channel [i Hi]%mi_open0. exists i. by rewrite Hl.
  - intros i channel. rewrite lookup_insert_Some. intros [[_ ->]|[_ ?]]; eauto.
  - intros i mode. rewrite lookup_insert_Some. intros [[_ ->]|[_ ?]]; eauto.
Qed.

Lemma mode_look_inv s id : mode_inv s → ms_calls s !! id = Some ModeEntering → mode_inv (mode_look_step s id).
Proof.
  intros Hi Hid. assert (Hnl : ∀ channel, ms_calls s !! id ≠ Some (ModeLoading channel)) by (intros; congruence). pose proof Hi as [].
  unfold mode_look_step, okxSpotTradeMode_look. destruct (is_empty _) eqn:Em; cbn [negb].
  - destruct (tm_loading (ms_client s)) as [channel|] eqn:El; [by apply mode_call_inv|].
    assert (Hnone : ∀ i channel, ms_calls s !! i ≠ Some (ModeLoading channel)) by (intros i channel Hc%mi_loading0; congruence).
    split; cbn.
    + done.
    + intros Hne. apply String.eqb_eq in Em. congruence.
    + intros i channel. rewrite lookup_insert_Some. intros [[_ [= <-]]|[_ Hc]]; [done|by edestruct Hnone].
    + intros i i' channel channel'. rewrite !lookup_insert_Some. intros [[<- _]|[_ Hc]] [[<- _]|[_ Hc']]; [done|by edestruct Hnone..].
    + intros channel [= <-]. exists id. by rewrite lookup_insert_eq.
    + intros i channel. rewrite lookup_insert_Some. intros [[_ [=]]|[_ Hc]]. destruct (mi_waiting0 _ _ Hc) as [?|?]; [congruence|by right].
    + intros i mode. rewrite lookup_insert_Some. intros [[_ [=]]|[_ Hc]]. by eapply mi_returned0.
  - apply mode_call_inv; [done..|]. split; [done|]. destruct mi_mode0 as [Hm|]; [|done]. by rewrite Hm in Em.
Qed.

(** The answer of the only request empties [loading]; a mode it yields is the
    first. *)
Lemma mode_finish_inv s id channel mode r :
  mode_inv s → ms_calls s !! id = Some (ModeLoading channel) → (r = Ok mode ∧ known_mode mode) ∨ (mode = "" ∧ ∃ e, r = Err e) →
  mode_inv (mkModeSystem (finishSpotTradeModeLoad (ms_client s) channel mode) (<[id := ModeReturned r]> (ms_calls s)) (ms_sent s)).
Proof.
  intros Hi Hid Hr. pose proof Hi as []. pose proof (mi_loading0 _ _ Hid) as Hl. unfold finishSpotTradeModeLoad. rewrite bool_decide_true by done.
  assert (He : tm_tradeMode (ms_client s) = "") by (destruct (decide (tm_tradeMode (ms_client s) = "")) as [|Hne%mi_idle0]; [done|congruence]).
  assert (Hnone : ∀ i c, <[id := ModeReturned r]> (ms_calls s) !! i ≠ Some (ModeLoading c)).
  { intros i c. rewrite lookup_insert_Some. intros [[_ [=]]|[Hne Hc]]. by destruct Hne; eapply mi_single0. }
  split; cbn.
  - destruct Hr as [[_ Hk]|[-> _]]; [right; by rewrite (known_mode_nonempty _ Hk)|by left].
  - done.
  - intros i c Hc. by destruct (Hnone i c).
  - intros i i' c c' Hc. by destruct (Hnone i c).
  - done.
  - intros i c. rewrite lookup_insert_Some. intros [[_ [=]]|[_ Hc]]. right. rewrite elem_of_union, elem_of_singleton. destruct (mi_waiting0 _ _ Hc) as [Hx|Hx]; [left; congruence|by right].
  - intros i m. rewrite lookup_insert_Some. intros [[_ [= ->]]|[_ Hc]].
    + destruct Hr as [[[= ->] Hk]|[_ [e [=]]]]. by rewrite (known_mode_nonempty _ Hk).
    + destruct (mi_returned0 _ _ Hc) as [-> Hk]. by rewrite He in Hk; destruct Hk.
Qed.
Lemma mode_answer_inv s id channel operation answer :
  mode_inv s → ms_calls s !! id = Some (ModeLoading channel) → mode_inv (mode_answer_step s id channel operation answer).
Proof.
  intros Hi Hid. unfold mode_answer_step, okxLoadSpotTradeMode. destruct answer as [rows|e]; cbn [queried]; [|apply mode_finish_inv; eauto].
  destruct (okxSpotTradeModeFromAccountConfig rows) as [mode|e] eqn:Em; cbn [okx_malformed_by]; [|apply mode_finish_inv; eauto].
  apply mode_finish_inv; [done..|]. left. by eapply conj, account_mode_known.
Qed.
Lemma mode_reachable_inv s : mode_reachable s → mode_inv s.
Proof.
  apply (rtc_ind_r mode_inv).
  - split; cbn; try done; [by left|intros *; by rewrite lookup_empty..].
  - intros y z _ Hst Hy. destruct Hst; [apply mode_call_inv|apply mode_call_inv|by apply mode_look_inv|by apply mode_answer_inv|apply mode_call_inv|apply mode_call_inv];
      done || (intros; congruence).
Qed.

(** ** What the client promises *)

(** C39: concurrent placements agree on the trade mode: at most one request for the
    account configuration is under way, and none once the mode is known; every
    call that returned a mode returned the same one, cash or cross, and later
    calls get it without a request; a call that waits is woken or waits for a
    request under way. *)
Theorem trade_mode_agreed s :
  mode_reachable s →
  (∀ id id' channel channel', ms_calls s !! id = Some (ModeLoading channel) → ms_calls s !! id' = Some (ModeLoading channel') → id = id') ∧
  (∀ id mode, ms_calls s !! id = Some (ModeReturned (Ok mode)) →
     known_mode mode ∧ (∀ id' channel, ms_calls s !! id' ≠ Some (ModeLoading channel)) ∧
     (∀ id' mode', ms_calls s !! id' = Some (ModeReturned (Ok mode')) → mode' = mode) ∧
     (∀ id', ms_calls s !! id' = Some ModeEntering → mode_look_step s id' = set_mode_call s id' (ModeReturned (Ok mode)))) ∧
  (∀ id channel, ms_calls s !! id = Some (ModeWaiting channel) →
     channel ∈ tm_closed (ms_client s) ∨ ∃ loader, ms_calls s !! loader = Some (ModeLoading channel)).
Proof.
  intros Hi%mode_reachable_inv. split_and!.
  - apply (mi_single s Hi).
  - intros id mode Hid. destruct (mi_returned s Hi _ _ Hid) as [-> Hk]. pose proof (known_mode_nonempty _ Hk) as Hne. split_and!; [done|..].
    + intros id' channel Hl%(mi_loading s Hi). rewrite (mi_idle s Hi) in Hl; [done|]. intros E. by rewrite E in Hne.
    + intros id' mode' [-> _]%(mi_returned s Hi). done.
    + intros id' _. unfold mode_look_step, okxSpotTradeMode_look. by rewrite Hne.
  - intros id channel [Hl|]%(mi_waiting s Hi); [right; by apply (mi_open s Hi)|by left].
Qed.

(** ** Two placements at once *)

Definition two_entered : mode_system := set_mode_call (set_mode_call new_mode_system 1 ModeEntering) 2 ModeEntering.
Definition two_served : mode_system :=
  let waiting := mode_look_step (mode_look_step two_entered 1) 2 in
  mode_look_step (set_mode_call (mode_answer_step waiting 1 0 "PlaceOrder" (Ok ["3"])) 2 ModeEntering) 2.
Example one_request : ms_sent two_served = 1%nat ∧ ms_calls two_served !! 2%nat = Some (ModeReturned (Ok "cross")).
Proof. split; vm_compute; reflexivity. Qed.
Lemma two_served_reachable : mode_reachable two_served.
Proof.
  eapply rtc_l; [apply (mode_enter _ 1 (Some None) "PlaceOrder"); done|]. eapply rtc_l; [apply (mode_enter _ 2 (Some None) "PlaceOrder"); done|].
  eapply rtc_l; [by apply (mode_look _ 1)|]. eapply rtc_l; [by apply (mode_look _ 2)|].
  eapply rtc_l; [by apply (mode_answer _ 1 0 "PlaceOrder" (Ok ["3"]))|]. eapply rtc_l; [apply (mode_wake _ 2 0); [done|vm_compute; reflexivity]|].
  by apply rtc_once, (mode_look _ 2).
Qed.
Lemma trade_mode_agreed_witness : mode_reachable two_served ∧ ∀ id mode, ms_calls two_served !! id = Some (ModeReturned (Ok mode)) → mode = "cross".
Proof.
  split; [exact two_served_reachable|]. destruct (trade_mode_agreed two_served two_served_reachable) as (_ & Hret & _).
  intros id mode Hid. destruct (Hret 2%nat "cross" ltac:(vm_compute; reflexivity)) as (_ & _ & Hsame & _). exact (Hsame id mode Hid).
Defined.
