(* ===== verification/BinanceMarkets.v ===== *)
(** * Binance: market data

    The public half of [exchange/internal/factoryclient/binance_spot_rest.go],
    [binance_perp_rest.go] and [binance_rest_extended.go], with
    [binance_catalog_loader.go]: exchange information to instruments, the checks
    every request makes of its instrument, books, candles, trades and funding
    rates.  What the SDK is called with and answers is explicit; the texts of the
    decimal library's and of [strconv.ParseInt]'s errors, the [%q] verb and
    [decimal.NewFromFloat] are parameters. *)

From Stdlib Require Import Ascii String ZArith Lia QArith Qcanon.
From stdpp Require Import base list strings gmap.
From S2P Require Import Prelude GoStrings Decimals DecimalText Errors Model HttpErrors Orders InstrumentCatalog Sockets AccountFeed Clients.
From S2P Require Import HyperliquidMarkets VenueErrors Commands FundingLoaders DerivativeLoaders.

#[local] Open Scope string_scope.
#[local] Open Scope list_scope.
#[local] Open Scope Z_scope.
#[local] Open Scope go_scope.

(** ** Venue rows *)

(** A value decoded into [interface{}]: a JSON number is a [float64], here its
    exact value. *)
Inductive field := FieldText (s : string) | FieldFloat (q : Qc) | FieldInt (n : Z) | FieldOther (type : string).
Definition filter_map : Type := gmap string field.
Definition field_text (o : option field) : option string := match o with Some (FieldText s) => Some s | _ => None end.
(** [spot.SymbolInfo] and [perp.SymbolInfo]; spot symbols have neither contract
    type nor margin asset *)
Record SymbolInfo := mkSymbolInfo {
  si_Symbol : string; si_Status : string; si_ContractType : string; si_BaseAsset : string; si_QuoteAsset : string; si_MarginAsset : string;
  si_Filters : list filter_map;
}.
Record DepthResponse := mkDepth { dr_LastUpdateID : Z; dr_T : Z; dr_Bids : list (list string); dr_Asks : list (list string) }.
(** [spot.PublicTrade] and [perp.AggTrade] *)
Record TradeRow := mkTradeRow { tr_ID : Z; tr_Price : string; tr_Quantity : string; tr_Time : Z; tr_IsBuyerMaker : bool }.
(** [perp.FundingRateData] and [perp.FundingRateHistoryEntry], the fields read
    here *)
Record PremiumRow := mkPremiumRow { pr_LastFundingRate : string; pr_MarkPrice : string; pr_Time : Z; pr_NextFundingTime : Z }.
Record FundingRow := mkFundingRow { fr_FundingRate : string; fr_FundingTime : Z; fr_MarkPrice : string }.

(** ** Results of an SDK call *)

Definition spot_queried {A} (operation : string) (reply : result sdk_error A) : result error A :=
  match reply with Ok a => Ok a | Err s => Err (binanceSpotNormalizeErr operation s) end.
Definition perp_queried {A} (operation : string) (reply : result sdk_error A) : result error A :=
  match reply with Ok a => Ok a | Err s => Err (binancePerpNormalizeError operation s) end.
(** [binanceSpotMalformed(…, err.Error())] and the like *)
Definition spot_malformed_by {A} (operation : string) (r : result error A) : result error A :=
  match r with Ok a => Ok a | Err e => Err (binanceSpotMalformed operation (error_text e)) end.
Definition perp_malformed_by {A} (operation : string) (r : result error A) : result error A :=
  match r with Ok a => Ok a | Err e => Err (binancePerpMalformed operation (error_text e)) end.
Definition perp_invalid_by {A} (operation : string) (r : result error A) : result error A :=
  match r with Ok a => Ok a | Err e => Err (binancePerpInvalidRequest operation (error_text e)) end.

Definition binanceSpotContextErr (ctx : context) (operation : string) : result error unit :=
  match ctx with
  | None => Err (binanceSpotInvalid operation "context is required")
  | Some (Some err) =>
      let s := mkSDK err "" [] None (λ _, None) None in
      if canceled s then Err (binanceSpotContextError operation KindCanceled)
      else if deadline s then Err (binanceSpotContextError operation KindDeadlineExceeded)
      else Ok tt
  | Some None => Ok tt
  end.
(** [prefix] is the SDK client's [EndpointPrefix]. *)
Definition binancePerpPrefix : string := "/fapi".
Definition binancePerpReady (ctx : context) (initialized : bool) (prefix operation : string) : result error unit :=
  check initialized else binancePerpInvalidRequest operation "client is not initialized" ;;
  let configured :=
    check is_empty prefix || String.eqb prefix binancePerpPrefix
      else binancePerpInvalidRequest operation "client is not configured for Binance USD-M /fapi" ;;
    Ok tt in
  match ctx with
  | None => Err (binancePerpInvalidRequest operation "context must not be nil")
  | Some (Some err) =>
      match binancePerpContextError operation (mkSDK err "" [] None (λ _, None) None) with Some e => Err e | None => Ok tt end
  | Some None => configured
  end.

(** ** Symbols *)

Definition upper_alnum (c : ascii) : bool := in_range "A" "Z" c || is_digit c.
Definition binancePerpASCII (value : string) : bool := string_forallb (λ c, code c <=? 127) value.
Definition without_hyphens (s : string) : string := Join "" (Split "-" s).
Definition binanceSpotNormalizeVenueSymbol (symbol base quote : string) : result error string :=
  check negb (is_empty (TrimSpace symbol) || is_empty (TrimSpace base) || is_empty (TrimSpace quote)) else EText "symbol, base, and quote are required" ;;
  check String.eqb symbol (ToUpper symbol) else EText "symbol must be uppercase" ;;
  check String.eqb symbol (base +:+ quote) else EText "symbol does not match base and quote assets" ;;
  Ok (base +:+ "-" +:+ quote).
Definition binanceOrderActive (status : string) : bool := one_of (ToUpper status) ["NEW"; "PARTIALLY_FILLED"; "PENDING_CANCEL"].
Definition binanceMillis (t : time) : Z := if IsZero t then 0 else UnixMilli t.
(** [int64(value)] of a float: out of range it is the least integer on the
    platforms the program is built for. *)
Definition float_int64 (q : Qc) : Z :=
  let n := Z.quot (Qnum (this q)) (Zpos (Qden (this q))) in
  if (int64_min <=? n) && (n <=? int64_max) then n else int64_min.
Definition whole (q : Qc) : bool := (Zpos (Qden (this q)) =? 1)%Z.
Definition float_positive (q : Qc) : bool := 0 <? Qnum (this q).

Section binance.
Context `{Decimal D} `{DecimalText D}.
Context (parse_error int_error : string → string) (d_of_float : Qc → D).
Implicit Types instrument : Instrument D.

Definition newBinance (product symbol base quote settle native : string) : Instrument D :=
  newInstrument VenueBinance product symbol base quote settle native "" (d_new 1 0) (d_new 1 0) d_zero no_decimal oneContract.
(** [binanceSpotSymbols]: the venue's symbol of a request's instrument *)
Definition binanceSpotSymbols instrument (operation : string) : result error string :=
  let fail := binanceSpotInvalid operation in
  _ <-? match Instrument_Validate instrument with Ok a => Ok a | Err e => Err (fail (error_text e)) end ;;
  let identity := in_Identity instrument in
  check String.eqb (id_Venue identity) VenueBinance && String.eqb (id_Product identity) ProductSpot else fail "instrument must be a Binance spot instrument" ;;
  check is_empty (id_SettleAsset identity) else fail "spot instrument must not include settlement asset" ;;
  check String.eqb (id_Symbol identity) (id_BaseAsset identity +:+ "-" +:+ id_QuoteAsset identity) else fail "instrument symbol must be canonical BASE-QUOTE" ;;
  check String.eqb (id_NativeSymbol identity) (id_BaseAsset identity +:+ id_QuoteAsset identity) else fail "native symbol must match base and quote assets" ;;
  check String.eqb (id_Symbol identity) (ToUpper (id_Symbol identity)) && String.eqb (id_NativeSymbol identity) (ToUpper (id_NativeSymbol identity))
    else fail "instrument must use uppercase Binance symbols" ;;
  Ok (id_NativeSymbol identity).
Definition binancePerpRequestSymbols instrument : result error string :=
  _ <-? Instrument_Validate instrument ;;
  let identity := in_Identity instrument in
  check String.eqb (id_Venue identity) VenueBinance && String.eqb (id_Product identity) ProductPerp else EText "instrument must be a Binance USD-M perp instrument" ;;
  check negb (is_empty (id_SettleAsset identity)) && String.eqb (id_SettleAsset identity) (id_QuoteAsset identity)
    else EText "instrument settlement must match USD-M quote asset" ;;
  check String.eqb (id_Symbol identity) (id_BaseAsset identity +:+ "-" +:+ id_QuoteAsset identity) else EText "instrument symbol must be canonical BASE-QUOTE" ;;
  check String.eqb (id_NativeSymbol identity) (id_BaseAsset identity +:+ id_QuoteAsset identity) else EText "native symbol must match base and quote assets" ;;
  check String.eqb (id_Symbol identity) (ToUpper (id_Symbol identity)) && String.eqb (id_NativeSymbol identity) (ToUpper (id_NativeSymbol identity))
    else EText "instrument must use uppercase Binance USD-M symbols" ;;
  check string_forallb upper_alnum (id_NativeSymbol identity) else EText "instrument must be alphanumeric" ;;
  check one_of (id_QuoteAsset identity) ["USDT"; "USDC"] else EText "instrument must be a USD-M quote symbol" ;;
  Ok (id_NativeSymbol identity).
(** [None]: not a market this client offers *)
Definition binancePerpPublicInstrumentSymbols (symbol baseAsset quoteAsset : string) : result error (option string) :=
  if negb (one_of quoteAsset ["USDT"; "USDC"]) then Ok None
  else if negb (binancePerpASCII symbol) || negb (binancePerpASCII baseAsset) then Ok None
  else
    let candidate := newBinance ProductPerp (baseAsset +:+ "-" +:+ quoteAsset) baseAsset quoteAsset quoteAsset (baseAsset +:+ quoteAsset) in
    native <-? binancePerpRequestSymbols candidate ;;
    check String.eqb symbol native else EText "USD-M symbol does not match asset metadata" ;;
    Ok (Some (id_Symbol (in_Identity candidate))).
(** [binancePerpNativeSymbols]: the symbol of a row, which the callers take *)
Definition binancePerpNativeSymbols (symbol : string) : result error string :=
  check negb (is_empty symbol) else EText "instrument is required" ;;
  check String.eqb (TrimSpace symbol) symbol && negb (Contains symbol "/") else EText "instrument must be a Binance USD-M symbol" ;;
  let upper := ToUpper (without_hyphens symbol) in
  check string_forallb upper_alnum upper else EText "instrument must be alphanumeric" ;;
  check List.existsb (λ quote, HasSuffix upper quote && (String.length quote <? String.length upper)%nat) ["USDT"; "USDC"]
    else EText "instrument must be a USD-M quote symbol" ;;
  Ok upper.

(** ** Instruments *)

Definition filter_decimal (positive : bool) (f : filter_map) (key : string) : result error D :=
  match field_text (f !! key) with
  | None => Err (EText ("missing " +:+ key +:+ " filter"))
  | Some raw =>
      check negb (is_empty raw) else EText ("missing " +:+ key +:+ " filter") ;;
      match d_new_from_string raw with
      | None => Err (EText ("invalid " +:+ key +:+ " filter"))
      | Some value =>
          check (if positive then d_is_positive value else negb (d_is_negative value)) else EText ("invalid " +:+ key +:+ " filter") ;;
          Ok value
      end
  end.
Definition binancePerpDecimalFilter : filter_map → string → result error D := filter_decimal true.
Definition binancePerpNonNegativeDecimalFilter : filter_map → string → result error D := filter_decimal false.
(** The increments and minima gathered from the filters; the zero decimal is
    Go's zero value. *)
Record filters := mkFilters { ft_price : D; ft_quantity : D; ft_minQuantity : D; ft_minNotional : OptionalDecimal D }.
Definition no_filters : filters := mkFilters d_zero d_zero d_zero no_decimal.
Definition perp_filter (got : filters) (f : filter_map) : result error filters :=
  let kind := default "" (field_text (f !! "filterType")) in
  if String.eqb kind "PRICE_FILTER" then
    tick <-? binancePerpDecimalFilter f "tickSize" ;;
    Ok (mkFilters tick (ft_quantity got) (ft_minQuantity got) (ft_minNotional got))
  else if String.eqb kind "LOT_SIZE" then
    step <-? binancePerpDecimalFilter f "stepSize" ;;
    min <-? binancePerpNonNegativeDecimalFilter f "minQty" ;;
    Ok (mkFilters (ft_price got) step (if d_is_zero min then step else min) (ft_minNotional got))
  else if String.eqb kind "MIN_NOTIONAL" then
    value <-? binancePerpDecimalFilter f "notional" ;;
    Ok (mkFilters (ft_price got) (ft_quantity got) (ft_minQuantity got) (mkOptDec value true))
  else Ok got.
Fixpoint fold_filters (step : filters → filter_map → result error filters) (got : filters) (l : list filter_map) : result error filters :=
  match l with [] => Ok got | f :: rest => got' <-? step got f ;; fold_filters step got' rest end.
Definition binancePerpInstrumentFilters (l : list filter_map) : result error filters :=
  got <-? fold_filters perp_filter no_filters l ;;
  check negb (d_is_zero (ft_price got) || d_is_zero (ft_quantity got) || d_is_zero (ft_minQuantity got)) else EText "missing required instrument filters" ;;
  Ok got.
Definition binanceSpotFilterDecimal (f : filter_map) (key : string) : result error D :=
  match field_text (f !! key) with
  | None => Err (EText ("missing " +:+ key))
  | Some value =>
      check negb (is_empty (TrimSpace value)) else EText ("missing " +:+ key) ;;
      match d_new_from_string value with Some d => Ok d | None => Err (EText (parse_error value)) end
  end.
Definition spot_positive (f : filter_map) (key message : string) : result error D :=
  match binanceSpotFilterDecimal f key with
  | Ok d => check d_is_positive d else EText message ;; Ok d
  | Err _ => Err (EText message)
  end.
(** [priceOK] and [lotOK] *)
Definition spot_filter (acc : filters * (bool * bool)) (f : filter_map) : result error (filters * (bool * bool)) :=
  let '(got, (priceOK, lotOK)) := acc in
  let kind := default "" (field_text (f !! "filterType")) in
  if String.eqb kind "PRICE_FILTER" then
    tick <-? spot_positive f "tickSize" "malformed price filter" ;;
    Ok (mkFilters tick (ft_quantity got) (ft_minQuantity got) (ft_minNotional got), (true, lotOK))
  else if String.eqb kind "LOT_SIZE" then
    step <-? spot_positive f "stepSize" "malformed lot step filter" ;;
    min <-? spot_positive f "minQty" "malformed lot min filter" ;;
    Ok (mkFilters (ft_price got) step min (ft_minNotional got), (priceOK, true))
  else if one_of kind ["MIN_NOTIONAL"; "NOTIONAL"] then
    value <-? spot_positive f "minNotional" "malformed min notional filter" ;;
    Ok (mkFilters (ft_price got) (ft_quantity got) (ft_minQuantity got) (mkOptDec value true), (priceOK, lotOK))
  else Ok acc.
Fixpoint fold_spot_filters (acc : filters * (bool * bool)) (l : list filter_map) : result error (filters * (bool * bool)) :=
  match l with [] => Ok acc | f :: rest => acc' <-? spot_filter acc f ;; fold_spot_filters acc' rest end.
Definition binanceSpotInstrumentFilters (l : list filter_map) : result error filters :=
  acc <-? fold_spot_filters (no_filters, (false, false)) l ;;
  check acc.2.1 && acc.2.2 else EText "missing required filters" ;;
  Ok acc.1.

(** One symbol of the exchange information: [None] is skipped.  [seen] holds the
    keys of the symbols before it. *)
Definition spot_symbol (seen : list string) (row : SymbolInfo) : result error (option (string * Instrument D)) :=
  if negb (String.eqb (si_Status row) "TRADING") then Ok None
  else
    normalized <-? binanceSpotNormalizeVenueSymbol (si_Symbol row) (si_BaseAsset row) (si_QuoteAsset row) ;;
    check negb (one_of normalized seen) else EText "duplicate symbol" ;;
    f <-? binanceSpotInstrumentFilters (si_Filters row) ;;
    Ok (Some (normalized, newInstrument VenueBinance ProductSpot normalized (si_BaseAsset row) (si_QuoteAsset row) "" (si_Symbol row) ""
      (ft_price f) (ft_quantity f) (ft_minQuantity f) (ft_minNotional f) oneContract)).
Definition perp_symbol (seen : list string) (row : SymbolInfo) : result error (option (string * Instrument D)) :=
  if negb (String.eqb (si_Status row) "TRADING") then Ok None
  else if negb (String.eqb (si_ContractType row) "PERPETUAL") then Ok None
  else
    supported <-? binancePerpPublicInstrumentSymbols (si_Symbol row) (si_BaseAsset row) (si_QuoteAsset row) ;;
    match supported with
    | None => Ok None
    | Some canonical =>
        check negb (is_empty (si_MarginAsset row)) && String.eqb (si_MarginAsset row) (si_QuoteAsset row)
          else EText "USD-M settlement asset does not match quote metadata" ;;
        check negb (one_of (si_Symbol row) seen) else EText "duplicate symbol" ;;
        f <-? binancePerpInstrumentFilters (si_Filters row) ;;
        Ok (Some (si_Symbol row, newInstrument VenueBinance ProductPerp canonical (si_BaseAsset row) (si_QuoteAsset row) (si_MarginAsset row) (si_Symbol row) ""
          (ft_price f) (ft_quantity f) (ft_minQuantity f) (ft_minNotional f) oneContract))
    end.
Fixpoint symbols_from (one : list string → SymbolInfo → result error (option (string * Instrument D))) (seen : list string) (rows : list SymbolInfo)
  : result error (list (Instrument D)) :=
  match rows with
  | [] => Ok []
  | row :: rest =>
      item <-? one seen row ;;
      match item with
      | None => symbols_from one seen rest
      | Some (key, instrument) => l <-? symbols_from one (key :: seen) rest ;; Ok (instrument :: l)
      end
  end.
(** A nil response is [None]. *)
Definition binanceSpotInstrumentsFromExchangeInfo (info : option (list SymbolInfo)) : result error (list (Instrument D)) :=
  match info with None => Err (EText "missing exchangeInfo response") | Some rows => symbols_from spot_symbol [] rows end.
Definition binancePerpInstrumentsFromExchangeInfo (info : option (list SymbolInfo)) : result error (list (Instrument D)) :=
  match info with None => Err (EText "missing exchangeInfo response") | Some rows => symbols_from perp_symbol [] rows end.

(** [LoadInstruments] of the catalog loader *)
Definition load_operation : string := "InstrumentCatalog.Load".
Definition LoadInstruments (product : string) (ExchangeInfo : result sdk_error (option (list SymbolInfo))) (scope : CatalogScope) (now : time)
  : result error (InstrumentSnapshot D) :=
  instruments <-?
    (if String.eqb product ProductSpot then info <-? spot_queried load_operation ExchangeInfo ;; binanceSpotInstrumentsFromExchangeInfo info
     else if String.eqb product ProductPerp then info <-? perp_queried load_operation ExchangeInfo ;; binancePerpInstrumentsFromExchangeInfo info
     else Err (venue_error VenueBinance product load_operation KindInvalidRequest "" "unsupported Binance product")) ;;
  Ok (mkSnapshot 1 scope "" 0 now (filterInstrumentsForScope instruments scope) empty_indexes).

(** [Instruments], [ResolveInstrument] and [RefreshInstruments]: [catalog] is the
    configured catalog's answer, if one is configured. *)
Definition spot_Instruments (ctx : context) (catalog : option (result error (list (Instrument D)))) (ExchangeInfo : result sdk_error (option (list SymbolInfo)))
  : result error (list (Instrument D)) :=
  _ <-? binanceSpotContextErr ctx "Instruments" ;;
  match catalog with
  | Some (Ok l) => Ok l
  | Some (Err e) => Err (withExchangeOperation e "Instruments")
  | None => info <-? spot_queried "Instruments" ExchangeInfo ;; spot_malformed_by "Instruments" (binanceSpotInstrumentsFromExchangeInfo info)
  end.
Definition perp_Instruments (ctx : context) (initialized : bool) (prefix : string) (catalog : option (result error (list (Instrument D))))
    (ExchangeInfo : result sdk_error (option (list SymbolInfo))) : result error (list (Instrument D)) :=
  _ <-? binancePerpReady ctx initialized prefix "Instruments" ;;
  match catalog with
  | Some (Ok l) => Ok l
  | Some (Err e) => Err (withExchangeOperation e "Instruments")
  | None => info <-? perp_queried "Instruments" ExchangeInfo ;; perp_malformed_by "Instruments" (binancePerpInstrumentsFromExchangeInfo info)
  end.
Definition spot_ResolveInstrument (ctx : context) (catalog : option (result error (Instrument D))) : result error (Instrument D) :=
  _ <-? binanceSpotContextErr ctx "ResolveInstrument" ;;
  match catalog with
  | None => Err (binanceSpotInvalid "ResolveInstrument" "instrument catalog is not configured")
  | Some (Ok instrument) => Ok instrument
  | Some (Err e) => Err (withExchangeOperation e "ResolveInstrument")
  end.
Definition perp_ResolveInstrument (ctx : context) (initialized : bool) (prefix : string) (catalog : option (result error (Instrument D)))
  : result error (Instrument D) :=
  _ <-? binancePerpReady ctx initialized prefix "ResolveInstrument" ;;
  match catalog with
  | None => Err (binancePerpInvalidRequest "ResolveInstrument" "instrument catalog is not configured")
  | Some (Ok instrument) => Ok instrument
  | Some (Err e) => Err (withExchangeOperation e "ResolveInstrument")
  end.
(** A failed refresh still returns the snapshot it has. *)
Definition refreshed (answer : list (Instrument D) * option error) : list (Instrument D) * option error :=
  (answer.1, option_map (λ e, withExchangeOperation e "RefreshInstruments") answer.2).
Definition spot_RefreshInstruments (ctx : context) (catalog : option (list (Instrument D) * option error)) : list (Instrument D) * option error :=
  match binanceSpotContextErr ctx "RefreshInstruments", catalog with
  | Err e, _ => ([], Some e)
  | Ok _, None => ([], Some (binanceSpotInvalid "RefreshInstruments" "instrument catalog is not configured"))
  | Ok _, Some answer => refreshed answer
  end.
Definition perp_RefreshInstruments (ctx : context) (initialized : bool) (prefix : string) (catalog : option (list (Instrument D) * option error))
  : list (Instrument D) * option error :=
  match binancePerpReady ctx initialized prefix "RefreshInstruments", catalog with
  | Err e, _ => ([], Some e)
  | Ok _, None => ([], Some (binancePerpInvalidRequest "RefreshInstruments" "instrument catalog is not configured"))
  | Ok _, Some answer => refreshed answer
  end.

(** ** Numbers *)

Definition binancePerpDecimal (raw : string) : result error D :=
  let raw := if is_empty raw then "0" else raw in
  match d_new_from_string raw with Some d => Ok d | None => Err (EText (parse_error raw)) end.
Definition must_be_positive (r : result error D) : result error D :=
  value <-? r ;; check d_is_positive value else EText "decimal must be positive" ;; Ok value.
Definition must_not_be_negative (r : result error D) : result error D :=
  value <-? r ;; check negb (d_is_negative value) else EText "decimal must be non-negative" ;; Ok value.
Definition binancePerpPositiveDecimal (raw : string) : result error D := must_be_positive (binancePerpDecimal raw).
Definition binancePerpNonNegativeDecimal (raw : string) : result error D := must_not_be_negative (binancePerpDecimal raw).
Definition binancePerpOptional (raw : string) : result error (OptionalDecimal D) :=
  if is_empty raw then Ok no_decimal else value <-? binancePerpDecimal raw ;; Ok (mkOptDec value true).
(** The name [%T] gives a field's type *)
Definition field_type_name (v : field) : string :=
  match v with FieldText _ => "string" | FieldFloat _ => "float64" | FieldInt _ => "int64" | FieldOther type => type end.
Definition binancePerpDecimalValue (raw : field) : result error D :=
  match raw with
  | FieldText value => match d_new_from_string value with Some d => Ok d | None => Err (EText (parse_error value)) end
  | FieldFloat value => Ok (d_of_float value)
  | _ => Err (EText ("unexpected decimal field type " +:+ field_type_name raw))
  end.
Definition binancePerpPositiveDecimalValue (raw : field) : result error D := must_be_positive (binancePerpDecimalValue raw).
Definition binancePerpNonNegativeDecimalValue (raw : field) : result error D := must_not_be_negative (binancePerpDecimalValue raw).
Definition binancePerpPositiveInt64 (raw : field) : result error Z :=
  let fail := EText "timestamp must be a positive integer" in
  match raw with
  | FieldFloat value => check float_positive value && whole value else fail ;; Ok (float_int64 value)
  | FieldInt value => check 0 <? value else fail ;; Ok value
  | FieldText value =>
      match ParseInt value with
      | None => Err (EText (int_error value))
      | Some parsed => check 0 <? parsed else fail ;; Ok parsed
      end
  | FieldOther type => Err (EText ("unexpected integer field type " +:+ type))
  end.
Definition binanceSpotKlineDecimal (value : field) : result error D :=
  match value with
  | FieldText text => match d_new_from_string text with Some d => Ok d | None => Err (EText (parse_error text)) end
  | _ => Err (EText "kline decimal must be a string")
  end.
Definition binanceSpotKlineMillis (value : field) : result error time :=
  match value with
  | FieldFloat typed =>
      check float_positive typed && whole typed && (float_int64 typed =? Qnum (this typed)) else EText "kline timestamp must be integer milliseconds" ;;
      Ok (FromMilli (float_int64 typed))
  | FieldInt typed => check 0 <? typed else EText "kline timestamp must be positive" ;; Ok (FromMilli typed)
  | _ => Err (EText "kline timestamp has unexpected type")
  end.
(** [strconv.ErrSyntax] *)
Definition syntax_error : error := EText "invalid syntax".
Definition positiveDecimal (value : string) : result error D :=
  match d_new_from_string value with
  | Some parsed => check d_is_positive parsed else syntax_error ;; Ok parsed
  | None => Err syntax_error
  end.
Definition signed_decimal (value : string) : result error D :=
  match positiveOrNegativeDecimal value with Some d => Ok d | None => Err syntax_error end.
Definition positiveInt64Cursor (cursor : string) : result error Z :=
  if is_empty cursor then Ok 0
  else match ParseInt cursor with
  | Some value => check 0 <? value else syntax_error ;; Ok value
  | None => Err syntax_error
  end.

(** ** Books *)

Definition perp_level (level : list string) : result error (BookLevel D) :=
  match level with
  | [p; q] => price <-? binancePerpPositiveDecimal p ;; quantity <-? binancePerpPositiveDecimal q ;; Ok (mkLevel price quantity)
  | _ => Err (EText "book level must have price and quantity")
  end.
Definition binancePerpBookLevels (native : list (list string)) : result error (list (BookLevel D)) := map_result perp_level native.
Definition spot_level (level : list string) : result error (BookLevel D) :=
  let positive text message :=
    match d_new_from_string text with
    | Some d => check d_is_positive d else EText message ;; Ok d
    | None => Err (EText message)
    end in
  match level with
  | [p; q] =>
      price <-? positive p "book price must be positive decimal" ;;
      quantity <-? positive q "book quantity must be positive decimal" ;;
      Ok (mkLevel price quantity)
  | _ => Err (EText "book level must have price and quantity")
  end.
Definition binanceSpotBookLevels (native : list (list string)) : result error (list (BookLevel D)) := map_result spot_level native.
(** The page and its [Sequence] *)
Definition spot_OrderBook (ctx : context) instrument (limit : Z) (Depth : string → Z → result sdk_error DepthResponse)
  : result error (OrderBookPage (D:=D) * string) :=
  _ <-? binanceSpotContextErr ctx "OrderBook" ;;
  symbol <-? binanceSpotSymbols instrument "OrderBook" ;;
  check negb (limit <? 0) else binanceSpotInvalid "OrderBook" "limit must be non-negative" ;;
  res <-? spot_queried "OrderBook" (Depth symbol limit) ;;
  bids <-? spot_malformed_by "OrderBook" (binanceSpotBookLevels (dr_Bids res)) ;;
  asks <-? spot_malformed_by "OrderBook" (binanceSpotBookLevels (dr_Asks res)) ;;
  Ok (mkBookPage instrument bids asks zero_time (limit_page limit), FormatInt (dr_LastUpdateID res)).
Definition perp_OrderBook (ctx : context) (initialized : bool) (prefix : string) instrument (limit : Z) (Depth : string → Z → result sdk_error DepthResponse)
  : result error (OrderBookPage (D:=D) * string) :=
  _ <-? binancePerpReady ctx initialized prefix "OrderBook" ;;
  native <-? perp_invalid_by "OrderBook" (binancePerpRequestSymbols instrument) ;;
  check negb (limit <? 0) else binancePerpInvalidRequest "OrderBook" "limit must be non-negative" ;;
  resp <-? perp_queried "OrderBook" (Depth native limit) ;;
  bids <-? perp_malformed_by "OrderBook" (binancePerpBookLevels (dr_Bids resp)) ;;
  asks <-? perp_malformed_by "OrderBook" (binancePerpBookLevels (dr_Asks resp)) ;;
  Ok (mkBookPage instrument bids asks (FromMilli (dr_T resp)) (limit_page limit), FormatInt (dr_LastUpdateID resp)).

(** ** Candles *)

(** [now] is the clock reading of the row. *)
Definition binancePerpCandle (now : time) (row : list field) : result error (Candle D) :=
  match row with
  | f0 :: f1 :: f2 :: f3 :: f4 :: f5 :: f6 :: _ =>
      openTime <-? binancePerpPositiveInt64 f0 ;;
      closeTime <-? binancePerpPositiveInt64 f6 ;;
      check openTime <? closeTime else EText "kline open time must be before close time" ;;
      open <-? binancePerpPositiveDecimalValue f1 ;;
      high <-? binancePerpPositiveDecimalValue f2 ;;
      low <-? binancePerpPositiveDecimalValue f3 ;;
      close <-? binancePerpPositiveDecimalValue f4 ;;
      volume <-? binancePerpNonNegativeDecimalValue f5 ;;
      let closeAt := FromMilli closeTime in
      Ok (mkCandle (FromMilli openTime) closeAt open high low close volume (negb (After closeAt now)))
  | _ => Err (EText "kline row has too few fields")
  end.
Definition binanceSpotCandle (now : time) (native : list field) : result error (Candle D) :=
  match native with
  | f0 :: f1 :: f2 :: f3 :: f4 :: f5 :: f6 :: _ =>
      openTime <-? binanceSpotKlineMillis f0 ;;
      open <-? binanceSpotKlineDecimal f1 ;;
      high <-? binanceSpotKlineDecimal f2 ;;
      low <-? binanceSpotKlineDecimal f3 ;;
      close <-? binanceSpotKlineDecimal f4 ;;
      volume <-? binanceSpotKlineDecimal f5 ;;
      closeTime <-? binanceSpotKlineMillis f6 ;;
      check Before openTime closeTime else EText "kline open time must be before close time" ;;
      check forallb d_is_positive [open; high; low; close] else EText "kline OHLC prices must be positive" ;;
      check negb (d_is_negative volume) else EText "kline volume must be non-negative" ;;
      Ok (mkCandle openTime closeTime open high low close volume (negb (Before now closeTime)))
  | _ => Err (EText "kline row has fewer than 7 fields")
  end.
Definition numbered {A} (l : list A) : list (nat * A) := zip (seq 0 (length l)) l.
(** [Klines symbol interval limit start end]; [clock] numbers the readings. *)
Definition spot_Candles (ctx : context) (req : CandlesRequest (D:=D)) (clock : nat → time)
    (Klines : string → string → Z → Z → Z → result sdk_error (list (list field))) : result error (CandlePage (D:=D)) :=
  let fail := binanceSpotInvalid "Candles" in
  _ <-? binanceSpotContextErr ctx "Candles" ;;
  symbol <-? binanceSpotSymbols (cq_Instrument req) "Candles" ;;
  check negb (is_empty (TrimSpace (cq_Interval req))) else fail "interval is required" ;;
  check is_empty (cq_Cursor req) else fail "cursor is not supported by Binance Spot klines" ;;
  check negb (cq_Limit req <? 0) else fail "limit must be non-negative" ;;
  check IsZero (cq_Start req) || IsZero (cq_End req) || Before (cq_Start req) (cq_End req) else fail "start must be before end" ;;
  rows <-? spot_queried "Candles" (Klines symbol (cq_Interval req) (cq_Limit req) (binanceMillis (cq_Start req)) (binanceMillis (cq_End req))) ;;
  candles <-? spot_malformed_by "Candles" (map_result (λ '(i, row), binanceSpotCandle (clock i) row) (numbered rows)) ;;
  Ok (mkCandlePage candles (historyPage "" (cq_Limit req) (cq_Start req) (cq_End req))).
Definition perp_Candles (ctx : context) (initialized : bool) (prefix : string) (req : CandlesRequest (D:=D)) (clock : nat → time)
    (Klines : string → string → Z → Z → Z → result sdk_error (list (list field))) : result error (CandlePage (D:=D)) :=
  let fail := binancePerpInvalidRequest "Candles" in
  _ <-? binancePerpReady ctx initialized prefix "Candles" ;;
  native <-? perp_invalid_by "Candles" (binancePerpRequestSymbols (cq_Instrument req)) ;;
  check is_empty (cq_Cursor req) else fail "cursor is not supported by Binance candles" ;;
  check negb (is_empty (TrimSpace (cq_Interval req))) else fail "interval is required" ;;
  check negb (cq_Limit req <? 0) else fail "limit must be non-negative" ;;
  check IsZero (cq_Start req) || IsZero (cq_End req) || After (cq_End req) (cq_Start req) else fail "end must be after start" ;;
  rows <-? perp_queried "Candles" (Klines native (cq_Interval req) (cq_Limit req) (binanceMillis (cq_Start req)) (binanceMillis (cq_End req))) ;;
  candles <-? perp_malformed_by "Candles" (map_result (λ '(i, row), binancePerpCandle (clock i) row) (numbered rows)) ;;
  Ok (mkCandlePage candles (historyPage "" (cq_Limit req) (cq_Start req) (cq_End req))).

(** ** Trades and funding rates *)

Definition binancePublicTrade instrument (row : TradeRow) : result error (PublicTrade (D:=D)) :=
  price <-? positiveDecimal (tr_Price row) ;;
  quantity <-? positiveDecimal (tr_Quantity row) ;;
  Ok (mkHlTrade instrument (FormatInt (tr_ID row)) (if tr_IsBuyerMaker row then SideSell else SideBuy) price quantity (FromMilli (tr_Time row))).
Definition binanceSpotPublicTrade := binancePublicTrade.
Definition binancePerpPublicTrade := binancePublicTrade.
Definition spot_PublicTrades (ctx : context) instrument (limit : Z) (GetTrades : string → Z → result sdk_error (list TradeRow))
  : result error (list (PublicTrade (D:=D)) * PageInfo) :=
  _ <-? binanceSpotContextErr ctx "PublicTrades" ;;
  symbol <-? binanceSpotSymbols instrument "PublicTrades" ;;
  check negb (limit <? 0) else binanceSpotInvalid "PublicTrades" "limit must be non-negative" ;;
  rows <-? spot_queried "PublicTrades" (GetTrades symbol limit) ;;
  trades <-? spot_malformed_by "PublicTrades" (map_result (binanceSpotPublicTrade instrument) rows) ;;
  Ok (trades, limit_page limit).
Definition perp_PublicTrades (ctx : context) (initialized : bool) (prefix : string) instrument (limit : Z)
    (GetAggTrades : string → Z → result sdk_error (list TradeRow)) : result error (list (PublicTrade (D:=D)) * PageInfo) :=
  _ <-? binancePerpReady ctx initialized prefix "PublicTrades" ;;
  symbol <-? perp_invalid_by "PublicTrades" (binancePerpRequestSymbols instrument) ;;
  check negb (limit <? 0) else binancePerpInvalidRequest "PublicTrades" "limit must be non-negative" ;;
  rows <-? perp_queried "PublicTrades" (GetAggTrades symbol limit) ;;
  trades <-? perp_malformed_by "PublicTrades" (map_result (binancePerpPublicTrade instrument) rows) ;;
  Ok (trades, limit_page limit).
Definition FundingRate_now (ctx : context) (initialized : bool) (prefix : string) instrument (GetFundingRate : string → result sdk_error PremiumRow)
  : result error (FundingRate (D:=D)) :=
  let operation := "FundingRate" in
  _ <-? binancePerpReady ctx initialized prefix operation ;;
  symbol <-? perp_invalid_by operation (binancePerpRequestSymbols instrument) ;;
  row <-? perp_queried operation (GetFundingRate symbol) ;;
  rate <-? or_error (signed_decimal (pr_LastFundingRate row)) (binancePerpMalformed operation "invalid funding rate") ;;
  mark <-? or_error (positiveDecimal (pr_MarkPrice row)) (binancePerpMalformed operation "invalid mark price") ;;
  Ok (mkFundingRate symbol "" rate (mkOptDec mark true) (FromMilli (pr_Time row)) zero_time (FromMilli (pr_NextFundingTime row))).
Definition binanceFundingHistory instrument (row : FundingRow) : result error (FundingRate (D:=D)) :=
  rate <-? signed_decimal (fr_FundingRate row) ;;
  mark <-? (if is_empty (fr_MarkPrice row) then Ok no_decimal else mark <-? positiveDecimal (fr_MarkPrice row) ;; Ok (mkOptDec mark true)) ;;
  Ok (mkFundingRate (id_NativeSymbol (in_Identity instrument)) "" rate mark zero_time (FromMilli (fr_FundingTime row)) zero_time).
Definition FundingRateHistory (ctx : context) (initialized : bool) (prefix : string) instrument (start stop : time) (cursor : string) (limit : Z)
    (GetFundingRateHistory : string → Z → Z → Z → result sdk_error (list FundingRow)) : result error (list (FundingRate (D:=D)) * PageInfo) :=
  let operation := "FundingRateHistory" in
  _ <-? binancePerpReady ctx initialized prefix operation ;;
  symbol <-? perp_invalid_by operation (binancePerpRequestSymbols instrument) ;;
  _ <-? perp_invalid_by operation (validateBoundedHistory limit start stop) ;;
  check is_empty cursor else binancePerpInvalidRequest operation "cursor is not supported" ;;
  rows <-? perp_queried operation (GetFundingRateHistory symbol (optionalMillis start) (optionalMillis stop) limit) ;;
  rates <-? perp_malformed_by operation (map_result (binanceFundingHistory instrument) rows) ;;
  Ok (rates, historyPage "" limit start stop).
End binance.

(** ** Loaded instruments can be traded *)

Lemma string_map_app f a b : string_map f (a +:+ b) = string_map f a +:+ string_map f b.
Proof. induction a as [|c a IH]; [done|]. change (String c a +:+ b) with (String c (a +:+ b)). cbn. by rewrite IH. Qed.
Lemma upper_app a b : ToUpper (a +:+ b) = a +:+ b → ToUpper a = a ∧ ToUpper b = b.
Proof.
  unfold ToUpper. rewrite string_map_app. induction a as [|c a IH]; [done|]. change (String c a +:+ b) with (String c (a +:+ b)). cbn [string_map].
  change (String ?x ?y +:+ ?z) with (String x (y +:+ z)). intros [= Hc Hr]. destruct (IH Hr) as [-> ->]. by rewrite Hc.
Qed.
Lemma upper_alnum_upper c : upper_alnum c = true → upper_byte c = c ∧ graphic c = true ∧ Ascii.eqb c "/" = false ∧ Ascii.eqb c "-" = false.
Proof. destruct c as [[] [] [] [] [] [] [] []]; vm_compute; intros; split_and!; done || discriminate. Qed.
Lemma alnum_solid s : string_forallb upper_alnum s = true → ToUpper s = s ∧ TrimSpace s = s ∧ Contains s "/" = false ∧ Split "-" s = [s].
Proof.
  intros Hs. split_and!.
  - induction s as [|c s IH]; [done|]. cbn in Hs. apply andb_true_iff in Hs as [Hc Hs]. unfold ToUpper in *. cbn. destruct (upper_alnum_upper c Hc) as [-> _]. by rewrite (IH Hs).
  - apply TrimSpace_graphic. eapply string_forallb_impl; [|exact Hs]. intros c Hc. by apply upper_alnum_upper.
  - induction s as [|c s IH]; [done|]. cbn in Hs. apply andb_true_iff in Hs as [Hc Hs]. cbn [Contains]. rewrite (IH Hs), orb_false_r. cbn [String.prefix].
    destruct (ascii_dec "/" c) as [<-|]; [|done]. vm_compute in Hc. discriminate.
  - induction s as [|c s IH]; [done|]. cbn in Hs. apply andb_true_iff in Hs as [Hc Hs]. cbn [Split]. rewrite (IH Hs). destruct (upper_alnum_upper c Hc) as (_ & _ & _ & ->). done.
Qed.

Section loaded.
Context `{Decimal D} `{DecimalText D}.
Context (parse_error : string → string).
Implicit Types (i : Instrument D) (one : list string → SymbolInfo → result error (option (string * Instrument D))).

(** A symbol the requests accept is read back from a row as itself. *)
Lemma binancePerpNativeSymbols_back i native : binancePerpRequestSymbols i = Ok native → binancePerpNativeSymbols native = Ok native.
Proof.
  unfold binancePerpRequestSymbols. intros ([] & Hv & E)%bind_Ok. cbv zeta in E. rewrite !check_Ok, !String.eqb_eq in E.
  destruct E as (_ & _ & _ & Hn & _ & Ha & Hq & [= <-]). pose proof (alnum_solid _ Ha) as (Hup & Htrim & Hc & Hsplit).
  assert (Hb : id_BaseAsset (in_Identity i) ≠ "").
  { intros E. unfold Instrument_Validate in Hv. rewrite check_Ok in Hv. destruct Hv as [Hb _]. rewrite E in Hb. cbn in Hb. by rewrite orb_true_r in Hb. }
  unfold binancePerpNativeSymbols, without_hyphens. rewrite Htrim, Hc, Hsplit, String.eqb_refl. cbn [Join negb andb]. rewrite Hup, Ha.
  assert (Hne : is_empty (id_NativeSymbol (in_Identity i)) = false).
  { rewrite Hn. unfold is_empty. apply String.eqb_neq. by destruct (id_BaseAsset (in_Identity i)). }
  rewrite Hne. cbn [negb]. assert (Hs : List.existsb (λ quote, HasSuffix (id_NativeSymbol (in_Identity i)) quote && (String.length quote <? String.length (id_NativeSymbol (in_Identity i)))%nat) ["USDT"; "USDC"] = true); [|by rewrite Hs].
  assert (Hlen : (0 < String.length (id_BaseAsset (in_Identity i)))%nat) by (destruct (id_BaseAsset (in_Identity i)); [done|cbn; lia]).
  unfold one_of in Hq. apply existsb_exists in Hq as (quote & Hin & Hq). apply String.eqb_eq in Hq. apply existsb_exists. exists quote. split; [done|].
  rewrite Hn, Hq, string_length_app. rewrite (proj2 (Nat.ltb_lt _ _)) by lia. rewrite HasSuffix_app by done. rewrite Nat.sub_diag. cbn [drop_string]. by rewrite String.eqb_refl.
Qed.

(** What the loop over the symbols yields is the instrument of some row. *)
Lemma symbols_from_row one seen rows l i :
  symbols_from one seen rows = Ok l → i ∈ l → ∃ seen' row key, row ∈ rows ∧ one seen' row = Ok (Some (key, i)).
Proof.
  revert seen l. induction rows as [|row rows IH]; intros seen l; cbn; [by intros [= <-] ?%elem_of_nil|]. intros ([[key j]|] & Hr & E)%bind_Ok.
  - apply bind_Ok in E as (l' & Hl & [= <-]). intros [->|Hi]%elem_of_cons; [exists seen, row, key; split; [by left|done]|].
    destruct (IH _ _ Hl Hi) as (seen' & row' & key' & ? & ?). exists seen', row', key'. split; [by right|done].
  - intros Hi. destruct (IH _ _ E Hi) as (seen' & row' & key' & ? & ?). exists seen', row', key'. split; [by right|done].
Qed.
(** The identity of a loaded instrument passes the checks of the requests. *)
Lemma perp_symbol_accepted seen row key i :
  perp_symbol seen row = Ok (Some (key, i)) → Instrument_Validate i = Ok tt → binancePerpRequestSymbols i = Ok (si_Symbol row) ∧ id_NativeSymbol (in_Identity i) = si_Symbol row.
Proof.
  unfold perp_symbol. destruct (negb _); [done|]. destruct (negb _); [done|]. intros ([canonical|] & Hs & E)%bind_Ok; [|done]. rewrite !check_Ok in E.
  destruct E as (Hm & _ & E). apply bind_Ok in E as (f & _ & E). injection E as <- <-. apply andb_true_iff in Hm as [_ Hm%String.eqb_eq].
  unfold binancePerpPublicInstrumentSymbols in Hs. destruct (negb _); [done|]. destruct (_ || _); [done|]. cbv zeta in Hs. apply bind_Ok in Hs as (native & Hn & Hs).
  rewrite check_Ok, String.eqb_eq in Hs. destruct Hs as [Hnat [= <-]]. intros Hv. split; [|done]. unfold binancePerpRequestSymbols in *. rewrite Hv.
  apply bind_Ok in Hn as (u & _ & Hn). cbn [newBinance newInstrument in_Identity id_Venue id_Product id_Symbol id_BaseAsset id_QuoteAsset id_SettleAsset id_NativeSymbol] in *.
  assert (Hsym : si_Symbol row = si_BaseAsset row +:+ si_QuoteAsset row) by (rewrite !check_Ok in Hn; rewrite Hnat; naive_solver).
  by rewrite Hm, Hsym, Hn, <- Hnat, Hsym.
Qed.
Lemma spot_symbol_accepted seen row key i operation :
  spot_symbol parse_error seen row = Ok (Some (key, i)) → Instrument_Validate i = Ok tt →
  binanceSpotSymbols i operation = Ok (si_Symbol row) ∧ id_NativeSymbol (in_Identity i) = si_Symbol row.
Proof.
  unfold spot_symbol. destruct (negb _); [done|]. intros (normalized & Hs & E)%bind_Ok. rewrite !check_Ok in E. destruct E as (_ & E). apply bind_Ok in E as (f & _ & E).
  injection E as <- <-. intros Hv. split; [|done]. unfold binanceSpotNormalizeVenueSymbol in Hs. rewrite !check_Ok, !String.eqb_eq in Hs. destruct Hs as (_ & Hu & Hn & [= <-]).
  unfold binanceSpotSymbols. rewrite Hv. cbn [newInstrument in_Identity id_Venue id_Product id_Symbol id_BaseAsset id_QuoteAsset id_SettleAsset id_NativeSymbol].
  rewrite Hn in Hu |- *. symmetry in Hu. pose proof Hu as Hu'. apply upper_app in Hu' as [Hb Hq].
  assert (Hc : ToUpper (si_BaseAsset row +:+ "-" +:+ si_QuoteAsset row) = si_BaseAsset row +:+ "-" +:+ si_QuoteAsset row).
  { unfold ToUpper in *. rewrite !string_map_app, Hb, Hq. done. }
  rewrite Hu, Hc, !String.eqb_refl. done.
Qed.

(** Every instrument of a loaded catalog that is valid is one the client's
    requests accept, under the symbol the venue lists; a perpetual's symbol is
    read back from rows as itself. *)
Lemma loaded_accepted product info scope now snap i :
  LoadInstruments parse_error product info scope now = Ok snap → i ∈ sn_Instruments snap → Instrument_Validate i = Ok tt →
  (product = ProductSpot ∧ ∀ operation, binanceSpotSymbols i operation = Ok (id_NativeSymbol (in_Identity i))) ∨
  (product = ProductPerp ∧ binancePerpRequestSymbols i = Ok (id_NativeSymbol (in_Identity i)) ∧
   binancePerpNativeSymbols (id_NativeSymbol (in_Identity i)) = Ok (id_NativeSymbol (in_Identity i))).
Proof.
  unfold LoadInstruments. intros (l & Hl & [= <-])%bind_Ok. cbn [sn_Instruments]. unfold filterInstrumentsForScope.
  intros [Hi _]%list_elem_of_In%List.filter_In Hv. apply list_elem_of_In in Hi. destruct (String.eqb_spec product ProductSpot) as [->|]; [left|right; destruct (String.eqb_spec product ProductPerp) as [->|]; [|done]].
  - split; [done|]. intros operation. apply bind_Ok in Hl as ([rows|] & _ & Hl); [|done]. destruct (symbols_from_row _ _ _ _ _ Hl Hi) as (seen & row & key & _ & Hr).
    by destruct (spot_symbol_accepted _ _ _ _ operation Hr Hv) as [-> ->].
  - apply bind_Ok in Hl as ([rows|] & _ & Hl); [|done]. destruct (symbols_from_row _ _ _ _ _ Hl Hi) as (seen & row & key & _ & Hr).
    destruct (perp_symbol_accepted _ _ _ _ Hr Hv) as [Ha ->]. split; [done|]. split; [done|]. by eapply binancePerpNativeSymbols_back.
Qed.
End loaded.
