(* ===== verification/BinanceRest.v ===== *)
(** * Binance: orders and accounts

    The private half of [exchange/internal/factoryclient/binance_spot_rest.go],
    [binance_perp_rest.go] and [binance_rest_extended.go], with
    [exact_lookup_binance.go]: placing and cancelling, listings, fills and their
    cursors, the account, positions, leverage, funding payments and the lookup of
    one order. *)

From Stdlib Require Import Ascii String ZArith Lia QArith Qcanon Sorted.
From stdpp Require Import base list strings gmap.
From S2P Require Import Prelude GoStrings Decimals DecimalText Errors Model HttpErrors Orders InstrumentCatalog Sockets AccountFeed Clients.
From S2P Require Import HyperliquidMarkets VenueErrors Commands FundingLoaders DerivativeLoaders BinanceMarkets.

#[local] Open Scope string_scope.
#[local] Open Scope list_scope.
#[local] Open Scope Z_scope.
#[local] Open Scope go_scope.

(** ** Venue rows and requests *)

(** [spot.PlaceOrderParams] and [perp.PlaceOrderParams], the fields set *)
Record PlaceOrderParams := mkParams {
  pp_Symbol : string; pp_Side : string; pp_Type : string; pp_TimeInForce : string; pp_Quantity : string; pp_Price : string; pp_NewClientOrderID : string;
  pp_ReduceOnly : bool; pp_NewOrderRespType : string;
}.
(** [perp.OrderResponse] and [spot.OrderResponse] *)
Record PerpOrder := mkPerpOrder {
  bo_ClientOrderID : string; bo_ExecutedQty : string; bo_OrderID : Z; bo_AvgPrice : string; bo_OrigQty : string; bo_Price : string; bo_ReduceOnly : bool;
  bo_Side : string; bo_PositionSide : string; bo_Status : string; bo_ClosePosition : bool; bo_Symbol : string; bo_TimeInForce : string; bo_Type : string; bo_UpdateTime : Z;
}.
Record SpotOrder := mkSpotOrder {
  sr_Symbol : string; sr_OrderID : Z; sr_ClientOrderID : string; sr_Price : string; sr_OrigQty : string; sr_ExecutedQty : string; sr_CummulativeQuoteQty : string;
  sr_Status : string; sr_TimeInForce : string; sr_Type : string; sr_Side : string;
}.
(** [spot.Trade] and [perp.Trade] *)
Record MyTrade := mkMyTrade {
  mt_Symbol : string; mt_ID : Z; mt_OrderID : Z; mt_Price : string; mt_Qty : string; mt_Commission : string; mt_CommissionAsset : string; mt_Time : Z;
  mt_IsBuyer : bool; mt_IsMaker : bool;
}.
Record SpotBalance := mkSpotBalance { sb_Asset : string; sb_Free : string; sb_Locked : string }.
Record PerpAsset := mkPerpAsset { as_Asset : string; as_WalletBalance : string; as_AvailableBalance : string }.
Record AccountResponse := mkAccountResponse {
  ar_Assets : list PerpAsset; ar_TotalMarginBalance : string; ar_MaxWithdrawAmount : string; ar_TotalInitialMargin : string; ar_TotalPositionInitialMargin : string;
  ar_TotalOpenOrderInitialMargin : string; ar_TotalUnrealizedProfit : string;
}.
Record PositionRisk := mkPositionRisk {
  rk_Symbol : string; rk_PositionAmt : string; rk_EntryPrice : string; rk_MarkPrice : string; rk_UnRealizedProfit : string; rk_LiquidationPrice : string; rk_Leverage : string;
  rk_IsolatedMargin : string; rk_PositionSide : string;
}.
Record IncomeQuery := mkIncomeQuery { iq_Symbol : string; iq_IncomeType : string; iq_StartTime : Z; iq_EndTime : Z; iq_Page : Z; iq_Limit : Z }.
Record Income := mkIncome { ic_Symbol : string; ic_IncomeType : string; ic_Income : string; ic_Asset : string; ic_Time : Z; ic_TranID : Z; ic_TradeID : string }.

Definition binanceFillNextCursor (fillID : string) : option (option string) :=
  match ParseInt fillID with
  | Some id => if id <? 0 then None else if id =? int64_max then Some None else Some (Some (FormatInt (id + 1)))
  | None => None
  end.
Definition binancePerpSide (side : string) : string := if String.eqb side SideBuy then "BUY" else "SELL".
Definition binancePerpExchangeSide (side : string) : result error string :=
  if String.eqb side "BUY" then Ok SideBuy else if String.eqb side "SELL" then Ok SideSell else Err (EText "unknown native order side").
Definition binancePerpPositionSlot (value : string) : result error string :=
  let value := ToUpper (TrimSpace value) in
  if one_of value [""; "BOTH"] then Ok PositionSlotNet
  else if String.eqb value "LONG" then Ok PositionSlotLong
  else if String.eqb value "SHORT" then Ok PositionSlotShort
  else Err (binancePerpMalformed "Positions" "position side is invalid").
(** [None] stands for a cursor that does not parse. *)
Definition binancePerpParseCursor (cursor : string) : option Z :=
  if is_empty cursor then Some 0
  else match ParseInt cursor with Some fromID => if fromID <=? 0 then None else Some fromID | None => None end.
Definition binanceSpotOrderID (orderID operation : string) : result error Z :=
  check negb (is_empty (TrimSpace orderID)) else binanceSpotInvalid operation "order id is required" ;;
  match ParseInt orderID with
  | Some parsed => check (0 <? parsed) && String.eqb (FormatInt parsed) orderID else binanceSpotInvalid operation "order id must be a positive integer" ;; Ok parsed
  | None => Err (binanceSpotInvalid operation "order id must be a positive integer")
  end.

Section orders.
Context `{Decimal D} `{DecimalText D}.
(** The texts of the decimal library's errors, and the [%q] verb *)
Context (parse_error : string → string) (Quote : string → string).
Implicit Types (instrument : Instrument D) (req : PlaceOrderRequest D).
Local Notation reply := (OrderAcknowledgement D * option error)%type.
Local Notation nonnegative := (binancePerpNonNegativeDecimal parse_error).
Local Notation positive := (binancePerpPositiveDecimal parse_error).
Local Notation optional := (binancePerpOptional parse_error).

(** ** Placing *)

Definition binanceSpotPlaceParams (symbol side : string) req : PlaceOrderParams :=
  let params type tif price := mkParams symbol side type tif (d_string (po_Quantity req)) price (po_ClientOrderID req) false "RESULT" in
  if String.eqb (po_Type req) OrderTypeMarket then params "MARKET" "" ""
  else
    let price := d_string (po_LimitPrice req) in
    if String.eqb (po_LimitPolicy req) LimitPolicyIOC then params "LIMIT" "IOC" price
    else if String.eqb (po_LimitPolicy req) LimitPolicyPostOnly then params "LIMIT_MAKER" "" price
    else params "LIMIT" "GTC" price.
Definition binancePerpPlaceParams (symbol : string) req : PlaceOrderParams :=
  let params type tif price :=
    mkParams symbol (binancePerpSide (po_Side req)) type tif (d_string (po_Quantity req)) price (po_ClientOrderID req) (po_ReduceOnly req) "RESULT" in
  if String.eqb (po_Type req) OrderTypeMarket then params "MARKET" "" ""
  else
    let price := d_string (po_LimitPrice req) in
    if String.eqb (po_LimitPolicy req) LimitPolicyIOC then params "LIMIT" "IOC" price
    else if String.eqb (po_LimitPolicy req) LimitPolicyPostOnly then params "LIMIT" "GTX" price
    else params "LIMIT" "GTC" price.

Definition binancePerpAck (operation : string) instrument (orderID clientOrderID : string) : OrderAcknowledgement D :=
  command_ack VenueBinance ProductPerp operation "" (native_of instrument) "" orderID clientOrderID.
Definition filled_ack (ack : OrderAcknowledgement D) (state type : string) (filled : D) (average : OptionalDecimal D) : OrderAcknowledgement D :=
  mkAck (ack_Venue ack) (ack_Product ack) (ack_Operation ack) state (ack_NativeSymbol ack) (ack_NativeID ack) type (ack_OrderID ack) (ack_ClientOrderID ack)
    (ack_TransactionHash ack) filled average (ack_VenueCode ack) (ack_VenueMessage ack).
(** [binancePerpOrderAck]; a nil response is [None]. *)
Definition binancePerpOrderAck (operation : string) instrument (expectedOrderID expectedClientOrderID : string) (response : option PerpOrder)
  : result error (OrderAcknowledgement D) :=
  let fail := binancePerpMalformed operation in
  match response with
  | None => Err (fail "missing order response")
  | Some resp =>
      check 0 <? bo_OrderID resp else fail "invalid response order id" ;;
      native <-? perp_malformed_by operation (binancePerpNativeSymbols (bo_Symbol resp)) ;;
      check String.eqb native (native_of instrument) else fail "response instrument mismatch" ;;
      let nativeOrderID := FormatInt (bo_OrderID resp) in
      check is_empty expectedOrderID || String.eqb nativeOrderID expectedOrderID else fail "response order id mismatch" ;;
      check is_empty expectedClientOrderID || String.eqb (bo_ClientOrderID resp) expectedClientOrderID else fail "response client order id mismatch" ;;
      check one_of (bo_PositionSide resp) [""; "BOTH"] else fail "hedge position side is not supported" ;;
      check negb (bo_ClosePosition resp) else fail "close-position order shape is not supported" ;;
      let ack := command_ack VenueBinance ProductPerp operation "" native "" nativeOrderID (bo_ClientOrderID resp) in
      ack <-?
        (if String.eqb operation OrderOperationPlace then
           type <-? (if String.eqb (bo_Type resp) "MARKET" then Ok OrderTypeMarket
                     else if String.eqb (bo_Type resp) "LIMIT" then Ok OrderTypeLimit
                     else Err (fail "unknown place acknowledgement order type")) ;;
           state <-? (if String.eqb (bo_Status resp) "NEW"
                      then Ok (if String.eqb type OrderTypeMarket then AckAcceptedPending else AckResting)
                      else if String.eqb (bo_Status resp) "PARTIALLY_FILLED" then Ok AckPartiallyFilled
                      else if String.eqb (bo_Status resp) "FILLED" then Ok AckImmediatelyFilled
                      else Err (fail "unknown place acknowledgement status")) ;;
           filled <-? or_error (nonnegative (bo_ExecutedQty resp)) (fail "invalid executed quantity") ;;
           average <-? (if is_empty (TrimSpace (bo_AvgPrice resp)) then Ok no_decimal
                        else avg <-? or_error (nonnegative (bo_AvgPrice resp)) (fail "invalid average fill price") ;;
                             Ok (if d_is_positive avg then mkOptDec avg true else no_decimal)) ;;
           Ok (filled_ack ack state type filled average)
         else if String.eqb operation OrderOperationCancel then Ok (set_ack_state ack AckAcceptedPending)
         else Err (fail "unknown order operation")) ;;
      _ <-? Ack_Validate ack ;;
      Ok ack
  end.
Definition acknowledged (r : result error (OrderAcknowledgement D)) : reply := match r with Ok ack => (ack, None) | Err e => (no_ack, Some e) end.
(** After the SDK's call *)
Definition perp_placed req (answer : result sdk_error (option PerpOrder)) : reply :=
  match answer with
  | Err s => binancePerpCommandErrorAck "PlaceOrder" (binancePerpAck OrderOperationPlace (po_Instrument req) "" (po_ClientOrderID req)) s
  | Ok resp =>
      match binancePerpOrderAck OrderOperationPlace (po_Instrument req) "" (po_ClientOrderID req) resp with
      | Err e => (no_ack, Some e)
      | Ok ack =>
          if negb (Bool.eqb (match resp with Some r => bo_ReduceOnly r | None => false end) (po_ReduceOnly req))
          then (no_ack, Some (binancePerpMalformed "PlaceOrder" "response reduce-only does not match request"))
          else if negb (String.eqb (ack_OrderType ack) (po_Type req))
          then (no_ack, Some (binancePerpMalformed "PlaceOrder" "response order type does not match request"))
          else (ack, match Ack_Validate ack with Ok _ => None | Err e => Some e end)
      end
  end.
(** [PlaceOrder]: what is sent, if anything, and what is returned *)
Definition perp_PlaceOrder (ctx : context) (initialized : bool) (prefix : string) req (send : PlaceOrderParams → result sdk_error (option PerpOrder))
  : option PlaceOrderParams * reply :=
  match
    (_ <-? binancePerpReady ctx initialized prefix "PlaceOrder" ;;
     _ <-? perp_invalid_by "PlaceOrder" (PlaceOrder_Validate req ProductPerp) ;;
     perp_invalid_by "PlaceOrder" (binancePerpRequestSymbols (po_Instrument req)))
  with
  | Err e => (None, (no_ack, Some e))
  | Ok native => let params := binancePerpPlaceParams native req in (Some params, perp_placed req (send params))
  end.
Definition binanceSpotAckState (status : string) : result error string :=
  if String.eqb status "NEW" then Ok AckResting
  else if String.eqb status "PARTIALLY_FILLED" then Ok AckPartiallyFilled
  else if String.eqb status "FILLED" then Ok AckImmediatelyFilled
  else Err (EText ("unsupported order acknowledgement status " +:+ Quote status)).
Definition spot_nonnegative (text : string) (e : error) : result error D :=
  match d_new_from_string text with Some d => check negb (d_is_negative d) else e ;; Ok d | None => Err e end.
Definition spot_placed (symbol : string) req (answer : result sdk_error SpotOrder) : reply :=
  match answer with
  | Err s => binanceSpotCommandAck (po_Instrument req) OrderOperationPlace "PlaceOrder" "" (po_ClientOrderID req) s
  | Ok res =>
      let fail := binanceSpotMalformed "PlaceOrder" in
      acknowledged (
        check String.eqb (sr_Symbol res) symbol else fail "response symbol does not match requested instrument" ;;
        check is_empty (po_ClientOrderID req) || String.eqb (sr_ClientOrderID res) (po_ClientOrderID req)
          else fail "response client order id does not match request" ;;
        check 0 <? sr_OrderID res else fail "response order id must be positive" ;;
        state <-? spot_malformed_by "PlaceOrder" (binanceSpotAckState (sr_Status res)) ;;
        filled <-? spot_nonnegative (sr_ExecutedQty res) (fail "invalid executed quantity") ;;
        average <-? (if d_is_positive filled then
                       quote <-? spot_nonnegative (sr_CummulativeQuoteQty res) (fail "invalid cumulative quote quantity") ;;
                       Ok (if d_is_positive quote then mkOptDec (d_div quote filled) true else no_decimal)
                     else Ok no_decimal) ;;
        let ack := filled_ack (command_ack VenueBinance ProductSpot OrderOperationPlace "" (native_of (po_Instrument req)) "" (FormatInt (sr_OrderID res)) (sr_ClientOrderID res))
          state (po_Type req) filled average in
        _ <-? Ack_Validate ack ;;
        Ok ack)
  end.
Definition spot_PlaceOrder (ctx : context) req (send : PlaceOrderParams → result sdk_error SpotOrder) : option PlaceOrderParams * reply :=
  match
    (_ <-? binanceSpotContextErr ctx "PlaceOrder" ;;
     symbol <-? binanceSpotSymbols (po_Instrument req) "PlaceOrder" ;;
     _ <-? or_error (PlaceOrder_Validate req ProductSpot) (binanceSpotInvalid "PlaceOrder" "invalid normalized order request") ;;
     Ok symbol)
  with
  | Err e => (None, (no_ack, Some e))
  | Ok symbol =>
      let params := binanceSpotPlaceParams symbol (if String.eqb (po_Side req) SideSell then "SELL" else "BUY") req in
      (Some params, spot_placed symbol req (send params))
  end.

(** ** Cancelling *)

Definition binancePerpValidateCancel (request : CancelOrderRequest (D:=D)) : result error unit :=
  _ <-? binancePerpRequestSymbols (co_Instrument request) ;;
  match ParseInt (co_OrderID request) with
  | Some orderID =>
      check (0 <? orderID) && String.eqb (FormatInt orderID) (co_OrderID request) else EText "order id must be a positive decimal int64" ;; Ok tt
  | None => Err (EText "order id must be a positive decimal int64")
  end.
(** [CancelOrder]: the symbol and the order id sent, if any *)
Definition perp_CancelOrder (ctx : context) (initialized : bool) (prefix : string) (request : CancelOrderRequest (D:=D))
    (send : string → string → result sdk_error (option PerpOrder)) : option (string * string) * reply :=
  match
    (_ <-? binancePerpReady ctx initialized prefix "CancelOrder" ;;
     perp_invalid_by "CancelOrder" (binancePerpValidateCancel request))
  with
  | Err e => (None, (no_ack, Some e))
  | Ok _ =>
      let native := match binancePerpRequestSymbols (co_Instrument request) with Ok native => native | Err _ => "" end in
      (Some (native, co_OrderID request),
       match send native (co_OrderID request) with
       | Err s => binancePerpCommandErrorAck "CancelOrder" (binancePerpAck OrderOperationCancel (co_Instrument request) (co_OrderID request) "") s
       | Ok resp => acknowledged (binancePerpOrderAck OrderOperationCancel (co_Instrument request) (co_OrderID request) "" resp)
       end)
  end.
Definition spot_CancelOrder (ctx : context) (request : CancelOrderRequest (D:=D)) (send : string → Z → result sdk_error SpotOrder)
  : option (string * Z) * reply :=
  match
    (_ <-? binanceSpotContextErr ctx "CancelOrder" ;;
     symbol <-? binanceSpotSymbols (co_Instrument request) "CancelOrder" ;;
     orderID <-? binanceSpotOrderID (co_OrderID request) "CancelOrder" ;;
     Ok (symbol, orderID))
  with
  | Err e => (None, (no_ack, Some e))
  | Ok (symbol, orderID) =>
      (Some (symbol, orderID),
       match send symbol orderID with
       | Err s => binanceSpotCommandAck (co_Instrument request) OrderOperationCancel "CancelOrder" (co_OrderID request) "" s
       | Ok res =>
           let fail := binanceSpotMalformed "CancelOrder" in
           acknowledged (
             check String.eqb (sr_Symbol res) symbol else fail "response symbol does not match requested instrument" ;;
             check 0 <? sr_OrderID res else fail "response order id must be positive" ;;
             check is_empty (co_OrderID request) || (sr_OrderID res =? orderID) else fail "response order id does not match request" ;;
             let ack := command_ack VenueBinance ProductSpot OrderOperationCancel AckAcceptedPending (native_of (co_Instrument request)) ""
               (FormatInt (sr_OrderID res)) (sr_ClientOrderID res) in
             _ <-? Ack_Validate ack ;;
             Ok ack)
       end)
  end.

(** ** Rows *)

Definition binancePerpOrder (resp : PerpOrder) : result error (Order D) :=
  check 0 <? bo_OrderID resp else EText "invalid order id" ;;
  check 0 <? bo_UpdateTime resp else EText "invalid order update time" ;;
  native <-? binancePerpNativeSymbols (bo_Symbol resp) ;;
  check one_of (bo_PositionSide resp) [""; "BOTH"] else EText "hedge position side is not supported" ;;
  check negb (bo_ClosePosition resp) else EText "close-position order shape is not supported" ;;
  quantity <-? nonnegative (bo_OrigQty resp) ;;
  price <-? nonnegative (bo_Price resp) ;;
  filled <-? nonnegative (bo_ExecutedQty resp) ;;
  avgPrice <-? (if is_empty (bo_AvgPrice resp) then Ok no_decimal
                else avg <-? nonnegative (bo_AvgPrice resp) ;; Ok (if d_is_zero avg then no_decimal else mkOptDec avg true)) ;;
  side <-? binancePerpExchangeSide (bo_Side resp) ;;
  shape <-? (if String.eqb (bo_Type resp) "MARKET" then Ok (OrderTypeMarket, "")
             else if one_of (bo_Type resp) ["LIMIT"; ""] then
               Ok (OrderTypeLimit,
                   if String.eqb (bo_TimeInForce resp) "IOC" then LimitPolicyIOC
                   else if String.eqb (bo_TimeInForce resp) "GTX" then LimitPolicyPostOnly else LimitPolicyResting)
             else Err (EText "unsupported order type")) ;;
  Ok (mkOrder native "" (FormatInt (bo_OrderID resp)) (bo_ClientOrderID resp) side shape.1 quantity price shape.2 (bo_ReduceOnly resp) filled avgPrice
        (ToLower (bo_Status resp)) zero_time (FromMilli (bo_UpdateTime resp))).
Definition binanceSpotSide (side : string) : result error string :=
  if String.eqb side "BUY" then Ok SideBuy else if String.eqb side "SELL" then Ok SideSell else Err (EText ("unknown side " +:+ Quote side)).
Definition binanceSpotOrder (expectedSymbol nativeSymbol : string) (native : SpotOrder) : result error (Order D) :=
  check is_empty expectedSymbol || String.eqb (sr_Symbol native) expectedSymbol else EText "order symbol does not match requested instrument" ;;
  let nativeSymbol := if is_empty nativeSymbol then sr_Symbol native else nativeSymbol in
  check 0 <? sr_OrderID native else EText "order id must be positive" ;;
  quantity <-? spot_nonnegative (sr_OrigQty native) (EText "order quantity must be non-negative decimal") ;;
  price <-? spot_nonnegative (sr_Price native) (EText "order price must be non-negative decimal") ;;
  filled <-? spot_nonnegative (sr_ExecutedQty native) (EText "order filled quantity must be non-negative decimal") ;;
  side <-? binanceSpotSide (sr_Side native) ;;
  shape <-? (if String.eqb (sr_Type native) "MARKET" then Ok (OrderTypeMarket, "")
             else if String.eqb (sr_Type native) "LIMIT_MAKER" then Ok (OrderTypeLimit, LimitPolicyPostOnly)
             else if one_of (sr_Type native) ["LIMIT"; ""] then
               Ok (OrderTypeLimit, if String.eqb (sr_TimeInForce native) "IOC" then LimitPolicyIOC else LimitPolicyResting)
             else Err (EText "unsupported order type")) ;;
  let average :=
    match d_new_from_string (sr_CummulativeQuoteQty native) with
    | Some quote => if d_is_positive filled && d_is_positive quote then mkOptDec (d_div quote filled) true else no_decimal
    | None => no_decimal
    end in
  Ok (mkOrder nativeSymbol "" (FormatInt (sr_OrderID native)) (sr_ClientOrderID native) side shape.1 quantity price shape.2 false filled average
        (sr_Status native) zero_time zero_time).
Definition trade_fill (native : string) (price quantity fee : D) (trade : MyTrade) : Fill D :=
  mkFill native "" (FormatInt (mt_OrderID trade)) "" (FormatInt (mt_ID trade)) (if mt_IsBuyer trade then SideBuy else SideSell) price quantity fee
    (mt_CommissionAsset trade) (if mt_IsMaker trade then "maker" else "taker") (FromMilli (mt_Time trade)).
Definition binancePerpFill (trade : MyTrade) : result error (Fill D) :=
  check 0 <? mt_ID trade else EText "invalid trade id" ;;
  check 0 <? mt_OrderID trade else EText "invalid trade order id" ;;
  check 0 <? mt_Time trade else EText "invalid trade time" ;;
  native <-? binancePerpNativeSymbols (mt_Symbol trade) ;;
  price <-? positive (mt_Price trade) ;;
  quantity <-? positive (mt_Qty trade) ;;
  match d_new_from_string (mt_Commission trade) with
  | None => Err (EText (parse_error (mt_Commission trade)))
  | Some fee => Ok (trade_fill native price quantity fee trade)
  end.
Definition spot_positive_text (text : string) (e : error) : result error D :=
  match d_new_from_string text with Some d => check d_is_positive d else e ;; Ok d | None => Err e end.
Definition binanceSpotFill (expectedSymbol nativeSymbol : string) (native : MyTrade) : result error (Fill D) :=
  check is_empty expectedSymbol || String.eqb (mt_Symbol native) expectedSymbol else EText "fill symbol does not match requested instrument" ;;
  let nativeSymbol := if is_empty nativeSymbol then mt_Symbol native else nativeSymbol in
  check 0 <? mt_ID native else EText "fill id must be positive" ;;
  check 0 <? mt_OrderID native else EText "fill order id must be positive" ;;
  check 0 <? mt_Time native else EText "fill time must be positive" ;;
  price <-? spot_positive_text (mt_Price native) (EText "fill price must be positive decimal") ;;
  quantity <-? spot_positive_text (mt_Qty native) (EText "fill quantity must be positive decimal") ;;
  match d_new_from_string (mt_Commission native) with
  | None => Err (EText "fill fee must be a decimal")
  | Some fee => Ok (trade_fill nativeSymbol price quantity fee native)
  end.
Definition binancePerpPosition (resp : PositionRisk) : result error (Position D) :=
  native <-? binancePerpNativeSymbols (rk_Symbol resp) ;;
  quantity <-? binancePerpDecimal parse_error (rk_PositionAmt resp) ;;
  entry <-? nonnegative (rk_EntryPrice resp) ;;
  mark <-? nonnegative (rk_MarkPrice resp) ;;
  pnl <-? binancePerpDecimal parse_error (rk_UnRealizedProfit resp) ;;
  liquidation <-? optional (rk_LiquidationPrice resp) ;;
  leverage <-? optional (rk_Leverage resp) ;;
  marginUsed <-? optional (rk_IsolatedMargin resp) ;;
  slot <-? binancePerpPositionSlot (rk_PositionSide resp) ;;
  let side := if String.eqb slot PositionSlotShort || (String.eqb slot PositionSlotNet && d_is_negative quantity) then SideSell else SideBuy in
  Ok (mkPosition native "" slot side quantity entry mark pnl liquidation leverage marginUsed).

(** ** Listings *)

(** The native symbol of an optional instrument, empty without one *)
Definition perp_optional (operation : string) (requested : option (Instrument D)) : result error string :=
  match requested with None => Ok "" | Some i => perp_invalid_by operation (binancePerpRequestSymbols i) end.
Definition spot_OpenOrders (ctx : context) (requested : option (Instrument D)) (cursor : string) (limit : Z)
    (GetOpenOrders : string → result sdk_error (list SpotOrder)) : result error (OrderPage D) :=
  let operation := "OpenOrders" in
  _ <-? binanceSpotContextErr ctx operation ;;
  symbol <-? match requested with None => Ok "" | Some i => binanceSpotSymbols i operation end ;;
  check is_empty cursor else binanceSpotInvalid operation "cursor is not supported by Binance Spot open orders" ;;
  check negb (limit <? 0) else binanceSpotInvalid operation "limit must be non-negative" ;;
  rows <-? spot_queried operation (GetOpenOrders symbol) ;;
  orders <-? spot_malformed_by operation (map_result (binanceSpotOrder symbol symbol) rows) ;;
  Ok (boundedOrderPage orders limit "").
(** A row of another instrument than the requested one *)
Definition perp_order_row (operation message native : string) (row : PerpOrder) : result error (Order D) :=
  order <-? perp_malformed_by operation (binancePerpOrder row) ;;
  check is_empty native || String.eqb (or_NativeSymbol order) native else binancePerpMalformed operation message ;;
  Ok order.
Definition perp_OpenOrders (ctx : context) (initialized : bool) (prefix : string) (requested : option (Instrument D)) (cursor : string) (limit : Z)
    (GetOpenOrders : string → result sdk_error (list PerpOrder)) : result error (OrderPage D) :=
  let operation := "OpenOrders" in
  _ <-? binancePerpReady ctx initialized prefix operation ;;
  native <-? perp_optional operation requested ;;
  check is_empty cursor else binancePerpInvalidRequest operation "cursor is not supported by Binance open orders" ;;
  check negb (limit <? 0) else binancePerpInvalidRequest operation "limit must be non-negative" ;;
  rows <-? perp_queried operation (GetOpenOrders native) ;;
  orders <-? map_result (perp_order_row operation "response instrument mismatch" native) rows ;;
  Ok (boundedOrderPage orders limit "").
(** The loop over the trades, with the cursor it leaves; [full] is
    [req.Limit > 0 && len(resp) >= req.Limit]. *)
Fixpoint fill_loop (malformed : string → error) (convert : MyTrade → result error (Fill D)) (full : bool) (trades : list MyTrade) (nextCursor : string)
  : result error (list (Fill D) * string) :=
  match trades with
  | [] => Ok ([], nextCursor)
  | trade :: rest =>
      fill <-? convert trade ;;
      nextCursor <-?
        (if full then
           match binanceFillNextCursor (fi_FillID fill) with
           | None => Err (malformed "fill id is not a numeric trade id")
           | Some next => Ok (default "" next)
           end
         else Ok nextCursor) ;;
      r <-? fill_loop malformed convert full rest nextCursor ;;
      Ok (fill :: r.1, r.2)
  end.
Definition is_full (limit : Z) (trades : list MyTrade) : bool := (0 <? limit) && (limit <=? Z.of_nat (length trades)).
Definition fill_page (request : FillsRequest (D:=D)) (r : list (Fill D) * string) : FillPage (D:=D) :=
  (r.1, mkPage r.2 (fq_Limit request) (fq_Start request) (fq_End request) true (negb (is_empty r.2))).
(** [MyTrades symbol limit start end fromID] *)
Definition perp_Fills (ctx : context) (initialized : bool) (prefix : string) (request : FillsRequest (D:=D))
    (MyTrades : string → Z → Z → Z → Z → result sdk_error (list MyTrade)) : result error (FillPage (D:=D)) :=
  let operation := "Fills" in
  let fail := binancePerpInvalidRequest operation in
  _ <-? binancePerpReady ctx initialized prefix operation ;;
  native <-? perp_optional operation (fq_Instrument request) ;;
  check negb (fq_Limit request <? 0) else fail "limit must be non-negative" ;;
  check is_empty (fq_OrderID request) else fail "order id filter is not supported by Binance fills" ;;
  check IsZero (fq_Start request) || IsZero (fq_End request) || After (fq_End request) (fq_Start request) else fail "end must be after start" ;;
  match binancePerpParseCursor (fq_Cursor request) with
  | None => Err (fail "cursor must be a numeric fromId")
  | Some fromID =>
      trades <-? perp_queried operation (MyTrades native (fq_Limit request) (binanceMillis (fq_Start request)) (binanceMillis (fq_End request)) fromID) ;;
      r <-? fill_loop (binancePerpMalformed operation)
        (λ trade, fill <-? perp_malformed_by operation (binancePerpFill trade) ;;
           check is_empty native || String.eqb (fi_NativeSymbol fill) native else binancePerpMalformed operation "response instrument mismatch" ;;
           Ok fill) (is_full (fq_Limit request) trades) trades "" ;;
      Ok (fill_page request r)
  end.
Definition spot_Fills (ctx : context) (request : FillsRequest (D:=D)) (MyTrades : string → Z → Z → Z → Z → result sdk_error (list MyTrade))
  : result error (FillPage (D:=D)) :=
  let operation := "Fills" in
  let fail := binanceSpotInvalid operation in
  _ <-? binanceSpotContextErr ctx operation ;;
  match fq_Instrument request with
  | None => Err (fail "instrument filter is required by Binance Spot trade history")
  | Some instrument =>
      symbol <-? binanceSpotSymbols instrument operation ;;
      check negb (fq_Limit request <? 0) else fail "limit must be non-negative" ;;
      check is_empty (fq_OrderID request) else fail "order id is not supported by Binance Spot trade history" ;;
      check IsZero (fq_Start request) || IsZero (fq_End request) || Before (fq_Start request) (fq_End request) else fail "start must be before end" ;;
      match binancePerpParseCursor (fq_Cursor request) with
      | None => Err (fail "cursor must be a positive native trade id")
      | Some fromID =>
          trades <-? spot_queried operation (MyTrades symbol (fq_Limit request) (binanceMillis (fq_Start request)) (binanceMillis (fq_End request)) fromID) ;;
          r <-? fill_loop (binanceSpotMalformed operation) (λ trade, spot_malformed_by operation (binanceSpotFill symbol symbol trade))
            (is_full (fq_Limit request) trades) trades "" ;;
          Ok (fill_page request r)
      end
  end.
(** The order histories list the orders that are no longer active. *)
Definition perp_OrderHistory (ctx : context) (initialized : bool) (prefix : string) (requested : option (Instrument D)) (start stop : time) (cursor : string) (limit : Z)
    (AllOrders : string → Z → Z → Z → Z → result sdk_error (list PerpOrder)) : result error (OrderPage D) :=
  let operation := "OrderHistory" in
  _ <-? binancePerpReady ctx initialized prefix operation ;;
  match requested with
  | None => Err (binancePerpInvalidRequest operation "instrument filter is required by Binance USD-M order history")
  | Some instrument =>
      symbol <-? perp_invalid_by operation (binancePerpRequestSymbols instrument) ;;
      _ <-? perp_invalid_by operation (validateBoundedHistory limit start stop) ;;
      orderID <-? perp_invalid_by operation (positiveInt64Cursor cursor) ;;
      rows <-? perp_queried operation (AllOrders symbol limit (optionalMillis start) (optionalMillis stop) orderID) ;;
      orders <-? map_result (perp_order_row operation "response instrument does not match request" symbol)
        (List.filter (λ row, negb (binanceOrderActive (bo_Status row))) rows) ;;
      Ok (mkOrderPage orders (historyPage cursor limit start stop))
  end.
(** The spot client sends the milliseconds of an absent bound, which are
    negative, and the SDK leaves them out. *)
Definition spot_OrderHistory (ctx : context) (requested : option (Instrument D)) (start stop : time) (cursor : string) (limit : Z)
    (AllOrders : string → Z → Z → Z → Z → result sdk_error (list SpotOrder)) : result error (OrderPage D) :=
  let operation := "OrderHistory" in
  let invalid_by {A} (r : result error A) := match r with Ok a => Ok a | Err e => Err (binanceSpotInvalid operation (error_text e)) end in
  _ <-? binanceSpotContextErr ctx operation ;;
  match requested with
  | None => Err (binanceSpotInvalid operation "instrument filter is required by Binance Spot order history")
  | Some instrument =>
      symbol <-? binanceSpotSymbols instrument operation ;;
      _ <-? invalid_by (validateBoundedHistory limit start stop) ;;
      orderID <-? invalid_by (positiveInt64Cursor cursor) ;;
      rows <-? spot_queried operation (AllOrders symbol limit (UnixMilli start) (UnixMilli stop) orderID) ;;
      orders <-? spot_malformed_by operation (map_result (binanceSpotOrder symbol symbol) (List.filter (λ row, negb (binanceOrderActive (sr_Status row))) rows)) ;;
      Ok (mkOrderPage orders (historyPage cursor limit start stop))
  end.

(** ** The account *)

Definition spot_balance (operation : string) (native : SpotBalance) : result error (Balance D) :=
  let fail := binanceSpotMalformed operation in
  check negb (is_empty (sb_Asset native)) else fail "balance asset is required" ;;
  free <-? spot_nonnegative (sb_Free native) (fail "balance free must be non-negative decimal") ;;
  locked <-? spot_nonnegative (sb_Locked native) (fail "balance locked must be non-negative decimal") ;;
  Ok (mkBalance (sb_Asset native) free locked (d_add free locked)).
Definition binanceSpotBalances (operation : string) (res : option (list SpotBalance)) : result error (list (Balance D)) :=
  match res with
  | None => Err (binanceSpotMalformed operation "missing account response")
  | Some rows => map_result (spot_balance operation) rows
  end.
(** [Balances] and [SpotAccount] differ in the operation they name. *)
Definition spot_account (operation : string) (ctx : context) (GetAccount : result sdk_error (option (list SpotBalance))) : result error (list (Balance D)) :=
  _ <-? binanceSpotContextErr ctx operation ;;
  res <-? spot_queried operation GetAccount ;;
  binanceSpotBalances operation res.
Definition spot_Balances := spot_account "Balances".
Definition SpotAccount := spot_account "SpotAccount".
Definition perp_asset (asset : PerpAsset) : result error (Balance D) :=
  total <-? nonnegative (as_WalletBalance asset) ;;
  available <-? nonnegative (as_AvailableBalance asset) ;;
  let locked := d_sub total available in
  Ok (mkBalance (as_Asset asset) available (if d_is_negative locked then d_zero else locked) total).
Definition binancePerpAccount (res : option AccountResponse) : result error (PerpAccount (D:=D)) :=
  match res with
  | None => Err (binancePerpMalformed "PerpAccount" "missing account response")
  | Some resp =>
      perp_malformed_by "PerpAccount" (
        balances <-? map_result perp_asset (ar_Assets resp) ;;
        equity <-? optional (ar_TotalMarginBalance resp) ;;
        available <-? optional (ar_MaxWithdrawAmount resp) ;;
        marginUsed <-?
          (if negb (is_empty (TrimSpace (ar_TotalInitialMargin resp))) then nonnegative (ar_TotalInitialMargin resp)
           else
             positionMargin <-? nonnegative (ar_TotalPositionInitialMargin resp) ;;
             orderMargin <-? nonnegative (ar_TotalOpenOrderInitialMargin resp) ;;
             Ok (d_add positionMargin orderMargin)) ;;
        unrealized <-? optional (ar_TotalUnrealizedProfit resp) ;;
        Ok (mkPerpAccount balances equity available (mkOptDec marginUsed true) unrealized))
  end.
Definition perp_account (ctx : context) (initialized : bool) (prefix : string) (GetAccount : result sdk_error (option AccountResponse))
  : result error (PerpAccount (D:=D)) :=
  _ <-? binancePerpReady ctx initialized prefix "PerpAccount" ;;
  res <-? perp_queried "PerpAccount" GetAccount ;;
  binancePerpAccount res.
Definition perp_Balances (ctx : context) (initialized : bool) (prefix : string) (GetAccount : result sdk_error (option AccountResponse))
  : result error (list (Balance D)) :=
  match perp_account ctx initialized prefix GetAccount with Ok account => Ok (pa_Balances account) | Err e => Err (withExchangeOperation e "Balances") end.
(** The loop of [Positions]: without a filter a row with no quantity is skipped
    before anything else of it is read. *)
Definition position_row (native : string) (row : PositionRisk) : result error (list (Position D)) :=
  let operation := "Positions" in
  flat <-? (if is_empty native then quantity <-? perp_malformed_by operation (binancePerpDecimal parse_error (rk_PositionAmt row)) ;; Ok (d_is_zero quantity)
            else Ok false) ;;
  if (flat : bool) then Ok []
  else
    position <-? perp_malformed_by operation (binancePerpPosition row) ;;
    check is_empty native || String.eqb (ps_NativeSymbol position) native else binancePerpMalformed operation "response instrument mismatch" ;;
    Ok (if d_is_zero (ps_Quantity position) then [] else [position]).
Definition Positions (ctx : context) (initialized : bool) (prefix : string) (requested : option (Instrument D))
    (GetPositionRisk : string → result sdk_error (list PositionRisk)) : result error (list (Position D)) :=
  _ <-? binancePerpReady ctx initialized prefix "Positions" ;;
  native <-? perp_optional "Positions" requested ;;
  rows <-? perp_queried "Positions" (GetPositionRisk native) ;;
  positions <-? map_result (position_row native) rows ;;
  Ok (concat positions).
(** [SetLeverage]: the row is the symbol and the leverage in force *)
Definition SetLeverage (ctx : context) (initialized : bool) (prefix : string) instrument (leverage : Z)
    (ChangeLeverage : string → Z → result sdk_error (string * Z)) : result error (string * Z) :=
  let operation := "SetLeverage" in
  _ <-? binancePerpReady ctx initialized prefix operation ;;
  symbol <-? perp_invalid_by operation (binancePerpRequestSymbols instrument) ;;
  check (0 <? leverage) && (leverage <=? 125) else binancePerpInvalidRequest operation "leverage must be between 1 and 125" ;;
  row <-? perp_queried operation (ChangeLeverage symbol leverage) ;;
  check EqualFold row.1 symbol && (0 <? row.2) else binancePerpMalformed operation "response does not match request" ;;
  Ok (native_of instrument, row.2).
End orders.

(** ** Following the fill cursors *)

Section fills.
Context `{Decimal D} `{DecimalText D}.
Context (parse_error : string → string).
Implicit Types (request : FillsRequest (D:=D)) (history trades : list MyTrade).

(** The endpoint as documented: from a trade id on, in ascending order, at most
    [limit] trades *)
Definition from_id (id : Z) history : list MyTrade := List.filter (λ t, id <=? mt_ID t) history.
Definition trade_endpoint history (symbol : string) (limit start stop from : Z) : result sdk_error (list MyTrade) :=
  Ok (take (Z.to_nat limit) (from_id from history)).
Definition earlier (t t' : MyTrade) : Prop := mt_ID t < mt_ID t'.
Definition client_Fills (product : string) request (MyTrades : string → Z → Z → Z → Z → result sdk_error (list MyTrade)) : result error (FillPage (D:=D)) :=
  if String.eqb product ProductSpot then spot_Fills (Some None) request MyTrades else perp_Fills parse_error (Some None) true "" request MyTrades.
Definition read_trade (product symbol : string) (t : MyTrade) : result error (Fill D) :=
  if String.eqb product ProductSpot then binanceSpotFill symbol symbol t else binancePerpFill parse_error t.
Definition with_cursor request (cursor : string) : FillsRequest (D:=D) :=
  mkFillsRequest (fq_Instrument request) (fq_OrderID request) (fq_Start request) (fq_End request) cursor (fq_Limit request).
(** Follow the cursors for at most [n] pages: the fills, and whether more are
    announced. *)
Fixpoint fill_pages (n : nat) (product : string) request MyTrades : result error (list (Fill D) * bool) :=
  match n with
  | O => Ok ([], true)
  | S n' =>
      page <-? client_Fills product request MyTrades ;;
      if pg_HasMore page.2 then
        r <-? fill_pages n' product (with_cursor request (pg_Cursor page.2)) MyTrades ;;
        Ok (page.1 ++ r.1, r.2)
      else Ok (page.1, false)
  end.
(** A request for one instrument's trades from the id [k] on *)
Record tail_request (product symbol : string) request (k : Z) : Prop := mkTail {
  tail_instrument : ∃ i, fq_Instrument request = Some i ∧
    (if String.eqb product ProductSpot then binanceSpotSymbols i "Fills" = Ok symbol else binancePerpRequestSymbols i = Ok symbol);
  tail_order : fq_OrderID request = ""; tail_start : fq_Start request = zero_time; tail_end : fq_End request = zero_time;
  tail_limit : 0 < fq_Limit request; tail_id : 0 < k ≤ int64_max; tail_cursor : fq_Cursor request = FormatInt k;
}.

Lemma read_trade_id product symbol t f : read_trade product symbol t = Ok f → fi_FillID f = FormatInt (mt_ID t) ∧ 0 < mt_ID t.
Proof.
  unfold read_trade, binanceSpotFill, binancePerpFill. destruct (String.eqb product ProductSpot); cbv zeta; rewrite !check_Ok.
  - intros (_ & Hid%Z.ltb_lt & _ & _ & E). apply bind_Ok in E as (? & _ & E). apply bind_Ok in E as (? & _ & E). destruct (d_new_from_string _); [|done]. by injection E as <-.
  - intros (Hid%Z.ltb_lt & _ & _ & E). apply bind_Ok in E as (? & _ & E). apply bind_Ok in E as (? & _ & E). apply bind_Ok in E as (? & _ & E).
    destruct (d_new_from_string _); [|done]. by injection E as <-.
Qed.
Lemma FormatInt_solid n : 0 ≤ n → is_empty (FormatInt n) = false.
Proof. intros Hn. rewrite FormatInt_nonneg by done. unfold is_empty. apply String.eqb_neq, FormatUint_nonempty. Qed.

(** The cursor a page leaves *)
Definition next_of (id : Z) : string := if id =? int64_max then "" else FormatInt (id + 1).
Lemma fill_loop_page malformed convert (f : MyTrade → Fill D) full trades cursor :
  (∀ t, t ∈ trades → convert t = Ok (f t) ∧ fi_FillID (f t) = FormatInt (mt_ID t) ∧ 0 < mt_ID t ≤ int64_max) →
  fill_loop malformed convert full trades cursor =
  Ok (map f trades, if full then match last trades with Some t => next_of (mt_ID t) | None => cursor end else cursor).
Proof.
  revert cursor. induction trades as [|t rest IH]; intros cursor Hread; cbn [fill_loop map]; [by destruct full|].
  destruct (Hread t) as (-> & Hid & Hpos); [by left|]. rewrite Hid.
  assert (Hnext : (if full then match binanceFillNextCursor (FormatInt (mt_ID t)) with None => Err (malformed "fill id is not a numeric trade id") | Some next => Ok (default "" next) end
    else Ok cursor) = Ok (if full then next_of (mt_ID t) else cursor)).
  { destruct full; [|done]. unfold binanceFillNextCursor, next_of. rewrite ParseInt_FormatInt by (unfold int64_min in *; lia).
    rewrite (proj2 (Z.ltb_ge _ _)) by lia. by destruct (_ =? _). }
  rewrite Hnext, IH by (intros; apply Hread; by right). cbn [fst snd]. do 2 f_equal. destruct full; [|done]. destruct rest as [|t' rest]; [done|].
  change (last (t :: t' :: rest)) with (last (t' :: rest)). destruct (last (t' :: rest)) eqn:El; [done|]. by apply last_None in El.
Qed.

(** One page of either client *)
Lemma client_page product symbol request k history (f : MyTrade → Fill D) :
  tail_request product symbol request k →
  (∀ t, t ∈ history → read_trade product symbol t = Ok (f t) ∧ fi_NativeSymbol (f t) = symbol ∧ mt_ID t ≤ int64_max) →
  let page := take (Z.to_nat (fq_Limit request)) (from_id k history) in
  client_Fills product request (trade_endpoint history) =
  Ok (fill_page request (map f page, if is_full (fq_Limit request) page then match last page with Some t => next_of (mt_ID t) | None => "" end else "")).
Proof.
  intros [(i & Hi & Hs) Ho Hst Hen Hl Hk Hc] Hread. cbv zeta.
  assert (Hcur : binancePerpParseCursor (fq_Cursor request) = Some k).
  { unfold binancePerpParseCursor. rewrite Hc, FormatInt_solid, ParseInt_FormatInt by (unfold int64_min in *; lia). by rewrite (proj2 (Z.leb_gt _ _)) by lia. }
  set (page := take (Z.to_nat (fq_Limit request)) (from_id k history)).
  assert (Hin : ∀ t, t ∈ page → t ∈ history).
  { intros t Ht. apply (elem_of_sublist _ _ _ Ht). etrans; [apply sublist_take|]. unfold from_id. clear. induction history as [|x l IH]; [done|]. cbn. destruct (_ <=? _); by constructor. }
  assert (Hpage : ∀ t, t ∈ page → read_trade product symbol t = Ok (f t) ∧ fi_NativeSymbol (f t) = symbol ∧ fi_FillID (f t) = FormatInt (mt_ID t) ∧ 0 < mt_ID t ≤ int64_max).
  { intros t Ht%Hin. destruct (Hread t Ht) as (Hr & Hn & Hm). destruct (read_trade_id _ _ _ _ Hr). done. }
  unfold client_Fills, read_trade in *. destruct (String.eqb product ProductSpot).
  - unfold spot_Fills. cbv zeta. cbn [binanceSpotContextErr]. rewrite Hi, Hs, Ho, Hst, Hen, Hcur. rewrite (proj2 (Z.ltb_ge _ _)) by lia.
    change (IsZero zero_time) with true. cbn [negb is_empty orb spot_queried trade_endpoint]. fold page.
    rewrite (fill_loop_page _ _ f); [done|]. intros t Ht. destruct (Hpage t Ht) as (-> & _ & ? & ?). done.
  - unfold perp_Fills, perp_optional. cbv zeta. rewrite Hi, Hs, Ho, Hst, Hen, Hcur. cbn [binancePerpReady is_empty orb perp_invalid_by]. rewrite (proj2 (Z.ltb_ge _ _)) by lia.
    change (IsZero zero_time) with true. cbn [negb orb perp_queried trade_endpoint]. fold page.
    rewrite (fill_loop_page _ _ f); [done|]. intros t Ht. destruct (Hpage t Ht) as (-> & Hn & ? & ?). cbn [perp_malformed_by]. by rewrite Hn, String.eqb_refl, orb_true_r.
Qed.

Lemma from_id_sorted k history : StronglySorted earlier history → StronglySorted earlier (from_id k history).
Proof.
  induction 1 as [|t l Hl IH Ht]; [constructor|]. cbn. destruct (_ <=? _); [|done]. constructor; [done|]. rewrite List.Forall_forall in *.
  intros x [Hx _]%List.filter_In. by apply Ht.
Qed.
Lemma from_id_later k k' history : k ≤ k' → from_id k' (from_id k history) = from_id k' history.
Proof.
  intros Hk. unfold from_id. induction history as [|t l IH]; [done|]. cbn. destruct (Z.leb_spec k (mt_ID t)); cbn; [by rewrite IH|].
  by rewrite (proj2 (Z.leb_gt k' _)) by lia.
Qed.
Lemma from_id_none k l : Forall (λ t, mt_ID t < k) l → from_id k l = [].
Proof. induction 1 as [|t l Ht _ IH]; [done|]. cbn. by rewrite (proj2 (Z.leb_gt _ _)). Qed.
Lemma from_id_all k l : Forall (λ t, k ≤ mt_ID t) l → from_id k l = l.
Proof. induction 1 as [|t l Ht _ IH]; [done|]. cbn. rewrite (proj2 (Z.leb_le _ _)) by done. f_equal. exact IH. Qed.
(** After a page that ends in [t], the trades after [t] remain. *)
Lemma from_next page t rest : StronglySorted earlier ((page ++ [t]) ++ rest) → from_id (mt_ID t + 1) ((page ++ [t]) ++ rest) = rest ∧ Forall (λ x, mt_ID t < mt_ID x) rest.
Proof.
  intros Hs.
  assert (Hb : Forall (λ x, mt_ID x ≤ mt_ID t) (page ++ [t])).
  { apply Forall_app. split; [|apply Forall_singleton; lia]. rewrite <- app_assoc in Hs. revert Hs. induction page as [|x page IH]; intros Hs; constructor.
    - apply StronglySorted_inv in Hs as [_ Hs]. rewrite List.Forall_forall in Hs. specialize (Hs t). unfold earlier in Hs. rewrite !in_app_iff in Hs. cbn in Hs.
      enough (mt_ID x < mt_ID t) by lia. apply Hs. auto.
    - apply IH. apply StronglySorted_inv in Hs as [Hs _]. exact Hs. }
  assert (Ha : Forall (λ x, mt_ID t < mt_ID x) rest).
  { rewrite <- app_assoc in Hs. clear Hb. induction page as [|x page IH]; [|apply StronglySorted_inv in Hs as [Hs _]; by apply IH].
    apply StronglySorted_inv in Hs as [_ Hs]. rewrite List.Forall_forall in Hs. apply Forall_forall. intros x Hx%list_elem_of_In. by apply Hs. }
  split; [|done]. unfold from_id. rewrite List.filter_app. fold (from_id (mt_ID t + 1) (page ++ [t])). fold (from_id (mt_ID t + 1) rest).
  rewrite from_id_none, from_id_all; [done|eapply Forall_impl; [exact Ha|cbn; lia]|eapply Forall_impl; [exact Hb|cbn; lia]].
Qed.

(** Following the cursors from a trade id on ends, and has then listed every
    trade from that id on, once and in order, at either client: as many pages as
    hold one trade more are enough, and the last says that there are no more. *)
Theorem binance_fills_followed product symbol (f : MyTrade → Fill D) history request k n :
  StronglySorted earlier history →
  (∀ t, t ∈ history → read_trade product symbol t = Ok (f t) ∧ fi_NativeSymbol (f t) = symbol ∧ mt_ID t ≤ int64_max) →
  tail_request product symbol request k → (length (from_id k history) < n * Z.to_nat (fq_Limit request))%nat →
  fill_pages n product request (trade_endpoint history) = Ok (map f (from_id k history), false).
Proof.
  intros Hs Hread. revert request k. induction n as [|n IH]; intros request k Ht Hn; [lia|]. cbn [fill_pages].
  rewrite (client_page _ _ _ _ _ f Ht Hread). set (L := Z.to_nat (fq_Limit request)) in *. pose proof (tail_limit _ _ _ _ Ht) as HL.
  pose proof (from_id_sorted k history Hs) as HsR. set (R := from_id k history) in *. unfold fill_page, is_full. cbn [fst snd pg_HasMore pg_Cursor].
  rewrite (proj2 (Z.ltb_lt _ _)) by done. rewrite length_take. cbn [andb]. destruct (Z.leb_spec (fq_Limit request) (Z.of_nat (L `min` length R))) as [Hfull|Hshort].
  2:{ cbn. by rewrite take_ge by lia. }
  destruct (last (take L R)) as [t|] eqn:El; [|apply last_None in El; apply (f_equal length) in El; rewrite length_take in El; cbn in El; lia].
  apply last_Some in El as [page El]. pose proof (take_drop L R) as HR. rewrite El in HR. rewrite <- HR in HsR. apply from_next in HsR as [Hnext Hlater]. rewrite HR in Hnext.
  assert (Hin : t ∈ history). { apply list_elem_of_In. assert (In t R) as [? _]%List.filter_In; [|done]. rewrite <- HR, !in_app_iff. cbn. auto. }
  destruct (Hread t Hin) as (Hrt & _ & Hmax). apply read_trade_id in Hrt as [_ Hpos].
  assert (Hk : k ≤ mt_ID t). { assert (In t R) as [_ Hle%Z.leb_le]%List.filter_In; [|done]. rewrite <- HR, !in_app_iff. cbn. auto. }
  unfold next_of. destruct (Z.eqb_spec (mt_ID t) int64_max) as [Em|Em].
  - assert (Hd : drop L R = []).
    { destruct (drop L R) as [|x l]; [done|]. apply Forall_cons in Hlater as [Hx _]. exfalso.
      assert (In x R) as [Hxh _]%List.filter_In; [rewrite <- HR, in_app_iff; right; by left|]. apply list_elem_of_In, Hread in Hxh as (_ & _ & ?). lia. }
    cbn. rewrite <- (take_drop L R) at 2. by rewrite Hd, app_nil_r.
  - rewrite FormatInt_solid by lia. cbn [negb]. rewrite (IH (with_cursor request (FormatInt (mt_ID t + 1))) (mt_ID t + 1)).
    + cbn [fst snd]. rewrite <- (from_id_later k) by lia. fold R. by rewrite Hnext, <- map_app, take_drop.
    + destruct Ht. split; cbn; try done. lia.
    + cbn [with_cursor fq_Limit]. fold L. rewrite <- (from_id_later k) by lia. fold R. rewrite Hnext, length_drop. lia.
Qed.
End fills.

(** ** What is placed is what was asked for *)

Section faithful.
Context `{DecimalTextLaws D} `{!DecimalQuotientLaws D}.
Context (parse_error Quote : string → string).
Implicit Types (req : PlaceOrderRequest D) (params : PlaceOrderParams).

(** The venue's rows of an unfilled order, as they would be listed *)
Definition listed_price params : string := if is_empty (pp_Price params) then "0" else pp_Price params.
Definition resting_perp params (id at_ : Z) (status : string) : PerpOrder :=
  mkPerpOrder (pp_NewClientOrderID params) "0" id "0" (pp_Quantity params) (listed_price params) (pp_ReduceOnly params) (pp_Side params) "BOTH" status false
    (pp_Symbol params) (pp_TimeInForce params) (pp_Type params) at_.
Definition resting_spot params (id : Z) (status : string) : SpotOrder :=
  mkSpotOrder (pp_Symbol params) id (pp_NewClientOrderID params) (listed_price params) (pp_Quantity params) "0" "0" status (pp_TimeInForce params) (pp_Type params) (pp_Side params).

Lemma d_string_nonempty (d : D) : is_empty (d_string d) = false.
Proof. pose proof (d_string_solid d) as Hs. unfold is_empty in *. apply String.eqb_neq. intros E. by rewrite E in Hs. Qed.
(** A text of a number that is not negative reads as that number, by either
    client's reader. *)
Definition reads (text : string) (d : D) : Prop :=
  is_empty text = false ∧ d_new_from_string text = Some d ∧ (0 <= d_value d)%Qc.
Lemma reads_print (d : D) : (0 <= d_value d)%Qc → ∃ d', reads (d_string d) d' ∧ d_value d' = d_value d.
Proof. intros Hd. destruct (d_parse_print d) as (d' & Hp & Hv). exists d'. split; [|done]. split; [apply d_string_nonempty|]. split; [done|]. by rewrite Hv. Qed.
Lemma reads_zero : ∃ d, reads "0" d ∧ d_value d = 0%Qc.
Proof. destruct d_parse_zero as (d & Hp & Hv). exists d. split; [|done]. split; [done|]. split; [done|]. rewrite Hv. apply Qcle_refl. Qed.
Lemma not_negative (d : D) : (0 <= d_value d)%Qc → d_is_negative d = false.
Proof. intros Hd. destruct (d_is_negative d) eqn:E; [|done]. apply d_is_negative_spec in E. by apply Qcle_not_lt in Hd. Qed.
Lemma reads_perp text (d : D) : reads text d → binancePerpNonNegativeDecimal parse_error text = Ok d.
Proof. intros (He & Hp & Hd). unfold binancePerpNonNegativeDecimal, binancePerpDecimal, must_not_be_negative. by rewrite He, Hp, not_negative. Qed.
Lemma reads_spot text (d : D) e : reads text d → spot_nonnegative text e = Ok d.
Proof. intros (_ & Hp & Hd). unfold spot_nonnegative. by rewrite Hp, not_negative. Qed.

(** The parameters of a valid request *)
Record same_params req params : Prop := mkSameParams {
  sp_client : pp_NewClientOrderID params = po_ClientOrderID req;
  sp_quantity : ∃ d, reads (pp_Quantity params) d ∧ d_value d = d_value (po_Quantity req);
  sp_price : ∃ d, reads (listed_price params) d ∧ d_value d = d_value (po_LimitPrice req);
  sp_side : ∃ side, pp_Side params = side ∧ (side = "BUY" ∧ po_Side req = SideBuy ∨ side = "SELL" ∧ po_Side req = SideSell);
}.
Lemma listed_price_reads req product params :
  order_spec req product → pp_Price params = (if String.eqb (po_Type req) OrderTypeMarket then "" else d_string (po_LimitPrice req)) →
  ∃ d, reads (listed_price params) d ∧ d_value d = d_value (po_LimitPrice req).
Proof.
  intros Hs Hp. unfold listed_price. rewrite Hp. destruct (os_type Hs) as [(-> & Hz & _)|(-> & Hpos & _)].
  - cbn. rewrite Hz. apply reads_zero.
  - change (String.eqb OrderTypeLimit OrderTypeMarket) with false. cbv iota. rewrite d_string_nonempty. apply reads_print. by apply Qclt_le_weak.
Qed.
Lemma perp_params_same req symbol :
  order_spec req ProductPerp → same_params req (binancePerpPlaceParams symbol req) ∧ pp_Symbol (binancePerpPlaceParams symbol req) = symbol ∧
  pp_ReduceOnly (binancePerpPlaceParams symbol req) = po_ReduceOnly req.
Proof.
  intros Hs. destruct (reads_print (po_Quantity req) (Qclt_le_weak _ _ (os_positive Hs))) as (q & Hq & Hqv).
  assert (Hside : ∃ side, binancePerpSide (po_Side req) = side ∧ (side = "BUY" ∧ po_Side req = SideBuy ∨ side = "SELL" ∧ po_Side req = SideSell)).
  { eexists. split; [done|]. destruct (os_side Hs) as [<-|[<-|[]]]; [by left|by right]. }
  split.
  - split; [|exists q|apply (listed_price_reads _ _ _ Hs)|]; unfold binancePerpPlaceParams; cbv zeta; repeat case_match; done.
  - unfold binancePerpPlaceParams; cbv zeta; repeat case_match; done.
Qed.
Lemma spot_params_same req symbol :
  order_spec req ProductSpot → let params := binanceSpotPlaceParams symbol (if String.eqb (po_Side req) SideSell then "SELL" else "BUY") req in
  same_params req params ∧ pp_Symbol params = symbol ∧ po_ReduceOnly req = false.
Proof.
  intros Hs. cbv zeta. destruct (reads_print (po_Quantity req) (Qclt_le_weak _ _ (os_positive Hs))) as (q & Hq & Hqv).
  set (side := if String.eqb (po_Side req) SideSell then "SELL" else "BUY").
  assert (Hside : ∃ s, side = s ∧ (s = "BUY" ∧ po_Side req = SideBuy ∨ s = "SELL" ∧ po_Side req = SideSell)).
  { eexists. split; [done|]. unfold side. destruct (os_side Hs) as [<-|[<-|[]]]; [by left|by right]. }
  split; [|split].
  - split; [|exists q|apply (listed_price_reads _ _ _ Hs)|]; unfold binanceSpotPlaceParams; cbv zeta; repeat case_match; done.
  - unfold binanceSpotPlaceParams; cbv zeta; repeat case_match; done.
  - destruct (po_ReduceOnly req) eqn:E; [|done]. by apply (os_reduce_only Hs) in E.
Qed.

(** A sent order, listed back, is the order that was asked for. *)
Lemma perp_params_listed req symbol id at_ status :
  order_spec req ProductPerp → symbol = id_NativeSymbol (in_Identity (po_Instrument req)) → binancePerpNativeSymbols symbol = Ok symbol → 0 < id → 0 < at_ →
  ∃ o, binancePerpOrder parse_error (resting_perp (binancePerpPlaceParams symbol req) id at_ status) = Ok o ∧ same_order req o ∧ or_OrderID o = FormatInt id.
Proof.
  intros Hs Hsym Hback Hid Hat. destruct (perp_params_same req symbol Hs) as ([Hc (q & Hq & Hqv) (pr & Hp & Hpv) (side & Hside & Hsd)] & Hps & Hro). destruct reads_zero as (z & Hz & Hzv).
  unfold binancePerpOrder, resting_perp. cbn [bo_OrderID bo_UpdateTime bo_Symbol bo_PositionSide bo_ClosePosition bo_OrigQty bo_Price bo_ExecutedQty bo_AvgPrice bo_Side bo_Type bo_TimeInForce
    bo_ClientOrderID bo_ReduceOnly bo_Status].
  rewrite (proj2 (Z.ltb_lt _ _) Hid), (proj2 (Z.ltb_lt _ _) Hat), Hps, Hback. cbn [one_of existsb orb String.eqb negb]. change (String.eqb "BOTH" "") with false. change (String.eqb "BOTH" "BOTH") with true.
  cbn [orb]. rewrite (reads_perp _ _ Hq), (reads_perp _ _ Hp), (reads_perp _ _ Hz). change (is_empty "0") with false. cbv iota.
  assert (Hzz : d_is_zero z = true) by (by apply d_is_zero_spec). rewrite Hzz.
  assert (Hx : binancePerpExchangeSide (pp_Side (binancePerpPlaceParams symbol req)) = Ok (po_Side req)) by (rewrite Hside; destruct Hsd as [[-> ->]|[-> ->]]; done).
  rewrite Hx. destruct (os_type Hs) as [(Ht & Hlz & Hpol)|(Ht & Hlp & _ & Hpol)].
  - unfold binancePerpPlaceParams. cbv zeta. rewrite Ht. change (String.eqb OrderTypeMarket OrderTypeMarket) with true. cbn. eexists. split; [done|]. split; [|done]. split; cbn; done || congruence.
  - unfold binancePerpPlaceParams. cbv zeta. rewrite Ht. change (String.eqb OrderTypeLimit OrderTypeMarket) with false. cbv iota.
    destruct Hpol as [Hpol|[Hpol|[Hpol|[]]]]; rewrite <- Hpol; cbn; eexists; (split; [done|]); (split; [|done]); split; cbn; done || congruence.
Qed.
Lemma spot_params_listed req symbol id status :
  order_spec req ProductSpot → symbol = id_NativeSymbol (in_Identity (po_Instrument req)) → is_empty symbol = false → 0 < id →
  ∃ o, binanceSpotOrder Quote symbol symbol (resting_spot (binanceSpotPlaceParams symbol (if String.eqb (po_Side req) SideSell then "SELL" else "BUY") req) id status) = Ok o ∧
    same_order req o ∧ or_OrderID o = FormatInt id.
Proof.
  intros Hs Hsym Hne Hid. destruct (spot_params_same req symbol Hs) as ([Hc (q & Hq & Hqv) (pr & Hp & Hpv) (side & Hside & Hsd)] & Hps & Hro). destruct reads_zero as (z & Hz & Hzv).
  set (sd := if String.eqb (po_Side req) SideSell then "SELL" else "BUY") in *. unfold binanceSpotOrder, resting_spot.
  cbn [sr_Symbol sr_OrderID sr_OrigQty sr_Price sr_ExecutedQty sr_Side sr_Type sr_TimeInForce sr_CummulativeQuoteQty sr_ClientOrderID sr_Status].
  rewrite (proj2 (Z.ltb_lt _ _) Hid), Hps, String.eqb_refl, orb_true_r, Hne. cbv zeta.
  rewrite (reads_spot _ _ _ Hq), (reads_spot _ _ _ Hp), (reads_spot _ _ _ Hz).
  assert (Hzz : d_is_positive z = false) by (destruct (d_is_positive z) eqn:E; [|done]; apply d_is_positive_spec in E; rewrite Hzv in E; by apply Qclt_not_eq in E).
  rewrite Hzz. cbn [andb].
  assert (Hx : binanceSpotSide Quote (pp_Side (binanceSpotPlaceParams symbol sd req)) = Ok (po_Side req)) by (rewrite Hside; destruct Hsd as [[-> ->]|[-> ->]]; done).
  rewrite Hx. destruct (os_type Hs) as [(Ht & Hlz & Hpol)|(Ht & Hlp & _ & Hpol)].
  - unfold binanceSpotPlaceParams. cbv zeta. rewrite Ht. change (String.eqb OrderTypeMarket OrderTypeMarket) with true. cbn. eexists. split; [done|].
    split; [|done]. split; cbn; done || congruence.
  - unfold binanceSpotPlaceParams. cbv zeta. rewrite Ht. change (String.eqb OrderTypeLimit OrderTypeMarket) with false. cbv iota.
    destruct Hpol as [Hpol|[Hpol|[Hpol|[]]]]; rewrite <- Hpol; cbn; eexists; (split; [done|]); (split; [|done]); split; cbn; done || congruence.
Qed.

(** A limit order the venue answers as new is acknowledged as resting. *)
Definition resting_ack (r : OrderAcknowledgement D * option error) (id : Z) : Prop :=
  ∃ ack, r = (ack, None) ∧ ack_State ack = AckResting ∧ ack_OrderID ack = FormatInt id.
Lemma resting_valid product native id clientID (filled : D) :
  is_empty product = false → is_empty native = false → 0 < id →
  Ack_Validate (filled_ack (command_ack VenueBinance product OrderOperationPlace "" native "" (FormatInt id) clientID) AckResting OrderTypeLimit filled no_decimal) = Ok tt.
Proof.
  intros Hp Hn Hid. unfold Ack_Validate, filled_ack, command_ack. cbn [ack_Venue ack_Product ack_Operation ack_State ack_NativeSymbol ack_OrderType ack_OrderID ack_ClientOrderID ack_TransactionHash].
  rewrite Hp, Hn, (FormatInt_solid id) by lia. done.
Qed.
Lemma zero_read z : reads "0" z → d_value z = 0%Qc → d_is_positive z = false.
Proof. intros _ Hz. destruct (d_is_positive z) eqn:E; [|done]. apply d_is_positive_spec in E. rewrite Hz in E. by apply Qclt_not_eq in E. Qed.
Lemma perp_resting req symbol id at_ :
  order_spec req ProductPerp → symbol = id_NativeSymbol (in_Identity (po_Instrument req)) → binancePerpNativeSymbols symbol = Ok symbol → is_empty symbol = false →
  po_Type req = OrderTypeLimit → 0 < id → resting_ack (perp_placed parse_error req (Ok (Some (resting_perp (binancePerpPlaceParams symbol req) id at_ "NEW")))) id.
Proof.
  intros Hs Hsym Hback Hne Ht Hid. destruct (perp_params_same req symbol Hs) as ([Hc _ _ _] & Hps & Hro). destruct reads_zero as (z & Hz & Hzv).
  assert (Hty : pp_Type (binancePerpPlaceParams symbol req) = "LIMIT") by (unfold binancePerpPlaceParams; cbv zeta; rewrite Ht; repeat case_match; done).
  unfold perp_placed, binancePerpOrderAck, resting_perp. cbn [bo_OrderID bo_Symbol bo_PositionSide bo_ClosePosition bo_ExecutedQty bo_AvgPrice bo_Type bo_ClientOrderID bo_ReduceOnly bo_Status].
  rewrite (proj2 (Z.ltb_lt _ _) Hid), Hps, Hback, Hc, Hty, Hro. cbn [perp_malformed_by]. unfold native_of. rewrite <- Hsym, !String.eqb_refl, orb_true_r. cbn [is_empty orb].
  change (one_of "BOTH" [""; "BOTH"]) with true. cbn [negb]. rewrite (reads_perp _ _ Hz). cbn [or_error]. change (is_empty (TrimSpace "0")) with false. cbv iota. rewrite (zero_read _ Hz Hzv).
  change (String.eqb OrderOperationPlace OrderOperationPlace) with true. cbv iota zeta. change (String.eqb "LIMIT" "MARKET") with false. change (String.eqb "LIMIT" "LIMIT") with true.
  change (String.eqb "NEW" "NEW") with true. change (String.eqb OrderTypeLimit OrderTypeMarket) with false. cbv iota.
  change (String.eqb OrderTypeLimit OrderTypeMarket) with false. change (is_empty "") with true. cbn [orb]. cbv iota.
  rewrite (resting_valid ProductPerp symbol id (po_ClientOrderID req) z) by done. rewrite Bool.eqb_reflx, Ht. cbn [negb filled_ack ack_OrderType].
  change (String.eqb OrderTypeLimit OrderTypeLimit) with true. cbn [negb]. eexists. split; [by rewrite (resting_valid ProductPerp symbol id (po_ClientOrderID req) z)|done].
Qed.
Lemma spot_resting req symbol id :
  order_spec req ProductSpot → symbol = id_NativeSymbol (in_Identity (po_Instrument req)) → is_empty symbol = false → po_Type req = OrderTypeLimit → 0 < id →
  resting_ack (spot_placed Quote symbol req (Ok (resting_spot (binanceSpotPlaceParams symbol (if String.eqb (po_Side req) SideSell then "SELL" else "BUY") req) id "NEW"))) id.
Proof.
  intros Hs Hsym Hne Ht Hid. destruct (spot_params_same req symbol Hs) as ([Hc _ _ _] & Hps & _). destruct reads_zero as (z & Hz & Hzv).
  unfold spot_placed, resting_spot. cbn [sr_Symbol sr_OrderID sr_ExecutedQty sr_CummulativeQuoteQty sr_ClientOrderID sr_Status].
  rewrite (proj2 (Z.ltb_lt _ _) Hid), Hps, Hc, !String.eqb_refl, orb_true_r. change (binanceSpotAckState Quote "NEW") with (@Ok error _ AckResting). cbn [spot_malformed_by].
  rewrite (reads_spot _ _ _ Hz), (zero_read _ Hz Hzv). unfold native_of. rewrite <- Hsym, Ht. cbv zeta. rewrite (resting_valid ProductSpot symbol id (po_ClientOrderID req) z) by done.
  cbn [acknowledged]. by eexists.
Qed.

(** C16: every valid order for an instrument of the loaded catalog is sent, at either
    client, and the venue's listing of the order that was sent reads back as the
    order that was asked for: instrument, side, type, policy, quantity, price,
    reduce-only flag and client id, under the venue's order id; a limit order the
    venue answers as new is acknowledged as resting under that id. *)
Theorem binance_order_exact product info scope now snap req :
  LoadInstruments parse_error product info scope now = Ok snap → po_Instrument req ∈ sn_Instruments snap → PlaceOrder_Validate req product = Ok tt →
  let native := id_NativeSymbol (in_Identity (po_Instrument req)) in
  (product = ProductSpot ∧ ∀ send, ∃ params, spot_PlaceOrder Quote (Some None) req send = (Some params, spot_placed Quote native req (send params)) ∧
     ∀ id status, 0 < id →
       (∃ o, binanceSpotOrder Quote native native (resting_spot params id status) = Ok o ∧ same_order req o ∧ or_OrderID o = FormatInt id) ∧
       (po_Type req = OrderTypeLimit → resting_ack (spot_placed Quote native req (Ok (resting_spot params id "NEW"))) id)) ∨
  (product = ProductPerp ∧ ∀ send, ∃ params, perp_PlaceOrder parse_error (Some None) true "" req send = (Some params, perp_placed parse_error req (send params)) ∧
     ∀ id at_ status, 0 < id → 0 < at_ →
       (∃ o, binancePerpOrder parse_error (resting_perp params id at_ status) = Ok o ∧ same_order req o ∧ or_OrderID o = FormatInt id) ∧
       (po_Type req = OrderTypeLimit → resting_ack (perp_placed parse_error req (Ok (Some (resting_perp params id at_ "NEW")))) id)).
Proof.
  intros Hload Hin Hval. cbv zeta. pose proof Hval as Hspec%PlaceOrder_Validate_spec. pose proof (os_instrument Hspec) as Hv.
  assert (Hne : is_empty (id_NativeSymbol (in_Identity (po_Instrument req))) = false).
  { unfold is_empty. apply String.eqb_neq. intros E. apply Instrument_Validate_identity in Hv as (_ & _ & _ & _ & Hb & _). by rewrite E in Hb. }
  destruct (loaded_accepted _ _ _ _ _ _ _ Hload Hin Hv) as [[-> Hsym]|(-> & Hsym & Hback)]; [left|right]; (split; [done|]); intros send; eexists.
  - split; [unfold spot_PlaceOrder; cbn [binanceSpotContextErr]; rewrite Hsym, Hval; reflexivity|]. intros id status Hid.
    split; [by apply spot_params_listed|intros; by apply spot_resting].
  - split; [unfold perp_PlaceOrder; cbn [binancePerpReady is_empty orb]; rewrite Hval, Hsym; reflexivity|]. intros id at_ status Hid Hat.
    split; [by apply perp_params_listed|intros; by apply perp_resting].
Qed.
End faithful.

(** ** Orders that expire at once *)

Section expired.
Context `{Decimal D} `{DecimalText D}.
Context (parse_error Quote : string → string).

Lemma malformed_unknown now id (order : PlaceOrderRequest D) product operation message :
  pl_Status (classify now id order no_ack (Some (venue_error VenueBinance product operation KindMalformedResponse "" message))) = OutcomeUnknown.
Proof. unfold classify, proves_refusal, venue_error. rewrite !errors_is_kind. reflexivity. Qed.

(** C21: both clients ask for the matching engine's result, but know only three of
    its words: an immediate-or-cancel or market order whose remainder the venue
    expired is answered with an error, and the operator is told that the outcome
    is unknown, although the reply says that the order is over and what was
    filled. *)
Theorem expired_orders_unknown now id (order : PlaceOrderRequest D) symbol :
  (∀ resp, bo_Status resp = "EXPIRED" →
     let r := perp_placed parse_error order (Ok (Some resp)) in r.1 = no_ack ∧ pl_Status (classify now id order r.1 r.2) = OutcomeUnknown) ∧
  (∀ resp, sr_Status resp = "EXPIRED" →
     let r := spot_placed Quote symbol order (Ok resp) in r.1 = no_ack ∧ pl_Status (classify now id order r.1 r.2) = OutcomeUnknown).
Proof.
  pose proof (malformed_unknown now id order) as Hm. split; intros resp Hs; cbv zeta.
  - assert (Hr : ∃ m, perp_placed parse_error order (Ok (Some resp)) = (no_ack, Some (binancePerpMalformed OrderOperationPlace m))); [|destruct Hr as [m ->]; split; [done|apply Hm]].
    unfold perp_placed, binancePerpOrderAck. rewrite Hs. cbv zeta. destruct (0 <? bo_OrderID resp); [|by eexists].
    destruct (binancePerpNativeSymbols (bo_Symbol resp)) as [native|e]; cbn [perp_malformed_by]; [|by eexists]. change (is_empty "") with true. cbn [orb].
    change (String.eqb OrderOperationPlace OrderOperationPlace) with true. cbv iota. change (String.eqb "EXPIRED" ?x) with false. cbv iota.
    destruct (String.eqb native _); [|by eexists]. destruct (_ || _); [|by eexists]. destruct (one_of _ _); [|by eexists]. destruct (negb _); [|by eexists].
    destruct (String.eqb (bo_Type resp) "MARKET"); [by eexists|]. destruct (String.eqb (bo_Type resp) "LIMIT"); by eexists.
  - assert (Hr : ∃ m, spot_placed Quote symbol order (Ok resp) = (no_ack, Some (binanceSpotMalformed "PlaceOrder" m))); [|destruct Hr as [m ->]; split; [done|apply Hm]].
    unfold spot_placed. rewrite Hs. cbn. repeat (case_match; try (by eexists); simplify_eq).
Qed.
End expired.

(** A page without a limit, or with one above what the venue serves at once, says
    that there are no more fills however many there are. *)
Lemma uncapped_fills_claim_all `{Decimal D} (request : FillsRequest (D:=D)) malformed convert (trades : list MyTrade) r :
  fq_Limit request = 0 ∨ Z.of_nat (length trades) < fq_Limit request →
  fill_loop malformed convert (is_full (fq_Limit request) trades) trades "" = Ok r →
  pg_HasMoreKnown (fill_page request r).2 = true ∧ pg_HasMore (fill_page request r).2 = false.
Proof.
  intros Hl. assert (Hf : is_full (fq_Limit request) trades = false).
  { unfold is_full. destruct Hl as [->|Hl]; [done|]. apply andb_false_iff. right. by apply Z.leb_gt. }
  rewrite Hf. intros Hr. assert (Hc : r.2 = ""); [|unfold fill_page; cbn; by rewrite Hc]. clear Hl Hf. revert r Hr.
  induction trades as [|t rest IH]; intros r; cbn [fill_loop]; [by intros [= <-]|]. destruct (convert t); [|done].
  intros (r' & Hr' & [= <-])%bind_Ok. exact (IH _ Hr').
Qed.

(** ** A bitcoin contract *)

Definition btc_filters : list filter_map :=
  [ {[ "filterType" := FieldText "PRICE_FILTER"; "tickSize" := FieldText "0.1" ]}
  ; {[ "filterType" := FieldText "LOT_SIZE"; "stepSize" := FieldText "0.001"; "minQty" := FieldText "0.001" ]}
  ; {[ "filterType" := FieldText "MIN_NOTIONAL"; "notional" := FieldText "100" ]} ].
Definition btc_info : SymbolInfo := mkSymbolInfo "BTCUSDT" "TRADING" "PERPETUAL" "BTC" "USDT" "USDT" btc_filters.
Definition no_text (text : string) : string := "".
Definition binance_scope : CatalogScope := mkScope VenueBinance "mainnet" ProductPerp "USDT" "" "".
Definition btc_snapshot : InstrumentSnapshot fixed :=
  match LoadInstruments no_text ProductPerp (Ok (Some [btc_info])) binance_scope 7 with Ok snapshot => snapshot | Err _ => zero_snapshot end.
Definition btc_instrument : Instrument fixed := default (newBinance "" "" "" "" "" "") (head (sn_Instruments btc_snapshot)).
Definition btc_order : PlaceOrderRequest fixed := mkPlaceOrder btc_instrument "17" SideBuy OrderTypeLimit (mkFixed 3 3) (mkFixed 650005 1) LimitPolicyPostOnly true.
Definition btc_params : PlaceOrderParams := mkParams "BTCUSDT" "BUY" "LIMIT" "GTX" "0.003" "65000.5" "17" true "RESULT".
Definition btc_answer (params : PlaceOrderParams) : result sdk_error (option PerpOrder) := Ok (Some (resting_perp params 901 5 "NEW")).
Example btc_order_placed : (perp_PlaceOrder no_text (Some None) true "" btc_order btc_answer).1 = Some btc_params.
Proof. vm_compute. reflexivity. Qed.
Lemma binance_order_exact_witness :
  ∃ params, (perp_PlaceOrder no_text (Some None) true "" btc_order btc_answer).1 = Some params ∧
    ∃ o, binancePerpOrder no_text (resting_perp params 901 5 "NEW") = Ok o ∧ same_order btc_order o.
Proof.
  assert (Hi : btc_instrument ∈ sn_Instruments btc_snapshot).
  { assert (E : sn_Instruments btc_snapshot = [btc_instrument]) by (vm_compute; reflexivity). rewrite E. by left. }
  destruct (binance_order_exact (D:=fixed) no_text no_text ProductPerp (Ok (Some [btc_info])) binance_scope 7 btc_snapshot btc_order) as [[Hp _]|[_ Hs]];
    [vm_compute; reflexivity|exact Hi|vm_compute; reflexivity|discriminate Hp|].
  destruct (Hs btc_answer) as (params & Ho & Hl). exists params. rewrite Ho. split; [reflexivity|].
  destruct (Hl 901 5 "NEW") as [(o & Hc & Hsame & _) _]; [reflexivity|reflexivity|]. exists o. split; assumption.
Defined.

(** Five trades, two a page *)
Definition btc_trade (n : Z) : MyTrade := mkMyTrade "BTCUSDT" n 900 "65000" "0.002" "0.05" "USDT" (1700000000000 + n) true false.
Definition btc_trades : list MyTrade := [btc_trade 11; btc_trade 12; btc_trade 15; btc_trade 18; btc_trade 19].
Definition btc_fill (t : MyTrade) : Fill fixed := trade_fill "BTCUSDT" (mkFixed 65000 0) (mkFixed 2 3) (mkFixed 5 2) t.
Definition btc_request : FillsRequest (D:=fixed) := mkFillsRequest (Some btc_instrument) "" zero_time zero_time "12" 2.
Lemma binance_fills_followed_witness :
  fill_pages no_text 3 ProductPerp btc_request (trade_endpoint btc_trades) = Ok (map btc_fill [btc_trade 12; btc_trade 15; btc_trade 18; btc_trade 19], false).
Proof.
  apply (binance_fills_followed no_text ProductPerp "BTCUSDT" btc_fill btc_trades btc_request 12 3).
  - repeat constructor; vm_compute; reflexivity.
  - intros t Ht. repeat (apply elem_of_cons in Ht as [->|Ht]; [split; [|split]; vm_compute; [reflexivity|reflexivity|discriminate]|]). by apply elem_of_nil in Ht.
  - split; [|reflexivity|reflexivity|reflexivity|reflexivity|unfold int64_max; lia|vm_compute; reflexivity]. exists btc_instrument. split; vm_compute; reflexivity.
  - vm_compute. lia.
Defined.
(** An immediate-or-cancel order of which 0.001 was filled *)
Definition btc_ioc : PlaceOrderRequest fixed := mkPlaceOrder btc_instrument "17" SideBuy OrderTypeLimit (mkFixed 3 3) (mkFixed 650005 1) LimitPolicyIOC false.
Definition btc_expired : PerpOrder :=
  mkPerpOrder "17" "0.001" 901 "65000.5" "0.003" "65000.5" false "BUY" "BOTH" "EXPIRED" false "BTCUSDT" "IOC" "LIMIT" 5.
Lemma expired_orders_unknown_witness :
  let r := perp_placed no_text btc_ioc (Ok (Some btc_expired)) in pl_Status (classify 0 "binance:perp:BTC-USDT" btc_ioc r.1 r.2) = OutcomeUnknown.
Proof. exact (proj2 (proj1 (expired_orders_unknown no_text no_text 0 "binance:perp:BTC-USDT" btc_ioc "BTCUSDT") btc_expired eq_refl)). Defined.
