(* ===== verification/BinanceLookup.v ===== *)
(** * Binance: one order

    [exchange/internal/factoryclient/exact_lookup_binance.go]: both clients ask
    the venue for the order itself, by either of its identities, and answer "not
    found" only on the venue's code for an unknown order. *)

From Stdlib Require Import Ascii String ZArith Lia.
From stdpp Require Import base list strings gmap.
From S2P Require Import Prelude GoStrings Decimals DecimalText Errors Model HttpErrors Orders InstrumentCatalog Sockets AccountFeed Clients.
From S2P Require Import VenueErrors Commands BinanceMarkets BinanceRest ExactLookup.

#[local] Open Scope string_scope.
#[local] Open Scope list_scope.
#[local] Open Scope Z_scope.
#[local] Open Scope go_scope.

Section lookup.
Context `{Decimal D} `{DecimalText D}.
Context (parse_error Quote : string → string).
Implicit Types (request : ExactOrderLookupRequest D) (instrument : Instrument D).

Definition binanceExactLookupVenueOrderID (value : string) (invalid : string → error) : result error Z :=
  if is_empty value then Ok 0
  else match ParseInt value with
  | Some parsed =>
      check (0 <? parsed) && String.eqb (FormatInt parsed) value else invalid "venue order id must be a positive decimal int64" ;; Ok parsed
  | None => Err (invalid "venue order id must be a positive decimal int64")
  end.
Definition binanceExactLookupEvidence instrument request : ExactOrderEvidence (D:=D) :=
  let scope := ExactLookup.mkScope VenueBinance (id_Product (in_Identity instrument)) (Some instrument) in
  if negb (is_empty (lr_ClientOrderID request)) then mkEvidence scope ByClientOrderID true true (lr_ClientOrderID request) "" ""
  else mkEvidence scope ByVenueOrderID true true "" (lr_VenueOrderID request) "".
Definition binanceExactLookupResult (status : string) (order : option (Order D)) (evidence : ExactOrderEvidence (D:=D)) : result error (ExactOrderLookupResult D) :=
  let r := mkResult status order evidence in _ <-? Result_Validate r ;; Ok r.
Definition binanceExactLookupMatch (order : Order D) request : result error unit :=
  check is_empty (lr_ClientOrderID request) || String.eqb (or_ClientOrderID order) (lr_ClientOrderID request)
    else EText "response client order id does not match requested identity" ;;
  check is_empty (lr_VenueOrderID request) || String.eqb (or_OrderID order) (lr_VenueOrderID request)
    else EText "response venue order id does not match requested identity" ;;
  Ok tt.
Definition no_such_order (api : venue_api) (s : sdk_error) : bool := match sx_api s api with Some a => ae_Code a =? -2013 | None => false end.
Definition binanceSpotExactLookupNotFound : sdk_error → bool := no_such_order BinanceSpotAPI.
Definition binancePerpExactLookupNotFound : sdk_error → bool := no_such_order BinancePerpAPI.

(** A converted order, to the end of the method *)
Definition found_order {R} (malformed : string → error) (convert : R → result error (Order D)) instrument request (response : option R)
  : result error (ExactOrderLookupResult D) :=
  match response with
  | None => Err (malformed "missing get order response")
  | Some row =>
      match convert row with
      | Err e => Err (malformed (error_text e))
      | Ok order =>
          match exactPortableOrderStatus (or_Status order) with
          | Err e => Err (malformed (error_text e))
          | Ok status =>
              let order := with_status order status in
              match binanceExactLookupMatch order request with
              | Err e => Err (malformed (error_text e))
              | Ok _ => binanceExactLookupResult ExactOrderFound (Some order) (binanceExactLookupEvidence instrument request)
              end
          end
      end
  end.
(** [GetOrder symbol orderID clientOrderID] *)
Definition spot_LookupExactOrder (ctx : context) request (GetOrder : string → Z → string → result sdk_error (option SpotOrder))
  : result error (ExactOrderLookupResult D) :=
  let operation := exactLookupOperation in
  _ <-? binanceSpotContextErr ctx operation ;;
  _ <-? match Request_Validate request with Ok a => Ok a | Err e => Err (withExchangeOperation e operation) end ;;
  match lr_Instrument request with
  | None => Err (binanceSpotInvalid operation "instrument is required")
  | Some instrument =>
      symbol <-? binanceSpotSymbols instrument operation ;;
      orderID <-? binanceExactLookupVenueOrderID (lr_VenueOrderID request) (binanceSpotInvalid operation) ;;
      match GetOrder symbol orderID (lr_ClientOrderID request) with
      | Err s =>
          if binanceSpotExactLookupNotFound s then binanceExactLookupResult ExactOrderNotFound None (binanceExactLookupEvidence instrument request)
          else Err (binanceSpotNormalizeErr operation s)
      | Ok response => found_order (binanceSpotMalformed operation) (binanceSpotOrder Quote symbol symbol) instrument request response
      end
  end.
Definition perp_LookupExactOrder (ctx : context) (initialized : bool) (prefix : string) request
    (GetOrder : string → Z → string → result sdk_error (option PerpOrder)) : result error (ExactOrderLookupResult D) :=
  let operation := exactLookupOperation in
  _ <-? binancePerpReady ctx initialized prefix operation ;;
  _ <-? match Request_Validate request with Ok a => Ok a | Err e => Err (withExchangeOperation e operation) end ;;
  match lr_Instrument request with
  | None => Err (binancePerpInvalidRequest operation "instrument is required")
  | Some instrument =>
      symbol <-? perp_invalid_by operation (binancePerpRequestSymbols instrument) ;;
      orderID <-? binanceExactLookupVenueOrderID (lr_VenueOrderID request) (binancePerpInvalidRequest operation) ;;
      match GetOrder symbol orderID (lr_ClientOrderID request) with
      | Err s =>
          if binancePerpExactLookupNotFound s then binanceExactLookupResult ExactOrderNotFound None (binanceExactLookupEvidence instrument request)
          else Err (binancePerpNormalizeError operation s)
      | Ok response =>
          found_order (binancePerpMalformed operation)
            (λ row, order <-? binancePerpOrder parse_error row ;;
               check String.eqb (or_NativeSymbol order) symbol else EText "response symbol does not match requested instrument" ;; Ok order)
            instrument request response
      end
  end.

(** ** Soundness *)

Lemma binanceSpotSymbols_identity instrument operation symbol :
  binanceSpotSymbols instrument operation = Ok symbol →
  id_Venue (in_Identity instrument) = VenueBinance ∧ id_Product (in_Identity instrument) = ProductSpot ∧ symbol = id_NativeSymbol (in_Identity instrument).
Proof.
  unfold binanceSpotSymbols. intros (? & _ & E)%bind_Ok. rewrite !check_Ok, andb_true_iff, !String.eqb_eq in E.
  destruct E as ([Hv Hp] & _ & _ & _ & _ & [= <-]). done.
Qed.
Lemma binancePerpRequestSymbols_identity instrument symbol :
  binancePerpRequestSymbols instrument = Ok symbol →
  id_Venue (in_Identity instrument) = VenueBinance ∧ id_Product (in_Identity instrument) = ProductPerp ∧ symbol = id_NativeSymbol (in_Identity instrument).
Proof.
  unfold binancePerpRequestSymbols. intros (? & _ & E)%bind_Ok. rewrite !check_Ok, andb_true_iff, !String.eqb_eq in E.
  destruct E as ([Hv Hp] & _ & _ & _ & _ & _ & _ & [= <-]). done.
Qed.
(** The evidence is that of the shared helper. *)
Lemma binance_evidence instrument request product :
  id_Product (in_Identity instrument) = product →
  binanceExactLookupEvidence instrument request = exactLookupEvidence request VenueBinance product instrument true true.
Proof. by intros <-. Qed.
Lemma binance_result status order request product instrument message r :
  id_Product (in_Identity instrument) = product →
  binanceExactLookupResult status order (binanceExactLookupEvidence instrument request) = Ok r →
  ExactLookup.validated VenueBinance product message (mkResult status order (exactLookupEvidence request VenueBinance product instrument true true)) = Ok r.
Proof.
  intros Hp. unfold binanceExactLookupResult. rewrite (binance_evidence _ _ _ Hp). intros (? & Hv & E)%bind_Ok. unfold ExactLookup.validated. by rewrite Hv.
Qed.

Section sound.
Context (product : string) (request : ExactOrderLookupRequest D) (instrument : Instrument D).
Context (Hreq : Request_Validate request = Ok tt) (Hins : lr_Instrument request = Some instrument).
Context (Hven : id_Venue (in_Identity instrument) = VenueBinance) (Hpro : id_Product (in_Identity instrument) = product).

Lemma found_order_answers {R} malformed (convert : R → result error (Order D)) response r absent (origin : Instrument D → Order D → Prop) :
  (∀ row order o, response = Some row → convert row = Ok order → restated instrument order o → or_NativeSymbol o = or_NativeSymbol order → origin instrument o) →
  found_order malformed convert instrument request response = Ok r → answers VenueBinance product absent origin request r.
Proof.
  intros Horigin. unfold found_order. destruct response as [row|]; [|done]. destruct (convert row) as [order|] eqn:Hc; [|done].
  destruct (exactPortableOrderStatus _) as [status|] eqn:Hs; [|done]. cbv zeta. destruct (binanceExactLookupMatch _ _); [|done].
  intros Hr%(binance_result _ _ _ product _ "exact order response identity is inconsistent"); [|done].
  eapply answers_found; [done..| | |exact Hr]; [by eapply exactPortableOrderStatus_portable|].
  apply (Horigin row order); [done..| |done]. exists status. by left.
Qed.
Lemma missing_answers r (absent : Instrument D → Prop) origin : absent instrument →
  binanceExactLookupResult ExactOrderNotFound None (binanceExactLookupEvidence instrument request) = Ok r → answers VenueBinance product absent origin request r.
Proof.
  intros Ha Hr%(binance_result _ _ _ product _ "exact not-found evidence is inconsistent"); [|done]. by eapply answers_not_found.
Qed.
End sound.

Lemma request_Ok {request operation u} :
  match Request_Validate request with Ok a => Ok a | Err e => Err (withExchangeOperation e operation) end = Ok u → Request_Validate request = Ok tt.
Proof. by destruct (Request_Validate request) as [[]|]. Qed.

(** What the venue was asked about the instrument: its native symbol, with the
    order id, which is 0 when the client order id is given. *)
Definition binance_replied {R} (GetOrder : string → Z → string → result sdk_error (option R)) request (i : Instrument D)
    (answer : result sdk_error (option R)) : Prop :=
  ∃ id, (lr_VenueOrderID request = "" ∧ id = 0 ∨ ParseInt (lr_VenueOrderID request) = Some id ∧ 0 < id) ∧
        GetOrder (id_NativeSymbol (in_Identity i)) id (lr_ClientOrderID request) = answer.
Lemma venue_order_id value invalid id :
  binanceExactLookupVenueOrderID value invalid = Ok id → value = "" ∧ id = 0 ∨ ParseInt value = Some id ∧ 0 < id.
Proof.
  unfold binanceExactLookupVenueOrderID, is_empty. destruct (String.eqb_spec value "") as [|_]; [intros [= <-]; by left|].
  destruct (ParseInt value) as [n|]; [|done]. intros [[Hn _]%andb_true_iff [= <-]]%check_Ok. right. split; [done|]. by apply Z.ltb_lt.
Qed.
Lemma spot_order_symbol expected row order :
  binanceSpotOrder Quote expected expected row = Ok order → expected ≠ "" → sr_Symbol row = expected ∧ or_NativeSymbol order = expected.
Proof.
  unfold binanceSpotOrder. intros [Hs E]%check_Ok Hne. rewrite orb_true_iff, String.eqb_eq in Hs. unfold is_empty in *.
  destruct (String.eqb_spec expected ""); [done|]. destruct Hs as [|Hs]; [done|]. split; [done|]. cbv zeta in E.
  apply check_Ok in E as [_ E]. do 5 (apply bind_Ok in E as (? & _ & E)). repeat case_match; simplify_eq; done.
Qed.
Lemma perp_order_symbol row order : binancePerpOrder parse_error row = Ok order → binancePerpNativeSymbols (bo_Symbol row) = Ok (or_NativeSymbol order).
Proof.
  unfold binancePerpOrder. rewrite !check_Ok. intros (_ & _ & E). apply bind_Ok in E as (native & Hn & E). rewrite !check_Ok in E.
  destruct E as (_ & _ & E). do 6 (apply bind_Ok in E as (? & _ & E)). by simplify_eq.
Qed.
End lookup.
