(* ===== verification/Lookups.v ===== *)
(** * Exact lookup, every venue

    [exchange/internal/factoryclient/exact_lookup*.go]: the lookups of all seven
    venue clients against one contract; each constructor of [venue_lookup] gives
    a client's method with what its venue must have said for "not found" and
    what it must have sent for an order to be found. *)

From Stdlib Require Import Ascii String ZArith Lia.
From stdpp Require Import base list strings gmap.
From S2P Require Import Prelude GoStrings Decimals DecimalText Errors Model Orders AccountFeed Hyperliquid ExactLookup.
From S2P Require Import Sockets HttpErrors VenueErrors Commands BinanceMarkets BinanceRest BinanceLookup.

#[local] Open Scope string_scope.
#[local] Open Scope list_scope.
#[local] Open Scope Z_scope.
#[local] Open Scope go_scope.

Section lookups.
Context `{Decimal D} `{DecimalText D}.
Implicit Types (request : ExactOrderLookupRequest D) (r : ExactOrderLookupResult D).

(** The answers of the venue clients, what "the venue denied the order" means
    for each, and where a found order comes from. *)
Inductive venue_lookup (ctx : context) request :
  string → string → (Instrument D → Prop) → (Instrument D → Order D → Prop) → result error (ExactOrderLookupResult D) → Prop :=
| lookup_binance_spot Quote GetOrder :
    venue_lookup ctx request VenueBinance ProductSpot
      (λ i, ∃ s, binance_replied GetOrder request i (Err s) ∧ binanceSpotExactLookupNotFound s = true)
      (λ i o, or_NativeSymbol o = id_NativeSymbol (in_Identity i) ∧
              from_row i (λ row, sr_Symbol row = id_NativeSymbol (in_Identity i) ∧ binance_replied GetOrder request i (Ok (Some row)))
                (λ row order, binanceSpotOrder Quote (id_NativeSymbol (in_Identity i)) (id_NativeSymbol (in_Identity i)) row = Ok order) o)
      (spot_LookupExactOrder Quote ctx request GetOrder)
| lookup_binance_perp parse_error initialized prefix GetOrder :
    venue_lookup ctx request VenueBinance ProductPerp
      (λ i, ∃ s, binance_replied GetOrder request i (Err s) ∧ binancePerpExactLookupNotFound s = true)
      (λ i o, or_NativeSymbol o = id_NativeSymbol (in_Identity i) ∧
              from_row i (λ row, binancePerpNativeSymbols (bo_Symbol row) = Ok (id_NativeSymbol (in_Identity i)) ∧
                                 binance_replied GetOrder request i (Ok (Some row)))
                (λ row order, binancePerpOrder parse_error row = Ok order) o)
      (perp_LookupExactOrder parse_error ctx initialized prefix request GetOrder)
| lookup_okx_spot normalize text convert ready validate answer :
    venue_lookup ctx request VenueOKX ProductSpot (λ _, answer = NoSuchOrder)
      (λ i, from_row i (okx_row answer i) (λ row order, convert row = Ok order))
      (okxSpot_LookupExactOrder normalize text convert ctx request ready validate answer)
| lookup_okx_perp normalize text meta convert answer :
    venue_lookup ctx request VenueOKX ProductPerp (λ _, answer = NoSuchOrder)
      (λ i, from_row i (okx_row answer i) (λ row order, ∃ contractValue, meta i = Ok contractValue ∧ convert contractValue row = Ok order))
      (okxPerp_LookupExactOrder normalize text ctx request meta convert answer)
| lookup_bybit normalize convert product symbols realtime history :
    venue_lookup ctx request VenueBybit product (λ _, False)
      (λ i o, of_instrument i o ∧ from_row i (bybit_row symbols realtime history i) (λ row order, convert [row] = Ok [order]) o)
      (bybit_LookupExactOrder normalize convert product ctx request symbols realtime history)
| lookup_bitget normalize convert product symbols get :
    venue_lookup ctx request VenueBitget product (λ _, False)
      (λ i o, of_instrument i o ∧ from_row i (bitget_row symbols get i) (λ row order, convert row = Ok [order]) o)
      (bitget_LookupExactOrder normalize convert product ctx request symbols get)
| lookup_lighter normalize text convert product meta active inactive :
    venue_lookup ctx request VenueLighter product (λ _, False)
      (λ i, from_row i (lighter_sent request meta active inactive i) (λ row order, convert row = Ok order))
      (lighterLookupExactOrder normalize text convert product ctx request meta active inactive)
| lookup_gate R normalize product native_of prepare get validate row_symbol convert :
    venue_lookup ctx request VenueGate product
      (λ i, ∃ native, native_of i = Ok native ∧ get (gateExactLookupOrderID request) native = NoSuchOrder)
      (λ i o, of_instrument i o ∧ from_row i (gate_sent request native_of get row_symbol i)
         (λ row order, validate row = Ok tt ∧ ∃ multiplier, prepare i = Ok multiplier ∧ order = convert row i multiplier) o)
      (gate_LookupExactOrder (R:=R) normalize product ctx request native_of prepare get validate row_symbol convert)
| lookup_hyperliquid R normalize product meta by_client by_id coin historical :
    venue_lookup ctx request VenueHyperliquid product (λ _, hl_replied request by_client by_id NoSuchOrder)
      (λ i, from_row i (λ row, meta i = Ok (coin row) ∧ hl_replied request by_client by_id (Replied (Some row))) (λ row order, historical row = Ok order))
      (hyperliquid_LookupExactOrder (R:=R) normalize product ctx request meta by_client by_id coin historical).

Lemma native_symbol_given (i : Instrument D) operation symbol : binanceSpotSymbols i operation = Ok symbol → id_NativeSymbol (in_Identity i) ≠ "".
Proof.
  unfold binanceSpotSymbols. destruct (Instrument_Validate i) eqn:Hv; [|done]. intros _ E. unfold Instrument_Validate in Hv. cbv zeta in Hv.
  apply check_Ok in Hv as [Hv _]. rewrite E in Hv. cbn in Hv. by rewrite !orb_true_r in Hv.
Qed.

Lemma binance_spot_answers Quote ctx request GetOrder r :
  spot_LookupExactOrder Quote ctx request GetOrder = Ok r →
  answers VenueBinance ProductSpot (λ i, ∃ s, binance_replied GetOrder request i (Err s) ∧ binanceSpotExactLookupNotFound s = true)
    (λ i o, or_NativeSymbol o = id_NativeSymbol (in_Identity i) ∧
            from_row i (λ row, sr_Symbol row = id_NativeSymbol (in_Identity i) ∧ binance_replied GetOrder request i (Ok (Some row)))
              (λ row order, binanceSpotOrder Quote (id_NativeSymbol (in_Identity i)) (id_NativeSymbol (in_Identity i)) row = Ok order) o) request r.
Proof.
  unfold spot_LookupExactOrder. cbv zeta. intros (? & _ & E)%bind_Ok. apply bind_Ok in E as (? & Hreq%request_Ok & E).
  destruct (lr_Instrument request) as [i|] eqn:Hins; [|done]. apply bind_Ok in E as (symbol & Hsym & E). apply bind_Ok in E as (orderID & Hid%venue_order_id & E).
  pose proof (native_symbol_given i _ _ Hsym) as Hne. apply binanceSpotSymbols_identity in Hsym as (Hv & Hp & ->).
  destruct (GetOrder _ orderID _) as [response|s] eqn:Hg.
  - eapply found_order_answers; [done..| |exact E]. intros row order o -> Hc Ho Hsame. destruct (spot_order_symbol Quote _ _ _ Hc Hne) as [Hrow Hos].
    split; [by rewrite Hsame|]. exists row, order. split_and!; try done. by exists orderID.
  - destruct (binanceSpotExactLookupNotFound s) eqn:Hn; [|done]. eapply missing_answers; [done..| |exact E]. exists s. split; [by exists orderID|done].
Qed.

Lemma binance_perp_answers parse_error ctx initialized prefix request GetOrder r :
  perp_LookupExactOrder parse_error ctx initialized prefix request GetOrder = Ok r →
  answers VenueBinance ProductPerp (λ i, ∃ s, binance_replied GetOrder request i (Err s) ∧ binancePerpExactLookupNotFound s = true)
    (λ i o, or_NativeSymbol o = id_NativeSymbol (in_Identity i) ∧
            from_row i (λ row, binancePerpNativeSymbols (bo_Symbol row) = Ok (id_NativeSymbol (in_Identity i)) ∧
                               binance_replied GetOrder request i (Ok (Some row)))
              (λ row order, binancePerpOrder parse_error row = Ok order) o) request r.
Proof.
  unfold perp_LookupExactOrder. cbv zeta. intros (? & _ & E)%bind_Ok. apply bind_Ok in E as (? & Hreq%request_Ok & E).
  destruct (lr_Instrument request) as [i|] eqn:Hins; [|done]. apply bind_Ok in E as (symbol & Hsym & E). apply bind_Ok in E as (orderID & Hid%venue_order_id & E).
  destruct (binancePerpRequestSymbols i) as [native|] eqn:Hn; [|done]. injection Hsym as <-. apply binancePerpRequestSymbols_identity in Hn as (Hv & Hp & ->).
  destruct (GetOrder _ orderID _) as [response|s] eqn:Hg.
  - eapply found_order_answers; [done..| |exact E]. intros row order o -> Hc Ho Hsame. apply bind_Ok in Hc as (order' & Hc & Hs).
    apply check_Ok in Hs as [Hs%String.eqb_eq [= <-]]. split; [by rewrite Hsame|]. exists row, order'. split_and!; try done.
    + by rewrite (perp_order_symbol _ _ _ Hc), Hs.
    + by exists orderID.
  - destruct (binancePerpExactLookupNotFound s) eqn:Hnf; [|done]. eapply missing_answers; [done..| |exact E]. exists s. split; [by exists orderID|done].
Qed.

(** C5: whatever the venue client and whatever the SDK replies, a lookup that
    returns was asked a valid question about an instrument of that venue and
    product, its result passes the contract's own validation and is scoped to
    that instrument and to the requested identity; a found order carries the
    requested identity and one of the six portable statuses, and is what the
    client makes of a row the venue sent for this request, whose symbol, market or
    coin is the instrument's; "not found" is said only when the venue itself
    denied the order, and everything else is "unconfirmed", with evidence marked
    neither authoritative nor complete. *)
Theorem exact_lookup_sound ctx request venue product absent origin r :
  venue_lookup ctx request venue product absent origin (Ok r) → answers venue product absent origin request r.
Proof.
  intros Hl. remember (Ok r) as out eqn:E. revert E. destruct Hl; intros E; [by apply binance_spot_answers in E|by eapply binance_perp_answers|..].
  all: pose proof E as E0; apply bind_Ok in E0 as (instrument & Hi & E0); pose proof Hi as Hi0;
    apply exactLookupInstrument_Ok in Hi0 as (_ & Hreq & Hins & Hven & Hpro).
  - apply bind_Ok in E0 as ([] & _ & E0). destruct (validate instrument); [|done]. by eapply okx_answers; [..|exact E0].
  - apply bind_Ok in E0 as (cv & Hcv & E0). eapply okx_answers; [done..| |exact E0]. simpl. eauto.
  - by eapply bybit_answers.
  - by eapply bitget_answers.
  - by eapply lighter_answers.
  - by eapply gate_answers.
  - by eapply hyperliquid_answers.
Qed.
End lookups.

(** ** Witnesses *)

Definition lookup_instrument : Instrument Z := sample_perp VenueOKX "ETH" "USDT".
Definition lookup_request : ExactOrderLookupRequest Z := mkLookup (Some lookup_instrument) "1001" "".
Definition lookup_row : order_row := mkRow (id_NativeSymbol (in_Identity lookup_instrument)) "77" "1001".
Definition lookup_convert (_ : Z) (row : order_row) : result error (Order Z) :=
  Ok (mkOrder (rw_Symbol row) "" (rw_OrderID row) (rw_ClientID row) SideBuy OrderTypeLimit 2 100 LimitPolicyResting false 0
        (mkOptDec 0 false) "live" 5 6).
Definition lookup_found : result error (ExactOrderLookupResult Z) :=
  okxPerp_LookupExactOrder id (λ _, "") (Some None) lookup_request (λ _, Ok 1) lookup_convert (Replied [lookup_row]).

Lemma exact_lookup_sound_witness :
  ∃ r, lookup_found = Ok r ∧ option_map (λ o, or_Status o) (xr_Order r) = Some "open" ∧
       answers VenueOKX ProductPerp (λ _, Replied [lookup_row] = NoSuchOrder)
         (λ i, from_row i (okx_row (Replied [lookup_row]) i) (λ row order, ∃ contractValue, (Ok 1 : result error Z) = Ok contractValue ∧ lookup_convert contractValue row = Ok order))
         lookup_request r.
Proof.
  destruct lookup_found as [r|] eqn:E; [|vm_compute in E; discriminate].
  exists r. split; [done|]. split.
  - assert (Hs : match lookup_found with Ok r => option_map (λ o, or_Status o) (xr_Order r) | _ => None end = Some "open") by (vm_compute; reflexivity).
    rewrite E in Hs. exact Hs.
  - apply (exact_lookup_sound (Some None)). rewrite <- E. unfold lookup_found.
    apply (lookup_okx_perp (Some None) lookup_request id (λ _, "") (λ _, Ok 1) lookup_convert (Replied [lookup_row])).
Defined.
