(* ===== verification/BinanceFunding.v ===== *)
(** * Binance: funding payments

    [binancePerpClient.FundingPayments] of
    [exchange/internal/factoryclient/binance_rest_extended.go]: the account's
    settled funding payments, page by page behind signed cursors, each page with
    a statement of how complete the history is.  SHA-256, HMAC and the JSON text
    of a cursor are parameters, as in [Clients]. *)

From Stdlib Require Import Ascii String ZArith Lia.
From stdpp Require Import base list strings gmap.
From S2P Require Import Prelude GoStrings Calendar Decimals DecimalText Errors Model HttpErrors InstrumentCatalog Sockets AccountFeed Credentials Clients.
From S2P Require Import VenueErrors Commands FundingLoaders HyperliquidMarkets BinanceMarkets BinanceRest.

#[local] Open Scope string_scope.
#[local] Open Scope list_scope.
#[local] Open Scope Z_scope.
#[local] Open Scope go_scope.

(** [FundingPayment] and [FundingPaymentPage] of [exchange/model.go] *)
Record FundingPayment (D : Type) := mkPayment {
  py_PaymentID : string; py_FactID : string; py_NativeSymbol : string; py_NativeID : string; py_SettlementAsset : string; py_Amount : D;
  py_EffectiveAt : time; py_ObservedAt : time; py_Revision : Z; py_Version : string; py_SourceRef : string; py_FormulaVersion : string;
}.
Arguments mkPayment {D}.
Arguments py_PaymentID {D} _.
Arguments py_FactID {D} _.
Arguments py_NativeSymbol {D} _.
Arguments py_NativeID {D} _.
Arguments py_SettlementAsset {D} _.
Arguments py_Amount {D} _.
Arguments py_EffectiveAt {D} _.
Arguments py_ObservedAt {D} _.
Arguments py_Revision {D} _.
Arguments py_Version {D} _.
Arguments py_SourceRef {D} _.
Arguments py_FormulaVersion {D} _.
Record FundingPaymentPage (D : Type) := mkPaymentPage {
  yp_Items : list (FundingPayment D); yp_Page : PageInfo; yp_Status : FundingPaymentStatus; yp_Watermark : FundingPaymentWatermark;
  yp_CompleteThrough : time; yp_Revision : Z;
}.
Arguments mkPaymentPage {D}.
Arguments yp_Items {D} _.
Arguments yp_Page {D} _.
Arguments yp_Status {D} _.
Arguments yp_CompleteThrough {D} _.
Record FundingPaymentRequest (D : Type) := mkPaymentRequest {
  yr_Instrument : option (Instrument D); yr_Start : time; yr_End : time; yr_Cursor : string; yr_Limit : Z; yr_SettlementAsset : string;
}.
Arguments mkPaymentRequest {D}.
Arguments yr_Instrument {D} _.
Arguments yr_Start {D} _.
Arguments yr_End {D} _.
Arguments yr_Cursor {D} _.
Arguments yr_Limit {D} _.
Arguments yr_SettlementAsset {D} _.

(** [time.Time.String] of a time in UTC *)
Definition padded (width : nat) (n : Z) : string :=
  let text := FormatUint n in
  Nat.iter (width - String.length text) (String "0") text.
Definition Time_String (t : time) : string :=
  let d := Time_Date t in
  let clock := time_of_day t in
  let seconds := clock / Second in
  padded 4 (dt_year d) +:+ "-" +:+ padded 2 (dt_month d) +:+ "-" +:+ padded 2 (dt_day d) +:+ " " +:+
  padded 2 (seconds / 3600) +:+ ":" +:+ padded 2 (seconds / 60 mod 60) +:+ ":" +:+ padded 2 (seconds mod 60) +:+
  decimal_fraction 9 (clock mod Second) +:+ " +0000 UTC".
Example Time_String_sample : Time_String (FromMilli 1700000000120) = "2023-11-14 22:13:20.12 +0000 UTC".
Proof. vm_compute. reflexivity. Qed.

Section payments.
Context `{Decimal D} `{DecimalText D} `{JsonText} (hmac : string → string → string) (sha256 : string → string).
Implicit Types (req : FundingPaymentRequest D) (row : Income).

Definition nativeSymbolOr (fallback : string) (instrument : option (Instrument D)) : string :=
  match instrument with
  | Some i => if is_empty (id_NativeSymbol (in_Identity i)) then fallback else id_NativeSymbol (in_Identity i)
  | None => fallback
  end.
(** Without an instrument the code uses its zero value. *)
Definition binanceFundingPayment (instrument : option (Instrument D)) (now : time) row : result error (FundingPayment D) :=
  amount <-? signed_decimal (ic_Income row) ;;
  let effectiveAt := FromMilli (ic_Time row) in
  let paymentID := if ic_TranID row =? 0 then ic_TradeID row else FormatInt (ic_TranID row) in
  let sourceRef := "binance:fapi:v1:income:FUNDING_FEE:" +:+ paymentID in
  Ok (mkPayment paymentID (stableFundingPaymentFactID sha256 [sourceRef; ic_Asset row; ic_Income row; Time_String effectiveAt]) (nativeSymbolOr (ic_Symbol row) instrument)
        (match instrument with Some i => id_NativeID (in_Identity i) | None => "" end) (ic_Asset row) amount effectiveAt now 1 "binance-fapi-income-v1" sourceRef
        "actual-funding-payment-v1").
(** The loop: a payment outside the window is left out; [clock] numbers the
    readings. *)
Definition payment_row req (symbol : string) (now : time) row : result error (list (FundingPayment D)) :=
  let fail := binancePerpMalformed "FundingPayments" in
  check String.eqb (ic_IncomeType row) "FUNDING_FEE" && (is_empty symbol || String.eqb (ic_Symbol row) symbol)
    else fail "response instrument or income type does not match request" ;;
  check is_empty (yr_SettlementAsset req) || String.eqb (ic_Asset row) (yr_SettlementAsset req) else fail "response settlement asset does not match request" ;;
  payment <-? perp_malformed_by "FundingPayments" (binanceFundingPayment (yr_Instrument req) now row) ;;
  Ok (if withinHalfOpen (py_EffectiveAt payment) (yr_Start req) (yr_End req) then [payment] else []).
Definition effective_limit (limit : Z) : Z := if limit <=? 0 then 1000 else limit.
(** The page of a decoded cursor; a traversal begins at the first. *)
Definition page_number (e : fundingPaymentCursorEnvelope) : Z := if ce_Page e =? 0 then 1 else ce_Page e.
Definition query_of req (symbol : string) (limit page : Z) : IncomeQuery :=
  let endMillis := optionalMillis (yr_End req) in
  mkIncomeQuery symbol "FUNDING_FEE" (optionalMillis (yr_Start req)) (if 0 <? endMillis then endMillis - 1 else endMillis) page limit.
Definition payments_page (cursorKey : string) (scope envelope : fundingPaymentCursorEnvelope) req (limit : Z) (rows : list Income) (items : list (FundingPayment D))
    (observedAt : time) : FundingPaymentPage D :=
  let seen := ce_ItemsSeen envelope + Z.of_nat (length items) in
  let hasMore := limit <=? Z.of_nat (length rows) in
  let next := mkEnvelope (ce_Version scope) (ce_ScopeDigest scope) (ce_VenueCursor scope) (page_number envelope + 1) seen (ce_SliceStartMillis scope) (ce_TraversalStarted scope) in
  let cursor := if hasMore then encodeFundingPaymentCursor hmac cursorKey next else "" in
  let status := fundingPaymentCompletionStatus seen hasMore (yr_Start req) (yr_End req) (fundingPaymentRetainedSince (yr_Start req) observedAt 3) observedAt in
  mkPaymentPage items (mkPage cursor limit (yr_Start req) (yr_End req) true hasMore) status (fundingPaymentWatermark cursor (yr_End req) status observedAt)
    (fundingPaymentCompleteThrough (yr_End req) status) 1.
(** [FundingPayments]; [cursorKey] is [binanceFundingPaymentCursorKey]. *)
Definition FundingPayments (ctx : context) (initialized : bool) (prefix cursorKey : string) req (clock : nat → time)
    (GetIncomeHistory : IncomeQuery → result sdk_error (list Income)) : result error (FundingPaymentPage D) :=
  let operation := "FundingPayments" in
  _ <-? binancePerpReady ctx initialized prefix operation ;;
  symbol <-? match yr_Instrument req with None => Ok "" | Some i => perp_invalid_by operation (binancePerpRequestSymbols i) end ;;
  _ <-? perp_invalid_by operation (validateBoundedHistory (yr_Limit req) (yr_Start req) (yr_End req)) ;;
  let limit := effective_limit (yr_Limit req) in
  check limit <=? 1000 else binancePerpInvalidRequest operation "limit must be between 1 and 1000" ;;
  let scope := fundingPaymentCursorScope sha256 (yr_Instrument req) (yr_SettlementAsset req) (yr_Start req) (yr_End req) limit in
  envelope <-? perp_invalid_by operation (decodeFundingPaymentCursor hmac (yr_Cursor req) cursorKey scope) ;;
  rows <-? perp_queried operation (GetIncomeHistory (query_of req symbol limit (page_number envelope))) ;;
  items <-? map_result (λ '(i, row), payment_row req symbol (clock i) row) (numbered rows) ;;
  Ok (payments_page cursorKey scope envelope req limit rows (concat items) (clock (length rows))).
Definition binanceFundingPaymentCursorKey (baseURL prefix apiKey secretKey : string) : string :=
  fundingPaymentCursorKey sha256
    ["venue=" +:+ VenueBinance; "product=" +:+ ProductPerp; "base_url=" +:+ baseURL; "endpoint_prefix=" +:+ prefix; "api_key=" +:+ apiKey; "secret_key=" +:+ secretKey].
End payments.

(** ** A traversal lists the whole window *)

Section traversal.
Context `{Decimal D} `{DecimalText D} `{JsonLaws} (hmac : string → string → string) (sha256 : string → string) (prefix cursorKey : string).
Implicit Types (req : FundingPaymentRequest D) (row : Income) (history rows : list Income).

(** The endpoint as documented: the records of the type and symbol asked for with
    a time in the closed range, in order, cut into numbered pages *)
Definition asked (q : IncomeQuery) row : bool :=
  String.eqb (ic_IncomeType row) (iq_IncomeType q) && (is_empty (iq_Symbol q) || String.eqb (ic_Symbol row) (iq_Symbol q)) &&
  (iq_StartTime q <=? ic_Time row) && (ic_Time row <=? iq_EndTime q).
Definition page_of {A} (limit page : Z) (l : list A) : list A := take (Z.to_nat limit) (drop (Z.to_nat ((page - 1) * limit)) l).
Definition income_endpoint history (q : IncomeQuery) : result sdk_error (list Income) :=
  Ok (page_of (iq_Limit q) (iq_Page q) (List.filter (asked q) history)).
Definition at_cursor req (cursor : string) : FundingPaymentRequest D :=
  mkPaymentRequest (yr_Instrument req) (yr_Start req) (yr_End req) cursor (yr_Limit req) (yr_SettlementAsset req).
(** Follow the cursors for at most [n] pages; [clocks] numbers the calls. *)
Fixpoint payment_pages (n : nat) req (clocks : nat → nat → time) history : result error (list (FundingPaymentPage D)) :=
  match n with
  | O => Ok []
  | S n' =>
      page <-? FundingPayments hmac sha256 (Some None) true prefix cursorKey req (clocks n) (income_endpoint history) ;;
      if pg_HasMore (yp_Page page) then
        rest <-? payment_pages n' (at_cursor req (pg_Cursor (yp_Page page))) clocks history ;;
        Ok (page :: rest)
      else Ok [page]
  end.
Definition unobserved (p : FundingPayment D) : FundingPayment D :=
  mkPayment (py_PaymentID p) (py_FactID p) (py_NativeSymbol p) (py_NativeID p) (py_SettlementAsset p) (py_Amount p) (py_EffectiveAt p) zero_time (py_Revision p)
    (py_Version p) (py_SourceRef p) (py_FormulaVersion p).
(** The funding payments of the account the request is about, settled in
    [[start, stop)] *)
Definition settled (symbol : string) (start stop : time) row : bool :=
  String.eqb (ic_IncomeType row) "FUNDING_FEE" && (is_empty symbol || String.eqb (ic_Symbol row) symbol) &&
  (start <=? FromMilli (ic_Time row)) && (FromMilli (ic_Time row) <? stop).
Definition request_symbol req (symbol : string) : Prop :=
  match yr_Instrument req with None => symbol = "" | Some i => binancePerpRequestSymbols i = Ok symbol end.
Record bounded_request req (symbol : string) : Prop := mkBounded {
  br_symbol : request_symbol req symbol;
  br_window : yr_Start req < yr_End req; br_start : unix_epoch ≤ yr_Start req; br_end : FromMilli 1 ≤ yr_End req;
  br_limit : 0 ≤ yr_Limit req ≤ 1000; br_prefix : prefix = "" ∨ prefix = binancePerpPrefix;
}.
(** The records of the account are readable. *)
Definition readable req (symbol : string) (f : Income → FundingPayment D) history : Prop :=
  ∀ row, row ∈ history → String.eqb (ic_IncomeType row) "FUNDING_FEE" && (is_empty symbol || String.eqb (ic_Symbol row) symbol) = true →
    (yr_SettlementAsset req = "" ∨ ic_Asset row = yr_SettlementAsset req) ∧ binanceFundingPayment sha256 (yr_Instrument req) zero_time row = Ok (f row).

(** *** One page *)

Lemma payment_observed instrument now row p : binanceFundingPayment sha256 instrument zero_time row = Ok p →
  ∃ p', binanceFundingPayment sha256 instrument now row = Ok p' ∧ unobserved p' = p ∧ py_EffectiveAt p' = FromMilli (ic_Time row).
Proof. unfold binanceFundingPayment. intros (amount & -> & E)%bind_Ok. cbv zeta in E. injection E as <-. by eexists. Qed.
Lemma elem_of_filter_In (P : Income → bool) rows row : row ∈ List.filter P rows → row ∈ rows ∧ P row = true.
Proof. rewrite !list_elem_of_In. apply List.filter_In. Qed.
Lemma read_rows req symbol f (clock : nat → time) history rows k : readable req symbol f history → bounded_request req symbol →
  (∀ row, row ∈ rows → row ∈ history ∧ asked (query_of req symbol (effective_limit (yr_Limit req)) k) row = true) →
  ∀ start, ∃ items, map_result (λ '(i, row), payment_row sha256 req symbol (clock i) row) (zip (seq start (length rows)) rows) = Ok items ∧
    map unobserved (concat items) = map f (List.filter (λ row, withinHalfOpen (FromMilli (ic_Time row)) (yr_Start req) (yr_End req)) rows).
Proof.
  intros Hread Hb. induction rows as [|row rows IH]; intros Hin start; [by exists []|].
  destruct (IH (λ r Hr, Hin r (proj2 (elem_of_cons _ _ _) (or_intror Hr))) (S start)) as (items & E & Hi).
  destruct (Hin row) as [Hrow Ha]; [by left|]. unfold asked, query_of in Ha. cbn [iq_IncomeType iq_Symbol] in Ha.
  apply andb_prop in Ha as [[Ha _]%andb_prop _]. destruct (Hread row Hrow Ha) as [Hasset Hf].
  destruct (payment_observed _ (clock start) _ _ Hf) as (p & Hp & Hu & He).
  change (zip (seq start (length (row :: rows))) (row :: rows)) with ((start, row) :: zip (seq (S start) (length rows)) rows). cbn [map_result].
  unfold payment_row at 1. cbv zeta. rewrite Ha.
  replace (is_empty (yr_SettlementAsset req) || String.eqb (ic_Asset row) (yr_SettlementAsset req)) with true
    by (symmetry; destruct Hasset as [->| ->]; [done|rewrite String.eqb_refl; apply orb_true_r]).
  rewrite Hp. cbn [perp_malformed_by]. rewrite E. eexists. split; [reflexivity|]. rewrite He. cbn [List.filter concat].
  destruct (withinHalfOpen _ _ _); cbn [app map]; by rewrite Hi, ?Hu.
Qed.
Lemma effective_limit_range req symbol : bounded_request req symbol → 0 < effective_limit (yr_Limit req) ≤ 1000.
Proof. intros [_ _ _ _ Hl _]. unfold effective_limit. destruct (Z.leb_spec (yr_Limit req) 0); lia. Qed.
Lemma not_zero t : unix_epoch ≤ t → IsZero t = false.
Proof. unfold IsZero, unix_epoch, Second. intros Ht. apply Z.eqb_neq. lia. Qed.
Lemma end_not_zero req symbol : bounded_request req symbol → IsZero (yr_End req) = false.
Proof. intros [_ _ _ He _ _]. apply not_zero. unfold FromMilli, Millisecond in He. lia. Qed.
Abbreviation scope_of := (λ req, fundingPaymentCursorScope sha256 (yr_Instrument req) (yr_SettlementAsset req) (yr_Start req) (yr_End req) (effective_limit (yr_Limit req))).
Abbreviation within := (λ req row, withinHalfOpen (FromMilli (ic_Time row)) (yr_Start req) (yr_End req)).
(** What the endpoint has for the window; the page and the limit play no part. *)
Definition window_rows req (symbol : string) history : list Income := List.filter (asked (query_of req symbol 0 0)) history.
Lemma page_read req symbol f clock history e : bounded_request req symbol → readable req symbol f history →
  decodeFundingPaymentCursor hmac (yr_Cursor req) cursorKey (scope_of req) = Ok e →
  let rows := page_of (effective_limit (yr_Limit req)) (page_number e) (window_rows req symbol history) in
  ∃ items, FundingPayments hmac sha256 (Some None) true prefix cursorKey req clock (income_endpoint history) =
    Ok (payments_page hmac cursorKey (scope_of req) e req (effective_limit (yr_Limit req)) rows items (clock (length rows))) ∧
  map unobserved items = map f (List.filter (within req) rows).
Proof.
  intros Hb Hread He. cbv zeta. set (rows := page_of _ _ _). pose proof (effective_limit_range _ _ Hb) as Hl.
  destruct (read_rows req symbol f clock history rows (page_number e) Hread Hb) with (start := 0%nat) as (items & Ei & Hi).
  { intros row Hr. apply (elem_of_filter_In (asked (query_of req symbol 0 0))). apply (elem_of_sublist _ _ _ Hr). unfold rows, page_of. etrans; [apply sublist_take|apply sublist_drop]. }
  exists (concat items). split; [|done]. unfold FundingPayments. cbv zeta.
  replace (binancePerpReady _ _ _ _) with (Ok (E:=error) tt) by (destruct Hb as [_ _ _ _ _ [-> | ->]]; by vm_compute). destruct Hb as [Hs Hw Hst Hen Hlim _].
  replace (match yr_Instrument req with None => _ | Some i => _ end) with (Ok (E:=error) symbol)
    by (unfold request_symbol in Hs; destruct (yr_Instrument req); [by rewrite Hs|by rewrite Hs]).
  replace (validateBoundedHistory _ _ _) with (Ok (E:=error) tt)
    by (unfold validateBoundedHistory, Before; rewrite (proj2 (Z.ltb_ge _ _)) by lia; rewrite (proj2 (Z.ltb_lt _ _) Hw), orb_true_r; done).
  cbn [perp_invalid_by]. rewrite (proj2 (Z.leb_le _ _)) by lia. rewrite He. cbn [perp_invalid_by].
  change (income_endpoint history _) with (Ok (E:=sdk_error) rows). cbn [perp_queried]. unfold numbered. by rewrite Ei.
Qed.

(** *** All pages *)

Lemma at_cursor_bounded req symbol cursor : bounded_request req symbol → bounded_request (at_cursor req cursor) symbol.
Proof. by intros []. Qed.
Lemma filter_length_le {A} (P : A → bool) l : (length (List.filter P l) ≤ length l)%nat.
Proof. apply List.filter_length_le. Qed.
(** The next cursor resumes at the next page with the items counted so far. *)
Definition advanced req (page seen : Z) : fundingPaymentCursorEnvelope :=
  mkEnvelope 1 (fundingPaymentCursorScopeTokenDigest hmac cursorKey (ce_ScopeDigest (scope_of req))) "" page seen 0 true.
Lemma next_decodes req page seen : int64 page → int64 seen →
  decodeFundingPaymentCursor hmac (encodeFundingPaymentCursor hmac cursorKey (mkEnvelope (ce_Version (scope_of req)) (ce_ScopeDigest (scope_of req)) (ce_VenueCursor (scope_of req))
    page seen (ce_SliceStartMillis (scope_of req)) (ce_TraversalStarted (scope_of req)))) cursorKey (scope_of req) = Ok (advanced req page seen).
Proof.
  intros Hp Hs. rewrite decode_encode; [cbn [ce_ScopeDigest]; by rewrite String.eqb_refl|].
  split_and!; cbn [ce_Page ce_ItemsSeen ce_SliceStartMillis ce_VenueCursor fundingPaymentCursorScope]; [done|done|unfold int64, int64_min, int64_max; lia|done].
Qed.
Lemma advanced_page req page seen : 1 ≤ page → page_number (advanced req page seen) = page.
Proof. intros Hp. unfold page_number, advanced. cbn [ce_Page]. by rewrite (proj2 (Z.eqb_neq _ _)) by lia. Qed.
(** The pages from one position on *)
Definition listed_from req (f : Income → FundingPayment D) (clocks : nat → nat → time) (seen : Z) rows (pages : list (FundingPaymentPage D)) : Prop :=
  map unobserved (concat (map yp_Items pages)) = map f (List.filter (within req) rows) ∧
  ∃ page i j, last pages = Some page ∧ pg_HasMore (yp_Page page) = false ∧
    yp_Status page = fundingPaymentCompletionStatus (seen + Z.of_nat (length (List.filter (within req) rows))) false (yr_Start req) (yr_End req)
      (fundingPaymentRetainedSince (yr_Start req) (clocks i j) 3) (clocks i j).
Lemma pages_from req symbol f clocks history n : bounded_request req symbol → readable req symbol f history → Z.of_nat (length history) < int64_max - 1 →
  ∀ cursor e, let L := effective_limit (yr_Limit req) in let rows := drop (Z.to_nat ((page_number e - 1) * L)) (window_rows req symbol history) in
  decodeFundingPaymentCursor hmac cursor cursorKey (scope_of req) = Ok e → 1 ≤ page_number e →
  0 ≤ ce_ItemsSeen e ≤ (page_number e - 1) * L → (page_number e - 1) * L ≤ Z.of_nat (length history) → (length rows < n * Z.to_nat L)%nat →
  ∃ pages, payment_pages n (at_cursor req cursor) clocks history = Ok pages ∧ listed_from req f clocks (ce_ItemsSeen e) rows pages.
Proof.
  intros Hb Hread Hlen. induction n as [|n IH]; intros cursor e; cbv zeta; intros He Hp Hs Hh Hn; [lia|]. cbn [payment_pages].
  set (L := effective_limit (yr_Limit req)) in *. pose proof (effective_limit_range _ _ Hb) as HL. fold L in HL.
  destruct (page_read (at_cursor req cursor) symbol f (clocks (S n)) history e (at_cursor_bounded _ _ _ Hb) Hread He) as (items & -> & Hi).
  cbn [at_cursor yr_Instrument yr_Start yr_End yr_Limit yr_SettlementAsset] in *. fold L in Hi |- *.
  change (window_rows (at_cursor req cursor) symbol history) with (window_rows req symbol history) in *.
  set (R := drop _ (window_rows req symbol history)) in *. change (page_of L (page_number e) (window_rows req symbol history)) with (take (Z.to_nat L) R) in *.
  assert (Hitems : length items = length (List.filter (within req) (take (Z.to_nat L) R))) by (rewrite <- (length_map unobserved), Hi, length_map; done).
  unfold payments_page. cbv zeta. cbn [yp_Page pg_HasMore pg_Cursor]. rewrite length_take.
  destruct (Z.leb_spec L (Z.of_nat (Z.to_nat L `min` length R))) as [Hfull|Hshort].
  - pose proof (filter_length_le (within req) (take (Z.to_nat L) R)) as Hle. rewrite length_take in Hle.
    set (seen := ce_ItemsSeen e + Z.of_nat (length items)). set (next := encodeFundingPaymentCursor _ _ _).
    assert (Hrows : (length (window_rows req symbol history) ≤ length history)%nat) by apply filter_length_le.
    assert (HR : (length R = length (window_rows req symbol history) - Z.to_nat ((page_number e - 1) * L))%nat) by apply length_drop.
    assert (Hseen : 0 ≤ seen ≤ page_number e * L) by lia.
    assert (Hpl : page_number e * L ≤ Z.of_nat (length history)) by lia.
    assert (Hd : decodeFundingPaymentCursor hmac next cursorKey (scope_of req) = Ok (advanced req (page_number e + 1) seen)).
    { apply next_decodes; unfold int64, int64_min, int64_max in *; nia. }
    specialize (IH next _ Hd). cbv zeta in IH. rewrite advanced_page in IH by lia. cbn [advanced ce_ItemsSeen] in IH.
    replace (page_number e + 1 - 1) with (page_number e) in IH by lia. fold L in IH.
    assert (Hdrop : drop (Z.to_nat (page_number e * L)) (window_rows req symbol history) = drop (Z.to_nat L) R).
    { unfold R. rewrite drop_drop. f_equal. nia. }
    rewrite Hdrop in IH. destruct IH as (pages & Ep & Hall & page & i & j & Hlast & Hm & Hst); [lia|lia|lia|rewrite length_drop; lia|].
    change (at_cursor (at_cursor req cursor) next) with (at_cursor req next). rewrite Ep. eexists. split; [reflexivity|]. split.
    + cbn [map concat yp_Items]. rewrite map_app, Hi, Hall, <- map_app, <- List.filter_app, take_drop. done.
    + exists page, i, j. split; [by rewrite last_cons, Hlast|]. split; [done|]. rewrite Hst. f_equal. unfold seen.
      rewrite Hitems. rewrite <- (take_drop (Z.to_nat L) R) at 3. rewrite List.filter_app, length_app. lia.
  - assert (Ht : take (Z.to_nat L) R = R) by (apply take_ge; lia). rewrite Ht in *. eexists. split; [reflexivity|]. split.
    + cbn [map concat yp_Items]. by rewrite app_nil_r.
    + eexists _, (S n), _. split; [reflexivity|]. cbn [yp_Page pg_HasMore yp_Status]. split; [done|]. by rewrite Hitems.
Qed.

(** The venue's closed range of milliseconds and the client's half-open window of
    times together ask for the payments up to the last whole millisecond. *)
Lemma window_settled req symbol history : bounded_request req symbol →
  List.filter (within req) (window_rows req symbol history) = List.filter (settled symbol (yr_Start req) (FromMilli (UnixMilli (yr_End req)))) history.
Proof.
  intros Hb. unfold window_rows. rewrite filter_and. apply List.filter_ext. intros row. pose proof (end_not_zero _ _ Hb) as Hz. destruct Hb as [_ Hw Hst Hen _ _].
  unfold asked, settled, query_of, optionalMillis, withinHalfOpen. cbn [iq_IncomeType iq_Symbol iq_StartTime iq_EndTime]. rewrite Hz, not_zero by done. rewrite <- !andb_assoc. f_equal. f_equal.
  unfold UnixMilli, FromMilli, Before, Millisecond in *. pose proof (Z.div_mod (yr_End req - unix_epoch) 1000000) as He. pose proof (Z.mod_pos_bound (yr_End req - unix_epoch) 1000000) as Hr.
  pose proof (Z.div_mod (yr_Start req - unix_epoch) 1000000) as Hs. pose proof (Z.mod_pos_bound (yr_Start req - unix_epoch) 1000000) as Hq.
  rewrite (proj2 (Z.ltb_lt 0 _)) by lia. cbn [negb andb].
  set (t := ic_Time row) in *. destruct (Z.leb_spec ((yr_Start req - unix_epoch) / 1000000) t), (Z.leb_spec t ((yr_End req - unix_epoch) / 1000000 - 1)),
    (Z.ltb_spec (unix_epoch + t * 1000000) (yr_Start req)), (Z.ltb_spec (unix_epoch + t * 1000000) (yr_End req)), (Z.leb_spec (yr_Start req) (unix_epoch + t * 1000000)),
    (Z.ltb_spec (unix_epoch + t * 1000000) (unix_epoch + (yr_End req - unix_epoch) / 1000000 * 1000000)); cbn [negb andb]; (reflexivity || (exfalso; lia)).
Qed.

(** C17: following the cursors of a bounded request ends, and has then listed every
    funding payment settled from its start to the last whole millisecond of its
    end, once and in order; the last page says that there are no more, and its
    status is that of the whole traversal, whatever the pages were. *)
Theorem binance_funding_followed req symbol f clocks history n :
  bounded_request req symbol → readable req symbol f history → yr_Cursor req = "" → Z.of_nat (length history) < int64_max - 1 →
  (length (window_rows req symbol history) < n * Z.to_nat (effective_limit (yr_Limit req)))%nat →
  let payments := List.filter (settled symbol (yr_Start req) (FromMilli (UnixMilli (yr_End req)))) history in
  ∃ pages page i j, payment_pages n req clocks history = Ok pages ∧ map unobserved (concat (map yp_Items pages)) = map f payments ∧
    last pages = Some page ∧ pg_HasMore (yp_Page page) = false ∧
    yp_Status page = fundingPaymentCompletionStatus (Z.of_nat (length payments)) false (yr_Start req) (yr_End req)
      (fundingPaymentRetainedSince (yr_Start req) (clocks i j) 3) (clocks i j).
Proof.
  intros Hb Hread Hc Hlen Hn. cbv zeta. rewrite <- (window_settled _ _ _ Hb).
  destruct (pages_from req symbol f clocks history n Hb Hread Hlen "" (mkEnvelope 0 (ce_ScopeDigest (scope_of req)) "" 0 0 0 true)) as (pages & Ep & Hall & page & i & j & Hl & Hm & Hs);
    [done|done|cbn; lia|cbn; lia|exact Hn|].
  replace (at_cursor req "") with req in Ep by (destruct req; cbn in *; by subst). exists pages, page, i, j. done.
Qed.
End traversal.

(** ** Examples *)

#[local] Existing Instance bits_json.
#[local] Existing Instance bits_json_laws.
Definition funding_row (asset amount : string) (at_ n : Z) : Income := mkIncome "BTCUSDT" "FUNDING_FEE" amount asset at_ n "".
Definition plain_hash (text : string) : string := text.
Definition eight_hours : Z := 28800000.
Definition funding_start : Z := 1700000000000.
Definition paid (n : Z) : Income := funding_row "USDT" "-0.25" (funding_start + n * eight_hours) (40 + n).
Definition paid_history : list Income := [paid (-1); paid 0; paid 1; paid 2; paid 3].
Definition payments_request (stop : time) : FundingPaymentRequest fixed := mkPaymentRequest (Some btc_instrument) (FromMilli funding_start) stop "" 2 "USDT".
Definition later (call reading : nat) : time := FromMilli (funding_start + 4 * eight_hours).
Definition paid_as (row : Income) : FundingPayment fixed :=
  match binanceFundingPayment plain_hash (Some btc_instrument) zero_time row with
  | Ok payment => payment
  | Err _ => mkPayment "" "" "" "" "" (mkFixed 0 0) zero_time zero_time 0 "" "" ""
  end.
Lemma binance_funding_followed_witness :
  ∃ pages, payment_pages plain_mac plain_hash "" "key" 3 (payments_request (FromMilli (funding_start + 3 * eight_hours))) later paid_history = Ok pages ∧
    map unobserved (concat (map yp_Items pages)) = map paid_as [paid 0; paid 1; paid 2] ∧
    ∃ page, last pages = Some page ∧ pg_HasMore (yp_Page page) = false ∧ yp_Status page = FundingPaymentsComplete.
Proof.
  destruct (binance_funding_followed plain_mac plain_hash "" "key" (payments_request (FromMilli (funding_start + 3 * eight_hours))) "BTCUSDT" paid_as later paid_history 3)
    as (pages & page & i & j & Ep & Hall & Hl & Hm & Hs).
  - split; [vm_compute; reflexivity|vm_compute; reflexivity|vm_compute; discriminate|vm_compute; discriminate|cbn; lia|by left].
  - intros row Hr _. repeat (apply elem_of_cons in Hr as [->|Hr]; [split; [by right|vm_compute; reflexivity]|]). by apply elem_of_nil in Hr.
  - reflexivity.
  - vm_compute. reflexivity.
  - vm_compute. lia.
  - exists pages. split; [exact Ep|]. split; [exact Hall|]. exists page. split; [exact Hl|]. split; [exact Hm|]. rewrite Hs. vm_compute. reflexivity.
Defined.
(** An end half a millisecond past a settlement: the window holds the settlement,
    the history is called complete through that end, and the payment is missing. *)
Definition half_past : time := FromMilli (funding_start + eight_hours) + 500000.
Example last_millisecond_dropped :
  withinHalfOpen (FromMilli (ic_Time (paid 1))) (FromMilli funding_start) half_past = true ∧
  match payment_pages plain_mac plain_hash "" "key" 3 (payments_request half_past) later paid_history with
  | Ok [page] => map py_PaymentID (yp_Items page) = ["40"] ∧ yp_Status page = FundingPaymentsComplete ∧ yp_CompleteThrough page = half_past
  | _ => False
  end.
Proof. vm_compute. auto. Qed.
