(* ===== verification/Paging.v ===== *)
(** * Cursor walks of the SDKs

    The loops of [sdk/bybit/order_rest.go], [sdk/bybit/private_rest.go],
    [sdk/bybit/public_rest.go] and [sdk/bitget/private_rest.go] that follow the
    page cursors of a venue: order history and its scan, open orders, executions,
    positions, instruments and fills.  What the venue answers to one page request
    is an argument; a page counter bounds every loop, so recursion is on the
    pages left. *)

From Stdlib Require Import Ascii String ZArith Lia.
From stdpp Require Import base list strings gmap.
From S2P Require Import Prelude GoStrings Errors Model HttpErrors Sockets VenueErrors.

#[local] Open Scope string_scope.
#[local] Open Scope list_scope.
#[local] Open Scope Z_scope.
#[local] Open Scope go_scope.

(** [fmt.Errorf] *)
Definition text_failure (text : string) : sdk_error := mkSDK (EText text) text [] None (λ _, None) None.
(** [ResponseError] of either SDK *)
Definition response_failure (text : string) (venue : venue_api) (a : api_error) : sdk_error :=
  mkSDK (EText text) text [] None (λ v, if bool_decide (v = venue) then Some a else None) None.

(** ** Bybit *)

Record bybit_envelope (A : Type) := mkBybit { by_RetCode : Z; by_RetMsg : string; by_List : list A; by_NextPageCursor : string }.
Arguments mkBybit {A}.
Arguments by_RetCode {A} _.
Arguments by_RetMsg {A} _.
Arguments by_List {A} _.
Arguments by_NextPageCursor {A} _.
Definition maxPaginationPages : nat := 1000.
Definition maxOrderHistoryWindowMillis : Z := 7 * 24 * Hour / Millisecond.
Definition bybit_newResponseError (operation : string) (code : Z) (message : string) : sdk_error :=
  response_failure ("bybit sdk: " +:+ operation +:+ " failed: " +:+ FormatInt code +:+ " " +:+ message) BybitResponse (mkAPI 0 code "" message).
(** A decoded reply, or the failure of its code *)
Definition bybit_page {A} (operation : string) (reply : result sdk_error (bybit_envelope A)) : result sdk_error (list A * string) :=
  resp <-? reply ;;
  check by_RetCode resp =? 0 else bybit_newResponseError operation (by_RetCode resp) (by_RetMsg resp) ;;
  Ok (by_List resp, by_NextPageCursor resp).

Section bybit.
Context {A : Type} (Quote : string → string).
Implicit Types (seen : gset string) (more : nat).

(** The number of the page of which [more] may still follow *)
Definition page_no more : Z := Z.of_nat maxPaginationPages - Z.of_nat more.
Definition nextPaginationCursor (operation current next : string) (page : Z) seen : result sdk_error string :=
  check negb (String.eqb next current) else text_failure ("bybit sdk: " +:+ operation +:+ " repeated cursor") ;;
  check negb (bool_decide (next ∈ seen)) else text_failure ("bybit sdk: " +:+ operation +:+ " repeated cursor") ;;
  check page <? Z.of_nat maxPaginationPages
    else text_failure ("bybit sdk: " +:+ operation +:+ " page limit " +:+ FormatInt (Z.of_nat maxPaginationPages) +:+ " exceeded") ;;
  Ok next.
(** The check of [GetPositions] *)
Definition positionsCursor (current next : string) (page : Z) seen : result sdk_error string :=
  check negb (bool_decide (next ∈ seen)) else text_failure ("bybit sdk: get positions cursor cycle detected at " +:+ Quote next) ;;
  check page <? Z.of_nat maxPaginationPages
    else text_failure ("bybit sdk: get positions page limit " +:+ FormatInt (Z.of_nat maxPaginationPages) +:+ " exceeded") ;;
  Ok next.
(** The loop of [GetRealtimeOrders], [GetInstrumentsForBase] and [GetPositions]:
    [single] asks for one page only. *)
Fixpoint collect_pages (pages : nat) (get : string → result sdk_error (list A * string)) (advance : string → string → Z → gset string → result sdk_error string)
    (single : bool) (cursor : string) seen : result sdk_error (list A) :=
  match pages with
  | O => Ok []
  | S more =>
      page <-? get cursor ;;
      if is_empty page.2 || single then Ok page.1
      else
        next <-? advance cursor page.2 (page_no more) seen ;;
        rest <-? collect_pages more get advance single next ({[next]} ∪ seen) ;;
        Ok (page.1 ++ rest)
  end.
(** [category], [symbol], [settleCoin] and [openOnly] only enter the query, which is
    [get]'s. *)
Definition GetRealtimeOrders (orderID orderLinkID : string) (get : Z → string → result sdk_error (bybit_envelope A)) : result sdk_error (list A) :=
  let operation := "get realtime orders" in
  collect_pages maxPaginationPages (λ cursor, bybit_page operation (get 50 cursor)) (nextPaginationCursor operation)
    (negb (is_empty orderID) || negb (is_empty orderLinkID)) "" ∅.
Definition GetOpenOrders (get : Z → string → result sdk_error (bybit_envelope A)) : result sdk_error (list A) := GetRealtimeOrders "" "" get.
Definition GetInstrumentsForBase (category : string) (get : Z → string → result sdk_error (bybit_envelope A)) : result sdk_error (list A) :=
  let operation := "get instruments" in
  collect_pages maxPaginationPages (λ cursor, bybit_page operation (get 1000 cursor)) (nextPaginationCursor operation) (String.eqb category "spot") "" ∅.
Definition GetPositions (get : string → result sdk_error (bybit_envelope A)) : result sdk_error (list A) :=
  collect_pages maxPaginationPages (λ cursor, bybit_page "get positions" (get cursor)) positionsCursor false "" ∅.

(** [GetOrderHistoryRequest] *)
Record GetOrderHistoryRequest := mkHistory {
  hr_Category : string; hr_Symbol : string; hr_SettleCoin : string; hr_OrderID : string; hr_OrderLinkID : string; hr_StartMillis : Z; hr_EndMillis : Z;
}.
(** The visitor keeps a state of its own. *)
Fixpoint scan_pages {T : Type} (pages : nat) (single : bool) (maxRecords : Z) (visit : T → list A → result sdk_error (T * bool))
    (get : Z → string → result sdk_error (bybit_envelope A)) (state : T) (cursor : string) seen (visited : Z) : result sdk_error (T * bool) :=
  match pages with
  | O => Ok (state, false)
  | S more =>
      let operation := "get order history" in
      let pageLimit := Z.min 50 (maxRecords - visited) in
      page <-? bybit_page operation (get pageLimit cursor) ;;
      let truncated := pageLimit <? Z.of_nat (length page.1) in
      let records := if truncated then take (Z.to_nat pageLimit) page.1 else page.1 in
      let visited := visited + Z.of_nat (length records) in
      r <-? visit state records ;;
      if r.2 then Ok (r.1, false)
      else if truncated then Ok (r.1, true)
      else if is_empty page.2 || single then Ok (r.1, false)
      else if maxRecords <=? visited then Ok (r.1, true)
      else
        next <-? nextPaginationCursor operation cursor page.2 (page_no more) seen ;;
        scan_pages more single maxRecords visit get r.1 next ({[next]} ∪ seen) visited
  end.
Definition scanOrderHistory {T : Type} (req : GetOrderHistoryRequest) (maxRecords : Z) (visit : T → list A → result sdk_error (T * bool)) (initial : T)
    (get : GetOrderHistoryRequest → Z → string → result sdk_error (bybit_envelope A)) : result sdk_error (T * bool) :=
  let windowed := (0 <? hr_StartMillis req) && (0 <? hr_EndMillis req) in
  check negb (windowed && (hr_EndMillis req <? hr_StartMillis req)) else text_failure "bybit sdk: order history end time precedes start time" ;;
  check negb (windowed && (maxOrderHistoryWindowMillis <? hr_EndMillis req - hr_StartMillis req))
    else text_failure "bybit sdk: order history window cannot exceed seven days" ;;
  scan_pages maxPaginationPages (negb (is_empty (hr_OrderID req)) || negb (is_empty (hr_OrderLinkID req))) maxRecords visit (get req) initial "" ∅ 0.
Definition ScanOrderHistory {T : Type} (req : GetOrderHistoryRequest) (maxRecords : Z) (visit : option (T → list A → result sdk_error (T * bool))) (initial : T)
    (get : GetOrderHistoryRequest → Z → string → result sdk_error (bybit_envelope A)) : result sdk_error (T * bool) :=
  check 0 <? maxRecords else text_failure "bybit sdk: order history record limit must be positive" ;;
  match visit with
  | None => Err (text_failure "bybit sdk: order history visitor is nil")
  | Some visit => scanOrderHistory req maxRecords visit initial get
  end.
Definition gather (out records : list A) : result sdk_error (list A * bool) := Ok (out ++ records, false).
Definition GetOrderHistoryWithRequest (req : GetOrderHistoryRequest) (get : GetOrderHistoryRequest → Z → string → result sdk_error (bybit_envelope A))
  : result sdk_error (list A) :=
  r <-? scanOrderHistory req int64_max gather [] get ;; Ok r.1.

(** [getExecutions] *)
Fixpoint execution_pages (pages : nat) (bounded : bool) (overallLimit pageLimit : Z) (get : Z → string → result sdk_error (bybit_envelope A)) (out : list A)
    (cursor : string) seen : result sdk_error (list A * bool) :=
  match pages with
  | O => Ok (out, false)
  | S more =>
      reply <-? bybit_page "get executions" (get pageLimit cursor) ;;
      let '(list, next) := reply in
      let page := if bounded && (overallLimit <? Z.of_nat (length out + length list)) then take (Z.to_nat (overallLimit - Z.of_nat (length out))) list else list in
      let out := out ++ page in
      if bounded && (overallLimit <=? Z.of_nat (length out)) then Ok (out, negb (is_empty next) || (length page <? length list)%nat)
      else if is_empty next then Ok (out, false)
      else
        let pageLimit := if bounded then Z.min 100 (overallLimit - Z.of_nat (length out)) else pageLimit in
        check negb (bool_decide (next ∈ seen) || String.eqb next cursor) else text_failure ("bybit sdk: get executions repeated cursor " +:+ Quote next) ;;
        check page_no more <? Z.of_nat maxPaginationPages
          else text_failure ("bybit sdk: get executions page limit " +:+ FormatInt (Z.of_nat maxPaginationPages) +:+ " exceeded") ;;
        execution_pages more bounded overallLimit pageLimit get out next ({[next]} ∪ seen)
  end.
Definition getExecutions (limit : Z) (bounded : bool) (get : Z → string → result sdk_error (bybit_envelope A)) : result sdk_error (list A * bool) :=
  let pageLimit := if limit <=? 0 then 50 else limit in
  let pageLimit := Z.min 100 pageLimit in
  let overallLimit := if bounded && (limit <=? 0) then pageLimit else limit in
  execution_pages maxPaginationPages bounded overallLimit pageLimit get [] "" ∅.
Definition GetExecutionsBounded (limit : Z) (get : Z → string → result sdk_error (bybit_envelope A)) : result sdk_error (list A * bool) := getExecutions limit true get.
Definition GetExecutions (get : Z → string → result sdk_error (bybit_envelope A)) : result sdk_error (list A) := r <-? getExecutions 0 false get ;; Ok r.1.
End bybit.

(** ** Bitget *)

Record bitget_envelope (A : Type) := mkBitget { bg_Code : string; bg_Msg : string; bg_List : list A; bg_Cursor : string }.
Arguments mkBitget {A}.
Arguments bg_Code {A} _.
Arguments bg_Msg {A} _.
Arguments bg_List {A} _.
Arguments bg_Cursor {A} _.
Definition privatePaginationMaxPages : nat := 1000.
Definition bitget_newResponseError (operation code message : string) : sdk_error :=
  response_failure ("bitget sdk: " +:+ operation +:+ " failed: " +:+ code +:+ " " +:+ message) BitgetResponse (mkAPI 0 0 code message).
(** [getOpenOrdersPage], [getOrderHistoryPage] and [getFillsPage] *)
Definition bitget_page {A} (operation : string) (reply : result sdk_error (bitget_envelope A)) : result sdk_error (list A * string) :=
  out <-? reply ;;
  check String.eqb (bg_Code out) "00000" else bitget_newResponseError operation (bg_Code out) (bg_Msg out) ;;
  Ok (bg_List out, bg_Cursor out).

Section bitget.
Context {A : Type} (Quote : string → string).
Implicit Types (seen : gset string).

Definition bitget_fail (operation text : string) : sdk_error := text_failure ("bitget sdk: " +:+ operation +:+ " " +:+ text).
Definition too_many_pages (operation : string) : sdk_error :=
  bitget_fail operation ("exceeded " +:+ FormatInt (Z.of_nat privatePaginationMaxPages) +:+ "-page safety limit").
(** The checks of the next cursor all three loops make *)
Definition bitget_cursor (operation : string) (rows : nat) (current next : string) seen : result sdk_error unit :=
  check negb (rows =? 0)%nat else bitget_fail operation ("returned empty page with non-terminal cursor " +:+ Quote next) ;;
  check negb (String.eqb next current) else bitget_fail operation ("repeated cursor " +:+ Quote next) ;;
  check negb (bool_decide (next ∈ seen)) else bitget_fail operation ("repeated cursor " +:+ Quote next) ;;
  Ok tt.
Definition open_orders_cap : Z := 1000.
Fixpoint open_order_pages (pages : nat) (get : Z → string → result sdk_error (bitget_envelope A)) (records : list A) (cursor : string) seen
  : result sdk_error (list A) :=
  let operation := "get open orders" in
  match pages with
  | O => Err (too_many_pages operation)
  | S more =>
      page <-? bitget_page operation (get 100 cursor) ;;
      let '(list, next) := page in
      check negb (open_orders_cap <? Z.of_nat (length records + length list)) else bitget_fail operation ("exceeded " +:+ FormatInt open_orders_cap +:+ "-record safety limit") ;;
      let records := records ++ list in
      if is_empty next then Ok records
      else
        _ <-? bitget_cursor operation (length list) cursor next seen ;;
        open_order_pages more get records next ({[next]} ∪ seen)
  end.
Definition bitget_GetOpenOrders (get : Z → string → result sdk_error (bitget_envelope A)) : result sdk_error (list A) :=
  open_order_pages privatePaginationMaxPages get [] "" ∅.

(** The loop of [GetOrderHistoryBounded] and [GetFillsBounded] *)
Fixpoint bounded_pages (pages : nat) (operation : string) (overallLimit pageLimit : Z) (get : Z → string → result sdk_error (bitget_envelope A)) (records : list A)
    (cursor : string) seen : result sdk_error (list A * bool) :=
  match pages with
  | O => Err (too_many_pages operation)
  | S more =>
      page <-? bitget_page operation (get pageLimit cursor) ;;
      let '(list, next) := page in
      let pageRecords := if overallLimit <? Z.of_nat (length records + length list) then take (Z.to_nat (overallLimit - Z.of_nat (length records))) list else list in
      let records := records ++ pageRecords in
      if overallLimit <=? Z.of_nat (length records) then Ok (records, negb (is_empty next) || (length pageRecords <? length list)%nat)
      else if is_empty next then Ok (records, false)
      else
        _ <-? bitget_cursor operation (length list) cursor next seen ;;
        bounded_pages more operation overallLimit (Z.min 100 (overallLimit - Z.of_nat (length records))) get records next ({[next]} ∪ seen)
  end.
(** [strconv.Atoi] of the limit, which defaults to 100 *)
Definition overall_limit (what limit : string) : result sdk_error Z :=
  if is_empty limit then Ok 100
  else match ParseInt limit with
  | Some n => check 0 <? n else text_failure ("bitget sdk: invalid " +:+ what +:+ " limit " +:+ Quote limit) ;; Ok n
  | None => Err (text_failure ("bitget sdk: invalid " +:+ what +:+ " limit " +:+ Quote limit))
  end.
Definition bounded_from (operation : string) (overallLimit : Z) (cursor : string) (get : Z → string → result sdk_error (bitget_envelope A)) : result sdk_error (list A * bool) :=
  bounded_pages privatePaginationMaxPages operation overallLimit (Z.min 100 overallLimit) get [] cursor (if is_empty cursor then ∅ else {[cursor]}).
Definition validateOrderHistoryWindow (startTime endTime : string) : result sdk_error unit :=
  if is_empty startTime || is_empty endTime then Ok tt
  else match ParseInt startTime with
  | None => Err (text_failure ("bitget sdk: invalid order history startTime " +:+ Quote startTime))
  | Some start =>
      match ParseInt endTime with
      | None => Err (text_failure ("bitget sdk: invalid order history endTime " +:+ Quote endTime))
      | Some stop =>
          check start <=? stop
            else text_failure ("bitget sdk: order history startTime " +:+ FormatInt start +:+ " is after endTime " +:+ FormatInt stop) ;;
          check negb (30 * 24 * 60 * 60 * 1000 <? wrap64 (stop - start)) else text_failure "bitget sdk: order history window exceeds 30 days" ;;
          Ok tt
      end
  end.
Definition GetOrderHistoryBounded (startTime endTime limit cursor : string) (get : Z → string → result sdk_error (bitget_envelope A))
  : result sdk_error (list A * bool) :=
  overallLimit <-? overall_limit "order history" limit ;;
  _ <-? validateOrderHistoryWindow startTime endTime ;;
  bounded_from "get order history" overallLimit cursor get.
Definition GetFillsBounded (limit cursor : string) (get : Z → string → result sdk_error (bitget_envelope A)) : result sdk_error (list A * bool) :=
  overallLimit <-? overall_limit "fills" limit ;; bounded_from "get fills" overallLimit cursor get.
End bitget.

(** ** The walks return what the venue has *)

Section exact.
Context {A : Type} (Quote : string → string) (rows : list A) (cursor_at : nat → string).
Implicit Types (seen : gset string) (n k pages : nat) (limit : Z).

(** The cursor of each position of the venue's list; only the first can be empty. *)
Record numbered_cursors : Prop := mkCursors { nc_solid : ∀ n, (0 < n)%nat → cursor_at n ≠ ""; nc_inj : ∀ n m, cursor_at n = cursor_at m → n = m }.
Definition next_at k n : string := if (n + k <? length rows)%nat then cursor_at (n + k) else "".
(** An endpoint that answers a position with the next [k] rows and the cursor after
    them, empty when nothing remains *)
Definition serves {E} (ok : list A → string → E) k (get : string → result sdk_error E) : Prop :=
  ∀ n, (n ≤ length rows)%nat → get (cursor_at n) = Ok (ok (take k (drop n rows)) (next_at k n)).
Definition behind seen n : Prop := ∀ c, c ∈ seen → ∃ m, (m ≤ n)%nat ∧ c = cursor_at m.
Context (Hc : numbered_cursors).

Lemma behind_fresh seen n m : behind seen n → (n < m)%nat → cursor_at m ∉ seen.
Proof. intros Hb Hm (i & Hi & E)%Hb. apply (nc_inj Hc) in E. lia. Qed.
Lemma behind_next seen n m : behind seen n → (n ≤ m)%nat → behind ({[cursor_at m]} ∪ seen) m.
Proof. intros Hb Hm c [->%elem_of_singleton|(i & Hi & ->)%Hb]%elem_of_union; [by exists m|exists i; split; [lia|done]]. Qed.
Lemma cursor_moves n m : (n < m)%nat → String.eqb (cursor_at m) (cursor_at n) = false.
Proof. intros Hm. apply String.eqb_neq. intros E%(nc_inj Hc). lia. Qed.
Lemma cursor_solid n : (0 < n)%nat → is_empty (cursor_at n) = false.
Proof. intros Hn. apply String.eqb_neq, (nc_solid Hc), Hn. Qed.
Lemma next_at_last k n : (length rows ≤ n + k)%nat → next_at k n = "".
Proof. intros Hn. unfold next_at. by rewrite (proj2 (Nat.ltb_ge _ _)) by lia. Qed.
Lemma next_at_more k n : (n + k < length rows)%nat → next_at k n = cursor_at (n + k).
Proof. intros Hn. unfold next_at. by rewrite (proj2 (Nat.ltb_lt _ _)). Qed.
Lemma page_no_more n : (0 < n)%nat → (page_no n <? Z.of_nat maxPaginationPages) = true.
Proof. unfold page_no. lia. Qed.

(** *** All rows *)

Definition lenient (advance : string → string → Z → gset string → result sdk_error string) : Prop :=
  ∀ current next page seen, String.eqb next current = false → next ∉ seen → (page <? Z.of_nat maxPaginationPages) = true → advance current next page seen = Ok next.
Lemma lenient_next operation : lenient (nextPaginationCursor operation).
Proof. intros current next page seen E Hs Hp. unfold nextPaginationCursor. by rewrite E, bool_decide_false, Hp. Qed.
Lemma lenient_positions : lenient (positionsCursor Quote).
Proof. intros current next page seen E Hs Hp. unfold positionsCursor. by rewrite bool_decide_false, Hp. Qed.
Lemma collect_exact k get advance pages n seen : (0 < k)%nat → serves pair k get → lenient advance → behind seen n → (n ≤ length rows)%nat →
  (0 < pages)%nat → (length rows - n ≤ pages * k)%nat → collect_pages pages get advance false (cursor_at n) seen = Ok (drop n rows).
Proof.
  intros Hk Hget Hadv. revert n seen. induction pages as [|more IH]; intros n seen Hb Hn Hp Hlen; [lia|]. cbn [collect_pages]. rewrite (Hget n Hn). cbn [fst snd].
  rewrite orb_false_r. destruct (decide (n + k < length rows)%nat) as [Hlt|Hge].
  - rewrite next_at_more, cursor_solid by lia. rewrite Hadv; [|apply cursor_moves; lia|eapply behind_fresh; [exact Hb|lia]|apply page_no_more; lia].
    rewrite IH; [|eapply behind_next; [exact Hb|lia]|lia|lia|lia]. by rewrite <- drop_drop, take_drop.
  - rewrite next_at_last by lia. change (is_empty "") with true. cbn [orb]. by rewrite take_ge by (rewrite length_drop; lia).
Qed.
Lemma bybit_serves operation k get : serves (mkBybit 0 "") k get → serves pair k (λ cursor, bybit_page operation (get cursor)).
Proof. intros Hget n Hn. unfold bybit_page. by rewrite Hget. Qed.
Lemma bitget_serves operation k get : serves (mkBitget "00000" "") k get → serves pair k (λ cursor, bitget_page operation (get cursor)).
Proof. intros Hget n Hn. unfold bitget_page. by rewrite Hget. Qed.

(** *** Up to a limit *)

(** One page of a bounded walk at position [n]: what it adds is what was asked for,
    and the walk is over exactly when the limit or the end is reached. *)
Lemma bounded_step n limit cap : (n ≤ length rows)%nat → Z.of_nat n < limit → 0 < cap →
  let k := Z.to_nat (Z.min cap (limit - Z.of_nat n)) in
  (0 < k)%nat ∧ length (take n rows) = n ∧ take n rows ++ take k (drop n rows) = take (n + k) rows ∧ Z.of_nat (n + length (take k (drop n rows))) ≤ limit ∧
  (limit <= Z.of_nat (n + length (take k (drop n rows))) → (n + k)%nat = Z.to_nat limit ∧ (n + k ≤ length rows)%nat) ∧
  (Z.of_nat (n + length (take k (drop n rows))) < limit → (n + k < length rows)%nat → Z.of_nat (n + k) < limit ∧ k = Z.to_nat cap).
Proof.
  intros Hn Hl Hcap. cbv zeta. rewrite !length_take, length_drop. split_and!; [lia|lia|by rewrite take_take_drop|lia|lia|lia].
Qed.
Lemma executions_exact get limit pages n seen : (∀ k, (0 < k)%nat → serves (mkBybit 0 "") k (get (Z.of_nat k))) → behind seen n → (n ≤ length rows)%nat →
  Z.of_nat n < limit → (0 < pages)%nat → (Z.to_nat limit `min` length rows - n ≤ pages * 100)%nat →
  execution_pages Quote pages true limit (Z.min 100 (limit - Z.of_nat n)) get (take n rows) (cursor_at n) seen =
  Ok (take (Z.to_nat limit) rows, limit <? Z.of_nat (length rows)).
Proof.
  intros Hget. revert n seen. induction pages as [|more IH]; intros n seen Hb Hn Hl Hp Hlen; [lia|]. cbn [execution_pages].
  destruct (bounded_step n limit 100 Hn Hl ltac:(lia)) as (Hk & Hlr & Happ & Hle & Hstop & Hgo). set (k := Z.to_nat (Z.min 100 (limit - Z.of_nat n))) in *.
  replace (Z.min 100 (limit - Z.of_nat n)) with (Z.of_nat k) by lia. rewrite (bybit_serves _ k _ (Hget k Hk) n Hn). cbn [andb].
  rewrite Hlr, (proj2 (Z.ltb_ge _ _)) by lia. cbv zeta. rewrite length_app, Hlr, Nat.ltb_irrefl, orb_false_r, Happ.
  destruct (Z.leb_spec limit (Z.of_nat (n + length (take k (drop n rows))))) as [Hfull|Hshort].
  - destruct (Hstop Hfull) as [Ek Hkl]. rewrite Ek. f_equal. f_equal. destruct (decide (n + k < length rows)%nat).
    + rewrite next_at_more, cursor_solid by lia. cbn [negb]. lia.
    + rewrite next_at_last by lia. change (negb (is_empty "")) with false. lia.
  - destruct (decide (n + k < length rows)%nat) as [Hlt|Hge].
    + destruct (Hgo Hshort Hlt) as [Hnk Ek]. rewrite next_at_more, cursor_solid by lia. rewrite bool_decide_false by (eapply behind_fresh; [exact Hb|lia]).
      rewrite cursor_moves, page_no_more by lia. cbn [negb orb]. rewrite length_take, length_drop.
      replace (n + k `min` (length rows - n))%nat with (n + k)%nat by lia. apply IH; [eapply behind_next; [exact Hb|lia]|lia|lia|lia|lia].
    + rewrite next_at_last by lia. change (is_empty "") with true. cbv iota. rewrite length_take, length_drop in Hshort. f_equal. f_equal; [|lia].
      rewrite !take_ge by lia. done.
Qed.
Lemma scan_exact get limit pages n seen : (∀ k, (0 < k)%nat → serves (mkBybit 0 "") k (get (Z.of_nat k))) → behind seen n → (n ≤ length rows)%nat →
  Z.of_nat n < limit → (0 < pages)%nat → (Z.to_nat limit `min` length rows - n ≤ pages * 50)%nat →
  scan_pages pages false limit gather get (take n rows) (cursor_at n) seen (Z.of_nat n) = Ok (take (Z.to_nat limit) rows, limit <? Z.of_nat (length rows)).
Proof.
  intros Hget. revert n seen. induction pages as [|more IH]; intros n seen Hb Hn Hl Hp Hlen; [lia|]. cbn [scan_pages].
  destruct (bounded_step n limit 50 Hn Hl ltac:(lia)) as (Hk & Hlr & Happ & Hle & Hstop & Hgo). set (k := Z.to_nat (Z.min 50 (limit - Z.of_nat n))) in *.
  replace (Z.min 50 (limit - Z.of_nat n)) with (Z.of_nat k) by lia. cbv zeta. rewrite (bybit_serves _ k _ (Hget k Hk) n Hn). cbn [fst snd].
  rewrite (proj2 (Z.ltb_ge _ _)) by (rewrite length_take; lia). cbn [gather fst snd]. rewrite Happ, orb_false_r.
  destruct (decide (n + k < length rows)%nat) as [Hlt|Hge].
  - rewrite next_at_more, cursor_solid by lia. rewrite length_take, length_drop in *. replace (k `min` (length rows - n))%nat with k in * by lia.
    destruct (Z.leb_spec limit (Z.of_nat n + Z.of_nat k)) as [Hfull|Hshort].
    + destruct (Hstop ltac:(lia)) as [-> _]. f_equal. f_equal. lia.
    + destruct (Hgo ltac:(lia) Hlt) as [Hnk Ek]. rewrite lenient_next; [|apply cursor_moves; lia|eapply behind_fresh; [exact Hb|lia]|apply page_no_more; lia].
      replace (Z.of_nat n + Z.of_nat k) with (Z.of_nat (n + k)) by lia. apply IH; [eapply behind_next; [exact Hb|lia]|lia|lia|lia|lia].
  - rewrite next_at_last by lia. change (is_empty "") with true. cbv iota. f_equal. rewrite !take_ge; [f_equal; lia|lia|lia].
Qed.
Lemma bitget_cursor_moves operation n m count seen : behind seen n → (n < m)%nat → (0 < count)%nat → bitget_cursor Quote operation count (cursor_at n) (cursor_at m) seen = Ok tt.
Proof.
  intros Hb Hm Hcount. unfold bitget_cursor. rewrite (proj2 (Nat.eqb_neq _ _)), cursor_moves, bool_decide_false by (lia || (eapply behind_fresh; [exact Hb|lia])). done.
Qed.
Lemma bounded_exact operation get limit pages n seen : (∀ k, (0 < k)%nat → serves (mkBitget "00000" "") k (get (Z.of_nat k))) → behind seen n → (n ≤ length rows)%nat →
  Z.of_nat n < limit → (0 < pages)%nat → (Z.to_nat limit `min` length rows - n ≤ pages * 100)%nat →
  bounded_pages Quote pages operation limit (Z.min 100 (limit - Z.of_nat n)) get (take n rows) (cursor_at n) seen =
  Ok (take (Z.to_nat limit) rows, limit <? Z.of_nat (length rows)).
Proof.
  intros Hget. revert n seen. induction pages as [|more IH]; intros n seen Hb Hn Hl Hp Hlen; [lia|]. cbn [bounded_pages].
  destruct (bounded_step n limit 100 Hn Hl ltac:(lia)) as (Hk & Hlr & Happ & Hle & Hstop & Hgo). set (k := Z.to_nat (Z.min 100 (limit - Z.of_nat n))) in *.
  replace (Z.min 100 (limit - Z.of_nat n)) with (Z.of_nat k) by lia. rewrite (bitget_serves _ k _ (Hget k Hk) n Hn).
  rewrite Hlr, (proj2 (Z.ltb_ge _ _)) by lia. cbv zeta. rewrite length_app, Hlr, Nat.ltb_irrefl, orb_false_r, Happ.
  destruct (Z.leb_spec limit (Z.of_nat (n + length (take k (drop n rows))))) as [Hfull|Hshort].
  - destruct (Hstop Hfull) as [Ek Hkl]. rewrite Ek. f_equal. f_equal. destruct (decide (n + k < length rows)%nat).
    + rewrite next_at_more, cursor_solid by lia. cbn [negb]. lia.
    + rewrite next_at_last by lia. change (negb (is_empty "")) with false. lia.
  - destruct (decide (n + k < length rows)%nat) as [Hlt|Hge].
    + destruct (Hgo Hshort Hlt) as [Hnk Ek]. rewrite next_at_more, cursor_solid by lia. rewrite (bitget_cursor_moves _ n); [|done|lia|rewrite length_take, length_drop; lia].
      rewrite length_take, length_drop. replace (n + k `min` (length rows - n))%nat with (n + k)%nat by lia. apply IH; [eapply behind_next; [exact Hb|lia]|lia|lia|lia|lia].
    + rewrite next_at_last by lia. change (is_empty "") with true. cbv iota. rewrite length_take, length_drop in Hshort. f_equal. f_equal; [|lia].
      rewrite !take_ge by lia. done.
Qed.
(** The open orders of Bitget, or a refusal when there are more than the cap *)
Lemma paged_orders_exact get pages n seen : serves (mkBitget "00000" "") 100 (get 100) → behind seen n → (n ≤ length rows)%nat → (0 < pages)%nat →
  (length rows - n ≤ pages * 100)%nat →
  open_order_pages Quote pages get (take n rows) (cursor_at n) seen =
  if open_orders_cap <? Z.of_nat (length rows) then Err (bitget_fail "get open orders" ("exceeded " +:+ FormatInt open_orders_cap +:+ "-record safety limit")) else Ok rows.
Proof.
  intros Hget. revert n seen. induction pages as [|more IH]; intros n seen Hb Hn Hp Hlen; [lia|]. cbn [open_order_pages]. rewrite (bitget_serves _ 100 _ Hget n Hn).
  assert (Happ : take n rows ++ take 100 (drop n rows) = take (n + 100) rows) by (by rewrite take_take_drop).
  rewrite Happ, !length_take, length_drop. replace (n `min` length rows)%nat with n by lia. destruct (Z.ltb_spec open_orders_cap (Z.of_nat (n + 100 `min` (length rows - n)))) as [Hover|Hin].
  - cbn [negb]. unfold open_orders_cap in *. by rewrite (proj2 (Z.ltb_lt _ _)) by lia.
  - cbn [negb]. destruct (decide (n + 100 < length rows)%nat) as [Hlt|Hge].
    + rewrite next_at_more, cursor_solid by lia. rewrite (bitget_cursor_moves _ n); [|done|lia|lia]. apply IH; [eapply behind_next; [exact Hb|lia]|lia|lia|lia].
    + rewrite next_at_last by lia. change (is_empty "") with true. cbv iota. rewrite (proj2 (Z.ltb_ge _ _)) by lia. by rewrite take_ge by lia.
Qed.

(** A walk that asks for one page only. *)
Lemma collect_single k get advance more seen : serves pair k get → collect_pages (S more) get advance true (cursor_at 0) seen = Ok (take k rows).
Proof. intros Hget. cbn [collect_pages]. rewrite (Hget 0%nat) by lia. cbn [fst snd]. by rewrite orb_true_r. Qed.

(** Executions without a limit, fifty to a page *)
Lemma all_executions_exact get pages n seen : serves (mkBybit 0 "") 50 (get 50) → behind seen n → (n ≤ length rows)%nat →
  (0 < pages)%nat → (length rows - n ≤ pages * 50)%nat →
  execution_pages Quote pages false 0 50 get (take n rows) (cursor_at n) seen = Ok (rows, false).
Proof.
  intros Hget. revert n seen. induction pages as [|more IH]; intros n seen Hb Hn Hp Hlen; [lia|]. cbn [execution_pages].
  rewrite (bybit_serves _ 50 _ Hget n Hn). cbn [andb]. cbv zeta. rewrite take_take_drop. destruct (decide (n + 50 < length rows)%nat) as [Hlt|Hge].
  - rewrite next_at_more, cursor_solid by lia. rewrite bool_decide_false by (eapply behind_fresh; [exact Hb|lia]).
    rewrite cursor_moves, page_no_more by lia. cbn [negb orb]. apply IH; [eapply behind_next; [exact Hb|lia]|lia|lia|lia].
  - rewrite next_at_last by lia. change (is_empty "") with true. cbv iota. by rewrite take_ge by lia.
Qed.

(** A visitor that folds over the rows ends where the fold over all of them does. *)
Lemma scan_visit {T : Type} (f : T → list A → T) (initial : T) pages single limit get out cursor seen visited :
  (∀ st xs ys, f st (xs ++ ys) = f (f st xs) ys) →
  scan_pages pages single limit (λ st records, Ok (f st records, false)) get (f initial out) cursor seen visited =
  match scan_pages pages single limit gather get out cursor seen visited with Ok r => Ok (f initial r.1, r.2) | Err e => Err e end.
Proof.
  intros Hf. revert out cursor seen visited. induction pages as [|more IH]; intros out cursor seen visited; [done|]. cbn [scan_pages]. cbv zeta.
  destruct (bybit_page _ _) as [page|e]; [|done]. cbn [bind gather fst snd]. rewrite <- !Hf.
  destruct (_ <? Z.of_nat (length page.1)); [done|]. destruct (is_empty page.2 || single); [done|]. destruct (limit <=? _); [done|].
  destruct (nextPaginationCursor _ _ _ _ _) as [next|e]; [|done]. cbn [bind]. apply IH.
Qed.

(** The windows the order histories accept: open ones, and up to seven days on
    Bybit and thirty on Bitget. *)
Definition bybit_window (req : GetOrderHistoryRequest) : Prop :=
  hr_StartMillis req ≤ 0 ∨ hr_EndMillis req ≤ 0 ∨ 0 ≤ hr_EndMillis req - hr_StartMillis req ≤ 604800000.
Definition bitget_window (start stop : string) : Prop :=
  start = "" ∨ stop = "" ∨ ∃ a b, ParseInt start = Some a ∧ ParseInt stop = Some b ∧ 0 ≤ b - a ≤ 2592000000.
(** The number a limit field stands for; empty is the default of a hundred. *)
Definition limit_text (text : string) limit : Prop := text = "" ∧ limit = 100 ∨ text ≠ "" ∧ ParseInt text = Some limit ∧ 0 < limit.

Lemma scan_windowed {T : Type} (req : GetOrderHistoryRequest) limit (visit : T → list A → result sdk_error (T * bool)) initial get :
  hr_OrderID req = "" → hr_OrderLinkID req = "" → bybit_window req →
  scanOrderHistory req limit visit initial get = scan_pages maxPaginationPages false limit visit (get req) initial "" ∅ 0.
Proof.
  intros Ho Hl Hw. unfold scanOrderHistory, maxOrderHistoryWindowMillis, bybit_window in *. rewrite Ho, Hl. change (7 * 24 * Hour / Millisecond) with 604800000.
  change (is_empty "") with true. cbn [negb orb].
  rewrite (proj2 (negb_true_iff _)), (proj2 (negb_true_iff _)); [done|lia|lia].
Qed.
Lemma history_exact req limit get : cursor_at 0 = "" → (∀ k, (0 < k)%nat → serves (mkBybit 0 "") k (get (Z.of_nat k))) →
  hr_OrderID req = "" → hr_OrderLinkID req = "" → bybit_window req → 0 < limit → (Z.to_nat limit `min` length rows ≤ 50 * maxPaginationPages)%nat →
  scanOrderHistory req limit gather [] (λ _, get) = Ok (take (Z.to_nat limit) rows, limit <? Z.of_nat (length rows)).
Proof.
  intros H0 Hget Ho Hk Hw Hl Hlen. rewrite scan_windowed by done.
  assert (He : behind ∅ 0) by (intros c Hin; by apply elem_of_empty in Hin).
  pose proof (scan_exact get limit maxPaginationPages 0 ∅ Hget He) as E. rewrite H0 in E. change (take 0 rows) with (@nil A) in E. change (Z.of_nat 0) with 0 in E.
  apply E; [lia|lia|unfold maxPaginationPages; lia|unfold maxPaginationPages in *; lia].
Qed.
Lemma overall_limit_text what text limit : limit_text text limit → overall_limit Quote what text = Ok limit ∧ 0 < limit.
Proof.
  unfold overall_limit, is_empty. intros [[-> ->]|(Hne%String.eqb_neq & Hp & Hl)]; [done|]. rewrite Hne, Hp, (proj2 (Z.ltb_lt _ _)) by done. done.
Qed.
Lemma bitget_window_accepted start stop : bitget_window start stop → validateOrderHistoryWindow Quote start stop = Ok tt.
Proof.
  unfold validateOrderHistoryWindow, is_empty. intros [->|[->|(a & b & Ha & Hb & Hab)]]; [done|by rewrite orb_true_r|].
  destruct (_ || _); [done|]. rewrite Ha, Hb. rewrite (proj2 (Z.leb_le _ _)) by lia. rewrite wrap64_id by (unfold in_int64, int64_min, int64_max; lia).
  by rewrite (proj2 (Z.ltb_ge _ _)) by lia.
Qed.
Lemma bounded_from_exact operation limit get : (∀ k, (0 < k)%nat → serves (mkBitget "00000" "") k (get (Z.of_nat k))) → 0 < limit →
  (Z.to_nat limit `min` length rows ≤ 100 * privatePaginationMaxPages)%nat →
  bounded_from Quote operation limit (cursor_at 0) get = Ok (take (Z.to_nat limit) rows, limit <? Z.of_nat (length rows)).
Proof.
  intros Hget Hl Hlen. unfold bounded_from. replace (Z.min 100 limit) with (Z.min 100 (limit - Z.of_nat 0)) by lia.
  apply (bounded_exact operation _ _ _ 0 _ Hget); [|lia|lia|unfold privatePaginationMaxPages; lia|unfold privatePaginationMaxPages in *; lia].
  destruct (is_empty (cursor_at 0)); [intros c Hin; by apply elem_of_empty in Hin|]. intros c ->%elem_of_singleton. by exists 0%nat.
Qed.

(** What the walks of each SDK return. *)
Definition bybit_walks (get : Z → string → result sdk_error (bybit_envelope A)) : Prop :=
  ((length rows ≤ 50 * maxPaginationPages)%nat → GetOpenOrders get = Ok rows) ∧
  (∀ orderID orderLinkID, orderID ≠ "" ∨ orderLinkID ≠ "" → GetRealtimeOrders orderID orderLinkID get = Ok (take 50 rows)) ∧
  (∀ category, category ≠ "spot" → (length rows ≤ 1000 * maxPaginationPages)%nat → GetInstrumentsForBase category get = Ok rows) ∧
  GetInstrumentsForBase "spot" get = Ok (take 1000 rows) ∧
  (∀ req, hr_OrderID req = "" → hr_OrderLinkID req = "" → bybit_window req → (length rows ≤ 50 * maxPaginationPages)%nat →
     GetOrderHistoryWithRequest req (λ _, get) = Ok rows) ∧
  (∀ req limit (T : Type) (f : T → list A → T) initial, hr_OrderID req = "" → hr_OrderLinkID req = "" → bybit_window req →
     (∀ st xs ys, f st (xs ++ ys) = f (f st xs) ys) → f initial [] = initial →
     0 < limit → (Z.to_nat limit `min` length rows ≤ 50 * maxPaginationPages)%nat →
     ScanOrderHistory req limit (Some (λ st records, Ok (f st records, false))) initial (λ _, get) =
       Ok (f initial (take (Z.to_nat limit) rows), limit <? Z.of_nat (length rows))) ∧
  ((length rows ≤ 50 * maxPaginationPages)%nat → GetExecutions Quote get = Ok rows) ∧
  (∀ limit, 0 < limit → (Z.to_nat limit `min` length rows ≤ 100 * maxPaginationPages)%nat →
     GetExecutionsBounded Quote limit get = Ok (take (Z.to_nat limit) rows, limit <? Z.of_nat (length rows))).
Definition bitget_walks (get : Z → string → result sdk_error (bitget_envelope A)) : Prop :=
  (cursor_at 0 = "" → (length rows ≤ 1000)%nat → bitget_GetOpenOrders Quote get = Ok rows) ∧
  (cursor_at 0 = "" → (1000 < length rows ≤ 100 * privatePaginationMaxPages)%nat → is_ok (bitget_GetOpenOrders Quote get) = false) ∧
  (∀ text limit, limit_text text limit → (Z.to_nat limit `min` length rows ≤ 100 * privatePaginationMaxPages)%nat →
     GetFillsBounded Quote text (cursor_at 0) get = Ok (take (Z.to_nat limit) rows, limit <? Z.of_nat (length rows)) ∧
     ∀ start stop, bitget_window start stop →
       GetOrderHistoryBounded Quote start stop text (cursor_at 0) get = Ok (take (Z.to_nat limit) rows, limit <? Z.of_nat (length rows))).

Lemma bybit_walks_exact get : cursor_at 0 = "" → (∀ k, (0 < k)%nat → serves (mkBybit 0 "") k (get (Z.of_nat k))) → bybit_walks get.
Proof.
  intros H0 Hget. assert (He : behind ∅ 0) by (intros c Hin; by apply elem_of_empty in Hin). unfold bybit_walks. split_and!.
  - intros Hl. pose proof (collect_exact 50 _ _ maxPaginationPages 0 ∅ ltac:(lia) (bybit_serves "get realtime orders" _ _ (Hget 50%nat ltac:(lia))) (lenient_next "get realtime orders") He) as E.
    rewrite H0 in E. apply E; unfold maxPaginationPages in *; lia.
  - intros orderID link Hid. unfold GetRealtimeOrders. replace (negb (is_empty orderID) || negb (is_empty link)) with true.
    2:{ unfold is_empty. destruct (String.eqb_spec orderID ""), (String.eqb_spec link ""); try done. by destruct Hid. }
    pose proof (collect_single 50 _ (nextPaginationCursor "get realtime orders") 999 ∅ (bybit_serves "get realtime orders" _ _ (Hget 50%nat ltac:(lia)))) as E.
    by rewrite H0 in E.
  - intros category Hs Hl. unfold GetInstrumentsForBase. cbv zeta. apply String.eqb_neq in Hs. rewrite Hs.
    pose proof (collect_exact 1000 _ _ maxPaginationPages 0 ∅ ltac:(lia) (bybit_serves "get instruments" _ _ (Hget 1000%nat ltac:(lia))) (lenient_next "get instruments") He) as E.
    rewrite H0 in E. apply E; unfold maxPaginationPages in *; lia.
  - pose proof (collect_single 1000 _ (nextPaginationCursor "get instruments") 999 ∅ (bybit_serves "get instruments" _ _ (Hget 1000%nat ltac:(lia)))) as E.
    by rewrite H0 in E.
  - intros req Ho Hk Hw Hl. unfold GetOrderHistoryWithRequest. rewrite (history_exact req int64_max get) by (done || unfold int64_max, maxPaginationPages in *; lia).
    cbn [bind fst]. rewrite take_ge; [done|]. unfold int64_max, maxPaginationPages in *. lia.
  - intros req limit T f initial Ho Hk Hw Hf Hnil Hl Hlen. unfold ScanOrderHistory. rewrite (proj2 (Z.ltb_lt _ _)) by done.
    rewrite scan_windowed by done. rewrite <- Hnil at 1. rewrite scan_visit by done. rewrite <- (scan_windowed req limit gather [] (λ _, get)) by done.
    by rewrite (history_exact req limit get).
  - intros Hl. unfold GetExecutions, getExecutions. pose proof (all_executions_exact get maxPaginationPages 0 ∅ (Hget 50%nat ltac:(lia)) He) as E.
    rewrite H0 in E. change (take 0 rows) with (@nil A) in E. cbv zeta. change (Z.min 100 (if 0 <=? 0 then 50 else 0)) with 50. cbn [andb]. rewrite E by (unfold maxPaginationPages in *; lia). done.
  - intros limit Hl Hlen. unfold GetExecutionsBounded, getExecutions. cbv zeta. rewrite (proj2 (Z.leb_gt _ _)) by lia. cbn [andb].
    pose proof (executions_exact get limit maxPaginationPages 0 ∅ Hget He) as E. rewrite H0, Z.sub_0_r in E. apply E; unfold maxPaginationPages in *; lia.
Qed.
Lemma bitget_walks_exact get : (∀ k, (0 < k)%nat → serves (mkBitget "00000" "") k (get (Z.of_nat k))) → bitget_walks get.
Proof.
  intros Hget. assert (He : behind ∅ 0) by (intros c Hin; by apply elem_of_empty in Hin). unfold bitget_walks. split_and!.
  - intros H0 Hl. pose proof (paged_orders_exact get privatePaginationMaxPages 0 ∅ (Hget 100%nat ltac:(lia)) He) as E. rewrite H0 in E. unfold bitget_GetOpenOrders.
    change (take 0 rows) with (@nil A) in E. rewrite E by (unfold privatePaginationMaxPages; lia). unfold open_orders_cap. by rewrite (proj2 (Z.ltb_ge _ _)) by lia.
  - intros H0 Hl. pose proof (paged_orders_exact get privatePaginationMaxPages 0 ∅ (Hget 100%nat ltac:(lia)) He) as E. rewrite H0 in E. unfold bitget_GetOpenOrders.
    change (take 0 rows) with (@nil A) in E. rewrite E by (unfold privatePaginationMaxPages in *; lia). unfold open_orders_cap. by rewrite (proj2 (Z.ltb_lt _ _)) by lia.
  - intros text limit Ht Hlen. split.
    + unfold GetFillsBounded. destruct (overall_limit_text "fills" text limit Ht) as [-> Hl]. by apply bounded_from_exact.
    + intros start stop Hw. unfold GetOrderHistoryBounded. destruct (overall_limit_text "order history" text limit Ht) as [-> Hl]. cbn [bind].
      rewrite bitget_window_accepted by done. by apply bounded_from_exact.
Qed.

(** C19: against a venue that pages its list as documented, the walks of the two
    SDKs end within their thousand pages and return exactly the list.  Bybit: open
    orders, positions, derivative instruments, order history over any accepted
    window and executions return all rows; a limited scan or limited executions
    return the first [limit] rows and a flag that says whether rows remain; a
    request for one order, and the spot instruments, take the one page they ask
    for.  Bitget: fills and order history return the first [limit] rows with the
    flag, and open orders all rows up to a thousand, above which the call fails. *)
Theorem walks_exact :
  (∀ get, cursor_at 0 = "" → (∀ k, (0 < k)%nat → serves (mkBybit 0 "") k (get (Z.of_nat k))) → bybit_walks get) ∧
  (∀ get k, (0 < k)%nat → cursor_at 0 = "" → serves (mkBybit 0 "") k get → (length rows ≤ k * maxPaginationPages)%nat → GetPositions Quote get = Ok rows) ∧
  (∀ get, (∀ k, (0 < k)%nat → serves (mkBitget "00000" "") k (get (Z.of_nat k))) → bitget_walks get).
Proof.
  split; [exact bybit_walks_exact|]. split; [|exact bitget_walks_exact]. intros get k Hk H0 Hget Hl. unfold GetPositions.
  assert (He : behind ∅ 0) by (intros c Hin; by apply elem_of_empty in Hin).
  pose proof (collect_exact k _ _ maxPaginationPages 0 ∅ Hk (bybit_serves "get positions" _ _ Hget) lenient_positions He) as E. rewrite H0 in E.
  apply E; unfold maxPaginationPages in *; lia.
Qed.
End exact.

(** ** Concrete inputs *)

(** A venue whose cursors are as long as their position *)
Definition tally (n : nat) : string := Nat.iter n (String "x") "".
Lemma length_tally n : String.length (tally n) = n.
Proof. induction n as [|n IH]; [done|]. cbn. by rewrite <- IH at 2. Qed.
Lemma tally_numbered : numbered_cursors tally.
Proof. split; [intros [|n] Hn; [lia|discriminate]|]. intros n m E%(f_equal String.length). by rewrite !length_tally in E. Qed.
Definition tally_endpoint {A E} (ok : list A → string → E) (rows : list A) (limit : Z) (cursor : string) : result sdk_error E :=
  Ok (ok (take (Z.to_nat limit) (drop (String.length cursor) rows)) (next_at rows tally (Z.to_nat limit) (String.length cursor))).
Lemma tally_serves {A E} (ok : list A → string → E) (rows : list A) k : serves rows tally ok k (tally_endpoint ok rows (Z.of_nat k)).
Proof. intros n Hn. unfold tally_endpoint. by rewrite length_tally, Nat2Z.id. Qed.
Definition quoted (text : string) : string := text.
Definition seven : list Z := [1; 2; 3; 4; 5; 6; 7].
Lemma walks_exact_witness :
  GetExecutionsBounded quoted 3 (tally_endpoint (mkBybit 0 "") seven) = Ok ([1; 2; 3], true) ∧
  GetOrderHistoryWithRequest (mkHistory "linear" "" "" "" "" 1000 604801000) (λ _, tally_endpoint (mkBybit 0 "") seven) = Ok seven ∧
  GetFillsBounded quoted "9" "" (tally_endpoint (mkBitget "00000" "") seven) = Ok (seven, false).
Proof.
  destruct (walks_exact quoted seven tally tally_numbered) as (Hby & _ & Hbg).
  destruct (Hby (tally_endpoint (mkBybit 0 "") seven) eq_refl (λ k _, tally_serves _ _ k)) as (_ & _ & _ & _ & Hh & _ & _ & He).
  destruct (Hbg (tally_endpoint (mkBitget "00000" "") seven) (λ k _, tally_serves _ _ k)) as (_ & _ & Hf).
  change (length seven) with 7%nat in *. unfold maxPaginationPages, privatePaginationMaxPages in *.
  split; [rewrite (He 3) by lia; reflexivity|]. split; [apply Hh; [reflexivity..|right; right; simpl; lia|lia]|].
  destruct (Hf "9" 9) as [Hfills _]; [right; split; [discriminate|split; [vm_compute; reflexivity|lia]]|lia|]. exact Hfills.
Defined.
(** A venue that hands out the same cursor for ever is given up. *)
Definition stuck_endpoint (limit : Z) (cursor : string) : result sdk_error (bybit_envelope Z) := Ok (mkBybit 0 "" [1] "again").
Example stuck_cursor_refused : GetOpenOrders stuck_endpoint = Err (text_failure "bybit sdk: get realtime orders repeated cursor").
Proof. vm_compute. reflexivity. Qed.
