(* ===== verification/BybitBitget.v ===== *)
(** * Bybit and Bitget: instruments and market data

    The shared helpers of [exchange/internal/factoryclient/bybit_bitget.go], the
    instrument loaders of [bybit_bitget_catalog_loader.go] and the two clients'
    books, candles, trades and funding rates.  What the SDKs answer is an
    argument. *)

From Stdlib Require Import Ascii String ZArith Lia.
From stdpp Require Import base list strings gmap.
From S2P Require Import Prelude GoStrings Calendar Decimals DecimalText Errors Model HttpErrors InstrumentCatalog Sockets ExactLookup Credentials Clients.
From S2P Require Import HyperliquidMarkets VenueErrors Commands FundingLoaders DerivativeLoaders Paging Runtime.

#[local] Open Scope string_scope.
#[local] Open Scope list_scope.
#[local] Open Scope Z_scope.
#[local] Open Scope go_scope.

(** ** SDK records *)

(** [bybit.Instrument] with its filters *)
Record bybit_Instrument := mkBybitInstrument {
  bi_Symbol : string; bi_ContractType : string; bi_BaseCoin : string; bi_QuoteCoin : string; bi_SettleCoin : string; bi_Status : string;
  bi_TickSize : string; bi_BasePrecision : string; bi_QtyStep : string; bi_MinOrderQty : string; bi_MinOrderAmt : string; bi_MinNotionalValue : string;
}.
(** [bitget.Instrument] *)
Record bitget_Instrument := mkBitgetInstrument {
  gi_Symbol : string; gi_SymbolType : string; gi_BaseCoin : string; gi_QuoteCoin : string; gi_MinOrderQty : string; gi_MinOrderAmount : string;
  gi_PricePrecision : string; gi_QuantityPrecision : string; gi_PriceMultiplier : string; gi_QuantityMultiplier : string; gi_Status : string;
}.
(** [bybit.OrderBook] *)
Record bybit_OrderBook := mkBybitBook { yb_Bids : list (list string); yb_Asks : list (list string); yb_TS : Z; yb_U : Z }.
(** [bitget.OrderBook] *)
Record bitget_OrderBook := mkBitgetBook { gb_Bids : list (list string); gb_Asks : list (list string); gb_TS : string }.
(** [bybit.PublicTrade] and [bitget.PublicFill], which has a link id too *)
Record venue_trade := mkVenueTrade { vt_ExecID : string; vt_ExecLinkID : string; vt_Price : string; vt_Size : string; vt_Side : string; vt_Time : string }.
(** [bybit.Ticker]: what the client reads of it *)
Record bybit_Ticker := mkBybitTicker { yt_FundingRate : string; yt_MarkPrice : string; yt_Time : string; yt_TS : string; yt_NextFundingTime : string }.
(** [bitget.CurrentFundRateEntry] *)
Record bitget_FundRate := mkBitgetFundRate { gf_FundingRate : string; gf_RequestTime : Z; gf_NextUpdate : string }.
(** [FundingHistoryEntry] and [HistoryFundRateEntry] *)
Record rate_entry := mkRateEntry { re_FundingRate : string; re_Time : string }.
(** [Candle]: seven fields *)
Abbreviation candle_row := (list string) (only parsing).

(** [bybitBase] and [bitgetBase]: what of them is not the SDK *)
Record bybitBase := mkBybitBase { bb_meta : clientMeta; bb_category : string; bb_settleCoin : string }.
Record bitgetBase := mkBitgetBase { gb_meta : clientMeta; gb_category : string; gb_productType : string; gb_marginCoin : string }.
(** [newBybitBase] and [newBitgetBase] as the constructors call them *)
Definition NewBybitSpot : bybitBase := mkBybitBase (mkMeta VenueBybit ProductSpot) "spot" "".
Definition NewBybitLinearPerp (settleCoin : string) : bybitBase := mkBybitBase (mkMeta VenueBybit ProductPerp) "linear" (ToUpper (TrimSpace settleCoin)).
Definition NewBitgetSpot : bitgetBase := mkBitgetBase (mkMeta VenueBitget ProductSpot) "spot" "" "".
Definition NewBitgetPerp (productType : string) : bitgetBase :=
  let productType := ToUpper (TrimSpace productType) in
  mkBitgetBase (mkMeta VenueBitget ProductPerp) productType productType (if Contains productType "USDC" then "USDC" else "USDT").
Definition bitgetCategory (c : bitgetBase) : string := if String.eqb (cm_product (gb_meta c)) ProductSpot then "spot" else gb_productType c.
Definition bitgetCategoryAndSymbol (c : bitgetBase) (symbol : string) : string * string := (bitgetCategory c, symbol).
Definition bitgetPrivateCategory : bitgetBase → string := bitgetCategory.
Definition bitgetPublicWSInstType (c : bitgetBase) : string := ToLower (bitgetCategory c).
Definition bitgetPrivateWSInstType (c : bitgetBase) : string := "UTA".

(** ** Requests *)

Definition ctxErr (ctx : context) (meta : clientMeta) (op : string) : result error unit :=
  match ctx with
  | None => Err (invalid meta op "context is required")
  | Some (Some err) => Err (websocketContextError meta op (Some err))
  | Some None => Ok tt
  end.
Definition asked_venue {A} (meta : clientMeta) (op : string) (reply : result sdk_error A) : result error A :=
  match reply with Ok a => Ok a | Err s => Err (normErr meta op s) end.
Definition bybitSide (side : string) : string := if String.eqb side SideSell then "Sell" else "Buy".
Definition bybitOrderType (type : string) : string := if String.eqb type OrderTypeMarket then "Market" else "Limit".
Definition tif (policy : string) : string :=
  if String.eqb policy LimitPolicyIOC then "IOC" else if String.eqb policy LimitPolicyPostOnly then "PostOnly" else "GTC".
Definition bitgetTIF (policy : string) : string :=
  if String.eqb policy LimitPolicyIOC then "ioc" else if String.eqb policy LimitPolicyPostOnly then "post_only" else "gtc".
(** [millis], [milliString] and [limitString] *)
Definition time_millis (t : time) : Z := if IsZero t then 0 else UnixMilli t.
Definition milliString (t : time) : string := if IsZero t then "" else FormatInt (UnixMilli t).
Definition limitString (limit : Z) : string := if limit <=? 0 then "" else FormatInt limit.
Definition validateWindow (meta : clientMeta) (op interval : string) (start stop : time) (limit : Z) (cursor : string) : result error unit :=
  check negb (is_empty (TrimSpace interval)) else invalid meta op "interval is required" ;;
  check is_empty cursor else invalid meta op "cursor is not supported" ;;
  check negb (limit <? 0) else invalid meta op "limit must be non-negative" ;;
  check negb (negb (IsZero start) && negb (IsZero stop) && negb (After stop start)) else invalid meta op "end must be after start" ;;
  Ok tt.
Definition validateFundingHistoryRequest (meta : clientMeta) (op : string) (start stop : time) (limit : Z) (cursor : string) (supportsWindow : bool) : result error unit :=
  check negb (limit <? 0) else invalid meta op "limit must be non-negative" ;;
  check is_empty cursor else invalid meta op "cursor is not supported" ;;
  check negb (negb (IsZero start) && negb (IsZero stop) && negb (After stop start)) else invalid meta op "end must be after start" ;;
  check negb (negb supportsWindow && (negb (IsZero start) || negb (IsZero stop))) else invalid meta op "time window is not supported by Bitget funding history" ;;
  Ok tt.
Definition bybitInterval (meta : clientMeta) (op interval : string) : result error string :=
  match List.find (λ p, String.eqb interval p.1) [("1m", "1"); ("5m", "5"); ("15m", "15"); ("30m", "30"); ("1h", "60"); ("4h", "240"); ("12h", "720"); ("1d", "D")] with
  | Some p => Ok p.2
  | None => Err (invalid meta op "unsupported interval")
  end.
Definition bitgetInterval (meta : clientMeta) (op interval : string) : result error string :=
  if one_of interval ["1m"; "5m"; "15m"; "30m"] then Ok interval
  else match List.find (λ p, String.eqb interval p.1) [("1h", "1H"); ("4h", "4H"); ("12h", "12H"); ("1d", "1D")] with
  | Some p => Ok p.2
  | None => Err (invalid meta op "unsupported interval")
  end.

(** ** Replies *)

Definition parseSide (meta : clientMeta) (op value : string) : result error string :=
  let v := ToLower (TrimSpace value) in
  if one_of v ["buy"; "bid"; "long"] then Ok SideBuy
  else if one_of v ["sell"; "ask"; "short"] then Ok SideSell
  else Err (malformed meta op "unknown side").
Definition parseOrderType (meta : clientMeta) (op value : string) : result error string :=
  let v := ToLower (TrimSpace value) in
  if String.eqb v "market" then Ok OrderTypeMarket else if String.eqb v "limit" then Ok OrderTypeLimit else Err (malformed meta op "unknown order type").
Definition known_statuses : list string :=
  ["new"; "partiallyfilled"; "partially_filled"; "filled"; "cancelled"; "canceled"; "rejected"; "live"; "init"; "fail"; "success"; "not_trigger"; "triggered";
   "deactivated"].
Definition parseStatus (meta : clientMeta) (op value : string) : result error string :=
  if one_of (ToLower (TrimSpace value)) known_statuses then Ok value else Err (malformed meta op "unknown order status").
Definition limitPolicy (value : string) : string :=
  let v := ToLower value in
  if String.eqb v "ioc" then LimitPolicyIOC else if one_of v ["postonly"; "post_only"; "post-only"] then LimitPolicyPostOnly else LimitPolicyResting.
Definition parseRequiredMilli (meta : clientMeta) (operation field value : string) : result error time :=
  check negb (is_empty (TrimSpace value)) else malformed meta operation (field +:+ " is required") ;;
  match ParseInt value with
  | Some parsed => check 0 <? parsed else malformed meta operation ("invalid " +:+ field) ;; Ok (FromMilli parsed)
  | None => Err (malformed meta operation ("invalid " +:+ field))
  end.
Definition parseRequiredMilliInt64 (meta : clientMeta) (operation field : string) (value : Z) : result error time :=
  check 0 <? value else malformed meta operation ("invalid " +:+ field) ;; Ok (FromMilli value).
(** [bybitPositionSlot] *)
Definition bybitPositionSlot (index : Z) : result error string :=
  if index =? 0 then Ok PositionSlotNet
  else if index =? 1 then Ok PositionSlotLong
  else if index =? 2 then Ok PositionSlotShort
  else Err (EText "unknown Bybit position index").
Definition bitgetPositionSlot (mode nativeSide side : string) : string :=
  let mode := ToLower (TrimSpace mode) in
  let nativeSide := ToLower (TrimSpace nativeSide) in
  if Contains mode "double" || Contains mode "hedge" || String.eqb nativeSide "long" || String.eqb nativeSide "short"
  then if String.eqb side SideSell then PositionSlotShort else PositionSlotLong
  else PositionSlotNet.
(** [int32] of a number of places *)
Definition wrap32 (z : Z) : Z := (z + 2 ^ 31) mod 2 ^ 32 - 2 ^ 31.

Section markets.
Context `{Decimal D} `{DecimalText D}.
Implicit Types (instrument : Instrument D) (meta : clientMeta).

Definition parseOptionalDecimal meta (op value : string) : result error D :=
  if is_empty (TrimSpace value) then Ok d_zero
  else match d_new_from_string value with Some d => Ok d | None => Err (malformed meta op "invalid decimal value") end.
Definition parseRequiredDecimal meta (op field value : string) : result error D :=
  check negb (is_empty (TrimSpace value)) else malformed meta op (field +:+ " is required") ;; parseOptionalDecimal meta op value.
Fixpoint first_positive meta (op : string) (values : list string) : result error (option D) :=
  match values with
  | [] => Ok None
  | value :: rest => parsed <-? parseOptionalDecimal meta op value ;; if d_is_positive parsed then Ok (Some parsed) else first_positive meta op rest
  end.
Definition firstPositiveDecimalStrict meta (op : string) (values : list string) : result error D := r <-? first_positive meta op values ;; Ok (default d_zero r).
Definition optionalPositiveStrict meta (op : string) (values : list string) : result error (OptionalDecimal D) :=
  r <-? first_positive meta op values ;; Ok (match r with Some d => mkOptDec d true | None => no_decimal end).
Definition optStrict meta (op value : string) : result error (OptionalDecimal D) :=
  if is_empty (TrimSpace value) then Ok no_decimal else d <-? parseOptionalDecimal meta op value ;; Ok (mkOptDec d true).
Definition precisionIncrement (value : string) : string :=
  let value := TrimSpace value in
  if is_empty value then ""
  else match ParseInt value with Some places => if places <? 0 then "" else d_string (d_new 1 (wrap32 (- places)) : D) | None => "" end.
Definition book_level (row : list string) : result error (BookLevel D) :=
  match row with
  | price :: quantity :: _ =>
      match d_new_from_string price, d_new_from_string quantity with
      | Some p, Some q => Ok (mkLevel p q)
      | None, _ => Err (EText "invalid book price")
      | _, None => Err (EText "invalid book quantity")
      end
  | _ => Err (EText "book level has fewer than two fields")
  end.
Definition numberStringBook (rows : list (list string)) : result error (list (BookLevel D)) := map_result book_level rows.
Definition malformed_by {A} meta (op : string) (r : result error A) : result error A :=
  match r with Ok a => Ok a | Err e => Err (malformed meta op (error_text e)) end.
Definition bboLevels meta (op bidPrice bidQty askPrice askQty : string) : result error (BookLevel D * BookLevel D) :=
  bp <-? parseRequiredDecimal meta op "bid price" bidPrice ;;
  bq <-? parseRequiredDecimal meta op "bid quantity" bidQty ;;
  ap <-? parseRequiredDecimal meta op "ask price" askPrice ;;
  aq <-? parseRequiredDecimal meta op "ask quantity" askQty ;;
  Ok (mkLevel bp bq, mkLevel ap aq).
Definition strictCandle meta (op openTime open high low closeValue volume : string) : result error (Candle D) :=
  at_ <-? parseRequiredMilli meta op "open timestamp" openTime ;;
  o <-? parseRequiredDecimal meta op "open" open ;;
  h <-? parseRequiredDecimal meta op "high" high ;;
  l <-? parseRequiredDecimal meta op "low" low ;;
  c <-? parseRequiredDecimal meta op "close" closeValue ;;
  v <-? parseRequiredDecimal meta op "volume" volume ;;
  Ok (mkCandle at_ zero_time o h l c v true).
(** [candleValues]: a missing field is empty. *)
Definition convertCandles meta (op : string) (rows : list candle_row) : result error (list (Candle D)) :=
  map_result (λ row, let field n := nth n row "" in strictCandle meta op (field 0%nat) (field 1%nat) (field 2%nat) (field 3%nat) (field 4%nat) (field 5%nat)) rows.

(** *** Instruments *)

Definition validateBybitBitgetInstrument meta (op : string) instrument : result error unit :=
  match Instrument_Validate instrument with
  | Err e => Err (withExchangeOperation e op)
  | Ok _ =>
      let identity := in_Identity instrument in
      check String.eqb (id_Venue identity) (cm_venue meta) else invalid meta op "instrument venue does not match client venue" ;;
      check String.eqb (id_Product identity) (cm_product meta) else invalid meta op "instrument product does not match client product" ;;
      check negb (is_empty (id_NativeSymbol identity)) else invalid meta op "instrument native symbol is required" ;;
      check String.eqb (id_NativeSymbol identity) (TrimSpace (id_NativeSymbol identity)) else invalid meta op "instrument native symbol must be trimmed" ;;
      Ok tt
  end.
(** [symbols] of either client; its second result is the instrument given. *)
Definition settled_symbols meta (settle : string) instrument (op : string) : result error string :=
  _ <-? validateBybitBitgetInstrument meta op instrument ;;
  check negb (String.eqb (cm_product meta) ProductPerp && negb (String.eqb (id_SettleAsset (in_Identity instrument)) settle))
    else invalid meta op ("instrument quote must match " +:+ settle +:+ " settlement") ;;
  Ok (id_NativeSymbol (in_Identity instrument)).
Definition bybit_symbols (c : bybitBase) : Instrument D → string → result error string := settled_symbols (bb_meta c) (bb_settleCoin c).
Definition bitget_symbols (c : bitgetBase) : Instrument D → string → result error string := settled_symbols (gb_meta c) (gb_marginCoin c).
Definition optionalNativeSymbol (symbols : Instrument D → string → result error string) (instrument : option (Instrument D)) (op : string) : result error string :=
  match instrument with None => Ok "" | Some i => symbols i op end.

(** The rules of a Bybit row: price and quantity increments, minimum quantity and
    minimum notional *)
Definition bybit_rules meta (op : string) (row : bybit_Instrument) : result error (D * D * D * OptionalDecimal D) :=
  price <-? parseOptionalDecimal meta op (bi_TickSize row) ;;
  quantity <-? firstPositiveDecimalStrict meta op [bi_QtyStep row; bi_BasePrecision row] ;;
  minimum <-? parseOptionalDecimal meta op (bi_MinOrderQty row) ;;
  notional <-? optionalPositiveStrict meta op [bi_MinNotionalValue row; bi_MinOrderAmt row] ;;
  Ok (price, quantity, minimum, notional).
Definition bitget_rules meta (op : string) (row : bitget_Instrument) : result error (D * D * D * OptionalDecimal D) :=
  price <-? firstPositiveDecimalStrict meta op [gi_PriceMultiplier row; precisionIncrement (gi_PricePrecision row)] ;;
  check d_is_positive price else malformed meta op "price increment is required" ;;
  quantity <-? firstPositiveDecimalStrict meta op [gi_QuantityMultiplier row; precisionIncrement (gi_QuantityPrecision row)] ;;
  check d_is_positive quantity else malformed meta op "quantity increment is required" ;;
  minimum <-? parseOptionalDecimal meta op (gi_MinOrderQty row) ;;
  notional <-? optionalPositiveStrict meta op [gi_MinOrderAmount row] ;;
  Ok (price, quantity, minimum, notional).
Definition ruled meta (native base quote settle : string) (rules : D * D * D * OptionalDecimal D) : Instrument D :=
  let '(price, quantity, minimum, notional) := rules in
  newInstrument (cm_venue meta) (cm_product meta) (canonicalSymbol native base quote) base quote settle native "" price quantity minimum notional oneContract.
(** A row is left out, refused or an instrument. *)
Definition bybit_listed (c : bybitBase) (row : bybit_Instrument) : bool :=
  EqualFold (bi_Status row) "Trading" && (is_empty (bb_settleCoin c) || EqualFold (bi_SettleCoin row) (bb_settleCoin c)).
Definition bybit_row (c : bybitBase) (op : string) (row : bybit_Instrument) : result error (list (Instrument D)) :=
  if bybit_listed c row then
    rules <-? bybit_rules (bb_meta c) op row ;;
    Ok [ruled (bb_meta c) (bi_Symbol row) (bi_BaseCoin row) (bi_QuoteCoin row) (bi_SettleCoin row) rules]
  else Ok [].
Definition online (status : string) : bool := is_empty status || EqualFold status "online" || EqualFold status "normal".
Definition bitget_listed (c : bitgetBase) (row : bitget_Instrument) : bool :=
  let rowQuote := ToUpper (TrimSpace (gi_QuoteCoin row)) in
  let rowQuote := if is_empty rowQuote then quoteAsset (gi_Symbol row) else rowQuote in
  online (gi_Status row) &&
  (negb (String.eqb (cm_product (gb_meta c)) ProductSpot) || is_empty (gi_SymbolType row) || EqualFold (gi_SymbolType row) "crypto") &&
  (negb (String.eqb (cm_product (gb_meta c)) ProductPerp) || String.eqb rowQuote (gb_marginCoin c)).
Definition bitget_row (c : bitgetBase) (op : string) (row : bitget_Instrument) : result error (list (Instrument D)) :=
  if bitget_listed c row then
    rules <-? bitget_rules (gb_meta c) op row ;;
    Ok [ruled (gb_meta c) (gi_Symbol row) (gi_BaseCoin row) (gi_QuoteCoin row) (gb_marginCoin c) rules]
  else Ok [].
(** [Instruments] of the clients: [catalog] is the answer of a configured catalog. *)
Definition bybit_Instruments (c : bybitBase) (ctx : context) (catalog : option (result error (list (Instrument D))))
    (get : Z → string → result sdk_error (bybit_envelope bybit_Instrument)) : result error (list (Instrument D)) :=
  _ <-? ctxErr ctx (bb_meta c) "Instruments" ;;
  match catalog with
  | Some (Ok l) => Ok l
  | Some (Err e) => Err (withExchangeOperation e "Instruments")
  | None =>
      rows <-? asked_venue (bb_meta c) "Instruments" (GetInstrumentsForBase (bb_category c) get) ;;
      l <-? map_result (bybit_row c "Instruments") rows ;; Ok (concat l)
  end.
Definition bitget_Instruments (c : bitgetBase) (ctx : context) (catalog : option (result error (list (Instrument D))))
    (GetInstruments : string → string → result sdk_error (list bitget_Instrument)) : result error (list (Instrument D)) :=
  _ <-? ctxErr ctx (gb_meta c) "Instruments" ;;
  match catalog with
  | Some (Ok l) => Ok l
  | Some (Err e) => Err (withExchangeOperation e "Instruments")
  | None =>
      let '(category, symbol) := bitgetCategoryAndSymbol c "" in
      rows <-? asked_venue (gb_meta c) "Instruments" (GetInstruments category symbol) ;;
      l <-? map_result (bitget_row c "Instruments") rows ;; Ok (concat l)
  end.

(** *** The instrument loaders *)

Definition load_op : string := "InstrumentCatalog.Load".
Definition requireNativeMatchesMetadata (native base quote : string) : result error unit :=
  check negb (is_empty base || is_empty quote) else EText "instrument metadata is incomplete" ;;
  check EqualFold native (base +:+ quote) || EqualFold native (base +:+ "PERP") else EText "native symbol does not match base/quote metadata" ;;
  Ok tt.
Definition bybit_wanted (product settlement : string) (row : bybit_Instrument) : bool :=
  EqualFold (bi_Status row) "Trading" &&
  (negb (String.eqb product ProductPerp) ||
   ((is_empty settlement || EqualFold (bi_SettleCoin row) settlement) && (is_empty (bi_ContractType row) || EqualFold (bi_ContractType row) "LinearPerpetual"))).
Definition bybit_load_row (product settlement : string) (row : bybit_Instrument) : result error (list (Instrument D)) :=
  let meta := mkMeta VenueBybit product in
  if bybit_wanted product settlement row then
    _ <-? requireNativeMatchesMetadata (bi_Symbol row) (bi_BaseCoin row) (bi_QuoteCoin row) ;;
    rules <-? bybit_rules meta load_op row ;;
    Ok [ruled meta (bi_Symbol row) (bi_BaseCoin row) (bi_QuoteCoin row) (bi_SettleCoin row) rules]
  else Ok [].
Definition bybitInstrumentsFromRows (product settlement : string) (rows : list bybit_Instrument) : result error (list (Instrument D)) :=
  l <-? map_result (bybit_load_row product settlement) rows ;; Ok (concat l).
Definition bitget_wanted (product marginCoin : string) (row : bitget_Instrument) : bool :=
  let rowQuote := if is_empty (gi_QuoteCoin row) then quoteAsset (gi_Symbol row) else gi_QuoteCoin row in
  online (gi_Status row) &&
  (negb (String.eqb product ProductSpot) || is_empty (gi_SymbolType row) || EqualFold (gi_SymbolType row) "crypto") &&
  (negb (String.eqb product ProductPerp) || String.eqb rowQuote marginCoin).
Definition bitget_load_row (product marginCoin : string) (row : bitget_Instrument) : result error (list (Instrument D)) :=
  let meta := mkMeta VenueBitget product in
  if bitget_wanted product marginCoin row then
    let settle := if String.eqb product ProductPerp then marginCoin else "" in
    _ <-? requireNativeMatchesMetadata (gi_Symbol row) (gi_BaseCoin row) (gi_QuoteCoin row) ;;
    rules <-? bitget_rules meta load_op row ;;
    Ok [ruled meta (gi_Symbol row) (gi_BaseCoin row) (gi_QuoteCoin row) settle rules]
  else Ok [].
Definition bitgetInstrumentsFromRows (product marginCoin : string) (rows : list bitget_Instrument) : result error (list (Instrument D)) :=
  l <-? map_result (bitget_load_row product marginCoin) rows ;; Ok (concat l).
Definition bybit_LoadInstruments (product : string) (scope : CatalogScope) (get : Z → string → result sdk_error (bybit_envelope bybit_Instrument)) (now : time)
  : result error (InstrumentSnapshot D) :=
  let category := if String.eqb product ProductPerp then "linear" else "spot" in
  rows <-? asked_venue (mkMeta VenueBybit product) load_op (GetInstrumentsForBase category get) ;;
  instruments <-? bybitInstrumentsFromRows product (cs_Settlement scope) rows ;;
  Ok (mkSnapshot 1 scope "" 0 now (filterInstrumentsForScope instruments scope) empty_indexes).
Definition bitget_LoadInstruments (product productType : string) (scope : CatalogScope) (GetInstruments : string → string → result sdk_error (list bitget_Instrument))
    (now : time) : result error (InstrumentSnapshot D) :=
  let category := if String.eqb product ProductPerp then productType else "spot" in
  rows <-? asked_venue (mkMeta VenueBitget product) load_op (GetInstruments category "") ;;
  instruments <-? bitgetInstrumentsFromRows product (bitgetMarginCoin productType) rows ;;
  Ok (mkSnapshot 1 scope "" 0 now (filterInstrumentsForScope instruments scope) empty_indexes).

(** *** Books, candles, trades *)

Definition bybit_book (c : bybitBase) (ctx : context) instrument (limit : Z) (GetOrderBook : string → string → Z → result sdk_error bybit_OrderBook)
  : result error (OrderBookPage (D:=D) * string) :=
  let meta := bb_meta c in let op := "OrderBook" in
  _ <-? ctxErr ctx meta op ;;
  native <-? bybit_symbols c instrument op ;;
  check negb (limit <? 0) else invalid meta op "limit must be non-negative" ;;
  row <-? asked_venue meta op (GetOrderBook (bb_category c) native limit) ;;
  bids <-? malformed_by meta op (numberStringBook (yb_Bids row)) ;;
  asks <-? malformed_by meta op (numberStringBook (yb_Asks row)) ;;
  observedAt <-? parseRequiredMilliInt64 meta op "timestamp" (yb_TS row) ;;
  Ok (mkBookPage instrument bids asks observedAt (limit_page limit), FormatInt (yb_U row)).
Definition bitget_book (c : bitgetBase) (ctx : context) instrument (limit : Z) (GetOrderBook : string → string → Z → result sdk_error bitget_OrderBook)
  : result error (OrderBookPage (D:=D)) :=
  let meta := gb_meta c in let op := "OrderBook" in
  _ <-? ctxErr ctx meta op ;;
  native <-? bitget_symbols c instrument op ;;
  check negb (limit <? 0) else invalid meta op "limit must be non-negative" ;;
  row <-? asked_venue meta op (GetOrderBook (bitgetCategory c) native limit) ;;
  bids <-? malformed_by meta op (numberStringBook (gb_Bids row)) ;;
  asks <-? malformed_by meta op (numberStringBook (gb_Asks row)) ;;
  observedAt <-? parseRequiredMilli meta op "timestamp" (gb_TS row) ;;
  Ok (mkBookPage instrument bids asks observedAt (limit_page limit)).
Definition bybit_Candles (c : bybitBase) (ctx : context) (req : CandlesRequest (D:=D)) (GetKlines : string → string → string → Z → Z → Z → result sdk_error (list candle_row))
  : result error (CandlePage (D:=D)) :=
  let meta := bb_meta c in let op := "Candles" in
  _ <-? ctxErr ctx meta op ;;
  native <-? bybit_symbols c (cq_Instrument req) op ;;
  _ <-? validateWindow meta op (cq_Interval req) (cq_Start req) (cq_End req) (cq_Limit req) (cq_Cursor req) ;;
  interval <-? bybitInterval meta op (cq_Interval req) ;;
  rows <-? asked_venue meta op (GetKlines (bb_category c) native interval (time_millis (cq_Start req)) (time_millis (cq_End req)) (cq_Limit req)) ;;
  candles <-? malformed_by meta op (convertCandles meta op rows) ;;
  Ok (mkCandlePage candles (historyPage "" (cq_Limit req) (cq_Start req) (cq_End req))).

(** The loop of Bitget's [Candles]: candles by open time, so that pages may
    overlap.  It runs out of [fuel] only if it would ask for more pages. *)
Definition bitgetCandlePageLimit : Z := 100.
Definition keep_candle (found : gmap Z (Candle D)) (candle : Candle D) : gmap Z (Candle D) := <[UnixMilli (ca_OpenTime candle) := candle]> found.
Definition earliest_of (first : Candle D) (candles : list (Candle D)) : time :=
  foldl (λ earliest candle, if Before (ca_OpenTime candle) earliest then ca_OpenTime candle else earliest) (ca_OpenTime first) candles.
Definition page_limit (remaining : Z) : Z := if (remaining =? 0) || (bitgetCandlePageLimit <? remaining) then bitgetCandlePageLimit else remaining.
Fixpoint candle_pages (fuel : nat) meta (limit : Z) (start : time) (GetCandles : Z → Z → result sdk_error (list candle_row)) (remaining : Z) (pageEnd : time)
    (found : gmap Z (Candle D)) : option (result error (gmap Z (Candle D))) :=
  match fuel with
  | O => None
  | S fuel =>
      let pageLimit := page_limit remaining in
      match asked_venue meta "Candles" (GetCandles (time_millis pageEnd) pageLimit) with
      | Err e => Some (Err e)
      | Ok rows =>
          match malformed_by meta "Candles" (convertCandles meta "Candles" rows) with
          | Err e => Some (Err e)
          | Ok [] => Some (Ok found)
          | Ok ((first :: _) as candles) =>
              let found' := foldl keep_candle found candles in
              let added := Z.of_nat (size found') - Z.of_nat (size found) in
              let remaining := remaining - added in
              let nextEnd := earliest_of first candles - Millisecond in
              if (limit =? 0) || (Z.of_nat (length rows) <? pageLimit) then Some (Ok found')
              else if remaining <=? 0 then Some (Ok found')
              else if (negb (IsZero start) && negb (After nextEnd start)) || (negb (IsZero pageEnd) && negb (Before nextEnd pageEnd)) then Some (Ok found')
              else candle_pages fuel meta limit start GetCandles remaining nextEnd found'
          end
      end
  end.
Definition by_open_time (found : gmap Z (Candle D)) : list (Candle D) := sort_slice (λ a b, Before (ca_OpenTime a) (ca_OpenTime b)) (map snd (map_to_list found)).
Definition newest_candles (limit : Z) (candles : list (Candle D)) : list (Candle D) :=
  if (0 <? limit) && (limit <? Z.of_nat (length candles)) then drop (length candles - Z.to_nat limit) candles else candles.
Definition candle_fuel (limit : Z) : nat := S (Z.to_nat limit).
Definition bitget_Candles (c : bitgetBase) (ctx : context) (req : CandlesRequest (D:=D))
    (GetCandles : string → string → string → string → Z → Z → Z → result sdk_error (list candle_row)) : option (result error (CandlePage (D:=D))) :=
  let meta := gb_meta c in let op := "Candles" in
  match
    (_ <-? ctxErr ctx meta op ;;
     native <-? bitget_symbols c (cq_Instrument req) op ;;
     _ <-? validateWindow meta op (cq_Interval req) (cq_Start req) (cq_End req) (cq_Limit req) (cq_Cursor req) ;;
     interval <-? bitgetInterval meta op (cq_Interval req) ;; Ok (native, interval))
  with
  | Err e => Some (Err e)
  | Ok (native, interval) =>
      let get stop limit := GetCandles (bitgetCategory c) native interval "market" (time_millis (cq_Start req)) stop limit in
      match candle_pages (candle_fuel (cq_Limit req)) meta (cq_Limit req) (cq_Start req) get (cq_Limit req) (cq_End req) ∅ with
      | None => None
      | Some (Err e) => Some (Err e)
      | Some (Ok found) =>
          Some (Ok (mkCandlePage (newest_candles (cq_Limit req) (by_open_time found)) (historyPage "" (cq_Limit req) (cq_Start req) (cq_End req))))
      end
  end.

(** The conversion of one public trade; [id] is the execution id, or at Bitget the
    link id when that is empty. *)
Definition public_trade meta instrument (id : string) (row : venue_trade) : result error (PublicTrade (D:=D)) :=
  let op := "PublicTrades" in
  side <-? parseSide meta op (vt_Side row) ;;
  price <-? parseRequiredDecimal meta op "price" (vt_Price row) ;;
  quantity <-? parseRequiredDecimal meta op "quantity" (vt_Size row) ;;
  executedAt <-? parseRequiredMilli meta op "timestamp" (vt_Time row) ;;
  Ok (mkHlTrade instrument id side price quantity executedAt).
Definition bybit_PublicTrades (c : bybitBase) (ctx : context) instrument (limit : Z) (GetRecentTrades : string → string → Z → result sdk_error (list venue_trade))
  : result error (list (PublicTrade (D:=D)) * PageInfo) :=
  let meta := bb_meta c in let op := "PublicTrades" in
  _ <-? ctxErr ctx meta op ;;
  native <-? bybit_symbols c instrument op ;;
  check negb (limit <? 0) else invalid meta op "limit must be non-negative" ;;
  rows <-? asked_venue meta op (GetRecentTrades (bb_category c) native limit) ;;
  trades <-? map_result (λ row, public_trade meta instrument (vt_ExecID row) row) rows ;;
  Ok (trades, limit_page limit).
Definition bitget_PublicTrades (c : bitgetBase) (ctx : context) instrument (limit : Z) (GetRecentFills : string → string → Z → result sdk_error (list venue_trade))
  : result error (list (PublicTrade (D:=D)) * PageInfo) :=
  let meta := gb_meta c in let op := "PublicTrades" in
  _ <-? ctxErr ctx meta op ;;
  native <-? bitget_symbols c instrument op ;;
  check negb (limit <? 0) else invalid meta op "limit must be non-negative" ;;
  rows <-? asked_venue meta op (GetRecentFills (bitgetCategory c) native limit) ;;
  trades <-? map_result (λ row, public_trade meta instrument (if is_empty (vt_ExecID row) then vt_ExecLinkID row else vt_ExecID row) row) rows ;;
  Ok (trades, limit_page limit).

(** *** Funding rates *)

Definition bybit_FundingRate (c : bybitBase) (ctx : context) instrument (GetTicker : string → string → result sdk_error bybit_Ticker)
  : result error (FundingRate (D:=D)) :=
  let meta := bb_meta c in let op := "FundingRate" in
  _ <-? ctxErr ctx meta op ;;
  native <-? bybit_symbols c instrument op ;;
  ticker <-? asked_venue meta op (GetTicker (bb_category c) native) ;;
  rate <-? parseRequiredDecimal meta op "funding rate" (yt_FundingRate ticker) ;;
  markPrice <-? optStrict meta op (yt_MarkPrice ticker) ;;
  observedAt <-? parseRequiredMilli meta op "timestamp" (firstNonEmpty [yt_Time ticker; yt_TS ticker]) ;;
  nextFundingTime <-? parseRequiredMilli meta op "next funding timestamp" (yt_NextFundingTime ticker) ;;
  Ok (mkFundingRate native "" rate markPrice observedAt zero_time nextFundingTime).
Definition bitget_FundingRate (c : bitgetBase) (ctx : context) instrument (GetCurrentFundRate : string → string → result sdk_error (list bitget_FundRate))
  : result error (FundingRate (D:=D)) :=
  let meta := gb_meta c in let op := "FundingRate" in
  _ <-? ctxErr ctx meta op ;;
  native <-? bitget_symbols c instrument op ;;
  rows <-? asked_venue meta op (GetCurrentFundRate native (gb_productType c)) ;;
  match rows with
  | [] => Err (malformed meta op "empty funding rate response")
  | row :: _ =>
      rate <-? parseRequiredDecimal meta op "funding rate" (gf_FundingRate row) ;;
      observedAt <-? parseRequiredMilliInt64 meta op "request timestamp" (gf_RequestTime row) ;;
      nextFundingTime <-? parseRequiredMilli meta op "next funding timestamp" (gf_NextUpdate row) ;;
      Ok (mkFundingRate native "" rate no_decimal observedAt zero_time nextFundingTime)
  end.
Definition bybit_FundingRateHistory (c : bybitBase) (ctx : context) instrument (start stop : time) (cursor : string) (limit : Z)
    (GetFundingHistory : string → string → Z → Z → Z → result sdk_error (list rate_entry)) : result error (list (FundingRate (D:=D)) * PageInfo) :=
  let meta := bb_meta c in let op := "FundingRateHistory" in
  _ <-? ctxErr ctx meta op ;;
  _ <-? validateFundingHistoryRequest meta op start stop limit cursor true ;;
  native <-? bybit_symbols c instrument op ;;
  rows <-? asked_venue meta op (GetFundingHistory (bb_category c) native (time_millis start) (time_millis stop) limit) ;;
  rates <-? map_result (λ row,
    rate <-? parseRequiredDecimal meta op "funding rate" (re_FundingRate row) ;;
    fundingTime <-? parseRequiredMilli meta op "funding timestamp" (re_Time row) ;;
    Ok (mkFundingRate native "" rate no_decimal zero_time fundingTime zero_time)) rows ;;
  Ok (rates, historyPage "" limit start stop).
(** One page of Bitget's history: the rates in the window, at most [room] of them,
    and the oldest time seen *)
Fixpoint rate_page meta (native : string) (start stop : time) (room : nat) (oldest : time) (rows : list rate_entry) : result error (list (FundingRate (D:=D)) * time) :=
  let op := "FundingRateHistory" in
  match rows with
  | [] => Ok ([], oldest)
  | row :: rest =>
      fundingTime <-? parseRequiredMilli meta op "funding timestamp" (re_Time row) ;;
      let oldest := if IsZero oldest || Before fundingTime oldest then fundingTime else oldest in
      if withinHalfOpen fundingTime start stop then
        rate <-? parseRequiredDecimal meta op "funding rate" (re_FundingRate row) ;;
        let entry := mkFundingRate native "" rate no_decimal zero_time fundingTime zero_time in
        match room with
        | O | S O => Ok ([entry], oldest)
        | S room' => r <-? rate_page meta native start stop room' oldest rest ;; Ok (entry :: r.1, r.2)
        end
      else rate_page meta native start stop room oldest rest
  end.
(** The pages: [None] when the venue keeps returning full pages. *)
Fixpoint rate_pages (fuel : nat) meta (native : string) (start stop : time) (resultLimit pageSize pageNo : Z) (get : Z → Z → result sdk_error (list rate_entry))
    (rates : list (FundingRate (D:=D))) : option (result error (list (FundingRate (D:=D)))) :=
  if resultLimit <=? Z.of_nat (length rates) then Some (Ok rates)
  else match fuel with
  | O => None
  | S fuel =>
      match asked_venue meta "FundingRateHistory" (get pageSize pageNo) with
      | Err e => Some (Err e)
      | Ok [] => Some (Ok rates)
      | Ok rows =>
          match rate_page meta native start stop (Z.to_nat resultLimit - length rates) zero_time rows with
          | Err e => Some (Err e)
          | Ok (more, oldest) =>
              if (Z.of_nat (length rows) <? pageSize) || (negb (IsZero start) && negb (After oldest start)) then Some (Ok (rates ++ more))
              else rate_pages fuel meta native start stop resultLimit pageSize (pageNo + 1) get (rates ++ more)
          end
      end
  end.
Definition bitget_FundingRateHistory (fuel : nat) (c : bitgetBase) (ctx : context) instrument (start stop : time) (cursor : string) (limit : Z)
    (GetHistoryFundRate : string → string → Z → Z → result sdk_error (list rate_entry)) : option (result error (list (FundingRate (D:=D)) * PageInfo)) :=
  let meta := gb_meta c in let op := "FundingRateHistory" in
  match
    (_ <-? ctxErr ctx meta op ;; _ <-? validateFundingHistoryRequest meta op start stop limit cursor true ;; bitget_symbols c instrument op)
  with
  | Err e => Some (Err e)
  | Ok native =>
      let resultLimit := if limit <=? 0 then 20 else limit in
      let pageSize := if negb (IsZero start) || negb (IsZero stop) || (100 <? resultLimit) then 100 else resultLimit in
      match rate_pages fuel meta native start stop resultLimit pageSize 1 (GetHistoryFundRate native (gb_productType c)) [] with
      | None => None
      | Some (Err e) => Some (Err e)
      | Some (Ok rates) => Some (Ok (rates, historyPage "" limit start stop))
      end
  end.
End markets.
