(* ===== verification/BybitBitgetRest.v ===== *)
(** * Bybit and Bitget: orders and accounts

    The authenticated part of [exchange/internal/factoryclient/bybit_bitget.go]:
    placement, cancellation, listings, fills, balances, positions and leverage of
    the two clients.  The pages of the listings are walked as the SDKs walk them
    ([Paging]); one page, and what the venue answers to a command, are
    arguments. *)

From Stdlib Require Import Ascii String ZArith Lia QArith Qcanon Sorted.
From stdpp Require Import base list strings gmap.
From S2P Require Import Prelude GoStrings Calendar Decimals DecimalText Errors Model HttpErrors Orders InstrumentCatalog Sockets AccountFeed ExactLookup Credentials Clients.
From S2P Require Import HyperliquidMarkets VenueErrors Commands FundingLoaders DerivativeLoaders Paging BybitBitget.

#[local] Open Scope string_scope.
#[local] Open Scope list_scope.
#[local] Open Scope Z_scope.
#[local] Open Scope go_scope.

(** ** SDK records *)

(** [bybit.PlaceOrderRequest] and [bitget.PlaceOrderRequest]: the fields the
    clients set *)
Record bybit_PlaceOrder := mkBybitPlace {
  yo_Category : string; yo_Symbol : string; yo_Side : string; yo_OrderType : string; yo_Qty : string; yo_Price : string; yo_TimeInForce : string;
  yo_ReduceOnly : bool; yo_OrderLinkID : string; yo_MarketUnit : string;
}.
Record bitget_PlaceOrder := mkBitgetPlace {
  go_Category : string; go_Symbol : string; go_Side : string; go_OrderType : string; go_Qty : string; go_Price : string; go_TimeInForce : string;
  go_MarginCoin : string; go_MarginMode : string; go_ClientOID : string; go_ReduceOnly : string; go_PosSide : string;
}.
(** [OrderActionResponse]: order id and client order id *)
Record order_action := mkAction { oa_OrderID : string; oa_ClientID : string }.
(** [bybit.OrderRecord] *)
Record bybit_Order := mkBybitOrder {
  yr_OrderID : string; yr_OrderLinkID : string; yr_Symbol : string; yr_Side : string; yr_OrderType : string; yr_TimeInForce : string; yr_Price : string; yr_Qty : string;
  yr_CumExecQty : string; yr_AvgPrice : string; yr_OrderStatus : string; yr_ReduceOnly : bool; yr_CreatedTime : string; yr_UpdatedTime : string;
}.
(** [bitget.OrderRecord] *)
Record bitget_Order := mkBitgetOrder {
  gr_OrderID : string; gr_ClientOID : string; gr_Symbol : string; gr_Side : string; gr_OrderType : string; gr_TimeInForce : string; gr_Price : string; gr_Qty : string;
  gr_Amount : string; gr_BaseVolume : string; gr_FilledQty : string; gr_CumExecQty : string; gr_OrderStatus : string; gr_ReduceOnly : string; gr_AvgPrice : string;
  gr_CreatedTime : string; gr_UpdatedTime : string; gr_CTime : string; gr_UTime : string;
}.
(** [bybit.ExecutionRecord]; [ExtraFees] is the raw JSON text. *)
Record bybit_Execution := mkBybitExecution {
  ye_ExecID : string; ye_OrderID : string; ye_OrderLinkID : string; ye_Symbol : string; ye_Side : string; ye_ExecPrice : string; ye_ExecQty : string; ye_ExecFee : string;
  ye_FeeCurrency : string; ye_FeeCoin : string; ye_ExtraFees : string; ye_IsMaker : bool; ye_ExecTime : string;
}.
(** [bitget.FillRecord]; [None] is a missing fee list. *)
Record bitget_Fill := mkBitgetFill {
  ge_OrderID : string; ge_ClientOID : string; ge_ExecID : string; ge_ExecLinkID : string; ge_Symbol : string; ge_Side : string; ge_ExecPrice : string; ge_ExecQty : string;
  ge_FeeDetail : option (list (string * string)); ge_ExecTime : string; ge_CreatedTime : string;
}.
(** [bybit.WalletCoin] and [bybit.WalletAccount] *)
Record WalletCoin := mkWalletCoin { wc_Coin : string; wc_Equity : string; wc_WalletBalance : string; wc_Locked : string; wc_BorrowAmount : string }.
Record WalletAccount := mkWallet { wa_TotalEquity : string; wa_TotalAvailableBalance : string; wa_TotalPerpUPL : string; wa_Coin : list WalletCoin }.
(** [bitget.AccountAsset] and [bitget.AccountAssets] *)
Record AccountAsset := mkAsset {
  as_Coin : string; as_Available : string; as_Frozen : string; as_Locked : string; as_Equity : string; as_USDTValue : string; as_USDValue : string;
}.
Record AccountAssets := mkAssets { aa_AccountEquity : string; aa_Available : string; aa_UnrealizedPL : string; aa_Assets : list AccountAsset }.
(** [bybit.PositionRecord] and [bitget.PositionRecord] *)
Record bybit_Position := mkBybitPosition {
  yp_PositionIdx : Z; yp_Symbol : string; yp_Side : string; yp_Size : string; yp_AvgPrice : string; yp_Leverage : string; yp_UnrealisedPnl : string; yp_LiqPrice : string;
}.
Record bitget_Position := mkBitgetPosition {
  gp_Symbol : string; gp_PosSide : string; gp_HoldSide : string; gp_HoldMode : string; gp_Qty : string; gp_Total : string; gp_Size : string; gp_AverageOpenPrice : string;
  gp_OpenPriceAvg : string; gp_AvgPrice : string; gp_MarkPrice : string; gp_LiquidationPrice : string; gp_LiqPrice : string; gp_Leverage : string;
  gp_UnrealisedPnl : string; gp_UnrealizedPL : string;
}.

Section rest.
Context `{Decimal D} `{DecimalText D} (Quote : string → string).
Implicit Types (instrument : Instrument D) (req : PlaceOrderRequest D) (meta : clientMeta) (row : bybit_Order).
Local Abbreviation reply := (OrderAcknowledgement D * option error)%type.

(** ** Commands *)

Definition priceString req : string := if String.eqb (po_Type req) OrderTypeLimit then d_string (po_LimitPrice req) else "".
(** [return ack, ack.Validate()] *)
Definition checked (ack : OrderAcknowledgement D) : reply := (ack, match Ack_Validate ack with Ok _ => None | Err e => Some e end).
Definition typed_ack (ack : OrderAcknowledgement D) (type : string) : OrderAcknowledgement D :=
  mkAck (ack_Venue ack) (ack_Product ack) (ack_Operation ack) (ack_State ack) (ack_NativeSymbol ack) (ack_NativeID ack) type (ack_OrderID ack) (ack_ClientOrderID ack)
    (ack_TransactionHash ack) (ack_FilledQuantity ack) (ack_AverageFillPrice ack) (ack_VenueCode ack) (ack_VenueMessage ack).
(** After a command: the SDK's failure, or the acknowledgement of its answer *)
Definition settled_command meta (op kind native orderID clientID : string) (finish : OrderAcknowledgement D → OrderAcknowledgement D) (answer : result sdk_error order_action) : reply :=
  match answer with
  | Err s =>
      if isOrderActionMalformed (sx_text s) then (no_ack, Some (malformed meta op (sx_text s)))
      else commandAck meta op kind native orderID clientID s
  | Ok resp =>
      match validateSuccessfulOrderAction meta op kind native orderID clientID (oa_OrderID resp) (oa_ClientID resp) with
      | Err e => (no_ack, Some e)
      | Ok _ => checked (finish (baseAck meta kind native (oa_OrderID resp) (oa_ClientID resp)))
      end
  end.
(** A spot market buy is sent in the quote asset, at the best ask. *)
Definition quoted_in_quote meta req : bool :=
  String.eqb (cm_product meta) ProductSpot && String.eqb (po_Type req) OrderTypeMarket && String.eqb (po_Side req) SideBuy.
Definition quote_quantity meta req (asks : list (list string)) : result error string :=
  match asks with
  | (ask :: _ :: _) :: _ =>
      price <-? parseRequiredDecimal meta "PlaceOrder" "best ask" ask ;; Ok (d_string (d_mul (po_Quantity req) price))
  | _ => Err (malformed meta "PlaceOrder" "empty best ask")
  end.
Definition bybitOrderQuantity (c : bybitBase) (native : string) req (GetOrderBook : string → string → Z → result sdk_error bybit_OrderBook)
  : result error (string * string) :=
  if quoted_in_quote (bb_meta c) req then
    book <-? asked_venue (bb_meta c) "PlaceOrder" (GetOrderBook (bb_category c) native 1) ;;
    quantity <-? quote_quantity (bb_meta c) req (yb_Asks book) ;; Ok (quantity, "quoteCoin")
  else Ok (d_string (po_Quantity req), "").
Definition bitgetOrderQuantity (c : bitgetBase) (native : string) req (GetOrderBook : string → string → Z → result sdk_error bitget_OrderBook) : result error string :=
  if quoted_in_quote (gb_meta c) req then
    book <-? asked_venue (gb_meta c) "PlaceOrder" (GetOrderBook (bitgetCategory c) native 1) ;; quote_quantity (gb_meta c) req (gb_Asks book)
  else Ok (d_string (po_Quantity req)).
(** What both placements check before they ask anything *)
Definition place_symbol (ctx : context) meta (symbols : Instrument D → string → result error string) req : result error string :=
  _ <-? ctxErr ctx meta "PlaceOrder" ;;
  match PlaceOrder_Validate req (cm_product meta) with
  | Err e => Err (withExchangeOperation e "PlaceOrder")
  | Ok _ => symbols (po_Instrument req) "PlaceOrder"
  end.
Definition bybit_request (c : bybitBase) (native quantity marketUnit : string) req : bybit_PlaceOrder :=
  mkBybitPlace (bb_category c) native (bybitSide (po_Side req)) (bybitOrderType (po_Type req)) quantity (priceString req) (tif (po_LimitPolicy req)) (po_ReduceOnly req)
    (po_ClientOrderID req) marketUnit.
(** [bybitPlace]: the order sent, if any, and the answer *)
Definition bybitPlace (c : bybitBase) (ctx : context) req (GetOrderBook : string → string → Z → result sdk_error bybit_OrderBook)
    (send : bybit_PlaceOrder → result sdk_error order_action) : option bybit_PlaceOrder * reply :=
  match
    (native <-? place_symbol ctx (bb_meta c) (bybit_symbols c) req ;;
     quantity <-? bybitOrderQuantity c native req GetOrderBook ;; Ok (native, quantity))
  with
  | Err e => (None, (no_ack, Some e))
  | Ok (native, (quantity, marketUnit)) =>
      let order := bybit_request c native quantity marketUnit req in
      (Some order, settled_command (bb_meta c) "PlaceOrder" OrderOperationPlace native "" (po_ClientOrderID req) (λ ack, typed_ack ack (po_Type req)) (send order))
  end.

(** [bitgetPositionSide]: [mode] is the hold mode the client knows, empty when it
    has not asked; the mode known afterwards is the first result. *)
Definition bitgetPositionSide (c : bitgetBase) (mode : string) req (GetAccountSettings : result sdk_error string) : string * result error string :=
  if negb (String.eqb (cm_product (gb_meta c)) ProductPerp) then (mode, Ok "")
  else
    match (if is_empty mode then match GetAccountSettings with Ok m => Ok (ToLower (TrimSpace m)) | Err s => Err (normErr (gb_meta c) "PlaceOrder" s) end else Ok mode) with
    | Err e => (mode, Err e)
    | Ok mode =>
        (mode,
         if one_of mode ["one_way_mode"; "single_hold"] then Ok ""
         else if one_of mode ["hedge_mode"; "double_hold"] then
           Ok (if (String.eqb (po_Side req) SideBuy && negb (po_ReduceOnly req)) || (String.eqb (po_Side req) SideSell && po_ReduceOnly req) then "long" else "short")
         else Err (malformed (gb_meta c) "PlaceOrder" "unsupported account hold mode"))
    end.
Definition bitgetReduceOnly req (positionSide : string) : string := if negb (is_empty positionSide) || negb (po_ReduceOnly req) then "" else "yes".
Definition bitget_request (c : bitgetBase) (native quantity positionSide : string) req : bitget_PlaceOrder :=
  mkBitgetPlace (bitgetPrivateCategory c) native (ToLower (po_Side req)) (ToLower (po_Type req)) quantity (priceString req) (bitgetTIF (po_LimitPolicy req))
    (gb_marginCoin c) "crossed" (po_ClientOrderID req) (bitgetReduceOnly req positionSide) positionSide.
Definition bitgetPlace (c : bitgetBase) (mode : string) (ctx : context) req (GetOrderBook : string → string → Z → result sdk_error bitget_OrderBook)
    (GetAccountSettings : result sdk_error string) (send : bitget_PlaceOrder → result sdk_error order_action) : string * (option bitget_PlaceOrder * reply) :=
  match
    (native <-? place_symbol ctx (gb_meta c) (bitget_symbols c) req ;;
     quantity <-? bitgetOrderQuantity c native req GetOrderBook ;; Ok (native, quantity))
  with
  | Err e => (mode, (None, (no_ack, Some e)))
  | Ok (native, quantity) =>
      match bitgetPositionSide c mode req GetAccountSettings with
      | (mode, Err e) => (mode, (None, (no_ack, Some e)))
      | (mode, Ok positionSide) =>
          let order := bitget_request c native quantity positionSide req in
          (mode, (Some order, settled_command (gb_meta c) "PlaceOrder" OrderOperationPlace native "" (po_ClientOrderID req) (λ ack, typed_ack ack (po_Type req)) (send order)))
      end
  end.
(** [CancelOrder]: category, symbol and order id are sent. *)
Definition cancel_with meta (category : string) (symbols : Instrument D → string → result error string) (well_formed : string → bool) (message : string) (ctx : context)
    (request : CancelOrderRequest (D:=D)) (send : string → string → string → result sdk_error order_action) : option (string * string * string) * reply :=
  let op := "CancelOrder" in
  match
    (_ <-? ctxErr ctx meta op ;;
     native <-? symbols (co_Instrument request) op ;;
     check negb (is_empty (TrimSpace (co_OrderID request))) else invalid meta op "order id is required" ;;
     check well_formed (co_OrderID request) else invalid meta op message ;;
     Ok native)
  with
  | Err e => (None, (no_ack, Some e))
  | Ok native =>
      (Some (category, native, co_OrderID request),
       settled_command meta op OrderOperationCancel native (co_OrderID request) "" (λ ack, set_ack_state ack AckCanceled) (send category native (co_OrderID request)))
  end.
Definition bybit_CancelOrder (c : bybitBase) : context → CancelOrderRequest (D:=D) → (string → string → string → result sdk_error order_action) → option (string * string * string) * reply :=
  cancel_with (bb_meta c) (bb_category c) (bybit_symbols c) bybitNativeOrderID "order id must be a positive decimal int64 or UUID".
Definition bitget_CancelOrder (c : bitgetBase) : context → CancelOrderRequest (D:=D) → (string → string → string → result sdk_error order_action) → option (string * string * string) * reply :=
  cancel_with (gb_meta c) (bitgetPrivateCategory c) (bitget_symbols c) positiveDecimalOrderID "order id must be a positive decimal int64".

(** ** Rows *)

(** [resolveEmittedNativeID]: [catalog] resolves a native symbol, if one is
    configured. *)
Definition resolveEmittedNativeID meta (op : string) (catalog : option (string → result error (Instrument D))) (native : string) : result error string :=
  match catalog with
  | None => Err (catalogMetadataResolution meta op "instrument catalog is not configured")
  | Some resolve => match resolve native with Ok i => Ok (id_NativeID (in_Identity i)) | Err e => Err (withExchangeOperation e op) end
  end.
(** A loop over the rows that pass the filter *)
Definition convert_rows {A B} (native : string) (symbol : A → string) (f : A → result error (list B)) (rows : list A) : result error (list B) :=
  l <-? map_result f (List.filter (λ x, is_empty native || String.eqb (symbol x) native) rows) ;; Ok (concat l).
Section with_catalog.
Context (catalog : option (string → result error (Instrument D))).
Definition bybit_order meta (op : string) row : result error (list (Order D)) :=
  nativeID <-? resolveEmittedNativeID meta op catalog (yr_Symbol row) ;;
  side <-? parseSide meta op (yr_Side row) ;;
  type <-? parseOrderType meta op (yr_OrderType row) ;;
  status <-? parseStatus meta op (yr_OrderStatus row) ;;
  quantity <-? parseRequiredDecimal meta op "quantity" (yr_Qty row) ;;
  limitPrice <-? parseOptionalDecimal meta op (yr_Price row) ;;
  filled <-? parseOptionalDecimal meta op (yr_CumExecQty row) ;;
  average <-? optStrict meta op (yr_AvgPrice row) ;;
  createdAt <-? parseRequiredMilli meta op "created timestamp" (yr_CreatedTime row) ;;
  updatedAt <-? parseRequiredMilli meta op "updated timestamp" (yr_UpdatedTime row) ;;
  Ok [mkOrder (yr_Symbol row) nativeID (yr_OrderID row) (yr_OrderLinkID row) side type quantity limitPrice (limitPolicy (yr_TimeInForce row)) (yr_ReduceOnly row) filled average
        status createdAt updatedAt].
Definition convertBybitOrders meta (op : string) (rows : list bybit_Order) (native : string) : result error (list (Order D)) :=
  convert_rows native yr_Symbol (bybit_order meta op) rows.
Definition bitget_order meta (op : string) (row : bitget_Order) : result error (list (Order D)) :=
  nativeID <-? resolveEmittedNativeID meta op catalog (gr_Symbol row) ;;
  side <-? parseSide meta op (gr_Side row) ;;
  type <-? parseOrderType meta op (gr_OrderType row) ;;
  status <-? parseStatus meta op (gr_OrderStatus row) ;;
  quantity <-? firstPositiveDecimalStrict meta op [gr_Qty row; gr_Amount row] ;;
  limitPrice <-? parseOptionalDecimal meta op (gr_Price row) ;;
  filled <-? firstPositiveDecimalStrict meta op [gr_FilledQty row; gr_CumExecQty row; gr_BaseVolume row] ;;
  average <-? optStrict meta op (gr_AvgPrice row) ;;
  createdAt <-? parseRequiredMilli meta op "created timestamp" (firstNonEmpty [gr_CreatedTime row; gr_CTime row]) ;;
  updatedAt <-? parseRequiredMilli meta op "updated timestamp" (firstNonEmpty [gr_UpdatedTime row; gr_UTime row]) ;;
  Ok [mkOrder (gr_Symbol row) nativeID (gr_OrderID row) (gr_ClientOID row) side type quantity limitPrice (limitPolicy (gr_TimeInForce row))
        (EqualFold (gr_ReduceOnly row) "yes" || EqualFold (gr_ReduceOnly row) "true") filled average status createdAt updatedAt].
Definition convertBitgetOrders meta (op : string) (rows : list bitget_Order) (native : string) : result error (list (Order D)) :=
  convert_rows native gr_Symbol (bitget_order meta op) rows.
Definition unsupported meta (op message : string) : error := venue_error (cm_venue meta) (cm_product meta) op KindUnsupported "" message.
Definition quote_mark : string := String (byte 34) "".
Definition bybit_fill meta (op : string) (row : bybit_Execution) : result error (list (Fill D)) :=
  nativeID <-? resolveEmittedNativeID meta op catalog (ye_Symbol row) ;;
  let liquidity := if ye_IsMaker row then "maker" else "taker" in
  side <-? parseSide meta op (ye_Side row) ;;
  price <-? parseRequiredDecimal meta op "price" (ye_ExecPrice row) ;;
  quantity <-? parseRequiredDecimal meta op "quantity" (ye_ExecQty row) ;;
  fee <-? parseRequiredDecimal meta op "execution fee" (ye_ExecFee row) ;;
  executedAt <-? parseRequiredMilli meta op "execution timestamp" (ye_ExecTime row) ;;
  check negb (negb (is_empty (ye_FeeCoin row)) && negb (is_empty (ye_FeeCurrency row)) && negb (String.eqb (ye_FeeCoin row) (ye_FeeCurrency row)))
    else malformed meta op "execution fee currencies conflict" ;;
  check negb (negb (d_is_zero fee) && is_empty (ye_FeeCoin row) && is_empty (ye_FeeCurrency row)) else malformed meta op "execution fee currency is missing" ;;
  check one_of (TrimSpace (ye_ExtraFees row)) [""; quote_mark +:+ quote_mark; "null"; "[]"]
    else unsupported meta op "regional additional execution fees are not supported" ;;
  Ok [mkFill (ye_Symbol row) nativeID (ye_OrderID row) (ye_OrderLinkID row) (ye_ExecID row) side price quantity fee (firstNonEmpty [ye_FeeCoin row; ye_FeeCurrency row])
        liquidity executedAt].
Definition convertBybitFills meta (op : string) (rows : list bybit_Execution) (native : string) : result error (list (Fill D)) :=
  convert_rows native ye_Symbol (bybit_fill meta op) rows.
(** The charges of a fill: their asset and their sum *)
Fixpoint fee_sum meta (op feeAsset : string) (fee : D) (charges : list (string * string)) : result error (string * D) :=
  match charges with
  | [] => Ok (feeAsset, fee)
  | (coin, text) :: rest =>
      check negb (is_empty coin) else malformed meta op "execution fee currency is missing" ;;
      check is_empty feeAsset || String.eqb coin feeAsset else unsupported meta op "multiple fee currencies on one fill are not supported" ;;
      parsed <-? parseRequiredDecimal meta op "execution fee" text ;;
      fee_sum meta op coin (d_add fee parsed) rest
  end.
Definition bitget_fill meta (op : string) (row : bitget_Fill) : result error (list (Fill D)) :=
  nativeID <-? resolveEmittedNativeID meta op catalog (ge_Symbol row) ;;
  match ge_FeeDetail row with
  | None => Err (malformed meta op "execution fee details are missing")
  | Some charges =>
      fee <-? fee_sum meta op "" d_zero charges ;;
      side <-? parseSide meta op (ge_Side row) ;;
      price <-? parseRequiredDecimal meta op "price" (ge_ExecPrice row) ;;
      quantity <-? parseRequiredDecimal meta op "quantity" (ge_ExecQty row) ;;
      executedAt <-? parseRequiredMilli meta op "execution timestamp" (firstNonEmpty [ge_ExecTime row; ge_CreatedTime row]) ;;
      Ok [mkFill (ge_Symbol row) nativeID (ge_OrderID row) (ge_ClientOID row) (firstNonEmpty [ge_ExecID row; ge_ExecLinkID row]) side price quantity fee.2 fee.1 "" executedAt]
  end.
Definition convertBitgetFills meta (op : string) (rows : list bitget_Fill) (native : string) : result error (list (Fill D)) :=
  convert_rows native ge_Symbol (bitget_fill meta op) rows.
(** A position without a positive size is left out. *)
Definition bybit_position meta (op : string) (row : bybit_Position) : result error (list (Position D)) :=
  quantity <-? parseOptionalDecimal meta op (yp_Size row) ;;
  if d_is_positive quantity then
    nativeID <-? resolveEmittedNativeID meta op catalog (yp_Symbol row) ;;
    side <-? parseSide meta op (yp_Side row) ;;
    entryPrice <-? parseOptionalDecimal meta op (yp_AvgPrice row) ;;
    unrealizedPnL <-? parseOptionalDecimal meta op (yp_UnrealisedPnl row) ;;
    liquidationPrice <-? optStrict meta op (yp_LiqPrice row) ;;
    leverage <-? optStrict meta op (yp_Leverage row) ;;
    slot <-? bybitPositionSlot (yp_PositionIdx row) ;;
    Ok [mkPosition (yp_Symbol row) nativeID slot side quantity entryPrice d_zero unrealizedPnL liquidationPrice leverage no_decimal]
  else Ok [].
Definition convertBybitPositions meta (op : string) (rows : list bybit_Position) (native : string) : result error (list (Position D)) :=
  convert_rows native yp_Symbol (bybit_position meta op) rows.
Definition bitget_position meta (op : string) (row : bitget_Position) : result error (list (Position D)) :=
  quantity <-? firstPositiveDecimalStrict meta op [gp_Qty row; gp_Total row; gp_Size row] ;;
  if d_is_positive quantity then
    nativeID <-? resolveEmittedNativeID meta op catalog (gp_Symbol row) ;;
    let nativeSide := firstNonEmpty [gp_PosSide row; gp_HoldSide row] in
    side <-? parseSide meta op nativeSide ;;
    entryPrice <-? firstPositiveDecimalStrict meta op [gp_AverageOpenPrice row; gp_OpenPriceAvg row; gp_AvgPrice row] ;;
    markPrice <-? parseOptionalDecimal meta op (gp_MarkPrice row) ;;
    unrealizedPnL <-? parseOptionalDecimal meta op (firstNonEmpty [gp_UnrealisedPnl row; gp_UnrealizedPL row]) ;;
    liquidationPrice <-? optStrict meta op (firstNonEmpty [gp_LiquidationPrice row; gp_LiqPrice row]) ;;
    leverage <-? optStrict meta op (gp_Leverage row) ;;
    Ok [mkPosition (gp_Symbol row) nativeID (bitgetPositionSlot (gp_HoldMode row) nativeSide side) side quantity entryPrice markPrice unrealizedPnL liquidationPrice leverage no_decimal]
  else Ok [].
Definition convertBitgetPositions meta (op : string) (rows : list bitget_Position) (native : string) : result error (list (Position D)) :=
  convert_rows native gp_Symbol (bitget_position meta op) rows.

(** ** Listings *)

(** The page requests of the SDKs: the query is what the client asked for. *)
Definition bybit_OpenOrders (c : bybitBase) (ctx : context) (requested : option (Instrument D)) (limit : Z)
    (get : string → string → Z → string → result sdk_error (bybit_envelope bybit_Order)) : result error (OrderPage D) :=
  let meta := bb_meta c in let op := "OpenOrders" in
  _ <-? ctxErr ctx meta op ;;
  native <-? optionalNativeSymbol (bybit_symbols c) requested op ;;
  rows <-? asked_venue meta op (GetOpenOrders (get (bb_category c) native)) ;;
  orders <-? convertBybitOrders meta op rows native ;;
  Ok (boundedOrderPage orders limit "").
Definition bitget_OpenOrders (c : bitgetBase) (ctx : context) (requested : option (Instrument D)) (limit : Z)
    (get : string → string → Z → string → result sdk_error (bitget_envelope bitget_Order)) : result error (OrderPage D) :=
  let meta := gb_meta c in let op := "OpenOrders" in
  _ <-? ctxErr ctx meta op ;;
  native <-? optionalNativeSymbol (bitget_symbols c) requested op ;;
  rows <-? asked_venue meta op (bitget_GetOpenOrders Quote (get (bitgetPrivateCategory c) native)) ;;
  orders <-? convertBitgetOrders meta op rows native ;;
  Ok (boundedOrderPage orders limit "").
Definition bybit_OrderHistory (c : bybitBase) (ctx : context) (requested : option (Instrument D)) (start stop : time) (limit : Z)
    (get : GetOrderHistoryRequest → Z → string → result sdk_error (bybit_envelope bybit_Order)) : result error (OrderPage D) :=
  let meta := bb_meta c in let op := "OrderHistory" in
  _ <-? ctxErr ctx meta op ;;
  native <-? optionalNativeSymbol (bybit_symbols c) requested op ;;
  rows <-? asked_venue meta op (GetOrderHistoryWithRequest (mkHistory (bb_category c) native (bb_settleCoin c) "" "" (time_millis start) (time_millis stop)) get) ;;
  orders <-? convertBybitOrders meta op rows native ;;
  Ok (boundedOrderPage orders limit "").
Definition bitget_OrderHistory (c : bitgetBase) (ctx : context) (requested : option (Instrument D)) (start stop : time) (cursor : string) (limit : Z)
    (get : string → string → string → string → Z → string → result sdk_error (bitget_envelope bitget_Order)) : result error (OrderPage D) :=
  let meta := gb_meta c in let op := "OrderHistory" in
  _ <-? ctxErr ctx meta op ;;
  native <-? optionalNativeSymbol (bitget_symbols c) requested op ;;
  r <-? asked_venue meta op (GetOrderHistoryBounded Quote (milliString start) (milliString stop) (limitString limit) cursor
    (get (bitgetPrivateCategory c) native (milliString start) (milliString stop))) ;;
  orders <-? convertBitgetOrders meta op r.1 native ;;
  Ok (mkOrderPage (bounded limit orders) (mkPage cursor limit zero_time zero_time true r.2)).
Definition bybit_Fills (c : bybitBase) (ctx : context) (request : FillsRequest (D:=D))
    (get : string → string → string → Z → Z → Z → string → result sdk_error (bybit_envelope bybit_Execution)) : result error (FillPage (D:=D)) :=
  let meta := bb_meta c in let op := "Fills" in
  _ <-? ctxErr ctx meta op ;;
  native <-? optionalNativeSymbol (bybit_symbols c) (fq_Instrument request) op ;;
  check is_empty (fq_Cursor request) else invalid meta op "cursor is not supported by Bybit executions" ;;
  r <-? asked_venue meta op (GetExecutionsBounded Quote (fq_Limit request)
    (get (bb_category c) native (fq_OrderID request) (time_millis (fq_Start request)) (time_millis (fq_End request)))) ;;
  fills <-? convertBybitFills meta op r.1 native ;;
  Ok (fills, mkPage (fq_Cursor request) (fq_Limit request) (fq_Start request) (fq_End request) true r.2).
Definition bitget_Fills (c : bitgetBase) (ctx : context) (request : FillsRequest (D:=D))
    (get : string → string → string → string → string → Z → string → result sdk_error (bitget_envelope bitget_Fill)) : result error (FillPage (D:=D)) :=
  let meta := gb_meta c in let op := "Fills" in
  _ <-? ctxErr ctx meta op ;;
  native <-? optionalNativeSymbol (bitget_symbols c) (fq_Instrument request) op ;;
  r <-? asked_venue meta op (GetFillsBounded Quote (limitString (fq_Limit request)) (fq_Cursor request)
    (get (bitgetPrivateCategory c) native (fq_OrderID request) (milliString (fq_Start request)) (milliString (fq_End request)))) ;;
  fills <-? convertBitgetFills meta op r.1 native ;;
  Ok (fills, mkPage (fq_Cursor request) (fq_Limit request) (fq_Start request) (fq_End request) true r.2).
Definition bybit_Positions (c : bybitBase) (ctx : context) (requested : option (Instrument D))
    (get : string → string → string → string → result sdk_error (bybit_envelope bybit_Position)) : result error (list (Position D)) :=
  let meta := bb_meta c in let op := "Positions" in
  _ <-? ctxErr ctx meta op ;;
  native <-? optionalNativeSymbol (bybit_symbols c) requested op ;;
  rows <-? asked_venue meta op (GetPositions Quote (get (bb_category c) native (bb_settleCoin c))) ;;
  convertBybitPositions meta op rows native.
Definition bitget_Positions (c : bitgetBase) (ctx : context) (requested : option (Instrument D))
    (GetCurrentPositions : string → string → result sdk_error (list bitget_Position)) : result error (list (Position D)) :=
  let meta := gb_meta c in let op := "Positions" in
  _ <-? ctxErr ctx meta op ;;
  native <-? optionalNativeSymbol (bitget_symbols c) requested op ;;
  rows <-? asked_venue meta op (GetCurrentPositions (bitgetPrivateCategory c) native) ;;
  convertBitgetPositions meta op rows native.
End with_catalog.

(** ** Accounts *)

Definition bybit_balance meta (op : string) (coin : WalletCoin) : result error (Balance D) :=
  total <-? firstPositiveDecimalStrict meta op [wc_Equity coin; wc_WalletBalance coin] ;;
  locked <-? parseOptionalDecimal meta op (firstNonEmpty [wc_Locked coin; wc_BorrowAmount coin]) ;;
  Ok (mkBalance (wc_Coin coin) (d_sub total locked) locked total).
(** A missing result is an empty list. *)
Definition bybitBalances meta (op : string) (accounts : list WalletAccount) : result error (list (Balance D)) :=
  map_result (bybit_balance meta op) (concat (map wa_Coin accounts)).
Definition bitget_balance meta (op : string) (row : AccountAsset) : result error (Balance D) :=
  total <-? firstPositiveDecimalStrict meta op [as_Equity row; as_USDTValue row; as_USDValue row] ;;
  locked <-? firstPositiveDecimalStrict meta op [as_Frozen row; as_Locked row] ;;
  available <-? parseOptionalDecimal meta op (as_Available row) ;;
  Ok (mkBalance (as_Coin row) available locked total).
Definition bitgetBalances meta (op : string) (rows : list AccountAsset) : result error (list (Balance D)) := map_result (bitget_balance meta op) rows.
Definition margin_used (equity available : OptionalDecimal D) : OptionalDecimal D :=
  if od_Valid equity && od_Valid available then mkOptDec (d_sub (od_Value equity) (od_Value available)) true else no_decimal.
Definition bybit_SpotAccount (c : bybitBase) (ctx : context) (GetWalletBalance : string → string → result sdk_error (list WalletAccount)) : result error (list (Balance D)) :=
  let meta := bb_meta c in let op := "SpotAccount" in
  _ <-? ctxErr ctx meta op ;;
  resp <-? asked_venue meta op (GetWalletBalance "UNIFIED" "") ;;
  bybitBalances meta op resp.
Definition bitget_SpotAccount (c : bitgetBase) (ctx : context) (GetAccountAssets : result sdk_error AccountAssets) : result error (list (Balance D)) :=
  let meta := gb_meta c in let op := "SpotAccount" in
  _ <-? ctxErr ctx meta op ;;
  resp <-? asked_venue meta op GetAccountAssets ;;
  bitgetBalances meta op (aa_Assets resp).
Definition bybit_PerpAccount (c : bybitBase) (ctx : context) (GetWalletBalance : string → string → result sdk_error (list WalletAccount))
  : result error (PerpAccount (D:=D)) :=
  let meta := bb_meta c in let op := "PerpAccount" in
  _ <-? ctxErr ctx meta op ;;
  resp <-? asked_venue meta op (GetWalletBalance "UNIFIED" (bb_settleCoin c)) ;;
  balances <-? bybitBalances meta op resp ;;
  match resp with
  | [] => Ok (mkPerpAccount balances no_decimal no_decimal no_decimal no_decimal)
  | row :: _ =>
      equity <-? optionalPositiveStrict meta op [wa_TotalEquity row] ;;
      available <-? optionalPositiveStrict meta op [wa_TotalAvailableBalance row] ;;
      unrealizedPnL <-? optStrict meta op (wa_TotalPerpUPL row) ;;
      Ok (mkPerpAccount balances equity available (margin_used equity available) unrealizedPnL)
  end.
Definition bitget_PerpAccount (c : bitgetBase) (ctx : context) (GetAccountAssets : result sdk_error AccountAssets) : result error (PerpAccount (D:=D)) :=
  let meta := gb_meta c in let op := "PerpAccount" in
  _ <-? ctxErr ctx meta op ;;
  resp <-? asked_venue meta op GetAccountAssets ;;
  balances <-? bitgetBalances meta op (aa_Assets resp) ;;
  equity <-? optStrict meta op (aa_AccountEquity resp) ;;
  available <-? optStrict meta op (aa_Available resp) ;;
  unrealizedPnL <-? optStrict meta op (aa_UnrealizedPL resp) ;;
  Ok (mkPerpAccount balances equity available (margin_used equity available) unrealizedPnL).
Definition bybit_Balances (c : bybitBase) (ctx : context) (GetWalletBalance : string → string → result sdk_error (list WalletAccount)) : result error (list (Balance D)) :=
  _ <-? ctxErr ctx (bb_meta c) "Balances" ;;
  if String.eqb (cm_product (bb_meta c)) ProductPerp then account <-? bybit_PerpAccount c ctx GetWalletBalance ;; Ok (pa_Balances account)
  else bybit_SpotAccount c ctx GetWalletBalance.
Definition bitget_Balances (c : bitgetBase) (ctx : context) (GetAccountAssets : result sdk_error AccountAssets) : result error (list (Balance D)) :=
  _ <-? ctxErr ctx (gb_meta c) "Balances" ;;
  if String.eqb (cm_product (gb_meta c)) ProductPerp then account <-? bitget_PerpAccount c ctx GetAccountAssets ;; Ok (pa_Balances account)
  else bitget_SpotAccount c ctx GetAccountAssets.
(** [SetLeverage]: category, symbol and both leverages, or the leverage, the margin
    coin and the margin mode, are sent. *)
Definition bybit_SetLeverage (c : bybitBase) (ctx : context) instrument (leverage : Z) (send : string → string → string → string → result sdk_error unit)
  : result error (string * Z) :=
  let meta := bb_meta c in let op := "SetLeverage" in
  _ <-? ctxErr ctx meta op ;;
  native <-? bybit_symbols c instrument op ;;
  check 0 <? leverage else invalid meta op "leverage must be positive" ;;
  _ <-? asked_venue meta op (send (bb_category c) native (FormatInt leverage) (FormatInt leverage)) ;;
  Ok (native, leverage).
Definition bitget_SetLeverage (c : bitgetBase) (ctx : context) instrument (leverage : Z) (send : string → string → string → string → string → result sdk_error unit)
  : result error (string * Z) :=
  let meta := gb_meta c in let op := "SetLeverage" in
  _ <-? ctxErr ctx meta op ;;
  native <-? bitget_symbols c instrument op ;;
  check 0 <? leverage else invalid meta op "leverage must be positive" ;;
  _ <-? asked_venue meta op (send (bitgetPrivateCategory c) native (FormatInt leverage) (gb_marginCoin c) "crossed") ;;
  Ok (native, leverage).
End rest.

(** ** What is placed is what was asked for *)

Section faithful.
Context `{DecimalTextLaws D} `{!DecimalQuotientLaws D}.
Implicit Types (instrument i : Instrument D) (req : PlaceOrderRequest D) (meta : clientMeta).

(** *** Loaded instruments are accepted *)

Lemma rows_concat {A B} (f : A → result error (list B)) rows l x : map_result f rows = Ok l → x ∈ concat l → ∃ row y, row ∈ rows ∧ f row = Ok y ∧ x ∈ y.
Proof.
  intros Hm%map_result_Ok Hx. rewrite list_elem_of_In, in_concat in Hx. destruct Hx as (y & Hy & Hx). apply list_elem_of_In, list_elem_of_lookup in Hy as [k Hk].
  destruct (Forall2_lookup_r _ _ _ _ _ Hm Hk) as (row & Hrow & E). exists row, y. split; [by eapply list_elem_of_lookup_2|]. split; [done|by apply list_elem_of_In].
Qed.
Lemma ruled_identity meta native base quote settle rules :
  id_Venue (in_Identity (ruled (D:=D) meta native base quote settle rules)) = cm_venue meta ∧ id_Product (in_Identity (ruled (D:=D) meta native base quote settle rules)) = cm_product meta ∧
  id_SettleAsset (in_Identity (ruled (D:=D) meta native base quote settle rules)) = settle.
Proof. by destruct rules as [[[? ?] ?] ?]. Qed.
Lemma scope_kept l scope i : i ∈ filterInstrumentsForScope l scope → i ∈ l ∧ (cs_Settlement scope ≠ "" → id_SettleAsset (in_Identity i) = cs_Settlement scope).
Proof.
  intros [Hi Hs]%list_elem_of_In%List.filter_In. split; [by apply list_elem_of_In|]. intros Hne. unfold in_scope in Hs.
  apply andb_prop in Hs as [_ Hs]. apply String.eqb_neq in Hne. unfold is_empty in Hs. rewrite Hne in Hs. by apply String.eqb_eq.
Qed.
Lemma bybit_loaded product scope get now snap i : bybit_LoadInstruments product scope get now = Ok snap → i ∈ sn_Instruments snap →
  id_Venue (in_Identity i) = VenueBybit ∧ id_Product (in_Identity i) = product ∧ (cs_Settlement scope ≠ "" → id_SettleAsset (in_Identity i) = cs_Settlement scope).
Proof.
  unfold bybit_LoadInstruments, bybitInstrumentsFromRows. cbv zeta. intros (rows & _ & (l & (l' & Hl & [= <-])%bind_Ok & [= <-])%bind_Ok)%bind_Ok. cbn [sn_Instruments].
  intros [Hi Hs]%scope_kept. destruct (rows_concat _ _ _ _ Hl Hi) as (row & y & _ & Hy & Hin). unfold bybit_load_row in Hy. cbv zeta in Hy.
  destruct (bybit_wanted _ _ _); [|injection Hy as <-; by apply elem_of_nil in Hin]. apply bind_Ok in Hy as ([] & _ & (rules & _ & [= <-])%bind_Ok).
  apply list_elem_of_singleton in Hin as ->. destruct (ruled_identity (mkMeta VenueBybit product) (bi_Symbol row) (bi_BaseCoin row) (bi_QuoteCoin row) (bi_SettleCoin row) rules) as (-> & -> & _). done.
Qed.
Lemma bitget_loaded product productType scope get now snap i : bitget_LoadInstruments product productType scope get now = Ok snap → i ∈ sn_Instruments snap →
  id_Venue (in_Identity i) = VenueBitget ∧ id_Product (in_Identity i) = product ∧ (product = ProductPerp → id_SettleAsset (in_Identity i) = bitgetMarginCoin productType).
Proof.
  unfold bitget_LoadInstruments, bitgetInstrumentsFromRows. cbv zeta. intros (rows & _ & (l & (l' & Hl & [= <-])%bind_Ok & [= <-])%bind_Ok)%bind_Ok. cbn [sn_Instruments].
  intros [Hi _]%scope_kept. destruct (rows_concat _ _ _ _ Hl Hi) as (row & y & _ & Hy & Hin). unfold bitget_load_row in Hy. cbv zeta in Hy.
  destruct (bitget_wanted _ _ _); [|injection Hy as <-; by apply elem_of_nil in Hin]. apply bind_Ok in Hy as ([] & _ & (rules & _ & [= <-])%bind_Ok).
  apply list_elem_of_singleton in Hin as ->.
  destruct (ruled_identity (mkMeta VenueBitget product) (gi_Symbol row) (gi_BaseCoin row) (gi_QuoteCoin row) (if String.eqb product ProductPerp then bitgetMarginCoin productType else "") rules)
    as (-> & -> & ->). split; [done|]. split; [done|]. intros ->. done.
Qed.
Lemma native_solid i : Instrument_Validate i = Ok tt → is_empty (id_NativeSymbol (in_Identity i)) = false ∧ TrimSpace (id_NativeSymbol (in_Identity i)) = id_NativeSymbol (in_Identity i).
Proof.
  unfold Instrument_Validate. cbv zeta. rewrite !check_Ok. intros (Hc & _ & Ht & _). apply negb_true_iff in Hc. rewrite !orb_false_iff in Hc. destruct Hc as [[[[[_ _] _] Hb] _] _].
  rewrite !andb_true_iff in Ht. destruct Ht as [[[[[_ Ht] _] _] _] _]. unfold trimmed in Ht. apply String.eqb_eq in Ht. unfold blank in Hb. rewrite Ht in Hb. done.
Qed.
Lemma symbols_accepted meta settle i op : Instrument_Validate i = Ok tt → id_Venue (in_Identity i) = cm_venue meta → id_Product (in_Identity i) = cm_product meta →
  (cm_product meta = ProductPerp → id_SettleAsset (in_Identity i) = settle) → settled_symbols meta settle i op = Ok (id_NativeSymbol (in_Identity i)).
Proof.
  intros Hv Hve Hp Hs. unfold settled_symbols, validateBybitBitgetInstrument. rewrite Hv. cbv zeta. rewrite Hve, Hp, !String.eqb_refl. destruct (native_solid i Hv) as [-> ->].
  rewrite String.eqb_refl. cbn [negb]. destruct (String.eqb_spec (cm_product meta) ProductPerp) as [E|]; [|done]. by rewrite (Hs E), String.eqb_refl.
Qed.

(** *** Listings of an unfilled order *)

(** The venue's row of an order as it was sent, unfilled *)
Definition bybit_echo (order : bybit_PlaceOrder) (id status : string) (at_ : Z) : bybit_Order :=
  mkBybitOrder id (yo_OrderLinkID order) (yo_Symbol order) (yo_Side order) (yo_OrderType order) (yo_TimeInForce order) (yo_Price order) (yo_Qty order) "0" "" status
    (yo_ReduceOnly order) (FormatInt at_) (FormatInt at_).
Definition bitget_echo (order : bitget_PlaceOrder) (id status : string) (at_ : Z) : bitget_Order :=
  mkBitgetOrder id (go_ClientOID order) (go_Symbol order) (go_Side order) (go_OrderType order) (go_TimeInForce order) (go_Price order) (go_Qty order) "" "" "0" "" status
    (go_ReduceOnly order) "" (FormatInt at_) (FormatInt at_) "" "".
Definition known_status (status : string) : Prop := one_of (ToLower (TrimSpace status)) known_statuses = true.

Lemma FormatInt_blank n : 0 < n → is_empty (TrimSpace (FormatInt n)) = false.
Proof.
  intros Hn. rewrite FormatInt_nonneg, TrimSpace_graphic by (lia || (eapply string_forallb_impl; [exact digit_graphic|apply FormatUint_digits])).
  apply String.eqb_neq, FormatUint_nonempty.
Qed.
Lemma milli_reads meta op field at_ : 0 < at_ ≤ int64_max → parseRequiredMilli meta op field (FormatInt at_) = Ok (FromMilli at_).
Proof.
  intros Hat. unfold parseRequiredMilli. rewrite FormatInt_blank, ParseInt_FormatInt by (unfold int64_min in *; lia). cbn [negb]. by rewrite (proj2 (Z.ltb_lt _ _)) by lia.
Qed.
Lemma printed_reads meta op (d : D) : ∃ d', parseOptionalDecimal meta op (d_string d) = Ok d' ∧ d_value d' = d_value d.
Proof. destruct (d_parse_print d) as (d' & Hp & Hv). exists d'. unfold parseOptionalDecimal. by rewrite d_string_solid, Hp. Qed.
Lemma printed_required meta op field (d : D) : ∃ d', parseRequiredDecimal meta op field (d_string d) = Ok d' ∧ d_value d' = d_value d.
Proof. destruct (printed_reads meta op d) as (d' & Hp & Hv). exists d'. unfold parseRequiredDecimal. by rewrite d_string_solid, Hp. Qed.
Lemma zero_reads meta op : ∃ d : D, parseOptionalDecimal meta op "0" = Ok d ∧ d_value d = 0%Qc.
Proof. destruct d_parse_zero as (d & Hp & Hv). exists d. unfold parseOptionalDecimal. by rewrite Hp. Qed.
Lemma printed_first meta op (d : D) rest : (0 < d_value d)%Qc → ∃ d', firstPositiveDecimalStrict meta op (d_string d :: rest) = Ok d' ∧ d_value d' = d_value d.
Proof.
  intros Hd. destruct (printed_reads meta op d) as (d' & Hp & Hv). exists d'. unfold firstPositiveDecimalStrict. cbn [first_positive]. rewrite Hp.
  rewrite (proj2 (d_is_positive_spec d')); [done|]. by rewrite Hv.
Qed.
Lemma nothing_filled meta op : ∃ d : D, firstPositiveDecimalStrict meta op ["0"; ""; ""] = Ok d ∧ d_value d = 0%Qc.
Proof.
  exists d_zero. destruct (zero_reads meta op) as (z & Hz & Hv). unfold firstPositiveDecimalStrict. cbn [first_positive]. rewrite Hz.
  assert (Hn : d_is_positive z = false). { destruct (d_is_positive z) eqn:E; [|done]. apply d_is_positive_spec in E. rewrite Hv in E. by apply Qcle_not_lt in E; [|apply Qcle_refl]. }
  assert (Hn0 : d_is_positive (d_zero : D) = false).
  { destruct (d_is_positive d_zero) eqn:E; [|done]. apply d_is_positive_spec in E. rewrite d_value_zero in E. by apply Qcle_not_lt in E; [|apply Qcle_refl]. }
  rewrite Hn. change (parseOptionalDecimal meta op "") with (Ok (E:=error) (d_zero : D)). cbv iota. rewrite Hn0. split; [done|apply d_value_zero].
Qed.
Lemma limit_policy_back policy : In policy [LimitPolicyResting; LimitPolicyIOC; LimitPolicyPostOnly] → limitPolicy (tif policy) = policy ∧ limitPolicy (bitgetTIF policy) = policy.
Proof. intros [<-|[<-|[<-|[]]]]; by vm_compute. Qed.
Lemma bybit_listed_back catalog meta op req c native id status at_ i :
  order_spec req (cm_product meta) → po_Type req = OrderTypeLimit → catalog native = Ok i → known_status status → 0 < at_ ≤ int64_max →
  native = id_NativeSymbol (in_Identity (po_Instrument req)) →
  ∃ o, bybit_order (Some catalog) meta op (bybit_echo (bybit_request c native (d_string (po_Quantity req)) "" req) id status at_) = Ok [o] ∧ same_order req o ∧ or_OrderID o = id.
Proof.
  intros Hs Ht Hi Hst Hat ->. destruct (os_type Hs) as [(E & _)|(_ & _ & _ & Hpol)]; [by rewrite Ht in E|]. unfold bybit_order, bybit_echo, bybit_request, priceString.
  cbn [yo_OrderLinkID yo_Symbol yo_Side yo_OrderType yo_TimeInForce yo_Price yo_Qty yo_ReduceOnly yr_OrderID yr_OrderLinkID yr_Symbol yr_Side yr_OrderType yr_TimeInForce yr_Price
       yr_Qty yr_CumExecQty yr_AvgPrice yr_OrderStatus yr_ReduceOnly yr_CreatedTime yr_UpdatedTime resolveEmittedNativeID]. rewrite Hi, Ht. cbn [String.eqb].
  assert (Hside : parseSide meta op (bybitSide (po_Side req)) = Ok (po_Side req)) by (destruct (os_side Hs) as [<-|[<-|[]]]; by vm_compute).
  rewrite Hside. change (parseOrderType meta op (bybitOrderType OrderTypeLimit)) with (Ok (E:=error) OrderTypeLimit).
  change (String.eqb OrderTypeLimit OrderTypeLimit) with true. cbv iota. unfold parseStatus. rewrite Hst.
  destruct (printed_required meta op "quantity" (po_Quantity req)) as (q & -> & Hq), (printed_reads meta op (po_LimitPrice req)) as (p & -> & Hp), (zero_reads meta op) as (z & -> & Hz).
  change (optStrict meta op "") with (Ok (E:=error) (no_decimal : OptionalDecimal D)). cbv iota. rewrite !milli_reads by done. eexists. split; [reflexivity|]. split; [|done].
  split; cbn; [done|done|done|done|apply limit_policy_back, Hpol|done|done|done|done].
Qed.
(** The order with its reduce-only flag dropped. *)
Definition plain_order req : PlaceOrderRequest D :=
  mkPlaceOrder (po_Instrument req) (po_ClientOrderID req) (po_Side req) (po_Type req) (po_Quantity req) (po_LimitPrice req) (po_LimitPolicy req) false.
Lemma bitget_listed_back catalog meta op req c native positionSide id status at_ i :
  order_spec req (cm_product meta) → po_Type req = OrderTypeLimit → catalog native = Ok i → known_status status → 0 < at_ ≤ int64_max →
  native = id_NativeSymbol (in_Identity (po_Instrument req)) →
  ∃ o, bitget_order (Some catalog) meta op (bitget_echo (bitget_request c native (d_string (po_Quantity req)) positionSide req) id status at_) = Ok [o] ∧
    same_order (if is_empty positionSide then req else plain_order req) o ∧ or_OrderID o = id.
Proof.
  intros Hs Ht Hi Hst Hat ->. destruct (os_type Hs) as [(E & _)|(_ & _ & _ & Hpol)]; [by rewrite Ht in E|]. unfold bitget_order, bitget_echo, bitget_request, priceString.
  cbn [go_ClientOID go_Symbol go_Side go_OrderType go_TimeInForce go_Price go_Qty go_ReduceOnly gr_OrderID gr_ClientOID gr_Symbol gr_Side gr_OrderType gr_TimeInForce gr_Price
       gr_Qty gr_Amount gr_BaseVolume gr_FilledQty gr_CumExecQty gr_AvgPrice gr_OrderStatus gr_ReduceOnly gr_CreatedTime gr_UpdatedTime gr_CTime gr_UTime resolveEmittedNativeID].
  rewrite Hi, Ht. assert (Hside : parseSide meta op (ToLower (po_Side req)) = Ok (po_Side req)) by (destruct (os_side Hs) as [<-|[<-|[]]]; by vm_compute).
  rewrite Hside. change (parseOrderType meta op (ToLower OrderTypeLimit)) with (Ok (E:=error) OrderTypeLimit).
  change (String.eqb OrderTypeLimit OrderTypeLimit) with true. cbv iota. unfold parseStatus. rewrite Hst.
  destruct (printed_first meta op (po_Quantity req) [""] (os_positive Hs)) as (q & -> & Hq), (printed_reads meta op (po_LimitPrice req)) as (p & -> & Hp), (nothing_filled meta op) as (z & -> & Hz).
  change (optStrict meta op "") with (Ok (E:=error) (no_decimal : OptionalDecimal D)). cbv iota.
  assert (Hf : ∀ rest, firstNonEmpty (FormatInt at_ :: rest) = FormatInt at_) by (intros rest; unfold firstNonEmpty; cbn [List.find]; by rewrite FormatInt_blank by lia).
  rewrite !Hf, !milli_reads by done. eexists. split; [reflexivity|]. split; [|done].
  unfold bitgetReduceOnly. destruct (is_empty positionSide); cbn [negb orb];
    (split; cbn [plain_order po_Instrument po_ClientOrderID po_Side po_Type po_LimitPolicy po_ReduceOnly po_Quantity po_LimitPrice or_NativeSymbol or_ClientOrderID or_Side or_Type or_LimitPolicy
       or_ReduceOnly or_Quantity or_LimitPrice or_Filled]; [done|done|done|done|apply limit_policy_back, Hpol| |done|done|done]); [by destruct (po_ReduceOnly req)|done].
Qed.
Lemma accepted_ack meta op native id clientID type : knownVenue (cm_venue meta) = true → one_of (cm_product meta) [ProductSpot; ProductPerp] = true → is_empty native = false →
  TrimSpace native = native → is_empty (TrimSpace id) = false →
  settled_command meta op OrderOperationPlace native "" clientID (λ ack, typed_ack ack type) (Ok (mkAction id clientID)) =
  (typed_ack (baseAck (D:=D) meta OrderOperationPlace native id clientID) type, None).
Proof.
  intros Hv Hp Hn Ht Hid. unfold settled_command, validateSuccessfulOrderAction. cbn [oa_OrderID oa_ClientID]. rewrite Hid, Ht, Hn, !String.eqb_refl.
  change (is_empty "") with true. rewrite !andb_false_r. cbn [negb andb]. unfold checked.
  assert (Hv' : is_empty (cm_venue meta) = false) by (destruct (cm_venue meta); [discriminate Hv|done]).
  assert (Hp' : is_empty (cm_product meta) = false) by (destruct (cm_product meta); [discriminate Hp|done]).
  assert (Hid' : is_empty id = false) by (destruct id; [discriminate Hid|done]).
  unfold Ack_Validate, typed_ack, baseAck, command_ack. cbv zeta. cbn [ack_Venue ack_Product ack_Operation ack_State ack_NativeSymbol ack_OrderID ack_ClientOrderID ack_TransactionHash].
  rewrite Hv', Hp', Hn, Hid'. change (is_empty OrderOperationPlace) with false. change (is_empty AckAcceptedPending) with false. cbn [orb andb negb].
  change (String.eqb AckAcceptedPending AckAcceptedPending) with true. done.
Qed.

(** *** Limit orders *)

Definition one_way (mode : string) : bool := one_of mode ["one_way_mode"; "single_hold"].
Definition hedged (mode : string) : bool := one_of mode ["hedge_mode"; "double_hold"].
(** The side of a hedged account an order is about: the one it opens, or the one
    it reduces *)
Definition hedge_side req : string := if eqb (String.eqb (po_Side req) SideBuy) (po_ReduceOnly req) then "short" else "long".
(** The hold mode an order is placed under: the one the client knows, or what the
    account's settings say on its first order. *)
Definition holds (mode : string) (settings : result sdk_error string) (m : string) : Prop :=
  (mode ≠ "" ∧ m = mode) ∨ (mode = "" ∧ ∃ text, settings = Ok text ∧ m = ToLower (TrimSpace text)).
Lemma position_side c mode req settings m : cm_product (gb_meta c) = ProductPerp → In (po_Side req) [SideBuy; SideSell] → holds mode settings m →
  (one_way m = true → bitgetPositionSide c mode req settings = (m, Ok "")) ∧ (hedged m = true → bitgetPositionSide c mode req settings = (m, Ok (hedge_side req))).
Proof.
  intros Hp Hs Hh. unfold bitgetPositionSide, hedge_side. rewrite Hp. change (String.eqb ProductPerp ProductPerp) with true. cbn [negb].
  assert (Hm : (if is_empty mode then match settings with Ok x => Ok (ToLower (TrimSpace x)) | Err s => Err (normErr (gb_meta c) "PlaceOrder" s) end else Ok mode) = Ok m).
  { destruct Hh as [[Hne%String.eqb_neq ->]|(-> & text & -> & ->)]; [unfold is_empty; by rewrite Hne|done]. }
  rewrite Hm. split; intros Hmode.
  - unfold one_way in Hmode. by rewrite Hmode.
  - assert (Hn : one_of m ["one_way_mode"; "single_hold"] = false).
    { unfold hedged, one_of in *. cbn [existsb] in *. rewrite orb_false_r in *. apply orb_true_iff in Hmode as [->%String.eqb_eq| ->%String.eqb_eq]; done. }
    rewrite Hn. unfold hedged in Hmode. rewrite Hmode. destruct Hs as [<-|[<-|[]]], (po_ReduceOnly req); done.
Qed.
Lemma one_way_not_hedged m : one_way m = true → hedged m = false.
Proof. unfold one_way, hedged, one_of. cbn [existsb]. rewrite !orb_false_r. intros [->%String.eqb_eq| ->%String.eqb_eq]%orb_true_iff; done. Qed.
Lemma hedge_side_solid req : is_empty (hedge_side req) = false.
Proof. unfold hedge_side. by destruct (eqb _ _). Qed.

(** C23: a valid limit order for an instrument either venue's loader published is sent,
    and what the venue then lists of the order as sent reads back as the order asked
    for; an answer that names it is acknowledged as accepted under the venue's id.
    On Bitget perpetuals the account's hold mode is the one the client knows or, on
    its first order, what the account's settings say, which the client then keeps:
    a one-way account is sent the reduce-only flag, and a hedged one the side the
    order opens or reduces in its place, so that there the order reads back without
    the flag. *)
Theorem limit_order_exact product scope now snap req :
  PlaceOrder_Validate req product = Ok tt → po_Type req = OrderTypeLimit → po_Instrument req ∈ sn_Instruments snap →
  let native := id_NativeSymbol (in_Identity (po_Instrument req)) in
  (∀ c get book send, bybit_LoadInstruments product scope get now = Ok snap → bb_meta c = mkMeta VenueBybit product →
     (product = ProductPerp → cs_Settlement scope = bb_settleCoin c ∧ bb_settleCoin c ≠ "") →
     ∃ order, (bybitPlace c (Some None) req book send).1 = Some order ∧
       (∀ id, is_empty (TrimSpace id) = false → send order = Ok (mkAction id (po_ClientOrderID req)) →
          (bybitPlace c (Some None) req book send).2 = (typed_ack (baseAck (bb_meta c) OrderOperationPlace native id (po_ClientOrderID req)) OrderTypeLimit, None)) ∧
       ∀ catalog op id status at_ i, catalog native = Ok i → known_status status → 0 < at_ ≤ int64_max →
         ∃ o, bybit_order (Some catalog) (bb_meta c) op (bybit_echo order id status at_) = Ok [o] ∧ same_order req o ∧ or_OrderID o = id) ∧
  (∀ c mode m productType get book settings send, bitget_LoadInstruments product productType scope get now = Ok snap → gb_meta c = mkMeta VenueBitget product →
     (product = ProductPerp → gb_marginCoin c = bitgetMarginCoin productType ∧ holds mode settings m ∧ (one_way m = true ∨ hedged m = true)) →
     let by_side := String.eqb product ProductPerp && hedged m in
     ∃ order, (bitgetPlace c mode (Some None) req book settings send).2.1 = Some order ∧
       (product = ProductPerp → (bitgetPlace c mode (Some None) req book settings send).1 = m) ∧
       (∀ id, is_empty (TrimSpace id) = false → send order = Ok (mkAction id (po_ClientOrderID req)) →
          (bitgetPlace c mode (Some None) req book settings send).2.2 = (typed_ack (baseAck (gb_meta c) OrderOperationPlace native id (po_ClientOrderID req)) OrderTypeLimit, None)) ∧
       go_PosSide order = (if by_side then hedge_side req else "") ∧
       ∀ catalog op id status at_ i, catalog native = Ok i → known_status status → 0 < at_ ≤ int64_max →
         ∃ o, bitget_order (Some catalog) (gb_meta c) op (bitget_echo order id status at_) = Ok [o] ∧
              same_order (if by_side then plain_order req else req) o ∧ or_OrderID o = id).
Proof.
  intros Hval Ht Hin. cbv zeta. pose proof (proj1 (PlaceOrder_Validate_spec req product) Hval) as Hs. destruct (native_solid _ (os_instrument Hs)) as [Hne Htr].
  assert (Hprod : one_of product [ProductSpot; ProductPerp] = true) by (destruct (os_product Hs) as [<-|[<-|[]]]; done).
  assert (Hm : ∀ p, quoted_in_quote (mkMeta p product) req = false) by (intros p; unfold quoted_in_quote; rewrite Ht; cbn; by rewrite andb_false_r).
  split.
  - intros c get book send Hload Hmeta Hset. destruct (bybit_loaded _ _ _ _ _ _ Hload Hin) as (Hv & Hp & Hset').
    assert (Hsym : bybit_symbols c (po_Instrument req) "PlaceOrder" = Ok (id_NativeSymbol (in_Identity (po_Instrument req)))).
    { unfold bybit_symbols. apply symbols_accepted; [apply (os_instrument Hs)|by rewrite Hmeta|by rewrite Hmeta|]. rewrite Hmeta. cbn [cm_product]. intros E. destruct (Hset E) as [<- Hn]. by apply Hset'. }
    exists (bybit_request c (id_NativeSymbol (in_Identity (po_Instrument req))) (d_string (po_Quantity req)) "" req).
    unfold bybitPlace, place_symbol, bybitOrderQuantity. rewrite Hmeta. cbn [ctxErr cm_product]. rewrite Hval, Hsym, Hm. cbn [fst snd].
    split; [done|]. split; [intros id Hid ->; rewrite Ht; by apply accepted_ack|].
    intros catalog op id status at_ i Hi Hst Hat. by eapply bybit_listed_back.
  - intros c mode m productType get book settings send Hload Hmeta Hset. destruct (bitget_loaded _ _ _ _ _ _ _ Hload Hin) as (Hv & Hp & Hset').
    assert (Hsym : bitget_symbols c (po_Instrument req) "PlaceOrder" = Ok (id_NativeSymbol (in_Identity (po_Instrument req)))).
    { unfold bitget_symbols. apply symbols_accepted; [apply (os_instrument Hs)|by rewrite Hmeta|by rewrite Hmeta|]. rewrite Hmeta. cbn [cm_product]. intros E. destruct (Hset E) as [-> _]. by apply Hset'. }
    set (by_side := String.eqb product ProductPerp && hedged m). cbv zeta. set (side := if by_side then hedge_side req else "").
    assert (Hside : ∃ kept, bitgetPositionSide c mode req settings = (kept, Ok side) ∧ (product = ProductPerp → kept = m)).
    { unfold side, by_side. destruct (String.eqb_spec product ProductPerp) as [E|E]; cbn [andb].
      - exists m. split; [|done]. destruct (Hset E) as (_ & Hh & Hmode). destruct (position_side c mode req settings m) as [H1' H2']; [by rewrite Hmeta|apply (os_side Hs)|done|].
        destruct Hmode as [Hmode|Hmode]; [rewrite (one_way_not_hedged m Hmode); by apply H1'|rewrite Hmode; by apply H2'].
      - exists mode. split; [|done]. unfold bitgetPositionSide. rewrite Hmeta. cbn [cm_product]. apply String.eqb_neq in E. by rewrite E. }
    destruct Hside as (kept & Hside & Hkept). exists (bitget_request c (id_NativeSymbol (in_Identity (po_Instrument req))) (d_string (po_Quantity req)) side req).
    unfold bitgetPlace, place_symbol, bitgetOrderQuantity. rewrite Hmeta. cbn [ctxErr cm_product]. rewrite Hval, Hsym, Hm, Hside. cbn [fst snd].
    split; [done|]. split; [done|]. split; [intros id Hid ->; rewrite Ht; by apply accepted_ack|]. split; [done|].
    intros catalog op id status at_ i Hi Hst Hat.
    replace (if by_side then plain_order req else req) with (if is_empty side then req else plain_order req) by (unfold side; destruct by_side; [by rewrite hedge_side_solid|done]).
    by eapply bitget_listed_back.
Qed.
End faithful.

(** ** Statuses the readers do not know *)

(** A single order whose status the reader does not know makes a whole listing
    fail: Bybit's documentation has two such words, for an order that was filled in
    part and then canceled and for a conditional order that has not triggered. *)
Lemma unknown_status_fails `{Decimal D} catalog meta op rows (row : bybit_Order) native :
  row ∈ rows → native = "" ∨ yr_Symbol row = native → one_of (ToLower (TrimSpace (yr_OrderStatus row))) known_statuses = false →
  is_ok (convertBybitOrders (D:=D) catalog meta op rows native) = false.
Proof.
  intros Hin Hn Hs. unfold convertBybitOrders, convert_rows. destruct (map_result _ _) as [l|] eqn:E; [|done]. apply map_result_Ok in E.
  assert (Hf : row ∈ List.filter (λ x, is_empty native || String.eqb (yr_Symbol x) native) rows).
  { apply list_elem_of_In, List.filter_In. split; [by apply list_elem_of_In|]. destruct Hn as [-> | ->]; [done|]. rewrite String.eqb_refl. apply orb_true_r. }
  apply list_elem_of_lookup in Hf as [k Hk]. destruct (Forall2_lookup_l _ _ _ _ _ E Hk) as (y & _ & Ey). exfalso. revert Ey. unfold bybit_order.
  intros (nid & _ & (side & _ & (type & _ & (status & Est & _)%bind_Ok)%bind_Ok)%bind_Ok)%bind_Ok. unfold parseStatus in Est. by rewrite Hs in Est.
Qed.
Example unknown_bybit_statuses : map (λ status, one_of (ToLower (TrimSpace status)) known_statuses) ["PartiallyFilledCanceled"; "Untriggered"; "Cancelled"] = [false; false; true].
Proof. vm_compute. reflexivity. Qed.

(** ** Concrete inputs *)

Definition btc_linear : bybit_Instrument := mkBybitInstrument "BTCUSDT" "LinearPerpetual" "BTC" "USDT" "USDT" "Trading" "0.10" "" "0.001" "0.001" "" "5".
Definition one_page {A} (rows : list A) (limit : Z) (cursor : string) : result sdk_error (bybit_envelope A) := Ok (mkBybit 0 "" rows "").
Definition usdt_scope : CatalogScope := InstrumentCatalog.mkScope VenueBybit "mainnet" ProductPerp "USDT" "" "".
Definition linear_snapshot : InstrumentSnapshot fixed :=
  match bybit_LoadInstruments ProductPerp usdt_scope (one_page [btc_linear]) 7 with Ok snapshot => snapshot | Err _ => zero_snapshot end.
Definition linear_instrument : Instrument fixed :=
  default (newInstrument "" "" "" "" "" "" "" "" (mkFixed 0 0) (mkFixed 0 0) (mkFixed 0 0) no_decimal no_decimal) (head (sn_Instruments linear_snapshot)).
Definition linear_order : PlaceOrderRequest fixed := mkPlaceOrder linear_instrument "17" SideSell OrderTypeLimit (mkFixed 3 3) (mkFixed 650005 1) LimitPolicyPostOnly true.
Definition no_book (category symbol : string) (limit : Z) : result sdk_error bybit_OrderBook := Ok (mkBybitBook [] [] 0 0).
Definition linear_answer (order : bybit_PlaceOrder) : result sdk_error order_action := Ok (mkAction "901" (yo_OrderLinkID order)).
Definition linear_sent : bybit_PlaceOrder := mkBybitPlace "linear" "BTCUSDT" "Sell" "Limit" "0.003" "65000.5" "PostOnly" true "17" "".
Example linear_order_sent : (bybitPlace (NewBybitLinearPerp "usdt") (Some None) linear_order no_book linear_answer).1 = Some linear_sent.
Proof. vm_compute. reflexivity. Qed.
(** The first order of a Bitget client, on a hedged account. *)
Definition btc_futures : bitget_Instrument := mkBitgetInstrument "BTCUSDT" "perpetual" "BTC" "USDT" "0.001" "5" "1" "3" "0.1" "0.001" "online".
Definition futures_scope : CatalogScope := InstrumentCatalog.mkScope VenueBitget "mainnet" ProductPerp "USDT" "" "".
Definition futures_rows (category symbol : string) : result sdk_error (list bitget_Instrument) := Ok [btc_futures].
Definition futures_snapshot : InstrumentSnapshot fixed :=
  match bitget_LoadInstruments ProductPerp "USDT-FUTURES" futures_scope futures_rows 7 with Ok snapshot => snapshot | Err _ => zero_snapshot end.
Definition futures_instrument : Instrument fixed :=
  default (newInstrument "" "" "" "" "" "" "" "" (mkFixed 0 0) (mkFixed 0 0) (mkFixed 0 0) no_decimal no_decimal) (head (sn_Instruments futures_snapshot)).
Definition futures_order : PlaceOrderRequest fixed := mkPlaceOrder futures_instrument "17" SideSell OrderTypeLimit (mkFixed 3 3) (mkFixed 650005 1) LimitPolicyPostOnly true.
Definition no_bitget_book (category symbol : string) (limit : Z) : result sdk_error bitget_OrderBook := Ok (mkBitgetBook [] [] "").
Definition futures_answer (order : bitget_PlaceOrder) : result sdk_error order_action := Ok (mkAction "901" (go_ClientOID order)).

Lemma limit_order_exact_witness :
  (∃ order, (bybitPlace (NewBybitLinearPerp "USDT") (Some None) linear_order no_book linear_answer).1 = Some order ∧
    ∃ o, bybit_order (Some (λ _, Ok linear_instrument)) (mkMeta VenueBybit ProductPerp) "OpenOrders" (bybit_echo order "901" "New" 1700000000000) = Ok [o] ∧ same_order linear_order o) ∧
  ∃ order, (bitgetPlace (NewBitgetPerp "USDT-FUTURES") "" (Some None) futures_order no_bitget_book (Ok "hedge_mode") futures_answer).2.1 = Some order ∧
    go_PosSide order = "long" ∧
    ∃ o, bitget_order (Some (λ _, Ok futures_instrument)) (mkMeta VenueBitget ProductPerp) "OpenOrders" (bitget_echo order "901" "live" 1700000000000) = Ok [o] ∧
         same_order (plain_order futures_order) o.
Proof.
  assert (Hi : linear_instrument ∈ sn_Instruments linear_snapshot).
  { assert (E : sn_Instruments linear_snapshot = [linear_instrument]) by (vm_compute; reflexivity). rewrite E. by left. }
  assert (Hf : futures_instrument ∈ sn_Instruments futures_snapshot).
  { assert (E : sn_Instruments futures_snapshot = [futures_instrument]) by (vm_compute; reflexivity). rewrite E. by left. }
  split.
  - destruct (limit_order_exact (D:=fixed) ProductPerp usdt_scope 7 linear_snapshot linear_order) as [Hby _]; [vm_compute; reflexivity|reflexivity|exact Hi|].
    destruct (Hby (NewBybitLinearPerp "USDT") (one_page [btc_linear]) no_book linear_answer) as (order & Ho & _ & Hl);
      [vm_compute; reflexivity|reflexivity|intros _; split; [reflexivity|discriminate]|].
    exists order. split; [exact Ho|]. destruct (Hl (λ _, Ok linear_instrument) "OpenOrders" "901" "New" 1700000000000 linear_instrument) as (o & Ho' & Hsame & _);
      [reflexivity|vm_compute; reflexivity|unfold int64_max; lia|]. exists o. split; assumption.
  - destruct (limit_order_exact (D:=fixed) ProductPerp futures_scope 7 futures_snapshot futures_order) as [_ Hbg]; [vm_compute; reflexivity|reflexivity|exact Hf|].
    destruct (Hbg (NewBitgetPerp "USDT-FUTURES") "" "hedge_mode" "USDT-FUTURES" futures_rows no_bitget_book (Ok "hedge_mode") futures_answer) as (order & Ho & _ & _ & Hp & Hl);
      [vm_compute; reflexivity|reflexivity|intros _; split; [reflexivity|split; [right; split; [reflexivity|exists "hedge_mode"; split; reflexivity]|right; reflexivity]]|].
    exists order. split; [exact Ho|]. split; [rewrite Hp; reflexivity|].
    destruct (Hl (λ _, Ok futures_instrument) "OpenOrders" "901" "live" 1700000000000 futures_instrument) as (o & Ho' & Hsame & _);
      [reflexivity|vm_compute; reflexivity|unfold int64_max; lia|]. exists o. split; assumption.
Defined.
