(* ===== verification/BitgetCandles.v ===== *)
(** * Bitget: the walk over candle pages

    Theorems on [bitgetBase.Candles]: the loop ends whatever the venue answers, and
    against a venue that answers as documented it has then collected the newest
    candles of the window. *)

From Stdlib Require Import Ascii String ZArith Lia Sorted.
From stdpp Require Import base list strings gmap fin_map_dom.
From S2P Require Import Prelude GoStrings Calendar Decimals DecimalText Errors Model HttpErrors InstrumentCatalog Sockets Credentials Clients.
From S2P Require Import HyperliquidMarkets VenueErrors OKXMarkets BybitBitget.

#[local] Open Scope string_scope.
#[local] Open Scope list_scope.
#[local] Open Scope Z_scope.
#[local] Open Scope go_scope.

Section walk.
Context `{Decimal D} `{DecimalText D}.
Implicit Types (c : Candle D) (l : list (Candle D)) (found : gmap Z (Candle D)) (meta : clientMeta).
Local Abbreviation key c := (UnixMilli (ca_OpenTime c)).

(** ** The loop ends *)

(** An open time a reply can have *)
Definition timed c : Prop := ∃ ms, 0 < ms ∧ ca_OpenTime c = FromMilli ms.
Lemma strictCandle_timed meta op t o h lo cl v c : strictCandle meta op t o h lo cl v = Ok c → timed c.
Proof.
  unfold strictCandle. intros (at_ & Hat & Hc)%bind_Ok. assert (E : ca_OpenTime c = at_). { repeat (apply bind_Ok in Hc as (? & _ & Hc)). by injection Hc as <-. }
  unfold parseRequiredMilli in Hat. apply check_Ok in Hat as [_ Hat]. destruct (ParseInt t) as [ms|]; [|done]. apply check_Ok in Hat as [Hms [= <-]]. exists ms. split; [lia|done].
Qed.
Lemma convertCandles_timed meta op rows l c : convertCandles meta op rows = Ok l → c ∈ l → timed c.
Proof.
  intros Hl%map_result_Ok [k Hk]%list_elem_of_lookup. destruct (Forall2_lookup_r _ _ _ _ _ Hl Hk) as (row & _ & E). by eapply strictCandle_timed.
Qed.
Lemma earliest_spec first l : (∃ c, c ∈ first :: l ∧ ca_OpenTime c = earliest_of first l) ∧ ∀ c, c ∈ first :: l → earliest_of first l ≤ ca_OpenTime c.
Proof.
  unfold earliest_of. assert (Hg : ∀ t, (t ≤ ca_OpenTime first ∧ ∃ c, c ∈ first :: l ∧ ca_OpenTime c = t) →
    let e := foldl (λ earliest candle, if Before (ca_OpenTime candle) earliest then ca_OpenTime candle else earliest) t l in
    e ≤ ca_OpenTime first ∧ (∃ c, c ∈ first :: l ∧ ca_OpenTime c = e) ∧ ∀ c, c ∈ l → e ≤ ca_OpenTime c).
  { assert (Hsub : ∀ k, (∀ c, c ∈ k → c ∈ first :: l) → ∀ t, (t ≤ ca_OpenTime first ∧ ∃ c, c ∈ first :: l ∧ ca_OpenTime c = t) →
      let e := foldl (λ earliest candle, if Before (ca_OpenTime candle) earliest then ca_OpenTime candle else earliest) t k in
      e ≤ t ∧ (∃ c, c ∈ first :: l ∧ ca_OpenTime c = e) ∧ ∀ c, c ∈ k → e ≤ ca_OpenTime c).
    { induction k as [|x k IH]; intros Hk t [Ht Hc]; cbn; [split_and!; [lia|done|intros c Hin; by apply elem_of_nil in Hin]|].
      unfold Before. destruct (Z.ltb_spec (ca_OpenTime x) t) as [Hx|Hx].
      - destruct (IH (λ c Hin, Hk c (list_elem_of_further _ _ _ Hin)) (ca_OpenTime x)) as (He & Hm & Hall); [split; [lia|exists x; split; [apply Hk; by left|done]]|].
        split_and!; [unfold Before in *; lia|done|]. intros c [->|Hin]%elem_of_cons; [done|by apply Hall].
      - destruct (IH (λ c Hin, Hk c (list_elem_of_further _ _ _ Hin)) t) as (He & Hm & Hall); [done|].
        split_and!; [done|done|]. intros c [->|Hin]%elem_of_cons; [unfold Before in *; lia|by apply Hall]. }
    intros t Ht. destruct (Hsub l (λ c Hin, list_elem_of_further _ _ _ Hin) t Ht) as (He & Hm & Hall). cbv zeta. split_and!; [lia|done|done]. }
  destruct (Hg (ca_OpenTime first)) as (He & Hm & Hall); [split; [lia|exists first; split; [by left|done]]|]. split; [done|]. intros c [->|Hin]%elem_of_cons; [done|by apply Hall].
Qed.
Lemma keep_dom l found : dom (foldl keep_candle found l) = dom found ∪ list_to_set (map (λ c, key c) l).
Proof. revert found. induction l as [|c l IH]; intros found; cbn; [set_solver|]. rewrite IH. unfold keep_candle. rewrite dom_insert_L. set_solver. Qed.

(** Where the walk stands after a page: every candle it has opens after the end of
    the next page. *)
Definition walked (pageEnd : time) found : Prop := found = ∅ ∨ ∃ m, 0 < m ∧ pageEnd = FromMilli (m - 1) ∧ ∀ k, k ∈ dom found → m ≤ k.
Lemma candle_step first l found pageEnd : (∀ c, c ∈ first :: l → timed c) → walked pageEnd found →
  (negb (IsZero pageEnd) && negb (Before (earliest_of first (first :: l) - Millisecond) pageEnd)) = false →
  (size found < size (foldl keep_candle found (first :: l)))%nat ∧ walked (earliest_of first (first :: l) - Millisecond) (foldl keep_candle found (first :: l)).
Proof.
  intros Ht Hw Hgo. destruct (earliest_spec first (first :: l)) as [(e & He & Ee) Hmin]. assert (Hel : e ∈ first :: l) by (by apply elem_of_cons in He as [->|He]; [left|]).
  destruct (Ht e Hel) as (m & Hm & Em). rewrite <- Ee, Em in *.
  assert (Hnew : m ∈ dom (foldl keep_candle found (first :: l))).
  { rewrite keep_dom. apply elem_of_union_r, elem_of_list_to_set, list_elem_of_In, in_map_iff. exists e. rewrite Em, UnixMilli_FromMilli. split; [done|by apply list_elem_of_In]. }
  assert (Hold : ∀ k, k ∈ dom found → m < k).
  { destruct Hw as [->|(m' & Hm' & Ep & Hk)]; [intros k Hk; by rewrite dom_empty in Hk; apply elem_of_empty in Hk|]. intros k Hin%Hk.
    assert (Hz : IsZero pageEnd = false) by (apply Z.eqb_neq; rewrite Ep; unfold FromMilli, unix_epoch, Second, Millisecond; lia). rewrite Hz in Hgo. cbn [negb andb] in Hgo.
    apply negb_false_iff in Hgo. unfold Before, FromMilli, Millisecond in *. lia. }
  split.
  - rewrite <- !size_dom. apply subset_size. split; [rewrite keep_dom; set_solver|]. intros Hsub. apply Hsub, Hold in Hnew. lia.
  - right. exists m. split; [done|]. split; [unfold FromMilli, Millisecond; lia|]. intros k. rewrite keep_dom. intros [Hk%Hold|Hk]%elem_of_union; [lia|].
    apply elem_of_list_to_set, list_elem_of_In, in_map_iff in Hk as (c & <- & Hc%list_elem_of_In). destruct (Ht c Hc) as (mc & _ & Ec). rewrite Ec, UnixMilli_FromMilli.
    specialize (Hmin c (list_elem_of_further _ _ _ Hc)). rewrite Ec in Hmin. unfold FromMilli, Millisecond in Hmin. lia.
Qed.
Lemma candle_pages_end fuel meta limit start get remaining pageEnd found : walked pageEnd found → remaining ≤ Z.of_nat fuel - 1 → 0 ≤ remaining → (limit = 0 ∨ 0 < remaining) →
  candle_pages fuel meta limit start get remaining pageEnd found ≠ None.
Proof.
  revert remaining pageEnd found. induction fuel as [|fuel IH]; intros remaining pageEnd found Hw Hf Hr Hl; [lia|]. cbn [candle_pages].
  destruct (asked_venue _ _ _) as [rows|]; [|done]. destruct (convertCandles meta "Candles" rows) as [[|first l]|] eqn:Ec; cbn [malformed_by]; [done| |done].
  destruct ((limit =? 0) || _) eqn:E1; [done|]. destruct (_ <=? 0) eqn:E2; [done|]. destruct ((negb (IsZero start) && _) || _) eqn:E3; [done|].
  apply orb_false_iff in E3 as [_ E3]. destruct (candle_step first l found pageEnd) as [Hsize Hwalked]; [intros c; by eapply convertCandles_timed|exact Hw|exact E3|].
  apply orb_false_iff in E1 as [E1 _]. apply Z.eqb_neq in E1. apply Z.leb_gt in E2. apply IH; [done|lia|lia|by right].
Qed.
(** Whatever the venue answers, [Candles] returns: each further page must bring a
    candle that opens before all those it has. *)
Theorem bitget_candles_end (client : bitgetBase) ctx (req : CandlesRequest (D:=D)) get : bitget_Candles client ctx req get ≠ None.
Proof.
  unfold bitget_Candles. match goal with |- match ?r with Ok _ => _ | Err _ => _ end ≠ None => destruct r as [[native interval]|] eqn:E; [|done] end.
  assert (Hl : 0 ≤ cq_Limit req).
  { apply bind_Ok in E as ([] & _ & (n & _ & ([] & Hw & _)%bind_Ok)%bind_Ok). unfold validateWindow in Hw. rewrite !check_Ok in Hw. destruct Hw as (_ & _ & Hl & _).
    apply negb_true_iff, Z.ltb_ge in Hl. done. }
  destruct (candle_pages _ _ _ _ _ _ _ _) as [[]|] eqn:Ep; [done|done|]. exfalso. revert Ep. unfold candle_fuel.
  apply candle_pages_end; [by left|lia|done|lia].
Qed.

(** ** What it has collected *)

(** The candles of a list by their open times *)
Definition holds found l : Prop := ∀ k c, found !! k = Some c ↔ c ∈ l ∧ key c = k.
Lemma holds_keep found l c : holds found l → (∀ c', c' ∈ l → key c' ≠ key c) → holds (keep_candle found c) (c :: l).
Proof.
  intros Hh Hne k c'. unfold keep_candle. destruct (decide (key c = k)) as [<-|Hk].
  - rewrite lookup_insert_eq, elem_of_cons. split; [intros [= <-]; auto|]. intros [[->|Hin] E]; [done|]. by apply Hne in Hin.
  - rewrite lookup_insert_ne, (Hh k c'), elem_of_cons by done. split; [intros [? ?]; auto|]. intros [[->|Hin] E]; [done|auto].
Qed.
Lemma holds_page found l page : holds found l → NoDup (map (λ c, key c) page) → (∀ c c', c ∈ l → c' ∈ page → key c ≠ key c') →
  holds (foldl keep_candle found page) (page ++ l).
Proof.
  revert found l. induction page as [|x page IH]; intros found l Hh Hnd Hdis; [done|]. cbn [map foldl app] in *. apply NoDup_cons in Hnd as [Hx Hnd].
  assert (Hh' : holds (foldl keep_candle (keep_candle found x) page) (page ++ (x :: l))).
  { apply IH; [apply holds_keep; [done|intros c' Hc'; apply Hdis; [done|by left]]|done|].
    intros c c' [->|Hc]%elem_of_cons Hc'; [intros E; apply Hx; rewrite E; apply list_elem_of_In, in_map_iff; exists c'; split; [done|by apply list_elem_of_In]|apply Hdis; [done|by right]]. }
  intros k c. rewrite (Hh' k c), !elem_of_app, !elem_of_cons, elem_of_app. naive_solver.
Qed.
Lemma holds_list found l : holds found l → NoDup (map (λ c, key c) l) → map snd (map_to_list found) ≡ₚ l ∧ size found = length l.
Proof.
  intros Hh Hnd. assert (Hp : map_to_list found ≡ₚ map (λ c, (key c, c)) l).
  { apply NoDup_Permutation; [apply NoDup_map_to_list|apply (NoDup_fmap_1 fst); change (NoDup (map fst (map (λ c, (key c, c)) l))); by rewrite map_map|].
    intros [k c]. rewrite elem_of_map_to_list, (Hh k c). split.
    - intros [Hc <-]. apply list_elem_of_In, in_map_iff. exists c. split; [done|by apply list_elem_of_In].
    - intros (c' & [= <- ->] & Hc)%list_elem_of_In%in_map_iff. split; [by apply list_elem_of_In|done]. }
  split; [rewrite Hp, map_map; by rewrite map_id|]. rewrite <- length_map_to_list, Hp. apply length_map.
Qed.
Lemma sorted_keys l : StronglySorted opened_before l → (∀ c, c ∈ l → timed c) → NoDup (map (λ c, key c) l).
Proof.
  intros Hs Ht. induction Hs as [|c l Hs IH Hc]; [constructor|]. cbn. constructor; [|apply IH; intros c' Hc'; apply Ht; by right].
  rewrite list_elem_of_In, in_map_iff. intros (c' & E & Hc'). rewrite List.Forall_forall in Hc. specialize (Hc c' Hc'). unfold opened_before in Hc.
  destruct (Ht c ltac:(by left)) as (m & _ & Em), (Ht c' ltac:(right; by apply list_elem_of_In)) as (m' & _ & Em'). rewrite Em, Em', !UnixMilli_FromMilli in *. unfold FromMilli, Millisecond in Hc. lia.
Qed.
Lemma by_open_time_sorted found l : holds found l → StronglySorted opened_before l → (∀ c, c ∈ l → timed c) → by_open_time found = l.
Proof. intros Hh Hs Ht. destruct (holds_list found l Hh (sorted_keys _ Hs Ht)) as [Hp _]. by apply sort_opened. Qed.

(** ** A venue that answers as documented *)

Section venue.
Context (series : list (Candle D)) (row_of : Candle D → list string) (meta : clientMeta).
(** Its candles, in the order of their open times, more than a millisecond apart *)
Record candle_series : Prop := mkSeries {
  cv_sorted : StronglySorted opened_before series;
  cv_timed : ∀ c, c ∈ series → ∃ ms, 1 < ms ∧ ca_OpenTime c = FromMilli ms;
  cv_spaced : ∀ c c', c ∈ series → c' ∈ series → ca_OpenTime c < ca_OpenTime c' → ca_OpenTime c + Millisecond < ca_OpenTime c';
  cv_rows : ∀ c, c ∈ series → let field n := nth n (row_of c) "" in
    strictCandle meta "Candles" (field 0%nat) (field 1%nat) (field 2%nat) (field 3%nat) (field 4%nat) (field 5%nat) = Ok c;
}.
Definition inside (from to : Z) c : bool := ((from <=? 0) || (from <=? key c)) && ((to <=? 0) || (key c <=? to)).
Definition window (from to : Z) : list (Candle D) := List.filter (inside from to) series.
(** The newest [limit] candles of the range, in some order *)
Definition newest_endpoint (from : Z) (get : Z → Z → result sdk_error (list (list string))) : Prop :=
  ∀ to limit, 0 < limit → ∃ page, page ≡ₚ lastn (Z.to_nat limit) (window from to) ∧ get to limit = Ok (map row_of page).
Context (Hv : candle_series).

Lemma window_sub from to : sublist (window from to) series.
Proof. unfold window. induction series as [|x l IH]; [constructor|]. cbn. destruct (inside from to x); by constructor. Qed.
Lemma window_sorted from to : StronglySorted opened_before (window from to).
Proof. exact (sublist_sorted _ _ _ (window_sub from to) (cv_sorted Hv)). Qed.
Lemma window_timed from to c : c ∈ window from to → c ∈ series ∧ timed c.
Proof. intros Hc. pose proof (elem_of_sublist _ _ _ Hc (window_sub from to)) as Hs. split; [done|]. destruct (cv_timed Hv c Hs) as (ms & Hms & E). exists ms. split; [lia|done]. Qed.
(** Before the oldest candle of a page *)
Lemma window_before from to pre c rest : window from to = pre ++ c :: rest → window from (key c - 1) = pre.
Proof.
  intros E. assert (Hc : c ∈ window from to) by (rewrite E; set_solver). destruct (window_timed _ _ _ Hc) as [Hcs _]. destruct (cv_timed Hv c Hcs) as (m & Hm & Em).
  assert (Hf : window from (key c - 1) = List.filter (λ x, ca_OpenTime x <? ca_OpenTime c) (window from to)).
  { unfold window. rewrite filter_and. apply List.filter_ext_in. intros x Hx%list_elem_of_In. destruct (cv_timed Hv x Hx) as (mx & Hmx & Ex).
    assert (Hin : inside from to c = true) by (apply list_elem_of_In, List.filter_In in Hc as [_ Hc]; exact Hc).
    unfold inside in *. rewrite Em, Ex, !UnixMilli_FromMilli in *. apply andb_prop in Hin as [_ Hin]. rewrite <- andb_assoc. f_equal.
    unfold FromMilli, Millisecond. destruct (Z.leb_spec (m - 1) 0), (Z.leb_spec to 0), (Z.leb_spec mx to), (Z.leb_spec mx (m - 1)), (Z.ltb_spec (unix_epoch + mx * 1000000) (unix_epoch + m * 1000000));
      cbn [orb andb] in *; try reflexivity; try (exfalso; lia); destruct (Z.leb_spec m to); try discriminate; exfalso; lia. }
  rewrite Hf. rewrite (before_first (window from to) (length pre) c (window_sorted _ _)); [by rewrite E, take_app_length|]. rewrite E. by rewrite list_lookup_middle.
Qed.
Lemma rows_convert page : (∀ c, c ∈ page → c ∈ series) → convertCandles meta "Candles" (map row_of page) = Ok page.
Proof.
  intros Hp. unfold convertCandles. apply map_result_Ok. apply Forall2_fmap_l, Forall_Forall2_diag, Forall_forall. intros c Hc. apply (cv_rows Hv), Hp, Hc.
Qed.

(** What the walk has when it stops: the newest candles of the window, as many as
    asked for or all of them. *)
Definition collected (limit : Z) (all : list (Candle D)) found : Prop := ∃ older suf, all = older ++ suf ∧ holds found suf ∧ Z.of_nat (length suf) ≤ limit ∧ (older = [] ∨ Z.of_nat (length suf) = limit).
Lemma collected_newest limit from to found : 0 < limit → collected limit (window from to) found → newest_candles limit (by_open_time found) = lastn (Z.to_nat limit) (window from to).
Proof.
  intros Hl (older & suf & E & Hh & Hle & Hex). assert (Hs : sublist suf (window from to)) by (rewrite E; by apply sublist_inserts_l).
  rewrite (by_open_time_sorted found suf Hh); [|exact (sublist_sorted _ _ _ Hs (window_sorted from to))|intros c Hc; by apply (window_timed from to), (elem_of_sublist _ _ _ Hc)].
  unfold newest_candles. rewrite (proj2 (Z.ltb_ge limit _)), andb_false_r by done. rewrite E. unfold lastn. destruct Hex as [->|Hex].
  - cbn [app]. by replace (length suf - Z.to_nat limit)%nat with 0%nat by lia.
  - rewrite length_app. by replace (length older + length suf - Z.to_nat limit)%nat with (length older) by lia; rewrite drop_app_length.
Qed.
Lemma holds_perm found l l' : l ≡ₚ l' → holds found l → holds found l'.
Proof. intros Hp Hh k c. by rewrite (Hh k c), Hp. Qed.
Lemma earliest_head first page c0 q : first :: page ≡ₚ c0 :: q → StronglySorted opened_before (c0 :: q) → earliest_of first (first :: page) = ca_OpenTime c0.
Proof.
  intros Hp Hs. destruct (earliest_spec first (first :: page)) as [(e & He & Ee) Hmin].
  assert (He' : e ∈ c0 :: q) by (rewrite <- Hp; by apply elem_of_cons in He as [->|He]; [left|]).
  assert (Hf0 : c0 ∈ first :: first :: page) by (right; rewrite Hp; by left). apply Hmin in Hf0. apply StronglySorted_inv in Hs as [_ Hs]. rewrite List.Forall_forall in Hs.
  apply elem_of_cons in He' as [->|He']; [done|]. apply list_elem_of_In, Hs in He'. unfold opened_before in He'. lia.
Qed.
(** Nothing is left when the next page would end at or before the start. *)
Lemma before_start start to older c0 rest : window (time_millis start) to = older ++ c0 :: rest → IsZero start = false → ca_OpenTime c0 - Millisecond ≤ start → older = [].
Proof.
  intros E Hz Hle. destruct older as [|x older]; [done|]. exfalso. assert (Hx : x ∈ window (time_millis start) to) by (rewrite E; by left). assert (Hc : c0 ∈ window (time_millis start) to) by (rewrite E; set_solver).
  pose proof (window_sorted (time_millis start) to) as Hs. rewrite E in Hs. cbn in Hs. apply StronglySorted_inv in Hs as [_ Hs]. rewrite List.Forall_forall in Hs.
  specialize (Hs c0 ltac:(apply in_or_app; right; by left)). unfold opened_before in Hs.
  pose proof (cv_spaced Hv x c0 (proj1 (window_timed _ _ _ Hx)) (proj1 (window_timed _ _ _ Hc)) Hs) as Hgap.
  destruct (cv_timed Hv x (proj1 (window_timed _ _ _ Hx))) as (mx & Hmx & Ex), (cv_timed Hv c0 (proj1 (window_timed _ _ _ Hc))) as (m & Hm & Em).
  apply list_elem_of_In, List.filter_In in Hx as [_ Hin]. unfold inside, time_millis in Hin. rewrite Hz, Ex, UnixMilli_FromMilli in Hin. apply andb_prop in Hin as [Hin _].
  unfold UnixMilli, FromMilli, Millisecond in *. pose proof (Z.div_mod (start - unix_epoch) 1000000 ltac:(lia)). pose proof (Z.mod_pos_bound (start - unix_epoch) 1000000 ltac:(lia)).
  apply orb_prop in Hin as [Hin%Z.leb_le|Hin%Z.leb_le]; lia.
Qed.
Lemma page_limit_range remaining : 0 < remaining → 0 < page_limit remaining ≤ remaining.
Proof. intros Hr. unfold page_limit, bitgetCandlePageLimit. destruct (Z.eqb_spec remaining 0); [lia|]. cbn [orb]. destruct (Z.ltb_spec 100 remaining); lia. Qed.
Lemma next_end c to from : c ∈ window from to → let next := ca_OpenTime c - Millisecond in time_millis next = key c - 1 ∧ 0 < key c - 1 ∧ IsZero next = false.
Proof.
  intros [Hc _]%window_timed. destruct (cv_timed Hv c Hc) as (m & Hm & Em). rewrite Em, UnixMilli_FromMilli. replace (FromMilli m - Millisecond) with (FromMilli (m - 1)) by (unfold FromMilli, Millisecond; lia).
  assert (Hz : IsZero (FromMilli (m - 1)) = false) by (apply Z.eqb_neq; unfold FromMilli, unix_epoch, Second, Millisecond; lia). cbv zeta. unfold time_millis. rewrite Hz, UnixMilli_FromMilli. split_and!; [done|lia|done].
Qed.
(** An end of a page that bounds the venue's answer, when it is set *)
Definition page_end (pageEnd : time) : Prop := IsZero pageEnd = true ∨ 0 < UnixMilli pageEnd.
Lemma inside_end from pageEnd c : c ∈ window from (time_millis pageEnd) → page_end pageEnd → IsZero pageEnd = false → ca_OpenTime c - Millisecond < pageEnd.
Proof.
  intros Hc [?|Hp] Hz; [congruence|]. pose proof (proj1 (window_timed _ _ _ Hc)) as Hs. destruct (cv_timed Hv c Hs) as (m & Hm & Em). apply list_elem_of_In, List.filter_In in Hc as [_ Hin].
  unfold inside, time_millis in Hin. rewrite Hz, Em, UnixMilli_FromMilli in Hin. apply andb_prop in Hin as [_ Hin]. rewrite (proj2 (Z.leb_gt _ _) Hp) in Hin. apply Z.leb_le in Hin.
  rewrite Em. unfold UnixMilli, FromMilli, Millisecond in *. pose proof (Z.div_mod (pageEnd - unix_epoch) 1000000 ltac:(lia)). pose proof (Z.mod_pos_bound (pageEnd - unix_epoch) 1000000 ltac:(lia)). lia.
Qed.

(** One page: what it holds, and what the walk has with it *)
Lemma page_found older suf from to found page n : window from to = older ++ suf → holds found suf → page ≡ₚ lastn n older →
  holds (foldl keep_candle found page) (lastn n older ++ suf) ∧ size (foldl keep_candle found page) = (length page + size found)%nat.
Proof.
  intros E Hh Hp. assert (Hs : sublist (lastn n older ++ suf) (window from to)) by (rewrite E; apply sublist_app; [apply sublist_drop|done]).
  assert (Ht : ∀ c, c ∈ lastn n older ++ suf → timed c) by (intros c Hc; by apply (window_timed from to), (elem_of_sublist _ _ _ Hc)).
  pose proof (sorted_keys _ (sublist_sorted _ _ _ Hs (window_sorted from to)) Ht) as Hnd. rewrite map_app in Hnd. pose proof Hnd as (Hq & Hdis & Hsuf)%NoDup_app.
  assert (Hh' : holds (foldl keep_candle found page) (lastn n older ++ suf)).
  { apply (holds_perm _ (page ++ suf)); [by rewrite Hp|]. apply holds_page; [done|by rewrite Hp|]. intros c c' Hc Hc' Ek. rewrite Hp in Hc'.
    apply (Hdis (key c')); [apply list_elem_of_In, in_map_iff; exists c'; split; [done|by apply list_elem_of_In]|]. rewrite <- Ek. apply list_elem_of_In, in_map_iff. exists c. split; [done|by apply list_elem_of_In]. }
  split; [done|]. rewrite (proj2 (holds_list _ _ Hh' ltac:(by rewrite map_app))), (proj2 (holds_list _ _ Hh Hsuf)), length_app, Hp. done.
Qed.
Lemma walk_collects fuel limit start to get remaining pageEnd found older suf :
  newest_endpoint (time_millis start) get → window (time_millis start) to = older ++ suf → window (time_millis start) (time_millis pageEnd) = older → page_end pageEnd →
  holds found suf → 0 < remaining → Z.of_nat (length suf) + remaining = limit → size found = length suf → remaining < Z.of_nat fuel →
  ∃ found', candle_pages fuel meta limit start get remaining pageEnd found = Some (Ok found') ∧ collected limit (window (time_millis start) to) found'.
Proof.
  intros Hget. revert remaining pageEnd found older suf. induction fuel as [|fuel IH]; intros remaining pageEnd found older suf E Eo Hpe Hh Hr Hlim Hsz Hf; [lia|]. cbn [candle_pages].
  pose proof (page_limit_range remaining Hr) as Hpl. set (pl := page_limit remaining) in *. destruct (Hget (time_millis pageEnd) pl ltac:(lia)) as (page & Hp & ->). cbn [asked_venue]. rewrite Eo in Hp.
  rewrite rows_convert by (intros c Hc; rewrite Hp in Hc; apply (window_timed (time_millis start) (time_millis pageEnd)); rewrite Eo; exact (elem_of_sublist _ _ _ Hc (sublist_drop _ _))). cbn [malformed_by].
  destruct (page_found older suf _ _ found page (Z.to_nat pl) E Hh Hp) as [Hh' Hsz']. set (q := lastn (Z.to_nat pl) older) in *. set (o := take (length older - Z.to_nat pl) older).
  assert (Eq : older = o ++ q) by (symmetry; apply take_drop). assert (E' : window (time_millis start) to = o ++ (q ++ suf)) by (by rewrite app_assoc, <- Eq).
  assert (Hlq : length q = length page) by (by rewrite Hp). assert (Hlen : (length page = length older `min` Z.to_nat pl)%nat) by (rewrite <- Hlq; unfold q, lastn; rewrite length_drop; lia).
  assert (Hshort : (length page < Z.to_nat pl)%nat → o = []) by (intros Hl; unfold o; replace (length older - Z.to_nat pl)%nat with 0%nat by lia; done).
  assert (Hdone : o = [] ∨ Z.of_nat (length page) = remaining → collected limit (window (time_millis start) to) (foldl keep_candle found page)).
  { intros Hd. exists o, (q ++ suf). split; [done|]. split; [done|]. rewrite length_app, Hlq. split; [lia|]. destruct Hd as [Hd|Hd]; [by left|right; lia]. }
  destruct page as [|first page]; [eexists; split; [reflexivity|]; apply Hdone; left; apply Hshort; cbn; lia|].
  destruct (Z.eqb_spec limit 0); [lia|]. cbn [orb]. rewrite length_map. destruct (Z.ltb_spec (Z.of_nat (length (first :: page))) pl) as [Hl|Hl]; [eexists; split; [reflexivity|]; apply Hdone; left; apply Hshort; lia|].
  rewrite Hsz'. destruct (Z.leb_spec (remaining - (Z.of_nat (length (first :: page) + size found) - Z.of_nat (size found))) 0) as [Hrem|Hrem]; [eexists; split; [reflexivity|]; apply Hdone; right; lia|].
  clearbody q o. destruct q as [|c0 q]; [done|]. assert (Hsq : StronglySorted opened_before (c0 :: q)).
  { apply (sublist_sorted _ _ (window (time_millis start) to)); [|apply window_sorted]. rewrite E'. apply sublist_inserts_l, sublist_inserts_r. done. }
  rewrite (earliest_head first page c0 q Hp Hsq). assert (Hc0 : c0 ∈ window (time_millis start) (time_millis pageEnd)) by (rewrite Eo, Eq; set_solver).
  destruct (next_end _ _ _ Hc0) as (Hn1 & Hn2 & Hn3). destruct (_ || _) eqn:Hstop.
  - eexists. split; [reflexivity|]. apply Hdone. left. apply orb_prop in Hstop as [[Hz Ha]%andb_prop|[Hz Ha]%andb_prop]; apply negb_true_iff in Hz, Ha; unfold After, Before in Ha; apply Z.ltb_ge in Ha.
    + by apply (before_start start to o c0 (q ++ suf)).
    + pose proof (inside_end _ _ _ Hc0 Hpe Hz). lia.
  - apply (IH _ _ _ o ((c0 :: q) ++ suf)); [done| |right; unfold time_millis in Hn1; rewrite Hn3 in Hn1; lia|done|lia|rewrite length_app; lia|rewrite Hsz', length_app; lia|cbn in *; lia].
    rewrite Hn1. apply (window_before _ (time_millis pageEnd) _ _ q). by rewrite Eo, Eq.
Qed.
End venue.

(** C20: for every accepted request with a limit, against a venue that answers each page
    with its newest candles up to the page's end, [Candles] returns the newest
    candles of the requested window, oldest first: none is missing, none is twice,
    none is out of the window. *)
Theorem bitget_candles_newest (client : bitgetBase) (req : CandlesRequest (D:=D)) series row_of native interval
    (GetCandles : string → string → string → string → Z → Z → Z → result sdk_error (list candle_row)) :
  let first := time_millis (cq_Start req) in
  bitget_symbols client (cq_Instrument req) "Candles" = Ok native → bitgetInterval (gb_meta client) "Candles" (cq_Interval req) = Ok interval →
  validateWindow (gb_meta client) "Candles" (cq_Interval req) (cq_Start req) (cq_End req) (cq_Limit req) (cq_Cursor req) = Ok tt →
  0 < cq_Limit req → page_end (cq_End req) → candle_series series row_of (gb_meta client) →
  newest_endpoint series row_of first (GetCandles (bitgetCategory client) native interval "market" first) →
  bitget_Candles client (Some None) req GetCandles =
    Some (Ok (mkCandlePage (lastn (Z.to_nat (cq_Limit req)) (window series first (time_millis (cq_End req)))) (historyPage "" (cq_Limit req) (cq_Start req) (cq_End req)))).
Proof.
  intros first Hn Hi Hw Hl Hpe Hv Hget. unfold bitget_Candles. rewrite Hn, Hi, Hw. cbn [ctxErr].
  destruct (walk_collects series row_of (gb_meta client) Hv (candle_fuel (cq_Limit req)) (cq_Limit req) (cq_Start req) (time_millis (cq_End req))
    (λ stop limit, GetCandles (bitgetCategory client) native interval "market" first stop limit) (cq_Limit req) (cq_End req) ∅ (window series first (time_millis (cq_End req))) [] Hget) as (found & E & Hc);
    [by rewrite app_nil_r|done|done|intros k c; rewrite lookup_empty; split; [done|intros [Hx _]; by apply elem_of_nil in Hx]|done|cbn; lia|apply map_size_empty|unfold candle_fuel; lia|].
  cbv zeta. fold first. rewrite E. by rewrite (collected_newest series row_of (gb_meta client) Hv _ _ _ _ Hl Hc).
Qed.
End walk.

(** ** Three minutes of candles and a limit of two *)

Definition minute (n : Z) : Candle fixed := mkCandle (FromMilli (60000 * n)) zero_time (mkFixed 100 0) (mkFixed 101 0) (mkFixed 99 0) (mkFixed 100 0) (mkFixed 5 0) true.
Definition minute_fields (c : Candle fixed) : candle_row :=
  [FormatInt (UnixMilli (ca_OpenTime c)); d_string (ca_Open c); d_string (ca_High c); d_string (ca_Low c); d_string (ca_Close c); d_string (ca_Volume c)].
Definition three_minutes : list (Candle fixed) := [minute 1; minute 2; minute 3].
Definition minute_market : Instrument fixed := newInstrument VenueBitget ProductSpot "BTC" "BTC" "USDT" "" "BTCUSDT" "BTCUSDT" (mkFixed 1 2) (mkFixed 1 6) (mkFixed 1 6) no_decimal no_decimal.
Definition two_newest : CandlesRequest (D:=fixed) := mkCandles minute_market "1m" zero_time zero_time 2 "".
Definition minute_server (category symbol interval candleType : string) (from to limit : Z) : result sdk_error (list candle_row) :=
  Ok (map minute_fields (reverse (lastn (Z.to_nat limit) (window three_minutes from to)))).
Lemma bitget_candles_newest_witness : is_ok (bitget_symbols NewBitgetSpot minute_market "Candles") = true ∧
  bitget_Candles NewBitgetSpot (Some None) two_newest minute_server = Some (Ok (mkCandlePage [minute 2; minute 3] (historyPage "" 2 zero_time zero_time))).
Proof.
  split; [vm_compute; reflexivity|].
  assert (E : lastn (Z.to_nat 2) (window three_minutes (time_millis zero_time) (time_millis zero_time)) = [minute 2; minute 3]) by (vm_compute; reflexivity). rewrite <- E.
  apply (bitget_candles_newest (D:=fixed) NewBitgetSpot two_newest three_minutes minute_fields "BTCUSDT" "1m" minute_server); [vm_compute; reflexivity..|left; reflexivity| |].
  - assert (Hm : ∀ c, c ∈ three_minutes → ∃ n, 1 ≤ n ≤ 3 ∧ c = minute n) by (intros c Hc; repeat (apply elem_of_cons in Hc as [->|Hc]; [eexists; split; [|reflexivity]; lia|]); by apply elem_of_nil in Hc).
    constructor.
    + repeat constructor; vm_compute; reflexivity.
    + intros c (n & Hn & ->)%Hm. exists (60000 * n). split; [lia|reflexivity].
    + intros c c' (n & Hn & ->)%Hm (n' & Hn' & ->)%Hm. cbn [minute ca_OpenTime]. unfold FromMilli, Millisecond. lia.
    + intros c Hc. repeat (apply elem_of_cons in Hc as [->|Hc]; [vm_compute; reflexivity|]). by apply elem_of_nil in Hc.
  - intros to limit Hl. exists (reverse (lastn (Z.to_nat limit) (window three_minutes (time_millis zero_time) to))). split; [apply reverse_Permutation|reflexivity].
Defined.
