(* ===== verification/BybitFunding.v ===== *)
(** * Bybit: funding payments

    [bybitPerpClient.FundingPayments] of
    [exchange/internal/factoryclient/bybit_bitget.go]: the account's settlements
    from the transaction log.  The venue answers at most seven days and fifty rows
    at a time, so a window is cut into slices, and a signed cursor carries the
    slice and the venue's own cursor. *)

From Stdlib Require Import Ascii String ZArith Lia.
From stdpp Require Import base list strings gmap.
From S2P Require Import Prelude GoStrings Calendar Decimals DecimalText Errors Model HttpErrors InstrumentCatalog Sockets Credentials Clients.
From S2P Require Import VenueErrors FundingLoaders HyperliquidMarkets BinanceFunding Paging BybitBitget.

#[local] Open Scope string_scope.
#[local] Open Scope list_scope.
#[local] Open Scope Z_scope.
#[local] Open Scope go_scope.

(** [TransactionLogRecord], [TransactionLogRequest] and [TransactionLogResult] *)
Record log_record := mkLog {
  tl_ID : string; tl_Symbol : string; tl_Category : string; tl_TransactionTime : string; tl_Type : string; tl_Currency : string; tl_Funding : string;
}.
Record log_query := mkLogQuery {
  lq_AccountType : string; lq_Category : string; lq_Currency : string; lq_BaseCoin : string; lq_Type : string; lq_StartMillis : Z; lq_EndMillis : Z;
  lq_Limit : Z; lq_Cursor : string;
}.
Record log_result := mkLogResult { lr_List : list log_record; lr_NextPageCursor : string }.

Definition bybitFundingPaymentNativeLimit : Z := 50.
Definition bybitFundingPaymentPortableLimit : Z := 500.
Definition bybitFundingPaymentNativeWindow : duration := 7 * 24 * Hour.
Definition bybitFundingPaymentSplitWindow (start stop : time) : bool :=
  negb (IsZero start) && negb (IsZero stop) && (bybitFundingPaymentNativeWindow <? Sub stop start).

Section payments.
Context `{Decimal D} `{DecimalText D} `{JsonText} (hmac : string → string → string) (sha256 : string → string) (c : bybitBase).
Implicit Types (req : FundingPaymentRequest D) (row : log_record).
Local Abbreviation meta := (bb_meta c).
Local Abbreviation operation := "FundingPayments".

(** [apiKey], [secretKey] and the base URL are the client's. *)
Definition bybitFundingPaymentCursorKey (baseURL apiKey secretKey : string) : string :=
  fundingPaymentCursorKey sha256
    ["venue=" +:+ VenueBybit; "product=" +:+ ProductPerp; "category=" +:+ bb_category c; "settle=" +:+ bb_settleCoin c; "base_url=" +:+ baseURL;
     "api_key=" +:+ apiKey; "secret_key=" +:+ secretKey].
Definition bybitFundingPayment (instrument : option (Instrument D)) row (observedAt : time) : result error (FundingPayment D) :=
  let paymentID := TrimSpace (tl_ID row) in
  check negb (is_empty paymentID) else malformed meta operation "bybit funding payment id is missing" ;;
  let nativeSymbol := TrimSpace (tl_Symbol row) in
  check negb (is_empty nativeSymbol) else malformed meta operation "bybit funding payment symbol is missing" ;;
  amount <-? parseRequiredDecimal meta operation "funding payment amount" (tl_Funding row) ;;
  effectiveAt <-? parseRequiredMilli meta operation "transaction timestamp" (tl_TransactionTime row) ;;
  let nativeID := match instrument with Some i => id_NativeID (in_Identity i) | None => "" end in
  let sourceRef := "bybit:v5:account:transaction-log:SETTLEMENT:" +:+ paymentID in
  Ok (mkPayment paymentID (stableFundingPaymentFactID sha256 [sourceRef; nativeSymbol; tl_Funding row; tl_TransactionTime row]) nativeSymbol nativeID (tl_Currency row)
        amount effectiveAt observedAt 1 "bybit-v5-transaction-log-v1" sourceRef "actual-funding-payment-v1").
(** The body of the loop over the rows of one answer *)
Definition log_row req (native settlement : string) (observedAt : time) row : result error (list (FundingPayment D)) :=
  let fail what := malformed meta operation ("response " +:+ what +:+ " does not match request") in
  check String.eqb (tl_Type row) "SETTLEMENT" else fail "transaction type" ;;
  check is_empty (tl_Category row) || String.eqb (tl_Category row) (bb_category c) else fail "category" ;;
  check is_empty native || String.eqb (tl_Symbol row) native else fail "instrument" ;;
  check String.eqb (tl_Currency row) settlement else fail "settlement asset" ;;
  payment <-? bybitFundingPayment (yr_Instrument req) row observedAt ;;
  Ok (if withinHalfOpen (py_EffectiveAt payment) (yr_Start req) (yr_End req) then [payment] else []).

(** The start and end of a slice, and the last time asked for *)
Definition slice_end req (split : bool) (sliceStart : time) : time :=
  if split then let nativeEnd := Add sliceStart bybitFundingPaymentNativeWindow in if After nativeEnd (yr_End req) then yr_End req else nativeEnd else yr_End req.
Definition slice_query_end req (split : bool) (nativeEnd : time) : time :=
  if split && Before nativeEnd (yr_End req) then Add nativeEnd (- Millisecond) else nativeEnd.
(** [next]: the cursor that resumes at a slice, or inside it behind the venue's *)
Definition resume_at (scope envelope : fundingPaymentCursorEnvelope) (venueCursor : string) (items : list (FundingPayment D)) (slice : Z) : fundingPaymentCursorEnvelope :=
  mkEnvelope (ce_Version scope) (ce_ScopeDigest scope) venueCursor (ce_Page scope) (ce_ItemsSeen envelope + Z.of_nat (length items)) slice (ce_TraversalStarted scope).
(** The loop: the payments of the page, and where a further page resumes. *)
Fixpoint funding_slices (fuel : nat) req (split : bool) (limit : Z) (native baseCoin settlement : string) (scope envelope : fundingPaymentCursorEnvelope) (observedAt : time)
    (GetTransactionLog : log_query → result sdk_error log_result) (items : list (FundingPayment D)) (sliceStart : time) (venueCursor : string)
  : option (result error (list (FundingPayment D) * option fundingPaymentCursorEnvelope)) :=
  match fuel with
  | O => None
  | S fuel =>
      if split && (Before sliceStart (yr_Start req) || negb (Before sliceStart (yr_End req)))
      then Some (Err (invalid meta operation "cursor slice is outside funding payment window"))
      else
        let nativeStart := if split then sliceStart else yr_Start req in
        let nativeEnd := slice_end req split sliceStart in
        let remaining := limit - Z.of_nat (length items) in
        if remaining <=? 0
        then Some (Ok (items, if split && Before nativeStart (yr_End req) then Some (resume_at scope envelope "" items (optionalMillis nativeStart)) else None))
        else
          let query := mkLogQuery "UNIFIED" (bb_category c) settlement baseCoin "SETTLEMENT" (optionalMillis nativeStart) (optionalMillis (slice_query_end req split nativeEnd))
            (if bybitFundingPaymentNativeLimit <? remaining then bybitFundingPaymentNativeLimit else remaining) venueCursor in
          match asked_venue meta operation (GetTransactionLog query) with
          | Err e => Some (Err e)
          | Ok reply =>
              match map_result (log_row req native settlement observedAt) (lr_List reply) with
              | Err e => Some (Err e)
              | Ok more =>
                  let items := items ++ concat more in
                  if negb (is_empty (lr_NextPageCursor reply))
                  then Some (Ok (items, Some (resume_at scope envelope (lr_NextPageCursor reply) items (if split then optionalMillis nativeStart else ce_SliceStartMillis scope))))
                  else if limit <=? Z.of_nat (length items)
                  then Some (Ok (items, if split && Before nativeEnd (yr_End req) then Some (resume_at scope envelope "" items (optionalMillis nativeEnd)) else None))
                  else if negb split || negb (Before nativeEnd (yr_End req)) then Some (Ok (items, None))
                  else funding_slices fuel req split limit native baseCoin settlement scope envelope observedAt GetTransactionLog items nativeEnd ""
              end
          end
  end.
(** One slice at least, and one for every seven days *)
Definition slice_fuel req : nat := S (Z.to_nat ((yr_End req - yr_Start req) / bybitFundingPaymentNativeWindow + 1)).
Definition payment_limit (limit : Z) : Z := if limit <=? 0 then 50 else limit.
Definition settlement_asset req : string :=
  let settlement := ToUpper (TrimSpace (yr_SettlementAsset req)) in if is_empty settlement then bb_settleCoin c else settlement.
(** The checks of [FundingPayments] before the first request *)
Definition payment_request (ctx : context) (cursorKey : string) req
  : result error (string * string * string * Z * fundingPaymentCursorEnvelope * fundingPaymentCursorEnvelope) :=
  _ <-? ctxErr ctx meta operation ;;
  check String.eqb (bb_category c) "linear" && String.eqb (bb_settleCoin c) "USDT" else invalid meta operation "bybit funding payments support only USDT linear settlement" ;;
  let settlement := settlement_asset req in
  check String.eqb settlement "USDT" else invalid meta operation "bybit funding payments support only USDT settlement" ;;
  symbols <-? match yr_Instrument req with
              | None => Ok ("", "")
              | Some i => native <-? bybit_symbols c i operation ;; Ok (native, ToUpper (TrimSpace (id_BaseAsset (in_Identity i))))
              end ;;
  _ <-? match validateBoundedHistory (yr_Limit req) (yr_Start req) (yr_End req) with Ok _ => Ok tt | Err e => Err (invalid meta operation (error_text e)) end ;;
  let limit := payment_limit (yr_Limit req) in
  check limit <=? bybitFundingPaymentPortableLimit else invalid meta operation "limit must be between 1 and 500" ;;
  let scope := fundingPaymentCursorScope sha256 (yr_Instrument req) settlement (yr_Start req) (yr_End req) limit in
  envelope <-? match decodeFundingPaymentCursor hmac (yr_Cursor req) cursorKey scope with Ok e => Ok e | Err e => Err (invalid meta operation (error_text e)) end ;;
  Ok (symbols.1, symbols.2, settlement, limit, scope, envelope).
Definition bybit_payments_page (cursorKey : string) (envelope : fundingPaymentCursorEnvelope) req (limit : Z) (observedAt : time)
    (found : list (FundingPayment D) * option fundingPaymentCursorEnvelope) : FundingPaymentPage D :=
  let '(items, next) := found in
  let hasMore := match next with Some _ => true | None => false end in
  let cursor := match next with Some e => encodeFundingPaymentCursor hmac cursorKey e | None => "" end in
  let status := fundingPaymentCompletionStatus (ce_ItemsSeen envelope + Z.of_nat (length items)) hasMore (yr_Start req) (yr_End req)
    (fundingPaymentRetainedSince (yr_Start req) observedAt 24) observedAt in
  mkPaymentPage items (mkPage cursor limit (yr_Start req) (yr_End req) true hasMore) status (fundingPaymentWatermark cursor (yr_End req) status observedAt)
    (fundingPaymentCompleteThrough (yr_End req) status) 1.
Definition bybit_FundingPayments (ctx : context) (cursorKey : string) req (observedAt : time) (GetTransactionLog : log_query → result sdk_error log_result)
  : option (result error (FundingPaymentPage D)) :=
  match payment_request ctx cursorKey req with
  | Err e => Some (Err e)
  | Ok (native, baseCoin, settlement, limit, scope, envelope) =>
      let sliceStart := if 0 <? ce_SliceStartMillis envelope then FromMilli (ce_SliceStartMillis envelope) else yr_Start req in
      match funding_slices (slice_fuel req) req (bybitFundingPaymentSplitWindow (yr_Start req) (yr_End req)) limit native baseCoin settlement scope envelope observedAt
              GetTransactionLog [] sliceStart (ce_VenueCursor envelope) with
      | None => None
      | Some (Err e) => Some (Err e)
      | Some (Ok found) => Some (Ok (bybit_payments_page cursorKey envelope req limit observedAt found))
      end
  end.
End payments.

(** ** One call ends *)

Section ends.
Context `{Decimal D} `{DecimalText D} `{JsonText} (hmac : string → string → string) (sha256 : string → string) (c : bybitBase).
Implicit Types (req : FundingPaymentRequest D).
Local Abbreviation week := bybitFundingPaymentNativeWindow.

Lemma slices_end fuel req split limit native baseCoin settlement scope envelope observedAt get items sliceStart venueCursor :
  (0 < fuel)%nat → (split = true → yr_Start req ≤ sliceStart → yr_End req - sliceStart ≤ (Z.of_nat fuel - 1) * week) →
  funding_slices sha256 c fuel req split limit native baseCoin settlement scope envelope observedAt get items sliceStart venueCursor ≠ None.
Proof.
  revert items sliceStart venueCursor. induction fuel as [|fuel IH]; intros items sliceStart venueCursor Hf Hs; [lia|]. cbn [funding_slices].
  destruct (split && _) eqn:E0; [done|]. destruct (_ <=? 0); [done|]. destruct (asked_venue _ _ _) as [reply|]; [|done]. destruct (map_result _ _) as [more|]; [|done].
  destruct (negb (is_empty _)); [done|]. destruct (limit <=? _); [done|]. destruct (negb split || _) eqn:E1; [done|].
  apply orb_false_iff in E1 as [Hsp%negb_false_iff Hb%negb_false_iff]. subst split. cbn [andb] in E0. apply orb_false_iff in E0 as [Hst%Z.ltb_ge Hen%negb_false_iff%Z.ltb_lt].
  specialize (Hs eq_refl ltac:(lia)). unfold slice_end, After, Add in *. assert (Hw : 0 < week) by (vm_compute; reflexivity).
  destruct (Z.ltb_spec (yr_End req) (sliceStart + week)) as [Hover|Hunder]; [unfold Before in Hb; apply Z.ltb_lt in Hb; lia|]. apply Z.ltb_lt in Hb.
  apply IH; [nia|]. intros _ _. nia.
Qed.
(** Whatever the venue answers, a call asks for at most one page of each slice. *)
Theorem bybit_funding_ends ctx cursorKey req observedAt get : bybit_FundingPayments hmac sha256 c ctx cursorKey req observedAt get ≠ None.
Proof.
  unfold bybit_FundingPayments. destruct (payment_request _ _ _ _ _ _) as [[[[[[native baseCoin] settlement] limit] scope] envelope]|]; [|done]. cbv zeta.
  destruct (funding_slices _ _ _ _ _ _ _ _ _ _ _ _ _ _ _ _) as [[]|] eqn:E; [done|done|]. exfalso. revert E. apply slices_end; [unfold slice_fuel; lia|].
  intros _ Hs. unfold slice_fuel. rewrite Nat2Z.inj_succ. assert (Hw : 0 < week) by (vm_compute; reflexivity).
  pose proof (Z.div_mod (yr_End req - yr_Start req) week ltac:(lia)) as Hd. pose proof (Z.mod_pos_bound (yr_End req - yr_Start req) week Hw) as Hm. set (q := (yr_End req - yr_Start req) / week) in *.
  assert (q + 1 ≤ Z.of_nat (Z.to_nat (q + 1))) by lia. nia.
Qed.
End ends.

(** ** A traversal lists the whole window *)

Lemma filter_split {A} (P Q R : A → bool) l : (∀ x, P x = Q x || R x) → (∀ x, Q x && R x = false) → List.filter P l ≡ₚ List.filter Q l ++ List.filter R l.
Proof.
  intros Hor Hno. induction l as [|x l IH]; [done|]. cbn [List.filter]. rewrite Hor. specialize (Hno x). destruct (Q x), (R x); cbn [orb andb] in *; [done| | |done].
  - cbn [app]. by rewrite IH.
  - rewrite IH. by rewrite Permutation_middle.
Qed.
Lemma filter_permuted {A} (P : A → bool) l l' : l ≡ₚ l' → List.filter P l ≡ₚ List.filter P l'.
Proof. induction 1 as [|x l l' _ IH|x y l|]; cbn [List.filter]; [done|by destruct (P x); rewrite IH|destruct (P x), (P y); try done; apply perm_swap|by etrans]. Qed.

Section traversal.
Context `{Decimal D} `{DecimalText D} `{JsonLaws} (hmac : string → string → string) (sha256 : string → string) (c : bybitBase) (cursorKey : string).
(** The venue's cursors, each for a number of rows *)
Context (cursor_at : nat → string) (offset : string → nat).
Record venue_cursors : Prop := mkCursors {
  vc_first : offset "" = 0%nat; vc_offset : ∀ n, offset (cursor_at n) = n; vc_set : ∀ n, (0 < n)%nat → cursor_at n ≠ ""; vc_utf8 : ∀ n, valid_utf8 (cursor_at n) = true;
}.
Context (Hcur : venue_cursors) (history : list log_record) (req : FundingPaymentRequest D) (f : log_record → FundingPayment D) (symbol baseCoin : string).
Implicit Types (row : log_record) (s : time) (off : nat) (e : fundingPaymentCursorEnvelope) (items : list (FundingPayment D)).
Local Abbreviation week := bybitFundingPaymentNativeWindow.
Local Abbreviation L := (payment_limit (yr_Limit req)).
Local Abbreviation split := (bybitFundingPaymentSplitWindow (yr_Start req) (yr_End req)).

(** The endpoint as documented: [history] are the account's settlements of the
    request's category, currency and base coin, of which it answers those with a
    time in the closed range, up to the limit, behind the cursor. *)
Definition stamp row : Z := default 0 (ParseInt (tl_TransactionTime row)).
Definition in_range (first final : Z) row : bool := (first <=? stamp row) && (stamp row <=? final).
Definition log_endpoint (q : log_query) : result sdk_error log_result :=
  let rows := List.filter (in_range (lq_StartMillis q) (lq_EndMillis q)) history in
  let stop := (offset (lq_Cursor q) + Z.to_nat (lq_Limit q))%nat in
  Ok (mkLogResult (take (Z.to_nat (lq_Limit q)) (drop (offset (lq_Cursor q)) rows)) (if (stop <? length rows)%nat then cursor_at stop else "")).
Record payment_window : Prop := mkWindow {
  pw_client : bb_category c = "linear" ∧ bb_settleCoin c = "USDT"; pw_settlement : settlement_asset c req = "USDT";
  pw_symbol : match yr_Instrument req with None => symbol = "" | Some i => bybit_symbols c i "FundingPayments" = Ok symbol end;
  pw_base : baseCoin = match yr_Instrument req with None => "" | Some i => ToUpper (TrimSpace (id_BaseAsset (in_Identity i))) end;
  pw_start : ∃ ms, 0 < ms ∧ yr_Start req = FromMilli ms; pw_order : yr_Start req < yr_End req; pw_end : yr_End req ≤ FromMilli int64_max;
  pw_limit : 0 ≤ yr_Limit req ≤ 500; pw_rows : Z.of_nat (length history) ≤ int64_max;
  pw_readable : ∀ row, row ∈ history → tl_Type row = "SETTLEMENT" ∧ (tl_Category row = "" ∨ tl_Category row = "linear") ∧ (symbol = "" ∨ tl_Symbol row = symbol) ∧
    tl_Currency row = "USDT" ∧ bybitFundingPayment sha256 c (yr_Instrument req) row zero_time = Ok (f row);
}.
Context (Hw : payment_window).
Definition within row : bool := withinHalfOpen (FromMilli (stamp row)) (yr_Start req) (yr_End req).

(** *** The rows of a slice, and those behind a position *)

Definition slice_rows s : list log_record := List.filter (in_range (optionalMillis s) (optionalMillis (slice_query_end req split (slice_end req split s)))) history.
Definition rows_since s : list log_record := List.filter (in_range (optionalMillis s) (optionalMillis (yr_End req))) history.
Definition further s : bool := split && Before (slice_end req split s) (yr_End req).
Definition rest s off : list log_record := drop off (slice_rows s) ++ (if further s then rows_since (slice_end req split s) else []).
(** A start of a slice *)
Definition slice_start s : Prop := (∃ ms, 0 < ms ∧ s = FromMilli ms) ∧ yr_Start req ≤ s < yr_End req ∧ (split = false → s = yr_Start req).
Lemma millis_of ms : 0 < ms → optionalMillis (FromMilli ms) = ms.
Proof. intros Hm. unfold optionalMillis. rewrite not_zero by (unfold FromMilli, Millisecond; lia). apply UnixMilli_FromMilli. Qed.
Lemma week_millis ms : Add (FromMilli ms) week = FromMilli (ms + 604800000).
Proof. unfold Add, FromMilli, Millisecond, bybitFundingPaymentNativeWindow, Hour, Minute, Second. lia. Qed.
Lemma further_next s : slice_start s → further s = true →
  split = true ∧ slice_end req split s = Add s week ∧ slice_start (Add s week) ∧ Add s week < yr_End req.
Proof.
  intros ((ms & Hms & ->) & Hs & Hn) Hf. unfold further in Hf. apply andb_prop in Hf as [Hsp Hb]. rewrite Hsp in *. unfold slice_end, After, Before in *.
  destruct (Z.ltb_spec (yr_End req) (Add (FromMilli ms) week)) as [Hgt|Hle]; [rewrite Z.ltb_irrefl in Hb; discriminate|]. apply Z.ltb_lt in Hb. rewrite week_millis in *.
  split; [done|]. split; [done|]. split; [|done]. split; [exists (ms + 604800000); split; [lia|done]|]. split; [unfold FromMilli, Millisecond in *; lia|congruence].
Qed.
Lemma rows_split s : slice_start s → rows_since s ≡ₚ rest s 0.
Proof.
  intros Hs. unfold rest, rows_since, slice_rows. rewrite drop_0. destruct (further s) eqn:Hf.
  - destruct (further_next s Hs Hf) as (Hsp & Hse & ((ms' & Hms' & Ems') & _) & Hend). rewrite Hse. destruct Hs as ((ms & Hms & ->) & Hs & _). rewrite week_millis in *.
    unfold slice_query_end, Before. rewrite Hsp, (proj2 (Z.ltb_lt _ _) Hend). cbn [andb]. replace (Add (FromMilli (ms + 604800000)) (- Millisecond)) with (FromMilli (ms + 604800000 - 1)) by (unfold Add, FromMilli, Millisecond; lia).
    rewrite !millis_of by lia. assert (He : ms + 604800000 ≤ optionalMillis (yr_End req)).
    { unfold optionalMillis. rewrite not_zero by (unfold FromMilli, Millisecond in *; lia). unfold UnixMilli, FromMilli, Millisecond in *. apply Z.div_le_lower_bound; lia. }
    apply filter_split; intros row; unfold in_range; destruct (Z.leb_spec ms (stamp row)), (Z.leb_spec (stamp row) (optionalMillis (yr_End req))), (Z.leb_spec (stamp row) (ms + 604800000 - 1)),
      (Z.leb_spec (ms + 604800000) (stamp row)); cbn [orb andb]; (reflexivity || (exfalso; lia)).
  - rewrite app_nil_r. unfold further in Hf. unfold slice_query_end. rewrite Hf. assert (E : slice_end req split s = yr_End req); [|by rewrite E].
    unfold slice_end, After in *. destruct split; [|done]. cbn [andb] in Hf. destruct (Z.ltb_spec (yr_End req) (Add s week)); [done|]. unfold Before in Hf. apply Z.ltb_ge in Hf. lia.
Qed.
Lemma rest_length s off : slice_start s → (length (rest s off) ≤ length history)%nat.
Proof.
  intros Hs. assert (Hle : (length (rest s off) ≤ length (rest s 0))%nat) by (unfold rest; rewrite !length_app, length_drop, drop_0; lia).
  rewrite <- (rows_split s Hs) in Hle. pose proof (List.filter_length_le (in_range (optionalMillis s) (optionalMillis (yr_End req))) history). unfold rows_since in Hle. lia.
Qed.

(** *** One call *)

Lemma log_rows_read observedAt rows : (∀ row, row ∈ rows → row ∈ history) →
  ∃ more, map_result (log_row sha256 c req symbol "USDT" observedAt) rows = Ok more ∧ map unobserved (concat more) = map f (List.filter within rows).
Proof.
  induction rows as [|row rows IH]; intros Hin; [by exists []|]. destruct IH as (more & E & Hm); [intros r Hr; apply Hin; by right|].
  destruct (pw_readable Hw row (Hin row ltac:(by left))) as (Ht & Hc & Hs & Hcur' & Hf). destruct (pw_client Hw) as [Hcat _].
  cbn [map_result]. unfold log_row at 1. cbv zeta. rewrite Ht, Hcur', Hcat. change (String.eqb "SETTLEMENT" "SETTLEMENT") with true. change (String.eqb "USDT" "USDT") with true. cbv iota.
  replace (is_empty (tl_Category row) || String.eqb (tl_Category row) "linear") with true by (destruct Hc as [-> | ->]; done).
  replace (is_empty symbol || String.eqb (tl_Symbol row) symbol) with true by (destruct Hs as [-> | ->]; [done|rewrite String.eqb_refl; by rewrite orb_true_r]).
  unfold bybitFundingPayment in Hf |- *. cbv zeta in Hf |- *. apply check_Ok in Hf as [-> Hf]. apply check_Ok in Hf as [-> Hf]. apply bind_Ok in Hf as (amount & -> & Hf).
  apply bind_Ok in Hf as (at_ & Hat & Hf). rewrite Hat. injection Hf as Hf. cbn [py_EffectiveAt]. rewrite E. eexists. split; [reflexivity|].
  unfold parseRequiredMilli in Hat. apply check_Ok in Hat as [_ Hat]. cbn [List.filter concat]. unfold within at 1, stamp.
  destruct (ParseInt (tl_TransactionTime row)) as [ms|]; [|done]. apply check_Ok in Hat as [_ [= <-]]. cbn [default].
  destruct (withinHalfOpen _ _ _); cbn [app map]; rewrite Hm; [|done]. by rewrite <- Hf.
Qed.
(** What a page has read, and where the next one resumes *)
Definition page_read (scope envelope : fundingPaymentCursorEnvelope) s off items (found : list (FundingPayment D) * option fundingPaymentCursorEnvelope) : Prop :=
  ∃ consumed, map unobserved found.1 = map unobserved items ++ map f (List.filter within consumed) ∧
  match found.2 with
  | None => rest s off ≡ₚ consumed
  | Some next => ∃ s' off' venueCursor, slice_start s' ∧ offset venueCursor = off' ∧ valid_utf8 venueCursor = true ∧ rest s off ≡ₚ consumed ++ rest s' off' ∧
      next = resume_at scope envelope venueCursor found.1 (if split then optionalMillis s' else ce_SliceStartMillis scope) ∧
      (s + week ≤ s' ∨ s' = s ∧ (0 < length consumed)%nat)
  end.
Lemma slices_read fuel scope envelope observedAt items s venueCursor : slice_start s → Z.of_nat (length items) < L → yr_End req - s ≤ (Z.of_nat fuel - 1) * week → (0 < fuel)%nat →
  ∃ found, funding_slices sha256 c fuel req split L symbol baseCoin "USDT" scope envelope observedAt log_endpoint items s venueCursor = Some (Ok found) ∧
    page_read scope envelope s (offset venueCursor) items found.
Proof.
  revert items s venueCursor. induction fuel as [|fuel IH]; intros items s venueCursor Hs Hi Hfuel Hf0; [lia|]. cbn [funding_slices]. pose proof Hs as (_ & [Hs1 Hs2] & Hs3).
  assert (Hin : split && (Before s (yr_Start req) || negb (Before s (yr_End req))) = false).
  { unfold Before. rewrite (proj2 (Z.ltb_ge _ _) Hs1), (proj2 (Z.ltb_lt _ _) Hs2). apply andb_false_r. }
  rewrite Hin. cbv zeta. rewrite (proj2 (Z.leb_gt _ 0)) by lia.
  replace (if split then s else yr_Start req) with s by (destruct split; [done|by apply Hs3]).
  set (nl := if _ <? _ then _ else _). assert (Hnl : 0 < nl) by (unfold nl, bybitFundingPaymentNativeLimit; destruct (Z.ltb_spec 50 (L - Z.of_nat (length items))); lia).
  unfold log_endpoint at 1. cbn [lq_StartMillis lq_EndMillis lq_Cursor lq_Limit asked_venue lr_List lr_NextPageCursor]. fold (slice_rows s).
  set (off := offset venueCursor). set (page := take (Z.to_nat nl) (drop off (slice_rows s))).
  destruct (log_rows_read observedAt page) as (more & -> & Hmore).
  { intros row Hr. assert (Hr' : row ∈ slice_rows s) by (apply (elem_of_sublist _ _ _ Hr); etrans; [apply sublist_take|apply sublist_drop]). by apply list_elem_of_In, List.filter_In in Hr' as [Hr'%list_elem_of_In _]. }
  assert (Hitems : map unobserved (items ++ concat more) = map unobserved items ++ map f (List.filter within page)) by (by rewrite map_app, Hmore).
  destruct (Nat.ltb_spec (off + Z.to_nat nl) (length (slice_rows s))) as [Hlt|Hge].
  - replace (is_empty (cursor_at _)) with false by (symmetry; pose proof (vc_set Hcur (off + Z.to_nat nl) ltac:(lia)); by destruct (cursor_at _)). cbn [negb]. eexists. split; [reflexivity|].
    exists page. split; [exact Hitems|]. exists s, (off + Z.to_nat nl)%nat, (cursor_at (off + Z.to_nat nl)). split; [done|]. split; [apply (vc_offset Hcur)|]. split; [apply (vc_utf8 Hcur)|].
    split; [unfold rest, page; by rewrite app_assoc, <- drop_drop, take_drop|]. split; [done|]. right. split; [done|]. unfold page. rewrite length_take, length_drop. lia.
  - change (negb (is_empty "")) with false. cbv iota. assert (Hpage : page = drop off (slice_rows s)) by (unfold page; apply take_ge; rewrite length_drop; lia).
    fold (further s). destruct (further s) eqn:Hfu.
    + destruct (further_next s Hs Hfu) as (Hsp & Hse & Hs' & Hend). rewrite Hse, Hsp in *. unfold Before. rewrite (proj2 (Z.ltb_lt _ _) Hend). cbn [negb orb andb].
      assert (Hrest : rest s off ≡ₚ page ++ rest (Add s week) 0) by (unfold rest at 1; rewrite Hfu, Hsp, Hse, Hpage; apply Permutation_app_head; by apply rows_split).
      destruct (Z.leb_spec L (Z.of_nat (length (items ++ concat more)))) as [Hfull|Hroom].
      * eexists. split; [reflexivity|]. exists page. split; [exact Hitems|]. exists (Add s week), 0%nat, "". split; [done|]. split; [apply (vc_first Hcur)|]. split; [done|]. split; [done|].
        rewrite Hsp. split; [done|]. left. unfold Add. lia.
      * destruct (IH (items ++ concat more) (Add s week) "" Hs' Hroom) as (found & E & consumed & Hc & Hn); [unfold Add; nia|unfold Add in Hend; assert (0 < week) by (vm_compute; reflexivity); nia|].
        rewrite E. exists found. split; [done|]. exists (page ++ consumed). split; [by rewrite Hc, Hitems, List.filter_app, map_app, app_assoc|].
        rewrite (vc_first Hcur) in Hn. destruct found.2 as [next|]; [|by rewrite Hrest, Hn]. destruct Hn as (s' & off' & vc & H1' & H2' & H3' & H4' & H5' & H6').
        exists s', off', vc. split_and!; [done|done|done|by rewrite Hrest, H4', app_assoc|done|]. left. assert (0 < week) by (vm_compute; reflexivity). unfold Add in H6'. lia.
    + assert (Hrest : rest s off ≡ₚ page) by (unfold rest; rewrite Hfu, app_nil_r, Hpage; done). unfold further in Hfu.
      destruct (L <=? _); [eexists; split; [reflexivity|]; by exists page|].
      assert (Hstop : negb split || negb (Before (slice_end req split s) (yr_End req)) = true) by (by rewrite <- negb_andb, Hfu). rewrite Hstop.
      eexists. split; [reflexivity|]. by exists page.
Qed.
End traversal.
Arguments pw_start {D H sha256 c history req f symbol baseCoin} _.
Arguments pw_order {D H sha256 c history req f symbol baseCoin} _.
Arguments pw_end {D H sha256 c history req f symbol baseCoin} _.
Arguments pw_rows {D H sha256 c history req f symbol baseCoin} _.

Section followed.
Context `{Decimal D} `{DecimalText D} `{JsonLaws} (hmac : string → string → string) (sha256 : string → string) (c : bybitBase) (cursorKey : string).
Context (cursor_at : nat → string) (offset : string → nat) (Hcur : venue_cursors cursor_at offset) (history : list log_record).
Context (req : FundingPaymentRequest D) (f : log_record → FundingPayment D) (symbol baseCoin : string).
Implicit Types (s : time) (off : nat) (e : fundingPaymentCursorEnvelope).
Local Abbreviation week := bybitFundingPaymentNativeWindow.
Local Abbreviation L := (payment_limit (yr_Limit req)).
Local Abbreviation endpoint := (log_endpoint cursor_at offset history).
Local Abbreviation scope := (fundingPaymentCursorScope sha256 (yr_Instrument req) "USDT" (yr_Start req) (yr_End req) L).
Local Abbreviation left := (rest history req).
Local Abbreviation inside := (within req).

(** Follow the cursors for at most [n] pages; [clocks] numbers the calls. *)
Fixpoint traverse (n : nat) (cursor : string) (clocks : nat → time) : option (result error (list (FundingPaymentPage D))) :=
  match n with
  | O => Some (Ok [])
  | S n' =>
      match bybit_FundingPayments hmac sha256 c (Some None) cursorKey (at_cursor req cursor) (clocks n) endpoint with
      | Some (Ok page) =>
          if pg_HasMore (yp_Page page)
          then match traverse n' (pg_Cursor (yp_Page page)) clocks with Some (Ok pages) => Some (Ok (page :: pages)) | other => other end
          else Some (Ok [page])
      | Some (Err err) => Some (Err err)
      | None => None
      end
  end.
Context (Hw : payment_window sha256 c history req f symbol baseCoin).
(** The slice a cursor stands in *)
Definition slice_of e : time := if 0 <? ce_SliceStartMillis e then FromMilli (ce_SliceStartMillis e) else yr_Start req.
Lemma window_at cursor : payment_window sha256 c history (at_cursor req cursor) f symbol baseCoin.
Proof. by destruct Hw. Qed.
Lemma call_read cursor e now : decodeFundingPaymentCursor hmac cursor cursorKey scope = Ok e → slice_start req (slice_of e) →
  ∃ found, bybit_FundingPayments hmac sha256 c (Some None) cursorKey (at_cursor req cursor) now endpoint = Some (Ok (bybit_payments_page hmac cursorKey e req L now found)) ∧
    page_read offset history req f scope e (slice_of e) (offset (ce_VenueCursor e)) [] found.
Proof.
  intros He Hs. unfold bybit_FundingPayments, payment_request. cbn [ctxErr]. destruct Hw as [[Hcat Hcoin] Hset Hsym Hbase Hst Hord Hend Hlim _ _].
  rewrite Hcat, Hcoin. change (String.eqb "linear" "linear" && String.eqb "USDT" "USDT") with true. cbv zeta. change (settlement_asset c (at_cursor req cursor)) with (settlement_asset c req).
  rewrite Hset. change (String.eqb "USDT" "USDT") with true. cbv iota. cbn [at_cursor yr_Instrument yr_Start yr_End yr_Limit yr_Cursor].
  replace (match yr_Instrument req with None => _ | Some i => _ end) with (Ok (E:=error) (symbol, baseCoin))
    by (rewrite Hbase; destruct (yr_Instrument req); by rewrite Hsym).
  replace (validateBoundedHistory _ _ _) with (Ok (E:=error) tt)
    by (unfold validateBoundedHistory, Before; rewrite (proj2 (Z.ltb_ge _ _)) by lia; rewrite (proj2 (Z.ltb_lt _ _) Hord), orb_true_r; done).
  rewrite (proj2 (Z.leb_le L _)) by (unfold payment_limit, bybitFundingPaymentPortableLimit; destruct (Z.leb_spec (yr_Limit req) 0); lia).
  rewrite He. cbn [fst snd]. fold (slice_of e). assert (HL : 0 < L) by (unfold payment_limit; destruct (Z.leb_spec (yr_Limit req) 0); lia).
  destruct (slices_read sha256 c cursor_at offset Hcur history (at_cursor req cursor) f symbol baseCoin (window_at cursor) (slice_fuel req) scope e now [] (slice_of e) (ce_VenueCursor e)) as (found & E & Hr);
    [exact Hs|cbn; lia| |unfold slice_fuel; lia|].
  - unfold slice_fuel. rewrite Nat2Z.inj_succ. cbn [at_cursor yr_Start yr_End]. assert (Hwk : 0 < week) by (vm_compute; reflexivity). destruct Hs as (_ & [Hs _] & _).
    pose proof (Z.div_mod (yr_End req - yr_Start req) week ltac:(lia)). pose proof (Z.mod_pos_bound (yr_End req - yr_Start req) week Hwk). set (q := (yr_End req - yr_Start req) / week) in *.
    assert (q + 1 ≤ Z.of_nat (Z.to_nat (q + 1))) by lia. nia.
  - exists found. split; [|exact Hr]. change (slice_fuel (at_cursor req cursor)) with (slice_fuel req). cbn [at_cursor yr_Start yr_End yr_Limit] in E. by rewrite E.
Qed.
Lemma next_stands e items venueCursor s : slice_start req s → valid_utf8 venueCursor = true → 0 ≤ ce_ItemsSeen e + Z.of_nat (length items) ≤ int64_max →
  let next := resume_at (D:=D) scope e venueCursor items (if bybitFundingPaymentSplitWindow (yr_Start req) (yr_End req) then optionalMillis s else ce_SliceStartMillis scope) in
  decodeFundingPaymentCursor hmac (encodeFundingPaymentCursor hmac cursorKey next) cursorKey scope = Ok (sealed hmac cursorKey next) ∧ slice_of (sealed hmac cursorKey next) = s.
Proof.
  intros ((ms & Hms & ->) & Hs & Hn) Hu Hi. cbv zeta. assert (Hle : ms ≤ int64_max) by (pose proof (pw_end Hw); unfold FromMilli, Millisecond in *; lia). split.
  - rewrite decode_encode; [cbn [resume_at ce_ScopeDigest]; by rewrite String.eqb_refl|]. split_and!; cbn [resume_at ce_Page ce_ItemsSeen ce_SliceStartMillis ce_VenueCursor fundingPaymentCursorScope].
    + unfold int64, int64_min, int64_max; lia.
    + unfold int64, int64_min, int64_max in *; lia.
    + rewrite millis_of by done. unfold int64, int64_min, int64_max in *. destruct (bybitFundingPaymentSplitWindow _ _); lia.
    + done.
  - unfold slice_of. cbn [sealed resume_at ce_SliceStartMillis fundingPaymentCursorScope]. rewrite millis_of by done.
    destruct (bybitFundingPaymentSplitWindow _ _); [by rewrite (proj2 (Z.ltb_lt _ _) Hms)|]. by rewrite Hn.
Qed.
(** The pages from one position on *)
Definition to_read s off : nat := (length (left s off) + Z.to_nat ((yr_End req - s) / week))%nat.
Lemma slices_from n clocks cursor e : decodeFundingPaymentCursor hmac cursor cursorKey scope = Ok e → slice_start req (slice_of e) → 0 ≤ ce_ItemsSeen e →
  let rows := left (slice_of e) (offset (ce_VenueCursor e)) in
  ce_ItemsSeen e + Z.of_nat (length (List.filter inside rows)) ≤ int64_max → (to_read (slice_of e) (offset (ce_VenueCursor e)) < n)%nat →
  ∃ pages page i, traverse n cursor clocks = Some (Ok pages) ∧ map unobserved (concat (map yp_Items pages)) ≡ₚ map f (List.filter inside rows) ∧
    last pages = Some page ∧ pg_HasMore (yp_Page page) = false ∧
    yp_Status page = fundingPaymentCompletionStatus (ce_ItemsSeen e + Z.of_nat (length (List.filter inside rows))) false (yr_Start req) (yr_End req)
      (fundingPaymentRetainedSince (yr_Start req) (clocks i) 24) (clocks i).
Proof.
  revert cursor e. induction n as [|n IH]; intros cursor e He Hs Hpos rows Hseen Hn; [lia|]. cbn [traverse].
  destruct (call_read cursor e (clocks (S n)) He Hs) as ([items next] & -> & consumed & Hitems & Hnext). cbn [fst snd map app] in Hitems, Hnext.
  assert (Hlen : length items = length (List.filter inside consumed)) by (rewrite <- (length_map unobserved), Hitems; apply length_map).
  destruct next as [next|].
  - destruct Hnext as (s' & off' & vc & Hs' & Hoff & Hu & Hrest & -> & Hprog). pose proof (filter_permuted inside _ _ Hrest) as Hfil. rewrite List.filter_app in Hfil.
    assert (Hcount : length (List.filter inside rows) = (length (List.filter inside consumed) + length (List.filter inside (left s' off')))%nat) by (unfold rows; by rewrite Hfil, length_app).
    destruct (next_stands e items vc s' Hs' Hu ltac:(lia)) as [Hd Hst]. cbv zeta in Hd, Hst. cbn [bybit_payments_page yp_Page pg_HasMore pg_Cursor].
    set (next := resume_at _ _ _ _ _) in *. specialize (IH _ _ Hd). rewrite Hst in IH. change (ce_VenueCursor (sealed hmac cursorKey next)) with vc in IH. rewrite Hoff in IH.
    change (ce_ItemsSeen (sealed hmac cursorKey next)) with (ce_ItemsSeen e + Z.of_nat (length items)) in IH. cbv zeta in IH.
    destruct IH as (pages & page & i & -> & Hp & Hl & Hm & Hstat); [done|lia|lia| |].
    { pose proof (Permutation_length Hrest) as Hlr. rewrite length_app in Hlr. unfold to_read in *. destruct Hs as (_ & [_ Hs] & _), Hs' as (_ & [_ Hs'] & _).
      assert (Hwk : 0 < week) by (vm_compute; reflexivity). destruct Hprog as [Hp|[-> Hp]]; [|lia].
      assert (Hdiv : (yr_End req - s') / week + 1 ≤ (yr_End req - slice_of e) / week) by (rewrite <- Z.div_add by lia; apply Z.div_le_mono; lia).
      assert (0 ≤ (yr_End req - s') / week) by (apply Z.div_pos; lia). lia. }
    eexists _, page, i. split; [reflexivity|]. split_and!.
    + cbn [map concat bybit_payments_page yp_Items]. rewrite map_app, Hitems, Hp, <- map_app. apply Permutation_map. unfold rows. by rewrite Hfil.
    + by rewrite last_cons, Hl.
    + done.
    + rewrite Hstat. f_equal. lia.
  - pose proof (filter_permuted inside _ _ Hnext) as Hfil. cbn [bybit_payments_page yp_Page pg_HasMore]. eexists _, _, (S n). split; [reflexivity|]. split_and!.
    + cbn [map concat yp_Items]. rewrite app_nil_r, Hitems. apply Permutation_map. symmetry. exact Hfil.
    + reflexivity.
    + reflexivity.
    + cbn [yp_Status]. rewrite Hlen. unfold rows. by rewrite Hfil.
Qed.

(** C18: following the cursors of a bounded request whose start is a whole millisecond
    ends and has then listed every settlement of the half-open window, each once,
    however the window is cut into slices and pages; the last page says that there
    are no more, and its status is that of the whole traversal.  (A start inside a
    millisecond can be refused on the second page, [cursor_before_start].) *)
Theorem bybit_funding_followed clocks n : yr_Cursor req = "" → (length history + Z.to_nat ((yr_End req - yr_Start req) / week) < n)%nat →
  let payments := List.filter inside history in
  ∃ pages page i, traverse n (yr_Cursor req) clocks = Some (Ok pages) ∧ map unobserved (concat (map yp_Items pages)) ≡ₚ map f payments ∧
    last pages = Some page ∧ pg_HasMore (yp_Page page) = false ∧
    yp_Status page = fundingPaymentCompletionStatus (Z.of_nat (length payments)) false (yr_Start req) (yr_End req)
      (fundingPaymentRetainedSince (yr_Start req) (clocks i) 24) (clocks i).
Proof.
  intros Hc Hn payments. rewrite Hc. set (e := mkEnvelope 0 (ce_ScopeDigest scope) "" 0 0 0 true). destruct (pw_start Hw) as (ms & Hms & Ems).
  assert (Hs : slice_start req (slice_of e)) by (change (slice_of e) with (yr_Start req); split; [exists ms; done|]; split; [pose proof (pw_order Hw); lia|done]).
  assert (Hrows : List.filter inside (left (slice_of e) (offset (ce_VenueCursor e))) ≡ₚ payments).
  { cbn [e ce_VenueCursor]. rewrite (vc_first _ _ Hcur). rewrite <- (filter_permuted _ _ _ (rows_split history req _ Hs)). unfold rows_since. rewrite filter_and. unfold payments.
    match goal with |- List.filter ?P _ ≡ₚ _ => replace (List.filter P history) with (List.filter inside history); [done|] end. apply List.filter_ext. intros row.
    change (slice_of e) with (yr_Start req). pose proof (pw_order Hw) as Hord. unfold in_range, within, withinHalfOpen, optionalMillis. rewrite Ems in *.
    rewrite !not_zero by (unfold FromMilli, Millisecond in *; lia). rewrite UnixMilli_FromMilli. unfold Before, UnixMilli, FromMilli, Millisecond in *. set (t := stamp row).
    pose proof (Z.div_mod (yr_End req - unix_epoch) 1000000 ltac:(lia)). pose proof (Z.mod_pos_bound (yr_End req - unix_epoch) 1000000 ltac:(lia)).
    destruct (Z.leb_spec ms t), (Z.leb_spec t ((yr_End req - unix_epoch) / 1000000)), (Z.ltb_spec (unix_epoch + t * 1000000) (unix_epoch + ms * 1000000)), (Z.ltb_spec (unix_epoch + t * 1000000) (yr_End req));
      cbn [negb andb]; (reflexivity || (exfalso; lia)). }
  pose proof (rest_length history req _ (offset (ce_VenueCursor e)) Hs) as Hlen.
  destruct (slices_from n clocks "" e eq_refl Hs ltac:(done)) as (pages & page & i & Ep & Hp & Hl & Hm & Hst).
  - cbn [e ce_ItemsSeen]. rewrite Hrows. pose proof (List.filter_length_le inside history). pose proof (pw_rows Hw). unfold payments. lia.
  - unfold to_read. change (slice_of e) with (yr_Start req) in *. lia.
  - exists pages, page, i. split; [done|]. rewrite Hp, Hrows. split_and!; [done|done|done|]. rewrite Hst, Hrows. done.
Qed.
End followed.

(** ** Ten days of payments, one a page *)

#[local] Existing Instance bits_json.
#[local] Existing Instance bits_json_laws.
Definition day_millis : Z := 86400000.
Definition settlement_row (day : Z) : log_record :=
  mkLog (FormatInt (40 + day)) "BTCUSDT" "linear" (FormatInt (funding_start + day * day_millis)) "SETTLEMENT" "USDT" "-0.25".
Definition ten_days (start : time) : FundingPaymentRequest fixed := mkPaymentRequest None start (FromMilli (funding_start + 10 * day_millis)) "" 1 "".
Definition ten_day_history : list log_record := map settlement_row [1; 2; 8].
Definition settled_as (row : log_record) : FundingPayment fixed :=
  match bybitFundingPayment plain_hash (NewBybitLinearPerp "USDT") None row zero_time with
  | Ok payment => payment
  | Err _ => mkPayment "" "" "" "" "" (mkFixed 0 0) zero_time zero_time 0 "" "" ""
  end.
Definition eleven_days_on (call : nat) : time := FromMilli (funding_start + 11 * day_millis).
Lemma tally_cursors : venue_cursors tally String.length.
Proof.
  split; [done|apply length_tally|intros [|n] Hn; [lia|discriminate]|]. intros n. apply graphic_utf8. induction n as [|n IH]; [done|]. change (tally (S n)) with (String "x" (tally n)). exact IH.
Qed.
Lemma bybit_funding_followed_witness :
  ∃ pages, traverse plain_mac plain_hash (NewBybitLinearPerp "USDT") "key" tally String.length ten_day_history (ten_days (FromMilli funding_start)) 5 "" eleven_days_on = Some (Ok pages) ∧
    map unobserved (concat (map yp_Items pages)) ≡ₚ map settled_as ten_day_history ∧
    ∃ page, last pages = Some page ∧ pg_HasMore (yp_Page page) = false ∧ yp_Status page = FundingPaymentsComplete.
Proof.
  destruct (bybit_funding_followed plain_mac plain_hash (NewBybitLinearPerp "USDT") "key" tally String.length tally_cursors ten_day_history (ten_days (FromMilli funding_start)) settled_as "" "")
    with (clocks := eleven_days_on) (n := 5%nat) as (pages & page & i & Ep & Hp & Hl & Hm & Hs); [|reflexivity|vm_compute; lia|].
  - split; [split; reflexivity|reflexivity|reflexivity|reflexivity|exists funding_start; split; [vm_compute; reflexivity|reflexivity]|vm_compute; reflexivity|vm_compute; discriminate|cbn; lia|vm_compute; discriminate|].
    intros row Hr. repeat (apply elem_of_cons in Hr as [->|Hr]; [split_and!; [reflexivity|by right|by left|reflexivity|vm_compute; reflexivity]|]). by apply elem_of_nil in Hr.
  - exists pages. split; [exact Ep|]. assert (Hall : List.filter (within (ten_days (FromMilli funding_start))) ten_day_history = ten_day_history) by (vm_compute; reflexivity).
    rewrite Hall in Hp, Hs. split; [exact Hp|]. exists page. split; [exact Hl|]. split; [exact Hm|]. rewrite Hs. vm_compute. reflexivity.
Defined.
(** The same window from half a millisecond later: the first page ends in its first
    slice, whose start the cursor rounds down to before the window, and the second
    page is refused. *)
Example cursor_before_start : traverse plain_mac plain_hash (NewBybitLinearPerp "USDT") "key" tally String.length ten_day_history
    (ten_days (FromMilli funding_start + 500000)) 5 "" eleven_days_on =
  Some (Err (invalid (mkMeta VenueBybit ProductPerp) "FundingPayments" "cursor slice is outside funding payment window")).
Proof. vm_compute. reflexivity. Qed.
