(* ===== verification/GateMarkets.v ===== *)
(** * Gate: instruments and market data

    [exchange/internal/factoryclient/gate.go] and [gate_catalog_loader.go]: reading
    and checking the venue's texts, the instrument loader, books, candles, trades
    and funding rates of the spot and perpetual clients.  Where the two clients are
    copies of each other an operation is written once over the client's meta data;
    [gate_rest.go] is modelled in [GateRest]. *)

From Stdlib Require Import Ascii String ZArith Lia QArith Qcanon.
From stdpp Require Import base list strings gmap.
From S2P Require Import Prelude GoStrings Decimals DecimalText Errors Model HttpErrors FundingHistory InstrumentCatalog Sockets Clients.
From S2P Require Import HyperliquidMarkets VenueErrors Commands FundingLoaders DerivativeLoaders.

#[local] Open Scope string_scope.
#[local] Open Scope list_scope.
#[local] Open Scope Z_scope.
#[local] Open Scope go_scope.

(** ** Venue rows *)

Record CurrencyPair := mkCurrencyPair {
  cp_ID : string; cp_Base : string; cp_Quote : string; cp_MinBaseAmount : string; cp_MinQuoteAmount : string; cp_AmountPrecision : Z; cp_Precision : Z; cp_TradeStatus : string;
}.
Record Contract := mkGateContract {
  gk_Name : string; gk_QuantoMultiplier : string; gk_MarkPrice : string; gk_FundingRate : string; gk_FundingNextApply : float64; gk_OrderPriceRound : string;
  gk_OrderSizeMin : Z; gk_EnableDecimal : bool; gk_Status : string;
}.
Record gate_OrderBook := mkGateBook { gt_ID : Z; gt_Update : Z; gt_Asks : list (list string); gt_Bids : list (list string) }.
Record FuturesOrderBookItem := mkBookItem { fb_Price : string; fb_Size : Z }.
Record FuturesOrderBook := mkFuturesBook { fo_ID : Z; fo_Update : string; fo_Asks : list FuturesOrderBookItem; fo_Bids : list FuturesOrderBookItem }.
Record gate_Trade := mkGateTrade { tr_ID : string; tr_CreateTimeMS : string; tr_CurrencyPair : string; tr_Side : string; tr_Amount : string; tr_Price : string }.
Record FuturesTrade := mkFuturesTrade { fu_ID : Z; fu_CreateTime : string; fu_Contract : string; fu_Size : string; fu_Price : string }.
Record FuturesCandlestick := mkFuturesCandle { fc_Time : string; fc_Volume : string; fc_Close : string; fc_High : string; fc_Low : string; fc_Open : string }.
Record FundingRateRecord := mkRateRecord { fn_Time : Z; fn_Rate : string }.
Definition SettleUSDT : string := "usdt".

(** [Decimal.IntPart]: the whole part, where it is an [int64] *)
Class DecimalInt (D : Type) := d_int_part : D → Z.
Class DecimalIntLaws (D : Type) `{Decimal D} `{DecimalInt D} : Prop :=
  d_int_part_whole : ∀ (d : D) k, d_value d = Q2Qc (inject_Z k) → int64_min ≤ k ≤ int64_max → d_int_part d = k.
#[export] Instance int_fixed : DecimalInt fixed := λ d, Z.quot (fx_coef d) (pow10 (fx_places d)).
#[export] Instance int_fixed_laws : DecimalIntLaws fixed.
Proof.
  intros d k E _. change (fx_value d = Q2Qc (inject_Z k)) in E. unfold d_int_part, int_fixed. unfold fx_value in E. rewrite <- scaled_0 in E. apply scaled_eq in E. cbn [pow10] in E. change (pow10 0) with 1 in E.
  rewrite Z.mul_1_r in E. rewrite E. apply Z.quot_mul. pose proof (pow10_pos (fx_places d)). lia.
Qed.
(** [n, _ := strconv.ParseInt(text, 10, 64)]: zero for a text that is no number,
    the nearest [int64] for one that is out of range *)
Definition ParsedInt (text : string) : Z :=
  match ParseInt text with
  | Some n => n
  | None =>
      let '(negative, digits) := match text with String "-" rest => (true, rest) | String "+" rest => (false, rest) | _ => (false, text) end in
      if is_empty digits then 0
      else match DecimalString.NilEmpty.uint_of_string digits with None => 0 | Some _ => if negative then int64_min else int64_max end
  end.
(** [time.Unix(seconds, nanos)] *)
Definition Unix_time (seconds nanos : Z) : time := unix_epoch + seconds * Second + nanos.

Section gate.
Context `{Decimal D} `{DecimalText D} `{DecimalInt D}.
Implicit Types (meta : clientMeta) (instrument : Instrument D) (multiplier : D).

(** ** Texts *)

Definition gate_invalid meta (operation message : string) : error := venue_error (cm_venue meta) (cm_product meta) operation KindInvalidRequest "" message.
Definition gateContext (ctx : context) meta (operation : string) : result error unit :=
  match ctx with None => Err (gate_invalid meta operation "context is required") | Some _ => Ok tt end.
Definition gate_asked {A} meta (operation : string) (reply : result sdk_error A) : result error A :=
  match reply with Ok a => Ok a | Err s => Err (gateNormalizeErr meta operation s) end.
Definition gateDecimal (value : string) : D := if is_empty (TrimSpace value) then d_zero else default d_zero (d_new_from_string value).
Definition gateOptionalDecimal (value : string) : OptionalDecimal D := mkOptDec (gateDecimal value) (negb (is_empty (TrimSpace value))).
Definition gateParseDecimal (value : string) : option D := let text := TrimSpace value in if is_empty text then Some d_zero else d_new_from_string text.
Definition gateValidateDecimal meta (operation field value : string) : result error unit :=
  check is_present (gateParseDecimal value) else gateMalformed meta operation ("invalid gate " +:+ field) ;; Ok tt.
Definition gateValidatePositiveDecimal meta (operation field value : string) : result error unit :=
  check match gateParseDecimal value with Some parsed => d_is_positive parsed | None => false end else gateMalformed meta operation ("invalid gate " +:+ field) ;; Ok tt.
(** The loops over tables of fields *)
Definition gate_fields meta (operation : string) (fields : list (string * string)) : result error unit :=
  _ <-? map_result (λ field, gateValidateDecimal meta operation field.1 field.2) fields ;; Ok tt.
Definition gateSide (value : string) : string := if EqualFold value "sell" then SideSell else SideBuy.
Definition gateParseSide (value : string) : option string :=
  let v := ToLower (TrimSpace value) in if String.eqb v "buy" then Some SideBuy else if String.eqb v "sell" then Some SideSell else None.
Definition gateValidateSide meta (operation value : string) : result error unit :=
  check is_present (gateParseSide value) else gateMalformed meta operation "invalid gate side" ;; Ok tt.
Definition gate_statuses : list string := ["open"; "closed"; "cancelled"; "finished"].
Definition gate_finishes : list string :=
  ["_new"; "_update"; "open"; "unknown"; "filled"; "cancelled"; "liquidated"; "ioc"; "poc"; "stp"; "auto_deleveraging"; "auto_deleveraged"; "reduce_only";
   "position_close"; "position_closed"; "reduce_out"; "cb"; "expired"; "succeeded"; "failed"; "small"; "depth_not_enough"; "trader_not_enough"].
Definition gateValidateStatus meta (operation status finishAs : string) : result error unit :=
  let known value values := let v := ToLower (TrimSpace value) in is_empty v || one_of v values in
  check known status gate_statuses else gateMalformed meta operation "invalid gate order status" ;;
  check known finishAs gate_finishes else gateMalformed meta operation "invalid gate order finish status" ;; Ok tt.
(** *** Times *)
Definition gateTimeMS (value : string) : time :=
  let text := TrimSpace value in
  if is_empty text then zero_time
  else if Contains text "." then FromMilli (d_int_part (d_mul (default d_zero (d_new_from_string text)) (d_new 1000 0)))
  else FromMilli (ParsedInt text).
Definition gateUnixMilli (value : Z) : time := if value =? 0 then zero_time else FromMilli value.
Definition gateUnixMilliString (value : string) : time := gateUnixMilli (ParsedInt (TrimSpace value)).
Definition gateUnixSecondString (value : string) : time :=
  let seconds := ParsedInt (TrimSpace value) in if seconds =? 0 then zero_time else Unix_time seconds 0.
Definition gateUnixSecondDecimalString (value : string) : time :=
  match d_new_from_string (TrimSpace value) with
  | Some seconds =>
      if d_is_positive seconds then
        let whole := d_int_part seconds in
        Unix_time whole (d_int_part (d_mul (d_sub seconds (d_new whole 0)) (d_new Second 0)))
      else zero_time
  | None => zero_time
  end.

(** ** Instruments *)

Definition gateRequiredNativeInstrument meta (operation : string) instrument : result error string :=
  match Instrument_Validate instrument with
  | Err e => Err (gate_invalid meta operation (error_text e))
  | Ok _ =>
      check String.eqb (id_Venue (in_Identity instrument)) (cm_venue meta) && String.eqb (id_Product (in_Identity instrument)) (cm_product meta)
        else gate_invalid meta operation "instrument venue/product does not match client" ;;
      Ok (id_NativeSymbol (in_Identity instrument))
  end.
(** The name and whether there is an instrument *)
Definition gateOptionalNativeInstrument meta (operation : string) (instrument : option (Instrument D)) : result error (string * bool) :=
  match instrument with None => Ok ("", false) | Some i => native <-? gateRequiredNativeInstrument meta operation i ;; Ok (native, true) end.
(** [catalog] resolves a native symbol, if one is configured. *)
Definition gateCatalogInstrumentByNative (catalog : option (string → result error (Instrument D))) meta (operation native : string) : result error (Instrument D) :=
  check negb (is_empty (TrimSpace native)) else catalogMetadataResolution meta operation "native instrument symbol is missing" ;;
  match catalog with
  | None => Err (catalogMetadataResolution meta operation "instrument catalog is not configured")
  | Some resolve => match resolve native with Ok i => Ok i | Err e => Err (withExchangeOperation e operation) end
  end.
Definition gateEnsureNativeInstrument meta (operation : string) instrument (native : string) : result error unit :=
  check negb (is_empty (TrimSpace native)) && String.eqb native (id_NativeSymbol (in_Identity instrument))
    else catalogMetadataResolution meta operation "gate native instrument does not match requested instrument" ;; Ok tt.
Definition gateContractMultiplier meta (operation : string) instrument : result error D :=
  check String.eqb (id_Venue (in_Identity instrument)) VenueGate && String.eqb (id_Product (in_Identity instrument)) ProductPerp
    else catalogInvalidRequest meta operation "instrument venue/product does not match Gate perp" ;;
  let m := en_ContractMultiplier (in_Encoding instrument) in
  check od_Valid m && d_is_positive (od_Value m) else catalogMetadataResolution meta operation "gate futures contract multiplier is missing from catalog instrument" ;;
  Ok (od_Value m).
Definition gateFuturesMultiplier meta (operation value : string) : result error D :=
  match d_new_from_string (TrimSpace value) with
  | Some m => if d_is_positive m then Ok m else Err (gateMalformed meta operation "invalid gate futures contract multiplier")
  | None => Err (gateMalformed meta operation "invalid gate futures contract multiplier")
  end.
Definition gate_Instruments meta (ctx : context) (catalog : option (result error (list (Instrument D)))) : result error (list (Instrument D)) :=
  _ <-? gateContext ctx meta "Instruments" ;;
  match catalog with
  | None => Err (catalogMetadataResolution meta "Instruments" "instrument catalog is not configured")
  | Some (Ok l) => Ok l
  | Some (Err e) => Err (withExchangeOperation e "Instruments")
  end.

(** *** The loader *)
Local Abbreviation load := "InstrumentCatalog.Load".
Definition tradable (status word : string) : bool := is_empty status || String.eqb status word.
Definition gateIntegerOrderSizeMin (row : Contract) : Z := if (gk_OrderSizeMin row <=? 0) && gk_EnableDecimal row then 1 else gk_OrderSizeMin row.
Definition set_size_min (row : Contract) (size : Z) : Contract :=
  mkGateContract (gk_Name row) (gk_QuantoMultiplier row) (gk_MarkPrice row) (gk_FundingRate row) (gk_FundingNextApply row) (gk_OrderPriceRound row) size (gk_EnableDecimal row)
    (gk_Status row).
Definition gateCatalogTradableFuturesRows (rows : list Contract) : list Contract :=
  omap (λ row, if tradable (gk_Status row) "trading" then let row := set_size_min row (gateIntegerOrderSizeMin row) in if 0 <? gk_OrderSizeMin row then Some row else None else None) rows.
Definition gateValidateSpotInstrumentRow meta (operation : string) (row : CurrencyPair) : result error unit :=
  check negb (is_empty (TrimSpace (cp_ID row)) || is_empty (TrimSpace (cp_Base row)) || is_empty (TrimSpace (cp_Quote row)))
    else gateMalformed meta operation "gate spot instrument identity is incomplete" ;;
  check negb ((cp_Precision row <? 0) || (cp_AmountPrecision row <? 0)) else gateMalformed meta operation "gate spot instrument precision is invalid" ;;
  _ <-? gateValidatePositiveDecimal meta operation "minimum base amount" (cp_MinBaseAmount row) ;;
  if is_empty (cp_MinQuoteAmount row) then Ok tt else gateValidatePositiveDecimal meta operation "minimum quote amount" (cp_MinQuoteAmount row).
Definition gateValidateFuturesInstrumentRow meta (operation : string) (row : Contract) : result error unit :=
  check negb (is_empty (TrimSpace (gk_Name row))) else gateMalformed meta operation "gate futures instrument identity is incomplete" ;;
  check 0 <? gk_OrderSizeMin row else gateMalformed meta operation "gate futures minimum order size is invalid" ;;
  gateValidatePositiveDecimal meta operation "order price round" (gk_OrderPriceRound row).
(** [-int32(n)] *)
Definition negated32 (n : Z) : Z := let wrap z := (z + 2 ^ 31) mod 2 ^ 32 - 2 ^ 31 in wrap (- wrap n).
Definition gate_spot_row (row : CurrencyPair) : result error (list (Instrument D)) :=
  if negb (tradable (cp_TradeStatus row) "tradable") then Ok []
  else
    _ <-? gateValidateSpotInstrumentRow (mkMeta VenueGate ProductSpot) load row ;;
    Ok [newInstrument VenueGate ProductSpot (gateCanonicalSymbol (cp_Base row) (cp_Quote row) (cp_ID row)) (cp_Base row) (cp_Quote row) "" (cp_ID row) ""
          (d_new 1 (negated32 (cp_Precision row))) (d_new 1 (negated32 (cp_AmountPrecision row))) (gateDecimal (cp_MinBaseAmount row))
          (gateOptionalDecimal (cp_MinQuoteAmount row)) oneContract].
Definition gateSpotCatalogInstruments (rows : list CurrencyPair) : result error (list (Instrument D)) := l <-? map_result gate_spot_row rows ;; Ok (concat l).
Definition gate_perp_row (settle : string) (row : Contract) : result error (list (Instrument D)) :=
  let meta := mkMeta VenueGate ProductPerp in
  if negb (tradable (gk_Status row) "trading") then Ok []
  else
    _ <-? gateValidateFuturesInstrumentRow meta load row ;;
    multiplier <-? gateFuturesMultiplier meta load (gk_QuantoMultiplier row) ;;
    let '(base, quote) := gateSplitSymbol (gk_Name row) in
    Ok [newInstrument VenueGate ProductPerp (gateCanonicalSymbol base quote (gk_Name row)) base quote (ToUpper settle) (gk_Name row) "" (gateDecimal (gk_OrderPriceRound row))
          multiplier (d_mul (d_new (gk_OrderSizeMin row) 0) multiplier) no_decimal (mkOptDec multiplier true)].
Definition gatePerpCatalogInstruments (rows : list Contract) (settle : string) : result error (list (Instrument D)) := l <-? map_result (gate_perp_row settle) rows ;; Ok (concat l).
(** A loading error that is already the module's own is reported through
    [gateNormalizeErr] too; [sdk_of] makes the argument it gets. *)
Definition sdk_of (e : error) : sdk_error := mkSDK e (error_text e) [] None (λ _, None) None.
Definition gate_LoadInstruments (product : string) (scope : CatalogScope) (now : time) (ListCurrencyPairs : result sdk_error (list CurrencyPair))
    (ListFuturesContracts : string → result sdk_error (list Contract)) : result error (InstrumentSnapshot D) :=
  let meta := mkMeta VenueGate product in
  let own r := match r with Ok l => Ok l | Err e => Err (sdk_of e) end in
  instruments <-? gate_asked meta load
    (if String.eqb product ProductSpot then match ListCurrencyPairs with Err s => Err s | Ok rows => own (gateSpotCatalogInstruments rows) end
     else if String.eqb product ProductPerp then
       match ListFuturesContracts SettleUSDT with Err s => Err s | Ok rows => own (gatePerpCatalogInstruments (gateCatalogTradableFuturesRows rows) SettleUSDT) end
     else Err (sdk_of (venue_error VenueGate product load KindInvalidConfig "" "unsupported Gate product"))) ;;
  Ok (mkSnapshot 1 scope "" 0 now (filterInstrumentsForScope instruments scope) empty_indexes).

(** ** Books, candles, trades *)

Definition gateValidateSpotOrderBook meta (operation : string) (book : gate_OrderBook) : result error unit :=
  _ <-? map_result (λ row, match row with
      | price :: quantity :: _ => gate_fields meta operation [("book price", price); ("book quantity", quantity)]
      | _ => Err (gateMalformed meta operation "gate order book level is incomplete")
      end) (gt_Bids book ++ gt_Asks book) ;; Ok tt.
Definition gateValidateFuturesOrderBook meta (operation : string) (book : FuturesOrderBook) : result error unit :=
  gate_fields meta operation (map (λ item, ("book price", fb_Price item)) (fo_Bids book ++ fo_Asks book)).
Definition gateBookLevels (rows : list (list string)) : list (BookLevel D) :=
  omap (λ row, match row with price :: quantity :: _ => Some (mkLevel (gateDecimal price) (gateDecimal quantity)) | _ => None end) rows.
Definition gateFuturesBookLevels (rows : list FuturesOrderBookItem) multiplier : list (BookLevel D) :=
  omap (λ item, if fb_Size item <=? 0 then None else Some (mkLevel (gateDecimal (fb_Price item)) (d_mul (d_new (fb_Size item) 0) multiplier))) rows.
(** [OrderBook]: the page and the sequence number *)
Definition gate_spot_book meta (ctx : context) instrument (limit : Z) (GetSpotOrderBook : string → Z → bool → result sdk_error gate_OrderBook)
  : result error (OrderBookPage (D:=D) * string) :=
  _ <-? gateContext ctx meta "OrderBook" ;;
  native <-? gateRequiredNativeInstrument meta "OrderBook" instrument ;;
  book <-? gate_asked meta "OrderBook" (GetSpotOrderBook native limit true) ;;
  _ <-? gateValidateSpotOrderBook meta "OrderBook" book ;;
  Ok (mkBookPage instrument (gateBookLevels (gt_Bids book)) (gateBookLevels (gt_Asks book)) (gateUnixMilli (gt_Update book)) (limit_page limit), FormatInt (gt_ID book)).
Definition gate_perp_book meta (settle : string) (ctx : context) instrument (limit : Z) (GetFuturesOrderBook : string → string → Z → bool → result sdk_error FuturesOrderBook)
  : result error (OrderBookPage (D:=D) * string) :=
  _ <-? gateContext ctx meta "OrderBook" ;;
  native <-? gateRequiredNativeInstrument meta "OrderBook" instrument ;;
  book <-? gate_asked meta "OrderBook" (GetFuturesOrderBook settle native limit true) ;;
  _ <-? gateValidateFuturesOrderBook meta "OrderBook" book ;;
  multiplier <-? gateContractMultiplier meta "OrderBook" instrument ;;
  Ok (mkBookPage instrument (gateFuturesBookLevels (fo_Bids book) multiplier) (gateFuturesBookLevels (fo_Asks book) multiplier) (gateUnixMilliString (fo_Update book))
        (limit_page limit), FormatInt (fo_ID book)).

Definition gate_intervals : list (string * duration) :=
  [("10s", 10 * Second); ("1m", Minute); ("5m", 5 * Minute); ("15m", 15 * Minute); ("30m", 30 * Minute); ("1h", Hour); ("4h", 4 * Hour); ("8h", 8 * Hour);
   ("1d", 24 * Hour); ("7d", 7 * 24 * Hour)].
Definition gateIntervalDuration (interval : string) : result error duration :=
  match List.find (λ p, String.eqb (TrimSpace interval) p.1) gate_intervals with Some p => Ok p.2 | None => Err (EText "unsupported interval") end.
Definition gateValidateCandleRequest meta (req : CandlesRequest (D:=D)) : result error duration :=
  let fail := gate_invalid meta "Candles" in
  check negb (is_empty (TrimSpace (id_NativeSymbol (in_Identity (cq_Instrument req))))) else fail "instrument is required" ;;
  check is_empty (TrimSpace (cq_Cursor req)) else fail "cursor is not supported" ;;
  check negb (negb (IsZero (cq_Start req)) && negb (IsZero (cq_End req)) && negb (Before (cq_Start req) (cq_End req))) else fail "start must be before end" ;;
  match gateIntervalDuration (cq_Interval req) with Ok d => Ok d | Err e => Err (fail (error_text e)) end.
(** A row is its open time, volume, close, high, low and open. *)
Definition gateValidateCandles meta (operation : string) (rows : list (list string)) : result error unit :=
  _ <-? map_result (λ row, match row with
      | openTime :: volume :: close :: high :: low :: open :: _ =>
          check is_present (ParseInt (TrimSpace openTime)) else gateMalformed meta operation "invalid gate candle open time" ;;
          gate_fields meta operation [("candle volume", volume); ("candle close", close); ("candle high", high); ("candle low", low); ("candle open", open)]
      | _ => Err (gateMalformed meta operation "gate candle row is incomplete")
      end) rows ;; Ok tt.
Definition gate_candle (interval : duration) (row : list string) : option (Candle D) :=
  match row with
  | openTime :: volume :: close :: high :: low :: open :: _ =>
      let at_ := gateUnixSecondString openTime in
      Some (mkCandle at_ (Add at_ interval) (gateDecimal open) (gateDecimal high) (gateDecimal low) (gateDecimal close) (gateDecimal volume) true)
  | _ => None
  end.
Definition gateCandlePage (rows : list (list string)) (req : CandlesRequest (D:=D)) (interval : duration) : CandlePage (D:=D) :=
  mkCandlePage (omap (gate_candle interval) rows) (historyPage "" (cq_Limit req) (cq_Start req) (cq_End req)).
Definition gateFuturesCandlesticks (rows : list FuturesCandlestick) : list (list string) :=
  map (λ row, [fc_Time row; fc_Volume row; fc_Close row; fc_High row; fc_Low row; fc_Open row]) rows.
Definition gateCandleVolumeInBase (page : CandlePage (D:=D)) multiplier : CandlePage (D:=D) :=
  mkCandlePage (map (λ c, mkCandle (ca_OpenTime c) (ca_CloseTime c) (ca_Open c) (ca_High c) (ca_Low c) (ca_Close c) (d_mul (ca_Volume c) multiplier) (ca_Complete c))
    (cp_Candles page)) (cp_Page page).
Definition gate_spot_Candles meta (ctx : context) (req : CandlesRequest (D:=D)) (get : string → string → time → time → Z → result sdk_error (list (list string)))
  : result error (CandlePage (D:=D)) :=
  _ <-? gateContext ctx meta "Candles" ;;
  interval <-? gateValidateCandleRequest meta req ;;
  native <-? gateRequiredNativeInstrument meta "Candles" (cq_Instrument req) ;;
  rows <-? gate_asked meta "Candles" (get native (cq_Interval req) (cq_Start req) (cq_End req) (cq_Limit req)) ;;
  _ <-? gateValidateCandles meta "Candles" rows ;;
  Ok (gateCandlePage rows req interval).
Definition gate_perp_Candles meta (settle : string) (ctx : context) (req : CandlesRequest (D:=D))
    (get : string → string → string → time → time → Z → result sdk_error (list FuturesCandlestick)) : result error (CandlePage (D:=D)) :=
  _ <-? gateContext ctx meta "Candles" ;;
  interval <-? gateValidateCandleRequest meta req ;;
  native <-? gateRequiredNativeInstrument meta "Candles" (cq_Instrument req) ;;
  rows <-? gate_asked meta "Candles" (get settle native (cq_Interval req) (cq_Start req) (cq_End req) (cq_Limit req)) ;;
  let candlesticks := gateFuturesCandlesticks rows in
  _ <-? gateValidateCandles meta "Candles" candlesticks ;;
  multiplier <-? gateContractMultiplier meta "Candles" (cq_Instrument req) ;;
  Ok (gateCandleVolumeInBase (gateCandlePage candlesticks req interval) multiplier).
(** The query of [ListSpotCandlesticksWindow] and [ListFuturesCandlesticksWindow] *)
Definition candleQuery (interval : string) (start stop : time) (limit : Z) : gmap string string :=
  let unix t := FormatInt ((t - unix_epoch) / Second) in
  let query := {["interval" := interval]} in
  let query := if IsZero start then query else <["from" := unix start]> query in
  let query := if IsZero stop then query else <["to" := unix stop]> query in
  if (0 <? limit) && (IsZero start || IsZero stop) then <["limit" := FormatInt limit]> query else query.

Definition gateValidateSpotPublicTrades meta (operation : string) (rows : list gate_Trade) : result error unit :=
  _ <-? map_result (λ row, _ <-? gateValidateSide meta operation (tr_Side row) ;; gate_fields meta operation [("trade price", tr_Price row); ("trade amount", tr_Amount row)]) rows ;; Ok tt.
Definition gateValidateFuturesPublicTrades meta (operation : string) (rows : list FuturesTrade) : result error unit :=
  _ <-? map_result (λ row, gate_fields meta operation [("trade price", fu_Price row); ("trade size", fu_Size row); ("trade create time", fu_CreateTime row)]) rows ;; Ok tt.
Definition gate_spot_PublicTrades meta (ctx : context) instrument (limit : Z) (ListSpotTrades : string → Z → result sdk_error (list gate_Trade))
  : result error (list (PublicTrade (D:=D)) * PageInfo) :=
  let op := "PublicTrades" in
  _ <-? gateContext ctx meta op ;;
  native <-? gateRequiredNativeInstrument meta op instrument ;;
  rows <-? gate_asked meta op (ListSpotTrades native limit) ;;
  _ <-? gateValidateSpotPublicTrades meta op rows ;;
  trades <-? map_result (λ row,
    _ <-? gateEnsureNativeInstrument meta op instrument (tr_CurrencyPair row) ;;
    Ok (mkHlTrade instrument (tr_ID row) (gateSide (tr_Side row)) (gateDecimal (tr_Price row)) (gateDecimal (tr_Amount row)) (gateTimeMS (tr_CreateTimeMS row)))) rows ;;
  Ok (trades, limit_page limit).
Definition gate_perp_PublicTrades meta (settle : string) (ctx : context) instrument (limit : Z) (ListFuturesTrades : string → string → Z → result sdk_error (list FuturesTrade))
  : result error (list (PublicTrade (D:=D)) * PageInfo) :=
  let op := "PublicTrades" in
  _ <-? gateContext ctx meta op ;;
  native <-? gateRequiredNativeInstrument meta op instrument ;;
  rows <-? gate_asked meta op (ListFuturesTrades settle native limit) ;;
  _ <-? gateValidateFuturesPublicTrades meta op rows ;;
  multiplier <-? gateContractMultiplier meta op instrument ;;
  trades <-? map_result (λ row,
    _ <-? gateEnsureNativeInstrument meta op instrument (fu_Contract row) ;;
    let size := gateDecimal (fu_Size row) in
    Ok (mkHlTrade instrument (FormatInt (fu_ID row)) (if d_is_negative size then SideSell else SideBuy) (gateDecimal (fu_Price row)) (d_mul (d_abs size) multiplier)
          (gateUnixSecondDecimalString (fu_CreateTime row)))) rows ;;
  Ok (trades, limit_page limit).

(** ** Funding rates and mark prices *)

Definition gate_FundingRate meta (settle : string) (ctx : context) instrument (now : time) (GetFuturesContract : string → string → result sdk_error Contract)
  : result error (FundingRate (D:=D)) :=
  let op := "FundingRate" in
  _ <-? gateContext ctx meta op ;;
  native <-? gateRequiredNativeInstrument meta op instrument ;;
  contract <-? gate_asked meta op (GetFuturesContract settle native) ;;
  _ <-? gateValidateDecimal meta op "funding rate" (gk_FundingRate contract) ;;
  _ <-? gateValidateDecimal meta op "mark price" (gk_MarkPrice contract) ;;
  _ <-? gateEnsureNativeInstrument meta op instrument (gk_Name contract) ;;
  Ok (mkFundingRate (gk_Name contract) (id_NativeID (in_Identity instrument)) (gateDecimal (gk_FundingRate contract)) (gateOptionalDecimal (gk_MarkPrice contract)) now zero_time
        (Unix_time (truncate_int (gk_FundingNextApply contract)) 0)).
(** [MarkPrice]: the price and its time; the SDK never answers without a contract. *)
Definition gate_MarkPrice meta (settle : string) (ctx : context) instrument (now : time) (GetFuturesContract : string → string → result sdk_error Contract)
  : result error (Instrument D * D * time) :=
  let op := "MarkPrice" in
  _ <-? gateContext ctx meta op ;;
  native <-? gateRequiredNativeInstrument meta op instrument ;;
  contract <-? gate_asked meta op (GetFuturesContract settle native) ;;
  check negb (is_empty (TrimSpace (gk_Name contract))) && String.eqb (gk_Name contract) native
    else gateMalformed meta op "gate futures contract response does not match requested instrument" ;;
  _ <-? gateValidatePositiveDecimal meta op "mark price" (gk_MarkPrice contract) ;;
  Ok (instrument, gateDecimal (gk_MarkPrice contract), now).
Definition gateValidateHistoryRequest meta (operation cursor : string) (start stop : time) : result error unit :=
  check is_empty (TrimSpace cursor) else gate_invalid meta operation "cursor is not supported" ;;
  check negb (negb (IsZero start) && negb (IsZero stop) && negb (Before start stop)) else gate_invalid meta operation "start must be before end" ;; Ok tt.
Definition gate_FundingRateHistory meta (settle : string) (ctx : context) instrument (start stop : time) (cursor : string) (limit : Z)
    (get : string → string → time → time → Z → result sdk_error (list FundingRateRecord)) : result error (list (FundingRate (D:=D)) * PageInfo) :=
  let op := "FundingRateHistory" in
  _ <-? gateContext ctx meta op ;;
  native <-? gateRequiredNativeInstrument meta op instrument ;;
  _ <-? gateValidateHistoryRequest meta op cursor start stop ;;
  rows <-? gate_asked meta op (get settle native start stop limit) ;;
  rates <-? map_result (λ row,
    _ <-? gateValidateDecimal meta op "funding rate" (fn_Rate row) ;;
    Ok (mkFundingRate native (id_NativeID (in_Identity instrument)) (gateDecimal (fn_Rate row)) no_decimal zero_time (Unix_time (fn_Time row) 0) zero_time)) rows ;;
  Ok (rates, historyPage cursor limit start stop).
End gate.

(** A text of milliseconds with a fraction is read as seconds. *)
Example fractional_milliseconds : gateTimeMS (D:=fixed) "1700000000123.456" = FromMilli 1700000000123456 ∧ gateTimeMS (D:=fixed) "1700000000123" = FromMilli 1700000000123.
Proof. vm_compute. auto. Qed.
