(* ===== verification/GateRest.v ===== *)
(** * Gate: orders and accounts

    [exchange/internal/factoryclient/gate_rest.go] with the command calls of
    [sdk/gate/private_rest.go]: placing and cancelling, listings, balances, the
    account, positions, funding payments and leverage.  Futures sizes are whole
    contracts of the instrument's multiplier. *)

From Stdlib Require Import Ascii String ZArith Lia QArith Qcanon.
From stdpp Require Import base list strings gmap.
From S2P Require Import Prelude GoStrings Calendar Decimals DecimalText Errors Model HttpErrors InstrumentCatalog Sockets Credentials Clients.
From S2P Require Import HyperliquidMarkets VenueErrors Commands ExactLookup FundingLoaders DerivativeLoaders BinanceMarkets BinanceFunding Paging BybitBitget BybitBitgetRest GateMarkets.

#[local] Open Scope string_scope.
#[local] Open Scope list_scope.
#[local] Open Scope Z_scope.
#[local] Open Scope go_scope.

(** ** Venue rows *)

(** [Order] is both what is sent and what is listed; a field that is not sent is
    empty. *)
Record gate_Order := mkGateOrder {
  og_ID : string; og_Text : string; og_CreateTimeMS : string; og_UpdateTimeMS : string; og_Status : string; og_CurrencyPair : string; og_Type : string; og_Account : string;
  og_Side : string; og_Amount : string; og_Price : string; og_TimeInForce : string; og_Left : string; og_FilledAmount : string; og_AvgDealPrice : string; og_FinishAs : string;
}.
Record FuturesOrder := mkFuturesOrder {
  fd_ID : Z; fd_Contract : string; fd_Size : Z; fd_Price : string; fd_ReduceOnly : bool; fd_TIF : string; fd_Text : string; fd_Left : Z; fd_FillPrice : string;
  fd_FinishAs : string; fd_Status : string; fd_IsReduceOnly : bool; fd_CreateTimeMS : string; fd_UpdateTime : string;
}.
Record SpotUserTrade := mkUserTrade {
  ut_ID : string; ut_CurrencyPair : string; ut_OrderID : string; ut_Side : string; ut_Role : string; ut_Amount : string; ut_Price : string; ut_Fee : string;
  ut_FeeCurrency : string; ut_CreateTimeMS : string; ut_Text : string;
}.
Record MyFuturesTrade := mkMyTrade {
  mt_ID : Z; mt_CreateTime : string; mt_Contract : string; mt_OrderID : Z; mt_Size : Z; mt_Price : string; mt_Role : string; mt_Text : string; mt_Fee : string;
}.
Record gate_SpotAccount := mkGateSpot { gs_Currency : string; gs_Available : string; gs_Locked : string }.
Record UnifiedBalance := mkUnified { ub_Available : string; ub_Freeze : string; ub_Equity : string }.
Record FuturesAccount := mkFuturesAccount {
  fx_User : Z; fx_Total : string; fx_UnrealisedPNL : string; fx_PositionMargin : string; fx_Available : string; fx_Currency : string;
}.
Record gate_Position := mkGatePosition {
  gp_Contract : string; gp_Size : Z; gp_Leverage : string; gp_Margin : string; gp_EntryPrice : string; gp_LiqPrice : string; gp_MarkPrice : string; gp_UnrealisedPNL : string;
}.
Record AccountBookEntry := mkBookEntry { be_Time : string; be_Change : string; be_Type : string; be_Contract : string; be_ID : string }.

(** ** The SDK's commands *)

Section sdk.
Context (Quote : string → string).
Definition CreateSpotOrder (order : gate_Order) (post : gate_Order → result sdk_error gate_Order) : result sdk_error gate_Order :=
  let fail text := text_failure ("gate sdk: create spot order returned " +:+ text) in
  out <-? post order ;;
  check negb (is_empty (og_ID out)) else fail "a partial response without order id" ;;
  check is_empty (og_Text order) || is_empty (og_Text out) || String.eqb (og_Text out) (og_Text order)
    else fail ("mismatched client text " +:+ Quote (og_Text out) +:+ " for " +:+ Quote (og_Text order)) ;;
  check is_empty (og_CurrencyPair order) || is_empty (og_CurrencyPair out) || String.eqb (og_CurrencyPair out) (og_CurrencyPair order)
    else fail ("mismatched currency pair " +:+ Quote (og_CurrencyPair out) +:+ " for " +:+ Quote (og_CurrencyPair order)) ;;
  Ok out.
Definition CreateFuturesOrder (settle : string) (order : FuturesOrder) (post : string → FuturesOrder → result sdk_error FuturesOrder) : result sdk_error FuturesOrder :=
  let fail text := text_failure ("gate sdk: create futures order returned " +:+ text) in
  out <-? post settle order ;;
  check negb (fd_ID out =? 0) else fail "a partial response without order id" ;;
  check is_empty (fd_Text order) || is_empty (fd_Text out) || String.eqb (fd_Text out) (fd_Text order)
    else fail ("mismatched client text " +:+ Quote (fd_Text out) +:+ " for " +:+ Quote (fd_Text order)) ;;
  check is_empty (fd_Contract order) || is_empty (fd_Contract out) || String.eqb (fd_Contract out) (fd_Contract order)
    else fail ("mismatched contract " +:+ Quote (fd_Contract out) +:+ " for " +:+ Quote (fd_Contract order)) ;;
  Ok out.
Definition CancelSpotOrder (orderID currencyPair : string) (delete : string → string → result sdk_error gate_Order) : result sdk_error gate_Order :=
  out <-? delete orderID currencyPair ;;
  check negb (is_empty (og_ID out)) && String.eqb (og_ID out) orderID
    else text_failure ("gate sdk: cancel spot order returned mismatched order id " +:+ Quote (og_ID out) +:+ " for " +:+ Quote orderID) ;;
  Ok out.
Definition CancelFuturesOrder (settle : string) (orderID : Z) (delete : string → Z → result sdk_error FuturesOrder) : result sdk_error FuturesOrder :=
  out <-? delete settle orderID ;;
  check fd_ID out =? orderID
    else text_failure ("gate sdk: cancel futures order returned mismatched order id " +:+ FormatInt (fd_ID out) +:+ " for " +:+ FormatInt orderID) ;;
  Ok out.
End sdk.

Definition gatePortableClientOrderID (value : string) : string := TrimPrefix value "t-".
Definition gateOrderID (value : Z) : string := if value =? 0 then "" else FormatInt value.
Definition gateLimitPolicy (value : string) : string :=
  let v := ToLower value in if String.eqb v "ioc" then LimitPolicyIOC else if String.eqb v "poc" then LimitPolicyPostOnly else LimitPolicyResting.
Definition gate_tif (policy : string) : string :=
  if String.eqb policy LimitPolicyIOC then "ioc" else if String.eqb policy LimitPolicyPostOnly then "poc" else "gtc".
Definition gateOrderType (row : gate_Order) : string := if EqualFold (og_Type row) "market" then OrderTypeMarket else OrderTypeLimit.
Definition gateFuturesOrderType (row : FuturesOrder) : string := if one_of (fd_Price row) [""; "0"] then OrderTypeMarket else OrderTypeLimit.
Definition gateOrderStatus (status finishAs : string) : string := if is_empty finishAs then status else finishAs.
Definition gateLiquidity (value : string) : string := if EqualFold value "maker" then "maker" else "taker".
Definition abs64 (value : Z) : Z := if value <? 0 then wrap64 (- value) else value.
(** Whether a signed size sells, and its magnitude *)
Definition sized (size : Z) : string * Z := if size <? 0 then (SideSell, wrap64 (- size)) else (SideBuy, size).
Definition parseGateOrderID (meta : clientMeta) (operation value : string) : result error Z :=
  match ParseInt value with
  | Some id => check (0 <? id) && String.eqb value (FormatInt id) else gate_invalid meta operation "order id must be a canonical positive int64" ;; Ok id
  | None => Err (gate_invalid meta operation "order id must be a canonical positive int64")
  end.
Definition gateRejectCursor (meta : clientMeta) (operation cursor : string) : result error unit :=
  check is_empty (TrimSpace cursor) else gate_invalid meta operation "cursor is not supported" ;; Ok tt.
Definition gateValidateLiquidity (meta : clientMeta) (operation value : string) : result error unit :=
  check is_empty (TrimSpace value) || one_of (ToLower value) ["maker"; "taker"] else gateMalformed meta operation "invalid gate liquidity" ;; Ok tt.

Section rest.
Context `{Decimal D} `{DecimalText D} `{DecimalInt D} (Quote : string → string).
Implicit Types (meta : clientMeta) (instrument : Instrument D) (multiplier : D) (req : PlaceOrderRequest D).
Local Abbreviation reply := (OrderAcknowledgement D * option error)%type.

(** ** Rows *)

Definition gateValidateSpotOrders meta (operation : string) (rows : list gate_Order) : result error unit :=
  _ <-? map_result (λ row,
    _ <-? gateValidateSide meta operation (og_Side row) ;;
    _ <-? gate_fields (D:=D) meta operation [("order amount", og_Amount row); ("order price", og_Price row); ("order left", og_Left row);
            ("order filled amount", og_FilledAmount row); ("order average deal price", og_AvgDealPrice row)] ;;
    gateValidateStatus meta operation (og_Status row) (og_FinishAs row)) rows ;; Ok tt.
Definition gateValidateFuturesOrders meta (operation : string) (rows : list FuturesOrder) : result error unit :=
  _ <-? map_result (λ row,
    _ <-? gate_fields (D:=D) meta operation [("order price", fd_Price row); ("order fill price", fd_FillPrice row)] ;;
    gateValidateStatus meta operation (fd_Status row) (fd_FinishAs row)) rows ;; Ok tt.
Definition gateValidateSpotFills meta (operation : string) (rows : list SpotUserTrade) : result error unit :=
  _ <-? map_result (λ row,
    _ <-? gateValidateSide meta operation (ut_Side row) ;;
    _ <-? gate_fields (D:=D) meta operation [("fill amount", ut_Amount row); ("fill price", ut_Price row); ("fill fee", ut_Fee row)] ;;
    gateValidateLiquidity meta operation (ut_Role row)) rows ;; Ok tt.
Definition gateValidateFuturesFills meta (operation : string) (rows : list MyFuturesTrade) : result error unit :=
  _ <-? map_result (λ row,
    _ <-? gate_fields (D:=D) meta operation [("fill price", mt_Price row); ("fill fee", mt_Fee row)] ;; gateValidateLiquidity meta operation (mt_Role row)) rows ;; Ok tt.
Definition gateSpotOrder (row : gate_Order) instrument : Order D :=
  let quantity := gateDecimal (og_Amount row) in
  let filled := gateDecimal (og_FilledAmount row) in
  let filled := if d_is_zero filled && negb (is_empty (og_Left row)) then d_sub quantity (gateDecimal (og_Left row)) else filled in
  mkOrder (og_CurrencyPair row) (id_NativeID (in_Identity instrument)) (og_ID row) (gatePortableClientOrderID (og_Text row)) (gateSide (og_Side row)) (gateOrderType row) quantity
    (gateDecimal (og_Price row)) (gateLimitPolicy (og_TimeInForce row)) false filled (gateOptionalDecimal (og_AvgDealPrice row)) (gateOrderStatus (og_Status row) (og_FinishAs row))
    (gateTimeMS (D:=D) (og_CreateTimeMS row)) (gateTimeMS (D:=D) (og_UpdateTimeMS row)).
Definition gateFuturesOrder (row : FuturesOrder) instrument multiplier : Order D :=
  let '(side, size) := sized (fd_Size row) in
  let quantity := d_mul (d_new size 0) multiplier in
  let filled := d_sub quantity (d_mul (d_new (abs64 (fd_Left row)) 0) multiplier) in
  mkOrder (fd_Contract row) (id_NativeID (in_Identity instrument)) (gateOrderID (fd_ID row)) (gatePortableClientOrderID (fd_Text row)) side (gateFuturesOrderType row) quantity
    (gateDecimal (fd_Price row)) (gateLimitPolicy (fd_TIF row)) (fd_ReduceOnly row || fd_IsReduceOnly row) filled (gateOptionalDecimal (fd_FillPrice row))
    (gateOrderStatus (fd_Status row) (fd_FinishAs row)) (gateTimeMS (D:=D) (fd_CreateTimeMS row)) (gateTimeMS (D:=D) (fd_UpdateTime row)).

(** ** Commands *)

Definition gateAckFromOrder meta (operation orderType : string) (order : Order D) : OrderAcknowledgement D :=
  let state :=
    if String.eqb operation OrderOperationCancel then AckCanceled
    else if d_is_positive (or_Filled order) then if d_less_than (or_Filled order) (or_Quantity order) then AckPartiallyFilled else AckImmediatelyFilled
    else if String.eqb orderType OrderTypeMarket then AckAcceptedPending else AckResting in
  mkAck (cm_venue meta) (cm_product meta) operation state (or_NativeSymbol order) (or_NativeID order) orderType (or_OrderID order) (or_ClientOrderID order) ""
    (or_Filled order) (or_AverageFillPrice order) "" "".
Definition set_native_id (ack : OrderAcknowledgement D) (native : string) : OrderAcknowledgement D :=
  mkAck (ack_Venue ack) (ack_Product ack) (ack_Operation ack) (ack_State ack) (ack_NativeSymbol ack) native (ack_OrderType ack) (ack_OrderID ack) (ack_ClientOrderID ack)
    (ack_TransactionHash ack) (ack_FilledQuantity ack) (ack_AverageFillPrice ack) (ack_VenueCode ack) (ack_VenueMessage ack).
Definition gateAckValidateForInstrument meta (operation : string) instrument (ack : OrderAcknowledgement D) : reply :=
  if negb (String.eqb (ack_NativeSymbol ack) (id_NativeSymbol (in_Identity instrument)))
  then (ack, Some (catalogMetadataResolution meta operation "gate acknowledgement native instrument does not match requested instrument"))
  else
    let ack := set_native_id ack (id_NativeID (in_Identity instrument)) in
    (ack, match Ack_Validate ack with Ok _ => None | Err e => Some e end).
Definition gateSpotPlaceOrder req (native : string) : gate_Order :=
  let order type price tif := mkGateOrder "" (gateClientOrderID (po_ClientOrderID req)) "" "" "" native type "spot" (po_Side req) (d_string (po_Quantity req)) price tif "" "" "" "" in
  if String.eqb (po_Type req) OrderTypeMarket then order "market" "" "ioc" else order "limit" (d_string (po_LimitPrice req)) (gate_tif (po_LimitPolicy req)).
Definition set_amount (order : gate_Order) (amount : string) : gate_Order :=
  mkGateOrder (og_ID order) (og_Text order) (og_CreateTimeMS order) (og_UpdateTimeMS order) (og_Status order) (og_CurrencyPair order) (og_Type order) (og_Account order)
    (og_Side order) amount (og_Price order) (og_TimeInForce order) (og_Left order) (og_FilledAmount order) (og_AvgDealPrice order) (og_FinishAs order).
Definition gateFuturesPlaceOrder req (native : string) (contracts : Z) : FuturesOrder :=
  let size := if String.eqb (po_Side req) SideSell then wrap64 (- contracts) else contracts in
  let order price tif := mkFuturesOrder 0 native size price (po_ReduceOnly req) tif (gateClientOrderID (po_ClientOrderID req)) 0 "" "" "" false "" "" in
  if String.eqb (po_Type req) OrderTypeMarket then order "0" "ioc" else order (d_string (po_LimitPrice req)) (gate_tif (po_LimitPolicy req)).
(** A spot market buy is sent in the quote asset, at the best ask. *)
Definition gate_amount meta req (native : string) (order : gate_Order) (GetSpotOrderBook : string → Z → bool → result sdk_error gate_OrderBook) : result error gate_Order :=
  if String.eqb (po_Type req) OrderTypeMarket && String.eqb (po_Side req) SideBuy then
    book <-? gate_asked meta "PlaceOrder" (GetSpotOrderBook native 20 false) ;;
    match gt_Asks book with
    | (ask :: _ :: _) :: _ =>
        _ <-? gateValidateSpotOrderBook (D:=D) meta "PlaceOrder" book ;;
        Ok (set_amount order (d_string (d_mul (po_Quantity req) (gateDecimal ask))))
    | _ => Err (gateMalformed meta "PlaceOrder" "gate order book best ask is missing")
    end
  else Ok order.
Definition gate_place_symbol (ctx : context) meta (product : string) req : result error string :=
  _ <-? gateContext ctx meta "PlaceOrder" ;;
  match PlaceOrder_Validate req product with
  | Err e => Err (withExchangeOperation e "PlaceOrder")
  | Ok _ => gateRequiredNativeInstrument meta "PlaceOrder" (po_Instrument req)
  end.
(** [PlaceOrder]: what is posted, if anything, and what is returned *)
Definition gate_spot_PlaceOrder meta (ctx : context) req (GetSpotOrderBook : string → Z → bool → result sdk_error gate_OrderBook)
    (post : gate_Order → result sdk_error gate_Order) : option gate_Order * reply :=
  match (native <-? gate_place_symbol ctx meta ProductSpot req ;; gate_amount meta req native (gateSpotPlaceOrder req native) GetSpotOrderBook) with
  | Err e => (None, (no_ack, Some e))
  | Ok order =>
      (Some order,
       match CreateSpotOrder Quote order post with
       | Err s => gateCommandErr meta OrderOperationPlace (po_Instrument req) "" (po_ClientOrderID req) s
       | Ok row =>
           match gateValidateSpotOrders meta "PlaceOrder" [row] with
           | Err e => (no_ack, Some e)
           | Ok _ => gateAckValidateForInstrument meta "PlaceOrder" (po_Instrument req)
                       (gateAckFromOrder meta OrderOperationPlace (po_Type req) (gateSpotOrder row (po_Instrument req)))
           end
       end)
  end.
Definition whole_contracts meta req multiplier : result error Z :=
  let contracts := d_div (po_Quantity req) multiplier in
  check d_is_positive contracts && match d_cmp contracts (d_truncate contracts) with Eq => true | _ => false end
    else gate_invalid meta "PlaceOrder" "gate futures quantity must align with the contract multiplier" ;;
  Ok (d_int_part contracts).
Definition gate_perp_PlaceOrder meta (settle : string) (ctx : context) req (post : string → FuturesOrder → result sdk_error FuturesOrder) : option FuturesOrder * reply :=
  match
    (native <-? gate_place_symbol ctx meta ProductPerp req ;;
     multiplier <-? gateContractMultiplier meta "PlaceOrder" (po_Instrument req) ;;
     contracts <-? whole_contracts meta req multiplier ;;
     Ok (multiplier, gateFuturesPlaceOrder req native contracts))
  with
  | Err e => (None, (no_ack, Some e))
  | Ok (multiplier, order) =>
      (Some order,
       match CreateFuturesOrder Quote settle order post with
       | Err s => gateCommandErr meta OrderOperationPlace (po_Instrument req) "" (po_ClientOrderID req) s
       | Ok row =>
           match gateValidateFuturesOrders meta "PlaceOrder" [row] with
           | Err e => (no_ack, Some e)
           | Ok _ => gateAckValidateForInstrument meta "PlaceOrder" (po_Instrument req)
                       (gateAckFromOrder meta OrderOperationPlace (po_Type req) (gateFuturesOrder row (po_Instrument req) multiplier))
           end
       end)
  end.
Definition validateGateCancel meta instrument (orderID : string) : result error unit :=
  _ <-? gateRequiredNativeInstrument meta "CancelOrder" instrument ;;
  _ <-? parseGateOrderID meta "CancelOrder" orderID ;; Ok tt.
(** [CancelOrder]: whether a cancellation was sent, and what is returned *)
Definition gate_spot_CancelOrder meta (ctx : context) instrument (orderID : string) (delete : string → string → result sdk_error gate_Order) : bool * reply :=
  match (_ <-? gateContext ctx meta "CancelOrder" ;; validateGateCancel meta instrument orderID) with
  | Err e => (false, (no_ack, Some e))
  | Ok _ =>
      (true,
       match CancelSpotOrder Quote orderID (id_NativeSymbol (in_Identity instrument)) delete with
       | Err s => gateCommandErr meta OrderOperationCancel instrument orderID "" s
       | Ok row =>
           match gateValidateSpotOrders meta "CancelOrder" [row] with
           | Err e => (no_ack, Some e)
           | Ok _ => gateAckValidateForInstrument meta "CancelOrder" instrument (gateAckFromOrder meta OrderOperationCancel (gateOrderType row) (gateSpotOrder row instrument))
           end
       end)
  end.
Definition gate_perp_CancelOrder meta (settle : string) (ctx : context) instrument (orderID : string) (delete : string → Z → result sdk_error FuturesOrder) : bool * reply :=
  match
    (_ <-? gateContext ctx meta "CancelOrder" ;;
     _ <-? validateGateCancel meta instrument orderID ;;
     id <-? parseGateOrderID meta "CancelOrder" orderID ;;
     multiplier <-? gateContractMultiplier meta "CancelOrder" instrument ;; Ok (id, multiplier))
  with
  | Err e => (false, (no_ack, Some e))
  | Ok (id, multiplier) =>
      (true,
       match CancelFuturesOrder settle id delete with
       | Err s => gateCommandErr meta OrderOperationCancel instrument orderID "" s
       | Ok row =>
           match gateValidateFuturesOrders meta "CancelOrder" [row] with
           | Err e => (no_ack, Some e)
           | Ok _ => gateAckValidateForInstrument meta "CancelOrder" instrument
                       (gateAckFromOrder meta OrderOperationCancel (gateFuturesOrderType row) (gateFuturesOrder row instrument multiplier))
           end
       end)
  end.

(** ** Listings *)

Section with_catalog.
Context (catalog : option (string → result error (Instrument D))).
Definition filtered_out (filter : option (Instrument D)) (native : string) : bool :=
  match filter with Some i => negb (String.eqb native (id_NativeSymbol (in_Identity i))) | None => false end.
Definition gateSpotOrders meta (operation : string) (rows : list gate_Order) (filter : option (Instrument D)) : result error (list (Order D)) :=
  map_result (λ row, i <-? gateCatalogInstrumentByNative catalog meta operation (og_CurrencyPair row) ;; Ok (gateSpotOrder row i))
    (List.filter (λ row, negb (filtered_out filter (og_CurrencyPair row))) rows).
(** The instrument of a row and its multiplier *)
Definition contract_of meta (operation native : string) : result error (Instrument D * D) :=
  i <-? gateCatalogInstrumentByNative catalog meta operation native ;;
  multiplier <-? gateContractMultiplier meta operation i ;; Ok (i, multiplier).
Definition gateFuturesOrders meta (operation : string) (rows : list FuturesOrder) : result error (list (Order D)) :=
  map_result (λ row, c <-? contract_of meta operation (fd_Contract row) ;; Ok (gateFuturesOrder row c.1 c.2)) rows.
Definition gate_spot_fill (row : SpotUserTrade) instrument : Fill D :=
  mkFill (ut_CurrencyPair row) (id_NativeID (in_Identity instrument)) (ut_OrderID row) (gatePortableClientOrderID (ut_Text row)) (ut_ID row) (gateSide (ut_Side row))
    (gateDecimal (ut_Price row)) (gateDecimal (ut_Amount row)) (gateDecimal (ut_Fee row)) (ut_FeeCurrency row) (gateLiquidity (ut_Role row)) (gateTimeMS (D:=D) (ut_CreateTimeMS row)).
Definition gateSpotFills meta (operation : string) (rows : list SpotUserTrade) (filter : option (Instrument D)) : result error (list (Fill D)) :=
  map_result (λ row, i <-? gateCatalogInstrumentByNative catalog meta operation (ut_CurrencyPair row) ;; Ok (gate_spot_fill row i))
    (List.filter (λ row, negb (filtered_out filter (ut_CurrencyPair row))) rows).
Definition gate_futures_fill (row : MyFuturesTrade) instrument multiplier : Fill D :=
  let '(side, size) := sized (mt_Size row) in
  mkFill (mt_Contract row) (id_NativeID (in_Identity instrument)) (gateOrderID (mt_OrderID row)) (gatePortableClientOrderID (mt_Text row)) (gateOrderID (mt_ID row)) side
    (gateDecimal (mt_Price row)) (d_mul (d_new size 0) multiplier) (gateDecimal (mt_Fee row)) (ToUpper SettleUSDT) (gateLiquidity (mt_Role row))
    (gateUnixSecondDecimalString (D:=D) (mt_CreateTime row)).
Definition gateFuturesFills meta (operation : string) (rows : list MyFuturesTrade) : result error (list (Fill D)) :=
  map_result (λ row, c <-? contract_of meta operation (mt_Contract row) ;; Ok (gate_futures_fill row c.1 c.2)) rows.
Definition gate_spot_OpenOrders meta (ctx : context) (instrument : option (Instrument D)) (cursor : string) (limit : Z) (list : string → result sdk_error (list gate_Order))
  : result error (OrderPage D) :=
  let op := "OpenOrders" in
  _ <-? gateContext ctx meta op ;;
  _ <-? gateRejectCursor meta op cursor ;;
  native <-? gateOptionalNativeInstrument meta op instrument ;;
  rows <-? gate_asked meta op (list native.1) ;;
  _ <-? gateValidateSpotOrders meta op rows ;;
  orders <-? gateSpotOrders meta op rows instrument ;;
  Ok (boundedOrderPage orders limit cursor).
Definition gate_perp_OpenOrders meta (settle : string) (ctx : context) (instrument : option (Instrument D)) (cursor : string) (limit : Z)
    (list : string → string → result sdk_error (list FuturesOrder)) : result error (OrderPage D) :=
  let op := "OpenOrders" in
  _ <-? gateContext ctx meta op ;;
  _ <-? gateRejectCursor meta op cursor ;;
  native <-? gateOptionalNativeInstrument meta op instrument ;;
  rows <-? gate_asked meta op (list settle native.1) ;;
  _ <-? gateValidateFuturesOrders meta op rows ;;
  orders <-? gateFuturesOrders meta op rows ;;
  Ok (boundedOrderPage orders limit cursor).
Definition gate_spot_OrderHistory meta (ctx : context) (instrument : option (Instrument D)) (cursor : string) (start stop : time) (limit : Z)
    (list : string → time → time → Z → result sdk_error (list gate_Order)) : result error (OrderPage D) :=
  let op := "OrderHistory" in
  _ <-? gateContext ctx meta op ;;
  native <-? gateOptionalNativeInstrument meta op instrument ;;
  _ <-? gateValidateHistoryRequest meta op cursor start stop ;;
  rows <-? gate_asked meta op (list native.1 start stop limit) ;;
  _ <-? gateValidateSpotOrders meta op rows ;;
  orders <-? gateSpotOrders meta op rows instrument ;;
  Ok (boundedOrderPage orders limit cursor).
Definition gate_perp_OrderHistory meta (settle : string) (ctx : context) (instrument : option (Instrument D)) (cursor : string) (start stop : time) (limit : Z)
    (list : string → string → time → time → Z → result sdk_error (list FuturesOrder)) : result error (OrderPage D) :=
  let op := "OrderHistory" in
  _ <-? gateContext ctx meta op ;;
  native <-? gateOptionalNativeInstrument meta op instrument ;;
  _ <-? gateValidateHistoryRequest meta op cursor start stop ;;
  rows <-? gate_asked meta op (list settle native.1 start stop limit) ;;
  _ <-? gateValidateFuturesOrders meta op rows ;;
  orders <-? gateFuturesOrders meta op rows ;;
  Ok (boundedOrderPage orders limit cursor).
Definition gateValidateFillsRequest meta (request : FillsRequest (D:=D)) : result error unit :=
  _ <-? gateRejectCursor meta "Fills" (fq_Cursor request) ;;
  check IsZero (fq_Start request) && IsZero (fq_End request) else gate_invalid meta "Fills" "time windows are not supported" ;; Ok tt.
Definition gate_spot_Fills meta (ctx : context) (request : FillsRequest (D:=D)) (list : string → string → Z → result sdk_error (list SpotUserTrade)) : result error (FillPage (D:=D)) :=
  let op := "Fills" in
  _ <-? gateContext ctx meta op ;;
  _ <-? gateValidateFillsRequest meta request ;;
  native <-? gateOptionalNativeInstrument meta op (fq_Instrument request) ;;
  rows <-? gate_asked meta op (list native.1 (fq_OrderID request) (fq_Limit request)) ;;
  _ <-? gateValidateSpotFills meta op rows ;;
  fills <-? gateSpotFills meta op rows (fq_Instrument request) ;;
  Ok (fills, historyPage (fq_Cursor request) (fq_Limit request) (fq_Start request) (fq_End request)).
Definition gate_perp_Fills meta (settle : string) (ctx : context) (request : FillsRequest (D:=D)) (list : string → string → string → Z → result sdk_error (list MyFuturesTrade))
  : result error (FillPage (D:=D)) :=
  let op := "Fills" in
  _ <-? gateContext ctx meta op ;;
  _ <-? gateValidateFillsRequest meta request ;;
  native <-? gateOptionalNativeInstrument meta op (fq_Instrument request) ;;
  rows <-? gate_asked meta op (list settle native.1 (fq_OrderID request) (fq_Limit request)) ;;
  _ <-? gateValidateFuturesFills meta op rows ;;
  fills <-? gateFuturesFills meta op rows ;;
  Ok (fills, historyPage (fq_Cursor request) (fq_Limit request) (fq_Start request) (fq_End request)).

(** ** The account *)

Definition gateValidatePositions meta (operation : string) (rows : list gate_Position) : result error unit :=
  _ <-? map_result (λ row, gate_fields (D:=D) meta operation [("leverage", gp_Leverage row); ("margin", gp_Margin row); ("entry price", gp_EntryPrice row);
    ("liq price", gp_LiqPrice row); ("mark price", gp_MarkPrice row); ("unrealised pnl", gp_UnrealisedPNL row)]) rows ;; Ok tt.
Definition gate_position (row : gate_Position) instrument multiplier : Position D :=
  let '(side, size) := sized (gp_Size row) in
  mkPosition (gp_Contract row) (id_NativeID (in_Identity instrument)) "" side (d_mul (d_new size 0) multiplier) (gateDecimal (gp_EntryPrice row)) (gateDecimal (gp_MarkPrice row))
    (gateDecimal (gp_UnrealisedPNL row)) (gateOptionalDecimal (gp_LiqPrice row)) (gateOptionalDecimal (gp_Leverage row)) (gateOptionalDecimal (gp_Margin row)).
Definition gate_Positions meta (settle : string) (ctx : context) (instrument : option (Instrument D)) (ListPositions : string → bool → result sdk_error (list gate_Position))
  : result error (list (Position D)) :=
  let op := "Positions" in
  _ <-? gateContext ctx meta op ;;
  rows <-? gate_asked meta op (ListPositions settle true) ;;
  _ <-? gateValidatePositions meta op rows ;;
  native <-? gateOptionalNativeInstrument meta op instrument ;;
  map_result (λ row, c <-? contract_of meta op (gp_Contract row) ;; Ok (gate_position row c.1 c.2))
    (List.filter (λ row, negb (native.2 && negb (String.eqb (gp_Contract row) native.1)) && negb (gp_Size row =? 0)) rows).
End with_catalog.

Definition gateValidateSpotAccounts meta (operation : string) (rows : list gate_SpotAccount) : result error unit :=
  _ <-? map_result (λ row, gate_fields (D:=D) meta operation [("available balance", gs_Available row); ("locked balance", gs_Locked row)]) rows ;; Ok tt.
Definition gateSpotBalances (rows : list gate_SpotAccount) : list (Balance D) :=
  map (λ row, let available := gateDecimal (gs_Available row) in let locked := gateDecimal (gs_Locked row) in
    mkBalance (gs_Currency row) available locked (d_add available locked)) rows.
(** The loop is over a map: which of several errors is returned is not determined. *)
Definition gateValidateUnifiedBalances meta (operation : string) (rows : gmap string UnifiedBalance) : result error unit :=
  _ <-? map_result (λ '(asset, row),
    check negb (is_empty (TrimSpace asset)) else gateMalformed meta operation "unified balance asset is missing" ;;
    gate_fields (D:=D) meta operation [("available balance", ub_Available row); ("locked balance", ub_Freeze row); ("equity balance", ub_Equity row)]) (map_to_list rows) ;; Ok tt.
Definition gateUnifiedBalances (rows : gmap string UnifiedBalance) : list (Balance D) :=
  map (λ '(asset, row),
    let available := gateDecimal (ub_Available row) in
    let locked := gateDecimal (ub_Freeze row) in
    mkBalance asset available locked (if is_empty (TrimSpace (ub_Equity row)) then d_add available locked else gateDecimal (ub_Equity row)))
  (sort_slice (λ a b, String.ltb a.1 b.1) (map_to_list rows)).
Definition gate_spot_Balances meta (ctx : context) (GetUnifiedMode : result sdk_error string) (GetUnifiedAccount : string → result sdk_error (gmap string UnifiedBalance))
    (ListSpotAccounts : string → result sdk_error (list gate_SpotAccount)) : result error (list (Balance D)) :=
  let op := "Balances" in
  _ <-? gateContext ctx meta op ;;
  mode <-? gate_asked meta op GetUnifiedMode ;;
  let mode := ToLower (TrimSpace mode) in
  if one_of mode ["multi_currency"; "portfolio"; "single_currency"] then
    account <-? gate_asked meta op (GetUnifiedAccount "") ;;
    _ <-? gateValidateUnifiedBalances meta op account ;; Ok (gateUnifiedBalances account)
  else if String.eqb mode "classic" then
    rows <-? gate_asked meta op (ListSpotAccounts "") ;;
    _ <-? gateValidateSpotAccounts meta op rows ;; Ok (gateSpotBalances rows)
  else Err (gateMalformed meta op "unknown gate account mode").
Definition gateValidateFuturesAccount meta (operation : string) (row : FuturesAccount) : result error unit :=
  gate_fields (D:=D) meta operation [("total balance", fx_Total row); ("available balance", fx_Available row); ("position margin", fx_PositionMargin row);
    ("unrealised pnl", fx_UnrealisedPNL row)].
Definition gate_PerpAccount meta (settle : string) (ctx : context) (GetFuturesAccount : string → result sdk_error FuturesAccount) : result error (PerpAccount (D:=D)) :=
  let op := "PerpAccount" in
  _ <-? gateContext ctx meta op ;;
  row <-? gate_asked meta op (GetFuturesAccount settle) ;;
  _ <-? gateValidateFuturesAccount meta op row ;;
  let total := gateDecimal (fx_Total row) in
  let available := gateDecimal (fx_Available row) in
  Ok (mkPerpAccount [mkBalance (fx_Currency row) available (d_sub total available) total] (mkOptDec total (negb (is_empty (fx_Total row))))
        (mkOptDec available (negb (is_empty (fx_Available row)))) (gateOptionalDecimal (fx_PositionMargin row)) (gateOptionalDecimal (fx_UnrealisedPNL row))).
Definition gate_perp_Balances meta (settle : string) (ctx : context) (GetFuturesAccount : string → result sdk_error FuturesAccount) : result error (list (Balance D)) :=
  account <-? gate_PerpAccount meta settle ctx GetFuturesAccount ;; Ok (pa_Balances account).
Definition gateFuturesUserID meta (settle : string) (GetFuturesAccount : string → result sdk_error FuturesAccount) : result error string :=
  account <-? gate_asked meta "Watch" (GetFuturesAccount settle) ;;
  check 0 <? fx_User account else gateMalformed meta "Watch" "gate futures account user id is missing" ;;
  Ok (FormatInt (fx_User account)).
(** [SetLeverage]: the venue's answer is the leverage as a text; [type_name] is the
    type of the error [strconv.Atoi] returns. *)
Definition gate_SetLeverage meta (settle : string) (ctx : context) instrument (leverage : Z) (type_name : string)
    (SetFuturesLeverage : string → string → Z → result sdk_error string) : result error (string * string * Z) :=
  let op := "SetLeverage" in
  _ <-? gateContext ctx meta op ;;
  native <-? gateRequiredNativeInstrument meta op instrument ;;
  check 0 <? leverage else gate_invalid meta op "instrument and positive leverage are required" ;;
  match SetFuturesLeverage settle native leverage with
  | Err s => Err (gateWriteErr meta op s)
  | Ok text =>
      match ParseInt text with
      | None => Err (gateMalformed meta op ("gate response conversion failed: " +:+ type_name))
      | Some effective =>
          check effective =? leverage else gateMalformed meta op "gate leverage response did not match request" ;;
          Ok (native, id_NativeID (in_Identity instrument), effective)
      end
  end.

(** ** Funding payments *)

Context `{JsonText} (hmac : string → string → string) (sha256 : string → string).
Definition gateFundingPaymentCursorKey (settle restBaseURL apiKey secretKey : string) : string :=
  fundingPaymentCursorKey sha256
    ["venue=" +:+ VenueGate; "product=" +:+ ProductPerp; "settle=" +:+ settle; "base_url=" +:+ restBaseURL; "api_key=" +:+ apiKey; "secret_key=" +:+ secretKey].
Definition gateFundingPayment (instrument : option (Instrument D)) (row : AccountBookEntry) (now : time) : result error (FundingPayment D) :=
  check negb (is_empty (TrimSpace (be_ID row))) else EText "gate funding payment id is missing" ;;
  check negb (is_empty (TrimSpace (be_Contract row))) else EText "gate funding payment contract is missing" ;;
  match d_new_from_string (be_Change row) with
  | None => Err (EText "invalid gate funding payment amount")
  | Some amount =>
      let effectiveAt := gateUnixSecondDecimalString (D:=D) (be_Time row) in
      check negb (IsZero effectiveAt) else EText "invalid gate funding payment timestamp" ;;
      let nativeID := match instrument with
                      | Some i => if is_empty (id_NativeID (in_Identity i)) then be_Contract row else id_NativeID (in_Identity i)
                      | None => be_Contract row
                      end in
      let sourceRef := "gate:futures:account_book:fund:" +:+ be_ID row in
      Ok (mkPayment (be_ID row) (stableFundingPaymentFactID sha256 [sourceRef; be_Contract row; be_Change row; be_Time row]) (be_Contract row) nativeID "USDT" amount effectiveAt
            now 1 "gate-futures-account-book-v1" sourceRef "actual-funding-payment-v1")
  end.
Definition gate_payment_limit (limit : Z) : Z := if limit <=? 0 then 100 else limit.
(** The loop; [clock] numbers the readings. *)
Definition book_row meta (request : FundingPaymentRequest D) (native : string * bool) (now : time) (row : AccountBookEntry) : result error (list (FundingPayment D)) :=
  let op := "FundingPayments" in
  check String.eqb (be_Type row) "fund" else gateMalformed meta op "response account book type does not match request" ;;
  check negb (native.2 && negb (String.eqb (be_Contract row) native.1)) else gateMalformed meta op "response instrument does not match request" ;;
  payment <-? match gateFundingPayment (yr_Instrument request) row now with Ok p => Ok p | Err e => Err (gateMalformed meta op (error_text e)) end ;;
  check is_empty (yr_SettlementAsset request) || String.eqb (py_SettlementAsset payment) (yr_SettlementAsset request)
    else gateMalformed meta op "response settlement asset does not match request" ;;
  Ok (if withinHalfOpen (py_EffectiveAt payment) (yr_Start request) (yr_End request) then [payment] else []).
Definition gate_payments_page (cursorKey : string) (scope envelope : fundingPaymentCursorEnvelope) (request : FundingPaymentRequest D) (limit : Z) (rows : nat)
    (items : list (FundingPayment D)) (observedAt : time) : FundingPaymentPage D :=
  let hasMore := limit <=? Z.of_nat rows in
  let next := mkEnvelope (ce_Version scope) (ce_ScopeDigest scope) (ce_VenueCursor scope) (ce_Page scope) (ce_ItemsSeen envelope + Z.of_nat rows) (ce_SliceStartMillis scope)
    (ce_TraversalStarted scope) in
  let cursor := if hasMore then encodeFundingPaymentCursor hmac cursorKey next else "" in
  let status := fundingPaymentCompletionStatus (ce_ItemsSeen envelope + Z.of_nat (length items)) hasMore (yr_Start request) (yr_End request) false observedAt in
  mkPaymentPage items (mkPage cursor limit (yr_Start request) (yr_End request) true hasMore) status (fundingPaymentWatermark cursor (yr_End request) status observedAt)
    (fundingPaymentCompleteThrough (yr_End request) status) 1.
Definition gate_FundingPayments meta (settle : string) (ctx : context) (cursorKey : string) (request : FundingPaymentRequest D) (clock : nat → time)
    (ListFuturesAccountBook : string → string → string → time → time → Z → Z → result sdk_error (list AccountBookEntry)) : result error (FundingPaymentPage D) :=
  let op := "FundingPayments" in
  _ <-? gateContext ctx meta op ;;
  check String.eqb (ToLower (TrimSpace settle)) SettleUSDT else gate_invalid meta op "gate funding payments support only USDT settlement" ;;
  check is_empty (yr_SettlementAsset request) || String.eqb (yr_SettlementAsset request) "USDT" else gate_invalid meta op "gate funding payments support only USDT settlement" ;;
  native <-? gateOptionalNativeInstrument meta op (yr_Instrument request) ;;
  _ <-? match validateBoundedHistory (yr_Limit request) (yr_Start request) (yr_End request) with Ok _ => Ok tt | Err e => Err (gate_invalid meta op (error_text e)) end ;;
  let limit := gate_payment_limit (yr_Limit request) in
  check limit <=? 1000 else gate_invalid meta op "limit must be between 1 and 1000" ;;
  let scope := fundingPaymentCursorScope sha256 (yr_Instrument request) "USDT" (yr_Start request) (yr_End request) limit in
  envelope <-? match decodeFundingPaymentCursor hmac (yr_Cursor request) cursorKey scope with Ok e => Ok e | Err e => Err (gate_invalid meta op (error_text e)) end ;;
  rows <-? gate_asked meta op (ListFuturesAccountBook settle native.1 "fund" (yr_Start request) (yr_End request) limit (ce_ItemsSeen envelope)) ;;
  items <-? map_result (λ '(i, row), book_row meta request native (clock i) row) (numbered rows) ;;
  Ok (gate_payments_page cursorKey scope envelope request limit (length rows) (concat items) (clock (length rows))).
End rest.

(** ** What is placed is what was asked for *)

Section faithful.
Context `{DecimalTextLaws D} `{!DecimalQuotientLaws D} `{!DecimalInt D} `{!DecimalIntLaws D} (Quote : string → string).
Implicit Types (i : Instrument D) (req : PlaceOrderRequest D).

Lemma gate_decimal_printed (d : D) : ∃ d', gateDecimal (d_string d) = d' ∧ d_value d' = d_value d ∧ gateParseDecimal (d_string d) = Some d'.
Proof.
  destruct (d_parse_print d) as (d' & Hp & Hv). exists d'. unfold gateDecimal, gateParseDecimal. cbv zeta. rewrite d_string_solid, Hp.
  destruct (d_string_canonical d) as (k & p & _ & _ & E). destruct (render_graphic k p) as [Hg _]. rewrite E, TrimSpace_graphic, <- E by done. by rewrite Hp.
Qed.
Lemma client_id_back id : portable_id id → gatePortableClientOrderID (gateClientOrderID id) = id ∧ is_empty (gateClientOrderID id) = false.
Proof.
  intros Hid. assert (Hg : string_forallb graphic id = true) by (destruct Hid as (n & -> & _); eapply string_forallb_impl; [exact digit_graphic|apply FormatUint_digits]).
  unfold gatePortableClientOrderID, gateClientOrderID. rewrite TrimSpace_graphic, (portable_id_solid _ Hid) by done. split; [apply (prefix_drop "t-" id)|done].
Qed.
Lemma gate_policy_back policy : In policy [LimitPolicyResting; LimitPolicyIOC; LimitPolicyPostOnly] → gateLimitPolicy (gate_tif policy) = policy.
Proof. intros [<-|[<-|[<-|[]]]]; by vm_compute. Qed.
Lemma limit_not_market req product : order_spec req product → po_Type req = OrderTypeLimit → String.eqb (po_Type req) OrderTypeMarket = false ∧ one_of (d_string (po_LimitPrice req)) [""; "0"] = false.
Proof.
  intros Hs Ht. split; [by rewrite Ht|]. destruct (os_type Hs) as [(E & _)|(_ & Hp & _)]; [by rewrite Ht in E|]. unfold one_of. cbn [existsb]. rewrite orb_false_r. apply orb_false_iff. split; apply String.eqb_neq.
  - intros E. pose proof (d_string_solid (po_LimitPrice req)) as Hn. by rewrite E in Hn.
  - rewrite <- d_string_zero. intros E%d_string_inj. rewrite E, d_value_zero in Hp. by apply Qcle_not_lt in Hp; [|apply Qcle_refl].
Qed.

(** *** Loaded instruments *)

Lemma gate_loaded product scope now pairs contracts snap i : gate_LoadInstruments product scope now pairs contracts = Ok snap → i ∈ sn_Instruments snap →
  id_Venue (in_Identity i) = VenueGate ∧ id_Product (in_Identity i) = product ∧
  (product = ProductPerp → en_ContractMultiplier (in_Encoding i) = mkOptDec (ru_QuantityIncrement (in_Rules i)) true ∧ (0 < d_value (ru_QuantityIncrement (in_Rules i)))%Qc).
Proof.
  unfold gate_LoadInstruments. cbv zeta. intros (l & Hl & [= <-])%bind_Ok. cbn [sn_Instruments]. intros [Hi _]%scope_kept.
  destruct (String.eqb_spec product ProductSpot) as [->|Hsp].
  - destruct pairs as [rows|]; [|done]. destruct (gateSpotCatalogInstruments rows) as [l'|] eqn:E; [|done]. injection Hl as ->. apply bind_Ok in E as (l' & Hm & [= <-]).
    destruct (rows_concat _ _ _ _ Hm Hi) as (row & y & _ & Hy & Hin). unfold gate_spot_row in Hy. destruct (negb _); [injection Hy as <-; by apply elem_of_nil in Hin|].
    apply bind_Ok in Hy as ([] & _ & [= <-]). apply list_elem_of_singleton in Hin as ->. split; [done|]. split; [done|]. done.
  - destruct (String.eqb_spec product ProductPerp) as [->|]; [|done]. destruct (contracts SettleUSDT) as [rows|]; [|done].
    destruct (gatePerpCatalogInstruments _ _) as [l'|] eqn:E; [|done]. injection Hl as ->. apply bind_Ok in E as (l' & Hm & [= <-]).
    destruct (rows_concat _ _ _ _ Hm Hi) as (row & y & _ & Hy & Hin). unfold gate_perp_row in Hy. cbv zeta in Hy. destruct (negb _); [injection Hy as <-; by apply elem_of_nil in Hin|].
    apply bind_Ok in Hy as ([] & _ & (m & Hmul & Hy)%bind_Ok). destruct (gateSplitSymbol _) as [base quote]. injection Hy as <-. apply list_elem_of_singleton in Hin as ->.
    split; [done|]. split; [done|]. intros _. split; [done|]. cbn [newInstrument in_Rules ru_QuantityIncrement]. unfold gateFuturesMultiplier in Hmul.
    destruct (d_new_from_string _) as [m'|]; [|done]. destruct (d_is_positive m') eqn:Ep; [|done]. injection Hmul as <-. by apply d_is_positive_spec.
Qed.
Lemma gate_symbol product op i : Instrument_Validate i = Ok tt → id_Venue (in_Identity i) = VenueGate → id_Product (in_Identity i) = product →
  gateRequiredNativeInstrument (mkMeta VenueGate product) op i = Ok (id_NativeSymbol (in_Identity i)).
Proof. intros Hv Hve Hp. unfold gateRequiredNativeInstrument. rewrite Hv. cbn [cm_venue cm_product]. by rewrite Hve, Hp, !String.eqb_refl. Qed.

(** *** Rows of an order as it was sent, unfilled *)

Definition spot_echo (order : gate_Order) (id status finish : string) : gate_Order :=
  mkGateOrder id (og_Text order) "1700000000123" "1700000000123" status (og_CurrencyPair order) (og_Type order) (og_Account order) (og_Side order) (og_Amount order) (og_Price order)
    (og_TimeInForce order) (og_Amount order) "0" "0" finish.
Definition futures_echo (order : FuturesOrder) (id : Z) (status finish : string) : FuturesOrder :=
  mkFuturesOrder id (fd_Contract order) (fd_Size order) (fd_Price order) (fd_ReduceOnly order) (fd_TIF order) (fd_Text order) (fd_Size order) "0" finish status false "" "".
Lemma spot_listed req native i id status finish : order_spec req ProductSpot → po_Type req = OrderTypeLimit → native = id_NativeSymbol (in_Identity (po_Instrument req)) →
  let o := gateSpotOrder (spot_echo (gateSpotPlaceOrder req native) id status finish) i in same_order req o ∧ or_OrderID o = id.
Proof.
  intros Hs Ht ->. destruct (limit_not_market _ _ Hs Ht) as [Hm _]. unfold gateSpotPlaceOrder. rewrite Hm. cbv zeta. split; [|done].
  destruct (gate_decimal_printed (po_Quantity req)) as (q & Hq & Hqv & _), (gate_decimal_printed (po_LimitPrice req)) as (p & Hp & Hpv & _).
  destruct (os_type Hs) as [(E & _)|(_ & _ & _ & Hpol)]; [by rewrite Ht in E|].
  assert (Hz : d_is_zero (gateDecimal (D:=D) "0") = true).
  { apply d_is_zero_spec. destruct d_parse_zero as (z & Hz & Hzv). unfold gateDecimal. change (is_empty (TrimSpace "0")) with false. cbv iota. by rewrite Hz. }
  assert (Hl : is_empty (d_string (po_Quantity req)) = false).
  { pose proof (d_string_solid (po_Quantity req)) as Hd. destruct (d_string (po_Quantity req)); [discriminate Hd|done]. }
  split; cbn [gateSpotOrder spot_echo or_NativeSymbol or_ClientOrderID or_Side or_Type or_LimitPolicy or_ReduceOnly or_Quantity or_LimitPrice or_Filled og_CurrencyPair og_Text og_Side og_Type og_TimeInForce og_Amount
    og_Price og_FilledAmount og_Left].
  - done.
  - by apply client_id_back, (os_client_id Hs).
  - destruct (os_side Hs) as [<-|[<-|[]]]; by vm_compute.
  - by rewrite Ht.
  - by apply gate_policy_back.
  - destruct (po_ReduceOnly req) eqn:Er; [|done]. by destruct (os_reduce_only Hs Er).
  - by rewrite Hq.
  - by rewrite Hp.
  - rewrite Hz, Hl. cbn [negb andb]. rewrite d_value_sub. ring.
Qed.
(** The contracts of a quantity that the increment divides *)
Lemma contracts_whole meta req k : (0 < d_value (ru_QuantityIncrement (in_Rules (po_Instrument req))))%Qc → (0 < d_value (po_Quantity req))%Qc →
  d_value (po_Quantity req) = (Q2Qc (inject_Z k) * d_value (ru_QuantityIncrement (in_Rules (po_Instrument req))))%Qc → k ≤ int64_max →
  0 < k ∧ whole_contracts meta req (ru_QuantityIncrement (in_Rules (po_Instrument req))) = Ok k.
Proof.
  intros Hm Hq Hk Hmax. set (m := ru_QuantityIncrement _) in *. assert (Hpos : 0 < k).
  { destruct (Z.lt_ge_cases 0 k) as [|Hneg]; [done|]. exfalso. rewrite Hk in Hq. apply (Qclt_not_le _ _ Hq). replace 0%Qc with (0 * d_value m)%Qc by ring.
    apply Qcmult_le_compat_r; [|by apply Qclt_le_weak]. rewrite <- scaled_0. by apply scaled_nonpos. }
  split; [done|]. assert (Hd : d_value (d_div (po_Quantity req) m) = scaled k 0) by (apply d_div_exact; [lia|by apply not_eq_sym, Qclt_not_eq|by rewrite scaled_0]).
  unfold whole_contracts. cbv zeta. rewrite (proj2 (d_is_positive_spec _)) by (rewrite Hd; by apply scaled_positive).
  rewrite d_cmp_value, (proj2 (d_truncate_fixed _)) by (exists k; by rewrite Hd, scaled_0). rewrite (proj1 (Qceq_alt _ _) eq_refl). cbn [andb].
  rewrite (d_int_part_whole _ k); [done|by rewrite Hd, scaled_0|unfold int64_min, int64_max in *; lia].
Qed.
Lemma futures_listed req native i k id status finish : order_spec req ProductPerp → po_Type req = OrderTypeLimit → native = id_NativeSymbol (in_Identity (po_Instrument req)) →
  let m := ru_QuantityIncrement (in_Rules (po_Instrument req)) in d_value (po_Quantity req) = (Q2Qc (inject_Z k) * d_value m)%Qc → 0 < k ≤ int64_max →
  let o := gateFuturesOrder (futures_echo (gateFuturesPlaceOrder req native k) id status finish) i m in same_order req o ∧ or_OrderID o = gateOrderID id.
Proof.
  intros Hs Ht -> m Hk Hrange. destruct (limit_not_market _ _ Hs Ht) as [Hm Hty]. unfold gateFuturesPlaceOrder. rewrite Hm. cbv zeta.
  destruct (gate_decimal_printed (po_LimitPrice req)) as (p & Hp & Hpv & _). destruct (os_type Hs) as [(E & _)|(_ & _ & _ & Hpol)]; [by rewrite Ht in E|].
  set (size := if String.eqb (po_Side req) SideSell then wrap64 (- k) else k).
  assert (Hsz : sized size = (po_Side req, k) ∧ abs64 size = k).
  { unfold size, sized, abs64. destruct (os_side Hs) as [<-|[<-|[]]].
    - change (String.eqb SideBuy SideSell) with false. cbv iota. by rewrite (proj2 (Z.ltb_ge _ _)) by lia.
    - change (String.eqb SideSell SideSell) with true. cbv iota. rewrite !(wrap64_id (- k)) by (unfold in_int64, int64_min, int64_max in *; lia).
      rewrite (proj2 (Z.ltb_lt _ _)) by lia. rewrite Z.opp_involutive, wrap64_id by (unfold in_int64, int64_min, int64_max in *; lia). done. }
  destruct Hsz as [Hsz Habs]. assert (Hv : d_value (d_mul (d_new k 0) m) = d_value (po_Quantity req)).
  { rewrite d_value_mul. change 0 with (- Z.of_nat 0). rewrite d_new_fraction, scaled_0. by rewrite Hk. }
  unfold gateFuturesOrder, futures_echo. cbn [fd_Contract fd_Size fd_Price fd_ReduceOnly fd_TIF fd_Text fd_Left fd_ID fd_IsReduceOnly fd_FillPrice fd_Status fd_FinishAs]. rewrite Hsz, Habs. split; [|done].
  split; cbn [or_NativeSymbol or_ClientOrderID or_Side or_Type or_LimitPolicy or_ReduceOnly or_Quantity or_LimitPrice or_Filled].
  - done.
  - by apply client_id_back, (os_client_id Hs).
  - done.
  - unfold gateFuturesOrderType. cbn [fd_Price]. by rewrite Hty, Ht.
  - by apply gate_policy_back.
  - by rewrite orb_false_r.
  - exact Hv.
  - by rewrite Hp.
  - rewrite d_value_sub. ring.
Qed.

(** *** Acknowledgements *)

Lemma resting_ack product req (o : Order D) : In product [ProductSpot; ProductPerp] → Instrument_Validate (po_Instrument req) = Ok tt → same_order req o → po_Type req = OrderTypeLimit → or_OrderID o ≠ "" →
  let meta := mkMeta VenueGate product in
  ∃ ack, gateAckValidateForInstrument meta "PlaceOrder" (po_Instrument req) (gateAckFromOrder meta OrderOperationPlace (po_Type req) o) = (ack, None) ∧
    ack_State ack = AckResting ∧ ack_OrderID ack = or_OrderID o ∧ ack_ClientOrderID ack = po_ClientOrderID req.
Proof.
  intros Hp Hv Hs Ht Hid meta. destruct (native_solid _ Hv) as [Hn _]. unfold gateAckValidateForInstrument, gateAckFromOrder. change (String.eqb OrderOperationPlace OrderOperationCancel) with false. cbv iota zeta.
  assert (Hz : d_is_positive (or_Filled o) = false).
  { destruct (d_is_positive (or_Filled o)) eqn:E; [|done]. apply d_is_positive_spec in E. rewrite (so_unfilled _ _ Hs) in E. by apply Qcle_not_lt in E; [|apply Qcle_refl]. }
  rewrite Hz, Ht. change (String.eqb OrderTypeLimit OrderTypeMarket) with false. cbv iota. cbn [ack_NativeSymbol]. rewrite (so_symbol _ _ Hs), String.eqb_refl. cbn [negb].
  assert (Hid' : is_empty (or_OrderID o) = false) by (by destruct (or_OrderID o)). assert (Hp' : is_empty product = false) by (destruct Hp as [<-|[<-|[]]]; done).
  match goal with |- ∃ _, (?a, _) = _ ∧ _ => exists a end. split; [|split; [reflexivity|split; [reflexivity|exact (so_client _ _ Hs)]]].
  unfold Ack_Validate, set_native_id. cbv zeta. cbn [ack_Venue ack_Product ack_Operation ack_State ack_NativeSymbol ack_OrderID ack_ClientOrderID ack_TransactionHash ack_OrderType meta cm_venue cm_product].
  rewrite Hn, Hid', Hp'. reflexivity.
Qed.
Lemma text_kept (a : string) : is_empty a || is_empty a || String.eqb a a = true.
Proof. rewrite String.eqb_refl. by destruct (is_empty a). Qed.
Lemma fields_checked meta op fields : (∀ name value, (name, value) ∈ fields → gateParseDecimal (D:=D) value ≠ None) → gate_fields (D:=D) meta op fields = Ok tt.
Proof.
  intros Hf. unfold gate_fields. assert (Hm : ∃ l, map_result (λ field, gateValidateDecimal (D:=D) meta op field.1 field.2) fields = Ok l); [|by destruct Hm as [l ->]].
  induction fields as [|[name value] fields IH]; [by exists []|]. destruct IH as [l Hl]; [intros n v Hin; apply (Hf n); by right|]. cbn [map_result]. unfold gateValidateDecimal at 1. cbn [fst snd].
  specialize (Hf name value ltac:(by left)). destruct (gateParseDecimal (D:=D) value); [|done]. cbn [is_present]. rewrite Hl. by eexists.
Qed.
Lemma zero_parses : gateParseDecimal (D:=D) "0" ≠ None.
Proof. destruct d_parse_zero as (z & Hz & _). unfold gateParseDecimal. change (TrimSpace "0") with "0". change (is_empty "0") with false. cbv iota zeta. by rewrite Hz. Qed.
Lemma printed_parses (d : D) : gateParseDecimal (D:=D) (d_string d) ≠ None.
Proof. destruct (gate_decimal_printed d) as (d' & _ & _ & ->). done. Qed.
Lemma spot_echo_valid meta req native id status finish : order_spec req ProductSpot → po_Type req = OrderTypeLimit → gateValidateStatus meta "PlaceOrder" status finish = Ok tt →
  gateValidateSpotOrders (D:=D) meta "PlaceOrder" [spot_echo (gateSpotPlaceOrder req native) id status finish] = Ok tt.
Proof.
  intros Hs Ht Hst. destruct (limit_not_market _ _ Hs Ht) as [Hm _]. unfold gateSpotPlaceOrder. rewrite Hm. cbv zeta. unfold gateValidateSpotOrders. cbn [map_result spot_echo og_Side og_Amount og_Price og_Left og_FilledAmount og_AvgDealPrice og_Status og_FinishAs].
  assert (Hside : gateValidateSide meta "PlaceOrder" (po_Side req) = Ok tt) by (destruct (os_side Hs) as [<-|[<-|[]]]; by vm_compute). rewrite Hside, fields_checked; [by rewrite Hst|].
  intros name value Hin. rewrite !elem_of_cons, elem_of_nil in Hin. destruct Hin as [[= _ ->]|[[= _ ->]|[[= _ ->]|[[= _ ->]|[[= _ ->]|[]]]]]]; apply printed_parses || apply zero_parses.
Qed.
Lemma futures_echo_valid meta req native k id status finish : order_spec req ProductPerp → po_Type req = OrderTypeLimit → gateValidateStatus meta "PlaceOrder" status finish = Ok tt →
  gateValidateFuturesOrders (D:=D) meta "PlaceOrder" [futures_echo (gateFuturesPlaceOrder req native k) id status finish] = Ok tt.
Proof.
  intros Hs Ht Hst. destruct (limit_not_market _ _ Hs Ht) as [Hm _]. unfold gateFuturesPlaceOrder. rewrite Hm. cbv zeta. unfold gateValidateFuturesOrders. cbn [map_result futures_echo fd_Price fd_FillPrice fd_Status fd_FinishAs].
  rewrite fields_checked; [by rewrite Hst|]. intros name value Hin. rewrite !elem_of_cons, elem_of_nil in Hin. destruct Hin as [[= _ ->]|[[= _ ->]|[]]]; apply printed_parses || apply zero_parses.
Qed.

Lemma FormatInt_written n : FormatInt n ≠ "".
Proof. unfold FormatInt. destruct (n <? 0); [done|apply FormatUint_nonempty]. Qed.
Lemma spot_sent req book post : let meta := mkMeta VenueGate ProductSpot in let i := po_Instrument req in let order := gateSpotPlaceOrder req (id_NativeSymbol (in_Identity i)) in
  PlaceOrder_Validate req ProductSpot = Ok tt → id_Venue (in_Identity i) = VenueGate → id_Product (in_Identity i) = ProductSpot → po_Type req = OrderTypeLimit →
  ∃ reply, gate_spot_PlaceOrder Quote meta (Some None) req book post = (Some order, reply) ∧
    ∀ row, CreateSpotOrder Quote order post = Ok row → gateValidateSpotOrders (D:=D) meta "PlaceOrder" [row] = Ok tt →
      reply = gateAckValidateForInstrument meta "PlaceOrder" i (gateAckFromOrder meta OrderOperationPlace (po_Type req) (gateSpotOrder row i)).
Proof.
  intros meta i order Hval Hve Hpr Ht. pose proof (proj1 (PlaceOrder_Validate_spec req _) Hval) as Hs. pose proof (gate_symbol _ "PlaceOrder" _ (os_instrument Hs) Hve Hpr) as Hsym.
  unfold gate_spot_PlaceOrder, gate_place_symbol. cbn [gateContext]. rewrite Hval. unfold meta at 1. rewrite Hsym. fold i order. replace (gate_amount meta req _ order book) with (Ok order : result error gate_Order) by (unfold gate_amount; by rewrite Ht).
  eexists. split; [reflexivity|]. intros row Hc Hv. rewrite Hc. by rewrite Hv.
Qed.
Lemma sent_size req native k : order_spec req ProductPerp → po_Type req = OrderTypeLimit → 0 < k ≤ int64_max → Z.abs (fd_Size (gateFuturesPlaceOrder req native k)) = k.
Proof.
  intros Hs Ht Hk. destruct (limit_not_market _ _ Hs Ht) as [Hm _]. unfold gateFuturesPlaceOrder. rewrite Hm. cbn [fd_Size]. destruct (String.eqb (po_Side req) SideSell); [|lia].
  rewrite wrap64_id by (unfold in_int64, int64_min, int64_max in *; lia). lia.
Qed.
Lemma perp_sent req settle post k : let meta := mkMeta VenueGate ProductPerp in let i := po_Instrument req in let lot := ru_QuantityIncrement (in_Rules i) in
  let order := gateFuturesPlaceOrder req (id_NativeSymbol (in_Identity i)) k in
  PlaceOrder_Validate req ProductPerp = Ok tt → id_Venue (in_Identity i) = VenueGate → id_Product (in_Identity i) = ProductPerp → en_ContractMultiplier (in_Encoding i) = mkOptDec lot true → (0 < d_value lot)%Qc → whole_contracts meta req lot = Ok k →
  ∃ reply, gate_perp_PlaceOrder Quote meta settle (Some None) req post = (Some order, reply) ∧
    ∀ row, CreateFuturesOrder Quote settle order post = Ok row → gateValidateFuturesOrders (D:=D) meta "PlaceOrder" [row] = Ok tt →
      reply = gateAckValidateForInstrument meta "PlaceOrder" i (gateAckFromOrder meta OrderOperationPlace (po_Type req) (gateFuturesOrder row i lot)).
Proof.
  intros meta i lot order Hval Hve Hpr Henc Hpos Hwhole. pose proof (proj1 (PlaceOrder_Validate_spec req _) Hval) as Hs. pose proof (gate_symbol _ "PlaceOrder" _ (os_instrument Hs) Hve Hpr) as Hsym.
  assert (Hc : gateContractMultiplier meta "PlaceOrder" i = Ok lot).
  { unfold gateContractMultiplier. fold i. rewrite Hve, Hpr, Henc. cbn [od_Valid od_Value]. by rewrite (proj2 (d_is_positive_spec _) Hpos). }
  unfold gate_perp_PlaceOrder, gate_place_symbol. cbn [gateContext]. rewrite Hval. unfold meta at 1. rewrite Hsym. fold i. rewrite Hc, Hwhole. fold order.
  eexists. split; [reflexivity|]. intros row Hr Hv. rewrite Hr. by rewrite Hv.
Qed.

(** C24: a valid limit order for an instrument the loader published is sent, a futures
    order in whole contracts worth exactly the quantity, and what the venue lists
    of it unfilled reads back as the order asked for.  Answered with that row the
    placement is acknowledged under the venue's id as resting, whatever the row
    says of its status. *)
Theorem gate_limit_order_exact product scope now pairs contracts snap req :
  gate_LoadInstruments product scope now pairs contracts = Ok snap → po_Instrument req ∈ sn_Instruments snap → PlaceOrder_Validate req product = Ok tt → po_Type req = OrderTypeLimit →
  let meta := mkMeta VenueGate product in let i := po_Instrument req in let lot := ru_QuantityIncrement (in_Rules i) in
  (product = ProductSpot → ∀ book post, ∃ order, (gate_spot_PlaceOrder Quote meta (Some None) req book post).1 = Some order ∧
     ∀ id status finish, id ≠ "" → gateValidateStatus meta "PlaceOrder" status finish = Ok tt →
       let row := spot_echo order id status finish in same_order req (gateSpotOrder row i) ∧ or_OrderID (gateSpotOrder row i) = id ∧
       (post order = Ok row → ∃ ack, (gate_spot_PlaceOrder Quote meta (Some None) req book post).2 = (ack, None) ∧
          ack_State ack = AckResting ∧ ack_OrderID ack = id ∧ ack_ClientOrderID ack = po_ClientOrderID req)) ∧
  (product = ProductPerp → ∀ settle post k, d_value (po_Quantity req) = (Q2Qc (inject_Z k) * d_value lot)%Qc → k ≤ int64_max →
     ∃ order, (gate_perp_PlaceOrder Quote meta settle (Some None) req post).1 = Some order ∧ Z.abs (fd_Size order) = k ∧
     ∀ id status finish, id ≠ 0 → gateValidateStatus meta "PlaceOrder" status finish = Ok tt →
       let row := futures_echo order id status finish in same_order req (gateFuturesOrder row i lot) ∧ or_OrderID (gateFuturesOrder row i lot) = FormatInt id ∧
       (post settle order = Ok row → ∃ ack, (gate_perp_PlaceOrder Quote meta settle (Some None) req post).2 = (ack, None) ∧
          ack_State ack = AckResting ∧ ack_OrderID ack = FormatInt id ∧ ack_ClientOrderID ack = po_ClientOrderID req)).
Proof.
  intros Hload Hin Hval Ht. cbv zeta. pose proof (proj1 (PlaceOrder_Validate_spec req product) Hval) as Hs. destruct (gate_loaded _ _ _ _ _ _ _ Hload Hin) as (Hve & Hpr & Hmul). split.
  - intros -> book post. destruct (spot_sent req book post Hval Hve Hpr Ht) as (reply & -> & Hreply). eexists. split; [reflexivity|]. intros id status finish Hid Hst.
    destruct (spot_listed req _ (po_Instrument req) id status finish Hs Ht eq_refl) as [Hsame Hoid]. cbv zeta in Hsame, Hoid. split; [done|]. split; [done|]. intros Hpost. cbn [snd]. erewrite Hreply.
    + destruct (resting_ack ProductSpot req _ (os_product Hs) (os_instrument Hs) Hsame Ht) as (ack & Ea & Hack); [by rewrite Hoid|]. cbv zeta in Ea. rewrite Ea. rewrite Hoid in Hack. by exists ack.
    + unfold CreateSpotOrder. cbv zeta. rewrite Hpost. cbn [spot_echo og_ID og_Text og_CurrencyPair]. replace (is_empty id) with false by (by destruct id). cbn [negb]. by rewrite !text_kept.
    + exact (spot_echo_valid _ _ _ _ _ _ Hs Ht Hst).
  - intros -> settle post k Hk Hmax. destruct (Hmul eq_refl) as [Henc Hpos]. destruct (contracts_whole (mkMeta VenueGate ProductPerp) req k Hpos (os_positive Hs) Hk Hmax) as [Hk0 Hwhole].
    destruct (perp_sent req settle post k Hval Hve Hpr Henc Hpos Hwhole) as (reply & -> & Hreply). eexists. split; [reflexivity|]. split; [by apply (sent_size req _ k Hs Ht); lia|].
    intros id status finish Hid Hst. destruct (futures_listed req _ (po_Instrument req) k id status finish Hs Ht eq_refl Hk ltac:(lia)) as [Hsame Hoid]. cbv zeta in Hsame, Hoid.
    assert (Hgid : gateOrderID id = FormatInt id) by (unfold gateOrderID; by rewrite (proj2 (Z.eqb_neq _ _) Hid)). rewrite Hgid in Hoid.
    split; [done|]. split; [done|]. intros Hpost. cbn [snd]. erewrite Hreply.
    + destruct (resting_ack ProductPerp req _ (os_product Hs) (os_instrument Hs) Hsame Ht) as (ack & Ea & Hack); [rewrite Hoid; apply FormatInt_written|]. cbv zeta in Ea. rewrite Ea. rewrite Hoid in Hack. by exists ack.
    + unfold CreateFuturesOrder. cbv zeta. rewrite Hpost. cbn [futures_echo fd_ID fd_Text fd_Contract]. rewrite (proj2 (Z.eqb_neq _ _) Hid). cbn [negb]. by rewrite !text_kept.
    + exact (futures_echo_valid _ _ _ _ _ _ _ Hs Ht Hst).
Qed.
End faithful.

(** ** Concrete inputs *)

Definition btc_contract : Contract := mkGateContract "BTC_USDT" "0.0001" "65000" "0.0001" (FundingHistory.of_int 0) "0.1" 1 false "trading".
Definition btc_pair : CurrencyPair := mkCurrencyPair "BTC_USDT" "BTC" "USDT" "0.00001" "3" 6 1 "tradable".
Definition gate_scope (product settle : string) : CatalogScope := InstrumentCatalog.mkScope VenueGate "mainnet" product settle "" "".
Definition gate_snapshot (product settle : string) : InstrumentSnapshot fixed :=
  match gate_LoadInstruments product (gate_scope product settle) 7 (Ok [btc_pair]) (λ _, Ok [btc_contract]) with Ok snapshot => snapshot | Err _ => zero_snapshot end.
Definition listed_first (snapshot : InstrumentSnapshot fixed) : Instrument fixed :=
  default (newInstrument "" "" "" "" "" "" "" "" (mkFixed 0 0) (mkFixed 0 0) (mkFixed 0 0) no_decimal no_decimal) (head (sn_Instruments snapshot)).
Definition gate_contract : Instrument fixed := listed_first (gate_snapshot ProductPerp "USDT").
Definition gate_pair : Instrument fixed := listed_first (gate_snapshot ProductSpot "").
Definition contract_order (policy : string) : PlaceOrderRequest fixed := mkPlaceOrder gate_contract "17" SideSell OrderTypeLimit (mkFixed 3 3) (mkFixed 650005 1) policy false.
Definition contract_answer (status finish settle : string) (order : FuturesOrder) : result sdk_error FuturesOrder := Ok (futures_echo order 901 status finish).
Definition gate_perp_meta : clientMeta := mkMeta VenueGate ProductPerp.
Definition gate_spot_meta : clientMeta := mkMeta VenueGate ProductSpot.
Example contract_order_sent : (gate_perp_PlaceOrder (λ s, s) gate_perp_meta "usdt" (Some None) (contract_order LimitPolicyPostOnly) (contract_answer "open" "")).1 =
  Some (mkFuturesOrder 0 "BTC_USDT" (-30) "65000.5" false "poc" "t-17" 0 "" "" "" false "" "").
Proof. vm_compute. reflexivity. Qed.
Lemma gate_limit_order_exact_witness :
  ∃ order, (gate_perp_PlaceOrder (λ s, s) gate_perp_meta "usdt" (Some None) (contract_order LimitPolicyPostOnly) (contract_answer "open" "")).1 = Some order ∧ Z.abs (fd_Size order) = 30 ∧
    same_order (contract_order LimitPolicyPostOnly) (gateFuturesOrder (futures_echo order 901 "open" "") gate_contract (mkFixed 1 4)).
Proof.
  assert (Hi : gate_contract ∈ sn_Instruments (gate_snapshot ProductPerp "USDT")).
  { assert (E : sn_Instruments (gate_snapshot ProductPerp "USDT") = [gate_contract]) by (vm_compute; reflexivity). rewrite E. by left. }
  destruct (gate_limit_order_exact (D:=fixed) (λ s, s) ProductPerp (gate_scope ProductPerp "USDT") 7 (Ok [btc_pair]) (λ _, Ok [btc_contract]) (gate_snapshot ProductPerp "USDT") (contract_order LimitPolicyPostOnly))
    as [_ Hperp]; [vm_compute; reflexivity|exact Hi|vm_compute; reflexivity|reflexivity|].
  destruct (Hperp eq_refl "usdt" (contract_answer "open" "") 30) as (order & Ho & Hsize & Hl); [apply Qc_is_canon; vm_compute; reflexivity|unfold int64_max; lia|].
  exists order. split; [exact Ho|]. split; [exact Hsize|]. destruct (Hl 901 "open" "") as (Hsame & _); [discriminate|vm_compute; reflexivity|]. exact Hsame.
Defined.

(** An order that was to trade at once or not at all, canceled by the venue without
    a trade, is acknowledged as resting. *)
Example canceled_order_rests :
  map (λ state, ack_State (gate_perp_PlaceOrder (λ s, s) gate_perp_meta "usdt" (Some None) (contract_order LimitPolicyIOC) (contract_answer state.1 state.2)).2.1) [("open", ""); ("finished", "ioc")] =
  [AckResting; AckResting].
Proof. vm_compute. reflexivity. Qed.
(** A market buy is sent for an amount of the quote asset, and the amount the
    venue echoes is taken for a quantity of the base asset: bought whole at 50000 it
    is acknowledged as filled in part, and half bought at 0.5 as filled. *)
Definition market_buy (quantity : fixed) : PlaceOrderRequest fixed := mkPlaceOrder gate_pair "17" SideBuy OrderTypeMarket quantity (mkFixed 0 0) "" false.
Definition asked_at (price native : string) (limit : Z) (id : bool) : result sdk_error gate_OrderBook := Ok (mkGateBook 1 0 [[price; "9"]] []).
Definition bought (amount price : string) (order : gate_Order) : result sdk_error gate_Order :=
  Ok (mkGateOrder "901" (og_Text order) "1700000000123" "1700000000123" "closed" (og_CurrencyPair order) (og_Type order) (og_Account order) (og_Side order) (og_Amount order) ""
        (og_TimeInForce order) "0" amount price "filled").
Example market_buy_misread :
  map (λ case, match case with (quantity, price, filled) =>
         let reply := gate_spot_PlaceOrder (λ s, s) gate_spot_meta (Some None) (market_buy quantity) (asked_at price) (bought filled price) in (option_map og_Amount reply.1, ack_State reply.2.1) end)
    [(mkFixed 1 3, "50000", "0.001"); (mkFixed 10 0, "0.5", "5")] =
  [(Some "50", AckPartiallyFilled); (Some "5", AckImmediatelyFilled)].
Proof. vm_compute. reflexivity. Qed.
